(* ===== verification/_CoqProject ===== *)
-Q . S2P
Prelude.v
Bits.v
Bitmap.v
BlkBuf.v
I2p.v
Object.v
Handle.v
Sched.v
Sync.v
Vm.v
KoSection.v
Pa.v
Stock.v
Fault.v
MemAlloc.v
Walk.v
Page.v
Machine.v
RingBuff.v
Msg.v
Ktm.v
Valloc.v
CString.v
Exe.v
Process.v
Printf.v
FsCache.v
FsTree.v
Ihash.v
Pthread.v
Stream.v
Timer.v
FsReq.v
Resource.v
Irq.v
IrqLine.v
Dpc.v
Pic.v
Srv.v
FileReq.v
Lock.v
Div64.v
