(* ===== verification/Prelude.v ===== *)
(** * GridOS: a verification library for the kernel's core components

    GridOS is a small operating system in C.  This library models the parts of
    its kernel that keep state for everybody else, from the bit searches up to
    address spaces, and proves what each part promises.  The target is the
    default configuration, i386: 32-bit words, little-endian, 4 KB pages.

    ** The program and the files

    The components call each other from top to bottom of this list; every file
    models one of them and requires the files of the components it calls.

    - [Prelude]: words, outcomes of computations, memory as lists of words,
      tactics, and the specification [scan_up] of every find-first loop.
    - [Bits]: [drivers/hal/include/arch/x86/asm/bitops.h] and
      [libs/common/cpu/bit.c], the bit instructions and the word-at-a-time
      searches.
    - [Bitmap]: [libs/common/cpu/bitmap.c], the allocator of bits and runs of
      bits.
    - [BlkBuf]: [libs/common/blkbuf.c], fixed-size blocks in buffers that the
      owner adds; the instances are a store with their links.
    - [I2p]: [libs/common/i2p.c], tables from small integers to pointers.
    - [Object]: [libs/common/object], typed objects with reference counters
      and names, allocated by [BlkBuf].
    - [Handle]: [kernel/handle.c], handles of a process; it uses the class
      [IndexTable], of which the table of [I2p] is the instance.
    - [Sched]: [kernel/process/sched.c] and [sleep.c], run queues, sleeping and
      waking.
    - [Sync]: [kernel/process/sync.c], [kernel/event.c], [mutex.c] and
      [complete.c], waiting for objects; the users of a mutex are a step
      relation whose steps interleave, and a waiter that has given up the lock
      but has not yet gone to sleep is a state of its own.
    - [Vm]: [kernel/memory/vm.c] and the lookups of [exp.c] and [section.c],
      allocation of addresses in sorted lists of ranges.
    - [KoSection]: [kernel/memory/section.c] and the mapping functions of
      [vm.c]; it uses the class [ObjectPool], of which [Object] is the instance.
    - [Pa]: [kernel/memory/pa.c], physical pages in clusters with a bitmap.
    - [Stock]: pools of objects that have the memory for what is created from
      them, as the class [ObjectStock].
    - [Fault]: [kernel/memory/exp.c] and the entry of the x86 page fault, over
      the class [PageOps] of page-table operations.
    - [MemAlloc]: [libs/common/malloc.c], the variable-size heap.
    - [Walk]: [kernel/memory/walk.c] and [kernel/include/walk.h], walks over
      two-level page tables in the frames of memory, over the class [PagePool]
      of an allocator of pages; who may use which part of which table is the
      class [Ownership].
    - [Page]: [kernel/memory/page.c], the x86 set-up of address spaces in
      [kernel/arch/x86/page.c] and the memory of a new process.
    - [Machine]: the two joined with [Pa], which is the instance of
      [PagePool], and with [Fault], whose [PageOps] they implement.
    - [RingBuff]: [libs/common/ring_buff.c], the ring of packages between a
      writer and a reader.
    - [Msg]: [libs/common/msg.c], the ring of message slots of a thread as
      sender and receiver use it, and the message functions of
      [libs/grid/sys/process.c].
    - [Ktm]: [kernel/process/msg.c], sending, waiting for the answer and
      acknowledging, on the scheduler of [Sched]; the pages of the rings come
      from a [Bitmap], the sections that map them are the class [RingMap], of
      which [KoSection] is the instance.
    - [Valloc]: [kernel/memory/valloc.c], the heap of the kernel, the instance
      of the class [KernelHeap], and the aligned blocks of
      [subsystem/fs/mltt.c], the class [AlignedHeap].
    - [CString]: [libs/common/cpu/string.c], [misc/fname.c] and
      [misc/h2d.c], strings and decimal numbers.
    - [Exe]: [kernel/process/exe.c], executables and their place in a process,
      over the class [ElfImage] of the ELF library's functions.
    - [Process]: [kernel/process/process.c] and [thread.c], creation of
      processes and threads and the way of the command line into a new process;
      it joins [Exe], [KoSection], [Handle], [Sched] and [Ktm].
    - [Printf]: [libs/common/misc/vsprintf.c], formatted output and the
      number parsers.
    - [FsCache]: the block cache of [subsystem/fs]: [block.c] and [mltt.c],
      with their users in [main.c] and [map.c]; its buffers come from a heap
      of the class [AlignedHeap].
    - [FsTree]: the tree of files of [subsystem/fs]: [tree.c] and the volumes,
      drivers and path resolution of [main.c], over the class [VfsDriver] of
      what a file-system driver promises.
    - [Ihash]: [libs/pthread/ihash.c], the open-addressing hash table of the
      threads library.
    - [Pthread]: [libs/pthread/pthread_key.c] and [pthread_specific.c], on
      [Ihash].
    - [Stream]: the files of the user library: [libs/grid/stdio] and the
      requests of [libs/grid/sys/file.c].
    - [FsReq]: listing a directory, [req_readdir] of [subsystem/fs/main.c] with
      its reader in [libs/grid/dirent], on [FsTree]; and the notifications of
      [subsystem/fs/fsnotify.c].
    - [Timer]: [drivers/hal/time/timer.c], the timing wheel of the software
      timers.
    - [Resource]: [drivers/hal/main/resource.c], the tree of the ports and
      memory ranges of devices.
    - [Irq]: [drivers/hal/irq], the descriptors of interrupt lines and their
      operations, from the request of a handler to the handling of an interrupt,
      over a record of the operations of an interrupt controller.
    - [IrqLine]: the invariant of the lines and what each operation does to it,
      over the class [MaskChip] of controllers that can mask a line.
    - [Dpc]: [drivers/hal/irq/dpc.c], the procedures that run at the end of
      interrupts.
    - [Pic]: [drivers/hal/arch/x86/i8259.c], [irqinit.c], [irq.c] and
      [irq_32.c], the 8259A, which is the instance of [MaskChip], the lines at
      the boot and the entry of an interrupt.
    - [Srv]: [kernel/srv.c], the tables of system calls and the services for
      memory, processes, executables, threads and waiting, on [Process].
    - [FileReq]: the requests of [subsystem/fs/main.c] on files by their handles;
      it joins [Handle], [FsTree], [FsCache] and [Srv].
    - [Lock]: [kernel/lock.c] on the spin locks and read-write locks of x86
      ([drivers/hal/include/arch/x86/asm/spinlock.h], [arch/x86/lib/rwlock.S]) and
      [kernel/cs.c]; concurrent threads step through their accesses.
    - [Div64]: [drivers/hal/libs/div64.c] and [asm/div64.h], the division of
      64-bit numbers, with [time/clocksource.c] and [time/clockevents.c], the
      factors between ticks and nanoseconds.

    All paths are below [src/source]; types come from the headers beside them.
    A definition has the name of the C function it translates; loops, labels
    and the code after a sleep have definitions of their own, named in the
    comments.  A structure is a record, an intrusive list is the list of its
    elements in order, a pointer is an address or an index.

    ** Outcomes

    Code that can make an access its data do not have returns [option], and
    [None] is that access (or a panic); code with a loop that is not bounded by
    its data returns [run], with [NoFuel] when the fuel of the model ends.  A
    theorem about such code says that it returns, with a lower bound on the
    fuel: the number of rounds is bounded by the bits of the map (runs of
    bits), the instances (blocks) or the size of the buffer (extension).  Where
    [NoFuel] is the result for every fuel the theorem is that the code does not
    terminate.  Arithmetic on unsigned words is followed by [wrap]; where a
    theorem assumes that a sum stays below [2^32], another theorem says what
    the code does otherwise, or the bound follows from the configuration.

    ** What the theorems show

    - Searches and bitmaps: the word-at-a-time searches equal the bit-by-bit
      ones and stay inside the map; one bit is allocated and released exactly;
      a run is found whenever there is one, and the search of a fragmented map
      whose last bit is used does not terminate.
    - Block, index and object allocators: each is a refinement of an abstract
      state (the blocks handed out, the map from indices to pointers, the
      objects with their counters): an operation changes exactly the entry it
      is about and keeps the invariant of the linked representation.
    - Handles: a created handle translates back to its object, counters and
      lock are accounted for on every branch.
    - Scheduling and synchronisation: wake-ups are not lost, the queues are
      served round robin, at most one thread owns a mutex in every reachable
      state of every interleaving, while it is free every waiter can run, with a
      wake-up pending if it has yet to sleep, and which thread an event or a
      completion wakes.
    - Memory: addresses are allocated disjoint, inside the range of the
      process and first fit; creation and closing of sections keep the address
      space sorted and disjoint; a fault address is found in the section that
      covers it; a physical page is handed out once; inserted RAM becomes
      available except its bitmap pages; the heap stays tiled, indexed and
      coalesced.
    - Page tables: a walk ends at the entry of its address; mapping, creation,
      copy on write, sharing and release change exactly the entries of their
      range in all address spaces, and no page is a table or a private frame
      twice; a fault on private memory enters a page that was free.  These are
      statements about page tables, allocator and fault handler together.
    - Executables and processes: a bound image has a subsection per segment, and
      a fault in a segment shows the page of the file that belongs there; a
      program that is run gets the kernel, its image and a stack in an address
      space of its own, a first thread that is queued, and its command line.
    - Ring buffer: the ring is a queue, to which allocation appends and from
      which the reader takes; released packages join their free neighbours.
    - Messages: the ring of a thread is a queue of messages, reserved in one
      step and visible in another; what a sender puts in is what the receiver
      reads; the receiver loop ends, calls for every message the code it is for and
      acknowledges the synchronous ones; an acknowledged sender is woken and gets
      the answer; rings of different threads are in different pages.
    - Formatted output: [printed] is the text of a format, directive by
      directive; [vsnprintf] writes that text, cut to the size of the buffer,
      and returns its length, while lengths are those of an [int] and addresses do
      not wrap; the parsers read back what is printed.
    - Aligned blocks are aligned, apart, and given back whole.
    - Block cache: the cached blocks and the files below them form one map
      from positions to bytes; block input and output through the cache reads
      and writes that map, and keeps the tables, buffers and LRU list tied.
    - Paths: opening a path gives the file the driver's own tree has there; it
      fails only if there is none, a directory could not be read or the driver
      refused.
    - Hash table: insertion, lookup and removal are those of a finite map; with
      them, a thread-specific value is what the thread last set for the key.
    - Streams: a read inside the file returns the bytes of the file behind the
      stream, and one beyond its end does not return, because the file system
      reports the same size for every file; the modes of [fopen] are those of the
      manual.
    - Directory listing: what a program reads from a directory is what the driver
      has in it; notifications reach the threads registered for them.
    - Timers: the wheel is a map from timers to the ticks they are due; a tick
      calls the timers due, each once, and distributes the lists of the levels
      so that no timer is late or early; slack never makes a timer early.
    - Device resources: the tree is laminar; a region given to a driver
      overlaps no busy region, and a refused request leaves no trace.
    - Interrupts: in every state that drivers and interrupts can reach from the
      boot, a line that is disabled is masked in the controller and an enabled
      one with a handler is open, whatever the handlers do; every request is
      granted or refused for its reason, a refused one leaves no trace and one that
      is granted is undone by the release;
      no deferred procedure that was raised is forgotten.
    - Services: memory that a program asks for is a new section of its address
      space, for which it gets a handle unless its table is full.
    - Locks: at most one thread owns a spin lock, in the order of the tickets; a
      writer of a read-write lock is alone; for every interleaving of as many
      threads as the words can count.
    - Division and clocks: the routines for 64 bits are the division, and the
      shift of a clock is the largest whose factor does not overflow for the time
      it is for, if there is one.
    - File requests: an opened path is a handle of the file the driver has there;
      reads and writes by handle are those of the file, and a handle of a file
      makes the heap take the file's block for a free one.
    - Errors: theorems named after a failure ([..._diverges], [..._wraps],
      [..._overlaps], [..._dangles], [..._lost_wakeup], [..._leaks_lock],
      [memalloc_init_too_small], [memalloc_exact_fit_refused], [memfree_free_node], [kernel_fault_loses_page],
      [page_dealloc_range_zero], [ring_buff_free_only_package],
      [abandoned_sender_faults], [aligned_malloc_truncates],
      [number_truncates_long_long], [cl_locate_pure_file_name_mixed],
      [search_mltt_null], [cache_full_faults], [make_valid_hides_error],
      [blocks_alias], [lru_exchange_last], [lookup_in_file_faults],
      [dotdot_at_root_faults], [broken_import_final], [label_overflow],
      [ihash_add_null_hides], [ihash_destroy_faults], [key_test_past_end],
      [write_flushes_wrong_block], [fseek_never_fails], [swap_out_drops_data],
      [fread_counts_partial], [cascade_counts_twice], [slack_into_past],
      [readdir_skips_entries], [readdir_cuts_name], [register_twice],
      [adjust_to_nothing], [register_unknown_type_faults],
      [open_failure_drops_process], [exe_create_temp_faults],
      [bind_accepts_overlap], [startup_cuts], [kernel_thread_null_stack],
      [can_request_free_line], [setup_irq_out_of_range],
      [percpu_no_action_faults], [process_create_own_handle],
      [wait_objs_unwinds_garbage], [system_call_out_of_range],
      [file_handle_frees_file], [critical_count_wraps], [div64_u64_wrong],
      [clocks_shift_mismatch]) show inputs on which the code does not do what it
      means to.

    ** What is not modelled

    The system calls for events and messages, whose kernel functions are in
    [Sync] and [Ktm], the session server and the start of the first process from
    its boot module are not modelled.  In [FileReq] the tables of the block cache
    come from a heap of their own.
    [vsnprintf_correct] is about formats without [%pV], which the model has.
    Device access other than the ports of the 8259A, the gates of the
    processor, the APIC, the boot loader, the network stack and the C++ library
    are outside: they are hardware access or third-party code.  There is one CPU,
    as in the source ([kac_get] returns the boot CPU); code that runs with a lock
    held or with interrupts disabled is one step, except in [Lock], where every
    access to a lock is one. *)

From stdpp Require Export base numbers list.
From Stdlib Require Export ZArith Lia.

(** ** Machine words

    The default target of the build ([config.mk]) is i386: [unsigned long],
    [size_t] and pointers are 32 bits wide, bytes have 8 bits and words are
    stored little-endian.  A C value of an unsigned type is a [Z] in
    [0 .. 2^32 - 1]; every operation that can wrap is followed by [wrap]. *)

Declare Scope c_scope.
Delimit Scope c_scope with C.
Global Open Scope Z_scope.

Definition BITS_PER_LONG : Z := 32.
Definition CHAR_BIT : Z := 8.
Definition SIZEOF_LONG : Z := 4.
Definition ULONG_MAX : Z := 4294967295.

Definition wrap (z : Z) : Z := z mod 4294967296.

(** [(int)x]: the two's complement reading of the low 32 bits. *)
Definition to_int (z : Z) : Z :=
  let u := wrap z in if u <? 2147483648 then u else u - 4294967296.

(** [~x] on an unsigned long. *)
Definition w_not (x : Z) : Z := ULONG_MAX - x.

Notation "a +w b" := (wrap (a + b)) (at level 50, left associativity) : c_scope.
Notation "a -w b" := (wrap (a - b)) (at level 50, left associativity) : c_scope.
Notation "a *w b" := (wrap (a * b)) (at level 40, left associativity) : c_scope.

Definition is_word (x : Z) : Prop := 0 <= x < 4294967296.

#[global] Instance is_word_dec x : Decision (is_word x).
Proof. unfold is_word. apply _. Defined.

(** ** Outcomes of code with unbounded loops

    [Ret]: the code returned; [Fault]: it accessed memory outside its object
    (or panicked); [NoFuel]: the fuel of the model ran out, which for a loop
    that returns [NoFuel] for every fuel means that it does not terminate. *)

Inductive run (A : Type) : Type :=
  | Ret (a : A)
  | Fault
  | NoFuel.
Arguments Ret {A} a.
Arguments Fault {A}.
Arguments NoFuel {A}.

#[global] Instance run_ret : MRet run := @Ret.
#[global] Instance run_bind : MBind run := fun A B f m =>
  match m with Ret a => f a | Fault => Fault | NoFuel => NoFuel end.

(** An access that can fail, inside a computation that can also diverge. *)
Definition lift {A} (o : option A) : run A :=
  match o with Some a => Ret a | None => Fault end.

(** ** Automation *)

Create HintDb grid.

(** Turn boolean comparisons of the code into propositions. *)
Ltac zbool :=
  repeat match goal with
  | H : (_ && _)%bool = true |- _ => apply andb_true_iff in H; destruct H
  | H : (_ || _)%bool = false |- _ => apply orb_false_iff in H; destruct H
  | H : negb _ = true |- _ => apply negb_true_iff in H
  | H : negb _ = false |- _ => apply negb_false_iff in H
  | H : (_ =? _) = true |- _ => apply Z.eqb_eq in H
  | H : (_ =? _) = false |- _ => apply Z.eqb_neq in H
  | H : (_ <? _) = true |- _ => apply Z.ltb_lt in H
  | H : (_ <? _) = false |- _ => apply Z.ltb_ge in H
  | H : (_ <=? _) = true |- _ => apply Z.leb_le in H
  | H : (_ <=? _) = false |- _ => apply Z.leb_gt in H
  end.

(** [lia] for goals with [/] and [mod] by positive constants. *)
Ltac zlia := Z.to_euclidean_division_equations; lia.

(** Split the first conditional of the goal on its boolean test. *)
Ltac case_if :=
  match goal with
  | |- context [if ?b then _ else _] => destruct b eqn:?; zbool
  end.

Ltac case_ifs := repeat case_if.

(** ** Generic lemmas on words *)

Lemma wrap_small z : is_word z -> wrap z = z.
Proof. unfold wrap, is_word. intros. apply Z.mod_small; lia. Qed.

Lemma wrap_is_word z : is_word (wrap z).
Proof. unfold wrap, is_word. apply Z.mod_pos_bound; lia. Qed.
#[export] Hint Resolve wrap_is_word : grid.

Lemma to_int_id z : -2147483648 <= z < 2147483648 -> to_int z = z.
Proof.
  intros Hz. unfold to_int, wrap. destruct (Z.lt_ge_cases z 0).
  - rewrite <- (Z.mod_unique_pos z 4294967296 (-1) (z + 4294967296)) by lia. case_if; lia.
  - rewrite Z.mod_small by lia. case_if; lia.
Qed.

Lemma to_int_small z : 0 <= z < 2147483648 -> to_int z = z.
Proof. intros. apply to_int_id. lia. Qed.

Lemma w_not_is_word x : is_word x -> is_word (w_not x).
Proof. unfold is_word, w_not, ULONG_MAX. lia. Qed.
#[export] Hint Resolve w_not_is_word : grid.

Lemma w_not_lnot x : is_word x -> w_not x = wrap (Z.lnot x).
Proof.
  intros Hx. unfold w_not, ULONG_MAX, wrap, is_word, Z.lnot in *.
  apply (Z.mod_unique_pos _ _ (-1)); lia.
Qed.

Lemma testbit_wrap z i : 0 <= i < 32 -> Z.testbit (wrap z) i = Z.testbit z i.
Proof. intros. unfold wrap. change 4294967296 with (2 ^ 32).
  apply Z.mod_pow2_bits_low; lia. Qed.

Lemma testbit_w_not x i :
  is_word x -> 0 <= i < 32 -> Z.testbit (w_not x) i = negb (Z.testbit x i).
Proof.
  intros Hx Hi. rewrite w_not_lnot, testbit_wrap, Z.lnot_spec by (done || lia).
  done.
Qed.

Lemma testbit_word_high x i : is_word x -> 32 <= i -> Z.testbit x i = false.
Proof.
  intros [H0 H1] Hi. destruct (decide (x = 0)) as [->|]; [apply Z.testbit_0_l|].
  apply Z.bits_above_log2; [lia|].
  enough (Z.log2 x < 32) by lia. apply Z.log2_lt_pow2; lia.
Qed.

(** Words are determined by their 32 bits. *)
Lemma word_bits_eq x y :
  is_word x -> is_word y ->
  (forall i, 0 <= i < 32 -> Z.testbit x i = Z.testbit y i) -> x = y.
Proof.
  intros Hx Hy H. apply Z.bits_inj'. intros i Hi.
  destruct (decide (i < 32)); [apply H; lia|].
  rewrite !testbit_word_high by (done || lia). done.
Qed.

Lemma is_word_bits x :
  0 <= x -> (forall i, 32 <= i -> Z.testbit x i = false) -> is_word x.
Proof.
  intros H0 H. split; [done|].
  destruct (Z.lt_ge_cases x 4294967296) as [|Hge]; [done|exfalso].
  assert (Hl : 32 <= Z.log2 x).
  { replace 32 with (Z.log2 4294967296) by done. by apply Z.log2_le_mono. }
  specialize (H _ Hl). rewrite Z.bit_log2 in H by lia. done.
Qed.

Lemma lor_is_word x y : is_word x -> is_word y -> is_word (Z.lor x y).
Proof.
  intros Hx Hy. apply is_word_bits.
  - apply Z.lor_nonneg. unfold is_word in *. lia.
  - intros i Hi. rewrite Z.lor_spec, !testbit_word_high by done. done.
Qed.

Lemma land_is_word x y : is_word x -> 0 <= y -> is_word (Z.land x y).
Proof.
  intros Hx Hy. apply is_word_bits.
  - apply Z.land_nonneg. unfold is_word in *. lia.
  - intros i Hi. rewrite Z.land_spec, testbit_word_high by done. done.
Qed.

Lemma word_zero_bits x :
  is_word x -> (x = 0 <-> forall i, 0 <= i < 32 -> Z.testbit x i = false).
Proof.
  intros Hx. split.
  - intros ->. intros. apply Z.testbit_0_l.
  - intros H. apply word_bits_eq; [done|done|].
    intros. rewrite H, Z.testbit_0_l by done. done.
Qed.

(** ** Memory as a list of words

    [word_at a i] is [a[i]] for [unsigned long *a]: [None] when the index is
    outside the object, so that a definition that returns [None] made an
    access the C object does not have. *)

Definition word_at {A} (a : list A) (i : Z) : option A :=
  if 0 <=? i then a !! Z.to_nat i else None.

Definition word_set {A} (a : list A) (i : Z) (x : A) : option (list A) :=
  if (0 <=? i) && (i <? Z.of_nat (length a))
  then Some (<[Z.to_nat i := x]> a) else None.

Lemma word_at_Some {A} (a : list A) i :
  0 <= i < Z.of_nat (length a) -> exists x, word_at a i = Some x.
Proof.
  intros. unfold word_at. rewrite (proj2 (Z.leb_le 0 i)) by lia.
  apply lookup_lt_is_Some_2. lia.
Qed.

Lemma word_at_bound {A} (a : list A) i x :
  word_at a i = Some x -> 0 <= i < Z.of_nat (length a).
Proof.
  unfold word_at. case_if; [|done]. intros H%lookup_lt_Some. lia.
Qed.

Lemma word_at_set {A} (a : list A) i x :
  0 <= i < Z.of_nat (length a) ->
  word_set a i x = Some (<[Z.to_nat i := x]> a).
Proof.
  intros. unfold word_set.
  rewrite (proj2 (Z.leb_le 0 i)), (proj2 (Z.ltb_lt i _)) by lia. done.
Qed.

Lemma word_at_insert {A} (a : list A) i j x :
  0 <= i < Z.of_nat (length a) ->
  word_at (<[Z.to_nat i := x]> a) j = if i =? j then Some x else word_at a j.
Proof.
  intros Hi. unfold word_at. destruct (0 <=? j) eqn:Hj; zbool.
  - case_if; subst.
    + apply list_lookup_insert_eq. lia.
    + apply list_lookup_insert_ne. lia.
  - case_if; [lia|done].
Qed.

(** ** Lists *)

Lemma filter_absent {A} `{EqDecision A} (l : list A) (t : A) : t ∉ l -> filter (fun x => x <> t) l = l.
Proof.
  induction l as [|x l IH]; [done|]. intros [Hx Hl]%not_elem_of_cons.
  rewrite filter_cons_True by congruence. by rewrite IH.
Qed.

(** ** Bounded search

    [scan_up p i n] is the first index of [i .. i+n-1] that satisfies [p],
    or [i+n] if there is none: the specification of every find-first loop. *)

Fixpoint scan_up (p : Z -> bool) (i : Z) (n : nat) : Z :=
  match n with
  | O => i
  | S n' => if p i then i else scan_up p (i + 1) n'
  end.

Lemma scan_up_range p i n : i <= scan_up p i n <= i + Z.of_nat n.
Proof.
  revert i. induction n as [|n IH]; intros i; simpl; [lia|].
  destruct (p i); [lia|]. specialize (IH (i + 1)). lia.
Qed.

Lemma scan_up_before p i n j : i <= j < scan_up p i n -> p j = false.
Proof.
  revert i. induction n as [|n IH]; intros i; simpl; [lia|].
  destruct (p i) eqn:E; [lia|]. intros Hj.
  destruct (decide (j = i)) as [->|]; [done|]. apply (IH (i + 1)). lia.
Qed.

Lemma scan_up_hit p i n : scan_up p i n < i + Z.of_nat n -> p (scan_up p i n) = true.
Proof.
  revert i. induction n as [|n IH]; intros i; simpl; [lia|].
  destruct (p i) eqn:E; [done|]. intros. apply IH. lia.
Qed.

(** A result that satisfies the specification is the result. *)
Lemma scan_up_unique p i n r :
  i <= r <= i + Z.of_nat n ->
  (forall j, i <= j < r -> p j = false) ->
  (r < i + Z.of_nat n -> p r = true) ->
  scan_up p i n = r.
Proof.
  intros Hr Hb Hh.
  pose proof (scan_up_range p i n) as Hs.
  destruct (Z.lt_trichotomy (scan_up p i n) r) as [H|[H|H]]; [|done|].
  - specialize (Hb (scan_up p i n)). rewrite scan_up_hit in Hb by lia.
    discriminate Hb; lia.
  - rewrite (scan_up_before p i n r) in Hh by lia. discriminate Hh; lia.
Qed.

Lemma scan_up_ext p q i n :
  (forall j, i <= j < i + Z.of_nat n -> p j = q j) -> scan_up p i n = scan_up q i n.
Proof.
  revert i. induction n as [|n IH]; intros i H; simpl; [done|].
  rewrite H by lia. destruct (q i); [done|]. apply IH. intros. apply H. lia.
Qed.
