(* ===== verification/Bits.v ===== *)
(** * Bit primitives and bit searches

    [source/drivers/hal/include/arch/x86/asm/bitops.h] (the i386 bit
    instructions) and [source/libs/common/cpu/bit.c] (the word-at-a-time
    searches every allocator of the kernel is built on).  The searches are
    proved equal to the bit-by-bit scan [scan_up] of the prelude, and to stay
    inside the words of the map. *)

From S2P Require Import Prelude.

(** ** The instructions: [bt], [bts], [btr], [bsf], [bsr] *)

Module BitOps.

(** Bit [nr] of the map at [addr]: [bit 0] is the LSB of [addr[0]], [bit 32]
    the LSB of [addr[1]]. *)
Definition test_bit (nr : Z) (addr : list Z) : option bool :=
  w ← word_at addr (nr / BITS_PER_LONG);
  Some (Z.testbit w (nr mod BITS_PER_LONG)).

Definition __set_bit (nr : Z) (addr : list Z) : option (list Z) :=
  w ← word_at addr (nr / BITS_PER_LONG);
  word_set addr (nr / BITS_PER_LONG) (Z.lor w (Z.shiftl 1 (nr mod BITS_PER_LONG))).

Definition __clear_bit (nr : Z) (addr : list Z) : option (list Z) :=
  w ← word_at addr (nr / BITS_PER_LONG);
  word_set addr (nr / BITS_PER_LONG)
    (Z.land w (w_not (Z.shiftl 1 (nr mod BITS_PER_LONG)))).

Definition __test_and_set_bit (nr : Z) (addr : list Z) : option (bool * list Z) :=
  old ← test_bit nr addr;
  addr' ← __set_bit nr addr;
  Some (old, addr').

Definition __test_and_clear_bit (nr : Z) (addr : list Z) : option (bool * list Z) :=
  old ← test_bit nr addr;
  addr' ← __clear_bit nr addr;
  Some (old, addr').

(** [bsf]: the index of the least significant 1 (meaningful for a nonzero word). *)
Definition __ffs (word : Z) : Z := scan_up (Z.testbit word) 0 32.

Definition ffz (word : Z) : Z := __ffs (w_not word).

(** [bsr]: the index of the most significant 1. *)
Definition __fls (word : Z) : Z := Z.log2 word.

End BitOps.
Import BitOps.

(** ** The searches of bit.c *)

Definition BITOP_WORD (nr : Z) : Z := nr / BITS_PER_LONG.

Module FindBit.

(** Label [found_first] of [cl_find_next_zero_bit]. *)
Definition zero_found_first (tmp result size : Z) : Z :=
  let tmp := Z.lor tmp (wrap (Z.shiftl ULONG_MAX size)) in
  if tmp =? ULONG_MAX then (result +w size)%C
  else (result +w ffz tmp)%C.

(** The [while] over full words and the code after it. *)
Fixpoint zero_loop (fuel : nat) (addr : list Z) (p result size : Z) : option Z :=
  match fuel with
  | O => None
  | S fuel =>
    if Z.land size (w_not (BITS_PER_LONG - 1)) =? 0 then
      if size =? 0 then Some result
      else tmp ← word_at addr p; Some (zero_found_first tmp result size)
    else
      tmp ← word_at addr p;
      if w_not tmp =? 0
      then zero_loop fuel addr (p + 1) (result +w BITS_PER_LONG)%C
             (size -w BITS_PER_LONG)%C
      else Some (result +w ffz tmp)%C
  end.

(** Every iteration consumes a word: [size / 32 + 1] iterations are enough. *)
Definition loop_fuel (size : Z) : nat := S (Z.to_nat (size / BITS_PER_LONG)).

Definition cl_find_next_zero_bit (addr : list Z) (size offset : Z) : option Z :=
  let p := BITOP_WORD offset in
  let result := Z.land offset (w_not (BITS_PER_LONG - 1)) in
  if size <=? offset then Some size else
  let size := (size -w result)%C in
  let offset := offset mod BITS_PER_LONG in
  if negb (offset =? 0) then
    tmp ← word_at addr p;
    let tmp := Z.lor tmp (Z.shiftr ULONG_MAX (BITS_PER_LONG - offset)) in
    if size <? BITS_PER_LONG then Some (zero_found_first tmp result size)
    else if negb (w_not tmp =? 0) then Some (result +w ffz tmp)%C
    else zero_loop (loop_fuel size) addr (p + 1) (result +w BITS_PER_LONG)%C
           (size -w BITS_PER_LONG)%C
  else zero_loop (loop_fuel size) addr p result size.

(** Label [found_first] of [cl_find_next_bit]. *)
Definition one_found_first (tmp result size : Z) : Z :=
  let tmp := Z.land tmp (Z.shiftr ULONG_MAX (BITS_PER_LONG - size)) in
  if tmp =? 0 then (result +w size)%C
  else (result +w __ffs tmp)%C.

Fixpoint one_loop (fuel : nat) (addr : list Z) (p result size : Z) : option Z :=
  match fuel with
  | O => None
  | S fuel =>
    if Z.land size (w_not (BITS_PER_LONG - 1)) =? 0 then
      if size =? 0 then Some result
      else tmp ← word_at addr p; Some (one_found_first tmp result size)
    else
      tmp ← word_at addr p;
      if tmp =? 0
      then one_loop fuel addr (p + 1) (result +w BITS_PER_LONG)%C
             (size -w BITS_PER_LONG)%C
      else Some (result +w __ffs tmp)%C
  end.

Definition cl_find_next_bit (addr : list Z) (size offset : Z) : option Z :=
  let p := BITOP_WORD offset in
  let result := Z.land offset (w_not (BITS_PER_LONG - 1)) in
  if size <=? offset then Some size else
  let size := (size -w result)%C in
  let offset := offset mod BITS_PER_LONG in
  if negb (offset =? 0) then
    tmp ← word_at addr p;
    let tmp := Z.land tmp (wrap (Z.shiftl ULONG_MAX offset)) in
    if size <? BITS_PER_LONG then Some (one_found_first tmp result size)
    else if negb (tmp =? 0) then Some (result +w __ffs tmp)%C
    else one_loop (loop_fuel size) addr (p + 1) (result +w BITS_PER_LONG)%C
           (size -w BITS_PER_LONG)%C
  else one_loop (loop_fuel size) addr p result size.

(** [while (words) { tmp = addr[--words]; ... }] of [find_last_bit]; [words]
    is the loop variable, [size] the value returned when nothing is found. *)
Fixpoint last_loop (words : nat) (addr : list Z) (size : Z) : option Z :=
  match words with
  | O => Some size
  | S words =>
    tmp ← word_at addr (Z.of_nat words);
    if negb (tmp =? 0)
    then Some (Z.of_nat words *w BITS_PER_LONG +w __fls tmp)%C
    else last_loop words addr size
  end.

Definition find_last_bit (addr : list Z) (size : Z) : option Z :=
  let words := size / BITS_PER_LONG in
  if negb (Z.land size (BITS_PER_LONG - 1) =? 0) then
    w ← word_at addr words;
    let tmp := Z.land w (Z.shiftr ULONG_MAX
                 (BITS_PER_LONG - Z.land size (BITS_PER_LONG - 1))) in
    if negb (tmp =? 0) then Some (words *w BITS_PER_LONG +w __fls tmp)%C
    else last_loop (Z.to_nat words) addr size
  else last_loop (Z.to_nat words) addr size.

End FindBit.
Import FindBit.

(** ** The map as a function from bit numbers *)

(** Bit [i] of the words, [false] outside them. *)
Definition bit (addr : list Z) (i : Z) : bool :=
  match word_at addr (i / BITS_PER_LONG) with
  | Some w => Z.testbit w (i mod BITS_PER_LONG)
  | None => false
  end.

Definition words_ok (addr : list Z) : Prop := Forall is_word addr.

(** The number of bits the words hold. *)
Definition nbits (addr : list Z) : Z := BITS_PER_LONG * Z.of_nat (length addr).

(** The specification of the searches: a bit-by-bit scan. *)
Definition next_zero (addr : list Z) (size offset : Z) : Z :=
  if size <=? offset then size
  else scan_up (fun i => negb (bit addr i)) offset (Z.to_nat (size - offset)).
Definition next_one (addr : list Z) (size offset : Z) : Z :=
  if size <=? offset then size
  else scan_up (bit addr) offset (Z.to_nat (size - offset)).

(** ** Masks *)

Lemma testbit_ULONG_MAX i : 0 <= i < 32 -> Z.testbit ULONG_MAX i = true.
Proof.
  intros. change ULONG_MAX with (Z.ones 32). rewrite Z.testbit_ones by lia.
  rewrite (proj2 (Z.leb_le 0 i)), (proj2 (Z.ltb_lt i 32)) by lia. done.
Qed.

(** [~0UL >> (32 - k)]: the [k] low bits. *)
Lemma testbit_mask_low k i :
  0 <= k <= 32 -> 0 <= i < 32 ->
  Z.testbit (Z.shiftr ULONG_MAX (32 - k)) i = (i <? k).
Proof.
  intros. rewrite Z.shiftr_spec by lia.
  destruct (Z.ltb_spec i k).
  - apply testbit_ULONG_MAX. lia.
  - apply testbit_word_high; [done|lia].
Qed.

(** [~0UL << k]: all but the [k] low bits. *)
Lemma testbit_mask_high k i :
  0 <= k -> 0 <= i < 32 ->
  Z.testbit (wrap (Z.shiftl ULONG_MAX k)) i = (k <=? i).
Proof.
  intros. rewrite testbit_wrap, Z.shiftl_spec by lia.
  destruct (Z.leb_spec k i).
  - apply testbit_ULONG_MAX. lia.
  - apply Z.testbit_neg_r. lia.
Qed.

Lemma mask_low_is_word k : 0 <= k <= 32 -> is_word (Z.shiftr ULONG_MAX (32 - k)).
Proof.
  intros. apply is_word_bits; [apply Z.shiftr_nonneg; done|].
  intros i Hi. rewrite Z.shiftr_spec by lia.
  apply testbit_word_high; [done|lia].
Qed.

(** [x & ~31] rounds down to a word boundary, and tests [x >= 32]. *)
Lemma land_align x : is_word x -> Z.land x (w_not 31) = 32 * (x / 32).
Proof.
  intros Hx. apply Z.bits_inj'. intros i Hi.
  change 32 with (2 ^ 5) at 1 2. rewrite Z.mul_comm, <- Z.shiftr_div_pow2,
    <- Z.shiftl_mul_pow2, Z.land_spec, Z.shiftl_spec by lia.
  destruct (decide (i < 32)).
  - rewrite testbit_w_not by (done || lia). change 31 with (Z.ones 5).
    rewrite Z.testbit_ones by lia. rewrite (proj2 (Z.leb_le 0 i)) by lia. simpl.
    destruct (Z.ltb_spec i 5); simpl.
    + rewrite (Z.testbit_neg_r _ (i - 5)) by lia. by rewrite andb_false_r.
    + rewrite Z.shiftr_spec, andb_true_r by lia. f_equal. lia.
  - rewrite testbit_word_high by (done || lia). rewrite Z.shiftr_spec by lia.
    rewrite (testbit_word_high x (i - 5 + 5)) by (done || lia). done.
Qed.

Lemma land_31 x : is_word x -> Z.land x (32 - 1) = x mod 32.
Proof. intros. change (32 - 1) with (Z.ones 5). by rewrite Z.land_ones. Qed.

(** ** [bsf] on nonzero words *)

Lemma ffs_spec w :
  is_word w -> w <> 0 ->
  0 <= __ffs w < 32 /\ Z.testbit w (__ffs w) = true /\
  forall j, 0 <= j < __ffs w -> Z.testbit w j = false.
Proof.
  intros Hw Hnz. unfold __ffs.
  pose proof (scan_up_range (Z.testbit w) 0 32) as Hr.
  assert (scan_up (Z.testbit w) 0 32 < 32) as Hlt.
  { destruct (Z.lt_ge_cases (scan_up (Z.testbit w) 0 32) 32); [done|].
    destruct Hnz. apply word_zero_bits; [done|]. intros i Hi.
    apply (scan_up_before _ 0 32). lia. }
  split; [lia|]. split; [by apply scan_up_hit|].
  intros j Hj. by apply (scan_up_before _ 0 32).
Qed.

(** ** One word of a search

    [window q base lo n t]: inside the window [lo .. lo+n-1] of the word at
    bit [base], the word [t] has the bits of [q]; outside it has none.  All
    three shapes of word the searches look at (first, middle, last) are
    windows, and both results of a word (hit, miss) follow from that. *)

Section Window.
Context (q : Z -> bool) (base lo : Z) (n : nat) (t : Z).

Definition window : Prop :=
  forall j, 0 <= j < 32 ->
  Z.testbit t j = (lo <=? j) && (j <? lo + Z.of_nat n) && q (base + j).

Hypothesis (Hw : is_word t) (Hlo : 0 <= lo) (Hwin : window).

Lemma window_hit : t <> 0 -> base + __ffs t = scan_up q (base + lo) n.
Proof using Hw Hlo Hwin.
  intros Hnz. destruct (ffs_spec t Hw Hnz) as (Hr & Hhit & Hbef).
  rewrite Hwin in Hhit by lia. zbool. symmetry. apply scan_up_unique.
  - lia.
  - intros j Hj. specialize (Hbef (j - base)). rewrite Hwin in Hbef by lia.
    replace (base + (j - base)) with j in Hbef by lia.
    rewrite (proj2 (Z.leb_le lo (j - base))),
      (proj2 (Z.ltb_lt (j - base) (lo + Z.of_nat n))) in Hbef by lia.
    apply Hbef. lia.
  - done.
Qed.

Lemma window_miss j :
  t = 0 -> lo <= j < 32 -> j < lo + Z.of_nat n -> q (base + j) = false.
Proof using Hw Hlo Hwin.
  intros Ht Hj Hn. pose proof (Hwin j ltac:(lia)) as H. rewrite Ht, Z.testbit_0_l in H.
  rewrite (proj2 (Z.leb_le lo j)), (proj2 (Z.ltb_lt j (lo + Z.of_nat n))) in H by lia.
  done.
Qed.

(** The window ends inside the word and is empty of hits. *)
Lemma window_miss_end :
  t = 0 -> lo + Z.of_nat n <= 32 -> scan_up q (base + lo) n = base + lo + Z.of_nat n.
Proof using Hw Hlo Hwin.
  intros Ht Hn. apply scan_up_unique; [lia| |lia].
  intros j Hj. replace j with (base + (j - base)) by lia.
  apply window_miss; [done|lia|lia].
Qed.

(** The window reaches the end of the word: go on with the next one. *)
Lemma window_miss_next :
  t = 0 -> lo <= 32 <= lo + Z.of_nat n ->
  scan_up q (base + lo) n = scan_up q (base + 32) (Z.to_nat (lo + Z.of_nat n - 32)).
Proof using Hw Hlo Hwin.
  intros Ht Hn. set (m := Z.to_nat _).
  pose proof (scan_up_range q (base + 32) m) as Hr. apply scan_up_unique.
  - lia.
  - intros j Hj. destruct (decide (j < base + 32)).
    + replace j with (base + (j - base)) by lia. apply window_miss; [done|lia|lia].
    + apply (scan_up_before q (base + 32) m). lia.
  - intros. apply scan_up_hit. lia.
Qed.
End Window.

(** The bits of word [p] of the map. *)
Lemma bit_of_word addr p w j :
  word_at addr p = Some w -> 0 <= j < 32 -> bit addr (32 * p + j) = Z.testbit w j.
Proof.
  intros Hp Hj. unfold bit, BITS_PER_LONG.
  replace ((32 * p + j) / 32) with p by zlia.
  replace ((32 * p + j) mod 32) with j by zlia. by rewrite Hp.
Qed.

Lemma word_at_ok addr p w : words_ok addr -> word_at addr p = Some w -> is_word w.
Proof.
  unfold words_ok, word_at. rewrite Forall_lookup. case_if; [|done]. eauto.
Qed.

(** ** The searches are scans *)

Lemma loop_fuel_enough sz : 0 <= sz -> sz / 32 < Z.of_nat (loop_fuel sz).
Proof. intros. unfold loop_fuel, BITS_PER_LONG. zlia. Qed.
#[export] Hint Resolve loop_fuel_enough : grid.

Section Searches.
Context (addr : list Z) (Hok : words_ok addr).

#[local] Notation zb := (fun i => negb (bit addr i)).

Lemma window_zero p w lo n t :
  word_at addr p = Some w -> is_word t ->
  (forall j, 0 <= j < 32 ->
     Z.testbit t j = Z.testbit w j || negb ((lo <=? j) && (j <? lo + Z.of_nat n))) ->
  window zb (32 * p) lo n (w_not t).
Proof using Hok.
  intros Hp Ht Hb j Hj. rewrite testbit_w_not, Hb, (bit_of_word _ _ w) by done.
  by destruct (Z.testbit w j), (lo <=? j), (j <? lo + Z.of_nat n).
Qed.

Lemma window_one p w lo n t :
  word_at addr p = Some w ->
  (forall j, 0 <= j < 32 ->
     Z.testbit t j = Z.testbit w j && ((lo <=? j) && (j <? lo + Z.of_nat n))) ->
  window (bit addr) (32 * p) lo n t.
Proof using Hok.
  intros Hp Hb j Hj. rewrite Hb, (bit_of_word _ _ w) by done.
  by destruct (Z.testbit w j), (lo <=? j), (j <? lo + Z.of_nat n).
Qed.

(** The last word of a search, [sz] bits of it in the map, [lo] of them done. *)
Lemma zero_found_first_spec p w lo sz tmp :
  word_at addr p = Some w -> is_word tmp -> 0 <= lo < sz -> sz < 32 ->
  0 <= p -> is_word (32 * p + sz) ->
  (forall j, 0 <= j < 32 -> Z.testbit tmp j = Z.testbit w j || (j <? lo)) ->
  zero_found_first tmp (32 * p) sz
  = scan_up zb (32 * p + lo) (Z.to_nat (sz - lo)).
Proof using Hok.
  intros Hp Ht Hlo Hsz Hp0 Hww Hb. unfold zero_found_first.
  set (t := Z.lor tmp _).
  assert (is_word t) as Hw by (apply lor_is_word; auto with grid).
  assert (window zb (32 * p) lo (Z.to_nat (sz - lo)) (w_not t)) as Hwin.
  { apply (window_zero p w); [done|done|]. intros j Hj. subst t.
    rewrite Z.lor_spec, Hb, testbit_mask_high by lia.
    destruct (Z.testbit w j), (Z.ltb_spec j lo), (Z.leb_spec sz j),
      (Z.leb_spec lo j), (Z.ltb_spec j (lo + Z.of_nat (Z.to_nat (sz - lo))));
      simpl; (done || lia). }
  assert (is_word (w_not t)) as Hwn by auto with grid.
  destruct (Z.eqb_spec t ULONG_MAX) as [E|E].
  - rewrite wrap_small by done. erewrite window_miss_end; try done; try lia.
    rewrite E. done.
  - assert (w_not t <> 0) as Hnz by (unfold w_not, ULONG_MAX in *; lia).
    pose proof (ffs_spec _ Hwn Hnz) as Hf. unfold ffz.
    pose proof (scan_up_range zb (32 * p + lo) (Z.to_nat (sz - lo))) as Hr.
    erewrite <- window_hit in Hr |- * by (done || lia).
    apply wrap_small. unfold is_word in *. lia.
Qed.

Lemma zero_loop_spec fuel p sz :
  0 <= p -> 0 <= sz -> 32 * p + sz <= nbits addr -> is_word (32 * p + sz) ->
  sz / 32 < Z.of_nat fuel ->
  zero_loop fuel addr p (32 * p) sz = Some (scan_up zb (32 * p) (Z.to_nat sz)).
Proof using Hok.
  revert p sz. induction fuel as [|fuel IH]; intros p sz Hp Hsz Hnb Hw Hf.
  { exfalso. assert (0 <= sz / 32) by (apply Z.div_pos; lia). lia. }
  assert (is_word sz) as Hwsz by (unfold is_word in *; lia).
  cbn [zero_loop]. unfold BITS_PER_LONG, nbits in *.
  change (32 - 1) with 31. rewrite land_align by done.
  destruct (Z.eqb_spec (32 * (sz / 32)) 0) as [E|E].
  - destruct (Z.eqb_spec sz 0) as [->|Hnz]; [done|].
    assert (sz < 32) by zlia.
    destruct (word_at_Some addr p) as [w Hpw]; [unfold BITS_PER_LONG in *; lia|].
    rewrite Hpw. simpl. f_equal. rewrite (zero_found_first_spec p w 0); try done; try lia.
    + rewrite Z.add_0_r. do 2 f_equal. lia.
    + by apply (word_at_ok addr p).
    + intros j Hj. destruct (Z.ltb_spec j 0); [lia|]. by rewrite orb_false_r.
  - assert (32 <= sz) by zlia.
    destruct (word_at_Some addr p) as [w Hpw]; [unfold BITS_PER_LONG in *; lia|].
    assert (is_word w) as Hww by (by apply (word_at_ok addr p)).
    rewrite Hpw. simpl.
    assert (window zb (32 * p) 0 (Z.to_nat sz) (w_not w)) as Hwin.
    { apply (window_zero p w); [done|done|]. intros j Hj.
      destruct (Z.leb_spec 0 j), (Z.ltb_spec j (0 + Z.of_nat (Z.to_nat sz))); try lia.
      by rewrite orb_false_r. }
    assert (is_word (w_not w)) as Hwn by auto with grid.
    destruct (Z.eqb_spec (w_not w) 0) as [E0|E0].
    + rewrite !wrap_small by (unfold is_word in *; lia).
      replace (32 * p + 32) with (32 * (p + 1)) by lia.
      rewrite IH; try lia; [|unfold is_word in *; lia|].
      * f_equal. rewrite <- (Z.add_0_r (32 * p)).
        erewrite (window_miss_next zb); try done; try lia.
        f_equal; lia.
      * replace sz with (sz - 32 + 1 * 32) in Hf by lia.
        rewrite Z.div_add in Hf by lia. lia.
    + pose proof (ffs_spec _ Hwn E0) as Hfs. unfold ffz. f_equal.
      rewrite <- (Z.add_0_r (32 * p)) at 2.
      erewrite <- window_hit by done.
      apply wrap_small. unfold is_word in *. lia.
Qed.

Lemma one_found_first_spec p w lo sz tmp :
  word_at addr p = Some w -> is_word tmp -> 0 <= lo < sz -> sz < 32 ->
  0 <= p -> is_word (32 * p + sz) ->
  (forall j, 0 <= j < 32 -> Z.testbit tmp j = Z.testbit w j && (lo <=? j)) ->
  one_found_first tmp (32 * p) sz
  = scan_up (bit addr) (32 * p + lo) (Z.to_nat (sz - lo)).
Proof using Hok.
  intros Hp Ht Hlo Hsz Hp0 Hww Hb. unfold one_found_first, BITS_PER_LONG.
  set (t := Z.land tmp _).
  assert (is_word t) as Hw
    by (apply land_is_word; [done|apply mask_low_is_word; lia]).
  assert (window (bit addr) (32 * p) lo (Z.to_nat (sz - lo)) t) as Hwin.
  { apply (window_one p w); [done|]. intros j Hj. subst t.
    rewrite Z.land_spec, Hb, testbit_mask_low by lia.
    destruct (Z.testbit w j), (Z.ltb_spec j sz), (Z.leb_spec lo j),
      (Z.ltb_spec j (lo + Z.of_nat (Z.to_nat (sz - lo)))); simpl; (done || lia). }
  destruct (Z.eqb_spec t 0) as [E|E].
  - rewrite wrap_small by done. erewrite window_miss_end; try done; lia.
  - pose proof (ffs_spec _ Hw E) as Hf.
    pose proof (scan_up_range (bit addr) (32 * p + lo) (Z.to_nat (sz - lo))) as Hr.
    erewrite <- window_hit in Hr |- * by (done || lia).
    apply wrap_small. unfold is_word in *. lia.
Qed.

Lemma one_loop_spec fuel p sz :
  0 <= p -> 0 <= sz -> 32 * p + sz <= nbits addr -> is_word (32 * p + sz) ->
  sz / 32 < Z.of_nat fuel ->
  one_loop fuel addr p (32 * p) sz = Some (scan_up (bit addr) (32 * p) (Z.to_nat sz)).
Proof using Hok.
  revert p sz. induction fuel as [|fuel IH]; intros p sz Hp Hsz Hnb Hw Hf.
  { exfalso. assert (0 <= sz / 32) by (apply Z.div_pos; lia). lia. }
  assert (is_word sz) as Hwsz by (unfold is_word in *; lia).
  cbn [one_loop]. unfold BITS_PER_LONG, nbits in *.
  change (32 - 1) with 31. rewrite land_align by done.
  destruct (Z.eqb_spec (32 * (sz / 32)) 0) as [E|E].
  - destruct (Z.eqb_spec sz 0) as [->|Hnz]; [done|].
    assert (sz < 32) by zlia.
    destruct (word_at_Some addr p) as [w Hpw]; [unfold BITS_PER_LONG in *; lia|].
    rewrite Hpw. simpl. f_equal. rewrite (one_found_first_spec p w 0); try done; try lia.
    + rewrite Z.add_0_r. do 2 f_equal. lia.
    + by apply (word_at_ok addr p).
    + intros j Hj. destruct (Z.leb_spec 0 j); [|lia]. by rewrite andb_true_r.
  - assert (32 <= sz) by zlia.
    destruct (word_at_Some addr p) as [w Hpw]; [unfold BITS_PER_LONG in *; lia|].
    assert (is_word w) as Hww by (by apply (word_at_ok addr p)).
    rewrite Hpw. simpl.
    assert (window (bit addr) (32 * p) 0 (Z.to_nat sz) w) as Hwin.
    { apply (window_one p w); [done|]. intros j Hj.
      destruct (Z.leb_spec 0 j), (Z.ltb_spec j (0 + Z.of_nat (Z.to_nat sz))); try lia.
      by rewrite andb_true_r. }
    destruct (Z.eqb_spec w 0) as [E0|E0].
    + rewrite !wrap_small by (unfold is_word in *; lia).
      replace (32 * p + 32) with (32 * (p + 1)) by lia.
      rewrite IH; try lia; [|unfold is_word in *; lia|].
      * f_equal. rewrite <- (Z.add_0_r (32 * p)).
        erewrite (window_miss_next (bit addr)); try done; try lia.
        f_equal; lia.
      * replace sz with (sz - 32 + 1 * 32) in Hf by lia.
        rewrite Z.div_add in Hf by lia. lia.
    + pose proof (ffs_spec _ Hww E0) as Hfs. f_equal.
      rewrite <- (Z.add_0_r (32 * p)) at 2.
      erewrite <- window_hit by done.
      apply wrap_small. unfold is_word in *. lia.
Qed.

(** *** Entry points

    The first word of a search that does not start on a word boundary. *)

Lemma find_next_zero_bit_scan size offset :
  is_word size -> is_word offset -> size <= nbits addr ->
  cl_find_next_zero_bit addr size offset = Some (next_zero addr size offset).
Proof using Hok.
  intros Hs Ho Hn. unfold cl_find_next_zero_bit, next_zero, BITOP_WORD.
  destruct (Z.leb_spec size offset) as [|Hlt]; [done|].
  unfold BITS_PER_LONG. change (32 - 1) with 31. rewrite land_align by done.
  set (p := offset / 32). set (o := offset mod 32).
  assert (offset = 32 * p + o) as Hoff by (subst p o; apply Z.div_mod; lia).
  assert (0 <= o < 32) by (apply Z.mod_pos_bound; lia).
  assert (0 <= p) by (apply Z.div_pos; unfold is_word in *; lia).
  set (sz := size - 32 * p).
  rewrite (wrap_small sz) by (unfold is_word in *; lia).
  assert (is_word (32 * p + sz)) by (subst sz; unfold is_word in *; lia).
  destruct (Z.eqb_spec o 0) as [E|E]; cbn [negb].
  { rewrite zero_loop_spec; try lia; try done; [|apply loop_fuel_enough; lia]. do 2 f_equal; lia. }
  destruct (word_at_Some addr p) as [w Hpw]; [unfold nbits, BITS_PER_LONG in *; lia|].
  assert (is_word w) as Hww by (by apply (word_at_ok addr p)).
  rewrite Hpw. cbn [mbind option_bind]. set (tmp := Z.lor w _).
  assert (is_word tmp) as Htmp by (apply lor_is_word; [done|apply mask_low_is_word; lia]).
  assert (forall j, 0 <= j < 32 -> Z.testbit tmp j = Z.testbit w j || (j <? o)) as Hb.
  { intros j Hj. subst tmp. by rewrite Z.lor_spec, testbit_mask_low by lia. }
  destruct (Z.ltb_spec sz 32).
  { f_equal. rewrite (zero_found_first_spec p w o); try done; [|lia].
    f_equal; lia. }
  assert (window zb (32 * p) o (Z.to_nat (sz - o)) (w_not tmp)) as Hwin.
  { apply (window_zero p w); [done|done|]. intros j Hj. rewrite Hb by done. f_equal.
    destruct (Z.ltb_spec j o), (Z.leb_spec o j),
      (Z.ltb_spec j (o + Z.of_nat (Z.to_nat (sz - o)))); simpl; (done || lia). }
  assert (is_word (w_not tmp)) as Hwn by auto with grid.
  rewrite Hoff. destruct (Z.eqb_spec (w_not tmp) 0) as [E0|E0]; cbn [negb].
  - rewrite !wrap_small by (unfold is_word in *; lia).
    replace (32 * p + 32) with (32 * (p + 1)) by lia.
    rewrite zero_loop_spec; try lia; [|unfold is_word in *; lia|].
    2: { pose proof (loop_fuel_enough sz). zlia. }
    f_equal. symmetry. replace (size - (32 * p + o)) with (sz - o) by lia.
    erewrite (window_miss_next zb); try done; try lia. f_equal; lia.
  - pose proof (ffs_spec _ Hwn E0) as Hfs. unfold ffz. f_equal.
    replace (size - (32 * p + o)) with (sz - o) by lia.
    erewrite <- window_hit by (done || lia).
    apply wrap_small. unfold is_word in *. lia.
Qed.

Lemma find_next_bit_scan size offset :
  is_word size -> is_word offset -> size <= nbits addr ->
  cl_find_next_bit addr size offset = Some (next_one addr size offset).
Proof using Hok.
  intros Hs Ho Hn. unfold cl_find_next_bit, next_one, BITOP_WORD.
  destruct (Z.leb_spec size offset) as [|Hlt]; [done|].
  unfold BITS_PER_LONG. change (32 - 1) with 31. rewrite land_align by done.
  set (p := offset / 32). set (o := offset mod 32).
  assert (offset = 32 * p + o) as Hoff by (subst p o; apply Z.div_mod; lia).
  assert (0 <= o < 32) by (apply Z.mod_pos_bound; lia).
  assert (0 <= p) by (apply Z.div_pos; unfold is_word in *; lia).
  set (sz := size - 32 * p).
  rewrite (wrap_small sz) by (unfold is_word in *; lia).
  assert (is_word (32 * p + sz)) by (subst sz; unfold is_word in *; lia).
  destruct (Z.eqb_spec o 0) as [E|E]; cbn [negb].
  { rewrite one_loop_spec; try lia; try done; [|apply loop_fuel_enough; lia]. do 2 f_equal; lia. }
  destruct (word_at_Some addr p) as [w Hpw]; [unfold nbits, BITS_PER_LONG in *; lia|].
  assert (is_word w) as Hww by (by apply (word_at_ok addr p)).
  rewrite Hpw. cbn [mbind option_bind]. set (tmp := Z.land w _).
  assert (is_word tmp) as Htmp by (apply land_is_word; [done|apply wrap_is_word]).
  assert (forall j, 0 <= j < 32 -> Z.testbit tmp j = Z.testbit w j && (o <=? j)) as Hb.
  { intros j Hj. subst tmp. by rewrite Z.land_spec, testbit_mask_high by lia. }
  destruct (Z.ltb_spec sz 32).
  { f_equal. rewrite (one_found_first_spec p w o); try done; [|lia].
    f_equal; lia. }
  assert (window (bit addr) (32 * p) o (Z.to_nat (sz - o)) tmp) as Hwin.
  { apply (window_one p w); [done|]. intros j Hj. rewrite Hb by done. f_equal.
    destruct (Z.leb_spec o j),
      (Z.ltb_spec j (o + Z.of_nat (Z.to_nat (sz - o)))); simpl; (done || lia). }
  rewrite Hoff. destruct (Z.eqb_spec tmp 0) as [E0|E0]; cbn [negb].
  - rewrite !wrap_small by (unfold is_word in *; lia).
    replace (32 * p + 32) with (32 * (p + 1)) by lia.
    rewrite one_loop_spec; try lia; [|unfold is_word in *; lia|].
    2: { pose proof (loop_fuel_enough sz). zlia. }
    f_equal. symmetry. replace (size - (32 * p + o)) with (sz - o) by lia.
    erewrite (window_miss_next (bit addr)); try done; try lia. f_equal; lia.
  - pose proof (ffs_spec _ Htmp E0) as Hfs. f_equal.
    replace (size - (32 * p + o)) with (sz - o) by lia.
    erewrite <- window_hit by (done || lia).
    apply wrap_small. unfold is_word in *. lia.
Qed.
End Searches.

(** ** Writing a bit *)

Lemma bit_bound addr i : bit addr i = true -> 0 <= i < nbits addr.
Proof.
  unfold bit, nbits, BITS_PER_LONG. destruct (word_at addr (i / 32)) eqn:E; [|done].
  intros _. apply word_at_bound in E. zlia.
Qed.

Lemma div_mod_eq_iff i j : i / 32 = j / 32 -> i mod 32 = j mod 32 -> i = j.
Proof. intros. rewrite (Z.div_mod i 32), (Z.div_mod j 32) by lia. congruence. Qed.

Lemma test_bit_bit addr nr :
  0 <= nr < nbits addr -> test_bit nr addr = Some (bit addr nr).
Proof.
  intros Hn. unfold test_bit, bit, nbits, BITS_PER_LONG in *.
  destruct (word_at_Some addr (nr / 32)) as [w ->]; [zlia|]. done.
Qed.

(** Replacing word [nr / 32] by one that differs in bit [nr mod 32] only. *)
Lemma bit_update addr nr w w' b :
  0 <= nr -> word_at addr (nr / 32) = Some w ->
  (forall j, 0 <= j < 32 ->
     Z.testbit w' j = if j =? nr mod 32 then b else Z.testbit w j) ->
  forall i, bit (<[Z.to_nat (nr / 32) := w']> addr) i = if i =? nr then b else bit addr i.
Proof.
  intros Hn Hw Hb i. unfold bit, BITS_PER_LONG.
  rewrite word_at_insert by (by eapply word_at_bound).
  destruct (Z.eqb_spec (nr / 32) (i / 32)) as [E|E].
  - rewrite <- E, Hw, Hb by (apply Z.mod_pos_bound; lia).
    destruct (Z.eqb_spec i nr) as [->|Hne]; [by rewrite Z.eqb_refl|].
    case_if; [|done]. destruct Hne. by apply div_mod_eq_iff.
  - destruct (Z.eqb_spec i nr) as [->|]; [done|done].
Qed.

Lemma words_ok_insert addr k w :
  words_ok addr -> is_word w -> words_ok (<[k := w]> addr).
Proof. intros. by apply Forall_insert. Qed.

Lemma testbit_one_bit k j :
  0 <= k < 32 -> 0 <= j -> Z.testbit (Z.shiftl 1 k) j = (j =? k).
Proof.
  intros. rewrite Z.shiftl_spec by lia. destruct (Z.eqb_spec j k) as [->|].
  - by rewrite Z.sub_diag.
  - destruct (Z.lt_ge_cases j k); [apply Z.testbit_neg_r; lia|].
    change 1 with (2 ^ 0). apply Z.pow2_bits_false. lia.
Qed.

Lemma one_bit_is_word k : 0 <= k < 32 -> is_word (Z.shiftl 1 k).
Proof.
  intros. apply is_word_bits; [apply Z.shiftl_nonneg; lia|].
  intros i Hi. rewrite testbit_one_bit by lia. apply Z.eqb_neq. lia.
Qed.

Lemma set_bit_spec addr nr :
  words_ok addr -> 0 <= nr < nbits addr ->
  exists addr', __set_bit nr addr = Some addr' /\ words_ok addr' /\
    length addr' = length addr /\
    forall i, bit addr' i = if i =? nr then true else bit addr i.
Proof.
  intros Hok Hn. unfold __set_bit, nbits, BITS_PER_LONG in *.
  assert (0 <= nr mod 32 < 32) by (apply Z.mod_pos_bound; lia).
  destruct (word_at_Some addr (nr / 32)) as [w Hw]; [zlia|].
  pose proof (word_at_ok _ _ _ Hok Hw). rewrite Hw. cbn.
  rewrite word_at_set by (by eapply word_at_bound).
  eexists. split_and!; [done| | |].
  - apply words_ok_insert; [done|]. apply lor_is_word; [done|]. by apply one_bit_is_word.
  - apply length_insert.
  - apply (bit_update _ _ w); [lia|done|]. intros j Hj.
    rewrite Z.lor_spec, testbit_one_bit by lia.
    case_if; [by rewrite orb_true_r|by rewrite orb_false_r].
Qed.

Lemma clear_bit_spec addr nr :
  words_ok addr -> 0 <= nr < nbits addr ->
  exists addr', __clear_bit nr addr = Some addr' /\ words_ok addr' /\
    length addr' = length addr /\
    forall i, bit addr' i = if i =? nr then false else bit addr i.
Proof.
  intros Hok Hn. unfold __clear_bit, nbits, BITS_PER_LONG in *.
  assert (0 <= nr mod 32 < 32) by (apply Z.mod_pos_bound; lia).
  pose proof (one_bit_is_word (nr mod 32) ltac:(done)) as H1.
  destruct (word_at_Some addr (nr / 32)) as [w Hw]; [zlia|].
  pose proof (word_at_ok _ _ _ Hok Hw). rewrite Hw. cbn.
  rewrite word_at_set by (by eapply word_at_bound).
  eexists. split_and!; [done| | |].
  - apply words_ok_insert; [done|]. apply land_is_word; [done|].
    pose proof (w_not_is_word _ H1). unfold is_word in *. lia.
  - apply length_insert.
  - apply (bit_update _ _ w); [lia|done|]. intros j Hj.
    rewrite Z.land_spec, testbit_w_not, testbit_one_bit by (done || lia).
    case_if; [by rewrite andb_false_r|by rewrite andb_true_r].
Qed.

Lemma test_and_clear_bit_spec addr nr :
  words_ok addr -> 0 <= nr < nbits addr ->
  exists addr', __test_and_clear_bit nr addr = Some (bit addr nr, addr') /\
    words_ok addr' /\ length addr' = length addr /\
    forall i, bit addr' i = if i =? nr then false else bit addr i.
Proof.
  intros Hok Hn. destruct (clear_bit_spec addr nr Hok Hn) as (a & Ha & ?).
  exists a. unfold __test_and_clear_bit. rewrite test_bit_bit, Ha by done. done.
Qed.

(** ** [find_last_bit] *)

Lemma bit_log2 addr p w j :
  word_at addr p = Some w -> is_word w -> 0 <= p -> __fls w < j < 32 ->
  bit addr (32 * p + j) = false.
Proof.
  intros Hp Hw H0 Hj. pose proof (Z.log2_nonneg w). unfold __fls in *.
  rewrite (bit_of_word _ _ w) by (done || lia).
  destruct (decide (w = 0)) as [->|]; [apply Z.testbit_0_l|].
  apply Z.bits_above_log2; unfold is_word in *; lia.
Qed.

Lemma fls_spec w : is_word w -> w <> 0 -> 0 <= __fls w < 32 /\ Z.testbit w (__fls w) = true.
Proof.
  intros [H0 H1] Hnz. unfold __fls. split.
  - split; [apply Z.log2_nonneg|]. apply Z.log2_lt_pow2; lia.
  - apply Z.bit_log2. lia.
Qed.

(** [last_below addr size r]: [r] is the last 1 below [size], or [size]. *)
Definition last_below (addr : list Z) (n size r : Z) : Prop :=
  (r = size /\ forall i, 0 <= i < n -> bit addr i = false) \/
  (0 <= r < n /\ bit addr r = true /\ forall i, r < i < n -> bit addr i = false).

Lemma last_loop_spec addr words size :
  words_ok addr -> Z.of_nat words <= Z.of_nat (length addr) ->
  is_word (32 * Z.of_nat words) ->
  exists r, last_loop words addr size = Some r /\
            last_below addr (32 * Z.of_nat words) size r.
Proof.
  intros Hok Hle Hw. induction words as [|k IH].
  { exists size. split; [done|]. left. split; [done|]. lia. }
  cbn [last_loop]. unfold BITS_PER_LONG.
  destruct (word_at_Some addr (Z.of_nat k)) as [w Hk]; [lia|].
  pose proof (word_at_ok _ _ _ Hok Hk) as Hww. rewrite Hk. cbn [mbind option_bind].
  destruct (Z.eqb_spec w 0) as [->|Hnz]; cbn [negb].
  - destruct IH as (r & -> & Hr); [lia|unfold is_word in *; lia|].
    assert (forall i, 32 * Z.of_nat k <= i < 32 * Z.of_nat (S k) -> bit addr i = false) as Hz.
    { intros i Hi. replace i with (32 * Z.of_nat k + (i - 32 * Z.of_nat k)) by lia.
      rewrite (bit_of_word _ _ 0) by (done || lia). apply Z.testbit_0_l. }
    exists r. split; [done|]. destruct Hr as [[-> Hr]|(? & ? & Hr)]; [left|right].
    + split; [done|]. intros i Hi. destruct (decide (i < 32 * Z.of_nat k)); [apply Hr|apply Hz]; lia.
    + split_and!; [lia|lia|done|]. intros i Hi.
      destruct (decide (i < 32 * Z.of_nat k)); [apply Hr|apply Hz]; lia.
  - destruct (fls_spec w Hww Hnz) as [Hf Hb].
    rewrite !wrap_small by (unfold is_word in *; lia || (rewrite wrap_small; unfold is_word in *; lia)).
    eexists. split; [done|]. right. rewrite (Z.mul_comm (Z.of_nat k)). split_and!; [lia|lia| |].
    + by rewrite (bit_of_word _ _ w).
    + intros i Hi. replace i with (32 * Z.of_nat k + (i - 32 * Z.of_nat k)) by lia.
      apply (bit_log2 _ _ w); [done|done|lia|lia].
Qed.

(** ** Properties *)

(** Shared by the two theorems below: what the scans of the specification
    mean, bit by bit. *)
Lemma next_zero_spec addr size offset :
  offset < size ->
  let r := next_zero addr size offset in
  offset <= r <= size /\ (forall i, offset <= i < r -> bit addr i = true) /\
  (r < size -> bit addr r = false).
Proof.
  intros Hlt r. subst r. unfold next_zero.
  destruct (Z.leb_spec size offset); [lia|].
  set (q := fun i => negb (bit addr i)). set (n := Z.to_nat (size - offset)).
  pose proof (scan_up_range q offset n). split_and!; [lia|lia| |].
  - intros i Hi. apply negb_false_iff. by apply (scan_up_before q offset n).
  - intros. apply negb_true_iff. apply (scan_up_hit q). lia.
Qed.

Lemma next_one_spec addr size offset :
  offset < size ->
  let r := next_one addr size offset in
  offset <= r <= size /\ (forall i, offset <= i < r -> bit addr i = false) /\
  (r < size -> bit addr r = true).
Proof.
  intros Hlt r. subst r. unfold next_one.
  destruct (Z.leb_spec size offset); [lia|].
  set (n := Z.to_nat (size - offset)).
  pose proof (scan_up_range (bit addr) offset n). split_and!; [lia|lia| |].
  - apply (scan_up_before (bit addr) offset n).
  - intros. apply scan_up_hit. lia.
Qed.

Lemma next_zero_full addr size offset : size <= offset -> next_zero addr size offset = size.
Proof. intros. unfold next_zero. by rewrite (proj2 (Z.leb_le _ _)). Qed.

Lemma next_one_full addr size offset : size <= offset -> next_one addr size offset = size.
Proof. intros. unfold next_one. by rewrite (proj2 (Z.leb_le _ _)). Qed.

(** C13: on a map whose words hold [size] bits, [cl_find_next_zero_bit] reads
    only words of the map and returns the first 0 at or after [offset], or
    [size] when there is none below [size]. *)
Theorem cl_find_next_zero_bit_correct addr size offset :
  words_ok addr -> is_word size -> is_word offset -> size <= nbits addr ->
  exists r, cl_find_next_zero_bit addr size offset = Some r /\
    (size <= offset -> r = size) /\
    (offset < size ->
       offset <= r <= size /\ (forall i, offset <= i < r -> bit addr i = true) /\
       (r < size -> bit addr r = false)).
Proof.
  intros. exists (next_zero addr size offset).
  split; [by apply find_next_zero_bit_scan|].
  split; [apply next_zero_full|apply next_zero_spec].
Qed.

Lemma cl_find_next_zero_bit_witness :
  exists r, cl_find_next_zero_bit [ULONG_MAX; 5] 40 3 = Some r /\
    (40 <= 3 -> r = 40) /\
    (3 < 40 -> 3 <= r <= 40 /\ (forall i, 3 <= i < r -> bit [ULONG_MAX; 5] i = true) /\
      (r < 40 -> bit [ULONG_MAX; 5] r = false)).
Proof.
  apply (cl_find_next_zero_bit_correct [ULONG_MAX; 5] 40 3).
  - unfold words_ok, is_word, ULONG_MAX. repeat constructor; lia.
  - unfold is_word. lia.
  - unfold is_word. lia.
  - unfold nbits, BITS_PER_LONG. simpl. lia.
Defined.

(** [cl_find_next_bit] reads only words of the map and returns the first
    1 at or after [offset], or [size] when there is none below [size]. *)
Theorem cl_find_next_bit_correct addr size offset :
  words_ok addr -> is_word size -> is_word offset -> size <= nbits addr ->
  exists r, cl_find_next_bit addr size offset = Some r /\
    (size <= offset -> r = size) /\
    (offset < size ->
       offset <= r <= size /\ (forall i, offset <= i < r -> bit addr i = false) /\
       (r < size -> bit addr r = true)).
Proof.
  intros. exists (next_one addr size offset).
  split; [by apply find_next_bit_scan|].
  split; [apply next_one_full|apply next_one_spec].
Qed.

Lemma cl_find_next_bit_witness :
  exists r, cl_find_next_bit [0; 64] 40 3 = Some r /\
    (40 <= 3 -> r = 40) /\
    (3 < 40 -> 3 <= r <= 40 /\ (forall i, 3 <= i < r -> bit [0; 64] i = false) /\
      (r < 40 -> bit [0; 64] r = true)).
Proof.
  apply (cl_find_next_bit_correct [0; 64] 40 3).
  - unfold words_ok, is_word. repeat constructor; lia.
  - unfold is_word. lia.
  - unfold is_word. lia.
  - unfold nbits, BITS_PER_LONG. simpl. lia.
Defined.

(** [find_last_bit] reads only words of the map and returns the last 1
    below [size], or [size] when there is none. *)
Theorem find_last_bit_correct addr size :
  words_ok addr -> is_word size -> size <= nbits addr ->
  exists r, find_last_bit addr size = Some r /\ last_below addr size size r.
Proof.
  intros Hok Hs Hn. unfold find_last_bit, nbits, BITS_PER_LONG in *.
  rewrite land_31 by done.
  assert (0 <= size / 32) by (apply Z.div_pos; unfold is_word in *; lia).
  pose proof (Z.div_mod size 32 ltac:(lia)) as Hdm.
  pose proof (Z.mod_pos_bound size 32 ltac:(lia)).
  destruct (last_loop_spec addr (Z.to_nat (size / 32)) size) as (r & Hl & Hr);
    [done|lia|unfold is_word in *; lia|].
  rewrite Z2Nat.id in Hr by done.
  destruct (Z.eqb_spec (size mod 32) 0) as [E|E]; cbn [negb].
  { exists r. split; [done|].
    assert (32 * (size / 32) = size) as Heq by lia. by rewrite Heq in Hr. }
  destruct (word_at_Some addr (size / 32)) as [w Hw]; [unfold BITS_PER_LONG in *; lia|].
  pose proof (word_at_ok _ _ _ Hok Hw) as Hww. rewrite Hw. cbn [mbind option_bind].
  set (tmp := Z.land w _).
  assert (is_word tmp) as Ht by (apply land_is_word; [done|apply mask_low_is_word; lia]).
  assert (forall j, 0 <= j < size mod 32 ->
            bit addr (32 * (size / 32) + j) = Z.testbit tmp j) as Hb.
  { intros j Hj. rewrite (bit_of_word _ _ w) by (done || lia). subst tmp.
    rewrite Z.land_spec, testbit_mask_low by lia.
    rewrite (proj2 (Z.ltb_lt _ _)) by lia. by rewrite andb_true_r. }
  destruct (Z.eqb_spec tmp 0) as [E0|E0]; cbn [negb].
  - exists r. split; [done|]. rewrite E0 in Hb.
    destruct Hr as [[-> Hr]|(? & ? & Hr)]; [left|right]; (split_and!; [lia||done..|]);
      intros i Hi; (destruct (decide (i < 32 * (size / 32))); [apply Hr; lia|]);
      replace i with (32 * (size / 32) + (i - 32 * (size / 32))) by lia;
      rewrite Hb by lia; apply Z.testbit_0_l.
  - destruct (fls_spec tmp Ht E0) as [Hf Hbit].
    assert (__fls tmp < size mod 32) as Hlt.
    { destruct (Z.lt_ge_cases (__fls tmp) (size mod 32)); [done|]. subst tmp.
      rewrite Z.land_spec, testbit_mask_low in Hbit by lia.
      rewrite (proj2 (Z.ltb_ge _ _)), andb_false_r in Hbit by done. done. }
    eexists. split; [done|].
    rewrite !wrap_small by (unfold is_word in *; lia || (rewrite wrap_small; unfold is_word in *; lia)).
    right. rewrite (Z.mul_comm (size / 32)). split_and!; [lia|lia|by rewrite Hb by lia|].
    intros i Hi. replace i with (32 * (size / 32) + (i - 32 * (size / 32))) by lia.
    rewrite Hb by lia. unfold __fls in *. apply Z.bits_above_log2; unfold is_word in *; lia.
Qed.

Lemma find_last_bit_witness :
  exists r, find_last_bit [7; 64] 39 = Some r /\ last_below [7; 64] 39 39 r.
Proof.
  apply (find_last_bit_correct [7; 64] 39).
  - unfold words_ok, is_word. repeat constructor; lia.
  - unfold is_word. lia.
  - unfold nbits, BITS_PER_LONG. simpl. lia.
Defined.
