(* ===== verification/Bitmap.v ===== *)
(** * The bitmap allocator

    [source/libs/common/cpu/bitmap.c] and [include/bitmap.h]: a map of
    [mask_count] bits in an array of [unsigned long], with the hint
    [last_bit] where the next search starts.  The physical page allocator, the
    block allocator, the handle tables and the message pool all use it. *)

From S2P Require Import Prelude Bits.
Import BitOps FindBit.

Record cl_bitmap := Bitmap {
  bitmap : list Z;       (* unsigned long *bitmap: the words it points to *)
  mask_count : Z;
  last_bit : Z
}.

Definition HAL_BITMAP_ALLOC_BIT_ERROR : Z := ULONG_MAX.

Definition set_last_bit (bm : cl_bitmap) (b : Z) : cl_bitmap :=
  Bitmap (bitmap bm) (mask_count bm) b.

Module BitmapOps.

(** [memset(a, 0, n)] on little-endian words: the first [n] bytes. *)
Fixpoint memset_zero (a : list Z) (n : Z) : option (list Z) :=
  match a with
  | [] => if n <=? 0 then Some [] else None
  | w :: a =>
    if n <=? 0 then Some (w :: a)
    else if SIZEOF_LONG <=? n then a' ← memset_zero a (n - SIZEOF_LONG); Some (0 :: a')
    else Some (Z.land w (wrap (Z.shiftl ULONG_MAX (CHAR_BIT * n))) :: a)
  end.

Definition cl_bitmap_calc_size (mask_count : Z) : Z :=
  let c := mask_count / CHAR_BIT in
  if negb (Z.land mask_count (CHAR_BIT - 1) =? 0) then c + 1 else c.

Definition cl_bitmap_init (cur : cl_bitmap) (buf : list Z) (mask_count : Z)
  : option cl_bitmap :=
  buf' ← memset_zero buf ((mask_count + (CHAR_BIT - 1)) / CHAR_BIT);
  Some (Bitmap buf' mask_count (last_bit cur)).

(** The [do ... while (1)] of [cl_bitmap_adaption]: count up until the bitmap
    and the blocks no longer fit. *)
Fixpoint adaption_loop (fuel : nat) (buffer_size block_size cur_count : Z) : run Z :=
  match fuel with
  | O => NoFuel
  | S fuel =>
    let total_size := cl_bitmap_calc_size cur_count + cur_count * block_size in
    if 2147483648 <=? total_size then Fault
    else if buffer_size <? total_size then Ret (cur_count - 1)
    else adaption_loop fuel buffer_size block_size (cur_count + 1)
  end.

(** The buffer is given by its address and its words; the bitmap is placed
    behind the blocks, at byte [cur_count * block_size] of the buffer. *)
Definition cl_bitmap_adaption (fuel : nat) (bm : cl_bitmap) (buffer : Z) (words : list Z)
    (buffer_size block_size : Z) : run (bool * cl_bitmap) :=
  if negb (wrap block_size mod SIZEOF_LONG =? 0) then Ret (false, bm)
  else if negb (buffer mod SIZEOF_LONG =? 0) then Ret (false, bm)
  else
    cur_count ← adaption_loop fuel buffer_size block_size 1;
    if cur_count =? 0 then Ret (false, bm)
    else
      let area := drop (Z.to_nat (cur_count * block_size / SIZEOF_LONG)) words in
      area' ← lift (memset_zero area (cl_bitmap_calc_size cur_count));
      Ret (true, Bitmap area' cur_count (last_bit bm)).

(** One round of [again_scan]; [k] is what follows when it finds nothing. *)
Definition alloc_scan (k : cl_bitmap -> option (Z * cl_bitmap)) (bm : cl_bitmap)
  : option (Z * cl_bitmap) :=
  bit_offset ← cl_find_next_zero_bit (bitmap bm) (mask_count bm) (last_bit bm);
  if negb (bit_offset =? mask_count bm) then
    map ← __set_bit bit_offset (bitmap bm);
    Some (bit_offset, Bitmap map (mask_count bm) (bit_offset +w 1)%C)
  else k (set_last_bit bm 0).

(** The second round runs with [scan_flag] set and falls through to the error. *)
Definition cl_bitmap_alloc_bit (bm : cl_bitmap) : option (Z * cl_bitmap) :=
  alloc_scan (alloc_scan (fun bm => Some (HAL_BITMAP_ALLOC_BIT_ERROR, bm))) bm.

Definition cl_bitmap_dealloc_bit (bm : cl_bitmap) (b : Z) : option (bool * cl_bitmap) :=
  '(old, map) ← __test_and_clear_bit b (bitmap bm);
  if negb old then Some (false, Bitmap map (mask_count bm) (last_bit bm))
  else Some (true, Bitmap map (mask_count bm)
                     (if b <? last_bit bm then b else last_bit bm)).

(** How the [for] loop of [cl_bitmap_alloc_consistant_bits] ends: at a used
    bit [i], or with the final values of [i] and [temp_count]. *)
Inductive run_scan_end :=
  | ScanUsed (i : Z)
  | ScanEnd (i temp_count : Z).

Fixpoint run_scan (n : nat) (addr : list Z) (mask count i temp_count : Z)
  : option run_scan_end :=
  match n with
  | O => Some (ScanEnd i temp_count)
  | S n =>
    if i <? mask then
      if temp_count + 1 =? count then Some (ScanEnd i temp_count)
      else
        used ← test_bit i addr;
        if used : bool then Some (ScanUsed i)
        else run_scan n addr mask count (i + 1) (temp_count + 1)
    else Some (ScanEnd i temp_count)
  end.

(** [for (i = 0; i < count; i++) { __set_bit(last_bit); last_bit++; }] *)
Fixpoint set_run (n : nat) (bm : cl_bitmap) : option cl_bitmap :=
  match n with
  | O => Some bm
  | S n =>
    map ← __set_bit (last_bit bm) (bitmap bm);
    set_run n (Bitmap map (mask_count bm) (last_bit bm +w 1)%C)
  end.

(** From line 110 on: a free bit is at hand, [restart] is [goto restart_scan]. *)
Definition consistant_from (restart : bool -> cl_bitmap -> run (Z * cl_bitmap))
    (scan_flag : bool) (bm : cl_bitmap) (count bit_offset : Z) : run (Z * cl_bitmap) :=
  let mask := mask_count bm in
  let bm := set_last_bit bm bit_offset in
  e ← lift (run_scan (Z.to_nat (mask - (bit_offset + 1))) (bitmap bm) mask count
              (bit_offset + 1) 0);
  match e with
  | ScanUsed i => restart scan_flag (set_last_bit bm (i + 1))
  | ScanEnd i temp_count =>
    if (i =? mask) && (temp_count + 1 <? count) then
      if negb scan_flag then restart true (set_last_bit bm 0)
      else Ret (HAL_BITMAP_ALLOC_BIT_ERROR, bm)
    else if temp_count + 1 =? count then
      bm' ← lift (set_run (Z.to_nat count) bm);
      Ret (last_bit bm, bm')
    else Ret (HAL_BITMAP_ALLOC_BIT_ERROR, bm)
  end.

(** [fuel] bounds the number of jumps to [restart_scan]. *)
Fixpoint alloc_consistant (fuel : nat) (count : Z) (scan_flag : bool) (bm : cl_bitmap)
  : run (Z * cl_bitmap) :=
  match fuel with
  | O => NoFuel
  | S fuel =>
    let mask := mask_count bm in
    first ← lift (cl_find_next_zero_bit (bitmap bm) mask (last_bit bm));
    if first =? mask then
      let bm := set_last_bit bm 0 in
      second ← lift (cl_find_next_zero_bit (bitmap bm) mask (last_bit bm));
      if second =? mask then Ret (HAL_BITMAP_ALLOC_BIT_ERROR, bm)
      else consistant_from (alloc_consistant fuel count) scan_flag bm count second
    else consistant_from (alloc_consistant fuel count) scan_flag bm count first
  end.

Definition cl_bitmap_alloc_consistant_bits (fuel : nat) (bm : cl_bitmap) (count : Z)
  : run (Z * cl_bitmap) := alloc_consistant fuel count false bm.

(** [n] iterations are left, [i] are done. *)
Fixpoint dealloc_run (n : nat) (bm : cl_bitmap) (i bits : Z) : option (Z * cl_bitmap) :=
  match n with
  | O => Some (i, bm)
  | S n =>
    '(ok, bm) ← cl_bitmap_dealloc_bit bm bits;
    if negb ok then Some (i, bm) else dealloc_run n bm (i + 1) (bits +w 1)%C
  end.

Definition cl_bitmap_dealloc_consistent_bits (bm : cl_bitmap) (count bits : Z)
  : option (Z * cl_bitmap) := dealloc_run (Z.to_nat count) bm 0 bits.

End BitmapOps.
Import BitmapOps.

(** ** Well-formed maps *)

Record bm_wf (bm : cl_bitmap) : Prop := {
  wf_words : words_ok (bitmap bm);
  wf_mask : 0 <= mask_count bm <= nbits (bitmap bm);
  wf_int : mask_count bm < 2147483648;
  wf_last : is_word (last_bit bm)
}.

(** Bit [i] is allocated. *)
Definition used (bm : cl_bitmap) (i : Z) : bool := bit (bitmap bm) i.

(** The hint is tight: nothing below it is free.  Single-bit allocation and
    release keep it so, and then always hand out the lowest free bit. *)
Definition tight (bm : cl_bitmap) : Prop :=
  forall i, 0 <= i < last_bit bm -> i < mask_count bm -> used bm i = true.

Lemma set_last_bit_wf bm b : bm_wf bm -> is_word b -> bm_wf (set_last_bit bm b).
Proof. intros [] ?. by constructor. Qed.

Lemma update_wf bm map b :
  bm_wf bm -> words_ok map -> length map = length (bitmap bm) -> is_word b ->
  bm_wf (Bitmap map (mask_count bm) b).
Proof. intros [] ? Hl ?. constructor; cbn; try done. unfold nbits in *. by rewrite Hl. Qed.

Lemma find_zero_wf bm o :
  bm_wf bm -> is_word o ->
  cl_find_next_zero_bit (bitmap bm) (mask_count bm) o
  = Some (next_zero (bitmap bm) (mask_count bm) o).
Proof.
  intros [] ?. apply find_next_zero_bit_scan; try done; [|lia]. unfold is_word. lia.
Qed.

(** The first free bit at or after [o], in the terms of [used]. *)
Lemma next_zero_used bm o :
  0 <= o -> 0 <= mask_count bm ->
  let r := next_zero (bitmap bm) (mask_count bm) o in
  (r = mask_count bm /\ forall i, o <= i < mask_count bm -> used bm i = true) \/
  (o <= r < mask_count bm /\ used bm r = false /\ forall i, o <= i < r -> used bm i = true).
Proof.
  intros Ho Hm r. subst r. destruct (Z.lt_ge_cases o (mask_count bm)).
  - destruct (next_zero_spec (bitmap bm) (mask_count bm) o) as (Hr & Hb & Hz); [done|].
    set (r := next_zero _ _ _) in *. destruct (Z.eq_dec r (mask_count bm)) as [E|E].
    + left. split; [done|]. rewrite <- E. apply Hb.
    + right. split_and!; [lia|lia|apply Hz; lia|apply Hb].
  - left. rewrite next_zero_full by done. split; [done|]. lia.
Qed.

(** ** Single bits *)

Lemma alloc_scan_cases k bm :
  bm_wf bm ->
  (alloc_scan k bm = k (set_last_bit bm 0) /\
     forall i, last_bit bm <= i < mask_count bm -> used bm i = true) \/
  (exists r map, alloc_scan k bm = Some (r, Bitmap map (mask_count bm) (r + 1)) /\
     bm_wf (Bitmap map (mask_count bm) (r + 1)) /\ length map = length (bitmap bm) /\
     last_bit bm <= r < mask_count bm /\ used bm r = false /\
     (forall i, last_bit bm <= i < r -> used bm i = true) /\
     forall i, bit map i = if i =? r then true else used bm i).
Proof.
  intros Hwf. pose proof Hwf as [Hok Hm Hi Hl]. unfold alloc_scan.
  rewrite find_zero_wf by done. cbn [mbind option_bind].
  destruct (next_zero_used bm (last_bit bm)) as [[-> Hf]|(Hr & Hz & Hb)];
    [unfold is_word in Hl; lia|lia|left|right].
  - rewrite Z.eqb_refl. done.
  - set (r := next_zero _ _ _) in *. destruct (Z.eqb_spec r (mask_count bm)); [lia|].
    unfold is_word in Hl. cbn [negb].
    destruct (set_bit_spec (bitmap bm) r) as (map & -> & Hok' & Hlen & Hbit); [done|lia|].
    exists r, map. cbn [mbind option_bind]. rewrite wrap_small by (unfold is_word; lia).
    split_and!; try done; try lia. apply update_wf; try done. unfold is_word; lia.
Qed.

(** The behaviour of [cl_bitmap_alloc_bit] on every branch. *)
Lemma alloc_bit_cases bm :
  bm_wf bm ->
  exists r bm', cl_bitmap_alloc_bit bm = Some (r, bm') /\ bm_wf bm' /\
    mask_count bm' = mask_count bm /\ length (bitmap bm') = length (bitmap bm) /\
    ((r = HAL_BITMAP_ALLOC_BIT_ERROR /\ bitmap bm' = bitmap bm /\ last_bit bm' = 0 /\
        forall i, 0 <= i < mask_count bm -> used bm i = true) \/
     (0 <= r < mask_count bm /\ used bm r = false /\ last_bit bm' = r + 1 /\
        (forall i, used bm' i = if i =? r then true else used bm i) /\
        (tight bm -> forall i, 0 <= i < r -> used bm i = true))).
Proof.
  intros Hwf. pose proof Hwf as [Hok Hm Hi Hl]. unfold cl_bitmap_alloc_bit.
  destruct (alloc_scan_cases (alloc_scan (fun bm => Some (HAL_BITMAP_ALLOC_BIT_ERROR, bm))) bm Hwf)
    as [[-> Hf]|(r & map & -> & Hwf' & Hlen & Hr & Hz & Hb & Hbit)].
  - assert (bm_wf (set_last_bit bm 0)) as Hwf0 by (apply set_last_bit_wf; done).
    destruct (alloc_scan_cases (fun bm => Some (HAL_BITMAP_ALLOC_BIT_ERROR, bm)) _ Hwf0)
      as [[-> Hf0]|(r & map & -> & Hwf' & Hlen & Hr & Hz & Hb & Hbit)]; cbn in *.
    + do 2 eexists. split_and!; [done..|]. left. split_and!; [done..|]. exact Hf0.
    + do 2 eexists. split_and!; [done..|]. right. split_and!; try done; try lia.
  - unfold is_word in Hl. do 2 eexists. split_and!; [done..|]. right.
    split_and!; try done; try lia. intros Ht i Hi'.
    destruct (Z.lt_ge_cases i (last_bit bm)); [apply Ht; lia|apply Hb; lia].
Qed.

Lemma dealloc_bit_cases bm b :
  bm_wf bm -> 0 <= b < mask_count bm ->
  exists bm', cl_bitmap_dealloc_bit bm b = Some (used bm b, bm') /\ bm_wf bm' /\
    mask_count bm' = mask_count bm /\ length (bitmap bm') = length (bitmap bm) /\
    last_bit bm' = (if used bm b && (b <? last_bit bm) then b else last_bit bm) /\
    forall i, used bm' i = if i =? b then false else used bm i.
Proof.
  intros Hwf Hb. pose proof Hwf as [Hok Hm Hi Hl]. unfold cl_bitmap_dealloc_bit.
  destruct (test_and_clear_bit_spec (bitmap bm) b) as (map & -> & Hok' & Hlen & Hbit);
    [done|lia|]. cbn [mbind option_bind]. fold (used bm b).
  destruct (used bm b); cbn [negb andb]; eexists; (split; [done|]);
    (split_and!; [apply update_wf; try done; case_ifs; unfold is_word in *; lia|done..]).
Qed.

(** Releasing a bit keeps a tight hint tight. *)
Lemma dealloc_tight bm bm' b :
  mask_count bm' = mask_count bm ->
  last_bit bm' = (if used bm b && (b <? last_bit bm) then b else last_bit bm) ->
  (forall i, used bm' i = if i =? b then false else used bm i) ->
  0 <= b < mask_count bm -> tight bm -> tight bm'.
Proof.
  intros Hm Hl Hu Hb Ht i Hi Him. rewrite Hu, Hl, Hm in *.
  destruct (used bm b) eqn:E, (Z.ltb_spec b (last_bit bm)), (Z.eqb_spec i b);
    cbn [andb] in *; subst; try lia; try (apply Ht; lia).
  rewrite Ht in E; [done|lia|lia].
Qed.

(** ** Counting used bits *)

Fixpoint used_below (bm : cl_bitmap) (n : nat) : Z :=
  match n with
  | O => 0
  | S n => used_below bm n + (if used bm (Z.of_nat n) then 1 else 0)
  end.

Lemma used_below_range bm n : 0 <= used_below bm n <= Z.of_nat n.
Proof. induction n as [|n IH]; cbn [used_below]; [lia|]. case_if; lia. Qed.

Lemma used_below_full bm n :
  used_below bm n = Z.of_nat n <-> forall i, 0 <= i < Z.of_nat n -> used bm i = true.
Proof.
  induction n as [|n IH]; cbn [used_below]; [split; [lia|done]|].
  pose proof (used_below_range bm n) as Hr. split.
  - intros H i Hi. destruct (used bm (Z.of_nat n)) eqn:E; [|lia].
    destruct (Z.eq_dec i (Z.of_nat n)) as [->|]; [done|]. apply IH; lia.
  - intros H. rewrite (H (Z.of_nat n)) by lia.
    enough (used_below bm n = Z.of_nat n) by lia. apply IH. intros. apply H. lia.
Qed.

Lemma used_below_empty bm n :
  used_below bm n = 0 <-> forall i, 0 <= i < Z.of_nat n -> used bm i = false.
Proof.
  induction n as [|n IH]; cbn [used_below]; [split; [lia|done]|].
  pose proof (used_below_range bm n) as Hr. split.
  - intros H i Hi. destruct (used bm (Z.of_nat n)) eqn:E; [lia|].
    destruct (Z.eq_dec i (Z.of_nat n)) as [->|]; [done|]. apply IH; lia.
  - intros H. rewrite (H (Z.of_nat n)) by lia.
    enough (used_below bm n = 0) by lia. apply IH. intros. apply H. lia.
Qed.

(** Changing one bit changes the count by one. *)
Lemma used_below_update bm bm' b v n :
  (forall i, used bm' i = if i =? b then v else used bm i) -> 0 <= b ->
  used_below bm' n
  = used_below bm n + if b <? Z.of_nat n then Z.b2z v - Z.b2z (used bm b) else 0.
Proof.
  intros Hu Hb. induction n as [|n IH]; cbn [used_below].
  - rewrite (proj2 (Z.ltb_ge b _)) by lia. lia.
  - rewrite IH, Hu. destruct (Z.eqb_spec (Z.of_nat n) b) as [<-|].
    + rewrite Z.ltb_irrefl, (proj2 (Z.ltb_lt _ _)) by lia.
      destruct v, (used bm _); cbn [Z.b2z]; lia.
    + destruct (Z.ltb_spec b (Z.of_nat n)), (Z.ltb_spec b (Z.of_nat (S n))); lia.
Qed.

(** ** Runs of bits *)

Definition free_run (bm : cl_bitmap) (s count : Z) : Prop :=
  0 <= s /\ s + count <= mask_count bm /\ forall i, s <= i < s + count -> used bm i = false.

(** The scan for the end of a run that starts at the free bit [b]. *)
Lemma run_scan_spec bm count b n i t :
  bm_wf bm -> 0 <= b -> 1 <= count ->
  i = b + 1 + t -> 0 <= t -> t + 1 <= count -> n = Z.to_nat (mask_count bm - i) ->
  i <= mask_count bm -> (forall j, b <= j < i -> used bm j = false) ->
  exists e, run_scan n (bitmap bm) (mask_count bm) count i t = Some e /\
    match e with
    | ScanUsed i' => b < i' < mask_count bm /\ i' - b < count /\ used bm i' = true /\
                     forall j, b <= j < i' -> used bm j = false
    | ScanEnd i' t' => i' = b + 1 + t' /\ (forall j, b <= j < i' -> used bm j = false) /\
        ((t' + 1 = count /\ i' <= mask_count bm) \/ (i' = mask_count bm /\ t' + 1 < count))
    end.
Proof.
  intros Hwf Hb Hc. revert i t. induction n as [|n IH]; intros i t Hi Ht Htc Hn Him Hfree; cbn [run_scan].
  { exists (ScanEnd i t). split; [done|]. split_and!; [done|done|].
    destruct (Z.eq_dec (t + 1) count); [left|right]; lia. }
  destruct (Z.ltb_spec i (mask_count bm)); [|lia].
  destruct (Z.eqb_spec (t + 1) count).
  { exists (ScanEnd i t). split; [done|]. split_and!; [done|done|lia]. }
  destruct Hwf as [Hok Hm Hint Hl]. rewrite test_bit_bit by lia. cbn [mbind option_bind].
  fold (used bm i). destruct (used bm i) eqn:E.
  - exists (ScanUsed i). split; [done|]. split_and!; [lia|lia|lia|done|done].
  - apply IH; try lia. intros j Hj. destruct (Z.eq_dec j i) as [->|]; [done|]. apply Hfree; lia.
Qed.

Lemma set_run_spec n bm :
  bm_wf bm -> last_bit bm + Z.of_nat n <= mask_count bm ->
  exists bm', set_run n bm = Some bm' /\ bm_wf bm' /\ mask_count bm' = mask_count bm /\
    length (bitmap bm') = length (bitmap bm) /\ last_bit bm' = last_bit bm + Z.of_nat n /\
    forall i, used bm' i
      = if (last_bit bm <=? i) && (i <? last_bit bm + Z.of_nat n) then true else used bm i.
Proof.
  revert bm. induction n as [|n IH]; intros bm Hwf Hle; cbn [set_run].
  { exists bm. split_and!; try done; [lia|]. intros i.
    destruct (Z.leb_spec (last_bit bm) i), (Z.ltb_spec i (last_bit bm + Z.of_nat 0)); try done; lia. }
  pose proof Hwf as [Hok Hm Hint Hl].
  destruct (set_bit_spec (bitmap bm) (last_bit bm)) as (map & -> & Hok' & Hlen & Hbit);
    [done|unfold is_word in Hl; lia|]. cbn [mbind option_bind].
  assert (is_word (last_bit bm + 1)) by (unfold is_word in *; lia).
  rewrite wrap_small by done.
  destruct (IH (Bitmap map (mask_count bm) (last_bit bm + 1))) as (bm' & -> & Hwf' & Hmc & Hl' & Hlb & Hu).
  { by apply update_wf. }
  { cbn. lia. }
  exists bm'. cbn in *. split_and!; try done; try lia; try congruence.
  intros i. rewrite Hu. unfold used at 1. cbn. rewrite Hbit. fold (used bm i).
  destruct (Z.leb_spec (last_bit bm + 1) i), (Z.leb_spec (last_bit bm) i),
    (Z.ltb_spec i (last_bit bm + 1 + Z.of_nat n)), (Z.ltb_spec i (last_bit bm + Z.of_nat (S n))),
    (Z.eqb_spec i (last_bit bm)); cbn [andb]; try done; lia.
Qed.

(** The free bit where a round of [cl_bitmap_alloc_consistant_bits] starts:
    the first one from the hint on, or else the first one of the map. *)
Definition round_start (bm : cl_bitmap) : Z :=
  let f := next_zero (bitmap bm) (mask_count bm) (last_bit bm) in
  if f =? mask_count bm then next_zero (bitmap bm) (mask_count bm) 0 else f.

Lemma round_start_spec bm s :
  bm_wf bm -> 0 <= s < mask_count bm -> used bm s = false ->
  let b := round_start bm in
  0 <= b < mask_count bm /\ used bm b = false /\
  (b <= s \/ last_bit bm <= b) /\ (last_bit bm <= s -> last_bit bm <= b <= s).
Proof.
  intros [Hok Hm Hint Hl] Hs Hfree b. subst b. unfold round_start, is_word in *.
  destruct (next_zero_used bm (last_bit bm)) as [[-> Hf]|(Hr & Hz & Hb)]; [lia|lia| |].
  - rewrite Z.eqb_refl.
    destruct (next_zero_used bm 0) as [[-> Hf0]|(Hr0 & Hz0 & Hb0)]; [lia|lia| |].
    + rewrite Hf0 in Hfree by lia. done.
    + set (r := next_zero _ _ 0) in *.
      assert (r <= s).
      { destruct (Z.lt_ge_cases s r); [|done]. rewrite Hb0 in Hfree by lia. done. }
      split_and!; try done; try lia. intros Hls. rewrite Hf in Hfree by lia. done.
  - set (r := next_zero _ _ _) in *. destruct (Z.eqb_spec r (mask_count bm)); [lia|].
    split_and!; try done; try lia. intros Hls. split; [lia|].
    destruct (Z.lt_ge_cases s r); [|done]. rewrite Hb in Hfree by lia. done.
Qed.

Lemma alloc_consistant_round fuel count flag bm s :
  bm_wf bm -> 0 <= s < mask_count bm -> used bm s = false ->
  alloc_consistant (S fuel) count flag bm
  = consistant_from (alloc_consistant fuel count) flag bm count (round_start bm).
Proof.
  intros Hwf Hs Hfree. pose proof Hwf as [Hok Hm Hint Hl].
  destruct (round_start_spec bm s Hwf Hs Hfree) as (Hb & _). unfold round_start in *.
  cbn [alloc_consistant]. rewrite find_zero_wf by done. cbn [lift mbind run_bind].
  destruct (Z.eqb_spec (next_zero (bitmap bm) (mask_count bm) (last_bit bm)) (mask_count bm)) as [E|E].
  - pose proof (find_zero_wf bm 0 Hwf ltac:(done)) as H0. cbn [set_last_bit bitmap last_bit].
    rewrite H0. cbn [lift mbind run_bind].
    destruct (Z.eqb_spec (next_zero (bitmap bm) (mask_count bm) 0) (mask_count bm)); [lia|done].
  - done.
Qed.

(** One round, seen from the maps it leads to. *)
Lemma consistant_from_cases restart flag bm count b :
  bm_wf bm -> 1 <= count -> 0 <= b < mask_count bm -> used bm b = false ->
  (exists i, consistant_from restart flag bm count b = restart flag (set_last_bit bm (i + 1)) /\
     b < i < mask_count bm /\ i - b < count /\ used bm i = true /\
     forall j, b <= j < i -> used bm j = false) \/
  (mask_count bm - b < count /\ (forall j, b <= j < mask_count bm -> used bm j = false) /\
   consistant_from restart flag bm count b
     = if negb flag then restart true (set_last_bit bm 0)
       else Ret (HAL_BITMAP_ALLOC_BIT_ERROR, set_last_bit bm b)) \/
  (free_run bm b count /\ exists bm', consistant_from restart flag bm count b = Ret (b, bm') /\
     bm_wf bm' /\ mask_count bm' = mask_count bm /\
     length (bitmap bm') = length (bitmap bm) /\ last_bit bm' = b + count /\
     forall i, used bm' i = if (b <=? i) && (i <? b + count) then true else used bm i).
Proof.
  intros Hwf Hc Hb Hfree. pose proof Hwf as [Hok Hm Hint Hl]. unfold consistant_from.
  cbn [set_last_bit bitmap mask_count last_bit].
  destruct (run_scan_spec bm count b (Z.to_nat (mask_count bm - (b + 1))) (b + 1) 0)
    as (e & -> & He); try done; try lia.
  { intros j Hj. by replace j with b by lia. }
  cbn [lift mbind run_bind]. destruct e as [i|i t].
  - left. exists i. done.
  - destruct He as (Hi & Hrun & [[Ht Him]|[Him Ht]]); right.
    + destruct (Z.ltb_spec (t + 1) count); [lia|]. rewrite andb_false_r.
      destruct (Z.eqb_spec (t + 1) count); [|lia]. right.
      split; [split_and!; [lia|lia|intros j Hj; apply Hrun; lia]|].
      assert (bm_wf (set_last_bit bm b)) as Hwfb by (apply set_last_bit_wf; [done|unfold is_word; lia]).
      destruct (set_run_spec (Z.to_nat count) _ Hwfb) as (bm' & Hset & ? & ? & ? & Hlb & Hu); [cbn; lia|].
      cbn in Hlb, Hu. rewrite Hset. cbn [lift mbind run_bind].
      rewrite Z2Nat.id in Hlb, Hu by lia. exists bm'. done.
    + destruct (Z.eqb_spec i (mask_count bm)), (Z.ltb_spec (t + 1) count); try lia.
      cbn [andb]. left. split_and!; [lia| |done]. intros j Hj. apply Hrun. lia.
Qed.

(** What a successful allocation of [count] consecutive bits has done. *)
Definition run_allocated (bm : cl_bitmap) (count r : Z) (bm' : cl_bitmap) : Prop :=
  free_run bm r count /\ bm_wf bm' /\ mask_count bm' = mask_count bm /\
  length (bitmap bm') = length (bitmap bm) /\ last_bit bm' = r + count /\
  forall i, used bm' i = if (r <=? i) && (i <? r + count) then true else used bm i.

Section FreeRunExists.
Context (count s : Z) (Hc : 1 <= count).

(** From a round that starts at or below the start of a free run. *)
Lemma consistant_forward fuel flag bm :
  bm_wf bm -> free_run bm s count -> round_start bm <= s ->
  s - round_start bm < Z.of_nat fuel ->
  exists r bm', alloc_consistant fuel count flag bm = Ret (r, bm') /\ run_allocated bm count r bm'.
Proof using Hc.
  revert bm. induction fuel as [|fuel IH]; intros bm Hwf (Hs & Hsm & Hrun) Hle Hf; [lia|].
  assert (used bm s = false) as Hfree by (apply Hrun; lia).
  rewrite (alloc_consistant_round _ _ _ _ s) by (done || lia).
  destruct (round_start_spec bm s Hwf ltac:(lia) Hfree) as (Hb & Hbf & _ & _).
  destruct (consistant_from_cases (alloc_consistant fuel count) flag bm count _ Hwf Hc Hb Hbf)
    as [(i & -> & Hi & Hic & Hu & Hj)|[(Hsh & _ & _)|(Hfr & bm' & -> & Hrest)]]; [|lia|].
  - assert (i < s).
    { destruct (Z.lt_ge_cases i s); [done|]. rewrite Hrun in Hu by lia. done. }
    assert (bm_wf (set_last_bit bm (i + 1))) as Hwf'
      by (apply set_last_bit_wf; [done|destruct Hwf; unfold is_word; lia]).
    destruct (round_start_spec (set_last_bit bm (i + 1)) s Hwf') as (_ & _ & _ & Hm); [cbn; lia|done|].
    cbn [set_last_bit last_bit] in Hm. apply (IH (set_last_bit bm (i + 1))); [done|done|lia|lia].
  - exists (round_start bm), bm'. done.
Qed.

(** From any round of the first sweep ([scan_flag] unset). *)
Lemma consistant_any fuel bm :
  bm_wf bm -> free_run bm s count ->
  mask_count bm - round_start bm + s + 1 < Z.of_nat fuel ->
  exists r bm', alloc_consistant fuel count false bm = Ret (r, bm') /\ run_allocated bm count r bm'.
Proof using Hc.
  revert bm. induction fuel as [|fuel IH]; intros bm Hwf Hfr Hf; [|].
  { destruct Hfr as (Hs & Hsm & Hrun).
    assert (used bm s = false) as Hfree by (apply Hrun; lia).
    destruct (round_start_spec bm s Hwf ltac:(lia) Hfree). lia. }
  pose proof Hfr as (Hs & Hsm & Hrun). pose proof (Hrun s ltac:(lia)) as Hfree.
  destruct (round_start_spec bm s Hwf ltac:(lia) Hfree) as (Hb & Hbf & _ & _).
  destruct (Z.le_gt_cases (round_start bm) s); [apply consistant_forward; done || lia|].
  rewrite (alloc_consistant_round _ _ _ _ s) by (done || lia).
  destruct (consistant_from_cases (alloc_consistant fuel count) false bm count _ Hwf Hc Hb Hbf)
    as [(i & -> & Hi & Hic & Hu & Hj)|[(_ & _ & ->)|(Hfb & bm' & -> & Hrest)]].
  - assert (bm_wf (set_last_bit bm (i + 1))) as Hwf'
      by (apply set_last_bit_wf; [done|destruct Hwf; unfold is_word; lia]).
    destruct (round_start_spec (set_last_bit bm (i + 1)) s Hwf') as (? & _ & Hor & _); [cbn; lia|done|].
    cbn [set_last_bit last_bit mask_count] in *. destruct Hor.
    + apply (consistant_forward fuel false (set_last_bit bm (i + 1))); [done|exact Hfr|done|lia].
    + apply (IH (set_last_bit bm (i + 1))); [done|exact Hfr|cbn [set_last_bit mask_count]; lia].
  - cbn [negb].
    assert (bm_wf (set_last_bit bm 0)) as Hwf' by (apply set_last_bit_wf; done).
    destruct (round_start_spec (set_last_bit bm 0) s Hwf') as (? & _ & _ & Hm); [cbn; lia|done|].
    cbn [set_last_bit last_bit] in Hm.
    apply (consistant_forward fuel true (set_last_bit bm 0)); [done|exact Hfr|lia|lia].
  - exists (round_start bm), bm'. done.
Qed.
End FreeRunExists.

(** A used last bit and no run long enough: every round ends at a used bit
    and jumps back, and [scan_flag] is never set. *)
Lemma consistant_diverges fuel flag count bm z :
  bm_wf bm -> 1 <= count -> 0 <= z < mask_count bm -> used bm z = false ->
  used bm (mask_count bm - 1) = true -> (forall s, ~ free_run bm s count) ->
  alloc_consistant fuel count flag bm = NoFuel.
Proof.
  revert bm. induction fuel as [|fuel IH]; intros bm Hwf Hc Hz Hfree Hlast Hno; [done|].
  rewrite (alloc_consistant_round _ _ _ _ z) by done.
  destruct (round_start_spec bm z Hwf Hz Hfree) as (Hb & Hbf & _).
  destruct (consistant_from_cases (alloc_consistant fuel count) flag bm count _ Hwf Hc Hb Hbf)
    as [(i & -> & Hi & _)|[(_ & Hend & _)|(Hfr & _)]].
  - apply IH; try done. apply set_last_bit_wf; [done|destruct Hwf; unfold is_word; lia].
  - rewrite Hend in Hlast by lia. done.
  - by destruct (Hno _ Hfr).
Qed.

(** ** Releasing a run *)

Lemma dealloc_run_spec n bm i b :
  bm_wf bm -> 0 <= b -> b + Z.of_nat n <= mask_count bm ->
  (forall j, b <= j < b + Z.of_nat n -> used bm j = true) ->
  exists bm', dealloc_run n bm i b = Some (i + Z.of_nat n, bm') /\ bm_wf bm' /\
    mask_count bm' = mask_count bm /\ length (bitmap bm') = length (bitmap bm) /\
    forall j, used bm' j = if (b <=? j) && (j <? b + Z.of_nat n) then false else used bm j.
Proof.
  revert bm i b. induction n as [|n IH]; intros bm i b Hwf Hb Hle Hu; cbn [dealloc_run].
  { exists bm. rewrite Z.add_0_r. split_and!; try done. intros j.
    destruct (Z.leb_spec b j), (Z.ltb_spec j (b + Z.of_nat 0)); try done; lia. }
  destruct (dealloc_bit_cases bm b Hwf) as (bm1 & -> & Hwf1 & Hm1 & Hl1 & _ & Hu1); [lia|].
  rewrite Hu by lia. cbn [mbind option_bind negb].
  rewrite wrap_small by (destruct Hwf; unfold is_word; lia).
  destruct (IH bm1 (i + 1) (b + 1)) as (bm' & -> & Hwf' & Hm' & Hl' & Hu'); try lia; try done.
  { intros j Hj. rewrite Hu1. destruct (Z.eqb_spec j b); [lia|]. apply Hu. lia. }
  exists bm'. split_and!; try congruence; [do 2 f_equal; lia|]. intros j. rewrite Hu', Hu1.
  destruct (Z.leb_spec (b + 1) j), (Z.ltb_spec j (b + 1 + Z.of_nat n)), (Z.leb_spec b j),
    (Z.ltb_spec j (b + Z.of_nat (S n))), (Z.eqb_spec j b); cbn [andb]; try done; lia.
Qed.

(** ** Zeroing, and the size of a map *)

Lemma calc_size_ceil n : 0 <= n -> cl_bitmap_calc_size n = (n + 7) / 8.
Proof.
  intros. unfold cl_bitmap_calc_size, CHAR_BIT. change (8 - 1) with (Z.ones 3).
  rewrite Z.land_ones by lia. change (2 ^ 3) with 8.
  destruct (Z.eqb_spec (n mod 8) 0); cbn [negb]; zlia.
Qed.

Lemma bit_cons w a i :
  0 <= i -> bit (w :: a) i = if i <? 32 then Z.testbit w i else bit a (i - 32).
Proof.
  intros Hi. unfold bit, BITS_PER_LONG, word_at. destruct (Z.ltb_spec i 32).
  - rewrite Z.div_small, Z.mod_small by lia. done.
  - replace (i / 32) with ((i - 32) / 32 + 1) by zlia.
    replace (i mod 32) with ((i - 32) mod 32) by zlia.
    assert (0 <= (i - 32) / 32) by (apply Z.div_pos; lia).
    rewrite !(proj2 (Z.leb_le 0 _)) by lia.
    rewrite Z2Nat.inj_add by lia. rewrite Nat.add_comm. done.
Qed.

Lemma memset_zero_spec a n :
  words_ok a -> 0 <= n <= 4 * Z.of_nat (length a) ->
  exists a', memset_zero a n = Some a' /\ words_ok a' /\ length a' = length a /\
    forall i, 0 <= i -> bit a' i = if i <? 8 * n then false else bit a i.
Proof.
  revert n. induction a as [|w a IH]; intros n Hok Hn; cbn [memset_zero].
  { cbn in Hn. replace n with 0 by lia. exists []. split_and!; try done. intros i Hi.
    destruct (Z.ltb_spec i (8 * 0)); [lia|]. destruct (bit [] i) eqn:E; [|done].
    apply bit_bound in E. unfold nbits in E. cbn in E. lia. }
  apply Forall_cons in Hok as [Hw Hok]. unfold SIZEOF_LONG, CHAR_BIT.
  destruct (Z.leb_spec n 0).
  { exists (w :: a). split_and!; try done. { by constructor. } intros i Hi.
    destruct (Z.ltb_spec i (8 * n)); [lia|done]. }
  destruct (Z.leb_spec 4 n).
  - destruct (IH (n - 4)) as (a' & -> & Hok' & Hl & Hb); [done|cbn in Hn; lia|].
    exists (0 :: a'). cbn. split_and!; try done; [by constructor|lia|]. intros i Hi.
    rewrite !bit_cons by done. destruct (Z.ltb_spec i 32).
    + rewrite Z.testbit_0_l. destruct (Z.ltb_spec i (8 * n)); [done|lia].
    + rewrite Hb by lia.
      destruct (Z.ltb_spec (i - 32) (8 * (n - 4))), (Z.ltb_spec i (8 * n)); try done; lia.
  - eexists. split_and!; [done| |done|].
    + constructor; [|done]. apply land_is_word; [done|]. apply wrap_is_word.
    + intros i Hi. rewrite !bit_cons by done. destruct (Z.ltb_spec i 32).
      * rewrite Z.land_spec, testbit_mask_high by lia.
        destruct (Z.leb_spec (8 * n) i), (Z.ltb_spec i (8 * n)); try lia.
        by rewrite andb_true_r.
      * destruct (Z.ltb_spec i (8 * n)); [lia|done].
Qed.

(** [cl_bitmap_init] on words that hold the map leaves every bit free. *)
Lemma init_spec bm buf m :
  words_ok buf -> 0 <= m <= nbits buf -> m < 2147483648 -> is_word (last_bit bm) ->
  exists bm', cl_bitmap_init bm buf m = Some bm' /\ bm_wf bm' /\ mask_count bm' = m /\
    last_bit bm' = last_bit bm /\ length (bitmap bm') = length buf /\
    forall i, 0 <= i < m -> used bm' i = false.
Proof.
  intros Hok Hm Hi Hl. unfold cl_bitmap_init, CHAR_BIT.
  change (8 - 1) with 7.
  destruct (memset_zero_spec buf ((m + 7) / 8) Hok) as (a & -> & Hok' & Hlen & Hb).
  { unfold nbits, BITS_PER_LONG in Hm. zlia. }
  eexists. cbn [mbind option_bind]. split_and!; try done.
  - constructor; cbn; try done. unfold nbits in *. by rewrite Hlen.
  - intros i Hi'. unfold used. cbn. rewrite Hb by lia.
    destruct (Z.ltb_spec i (8 * ((m + 7) / 8))); [done|]. exfalso. zlia.
Qed.

(** The bytes [count] blocks and their map need. *)
Definition adaption_size (block_size count : Z) : Z :=
  cl_bitmap_calc_size count + count * block_size.

Lemma adaption_loop_spec fuel bs blk c :
  0 < blk -> 0 <= bs -> bs + blk + 1 < 2147483648 -> 1 <= c ->
  adaption_size blk (c - 1) <= bs -> bs + 2 - c < Z.of_nat fuel ->
  exists n, adaption_loop fuel bs blk c = Ret n /\ c - 1 <= n /\
    adaption_size blk n <= bs < adaption_size blk (n + 1).
Proof.
  intros Hblk Hbs Hov. revert c. induction fuel as [|fuel IH]; intros c Hc Hfit Hf.
  { exfalso. unfold adaption_size in Hfit. rewrite calc_size_ceil in Hfit by lia.
    assert (0 <= (c - 1 + 7) / 8) by (apply Z.div_pos; lia). nia. }
  cbn [adaption_loop]. fold (adaption_size blk c).
  assert (adaption_size blk c <= adaption_size blk (c - 1) + blk + 1).
  { unfold adaption_size. rewrite !calc_size_ceil by lia.
    assert ((c + 7) / 8 <= (c - 1 + 7) / 8 + 1) by zlia. lia. }
  destruct (Z.leb_spec 2147483648 (adaption_size blk c)); [lia|].
  destruct (Z.ltb_spec bs (adaption_size blk c)).
  - exists (c - 1). replace (c - 1 + 1) with c by lia. split_and!; [done|lia|lia|lia].
  - destruct (IH (c + 1)) as (n & -> & Hn & Hs); [lia|by replace (c + 1 - 1) with c by lia|lia|].
    exists n. split_and!; [done|lia|lia|lia].
Qed.

(** ** Properties *)

(** A small map for the witnesses: 40 bits, of which 0, 1 and 3 are used. *)
Definition sample_bitmap : cl_bitmap := Bitmap [11; 0] 40 0.

Lemma sample_bitmap_wf : bm_wf sample_bitmap.
Proof.
  constructor; cbn; unfold words_ok, nbits, BITS_PER_LONG, is_word; cbn; try lia.
  repeat constructor; lia.
Qed.

(** [cl_bitmap_alloc_bit] on a well-formed map always returns.  If every
    bit is used it returns the error value and changes no bit; otherwise it
    returns a free bit below [mask_count], marks exactly that bit used, and,
    when the hint is tight, the bit is the lowest free one. *)
Theorem cl_bitmap_alloc_bit_correct bm :
  bm_wf bm ->
  exists r bm', cl_bitmap_alloc_bit bm = Some (r, bm') /\ bm_wf bm' /\
    mask_count bm' = mask_count bm /\
    ((r = HAL_BITMAP_ALLOC_BIT_ERROR /\ (forall i, used bm' i = used bm i) /\
        forall i, 0 <= i < mask_count bm -> used bm i = true) \/
     (0 <= r < mask_count bm /\ used bm r = false /\
        (forall i, used bm' i = if i =? r then true else used bm i) /\
        (tight bm -> tight bm' /\ forall i, 0 <= i < r -> used bm i = true))).
Proof.
  intros Hwf. destruct (alloc_bit_cases bm Hwf)
    as (r & bm' & Ha & Hwf' & Hm & _ & [(-> & Hb & _ & Hfull)|(Hr & Hz & Hl & Hu & Ht)]).
  - do 2 eexists. split_and!; [done..|]. left. split_and!; [done| |done].
    intros i. unfold used. by rewrite Hb.
  - do 2 eexists. split_and!; [done..|]. right. split_and!; [lia|lia|done|done|].
    intros Hti. split; [|by apply Ht]. intros i Hi Him. rewrite Hu, Hl in *.
    destruct (Z.eqb_spec i r); [done|]. apply Ht; [done|lia].
Qed.

Lemma cl_bitmap_alloc_bit_witness :
  exists r bm', cl_bitmap_alloc_bit sample_bitmap = Some (r, bm') /\ bm_wf bm' /\
    mask_count bm' = 40 /\
    ((r = HAL_BITMAP_ALLOC_BIT_ERROR /\ (forall i, used bm' i = used sample_bitmap i) /\
        forall i, 0 <= i < 40 -> used sample_bitmap i = true) \/
     (0 <= r < 40 /\ used sample_bitmap r = false /\
        (forall i, used bm' i = if i =? r then true else used sample_bitmap i) /\
        (tight sample_bitmap -> tight bm' /\ forall i, 0 <= i < r -> used sample_bitmap i = true))).
Proof. apply (cl_bitmap_alloc_bit_correct sample_bitmap). apply sample_bitmap_wf. Defined.

(** [cl_bitmap_dealloc_bit] of a bit below [mask_count] reports whether it
    was used, leaves it free, changes no other bit, and keeps the map
    well-formed and a tight hint tight. *)
Theorem cl_bitmap_dealloc_bit_correct bm b :
  bm_wf bm -> 0 <= b < mask_count bm ->
  exists bm', cl_bitmap_dealloc_bit bm b = Some (used bm b, bm') /\ bm_wf bm' /\
    mask_count bm' = mask_count bm /\ (tight bm -> tight bm') /\
    forall i, used bm' i = if i =? b then false else used bm i.
Proof.
  intros Hwf Hb. destruct (dealloc_bit_cases bm b Hwf Hb) as (bm' & Hd & Hwf' & Hm & _ & Hl & Hu).
  exists bm'. split_and!; try done. by apply (dealloc_tight bm bm' b).
Qed.

Lemma cl_bitmap_dealloc_bit_witness :
  exists bm', cl_bitmap_dealloc_bit sample_bitmap 1 = Some (used sample_bitmap 1, bm') /\
    bm_wf bm' /\ mask_count bm' = 40 /\ (tight sample_bitmap -> tight bm') /\
    forall i, used bm' i = if i =? 1 then false else used sample_bitmap i.
Proof.
  apply (cl_bitmap_dealloc_bit_correct sample_bitmap 1); [apply sample_bitmap_wf|cbn; lia].
Defined.

(** C15: whenever the map has a free run of [count] bits,
    [cl_bitmap_alloc_consistant_bits] terminates, wherever its hint points,
    and returns the start of a free run of [count] bits all of which, and
    nothing else, it has marked used.  [2 * mask_count + 3] jumps to
    [restart_scan] are enough. *)
Theorem cl_bitmap_alloc_consistant_bits_finds_run fuel bm count s :
  bm_wf bm -> 1 <= count -> free_run bm s count ->
  2 * mask_count bm + 3 <= Z.of_nat fuel ->
  exists r bm', cl_bitmap_alloc_consistant_bits fuel bm count = Ret (r, bm') /\
    run_allocated bm count r bm'.
Proof.
  intros Hwf Hc Hfr Hf. apply (consistant_any count s Hc); [done|done|].
  destruct Hfr as (Hs & Hsm & Hrun).
  destruct (round_start_spec bm s Hwf ltac:(lia)) as (Hb & _); [apply Hrun; lia|]. lia.
Qed.

Lemma cl_bitmap_alloc_consistant_bits_witness :
  exists r bm', cl_bitmap_alloc_consistant_bits 100 sample_bitmap 3 = Ret (r, bm') /\
    run_allocated sample_bitmap 3 r bm'.
Proof.
  apply (cl_bitmap_alloc_consistant_bits_finds_run 100 sample_bitmap 3 4).
  - apply sample_bitmap_wf.
  - lia.
  - split_and!; [lia|cbn; lia|]. intros i Hi.
    assert (i = 4 \/ i = 5 \/ i = 6) as [->|[->| ->]] by lia; reflexivity.
  - cbn. lia.
Defined.

(** [cl_bitmap_alloc_consistant_bits] does not terminate on a map that
    has a free bit, whose last bit is used, and that has no free run of
    [count] bits: each sweep ends at the used last bit, so the code wraps
    around without setting [scan_flag]. *)
Theorem cl_bitmap_alloc_consistant_bits_diverges fuel bm count z :
  bm_wf bm -> 1 <= count -> 0 <= z < mask_count bm -> used bm z = false ->
  used bm (mask_count bm - 1) = true -> (forall s, ~ free_run bm s count) ->
  cl_bitmap_alloc_consistant_bits fuel bm count = NoFuel.
Proof. intros. by apply (consistant_diverges fuel false count bm z). Qed.

(** Two bits, the first free and the second used: two consecutive bits are
    asked for. *)
Lemma cl_bitmap_alloc_consistant_bits_diverges_witness :
  cl_bitmap_alloc_consistant_bits 1000 (Bitmap [2] 2 0) 2 = NoFuel.
Proof.
  apply (cl_bitmap_alloc_consistant_bits_diverges 1000 (Bitmap [2] 2 0) 2 0).
  - constructor; cbn; unfold words_ok, nbits, BITS_PER_LONG, is_word; cbn; try lia.
    repeat constructor; lia.
  - lia.
  - cbn. lia.
  - reflexivity.
  - reflexivity.
  - intros s (H0 & Hs & Hr). cbn in Hs. assert (s = 0) as -> by lia.
    specialize (Hr 1 ltac:(lia)). discriminate Hr.
Defined.

(** Releasing the run that [cl_bitmap_alloc_consistant_bits] returned
    releases all [count] bits and restores the map bit for bit. *)
Theorem consistant_bits_roundtrip fuel bm count s :
  bm_wf bm -> 1 <= count -> free_run bm s count ->
  2 * mask_count bm + 3 <= Z.of_nat fuel ->
  exists r bm1 bm2, cl_bitmap_alloc_consistant_bits fuel bm count = Ret (r, bm1) /\
    cl_bitmap_dealloc_consistent_bits bm1 count r = Some (count, bm2) /\ bm_wf bm2 /\
    mask_count bm2 = mask_count bm /\ forall i, used bm2 i = used bm i.
Proof.
  intros Hwf Hc Hfr Hf.
  destruct (consistant_any count s Hc fuel bm Hwf Hfr) as (r & bm1 & Ha & Hrun & Hwf1 & Hm1 & _ & _ & Hu1).
  { destruct Hfr as (Hs & Hsm & Hr).
    destruct (round_start_spec bm s Hwf ltac:(lia)) as (Hb & _); [apply Hr; lia|]. lia. }
  destruct Hrun as (Hr0 & Hrm & Hrf).
  destruct (dealloc_run_spec (Z.to_nat count) bm1 0 r Hwf1) as (bm2 & Hd & Hwf2 & Hm2 & _ & Hu2);
    [done|lia| |].
  { intros j Hj. rewrite Hu1.
    destruct (Z.leb_spec r j), (Z.ltb_spec j (r + count)); cbn [andb]; try done; lia. }
  exists r, bm1, bm2. rewrite Z2Nat.id in * by lia. split_and!; try done; try congruence.
  intros i. rewrite Hu2, Hu1.
  destruct (Z.leb_spec r i), (Z.ltb_spec i (r + count)); cbn [andb]; try done.
  symmetry. apply Hrf. lia.
Qed.

Lemma consistant_bits_roundtrip_witness :
  exists r bm1 bm2, cl_bitmap_alloc_consistant_bits 100 sample_bitmap 3 = Ret (r, bm1) /\
    cl_bitmap_dealloc_consistent_bits bm1 3 r = Some (3, bm2) /\ bm_wf bm2 /\
    mask_count bm2 = 40 /\ forall i, used bm2 i = used sample_bitmap i.
Proof.
  apply (consistant_bits_roundtrip 100 sample_bitmap 3 4).
  - apply sample_bitmap_wf.
  - lia.
  - split_and!; [lia|cbn; lia|]. intros i Hi.
    assert (i = 4 \/ i = 5 \/ i = 6) as [->|[->| ->]] by lia; reflexivity.
  - cbn. lia.
Defined.

(** For word-aligned arguments [cl_bitmap_adaption] terminates and puts
    the largest number of blocks in the buffer that leaves room for their
    map, behind which all of the map's words lie; every block is free.  It
    fails exactly when not even one block fits. *)
Theorem cl_bitmap_adaption_maximal fuel bm buffer words bs blk :
  words_ok words -> 0 < blk -> blk mod 4 = 0 -> buffer mod 4 = 0 ->
  0 <= bs -> bs = 4 * Z.of_nat (length words) -> bs + blk + 1 < 2147483648 ->
  is_word (last_bit bm) -> bs + 2 <= Z.of_nat fuel ->
  exists n, 0 <= n /\ adaption_size blk n <= bs < adaption_size blk (n + 1) /\
    (n = 0 -> cl_bitmap_adaption fuel bm buffer words bs blk = Ret (false, bm)) /\
    (0 < n -> exists bm', cl_bitmap_adaption fuel bm buffer words bs blk = Ret (true, bm') /\
       bm_wf bm' /\ mask_count bm' = n /\ forall i, 0 <= i < n -> used bm' i = false).
Proof.
  intros Hok Hblk Ha Hb Hbs Hlen Hov Hl Hf.
  destruct (adaption_loop_spec fuel bs blk 1) as (n & Hn & Hn0 & Hfit); try done; try lia.
  exists n. split; [lia|]. split; [done|]. unfold cl_bitmap_adaption, SIZEOF_LONG.
  rewrite wrap_small by (unfold is_word; lia). rewrite Ha, Hb, Hn. cbn [mbind run_bind Z.eqb negb].
  split; [by intros ->|]. intros Hpos. destruct (Z.eqb_spec n 0); [lia|].
  assert (0 <= n * blk / 4) by (apply Z.div_pos; nia).
  assert (n * blk = 4 * (n * blk / 4)) as Hdiv.
  { apply Z_div_exact_full_2; [lia|]. rewrite Z.mul_mod, Ha, Z.mul_0_r by lia. done. }
  unfold adaption_size in Hfit. rewrite calc_size_ceil in Hfit |- * by lia.
  set (area := drop _ _). assert (Z.of_nat (length area) = Z.of_nat (length words) - n * blk / 4) as Hal.
  { subst area. rewrite length_drop. assert (0 <= (n + 7) / 8) by (apply Z.div_pos; lia). lia. }
  destruct (memset_zero_spec area ((n + 7) / 8)) as (a & -> & Hok' & Hla & Hbit).
  { by apply Forall_drop. }
  { split; [apply Z.div_pos; lia|lia]. }
  cbn [lift mbind run_bind]. eexists. split; [done|]. split_and!; [|done|].
  - constructor; cbn; [done| |nia|done]. unfold nbits, BITS_PER_LONG. rewrite Hla.
    split; [lia|]. zlia.
  - intros i Hi. unfold used. cbn. rewrite Hbit by lia.
    destruct (Z.ltb_spec i (8 * ((n + 7) / 8))); [done|]. exfalso. zlia.
Qed.

Lemma cl_bitmap_adaption_witness :
  exists n, 0 <= n /\ adaption_size 8 n <= 24 < adaption_size 8 (n + 1) /\
    (n = 0 -> cl_bitmap_adaption 30 (Bitmap [] 0 0) 64 [1; 2; 3; 4; 5; 6] 24 8
              = Ret (false, Bitmap [] 0 0)) /\
    (0 < n -> exists bm', cl_bitmap_adaption 30 (Bitmap [] 0 0) 64 [1; 2; 3; 4; 5; 6] 24 8
                          = Ret (true, bm') /\
       bm_wf bm' /\ mask_count bm' = n /\ forall i, 0 <= i < n -> used bm' i = false).
Proof.
  apply (cl_bitmap_adaption_maximal 30 (Bitmap [] 0 0) 64 [1; 2; 3; 4; 5; 6] 24 8);
    try lia; try reflexivity; try (unfold is_word; cbn; lia).
  unfold words_ok, is_word. repeat constructor; lia.
Defined.
