(* ===== verification/BlkBuf.v ===== *)
(** * The block allocator

    [source/libs/common/blkbuf.c] and [include/blkbuf.h]: fixed-size blocks
    carved out of buffers that the owner adds with [cl_bkb_extend].  Each
    buffer holds its blocks first, then a [struct block_instance], then the
    bitmap of its blocks; the instances form a doubly linked list.  The model
    keeps the instances in a store indexed by their address, with [pre] and
    [next] as addresses (0 is [NULL]). *)

From stdpp Require Import gmap.
From S2P Require Import Prelude Bits Bitmap.
Import BitmapOps.

Record block_instance := Instance {
  pre : Z;
  next : Z;
  inst_bitmap : cl_bitmap;
  this_size : Z;
  node_count : Z;
  free_count : Z;
  call_back_parameter : Z;
  free_handler : Z
}.

Record cl_bkb := Bkb {
  node_size : Z;
  prefer : Z
}.

Abbreviation instances := (gmap Z block_instance).

(** [sizeof(struct block_instance)] on i386. *)
Definition SIZEOF_INSTANCE : Z := 40.

Module BkbOps.

Definition set_bitmap (i : block_instance) (bm : cl_bitmap) : block_instance :=
  Instance (pre i) (next i) bm (this_size i) (node_count i) (free_count i)
    (call_back_parameter i) (free_handler i).
Definition set_free_count (i : block_instance) (c : Z) : block_instance :=
  Instance (pre i) (next i) (inst_bitmap i) (this_size i) (node_count i) c
    (call_back_parameter i) (free_handler i).
Definition set_pre (i : block_instance) (p : Z) : block_instance :=
  Instance p (next i) (inst_bitmap i) (this_size i) (node_count i) (free_count i)
    (call_back_parameter i) (free_handler i).
Definition set_next (i : block_instance) (p : Z) : block_instance :=
  Instance (pre i) p (inst_bitmap i) (this_size i) (node_count i) (free_count i)
    (call_back_parameter i) (free_handler i).

Definition GET_DATA_AREA (bkb : cl_bkb) (base : Z) (i : block_instance) : Z :=
  (base -w node_count i * node_size bkb)%C.

(** [BLKBUF_ALLOCATE(DIRECTION, bkb)]: the address found and its instance. *)
Fixpoint BLKBUF_ALLOCATE (fuel : nat) (DIRECTION : block_instance -> Z) (bkb : cl_bkb)
    (h : instances) (where_ : Z) : run (option (Z * Z) * instances) :=
  match fuel with
  | O => NoFuel
  | S fuel =>
    if where_ =? 0 then Ret (None, h)
    else
      i ← lift (h !! where_);
      '(id, bm) ← lift (cl_bitmap_alloc_bit (inst_bitmap i));
      let h := <[where_ := set_bitmap i bm]> h in
      if negb (id =? HAL_BITMAP_ALLOC_BIT_ERROR)
      then Ret (Some (where_, (id * node_size bkb +w GET_DATA_AREA bkb where_ i)%C), h)
      else BLKBUF_ALLOCATE fuel DIRECTION bkb h (DIRECTION i)
  end.

(** [dealloc]; [delete_node] is an empty function. *)
Definition dealloc (bkb : cl_bkb) (h : instances) (node p : Z) : option instances :=
  i ← h !! node;
  '(_, bm) ← cl_bitmap_dealloc_bit (inst_bitmap i)
               ((p -w GET_DATA_AREA bkb node i)%C / node_size bkb);
  Some (<[node := set_free_count (set_bitmap i bm) (free_count i + 1)]> h).

(** [BLKBUF_DEALLOCATE(DIRECTION, bkb)]: whether the block was found. *)
Fixpoint BLKBUF_DEALLOCATE (fuel : nat) (DIRECTION : block_instance -> Z) (bkb : cl_bkb)
    (h : instances) (p where_ : Z) : run (bool * instances) :=
  match fuel with
  | O => NoFuel
  | S fuel =>
    if where_ =? 0 then Ret (false, h)
    else
      i ← lift (h !! where_);
      if (GET_DATA_AREA bkb where_ i <=? p) && (p <? where_)
      then h' ← lift (dealloc bkb h where_ p); Ret (true, h')
      else BLKBUF_DEALLOCATE fuel DIRECTION bkb h p (DIRECTION i)
  end.

Definition cl_bkb_init (node_size : Z) : cl_bkb := Bkb node_size 0.

(** Label [got] of [cl_bkb_alloc]. *)
Definition alloc_got (h : instances) (where_ p : Z) : run (Z * instances) :=
  i ← lift (h !! where_);
  Ret (p, <[where_ := set_free_count i (free_count i - 1)]> h).

Definition cl_bkb_alloc (fuel : nat) (bkb : cl_bkb) (h : instances) : run (Z * instances) :=
  '(r, h) ← BLKBUF_ALLOCATE fuel next bkb h (prefer bkb);
  match r with
  | Some (w, p) => alloc_got h w p
  | None =>
    if prefer bkb =? 0 then Ret (0, h)
    else
      i ← lift (h !! prefer bkb);
      '(r, h) ← BLKBUF_ALLOCATE fuel pre bkb h (pre i);
      match r with
      | Some (w, p) => alloc_got h w p
      | None => Ret (0, h)
      end
  end.

Definition cl_bkb_dealloc (fuel : nat) (bkb : cl_bkb) (h : instances) (p : Z)
  : run (Z * instances) :=
  '(ok, h) ← BLKBUF_DEALLOCATE fuel next bkb h p (prefer bkb);
  if ok : bool then Ret (p, h)
  else if prefer bkb =? 0 then Ret (0, h)
  else
    i ← lift (h !! prefer bkb);
    '(ok, h) ← BLKBUF_DEALLOCATE fuel pre bkb h p (pre i);
    if ok : bool then Ret (p, h) else Ret (0, h).

(** The [while] of [cl_bkb_extend]: shrink until everything fits. *)
Fixpoint extend_count (fuel : nat) (node_size size cur_count : Z) : run Z :=
  match fuel with
  | O => NoFuel
  | S fuel =>
    if size <? (cl_bitmap_calc_size cur_count + cur_count * node_size +w SIZEOF_INSTANCE)%C
    then extend_count fuel node_size size (cur_count -w 1)%C
    else Ret cur_count
  end.

(** The words from address [a] to [e] of a memory of words. *)
Definition words_from (mem : Z -> Z) (a e : Z) : list Z :=
  (fun k => mem (a + SIZEOF_LONG * Z.of_nat k)) <$> seq 0 (Z.to_nat ((e - a) / SIZEOF_LONG)).

(** Lines 127 to 138: insert the new instance after the preferred one. *)
Definition extend_link (bkb : cl_bkb) (h : instances) (buf : Z) (i : block_instance)
  : run (cl_bkb * instances) :=
  if prefer bkb =? 0 then Ret (Bkb (node_size bkb) buf, <[buf := i]> h)
  else
    let p := prefer bkb in
    pi ← lift (h !! p);
    let h := <[buf := set_next (set_pre i p) (next pi)]> h in
    h ← (if negb (next pi =? 0)
         then n ← lift (h !! next pi); Ret (<[next pi := set_pre n buf]> h)
         else Ret h);
    pi ← lift (h !! p);
    Ret (bkb, <[p := set_next pi buf]> h).

(** [mem] is the memory that the buffer [base .. base+size-1] is part of. *)
Definition cl_bkb_extend (fuel : nat) (mem : Z -> Z) (bkb : cl_bkb) (h : instances)
    (base size handler para : Z) : run (cl_bkb * instances) :=
  cur_count ← extend_count fuel (node_size bkb) size (size / node_size bkb);
  let buf := (base +w cur_count * node_size bkb)%C in
  bm ← lift (cl_bitmap_init (Bitmap [] 0 0)
               (words_from mem (buf + SIZEOF_INSTANCE) (base + size)) cur_count);
  extend_link bkb h buf (Instance 0 0 bm size cur_count cur_count para handler).

End BkbOps.
Import BkbOps.

(** ** Well-formed allocators

    What never changes once an instance exists: its links and its count. *)
Definition shape (h : instances) (a : Z) : option (Z * Z * Z) :=
  (fun i => (pre i, next i, node_count i)) <$> h !! a.

(** The instances reached from [p] by [next]. *)
Fixpoint chain (h : instances) (p : Z) (l : list Z) : Prop :=
  match l with
  | [] => p = 0
  | a :: l => p = a /\ a <> 0 /\ exists q n c, shape h a = Some (q, n, c) /\ chain h n l
  end.

Section Wf.
Context (ns : Z).

(** The blocks of the instance at [a] lie in [area a i .. a - 1]. *)
Definition area (a : Z) (i : block_instance) : Z := a - node_count i * ns.

Record inst_ok (a : Z) (i : block_instance) : Prop := {
  ok_bm : bm_wf (inst_bitmap i);
  ok_count : mask_count (inst_bitmap i) = node_count i;
  ok_addr : is_word a;
  ok_area : 0 < area a i
}.

(** Block [id] of the instance at [a] is handed out. *)
Definition ubit (h : instances) (a id : Z) : bool :=
  match h !! a with Some i => used (inst_bitmap i) id | None => false end.

(** The abstract state: the addresses of the blocks handed out. *)
Definition live (h : instances) (p : Z) : Prop :=
  exists a i id, h !! a = Some i /\ 0 <= id < node_count i /\
    used (inst_bitmap i) id = true /\ p = area a i + id * ns.

Record store_ok (h : instances) : Prop := {
  store_inst : forall a i, h !! a = Some i -> inst_ok a i;
  store_disjoint : forall a b i j, h !! a = Some i -> h !! b = Some j -> a <> b ->
    a <= area b j \/ b <= area a i
}.
End Wf.

Record bkb_wf (bkb : cl_bkb) (h : instances) (l : list Z) : Prop := {
  bkb_ns : 0 < node_size bkb;
  bkb_chain : chain h (prefer bkb) l;
  bkb_nodup : NoDup l;
  bkb_dom : forall a i, h !! a = Some i -> a ∈ l;
  bkb_store : store_ok (node_size bkb) h;
  bkb_first : forall i, h !! prefer bkb = Some i -> pre i = 0
}.

(** [h'] differs from [h] in bitmaps and free counters only, and its bits are
    those of [h] except that [f] decides bit [id] of instance [a]. *)
Record bits_step (ns : Z) (h h' : instances) (f : Z -> Z -> option bool) : Prop := {
  step_shape : forall a, shape h' a = shape h a;
  step_store : store_ok ns h';
  step_bits : forall a id, ubit h' a id = default (ubit h a id) (f a id)
}.

Lemma shape_update h a i i' :
  h !! a = Some i -> pre i' = pre i -> next i' = next i -> node_count i' = node_count i ->
  forall b, shape (<[a := i']> h) b = shape h b.
Proof.
  intros Ha Hp Hn Hc b. unfold shape. rewrite lookup_insert. case_decide; [|done].
  subst. rewrite Ha. cbn. congruence.
Qed.

Lemma chain_shape h h' p l :
  (forall a, shape h' a = shape h a) -> chain h p l -> chain h' p l.
Proof.
  intros Hs. revert p. induction l as [|a l IH]; intros p; cbn; [done|].
  intros (-> & Ha & q & n & c & Hsh & Hc). rewrite Hs. eauto 10.
Qed.

(** Every member of the list is an instance. *)
Lemma chain_in h p l a : chain h p l -> a ∈ l -> is_Some (h !! a).
Proof.
  revert p. induction l as [|b l IH]; intros p Hch Hin; [by apply not_elem_of_nil in Hin|].
  destruct Hch as (-> & _ & q & m & c & Hsh & Hch). apply elem_of_cons in Hin as [->|Hin]; [|by eauto].
  unfold shape in Hsh. destruct (h !! b); [by eexists|done].
Qed.

Lemma shape_Some h a i : h !! a = Some i -> shape h a = Some (pre i, next i, node_count i).
Proof. intros H. unfold shape. by rewrite H. Qed.

Lemma shape_inv h h' a i :
  (forall a, shape h' a = shape h a) -> h' !! a = Some i ->
  exists i0, h !! a = Some i0 /\ pre i = pre i0 /\ next i = next i0 /\ node_count i = node_count i0.
Proof.
  intros Hs Ha. specialize (Hs a). unfold shape in Hs. rewrite Ha in Hs. cbn in Hs.
  destruct (h !! a); cbn in Hs; [|done]. simplify_eq. eauto.
Qed.

(** Replace the bitmap of one instance. *)
Lemma store_ok_update ns h a i i' :
  store_ok ns h -> h !! a = Some i -> node_count i' = node_count i ->
  bm_wf (inst_bitmap i') -> mask_count (inst_bitmap i') = mask_count (inst_bitmap i) ->
  store_ok ns (<[a := i']> h).
Proof.
  intros [Hi Hd] Ha Hc Hw Hm. pose proof (Hi _ _ Ha) as [? Hmc ? ?].
  assert (area ns a i' = area ns a i) as Har by (unfold area; congruence). split.
  - intros b j. rewrite lookup_insert. case_decide; [|apply Hi].
    intros; simplify_eq. constructor; [done|congruence|done|congruence].
  - intros b c j k Hb Hc' Hne. rewrite lookup_insert in Hb, Hc'.
    case_decide; case_decide; simplify_eq; rewrite ?Har; eauto.
Qed.

Lemma ubit_insert h a i b id :
  ubit (<[a := i]> h) b id = if a =? b then used (inst_bitmap i) id else ubit h b id.
Proof.
  unfold ubit. rewrite lookup_insert. destruct (Z.eqb_spec a b); by case_decide.
Qed.

Lemma ubit_at h a i id : h !! a = Some i -> ubit h a id = used (inst_bitmap i) id.
Proof. intros H. unfold ubit. by rewrite H. Qed.

Lemma GET_DATA_AREA_area bkb a i :
  0 < node_size bkb -> inst_ok (node_size bkb) a i ->
  GET_DATA_AREA bkb a i = area (node_size bkb) a i.
Proof.
  intros Hns [Hbm Hc Ha Har]. unfold GET_DATA_AREA. apply wrap_small.
  unfold area in *. destruct Hbm. unfold is_word in *. nia.
Qed.

(** The address of a block determines its instance and its number. *)
Lemma block_unique ns h a b i j k m :
  0 < ns -> store_ok ns h -> h !! a = Some i -> h !! b = Some j ->
  0 <= k < node_count i -> 0 <= m < node_count j ->
  area ns a i + k * ns = area ns b j + m * ns -> a = b /\ k = m.
Proof.
  intros Hns [Hi Hd] Ha Hb Hk Hm Heq.
  assert (a = b) as ->.
  { destruct (Z.eq_dec a b) as [|Hne]; [done|exfalso].
    destruct (Hd a b i j Ha Hb Hne); unfold area in *; nia. }
  simplify_eq. split; [done|]. nia.
Qed.

(** ** The walks along the list *)

Lemma allocate_walk fuel bkb h p l :
  0 < node_size bkb -> store_ok (node_size bkb) h -> chain h p l ->
  (length l < fuel)%nat ->
  exists r h', BLKBUF_ALLOCATE fuel next bkb h p = Ret (r, h') /\
    match r with
    | None => bits_step (node_size bkb) h h' (fun _ _ => None) /\
        forall a i id, a ∈ l -> h !! a = Some i -> 0 <= id < node_count i -> ubit h a id = true
    | Some (w, q) => exists i id, h !! w = Some i /\ 0 <= id < node_count i /\
        used (inst_bitmap i) id = false /\ q = area (node_size bkb) w i + id * node_size bkb /\
        bits_step (node_size bkb) h h'
          (fun a k => if (a =? w) && (k =? id) then Some true else None)
    end.
Proof.
  intros Hns. revert h p l. induction fuel as [|fuel IH]; intros h p l Hst Hch Hf; [lia|].
  cbn [BLKBUF_ALLOCATE]. destruct l as [|a l]; cbn in Hch.
  { subst p. cbn. exists None, h. split; [done|]. split; [by constructor|]. intros ???. by intros ?%not_elem_of_nil. }
  destruct Hch as (-> & Ha0 & q & n & c & Hsh & Hch).
  destruct (Z.eqb_spec a 0); [done|]. unfold shape in Hsh.
  destruct (h !! a) as [i|] eqn:Hai; [|done]. cbn in Hsh. simplify_eq.
  pose proof (store_inst _ _ Hst _ _ Hai) as Hok. pose proof Hok as [Hbm Hmc Haw Har].
  destruct (alloc_bit_cases _ Hbm) as (id & bm & Hal & Hbm' & Hm' & _ & Hcase).
  cbn [lift mbind run_bind]. rewrite Hal. cbn [lift mbind run_bind].
  assert (store_ok (node_size bkb) (<[a:=set_bitmap i bm]> h)) as Hst'
    by (by eapply store_ok_update).
  pose proof (shape_update h a i (set_bitmap i bm) Hai eq_refl eq_refl eq_refl) as Hshape.
  destruct Hcase as [(-> & Hsame & _ & Hfull)|(Hid & Hfree & _ & Hu & _)].
  - rewrite Z.eqb_refl. cbn [negb].
    assert (forall b k, ubit (<[a:=set_bitmap i bm]> h) b k = ubit h b k) as Hub.
    { intros b k. rewrite ubit_insert. destruct (Z.eqb_spec a b); [subst|done].
      rewrite (ubit_at _ _ _ _ Hai). cbn. unfold used. by rewrite Hsame. }
    destruct (IH (<[a:=set_bitmap i bm]> h) (next i) l) as (r & h' & Hr & Hres);
      [done|by eapply chain_shape|cbn in Hf; lia|].
    exists r, h'. split; [done|]. destruct r as [[w q]|].
    + destruct Hres as (j & k & Hj & Hk & Hjk & Hq & Hstep).
      destruct (shape_inv _ _ _ _ Hshape Hj) as (j0 & Hj0 & _ & _ & Hnc).
      specialize (Hub w k) as Hwk. rewrite (ubit_at _ _ _ _ Hj), (ubit_at _ _ _ _ Hj0) in Hwk.
      exists j0, k. unfold area in *. rewrite <- Hnc.
      split_and!; try done; try lia; [congruence|]. destruct Hstep as [Hs1 Hs2 Hs3].
      constructor; [intros; by rewrite Hs1|done|]. intros b m. by rewrite Hs3, Hub.
    + destruct Hres as [[Hs1 Hs2 Hs3] Hall]. split.
      { constructor; [intros; by rewrite Hs1|done|]. intros b m. by rewrite Hs3, Hub. }
      intros b j k Hb Hj Hk. destruct (decide (b = a)) as [->|Hne].
      * simplify_eq. rewrite (ubit_at _ _ _ _ Hai). apply Hfull. lia.
      * rewrite <- Hub. apply (Hall b j); [|by rewrite lookup_insert_ne by done|done].
        by apply elem_of_cons in Hb as [?|?].
  - destruct (Z.eqb_spec id HAL_BITMAP_ALLOC_BIT_ERROR) as [E|_].
    { exfalso. destruct Hbm. unfold HAL_BITMAP_ALLOC_BIT_ERROR, ULONG_MAX in E. lia. }
    cbn [negb]. do 2 eexists. split; [done|]. exists i, id. rewrite Hmc in Hid.
    split_and!; try done; try lia.
    + rewrite GET_DATA_AREA_area by done. rewrite wrap_small; [lia|].
      unfold area in *. destruct Hbm. unfold is_word in *. nia.
    + constructor; [done|done|]. intros b k. rewrite ubit_insert. cbn.
      destruct (Z.eqb_spec a b), (Z.eqb_spec b a); try lia; cbn; [|done].
      subst. rewrite Hu. destruct (Z.eqb_spec k id); cbn; [done|]. by rewrite (ubit_at _ _ _ _ Hai).
Qed.

Lemma deallocate_walk fuel bkb h p w l :
  0 < node_size bkb -> store_ok (node_size bkb) h -> chain h w l -> (length l < fuel)%nat ->
  (exists a i, a ∈ l /\ h !! a = Some i /\ area (node_size bkb) a i <= p < a /\
     BLKBUF_DEALLOCATE fuel next bkb h p w
     = (h' ← lift (dealloc bkb h a p); Ret (true, h'))) \/
  ((forall a i, a ∈ l -> h !! a = Some i -> ~ (area (node_size bkb) a i <= p < a)) /\
     BLKBUF_DEALLOCATE fuel next bkb h p w = Ret (false, h)).
Proof.
  intros Hns Hst. revert w l. induction fuel as [|fuel IH]; intros w l Hch Hf; [lia|].
  cbn [BLKBUF_DEALLOCATE]. destruct l as [|a l]; cbn in Hch.
  { subst w. right. split; [|done]. by intros a i ?%not_elem_of_nil. }
  destruct Hch as (-> & Ha0 & q & n & c & Hsh & Hch).
  destruct (Z.eqb_spec a 0); [done|]. unfold shape in Hsh.
  destruct (h !! a) as [i|] eqn:Hai; [|done]. cbn in Hsh. simplify_eq.
  cbn [lift mbind run_bind]. rewrite GET_DATA_AREA_area by (done || by apply Hst).
  destruct (Z.leb_spec (area (node_size bkb) a i) p), (Z.ltb_spec p a); cbn [andb].
  { left. exists a, i. split_and!; [apply list_elem_of_here|done|done|done|done]. }
  all: destruct (IH (next i) l Hch ltac:(cbn in Hf; lia))
    as [(b & j & Hb & Hj & Hp & ->)|[Hno ->]]; [left|right].
  all: try (exists b, j; split_and!; [by apply list_elem_of_further|done|lia|lia|done]).
  all: split; [|done]; intros b j Hb Hj Hp; apply elem_of_cons in Hb as [->|Hb];
    [simplify_eq; lia|by eapply Hno].
Qed.

Lemma dealloc_block bkb h a i id :
  0 < node_size bkb -> store_ok (node_size bkb) h -> h !! a = Some i -> 0 <= id < node_count i ->
  exists h', dealloc bkb h a (area (node_size bkb) a i + id * node_size bkb) = Some h' /\
    bits_step (node_size bkb) h h'
      (fun b k => if (b =? a) && (k =? id) then Some false else None).
Proof.
  intros Hns Hst Hai Hid. pose proof (store_inst _ _ Hst _ _ Hai) as Hok.
  pose proof Hok as [Hbm Hmc Haw Har]. unfold dealloc. rewrite Hai. cbn [mbind option_bind].
  rewrite GET_DATA_AREA_area by done.
  replace (wrap (area (node_size bkb) a i + id * node_size bkb - area (node_size bkb) a i)
           / node_size bkb) with id.
  2: { rewrite wrap_small; [|destruct Hbm; unfold is_word, area in *; nia].
       rewrite Z.add_simpl_l. by rewrite Z.div_mul by lia. }
  destruct (dealloc_bit_cases _ id Hbm ltac:(lia)) as (bm & -> & Hbm' & Hm' & _ & _ & Hu).
  cbn [mbind option_bind]. eexists. split; [done|]. constructor.
  - by apply (shape_update h a i).
  - by eapply (store_ok_update _ _ _ i).
  - intros b k. rewrite ubit_insert. cbn.
    destruct (Z.eqb_spec a b), (Z.eqb_spec b a); try lia; cbn; [|done].
    subst. rewrite Hu. destruct (Z.eqb_spec k id); cbn; [done|]. by rewrite (ubit_at _ _ _ _ Hai).
Qed.

(** ** Steps and the abstract state *)

Lemma bits_step_wf bkb h h' f l :
  bkb_wf bkb h l -> bits_step (node_size bkb) h h' f -> bkb_wf bkb h' l.
Proof.
  intros [Hns Hch Hnd Hdom Hst Hfi] [Hs Hst' _]. constructor; try done.
  - by eapply chain_shape.
  - intros a i Hai. destruct (shape_inv _ _ _ _ Hs Hai) as (j & Hj & _). eauto.
  - intros i Hi. destruct (shape_inv _ _ _ _ Hs Hi) as (j & Hj & -> & _). eauto.
Qed.

Lemma bits_step_none_l ns h h1 h2 f :
  bits_step ns h h1 f -> bits_step ns h1 h2 (fun _ _ => None) -> bits_step ns h h2 f.
Proof.
  intros [S1 _ B1] [S2 W2 B2]. constructor; [|done|].
  - intros a. by rewrite S2.
  - intros a id. by rewrite B2, B1.
Qed.

Lemma live_step ns h h' f p :
  bits_step ns h h' f ->
  live ns h' p <-> exists a i id, h !! a = Some i /\ 0 <= id < node_count i /\
    default (ubit h a id) (f a id) = true /\ p = area ns a i + id * ns.
Proof.
  intros [Hs _ Hb]. split.
  - intros (a & i & id & Hai & Hid & Hu & ->).
    destruct (shape_inv _ _ _ _ Hs Hai) as (j & Hj & _ & _ & Hc).
    exists a, j, id. rewrite <- Hb, (ubit_at _ _ _ _ Hai). unfold area. rewrite <- Hc. done.
  - intros (a & i & id & Hai & Hid & Hu & ->). rewrite <- Hb in Hu. unfold ubit in Hu.
    destruct (h' !! a) as [j|] eqn:Hj; [|done].
    destruct (shape_inv _ _ _ _ Hs Hj) as (i0 & Hi0 & _ & _ & Hc). simplify_eq.
    exists a, j, id. unfold area. rewrite Hc. done.
Qed.

Lemma live_ubit ns h a i id :
  0 < ns -> store_ok ns h -> h !! a = Some i -> 0 <= id < node_count i ->
  live ns h (area ns a i + id * ns) <-> ubit h a id = true.
Proof.
  intros Hns Hst Hai Hid. split.
  - intros (b & j & k & Hb & Hk & Hu & Heq).
    destruct (block_unique ns h a b i j id k) as [<- <-]; try done. by rewrite (ubit_at _ _ _ _ Hb).
  - intros Hu. rewrite (ubit_at _ _ _ _ Hai) in Hu. by exists a, i, id.
Qed.

Lemma live_set ns h h' w i id b :
  0 < ns -> store_ok ns h -> h !! w = Some i -> 0 <= id < node_count i ->
  bits_step ns h h' (fun a k => if (a =? w) && (k =? id) then Some b else None) ->
  forall p, live ns h' p <->
    if Z.eqb p (area ns w i + id * ns) then b = true else live ns h p.
Proof.
  intros Hns Hst Hw Hid Hstep p. rewrite (live_step _ _ _ _ _ Hstep).
  destruct (Z.eqb_spec p (area ns w i + id * ns)) as [->|Hne]; split.
  - intros (a & j & k & Ha & Hk & Hu & Heq).
    destruct (block_unique ns h w a i j id k) as [<- <-]; try done.
    rewrite !Z.eqb_refl in Hu. done.
  - intros ->. exists w, i, id. rewrite !Z.eqb_refl. done.
  - intros (a & j & k & Ha & Hk & Hu & ->). exists a, j, k. split_and!; try done; try lia.
    rewrite (ubit_at _ _ _ _ Ha) in Hu.
    destruct (Z.eqb_spec a w), (Z.eqb_spec k id); cbn in Hu; simplify_eq; done.
  - intros (a & j & k & Ha & Hk & Hu & ->). exists a, j, k. split_and!; try done; try lia.
    rewrite (ubit_at _ _ _ _ Ha).
    destruct (Z.eqb_spec a w), (Z.eqb_spec k id); cbn; simplify_eq; done.
Qed.

Lemma alloc_got_step ns h w p :
  store_ok ns h -> is_Some (h !! w) ->
  exists h', alloc_got h w p = Ret (p, h') /\ bits_step ns h h' (fun _ _ => None).
Proof.
  intros Hst [i Hi]. unfold alloc_got. rewrite Hi. cbn [lift mbind run_bind].
  eexists. split; [done|]. constructor.
  - by apply (shape_update h w i).
  - eapply store_ok_update; try done. by destruct (store_inst _ _ Hst _ _ Hi).
  - intros a id. rewrite ubit_insert. destruct (Z.eqb_spec w a); [subst|done].
    cbn. by rewrite (ubit_at _ _ _ _ Hi).
Qed.

(** ** Extending the allocator *)

(** The bytes [count] blocks need with their map and their instance. *)
Definition extend_size (ns count : Z) : Z :=
  cl_bitmap_calc_size count + count * ns + SIZEOF_INSTANCE.

Lemma extend_size_ceil ns c : 0 <= c -> extend_size ns c = (c + 7) / 8 + c * ns + 40.
Proof. intros. unfold extend_size, SIZEOF_INSTANCE. by rewrite calc_size_ceil. Qed.

Lemma extend_count_spec fuel ns size c :
  0 < ns -> SIZEOF_INSTANCE <= size < 2147483648 -> 0 <= c <= size / ns -> c < Z.of_nat fuel ->
  (c < size / ns -> size < extend_size ns (c + 1)) ->
  exists n, extend_count fuel ns size c = Ret n /\ 0 <= n <= size / ns /\
    extend_size ns n <= size /\ (n < size / ns -> size < extend_size ns (n + 1)).
Proof.
  intros Hns Hs. revert c. induction fuel as [|fuel IH]; intros c Hc Hf Hmax; [lia|].
  cbn [extend_count]. fold (extend_size ns c).
  assert (c * ns <= size) by (pose proof (Z.mul_div_le size ns Hns); nia).
  assert (c <= size) by nia.
  rewrite wrap_small.
  2: { fold (extend_size ns c). rewrite extend_size_ceil by lia. unfold is_word. zlia. }
  fold (extend_size ns c). destruct (Z.ltb_spec size (extend_size ns c)).
  - assert (c <> 0).
    { intros ->. assert (extend_size ns 0 = SIZEOF_INSTANCE) by reflexivity. lia. }
    rewrite wrap_small by (unfold is_word; lia).
    apply IH; [lia|lia|]. by replace (c - 1 + 1) with c by lia.
  - exists c. done.
Qed.

Lemma words_from_ok mem a e : (forall x, is_word (mem x)) -> words_ok (words_from mem a e).
Proof. intros. unfold words_ok, words_from. apply Forall_fmap, Forall_true. cbn. auto. Qed.

Lemma words_from_bits mem a e n :
  0 <= n -> (e - a) mod 4 = 0 -> (n + 7) / 8 <= e - a -> n <= nbits (words_from mem a e).
Proof.
  intros Hn Hm Hle. unfold nbits, words_from, BITS_PER_LONG, SIZEOF_LONG.
  rewrite length_fmap, length_seq. zlia.
Qed.

Lemma chain_next h h' p l :
  (forall a, a ∈ l -> next <$> h' !! a = next <$> h !! a) -> chain h p l -> chain h' p l.
Proof.
  revert p. induction l as [|a l IH]; intros p Hn; cbn; [done|].
  intros (-> & Ha & q & n & c & Hsh & Hc). split_and!; [done|done|].
  pose proof (Hn a (list_elem_of_here _ _)) as Hna. unfold shape in *.
  destruct (h !! a) as [i|]; [|done]. destruct (h' !! a) as [i'|]; [|done].
  cbn in *. simplify_eq. do 3 eexists. split; [done|]. rewrite Hna.
  apply IH; [|done]. intros b Hb. apply Hn. by apply list_elem_of_further.
Qed.

Lemma store_ok_insert_new ns h a i :
  store_ok ns h -> h !! a = None -> inst_ok ns a i ->
  (forall b j, h !! b = Some j -> a <= area ns b j \/ b <= area ns a i) ->
  store_ok ns (<[a := i]> h).
Proof.
  intros [Hi Hd] Hn Hok Hdis. split.
  - intros b j. rewrite lookup_insert. case_decide; [|apply Hi]. intros; by simplify_eq.
  - intros b c j k Hb Hc Hne. rewrite lookup_insert in Hb, Hc.
    repeat case_decide; simplify_eq; try done; eauto.
    destruct (Hdis b j Hb); auto.
Qed.

(** Links change, and an instance with no block handed out appears. *)
Lemma live_links ns h h' a i :
  h !! a = None -> h' !! a = Some i ->
  (forall id, 0 <= id < node_count i -> used (inst_bitmap i) id = false) ->
  (forall b, b <> a -> (fun j => (inst_bitmap j, node_count j)) <$> h' !! b
                     = (fun j => (inst_bitmap j, node_count j)) <$> h !! b) ->
  forall p, live ns h' p <-> live ns h p.
Proof.
  intros Hn Hs Hfree Hsame p. split; intros (b & j & id & Hb & Hid & Hu & ->).
  - destruct (Z.eq_dec b a) as [->|Hne].
    { simplify_eq. rewrite Hfree in Hu by done. done. }
    specialize (Hsame b Hne). rewrite Hb in Hsame. cbn in Hsame.
    destruct (h !! b) as [j'|] eqn:E; [|done]. cbn in Hsame. simplify_eq.
    exists b, j', id. unfold area. split_and!; congruence || lia.
  - destruct (Z.eq_dec b a) as [->|Hne]; [congruence|].
    specialize (Hsame b Hne). rewrite Hb in Hsame. cbn in Hsame.
    destruct (h' !! b) as [j'|] eqn:E; [|done]. cbn in Hsame. simplify_eq.
    exists b, j', id. unfold area. split_and!; congruence || lia.
Qed.

(** The list after [extend_link]. *)
Definition linked (bkb : cl_bkb) (buf : Z) (l : list Z) : list Z :=
  match l with [] => [buf] | p :: t => p :: buf :: t end.

(** The first instance. *)
Lemma link_first bkb h buf i :
  bkb_wf bkb h [] -> h !! buf = None -> buf <> 0 -> inst_ok (node_size bkb) buf i ->
  pre i = 0 -> next i = 0 ->
  (forall b j, h !! b = Some j ->
     buf <= area (node_size bkb) b j \/ b <= area (node_size bkb) buf i) ->
  bkb_wf (Bkb (node_size bkb) buf) (<[buf := i]> h) [buf].
Proof.
  intros [Hns Hch Hnd Hdom Hst Hfi] Hnone H0 Hok Hpre Hnext Hdis. constructor; cbn; try done.
  - split_and!; [done|done|]. do 3 eexists. split; [by apply shape_Some, lookup_insert_eq|done].
  - apply NoDup_singleton.
  - intros a j. rewrite lookup_insert. case_decide; [intros; subst; apply list_elem_of_here|].
    intros Ha. by destruct (not_elem_of_nil a); apply (Hdom _ _ Ha).
  - by apply store_ok_insert_new.
  - intros j. rewrite lookup_insert_eq. intros; by simplify_eq.
Qed.

(** The instance behind the preferred one, if any, gets its [pre] set; [h1] is
    the store that already has the new instance. *)
Lemma link_behind ns h1 buf i' p pi t :
  store_ok ns h1 -> h1 !! buf = Some i' -> h1 !! p = Some pi -> chain h1 (next pi) t ->
  buf ∉ t -> p ∉ t ->
  exists h2, (if negb (next pi =? 0)
      then n ← lift (h1 !! next pi); Ret (<[next pi := set_pre n buf]> h1)
      else Ret h1) = Ret h2 /\ store_ok ns h2 /\ h2 !! buf = Some i' /\ h2 !! p = Some pi /\
    (forall b, next <$> h2 !! b = next <$> h1 !! b) /\
    (forall b, (fun j => (inst_bitmap j, node_count j)) <$> h2 !! b
             = (fun j => (inst_bitmap j, node_count j)) <$> h1 !! b).
Proof.
  intros Hst Hb Hp Hch Hnb Hnp. destruct (Z.eqb_spec (next pi) 0) as [E|E]; cbn [negb].
  { exists h1. by split_and!. }
  destruct t as [|x t]; cbn in Hch; [done|]. destruct Hch as (<- & _ & q' & n' & c' & Hsh' & _).
  unfold shape in Hsh'. destruct (h1 !! next pi) as [ni|] eqn:Hni; [|done].
  assert (next pi <> buf) by (intros E'; apply Hnb; rewrite <- E'; apply list_elem_of_here).
  assert (next pi <> p) by (intros E'; apply Hnp; rewrite <- E' at 1; apply list_elem_of_here).
  cbn [lift mbind run_bind]. eexists. split; [done|]. split_and!.
  - eapply store_ok_update; try done. by destruct (store_inst _ _ Hst _ _ Hni).
  - by rewrite lookup_insert_ne.
  - by rewrite lookup_insert_ne.
  - intros b. rewrite (lookup_insert _ (next pi)). case_decide; [subst; by rewrite Hni|done].
  - intros b. rewrite (lookup_insert _ (next pi)). case_decide; [subst; by rewrite Hni|done].
Qed.

Lemma extend_link_spec bkb h l buf i :
  bkb_wf bkb h l -> h !! buf = None -> buf ∉ l -> buf <> 0 -> inst_ok (node_size bkb) buf i ->
  pre i = 0 -> next i = 0 ->
  (forall b j, h !! b = Some j ->
     buf <= area (node_size bkb) b j \/ b <= area (node_size bkb) buf i) ->
  exists bkb' h' i', extend_link bkb h buf i = Ret (bkb', h') /\
    node_size bkb' = node_size bkb /\ bkb_wf bkb' h' (linked bkb buf l) /\
    h' !! buf = Some i' /\ inst_bitmap i' = inst_bitmap i /\ node_count i' = node_count i /\
    (forall b, b <> buf -> (fun j => (inst_bitmap j, node_count j)) <$> h' !! b
                         = (fun j => (inst_bitmap j, node_count j)) <$> h !! b).
Proof.
  intros Hwf Hnone Hnl H0 Hok Hpre Hnext Hdis. pose proof Hwf as [Hns Hch Hnd Hdom Hst Hfi].
  unfold extend_link.
  destruct l as [|p t]; cbn in Hch; cbn [linked].
  { rewrite Hch, Z.eqb_refl. do 3 eexists. split; [done|]. split; [done|].
    split_and!; [by apply link_first|apply lookup_insert_eq|done|done|by intros b Hb; rewrite lookup_insert_ne]. }
  destruct Hch as (Hpref & Hp0 & q & n & c & Hsh & Hch). unfold shape in Hsh.
  rewrite Hpref in Hfi |- *. destruct (Z.eqb_spec p 0); [done|].
  destruct (h !! p) as [pi|] eqn:Hp; [|done]. cbn in Hsh. injection Hsh as <- <- <-.
  cbn [lift mbind run_bind].
  apply not_elem_of_cons in Hnl as [Hbp Hnt]. apply NoDup_cons in Hnd as [Hpt Hnd].
  set (i' := set_next (set_pre i p) (next pi)).
  assert (inst_ok (node_size bkb) buf i') as Hok' by (destruct Hok; by constructor).
  assert (store_ok (node_size bkb) (<[buf := i']> h)) as Hst1 by (by apply store_ok_insert_new).
  destruct (link_behind (node_size bkb) (<[buf := i']> h) buf i' p pi t)
    as (h2 & -> & Hst2 & Hb2 & Hp2 & Hn2 & Hs2); try done.
  { apply lookup_insert_eq. } { by rewrite lookup_insert_ne. }
  { eapply chain_next, Hch. intros a Ha. rewrite lookup_insert_ne by (intros <-; done). done. }
  cbn [mbind run_bind]. rewrite Hp2. cbn [lift mbind run_bind].
  exists bkb, (<[p := set_next pi buf]> h2), i'. split_and!; try done.
  - constructor; try done.
    + cbn. split_and!; [done|done|]. do 3 eexists. split; [by apply shape_Some, lookup_insert_eq|].
      split_and!; [done|done|]. do 3 eexists.
      split; [apply shape_Some; by rewrite lookup_insert_ne|]. cbn.
      eapply chain_next, Hch. intros a Ha.
      rewrite lookup_insert_ne, Hn2, lookup_insert_ne by (intros <-; done). done.
    + apply NoDup_cons. split.
      { intros [->|?]%elem_of_cons; done. }
      by apply NoDup_cons.
    + intros a j Ha. rewrite !elem_of_cons. destruct (Z.eq_dec a p) as [->|Hap]; [by left|].
      destruct (Z.eq_dec a buf) as [->|Hab]; [by right; left|]. right; right.
      rewrite lookup_insert_ne in Ha by done. specialize (Hs2 a). rewrite Ha, lookup_insert_ne in Hs2 by done.
      destruct (h !! a) as [j'|] eqn:Hj; [|done]. apply Hdom in Hj.
      by apply elem_of_cons in Hj as [?|?].
    + eapply store_ok_update; try done. by destruct (store_inst _ _ Hst _ _ Hp).
    + intros j. rewrite Hpref, lookup_insert_eq. intros [= <-]. cbn. by apply Hfi.
  - by rewrite lookup_insert_ne.
  - intros b Hb. rewrite (lookup_insert _ p). case_decide; [by subst; rewrite Hp|].
    by rewrite Hs2, lookup_insert_ne by done.
Qed.

(** ** The operations *)

Lemma bkb_alloc_spec fuel bkb h l :
  bkb_wf bkb h l -> (length l < fuel)%nat ->
  exists r h', cl_bkb_alloc fuel bkb h = Ret (r, h') /\ bkb_wf bkb h' l /\
    (forall a, shape h' a = shape h a) /\
    ((r = 0 /\ (forall p, live (node_size bkb) h' p <-> live (node_size bkb) h p) /\
        forall a i id, h !! a = Some i -> 0 <= id < node_count i -> ubit h a id = true) \/
     (r <> 0 /\ ~ live (node_size bkb) h r /\
        (forall p, live (node_size bkb) h' p <-> p = r \/ live (node_size bkb) h p) /\
        exists a i, h !! a = Some i /\ area (node_size bkb) a i <= r /\
          r + node_size bkb <= a)).
Proof.
  intros Hwf Hf. pose proof Hwf as [Hns Hch _ Hdom Hst Hfi]. unfold cl_bkb_alloc.
  destruct (allocate_walk fuel bkb h _ l Hns Hst Hch Hf) as (r & h1 & -> & Hr).
  cbn [mbind run_bind]. destruct r as [[w q]|].
  - destruct Hr as (i & id & Hw & Hid & Hfree & -> & Hstep).
    pose proof (step_store _ _ _ _ Hstep) as Hst1.
    destruct (alloc_got_step (node_size bkb) h1 w (area (node_size bkb) w i + id * node_size bkb))
      as (h2 & -> & Hstep2); [done| |].
    { pose proof (step_shape _ _ _ _ Hstep w) as Hs. rewrite (shape_Some _ _ _ Hw) in Hs.
      unfold shape in Hs. destruct (h1 !! w); [by eexists|done]. }
    pose proof (bits_step_none_l _ _ _ _ _ Hstep Hstep2) as Hall.
    do 2 eexists. split; [done|]. split; [by eapply bits_step_wf|].
    split; [apply (step_shape _ _ _ _ Hall)|]. right.
    pose proof (store_inst _ _ Hst _ _ Hw) as [_ _ _ Har].
    split_and!; [nia| | |].
    + rewrite (live_ubit _ _ _ i _ Hns Hst Hw Hid). by rewrite (ubit_at _ _ _ _ Hw), Hfree.
    + intros p. rewrite (live_set _ _ _ w i id true Hns Hst Hw Hid Hall p).
      destruct (Z.eqb_spec p (area (node_size bkb) w i + id * node_size bkb)); tauto.
    + exists w, i. unfold area in *. split_and!; [done|nia|nia].
  - destruct Hr as [Hstep Hfull].
    exists 0, h1. split.
    { destruct (Z.eqb_spec (prefer bkb) 0) as [|Hp0]; [done|].
      destruct l as [|a l]; cbn in Hch; [done|]. destruct Hch as (Hp & _ & q & n & c & Hsh & _).
      rewrite <- (step_shape _ _ _ _ Hstep), <- Hp in Hsh. unfold shape in Hsh.
      destruct (h1 !! prefer bkb) as [i|] eqn:Hi; [|done]. cbn [lift mbind run_bind].
      destruct (shape_inv _ _ _ _ (step_shape _ _ _ _ Hstep) Hi) as (i0 & Hi0 & -> & _).
      rewrite (Hfi _ Hi0). destruct fuel; [cbn in Hf; lia|]. done. }
    split; [by eapply bits_step_wf|].
    split; [apply (step_shape _ _ _ _ Hstep)|]. left. split_and!; [done| |by eauto].
    intros p. rewrite (live_step _ _ _ _ _ Hstep). split.
    + intros (a & i & id & Ha & Hid & Hu & ->). exists a, i, id.
      split_and!; try done; try lia. by rewrite <- (ubit_at _ _ _ _ Ha).
    + intros (a & i & id & Ha & Hid & Hu & ->). exists a, i, id.
      split_and!; try done; try lia. cbn. by rewrite (ubit_at _ _ _ _ Ha).
Qed.

Lemma bkb_dealloc_spec fuel bkb h l p :
  bkb_wf bkb h l -> (length l < fuel)%nat -> live (node_size bkb) h p ->
  exists h', cl_bkb_dealloc fuel bkb h p = Ret (p, h') /\ bkb_wf bkb h' l /\
    forall q, live (node_size bkb) h' q <-> q <> p /\ live (node_size bkb) h q.
Proof.
  intros Hwf Hf (a & i & id & Ha & Hid & Hu & ->).
  pose proof Hwf as [Hns Hch _ Hdom Hst Hfi]. unfold cl_bkb_dealloc.
  set (p := area (node_size bkb) a i + id * node_size bkb).
  assert (area (node_size bkb) a i <= p < a) as Hp by (subst p; unfold area; nia).
  destruct (deallocate_walk fuel bkb h p _ l Hns Hst Hch Hf) as [(b & j & Hb & Hj & Hpj & ->)|[Hno _]].
  2: { destruct (Hno a i); eauto. }
  assert (b = a) as ->.
  { destruct (Z.eq_dec b a) as [|Hne]; [done|].
    destruct (store_disjoint _ _ Hst _ _ _ _ Hj Ha Hne); lia. }
  destruct (dealloc_block bkb h a i id Hns Hst Ha Hid) as (h' & Hd & Hstep).
  fold p in Hd. rewrite Hd. cbn [lift mbind run_bind].
  exists h'. split; [done|]. split; [by eapply bits_step_wf|].
  intros q. rewrite (live_set _ _ _ a i id false Hns Hst Ha Hid Hstep q). fold p.
  destruct (Z.eqb_spec q p); [split; [discriminate|tauto]|tauto].
Qed.

Lemma bkb_extend_spec fuel mem bkb h l base size handler para :
  bkb_wf bkb h l -> (forall x, is_word (mem x)) ->
  node_size bkb mod 4 = 0 -> base mod 4 = 0 -> size mod 4 = 0 ->
  SIZEOF_INSTANCE <= size < 2147483648 -> 0 < base -> is_word (base + size) ->
  (forall a i, h !! a = Some i ->
     a + SIZEOF_INSTANCE <= base \/ base + size <= area (node_size bkb) a i) ->
  size / node_size bkb < Z.of_nat fuel ->
  exists bkb' h' n i, cl_bkb_extend fuel mem bkb h base size handler para = Ret (bkb', h') /\
    bkb_wf bkb' h' (linked bkb (base + n * node_size bkb) l) /\
    extend_size (node_size bkb) n <= size < extend_size (node_size bkb) (n + 1) /\
    h' !! (base + n * node_size bkb) = Some i /\ node_count i = n /\
    (forall id, 0 <= id < n -> ubit h' (base + n * node_size bkb) id = false) /\
    forall p, live (node_size bkb) h' p <-> live (node_size bkb) h p.
Proof.
  intros Hwf Hmem Hns4 Hb4 Hs4 Hsz Hb Hw Hdis Hf. pose proof Hwf as [Hns _ _ Hdom Hst _].
  assert (40 <= size) as H40 by exact (proj1 Hsz).
  set (ns := node_size bkb) in *. assert (0 <= size / ns) by (apply Z.div_pos; lia).
  destruct (extend_count_spec fuel ns size (size / ns)) as (n & Hn & Hnr & Hfit & Hmax); try done; try lia.
  unfold cl_bkb_extend. fold ns. rewrite Hn. cbn [mbind run_bind].
  assert (n * ns <= size) by (pose proof (Z.mul_div_le size ns Hns); nia).
  rewrite wrap_small by (unfold is_word in *; nia). set (buf := base + n * ns).
  rewrite extend_size_ceil in Hfit by lia. assert (0 <= (n + 7) / 8) by (apply Z.div_pos; lia).
  destruct (init_spec (Bitmap [] 0 0) (words_from mem (buf + SIZEOF_INSTANCE) (base + size)) n)
    as (bm & -> & Hbm & Hmc & _ & _ & Hfree).
  { by apply words_from_ok. }
  { split; [lia|]. apply words_from_bits; [lia| |unfold buf, SIZEOF_INSTANCE in *; lia].
    unfold buf, SIZEOF_INSTANCE. apply Z.mod_divide in Hns4 as [k ->]; [|lia].
    apply Z.mod_divide; [lia|]. apply Z.mod_divide in Hs4 as [m ->]; [|lia].
    exists (m - n * k - 10). lia. }
  { nia. }
  { done. }
  cbn [lift mbind run_bind]. set (i := Instance 0 0 bm size n n para handler).
  assert (h !! buf = None) as Hnone.
  { destruct (h !! buf) as [j|] eqn:E; [|done]. pose proof (store_inst _ _ Hst _ _ E) as [[] ? ? ?].
    assert (0 <= node_count j * ns) by nia. assert (0 <= n * ns) by nia.
    unfold area, SIZEOF_INSTANCE in *. destruct (Hdis _ _ E); unfold buf in *; lia. }
  destruct (extend_link_spec bkb h l buf i Hwf Hnone) as (bkb' & h' & i' & -> & Hns' & Hwf' & Hi' & Hbm' & Hc' & Hrest);
    try done; try (unfold buf; nia).
  { intros Hin. destruct (chain_in _ _ _ _ (bkb_chain _ _ _ Hwf) Hin). congruence. }
  { constructor; cbn; [done|done|unfold is_word, buf in *; nia|unfold area, buf; cbn; lia]. }
  { intros b j Hbj. fold ns. destruct (Hdis _ _ Hbj); [right|left]; unfold area, buf, SIZEOF_INSTANCE in *; cbn; lia. }
  exists bkb', h', n, i'. split_and!; try done.
  - rewrite extend_size_ceil by lia. lia.
  - rewrite extend_size_ceil by lia.
    destruct (Z.eq_dec n (size / ns)) as [E|E].
    + assert (0 <= (n + 1 + 7) / 8) by (apply Z.div_pos; lia).
      pose proof (Z.mul_succ_div_gt size ns Hns). nia.
    + specialize (Hmax ltac:(lia)). rewrite extend_size_ceil in Hmax by lia. lia.
  - intros id Hid. rewrite (ubit_at _ _ _ _ Hi'), Hbm'. apply Hfree. lia.
  - apply (live_links ns h h' buf i'); try done. intros id Hid. rewrite Hbm'. apply Hfree.
    rewrite Hc' in Hid. cbn in Hid. lia.
Qed.

(** Blocks handed out do not overlap. *)
Lemma live_spaced ns h p q :
  0 < ns -> store_ok ns h -> live ns h p -> live ns h q -> p <> q ->
  p + ns <= q \/ q + ns <= p.
Proof.
  intros Hns [Hst Hdis] (a & i & k & Ha & Hk & _ & ->) (b & j & m & Hb & Hm & _ & ->) Hne.
  destruct (Z.eq_dec a b) as [<-|Hab].
  - assert (j = i) as -> by congruence. assert (k <> m) by congruence.
    destruct (Z.lt_ge_cases k m); [left|right]; nia.
  - destruct (Hdis _ _ _ _ Ha Hb Hab); [left|right]; unfold area in *; nia.
Qed.

(** ** Properties *)

(** One buffer of five 4-byte blocks at address 4096, the first handed out. *)
Definition sample_bkb : cl_bkb := Bkb 4 4116.
Definition sample_store : instances :=
  {[ 4116 := Instance 0 0 (Bitmap [1] 5 1) 64 5 4 0 0 ]}.

Lemma sample_bkb_wf : bkb_wf sample_bkb sample_store [4116].
Proof.
  assert (forall a i, sample_store !! a = Some i ->
    a = 4116 /\ i = Instance 0 0 (Bitmap [1] 5 1) 64 5 4 0 0) as Hinv.
  { intros a i. unfold sample_store. rewrite lookup_singleton. case_decide; [|done].
    intros [= <-]. done. }
  constructor.
  - cbn. lia.
  - cbn. split_and!; [done|lia|]. do 3 eexists. by split.
  - apply NoDup_singleton.
  - intros a i [-> _]%Hinv. apply list_elem_of_here.
  - split.
    + intros a i [-> ->]%Hinv. constructor; cbn; try done; try (unfold is_word, area; cbn; lia).
      constructor; cbn; unfold words_ok, nbits, BITS_PER_LONG, is_word; cbn; try lia.
      repeat constructor; lia.
    + intros a b i j [-> _]%Hinv [-> _]%Hinv. done.
  - intros i [_ ->]%Hinv. done.
Qed.

(** [cl_bkb_alloc] on a well-formed allocator terminates and keeps it
    well-formed.  It returns [NULL] only when every block of every buffer is
    handed out; otherwise it returns a block that was not handed out, which
    lies inside the blocks of one buffer, and exactly that block is added to
    the blocks handed out. *)
Theorem cl_bkb_alloc_correct fuel bkb h l :
  bkb_wf bkb h l -> (length l < fuel)%nat ->
  exists r h', cl_bkb_alloc fuel bkb h = Ret (r, h') /\ bkb_wf bkb h' l /\
    ((r = 0 /\ (forall p, live (node_size bkb) h' p <-> live (node_size bkb) h p) /\
        forall a i id, h !! a = Some i -> 0 <= id < node_count i -> ubit h a id = true) \/
     (r <> 0 /\ ~ live (node_size bkb) h r /\
        (forall p, live (node_size bkb) h' p <-> p = r \/ live (node_size bkb) h p) /\
        exists a i, h !! a = Some i /\ area (node_size bkb) a i <= r /\
          r + node_size bkb <= a)).
Proof.
  intros Hwf Hf. destruct (bkb_alloc_spec fuel bkb h l Hwf Hf) as (r & h' & E & Hwf' & _ & H).
  by exists r, h'.
Qed.

Lemma cl_bkb_alloc_witness :
  exists r h', cl_bkb_alloc 2 sample_bkb sample_store = Ret (r, h') /\
    bkb_wf sample_bkb h' [4116] /\
    ((r = 0 /\ (forall p, live 4 h' p <-> live 4 sample_store p) /\
        forall a i id, sample_store !! a = Some i -> 0 <= id < node_count i ->
          ubit sample_store a id = true) \/
     (r <> 0 /\ ~ live 4 sample_store r /\
        (forall p, live 4 h' p <-> p = r \/ live 4 sample_store p) /\
        exists a i, sample_store !! a = Some i /\ area 4 a i <= r /\ r + 4 <= a)).
Proof.
  apply (cl_bkb_alloc_correct 2 sample_bkb sample_store [4116]).
  - apply sample_bkb_wf.
  - cbn. lia.
Defined.

(** [cl_bkb_dealloc] of a block that is handed out terminates, returns
    the block, removes exactly it from the blocks handed out, and keeps the
    allocator well-formed. *)
Theorem cl_bkb_dealloc_correct fuel bkb h l p :
  bkb_wf bkb h l -> (length l < fuel)%nat -> live (node_size bkb) h p ->
  exists h', cl_bkb_dealloc fuel bkb h p = Ret (p, h') /\ bkb_wf bkb h' l /\
    forall q, live (node_size bkb) h' q <-> q <> p /\ live (node_size bkb) h q.
Proof. apply bkb_dealloc_spec. Qed.

Lemma cl_bkb_dealloc_witness :
  exists h', cl_bkb_dealloc 2 sample_bkb sample_store 4096 = Ret (4096, h') /\
    bkb_wf sample_bkb h' [4116] /\
    forall q, live 4 h' q <-> q <> 4096 /\ live 4 sample_store q.
Proof.
  apply (cl_bkb_dealloc_correct 2 sample_bkb sample_store [4116] 4096).
  - apply sample_bkb_wf.
  - cbn. lia.
  - exists 4116, (Instance 0 0 (Bitmap [1] 5 1) 64 5 4 0 0), 0.
    split_and!; [reflexivity|lia|cbn; lia|reflexivity|reflexivity].
Defined.

(** [cl_bkb_extend] with a word-aligned buffer outside the buffers it
    has terminates, takes as many blocks as fit beside their map and the
    instance, all of them free and inside the buffer, and keeps the allocator
    well-formed and the blocks handed out as they were. *)
Theorem cl_bkb_extend_correct fuel mem bkb h l base size handler para :
  bkb_wf bkb h l -> (forall x, is_word (mem x)) ->
  node_size bkb mod 4 = 0 -> base mod 4 = 0 -> size mod 4 = 0 ->
  SIZEOF_INSTANCE <= size < 2147483648 -> 0 < base -> is_word (base + size) ->
  (forall a i, h !! a = Some i ->
     a + SIZEOF_INSTANCE <= base \/ base + size <= area (node_size bkb) a i) ->
  size / node_size bkb < Z.of_nat fuel ->
  exists bkb' h' n i, cl_bkb_extend fuel mem bkb h base size handler para = Ret (bkb', h') /\
    bkb_wf bkb' h' (linked bkb (base + n * node_size bkb) l) /\
    extend_size (node_size bkb) n <= size < extend_size (node_size bkb) (n + 1) /\
    h' !! (base + n * node_size bkb) = Some i /\ node_count i = n /\
    (forall id, 0 <= id < n -> ubit h' (base + n * node_size bkb) id = false) /\
    forall p, live (node_size bkb) h' p <-> live (node_size bkb) h p.
Proof. apply bkb_extend_spec. Qed.

Lemma cl_bkb_extend_witness :
  exists bkb' h' n i, cl_bkb_extend 20 (fun _ => 7) sample_bkb sample_store 8192 64 0 0
    = Ret (bkb', h') /\
    bkb_wf bkb' h' (linked sample_bkb (8192 + n * 4) [4116]) /\
    extend_size 4 n <= 64 < extend_size 4 (n + 1) /\
    h' !! (8192 + n * 4) = Some i /\ node_count i = n /\
    (forall id, 0 <= id < n -> ubit h' (8192 + n * 4) id = false) /\
    forall p, live 4 h' p <-> live 4 sample_store p.
Proof.
  apply (cl_bkb_extend_correct 20 (fun _ => 7) sample_bkb sample_store [4116] 8192 64 0 0);
    try reflexivity; try (unfold is_word, SIZEOF_INSTANCE; lia).
  - apply sample_bkb_wf.
  - intros b i Ha. left. unfold sample_store in Ha. apply lookup_singleton_Some in Ha as [<- _].
    unfold SIZEOF_INSTANCE. lia.
Defined.
