(* ===== verification/I2p.v ===== *)
(** * Index-to-pointer tables

    [source/libs/common/i2p.c]: a table that hands out small integers for
    pointers, the kernel's handle tables.  It is a doubly linked list of nodes
    of [MAX_COUNT_PER_ARRAY] entries each; node number [k] holds the indices
    [1024 k .. 1024 k + 1023].  The linked list [first .. last] is the list
    [nodes], with [first] its head, [last] its last element and the links
    [next] and [pre] the order of the list; [None] is a dereference of NULL
    or an access outside a node. *)

From S2P Require Import Prelude Bits Bitmap.
Import BitOps FindBit BitmapOps.

Definition MAX_COUNT_PER_ARRAY : Z := 1024.
Definition COMMON_I2P_ALLOC_ERROR : Z := ULONG_MAX.

Record i2p_node := Node {
  addr : Z;                 (* what malloc_handle returned *)
  count : Z;                (* int *)
  start_index : Z;          (* unsigned long *)
  end_index : Z;            (* unsigned long *)
  arr_bitmap : cl_bitmap;
  array : list Z            (* void **array: the MAX_COUNT_PER_ARRAY entries *)
}.

Record i2p := I2p {
  nodes : list i2p_node;
  node_num : Z;             (* int *)
  used_index : Z;           (* unsigned long *)
  total_index : Z;          (* unsigned long *)
  max_index_per_node : Z;   (* int *)
  next_index : Z            (* int *)
}.

Module I2pOps.

Definition set_nodes (t : i2p) (ns : list i2p_node) : i2p :=
  I2p ns (node_num t) (used_index t) (total_index t) (max_index_per_node t) (next_index t).

(** [p] is what [malloc_handle(node_size)] returns.  The node is cleared, so
    the array and the [MAX_COUNT_PER_ARRAY / CHAR_BIT + 1] bytes of the map
    (32 whole words) are zero.  The result is the pointer returned. *)
Definition i2p_node_create (t : i2p) (p : Z) : option (Z * i2p) :=
  if p =? 0 then Some (0, t) else
  bm ← cl_bitmap_init (Bitmap [] 0 0) (replicate 32 0) MAX_COUNT_PER_ARRAY;
  let pre := last (nodes t) in
  let start := match pre with Some n => (end_index n +w 1)%C | None => 0 end in
  let end_ := match pre with
              | Some n => (end_index n +w max_index_per_node t)%C
              | None => wrap (max_index_per_node t - 1)
              end in
  Some (p, I2p (nodes t ++ [Node p 0 start end_ bm (replicate (Z.to_nat MAX_COUNT_PER_ARRAY) 0)])
             (node_num t + 1) (used_index t)
             (total_index t +w max_index_per_node t)%C
             (max_index_per_node t) (next_index t)).

(** The loop of [__i2p_node_release] along the [pre] links: [rnodes] are the
    nodes from the last one to the first; [freed] collects the calls of
    [free_handle]. *)
Fixpoint release_loop (rnodes : list i2p_node) (t : i2p) (freed : list Z)
  : option (i2p * list Z) :=
  match rnodes with
  | [] => Some (set_nodes t [], freed)
  | n :: pre =>
    if (count n =? 0) && negb (node_num t =? 1) then
      match pre with
      | [] => None
      | _ :: _ =>
        release_loop pre
          (I2p (nodes t) (node_num t - 1) (used_index t)
             (total_index t -w max_index_per_node t)%C
             (max_index_per_node t) (next_index t))
          (freed ++ [addr n])
      end
    else Some (set_nodes t (rev rnodes), freed)
  end.

Definition __i2p_node_release (t : i2p) : option (i2p * list Z) :=
  release_loop (rev (nodes t)) t [].

(** [while (index > i2pt->end_index)]: the position of the node, [Some None]
    when the list ends first. *)
Fixpoint locate (ns : list i2p_node) (index : Z) : option (option nat) :=
  match ns with
  | [] => None
  | n :: next =>
    if end_index n <? index then
      match next with
      | [] => Some None
      | _ :: _ => o ← locate next index; Some (fmap (M := option) S o)
      end
    else Some (Some O)
  end.

(** The result is what the function returns, the table, and the nodes it
    gave to [free_handle]. *)
Definition __i2p_dealloc (t : i2p) (index : Z) : option (bool * i2p * list Z) :=
  o ← locate (nodes t) index;
  match o with
  | None => Some (false, t, [])
  | Some k =>
    n ← nodes t !! k;
    let offset := (index -w start_index n)%C in
    arr ← word_set (array n) offset 0;
    '(ret, bm) ← cl_bitmap_dealloc_bit (arr_bitmap n) offset;
    if negb ret then
      Some (false, set_nodes t (<[k := Node (addr n) (count n) (start_index n) (end_index n) bm arr]> (nodes t)), [])
    else
      let n' := Node (addr n) (count n - 1) (start_index n) (end_index n) bm arr in
      let t' := I2p (<[k := n']> (nodes t)) (node_num t) (used_index t -w 1)%C
                  (total_index t) (max_index_per_node t)
                  (if index <? wrap (next_index t) then to_int index else next_index t) in
      if (count n' =? 0) && (S k =? length (nodes t))%nat && negb (node_num t =? 1)
      then '(t', freed) ← __i2p_node_release t'; Some (true, t', freed)
      else Some (true, t', [])
  end.

(** [while (next_index > end_index || count == max_index_per_node)] *)
Fixpoint seek (ns : list i2p_node) (next_index max : Z) : option nat :=
  match ns with
  | [] => None
  | n :: next =>
    if (end_index n <? wrap next_index) || (count n =? max)
    then S <$> seek next next_index max
    else Some O
  end.

Definition set_arr_bitmap (n : i2p_node) (bm : cl_bitmap) : i2p_node :=
  Node (addr n) (count n) (start_index n) (end_index n) bm (array n).

(** The allocation of a bit in the nodes from the current one on: how many
    nodes it went past, the [int] offset, and the nodes with their maps. *)
Fixpoint alloc_walk (ns : list i2p_node) : option (nat * Z * list i2p_node) :=
  match ns with
  | [] => None
  | n :: next =>
    '(r, bm) ← cl_bitmap_alloc_bit (arr_bitmap n);
    let offset := to_int r in
    if wrap offset =? HAL_BITMAP_ALLOC_BIT_ERROR then
      '(k, offset, next') ← alloc_walk next;
      Some (S k, offset, set_arr_bitmap n bm :: next')
    else Some (O, offset, set_arr_bitmap n bm :: next)
  end.

(** What follows once the table has a node with a free entry. *)
Definition alloc_index (t : i2p) (ptr : Z) : option (Z * i2p) :=
  k0 ← seek (nodes t) (next_index t) (max_index_per_node t);
  '(d, offset, ns) ← alloc_walk (drop k0 (nodes t));
  let k := (k0 + d)%nat in
  let all := take k0 (nodes t) ++ ns in
  n ← all !! k;
  let index := (offset +w start_index n)%C in
  arr ← word_set (array n) offset ptr;
  let n' := Node (addr n) (count n + 1) (start_index n) (end_index n) (arr_bitmap n) arr in
  Some (index, I2p (<[k := n']> all) (node_num t) (used_index t +w 1)%C (total_index t)
                 (max_index_per_node t) (to_int (index + 1))).

(** [p] is what [malloc_handle] returns if a node has to be added. *)
Definition __i2p_alloc (t : i2p) (ptr p : Z) : option (Z * i2p) :=
  if used_index t =? total_index t then
    '(q, t) ← i2p_node_create t p;
    if q =? 0 then Some (COMMON_I2P_ALLOC_ERROR, t) else alloc_index t ptr
  else alloc_index t ptr.

Definition __i2p_find (t : i2p) (index : Z) : option Z :=
  o ← locate (nodes t) index;
  match o with
  | None => Some 0
  | Some k => n ← nodes t !! k; word_at (array n) (index -w start_index n)%C
  end.

Definition i2p_dealloc (t : i2p) (index : Z) := __i2p_dealloc t index.
Definition i2p_find (t : i2p) (index : Z) := __i2p_find t index.
Definition i2p_alloc (t : i2p) (ptr p : Z) := __i2p_alloc t ptr p.

(** The [for] loop of [i2p_loop], [todo] rounds before [ret] reaches
    [used_index]: the calls of [action] in order, then the result. *)
Fixpoint loop_body (todo : nat) (ns : list i2p_node) (offset ret : Z)
  : option (list Z * Z) :=
  match todo with
  | O => Some ([], ret)
  | S todo =>
    match ns with
    | [] => None
    | n :: next =>
      offset ← cl_find_next_bit (bitmap (arr_bitmap n)) (mask_count (arr_bitmap n)) offset;
      if offset =? mask_count (arr_bitmap n) then
        match next with
        | [] => Some ([], ret)
        | n' :: _ =>
          offset ← cl_find_next_bit (bitmap (arr_bitmap n')) (mask_count (arr_bitmap n')) 0;
          '(acts, r) ← loop_body todo next (offset +w 1)%C (ret + 1);
          Some (offset :: acts, r)
        end
      else
        '(acts, r) ← loop_body todo ns (offset +w 1)%C (ret + 1);
        Some (offset :: acts, r)
    end
  end.

Definition i2p_loop (t : i2p) : option (list Z * Z) :=
  loop_body (Z.to_nat (used_index t)) (nodes t) 0 0.

(** The calls of [free_handle]; [head] is the address of the table. *)
Definition i2p_delete (t : i2p) (head : Z) : list Z := map addr (nodes t) ++ [head].

(** [head] and [p] are the results of the two calls of [malloc_handle]; the
    second component lists what is given back to [free_handle]. *)
Definition i2p_create (head p : Z) : option (option i2p * list Z) :=
  if head =? 0 then Some (None, []) else
  '(q, t) ← i2p_node_create (I2p [] 0 0 0 MAX_COUNT_PER_ARRAY 0) p;
  if q =? 0 then Some (None, [head]) else Some (Some t, []).

End I2pOps.
Import I2pOps.

(** ** What a table represents *)

(** The entry at offset [i] of a node: present when its bit is set. *)
Definition cell (n : i2p_node) (i : Z) : option Z :=
  if used (arr_bitmap n) i then word_at (array n) i else None.

Definition entry_in (ns : list i2p_node) (idx : Z) : option Z :=
  match word_at ns (idx / 1024) with Some n => cell n (idx mod 1024) | None => None end.

(** The partial map from indices to pointers that the table stands for. *)
Definition entry (t : i2p) (idx : Z) : option Z := entry_in (nodes t) idx.

Definition node_sum (ns : list i2p_node) : Z := foldr (fun n s => count n + s) 0 ns.

(** Node number [k] of a table. *)
Record node_ok (k : Z) (n : i2p_node) : Prop := {
  no_start : start_index n = 1024 * k;
  no_end : end_index n = 1024 * k + 1023;
  no_bm : bm_wf (arr_bitmap n);
  no_tight : tight (arr_bitmap n);
  no_mask : mask_count (arr_bitmap n) = 1024;
  no_array : Z.of_nat (length (array n)) = 1024;
  no_count : count n = used_below (arr_bitmap n) (Z.to_nat 1024);
  no_free : forall j, 0 <= j < 1024 -> used (arr_bitmap n) j = false ->
              word_at (array n) j = Some 0
}.

Definition nodes_ok (ns : list i2p_node) : Prop :=
  forall k n, ns !! k = Some n -> node_ok (Z.of_nat k) n.

Record i2p_wf (t : i2p) : Prop := {
  iw_nodes : nodes_ok (nodes t);
  iw_nonempty : nodes t <> [];
  iw_num : node_num t = Z.of_nat (length (nodes t));
  iw_used : used_index t = node_sum (nodes t);
  iw_total : total_index t = 1024 * Z.of_nat (length (nodes t));
  iw_max : max_index_per_node t = 1024;
  iw_next : 0 <= next_index t <= total_index t;
  iw_low : forall j, 0 <= j < next_index t -> is_Some (entry t j);
  iw_int : total_index t < 2147483648
}.

(** ** Nodes *)

Lemma node_cell_used k n i :
  node_ok k n -> 0 <= i < 1024 -> (is_Some (cell n i) <-> used (arr_bitmap n) i = true).
Proof.
  intros Hn Hi. unfold cell. destruct (used (arr_bitmap n) i).
  - split; [done|]. intros _. apply word_at_Some. rewrite (no_array _ _ Hn). lia.
  - split; [intros [? [=]]|done].
Qed.

Lemma node_count_range k n : node_ok k n -> 0 <= count n <= 1024.
Proof.
  intros Hn. rewrite (no_count _ _ Hn).
  pose proof (used_below_range (arr_bitmap n) (Z.to_nat 1024)). lia.
Qed.

Lemma node_count_full k n :
  node_ok k n -> (count n = 1024 <-> forall i, 0 <= i < 1024 -> is_Some (cell n i)).
Proof.
  intros Hn. rewrite (no_count _ _ Hn).
  pose proof (used_below_full (arr_bitmap n) (Z.to_nat 1024)) as H.
  rewrite Z2Nat.id in H by lia. rewrite H. clear H.
  split; intros H i Hi; apply (node_cell_used k n i Hn Hi), H, Hi.
Qed.

Lemma node_count_empty k n i :
  node_ok k n -> count n = 0 -> 0 <= i < 1024 -> cell n i = None.
Proof.
  intros Hn H Hi. rewrite (no_count _ _ Hn) in H. unfold cell.
  rewrite (proj1 (used_below_empty _ _) H i); [done|lia].
Qed.

(** A node in which one entry changed. *)
Lemma node_ok_update k n bm arr o v x :
  node_ok k n -> 0 <= o < 1024 -> bm_wf bm -> tight bm -> mask_count bm = 1024 ->
  (forall i, used bm i = if i =? o then v else used (arr_bitmap n) i) ->
  word_set (array n) o x = Some arr -> (v = false -> x = 0) ->
  node_ok k (Node (addr n) (count n + Z.b2z v - Z.b2z (used (arr_bitmap n) o))
               (start_index n) (end_index n) bm arr) /\
  forall i, cell (Node (addr n) (count n + Z.b2z v - Z.b2z (used (arr_bitmap n) o))
               (start_index n) (end_index n) bm arr) i
    = if i =? o then (if v then Some x else None) else cell n i.
Proof.
  intros [Hs He Hb Ht Hm Ha Hc Hf] Ho Hb' Ht' Hm' Hu Harr Hx.
  rewrite word_at_set in Harr by lia. injection Harr as <-. split.
  - constructor; cbn; try done.
    + by rewrite length_insert.
    + rewrite (used_below_update (arr_bitmap n) bm o v (Z.to_nat 1024) Hu), <- Hc by lia.
      rewrite Z2Nat.id, (proj2 (Z.ltb_lt o 1024)) by lia. lia.
    + intros j Hj Huj. rewrite word_at_insert by lia. rewrite Hu in Huj.
      rewrite (Z.eqb_sym o j). destruct (Z.eqb_spec j o); [|by apply Hf].
      by rewrite Hx.
  - intros i. unfold cell. cbn. rewrite Hu, word_at_insert, (Z.eqb_sym o i) by lia.
    by destruct (i =? o).
Qed.

(** ** Lists of nodes *)

Lemma nodes_ok_insert ns k n' :
  nodes_ok ns -> node_ok (Z.of_nat k) n' -> nodes_ok (<[k := n']> ns).
Proof.
  intros H Hn j m. rewrite list_lookup_insert_Some.
  intros [(<- & <- & _)|[_ Hj]]; [done|by apply H].
Qed.

Lemma entry_in_insert ns k n n' o v :
  ns !! k = Some n -> 0 <= o < 1024 ->
  (forall i, cell n' i = if i =? o then v else cell n i) ->
  forall j, entry_in (<[k := n']> ns) j
    = if j =? 1024 * Z.of_nat k + o then v else entry_in ns j.
Proof.
  intros Hk Ho Hc j. unfold entry_in.
  pose proof (lookup_lt_Some _ _ _ Hk). rewrite <- (Nat2Z.id k) at 1.
  rewrite word_at_insert by lia. destruct (Z.eqb_spec (Z.of_nat k) (j / 1024)) as [E|E].
  - rewrite Hc. unfold word_at. rewrite (proj2 (Z.leb_le 0 _)), <- E, Nat2Z.id, Hk by lia.
    destruct (Z.eqb_spec (j mod 1024) o), (Z.eqb_spec j (1024 * Z.of_nat k + o)); try done; zlia.
  - destruct (Z.eqb_spec j (1024 * Z.of_nat k + o)); [zlia|done].
Qed.

Lemma entry_in_at ns k n i :
  ns !! k = Some n -> 0 <= i < 1024 -> entry_in ns (1024 * Z.of_nat k + i) = cell n i.
Proof.
  intros Hk Hi. unfold entry_in, word_at.
  replace ((1024 * Z.of_nat k + i) / 1024) with (Z.of_nat k) by zlia.
  replace ((1024 * Z.of_nat k + i) mod 1024) with i by zlia.
  by rewrite (proj2 (Z.leb_le 0 _)), Nat2Z.id, Hk by lia.
Qed.

Lemma entry_in_Some ns j :
  is_Some (entry_in ns j) ->
  exists k n, ns !! k = Some n /\ j = 1024 * Z.of_nat k + j mod 1024 /\
    0 <= j < 1024 * Z.of_nat (length ns).
Proof.
  unfold entry_in. destruct (word_at ns (j / 1024)) as [n|] eqn:E; [|intros [? [=]]].
  intros _. pose proof (word_at_bound _ _ _ E). unfold word_at in E.
  rewrite (proj2 (Z.leb_le 0 _)) in E by lia.
  exists (Z.to_nat (j / 1024)), n. split_and!; [done|zlia..].
Qed.

Lemma node_sum_insert ns k n n' :
  ns !! k = Some n -> node_sum (<[k := n']> ns) = node_sum ns + count n' - count n.
Proof.
  revert k. induction ns as [|m ns IH]; intros [|k] Hk; [done|done| |].
  - injection Hk as <-. change (count n' + node_sum ns = count m + node_sum ns + count n' - count m). lia.
  - change (count m + node_sum (<[k := n']> ns) = count m + node_sum ns + count n' - count n).
    rewrite IH by done. lia.
Qed.

Lemma node_sum_app a b : node_sum (a ++ b) = node_sum a + node_sum b.
Proof.
  induction a as [|m a IH]; [done|]. change ((m :: a) ++ b) with (m :: (a ++ b)).
  change (count m + node_sum (a ++ b) = count m + node_sum a + node_sum b). lia.
Qed.

Lemma node_sum_range ns :
  (forall k n, ns !! k = Some n -> 0 <= count n <= 1024) ->
  0 <= node_sum ns <= 1024 * Z.of_nat (length ns).
Proof.
  induction ns as [|m ns IH]; intros H; cbn; [lia|].
  pose proof (H 0%nat m eq_refl). specialize (IH (fun k => H (S k))).
  fold (node_sum ns). lia.
Qed.

Lemma node_sum_room ns :
  (forall k n, ns !! k = Some n -> 0 <= count n <= 1024) ->
  node_sum ns < 1024 * Z.of_nat (length ns) ->
  exists k n, ns !! k = Some n /\ count n <> 1024.
Proof.
  induction ns as [|m ns IH]; intros H Hs; cbn in Hs; [lia|].
  destruct (Z.eq_dec (count m) 1024); [|by exists 0%nat, m].
  destruct (IH (fun k => H (S k))) as (k & n & Hk & Hn).
  - fold (node_sum ns) in Hs. lia.
  - by exists (S k), n.
Qed.

Lemma node_sum_full ns :
  (forall k n, ns !! k = Some n -> 0 <= count n <= 1024) ->
  node_sum ns = 1024 * Z.of_nat (length ns) ->
  forall k n, ns !! k = Some n -> count n = 1024.
Proof.
  induction ns as [|m ns IH]; intros H Hs k n; [done|].
  pose proof (H 0%nat m eq_refl) as Hm. pose proof (node_sum_range ns (fun k => H (S k))).
  cbn in Hs. fold (node_sum ns) in Hs.
  destruct k as [|k]; [intros [= <-]; lia|]. apply IH; [exact (fun k => H (S k))|lia].
Qed.

Lemma nodes_ok_counts ns : nodes_ok ns ->
  forall k n, ns !! k = Some n -> 0 <= count n <= 1024.
Proof. intros H k n Hk. exact (node_count_range _ _ (H k n Hk)). Qed.

(** ** The walks over the list *)

Lemma locate_spec ns index b :
  (forall k n, ns !! k = Some n -> end_index n = 1024 * (b + Z.of_nat k) + 1023) ->
  ns <> [] -> 1024 * b <= index ->
  locate ns index = Some (if index <? 1024 * (b + Z.of_nat (length ns))
                          then Some (Z.to_nat (index / 1024 - b)) else None).
Proof.
  revert b. induction ns as [|n ns IH]; intros b H Hne Hi; [done|]. cbn [locate length].
  rewrite (H 0%nat n eq_refl). destruct (Z.ltb_spec (1024 * (b + Z.of_nat 0) + 1023) index).
  - destruct ns as [|m ns]; [cbn [length]; by rewrite (proj2 (Z.ltb_ge _ _)) by lia|].
    rewrite (IH (b + 1)); [|intros k x Hk; rewrite (H (S k) x Hk); lia|done|lia].
    cbn [mbind option_bind length].
    destruct (Z.ltb_spec index (1024 * (b + 1 + Z.of_nat (S (length ns))))),
      (Z.ltb_spec index (1024 * (b + Z.of_nat (S (S (length ns)))))); try lia; [|done].
    cbn. do 2 f_equal. zlia.
  - rewrite (proj2 (Z.ltb_lt _ _)) by lia. do 2 f_equal. zlia.
Qed.

Lemma locate_wf t index :
  i2p_wf t -> 0 <= index ->
  locate (nodes t) index
  = Some (if index <? total_index t then Some (Z.to_nat (index / 1024)) else None).
Proof.
  intros Hwf Hi. rewrite (locate_spec _ _ 0).
  - rewrite (iw_total _ Hwf), Z.add_0_l, Z.sub_0_r. done.
  - intros k n Hk. rewrite (no_end _ _ (iw_nodes _ Hwf k n Hk)). lia.
  - apply (iw_nonempty _ Hwf).
  - lia.
Qed.

Lemma seek_spec ns next max :
  (exists k n, ns !! k = Some n /\ wrap next <= end_index n /\ count n <> max) ->
  exists k n, seek ns next max = Some k /\ ns !! k = Some n /\
    wrap next <= end_index n /\ count n <> max /\
    forall i m, (i < k)%nat -> ns !! i = Some m -> end_index m < wrap next \/ count m = max.
Proof.
  induction ns as [|n ns IH]; intros (k & m & Hk & He & Hc); [done|]. cbn [seek].
  destruct (Z.ltb_spec (end_index n) (wrap next)) as [El|El]; cbn [orb].
  2: destruct (Z.eqb_spec (count n) max) as [Ec|Ec].
  3: { exists 0%nat, n. split_and!; try done. lia. }
  all: (destruct k as [|k]; [injection Hk as ->; lia|]);
    (destruct IH as (k' & n' & -> & Hk' & He' & Hc' & Hb); [by exists k, m|]);
    exists (S k'), n'; (split_and!; [done..|]);
    intros [|i] x Hi Hx; [injection Hx as ->; auto|apply (Hb i x); [lia|done]].
Qed.

Lemma alloc_walk_head k n ns :
  node_ok k n -> count n <> 1024 ->
  exists o bm, alloc_walk (n :: ns) = Some (0%nat, o, set_arr_bitmap n bm :: ns) /\
    0 <= o < 1024 /\ bm_wf bm /\ tight bm /\ mask_count bm = 1024 /\
    used (arr_bitmap n) o = false /\
    (forall i, used bm i = if i =? o then true else used (arr_bitmap n) i) /\
    forall i, 0 <= i < o -> used (arr_bitmap n) i = true.
Proof.
  intros Hn Hc. cbn [alloc_walk].
  destruct (alloc_bit_cases (arr_bitmap n) (no_bm _ _ Hn))
    as (r & bm & -> & Hwf & Hm & _ & [(_ & _ & _ & Hf)|(Hr & Hz & Hl & Hu & Ht)]).
  - rewrite (no_mask _ _ Hn) in Hf. destruct Hc. apply (node_count_full _ _ Hn).
    intros i Hi. apply (node_cell_used _ _ _ Hn Hi). by apply Hf.
  - rewrite (no_mask _ _ Hn) in *. cbn [mbind option_bind].
    rewrite to_int_small, wrap_small by (unfold is_word; lia).
    destruct (Z.eqb_spec r HAL_BITMAP_ALLOC_BIT_ERROR) as [->|];
      [unfold HAL_BITMAP_ALLOC_BIT_ERROR, ULONG_MAX in Hr; lia|].
    exists r, bm. specialize (Ht (no_tight _ _ Hn)). split_and!; try done; try lia.
    intros i Hi _. rewrite Hu. rewrite Hl in Hi.
    destruct (Z.eqb_spec i r); [done|]. apply Ht. lia.
Qed.

(** Every index below the total is used when the list is full. *)
Lemma all_full t :
  i2p_wf t -> used_index t = total_index t ->
  forall j, 0 <= j < total_index t -> is_Some (entry t j).
Proof.
  intros Hwf E j Hj. rewrite (iw_used _ Hwf), (iw_total _ Hwf) in *.
  assert (is_Some (nodes t !! Z.to_nat (j / 1024))) as [n Hn] by (apply lookup_lt_is_Some; zlia).
  pose proof (node_sum_full _ (nodes_ok_counts _ (iw_nodes _ Hwf)) E _ _ Hn) as Hc.
  apply (node_count_full _ _ (iw_nodes _ Hwf _ _ Hn)) with (i := j mod 1024) in Hc; [|zlia].
  unfold entry. rewrite <- (entry_in_at _ _ _ (j mod 1024) Hn) in Hc by zlia.
  rewrite Z2Nat.id in Hc by zlia. by replace (1024 * (j / 1024) + j mod 1024) with j in Hc by zlia.
Qed.

(** A node with a free entry, at or behind the search hint. *)
Lemma seek_room t :
  i2p_wf t -> used_index t < total_index t ->
  exists k n, nodes t !! k = Some n /\ wrap (next_index t) <= end_index n /\ count n <> 1024.
Proof.
  intros Hwf Hu. pose proof Hwf as [Hok _ _ Hus Htot _ Hnx Hlow Hint].
  destruct (node_sum_room (nodes t)) as (k & n & Hk & Hc); [by apply nodes_ok_counts|lia|].
  exists k, n. split_and!; try done. rewrite wrap_small by (unfold is_word; lia).
  rewrite (no_end _ _ (Hok _ _ Hk)).
  destruct (Z.le_gt_cases (next_index t) (1024 * Z.of_nat k + 1023)); [done|exfalso].
  apply Hc, (node_count_full _ _ (Hok _ _ Hk)). intros i Hi.
  rewrite <- (entry_in_at _ _ _ i Hk) by done. apply Hlow. lia.
Qed.

(** Every index below position [o] of node [k] is used when the nodes before
    it are full or below the hint. *)
Lemma below_used t k n o :
  i2p_wf t -> nodes t !! k = Some n -> 0 <= o < 1024 ->
  (forall i m, (i < k)%nat -> nodes t !! i = Some m ->
     end_index m < next_index t \/ count m = 1024) ->
  (forall i, 0 <= i < o -> used (arr_bitmap n) i = true) ->
  forall j, 0 <= j < 1024 * Z.of_nat k + o -> is_Some (entry t j).
Proof.
  intros Hwf Hk Ho Hb Hlo j Hj. pose proof (lookup_lt_Some _ _ _ Hk).
  pose proof Hwf as [Hok _ _ _ _ _ _ Hlow _]. unfold entry.
  assert (is_Some (nodes t !! Z.to_nat (j / 1024))) as [m Hm] by (apply lookup_lt_is_Some; zlia).
  assert (j = 1024 * Z.of_nat (Z.to_nat (j / 1024)) + j mod 1024) as Ej by zlia.
  assert (0 <= j mod 1024 < 1024) as Hmod by zlia.
  rewrite Ej, (entry_in_at _ _ _ _ Hm Hmod).
  destruct (decide (Z.to_nat (j / 1024) = k)) as [E|E].
  - rewrite E, Hk in Hm. injection Hm as <-. apply (node_cell_used _ _ _ (Hok _ _ Hk) Hmod).
    apply Hlo. rewrite E in Ej. lia.
  - destruct (Hb (Z.to_nat (j / 1024)) m ltac:(zlia) Hm) as [Hend|Hc].
    + rewrite (no_end _ _ (Hok _ _ Hm)) in Hend. rewrite <- (entry_in_at _ _ _ _ Hm Hmod), <- Ej.
      apply Hlow. lia.
    + by apply (node_count_full _ _ (Hok _ _ Hm)).
Qed.

Lemma alloc_index_spec t ptr :
  i2p_wf t -> used_index t < total_index t ->
  exists r t', alloc_index t ptr = Some (r, t') /\ i2p_wf t' /\
    0 <= r < total_index t /\ entry t r = None /\
    (forall j, 0 <= j < r -> is_Some (entry t j)) /\
    (forall j, entry t' j = if j =? r then Some ptr else entry t j) /\
    total_index t' = total_index t /\ map addr (nodes t') = map addr (nodes t).
Proof.
  intros Hwf Hus. pose proof Hwf as [Hok Hne Hnum Hu Htot Hmax Hnx Hlow Hint].
  unfold alloc_index. rewrite Hmax.
  destruct (seek_spec _ _ 1024 (seek_room t Hwf Hus)) as (k & n & -> & Hk & He & Hc & Hb).
  cbn [mbind option_bind]. pose proof (Hok _ _ Hk) as Hn.
  pose proof (lookup_lt_Some _ _ _ Hk) as Hlt. rewrite wrap_small in He, Hb by (unfold is_word; lia).
  rewrite (drop_S _ _ _ Hk).
  destruct (alloc_walk_head (Z.of_nat k) n (drop (S k) (nodes t)) Hn Hc)
    as (o & bm & -> & Ho & Hbw & Hbt & Hbm & Hz & Hu' & Hlo).
  cbn [mbind option_bind]. rewrite Nat.add_0_r.
  assert (take k (nodes t) ++ set_arr_bitmap n bm :: drop (S k) (nodes t)
          = <[k := set_arr_bitmap n bm]> (nodes t)) as ->.
  { rewrite insert_take_drop by done. done. }
  rewrite list_lookup_insert_eq by done. cbn [mbind option_bind].
  change (array (set_arr_bitmap n bm)) with (array n).
  rewrite word_at_set by (rewrite (no_array _ _ Hn); lia). cbn [mbind option_bind].
  set (arr := <[_ := _]> (array n)).
  destruct (node_ok_update (Z.of_nat k) n bm arr o true ptr) as [Hn' Hcell]; try done.
  { subst arr. by rewrite word_at_set by (rewrite (no_array _ _ Hn); lia). }
  rewrite list_insert_insert_eq.
  unfold set_arr_bitmap. cbn [addr count start_index end_index arr_bitmap].
  rewrite Hz in Hn', Hcell. cbn [Z.b2z] in Hn', Hcell. rewrite Z.sub_0_r in Hn', Hcell.
  rewrite (no_start _ _ Hn) in Hn', Hcell |- *. rewrite (no_end _ _ Hn) in Hn', Hcell |- *.
  set (n' := Node _ _ _ _ _ _) in *.
  pose proof (entry_in_insert (nodes t) k n n' o (Some ptr) Hk Ho Hcell) as Hent.
  rewrite (Z.add_comm o), wrap_small by (unfold is_word; lia).
  rewrite to_int_small by lia.
  assert (forall j, 0 <= j < 1024 * Z.of_nat k + o -> is_Some (entry t j)) as Hbelow.
  { by apply (below_used t k n o). }
  assert (node_sum (<[k := n']> (nodes t)) = used_index t + 1) as Hsum.
  { rewrite (node_sum_insert _ _ n n' Hk). subst n'. cbn. lia. }
  rewrite (wrap_small (used_index t + 1)) by
    (pose proof (node_sum_range _ (nodes_ok_counts _ Hok)); unfold is_word; lia).
  do 2 eexists. split; [done|]. split; [|split_and!; try done; try lia].
  - constructor; cbn; rewrite ?length_insert; try done; try lia.
    + by apply nodes_ok_insert.
    + intros E. apply (f_equal length) in E. rewrite length_insert in E. cbn in E. lia.
    + intros j Hj. unfold entry. cbn. rewrite Hent. case_if; [done|]. apply Hbelow. lia.
  - unfold entry. rewrite (entry_in_at _ _ _ _ Hk Ho). unfold cell. by rewrite Hz.
  - cbn [nodes]. rewrite list_fmap_insert. apply list_insert_id.
    by rewrite list_lookup_fmap, Hk.
Qed.

(** ** Adding and removing nodes *)

(** The node [i2p_node_create] appends. *)
Definition fresh_node (p k : Z) (bm : cl_bitmap) : i2p_node :=
  Node p 0 (1024 * k) (1024 * k + 1023) bm (replicate (Z.to_nat MAX_COUNT_PER_ARRAY) 0).

Lemma last_nodes_end ns n :
  nodes_ok ns -> last ns = Some n -> end_index n = 1024 * Z.of_nat (length ns) - 1.
Proof.
  intros Hok Hl. rewrite last_lookup in Hl. rewrite (no_end _ _ (Hok _ _ Hl)).
  pose proof (lookup_lt_Some _ _ _ Hl). lia.
Qed.

Lemma fresh_node_ok p k bm :
  bm_wf bm -> mask_count bm = 1024 -> last_bit bm = 0 ->
  (forall i, 0 <= i < 1024 -> used bm i = false) -> node_ok k (fresh_node p k bm).
Proof.
  intros Hwf Hm Hl Hf. constructor; unfold fresh_node; cbn; try done.
  - intros i Hi. rewrite Hl in Hi. lia.
  - symmetry. apply used_below_empty. intros i Hi. apply Hf. lia.
  - intros j Hj _. unfold word_at. rewrite (proj2 (Z.leb_le 0 j)) by lia.
    apply lookup_replicate_2. change MAX_COUNT_PER_ARRAY with 1024. lia.
Qed.

Lemma nodes_ok_snoc ns n :
  nodes_ok ns -> node_ok (Z.of_nat (length ns)) n -> nodes_ok (ns ++ [n]).
Proof.
  intros Hok Hn k m [Hk|[Hk Hm]]%lookup_app_Some; [by apply Hok|].
  apply list_lookup_singleton_Some in Hm as [E <-].
  by replace k with (length ns) by lia.
Qed.

Lemma entry_in_app ns n j :
  (forall i, 0 <= i < 1024 -> cell n i = None) -> entry_in (ns ++ [n]) j = entry_in ns j.
Proof.
  intros Hc. unfold entry_in, word_at. case_if; [|done].
  destruct (lt_eq_lt_dec (Z.to_nat (j / 1024)) (length ns)) as [[Hl| ->]|Hl].
  - by rewrite lookup_app_l by lia.
  - rewrite (list_lookup_middle _ _ _ _ eq_refl), (lookup_ge_None_2 ns) by lia.
    apply Hc. zlia.
  - rewrite !lookup_ge_None_2; [done|lia|]. rewrite length_app. cbn. lia.
Qed.

Lemma i2p_node_create_spec t p :
  nodes_ok (nodes t) -> total_index t = 1024 * Z.of_nat (length (nodes t)) ->
  max_index_per_node t = 1024 -> total_index t + 1024 < 2147483648 -> p <> 0 ->
  exists n, i2p_node_create t p
    = Some (p, I2p (nodes t ++ [n]) (node_num t + 1) (used_index t) (total_index t + 1024)
                 1024 (next_index t)) /\
    node_ok (Z.of_nat (length (nodes t))) n /\ addr n = p /\ count n = 0 /\
    forall i, 0 <= i < 1024 -> cell n i = None.
Proof.
  intros Hok Htot Hmax Hint Hp. unfold i2p_node_create.
  destruct (Z.eqb_spec p 0) as [|_]; [done|].
  destruct (init_spec (Bitmap [] 0 0) (replicate 32 0) MAX_COUNT_PER_ARRAY)
    as (bm & -> & Hwf & Hm & Hl & _ & Hf).
  { apply Forall_replicate. done. }
  { done. }
  { done. }
  { done. }
  cbn [mbind option_bind]. rewrite Hmax, (wrap_small (total_index t + 1024)) by (unfold is_word; lia).
  exists (fresh_node p (Z.of_nat (length (nodes t))) bm). split_and!; try done.
  - do 4 f_equal. unfold fresh_node. destruct (last (nodes t)) as [m|] eqn:E.
    + rewrite (last_nodes_end _ _ Hok E), !wrap_small by (unfold is_word; lia).
      do 2 f_equal; lia.
    + apply last_None in E. rewrite E. done.
  - by apply fresh_node_ok.
  - intros i Hi. unfold cell, fresh_node. cbn. by rewrite Hf.
Qed.

Lemma create_wf t p :
  i2p_wf t -> total_index t + 1024 < 2147483648 -> p <> 0 ->
  exists t', i2p_node_create t p = Some (p, t') /\ i2p_wf t' /\
    used_index t' = used_index t /\ total_index t' = total_index t + 1024 /\
    (forall j, entry t' j = entry t j) /\ map addr (nodes t') = map addr (nodes t) ++ [p].
Proof.
  intros [Hok Hne Hnum Hu Htot Hmax Hnx Hlow Hint] Hbig Hp.
  destruct (i2p_node_create_spec t p) as (n & -> & Hn & Hpa & Hc & Hcell); try done.
  eexists. split; [done|]. unfold entry. cbn.
  assert (forall j, entry_in (nodes t ++ [n]) j = entry_in (nodes t) j) as Hent
    by (intros; by apply entry_in_app).
  split_and!; try done; [|by rewrite map_app; cbn; rewrite Hpa].
  constructor; cbn; rewrite ?length_app; cbn [length]; try lia.
  - by apply nodes_ok_snoc.
  - by intros []%app_eq_nil.
  - rewrite node_sum_app, Hu. cbn. lia.
  - intros j Hj. unfold entry. cbn. rewrite Hent. by apply Hlow.
Qed.

(** The tail release drops empty nodes only and keeps the first. *)
Lemma release_loop_spec rn t freed :
  rn <> [] -> node_num t = Z.of_nat (length rn) -> max_index_per_node t = 1024 ->
  total_index t = 1024 * Z.of_nat (length rn) -> total_index t < 2147483648 ->
  exists ks fs, rev rn = ks ++ fs /\ ks <> [] /\ Forall (fun n => count n = 0) fs /\
    release_loop rn t freed
    = Some (I2p ks (Z.of_nat (length ks)) (used_index t) (1024 * Z.of_nat (length ks)) 1024
              (next_index t), freed ++ rev (map addr fs)).
Proof.
  revert t freed. induction rn as [|n rn IH]; intros t freed Hne Hnum Hmax Htot Hint; [done|].
  cbn [release_loop]. case_if.
  - destruct rn as [|m rn]; [cbn in *; lia|].
    destruct (IH (I2p (nodes t) (node_num t - 1) (used_index t)
             (total_index t -w max_index_per_node t)%C (max_index_per_node t) (next_index t))
             (freed ++ [addr n])) as (ks & fs & Hr & Hks & Hfs & ->); cbn [node_num total_index max_index_per_node] in *;
      try done; try (rewrite ?wrap_small by (unfold is_word; cbn [length] in *; lia); cbn [length] in *; lia).
    exists ks, (fs ++ [n]). split_and!; try done.
    + change (rev (n :: m :: rn)) with (rev (m :: rn) ++ [n]). rewrite Hr. by rewrite app_assoc.
    + apply Forall_app. split; [done|]. by repeat constructor.
    + rewrite map_app, rev_app_distr. cbn. by rewrite <- app_assoc.
  - exists (rev (n :: rn)), []. split_and!; try done.
    + by rewrite app_nil_r.
    + intros E%(f_equal length). rewrite length_rev in E. done.
    + rewrite length_rev. cbn [map rev]. rewrite app_nil_r. unfold set_nodes.
      by rewrite Hnum, Htot, Hmax.
Qed.

Lemma release_wf t :
  i2p_wf t ->
  exists t' fs, __i2p_node_release t = Some (t', fs) /\ i2p_wf t' /\
    (forall j, entry t' j = entry t j) /\
    map addr (nodes t) = map addr (nodes t') ++ rev fs.
Proof.
  intros [Hok Hne Hnum Hu Htot Hmax Hnx Hlow Hint]. unfold __i2p_node_release.
  destruct (release_loop_spec (rev (nodes t)) t []) as (ks & fs & Hr & Hks & Hfs & ->);
    rewrite ?length_rev; try done.
  { intros E%(f_equal length). rewrite length_rev in E. by destruct (nodes t). }
  rewrite rev_involutive in Hr. exists (I2p ks (Z.of_nat (length ks)) (used_index t)
    (1024 * Z.of_nat (length ks)) 1024 (next_index t)), (rev (map addr fs)).
  assert (forall j, entry_in ks j = entry t j) as Hent.
  { unfold entry. rewrite Hr in *. clear - Hok Hfs. revert ks Hok.
    induction Hfs as [|n fs Hn Hfs IH]; intros ks Hok j; [by rewrite app_nil_r|].
    replace (ks ++ n :: fs) with ((ks ++ [n]) ++ fs) in * by by rewrite <- app_assoc.
    rewrite <- (IH _ Hok), entry_in_app; [done|]. intros i Hi.
    apply (node_count_empty (Z.of_nat (length ks))); [|done|done].
    apply Hok. rewrite lookup_app_l by (rewrite length_app; cbn; lia). by apply list_lookup_middle. }
  split_and!; try done.
  - cbn in Hent. constructor; cbn; try done.
    + intros k n Hk. apply Hok. rewrite Hr. by apply lookup_app_l_Some.
    + change (used_index t = node_sum ks). rewrite Hu, Hr, node_sum_app. enough (node_sum fs = 0) by lia.
      clear - Hfs. induction Hfs as [|n fs Hn _ IH]; [done|].
      change (count n + node_sum fs = 0). lia.
    + split; [lia|]. destruct (Z.le_gt_cases (next_index t) (1024 * Z.of_nat (length ks))); [done|].
      destruct (entry_in_Some ks (1024 * Z.of_nat (length ks))) as (_ & _ & _ & _ & ?); [|lia].
      rewrite Hent. apply Hlow. lia.
    + intros j Hj. unfold entry. cbn. rewrite Hent. by apply Hlow.
    + rewrite Hr, length_app in Htot. lia.
  - cbn. by rewrite Hr, map_app, rev_involutive.
Qed.

(** ** The operations *)

Lemma used_le_total t : i2p_wf t -> 0 <= used_index t <= total_index t.
Proof.
  intros Hwf. rewrite (iw_used _ Hwf), (iw_total _ Hwf).
  apply node_sum_range, nodes_ok_counts, (iw_nodes _ Hwf).
Qed.

Lemma i2p_alloc_spec t ptr p :
  i2p_wf t -> total_index t + 1024 < 2147483648 ->
  exists r t', i2p_alloc t ptr p = Some (r, t') /\ i2p_wf t' /\
    ((r = COMMON_I2P_ALLOC_ERROR /\ t' = t /\ p = 0 /\
        forall j, 0 <= j < total_index t -> is_Some (entry t j)) \/
     (0 <= r < total_index t' /\ entry t r = None /\
        (forall j, 0 <= j < r -> is_Some (entry t j)) /\
        forall j, entry t' j = if j =? r then Some ptr else entry t j)).
Proof.
  intros Hwf Hbig. unfold i2p_alloc, __i2p_alloc. pose proof (used_le_total t Hwf) as Hle.
  destruct (Z.eqb_spec (used_index t) (total_index t)) as [E|E].
  - destruct (Z.eq_dec p 0) as [->|Hp].
    + cbn. do 2 eexists. split_and!; try done. left. split_and!; try done. by apply all_full.
    + destruct (create_wf t p Hwf Hbig Hp) as (t1 & -> & Hwf1 & Hu & Ht & Hent & _).
      cbn [mbind option_bind]. rewrite (proj2 (Z.eqb_neq p 0) Hp).
      destruct (alloc_index_spec t1 ptr Hwf1)
        as (r & t' & -> & Hwf' & Hr & Hno & Hlow & Hnew & Htot & _); [lia|].
      exists r, t'. split_and!; try done. right. rewrite Htot, <- (Hent r).
      split_and!; try done; try lia.
      * intros j Hj. rewrite <- Hent. by apply Hlow.
      * intros j. by rewrite Hnew, Hent.
  - destruct (alloc_index_spec t ptr Hwf)
      as (r & t' & -> & Hwf' & Hr & Hno & Hlow & Hnew & Htot & _); [lia|].
    exists r, t'. split_and!; try done. right. rewrite Htot. split_and!; try done; lia.
Qed.

(** The node that holds [index]. *)
Lemma node_of_index t index :
  i2p_wf t -> 0 <= index < total_index t ->
  exists n, nodes t !! Z.to_nat (index / 1024) = Some n /\ node_ok (index / 1024) n /\
    (index -w start_index n)%C = index mod 1024 /\ 0 <= index mod 1024 < 1024 /\
    entry t index = cell n (index mod 1024).
Proof.
  intros Hwf Hi. pose proof Hwf as [Hok _ _ _ Htot _ _ _ Hint].
  assert (is_Some (nodes t !! Z.to_nat (index / 1024))) as [n Hn] by (apply lookup_lt_is_Some; zlia).
  pose proof (Hok _ _ Hn) as Hnode. rewrite Z2Nat.id in Hnode by zlia.
  exists n. rewrite (no_start _ _ Hnode), wrap_small by (unfold is_word; zlia).
  split_and!; try done; try zlia. unfold entry, entry_in, word_at.
  by rewrite (proj2 (Z.leb_le 0 _)), Hn by zlia.
Qed.

Lemma entry_above t index : i2p_wf t -> total_index t <= index -> entry t index = None.
Proof.
  intros Hwf Hi. destruct (entry t index) as [p|] eqn:E; [|done].
  destruct (entry_in_Some (nodes t) index) as (_ & _ & _ & _ & H); [by exists p|].
  rewrite (iw_total _ Hwf) in Hi. lia.
Qed.

Lemma i2p_find_spec t index :
  i2p_wf t -> 0 <= index -> i2p_find t index = Some (default 0 (entry t index)).
Proof.
  intros Hwf Hi. unfold i2p_find, __i2p_find. rewrite locate_wf by done.
  cbn [mbind option_bind]. destruct (Z.ltb_spec index (total_index t)) as [Hl|Hl].
  - destruct (node_of_index t index Hwf) as (n & -> & Hn & Hoff & Hm & ->); [lia|].
    cbn [mbind option_bind]. rewrite Hoff. unfold cell. destruct (used _ _) eqn:E.
    + destruct (word_at_Some (array n) (index mod 1024)) as [x ->]; [rewrite (no_array _ _ Hn); lia|done].
    + by apply (no_free _ _ Hn).
  - by rewrite entry_above.
Qed.

Lemma to_int_index t index :
  i2p_wf t -> 0 <= index ->
  (if index <? wrap (next_index t) then to_int index else next_index t)
  = Z.min index (next_index t).
Proof.
  intros Hwf Hi. pose proof (iw_next _ Hwf). pose proof (iw_int _ Hwf).
  rewrite wrap_small by (unfold is_word; lia).
  case_if; [rewrite to_int_small by lia|]; lia.
Qed.

(** Replacing node [k] by one in which the entry [index] is absent. *)
Lemma remove_wf t index n bm arr :
  i2p_wf t -> nodes t !! Z.to_nat (index / 1024) = Some n -> 0 <= index < total_index t ->
  bm_wf bm -> tight bm -> mask_count bm = 1024 ->
  (forall i, used bm i = if i =? index mod 1024 then false else used (arr_bitmap n) i) ->
  word_set (array n) (index mod 1024) 0 = Some arr ->
  let u := Z.b2z (used (arr_bitmap n) (index mod 1024)) in
  let n' := Node (addr n) (count n - u) (start_index n) (end_index n) bm arr in
  let t' := I2p (<[Z.to_nat (index / 1024) := n']> (nodes t)) (node_num t) (used_index t - u)
              (total_index t) (max_index_per_node t)
              (if u =? 0 then next_index t else Z.min index (next_index t)) in
  i2p_wf t' /\ (forall j, entry t' j = if j =? index then None else entry t j) /\
  map addr (nodes t') = map addr (nodes t).
Proof.
  intros Hwf Hk Hi Hbw Hbt Hbm Hu Harr u n' t'.
  pose proof Hwf as [Hok Hne Hnum Hus Htot Hmax Hnx Hlow Hint].
  assert (0 <= index mod 1024 < 1024) as Hm by zlia.
  destruct (node_ok_update _ n bm arr _ false 0 (Hok _ _ Hk) Hm Hbw Hbt Hbm Hu Harr) as [Hn' Hcell];
    [done|]. cbn [Z.b2z] in Hn', Hcell. rewrite Z.add_0_r in Hn', Hcell. fold u n' in Hn', Hcell.
  pose proof (entry_in_insert _ _ n n' _ None Hk Hm Hcell) as Hent.
  rewrite Z2Nat.id in Hent by zlia.
  replace (1024 * (index / 1024) + index mod 1024) with index in Hent by zlia.
  assert (u = 0 -> entry t index = None) as Hu0.
  { intros E. rewrite <- (Z2Nat.id (index / 1024)) in Hent by zlia.
    assert (index = 1024 * Z.of_nat (Z.to_nat (index / 1024)) + index mod 1024) as -> by zlia.
    unfold entry. rewrite (entry_in_at _ _ _ _ Hk Hm). unfold cell.
    subst u. by destruct (used _ _). }
  split_and!; [|exact Hent|].
  - constructor; cbn; rewrite ?length_insert; try done.
    + by apply nodes_ok_insert.
    + intros E%(f_equal length). rewrite length_insert in E. by destruct (nodes t).
    + change (used_index t - u = node_sum (<[Z.to_nat (index / 1024) := n']> (nodes t))).
      rewrite (node_sum_insert _ _ n n' Hk). subst n'. cbn. lia.
    + case_if; lia.
    + intros j. unfold entry. cbn. rewrite Hent. destruct (Z.eqb_spec u 0) as [E|E].
      * intros Hj. destruct (Z.eqb_spec j index) as [->|]; [|by apply Hlow].
        rewrite <- (Hu0 E). by apply Hlow.
      * intros Hj. rewrite (proj2 (Z.eqb_neq j index)) by lia. apply Hlow. lia.
  - subst t'. cbn [nodes]. rewrite list_fmap_insert. apply list_insert_id.
    by rewrite list_lookup_fmap, Hk.
Qed.

Lemma i2p_dealloc_spec t index :
  i2p_wf t -> 0 <= index ->
  exists b t' freed, i2p_dealloc t index = Some (b, t', freed) /\ i2p_wf t' /\
    (b = true <-> is_Some (entry t index)) /\
    (forall j, entry t' j = if j =? index then None else entry t j) /\
    map addr (nodes t) = map addr (nodes t') ++ rev freed.
Proof.
  intros Hwf Hi. unfold i2p_dealloc, __i2p_dealloc. rewrite locate_wf by done.
  cbn [mbind option_bind]. destruct (Z.ltb_spec index (total_index t)) as [Hl|Hl].
  2: { do 3 eexists. split_and!; try done; cbn [rev]; rewrite ?app_nil_r; try done.
       - split; [done|]. rewrite entry_above by done. by intros [].
       - intros j. destruct (Z.eqb_spec j index) as [->|]; [|done]. by apply entry_above. }
  destruct (node_of_index t index Hwf) as (n & Hk & Hn & Hoff & Hm & Hent); [lia|].
  rewrite Hk. cbn [mbind option_bind]. rewrite Hoff.
  destruct (word_set (array n) (index mod 1024) 0) as [arr|] eqn:Harr;
    [|rewrite word_at_set in Harr by (rewrite (no_array _ _ Hn); lia); done].
  cbn [mbind option_bind].
  destruct (dealloc_bit_cases (arr_bitmap n) (index mod 1024) (no_bm _ _ Hn))
    as (bm & -> & Hbw & Hbm & _ & Hlast & Hu); [rewrite (no_mask _ _ Hn); lia|].
  cbn [mbind option_bind]. rewrite (no_mask _ _ Hn) in Hbm.
  assert (tight bm) as Hbt.
  { apply (dealloc_tight (arr_bitmap n) bm (index mod 1024)); try done;
      [by rewrite (no_mask _ _ Hn)|by rewrite (no_mask _ _ Hn)|apply (no_tight _ _ Hn)]. }
  destruct (remove_wf t index n bm arr) as (Hwf' & Hent' & Haddr); try done.
  pose proof (node_cell_used _ _ _ Hn Hm) as Hcu. rewrite <- Hent in Hcu.
  destruct (used (arr_bitmap n) (index mod 1024)) eqn:Eu; cbn [negb Z.b2z Z.eqb] in *.
  - rewrite to_int_index by done.
    rewrite (wrap_small (used_index t - 1)) by (pose proof (used_le_total _ Hwf');
      cbn in *; pose proof (iw_int _ Hwf); unfold is_word; lia).
    case_if.
    + destruct (release_wf _ Hwf') as (t' & fs & -> & Hwf2 & Hent2 & Haddr2).
      cbn [mbind option_bind]. do 3 eexists. split_and!; [done|done|tauto| |].
      * intros j. by rewrite Hent2, Hent'.
      * by rewrite <- Haddr, Haddr2.
    + do 3 eexists. split_and!; [done|done|tauto|done|]. by rewrite Haddr, app_nil_r.
  - rewrite !Z.sub_0_r in *. do 3 eexists. split_and!; [|done| |done|].
    + reflexivity.
    + rewrite Hcu. done.
    + by rewrite <- Haddr, app_nil_r.
Qed.

Lemma i2p_create_spec head p :
  head <> 0 -> p <> 0 ->
  exists t, i2p_create head p = Some (Some t, []) /\ i2p_wf t /\ total_index t = 1024 /\
    map addr (nodes t) = [p] /\ forall j, entry t j = None.
Proof.
  intros Hh Hp. unfold i2p_create. rewrite (proj2 (Z.eqb_neq head 0) Hh).
  destruct (i2p_node_create_spec (I2p [] 0 0 0 MAX_COUNT_PER_ARRAY 0) p)
    as (n & -> & Hn & Ha & Hc & Hcell); try done.
  cbn [mbind option_bind]. rewrite (proj2 (Z.eqb_neq p 0) Hp).
  assert (forall j, entry_in [n] j = None) as Hent.
  { intros j. change [n] with ([] ++ [n]). rewrite entry_in_app by done.
    unfold entry_in, word_at. case_if; [|done]. by rewrite lookup_nil. }
  eexists. split; [done|]. cbn. split_and!; try done; [|by rewrite Ha].
  constructor; cbn; try done.
  - change (nodes_ok ([] ++ [n])). apply nodes_ok_snoc; [|done]. intros k m. by rewrite lookup_nil.
  - rewrite Hc. done.
  - intros j Hj. lia.
Qed.

(** ** The iteration *)

(** The used bits of [o .. o + m - 1], in order. *)
Fixpoint used_list (bm : cl_bitmap) (o : Z) (m : nat) : list Z :=
  match m with
  | O => []
  | S m => if used bm o then o :: used_list bm (o + 1) m else used_list bm (o + 1) m
  end.

Definition offsets (n : i2p_node) : list Z := used_list (arr_bitmap n) 0 (Z.to_nat 1024).

(** The indices in use, in order. *)
Definition handles (t : i2p) : list Z :=
  concat (map (fun n => map (Z.add (start_index n)) (offsets n)) (nodes t)).

Lemma used_list_app bm o a b :
  used_list bm o (a + b) = used_list bm o a ++ used_list bm (o + Z.of_nat a) b.
Proof.
  revert o. induction a as [|a IH]; intros o; cbn [used_list Nat.add].
  - by rewrite Z.add_0_r.
  - rewrite IH. replace (o + 1 + Z.of_nat a) with (o + Z.of_nat (S a)) by lia. by case_if.
Qed.

Lemma used_list_none bm o m :
  (forall i, o <= i < o + Z.of_nat m -> used bm i = false) -> used_list bm o m = [].
Proof.
  revert o. induction m as [|m IH]; intros o H; cbn [used_list]; [done|].
  rewrite H by lia. apply IH. intros. apply H. lia.
Qed.

Lemma used_list_length bm n : Z.of_nat (length (used_list bm 0 n)) = used_below bm n.
Proof.
  induction n as [|n IH]; [done|]. replace (S n) with (n + 1)%nat at 1 by lia.
  rewrite used_list_app, length_app, Z.add_0_l. cbn [used_list used_below]. case_if; cbn [length]; lia.
Qed.

Lemma used_list_elem bm o m i :
  i ∈ used_list bm o m <-> o <= i < o + Z.of_nat m /\ used bm i = true.
Proof.
  revert o. induction m as [|m IH]; intros o; cbn [used_list].
  - split; [intros []%not_elem_of_nil|lia].
  - destruct (used bm o) eqn:E; rewrite ?elem_of_cons, IH; split.
    + intros [->|[? ?]]; (split; [lia|done]).
    + intros [Hi Hu]. destruct (Z.eq_dec i o); [by left|right; split; [lia|done]].
    + intros [? ?]; split; [lia|done].
    + intros [Hi Hu]. split; [|done]. destruct (Z.eq_dec i o); [congruence|lia].
Qed.

Section Iteration.
Context (M : Z).

(** The used offsets of a node from [o] on. *)
Definition offsets_from (n : i2p_node) (o : Z) : list Z :=
  used_list (arr_bitmap n) o (Z.to_nat (M - o)).

(** The search for the next used bit takes the list apart. *)
Lemma offsets_next n o :
  bm_wf (arr_bitmap n) -> mask_count (arr_bitmap n) = M -> 0 <= o <= M ->
  exists r, cl_find_next_bit (bitmap (arr_bitmap n)) M o = Some r /\
    ((r = M /\ offsets_from n o = []) \/
     (o <= r < M /\ offsets_from n o = r :: offsets_from n (r + 1))).
Proof.
  intros [Hok Hb Hi Hl] Hm Ho. rewrite Hm in *. unfold offsets_from.
  rewrite find_next_bit_scan by (try done; unfold is_word; lia). eexists. split; [done|].
  destruct (Z.eq_dec o M) as [->|].
  - left. rewrite next_one_full, Z.sub_diag by done. done.
  - destruct (next_one_spec (bitmap (arr_bitmap n)) M o) as (Hr & Hbef & Hhit); [lia|].
    set (r := next_one _ _ _) in *.
    replace (Z.to_nat (M - o)) with (Z.to_nat (r - o) + Z.to_nat (M - r))%nat by lia.
    rewrite used_list_app, used_list_none by (intros; apply Hbef; lia). cbn [app].
    replace (o + Z.of_nat (Z.to_nat (r - o))) with r by lia.
    destruct (Z.eq_dec r M) as [E|E]; [left; by rewrite E, Z.sub_diag|right].
    split; [lia|]. replace (Z.to_nat (M - r)) with (S (Z.to_nat (M - (r + 1)))) by lia.
    cbn [used_list]. unfold used at 1. by rewrite Hhit by lia.
Qed.

Lemma loop_body_spec todo n next o ret :
  0 <= M < 2147483648 ->
  (forall m, m ∈ n :: next -> bm_wf (arr_bitmap m) /\ mask_count (arr_bitmap m) = M) ->
  (forall m, m ∈ next -> offsets_from m 0 <> []) -> 0 <= o <= M ->
  todo = length (offsets_from n o ++ concat (map (fun m => offsets_from m 0) next)) ->
  loop_body todo (n :: next) o ret
  = Some (offsets_from n o ++ concat (map (fun m => offsets_from m 0) next), ret + Z.of_nat todo).
Proof.
  intros HM. revert n next o ret.
  induction todo as [|todo IH]; intros n next o ret Hok Hne Ho Hlen.
  - symmetry in Hlen. apply nil_length_inv in Hlen. by rewrite Hlen, Z.add_0_r.
  - cbn [loop_body]. destruct (Hok n) as [Hwf Hm]; [apply list_elem_of_here|]. rewrite Hm.
    destruct (offsets_next n o Hwf Hm Ho) as (r & -> & [[-> Hl]|[Hr Hl]]);
      cbn [mbind option_bind]; rewrite Hl in Hlen |- *.
    + cbn [app] in *. rewrite Z.eqb_refl. destruct next as [|m next]; [done|].
      destruct (Hok m) as [Hwf' Hm']; [apply list_elem_of_further, list_elem_of_here|]. rewrite Hm'.
      destruct (offsets_next m 0 Hwf' Hm' ltac:(lia)) as (r & -> & [[_ Hl']|[Hr Hl']]).
      { destruct (Hne m); [apply list_elem_of_here|done]. }
      cbn [mbind option_bind map concat] in *. rewrite Hl' in Hlen |- *.
      rewrite wrap_small by (unfold is_word; lia). cbn [length app] in Hlen.
      rewrite IH; [cbn [mbind option_bind app]; do 2 f_equal; lia|..|lia|lia].
      * intros x Hx. apply Hok, list_elem_of_further, Hx.
      * intros x Hx. apply Hne, list_elem_of_further, Hx.
    + rewrite (proj2 (Z.eqb_neq r M)), wrap_small by (unfold is_word; lia).
      cbn [length app] in Hlen.
      rewrite IH; [cbn [mbind option_bind app]; do 2 f_equal; lia|done|done|lia|lia].
Qed.

End Iteration.

Lemma offsets_length k n : node_ok k n -> Z.of_nat (length (offsets n)) = count n.
Proof. intros Hn. unfold offsets. by rewrite used_list_length, (no_count _ _ Hn). Qed.

Lemma offsets_from_0 n : offsets_from 1024 n 0 = offsets n.
Proof. unfold offsets_from, offsets. by rewrite Z.sub_0_r. Qed.

Lemma nodes_elem_ok t n : i2p_wf t -> n ∈ nodes t -> exists k, node_ok k n.
Proof. intros Hwf [k Hk]%list_elem_of_lookup. eexists. by apply (iw_nodes _ Hwf k). Qed.

Lemma offsets_elem n o : o ∈ offsets n <-> 0 <= o < 1024 /\ used (arr_bitmap n) o = true.
Proof. unfold offsets. rewrite used_list_elem, Z2Nat.id by lia. done. Qed.

(** The list of a node is compared as a whole, never bit by bit. *)
#[local] Strategy opaque [offsets used_list].

Lemma concat_offsets_length t :
  i2p_wf t -> Z.of_nat (length (concat (map offsets (nodes t)))) = used_index t.
Proof.
  intros Hwf. rewrite (iw_used _ Hwf).
  assert (forall n, n ∈ nodes t -> exists k, node_ok k n) as H by (intros; by apply (nodes_elem_ok t)).
  induction (nodes t) as [|n ns IH]; [done|]. rewrite ?map_cons, ?concat_cons.
  rewrite length_app, Nat2Z.inj_add, IH by (intros; apply H, list_elem_of_further; done).
  destruct (H n) as [k Hk]; [apply list_elem_of_here|]. by rewrite (offsets_length k).
Qed.

Lemma handles_mod t :
  i2p_wf t -> map (fun i => i mod 1024) (handles t) = concat (map offsets (nodes t)).
Proof.
  intros Hwf. unfold handles.
  assert (forall n, n ∈ nodes t -> exists k, node_ok k n) as H by (intros; by apply (nodes_elem_ok t)).
  induction (nodes t) as [|n ns IH]; [done|]. rewrite ?map_cons, ?concat_cons. rewrite map_app.
  rewrite IH by (intros; apply H, list_elem_of_further; done). f_equal.
  destruct (H n) as [k Hk]; [apply list_elem_of_here|]. rewrite (no_start _ _ Hk), map_map.
  rewrite <- (map_id (offsets n)) at 2. apply map_ext_in. intros o Ho%list_elem_of_In.
  apply offsets_elem in Ho as [Ho _]. zlia.
Qed.

Lemma handles_elem t i : i2p_wf t -> (i ∈ handles t <-> is_Some (entry t i)).
Proof.
  intros Hwf. unfold handles. rewrite list_elem_of_In, in_concat. split.
  - intros (x & Hx & Hi). apply in_map_iff in Hx as (n & <- & Hn).
    apply in_map_iff in Hi as (o & <- & Ho%list_elem_of_In). apply list_elem_of_In in Hn.
    apply list_elem_of_lookup in Hn as [k Hk]. pose proof (iw_nodes _ Hwf _ _ Hk) as Hnode.
    apply offsets_elem in Ho as [Ho Hu].
    rewrite (no_start _ _ Hnode). unfold entry. rewrite (entry_in_at _ _ _ _ Hk) by lia.
    by apply (node_cell_used _ _ _ Hnode).
  - intros Hi. destruct (entry_in_Some _ _ Hi) as (_ & _ & _ & _ & Hr).
    rewrite <- (iw_total _ Hwf) in Hr.
    destruct (node_of_index t i Hwf Hr) as (n & Hk & Hn & _ & Hm & He). rewrite He in Hi.
    exists (map (Z.add (start_index n)) (offsets n)). rewrite !in_map_iff. split.
    + exists n. split; [done|]. apply list_elem_of_In. by eapply list_elem_of_lookup_2.
    + exists (i mod 1024). rewrite (no_start _ _ Hn). split; [zlia|].
      apply list_elem_of_In, offsets_elem. split; [lia|]. by apply (node_cell_used _ _ _ Hn).
Qed.

(** ** Properties *)

(** A table with two entries for the witnesses. *)
Definition sample_i2p : i2p :=
  match i2p_create 64 4096 with
  | Some (Some t, _) =>
    match i2p_alloc t 77 0 with
    | Some (_, t) => match i2p_alloc t 88 0 with Some (_, t) => t | None => t end
    | None => t
    end
  | _ => I2p [] 0 0 0 0 0
  end.

Lemma alloc_sample t ptr p r t' :
  i2p_wf t -> total_index t = 1024 -> i2p_alloc t ptr p = Some (r, t') -> i2p_wf t'.
Proof.
  intros Hwf Ht E. destruct (i2p_alloc_spec t ptr p Hwf) as (r0 & t0 & E0 & H & _); [lia|].
  rewrite E in E0. injection E0 as <- <-. done.
Qed.

Lemma sample_i2p_wf : i2p_wf sample_i2p.
Proof.
  destruct (i2p_create_spec 64 4096) as (t & E & Hwf & Ht & _); [done..|].
  unfold sample_i2p. rewrite E.
  destruct (i2p_alloc t 77 0) as [[r1 t1]|] eqn:E1; [|done].
  pose proof (alloc_sample _ _ _ _ _ Hwf Ht E1) as Hwf1.
  assert (total_index t1 = 1024) as Ht1.
  { clear Hwf1. vm_compute in E. injection E as <-. vm_compute in E1. by injection E1 as <- <-. }
  destruct (i2p_alloc t1 88 0) as [[r2 t2]|] eqn:E2; [|done].
  by apply (alloc_sample _ _ _ _ _ Hwf1 Ht1 E2).
Qed.

(** [i2p_alloc] returns.  It fails only when every index of the table is
    in use and no node can be allocated, and then the table is unchanged;
    otherwise it returns the lowest free index and maps exactly that index to
    the pointer, and the table stays well-formed. *)
Theorem i2p_alloc_correct t ptr p :
  i2p_wf t -> total_index t + 1024 < 2147483648 ->
  exists r t', i2p_alloc t ptr p = Some (r, t') /\ i2p_wf t' /\
    ((r = COMMON_I2P_ALLOC_ERROR /\ t' = t /\ p = 0 /\
        forall j, 0 <= j < total_index t -> is_Some (entry t j)) \/
     (0 <= r < total_index t' /\ entry t r = None /\
        (forall j, 0 <= j < r -> is_Some (entry t j)) /\
        forall j, entry t' j = if j =? r then Some ptr else entry t j)).
Proof. apply i2p_alloc_spec. Qed.

Lemma i2p_alloc_witness :
  exists r t', i2p_alloc sample_i2p 99 0 = Some (r, t') /\ i2p_wf t' /\
    ((r = COMMON_I2P_ALLOC_ERROR /\ t' = sample_i2p /\ 0 = 0 /\
        forall j, 0 <= j < total_index sample_i2p -> is_Some (entry sample_i2p j)) \/
     (0 <= r < total_index t' /\ entry sample_i2p r = None /\
        (forall j, 0 <= j < r -> is_Some (entry sample_i2p j)) /\
        forall j, entry t' j = if j =? r then Some 99 else entry sample_i2p j)).
Proof.
  apply (i2p_alloc_correct sample_i2p 99 0); [apply sample_i2p_wf|vm_compute; reflexivity].
Defined.

(** [i2p_dealloc] returns true exactly when the index was in use, removes
    exactly that index, keeps the table well-formed, and gives back to
    [free_handle] only nodes it unlinks from the end of the list, each once. *)
Theorem i2p_dealloc_correct t index :
  i2p_wf t -> 0 <= index ->
  exists b t' freed, i2p_dealloc t index = Some (b, t', freed) /\ i2p_wf t' /\
    (b = true <-> is_Some (entry t index)) /\
    (forall j, entry t' j = if j =? index then None else entry t j) /\
    map addr (nodes t) = map addr (nodes t') ++ rev freed.
Proof. apply i2p_dealloc_spec. Qed.

Lemma i2p_dealloc_witness :
  exists b t' freed, i2p_dealloc sample_i2p 1 = Some (b, t', freed) /\ i2p_wf t' /\
    (b = true <-> is_Some (entry sample_i2p 1)) /\
    (forall j, entry t' j = if j =? 1 then None else entry sample_i2p j) /\
    map addr (nodes sample_i2p) = map addr (nodes t') ++ rev freed.
Proof. apply (i2p_dealloc_correct sample_i2p 1); [apply sample_i2p_wf|lia]. Defined.

(** [i2p_find] returns the pointer of an index in use, and NULL for every
    other index, without leaving the table. *)
Theorem i2p_find_correct t index :
  i2p_wf t -> 0 <= index -> i2p_find t index = Some (default 0 (entry t index)).
Proof. apply i2p_find_spec. Qed.

Lemma i2p_find_witness : i2p_find sample_i2p 1 = Some (default 0 (entry sample_i2p 1)).
Proof. apply (i2p_find_correct sample_i2p 1); [apply sample_i2p_wf|lia]. Defined.

(** [i2p_loop] on a table without empty nodes calls the action once per
    index in use, in order, and returns their number; but the value it passes
    is the index modulo 1024 (the offset in its node), which is the index only
    for tables of one node. *)
Theorem i2p_loop_visits t :
  i2p_wf t -> (forall n, n ∈ nodes t -> count n <> 0) ->
  i2p_loop t = Some (map (fun i => i mod 1024) (handles t), used_index t) /\
  (forall i, i ∈ handles t <-> is_Some (entry t i)) /\
  (total_index t = 1024 -> i2p_loop t = Some (handles t, used_index t)).
Proof.
  intros Hwf Hne.
  assert (i2p_loop t = Some (map (fun i => i mod 1024) (handles t), used_index t)) as Hloop.
  { rewrite (handles_mod t Hwf). pose proof (concat_offsets_length t Hwf) as Hlen.
    pose proof (iw_nonempty _ Hwf) as Hnil. unfold i2p_loop.
    assert (forall n, n ∈ nodes t -> exists k, node_ok k n) as H by (intros; by apply (nodes_elem_ok t)).
    destruct (nodes t) as [|n ns]; [done|].
    assert (forall m, offsets_from 1024 m 0 = offsets m) as Ho by (intros; apply offsets_from_0).
    rewrite (loop_body_spec 1024); try lia.
    - rewrite Z2Nat.id, Z.add_0_l, Ho, (map_ext _ offsets Ho), map_cons, concat_cons by lia.
      reflexivity.
    - intros m Hm. destruct (H m Hm) as [k Hk]. split; [apply (no_bm _ _ Hk)|apply (no_mask _ _ Hk)].
    - intros m Hm. rewrite Ho. destruct (H m) as [k Hk]; [by apply list_elem_of_further|].
      pose proof (offsets_length k m Hk) as Hl. intros E. rewrite E in Hl. cbn in Hl.
      destruct (Hne m); [by apply list_elem_of_further|lia].
    - rewrite (map_ext (fun m => offsets_from 1024 m 0) offsets Ho), Ho, <- Hlen, Nat2Z.id,
        map_cons, concat_cons. reflexivity. }
  split_and!; [done|intros; by apply handles_elem|].
  intros Ht. rewrite Hloop. do 2 f_equal. rewrite <- (map_id (handles t)) at 2.
  apply map_ext_in. intros i Hi%list_elem_of_In%handles_elem; [|done].
  destruct (entry_in_Some _ _ Hi) as (_ & _ & _ & _ & Hr). rewrite <- (iw_total _ Hwf), Ht in Hr.
  apply Z.mod_small. lia.
Qed.

Lemma i2p_loop_witness :
  i2p_loop sample_i2p = Some (map (fun i => i mod 1024) (handles sample_i2p), used_index sample_i2p) /\
  (forall i, i ∈ handles sample_i2p <-> is_Some (entry sample_i2p i)) /\
  (total_index sample_i2p = 1024 -> i2p_loop sample_i2p = Some (handles sample_i2p, used_index sample_i2p)).
Proof.
  apply (i2p_loop_visits sample_i2p); [apply sample_i2p_wf|].
  intros n Hn. vm_compute in Hn. apply list_elem_of_singleton in Hn. subst n. vm_compute. done.
Defined.
