(* ===== verification/Object.v ===== *)
(** * The object manager

    [source/libs/common/object]: objects of a type are blocks of the type's
    [obj_allocator]; the block starts with a [struct cl_object] (its name, its
    type and its reference counter) and the user's object follows it, so that
    a user pointer is the address of the header plus [SIZEOF_OBJECT].  All
    objects of a type are linked in [unname_objects].  The state [omgr] is one
    registered type with its objects; an access to a header that is not an
    object of the type is a [Fault]. *)

From stdpp Require Import gmap strings.
From S2P Require Import Prelude Bits Bitmap BlkBuf.
Import BkbOps.

Record cl_object := Obj {
  name : Z;       (* xstring: the address of a name slot, or NULL *)
  ref : Z         (* struct ke_atomic: int counter *)
}.

(** [sizeof(struct cl_object)]: name, type, counter and a list node. *)
Definition SIZEOF_OBJECT : Z := 20.
Definition CL_OBJECT_NAME_SLOTE_LENGTH : Z := 64.

Record cl_object_type := Otype {
  size : Z;
  obj_allocator : cl_bkb;
  obj_insts : instances;           (* the buffers of obj_allocator *)
  name_allocator : cl_bkb;
  name_insts : instances;          (* the buffers of name_allocator *)
  unname_objects : list Z;         (* headers, in list order *)
  objects : gmap Z cl_object;      (* header address -> header *)
  names : gmap Z string;           (* slot address -> string *)
  closed : list Z                  (* the calls of ops->close so far *)
}.

Definition set_objects (m : cl_object_type) (o : gmap Z cl_object) : cl_object_type :=
  Otype (size m) (obj_allocator m) (obj_insts m) (name_allocator m) (name_insts m)
    (unname_objects m) o (names m) (closed m).

Module ObjectOps.

Definition TO_CL_OBJECT (user_object : Z) : Z := user_object - SIZEOF_OBJECT.
Definition TO_USER_OBJECT (cl_object : Z) : Z := cl_object + SIZEOF_OBJECT.

Definition cl_object_type_register (size : Z) : cl_object_type :=
  Otype size (cl_bkb_init (size + SIZEOF_OBJECT)) ∅
    (cl_bkb_init CL_OBJECT_NAME_SLOTE_LENGTH) ∅ [] ∅ ∅ [].

(** [cl_atomic_inc] and [cl_atomic_dec] on the counter of a header. *)
Definition add_ref (m : cl_object_type) (object d : Z) : option cl_object_type :=
  let p := TO_CL_OBJECT object in
  o ← objects m !! p;
  Some (set_objects m (<[p := Obj (name o) (to_int (ref o + d))]> (objects m))).

Definition cl_object_inc_ref (m : cl_object_type) (object : Z) := add_ref m object 1.
Definition cl_object_dec_ref (m : cl_object_type) (object : Z) := add_ref m object (-1).
Definition cl_object_open (m : cl_object_type) (object : Z) := cl_object_inc_ref m object.

Definition cl_object_get_ref_counter (m : cl_object_type) (object : Z) : option Z :=
  ref <$> objects m !! TO_CL_OBJECT object.

(** Reads the type from the header, unlinks it and gives the block back. *)
Definition cl_object_delete (fuel : nat) (m : cl_object_type) (object : Z)
  : run cl_object_type :=
  let p := TO_CL_OBJECT object in
  _ ← lift (objects m !! p);
  '(_, h) ← cl_bkb_dealloc fuel (obj_allocator m) (obj_insts m) p;
  Ret (Otype (size m) (obj_allocator m) h (name_allocator m) (name_insts m)
         (filter (fun q => q <> p) (unname_objects m)) (delete p (objects m))
         (names m) (closed m)).

(** [again:] a block, after one extension of the allocator if needed.
    [space] is what [add_space] delivers when it is called. *)
Definition alloc_extending (fuel : nat) (mem : Z -> Z) (bkb : cl_bkb) (h : instances)
    (space : option (Z * Z)) (handler para : Z) : run (Z * cl_bkb * instances) :=
  '(p, h) ← cl_bkb_alloc fuel bkb h;
  if negb (p =? 0) then Ret (p, bkb, h) else
  match space with
  | None => Ret (0, bkb, h)
  | Some (base, size) =>
    '(bkb, h) ← cl_bkb_extend fuel mem bkb h base size handler para;
    '(p, h) ← cl_bkb_alloc fuel bkb h;
    Ret (p, bkb, h)
  end.

(** [init] is [type->ops->init] when it is not NULL, as a function of the
    user pointer. *)
Definition cl_object_create (fuel : nat) (mem : Z -> Z) (m : cl_object_type)
    (space : option (Z * Z)) (init : option (Z -> bool)) : run (Z * cl_object_type) :=
  '(object, bkb, h) ← alloc_extending fuel mem (obj_allocator m) (obj_insts m) space 1 2;
  let m := Otype (size m) bkb h (name_allocator m) (name_insts m) (unname_objects m)
             (objects m) (names m) (closed m) in
  if object =? 0 then Ret (0, m) else
  let m := Otype (size m) (obj_allocator m) (obj_insts m) (name_allocator m) (name_insts m)
             (unname_objects m ++ [object]) (<[object := Obj 0 0]> (objects m))
             (names m) (closed m) in
  let ok := match init with Some f => f (TO_USER_OBJECT object) | None => true end in
  if ok then Ret (TO_USER_OBJECT object, m)
  else m ← cl_object_delete fuel m object; Ret (0, m).

(** [has_close]: whether [ops->close] is set. *)
Definition cl_object_close (fuel : nat) (m : cl_object_type) (object : Z) (has_close : bool)
  : run cl_object_type :=
  m ← lift (cl_object_dec_ref m object);
  let m := if has_close
           then Otype (size m) (obj_allocator m) (obj_insts m) (name_allocator m) (name_insts m)
                  (unname_objects m) (objects m) (names m) (closed m ++ [object])
           else m in
  c ← lift (cl_object_get_ref_counter m object);
  if c <=? 0 then cl_object_delete fuel m object else Ret m.

Definition cl_object_set_name (fuel : nat) (mem : Z -> Z) (m : cl_object_type) (who : Z)
    (what : string) (space : option (Z * Z)) : run (Z * cl_object_type) :=
  if CL_OBJECT_NAME_SLOTE_LENGTH <=? Z.of_nat (String.length what) + 1 then Ret (0, m) else
  let object := TO_CL_OBJECT who in
  o ← lift (objects m !! object);
  '(slot, bkb, h) ← alloc_extending fuel mem (name_allocator m) (name_insts m) space 1 2;
  let m := Otype (size m) (obj_allocator m) (obj_insts m) bkb h (unname_objects m)
             (objects m) (names m) (closed m) in
  if slot =? 0 then Ret (0, m) else
  Ret (slot, Otype (size m) (obj_allocator m) (obj_insts m) bkb h (unname_objects m)
         (<[object := Obj slot (ref o)]> (objects m)) (<[slot := what]> (names m)) (closed m)).

(** The loop of [cl_object_search_name]: the value of [p] after it. *)
Fixpoint search_loop (m : cl_object_type) (l : list Z) (p : Z) (s : string) : option Z :=
  match l with
  | [] => Some p
  | t :: l =>
    o ← objects m !! t;
    if name o =? 0 then search_loop m l 0 s
    else
      n ← names m !! name o;
      if String.eqb n s then Some t else search_loop m l 0 s
  end.

(** [p0] is what the uninitialised local [p] holds. *)
Definition cl_object_search_name (m : cl_object_type) (p0 : Z) (s : string)
  : option (Z * cl_object_type) :=
  p ← search_loop m (unname_objects m) p0 s;
  if p =? 0 then Some (0, m) else
  let u := TO_USER_OBJECT p in
  m ← cl_object_inc_ref m u;
  Some (u, m).

Definition cl_object_get_name (m : cl_object_type) (who : Z) : option Z :=
  name <$> objects m !! TO_CL_OBJECT who.

End ObjectOps.
Import ObjectOps.

(** ** Well-formed types *)

Record type_wf (m : cl_object_type) (l nl : list Z) : Prop := {
  tw_obj : bkb_wf (obj_allocator m) (obj_insts m) l;
  tw_size : node_size (obj_allocator m) = size m + SIZEOF_OBJECT;
  tw_name : bkb_wf (name_allocator m) (name_insts m) nl;
  tw_slot : node_size (name_allocator m) = CL_OBJECT_NAME_SLOTE_LENGTH;
  tw_live : forall p, is_Some (objects m !! p) <-> live (size m + SIZEOF_OBJECT) (obj_insts m) p;
  tw_list : forall p, p ∈ unname_objects m <-> is_Some (objects m !! p);
  tw_nodup : NoDup (unname_objects m);
  tw_names : forall p o, objects m !! p = Some o -> name o <> 0 ->
               is_Some (names m !! name o) /\
               live CL_OBJECT_NAME_SLOTE_LENGTH (name_insts m) (name o);
  tw_inj : forall p q o o', objects m !! p = Some o -> objects m !! q = Some o' ->
             p <> q -> name o <> 0 -> name o <> name o'
}.

(** What [add_space] must deliver: memory the allocator can take. *)
Definition good_space (fuel : nat) (bkb : cl_bkb) (h : instances) (space : option (Z * Z)) : Prop :=
  match space with
  | None => True
  | Some (base, size) =>
    node_size bkb mod 4 = 0 /\ base mod 4 = 0 /\ size mod 4 = 0 /\
    SIZEOF_INSTANCE <= size < 2147483648 /\ 0 < base /\ is_word (base + size) /\
    (forall a i, h !! a = Some i ->
       a + SIZEOF_INSTANCE <= base \/ base + size <= area (node_size bkb) a i) /\
    size / node_size bkb < Z.of_nat fuel
  end.

Lemma extend_node_size fuel mem bkb h base sz hd pa bkb' h' :
  cl_bkb_extend fuel mem bkb h base sz hd pa = Ret (bkb', h') -> node_size bkb' = node_size bkb.
Proof.
  unfold cl_bkb_extend, extend_link.
  repeat match goal with
  | |- (mbind _ ?x) = _ -> _ => destruct x; cbn [mbind run_bind]; [|done|done]
  | |- (if ?b then _ else _) = _ -> _ => destruct b; [by intros [= <- _]|]
  end. by intros [= <- _].
Qed.

Lemma alloc_extending_spec fuel mem bkb h l space hd pa :
  bkb_wf bkb h l -> (forall x, is_word (mem x)) -> good_space fuel bkb h space ->
  (S (length l) < fuel)%nat ->
  exists p bkb' h' l', alloc_extending fuel mem bkb h space hd pa = Ret (p, bkb', h') /\
    bkb_wf bkb' h' l' /\ node_size bkb' = node_size bkb /\ (length l' <= S (length l))%nat /\
    ((p = 0 /\ forall q, live (node_size bkb) h' q <-> live (node_size bkb) h q) \/
     (p <> 0 /\ ~ live (node_size bkb) h p /\
      forall q, live (node_size bkb) h' q <-> q = p \/ live (node_size bkb) h q)).
Proof.
  intros Hwf Hmem Hsp Hf. unfold alloc_extending.
  destruct (bkb_alloc_spec fuel bkb h l Hwf) as (p & h1 & -> & Hwf1 & Hsh & Hp); [lia|].
  cbn [mbind run_bind]. destruct Hp as [(-> & Hlive & _)|(Hp & Hno & Hlive & _)].
  2: { rewrite (proj2 (Z.eqb_neq p 0) Hp). do 4 eexists. split; [done|].
       split_and!; [done|done|lia|]. right. done. }
  cbn [Z.eqb negb]. destruct space as [[base sz]|].
  2: { do 4 eexists. split; [done|]. split_and!; [done|done|lia|]. left. done. }
  destruct Hsp as (Hn4 & Hb4 & Hs4 & Hsz & Hb & Hw & Hdis & Hfu).
  destruct (bkb_extend_spec fuel mem bkb h1 l base sz hd pa)
    as (bkb2 & h2 & n & i & He & Hwf2 & _ & _ & _ & _ & Hlive2); try done.
  { intros a j Ha. destruct (shape_inv _ _ _ _ Hsh Ha) as (j0 & Hj0 & _ & _ & Hc).
    specialize (Hdis _ _ Hj0). unfold area in *. rewrite Hc. done. }
  rewrite He. cbn [mbind run_bind].
  assert (node_size bkb2 = node_size bkb) as Hns by (by eapply extend_node_size).
  assert (length (linked bkb (base + n * node_size bkb) l) = S (length l)) as Hll
    by (by destruct l).
  destruct (bkb_alloc_spec fuel bkb2 h2 _ Hwf2) as (q & h3 & -> & Hwf3 & _ & Hq); [lia|].
  cbn [mbind run_bind]. rewrite Hns in Hq. do 4 eexists. split; [done|].
  split_and!; [done|done|lia|]. destruct Hq as [(-> & Hl3 & _)|(Hq & Hno & Hl3 & _)].
  - left. split; [done|]. intros x. by rewrite Hl3, Hlive2, Hlive.
  - right. split_and!; [done|by rewrite Hlive2, Hlive in Hno|].
    intros x. by rewrite Hl3, Hlive2, Hlive.
Qed.

(** ** Creation and deletion *)

(** The header [p] joins the objects of the type. *)
Lemma type_wf_add m l nl p bkb h l' :
  type_wf m l nl -> bkb_wf bkb h l' -> node_size bkb = size m + SIZEOF_OBJECT ->
  ~ live (size m + SIZEOF_OBJECT) (obj_insts m) p ->
  (forall q, live (size m + SIZEOF_OBJECT) h q <-> q = p \/ live (size m + SIZEOF_OBJECT) (obj_insts m) q) ->
  type_wf (Otype (size m) bkb h (name_allocator m) (name_insts m) (unname_objects m ++ [p])
             (<[p := Obj 0 0]> (objects m)) (names m) (closed m)) l' nl.
Proof.
  intros [Ho Hs Hn Hsl Hlv Hli Hnd Hnm Hinj] Hwf Hns Hno Hlive.
  assert (objects m !! p = None) as Hp.
  { destruct (objects m !! p) eqn:E; [|done]. destruct Hno. apply Hlv. by rewrite E. }
  constructor; cbn; try done.
  - intros q. rewrite Hlive, <- Hlv, lookup_insert_is_Some. split; [intros [?|[? ?]]; auto|].
    intros [->|H]; [by left|]. destruct (Z.eq_dec p q); [by left|by right].
  - intros q. rewrite elem_of_app, list_elem_of_singleton, Hli, lookup_insert_is_Some.
    split; [|intros [->|[? ?]]; auto].
    intros [H| ->]; [|by left]. destruct (Z.eq_dec p q); [by left|by right].
  - apply NoDup_app. split_and!; [done| |apply NoDup_singleton].
    intros q Hq ->%list_elem_of_singleton. apply Hli in Hq. rewrite Hp in Hq. by destruct Hq.
  - intros q o [[<- <-]|[Hne Hq]]%lookup_insert_Some Hz; [done|]. by apply (Hnm q).
  - intros q q' o o' [[<- <-]|[Hne Hq]]%lookup_insert_Some Hq' Hqq Hz; [done|].
    apply lookup_insert_Some in Hq' as [[<- <-]|[Hne' Hq']]; [done|]. by apply (Hinj q q').
Qed.

Lemma object_delete_spec fuel m l nl object :
  type_wf m l nl -> (length l < fuel)%nat -> is_Some (objects m !! TO_CL_OBJECT object) ->
  exists m', cl_object_delete fuel m object = Ret m' /\ type_wf m' l nl /\
    objects m' = delete (TO_CL_OBJECT object) (objects m) /\ names m' = names m /\
    closed m' = closed m /\ size m' = size m.
Proof.
  intros [Ho Hs Hn Hsl Hlv Hli Hnd Hnm Hinj] Hf Hp. unfold cl_object_delete.
  set (p := TO_CL_OBJECT object) in *. destruct Hp as [o Hp]. rewrite Hp. cbn [lift mbind run_bind].
  destruct (bkb_dealloc_spec fuel _ _ l p Ho Hf) as (h & -> & Hwf & Hlive).
  { rewrite Hs. apply Hlv. by rewrite Hp. }
  rewrite Hs in Hlive. cbn [mbind run_bind]. eexists. split; [done|]. cbn. split_and!; try done.
  constructor; cbn; try done.
  - intros q. rewrite Hlive, <- Hlv, lookup_delete_is_Some.
    split; (intros [? ?]; split; [congruence|done]).
  - intros q. rewrite list_elem_of_filter, Hli, lookup_delete_is_Some.
    split; (intros [? ?]; split; [congruence|done]).
  - by apply NoDup_filter.
  - intros q o' [Hne Hq]%lookup_delete_Some. by apply (Hnm q).
  - intros q q' o1 o2 [_ Hq]%lookup_delete_Some [_ Hq']%lookup_delete_Some. by apply (Hinj q q').
Qed.

(** ** Reference counters *)

Lemma add_ref_spec m l nl object d o :
  type_wf m l nl -> objects m !! TO_CL_OBJECT object = Some o ->
  exists m', add_ref m object d = Some m' /\ type_wf m' l nl /\
    objects m' = <[TO_CL_OBJECT object := Obj (name o) (to_int (ref o + d))]> (objects m) /\
    names m' = names m /\ unname_objects m' = unname_objects m /\ closed m' = closed m /\
    size m' = size m.
Proof.
  intros [Ho Hs Hn Hsl Hlv Hli Hnd Hnm Hinj] Hp. unfold add_ref.
  set (p := TO_CL_OBJECT object) in *. rewrite Hp. cbn [mbind option_bind].
  eexists. split; [done|]. cbn. split_and!; try done.
  assert (forall q, is_Some (<[p := Obj (name o) (to_int (ref o + d))]> (objects m) !! q)
                    <-> is_Some (objects m !! q)) as Hdom.
  { intros q. rewrite lookup_insert_is_Some. destruct (Z.eq_dec p q) as [<-|]; [|tauto].
    rewrite Hp. split; [done|by left]. }
  assert (forall q o', <[p := Obj (name o) (to_int (ref o + d))]> (objects m) !! q = Some o' ->
            exists o0, objects m !! q = Some o0 /\ name o' = name o0) as Hname.
  { intros q o' [[<- <-]|[_ Hq]]%lookup_insert_Some; eauto. }
  constructor; cbn; try done.
  - intros q. by rewrite Hdom.
  - intros q. by rewrite Hdom.
  - intros q o' (o0 & Hq & ->)%Hname. by apply (Hnm q).
  - intros q q' o1 o2 (o3 & Hq & ->)%Hname (o4 & Hq' & ->)%Hname. by apply (Hinj q q').
Qed.

Lemma object_close_spec fuel m l nl object o hc :
  type_wf m l nl -> (length l < fuel)%nat ->
  objects m !! TO_CL_OBJECT object = Some o -> -2147483648 < ref o < 2147483648 ->
  exists m', cl_object_close fuel m object hc = Ret m' /\ type_wf m' l nl /\
    closed m' = (if hc then closed m ++ [object] else closed m) /\
    objects m' = (if ref o <=? 1 then delete (TO_CL_OBJECT object) (objects m)
                  else <[TO_CL_OBJECT object := Obj (name o) (ref o - 1)]> (objects m)).
Proof.
  intros Hwf Hf Hp Hr. unfold cl_object_close, cl_object_dec_ref.
  destruct (add_ref_spec m l nl object (-1) o Hwf Hp) as (m1 & -> & Hwf1 & Hob & _ & _ & Hcl & _).
  cbn [lift mbind run_bind]. rewrite to_int_id in Hob by lia.
  set (m2 := if hc then _ else m1).
  assert (objects m2 = objects m1 /\ closed m2 = (if hc then closed m ++ [object] else closed m) /\
          type_wf m2 l nl) as (Hob2 & Hcl2 & Hwf2).
  { subst m2. destruct hc; cbn; rewrite ?Hcl; split_and!; try done.
    destruct Hwf1. by constructor. }
  unfold cl_object_get_ref_counter. rewrite Hob2, Hob, lookup_insert_eq. cbn [fmap option_fmap option_map lift mbind run_bind ref].
  replace (ref o + -1) with (ref o - 1) in * by lia.
  destruct (Z.leb_spec (ref o - 1) 0), (Z.leb_spec (ref o) 1); try lia.
  - destruct (object_delete_spec fuel m2 l nl object Hwf2 Hf) as (m3 & -> & Hwf3 & Hob3 & _ & Hcl3 & _).
    { rewrite Hob2, Hob, lookup_insert_eq. done. }
    exists m3. split_and!; try done; [by rewrite Hcl3|]. by rewrite Hob3, Hob2, Hob, delete_insert_eq.
  - exists m2. split_and!; try done. by rewrite Hob2.
Qed.

(** ** Search *)

(** The first object of a list with the name [s]. *)
Definition named (m : cl_object_type) (s : string) (p : Z) : bool :=
  match objects m !! p with
  | Some o => negb (name o =? 0) && match names m !! name o with
                                    | Some n => String.eqb n s | None => false end
  | None => false
  end.

Fixpoint first_named (m : cl_object_type) (l : list Z) (s : string) : option Z :=
  match l with
  | [] => None
  | t :: l => if named m s t then Some t else first_named m l s
  end.

Lemma search_loop_spec m l s p :
  (forall q, q ∈ l -> exists o, objects m !! q = Some o /\ (name o <> 0 -> is_Some (names m !! name o))) ->
  search_loop m l p s = Some (match first_named m l s with Some t => t
                              | None => match l with [] => p | _ => 0 end end).
Proof.
  revert p. induction l as [|t l IH]; intros p H; [done|]. cbn [search_loop first_named].
  destruct (H t) as (o & Ho & Hn); [apply list_elem_of_here|]. unfold named.
  rewrite Ho. cbn [mbind option_bind].
  assert (forall q, q ∈ l -> exists o, objects m !! q = Some o /\ (name o <> 0 -> is_Some (names m !! name o)))
    as H' by (intros; by apply H, list_elem_of_further).
  destruct (Z.eqb_spec (name o) 0) as [E|E]; cbn [negb andb].
  - rewrite (IH 0 H'). destruct (first_named m l s); [done|]. by destruct l.
  - destruct (Hn E) as [n ->]. cbn [mbind option_bind]. destruct (String.eqb n s); [done|].
    rewrite (IH 0 H'). destruct (first_named m l s); [done|]. by destruct l.
Qed.

Lemma first_named_Some m l s t : first_named m l s = Some t -> t ∈ l /\ named m s t = true.
Proof.
  induction l as [|x l IH]; [done|]. cbn [first_named]. destruct (named m s x) eqn:E.
  - intros [= <-]. split; [apply list_elem_of_here|done].
  - intros [Hin Hnm]%IH. split; [by apply list_elem_of_further|done].
Qed.

Lemma type_wf_search m l nl s p0 :
  type_wf m l nl ->
  search_loop m (unname_objects m) p0 s
  = Some (match first_named m (unname_objects m) s with Some t => t
          | None => match unname_objects m with [] => p0 | _ => 0 end end).
Proof.
  intros [Ho Hs Hn Hsl Hlv Hli Hnd Hnm Hinj]. apply search_loop_spec.
  intros q Hq. apply Hli in Hq as [o Hq]. exists o. split; [done|]. intros Hz.
  by apply (Hnm q).
Qed.

(** ** Naming *)

Lemma type_wf_rename m l nl p o slot s bkb h nl' :
  type_wf m l nl -> objects m !! p = Some o -> slot <> 0 ->
  bkb_wf bkb h nl' -> node_size bkb = CL_OBJECT_NAME_SLOTE_LENGTH ->
  ~ live CL_OBJECT_NAME_SLOTE_LENGTH (name_insts m) slot ->
  (forall q, live CL_OBJECT_NAME_SLOTE_LENGTH h q
     <-> q = slot \/ live CL_OBJECT_NAME_SLOTE_LENGTH (name_insts m) q) ->
  type_wf (Otype (size m) (obj_allocator m) (obj_insts m) bkb h (unname_objects m)
             (<[p := Obj slot (ref o)]> (objects m)) (<[slot := s]> (names m)) (closed m)) l nl'.
Proof.
  intros [Ho Hs Hn Hsl Hlv Hli Hnd Hnm Hinj] Hp Hz Hwf Hns Hno Hlive.
  assert (forall q, is_Some (<[p := Obj slot (ref o)]> (objects m) !! q) <-> is_Some (objects m !! q))
    as Hdom.
  { intros q. rewrite lookup_insert_is_Some. destruct (Z.eq_dec p q) as [<-|]; [|tauto].
    rewrite Hp. split; [done|by left]. }
  assert (forall q o', objects m !! q = Some o' -> name o' <> slot) as Hfresh.
  { intros q o' Hq E. destruct Hno. rewrite <- E. apply (Hnm q o'); [done|congruence]. }
  constructor; cbn; try done.
  - intros q. by rewrite Hdom.
  - intros q. by rewrite Hdom.
  - intros q o' [[<- <-]|[Hne Hq]]%lookup_insert_Some Hz'; cbn.
    + rewrite lookup_insert_eq. split; [done|]. apply Hlive. by left.
    + destruct (Hnm q o' Hq Hz') as [H1 H2]. split; [|apply Hlive; by right].
      rewrite lookup_insert_ne; [done|]. intros E. by apply (Hfresh q o').
  - intros q q' o1 o2 [[<- <-]|[_ Hq]]%lookup_insert_Some
      [[<- <-]|[_ Hq']]%lookup_insert_Some Hqq Hz'; cbn in *; [done| | |by apply (Hinj q q')].
    + intros E. by apply (Hfresh q' o2).
    + intros E. by apply (Hfresh q o1).
Qed.

(** ** Properties *)

(** A registered type of 12-byte objects with one buffer for three objects at
    4096 and one buffer for two names at 8192; one object exists, unnamed. *)
Definition sample_type_ref (r : Z) : cl_object_type :=
  Otype 12 (Bkb 32 4192) {[ 4192 := Instance 0 0 (Bitmap [1] 3 1) 152 3 2 0 0 ]}
    (Bkb 64 8320) {[ 8320 := Instance 0 0 (Bitmap [0] 2 0) 172 2 2 0 0 ]}
    [4096] {[ 4096 := Obj 0 r ]} ∅ [].
Definition sample_type : cl_object_type := sample_type_ref 1.

Lemma singleton_bkb_wf ns a i :
  0 < ns -> a <> 0 -> pre i = 0 -> next i = 0 -> inst_ok ns a i -> bkb_wf (Bkb ns a) {[ a := i ]} [a].
Proof.
  intros Hns Ha Hp Hn Hi.
  assert (forall b j, ({[ a := i ]} : instances) !! b = Some j -> b = a /\ j = i) as Hinv.
  { intros b j [-> ->]%lookup_singleton_Some. done. }
  constructor; cbn.
  - done.
  - split_and!; [done|done|]. exists 0, 0, (node_count i). split; [|done].
    unfold shape. rewrite lookup_singleton_eq. cbn. by rewrite Hp, Hn.
  - apply NoDup_singleton.
  - intros b j [-> _]%Hinv. apply list_elem_of_here.
  - split.
    + by intros b j [-> ->]%Hinv.
    + by intros b c j k [-> _]%Hinv [-> _]%Hinv.
  - by intros j [_ ->]%Hinv.
Qed.

Lemma sample_type_ref_wf r : type_wf (sample_type_ref r) [4192] [8320].
Proof.
  assert (forall w m lb, 0 <= w < 4 -> 0 <= m <= 3 -> 0 <= lb < 4 -> bm_wf (Bitmap [w] m lb)) as Hbm.
  { intros w m lb Hw Hm Hlb. constructor; cbn; unfold words_ok, nbits, BITS_PER_LONG, is_word; cbn; try lia.
    repeat constructor; unfold is_word; lia. }
  assert (forall p, is_Some (objects (sample_type_ref r) !! p) <-> p = 4096) as Hobj.
  { intros p. cbn [objects sample_type_ref]. split.
    - intros [o [<- _]%lookup_singleton_Some]. done.
    - intros ->. by eexists. }
  constructor.
  - apply singleton_bkb_wf; try done. constructor; try done. apply Hbm; lia.
  - done.
  - apply singleton_bkb_wf; try done. constructor; try done. apply Hbm; lia.
  - done.
  - intros p. rewrite Hobj. split.
    + intros ->. exists 4192, (Instance 0 0 (Bitmap [1] 3 1) 152 3 2 0 0), 0.
      split_and!; try done.
    + intros (a & i & id & Ha & Hid & Hu & ->). cbn [obj_insts sample_type_ref] in Ha.
      apply lookup_singleton_Some in Ha as [<- <-]. cbn in Hid.
      assert (id = 0 \/ id = 1 \/ id = 2) as [-> | [-> | ->]] by lia; done.
  - intros p. rewrite Hobj. cbn. apply list_elem_of_singleton.
  - apply NoDup_singleton.
  - intros p o Hp. cbn [objects sample_type_ref] in Hp. by apply lookup_singleton_Some in Hp as [<- <-].
  - intros p q o o' Hp. cbn [objects sample_type_ref] in Hp. by apply lookup_singleton_Some in Hp as [<- <-].
Qed.

Lemma sample_type_wf : type_wf sample_type [4192] [8320].
Proof. apply sample_type_ref_wf. Qed.

Lemma live_pos ns h p : 0 < ns -> store_ok ns h -> live ns h p -> 0 < p.
Proof.
  intros Hns [Hst _] (a & i & id & Ha & Hid & _ & ->). pose proof (ok_area _ _ _ (Hst _ _ Ha)). nia.
Qed.

Lemma object_create_spec fuel mem m l nl space init :
  type_wf m l nl -> (forall x, is_word (mem x)) ->
  good_space fuel (obj_allocator m) (obj_insts m) space -> (S (length l) < fuel)%nat ->
  (forall f u, init = Some f -> f u = true) ->
  exists r m' l', cl_object_create fuel mem m space init = Ret (r, m') /\ type_wf m' l' nl /\
    (length l' <= S (length l))%nat /\
    ((r = 0 /\ objects m' = objects m /\ unname_objects m' = unname_objects m) \/
     (0 < TO_CL_OBJECT r /\ objects m !! TO_CL_OBJECT r = None /\
      objects m' = <[TO_CL_OBJECT r := Obj 0 0]> (objects m) /\
      unname_objects m' = unname_objects m ++ [TO_CL_OBJECT r])).
Proof.
  intros Hwf Hmem Hsp Hf Hinit. pose proof Hwf as [Ho Hs Hn Hsl Hlv Hli Hnd Hnm Hinj].
  unfold cl_object_create.
  destruct (alloc_extending_spec fuel mem _ _ l space 1 2 Ho Hmem Hsp Hf)
    as (p & bkb & h & l' & -> & Hwf' & Hns & Hl' & Hp). rewrite Hs in *. cbn [mbind run_bind].
  destruct Hp as [[-> Hlive]|(Hp & Hno & Hlive)].
  - cbn [Z.eqb]. do 2 eexists. exists l'. split; [done|]. split_and!; [|done|left; done].
    constructor; cbn; try done. intros q. by rewrite Hlive.
  - rewrite (proj2 (Z.eqb_neq p 0) Hp). cbn [size obj_allocator obj_insts name_allocator name_insts
      unname_objects objects names closed].
    assert (match init with Some f => f (TO_USER_OBJECT p) | None => true end = true) as ->
      by (destruct init; [by apply Hinit|done]).
    do 2 eexists. exists l'. split; [done|].
    assert (TO_CL_OBJECT (TO_USER_OBJECT p) = p) as -> by (unfold TO_CL_OBJECT, TO_USER_OBJECT; lia).
    split; [by apply (type_wf_add m l nl)|]. split; [done|]. right. split_and!; try done.
    + apply (live_pos (size m + SIZEOF_OBJECT) h).
      * rewrite <- Hns. by apply (bkb_ns _ _ _ Hwf').
      * rewrite <- Hns. by apply (bkb_store _ _ _ Hwf').
      * apply Hlive. by left.
    + destruct (objects m !! p) eqn:E; [|done]. destruct Hno. apply Hlv. by rewrite E.
Qed.

(** With an [init] that accepts, [cl_object_create] returns.  It returns
    NULL and changes no object when neither the allocator nor the space it is
    given has room; otherwise it returns a new object, whose header was not in
    use, with an empty name and counter 0, linked last in the type's list. *)
Theorem cl_object_create_correct fuel mem m l nl space init :
  type_wf m l nl -> (forall x, is_word (mem x)) ->
  good_space fuel (obj_allocator m) (obj_insts m) space -> (S (length l) < fuel)%nat ->
  (forall f u, init = Some f -> f u = true) ->
  exists r m' l', cl_object_create fuel mem m space init = Ret (r, m') /\ type_wf m' l' nl /\
    ((r = 0 /\ objects m' = objects m /\ unname_objects m' = unname_objects m) \/
     (0 < TO_CL_OBJECT r /\ objects m !! TO_CL_OBJECT r = None /\
      objects m' = <[TO_CL_OBJECT r := Obj 0 0]> (objects m) /\
      unname_objects m' = unname_objects m ++ [TO_CL_OBJECT r])).
Proof.
  intros Hwf Hmem Hsp Hf Hinit.
  destruct (object_create_spec fuel mem m l nl space init Hwf Hmem Hsp Hf Hinit)
    as (r & m' & l' & H1 & H2 & _ & H3). by exists r, m', l'.
Qed.

Lemma cl_object_create_witness :
  exists r m' l', cl_object_create 9 (fun _ => 0) sample_type None None = Ret (r, m') /\
    type_wf m' l' [8320] /\
    ((r = 0 /\ objects m' = objects sample_type /\ unname_objects m' = [4096]) \/
     (0 < TO_CL_OBJECT r /\ objects sample_type !! TO_CL_OBJECT r = None /\
      objects m' = <[TO_CL_OBJECT r := Obj 0 0]> (objects sample_type) /\
      unname_objects m' = [4096] ++ [TO_CL_OBJECT r])).
Proof.
  apply (cl_object_create_correct 9 (fun _ => 0) sample_type [4192] [8320] None None);
    [apply sample_type_wf|done|done|cbn; lia|done].
Defined.

(** When [init] rejects the object, the error path of [cl_object_create]
    passes the header where [cl_object_delete] expects the user pointer, and
    reads a header [SIZEOF_OBJECT] bytes below, which is not an object: the
    failed creation is never undone. *)
Theorem cl_object_create_init_failure fuel mem m l nl space f p bkb h :
  type_wf m l nl -> (forall x, is_word (mem x)) ->
  good_space fuel (obj_allocator m) (obj_insts m) space -> (S (length l) < fuel)%nat ->
  0 < size m ->
  alloc_extending fuel mem (obj_allocator m) (obj_insts m) space 1 2 = Ret (p, bkb, h) ->
  p <> 0 -> f (TO_USER_OBJECT p) = false ->
  cl_object_create fuel mem m space (Some f) = Fault.
Proof.
  intros Hwf Hmem Hsp Hf Hsz E Hp Hff. pose proof Hwf as [Ho Hs Hn Hsl Hlv Hli Hnd Hnm Hinj].
  destruct (alloc_extending_spec fuel mem _ _ l space 1 2 Ho Hmem Hsp Hf)
    as (p' & bkb' & h' & l' & E' & Hwf' & Hns & Hl' & Hp').
  rewrite E in E'. injection E' as <- <- <-. destruct Hp' as [[-> _]|(_ & Hno & Hlive)]; [done|].
  unfold cl_object_create. rewrite E. cbn [mbind run_bind].
  rewrite (proj2 (Z.eqb_neq p 0) Hp), Hff. unfold cl_object_delete. cbn [objects].
  assert (<[p := Obj 0 0]> (objects m) !! TO_CL_OBJECT p = None) as ->; [|done].
  unfold TO_CL_OBJECT. rewrite lookup_insert_ne by (unfold SIZEOF_OBJECT; lia).
  destruct (objects m !! _) eqn:Eq; [exfalso|done]. rewrite Hs in *.
  assert (live (size m + SIZEOF_OBJECT) h p) as L1 by (apply Hlive; by left).
  assert (live (size m + SIZEOF_OBJECT) h (p - SIZEOF_OBJECT)) as L2.
  { apply Hlive. right. apply Hlv. by rewrite Eq. }
  pose proof (bkb_store _ _ _ Hwf') as Hst. rewrite Hns in Hst.
  destruct (live_spaced (size m + SIZEOF_OBJECT) h p (p - SIZEOF_OBJECT)); try done;
    unfold SIZEOF_OBJECT in *; lia.
Qed.

Lemma cl_object_create_init_failure_witness :
  cl_object_create 9 (fun _ => 0) sample_type None (Some (fun _ => false)) = Fault.
Proof.
  eapply (cl_object_create_init_failure 9 (fun _ => 0) sample_type [4192] [8320] None (fun _ => false) 4128);
    [apply sample_type_wf|done|done|cbn; lia|cbn; lia|vm_compute; reflexivity|lia|done].
Defined.

(** [cl_object_close] takes one reference of the object.  While others
    remain the object stays with the counter one lower; when none remains the
    object is unlinked and its block goes back to the allocator, and no other
    object changes.  The type stays well-formed. *)
Theorem cl_object_close_correct fuel m l nl object o hc :
  type_wf m l nl -> (length l < fuel)%nat ->
  objects m !! TO_CL_OBJECT object = Some o -> -2147483648 < ref o < 2147483648 ->
  exists m', cl_object_close fuel m object hc = Ret m' /\ type_wf m' l nl /\
    closed m' = (if hc then closed m ++ [object] else closed m) /\
    objects m' = (if ref o <=? 1 then delete (TO_CL_OBJECT object) (objects m)
                  else <[TO_CL_OBJECT object := Obj (name o) (ref o - 1)]> (objects m)).
Proof. apply object_close_spec. Qed.

Lemma cl_object_close_witness :
  exists m', cl_object_close 9 sample_type 4116 true = Ret m' /\ type_wf m' [4192] [8320] /\
    closed m' = [] ++ [4116] /\
    objects m' = delete (TO_CL_OBJECT 4116) (objects sample_type).
Proof.
  apply (cl_object_close_correct 9 sample_type [4192] [8320] 4116 (Obj 0 1) true);
    [apply sample_type_wf|cbn; lia|reflexivity|cbn; lia].
Defined.

(** On a type with objects, [cl_object_search_name] returns the first
    object of the list with that name and takes a reference on it, or NULL
    when there is none.  On a type without objects the local [p] is never
    assigned: whatever nonzero value it holds is dereferenced. *)
Theorem cl_object_search_name_correct m l nl s p0 :
  type_wf m l nl ->
  (unname_objects m <> [] ->
   match first_named m (unname_objects m) s with
   | None => cl_object_search_name m p0 s = Some (0, m)
   | Some t => exists o m', objects m !! t = Some o /\ named m s t = true /\
       cl_object_search_name m p0 s = Some (TO_USER_OBJECT t, m') /\ type_wf m' l nl /\
       objects m' = <[t := Obj (name o) (to_int (ref o + 1))]> (objects m)
   end) /\
  (unname_objects m = [] -> p0 <> 0 -> cl_object_search_name m p0 s = None).
Proof.
  intros Hwf. pose proof (type_wf_search m l nl s p0 Hwf) as Hs.
  assert (forall t, TO_CL_OBJECT (TO_USER_OBJECT t) = t) as Hid
    by (intros; unfold TO_CL_OBJECT, TO_USER_OBJECT; lia).
  unfold cl_object_search_name. rewrite Hs. cbn [mbind option_bind]. split.
  - intros Hne. destruct (first_named m (unname_objects m) s) as [t|] eqn:E.
    + apply first_named_Some in E as [Hin Hn]. apply (tw_list _ _ _ Hwf) in Hin as [o Ho].
      exists o. destruct (add_ref_spec m l nl (TO_USER_OBJECT t) 1 o Hwf)
        as (m' & Hm' & Hwf' & Hob & _); [by rewrite Hid|].
      rewrite Hid in Hob. exists m'. unfold cl_object_inc_ref. rewrite Hm'.
      assert (t <> 0) as Ht.
      { assert (live (size m + SIZEOF_OBJECT) (obj_insts m) t) as (a & i & id & Ha & Hb & _ & ->)
          by (apply (tw_live _ _ _ Hwf); by rewrite Ho).
        destruct Hwf as [Hobj Hsz]. pose proof (bkb_ns _ _ _ Hobj) as Hpos. rewrite Hsz in Hpos.
        pose proof (ok_area _ _ _ (store_inst _ _ (bkb_store _ _ _ Hobj) _ _ Ha)) as Har.
        rewrite Hsz in Har. nia. }
      rewrite (proj2 (Z.eqb_neq t 0) Ht). done.
    + destruct (unname_objects m); done.
  - intros He Hp. rewrite He. cbn [first_named]. rewrite (proj2 (Z.eqb_neq p0 0) Hp).
    unfold cl_object_inc_ref, add_ref. rewrite Hid.
    destruct (objects m !! p0) as [o|] eqn:E; [|done].
    assert (p0 ∈ unname_objects m) as Hin by (apply (tw_list _ _ _ Hwf); by rewrite E).
    rewrite He in Hin. by apply not_elem_of_nil in Hin.
Qed.

Lemma cl_object_search_name_witness :
  (unname_objects sample_type <> [] ->
   match first_named sample_type (unname_objects sample_type) "init" with
   | None => cl_object_search_name sample_type 5 "init" = Some (0, sample_type)
   | Some t => exists o m', objects sample_type !! t = Some o /\ named sample_type "init" t = true /\
       cl_object_search_name sample_type 5 "init" = Some (TO_USER_OBJECT t, m') /\
       type_wf m' [4192] [8320] /\
       objects m' = <[t := Obj (name o) (to_int (ref o + 1))]> (objects sample_type)
   end) /\
  (unname_objects sample_type = [] -> 5 <> 0 -> cl_object_search_name sample_type 5 "init" = None).
Proof. apply (cl_object_search_name_correct sample_type). apply sample_type_wf. Defined.

(** [cl_object_set_name] refuses names of 63 bytes and more without
    touching anything; otherwise it stores the name in a slot no other object
    uses and the object then carries the name, the other objects keeping
    theirs; without memory for a slot it returns NULL and renames nothing. *)
Theorem cl_object_set_name_correct fuel mem m l nl who what space :
  type_wf m l nl -> (forall x, is_word (mem x)) ->
  good_space fuel (name_allocator m) (name_insts m) space -> (S (length nl) < fuel)%nat ->
  is_Some (objects m !! TO_CL_OBJECT who) ->
  exists r m' nl', cl_object_set_name fuel mem m who what space = Ret (r, m') /\
    type_wf m' l nl' /\
    (63 <= Z.of_nat (String.length what) -> r = 0 /\ m' = m) /\
    (r = 0 -> forall s q, named m' s q = named m s q) /\
    (r <> 0 -> cl_object_get_name m' who = Some r /\
       (forall s, named m' s (TO_CL_OBJECT who) = String.eqb what s) /\
       forall s q, q <> TO_CL_OBJECT who -> named m' s q = named m s q).
Proof.
  intros Hwf Hmem Hsp Hf [o Hp]. pose proof Hwf as [Ho Hs Hn Hsl Hlv Hli Hnd Hnm Hinj].
  unfold cl_object_set_name, cl_object_get_name. set (p := TO_CL_OBJECT who) in *.
  change CL_OBJECT_NAME_SLOTE_LENGTH with 64 in *.
  destruct (Z.leb_spec 64 (Z.of_nat (String.length what) + 1)) as [Hlen|Hlen].
  { do 2 eexists. exists nl. split_and!; try done. }
  rewrite Hp. cbn [lift mbind run_bind].
  destruct (alloc_extending_spec fuel mem _ _ nl space 1 2 Hn Hmem Hsp Hf)
    as (slot & bkb & h & nl' & -> & Hwf' & Hns & Hl' & Hslot). rewrite Hsl in *. cbn [mbind run_bind].
  destruct Hslot as [[-> Hlive]|(Hslot & Hno & Hlive)].
  - cbn [Z.eqb]. do 2 eexists. exists nl'. split; [done|]. split_and!; try done; try lia.
    constructor; cbn; try done. intros q o' Hq Hz. destruct (Hnm q o' Hq Hz). split; [done|].
    by apply Hlive.
  - rewrite (proj2 (Z.eqb_neq slot 0) Hslot). cbn [size obj_allocator obj_insts name_allocator
      name_insts unname_objects objects names closed].
    do 2 eexists. exists nl'. split; [done|].
    split; [by apply (type_wf_rename m l nl p o slot what bkb h nl')|].
    split_and!; try done; try lia. intros _. cbn. split_and!.
    + by rewrite lookup_insert_eq.
    + intros s. unfold named. cbn. rewrite lookup_insert_eq. cbn.
      by rewrite (proj2 (Z.eqb_neq slot 0) Hslot), lookup_insert_eq.
    + intros s q Hq. unfold named. cbn. rewrite lookup_insert_ne by done.
      destruct (objects m !! q) as [o'|] eqn:E; [|done].
      destruct (Z.eqb_spec (name o') 0) as [|Hz]; [done|]. cbn [negb andb].
      rewrite lookup_insert_ne; [done|]. intros Eq. destruct Hno. rewrite Eq.
      by apply (Hnm q o').
Qed.

Lemma cl_object_set_name_witness :
  exists r m' nl', cl_object_set_name 9 (fun _ => 0) sample_type 4116 "init" None = Ret (r, m') /\
    type_wf m' [4192] nl' /\
    (63 <= Z.of_nat (String.length "init") -> r = 0 /\ m' = sample_type) /\
    (r = 0 -> forall s q, named m' s q = named sample_type s q) /\
    (r <> 0 -> cl_object_get_name m' 4116 = Some r /\
       (forall s, named m' s (TO_CL_OBJECT 4116) = String.eqb "init" s) /\
       forall s q, q <> TO_CL_OBJECT 4116 -> named m' s q = named sample_type s q).
Proof.
  apply (cl_object_set_name_correct 9 (fun _ => 0) sample_type [4192] [8320] 4116 "init" None);
    [apply sample_type_wf|done|done|cbn; lia|by eexists].
Defined.
