(* ===== verification/Handle.v ===== *)
(** * Process handle tables

    [source/kernel/handle.c]: a process has a handle table under a spin lock;
    handles are the indices of the table and refer to kernel objects whose
    reference counters count the handles and the translations in progress.
    The kernel uses the table through the operations of [i2p.c]; what it relies
    on is the class [IndexTable], which the model of [i2p.c] implements.
    A spin lock that is already held is never released in a sequential run,
    so that waiting for it is the outcome [NoFuel]. *)

From stdpp Require Import gmap strings.
From S2P Require Import Prelude Bits Bitmap BlkBuf I2p Object.
Import I2pOps ObjectOps.

(** ** What a handle table promises *)

Class IndexTable (T : Type) := {
  tbl_create : Z -> Z -> option (option T);     (* the two allocations it makes *)
  tbl_delete : T -> Z -> list Z;
  tbl_alloc : T -> Z -> Z -> option (Z * T);
  tbl_dealloc : T -> Z -> option (bool * T);
  tbl_find : T -> Z -> option Z;
  tbl_loop : T -> option (list Z * Z);
  tbl_wf : T -> Prop;
  tbl_room : T -> Prop;                         (* the index type is not exhausted *)
  tbl_entry : T -> Z -> option Z;
  tbl_full : T -> Prop;                         (* every index is taken *)
  tbl_alloc_law : forall t ptr p, tbl_wf t -> tbl_room t ->
    exists r t', tbl_alloc t ptr p = Some (r, t') /\ tbl_wf t' /\
      ((r = COMMON_I2P_ALLOC_ERROR /\ t' = t /\ p = 0 /\ tbl_full t) \/
       (0 <= r < COMMON_I2P_ALLOC_ERROR /\ tbl_entry t r = None /\
        forall j, tbl_entry t' j = if j =? r then Some ptr else tbl_entry t j));
  tbl_dealloc_law : forall t i, tbl_wf t -> 0 <= i ->
    exists b t', tbl_dealloc t i = Some (b, t') /\ tbl_wf t' /\
      (b = true <-> is_Some (tbl_entry t i)) /\
      forall j, tbl_entry t' j = if j =? i then None else tbl_entry t j;
  tbl_find_law : forall t i, tbl_wf t -> 0 <= i -> tbl_find t i = Some (default 0 (tbl_entry t i))
}.

#[export] Instance i2p_table : IndexTable i2p.
Proof.
  refine {|
    tbl_create := fun a b => fst <$> i2p_create a b;
    tbl_delete := i2p_delete;
    tbl_alloc := i2p_alloc;
    tbl_dealloc := fun t i => fst <$> i2p_dealloc t i;
    tbl_find := i2p_find;
    tbl_loop := i2p_loop;
    tbl_wf := i2p_wf;
    tbl_room := fun t => total_index t + 1024 < 2147483648;
    tbl_entry := entry;
    tbl_full := fun t => forall j, 0 <= j < total_index t -> is_Some (entry t j)
  |}.
  - intros t ptr p Hwf Hr. destruct (i2p_alloc_spec t ptr p Hwf Hr)
      as (r & t' & E & Hwf' & [(-> & -> & Hp & Hfull)|(Hb & Hn & _ & He)]);
      do 2 eexists; (split_and!; [done|done|]); [by left|right].
    split_and!; try done; [lia|]. pose proof (iw_int _ Hwf').
    unfold COMMON_I2P_ALLOC_ERROR, ULONG_MAX. lia.
  - intros t i Hwf Hi. destruct (i2p_dealloc_spec t i Hwf Hi) as (b & t' & fr & -> & Hwf' & Hb & He & _).
    by exists b, t'.
  - intros t i Hwf Hi. by apply i2p_find_spec.
Defined.

Definition KE_INVALID_HANDLE : Z := ULONG_MAX.

Section Handles.
Context {T : Type} `{IndexTable T}.

Record ko_process := Proc {
  handle_table : option T;      (* void *handle_table, None for NULL *)
  handle_lock : bool            (* held or not *)
}.

(** ** The operations of [handle.c]; [on] is the process, [m] the objects. *)

Definition get_handle_table (on : ko_process) : run (option T * ko_process) :=
  if handle_lock on then NoFuel
  else Ret (handle_table on, Proc (handle_table on) true).

Definition put_handle_table (on : ko_process) : ko_process := Proc (handle_table on) false.

(** A call of a table operation: the table pointer is dereferenced. *)
Definition with_table (on : ko_process) : run T := lift (handle_table on).

Definition set_table (on : ko_process) (t : T) : ko_process := Proc (Some t) (handle_lock on).

(** [p] is what [handle_space_alloc] returns if the table has to grow. *)
Definition ke_handle_create (on : ko_process) (m : cl_object_type) (kobject p : Z)
  : run (Z * ko_process * cl_object_type) :=
  '(tb, on) ← get_handle_table on;
  match tb with
  | None => Ret (KE_INVALID_HANDLE, on, m)
  | Some t =>
    '(h, t) ← lift (tbl_alloc t kobject p);
    let on := set_table on t in
    if h =? COMMON_I2P_ALLOC_ERROR then Ret (KE_INVALID_HANDLE, put_handle_table on, m)
    else m ← lift (cl_object_inc_ref m kobject); Ret (h, put_handle_table on, m)
  end.

Definition ke_handle_delete (on : ko_process) (handle : Z) : run (bool * ko_process) :=
  '(_, on) ← get_handle_table on;
  t ← with_table on;
  '(r, t) ← lift (tbl_dealloc t handle);
  Ret (r, put_handle_table (set_table on t)).

Definition ke_handle_translate (on : ko_process) (m : cl_object_type) (handle : Z)
  : run (Z * ko_process * cl_object_type) :=
  '(_, on) ← get_handle_table on;
  t ← with_table on;
  kobject ← lift (tbl_find t handle);
  m ← (if kobject =? 0 then Ret m else lift (cl_object_inc_ref m kobject));
  Ret (kobject, put_handle_table on, m).

Definition ke_handle_put (m : cl_object_type) (kobject : Z) : option cl_object_type :=
  cl_object_dec_ref m kobject.

(** [ke_panic] is a [Fault]. *)
Definition ke_handle_and_object_destory (fuel : nat) (on : ko_process) (m : cl_object_type)
    (handle kobject : Z) (has_close : bool) : run (ko_process * cl_object_type) :=
  c ← lift (cl_object_get_ref_counter m kobject);
  if c <? 2 then Fault else
  m ← lift (ke_handle_put m kobject);
  '(_, on) ← ke_handle_delete on handle;
  m ← cl_object_close fuel m kobject has_close;
  Ret (on, m).

Definition ke_handle_create_on_specific (on : ko_process) (kobject p : Z) : run (Z * ko_process) :=
  '(_, on) ← get_handle_table on;
  t ← with_table on;
  '(h, t) ← lift (tbl_alloc t kobject p);
  Ret (h, put_handle_table (set_table on t)).

Definition ke_handle_translate_no_lock (on : ko_process) (handle : Z) : run Z :=
  t ← with_table on; lift (tbl_find t handle).

(** The handles passed to [action] in order, and the result. *)
Definition ke_handle_loop (on : ko_process) : run (list Z * Z * ko_process) :=
  '(tb, on) ← get_handle_table on;
  match tb with
  | None => Ret ([], 0, put_handle_table on)
  | Some t => '(acts, count) ← lift (tbl_loop t); Ret (acts, count, put_handle_table on)
  end.

Definition ke_handle_init (on : ko_process) (p q : Z) : run (bool * ko_process) :=
  t ← lift (tbl_create p q);
  Ret (match t with Some _ => true | None => false end, Proc t (handle_lock on)).

Definition ke_handle_deinit (on : ko_process) (head : Z) : ko_process * list Z :=
  match handle_table on with
  | Some t => (Proc None (handle_lock on), tbl_delete t head)
  | None => (on, [])
  end.

(** ** Properties *)

(** C9: for a process with a table and an object of the kernel,
    [ke_handle_create] releases the lock and either fails, because every index
    of the table is taken and there is no memory for more, leaving table and
    objects alone, or returns a handle that was free, adds exactly that entry
    and one reference; [ke_handle_translate] of the new handle then returns
    the object with a further reference. *)
Theorem handle_create_translate t m l nl kobject o p :
  tbl_wf t -> tbl_room t -> type_wf m l nl -> kobject <> 0 ->
  objects m !! TO_CL_OBJECT kobject = Some o -> 0 <= ref o < 2147483600 ->
  exists h on' m' t', ke_handle_create (Proc (Some t) false) m kobject p = Ret (h, on', m') /\
    on' = Proc (Some t') false /\ tbl_wf t' /\ type_wf m' l nl /\
    ((h = KE_INVALID_HANDLE /\ t' = t /\ m' = m /\ p = 0 /\ tbl_full t) \/
     (h <> KE_INVALID_HANDLE /\ tbl_entry t h = None /\
      (forall j, tbl_entry t' j = if j =? h then Some kobject else tbl_entry t j) /\
      objects m' = <[TO_CL_OBJECT kobject := Obj (name o) (ref o + 1)]> (objects m) /\
      exists m'', ke_handle_translate on' m' h = Ret (kobject, on', m'') /\ type_wf m'' l nl /\
        objects m'' = <[TO_CL_OBJECT kobject := Obj (name o) (ref o + 2)]> (objects m))).
Proof.
  intros Ht Hr Hm Hk Ho Hro. unfold ke_handle_create. cbn [get_handle_table handle_lock mbind run_bind handle_table].
  destruct (tbl_alloc_law t kobject p Ht Hr) as (h & t' & -> & Ht' & Hh). cbn [lift mbind run_bind].
  destruct Hh as [(-> & -> & Hp & Hfull)|(Hh & Hno & He)].
  { cbn. do 4 eexists. split; [done|]. split_and!; try done. by left. }
  rewrite (proj2 (Z.eqb_neq h _)) by lia.
  destruct (add_ref_spec m l nl kobject 1 o Hm Ho) as (m' & Hadd & Hm' & Hob & _).
  unfold cl_object_inc_ref. rewrite Hadd. cbn [lift mbind run_bind]. rewrite to_int_id in Hob by lia.
  destruct (add_ref_spec m' l nl kobject 1 (Obj (name o) (ref o + 1)) Hm')
    as (m'' & Hadd' & Hm'' & Hob' & _); [by rewrite Hob, lookup_insert_eq|].
  cbn [name ref] in Hob'. rewrite to_int_id, Hob, insert_insert_eq in Hob' by lia.
  exists h, (Proc (Some t') false), m', t'. split_and!; try done. right.
  split_and!; try done; [unfold KE_INVALID_HANDLE, COMMON_I2P_ALLOC_ERROR in *; lia|].
  exists m''. unfold ke_handle_translate. cbn [get_handle_table handle_lock mbind run_bind with_table handle_table lift].
  rewrite (tbl_find_law t' h Ht'), He, Z.eqb_refl by lia.
  cbn [lift default from_option id mbind run_bind].
  rewrite (proj2 (Z.eqb_neq kobject 0) Hk). unfold cl_object_inc_ref. rewrite Hadd'.
  cbn [lift mbind run_bind]. split_and!; try done. by replace (ref o + 2) with (ref o + 1 + 1) by lia.
Qed.

(** [ke_handle_and_object_destory] on a translated handle panics when the
    counter is below 2; otherwise it removes exactly that handle, gives back
    both references (the handle's and the translation's), deletes the object
    when they were the last ones, and leaves the lock free. *)
Theorem handle_destroy_correct fuel t m l nl h kobject o hc :
  tbl_wf t -> type_wf m l nl -> (length l < fuel)%nat -> 0 <= h ->
  objects m !! TO_CL_OBJECT kobject = Some o -> -2147483600 < ref o < 2147483600 ->
  (ref o < 2 ->
     ke_handle_and_object_destory fuel (Proc (Some t) false) m h kobject hc = Fault) /\
  (2 <= ref o -> exists t' m',
     ke_handle_and_object_destory fuel (Proc (Some t) false) m h kobject hc
       = Ret (Proc (Some t') false, m') /\
     tbl_wf t' /\ type_wf m' l nl /\
     (forall j, tbl_entry t' j = if j =? h then None else tbl_entry t j) /\
     objects m' = (if ref o =? 2 then delete (TO_CL_OBJECT kobject) (objects m)
                   else <[TO_CL_OBJECT kobject := Obj (name o) (ref o - 2)]> (objects m))).
Proof.
  intros Ht Hm Hf Hh Ho Hro. unfold ke_handle_and_object_destory, cl_object_get_ref_counter.
  rewrite Ho. cbn [fmap option_fmap option_map lift mbind run_bind]. split; intros Hr.
  { by rewrite (proj2 (Z.ltb_lt _ _) Hr). }
  rewrite (proj2 (Z.ltb_ge _ _) Hr). unfold ke_handle_put, cl_object_dec_ref.
  destruct (add_ref_spec m l nl kobject (-1) o Hm Ho) as (m1 & -> & Hm1 & Hob & _).
  cbn [lift mbind run_bind]. rewrite to_int_id in Hob by lia.
  unfold ke_handle_delete. cbn [get_handle_table handle_lock mbind run_bind with_table handle_table lift].
  destruct (tbl_dealloc_law t h Ht Hh) as (b & t' & -> & Ht' & _ & He). cbn [lift mbind run_bind].
  destruct (object_close_spec fuel m1 l nl kobject (Obj (name o) (ref o + -1)) hc Hm1 Hf)
    as (m2 & -> & Hm2 & _ & Hob2); [by rewrite Hob, lookup_insert_eq|cbn; lia|].
  cbn [mbind run_bind name ref] in *. exists t', m2. split_and!; try done.
  rewrite Hob2, Hob. destruct (Z.leb_spec (ref o + -1) 1), (Z.eqb_spec (ref o) 2); try lia.
  - by rewrite delete_insert_eq.
  - rewrite insert_insert_eq. by replace (ref o + -1 - 1) with (ref o - 2) by lia.
Qed.

(** [ke_handle_create] in a process whose handle table is NULL returns
    with the table's lock still held, and from then on every operation that
    takes the lock waits forever. *)
Theorem handle_create_leaks_lock m kobject p :
  exists on', ke_handle_create (Proc None false) m kobject p = Ret (KE_INVALID_HANDLE, on', m) /\
    handle_lock on' = true /\
    (forall k q, ke_handle_create on' m k q = NoFuel) /\
    (forall h, ke_handle_delete on' h = NoFuel) /\
    (forall h, ke_handle_translate on' m h = NoFuel) /\
    (forall k q, ke_handle_create_on_specific on' k q = NoFuel) /\
    ke_handle_loop on' = NoFuel.
Proof. by eexists. Qed.

End Handles.
Arguments ko_process T : clear implicits.

Lemma handle_create_translate_witness :
  exists h on' m' t', ke_handle_create (Proc (Some sample_i2p) false) sample_type 4116 0
      = Ret (h, on', m') /\
    on' = Proc (Some t') false /\ tbl_wf t' /\ type_wf m' [4192] [8320] /\
    ((h = KE_INVALID_HANDLE /\ t' = sample_i2p /\ m' = sample_type /\ 0 = 0 /\ tbl_full sample_i2p) \/
     (h <> KE_INVALID_HANDLE /\ tbl_entry sample_i2p h = None /\
      (forall j, tbl_entry t' j = if j =? h then Some 4116 else tbl_entry sample_i2p j) /\
      objects m' = <[TO_CL_OBJECT 4116 := Obj 0 (1 + 1)]> (objects sample_type) /\
      exists m'', ke_handle_translate on' m' h = Ret (4116, on', m'') /\ type_wf m'' [4192] [8320] /\
        objects m'' = <[TO_CL_OBJECT 4116 := Obj 0 (1 + 2)]> (objects sample_type))).
Proof.
  apply (handle_create_translate sample_i2p sample_type [4192] [8320] 4116 (Obj 0 1) 0);
    [apply sample_i2p_wf|vm_compute; reflexivity|apply sample_type_wf|lia|reflexivity|cbn; lia].
Defined.

Lemma handle_destroy_witness :
  (3 < 2 -> ke_handle_and_object_destory 9 (Proc (Some sample_i2p) false) (sample_type_ref 3) 1 4116 true
     = Fault) /\
  (2 <= 3 -> exists t' m',
     ke_handle_and_object_destory 9 (Proc (Some sample_i2p) false) (sample_type_ref 3) 1 4116 true
       = Ret (Proc (Some t') false, m') /\
     tbl_wf t' /\ type_wf m' [4192] [8320] /\
     (forall j, tbl_entry t' j = if j =? 1 then None else tbl_entry sample_i2p j) /\
     objects m' = <[TO_CL_OBJECT 4116 := Obj 0 (3 - 2)]> (objects (sample_type_ref 3))).
Proof.
  apply (handle_destroy_correct 9 sample_i2p (sample_type_ref 3) [4192] [8320] 1 4116 (Obj 0 3) true);
    [apply sample_i2p_wf|apply sample_type_ref_wf|cbn; lia|lia|reflexivity|cbn; lia].
Defined.
