(* ===== verification/Sched.v ===== *)
(** * The scheduler: run queues, sleep and wake-up

    [source/kernel/process/sched.c] and [sleep.c], with the state they work on
    ([struct ko_thread] of [include/thread.h], [struct kc_cpu] of
    [include/cpu.h]).  There is one CPU ([kac_get] returns [tmp_boot_cpu]) and
    the operations run with interrupts disabled, so each of them is one step.
    A thread is named by its address; the list node [queue_list] of a thread is
    linked exactly when the address occurs in a run queue.  [None] stands for
    [ke_panic] and for the use of a queue head as if it were a thread. *)

From stdpp Require Import gmap.
From S2P Require Import Prelude Bits.
Import BitOps.

Definition KT_PRIORITY_COUNT : Z := BITS_PER_LONG.
Definition KT_STATE_RUNNING : Z := 1.
Definition KT_STATE_WAITING_SYNC : Z := 2.
Definition KT_STATE_WAITING_MSG : Z := 3.
Definition KT_STATE_KILLING : Z := 4.
Definition KT_STATE_MASK : Z := 65535.
Definition KT_STATE_ADD_FORCE_BY_SYSTEM : Z := 131072.    (* 1 << 17 *)
Definition KT_STATE_ADD_DIEING : Z := 262144.             (* 1 << 18 *)
Definition KT_STATE_ADD_NO_SWITCHING : Z := 1048576.      (* 1 << 20 *)

Record ko_thread := Thread {
  process : Z;
  desc_of_driver : Z;
  state : Z;                (* unsigned long *)
  priority_level : Z;       (* unsigned char *)
  wakeup_count : Z          (* unsigned int *)
}.

Record kc_cpu := Cpu {
  cur : Z;
  run_queue : list (list Z);    (* KT_PRIORITY_COUNT queues *)
  run_count : list Z;           (* unsigned int [KT_PRIORITY_COUNT] *)
  driver_thread : Z;
  run_mask : Z;                 (* unsigned long *)
  running_count : Z             (* unsigned long *)
}.

Record kernel := Kernel { cpu : kc_cpu; threads : gmap Z ko_thread }.

Module SchedOps.

Definition KT_STATUS_BASE (th : ko_thread) : Z := Z.land (state th) KT_STATE_MASK.
Definition KT_THREAD_KILLING (th : ko_thread) : bool := KT_STATUS_BASE th =? KT_STATE_KILLING.

Definition has_flag (x flag : Z) : bool := negb (Z.land x flag =? 0).

Definition set_cur (c : kc_cpu) (t : Z) : kc_cpu :=
  Cpu t (run_queue c) (run_count c) (driver_thread c) (run_mask c) (running_count c).
Definition set_state (th : ko_thread) (s : Z) : ko_thread :=
  Thread (process th) (desc_of_driver th) s (priority_level th) (wakeup_count th).
Definition set_wakeup_count (th : ko_thread) (n : Z) : ko_thread :=
  Thread (process th) (desc_of_driver th) (state th) (priority_level th) n.

Definition list_rotate_left (q : list Z) : list Z :=
  match q with [] => [] | x :: q => q ++ [x] end.

Definition select_in_queue (c : kc_cpu) : option (Z * kc_cpu) :=
  if run_mask c =? 0 then None else
  let b := __ffs (run_mask c) in
  q ← word_at (run_queue c) b;
  let q := list_rotate_left q in
  rq ← word_set (run_queue c) b q;
  next ← head q;
  Some (next, Cpu (cur c) rq (run_count c) (driver_thread c) (run_mask c) (running_count c)).

(** What [km_arch_ctx_switch] and [kt_arch_switch] are called with. *)
Record switched := Switch { sw_prev : Z; sw_next : Z; sw_space : bool }.

Definition __schedule (k : kernel) : option (option switched * kernel) :=
  let prev := cur (cpu k) in
  '(next, c) ← select_in_queue (cpu k);
  if next =? prev then Some (None, Kernel c (threads k)) else
  tn ← threads k !! next;
  tp ← threads k !! prev;
  Some (Some (Switch prev next (negb (process tn =? process tp))),
        Kernel (set_cur c next) (threads k)).

Definition kt_schedule (k : kernel) := __schedule k.
Definition kt_switch (k : kernel) := kt_schedule k.

Definition kt_schedule_running_count (k : kernel) : Z := to_int (running_count (cpu k)) - 1.

Definition kt_schedule_driver (k : kernel) : option switched * kernel :=
  if driver_thread (cpu k) =? 0 then (None, k)
  else (Some (Switch (cur (cpu k)) (driver_thread (cpu k)) false),
        Kernel (set_cur (cpu k) (driver_thread (cpu k))) (threads k)).

(** [preempt]: whether [hal_preempt_count() & PREEMPT_MASK] is nonzero. *)
Definition kt_sched_tick (preempt : bool) (k : kernel) : option (option switched * kernel) :=
  if preempt then Some (None, k) else
  th ← threads k !! cur (cpu k);
  if negb (desc_of_driver th =? 0) then Some (None, k) else __schedule k.

(** [list_del_init(&who->queue_list)] *)
Definition unlink (who : Z) (rq : list (list Z)) : list (list Z) :=
  map (filter (fun t => t <> who)) rq.

Definition linked (who : Z) (rq : list (list Z)) : bool :=
  existsb (existsb (Z.eqb who)) rq.

(** Take [who] out of the run queue of its priority ("really suspend"). *)
Definition dequeue (c : kc_cpu) (who prio : Z) : option kc_cpu :=
  n ← word_at (run_count c) prio;
  let n := (n -w 1)%C in
  rc ← word_set (run_count c) prio n;
  mask ← (if n =? 0 then m ← __clear_bit prio [run_mask c]; head m else Some (run_mask c));
  Some (Cpu (cur c) (unlink who (run_queue c)) rc (driver_thread c) mask
          (running_count c -w 1)%C).

(** [state &= ~KT_STATE_MASK; state |= s] *)
Definition new_state (old s : Z) : Z := Z.lor (Z.land old (w_not KT_STATE_MASK)) s.

(** [kt_sleep] of the current thread up to the switch; the first component is
    its result (whether the thread is suspended). *)
Definition kt_sleep (stat : Z) (k : kernel) : option (bool * option switched * kernel) :=
  let who := cur (cpu k) in
  th ← threads k !! who;
  let sched := fun k : kernel =>
    if has_flag stat KT_STATE_ADD_NO_SWITCHING then Some (true, None, k)
    else '(s, k) ← kt_schedule k; Some (true, s, k) in
  if KT_STATUS_BASE th =? KT_STATE_RUNNING then
    if negb (has_flag stat KT_STATE_ADD_FORCE_BY_SYSTEM) && negb (wakeup_count th =? 0)
    then Some (false, None, Kernel (cpu k) (<[who := set_wakeup_count th 0]> (threads k)))
    else
      let st := if has_flag stat KT_STATE_ADD_FORCE_BY_SYSTEM
                then Z.lor (state th) KT_STATE_ADD_FORCE_BY_SYSTEM else state th in
      c ← dequeue (cpu k) who (priority_level th);
      sched (Kernel c (<[who := set_state th (new_state st (Z.land stat KT_STATE_MASK))]> (threads k)))
  else
    sched (Kernel (cpu k)
             (<[who := set_state th (new_state (state th) (Z.land stat KT_STATE_MASK))]> (threads k))).

Definition kt_wakeup_driver (who : Z) (k : kernel) : option kernel :=
  th ← threads k !! who;
  if desc_of_driver th =? 0 then None
  else if linked who (run_queue (cpu k)) then None
  else
    let c := cpu k in
    Some (Kernel (Cpu (cur c) (run_queue c) (run_count c) who (run_mask c) (running_count c))
            (<[who := set_state th (new_state (state th) KT_STATE_RUNNING)]> (threads k))).

(** Put [who] at the tail of the run queue of its priority. *)
Definition enqueue (c : kc_cpu) (who prio : Z) : option kc_cpu :=
  q ← word_at (run_queue c) prio;
  rq ← word_set (run_queue c) prio (q ++ [who]);
  m ← __set_bit prio [run_mask c];
  mask ← head m;
  n ← word_at (run_count c) prio;
  rc ← word_set (run_count c) prio (n +w 1)%C;
  Some (Cpu (cur c) rq rc (driver_thread c) mask (running_count c +w 1)%C).

Definition kt_wakeup (who : Z) (k : kernel) : option kernel :=
  th ← threads k !! who;
  if negb (KT_STATUS_BASE th =? KT_STATE_RUNNING) then
    if has_flag KT_STATE_ADD_FORCE_BY_SYSTEM (state th) then Some k
    else if has_flag KT_STATE_ADD_DIEING (state th) then None
    else if linked who (run_queue (cpu k)) then None
    else
      c ← enqueue (cpu k) who (priority_level th);
      Some (Kernel c (<[who := set_state th (new_state (state th) KT_STATE_RUNNING)]> (threads k)))
  else Some (Kernel (cpu k) (<[who := set_wakeup_count th (wakeup_count th +w 1)%C]> (threads k))).

(** The queues of [init_a_cpu]; [dummy] is the thread the CPU starts on. *)
Definition init_a_cpu (dummy : Z) : kc_cpu :=
  Cpu dummy (replicate 32 []) (replicate 32 0) 0 0 0.

End SchedOps.
Import SchedOps.

(** ** Well-formed schedulers *)

Definition running (th : ko_thread) : Prop := KT_STATUS_BASE th = KT_STATE_RUNNING.

(** The threads in the run queues, queue by queue. *)
Definition queued (c : kc_cpu) : list Z := concat (run_queue c).

Definition qlen (q : list Z) : Z := Z.of_nat (length q).

Record cpu_wf (c : kc_cpu) : Prop := {
  cw_len : length (run_queue c) = 32%nat;
  cw_count : run_count c = map qlen (run_queue c);
  cw_mask : is_word (run_mask c);
  cw_bits : forall p q, word_at (run_queue c) p = Some q ->
              (Z.testbit (run_mask c) p = true <-> q <> []);
  cw_total : running_count c = qlen (queued c);
  cw_nodup : NoDup (queued c)
}.

Record sched_wf (k : kernel) : Prop := {
  sw_cpu : cpu_wf (cpu k);
  sw_queued : forall p q t, word_at (run_queue (cpu k)) p = Some q -> t ∈ q ->
                exists th, threads k !! t = Some th /\ priority_level th = p /\ running th;
  sw_running : forall t th, threads k !! t = Some th -> running th -> desc_of_driver th = 0 ->
                 t ∈ queued (cpu k);
  sw_threads : forall t th, threads k !! t = Some th ->
                 0 <= priority_level th < 32 /\ is_word (state th) /\ is_word (wakeup_count th);
  sw_small : Z.of_nat (size (threads k)) < 2147483648
}.

(** ** Lists of queues *)

Lemma word_at_split {A} (l : list A) p x :
  word_at l p = Some x -> exists a b, l = a ++ x :: b /\ p = Z.of_nat (length a).
Proof.
  intros H. pose proof (word_at_bound _ _ _ H). unfold word_at in H.
  rewrite (proj2 (Z.leb_le 0 p)) in H by lia.
  apply list_elem_of_split_length in H as (a & b & -> & E).
  exists a, b. split; [done|]. lia.
Qed.

Lemma word_at_mid {A} (a b : list A) x y j :
  word_at (a ++ y :: b) j
  = if j =? Z.of_nat (length a) then Some y else word_at (a ++ x :: b) j.
Proof.
  unfold word_at. destruct (Z.leb_spec 0 j); [|by destruct (Z.eqb_spec j (Z.of_nat (length a))); [lia|]].
  destruct (Z.eqb_spec j (Z.of_nat (length a))) as [->|Hj].
  - rewrite Nat2Z.id. by apply list_lookup_middle.
  - destruct (Nat.lt_ge_cases (Z.to_nat j) (length a)).
    + by rewrite !lookup_app_l by done.
    + rewrite !lookup_app_r by done. destruct (Z.to_nat j - length a)%nat eqn:E; [lia|done].
Qed.

Lemma word_set_mid {A} (a b : list A) x y :
  word_set (a ++ x :: b) (Z.of_nat (length a)) y = Some (a ++ y :: b).
Proof.
  rewrite word_at_set by (rewrite length_app; cbn; lia). f_equal.
  rewrite Nat2Z.id. replace (length a) with (length a + 0)%nat by lia.
  rewrite insert_app_r. done.
Qed.

Lemma elem_of_queues (rq : list (list Z)) t :
  t ∈ concat rq <-> exists p q, word_at rq p = Some q /\ t ∈ q.
Proof.
  rewrite list_elem_of_In, in_concat. split.
  - intros (q & Hq%list_elem_of_In & Ht%list_elem_of_In).
    apply list_elem_of_lookup in Hq as [i Hi]. exists (Z.of_nat i), q. split; [|done].
    unfold word_at. by rewrite (proj2 (Z.leb_le 0 _)), Nat2Z.id by lia.
  - intros (p & q & Hq & Ht). exists q. split; apply list_elem_of_In; [|done].
    apply word_at_split in Hq as (a & b & -> & _). apply elem_of_app. right. apply list_elem_of_here.
Qed.

Lemma linked_elem who rq : linked who rq = true <-> who ∈ concat rq.
Proof.
  unfold linked. rewrite existsb_exists, list_elem_of_In, in_concat. split.
  - intros (q & Hq & Hw). apply existsb_exists in Hw as (x & Hx & E). zbool. subst x. by exists q.
  - intros (q & Hq & Hw). exists q. split; [done|]. apply existsb_exists.
    exists who. split; [done|apply Z.eqb_refl].
Qed.

(** The place of a queued thread. *)
Lemma queued_split (rq : list (list Z)) p q t :
  NoDup (concat rq) -> word_at rq p = Some q -> t ∈ q ->
  exists a b q1 q2, rq = a ++ (q1 ++ t :: q2) :: b /\ p = Z.of_nat (length a) /\
    q = q1 ++ t :: q2 /\ unlink t rq = a ++ (q1 ++ q2) :: b.
Proof.
  intros Hnd Hp Ht. apply word_at_split in Hp as (a & b & -> & ->).
  apply list_elem_of_split in Ht as (q1 & q2 & ->). exists a, b, q1, q2. split_and!; try done.
  rewrite concat_app, concat_cons in Hnd. unfold unlink.
  rewrite map_app, map_cons.
  assert (forall l, t ∉ concat l -> map (filter (fun x => x <> t)) l = l) as Hid.
  { intros l Hl. rewrite <- (map_id l) at 2. apply map_ext_in. intros q Hq.
    apply filter_absent. intros Hx. apply Hl, list_elem_of_In, in_concat.
    exists q. split; [done|]. by apply list_elem_of_In. }
  apply NoDup_app in Hnd as (_ & Ha & Hnd). apply NoDup_app in Hnd as (Hq & Hb & _).
  apply NoDup_app in Hq as (_ & Hq1 & Hq2). apply NoDup_cons in Hq2 as [Hq2 _].
  assert (t ∈ q1 ++ t :: q2) as Hin by (apply elem_of_app; right; apply list_elem_of_here).
  rewrite !Hid.
  - rewrite filter_app, filter_cons, decide_False by auto.
    rewrite !filter_absent; [done|done|]. intros H. apply (Hq1 t H), list_elem_of_here.
  - intros H. apply (Hb t Hin H).
  - intros H. apply (Ha t H). apply elem_of_app. by left.
Qed.

(** One queue of a well-formed CPU changes. *)
Lemma cpu_wf_update c a q b q' mask' cur' drv' :
  cpu_wf c -> run_queue c = a ++ q :: b -> is_word mask' ->
  (forall i, 0 <= i < 32 -> Z.testbit mask' i
     = if i =? Z.of_nat (length a) then negb (qlen q' =? 0) else Z.testbit (run_mask c) i) ->
  NoDup (concat (a ++ q' :: b)) ->
  cpu_wf (Cpu cur' (a ++ q' :: b) (map qlen (a ++ q' :: b)) drv' mask'
            (qlen (concat (a ++ q' :: b)))).
Proof.
  intros [Hl Hc Hm Hb Ht Hn] Hrq Hw Hbits Hnd. constructor; cbn; try done.
  - rewrite Hrq in Hl. rewrite length_app in *. done.
  - intros p x Hp. pose proof (word_at_bound _ _ _ Hp) as Hr.
    rewrite Hrq in Hl. rewrite length_app in Hl, Hr. cbn in Hl, Hr.
    rewrite Hbits by lia. rewrite (word_at_mid a b q q') in Hp.
    destruct (Z.eqb_spec p (Z.of_nat (length a))) as [->|].
    + injection Hp as <-. unfold qlen. destruct q'; cbn; [done|].
      split; [done|]. intros _. apply negb_true_iff, Z.eqb_neq. lia.
    + rewrite <- Hrq in Hp. by apply Hb.
Qed.

Lemma concat_mid_perm (a b : list (list Z)) q1 q2 t :
  concat (a ++ (q1 ++ t :: q2) :: b) ≡ₚ t :: concat (a ++ (q1 ++ q2) :: b).
Proof. rewrite !concat_app, !concat_cons, <- !app_assoc, <- app_comm_cons. by rewrite !Permutation_middle. Qed.

Lemma bit_single m i : 0 <= i < 32 -> bit [m] i = Z.testbit m i.
Proof.
  intros. unfold bit, BITS_PER_LONG. rewrite Z.div_small, Z.mod_small by lia. done.
Qed.

Lemma single_list {A} (l : list A) : length l = 1%nat -> exists x, l = [x].
Proof. destruct l as [|x [|y l]]; try done. by exists x. Qed.

(** The two bit operations on the mask. *)
Lemma mask_set m p :
  is_word m -> 0 <= p < 32 ->
  exists m', __set_bit p [m] = Some [m'] /\ is_word m' /\
    forall i, 0 <= i < 32 -> Z.testbit m' i = if i =? p then true else Z.testbit m i.
Proof.
  intros Hm Hp. destruct (set_bit_spec [m] p) as (l & E & Hok & Hl & Hb).
  - by apply Forall_singleton.
  - unfold nbits, BITS_PER_LONG. cbn. lia.
  - destruct (single_list l Hl) as [m' ->]. exists m'. split_and!; [done|by inversion Hok|].
    intros i Hi. rewrite <- !bit_single by done. apply Hb.
Qed.

Lemma mask_clear m p :
  is_word m -> 0 <= p < 32 ->
  exists m', __clear_bit p [m] = Some [m'] /\ is_word m' /\
    forall i, 0 <= i < 32 -> Z.testbit m' i = if i =? p then false else Z.testbit m i.
Proof.
  intros Hm Hp. destruct (clear_bit_spec [m] p) as (l & E & Hok & Hl & Hb).
  - by apply Forall_singleton.
  - unfold nbits, BITS_PER_LONG. cbn. lia.
  - destruct (single_list l Hl) as [m' ->]. exists m'. split_and!; [done|by inversion Hok|].
    intros i Hi. rewrite <- !bit_single by done. apply Hb.
Qed.

Lemma word_at_map {A B} (f : A -> B) l i : word_at (map f l) i = f <$> word_at l i.
Proof. unfold word_at. case_if; [|done]. apply list_lookup_fmap. Qed.

Lemma qlen_nonneg q : 0 <= qlen q.
Proof. unfold qlen. lia. Qed.

(** [enqueue] appends to the queue of the priority. *)
Lemma enqueue_spec c who a q b :
  cpu_wf c -> run_queue c = a ++ q :: b -> who ∉ queued c -> qlen (queued c) + 1 < 4294967296 ->
  exists c', enqueue c who (Z.of_nat (length a)) = Some c' /\ cpu_wf c' /\ cur c' = cur c /\
    run_queue c' = a ++ (q ++ [who]) :: b /\ driver_thread c' = driver_thread c /\
    queued c' ≡ₚ who :: queued c.
Proof.
  intros Hwf Hrq Hno Hsm. pose proof Hwf as [Hl Hc Hm Hb Ht Hn]. unfold enqueue, queued in *.
  assert (Z.of_nat (length a) < 32) as Hp.
  { rewrite Hrq, length_app in Hl. cbn in Hl. lia. }
  assert (word_at (a ++ q :: b) (Z.of_nat (length a)) = Some q) as Hat.
  { rewrite (word_at_mid a b q q). by rewrite Z.eqb_refl. }
  rewrite Hrq in Hno, Hsm, Ht, Hn. rewrite Hc, Hrq, Hat.
  cbn [mbind option_bind]. rewrite word_set_mid. cbn [mbind option_bind].
  destruct (mask_set (run_mask c) (Z.of_nat (length a)) Hm) as (m' & -> & Hm' & Hbits); [lia|].
  cbn [mbind option_bind head]. rewrite word_at_map, Hat. cbn [mbind option_bind fmap option_fmap option_map].
  assert (concat (a ++ (q ++ [who]) :: b) ≡ₚ who :: concat (a ++ q :: b)) as Hperm.
  { rewrite (concat_mid_perm a b q [] who). by rewrite app_nil_r. }
  assert (qlen q <= qlen (concat (a ++ q :: b))) as Hle.
  { unfold qlen. rewrite concat_app, concat_cons, !length_app. lia. }
  rewrite map_app, map_cons.
  assert (Z.of_nat (length a) = Z.of_nat (length (map qlen a))) as Hla by by rewrite length_map.
  rewrite Hla, word_set_mid. cbn [mbind option_bind].
  pose proof (qlen_nonneg q). pose proof (qlen_nonneg (concat (a ++ q :: b))).
  rewrite Ht, !wrap_small by (unfold is_word; lia).
  assert (qlen q + 1 = qlen (q ++ [who])) as Eq by (unfold qlen; rewrite length_app; cbn; lia).
  assert (qlen (concat (a ++ q :: b)) + 1 = qlen (concat (a ++ (q ++ [who]) :: b))) as Et.
  { unfold qlen. rewrite (Permutation_length Hperm). cbn. lia. }
  rewrite Eq, Et. eexists. split; [done|]. split_and!; try done.
  rewrite <- map_cons, <- map_app. apply (cpu_wf_update c a q b); try done.
  - intros i Hi. rewrite Hbits by done. case_if; [|done].
    symmetry. apply negb_true_iff, Z.eqb_neq. lia.
  - rewrite Hperm. by apply NoDup_cons.
Qed.

(** [dequeue] of a queued thread takes it out of its queue. *)
Lemma dequeue_spec c who p q :
  cpu_wf c -> word_at (run_queue c) p = Some q -> who ∈ q -> qlen (queued c) < 4294967296 ->
  exists c', dequeue c who p = Some c' /\ cpu_wf c' /\ cur c' = cur c /\
    run_queue c' = unlink who (run_queue c) /\ driver_thread c' = driver_thread c /\
    who :: queued c' ≡ₚ queued c.
Proof.
  intros Hwf Hq Hin Hsm. pose proof Hwf as [Hl Hc Hm Hb Ht Hn]. unfold dequeue, queued in *.
  destruct (queued_split _ _ _ _ Hn Hq Hin) as (a & b & q1 & q2 & Hrq & -> & -> & Hun).
  rewrite Hun. rewrite Hrq in *. rewrite Hc, word_at_map, Hq.
  assert (Z.of_nat (length a) < 32) as Hp by (rewrite length_app in Hl; cbn in Hl; lia).
  cbn [mbind option_bind fmap option_fmap option_map].
  pose proof (concat_mid_perm a b q1 q2 who) as Hperm.
  assert (qlen (q1 ++ who :: q2) = qlen (q1 ++ q2) + 1) as Eq
    by (unfold qlen; rewrite !length_app; cbn; lia).
  assert (qlen (concat (a ++ (q1 ++ who :: q2) :: b)) = qlen (concat (a ++ (q1 ++ q2) :: b)) + 1) as Et.
  { unfold qlen. rewrite (Permutation_length Hperm). cbn. lia. }
  assert (qlen (q1 ++ q2) <= qlen (concat (a ++ (q1 ++ q2) :: b))) as Hle.
  { unfold qlen. rewrite concat_app, concat_cons, !length_app. lia. }
  pose proof (qlen_nonneg (q1 ++ q2)). pose proof (qlen_nonneg (concat (a ++ (q1 ++ q2) :: b))).
  rewrite Eq, Z.add_simpl_r, Ht, Et, Z.add_simpl_r, !wrap_small by (unfold is_word; lia).
  rewrite map_app, map_cons.
  assert (Z.of_nat (length a) = Z.of_nat (length (map qlen a))) as Hla by by rewrite length_map.
  rewrite Hla, word_set_mid, <- Hla. cbn [mbind option_bind].
  assert (NoDup (concat (a ++ (q1 ++ q2) :: b))) as Hn'.
  { rewrite Hperm in Hn. by apply NoDup_cons in Hn as [_ Hn]. }
  assert (exists mask', (if qlen (q1 ++ q2) =? 0
            then m ← __clear_bit (Z.of_nat (length a)) [run_mask c]; head m
            else Some (run_mask c)) = Some mask' /\ is_word mask' /\
          forall i, 0 <= i < 32 -> Z.testbit mask' i
            = if i =? Z.of_nat (length a) then negb (qlen (q1 ++ q2) =? 0)
              else Z.testbit (run_mask c) i) as (mask' & -> & Hm' & Hbits).
  { destruct (Z.eqb_spec (qlen (q1 ++ q2)) 0) as [E|E].
    - destruct (mask_clear (run_mask c) (Z.of_nat (length a)) Hm) as (m' & -> & Hm' & Hbits); [lia|].
      by exists m'.
    - exists (run_mask c). split_and!; try done. intros i Hi.
      destruct (Z.eqb_spec i (Z.of_nat (length a))) as [->|]; [|done]. cbn.
      apply (Hb _ _ Hq). by destruct q1. }
  cbn [mbind option_bind]. eexists. split; [done|]. split_and!; try done.
  rewrite <- map_cons, <- map_app. by apply (cpu_wf_update c a (q1 ++ who :: q2) b).
Qed.

(** ** Thread states *)

Lemma new_state_bits old s i :
  is_word old -> 0 <= s < 65536 -> 0 <= i ->
  Z.testbit (new_state old s) i = if i <? 16 then Z.testbit s i else Z.testbit old i.
Proof.
  intros Ho Hs Hi. unfold new_state. rewrite Z.lor_spec, Z.land_spec.
  destruct (Z.lt_ge_cases i 32).
  - rewrite testbit_w_not by (done || lia). change KT_STATE_MASK with (Z.ones 16).
    rewrite Z.testbit_ones by lia. destruct (Z.ltb_spec i 16).
    + rewrite (proj2 (Z.leb_le 0 i)) by lia. by rewrite andb_false_r.
    + rewrite andb_false_r, andb_true_r.
      destruct (Z.eq_dec s 0) as [->|]; [by rewrite Z.testbit_0_l, orb_false_r|].
      rewrite (Z.bits_above_log2 s i), orb_false_r; [done|lia|].
      assert (Z.log2 s < 16) by (apply Z.log2_lt_pow2; lia). lia.
  - rewrite (testbit_word_high old i), (testbit_word_high s i) by (unfold is_word in *; lia).
    by destruct (i <? 16).
Qed.

Lemma new_state_word old s : is_word old -> 0 <= s < 65536 -> is_word (new_state old s).
Proof.
  intros Ho Hs. apply is_word_bits.
  - unfold new_state. apply Z.lor_nonneg. split; [|lia]. apply Z.land_nonneg. unfold is_word in Ho. lia.
  - intros i Hi. rewrite new_state_bits by (done || lia).
    rewrite (proj2 (Z.ltb_ge i 16)) by lia. by apply testbit_word_high.
Qed.

Lemma base_new_state old s : is_word old -> 0 <= s < 65536 -> Z.land (new_state old s) KT_STATE_MASK = s.
Proof.
  intros Ho Hs. apply Z.bits_inj'. intros i Hi. rewrite Z.land_spec, new_state_bits by done.
  change KT_STATE_MASK with (Z.ones 16). rewrite Z.testbit_ones, (proj2 (Z.leb_le 0 i)) by lia.
  destruct (Z.ltb_spec i 16); [by rewrite andb_true_r|]. rewrite andb_false_r. symmetry.
  destruct (Z.eq_dec s 0) as [->|]; [apply Z.testbit_0_l|].
  apply Z.bits_above_log2; [lia|]. assert (Z.log2 s < 16) by (apply Z.log2_lt_pow2; lia). lia.
Qed.

(** The attribute bits survive a change of the base state. *)
Lemma flag_new_state old s n :
  is_word old -> 0 <= s < 65536 -> 16 <= n < 32 ->
  Z.land (new_state old s) (2 ^ n) = Z.land old (2 ^ n).
Proof.
  intros Ho Hs Hn. apply Z.bits_inj'. intros i Hi. rewrite !Z.land_spec, new_state_bits by done.
  destruct (Z.ltb_spec i 16); [|done]. rewrite Z.pow2_bits_false by lia. by rewrite !andb_false_r.
Qed.

(** ** Scheduler states *)

Lemma queued_small k : sched_wf k -> qlen (queued (cpu k)) < 2147483648.
Proof.
  intros [Hc Hq Hr Ht Hs]. enough (length (queued (cpu k)) <= size (threads k))%nat by (unfold qlen; lia).
  rewrite <- (size_dom (threads k)), <- (size_list_to_set (C := gset Z)) by apply (cw_nodup _ Hc).
  apply subseteq_size. intros t Hin%elem_of_list_to_set. apply elem_of_queues in Hin as (p & q & Hp & Hin).
  destruct (Hq p q t Hp Hin) as (th & Hth & _). apply elem_of_dom. by exists th.
Qed.

Lemma size_insert_same (m : gmap Z ko_thread) t th th' :
  m !! t = Some th -> size (<[t := th']> m) = size m.
Proof. intros H. by rewrite map_size_insert, H. Qed.

(** A thread changes in ways the queues do not see. *)
Lemma sched_wf_thread k t th th' c :
  sched_wf k -> threads k !! t = Some th -> cpu_wf c -> run_queue c = run_queue (cpu k) ->
  priority_level th' = priority_level th -> (running th' <-> running th) ->
  desc_of_driver th' = desc_of_driver th -> is_word (state th') -> is_word (wakeup_count th') ->
  sched_wf (Kernel c (<[t := th']> (threads k))).
Proof.
  intros [Hc Hq Hr Ht Hs] Hth Hc' Hrq Hp Hrun Hd Hst Hwk. constructor; cbn; try done.
  - intros p q x Hx Hin. rewrite Hrq in Hx. destruct (Hq p q x Hx Hin) as (tx & Htx & Hpx & Hrx).
    destruct (Z.eq_dec t x) as [<-|].
    + rewrite lookup_insert_eq. exists th'. rewrite Hth in Htx. injection Htx as <-.
      split_and!; [done|congruence|by apply Hrun].
    + rewrite lookup_insert_ne by done. by exists tx.
  - unfold queued. rewrite Hrq. intros x tx [[<- <-]|[_ Hx]]%lookup_insert_Some Hrx Hdx.
    + apply (Hr t th Hth); [by apply Hrun|congruence].
    + by apply (Hr x tx).
  - intros x tx [[<- <-]|[_ Hx]]%lookup_insert_Some; [|by apply (Ht x tx)].
    rewrite Hp. split_and!; try done; apply (Ht t th Hth).
  - by rewrite (size_insert_same _ _ th).
Qed.

Lemma wakeup_enqueue k who th :
  sched_wf k -> threads k !! who = Some th -> ~ running th ->
  exists c, enqueue (cpu k) who (priority_level th) = Some c /\
    sched_wf (Kernel c (<[who := set_state th (new_state (state th) KT_STATE_RUNNING)]> (threads k))) /\
    cur c = cur (cpu k) /\ driver_thread c = driver_thread (cpu k) /\
    queued c ≡ₚ who :: queued (cpu k) /\
    forall p q, word_at (run_queue (cpu k)) p = Some q ->
      word_at (run_queue c) p = Some (if p =? priority_level th then q ++ [who] else q).
Proof.
  intros Hwf Hth Hno. pose proof Hwf as [Hc Hq Hr Ht Hs]. destruct (Ht _ _ Hth) as (Hp & Hst & Hwk).
  assert (who ∉ queued (cpu k)) as Hnq.
  { intros Hin. apply elem_of_queues in Hin as (p & q & Hpq & Hin).
    destruct (Hq p q who Hpq Hin) as (th' & Hth' & _ & Hrun). rewrite Hth in Hth'. by injection Hth' as <-. }
  destruct (word_at_Some (run_queue (cpu k)) (priority_level th)) as [q Hpq];
    [rewrite (cw_len _ Hc); lia|].
  destruct (word_at_split _ _ _ Hpq) as (a & b & Hrq & Ep). rewrite Ep.
  destruct (enqueue_spec (cpu k) who a q b Hc Hrq Hnq) as (c & -> & Hwfc & Hcur & Hrqc & Hdrv & Hperm).
  { pose proof (queued_small k Hwf). lia. }
  assert (running (set_state th (new_state (state th) KT_STATE_RUNNING))) as Hrun.
  { unfold running, KT_STATUS_BASE. cbn. by apply base_new_state. }
  assert (forall p q0, word_at (run_queue c) p = Some q0 ->
    exists q1, word_at (run_queue (cpu k)) p = Some q1 /\
      q0 = if p =? Z.of_nat (length a) then q1 ++ [who] else q1) as Hinv.
  { intros p q0. rewrite Hrqc, Hrq, (word_at_mid a b q (q ++ [who])).
    destruct (Z.eqb_spec p (Z.of_nat (length a))) as [->|]; [|by eauto]. intros [= <-].
    exists q. split; [|done]. rewrite (word_at_mid a b q q). by rewrite Z.eqb_refl. }
  exists c. split_and!; try done.
  - constructor; cbn; try done.
    + intros p q0 t Hp0 Hin. destruct (Hinv p q0 Hp0) as (q1 & Hq1 & ->).
      destruct (Z.eq_dec who t) as [<-|Hne].
      * rewrite lookup_insert_eq. eexists. split_and!; try done. cbn.
        destruct (Z.eqb_spec p (Z.of_nat (length a))); [lia|].
        destruct Hnq. apply elem_of_queues. by exists p, q1.
      * rewrite lookup_insert_ne by done. apply (Hq p q1 t Hq1).
        destruct (p =? Z.of_nat (length a)); [|done].
        apply elem_of_app in Hin as [?|Hin]; [done|]. apply list_elem_of_singleton in Hin. congruence.
    + intros t tx [[<- <-]|[_ Hx]]%lookup_insert_Some Hrx Hdx; rewrite Hperm.
      * apply list_elem_of_here.
      * apply list_elem_of_further. by apply (Hr t tx).
    + intros t tx [[<- <-]|[_ Hx]]%lookup_insert_Some; [|by apply (Ht t tx)]. cbn.
      split_and!; try done; try lia. by apply new_state_word.
    + by rewrite (size_insert_same _ _ th).
  - intros p q0 Hp0. rewrite Hrqc, (word_at_mid a b q (q ++ [who])).
    destruct (Z.eqb_spec p (Z.of_nat (length a))) as [->|]; [|by rewrite <- Hrq].
    rewrite <- Ep, Hpq in Hp0. by injection Hp0 as <-.
Qed.

(** A thread that neither the system holds asleep nor is dying. *)
Definition clean (th : ko_thread) : Prop :=
  has_flag KT_STATE_ADD_FORCE_BY_SYSTEM (state th) = false /\
  has_flag KT_STATE_ADD_DIEING (state th) = false.

Lemma clean_new_state th s :
  clean th -> is_word (state th) -> 0 <= s < 65536 -> clean (set_state th (new_state (state th) s)).
Proof.
  intros [H1 H2] Hw Hs. unfold clean, has_flag in *. cbn [state set_state].
  rewrite (Z.land_comm _ (new_state _ _)), (Z.land_comm KT_STATE_ADD_DIEING (new_state _ _)).
  change KT_STATE_ADD_FORCE_BY_SYSTEM with (2 ^ 17) in *. change KT_STATE_ADD_DIEING with (2 ^ 18) in *.
  rewrite !flag_new_state by (done || lia). by rewrite !(Z.land_comm (state th)).
Qed.

(** Waking such a thread always succeeds and leaves it runnable. *)
Lemma wakeup_clean k who th :
  sched_wf k -> threads k !! who = Some th -> clean th ->
  exists k' th', kt_wakeup who k = Some k' /\ sched_wf k' /\
    threads k' = <[who := th']> (threads k) /\ running th' /\ clean th' /\
    desc_of_driver th' = desc_of_driver th /\ cur (cpu k') = cur (cpu k) /\
    (forall t, t ∈ queued (cpu k) -> t ∈ queued (cpu k')) /\
    (running th -> wakeup_count th' = (wakeup_count th +w 1)%C).
Proof.
  intros Hwf Hth Hcl. destruct (sw_threads _ Hwf _ _ Hth) as (Hpb & Hst & Hwk).
  unfold kt_wakeup. rewrite Hth. cbn [mbind option_bind].
  destruct (Z.eqb_spec (KT_STATUS_BASE th) KT_STATE_RUNNING) as [E|E]; cbn [negb].
  - do 2 eexists. split; [done|]. split_and!; try done.
    apply (sched_wf_thread k who th); try done; [apply (sw_cpu _ Hwf)|apply wrap_is_word].
  - rewrite (proj1 Hcl), (proj2 Hcl).
    destruct (linked who (run_queue (cpu k))) eqn:El.
    { apply linked_elem, elem_of_queues in El as (p & q & Hp & Hin).
      destruct (sw_queued _ Hwf p q who Hp Hin) as (th' & Hth' & _ & Hr).
      rewrite Hth in Hth'. injection Hth' as <-. done. }
    destruct (wakeup_enqueue k who th Hwf Hth E) as (c & -> & Hwf' & Hcu & _ & Hperm & Hrq).
    cbn [mbind option_bind]. do 2 eexists. split; [done|]. split_and!; try done.
    + unfold running, KT_STATUS_BASE. cbn. by apply base_new_state.
    + by apply clean_new_state.
    + intros t Ht. cbn. rewrite Hperm. by apply list_elem_of_further.
Qed.

(** ** Selection *)

(** [b] is the first nonempty queue and [x :: q] its threads. *)
Definition first_queue (rq : list (list Z)) (b x : Z) (q : list Z) : Prop :=
  word_at rq b = Some (x :: q) /\ forall p q', word_at rq p = Some q' -> p < b -> q' = [].

Lemma select_spec c :
  cpu_wf c -> queued c <> [] ->
  exists b x q next c', first_queue (run_queue c) b x q /\ head (q ++ [x]) = Some next /\
    select_in_queue c = Some (next, c') /\ cpu_wf c' /\ cur c' = cur c /\
    driver_thread c' = driver_thread c /\ queued c' ≡ₚ queued c /\
    forall p, word_at (run_queue c') p = if p =? b then Some (q ++ [x]) else word_at (run_queue c) p.
Proof.
  intros Hwf Hne. pose proof Hwf as [Hl Hc Hm Hb Ht Hn]. unfold select_in_queue.
  assert (run_mask c <> 0) as Hnz.
  { destruct (queued c) as [|t l] eqn:E; [done|].
    assert (t ∈ queued c) as Hin by (rewrite E; apply list_elem_of_here).
    apply elem_of_queues in Hin as (p & q & Hp & Hin).
    assert (Z.testbit (run_mask c) p = true) as Hbit by
      (apply (Hb p q Hp); intros ->; by apply not_elem_of_nil in Hin).
    intros Hz. by rewrite Hz, Z.testbit_0_l in Hbit. }
  rewrite (proj2 (Z.eqb_neq _ 0) Hnz).
  destruct (ffs_spec (run_mask c) Hm Hnz) as (Hr & Hhit & Hbef).
  set (b := __ffs (run_mask c)) in *.
  destruct (word_at_Some (run_queue c) b) as [q0 Hq0]; [rewrite Hl; lia|].
  apply (Hb b q0 Hq0) in Hhit as Hq0ne. destruct q0 as [|x q]; [done|].
  rewrite Hq0. cbn [mbind option_bind list_rotate_left].
  destruct (word_at_split _ _ _ Hq0) as (a & d & Hrq & Eb).
  rewrite Hrq, Eb, word_set_mid. cbn [mbind option_bind].
  assert (exists next, head (q ++ [x]) = Some next) as [next Hnext] by (destruct q; by eexists).
  rewrite Hnext. cbn [mbind option_bind].
  assert (concat (a ++ (q ++ [x]) :: d) ≡ₚ queued c) as Hperm.
  { unfold queued. rewrite Hrq, (concat_mid_perm a d q [] x), (concat_mid_perm a d [] q x).
    by rewrite app_nil_r. }
  exists b, x, q, next. eexists. split_and!; try done.
  - rewrite <- Hrq. split; [done|]. intros p q' Hp Hlt. pose proof (word_at_bound _ _ _ Hp).
    destruct q' as [|y q']; [done|]. assert (Z.testbit (run_mask c) p = true) as Hbit by by apply (Hb _ _ Hp).
    rewrite Hbef in Hbit; [done|lia].
  - rewrite Hc, Ht, Hrq.
    assert (map qlen (a ++ (x :: q) :: d) = map qlen (a ++ (q ++ [x]) :: d)) as ->.
    { rewrite !map_app, !map_cons. do 2 f_equal. unfold qlen. rewrite length_app. cbn. lia. }
    assert (qlen (queued c) = qlen (concat (a ++ (q ++ [x]) :: d))) as ->
      by (unfold qlen; by rewrite Hperm).
    apply (cpu_wf_update c a (x :: q) d); try done.
    + intros i Hi. rewrite <- Eb. destruct (Z.eqb_spec i b) as [->|]; [|done]. rewrite Hhit.
      symmetry. apply negb_true_iff, Z.eqb_neq. unfold qlen. rewrite length_app. cbn. lia.
    + by rewrite Hperm.
  - intros p. cbn. rewrite (word_at_mid a d (x :: q) (q ++ [x])), <- Eb, <- Hrq. done.
Qed.

(** Rotating a queue keeps the scheduler well-formed. *)
Lemma sched_wf_rotate k c b x q cr :
  sched_wf k -> first_queue (run_queue (cpu k)) b x q -> cpu_wf c ->
  queued c ≡ₚ queued (cpu k) ->
  (forall p, word_at (run_queue c) p = if p =? b then Some (q ++ [x]) else word_at (run_queue (cpu k)) p) ->
  sched_wf (Kernel (set_cur c cr) (threads k)).
Proof.
  intros [Hc Hq Hr Ht Hs] [Hb _] Hc' Hperm Hrq. constructor; cbn; try done.
  - by destruct Hc'.
  - intros p q0 t. rewrite Hrq. destruct (Z.eqb_spec p b) as [->|].
    + intros [= <-] Hin. apply (Hq b (x :: q) t Hb).
      apply elem_of_app in Hin as [?|?%list_elem_of_singleton]; [by apply list_elem_of_further|].
      subst t. apply list_elem_of_here.
    + apply Hq.
  - intros t th Hth Hrun Hd. unfold queued in *. cbn. rewrite Hperm. by apply (Hr t th).
Qed.

Lemma schedule_spec k prev :
  sched_wf k -> queued (cpu k) <> [] -> threads k !! cur (cpu k) = Some prev ->
  exists b x q next sw k', first_queue (run_queue (cpu k)) b x q /\ head (q ++ [x]) = Some next /\
    __schedule k = Some (sw, k') /\ sched_wf k' /\ threads k' = threads k /\
    cur (cpu k') = next /\ next ∈ queued (cpu k) /\ queued (cpu k') ≡ₚ queued (cpu k) /\
    (sw = None <-> next = cur (cpu k)) /\
    forall p, word_at (run_queue (cpu k')) p
      = if p =? b then Some (q ++ [x]) else word_at (run_queue (cpu k)) p.
Proof.
  intros Hwf Hne Hcur. pose proof Hwf as [Hc Hq Hr Ht Hs].
  destruct (select_spec (cpu k) Hc Hne) as (b & x & q & next & c & Hfq & Hnext & Hsel & Hc' & Hcu & Hdr & Hperm & Hrq).
  unfold __schedule. rewrite Hsel. cbn [mbind option_bind].
  assert (next ∈ x :: q) as Hin.
  { destruct q as [|y q]; cbn in Hnext; injection Hnext as <-;
      [apply list_elem_of_here|apply list_elem_of_further, list_elem_of_here]. }
  destruct (Hq b (x :: q) next (proj1 Hfq) Hin) as (tn & Htn & _).
  assert (next ∈ queued (cpu k)) as Hinq by (apply elem_of_queues; exists b, (x :: q); by destruct Hfq).
  pose proof (sched_wf_rotate k c b x q next Hwf Hfq Hc' Hperm Hrq) as Hwf'.
  exists b, x, q, next. destruct (Z.eqb_spec next (cur (cpu k))) as [E|E].
  - exists None, (Kernel c (threads k)). split_and!; try done.
    + assert (set_cur c next = c) as Es by (rewrite E, <- Hcu; by destruct c). by rewrite Es in Hwf'.
    + cbn. by rewrite Hcu.
  - rewrite Htn, Hcur. cbn [mbind option_bind]. do 2 eexists. split_and!; try done.
Qed.

(** ** Sleep *)

Lemma no_flag stat n : 0 <= stat < 65536 -> 16 <= n -> has_flag stat (2 ^ n) = false.
Proof.
  intros Hs Hn. unfold has_flag. apply negb_false_iff, Z.eqb_eq. apply Z.bits_inj'. intros i Hi.
  rewrite Z.land_spec, Z.testbit_0_l. destruct (Z.eq_dec i n) as [->|].
  - destruct (Z.eq_dec stat 0) as [->|]; [by rewrite Z.testbit_0_l|].
    rewrite (Z.bits_above_log2 stat n); [done|lia|].
    assert (Z.log2 stat < 16) by (apply Z.log2_lt_pow2; lia). lia.
  - rewrite Z.pow2_bits_false by lia. apply andb_false_r.
Qed.

Lemma land_mask_small stat : 0 <= stat < 65536 -> Z.land stat KT_STATE_MASK = stat.
Proof. intros. change KT_STATE_MASK with (Z.ones 16). rewrite Z.land_ones by lia. by apply Z.mod_small. Qed.

(** The state between taking the thread off its queue and the switch. *)
Lemma sleep_dequeue k th stat :
  sched_wf k -> threads k !! cur (cpu k) = Some th -> cur (cpu k) ∈ queued (cpu k) ->
  0 <= stat < 65536 -> stat <> KT_STATE_RUNNING ->
  running th /\
  exists c, dequeue (cpu k) (cur (cpu k)) (priority_level th) = Some c /\
    sched_wf (Kernel c (<[cur (cpu k) := set_state th (new_state (state th) stat)]> (threads k))) /\
    cur c = cur (cpu k) /\ cur (cpu k) :: queued c ≡ₚ queued (cpu k).
Proof.
  intros Hwf Hth Hin Hs Hns. pose proof Hwf as [Hc Hq Hr Ht Hsm]. set (who := cur (cpu k)) in *.
  apply elem_of_queues in Hin as (p & q & Hp & Hinq).
  destruct (Hq p q who Hp Hinq) as (th' & Hth' & Hpr & Hrun).
  rewrite Hth in Hth'. injection Hth' as <-. split; [done|]. destruct (Ht _ _ Hth) as (Hpb & Hst & Hwk).
  subst p. destruct (dequeue_spec (cpu k) who _ q Hc Hp Hinq) as (c & -> & Hc' & Hcu & Hrq & _ & Hperm).
  { pose proof (queued_small k Hwf). lia. }
  exists c. split_and!; try done.
  assert (forall t, t ∈ queued c <-> t ∈ queued (cpu k) /\ t <> who) as Hmem.
  { assert (NoDup (who :: queued c)) as Hnd by (rewrite Hperm; apply (cw_nodup _ Hc)).
    apply NoDup_cons in Hnd as [Hnin _].
    intros t. rewrite <- Hperm, elem_of_cons. split; [|tauto]. intros Ht'. split; [by right|].
    by intros ->. }
  constructor; cbn; try done.
  - intros p q0 t Hp0 Hint. assert (t ∈ queued c) as Htc by (apply elem_of_queues; eauto).
    apply Hmem in Htc as [_ Hne]. rewrite lookup_insert_ne by done.
    rewrite Hrq in Hp0. unfold unlink in Hp0. rewrite word_at_map in Hp0.
    destruct (word_at (run_queue (cpu k)) p) as [q1|] eqn:E; [|done]. injection Hp0 as <-.
    apply list_elem_of_filter in Hint as [_ Hint]. by apply (Hq p q1 t).
  - intros t tx [[<- <-]|[Hne Hx]]%lookup_insert_Some Hrx Hdx.
    + unfold running, KT_STATUS_BASE in Hrx. cbn in Hrx. by rewrite base_new_state in Hrx.
    + apply Hmem. split; [by apply (Hr t tx)|done].
  - intros t tx [[<- <-]|[_ Hx]]%lookup_insert_Some; [|by apply (Ht t tx)]. cbn.
    split_and!; try done; try lia. by apply new_state_word.
  - by rewrite (size_insert_same _ _ th).
Qed.

Lemma sleep_spec k th stat :
  sched_wf k -> threads k !! cur (cpu k) = Some th -> cur (cpu k) ∈ queued (cpu k) ->
  0 <= stat < 65536 -> stat <> KT_STATE_RUNNING ->
  (wakeup_count th <> 0 ->
     kt_sleep stat k = Some (false, None,
       Kernel (cpu k) (<[cur (cpu k) := set_wakeup_count th 0]> (threads k))) /\
     sched_wf (Kernel (cpu k) (<[cur (cpu k) := set_wakeup_count th 0]> (threads k)))) /\
  (wakeup_count th = 0 -> (exists t, t ∈ queued (cpu k) /\ t <> cur (cpu k)) ->
     exists sw k', kt_sleep stat k = Some (true, sw, k') /\ sched_wf k' /\
       threads k' = <[cur (cpu k) := set_state th (new_state (state th) stat)]> (threads k) /\
       cur (cpu k) :: queued (cpu k') ≡ₚ queued (cpu k) /\
       cur (cpu k') ∈ queued (cpu k') /\
       exists b q, word_at (run_queue (cpu k')) b = Some q /\ head q = Some (cur (cpu k')) /\
         forall p q', word_at (run_queue (cpu k')) p = Some q' -> p < b -> q' = []).
Proof.
  intros Hwf Hth Hin Hs Hns.
  destruct (sleep_dequeue k th stat Hwf Hth Hin Hs Hns) as (Hrun & c & Hdq & Hwfc & Hcu & Hperm).
  unfold kt_sleep. rewrite Hth. cbn [mbind option_bind]. rewrite Hrun, Z.eqb_refl.
  change KT_STATE_ADD_FORCE_BY_SYSTEM with (2 ^ 17). change KT_STATE_ADD_NO_SWITCHING with (2 ^ 20).
  rewrite !no_flag by lia. cbn [negb andb]. split.
  - intros Hw. rewrite (proj2 (Z.eqb_neq _ 0) Hw). split; [done|].
    destruct (sw_threads _ Hwf _ _ Hth) as (Hpb & Hst & Hwk).
    apply (sched_wf_thread k _ th); try done. apply (sw_cpu _ Hwf).
  - intros Hw (t & Ht & Htne). rewrite Hw, Z.eqb_refl, Hdq, land_mask_small by done.
    cbn [negb mbind option_bind].
    set (k1 := Kernel c _) in *. unfold kt_schedule.
    assert (queued (cpu k1) <> []) as Hne.
    { rewrite <- Hperm in Ht. intros E. cbn in E. rewrite E in Ht.
      apply list_elem_of_singleton in Ht. congruence. }
    destruct (schedule_spec k1 (set_state th (new_state (state th) stat)) Hwfc Hne)
      as (b & x & q & next & sw & k' & Hfq & Hnext & -> & Hwf' & Hth' & Hcur' & Hinn & Hperm' & _ & Hrq).
    { cbn. rewrite Hcu. by rewrite lookup_insert_eq. }
    cbn [mbind option_bind]. exists sw, k'. split_and!; try done.
    + rewrite Hperm'. done.
    + rewrite Hcur', Hperm'. done.
    + exists b, (q ++ [x]). rewrite Hcur'. split_and!; [|done|].
      * by rewrite Hrq, Z.eqb_refl.
      * intros p q'. rewrite Hrq. destruct (Z.eqb_spec p b); [lia|]. apply Hfq.
Qed.

(** ** Rotation *)

Fixpoint schedule_n (n : nat) (k : kernel) : option kernel :=
  match n with
  | O => Some k
  | S n => '(_, k) ← __schedule k; schedule_n n k
  end.

Lemma schedule_n_spec n k b l1 l2 :
  sched_wf k -> is_Some (threads k !! cur (cpu k)) ->
  word_at (run_queue (cpu k)) b = Some (l1 ++ l2) -> length l1 = S n ->
  (forall p q, word_at (run_queue (cpu k)) p = Some q -> p < b -> q = []) ->
  exists k', schedule_n (S n) k = Some k' /\ sched_wf k' /\ threads k' = threads k /\
    word_at (run_queue (cpu k')) b = Some (l2 ++ l1) /\ head (l2 ++ l1) = Some (cur (cpu k')).
Proof.
  revert k l1 l2. induction n as [|n IH]; intros k l1 l2 Hwf [prev Hcur] Hb Hl Hlow;
    (destruct l1 as [|x l1]; [done|]).
  all: assert (queued (cpu k) <> []) as Hne
    by (intros E; assert (x ∈ queued (cpu k)) as Hx by (apply elem_of_queues; exists b, ((x :: l1) ++ l2);
          split; [done|apply list_elem_of_here]); rewrite E in Hx; by apply not_elem_of_nil in Hx).
  all: destruct (schedule_spec k prev Hwf Hne)
      as (b' & x' & q & next & sw & k1 & Hfq & Hnext & Hsch & Hwf1 & Hth1 & Hcur1 & Hinn & Hperm & _ & Hrq); [done|].
  all: assert (b' = b) as ->
    by (destruct Hfq as [Hfq Hlow']; destruct (Z.lt_trichotomy b' b) as [H|[H|H]]; [|done|];
        [by specialize (Hlow _ _ Hfq H)|by specialize (Hlow' _ _ Hb H)]).
  all: pose proof (proj1 Hfq) as Hb'; rewrite Hb in Hb'; injection Hb' as <- <-.
  all: cbn [schedule_n]; rewrite Hsch; cbn [mbind option_bind]; specialize (Hrq b) as Hrqb;
    rewrite Z.eqb_refl, <- app_assoc in Hrqb.
  - destruct l1; [|done]. cbn [app] in *. exists k1. split_and!; try done. by rewrite Hcur1.
  - assert (is_Some (threads k1 !! cur (cpu k1))) as Hc1.
    { rewrite Hth1, Hcur1. apply elem_of_queues in Hinn as (p & q0 & Hp & Hin).
      destruct (sw_queued _ Hwf p q0 next Hp Hin) as (th & -> & _). done. }
    destruct (IH k1 l1 (l2 ++ [x])) as (k' & Hk' & Hwf' & Hth' & Hq' & Hh'); try done.
    + cbn in Hl. lia.
    + intros p q0 Hp Hlt. rewrite Hrq in Hp. destruct (Z.eqb_spec p b); [lia|]. by apply (Hlow p).
    + exists k'. rewrite <- app_assoc in Hq', Hh'. split_and!; try done. by rewrite Hth', Hth1.
Qed.

(** ** Properties *)

(** Threads 10 (current) and 20 are runnable, 30 waits; all at priority 0. *)
Definition sample_kernel : kernel :=
  Kernel (Cpu 10 ([10; 20] :: replicate 31 []) (2 :: replicate 31 0) 0 1 2)
    (<[10 := Thread 1 0 1 0 0]> (<[20 := Thread 2 0 1 0 3]> {[ 30 := Thread 2 0 2 0 0 ]})).

Lemma sample_threads t th :
  threads sample_kernel !! t = Some th ->
  (t = 10 /\ th = Thread 1 0 1 0 0) \/ (t = 20 /\ th = Thread 2 0 1 0 3) \/
  (t = 30 /\ th = Thread 2 0 2 0 0).
Proof.
  cbn [threads sample_kernel]. rewrite !lookup_insert_Some, lookup_singleton_Some. naive_solver.
Qed.

Lemma sample_queues p q :
  word_at (run_queue (cpu sample_kernel)) p = Some q -> (p = 0 /\ q = [10; 20]) \/ (p <> 0 /\ q = []).
Proof.
  unfold word_at. cbn [run_queue cpu sample_kernel]. destruct (Z.leb_spec 0 p); [|done].
  destruct (Z.to_nat p) as [|n] eqn:E.
  - intros [= <-]. left. split; [lia|done].
  - intros H1. right. split; [lia|]. change ((replicate 31 [] : list (list Z)) !! n = Some q) in H1.
    by apply lookup_replicate in H1 as [-> _].
Qed.

Lemma sample_kernel_wf : sched_wf sample_kernel.
Proof.
  constructor.
  - constructor; try done.
    + intros p q [[-> ->]|[Hp ->]]%sample_queues; [done|].
      cbn [cpu run_mask sample_kernel]. split; [|done]. intros Hb.
      destruct (Z.lt_ge_cases p 0); [by rewrite Z.testbit_neg_r in Hb|].
      change 1 with (2 ^ 0) in Hb. by rewrite Z.pow2_bits_false in Hb by lia.
    + vm_compute. apply NoDup_cons. split; [by rewrite list_elem_of_singleton|apply NoDup_singleton].
  - intros p q t [[-> ->]|[Hp ->]]%sample_queues Hin; [|by apply not_elem_of_nil in Hin].
    apply elem_of_cons in Hin as [->|Hin%list_elem_of_singleton]; [|subst t]; by eexists.
  - intros t th [[-> ->]|[[-> ->]|[-> ->]]]%sample_threads Hr Hd; vm_compute; [| |done].
    + apply list_elem_of_here.
    + apply list_elem_of_further, list_elem_of_here.
  - intros t th [[-> ->]|[[-> ->]|[-> ->]]]%sample_threads; cbn; unfold is_word; lia.
  - vm_compute. done.
Qed.

(** C10: [kt_wakeup] on a well-formed scheduler.  A running thread gets a
    pending wake-up; a thread forced asleep by the system is left alone; a
    dying thread is a panic; any other thread becomes runnable, and the "already
    queued" panic never happens.  The thread is put at the tail of the queue of
    its priority: that is what the code does ([list_add_tail]), although the
    comment above the call announces an insertion at the head, whose
    [list_add] is commented out.  The scheduler stays well-formed. *)
Theorem kt_wakeup_correct k who th :
  sched_wf k -> threads k !! who = Some th ->
  (running th ->
     kt_wakeup who k = Some (Kernel (cpu k)
       (<[who := set_wakeup_count th (wakeup_count th +w 1)%C]> (threads k))) /\
     sched_wf (Kernel (cpu k) (<[who := set_wakeup_count th (wakeup_count th +w 1)%C]> (threads k)))) /\
  (~ running th -> has_flag KT_STATE_ADD_FORCE_BY_SYSTEM (state th) = true ->
     kt_wakeup who k = Some k) /\
  (~ running th -> has_flag KT_STATE_ADD_FORCE_BY_SYSTEM (state th) = false ->
     has_flag KT_STATE_ADD_DIEING (state th) = true -> kt_wakeup who k = None) /\
  (~ running th -> has_flag KT_STATE_ADD_FORCE_BY_SYSTEM (state th) = false ->
     has_flag KT_STATE_ADD_DIEING (state th) = false ->
     exists k' th', kt_wakeup who k = Some k' /\ sched_wf k' /\
       threads k' = <[who := th']> (threads k) /\ running th' /\ cur (cpu k') = cur (cpu k) /\
       queued (cpu k') ≡ₚ who :: queued (cpu k) /\
       forall p q, word_at (run_queue (cpu k)) p = Some q ->
         word_at (run_queue (cpu k')) p = Some (if p =? priority_level th then q ++ [who] else q)).
Proof.
  intros Hwf Hth. destruct (sw_threads _ Hwf _ _ Hth) as (Hpb & Hst & Hwk).
  unfold kt_wakeup. rewrite Hth. cbn [mbind option_bind].
  unfold running at 1 2 3 4. destruct (Z.eqb_spec (KT_STATUS_BASE th) KT_STATE_RUNNING) as [E|E]; cbn [negb].
  - split_and!; try done. intros _. split; [done|]. apply (sched_wf_thread k who th); try done.
    + apply (sw_cpu _ Hwf).
    + apply wrap_is_word.
  - split_and!; [done| | |].
    + by intros _ ->.
    + by intros _ -> ->.
    + intros _ -> ->. destruct (linked who (run_queue (cpu k))) eqn:El.
      { apply linked_elem, elem_of_queues in El as (p & q & Hp & Hin).
        destruct (sw_queued _ Hwf p q who Hp Hin) as (th' & Hth' & _ & Hr).
        rewrite Hth in Hth'. injection Hth' as <-. done. }
      destruct (wakeup_enqueue k who th Hwf Hth E) as (c & -> & Hwf' & Hcu & _ & Hperm & Hrq).
      cbn [mbind option_bind]. do 2 eexists. split_and!; try done.
      unfold running, KT_STATUS_BASE. cbn. by apply base_new_state.
Qed.

Lemma kt_wakeup_witness :
  let th := Thread 2 0 2 0 0 in
  (running th ->
     kt_wakeup 30 sample_kernel = Some (Kernel (cpu sample_kernel)
       (<[30 := set_wakeup_count th (0 +w 1)%C]> (threads sample_kernel))) /\
     sched_wf (Kernel (cpu sample_kernel) (<[30 := set_wakeup_count th (0 +w 1)%C]> (threads sample_kernel)))) /\
  (~ running th -> has_flag KT_STATE_ADD_FORCE_BY_SYSTEM 2 = true ->
     kt_wakeup 30 sample_kernel = Some sample_kernel) /\
  (~ running th -> has_flag KT_STATE_ADD_FORCE_BY_SYSTEM 2 = false ->
     has_flag KT_STATE_ADD_DIEING 2 = true -> kt_wakeup 30 sample_kernel = None) /\
  (~ running th -> has_flag KT_STATE_ADD_FORCE_BY_SYSTEM 2 = false ->
     has_flag KT_STATE_ADD_DIEING 2 = false ->
     exists k' th', kt_wakeup 30 sample_kernel = Some k' /\ sched_wf k' /\
       threads k' = <[30 := th']> (threads sample_kernel) /\ running th' /\
       cur (cpu k') = cur (cpu sample_kernel) /\
       queued (cpu k') ≡ₚ 30 :: queued (cpu sample_kernel) /\
       forall p q, word_at (run_queue (cpu sample_kernel)) p = Some q ->
         word_at (run_queue (cpu k')) p = Some (if p =? 0 then q ++ [30] else q)).
Proof. apply (kt_wakeup_correct sample_kernel 30 (Thread 2 0 2 0 0)); [apply sample_kernel_wf|reflexivity]. Defined.

(** [kt_sleep] by the current thread.  A pending wake-up is consumed and
    the thread goes on, so that no wake-up that came before the sleep is lost;
    otherwise the thread leaves its run queue with the new state, and the CPU
    goes to the head of the first nonempty queue, a thread that is runnable.
    The scheduler stays well-formed. *)
Theorem kt_sleep_correct k th stat :
  sched_wf k -> threads k !! cur (cpu k) = Some th -> cur (cpu k) ∈ queued (cpu k) ->
  0 <= stat < 65536 -> stat <> KT_STATE_RUNNING ->
  (wakeup_count th <> 0 ->
     kt_sleep stat k = Some (false, None,
       Kernel (cpu k) (<[cur (cpu k) := set_wakeup_count th 0]> (threads k))) /\
     sched_wf (Kernel (cpu k) (<[cur (cpu k) := set_wakeup_count th 0]> (threads k)))) /\
  (wakeup_count th = 0 -> (exists t, t ∈ queued (cpu k) /\ t <> cur (cpu k)) ->
     exists sw k', kt_sleep stat k = Some (true, sw, k') /\ sched_wf k' /\
       threads k' = <[cur (cpu k) := set_state th (new_state (state th) stat)]> (threads k) /\
       cur (cpu k) :: queued (cpu k') ≡ₚ queued (cpu k) /\
       cur (cpu k') ∈ queued (cpu k') /\
       exists b q, word_at (run_queue (cpu k')) b = Some q /\ head q = Some (cur (cpu k')) /\
         forall p q', word_at (run_queue (cpu k')) p = Some q' -> p < b -> q' = []).
Proof. apply sleep_spec. Qed.

Lemma kt_sleep_witness :
  let th := Thread 1 0 1 0 0 in
  (0 <> 0 ->
     kt_sleep 2 sample_kernel = Some (false, None,
       Kernel (cpu sample_kernel) (<[10 := set_wakeup_count th 0]> (threads sample_kernel))) /\
     sched_wf (Kernel (cpu sample_kernel) (<[10 := set_wakeup_count th 0]> (threads sample_kernel)))) /\
  (0 = 0 -> (exists t, t ∈ queued (cpu sample_kernel) /\ t <> 10) ->
     exists sw k', kt_sleep 2 sample_kernel = Some (true, sw, k') /\ sched_wf k' /\
       threads k' = <[10 := set_state th (new_state 1 2)]> (threads sample_kernel) /\
       10 :: queued (cpu k') ≡ₚ queued (cpu sample_kernel) /\
       cur (cpu k') ∈ queued (cpu k') /\
       exists b q, word_at (run_queue (cpu k')) b = Some q /\ head q = Some (cur (cpu k')) /\
         forall p q', word_at (run_queue (cpu k')) p = Some q' -> p < b -> q' = []).
Proof.
  apply (kt_sleep_correct sample_kernel (Thread 1 0 1 0 0) 2);
    [apply sample_kernel_wf|reflexivity|vm_compute; apply list_elem_of_here|lia|done].
Defined.

(** C14: round robin.  In a well-formed scheduler the [n]-th call of
    [__schedule] ([1 <= n <= ] the length of the first nonempty queue) runs
    the thread [n] places behind the head of that queue, the last call the
    head itself: every thread of the queue runs once in a round. *)
Theorem schedule_round_robin k b q n :
  sched_wf k -> is_Some (threads k !! cur (cpu k)) ->
  word_at (run_queue (cpu k)) b = Some q ->
  (forall p q', word_at (run_queue (cpu k)) p = Some q' -> p < b -> q' = []) ->
  (n < length q)%nat ->
  exists k', schedule_n (S n) k = Some k' /\ sched_wf k' /\ threads k' = threads k /\
    q !! (S n mod length q)%nat = Some (cur (cpu k')).
Proof.
  intros Hwf Hcur Hb Hlow Hn.
  destruct (schedule_n_spec n k b (take (S n) q) (drop (S n) q)) as (k' & Hk & Hwf' & Hth & _ & Hh); try done.
  - by rewrite take_drop.
  - rewrite length_take. lia.
  - exists k'. split_and!; try done. rewrite <- Hh.
    destruct (Nat.eq_dec (S n) (length q)) as [E|E].
    + rewrite E, Nat.Div0.mod_same, drop_all, take_ge by lia. cbn. by destruct q.
    + rewrite Nat.mod_small by lia. destruct (drop (S n) q) as [|y l] eqn:Ed.
      { apply (f_equal length) in Ed. rewrite length_drop in Ed. cbn in Ed. lia. }
      cbn. rewrite <- (Nat.add_0_r (S n)), <- lookup_drop, Ed. done.
Qed.

Lemma schedule_round_robin_witness :
  exists k', schedule_n 2 sample_kernel = Some k' /\ sched_wf k' /\
    threads k' = threads sample_kernel /\ [10; 20] !! (2 mod 2)%nat = Some (cur (cpu k')).
Proof.
  apply (schedule_round_robin sample_kernel 0 [10; 20] 1);
    [apply sample_kernel_wf|by eexists|reflexivity| |cbn; lia].
  intros p q' [[-> ->]|[Hp ->]]%sample_queues Hlt; [lia|done].
Defined.
