(* ===== verification/Sync.v ===== *)
(** * Synchronisation objects: waiting, events, mutexes and completions

    [source/kernel/process/sync.c], [source/kernel/event.c], [mutex.c] and
    [complete.c].  A synchronisation object has a queue of wait nodes and a
    pair of operations ([signaled], [satisfied]); events and mutexes are its
    two kinds.  A wait node is named by its thread and its index in the
    [waited_node] array of the waiting call.  A waiting call is cut where the code
    gives up the locks of the objects: [kt_wait_objects] runs up to the unlock,
    [wait_enter] arms the timer if there is one, [wait_sleep] is the [kt_sleep]
    that follows, and [kt_wait_resume] is the code after it, up to the next
    unlock or the return.  Other threads and interrupts may run between any two
    of these, in particular between the unlock and the sleep. *)

From stdpp Require Import gmap.
From S2P Require Import Prelude Bits Sched.
Import SchedOps.

(** [kt_sync_status] *)
Inductive kt_sync_status := KE_SYNC_SIGNALED_OK | KE_SYNC_SIGNALED_CANCEL
  | KE_SYNC_SIGNALED_NO | KE_SYNC_SATISFY_OK.

Definition KE_WAIT_OK : Z := 0.
Definition KE_WAIT_TIMEDOUT : Z := -1.
Definition KE_WAIT_ABANDONED : Z := -2.
Definition KE_SYNC_WAIT_INFINITE : Z := ULONG_MAX.
Definition KE_SYNC_STATIC_WAIT_NODE_COUNT : Z := 4.
Definition Y_SYNC_MAX_OBJS_COUNT : Z := 64.

(** [struct ke_event] and [struct ke_mutex] behind their [kt_sync_base]. *)
Inductive sync_kind :=
  | Event (status : kt_sync_status) (manual_reset : bool)
  | Mutex (count owner : Z).

Definition wait_node : Type := Z * Z.      (* thread_wait.who, index of the node *)

Record kt_sync_base := Sync { wait_queue : list wait_node; kind : sync_kind }.

(** The kernel, the synchronisation objects and the armed timers. *)
Record world := World {
  kern : kernel;
  syncs : gmap Z kt_sync_base;
  timers : list (Z * Z)                    (* data (the thread), expires *)
}.

Module SyncOps.

Definition set_kern (w : world) (k : kernel) : world := World k (syncs w) (timers w).
Definition set_sync (w : world) (a : Z) (s : kt_sync_base) : world :=
  World (kern w) (<[a := s]> (syncs w)) (timers w).

Definition wakeup_timeout (w : world) (para : Z) : option world :=
  k ← kt_wakeup para (kern w); Some (set_kern w k).

Definition kt_sync_init (k : sync_kind) : kt_sync_base := Sync [] k.

(** ** The operation tables of events and mutexes *)

Definition event_satisfied (k : sync_kind) : sync_kind :=
  match k with
  | Event st manual_reset => Event (if negb manual_reset then KE_SYNC_SIGNALED_NO else st) manual_reset
  | k => k
  end.

Definition event_signaled (k : sync_kind) : kt_sync_status :=
  match k with Event st _ => st | _ => KE_SYNC_SIGNALED_NO end.

Definition mutex_satisfied (k : sync_kind) (thread : Z) : sync_kind :=
  match k with
  | Mutex count owner => Mutex (count +w 1)%C (if count =? 0 then thread else owner)
  | k => k
  end.

Definition mutex_signaled (k : sync_kind) (thread : Z) : kt_sync_status :=
  match k with
  | Mutex count owner =>
    if (count =? 0) || (owner =? thread) then KE_SYNC_SIGNALED_OK else KE_SYNC_SIGNALED_NO
  | _ => KE_SYNC_SIGNALED_NO
  end.

(** The dispatch through [ops]. *)
Definition signaled (s : kt_sync_base) (who : Z) : kt_sync_status :=
  match kind s with Event _ _ => event_signaled (kind s) | Mutex _ _ => mutex_signaled (kind s) who end.
Definition satisfied (s : kt_sync_base) (who : Z) : kt_sync_base :=
  Sync (wait_queue s)
    (match kind s with Event _ _ => event_satisfied (kind s) | Mutex _ _ => mutex_satisfied (kind s) who end).

(** ** [kt_sync_wakeup] *)

Fixpoint wakeup_loop (q : list wait_node) (count i : Z) (k : kernel) : option (Z * kernel) :=
  match q with
  | [] => Some (i, k)
  | (who, _) :: q =>
    k ← kt_wakeup who k;
    if (negb (count =? 0)) && (count - 1 =? 0) then Some (i, k)
    else wakeup_loop q (if count =? 0 then 0 else count - 1) (i + 1) k
  end.

Definition kt_sync_wakeup (w : world) (s : Z) (count : Z) : option (Z * world) :=
  o ← syncs w !! s;
  '(i, k) ← wakeup_loop (wait_queue o) count 0 (kern w);
  Some (i, set_kern w k).

(** ** [kt_wait_objects] *)

Inductive check := Signaled (i : Z) | Cancelled | NoSignal.

(** The loop that asks each object. *)
Fixpoint check_loop (w : world) (who : Z) (objects : list Z) (i : Z) : option check :=
  match objects with
  | [] => Some NoSignal
  | a :: objects =>
    s ← syncs w !! a;
    match signaled s who with
    | KE_SYNC_SIGNALED_OK => Some (Signaled i)
    | KE_SYNC_SIGNALED_CANCEL => Some Cancelled
    | _ => check_loop w who objects (i + 1)
    end
  end.

(** The loop that queues the wait nodes; [false] when a node past the static
    ones would be needed. *)
Fixpoint add_waiters (w : world) (who : Z) (objects : list Z) (i : Z) : option (bool * world) :=
  match objects with
  | [] => Some (true, w)
  | a :: objects =>
    if i <? KE_SYNC_STATIC_WAIT_NODE_COUNT then
      s ← syncs w !! a;
      add_waiters (set_sync w a (Sync (wait_queue s ++ [(who, i)]) (kind s))) who objects (i + 1)
    else Some (false, w)
  end.

(** The loop at [out2]: [list_del] of the nodes that were queued. *)
Fixpoint del_waiters (w : world) (who : Z) (objects : list Z) (i : Z) : option world :=
  match objects with
  | [] => Some w
  | a :: objects =>
    if i <? KE_SYNC_STATIC_WAIT_NODE_COUNT then
      s ← syncs w !! a;
      del_waiters (set_sync w a (Sync (filter (fun n => n <> (who, i)) (wait_queue s)) (kind s)))
        who objects (i + 1)
    else Some w
  end.

Fixpoint has_dup (l : list Z) : bool :=
  match l with [] => false | x :: l => existsb (Z.eqb x) l || has_dup l end.

(** One pass from [check_satisfied] to the unlock before the sleep or to the
    return: [PassOut] carries the result and [*id]. *)
Inductive pass := PassOut (status id : Z) | PassSleep.

Definition wait_pass (w : world) (who : Z) (objects : list Z) (timeout : Z) (waiter_added : bool)
  : run (pass * world) :=
  let leave := fun (w : world) (queued : bool) (status id : Z) =>
    w ← (if queued then lift (del_waiters w who objects 0) else Ret w);
    Ret (PassOut status id, w) in
  if has_dup objects then NoFuel      (* the second lock of the same object *)
  else
    c ← lift (check_loop w who objects 0);
    match c with
    | Signaled i =>
      a ← lift (word_at objects i);
      s ← lift (syncs w !! a);
      leave (set_sync w a (satisfied s who)) waiter_added KE_WAIT_OK i
    | Cancelled => leave w waiter_added KE_WAIT_ABANDONED 0
    | NoSignal =>
      if timeout =? 0 then leave w waiter_added KE_WAIT_TIMEDOUT 0
      else if waiter_added then Ret (PassSleep, w)
      else
        '(ok, w) ← lift (add_waiters w who objects 0);
        if ok : bool then Ret (PassSleep, w) else leave w true KE_WAIT_ABANDONED 0
    end.

(** [kt_timeout] up to the sleep; [now] is [hal_get_tick()]. *)
Definition kt_timeout_start (w : world) (who timeout now : Z) : Z * world :=
  let expire := (timeout +w now)%C in
  (expire, World (kern w) (syncs w) (timers w ++ [(who, expire)])).

(** ... and after it. *)
Definition kt_timeout_finish (w : world) (who expire now : Z) : Z * world :=
  let timeout := to_int (expire - now) in
  (if timeout <? 0 then 0 else timeout,
   World (kern w) (syncs w) (filter (fun t => t <> (who, expire)) (timers w))).

(** How a waiting call is suspended: [kt_sleep], or [kt_timeout] with the
    tick at which its timer expires. *)
Inductive blocked := BySleep | ByTimer (expire : Z).

(** A call returned, or it queued its nodes and unlocked the objects;
    [translated] is [translated_timeout]. *)
Inductive wait_out := Finished (status id : Z) | Unlocked (timeout : Z) (translated : bool).

(** From the unlock to the sleep: [tick] is [hal_ms_to_tick]. *)
Definition wait_enter (tick : Z -> Z) (w : world) (who timeout : Z) (translated : bool) (now : Z)
  : blocked * Z * world :=
  if negb translated && (timeout =? KE_SYNC_WAIT_INFINITE) then (BySleep, timeout, w)
  else
    let timeout := if translated then timeout else (tick timeout +w 1)%C in
    let '(expire, w) := kt_timeout_start w who timeout now in
    (ByTimer expire, timeout, w).

(** The sleep of the current thread, here or in [kt_timeout]. *)
Definition wait_sleep (w : world) (b : blocked) : option world :=
  '(_, _, k) ← kt_sleep (match b with BySleep => KT_STATE_WAITING_SYNC | ByTimer _ => 0 end) (kern w);
  Some (set_kern w k).

Definition kt_wait_objects (w : world) (who : Z) (objects : list Z)
    (wait_all : bool) (timeout : Z) : run (wait_out * world) :=
  if wait_all then Ret (Finished KE_WAIT_ABANDONED 0, w)
  else if Y_SYNC_MAX_OBJS_COUNT <? Z.of_nat (length objects)
  then Ret (Finished KE_WAIT_ABANDONED 0, w)
  else
    '(p, w) ← wait_pass w who objects timeout false;
    match p with
    | PassOut st id => Ret (Finished st id, w)
    | PassSleep => Ret (Unlocked timeout false, w)
    end.

(** The waiting thread is back from its sleep. *)
Definition kt_wait_resume (w : world) (who : Z) (objects : list Z)
    (b : blocked) (timeout now : Z) : run (wait_out * world) :=
  let '(timeout, w, translated) :=
    match b with
    | BySleep => (timeout, w, false)
    | ByTimer expire => let '(t, w) := kt_timeout_finish w who expire now in (t, w, true)
    end in
  th ← lift (threads (kern w) !! cur (cpu (kern w)));
  if KT_THREAD_KILLING th then
    w ← lift (del_waiters w who objects 0);
    Ret (Finished KE_WAIT_ABANDONED 0, w)
  else
    '(p, w) ← wait_pass w who objects timeout true;
    match p with
    | PassOut st id => Ret (Finished st id, w)
    | PassSleep => Ret (Unlocked timeout translated, w)
    end.

Definition kt_wait_object (w : world) (who p timeout : Z) : run (wait_out * world) :=
  kt_wait_objects w who [p] false timeout.

(** ** Events *)

Definition ke_event_init (manual_reset initial_status : bool) : kt_sync_base :=
  kt_sync_init (Event (if initial_status then KE_SYNC_SIGNALED_OK else KE_SYNC_SIGNALED_NO)
                  manual_reset).

Definition set_event (w : world) (p : Z) : option (Z * world) :=
  s ← syncs w !! p;
  match kind s with
  | Event _ manual_reset =>
    kt_sync_wakeup (set_sync w p (Sync (wait_queue s) (Event KE_SYNC_SIGNALED_OK manual_reset)))
      p (if manual_reset then 0 else 1)
  | _ => None
  end.

Definition reset_event (w : world) (p : Z) : option world :=
  s ← syncs w !! p;
  match kind s with
  | Event _ manual_reset =>
    Some (set_sync w p (Sync (wait_queue s) (Event KE_SYNC_SIGNALED_NO manual_reset)))
  | _ => None
  end.

Definition ke_event_set (w : world) (event : Z) := set_event w event.
Definition ke_event_reset (w : world) (event : Z) := reset_event w event.
Definition ke_event_wait (w : world) (event timeout : Z) :=
  kt_wait_object w (cur (cpu (kern w))) event timeout.
Definition ke_events_wait (w : world) (events : list Z) (wait_all : bool) (timeout : Z) :=
  kt_wait_objects w (cur (cpu (kern w))) events wait_all timeout.

(** ** Mutexes *)

(** [count] and [owner] are what the memory of the mutex held before. *)
Definition ke_mutex_init (count owner thread : Z) (initial_ownership : bool) : kt_sync_base :=
  let s := kt_sync_init (Mutex count owner) in
  if initial_ownership then satisfied s thread else s.

Definition ke_mutex_lock (w : world) (mutex : Z) : run (wait_out * world) :=
  kt_wait_object w (cur (cpu (kern w))) mutex KE_SYNC_WAIT_INFINITE.

Definition do_release (w : world) (mutex : Z) : option (Z * world) :=
  s ← syncs w !! mutex;
  match kind s with
  | Mutex count _ =>
    kt_sync_wakeup (set_sync w mutex (Sync (wait_queue s) (Mutex count 0))) mutex 0
  | _ => None
  end.

Definition ke_mutex_unlock (w : world) (mutex : Z) : option (Z * world) :=
  s ← syncs w !! mutex;
  match kind s with
  | Mutex count owner =>
    if (count =? 0) || negb (owner =? cur (cpu (kern w))) then Some (count, w)
    else
      let w := set_sync w mutex (Sync (wait_queue s) (Mutex (count - 1) owner)) in
      '(wokenup, w) ← (if count - 1 =? 0 then do_release w mutex else Some (0, w));
      if wokenup =? 0 then Some (count, w)
      else '(_, k) ← kt_schedule (kern w); Some (count, set_kern w k)
  | _ => None
  end.

(** ** Completions *)

Record ke_completion := Completion { done_ : Z; task_list : list Z }.

Definition ke_init_completion : ke_completion := Completion 0 [].

(** The exit of [__wait_common] with the lock held: [who] is set when the
    caller's node is still queued. *)
Definition wait_exit (x : ke_completion) (who : option Z) (timeout : Z) : Z * ke_completion :=
  let l := match who with
           | Some t => filter (fun y => y <> t) (task_list x)
           | None => task_list x
           end in
  if done_ x =? 0 then (0, Completion (done_ x) l)
  else (if timeout =? 0 then 1 else timeout, Completion (done_ x - 1) l).

(** The result of [__wait_common]; or the node is queued, the completion
    unlocked and the loop comes next; or the sleep comes next. *)
Inductive comp_out := CompDone (r : Z) | CompLoop (timeout : Z) | CompSleep (b : blocked) (timeout : Z).

Definition __wait_common (w : world) (x : ke_completion) (timeout : Z) : comp_out * ke_completion :=
  if done_ x =? 0
  then (CompLoop timeout, Completion (done_ x) (task_list x ++ [cur (cpu (kern w))]))
  else let '(r, x) := wait_exit x None timeout in (CompDone r, x).

(** The loop test, and the loop body up to the sleep ([wait_sleep]). *)
Definition __wait_loop (w : world) (x : ke_completion) (timeout now : Z)
  : comp_out * world * ke_completion :=
  let who := cur (cpu (kern w)) in
  if done_ x =? 0 then
    if timeout =? KE_SYNC_WAIT_INFINITE then (CompSleep BySleep timeout, w, x)
    else let '(expire, w) := kt_timeout_start w who timeout now in
         (CompSleep (ByTimer expire) timeout, w, x)
  else let '(r, x) := wait_exit x (Some who) timeout in (CompDone r, w, x).

(** The waiter is back from its sleep: the rest of the loop body, and on. *)
Definition __wait_resume (w : world) (x : ke_completion) (b : blocked) (timeout now : Z)
  : comp_out * world * ke_completion :=
  let who := cur (cpu (kern w)) in
  match b with
  | BySleep => __wait_loop w x timeout now
  | ByTimer expire =>
    let '(timeout, w) := kt_timeout_finish w who expire now in
    if timeout =? 0
    then let '(r, x) := wait_exit x (Some who) timeout in (CompDone r, w, x)
    else __wait_loop w x timeout now
  end.

Definition ke_wait_for_completion (w : world) (x : ke_completion) :=
  __wait_common w x KE_SYNC_WAIT_INFINITE.
Definition ke_wait_for_completion_timeout (w : world) (x : ke_completion) (timeout : Z) :=
  __wait_common w x timeout.

Definition ke_complete (w : world) (x : ke_completion) : option (world * ke_completion) :=
  let x := Completion (done_ x +w 1)%C (task_list x) in
  match head (task_list x) with
  | Some who => k ← kt_wakeup who (kern w); Some (set_kern w k, x)
  | None => Some (w, x)
  end.

End SyncOps.
Import SyncOps.

(** ** Waking the waiters *)

(** The threads of the kernel are all wakeable. *)
Definition wakeable (k : kernel) : Prop :=
  sched_wf k /\ forall t th, threads k !! t = Some th -> clean th.

(** What waking and scheduling keep: a kernel in which more threads run. *)
Record more_running (k k' : kernel) : Prop := {
  mr_wf : wakeable k';
  mr_dom : forall t, is_Some (threads k !! t) <-> is_Some (threads k' !! t);
  mr_run : forall t th, threads k !! t = Some th -> running th ->
             exists th', threads k' !! t = Some th' /\ running th';
  mr_cur : cur (cpu k') = cur (cpu k);
  mr_queued : forall t, t ∈ queued (cpu k) -> t ∈ queued (cpu k')
}.

Lemma more_running_refl k : wakeable k -> more_running k k.
Proof. intros H. constructor; try done. eauto. Qed.

Lemma more_running_trans k1 k2 k3 : more_running k1 k2 -> more_running k2 k3 -> more_running k1 k3.
Proof.
  intros [W1 D1 R1 C1 Q1] [W2 D2 R2 C2 Q2]. constructor; try done.
  - intros t. by rewrite D1, D2.
  - intros t th Ht Hr. destruct (R1 t th Ht Hr) as (th' & Ht' & Hr'). by apply (R2 t th').
  - by rewrite C2, C1.
  - intros t Ht. by apply Q2, Q1.
Qed.

Lemma wakeup_more k who th :
  wakeable k -> threads k !! who = Some th ->
  exists k' th', kt_wakeup who k = Some k' /\ more_running k k' /\
    threads k' = <[who := th']> (threads k) /\ running th' /\
    (running th -> wakeup_count th' = (wakeup_count th +w 1)%C).
Proof.
  intros [Hwf Hcl] Hth.
  destruct (wakeup_clean k who th Hwf Hth (Hcl _ _ Hth))
    as (k' & th' & -> & Hwf' & Hths & Hr & Hc & _ & Hcur & Hq & Hcnt).
  exists k', th'. split; [done|]. split; [|done].
  constructor; try done.
  - split; [done|]. intros t tx. rewrite Hths. intros [[<- <-]|[_ Hx]]%lookup_insert_Some; [done|by apply (Hcl t)].
  - intros t. rewrite Hths, lookup_insert_is_Some. destruct (Z.eq_dec who t) as [<-|]; [|tauto].
    rewrite Hth. split; [by left|done].
  - intros t tx Ht Hrun. rewrite Hths. destruct (Z.eq_dec who t) as [<-|].
    + rewrite lookup_insert_eq. eauto.
    + rewrite lookup_insert_ne by done. eauto.
Qed.

(** The same for a thread that only has to exist. *)
Lemma wakeup_runs k who :
  wakeable k -> is_Some (threads k !! who) ->
  exists k' th', kt_wakeup who k = Some k' /\ more_running k k' /\ threads k' !! who = Some th' /\ running th'.
Proof.
  intros Hw [th Hth]. destruct (wakeup_more k who th Hw Hth) as (k' & th' & E & Hm & Hths & Hr & _).
  exists k', th'. split; [done|]. split; [done|]. split; [|done]. rewrite Hths. apply lookup_insert_eq.
Qed.

(** [kt_sync_wakeup] wakes a prefix of the queue: all of it for [count] 0,
    [count] waiters otherwise; the result counts one less when it stops at
    [count]. *)
Definition woken (n count : Z) : Z := if count =? 0 then n else Z.min count n.
Definition woken_result (n count : Z) : Z :=
  if (negb (count =? 0)) && (count <=? n) then count - 1 else n.

Lemma wakeup_loop_spec q count i k :
  wakeable k -> 0 <= count -> (forall n, n ∈ q -> is_Some (threads k !! fst n)) ->
  exists k', wakeup_loop q count i k = Some (i + woken_result (Z.of_nat (length q)) count, k') /\
    more_running k k' /\
    forall n, n ∈ take (Z.to_nat (woken (Z.of_nat (length q)) count)) q ->
      exists th, threads k' !! fst n = Some th /\ running th.
Proof.
  revert count i k. induction q as [|[who j] q IH]; intros count i k Hwf Hc Hq.
  - cbn. exists k. split_and!.
    + do 2 f_equal. unfold woken_result. case_if; lia.
    + by apply more_running_refl.
    + intros n. rewrite take_nil. intros []%not_elem_of_nil.
  - cbn [wakeup_loop length].
    destruct (Hq (who, j)) as [th0 Hth0]; [apply list_elem_of_here|].
    destruct (wakeup_more k who th0 Hwf Hth0) as (k1 & th & -> & Hm & Hths & Hrun & _).
    assert (threads k1 !! who = Some th) as Hth by (rewrite Hths; apply lookup_insert_eq).
    cbn [mbind option_bind].
    destruct (Z.eqb_spec count 0) as [->|Hc0]; cbn [negb andb].
    + destruct (IH 0 (i + 1) k1 (mr_wf _ _ Hm)) as (k' & -> & Hm' & Hw); [lia| |].
      { intros n Hn. apply (mr_dom _ _ Hm), Hq. by apply list_elem_of_further. }
      exists k'. split_and!; [|by eapply more_running_trans|].
      * do 2 f_equal. unfold woken_result. cbn. lia.
      * unfold woken in *. cbn [Z.eqb] in *. rewrite Nat2Z.id in *. rewrite take_ge in * by (cbn; lia).
        intros n [->|Hn]%elem_of_cons; [|by apply Hw]. by apply (mr_run _ _ Hm' _ th).
    + destruct (Z.eqb_spec (count - 1) 0) as [E|E].
      * assert (count = 1) as -> by lia. exists k1. split_and!; [|done|].
        -- do 2 f_equal. unfold woken_result. cbn. case_if; lia.
        -- unfold woken. cbn [Z.eqb Pos.eqb]. rewrite Z.min_l by lia. cbn.
           intros n ->%list_elem_of_singleton. eauto.
      * destruct (IH (count - 1) (i + 1) k1 (mr_wf _ _ Hm)) as (k' & -> & Hm' & Hw); [lia| |].
        { intros n Hn. apply (mr_dom _ _ Hm), Hq. by apply list_elem_of_further. }
        exists k'. split_and!; [|by eapply more_running_trans|].
        -- do 2 f_equal. unfold woken_result.
           rewrite (proj2 (Z.eqb_neq count 0)), (proj2 (Z.eqb_neq (count - 1) 0)) by done. cbn [negb andb].
           destruct (Z.leb_spec (count - 1) (Z.of_nat (length q))),
             (Z.leb_spec count (Z.of_nat (S (length q)))); lia.
        -- unfold woken in *. rewrite (proj2 (Z.eqb_neq count 0)) by done.
           rewrite (proj2 (Z.eqb_neq (count - 1) 0)) in Hw by done.
           replace (Z.to_nat (count `min` Z.of_nat (S (length q))))
             with (S (Z.to_nat ((count - 1) `min` Z.of_nat (length q)))) by lia.
           cbn [take]. intros n [->|Hn]%elem_of_cons; [|by apply Hw].
           by apply (mr_run _ _ Hm' _ th).
Qed.

(** Waking a whole queue of distinct threads: each of them runs afterwards,
    one that ran already has one more pending wake-up, no other is touched. *)
Lemma wake_all q i k :
  wakeable k -> NoDup (map fst q) -> (forall n, n ∈ q -> is_Some (threads k !! fst n)) ->
  exists k', wakeup_loop q 0 i k = Some (i + Z.of_nat (length q), k') /\ more_running k k' /\
    forall t, (t ∉ map fst q -> threads k' !! t = threads k !! t) /\
      (t ∈ map fst q -> forall th, threads k !! t = Some th ->
        exists th', threads k' !! t = Some th' /\ running th' /\
          (running th -> wakeup_count th' = (wakeup_count th +w 1)%C)).
Proof.
  revert i k. induction q as [|[who j] q IH]; intros i k Hwf Hnd Hq.
  - exists k. cbn. split_and!; [by rewrite Z.add_0_r|by apply more_running_refl|].
    intros t. split; [done|]. intros []%not_elem_of_nil.
  - cbn [wakeup_loop length map fst] in *. apply NoDup_cons in Hnd as [Hni Hnd].
    destruct (Hq (who, j)) as [th0 Hth0]; [apply list_elem_of_here|]. cbn [fst] in Hth0.
    destruct (wakeup_more k who th0 Hwf Hth0) as (k1 & th & -> & Hm & Hths & Hrun & Hcnt).
    cbn [mbind option_bind Z.eqb negb andb].
    destruct (IH (i + 1) k1 (mr_wf _ _ Hm) Hnd) as (k' & -> & Hm' & Ht).
    { intros n Hn. apply (mr_dom _ _ Hm), Hq. by apply list_elem_of_further. }
    exists k'. split_and!; [do 2 f_equal; lia|by eapply more_running_trans|].
    intros t. destruct (Ht t) as [Hout Hin]. rewrite Hths in Hout, Hin. split.
    + intros [Hne Hni']%not_elem_of_cons. by rewrite Hout, lookup_insert_ne by congruence.
    + intros [->|Htq]%elem_of_cons th1 Hth1.
      * exists th. rewrite Hout, lookup_insert_eq by done. rewrite Hth0 in Hth1. by injection Hth1 as <-.
      * apply Hin; [done|]. rewrite lookup_insert_ne; [done|]. by intros ->.
Qed.

(** ** The current thread sleeps or is preempted *)

Lemma sleep_step k stat idle :
  wakeable k -> cur (cpu k) ∈ queued (cpu k) -> idle ∈ queued (cpu k) -> idle <> cur (cpu k) ->
  0 <= stat < 65536 -> stat <> KT_STATE_RUNNING ->
  exists s sw k', kt_sleep stat k = Some (s, sw, k') /\ wakeable k' /\
    cur (cpu k') ∈ queued (cpu k') /\ idle ∈ queued (cpu k') /\
    (forall t, is_Some (threads k !! t) <-> is_Some (threads k' !! t)) /\
    (forall t th, t <> cur (cpu k) -> threads k !! t = Some th -> threads k' !! t = Some th) /\
    (forall th, threads k !! cur (cpu k) = Some th -> wakeup_count th <> 0 ->
       cur (cpu k') = cur (cpu k) /\
       exists th', threads k' !! cur (cpu k) = Some th' /\ running th').
Proof.
  intros [Hwf Hcl] Hcur Hidle Hne Hs Hns.
  assert (exists th, threads k !! cur (cpu k) = Some th) as [th Hth].
  { apply elem_of_queues in Hcur as (p & q & Hp & Hin).
    destruct (sw_queued _ Hwf p q _ Hp Hin) as (th & H & _). eauto. }
  assert (forall th', clean th' -> threads k !! cur (cpu k) = Some th ->
    (forall t tx, <[cur (cpu k) := th']> (threads k) !! t = Some tx -> clean tx) /\
    (forall t, is_Some (threads k !! t) <-> is_Some (<[cur (cpu k) := th']> (threads k) !! t)) /\
    (forall t tx, t <> cur (cpu k) -> threads k !! t = Some tx ->
       <[cur (cpu k) := th']> (threads k) !! t = Some tx)) as Hupd.
  { intros th' Hc' _. split_and!.
    - intros t tx [[<- <-]|[_ Hx]]%lookup_insert_Some; [done|by apply (Hcl t)].
    - intros t. rewrite lookup_insert_is_Some. destruct (Z.eq_dec (cur (cpu k)) t) as [<-|]; [|tauto].
      rewrite Hth. split; [by left|done].
    - intros t tx Hn Ht. by rewrite lookup_insert_ne by done. }
  destruct (sw_threads _ Hwf _ _ Hth) as (_ & Hst & _).
  destruct (sleep_spec k th stat Hwf Hth Hcur Hs Hns) as [Hpend Hsusp].
  destruct (Z.eq_dec (wakeup_count th) 0) as [E|E].
  - destruct (Hsusp E) as (sw & k' & -> & Hwf' & Hths & Hperm & Hcur' & _); [by exists idle|].
    destruct (Hupd (set_state th (new_state (state th) stat))) as (H1 & H2 & H3); [|done|].
    { apply clean_new_state; [by apply (Hcl (cur (cpu k)))|done|lia]. }
    exists true, sw, k'. rewrite Hths. split_and!; try done; [split; [done|rewrite Hths; exact H1]| |].
    { rewrite <- Hperm in Hidle. apply elem_of_cons in Hidle as [?|?]; [congruence|done]. }
    intros tx Htx Hne'. congruence.
  - destruct (Hpend E) as [-> Hwf'].
    destruct (Hupd (set_wakeup_count th 0)) as (H1 & H2 & H3); [exact (Hcl _ _ Hth)|done|].
    do 3 eexists. split; [done|]. cbn. split_and!; try done.
    intros _ _ _. split; [done|]. rewrite lookup_insert_eq. eexists. split; [done|].
    apply elem_of_queues in Hcur as (p & q & Hp & Hin).
    destruct (sw_queued _ Hwf p q _ Hp Hin) as (tx & Htx & _ & Hr).
    rewrite Hth in Htx. by injection Htx as <-.
Qed.

Lemma preempt_step k idle :
  wakeable k -> cur (cpu k) ∈ queued (cpu k) -> idle ∈ queued (cpu k) ->
  exists sw k', __schedule k = Some (sw, k') /\ wakeable k' /\ threads k' = threads k /\
    cur (cpu k') ∈ queued (cpu k') /\ idle ∈ queued (cpu k').
Proof.
  intros [Hwf Hcl] Hcur Hidle.
  assert (exists th, threads k !! cur (cpu k) = Some th) as [th Hth].
  { apply elem_of_queues in Hcur as (p & q & Hp & Hin).
    destruct (sw_queued _ Hwf p q _ Hp Hin) as (th & H & _). eauto. }
  destruct (schedule_spec k th Hwf) as (b & x & q & next & sw & k' & _ & _ & -> & Hwf' & Hths & Hc & Hin & Hperm & _); try done.
  { intros E. rewrite E in Hcur. by apply not_elem_of_nil in Hcur. }
  exists sw, k'. split_and!; try done; [split; [done|by rewrite Hths]|by rewrite Hc, Hperm|by rewrite Hperm].
Qed.

(** ** A mutex shared by the threads of the kernel

    [mx] is the mutex and [idle] the idle thread, which never sleeps and does
    not use the mutex.  [held t] is how often thread [t] holds it, and
    [going t] that [t] has queued its node and unlocked the mutex, and has not
    called [kt_sleep] yet.  The steps are the calls of the current thread, cut
    where it gives up the lock of the mutex, a preemption, and a wake-up of any
    thread from outside (a timer or another object).  The guards of the steps
    keep the two counters within their 32 bits. *)
Section MutexSystem.
Context (tick : Z -> Z) (mx idle : Z).

Definition waits (w : world) (t : Z) : Prop :=
  exists s, syncs w !! mx = Some s /\ (t, 0) ∈ wait_queue s.

Record sys := Sys { wld : world; held : Z -> Z; going : Z -> bool }.

Definition upd {A} (f : Z -> A) (t : Z) (n : A) : Z -> A := fun x => if x =? t then n else f x.

Definition mutex_count (w : world) : Z :=
  match syncs w !! mx with Some (Sync _ (Mutex c _)) => c | _ => 0 end.

Definition current (w : world) : Z := cur (cpu (kern w)).

(** No thread has 2^32 - 1 wake-ups pending. *)
Definition wakeups_fit (w : world) : Prop :=
  forall t th, threads (kern w) !! t = Some th -> wakeup_count th + 1 < 4294967296.

Inductive mstep : sys -> sys -> Prop :=
  | lock_taken w h g id w' :
      current w <> idle -> ~ waits w (current w) -> mutex_count w + 1 < 4294967296 ->
      ke_mutex_lock w mx = Ret (Finished KE_WAIT_OK id, w') ->
      mstep (Sys w h g) (Sys w' (upd h (current w) (h (current w) + 1)) g)
  | lock_unlocked w h g t tr w' :
      current w <> idle -> ~ waits w (current w) ->
      ke_mutex_lock w mx = Ret (Unlocked t tr, w') ->
      mstep (Sys w h g) (Sys w' h (upd g (current w) true))
  | go_to_sleep w h g now b t w1 w' :
      current w <> idle -> g (current w) = true ->
      wait_enter tick w (current w) KE_SYNC_WAIT_INFINITE false now = (b, t, w1) ->
      wait_sleep w1 b = Some w' ->
      mstep (Sys w h g) (Sys w' h (upd g (current w) false))
  | wait_taken w h g now id w' :
      current w <> idle -> waits w (current w) -> g (current w) = false ->
      kt_wait_resume w (current w) [mx] BySleep KE_SYNC_WAIT_INFINITE now
        = Ret (Finished KE_WAIT_OK id, w') ->
      mstep (Sys w h g) (Sys w' (upd h (current w) 1) g)
  | wait_unlocked w h g now t tr w' :
      current w <> idle -> waits w (current w) -> g (current w) = false ->
      kt_wait_resume w (current w) [mx] BySleep KE_SYNC_WAIT_INFINITE now
        = Ret (Unlocked t tr, w') ->
      mstep (Sys w h g) (Sys w' h (upd g (current w) true))
  | unlock w h g r w' :
      ~ waits w (current w) -> wakeups_fit w ->
      ke_mutex_unlock w mx = Some (r, w') ->
      mstep (Sys w h g) (Sys w' (upd h (current w) (Z.max 0 (h (current w) - 1))) g)
  | preempt w h g sw k :
      __schedule (kern w) = Some (sw, k) -> mstep (Sys w h g) (Sys (set_kern w k) h g)
  | outside_wakeup w h g t w' :
      is_Some (threads (kern w) !! t) -> wakeups_fit w ->
      wakeup_timeout w t = Some w' -> mstep (Sys w h g) (Sys w' h g).

(** The threads in the queue [q]: one that is going to sleep still runs;
    while the mutex is [free] all of them run, and one that is going to sleep
    has a wake-up pending, which its [kt_sleep] will find. *)
Record waiters_ok (k : kernel) (g : Z -> bool) (free : Prop) (q : list wait_node) : Prop := {
  wo_going : forall t, g t = true -> (t, 0) ∈ q /\
    exists th, threads k !! t = Some th /\ running th;
  wo_free : free -> forall t, (t, 0) ∈ q ->
    exists th, threads k !! t = Some th /\ running th /\ (g t = true -> wakeup_count th <> 0)
}.

Record minv (s : sys) : Prop := {
  mi_wake : wakeable (kern (wld s));
  mi_cur : current (wld s) ∈ queued (cpu (kern (wld s)));
  mi_idle : idle ∈ queued (cpu (kern (wld s)));
  mi_mutex : exists q c o, syncs (wld s) !! mx = Some (Sync q (Mutex c o)) /\
    0 <= c < 4294967296 /\
    (* every waiter is a thread, waits once and does not hold the mutex *)
    NoDup q /\ (forall n, n ∈ q -> snd n = 0 /\ fst n <> idle /\ is_Some (threads (kern (wld s)) !! fst n)) /\
    (forall t, (t, 0) ∈ q -> held s t = 0) /\
    (* the owner, and only the owner, holds it, [c] times *)
    (forall t, held s t = if (0 <? c) && (t =? o) then c else 0) /\
    waiters_ok (kern (wld s)) (going s) (c = 0) q
}.

(** One pass over the single object [mx] with an infinite timeout. *)
Lemma mutex_pass w who q c o added :
  syncs w !! mx = Some (Sync q (Mutex c o)) ->
  wait_pass w who [mx] KE_SYNC_WAIT_INFINITE added
  = if (c =? 0) || (o =? who)
    then Ret (PassOut KE_WAIT_OK 0,
           World (kern w)
             (<[mx := Sync (if added then filter (fun n => n <> (who, 0)) q else q)
                        (Mutex (c +w 1)%C (if c =? 0 then who else o))]> (syncs w)) (timers w))
    else Ret (PassSleep,
           World (kern w) (<[mx := Sync (if added then q else q ++ [(who, 0)]) (Mutex c o)]> (syncs w)) (timers w)).
Proof.
  intros Hs. unfold wait_pass. cbn [has_dup existsb orb check_loop]. rewrite Hs.
  cbn [mbind option_bind signaled kind mutex_signaled].
  assert (forall s, <[mx := s]> (syncs w) !! mx = Some s) as Hl by (intros; apply lookup_insert_eq).
  destruct ((c =? 0) || (o =? who)).
  - cbn [lift mbind run_bind]. change (word_at [mx] 0) with (Some mx).
    cbn [lift mbind run_bind]. rewrite Hs. cbn [lift mbind run_bind].
    unfold satisfied, set_sync. cbn [wait_queue kind kern syncs timers mutex_satisfied].
    destruct added; cbn [mbind run_bind]; [|done].
    cbn [del_waiters]. change (0 <? KE_SYNC_STATIC_WAIT_NODE_COUNT) with true.
    cbn [syncs]. rewrite Hl. cbn [mbind option_bind lift run_bind]. unfold set_sync. cbn. by rewrite insert_insert_eq.
  - cbn [lift mbind run_bind]. change (KE_SYNC_WAIT_INFINITE =? 0) with false.
    cbn [mbind run_bind]. destruct added.
    + rewrite insert_id by done. by destruct w.
    + cbn [add_waiters]. change (0 <? KE_SYNC_STATIC_WAIT_NODE_COUNT) with true.
      rewrite Hs. cbn [mbind option_bind lift run_bind]. done.
Qed.

(** The thread that runs is not being killed. *)
Lemma cur_not_killing k :
  wakeable k -> cur (cpu k) ∈ queued (cpu k) ->
  exists th, threads k !! cur (cpu k) = Some th /\ running th /\ KT_THREAD_KILLING th = false.
Proof.
  intros [Hwf _] Hin. apply elem_of_queues in Hin as (p & q & Hp & Hin).
  destruct (sw_queued _ Hwf p q _ Hp Hin) as (th & Hth & _ & Hr). exists th.
  split_and!; try done. unfold KT_THREAD_KILLING. by rewrite Hr.
Qed.

(** The mutex is taken by the current thread. *)
Lemma minv_taken w h g q q' c o n :
  minv (Sys w h g) -> syncs w !! mx = Some (Sync q (Mutex c o)) -> g (current w) = false ->
  c = 0 \/ o = current w -> c + 1 < 4294967296 ->
  (forall x, x ∈ q' <-> x ∈ q /\ x <> (current w, 0)) -> NoDup q' ->
  n = h (current w) + 1 ->
  minv (Sys (World (kern w) (<[mx := Sync q' (Mutex (c +w 1)%C (if c =? 0 then current w else o))]>
          (syncs w)) (timers w)) (upd h (current w) n) g).
Proof.
  intros [Hw Hc Hi (q0 & c0 & o0 & Hs0 & Hb & Hnd & Hq & Hno & Hheld & Hwo)] Hs Hg Hco Hbig Hq' Hnd' ->.
  cbn [wld held going] in *. rewrite Hs in Hs0. injection Hs0 as <- <- <-.
  rewrite wrap_small by (unfold is_word; lia). set (t0 := current w) in *.
  assert (h t0 = c) as Ht0.
  { rewrite Hheld. destruct (Z.ltb_spec 0 c), (Z.eqb_spec t0 o); cbn; try lia; destruct Hco; try lia; congruence. }
  constructor; cbn [wld held going kern]; try done.
  exists q', (c + 1), (if c =? 0 then t0 else o). cbn [syncs]. rewrite lookup_insert_eq.
  split_and!; try done; try lia.
  - intros x [Hx _]%Hq'. by apply Hq.
  - intros t [Ht Hne]%Hq'. unfold upd. destruct (Z.eqb_spec t t0) as [->|]; [done|by apply Hno].
  - intros t. unfold upd. rewrite (proj2 (Z.ltb_lt 0 (c + 1))), Ht0 by lia. cbn [andb].
    destruct (Z.eqb_spec c 0) as [->|].
    + destruct (Z.eqb_spec t t0); [done|]. rewrite Hheld. done.
    + assert (o = t0) as -> by (destruct Hco; [done|congruence]).
      destruct (Z.eqb_spec t t0); [done|]. rewrite Hheld.
      rewrite (proj2 (Z.eqb_neq t t0)) by done. by rewrite andb_false_r.
  - constructor; [|lia]. intros t Ht. destruct (wo_going _ _ _ _ Hwo t Ht) as [Hin Hr].
    split; [|done]. apply Hq'. split; [done|]. intros [= ->]. congruence.
Qed.

(** The current thread has queued its node and unlocked the mutex, which
    another thread owns. *)
Lemma minv_unlocked w h g q q' c o :
  minv (Sys w h g) -> syncs w !! mx = Some (Sync q (Mutex c o)) ->
  c <> 0 -> o <> current w -> current w <> idle ->
  (forall x, x ∈ q' <-> x ∈ q \/ x = (current w, 0)) -> NoDup q' ->
  minv (Sys (World (kern w) (<[mx := Sync q' (Mutex c o)]> (syncs w)) (timers w)) h (upd g (current w) true)).
Proof.
  intros [Hw Hc Hi (q0 & c0 & o0 & Hs0 & Hb & Hnd & Hq & Hno & Hheld & Hwo)] Hs Hc0 Ho Hidle Hq' Hnd'.
  cbn [wld held going] in *. rewrite Hs in Hs0. injection Hs0 as <- <- <-.
  destruct (cur_not_killing (kern w) Hw Hc) as (th & Hth & Hr & _).
  constructor; cbn [wld held going kern]; try done. exists q', c, o. cbn [syncs]. rewrite lookup_insert_eq.
  split_and!; try done; try lia.
  - intros x [Hx| ->]%Hq'; [by apply Hq|]. split_and!; done.
  - intros t [Ht|Ht]%Hq'; [by apply Hno|]. injection Ht as ->. rewrite Hheld.
    rewrite (proj2 (Z.eqb_neq _ o)) by congruence. by rewrite andb_false_r.
  - constructor; [|lia]. unfold upd. intros t. destruct (Z.eqb_spec t (current w)) as [->|].
    + intros _. split; [apply Hq'; by right|]. by exists th.
    + intros Ht. destruct (wo_going _ _ _ _ Hwo t Ht) as [Hin Hrun]. split; [apply Hq'; by left|done].
Qed.

(** Kernel steps that keep threads and pending wake-ups keep the invariant. *)
Lemma minv_kern w h g k :
  minv (Sys w h g) -> wakeable k -> cur (cpu k) ∈ queued (cpu k) -> idle ∈ queued (cpu k) ->
  (forall t, is_Some (threads (kern w) !! t) <-> is_Some (threads k !! t)) ->
  (forall t th, threads (kern w) !! t = Some th -> running th ->
     exists th', threads k !! t = Some th' /\ running th' /\
       (wakeup_count th <> 0 -> wakeup_count th' <> 0)) ->
  minv (Sys (set_kern w k) h g).
Proof.
  intros [Hw Hc Hi (q & c & o & Hs & Hb & Hnd & Hq & Hno & Hheld & Hwo)] Hw' Hcq Hiq Hdom Hrun.
  constructor; cbn [wld held going kern set_kern] in *; try done. exists q, c, o.
  split_and!; try done; try lia.
  - intros x Hx. destruct (Hq x Hx) as (? & ? & ?). split_and!; try done. by apply Hdom.
  - constructor.
    + intros t Ht. destruct (wo_going _ _ _ _ Hwo t Ht) as (Hin & th & Hth & Hr). split; [done|].
      destruct (Hrun t th Hth Hr) as (th' & ? & ? & _). eauto.
    + intros E t Ht. destruct (wo_free _ _ _ _ Hwo E t Ht) as (th & Hth & Hr & Hp).
      destruct (Hrun t th Hth Hr) as (th' & ? & ? & ?). exists th'. split_and!; auto.
Qed.

Lemma minv_ext w h h' g : (forall t, h t = h' t) -> minv (Sys w h g) -> minv (Sys w h' g).
Proof.
  intros E [Hw Hc Hi (q & c & o & Hs & Hb & Hnd & Hq & Hno & Hheld & Hwo)].
  cbn [wld held going] in *. constructor; cbn [wld held going]; try done.
  exists q, c, o. split_and!; try done; try lia.
  - intros t Ht. rewrite <- E. by apply Hno.
  - intros t. by rewrite <- E.
Qed.

(** The thread that was going to sleep calls [kt_sleep].  If the mutex became
    free meanwhile, the pending wake-up keeps the thread running. *)
Lemma minv_sleep w h g :
  minv (Sys w h g) -> current w <> idle -> g (current w) = true ->
  exists w', wait_sleep w BySleep = Some w' /\ minv (Sys w' h (upd g (current w) false)) /\
    (mutex_count w = 0 -> current w' = current w).
Proof.
  intros [Hw Hc Hi (q & c & o & Hs & Hb & Hnd & Hq & Hno & Hheld & Hwo)] Hne Hg. cbn [wld held going] in *.
  destruct (sleep_step (kern w) KT_STATE_WAITING_SYNC idle)
    as (s & sw & k' & E & Hw' & Hcq & Hiq & Hdom & Hoth & Hpend); try done; try congruence.
  unfold wait_sleep. rewrite E. cbn [mbind option_bind]. eexists. split; [done|].
  destruct (wo_going _ _ _ _ Hwo _ Hg) as (Hin & th & Hth & Hr). split.
  - constructor; cbn [wld held going kern set_kern syncs]; try done. exists q, c, o.
    split_and!; try done; try lia.
    + intros x Hx. destruct (Hq x Hx) as (? & ? & ?). split_and!; try done. by apply Hdom.
    + constructor.
      * unfold upd. intros t. destruct (Z.eqb_spec t (current w)) as [|Hn]; [done|]. intros Ht.
        destruct (wo_going _ _ _ _ Hwo t Ht) as (Hin' & tx & Htx & Hrx). split; [done|]. eauto.
      * intros E0 t Ht. unfold upd. destruct (wo_free _ _ _ _ Hwo E0 t Ht) as (tx & Htx & Hrx & Hpx).
        destruct (Z.eqb_spec t (current w)) as [->|Hn]; [|by eauto].
        destruct (Hpend tx Htx (Hpx Hg)) as (_ & th' & ? & ?). by exists th'.
  - unfold mutex_count. rewrite Hs. intros ->.
    destruct (wo_free _ _ _ _ Hwo eq_refl _ Hin) as (tx & Htx & Hrx & Hpx). by apply (Hpend tx Htx (Hpx Hg)).
Qed.

Lemma NoDup_waiters (q : list wait_node) :
  NoDup q -> (forall n, n ∈ q -> snd n = 0) -> NoDup (map fst q).
Proof.
  induction 1 as [|[t i] q Hn _ IH]; intros H; [apply NoDup_nil_2|]. cbn. apply NoDup_cons. split.
  - intros ([t' j] & -> & Hin)%list_elem_of_fmap_1. apply Hn.
    pose proof (H _ (list_elem_of_here _ _)) as E1. pose proof (H _ (list_elem_of_further _ _ _ Hin)) as E2.
    cbn in *. subst. done.
  - apply IH. intros n Hin. apply H. by apply list_elem_of_further.
Qed.

(** The release of a mutex that is held once wakes every waiter. *)
Lemma unlock_last w h g q o :
  minv (Sys w h g) -> wakeups_fit w -> syncs w !! mx = Some (Sync q (Mutex 1 o)) ->
  exists r w', do_release (set_sync w mx (Sync q (Mutex 0 o))) mx = Some (r, w') /\
    minv (Sys w' (fun _ => 0) g).
Proof.
  intros [Hw Hc Hi (q0 & c0 & o0 & Hs0 & Hb & Hnd & Hq & Hno & Hheld & Hwo)] Hfit Hs.
  cbn [wld held going] in *. rewrite Hs in Hs0. injection Hs0 as <- <- <-.
  unfold do_release, kt_sync_wakeup, set_sync. cbn [syncs kern timers].
  rewrite lookup_insert_eq. cbn [mbind option_bind kind wait_queue syncs]. rewrite lookup_insert_eq.
  cbn [mbind option_bind wait_queue kern].
  destruct (wake_all q 0 (kern w) Hw) as (k' & -> & Hm & Hrun);
    [apply NoDup_waiters; [done|intros n Hn; by apply Hq]|intros n Hn; by apply Hq|].
  cbn [mbind option_bind]. do 2 eexists. split; [done|].
  assert (forall t, (t, 0) ∈ q -> exists th', threads k' !! t = Some th' /\ running th' /\
    (g t = true -> wakeup_count th' <> 0)) as Hall.
  { intros t Ht. destruct (Hq _ Ht) as (_ & _ & th & Hth). cbn [fst] in Hth.
    destruct (proj2 (Hrun t) (list_elem_of_fmap_2 fst q _ Ht) th Hth) as (th' & Hth' & Hr' & Hcnt).
    exists th'. split_and!; try done. intros Hg.
    destruct (wo_going _ _ _ _ Hwo t Hg) as (_ & tx & Htx & Hrx). rewrite Hth in Htx. injection Htx as <-.
    pose proof (Hfit t th Hth). destruct (sw_threads _ (proj1 Hw) _ _ Hth) as (_ & _ & Hwd).
    unfold is_word in Hwd. rewrite Hcnt, wrap_small by (try done; unfold is_word; lia). lia. }
  constructor; cbn [wld held going kern set_kern].
  - apply (mr_wf _ _ Hm).
  - unfold current. cbn. rewrite (mr_cur _ _ Hm). by apply (mr_queued _ _ Hm).
  - by apply (mr_queued _ _ Hm).
  - exists q, 0, 0. cbn [syncs set_kern wld]. rewrite lookup_insert_eq. split_and!; try done; try lia.
    + intros n Hn. destruct (Hq n Hn) as (? & ? & ?). split_and!; try done. by apply (mr_dom _ _ Hm).
    + constructor; [|by intros _]. intros t Ht. destruct (wo_going _ _ _ _ Hwo t Ht) as (Hin & _).
      split; [done|]. destruct (Hall t Hin) as (th' & ? & ? & _). eauto.
Qed.

Lemma minv_unlock w h g :
  minv (Sys w h g) -> wakeups_fit w ->
  exists r w', ke_mutex_unlock w mx = Some (r, w') /\
    minv (Sys w' (upd h (current w) (Z.max 0 (h (current w) - 1))) g).
Proof.
  intros Hinv Hfit. pose proof Hinv as [Hw Hc Hi (q & c & o & Hs & Hb & Hnd & Hq & Hno & Hheld & Hwo)].
  cbn [wld held going] in *. set (t0 := current w) in *. unfold ke_mutex_unlock. rewrite Hs.
  cbn [mbind option_bind kind wait_queue]. change (cur (cpu (kern w))) with t0.
  destruct (Z.eqb_spec c 0) as [->|Hc0]; cbn [orb].
  { do 2 eexists. split; [done|]. apply (minv_ext w h); [|done]. intros t. unfold upd.
    case_if; [|done]. subst t. rewrite Hheld. cbn. done. }
  destruct (Z.eqb_spec o t0) as [->|Ho]; cbn [negb].
  2: { do 2 eexists. split; [done|]. apply (minv_ext w h); [|done]. intros t. unfold upd.
       case_if; [|done]. subst t. rewrite Hheld, (proj2 (Z.eqb_neq t0 o)) by congruence.
       rewrite andb_false_r. done. }
  assert (h t0 = c) as Ht0 by (rewrite Hheld, Z.eqb_refl, (proj2 (Z.ltb_lt 0 c)) by lia; done).
  destruct (Z.eqb_spec (c - 1) 0) as [E|E].
  - assert (c = 1) as -> by lia. replace (1 - 1) with 0 by lia.
    destruct (unlock_last w h g q t0 Hinv Hfit Hs) as (r & w' & -> & Hinv'). cbn [mbind option_bind].
    assert (minv (Sys w' (upd h t0 (Z.max 0 (h t0 - 1))) g)) as Hres.
    { apply (minv_ext w' (fun _ => 0)); [|done]. intros t. unfold upd.
      destruct (Z.eqb_spec t t0) as [->|Hne]; [rewrite Ht0; done|].
      rewrite Hheld, (proj2 (Z.eqb_neq t t0)) by done. by rewrite andb_false_r. }
    destruct (r =? 0); [by do 2 eexists|]. unfold kt_schedule.
    destruct (preempt_step (kern w') idle (mi_wake _ Hres) (mi_cur _ Hres) (mi_idle _ Hres))
      as (sw & k' & -> & Hw' & Hths & Hcq & Hiq). cbn [mbind option_bind].
    do 2 eexists. split; [done|]. apply minv_kern; try done; rewrite Hths; eauto.
  - cbn [mbind option_bind Z.eqb]. do 2 eexists. split; [done|].
    constructor; cbn [wld held going kern set_sync]; try done. exists q, (c - 1), t0. cbn [syncs set_sync wld].
    rewrite lookup_insert_eq. split_and!; try done; try lia.
    + intros t Ht. unfold upd. destruct (Z.eqb_spec t t0) as [->|]; [|by apply Hno].
      specialize (Hno t0 Ht). lia.
    + intros t. unfold upd. rewrite (proj2 (Z.ltb_lt 0 (c - 1))), Ht0 by lia. cbn [andb].
      destruct (Z.eqb_spec t t0); [lia|]. rewrite Hheld, (proj2 (Z.eqb_neq t t0)) by done.
      by rewrite andb_false_r.
    + constructor; [apply (wo_going _ _ _ _ Hwo)|lia].
Qed.

(** What a pass of the current thread does with the mutex: take it, or
    queue the thread (if [added] is not set yet) and unlock. *)
Definition pass_out (p : run (pass * world)) : run (wait_out * world) :=
  '(p, w) ← p;
  match p with
  | PassOut st id => Ret (Finished st id, w)
  | PassSleep => Ret (Unlocked KE_SYNC_WAIT_INFINITE false, w)
  end.

Lemma resume_pass w now :
  wakeable (kern w) -> current w ∈ queued (cpu (kern w)) ->
  kt_wait_resume w (current w) [mx] BySleep KE_SYNC_WAIT_INFINITE now
  = pass_out (wait_pass w (current w) [mx] KE_SYNC_WAIT_INFINITE true).
Proof.
  intros Hw Hc. destruct (cur_not_killing _ Hw Hc) as (th & Hth & _ & Hk).
  unfold kt_wait_resume. rewrite Hth. cbn [lift mbind run_bind]. by rewrite Hk.
Qed.

(** A pass returns: with the mutex if it is free or the thread's own, which
    is always so for a waiter of a free mutex, and else unlocked. *)
Lemma minv_pass w h g added :
  minv (Sys w h g) -> current w <> idle -> g (current w) = false ->
  (if added : bool then waits w (current w)
   else ~ waits w (current w) /\ mutex_count w + 1 < 4294967296) ->
  exists out w', pass_out (wait_pass w (current w) [mx] KE_SYNC_WAIT_INFINITE added) = Ret (out, w') /\
    ((out = Finished KE_WAIT_OK 0 /\
      minv (Sys w' (upd h (current w) (if added then 1 else h (current w) + 1)) g)) \/
     (out = Unlocked KE_SYNC_WAIT_INFINITE false /\ mutex_count w <> 0 /\
      minv (Sys w' h (upd g (current w) true)))).
Proof.
  intros Hinv Hne Hg Hadd. pose proof Hinv as [Hw Hc Hi (q & c & o & Hs & Hb & Hnd & Hq & Hno & Hheld & _)].
  cbn [wld held going] in *. unfold pass_out. rewrite (mutex_pass w _ q c o added Hs).
  set (t0 := current w) in *. unfold mutex_count in *. rewrite Hs in *.
  assert (waits w t0 <-> (t0, 0) ∈ q) as Hwt.
  { unfold waits. rewrite Hs. split; [intros (s & [= <-] & ?); done|eauto]. }
  assert (if added then (t0, 0) ∈ q else (t0, 0) ∉ q /\ c + 1 < 4294967296) as Hadd'
    by (destruct added; by rewrite <- Hwt). clear Hadd. rename Hadd' into Hadd.
  destruct ((c =? 0) || (o =? t0)) eqn:Hsig; cbn [mbind run_bind]; do 2 eexists; (split; [done|]).
  - left. split; [done|].
    assert (c = 0 \/ o = t0) as Hco by (apply orb_true_iff in Hsig as [?|?]; zbool; auto).
    destruct added.
    + assert (h t0 = 0) as Ht0 by by apply Hno.
      assert (c = 0) as ->.
      { destruct Hco as [|E]; [done|]. rewrite Hheld, E, Z.eqb_refl in Ht0.
        destruct (Z.ltb_spec 0 c); cbn in Ht0; lia. }
      apply (minv_taken w h g q _ 0 o); try done; try lia.
      * intros x. rewrite list_elem_of_filter. tauto.
      * by apply NoDup_filter.
      * fold t0. lia.
    + destruct Hadd as [Hnw Hbig]. apply (minv_taken w h g q q c o); try done.
      intros x. split; [|tauto]. intros Hx. split; [done|]. intros ->. done.
  - right. apply orb_false_iff in Hsig as [H1 H2]. zbool. split_and!; try done.
    apply (minv_unlocked w h g q); try done.
    + intros x. destruct added.
      * split; [by left|]. by intros [?| ->].
      * by rewrite elem_of_app, list_elem_of_singleton.
    + destruct added; [done|]. apply NoDup_app. split_and!; [done| |apply NoDup_singleton].
      intros x Hx ->%list_elem_of_singleton. by destruct Hadd.
Qed.

(** A thread that is going to sleep is in the queue. *)
Lemma going_waits w h g t : minv (Sys w h g) -> ~ waits w t -> g t = false.
Proof.
  intros [_ _ _ (q & c & o & Hs & _ & _ & _ & _ & _ & Hwo)] Hn. cbn [wld going] in *.
  destruct (g t) eqn:E; [|done]. destruct Hn. destruct (wo_going _ _ _ _ Hwo t E) as [Hin _].
  exists (Sync q (Mutex c o)). done.
Qed.

Lemma minv_lock_unlocked w h g t tr w' :
  minv (Sys w h g) -> current w <> idle -> ~ waits w (current w) ->
  ke_mutex_lock w mx = Ret (Unlocked t tr, w') -> minv (Sys w' h (upd g (current w) true)).
Proof.
  intros Hinv Hne Hnw E. destruct (Z.lt_ge_cases (mutex_count w + 1) 4294967296) as [Hb|Hb].
  - destruct (minv_pass w h g false Hinv Hne) as (out & w0 & E0 & H);
      [by apply (going_waits w h)|done|]. change (ke_mutex_lock w mx = Ret (out, w0)) in E0.
    rewrite E in E0. injection E0 as <- <-. by destruct H as [[? _]|(_ & _ & H)].
  - pose proof Hinv as [Hw Hc Hi (q & c & o & Hs & Hcb & Hnd & _)]. cbn [wld] in *.
    unfold mutex_count in Hb. rewrite Hs in Hb.
    change (ke_mutex_lock w mx) with (pass_out (wait_pass w (current w) [mx] KE_SYNC_WAIT_INFINITE false)) in E.
    rewrite (mutex_pass w _ q c o false Hs) in E. unfold pass_out in E.
    destruct ((c =? 0) || (o =? current w)) eqn:Hsig; cbn [mbind run_bind] in E; [done|].
    injection E as <- <- <-. apply orb_false_iff in Hsig as [H1 H2]. zbool.
    apply (minv_unlocked w h g q); try done.
    + intros x. by rewrite elem_of_app, list_elem_of_singleton.
    + apply NoDup_app. split_and!; [done| |apply NoDup_singleton].
      intros x Hx ->%list_elem_of_singleton. apply Hnw. by exists (Sync q (Mutex c o)).
Qed.

Lemma minv_outside w h g t w' :
  minv (Sys w h g) -> wakeups_fit w -> is_Some (threads (kern w) !! t) ->
  wakeup_timeout w t = Some w' -> minv (Sys w' h g).
Proof.
  intros Hinv Hfit [th Hth] E. pose proof (mi_wake _ Hinv) as Hw. cbn [wld] in Hw. unfold wakeup_timeout in E.
  destruct (wakeup_more (kern w) t th Hw Hth) as (k & th' & E0 & Hm & Hths & Hr & Hcnt). rewrite E0 in E.
  cbn in E. injection E as <-. apply minv_kern; try done.
  - apply (mr_wf _ _ Hm).
  - rewrite (mr_cur _ _ Hm). apply (mr_queued _ _ Hm), (mi_cur _ Hinv).
  - apply (mr_queued _ _ Hm), (mi_idle _ Hinv).
  - apply (mr_dom _ _ Hm).
  - intros t1 tx Htx Hrx. rewrite Hths. destruct (Z.eq_dec t t1) as [<-|Hn].
    + rewrite lookup_insert_eq. exists th'. rewrite Hth in Htx. injection Htx as <-.
      split_and!; try done. intros _. pose proof (Hfit t th Hth).
      destruct (sw_threads _ (proj1 Hw) _ _ Hth) as (_ & _ & Hwd). unfold is_word in Hwd.
      rewrite Hcnt, wrap_small by (try done; unfold is_word; lia). lia.
    + rewrite lookup_insert_ne by done. eauto.
Qed.

Lemma mstep_minv s s' : minv s -> mstep s s' -> minv s'.
Proof.
  intros Hinv Hst. destruct Hst as [w h g id w' Hi Hnw Hbig E|w h g t tr w' Hi Hnw E
    |w h g now b t w1 w' Hi Hg E1 E|w h g now id w' Hi Hwt Hg E|w h g now t tr w' Hi Hwt Hg E
    |w h g r w' Hnw Hfit E|w h g sw k E|w h g t w' Ht Hfit E].
  - destruct (minv_pass w h g false Hinv Hi) as (out & w0 & E0 & H); [by apply (going_waits w h)|done|].
    change (ke_mutex_lock w mx = Ret (out, w0)) in E0.
    rewrite E in E0. injection E0 as <- <-. by destruct H as [[_ H]|[? _]].
  - by apply (minv_lock_unlocked w h g t tr).
  - injection E1 as <- <- <-. destruct (minv_sleep w h g Hinv Hi Hg) as (w0 & E0 & H & _).
    rewrite E in E0. by injection E0 as ->.
  - rewrite resume_pass in E by apply Hinv.
    destruct (minv_pass w h g true Hinv Hi Hg Hwt) as (out & w0 & E0 & H).
    rewrite E in E0. injection E0 as <- <-. by destruct H as [[_ H]|[? _]].
  - rewrite resume_pass in E by apply Hinv.
    destruct (minv_pass w h g true Hinv Hi Hg Hwt) as (out & w0 & E0 & H).
    rewrite E in E0. injection E0 as <- <-. by destruct H as [[? _]|(_ & _ & H)].
  - destruct (minv_unlock w h g Hinv Hfit) as (r0 & w0 & E0 & H). rewrite E in E0. by injection E0 as _ ->.
  - destruct (preempt_step (kern w) idle (mi_wake _ Hinv) (mi_cur _ Hinv) (mi_idle _ Hinv))
      as (sw0 & k0 & E0 & Hw' & Hths & Hcq & Hiq).
    rewrite E in E0. injection E0 as <- <-. apply minv_kern; try done; rewrite Hths; eauto.
  - by apply (minv_outside w h g t).
Qed.

(** A waiter of a free mutex that has the CPU takes the mutex. *)
Lemma free_waiter_takes s now :
  minv s -> mutex_count (wld s) = 0 -> waits (wld s) (current (wld s)) ->
  (going s (current (wld s)) = true -> exists w', wait_sleep (wld s) BySleep = Some w' /\
     current w' = current (wld s)) /\
  (going s (current (wld s)) = false -> exists w',
     kt_wait_resume (wld s) (current (wld s)) [mx] BySleep KE_SYNC_WAIT_INFINITE now
       = Ret (Finished KE_WAIT_OK 0, w')).
Proof.
  destruct s as [w h g]. cbn [wld going]. intros Hinv Hc Hwt.
  assert (current w <> idle) as Hne.
  { destruct Hinv as [_ _ _ (q & c & o & Hs & _ & _ & Hq & _)]. destruct Hwt as (s & Hs' & Hin).
    cbn [wld] in Hs. rewrite Hs in Hs'. injection Hs' as <-. by apply (Hq _ Hin). }
  split; intros Hg.
  - destruct (minv_sleep w h g Hinv Hne Hg) as (w' & E & _ & Hcu). eauto.
  - rewrite resume_pass by apply Hinv.
    destruct (minv_pass w h g true Hinv Hne Hg Hwt) as (out & w' & E & [[-> _]|(_ & ? & _)]); [by exists w'|done].
Qed.

(** C1: in every state the threads can reach from a consistent one, through
    any interleaving of locking, recursive locking, unlocking a mutex that is
    waited for, going to sleep, waking up, preemption and outside wake-ups,
    wake-ups between the unlock and the sleep of a waiter included, at most one
    thread holds the mutex and the counter is how often it does.  As soon as
    the mutex is free every waiter is runnable, and one that has yet to call
    [kt_sleep] has a wake-up pending: when it gets the CPU its sleep returns at
    once without giving up the CPU, and a waiter that is past its sleep takes
    the mutex.  The mutex counter and the wake-up counters stay below 2^32. *)
Theorem mutex_safety s s' now :
  minv s -> rtc mstep s s' ->
  minv s' /\
  (forall t t', 0 < held s' t -> 0 < held s' t' -> t = t') /\
  (forall t, 0 < held s' t -> held s' t = mutex_count (wld s')) /\
  (mutex_count (wld s') = 0 -> forall t, waits (wld s') t ->
     exists th, threads (kern (wld s')) !! t = Some th /\ running th /\
       (going s' t = true -> wakeup_count th <> 0)) /\
  (mutex_count (wld s') = 0 -> waits (wld s') (current (wld s')) ->
     (going s' (current (wld s')) = true -> exists w', wait_sleep (wld s') BySleep = Some w' /\
        current w' = current (wld s')) /\
     (going s' (current (wld s')) = false -> exists w',
        kt_wait_resume (wld s') (current (wld s')) [mx] BySleep KE_SYNC_WAIT_INFINITE now
          = Ret (Finished KE_WAIT_OK 0, w'))).
Proof.
  intros Hinv Hst. assert (minv s') as Hinv'.
  { induction Hst as [|s1 s2 s3 H1 _ IH]; [done|]. apply IH. by eapply mstep_minv. }
  split; [done|]. pose proof (free_waiter_takes s' now Hinv') as Htake.
  destruct Hinv' as [_ _ _ (q & c & o & Hs & Hb & _ & _ & Hno & Hheld & Hwo)].
  split_and!; [| | |done]; unfold mutex_count, waits; rewrite ?Hs.
  - intros t t'. rewrite !Hheld. destruct (Z.eqb_spec t o), (Z.eqb_spec t' o), (0 <? c); cbn; try lia; congruence.
  - intros t. rewrite !Hheld. destruct (0 <? c), (t =? o); cbn; lia.
  - intros -> t (s0 & [= <-] & Hin). by apply (wo_free _ _ _ _ Hwo).
Qed.

End MutexSystem.

(** ** Properties *)

Definition sample_world : world := World sample_kernel {[ 100 := ke_mutex_init 0 0 10 false ]} [].

(** Thread 10 takes the mutex, thread 30 calls [ke_mutex_lock] and is
    preempted between its unlock and its sleep, thread 10 releases the mutex,
    and thread 30 gets the CPU again. *)
Definition next_world {A} (o : option (A * kernel)) (w : world) : world :=
  match o with Some (_, k) => set_kern w k | None => w end.
Definition w_locked : world :=
  match ke_mutex_lock sample_world 100 with Ret (_, w) => w | _ => sample_world end.
Definition w_woken : world := match wakeup_timeout w_locked 30 with Some w => w | None => w_locked end.
Definition w_yield1 : world := next_world (__schedule (kern w_woken)) w_woken.
Definition w_yield2 : world := next_world (__schedule (kern w_yield1)) w_yield1.
Definition w_going : world :=
  match ke_mutex_lock w_yield2 100 with Ret (_, w) => w | _ => w_yield2 end.
Definition w_yield3 : world := next_world (__schedule (kern w_going)) w_going.
Definition w_free : world :=
  match ke_mutex_unlock w_yield3 100 with Some (_, w) => w | None => w_yield3 end.
Definition w_late : world := next_world (__schedule (kern w_free)) w_free.

Definition w_late_held : Z -> Z := upd (upd (fun _ => 0) 10 1) 10 0.
Definition w_late_going : Z -> bool := upd (fun _ => false) 30 true.

Lemma sample_wakeable : wakeable sample_kernel.
Proof.
  split; [apply sample_kernel_wf|].
  intros t th [[-> ->]|[[-> ->]|[-> ->]]]%sample_threads; done.
Qed.

Lemma sample_minv : minv 100 20 (Sys sample_world (fun _ => 0) (fun _ => false)).
Proof.
  constructor; cbn [wld held going].
  - apply sample_wakeable.
  - vm_compute. apply list_elem_of_here.
  - vm_compute. apply list_elem_of_further, list_elem_of_here.
  - exists [], 0, 0. split_and!; try done; try lia.
    + apply NoDup_nil_2.
    + intros n []%not_elem_of_nil.
    + constructor; [done|]. intros _ t []%not_elem_of_nil.
Qed.

Lemma fit_dec w :
  forallb (fun p => wakeup_count (snd p) + 1 <? 4294967296) (map_to_list (threads (kern w))) = true ->
  wakeups_fit w.
Proof.
  intros H t th Hth. rewrite forallb_forall in H.
  specialize (H (t, th) (proj1 (list_elem_of_In _ _) (proj2 (elem_of_map_to_list _ _ _) Hth))). zbool. done.
Qed.

Lemma not_waits w t :
  (match syncs w !! 100 with Some s => negb (existsb (fun n => (fst n =? t) && (snd n =? 0)) (wait_queue s))
   | None => true end) = true -> ~ waits 100 w t.
Proof.
  intros H (s & Hs & Hin). rewrite Hs in H. apply negb_true_iff, not_true_iff_false in H. apply H.
  apply existsb_exists. exists (t, 0). rewrite <- list_elem_of_In, !Z.eqb_refl. done.
Qed.

Lemma late_steps :
  rtc (mstep (fun x => x) 100 20) (Sys sample_world (fun _ => 0) (fun _ => false))
    (Sys w_late w_late_held w_late_going).
Proof.
  eapply rtc_l; [apply (lock_taken _ 100 20 sample_world _ _ 0 w_locked); [done|by apply not_waits|done|vm_compute; reflexivity]|].
  eapply rtc_l; [apply (outside_wakeup _ 100 20 w_locked _ _ 30 w_woken);
                 [by eexists|by apply fit_dec; vm_compute|vm_compute; reflexivity]|].
  eapply rtc_l; [eapply (preempt _ 100 20 w_woken _ _ _ (kern w_yield1)); vm_compute; reflexivity|].
  eapply rtc_l; [eapply (preempt _ 100 20 w_yield1 _ _ _ (kern w_yield2)); vm_compute; reflexivity|].
  eapply rtc_l; [apply (lock_unlocked _ 100 20 w_yield2 _ _ KE_SYNC_WAIT_INFINITE false w_going);
                 [vm_compute; congruence|by apply not_waits; vm_compute|vm_compute; reflexivity]|].
  eapply rtc_l; [eapply (preempt _ 100 20 w_going _ _ _ (kern w_yield3)); vm_compute; reflexivity|].
  eapply rtc_l; [apply (unlock _ 100 20 w_yield3 _ _ 1 w_free);
                 [by apply not_waits; vm_compute|by apply fit_dec; vm_compute|vm_compute; reflexivity]|].
  apply rtc_once. eapply (preempt _ 100 20 w_free _ _ _ (kern w_late)). vm_compute. reflexivity.
Qed.

Lemma mutex_safety_witness :
  current w_late = 30 /\ mutex_count 100 w_late = 0 /\ waits 100 w_late 30 /\
  exists th, threads (kern w_late) !! 30 = Some th /\ running th /\
    (w_late_going 30 = true -> wakeup_count th <> 0).
Proof.
  assert (waits 100 w_late 30) as Hw.
  { exists (Sync [(30, 0)] (Mutex 0 0)). split; [vm_compute; reflexivity|apply list_elem_of_here]. }
  split_and!; [vm_compute; reflexivity|vm_compute; reflexivity|exact Hw|].
  apply (mutex_safety (fun x => x) 100 20 _ (Sys w_late w_late_held w_late_going) 0 sample_minv late_steps);
    [vm_compute; reflexivity|exact Hw].
Defined.

(** [ke_event_set] signals the event and wakes waiters in queue order,
    all of them when the event is reset by hand and the first one otherwise,
    losing no other thread.  Its result is the number of waiters for manual
    reset; for automatic reset it is 0 although one waiter was woken. *)
Theorem ke_event_set_correct w a q st manual :
  wakeable (kern w) -> syncs w !! a = Some (Sync q (Event st manual)) ->
  (forall n, n ∈ q -> is_Some (threads (kern w) !! fst n)) ->
  exists w', ke_event_set w a
      = Some (if manual then Z.of_nat (length q) else 0, w') /\
    syncs w' = <[a := Sync q (Event KE_SYNC_SIGNALED_OK manual)]> (syncs w) /\
    more_running (kern w) (kern w') /\
    forall n, n ∈ (if manual then q else take 1 q) ->
      exists th, threads (kern w') !! fst n = Some th /\ running th.
Proof.
  intros Hw Hs Hq. unfold ke_event_set, set_event, kt_sync_wakeup. rewrite Hs.
  cbn [mbind option_bind kind wait_queue set_sync syncs]. rewrite lookup_insert_eq.
  cbn [mbind option_bind wait_queue]. change (kern (set_sync w a _)) with (kern w).
  destruct (wakeup_loop_spec q (if manual then 0 else 1) 0 (kern w) Hw) as (k' & -> & Hm & Hrun);
    [by destruct manual|done|].
  cbn [mbind option_bind].
  exists (set_kern (set_sync w a (Sync q (Event KE_SYNC_SIGNALED_OK manual))) k').
  split; [|split_and!; [done|exact Hm|]].
  - do 2 f_equal. unfold woken_result. destruct manual; cbn [Z.eqb negb andb]; [lia|].
    destruct (Z.eqb_spec 1 0); [done|]. cbn [negb andb]. case_if; lia.
  - intros n Hn. apply Hrun. unfold woken. destruct manual.
    + cbn [Z.eqb]. rewrite Nat2Z.id. by rewrite take_ge by done.
    + change (1 =? 0) with false. cbn match.
      destruct q as [|x q]; [by rewrite take_nil in Hn|].
      rewrite Z.min_l by (cbn; lia). exact Hn.
Qed.

Lemma ke_event_set_witness :
  let w := World sample_kernel {[ 100 := Sync [(30, 0)] (Event KE_SYNC_SIGNALED_NO false) ]} [] in
  exists w', ke_event_set w 100 = Some (0, w') /\
    syncs w' = <[100 := Sync [(30, 0)] (Event KE_SYNC_SIGNALED_OK false)]> (syncs w) /\
    more_running (kern w) (kern w') /\
    forall n, n ∈ take 1 [(30, 0)] -> exists th, threads (kern w') !! fst n = Some th /\ running th.
Proof.
  intros w. apply (ke_event_set_correct w 100 [(30, 0)] KE_SYNC_SIGNALED_NO false).
  - apply sample_wakeable.
  - reflexivity.
  - intros n ->%list_elem_of_singleton. by eexists.
Defined.

(** ** Calls of [kt_wait_objects] that do not sleep *)

Lemma check_loop_spec w who objects i :
  (forall a, a ∈ objects -> is_Some (syncs w !! a)) ->
  (forall a s, a ∈ objects -> syncs w !! a = Some s -> signaled s who <> KE_SYNC_SIGNALED_CANCEL) ->
  (check_loop w who objects i = Some NoSignal /\
     forall a s, a ∈ objects -> syncs w !! a = Some s -> signaled s who <> KE_SYNC_SIGNALED_OK) \/
  exists j a s, check_loop w who objects i = Some (Signaled (i + Z.of_nat j)) /\
    objects !! j = Some a /\ syncs w !! a = Some s /\ signaled s who = KE_SYNC_SIGNALED_OK /\
    forall j' a' s', (j' < j)%nat -> objects !! j' = Some a' -> syncs w !! a' = Some s' ->
      signaled s' who <> KE_SYNC_SIGNALED_OK.
Proof.
  revert i. induction objects as [|a objects IH]; intros i Hex Hnc.
  - left. split; [done|]. intros a s []%not_elem_of_nil.
  - cbn [check_loop]. destruct (Hex a) as [s Hs]; [apply list_elem_of_here|]. rewrite Hs.
    cbn [mbind option_bind].
    specialize (IH (i + 1) (fun x Hx => Hex x (list_elem_of_further _ _ _ Hx))
                  (fun x s Hx => Hnc x s (list_elem_of_further _ _ _ Hx))).
    assert (signaled s who <> KE_SYNC_SIGNALED_CANCEL) as Hc by (apply (Hnc a s); [apply list_elem_of_here|done]).
    destruct (signaled s who) eqn:E; try done.
    { right. exists 0%nat, a, s. split_and!; try done; [by rewrite Z.add_0_r|]. intros; lia. }
    all: destruct IH as [[-> Hno]|(j & a' & s' & -> & Hj & Hs' & Hok & Hb)];
      [left; split; [done|]; intros x sx [->|Hx]%elem_of_cons Hsx; [congruence|by apply (Hno x)]|].
    all: right; exists (S j), a', s'; split_and!; try done;
      [do 2 f_equal; lia|intros [|j'] x sx Hlt Hx Hsx; [|apply (Hb j' x); [lia|done|done]]].
    all: cbn in Hx; injection Hx as <-; congruence.
Qed.

(** Taking nodes back does not depend on other objects. *)
Lemma del_waiters_other w who objects i a s w' :
  a ∉ objects -> del_waiters w who objects i = Some w' ->
  del_waiters (set_sync w a s) who objects i = Some (set_sync w' a s).
Proof.
  revert w i. induction objects as [|b objects IH]; intros w i Hna.
  - cbn. by intros [= <-].
  - cbn [del_waiters]. apply not_elem_of_cons in Hna as [Hab Hna].
    destruct (i <? KE_SYNC_STATIC_WAIT_NODE_COUNT); [|by intros [= <-]].
    cbn [syncs set_sync]. rewrite lookup_insert_ne by congruence.
    destruct (syncs w !! b) as [sb|]; [|done]. cbn [mbind option_bind]. intros H.
    specialize (IH _ _ Hna H). unfold set_sync in *. cbn in *. by rewrite insert_insert_ne by congruence.
Qed.

(** Queueing the nodes and taking them back restores the queues. *)
Lemma add_del_waiters w who objects i :
  (forall a, a ∈ objects -> exists s, syncs w !! a = Some s /\ forall j, (who, j) ∉ wait_queue s) ->
  NoDup objects ->
  exists ok w1, add_waiters w who objects i = Some (ok, w1) /\
    (KE_SYNC_STATIC_WAIT_NODE_COUNT < i + Z.of_nat (length objects) -> objects <> [] -> ok = false) /\
    del_waiters w1 who objects i = Some w /\
    forall a, a ∉ objects -> syncs w1 !! a = syncs w !! a.
Proof.
  revert w i. induction objects as [|a objects IH]; intros w i Hex Hnd.
  - by exists true, w.
  - cbn [add_waiters del_waiters length]. apply NoDup_cons in Hnd as [Hna Hnd].
    destruct (Hex a) as (s & Hs & Hno); [apply list_elem_of_here|].
    destruct (Z.ltb_spec i KE_SYNC_STATIC_WAIT_NODE_COUNT) as [Hi|Hi]; [|by exists false, w].
    rewrite Hs. cbn [mbind option_bind].
    set (s1 := Sync (wait_queue s ++ [(who, i)]) (kind s)).
    destruct (IH (set_sync w a s1) (i + 1)) as (ok & w1 & -> & Hok & Hdel & Hsame); [|done|].
    { intros x Hx. destruct (Hex x) as (sx & Hsx & Hnx); [by apply list_elem_of_further|].
      exists sx. split; [|done]. cbn. rewrite lookup_insert_ne; [done|]. by intros ->. }
    exists ok, w1. split; [done|]. split_and!.
    + intros Hlt _. apply Hok; [lia|]. intros ->. cbn in Hlt. lia.
    + rewrite Hsame by done. cbn [syncs set_sync]. rewrite lookup_insert_eq. cbn [mbind option_bind].
      rewrite (del_waiters_other _ _ _ _ _ _ _ Hna Hdel). unfold set_sync, s1. cbn.
      rewrite filter_app, filter_absent, filter_cons_False by auto.
      rewrite filter_nil, app_nil_r, insert_insert_eq, insert_id; [by destruct w|].
      rewrite Hs. by destruct s.
    + intros x [Hx Hx']%not_elem_of_cons. rewrite Hsame by done. cbn. by rewrite lookup_insert_ne.
Qed.

Lemma has_dup_false l : NoDup l -> has_dup l = false.
Proof.
  induction 1 as [|x l Hx _ IH]; [done|]. cbn. rewrite IH, orb_false_r.
  apply not_true_iff_false. intros (y & Hy & E)%existsb_exists. zbool. subst y.
  apply Hx. by apply list_elem_of_In.
Qed.

(** A waiting call on distinct objects, with no node of the thread queued
    yet.  If an object is signaled the call returns at once with the index of
    the first such object, on which alone the wait is recorded; otherwise it
    reports a time-out for timeout 0, and gives up without a trace when more
    than four objects would need wait nodes.  [wait_all] and more than 64
    objects are refused. *)
Theorem kt_wait_objects_immediate w who objects timeout :
  NoDup objects ->
  (forall a, a ∈ objects -> exists s, syncs w !! a = Some s /\ (forall j, (who, j) ∉ wait_queue s) /\
     signaled s who <> KE_SYNC_SIGNALED_CANCEL) ->
  kt_wait_objects w who objects true timeout = Ret (Finished KE_WAIT_ABANDONED 0, w) /\
  (64 < Z.of_nat (length objects) ->
     kt_wait_objects w who objects false timeout = Ret (Finished KE_WAIT_ABANDONED 0, w)) /\
  (Z.of_nat (length objects) <= 64 ->
   (exists j a s, objects !! j = Some a /\ syncs w !! a = Some s /\
      signaled s who = KE_SYNC_SIGNALED_OK /\
      (forall j' a' s', (j' < j)%nat -> objects !! j' = Some a' -> syncs w !! a' = Some s' ->
         signaled s' who <> KE_SYNC_SIGNALED_OK) /\
      kt_wait_objects w who objects false timeout
        = Ret (Finished KE_WAIT_OK (Z.of_nat j), set_sync w a (satisfied s who))) \/
   ((forall a s, a ∈ objects -> syncs w !! a = Some s -> signaled s who <> KE_SYNC_SIGNALED_OK) /\
    (timeout = 0 ->
       kt_wait_objects w who objects false timeout = Ret (Finished KE_WAIT_TIMEDOUT 0, w)) /\
    (timeout <> 0 -> 4 < Z.of_nat (length objects) ->
       kt_wait_objects w who objects false timeout = Ret (Finished KE_WAIT_ABANDONED 0, w)))).
Proof.
  intros Hnd Hex. unfold kt_wait_objects. split; [done|]. change Y_SYNC_MAX_OBJS_COUNT with 64. split.
  { intros Hl. by rewrite (proj2 (Z.ltb_lt _ _) Hl). }
  intros Hl. rewrite (proj2 (Z.ltb_ge _ _) Hl). unfold wait_pass. rewrite has_dup_false by done.
  destruct (check_loop_spec w who objects 0) as [[-> Hno]|(j & a & s & -> & Hj & Hs & Hok & Hb)].
  { intros a Ha. destruct (Hex a Ha) as (s & Hs & _). by rewrite Hs. }
  { intros a s Ha Hs. destruct (Hex a Ha) as (s' & Hs' & _ & Hc). congruence. }
  - right. split; [done|]. cbn [lift mbind run_bind]. split.
    + intros ->. done.
    + intros Ht H4. rewrite (proj2 (Z.eqb_neq timeout 0) Ht).
      destruct (add_del_waiters w who objects 0) as (ok & w1 & -> & Hok & Hdel & _); [|done|].
      { intros a Ha. destruct (Hex a Ha) as (s & Hs & Hn & _). eauto. }
      cbn [lift mbind run_bind]. rewrite Hok; [|unfold KE_SYNC_STATIC_WAIT_NODE_COUNT; lia|by destruct objects].
      rewrite Hdel. done.
  - left. exists j, a, s. split_and!; try done. cbn [lift mbind run_bind].
    unfold word_at. rewrite Z.add_0_l, (proj2 (Z.leb_le 0 _)), Nat2Z.id, Hj by lia.
    cbn [lift mbind run_bind]. rewrite Hs. done.
Qed.

Lemma kt_wait_objects_witness :
  let w := World sample_kernel (<[100 := Sync [] (Event KE_SYNC_SIGNALED_NO false)]>
             {[ 200 := Sync [] (Mutex 0 0) ]}) [] in
  kt_wait_objects w 10 [100; 200] true 5 = Ret (Finished KE_WAIT_ABANDONED 0, w) /\
  (64 < 2 ->
     kt_wait_objects w 10 [100; 200] false 5 = Ret (Finished KE_WAIT_ABANDONED 0, w)) /\
  (2 <= 64 ->
   (exists j a s, [100; 200] !! j = Some a /\ syncs w !! a = Some s /\
      signaled s 10 = KE_SYNC_SIGNALED_OK /\
      (forall j' a' s', (j' < j)%nat -> [100; 200] !! j' = Some a' -> syncs w !! a' = Some s' ->
         signaled s' 10 <> KE_SYNC_SIGNALED_OK) /\
      kt_wait_objects w 10 [100; 200] false 5
        = Ret (Finished KE_WAIT_OK (Z.of_nat j), set_sync w a (satisfied s 10))) \/
   ((forall a s, a ∈ [100; 200] -> syncs w !! a = Some s -> signaled s 10 <> KE_SYNC_SIGNALED_OK) /\
    (5 = 0 ->
       kt_wait_objects w 10 [100; 200] false 5 = Ret (Finished KE_WAIT_TIMEDOUT 0, w)) /\
    (5 <> 0 -> 4 < 2 ->
       kt_wait_objects w 10 [100; 200] false 5 = Ret (Finished KE_WAIT_ABANDONED 0, w)))).
Proof.
  intros w. apply (kt_wait_objects_immediate w 10 [100; 200] 5).
  - apply NoDup_cons. split; [by rewrite list_elem_of_singleton|apply NoDup_singleton].
  - intros a [->|Ha%list_elem_of_singleton]%elem_of_cons; [|subst a]; eexists;
      (split_and!; [reflexivity|intros j []%not_elem_of_nil|done]).
Defined.

(** ** Completions *)

Lemma complete_first w x who l th :
  wakeable (kern w) -> task_list x = who :: l -> 0 <= done_ x < 4294967295 ->
  threads (kern w) !! who = Some th ->
  exists k th', ke_complete w x = Some (set_kern w k, Completion (done_ x + 1) (who :: l)) /\
    wakeable k /\ threads k = <[who := th']> (threads (kern w)) /\ running th'.
Proof.
  intros [Hwf Hcl] Hl Hd Hth. unfold ke_complete. cbn [task_list]. rewrite Hl. cbn [head].
  destruct (wakeup_clean (kern w) who th Hwf Hth (Hcl _ _ Hth)) as (k & th' & -> & Hwf' & Hths & Hr & Hc & _).
  cbn [mbind option_bind]. rewrite wrap_small by (unfold is_word; lia).
  exists k, th'. split_and!; try done. split; [done|]. intros t tx. rewrite Hths.
  intros [[<- <-]|[_ Hx]]%lookup_insert_Some; [done|by apply (Hcl t)].
Qed.

(** [ke_complete] makes the first waiter runnable, and when that waiter
    runs its wait ends with a nonzero result, takes back the completion and
    removes its node from the queue. *)
Theorem completion_wakes_waiter w x who l now :
  wakeable (kern w) -> task_list x = who :: l -> who ∉ l -> 0 <= done_ x < 4294967295 ->
  is_Some (threads (kern w) !! who) ->
  exists w' x' th', ke_complete w x = Some (w', x') /\ wakeable (kern w') /\
    threads (kern w') !! who = Some th' /\ running th' /\
    forall w2, cur (cpu (kern w2)) = who ->
      __wait_resume w2 x' BySleep KE_SYNC_WAIT_INFINITE now
      = (CompDone KE_SYNC_WAIT_INFINITE, w2, Completion (done_ x) l).
Proof.
  intros Hw Hl Hni Hd [th Hth]. destruct (complete_first w x who l th Hw Hl Hd Hth) as (k & th' & -> & Hk & Hths & Hr).
  do 2 eexists. exists th'. split; [done|]. cbn [kern set_kern]. split_and!; try done.
  { by rewrite Hths, lookup_insert_eq. }
  intros w2 Hc. unfold __wait_resume, __wait_loop. rewrite Hc. cbn [done_ orb].
  rewrite (proj2 (Z.eqb_neq (done_ x + 1) 0)) by lia. cbn [negb]. unfold wait_exit. cbn [done_ task_list].
  rewrite (proj2 (Z.eqb_neq (done_ x + 1) 0)), filter_cons_False by (lia || auto).
  rewrite filter_absent by done. change (KE_SYNC_WAIT_INFINITE =? 0) with false. cbn match.
  by replace (done_ x + 1 - 1) with (done_ x) by lia.
Qed.

Lemma completion_wakes_waiter_witness :
  exists w' x' th', ke_complete sample_world (Completion 0 [30]) = Some (w', x') /\ wakeable (kern w') /\
    threads (kern w') !! 30 = Some th' /\ running th' /\
    forall w2, cur (cpu (kern w2)) = 30 ->
      __wait_resume w2 x' BySleep KE_SYNC_WAIT_INFINITE 0
      = (CompDone KE_SYNC_WAIT_INFINITE, w2, Completion 0 []).
Proof.
  apply (completion_wakes_waiter sample_world (Completion 0 [30]) 30 [] 0);
    [apply sample_wakeable|reflexivity|apply not_elem_of_nil|cbn; lia|by eexists].
Defined.

(** C16: two completions that arrive before the first waiter has run both wake
    that waiter: after it has left, one completion is still pending and the
    second waiter is exactly as it was, asleep with nothing to wake it. *)
Theorem completion_lost_wakeup w a b tha thb now :
  wakeable (kern w) -> a <> b ->
  threads (kern w) !! a = Some tha -> threads (kern w) !! b = Some thb -> ~ running thb ->
  exists w1 x1 w2 x2, ke_complete w (Completion 0 [a; b]) = Some (w1, x1) /\
    ke_complete w1 x1 = Some (w2, x2) /\
    threads (kern w2) !! b = Some thb /\
    forall w3, cur (cpu (kern w3)) = a ->
      __wait_resume w3 x2 BySleep KE_SYNC_WAIT_INFINITE now
      = (CompDone KE_SYNC_WAIT_INFINITE, w3, Completion 1 [b]).
Proof.
  intros Hw Hab Ha Hb Hnr.
  destruct (complete_first w (Completion 0 [a; b]) a [b] tha Hw eq_refl) as (k1 & th1 & E1 & Hw1 & Hths1 & _);
    [cbn; lia|done|].
  destruct (complete_first (set_kern w k1) (Completion 1 [a; b]) a [b] th1 Hw1 eq_refl)
    as (k2 & th2 & E2 & Hw2 & Hths2 & _); [cbn; lia|by cbn; rewrite Hths1, lookup_insert_eq|].
  do 4 eexists. split; [exact E1|]. split; [exact E2|]. split.
  - cbn [kern set_kern]. rewrite Hths2, lookup_insert_ne by done. cbn [kern set_kern].
    by rewrite Hths1, lookup_insert_ne.
  - intros w3 Hc. unfold __wait_resume, __wait_loop. rewrite Hc. unfold wait_exit. cbn [done_ task_list].
    change (1 + 1 =? 0) with false. cbn [orb negb]. rewrite filter_cons_False, filter_cons_True by auto.
    rewrite filter_nil. done.
Qed.

Lemma completion_lost_wakeup_witness :
  exists w1 x1 w2 x2, ke_complete sample_world (Completion 0 [20; 30]) = Some (w1, x1) /\
    ke_complete w1 x1 = Some (w2, x2) /\
    threads (kern w2) !! 30 = Some (Thread 2 0 2 0 0) /\
    forall w3, cur (cpu (kern w3)) = 20 ->
      __wait_resume w3 x2 BySleep KE_SYNC_WAIT_INFINITE 0
      = (CompDone KE_SYNC_WAIT_INFINITE, w3, Completion 1 [30]).
Proof.
  apply (completion_lost_wakeup sample_world 20 30 (Thread 2 0 1 0 3) (Thread 2 0 2 0 0) 0);
    [apply sample_wakeable|lia|reflexivity|reflexivity|done].
Defined.
