(* ===== verification/Vm.v ===== *)
(** * Virtual address spaces

    [source/kernel/memory/vm.c]: the address space of a process is the list
    [vm_list] of its sections ([struct ko_section], which begins with a
    [struct km_vm_node]), sorted by address.  The allocator walks a list of
    nodes, reads [start] and [size] of each and returns an address, 0 for
    failure.  The definitions take the list as the addresses of the nodes and
    the two reads as the function [rd]; a read of something that is not a node
    is [None].  Additions of addresses wrap at 32 bits as in the code. *)

From stdpp Require Import gmap.
From S2P Require Import Prelude.
Local Open Scope c_scope.

(** ** Constants of the i386 configuration *)

Definition PAGE_SIZE : Z := 4096.
Definition PHYS_OFFSET : Z := 0.
Definition CONFIG_HAL_KERNEL_BASE : Z := 0x80000000.
Definition CONFIG_HAL_KERNEL_MEM_LEN : Z := 0x40000000.
Definition CONFIG_HAL_KERNEL_VM_LEN : Z := 0x40000000.
Definition HAL_GET_BASIC_KADDRESS (phy : Z) : Z :=
  (phy - PHYS_OFFSET) +w CONFIG_HAL_KERNEL_BASE.

Definition ALIGN (x a : Z) : Z := Z.land (x +w (a - 1)) (w_not (a - 1)).

Definition KP_CPL0 : Z := 0.
Definition KP_CPL0_FAKE : Z := 1.
Definition KP_USER : Z := 3.

Definition KS_TYPE_PRIVATE : Z := 1.
Definition KS_TYPE_DEVICE : Z := 3.
Definition KS_TYPE_EXE : Z := 4.
Definition KS_TYPE_STACK : Z := 5.
Definition KS_TYPE_FILE : Z := 6.
Definition KS_TYPE_SHARE : Z := 7.
Definition KS_TYPE_KERNEL : Z := 8.
Definition KS_TYPE_MAX : Z := 10.
Definition KS_TYPE_MASK : Z := 0xffff.
Definition KS_TYPE_ADD_SUB : Z := 0x10000.

(** ** Sections

    [priv] is a union of four words at offset 40 of the structure: the first
    is [share.size], [exe.exe_object] or [file.file], the others are
    [share.offset], [share.src] and [share.src_process]. *)

Record km_vm_node := Node { start : Z; size : Z }.

Record ko_section := Section_ {
  node : km_vm_node;
  type : Z;
  prot : Z;
  priv0 : Z;
  priv1 : Z;
  priv2 : Z;
  priv3 : Z;
  subsection_head : list Z    (* the sections linked by subsection_link *)
}.

Notation sections := (gmap Z ko_section).

Definition set_node (s : ko_section) (n : km_vm_node) : ko_section :=
  Section_ n (type s) (prot s) (priv0 s) (priv1 s) (priv2 s) (priv3 s) (subsection_head s).

Definition set_subs (s : ko_section) (l : list Z) : ko_section :=
  Section_ (node s) (type s) (prot s) (priv0 s) (priv1 s) (priv2 s) (priv3 s) l.

(** [list_entry(t, struct km_vm_node, node)] and the reads of [start] and
    [size] through it.  For an element [t = &p->node] they are those of [p].
    For an element [t = &p->subsection_link] the computed pointer is 16 bytes
    above [p], and the two words read are at offsets 40 and 44 of the section. *)
Definition rd_node (m : sections) (p : Z) : option (Z * Z) :=
  s ← m !! p; Some (start (node s), size (node s)).
Definition rd_sublink (m : sections) (p : Z) : option (Z * Z) :=
  s ← m !! p; Some (priv0 s, priv1 s).

Record ko_process := Proc { cpl : Z; vm_list : list Z }.

Module VmOps.

Section Spaces.
Variable rd : Z -> option (Z * Z).

(** The test of the loop: [pS] is right of the new range and [pP] left of it. *)
Definition hole_at (pP sstart start size : Z) : option bool :=
  if (start <? sstart) && (start +w size <=? sstart) then
    if pP =? 0 then Some true
    else '(ps, pz) ← rd pP; Some (ps +w pz <=? start)
  else Some false.

(** The loop of [alloc_virtual_space]: [start], [pP] and [pS] after it. *)
Fixpoint scan_spaces (l : list Z) (range_start range_len desired size start pP pS : Z)
  : option (Z * Z * Z) :=
  match l with
  | [] => Some (start, pP, pS)
  | s :: l =>
    '(ss, sz) ← rd s;
    hole ← hole_at pP ss start size;
    if (hole : bool) then Some (start, pP, s)
    else if desired =? 0 then
      let next := ss +w sz in
      if next <=? start then scan_spaces l range_start range_len desired size start s s
      else if range_start +w range_len <? next +w size then Some (next, s, s)
      else scan_spaces l range_start range_len desired size next s s
    else scan_spaces l range_start range_len desired size start s s
  end.

(** What follows the loop: the label [check_limit] and the exits. *)
Definition check_limit (range_start range_len size start : Z) : Z :=
  if (start +w size <=? range_len +w range_start) && (range_start <=? start)
  then start else 0.

Definition after_scan (range_start range_len size start pP pS : Z) : option Z :=
  if pP =? pS then
    if (pP =? 0) && (pS =? 0) then Some (check_limit range_start range_len size start)
    else
      '(ss, sz) ← rd pS;
      if ss +w sz <=? start then Some (check_limit range_start range_len size start)
      else Some 0
  else Some (check_limit range_start range_len size start).

Definition alloc_virtual_space (usage_list : list Z) (range_start range_len desired size : Z)
  : option Z :=
  let start := if desired =? 0 then range_start else desired in
  '(start, pP, pS) ← scan_spaces usage_list range_start range_len desired size start 0 0;
  after_scan range_start range_len size start pP pS.

(** The loop of [insert_virtual_space]: [None] when no node was found. *)
Fixpoint insert_before (l : list Z) (who wstart wsize : Z) : option (option (list Z)) :=
  match l with
  | [] => Some None
  | p :: l =>
    '(ps, _) ← rd p;
    if (wstart <? ps) && (wstart +w wsize <=? ps) then Some (Some (who :: p :: l))
    else r ← insert_before l who wstart wsize; Some (option_map (cons p) r)
  end.

Definition insert_virtual_space (l : list Z) (who wstart wsize : Z) : option (bool * list Z) :=
  r ← insert_before l who wstart wsize;
  match r with
  | Some l' => Some (true, l')
  | None =>
    match last l with
    | None => Some (true, l ++ [who])
    | Some p =>
      '(ps, pz) ← rd p;
      Some (if ps +w pz <=? wstart then (true, l ++ [who]) else (false, l))
    end
  end.

End Spaces.

(** [(start, size, desired_start, desired_size)]; [None] is [BUG()]. *)
Definition get_vm_range (process_cpl desired_start desired_size : Z) (is_type_kernel : bool)
  : option (Z * Z * Z * Z) :=
  '(start, size, ds, dz) ←
    (if process_cpl =? KP_CPL0 then
       Some (HAL_GET_BASIC_KADDRESS PHYS_OFFSET +w CONFIG_HAL_KERNEL_MEM_LEN,
             CONFIG_HAL_KERNEL_VM_LEN - PAGE_SIZE, desired_start, desired_size)
     else if (process_cpl =? KP_CPL0_FAKE) || (process_cpl =? KP_USER) then
       let user_start := 0x400000 in
       let size := HAL_GET_BASIC_KADDRESS PHYS_OFFSET -w user_start in
       if is_type_kernel then
         Some (HAL_GET_BASIC_KADDRESS PHYS_OFFSET, size, HAL_GET_BASIC_KADDRESS PHYS_OFFSET, size)
       else Some (user_start, size, desired_start, desired_size)
     else None);
  Some (start, size, ds, ALIGN dz PAGE_SIZE).

Definition is_type_kernel (type : Z) : bool :=
  (type =? KS_TYPE_KERNEL) || (type =? KS_TYPE_DEVICE).

(** [node] is the section at this address; its [start] and [size] hold the
    request and are overwritten. *)
Definition km_vm_create (m : sections) (where_ : ko_process) (node_ type : Z)
  : option (bool * sections * ko_process) :=
  s ← m !! node_;
  '(rs, rl, ds, dz) ← get_vm_range (cpl where_) (start (node s)) (size (node s)) (is_type_kernel type);
  r ← alloc_virtual_space (rd_node m) (vm_list where_) rs rl ds dz;
  let m := <[node_ := set_node s (Node r dz)]> m in
  if r =? 0 then Some (false, m, where_) else
  '(ok, l) ← insert_virtual_space (rd_node m) (vm_list where_) node_ r dz;
  if (ok : bool) then Some (true, m, Proc (cpl where_) l) else Some (false, m, where_).

Definition km_vm_delete (where_ : ko_process) (what : Z) : ko_process :=
  Proc (cpl where_) (filter (fun q => q <> what) (vm_list where_)).

(** The list walked is the list of the [subsection_link]s of the parent. *)
Definition km_vm_create_sub (m : sections) (parent sub_node start_ size_ : Z)
  : option (Z * sections) :=
  ps ← m !! parent;
  base ← alloc_virtual_space (rd_sublink m) (subsection_head ps)
           (start (node ps)) (size (node ps)) start_ size_;
  if base =? 0 then Some (0, m) else
  ss ← m !! sub_node;
  let m := <[sub_node := set_node ss (Node base size_)]> m in
  '(_, l) ← insert_virtual_space (rd_sublink m) (subsection_head ps) sub_node base size_;
  ps ← m !! parent;
  Some (base, <[parent := set_subs ps l]> m).

(** [exp.c]: the section that contains an address. *)
Fixpoint get_by_vaddress (rd : Z -> option (Z * Z)) (l : list Z) (address : Z) : option Z :=
  match l with
  | [] => Some 0
  | p :: l =>
    '(s, z) ← rd p;
    if (s <=? address) && (address <? s +w z) then Some p
    else if address <? s then Some 0
    else get_by_vaddress rd l address
  end.

Definition ks_get_by_vaddress (m : sections) (where_ : ko_process) (address : Z) : option Z :=
  get_by_vaddress (rd_node m) (vm_list where_) address.

(** [section.c]: the subsection that contains an address. *)
Fixpoint sub_locate (rd : Z -> option (Z * Z)) (l : list Z) (address : Z) : option Z :=
  match l with
  | [] => Some 0
  | p :: l =>
    '(s, z) ← rd p;
    if (s <=? address) && (address <? s +w z) then Some p else sub_locate rd l address
  end.

Definition ks_sub_locate (m : sections) (where_ address : Z) : option Z :=
  s ← m !! where_;
  sub_locate (rd_node m) (subsection_head s) address.

End VmOps.
Import VmOps.

(** ** Sorted lists of disjoint ranges

    [spaces rd lo l]: the nodes of [l] are readable, not empty, end below
    [2^32], start at or above [lo], and each ends before the next starts. *)

Fixpoint spaces (rd : Z -> option (Z * Z)) (lo : Z) (l : list Z) : Prop :=
  match l with
  | [] => True
  | p :: l => exists s z, p <> 0 /\ rd p = Some (s, z) /\ lo <= s /\ 0 < z /\
                is_word (s + z) /\ spaces rd (s + z) l
  end.

(** The range of [size] bytes at [a] meets no node of [l]. *)
Definition free (rd : Z -> option (Z * Z)) (l : list Z) (a size : Z) : Prop :=
  forall p s z, p ∈ l -> rd p = Some (s, z) -> a + size <= s \/ s + z <= a.

(** The lowest address at or above [a] where [size] bytes fit. *)
Fixpoint first_fit (rd : Z -> option (Z * Z)) (l : list Z) (a size : Z) : Z :=
  match l with
  | [] => a
  | p :: l =>
    match rd p with
    | Some (s, z) => if a + size <=? s then a else first_fit rd l (Z.max a (s + z)) size
    | None => first_fit rd l a size
    end
  end.

Section SpaceLemmas.
Context (rd : Z -> option (Z * Z)).

Lemma spaces_weaken lo lo' l : lo' <= lo -> spaces rd lo l -> spaces rd lo' l.
Proof. destruct l as [|p l]; [done|]. intros Hlo (s & z & ? & ? & ? & ? & ?). exists s, z. split_and!; try done; try lia; tauto. Qed.

Lemma spaces_elem lo l p :
  spaces rd lo l -> p ∈ l ->
  exists s z, p <> 0 /\ rd p = Some (s, z) /\ lo <= s /\ 0 < z /\ is_word (s + z).
Proof.
  revert lo. induction l as [|q l IH]; intros lo Hs Hp; [by apply not_elem_of_nil in Hp|].
  destruct Hs as (s & z & Hq & Hr & Hlo & Hz & Hw & Hl).
  apply elem_of_cons in Hp as [->|Hp]; [by exists s, z|].
  destruct (IH _ Hl Hp) as (s' & z' & ? & ? & ? & ? & ?). exists s', z'. split_and!; try done; lia.
Qed.

(** A range that ends before the first node is free. *)
Lemma free_below lo l a size : spaces rd lo l -> a + size <= lo -> free rd l a size.
Proof.
  intros Hs Ha p s z Hp Hr. destruct (spaces_elem _ _ _ Hs Hp) as (s' & z' & _ & Hr' & ? & _).
  simplify_eq. lia.
Qed.

Lemma free_cons p l a size s z :
  rd p = Some (s, z) ->
  free rd (p :: l) a size <-> (a + size <= s \/ s + z <= a) /\ free rd l a size.
Proof.
  intros Hr. split.
  - intros H. split; [apply (H p); [apply list_elem_of_here|done]|].
    intros q s' z' Hq. apply H. by apply list_elem_of_further.
  - intros [Hp H] q s' z' Hq Hr'. apply elem_of_cons in Hq as [->|Hq]; [by simplify_eq|].
    by apply (H q).
Qed.

Lemma free_nil a size : free rd [] a size.
Proof. intros p s z Hp. by apply not_elem_of_nil in Hp. Qed.

#[global] Instance free_dec l a size : Decision (free rd l a size).
Proof.
  induction l as [|p l IH]; [left; apply free_nil|].
  destruct (rd p) as [[s z]|] eqn:Hr.
  - destruct (decide ((a + size <= s \/ s + z <= a) /\ free rd l a size)) as [H|H];
      [left|right]; by rewrite (free_cons p l a size s z Hr).
  - destruct IH as [H|H]; [left|right].
    + intros q s z Hq Hrq. apply elem_of_cons in Hq as [->|Hq]; [by rewrite Hr in Hrq|]. by apply (H q).
    + intros H'. apply H. intros q s z Hq. apply H'. by apply list_elem_of_further.
Defined.

(** The previous node of the loop: none, or a node that ends at [lo]. *)
Definition prev_ok (pP lo : Z) : Prop :=
  pP = 0 /\ lo = 0 \/
  pP <> 0 /\ exists s z, rd pP = Some (s, z) /\ 0 < z /\ s + z = lo /\ is_word lo.

Lemma prev_ok_next p s z : p <> 0 -> rd p = Some (s, z) -> 0 < z -> is_word (s + z) -> prev_ok p (s + z).
Proof. right. split; [done|]. by exists s, z. Qed.

Lemma prev_ne pP lo p s z : prev_ok pP lo -> p <> 0 -> rd p = Some (s, z) -> lo <= s -> pP <> p.
Proof.
  intros [[-> _]|(_ & s' & z' & Hr & ? & ? & _)] Hp Hr' Hlo E; [congruence|].
  subst p. rewrite Hr in Hr'. injection Hr' as -> ->. lia.
Qed.

Lemma hole_at_eq pP lo ss start size :
  prev_ok pP lo -> 0 <= start -> 0 < size -> is_word (start + size) ->
  hole_at rd pP ss start size = Some ((start + size <=? ss) && (lo <=? start)).
Proof.
  intros Hp Hst Hsz Hw. unfold hole_at. rewrite (wrap_small (start + size)) by done.
  destruct (Z.leb_spec (start + size) ss).
  - rewrite (proj2 (Z.ltb_lt start ss)) by lia. cbn [andb].
    destruct Hp as [[-> ->]|(Hne & s & z & -> & Hz & Hl & Hlo)].
    + cbn [Z.eqb]. f_equal. symmetry. apply Z.leb_le. lia.
    + rewrite (proj2 (Z.eqb_neq pP 0) Hne). cbn [mbind option_bind].
      rewrite wrap_small by (by rewrite Hl). by rewrite Hl.
  - by rewrite andb_false_r.
Qed.

(** The code after the loop, when the loop ran to the end or left at a node. *)
Lemma after_scan_end rs rl size start pP lo :
  prev_ok pP lo -> 0 <= start ->
  after_scan rd rs rl size start pP pP =
    Some (if lo <=? start then check_limit rs rl size start else 0).
Proof.
  intros Hp Hst. unfold after_scan. rewrite Z.eqb_refl.
  destruct Hp as [[-> ->]|(Hne & s & z & -> & Hz & Hl & Hlo)].
  - cbn [Z.eqb andb]. by rewrite (proj2 (Z.leb_le 0 start)) by lia.
  - rewrite (proj2 (Z.eqb_neq pP 0) Hne). cbn [andb mbind option_bind].
    rewrite wrap_small by (by rewrite Hl). rewrite Hl. by case_if.
Qed.

Lemma after_scan_hole rs rl size start pP pS :
  pP <> pS -> after_scan rd rs rl size start pP pS = Some (check_limit rs rl size start).
Proof. intros H. unfold after_scan. by rewrite (proj2 (Z.eqb_neq pP pS) H). Qed.

Lemma check_limit_eq rs rl size start :
  is_word (start + size) -> is_word (rs + rl) ->
  check_limit rs rl size start =
    if (start + size <=? rs + rl) && (rs <=? start) then start else 0.
Proof. intros. unfold check_limit. rewrite (Z.add_comm rl rs), !wrap_small by done. done. Qed.

(** The rest of the function after the loop, as a function of its result. *)
Definition finish (rs rl size : Z) (o : option (Z * Z * Z)) : option Z :=
  match o with Some (st, p, q) => after_scan rd rs rl size st p q | None => None end.

(** ** A desired address *)

Lemma scan_desired rs rl desired size pP lo l :
  spaces rd lo l -> prev_ok pP lo -> 0 < desired -> 0 < size -> is_word (desired + size) ->
  finish rs rl size (scan_spaces rd l rs rl desired size desired pP pP) =
  Some (if bool_decide (lo <= desired /\ free rd l desired size)
        then check_limit rs rl size desired else 0).
Proof.
  revert pP lo. induction l as [|p l IH]; intros pP lo Hl Hp Hd Hz Hw; cbn [scan_spaces].
  - cbn [finish]. rewrite (after_scan_end _ _ _ _ _ lo) by (done || lia).
    f_equal. case_if; case_bool_decide as H; try done.
    + destruct H. split; [done|apply free_nil].
    + destruct H as [H _]. lia.
  - destruct Hl as (s & z & Hne & Hr & Hlo & Hz' & Hw' & Hl). rewrite Hr.
    cbn [mbind option_bind]. rewrite (hole_at_eq pP lo) by (done || lia). cbn [mbind option_bind].
    rewrite (proj2 (Z.eqb_neq desired 0)) by lia.
    pose proof (free_cons p l desired size s z Hr) as Hf.
    destruct (Z.leb_spec (desired + size) s), (Z.leb_spec lo desired); cbn [andb].
    1: { cbn [finish]. rewrite after_scan_hole by (by apply (prev_ne _ lo _ s z)).
         rewrite bool_decide_true; [done|]. split; [done|]. apply Hf. split; [lia|].
         apply (free_below (s + z)); [done|lia]. }
    all: rewrite (IH p (s + z)) by (done || by apply prev_ok_next); f_equal.
    all: case_bool_decide as H1; case_bool_decide as H2; try done; exfalso.
    all: first [apply H2; split; [lia|]; apply Hf; split; [lia|by apply H1]
               | apply H1; split; [|by apply Hf, H2]; destruct H2 as [? [? _]%Hf]; lia].
Qed.

(** ** Any address *)

Lemma first_fit_ge l a size : a <= first_fit rd l a size.
Proof.
  revert a. induction l as [|p l IH]; intros a; cbn; [lia|].
  destruct (rd p) as [[s z]|]; [|done]. case_if; [lia|].
  etransitivity; [|apply IH]. lia.
Qed.

Lemma first_fit_free lo l a size : spaces rd lo l -> 0 < size -> free rd l (first_fit rd l a size) size.
Proof.
  revert lo a. induction l as [|p l IH]; intros lo a Hl Hz; [apply free_nil|].
  destruct Hl as (s & z & Hne & Hr & Hlo & Hz' & Hw' & Hl). cbn. rewrite Hr.
  apply (free_cons p l _ size s z Hr). case_if.
  - split; [lia|]. apply (free_below (s + z)); [done|lia].
  - split; [|by apply (IH (s + z))]. right. etransitivity; [|apply first_fit_ge]. lia.
Qed.

(** No lower address fits. *)
Lemma first_fit_least lo l a size b :
  spaces rd lo l -> 0 < size -> a <= b < first_fit rd l a size -> ~ free rd l b size.
Proof.
  revert lo a. induction l as [|p l IH]; intros lo a Hl Hz; cbn; [lia|].
  destruct Hl as (s & z & Hne & Hr & Hlo & Hz' & Hw' & Hl). rewrite Hr.
  case_if; [lia|]. intros Hb [Hp Hf]%(free_cons p l _ size s z Hr).
  apply (IH (s + z) (Z.max a (s + z)) Hl Hz); [lia|done].
Qed.

Lemma scan_auto rs rl size st pP lo l :
  spaces rd lo l -> prev_ok pP lo -> lo <= st -> 0 < size -> 0 <= rs <= st -> is_word (rs + rl) ->
  st + size <= rs + rl ->
  (forall p s z, p ∈ l -> rd p = Some (s, z) -> s < rs + rl -> is_word (s + z + size)) ->
  finish rs rl size (scan_spaces rd l rs rl 0 size st pP pP) =
  Some (let a := first_fit rd l st size in if a + size <=? rs + rl then a else 0).
Proof.
  revert pP lo st. induction l as [|p l IH]; intros pP lo st Hl Hp Hlo Hz Hrs Hw Hend Hnw;
    cbn [scan_spaces first_fit].
  - cbn [finish]. rewrite (after_scan_end _ _ _ _ _ lo) by (done || lia).
    rewrite (proj2 (Z.leb_le lo st)), check_limit_eq by (done || unfold is_word in *; lia).
    rewrite (proj2 (Z.leb_le rs st)) by lia. by rewrite andb_true_r.
  - destruct Hl as (s & z & Hne & Hr & Hlo' & Hz' & Hw' & Hl). rewrite Hr.
    cbn [mbind option_bind].
    rewrite (hole_at_eq pP lo) by (done || unfold is_word in *; lia). cbn [mbind option_bind Z.eqb].
    rewrite (proj2 (Z.leb_le lo st)), andb_true_r by lia.
    destruct (Z.leb_spec (st + size) s).
    + cbn [finish]. rewrite after_scan_hole by (by apply (prev_ne _ lo _ s z)).
      rewrite check_limit_eq by (done || unfold is_word in *; lia).
      rewrite (proj2 (Z.leb_le rs st)) by lia. by rewrite andb_true_r.
    + rewrite (wrap_small (s + z)), (wrap_small (rs + rl)) by done.
      assert (is_word (s + z + size)) as Hn by (apply (Hnw p); [apply list_elem_of_here|done|lia]).
      rewrite (wrap_small (s + z + size)) by done.
      assert (prev_ok p (s + z)) as Hp' by (by apply prev_ok_next).
      assert (forall q s z, q ∈ l -> rd q = Some (s, z) -> s < rs + rl -> is_word (s + z + size))
        by (intros q s' z' Hq; apply Hnw; by apply list_elem_of_further).
      destruct (Z.leb_spec (s + z) st); [|destruct (Z.ltb_spec (rs + rl) (s + z + size))].
      * rewrite (IH p (s + z)) by (done || lia). by rewrite Z.max_l by lia.
      * cbn [finish]. rewrite (after_scan_end _ _ _ _ _ (s + z)) by (done || lia).
        rewrite (proj2 (Z.leb_le (s + z) (s + z))), check_limit_eq by (done || lia).
        rewrite (proj2 (Z.leb_gt (s + z + size) (rs + rl))) by lia. cbn [andb].
        cbv zeta. pose proof (first_fit_ge l (Z.max st (s + z)) size).
        rewrite (proj2 (Z.leb_gt _ (rs + rl))) by lia. done.
      * rewrite (IH p (s + z)) by (done || lia). by rewrite Z.max_r by lia.
Qed.

(** ** Insertion *)

Lemma insert_before_spec lo l who w n :
  spaces rd lo l -> rd who = Some (w, n) -> who <> 0 -> 0 < n -> is_word (w + n) -> lo <= w ->
  free rd l w n ->
  exists l', insert_virtual_space rd l who w n = Some (true, l') /\ spaces rd lo l' /\
    l' ≡ₚ who :: l.
Proof.
  intros Hl Hw Hwho Hn Hwn Hlo Hf. unfold insert_virtual_space.
  assert (exists r, insert_before rd l who w n = Some r /\
    match r with
    | Some l' => spaces rd lo l' /\ l' ≡ₚ who :: l
    | None => spaces rd lo (l ++ [who]) /\
              forall p s z, last l = Some p -> rd p = Some (s, z) -> s + z <= w
    end) as (r & -> & Hr).
  { revert lo Hl Hlo Hf. induction l as [|p l IH]; intros lo Hl Hlo Hf; cbn [insert_before].
    - exists None. split; [done|]. split; [|done]. exists w, n. split_and!; done.
    - destruct Hl as (s & z & Hne & Hr & Hlo' & Hz & Hsz & Hl). rewrite Hr. cbn [mbind option_bind].
      apply (free_cons p l w n s z Hr) in Hf as [Hp Hf]. rewrite (wrap_small (w + n)) by done.
      destruct (Z.leb_spec (w + n) s).
      + rewrite (proj2 (Z.ltb_lt w s)) by lia. cbn [andb]. eexists. split; [done|].
        split; [|done]. exists w, n. split_and!; try done. exists s, z. split_and!; done.
      + rewrite andb_false_r. destruct (IH (s + z)) as (r & -> & Hr'); [done|lia|done|].
        cbn [mbind option_bind option_map]. eexists. split; [done|]. destruct r as [l'|]; cbn.
        * destruct Hr' as [Hs Hperm]. split; [exists s, z; by split_and!|].
          rewrite Hperm. constructor.
        * destruct Hr' as [Hs Hlast]. split; [exists s, z; by split_and!|].
          destruct l as [|p' l]; [|exact Hlast]. intros q s' z' [= <-] Hq.
          rewrite Hr in Hq. injection Hq as <- <-. lia. }
  cbn [mbind option_bind]. destruct r as [l'|]; [by exists l'|]. destruct Hr as [Hs Hlast].
  exists (l ++ [who]). assert (l ++ [who] ≡ₚ who :: l) by (rewrite Permutation_app_comm; done).
  destruct (last l) as [p|] eqn:Hla; [|done].
  destruct (spaces_elem lo l p Hl) as (s & z & _ & Hr & _ & _ & Hsz);
    [rewrite last_lookup in Hla; by eapply list_elem_of_lookup_2|].
  rewrite Hr. cbn [mbind option_bind]. rewrite wrap_small by done.
  rewrite (proj2 (Z.leb_le (s + z) w)) by (by apply (Hlast p)). done.
Qed.

(** Only the nodes of the list are read. *)
Lemma spaces_ext rd' lo l : (forall p, p ∈ l -> rd' p = rd p) -> spaces rd lo l -> spaces rd' lo l.
Proof.
  revert lo. induction l as [|p l IH]; [done|]. intros lo H (s & z & ? & ? & ? & ? & ? & Hl).
  exists s, z. split_and!; try done; [rewrite H; [done|apply list_elem_of_here]|].
  apply IH; [|done]. intros q Hq. apply H. by apply list_elem_of_further.
Qed.

Lemma spaces_filter lo l x : spaces rd lo l -> spaces rd lo (filter (fun q => q <> x) l).
Proof.
  revert lo. induction l as [|p l IH]; [done|]. intros lo (s & z & ? & ? & ? & ? & ? & Hl).
  rewrite filter_cons. destruct (decide (p <> x)); [exists s, z; split_and!; auto|].
  apply (spaces_weaken (s + z)); [lia|]. by apply IH.
Qed.

Lemma spaces_nodup lo l : spaces rd lo l -> NoDup l.
Proof.
  revert lo. induction l as [|p l IH]; intros lo Hl; [constructor|].
  destruct Hl as (s & z & ? & Hr & ? & ? & ? & Hl). constructor; [|by eapply IH].
  intros Hp. destruct (spaces_elem _ _ _ Hl Hp) as (s' & z' & _ & Hr' & ? & _). simplify_eq. lia.
Qed.

(** ** Lookup *)

Definition covers (p address : Z) : Prop :=
  exists s z, rd p = Some (s, z) /\ s <= address < s + z.

Lemma covers_above lo l p a : spaces rd lo l -> p ∈ l -> covers p a -> lo <= a.
Proof.
  intros Hl Hp (s & z & Hr & Ha). destruct (spaces_elem _ _ _ Hl Hp) as (s' & z' & _ & Hr' & ? & _).
  simplify_eq. lia.
Qed.

Lemma get_by_vaddress_spec lo l a :
  spaces rd lo l ->
  exists r, get_by_vaddress rd l a = Some r /\
    ((r = 0 /\ forall p, p ∈ l -> ~ covers p a) \/ (r <> 0 /\ r ∈ l /\ covers r a)).
Proof.
  revert lo. induction l as [|p l IH]; intros lo Hl; cbn [get_by_vaddress].
  - exists 0. split; [done|]. left. split; [done|]. intros p Hp. by apply not_elem_of_nil in Hp.
  - destruct Hl as (s & z & Hne & Hr & Hlo & Hz & Hw & Hl). rewrite Hr. cbn [mbind option_bind].
    rewrite wrap_small by done.
    destruct (Z.leb_spec s a), (Z.ltb_spec a (s + z)); cbn [andb].
    1: { exists p. split; [done|]. right. split_and!; [done|apply list_elem_of_here|].
         exists s, z. split; [done|lia]. }
    3: lia.
    + destruct (Z.ltb_spec a s); [lia|]. destruct (IH _ Hl) as (r & -> & [[-> Hn]|(Hr0 & Hin & Hc)]).
      * exists 0. split; [done|]. left. split; [done|]. intros q [->|Hq]%elem_of_cons; [|by apply Hn].
        intros (s' & z' & Hr' & ?). simplify_eq. lia.
      * exists r. split; [done|]. right. split_and!; try done. by apply list_elem_of_further.
    + destruct (Z.ltb_spec a s); [|lia]. exists 0. split; [done|]. left. split; [done|].
      intros q [->|Hq]%elem_of_cons Hc.
      * destruct Hc as (s' & z' & Hr' & ?). simplify_eq. lia.
      * pose proof (covers_above _ _ _ _ Hl Hq Hc). lia.
Qed.

End SpaceLemmas.

(** ** Creation in a process *)

(** [size] bytes at [a] lie in the range and meet no node. *)
Definition fits (rd : Z -> option (Z * Z)) (l : list Z) (rs rl a size : Z) : Prop :=
  rs <= a /\ a + size <= rs + rl /\ free rd l a size.

(** The additions of [alloc_virtual_space] do not overflow. *)
Definition no_wrap (rd : Z -> option (Z * Z)) (l : list Z) (rs rl desired size : Z) : Prop :=
  if desired =? 0
  then size <= rl /\ forall p s z, p ∈ l -> rd p = Some (s, z) -> s < rs + rl -> is_word (s + z + size)
  else 0 < desired /\ is_word (desired + size).

Lemma get_vm_range_user ds dz :
  get_vm_range KP_USER ds dz (is_type_kernel KS_TYPE_PRIVATE) =
    Some (0x400000, 0x7FC00000, ds, ALIGN dz PAGE_SIZE).
Proof. reflexivity. Qed.

Lemma alloc_finish rd l rs rl desired size :
  alloc_virtual_space rd l rs rl desired size =
    finish rd rs rl size (scan_spaces rd l rs rl desired size (if desired =? 0 then rs else desired) 0 0).
Proof. reflexivity. Qed.

Lemma alloc_space_spec rd l rs rl desired size :
  spaces rd 0 l -> 0 < size -> 0 < rs -> is_word (rs + rl) -> no_wrap rd l rs rl desired size ->
  exists r, alloc_virtual_space rd l rs rl desired size = Some r /\
    ((r <> 0 /\ fits rd l rs rl r size /\
      if desired =? 0 then forall a, a < r -> ~ fits rd l rs rl a size else r = desired) \/
     (r = 0 /\ if desired =? 0 then forall a, ~ fits rd l rs rl a size
               else ~ fits rd l rs rl desired size)).
Proof.
  intros Hl Hz Hrs Hw Hnw. rewrite alloc_finish. unfold no_wrap in *.
  assert (prev_ok rd 0 0) as Hp by (by left).
  destruct (Z.eqb_spec desired 0) as [->|Hd].
  - destruct Hnw as [Hs Hnw]. rewrite (scan_auto rd rs rl size rs 0 0 l) by (done || lia).
    set (a := first_fit rd l rs size). pose proof (first_fit_ge rd l rs size) as Hge. fold a in Hge.
    assert (forall b, b < a -> ~ fits rd l rs rl b size) as Hleast.
    { intros b Hb (Hb1 & _ & Hf). revert Hf. apply (first_fit_least rd 0 l rs); [done|done|]. fold a. lia. }
    eexists. split; [done|]. cbv zeta. destruct (Z.leb_spec (a + size) (rs + rl)).
    + left. split_and!; [lia| |done]. split_and!; [done|done|]. by apply (first_fit_free rd 0).
    + right. split; [done|]. intros b Hf. destruct (Z.lt_ge_cases b a); [by apply (Hleast b)|].
      destruct Hf as (_ & ? & _). lia.
  - destruct Hnw as [Hd' Hw']. rewrite (scan_desired rd rs rl desired size 0 0 l) by (done || lia).
    rewrite check_limit_eq by done. eexists. split; [done|]. unfold fits.
    case_bool_decide as Hf; [|right; split; [done|]; intros (_ & _ & ?); apply Hf; split; [lia|done]].
    destruct Hf as [_ Hf].
    destruct (Z.leb_spec (desired + size) (rs + rl)), (Z.leb_spec rs desired); cbn [andb];
      [left; by split_and!|right; split; [done|lia]..].
Qed.

Lemma rd_node_ext m m' (l : list Z) :
  (forall q, q ∈ l -> m' !! q = m !! q) -> forall q, q ∈ l -> rd_node m' q = rd_node m q.
Proof. intros H q Hq. unfold rd_node. by rewrite H. Qed.

(** [km_vm_create] fails only without a hole; the insertion that follows a
    successful allocation never fails, and the list stays sorted. *)
Lemma vm_create_spec m w n type s rs rl ds dz :
  m !! n = Some s -> n <> 0 -> n ∉ vm_list w -> spaces (rd_node m) 0 (vm_list w) ->
  get_vm_range (cpl w) (start (node s)) (size (node s)) (is_type_kernel type) = Some (rs, rl, ds, dz) ->
  0 < dz -> 0 < rs -> is_word (rs + rl) -> no_wrap (rd_node m) (vm_list w) rs rl ds dz ->
  exists ok r w', km_vm_create m w n type = Some (ok, <[n := set_node s (Node r dz)]> m, w') /\
    cpl w' = cpl w /\ spaces (rd_node (<[n := set_node s (Node r dz)]> m)) 0 (vm_list w') /\
    if ok then vm_list w' ≡ₚ n :: vm_list w /\ fits (rd_node m) (vm_list w) rs rl r dz /\
               (ds <> 0 -> r = ds)
    else w' = w /\ forall a, (ds <> 0 -> a = ds) -> ~ fits (rd_node m) (vm_list w) rs rl a dz.
Proof.
  intros Hn Hn0 Hnin Hl Hrange Hz Hrs Hw Hnw. unfold km_vm_create. rewrite Hn. cbn [mbind option_bind].
  rewrite Hrange. cbn [mbind option_bind].
  destruct (alloc_space_spec _ _ _ _ _ _ Hl Hz Hrs Hw Hnw) as (r & -> & Hr). cbn [mbind option_bind].
  set (m' := <[n := set_node s (Node r dz)]> m).
  assert (forall q, q ∈ vm_list w -> rd_node m' q = rd_node m q) as Hext.
  { apply rd_node_ext. intros q Hq. apply lookup_insert_ne. intros <-. done. }
  pose proof (spaces_ext _ _ _ _ Hext Hl) as Hl'.
  destruct Hr as [(Hr0 & Hfit & Hd)|[-> Hno]].
  - rewrite (proj2 (Z.eqb_neq r 0) Hr0). pose proof Hfit as (Hr1 & Hr2 & Hfree).
    destruct (insert_before_spec (rd_node m') 0 (vm_list w) n r dz) as (l' & -> & Hs & Hp); try done;
      [unfold rd_node, m'; by rewrite lookup_insert_eq|unfold is_word in *; lia|lia| |].
    { intros q s' z' Hq. rewrite Hext by done. by apply Hfree. }
    cbn [mbind option_bind]. exists true, r, (Proc (cpl w) l'). split_and!; try done.
    intros Hds. by rewrite (proj2 (Z.eqb_neq ds 0) Hds) in Hd.
  - cbn [Z.eqb]. exists false, 0, w. split_and!; try done.
    intros a Ha. destruct (Z.eqb_spec ds 0) as [->|Hds]; [done|]. by rewrite Ha.
Qed.

(** ** Samples: a user process with the shared kernel section at 4096 and two
    sections of its own. *)

Definition sample_section (s z : Z) : ko_section := Section_ (Node s z) 1 3 0 0 0 0 [].
Definition sample_sections : sections :=
  {[ 4096 := sample_section 0x80000000 0x7FC00000; 4160 := sample_section 0x400000 0x1000;
     4224 := sample_section 0x402000 0x2000; 4288 := sample_section 0 0x1800 ]}.
Definition sample_process : ko_process := Proc KP_USER [4160; 4224; 4096].

Ltac solve_spaces :=
  repeat first [exact I | eexists _, _; split_and!; try done].

Lemma sample_spaces : spaces (rd_node sample_sections) 0 (vm_list sample_process).
Proof. solve_spaces. Qed.

(** ** Theorems *)

(** On a sorted list of disjoint nodes, when the additions do not
    overflow, [alloc_virtual_space] returns.  A result that is not 0 lies in
    the range and meets no node; it is the desired address if one is given and
    otherwise the lowest address that fits.  The result 0 means that the
    desired address does not fit, or that none does. *)
Theorem alloc_virtual_space_correct rd l rs rl desired size :
  spaces rd 0 l -> 0 < size -> 0 < rs -> is_word (rs + rl) -> no_wrap rd l rs rl desired size ->
  exists r, alloc_virtual_space rd l rs rl desired size = Some r /\
    ((r <> 0 /\ fits rd l rs rl r size /\
      if desired =? 0 then forall a, a < r -> ~ fits rd l rs rl a size else r = desired) \/
     (r = 0 /\ if desired =? 0 then forall a, ~ fits rd l rs rl a size
               else ~ fits rd l rs rl desired size)).
Proof. apply alloc_space_spec. Qed.

Lemma alloc_virtual_space_witness :
  exists r, alloc_virtual_space (rd_node sample_sections) [4160; 4224; 4096] 0x400000 0x7FC00000 0 0x1000
            = Some r /\
    ((r <> 0 /\ fits (rd_node sample_sections) [4160; 4224; 4096] 0x400000 0x7FC00000 r 0x1000 /\
      forall a, a < r -> ~ fits (rd_node sample_sections) [4160; 4224; 4096] 0x400000 0x7FC00000 a 0x1000) \/
     (r = 0 /\ forall a, ~ fits (rd_node sample_sections) [4160; 4224; 4096] 0x400000 0x7FC00000 a 0x1000)).
Proof.
  apply (alloc_virtual_space_correct (rd_node sample_sections) [4160; 4224; 4096] 0x400000 0x7FC00000 0 0x1000);
    [apply sample_spaces|lia|lia|vm_compute; split; congruence|].
  split; [lia|]. intros p s z Hp Hr Hs.
  repeat (apply elem_of_cons in Hp as [->|Hp]; [vm_compute in Hr; injection Hr as <- <-;
    first [vm_compute; split; congruence|exfalso; vm_compute in Hs; congruence]|]).
  by apply not_elem_of_nil in Hp.
Defined.

(** Without that condition the result can be wrong.  In a user process
    that only has the shared kernel section, a request larger than the user
    range is not refused: the addition wraps and the section is placed at the
    end of the kernel section, outside the user range. *)
Theorem km_vm_create_wraps m k n s :
  k <> 0 -> k <> n -> rd_node m k = Some (0x80000000, 0x7FC00000) -> m !! n = Some s ->
  start (node s) = 0 -> 0x7FC00000 < ALIGN (size (node s)) PAGE_SIZE <= 0x80400000 ->
  km_vm_create m (Proc KP_USER [k]) n KS_TYPE_PRIVATE =
    Some (true, <[n := set_node s (Node 0xFFC00000 (ALIGN (size (node s)) PAGE_SIZE))]> m,
          Proc KP_USER [k; n]).
Proof.
  intros Hk0 Hkn Hk Hn Hst Hz. unfold km_vm_create. rewrite Hn. cbn [mbind option_bind]. rewrite Hst.
  set (z := ALIGN (size (node s)) PAGE_SIZE) in *.
  cbn [cpl vm_list]. rewrite get_vm_range_user. fold z. cbn [mbind option_bind].
  assert (alloc_virtual_space (rd_node m) [k] 0x400000 0x7FC00000 0 z = Some 0xFFC00000) as ->.
  { unfold alloc_virtual_space. cbn [Z.eqb scan_spaces]. rewrite Hk. cbn [mbind option_bind].
    unfold hole_at. rewrite (wrap_small (0x400000 + z)) by (unfold is_word; lia).
    rewrite (proj2 (Z.leb_gt (0x400000 + z) 0x80000000)) by lia. rewrite andb_false_r. cbn [mbind option_bind].
    assert (wrap (0x80000000 + 0x7FC00000) = 0xFFC00000) as -> by reflexivity.
    assert ((0xFFC00000 <=? 0x400000) = false) as -> by reflexivity.
    assert (wrap (0x400000 + 0x7FC00000) = 0x80000000) as -> by reflexivity.
    assert (wrap (0xFFC00000 + z) = z - 0x400000) as Hwr
      by (unfold wrap; symmetry; apply (Z.mod_unique_pos _ _ 1); lia).
    rewrite Hwr, (proj2 (Z.ltb_ge 0x80000000 (z - 0x400000))) by lia. cbn [mbind option_bind].
    unfold after_scan, check_limit. rewrite Z.eqb_refl, (proj2 (Z.eqb_neq k 0) Hk0). cbn [andb].
    rewrite Hk. cbn [mbind option_bind]. rewrite Hwr.
    assert (wrap (0x80000000 + 0x7FC00000) = 0xFFC00000) as -> by reflexivity.
    assert (wrap (0x7FC00000 + 0x400000) = 0x80000000) as -> by reflexivity.
    assert ((0xFFC00000 <=? 0xFFC00000) = true) as -> by reflexivity.
    assert ((0x400000 <=? 0xFFC00000) = true) as -> by reflexivity.
    by rewrite (proj2 (Z.leb_le (z - 0x400000) 0x80000000)) by lia. }
  cbn [mbind option_bind Z.eqb]. unfold insert_virtual_space. cbn [insert_before].
  assert (rd_node (<[n := set_node s (Node 0xFFC00000 z)]> m) k = Some (0x80000000, 0x7FC00000)) as Hk'.
  { unfold rd_node in *. by rewrite lookup_insert_ne. }
  rewrite Hk'. cbn [mbind option_bind].
  assert ((0xFFC00000 <? 0x80000000) = false) as -> by reflexivity.
  cbn [andb mbind option_bind option_map last]. by rewrite Hk'.
Qed.

Lemma km_vm_create_wraps_witness :
  exists m', km_vm_create {[ 4096 := sample_section 0x80000000 0x7FC00000; 4160 := sample_section 0 0x7FC00001 ]}
    (Proc KP_USER [4096]) 4160 KS_TYPE_PRIVATE = Some (true, m', Proc KP_USER [4096; 4160]).
Proof.
  eexists. apply (km_vm_create_wraps _ 4096 4160 (sample_section 0 0x7FC00001));
    first [done|vm_compute; split; congruence].
Defined.

(** The lookup of a fault address in a well-formed address space returns
    the section of the process that contains it, and NULL exactly when none
    does. *)
Theorem ks_get_by_vaddress_correct m w address :
  spaces (rd_node m) 0 (vm_list w) ->
  exists r, ks_get_by_vaddress m w address = Some r /\
    ((r = 0 /\ forall p, p ∈ vm_list w -> ~ covers (rd_node m) p address) \/
     (r <> 0 /\ r ∈ vm_list w /\ covers (rd_node m) r address)).
Proof. apply get_by_vaddress_spec. Qed.

Lemma ks_get_by_vaddress_witness :
  exists r, ks_get_by_vaddress sample_sections sample_process 0x402abc = Some r /\
    ((r = 0 /\ forall p, p ∈ vm_list sample_process -> ~ covers (rd_node sample_sections) p 0x402abc) \/
     (r <> 0 /\ r ∈ vm_list sample_process /\ covers (rd_node sample_sections) r 0x402abc)).
Proof. apply (ks_get_by_vaddress_correct sample_sections sample_process 0x402abc sample_spaces). Defined.

Lemma alloc_stale rd l rs rl desired size pP :
  (forall p, p ∈ l -> p <> 0 /\ rd p = Some (0, 0)) -> 0 < desired ->
  (pP = 0 \/ rd pP = Some (0, 0)) ->
  finish rd rs rl size (scan_spaces rd l rs rl desired size desired pP pP) =
    Some (check_limit rs rl size desired).
Proof.
  intros Hl Hd. revert pP. induction l as [|p l IH]; intros pP Hp; cbn [scan_spaces].
  - cbn [finish]. unfold after_scan. rewrite Z.eqb_refl. destruct (Z.eqb_spec pP 0) as [->|Hne]; [done|].
    destruct Hp as [?| ->]; [done|]. cbn [andb mbind option_bind]. change (wrap (0 + 0)) with 0.
    by rewrite (proj2 (Z.leb_le 0 desired)) by lia.
  - destruct (Hl p) as [Hp0 Hr]; [apply list_elem_of_here|]. rewrite Hr. cbn [mbind option_bind].
    unfold hole_at. rewrite (proj2 (Z.ltb_ge desired 0)), (proj2 (Z.eqb_neq desired 0)) by lia.
    cbn [andb mbind option_bind]. apply IH; [|by right]. intros q Hq. apply Hl. by apply list_elem_of_further.
Qed.

Lemma insert_stale rd l who w n :
  (forall p, p ∈ l -> p <> 0 /\ rd p = Some (0, 0)) -> 0 < w ->
  insert_virtual_space rd l who w n = Some (true, l ++ [who]).
Proof.
  intros Hl Hw. unfold insert_virtual_space.
  assert (insert_before rd l who w n = Some None) as ->.
  { induction l as [|p l IH]; [done|]. cbn [insert_before].
    destruct (Hl p) as [_ ->]; [apply list_elem_of_here|]. cbn [mbind option_bind].
    rewrite (proj2 (Z.ltb_ge w 0)) by lia. cbn [andb].
    rewrite IH; [done|]. intros q Hq. apply Hl. by apply list_elem_of_further. }
  cbn [mbind option_bind]. destruct (last l) as [p|] eqn:Hla; [|done].
  destruct (Hl p) as [_ ->]; [rewrite last_lookup in Hla; by eapply list_elem_of_lookup_2|].
  cbn [mbind option_bind]. change (wrap (0 + 0)) with 0. by rewrite (proj2 (Z.leb_le 0 w)) by lia.
Qed.

(** [km_vm_create_sub] does not see the subsections that exist.  The
    list of the parent links the [subsection_link]s and the allocator reads it
    as a list of [node]s, so that it reads two words of [priv], which are 0 in
    a new subsection: a desired range inside the parent is accepted whatever
    subsections already overlap it, and the new one is linked last. *)
Theorem km_vm_create_sub_overlaps m parent ps sub ss a z :
  m !! parent = Some ps -> m !! sub = Some ss -> sub <> parent -> sub ∉ subsection_head ps ->
  (forall p, p ∈ subsection_head ps -> p <> 0 /\ exists s, m !! p = Some s /\ priv0 s = 0 /\ priv1 s = 0) ->
  0 < a -> is_word (a + z) -> is_word (start (node ps) + size (node ps)) ->
  start (node ps) <= a -> a + z <= start (node ps) + size (node ps) ->
  km_vm_create_sub m parent sub a z =
    Some (a, <[parent := set_subs ps (subsection_head ps ++ [sub])]> (<[sub := set_node ss (Node a z)]> m)).
Proof.
  intros Hp Hs Hne Hnin Hz Ha Haz Hpz Hlo Hhi. unfold km_vm_create_sub. rewrite Hp. cbn [mbind option_bind].
  assert (forall p, p ∈ subsection_head ps -> p <> 0 /\ rd_sublink m p = Some (0, 0)) as Hst.
  { intros p Hpin. destruct (Hz p Hpin) as (H0 & s & E & H1 & H2). split; [done|].
    unfold rd_sublink. rewrite E. cbn. by rewrite H1, H2. }
  assert (alloc_virtual_space (rd_sublink m) (subsection_head ps) (start (node ps)) (size (node ps)) a z
          = Some a) as ->.
  { unfold alloc_virtual_space. rewrite (proj2 (Z.eqb_neq a 0)) by lia.
    etransitivity; [apply (alloc_stale (rd_sublink m)); [done|done|by left]|].
    rewrite check_limit_eq by done. by rewrite (proj2 (Z.leb_le (a + z) _)), (proj2 (Z.leb_le _ a)) by lia. }
  cbn [mbind option_bind]. rewrite (proj2 (Z.eqb_neq a 0)), Hs by lia. cbn [mbind option_bind].
  rewrite insert_stale; [|intros p Hpin; split; [by apply Hst|]|done].
  - cbn [mbind option_bind]. rewrite lookup_insert_ne, Hp by done. done.
  - unfold rd_sublink. rewrite lookup_insert_ne by (intros <-; done). by apply Hst.
Qed.

(** Two subsections of one page at the same address. *)
Lemma km_vm_create_sub_overlaps_witness :
  let m : sections := {[ 4096 := Section_ (Node 0x400000 0x4000) 4 3 0 0 0 0 [4160];
                         4160 := sample_section 0x401000 0x1000; 4224 := sample_section 0 0 ]} in
  exists m', km_vm_create_sub m 4096 4224 0x401000 0x1000 = Some (0x401000, m').
Proof.
  intros m. eexists.
  apply (km_vm_create_sub_overlaps m 4096 (Section_ (Node 0x400000 0x4000) 4 3 0 0 0 0 [4160]) 4224 (sample_section 0 0));
    first [done|vm_compute; split; congruence|idtac].
  - by intros ?%list_elem_of_singleton.
  - intros p ->%list_elem_of_singleton. split; [done|]. by eexists.
Defined.
