(* ===== verification/KoSection.v ===== *)
(** * Memory sections

    [source/kernel/memory/section.c] and the parts of [vm.c] that create
    sections: a section is a kernel object (its block comes from the object
    manager) that is also a node of the address space of a process.  What the
    code relies on of the object manager is the class [ObjectPool], which the
    model of [libs/common/object] implements.  The state [kstate] holds the
    pool, the contents of the live sections, and one process; the calls that
    leave this component ([km_page_dealloc_range], [kp_exe_close]) are recorded
    in the order they are made.  Reading a section that has been given back to
    the pool is a [Fault]. *)

From stdpp Require Import gmap strings.
From S2P Require Import Prelude Bits Bitmap BlkBuf Object Vm.
Import BkbOps ObjectOps VmOps.

(** ** What the object manager promises

    [E] is the environment of a call: the fuel of the loops and the memory the
    pool may be extended with. *)

Class ObjectPool (M E : Type) := {
  pool_create : E -> M -> run (Z * M);
  pool_inc : M -> Z -> option M;
  pool_close : E -> M -> Z -> run M;
  pool_ref : M -> Z -> option Z;                (* the counter of a live object *)
  pool_ready : E -> M -> Prop;
  pool_ok : E -> M -> Prop;
  pool_ready_ok : forall e m, pool_ready e m -> pool_ok e m;
  pool_create_law : forall e m, pool_ready e m ->
    exists p m', pool_create e m = Ret (p, m') /\ pool_ok e m' /\
      ((p = 0 /\ forall q, pool_ref m' q = pool_ref m q) \/
       (p <> 0 /\ pool_ref m p = None /\
        forall q, pool_ref m' q = if q =? p then Some 0 else pool_ref m q));
  pool_close_law : forall e m p r, pool_ok e m -> pool_ref m p = Some r ->
    -2147483648 < r < 2147483648 ->
    exists m', pool_close e m p = Ret m' /\ pool_ok e m' /\
      forall q, pool_ref m' q =
        if q =? p then (if r <=? 1 then None else Some (r - 1)) else pool_ref m q;
  pool_inc_law : forall e m p r, pool_ok e m -> pool_ref m p = Some r ->
    exists m', pool_inc m p = Some m' /\ pool_ok e m' /\
      forall q, pool_ref m' q = if q =? p then Some (to_int (r + 1)) else pool_ref m q
}.

(** The environment of [cl_object_create]: fuel, raw memory and the result of
    [add_space]. *)
Record obj_env := Env { env_fuel : nat; env_mem : Z -> Z; env_space : option (Z * Z) }.

Lemma TO_CL_OBJECT_inj p q : TO_CL_OBJECT p = TO_CL_OBJECT q <-> p = q.
Proof. unfold TO_CL_OBJECT. lia. Qed.

(** The counters after an update of one header. *)
Lemma ref_insert (o : gmap Z cl_object) p q x :
  ref <$> (<[TO_CL_OBJECT p := x]> o) !! TO_CL_OBJECT q =
    if q =? p then Some (ref x) else ref <$> o !! TO_CL_OBJECT q.
Proof.
  destruct (Z.eqb_spec q p) as [->|Hne]; [by rewrite lookup_insert_eq|].
  by rewrite lookup_insert_ne by (rewrite TO_CL_OBJECT_inj; congruence).
Qed.

#[export] Instance object_pool : ObjectPool cl_object_type obj_env.
Proof.
  refine {|
    pool_create := fun e m => cl_object_create (env_fuel e) (env_mem e) m (env_space e) (Some (fun _ => true));
    pool_inc := cl_object_inc_ref;
    pool_close := fun e m p => cl_object_close (env_fuel e) m p true;
    pool_ref := cl_object_get_ref_counter;
    pool_ready := fun e m => exists l nl, type_wf m l nl /\ (forall x, is_word (env_mem e x)) /\
      good_space (env_fuel e) (obj_allocator m) (obj_insts m) (env_space e) /\
      (S (length l) < env_fuel e)%nat;
    pool_ok := fun e m => exists l nl, type_wf m l nl /\ (length l < env_fuel e)%nat
  |}.
  - intros e m (l & nl & Hwf & _ & _ & Hf). exists l, nl. split; [done|lia].
  - intros e m (l & nl & Hwf & Hm & Hsp & Hf).
    destruct (object_create_spec (env_fuel e) (env_mem e) m l nl (env_space e) (Some (fun _ => true)))
      as (r & m' & l' & E & Hwf' & Hl & Hr); try done; [by intros f u [= <-]|].
    exists r, m'. split; [done|]. split; [exists l', nl; split; [done|lia]|].
    unfold cl_object_get_ref_counter. destruct Hr as [(-> & -> & _)|(Hp & Hno & -> & _)]; [by left|right].
    split_and!; [unfold TO_CL_OBJECT, SIZEOF_OBJECT in Hp; lia|by rewrite Hno|].
    intros q. by rewrite ref_insert.
  - intros e m p r (l & nl & Hwf & Hf) Hr Hb. apply fmap_Some in Hr as (o & Ho & ->).
    destruct (object_close_spec (env_fuel e) m l nl p o true Hwf Hf Ho Hb) as (m' & E & Hwf' & _ & Hob).
    exists m'. split; [done|]. split; [by exists l, nl|]. unfold cl_object_get_ref_counter. intros q. rewrite Hob. case_if; [|by rewrite ref_insert].
    destruct (Z.eqb_spec q p) as [->|Hne]; [by rewrite lookup_delete_eq|].
    by rewrite lookup_delete_ne by (rewrite TO_CL_OBJECT_inj; congruence).
  - intros e m p r (l & nl & Hwf & Hf) Hr. apply fmap_Some in Hr as (o & Ho & ->).
    destruct (add_ref_spec m l nl p 1 o Hwf Ho) as (m' & E & Hwf' & Hob & _).
    exists m'. split; [done|]. split; [by exists l, nl|]. unfold cl_object_get_ref_counter. intros q. by rewrite Hob, ref_insert.
Defined.

(** ** Constants of the interface *)

Definition KM_PROT_READ : Z := 1.
Definition KM_PROT_WRITE : Z := 2.
Definition KM_MAP_DEVICE : Z := 0x10000.
Definition KM_MAP_PHYSICAL_FLAG_WITH_VIRTUAL : Z := 1.
Definition KM_MAP_PHYSICAL_FLAG_NORMAL_CACHE : Z := 2.
Definition PAGE_SHIFT : Z := 12.
Definition PAGE_MASK : Z := 0xfffff000.

(** [object_init] on a zeroed block. *)
Definition new_section : ko_section := Section_ (Node 0 0) 0 0 0 0 0 0 [].

Section Sections.
Context {M E : Type} `{ObjectPool M E}.

Record kstate := KState {
  pool : M;
  mem : sections;
  proc : ko_process;
  pages_freed : list (Z * Z);    (* km_page_dealloc_range(start, size) *)
  exes_closed : list Z           (* kp_exe_close(exe) *)
}.

Definition set_pool (st : kstate) (m : M) : kstate :=
  KState m (mem st) (proc st) (pages_freed st) (exes_closed st).
Definition set_mem (st : kstate) (m : sections) : kstate :=
  KState (pool st) m (proc st) (pages_freed st) (exes_closed st).
Definition set_proc (st : kstate) (w : ko_process) : kstate :=
  KState (pool st) (mem st) w (pages_freed st) (exes_closed st).

Definition section_create (e : E) (st : kstate) : run (Z * kstate) :=
  '(p, m) ← pool_create e (pool st);
  let st := set_pool st m in
  if p =? 0 then Ret (0, st) else Ret (p, set_mem st (<[p := new_section]> (mem st))).

(** The node of a section is linked when it is in the list of the process. *)
Definition remove_from_space (st : kstate) (p : Z) : run kstate :=
  if bool_decide (p ∈ vm_list (proc st)) then
    s ← lift (mem st !! p);
    Ret (KState (pool st) (mem st) (km_vm_delete (proc st) p)
           (pages_freed st ++ [(start (node s), size (node s))]) (exes_closed st))
  else Ret st.

Definition object_close (st : kstate) (p : Z) : run kstate :=
  s ← lift (mem st !! p);
  let t := Z.land (type s) KS_TYPE_MASK in
  if t =? KS_TYPE_EXE then
    st ← remove_from_space st p;
    if priv0 s =? 0 then Ret st
    else Ret (KState (pool st) (mem st) (proc st) (pages_freed st) (exes_closed st ++ [priv0 s]))
  else if t =? KS_TYPE_FILE then remove_from_space st p
  else Ret st.

(** [cl_object_close]: one reference less, the callback, and the block goes
    back to the pool with the last reference. *)
Definition ks_close (e : E) (st : kstate) (p : Z) : run kstate :=
  m ← pool_close e (pool st) p;
  st ← object_close st p;
  let st := set_pool st m in
  Ret (match pool_ref m p with Some _ => st | None => set_mem st (delete p (mem st)) end).

Definition ks_open_by (st : kstate) (p : Z) : run kstate :=
  m ← lift (pool_inc (pool st) p); Ret (set_pool st m).

Definition ks_create (e : E) (st : kstate) (type base size prot : Z) : run (Z * kstate) :=
  '(p, st) ← section_create e st;
  if p =? 0 then Ret (0, st) else
  let st := set_mem st (<[p := Section_ (Node base size) type prot 0 0 0 0 []]> (mem st)) in
  '(ok, m, w) ← lift (km_vm_create (mem st) (proc st) p type);
  let st := set_proc (set_mem st m) w in
  if (ok : bool) then Ret (p, st)
  else st ← ks_close e st p; Ret (0, st).

Definition ks_share (st : kstate) (from where_ dst offset : Z) : run kstate :=
  m ← lift (pool_inc (pool st) where_);
  s ← lift (mem st !! dst);
  Ret (set_mem (set_pool st m)
         (<[dst := Section_ (node s) KS_TYPE_SHARE (prot s) (priv0 s) offset where_ from
                     (subsection_head s)]> (mem st))).

Definition ks_sub_create (e : E) (st : kstate) (where_ sub_address sub_size : Z) : run (Z * kstate) :=
  '(sub, st) ← section_create e st;
  if sub =? 0 then Ret (0, st) else
  let st := set_mem st (<[sub := Section_ (Node 0 0) (Z.lor KS_TYPE_PRIVATE KS_TYPE_ADD_SUB)
                                   KM_PROT_READ 0 0 0 0 []]> (mem st)) in
  '(base, m) ← lift (km_vm_create_sub (mem st) where_ sub sub_address sub_size);
  let st := set_mem st m in
  if base =? 0 then st ← ks_close e st sub; Ret (0, st)
  else Ret (sub, st).

(** The loop of [ks_sub_close]: [list_del_init] is applied to [node], by which
    a subsection is not linked, so that the list of the parent keeps it. *)
Fixpoint sub_close_loop (e : E) (st : kstate) (l : list Z) : run kstate :=
  match l with
  | [] => Ret st
  | sub :: l =>
    _ ← lift (mem st !! sub);
    st ← ks_close e (set_proc st (km_vm_delete (proc st) sub)) sub;
    sub_close_loop e st l
  end.

Definition ks_sub_close (e : E) (st : kstate) (which : Z) : run kstate :=
  s ← lift (mem st !! which);
  sub_close_loop e st (subsection_head s).

Definition ks_init_for_process (e : E) (st : kstate) : run (bool * kstate) :=
  let st := set_proc st (Proc (cpl (proc st)) []) in
  if cpl (proc st) =? KP_CPL0 then Ret (true, st)
  else '(p, st) ← ks_create e st KS_TYPE_KERNEL 0 0 0; Ret (negb (p =? 0), st).

(** [map_range start size pfn prot] is the result of [km_page_map_range]; the
    process of the state is the system process. *)
Definition km_map_physical (e : E) (map_range : Z -> Z -> Z -> Z -> bool) (st : kstate)
    (physical size_ flags : Z) : run (Z * kstate) :=
  let base := if Z.land flags KM_MAP_PHYSICAL_FLAG_WITH_VIRTUAL =? 0 then 0
              else Z.land flags PAGE_MASK in
  let map_flags := if Z.land flags KM_MAP_PHYSICAL_FLAG_NORMAL_CACHE =? 0 then KM_MAP_DEVICE
                   else Z.lor KM_PROT_READ KM_PROT_WRITE in
  '(ks, st) ← ks_create e st KS_TYPE_DEVICE base size_ map_flags;
  if ks =? 0 then Ret (0, st) else
  s ← lift (mem st !! ks);
  if map_range (start (node s)) (size (node s)) (Z.shiftr physical PAGE_SHIFT) map_flags
  then Ret (start (node s), st)
  else st ← ks_close e st ks; Ret (0, st).

(** The second result is what is stored in [kernel_space_object]. *)
Definition km_alloc_virtual (e : E) (st : kstate) (size_ prot_ : Z) : run (Z * option Z * kstate) :=
  '(ks, st) ← ks_create e st KS_TYPE_PRIVATE 0 size_ prot_;
  if ks =? 0 then Ret (0, None, st) else
  s ← lift (mem st !! ks);
  Ret (start (node s), Some ks, st).

(** ** Well-formed states *)

Record st_wf (e : E) (st : kstate) : Prop := {
  sw_pool : pool_ok e (pool st);
  sw_live : forall p, is_Some (mem st !! p) <-> is_Some (pool_ref (pool st) p);
  sw_zero : mem st !! 0 = None;
  sw_spaces : spaces (rd_node (mem st)) 0 (vm_list (proc st))
}.

Lemma vm_list_live e st p : st_wf e st -> p ∈ vm_list (proc st) -> is_Some (mem st !! p).
Proof.
  intros Hwf Hp. destruct (spaces_elem _ _ _ _ (sw_spaces _ _ Hwf) Hp) as (s & z & _ & Hr & _).
  unfold rd_node in Hr. destruct (mem st !! p); [by eexists|done].
Qed.

(** [object_close] on a section that is not linked and not bound to an
    executable does nothing. *)
Lemma object_close_unlinked st p s :
  mem st !! p = Some s -> priv0 s = 0 -> p ∉ vm_list (proc st) -> object_close st p = Ret st.
Proof.
  intros Hs H0 Hp. unfold object_close, remove_from_space. rewrite Hs. cbn [lift mbind run_bind].
  rewrite bool_decide_false by done. cbn [mbind run_bind]. rewrite H0. by case_ifs.
Qed.

Lemma section_create_spec e st :
  st_wf e st -> pool_ready e (pool st) ->
  exists p m, pool_ok e m /\
    ((p = 0 /\ section_create e st = Ret (0, set_pool st m) /\ st_wf e (set_pool st m)) \/
     (p <> 0 /\ mem st !! p = None /\ pool_ref m p = Some 0 /\
      section_create e st = Ret (p, set_mem (set_pool st m) (<[p := new_section]> (mem st))) /\
      forall x, st_wf e (set_mem (set_pool st m) (<[p := x]> (mem st))))).
Proof.
  intros [Hp Hl H0 Hs] Hr. unfold section_create.
  destruct (pool_create_law e (pool st) Hr) as (p & m & -> & Hok & Hres).
  cbn [mbind run_bind]. exists p, m. split; [done|]. destruct Hres as [[-> Hsame]|(Hne & Hno & Hnew)].
  - left. split_and!; try done. constructor; cbn; try done. intros q. by rewrite Hsame.
  - right. assert (mem st !! p = None) as Hnone.
    { destruct (mem st !! p) eqn:Hm; [|done]. exfalso.
      destruct (proj1 (Hl p)) as [r Hr']; [by rewrite Hm|]. congruence. }
    rewrite (proj2 (Z.eqb_neq p 0) Hne). split_and!; try done.
    { rewrite Hnew. by rewrite Z.eqb_refl. }
    intros x. constructor; cbn; try done.
    + intros q. rewrite Hnew, lookup_insert_is_Some. destruct (Z.eqb_spec q p) as [->|Hqp].
      * split; [by eexists|by left].
      * rewrite Hl. split; [intros [?|[_ ?]]; [congruence|done]|]. intros Hq. right. by split.
    + by rewrite lookup_insert_ne.
    + apply (spaces_ext (rd_node (mem st))); [|done]. apply rd_node_ext. intros q Hq.
      apply lookup_insert_ne. intros <-.
      destruct (spaces_elem _ _ _ _ Hs Hq) as (s & z & _ & Hrd & _). unfold rd_node in Hrd.
      by rewrite Hnone in Hrd.
Qed.

(** [fits] and [no_wrap] only read the nodes of the list. *)
Lemma free_ext rd rd' l a z :
  (forall q, q ∈ l -> rd' q = rd q) -> free rd' l a z <-> free rd l a z.
Proof.
  intros H'. split; intros Hf q s y Hq Hr; apply (Hf q s y Hq); [by rewrite H'|by rewrite <- H'].
Qed.

Lemma fits_ext rd rd' l rs rl a z :
  (forall q, q ∈ l -> rd' q = rd q) -> fits rd' l rs rl a z <-> fits rd l rs rl a z.
Proof. intros H'. unfold fits. by rewrite (free_ext rd rd' l a z H'). Qed.

Lemma no_wrap_ext rd rd' l rs rl d z :
  (forall q, q ∈ l -> rd' q = rd q) -> no_wrap rd l rs rl d z -> no_wrap rd' l rs rl d z.
Proof.
  intros H' Hn. unfold no_wrap in *. case_if; [|done]. destruct Hn as [Hz Hn]. split; [done|].
  intros q s y Hq. rewrite H' by done. by apply Hn.
Qed.

Lemma ks_create_spec e st ty base sz pr rs rl ds dz :
  st_wf e st -> pool_ready e (pool st) ->
  get_vm_range (cpl (proc st)) base sz (is_type_kernel ty) = Some (rs, rl, ds, dz) ->
  0 < dz -> 0 < rs -> is_word (rs + rl) ->
  no_wrap (rd_node (mem st)) (vm_list (proc st)) rs rl ds dz ->
  exists p st', ks_create e st ty base sz pr = Ret (p, st') /\ st_wf e st' /\
    cpl (proc st') = cpl (proc st) /\
    ((p = 0 /\ mem st' = mem st /\ proc st' = proc st /\
      ((exists m, pool_create e (pool st) = Ret (0, m)) \/
       forall a, (ds <> 0 -> a = ds) -> ~ fits (rd_node (mem st)) (vm_list (proc st)) rs rl a dz)) \/
     (p <> 0 /\ mem st !! p = None /\ pool_ref (pool st') p = Some 0 /\
      vm_list (proc st') ≡ₚ p :: vm_list (proc st) /\
      exists a, fits (rd_node (mem st)) (vm_list (proc st)) rs rl a dz /\ (ds <> 0 -> a = ds) /\
        mem st' = <[p := Section_ (Node a dz) ty pr 0 0 0 0 []]> (mem st))).
Proof.
  intros Hwf Hready Hrange Hdz Hrs Hw Hnw. unfold ks_create.
  destruct (section_create_spec e st Hwf Hready) as (p & m & Hok & [(-> & E1 & Hwf1)|(Hp & Hnone & Href & E1 & Hwf1)]).
  { rewrite E1. cbn [mbind run_bind Z.eqb]. exists 0, (set_pool st m). split_and!; try done. left. split_and!; try done.
    left. unfold section_create in E1. destruct (pool_create e (pool st)) as [[q m']| |]; try done.
    exists m'. cbn [mbind run_bind] in E1. destruct (Z.eqb_spec q 0) as [->|]; [done|]. congruence. }
  rewrite E1. cbn [mbind run_bind]. rewrite (proj2 (Z.eqb_neq p 0) Hp). cbn [set_mem set_pool mem proc].
  rewrite insert_insert_eq. set (sec := Section_ (Node base sz) ty pr 0 0 0 0 []).
  set (m1 := <[p := sec]> (mem st)).
  assert (p ∉ vm_list (proc st)) as Hnin.
  { intros Hin%(vm_list_live e st p Hwf). rewrite Hnone in Hin. by destruct Hin. }
  assert (forall q, q ∈ vm_list (proc st) -> rd_node m1 q = rd_node (mem st) q) as Hext.
  { apply rd_node_ext. intros q Hq. apply lookup_insert_ne. intros <-. done. }
  destruct (vm_create_spec m1 (proc st) p ty sec rs rl ds dz) as (ok & a & w & E2 & Hcpl & Hs & Hres); try done.
  { apply lookup_insert_eq. }
  { by apply (spaces_ext _ _ _ _ Hext), (sw_spaces _ _ Hwf). }
  { by apply (no_wrap_ext (rd_node (mem st))). }
  rewrite E2. cbn [lift mbind run_bind]. unfold m1, set_node in *. cbn [sec] in *. rewrite insert_insert_eq in *.
  set (sec' := Section_ (Node a dz) ty pr 0 0 0 0 []) in *.
  assert (st_wf e (KState m (<[p := sec']> (mem st)) w (pages_freed st) (exes_closed st))) as Hwf2
    by (destruct (Hwf1 sec') as [? ? ? _]; by constructor).
  destruct ok; destruct Hres as [Hres Hfit].
  - destruct Hfit as [Hfit Hds]. exists p, (KState m (<[p := sec']> (mem st)) w (pages_freed st) (exes_closed st)).
    split; [done|]. split; [done|]. split; [done|]. right. split_and!; try done.
    exists a. split_and!; try done. by apply (fits_ext _ _ _ _ _ _ _ Hext).
  - subst w. unfold ks_close. cbn [set_proc set_mem set_pool pool mem proc].
    destruct (pool_close_law e m p 0 Hok Href) as (m2 & E3 & Hok2 & Hr2); [lia|].
    unfold set_proc, set_mem, set_pool. cbn [pool mem proc pages_freed exes_closed].
    rewrite E3. cbn [mbind run_bind].
    rewrite (object_close_unlinked _ p sec'); [|apply lookup_insert_eq|done|done].
    cbn [mbind run_bind pool mem proc pages_freed exes_closed]. rewrite (Hr2 p), Z.eqb_refl. cbn [Z.leb Z.compare].
    rewrite delete_insert_id by done.
    exists 0, (KState m2 (mem st) (proc st) (pages_freed st) (exes_closed st)). split; [done|].
    split.
    { constructor; cbn [pool mem proc]; [done| |apply (sw_zero _ _ Hwf)|apply (sw_spaces _ _ Hwf)].
      intros q. rewrite Hr2. pose proof (sw_live _ _ (Hwf1 sec') q) as Hl. cbn [set_mem set_pool mem pool] in Hl.
      destruct (Z.eqb_spec q p) as [->|Hqp]; [rewrite Hnone; change (0 <=? 1) with true; done|].
      by rewrite <- Hl, lookup_insert_ne by congruence. }
    split; [done|]. left. split_and!; try done. right. intros b Hb Hf. apply (Hfit b Hb).
    by apply (fits_ext _ _ _ _ _ _ _ Hext).
Qed.

(** The types whose [close] removes the section from the address space. *)
Definition removed_on_close (s : ko_section) : bool :=
  (Z.land (type s) KS_TYPE_MASK =? KS_TYPE_EXE) || (Z.land (type s) KS_TYPE_MASK =? KS_TYPE_FILE).

Definition removal (st : kstate) (p : Z) (s : ko_section) : kstate :=
  KState (pool st) (mem st) (km_vm_delete (proc st) p)
    (pages_freed st ++ if bool_decide (p ∈ vm_list (proc st)) then [(start (node s), size (node s))] else [])
    (exes_closed st ++ if (Z.land (type s) KS_TYPE_MASK =? KS_TYPE_EXE) && negb (priv0 s =? 0)
                       then [priv0 s] else []).

Lemma km_vm_delete_absent w p : p ∉ vm_list w -> km_vm_delete w p = w.
Proof. intros Hp. destruct w. unfold km_vm_delete in *. cbn in *. by rewrite filter_absent. Qed.

Lemma object_close_eq st p s :
  mem st !! p = Some s ->
  object_close st p = Ret (if removed_on_close s then removal st p s else st).
Proof.
  intros Hs. unfold object_close, remove_from_space, removed_on_close, removal. rewrite Hs.
  cbn [lift mbind run_bind].
  destruct (Z.eqb_spec (Z.land (type s) KS_TYPE_MASK) KS_TYPE_EXE) as [_|_]; cbn [orb andb].
  2: rewrite app_nil_r; destruct (Z.land (type s) KS_TYPE_MASK =? KS_TYPE_FILE); [|done].
  all: case_bool_decide as Hin; cbn [lift mbind run_bind pool mem proc pages_freed exes_closed].
  all: try destruct (priv0 s =? 0); cbn [negb]; rewrite ?app_nil_r, ?km_vm_delete_absent by done;
    try done; by destruct st.
Qed.

Lemma ks_close_spec e st p s r :
  st_wf e st -> mem st !! p = Some s -> pool_ref (pool st) p = Some r ->
  -2147483648 < r < 2147483648 ->
  exists m, pool_ok e m /\
    (forall q, pool_ref m q = if q =? p then (if r <=? 1 then None else Some (r - 1)) else pool_ref (pool st) q) /\
    ks_close e st p =
      Ret (let st' := set_pool (if removed_on_close s then removal st p s else st) m in
           if r <=? 1 then set_mem st' (delete p (mem st)) else st').
Proof.
  intros Hwf Hs Hr Hb. unfold ks_close.
  destruct (pool_close_law e (pool st) p r (sw_pool _ _ Hwf) Hr Hb) as (m & -> & Hok & Hm).
  exists m. split_and!; [done|done|]. cbn [mbind run_bind]. rewrite (object_close_eq st p s Hs).
  cbn [mbind run_bind]. cbv zeta. rewrite (Hm p), Z.eqb_refl. destruct (r <=? 1); [|done].
  by destruct (removed_on_close s).
Qed.

(** The state without the section [p] is well-formed once [p] is unlinked. *)
Lemma st_wf_close e st p s r m w pf ec :
  st_wf e st -> mem st !! p = Some s -> pool_ok e m ->
  (forall q, pool_ref m q = if q =? p then (if r <=? 1 then None else Some (r - 1)) else pool_ref (pool st) q) ->
  vm_list w = filter (fun q => q <> p) (vm_list (proc st)) ->
  st_wf e (KState m (if r <=? 1 then delete p (mem st) else mem st) w pf ec).
Proof.
  intros [Hpo Hl H0 Hsp] Hs Hok Hm Hw. constructor; cbn [pool mem proc].
  - done.
  - intros q. rewrite Hm. case_if; [rewrite lookup_delete_is_Some|]; destruct (Z.eqb_spec q p) as [->|Hne].
    + split; [by intros [? _]|by intros [? ?]].
    + rewrite Hl. split; [by intros [_ ?]|]. intros ?. split; [congruence|done].
    + rewrite Hs. split; by eexists.
    + apply Hl.
  - case_if; [|done]. apply lookup_delete_None. by right.
  - rewrite Hw. apply (spaces_ext (rd_node (mem st))); [|by apply spaces_filter].
    apply rd_node_ext. intros q [Hq _]%list_elem_of_filter. case_if; [|done].
    by apply lookup_delete_ne.
Qed.

(** A lookup that meets a node that is gone reads freed memory. *)
Lemma get_by_vaddress_dangling rd rd' lo l p a :
  spaces rd lo l -> p ∈ l -> covers rd p a -> rd' p = None -> (forall q, q <> p -> rd' q = rd q) ->
  get_by_vaddress rd' l a = None.
Proof.
  intros Hl Hp Hc Hno Hsame. revert lo Hl Hp. induction l as [|q l IH]; intros lo Hl Hp; [by apply not_elem_of_nil in Hp|].
  cbn [get_by_vaddress]. destruct (Z.eq_dec q p) as [->|Hqp]; [by rewrite Hno|].
  apply elem_of_cons in Hp as [?|Hp]; [congruence|].
  destruct Hl as (s & z & _ & Hr & _ & Hz & Hw & Hl). rewrite Hsame, Hr by done. cbn [mbind option_bind].
  rewrite wrap_small by done. pose proof (covers_above rd _ _ _ _ Hl Hp Hc).
  rewrite (proj2 (Z.ltb_ge a (s + z))), (proj2 (Z.ltb_ge a s)), andb_false_r by lia. by apply (IH (s + z)).
Qed.

End Sections.
Arguments kstate M : clear implicits.

(** ** Samples: sections of the registered type, without memory so far *)

Definition SIZEOF_SECTION : Z := 56.

Lemma empty_bkb_wf ns : 0 < ns -> bkb_wf (cl_bkb_init ns) ∅ [].
Proof. intros Hns. constructor; try done; constructor; done. Qed.

Lemma registered_wf sz : 0 < sz -> type_wf (cl_object_type_register sz) [] [].
Proof.
  intros Hsz. assert (forall ns p, ~ live ns ∅ p) as Hno by (by intros ns p (a & i & id & Ha & _)).
  constructor; cbn; try done;
    try (apply empty_bkb_wf; unfold SIZEOF_OBJECT, CL_OBJECT_NAME_SLOTE_LENGTH; lia); try constructor.
  - by intros [? ?].
  - by intros ?%Hno.
  - by intros ?%not_elem_of_nil.
  - by intros [? ?].
Qed.

(** One page is available for section objects. *)
Definition sample_env : obj_env := Env 60 (fun _ => 0) (Some (0x81000000, 4096)).

(** A user process right before [ks_init_for_process]. *)
Definition sample_st : kstate cl_object_type :=
  KState (cl_object_type_register SIZEOF_SECTION) ∅ (Proc KP_USER []) [] [].

Lemma sample_ready : pool_ready sample_env (pool sample_st).
Proof.
  exists [], []. split_and!; [by apply registered_wf|done| |cbn; lia].
  cbn. split_and!; done || lia.
Qed.

Lemma sample_st_wf : st_wf sample_env sample_st.
Proof.
  constructor; [apply pool_ready_ok, sample_ready| |done|done].
  intros p. cbn. split; by intros [? ?].
Qed.

(** A process whose only section, at 4116, is an object with counter [r]. *)
Definition one_section (ty r : Z) : kstate cl_object_type :=
  KState (sample_type_ref r) {[ 4116 := Section_ (Node 0x400000 0x1000) ty 3 0 0 0 0 [] ]}
    (Proc KP_USER [4116]) [] [].

Lemma one_section_wf ty r : st_wf (Env 9 (fun _ => 0) None) (one_section ty r).
Proof.
  constructor.
  - exists [4192], [8320]. split; [apply sample_type_ref_wf|cbn; lia].
  - intros p. cbn. unfold cl_object_get_ref_counter. rewrite fmap_is_Some. cbn.
    rewrite <- !elem_of_dom, !dom_singleton, !elem_of_singleton. unfold TO_CL_OBJECT, SIZEOF_OBJECT. lia.
  - done.
  - eexists _, _. split_and!; done.
Qed.

(** ** Theorems *)



(** Closing a section of an executable or a file takes one reference.
    The section leaves the address space and its pages are released if it was
    in it, the executable it was bound to is closed, the object is freed with
    the last reference, and the state stays well-formed. *)
Theorem ks_close_correct {M E} `{ObjectPool M E} (e : E) (st : kstate M) p s r :
  st_wf e st -> mem st !! p = Some s -> pool_ref (pool st) p = Some r ->
  -2147483648 < r < 2147483648 -> removed_on_close s = true ->
  exists st', ks_close e st p = Ret st' /\ st_wf e st' /\
    vm_list (proc st') = filter (fun q => q <> p) (vm_list (proc st)) /\
    mem st' = (if r <=? 1 then delete p (mem st) else mem st) /\
    pages_freed st' = pages_freed st ++
      (if bool_decide (p ∈ vm_list (proc st)) then [(start (node s), size (node s))] else []) /\
    exes_closed st' = exes_closed st ++
      (if (Z.land (type s) KS_TYPE_MASK =? KS_TYPE_EXE) && negb (priv0 s =? 0) then [priv0 s] else []).
Proof.
  intros Hwf Hs Hr Hb Hrem. destruct (ks_close_spec e st p s r Hwf Hs Hr Hb) as (m & Hok & Hm & ->).
  rewrite Hrem. cbv zeta. eexists. split; [done|].
  pose proof (st_wf_close e st p s r m (km_vm_delete (proc st) p) (pages_freed (removal st p s))
                (exes_closed (removal st p s)) Hwf Hs Hok Hm eq_refl) as Hwf'.
  destruct (r <=? 1); split_and!; done.
Qed.

Lemma ks_close_witness :
  exists st', ks_close (Env 9 (fun _ => 0) None) (one_section KS_TYPE_FILE 1) 4116 = Ret st' /\
    st_wf (Env 9 (fun _ => 0) None) st' /\ vm_list (proc st') = [] /\
    pages_freed st' = [(0x400000, 0x1000)].
Proof.
  destruct (ks_close_correct (Env 9 (fun _ => 0) None) (one_section KS_TYPE_FILE 1) 4116
              (Section_ (Node 0x400000 0x1000) KS_TYPE_FILE 3 0 0 0 0 []) 1)
    as (st' & E1 & Hwf & Hl & _ & Hpf & _);
    [apply one_section_wf|reflexivity|reflexivity|lia|reflexivity|].
  exists st'. split_and!; [exact E1|exact Hwf|exact Hl|exact Hpf].
Defined.

(** Sections of the other types (private memory, stacks, devices, shared
    messages) are freed by [ks_close] while they are still linked in the
    address space: the list then holds the address of a freed object, and the
    next lookup of an address of the section reads it. *)
Theorem ks_close_dangles {M E} `{ObjectPool M E} (e : E) (st : kstate M) p s r :
  st_wf e st -> mem st !! p = Some s -> pool_ref (pool st) p = Some r ->
  -2147483648 < r <= 1 -> removed_on_close s = false -> p ∈ vm_list (proc st) ->
  exists st', ks_close e st p = Ret st' /\ p ∈ vm_list (proc st') /\ mem st' !! p = None /\
    forall a, covers (rd_node (mem st)) p a -> ks_get_by_vaddress (mem st') (proc st') a = None.
Proof.
  intros Hwf Hs Hr Hb Hrem Hin.
  destruct (ks_close_spec e st p s r Hwf Hs Hr) as (m & Hok & Hm & ->); [lia|].
  rewrite Hrem, (proj2 (Z.leb_le r 1)) by lia. cbv zeta. eexists. split; [done|].
  cbn [set_mem set_pool proc mem]. split_and!; [done|apply lookup_delete_eq|].
  intros a Hc. unfold ks_get_by_vaddress. unfold rd_node in *.
  apply (get_by_vaddress_dangling (rd_node (mem st)) _ 0 _ p); [apply (sw_spaces _ _ Hwf)|done|done| |].
  - by rewrite lookup_delete_eq.
  - intros q Hq. unfold rd_node. by rewrite lookup_delete_ne.
Qed.

Lemma ks_close_dangles_witness :
  exists st', ks_close (Env 9 (fun _ => 0) None) (one_section KS_TYPE_SHARE 1) 4116 = Ret st' /\
    4116 ∈ vm_list (proc st') /\ mem st' !! 4116 = None.
Proof.
  destruct (ks_close_dangles (Env 9 (fun _ => 0) None) (one_section KS_TYPE_SHARE 1) 4116
              (Section_ (Node 0x400000 0x1000) KS_TYPE_SHARE 3 0 0 0 0 []) 1)
    as (st' & E1 & Hl & Hn & _);
    [apply one_section_wf|reflexivity|reflexivity|lia|reflexivity|apply list_elem_of_here|].
  exists st'. split_and!; [exact E1|exact Hl|exact Hn].
Defined.
