(* ===== verification/Pa.v ===== *)
(** * The physical page allocator

    [source/kernel/memory/pa.c]: the RAM of a node is cut into clusters of at
    most 32 MB.  The first pages of a cluster hold its bitmap, the others are
    handed out one bit per page.  A CPU allocates from its current cluster,
    then from another cluster it owns, then from a cluster nobody owns.

    [static_clusters] is the array of that name, of which [cur_ram_info]
    entries are in use; pointers to clusters and cluster heads are indices of
    the two static arrays.  [preempt] counts the calls of
    [hal_preempt_disable] that are not undone.  Spin locks are taken and
    released inside each operation and are left out. *)

From S2P Require Import Prelude Bits Bitmap Vm.
Import BitOps BitmapOps.
Local Open Scope c_scope.

Definition KM_CLUSTER_SIZE : Z := 32 * 1024 * 1024.
Definition KM_MAX_STATIC_RAM_INFO : Z := 32.
Definition KM_MAX_STATIC_NODE_INFO : Z := 2.
Definition KM_CLUSTER_NOT_FREE : Z := 1.
Definition KM_CLUSTER_IS_END_NODE : Z := 2.
Definition KM_CLUSTER_TOTALLY_USING : Z := 3.

Definition KM_PAGE_ADDRESS_TO_PFN (a : Z) : Z := Z.shiftr a 12.
Definition KM_PAGE_ROUND_COUNT (size : Z) : Z := (size +w PAGE_SIZE -w 1) / PAGE_SIZE.
Definition HAL_GET_BASIC_PHYADDRESS (log : Z) : Z :=
  log -w CONFIG_HAL_KERNEL_BASE +w PHYS_OFFSET.

Record km_cluster := Cluster {
  head : Z;
  start_pfn : Z;
  end_pfn : Z;
  ram_base : Z;
  cbitmap : cl_bitmap;
  real_node : Z;
  usbale_count : Z;
  cfree : Z;
  flags : Z
}.

Record km_cluster_head := Head { hnode : Z; hclusters : list Z }.

Record km_stack := Pa {
  static_clusters : list km_cluster;      (* the first cur_ram_info entries *)
  ram_nodes : list km_cluster_head;       (* static_nodes, in list order *)
  mm_current_cluster : option Z;          (* of the CPU *)
  cpu_id : Z;
  preempt : Z
}.

Definition set_clusters (st : km_stack) (l : list km_cluster) : km_stack :=
  Pa l (ram_nodes st) (mm_current_cluster st) (cpu_id st) (preempt st).
Definition set_nodes (st : km_stack) (l : list km_cluster_head) : km_stack :=
  Pa (static_clusters st) l (mm_current_cluster st) (cpu_id st) (preempt st).
Definition set_preempt (st : km_stack) (n : Z) : km_stack :=
  Pa (static_clusters st) (ram_nodes st) (mm_current_cluster st) (cpu_id st) n.

Module PaOps.

(** The flags of a cluster are one word; the bit operations are those of
    [bitops.h] on an array of one word. *)
Definition flag (c : km_cluster) (nr : Z) : bool := Z.testbit (flags c) nr.
Definition with_flags (c : km_cluster) (f : Z) : km_cluster :=
  Cluster (head c) (start_pfn c) (end_pfn c) (ram_base c) (cbitmap c) (real_node c)
    (usbale_count c) (cfree c) f.
Definition with_bitmap (c : km_cluster) (bm : cl_bitmap) (free : Z) : km_cluster :=
  Cluster (head c) (start_pfn c) (end_pfn c) (ram_base c) bm (real_node c)
    (usbale_count c) free (flags c).

(** The next static entry, cleared. *)
Definition alloc_cluster (st : km_stack) : option (Z * km_stack) :=
  if KM_MAX_STATIC_RAM_INFO <=? Z.of_nat (length (static_clusters st)) then None
  else Some (Z.of_nat (length (static_clusters st)),
             set_clusters st (static_clusters st ++ [Cluster 0 0 0 0 (Bitmap [] 0 0) 0 0 0 0])).

(** The caller links the new head last. *)
Definition alloc_cluster_head (st : km_stack) (node : Z) : option (Z * km_stack) :=
  if KM_MAX_STATIC_NODE_INFO <=? Z.of_nat (length (ram_nodes st)) then None
  else Some (Z.of_nat (length (ram_nodes st)), set_nodes st (ram_nodes st ++ [Head node []])).

Definition set_current_cluster (st : km_stack) (cur : option Z) : km_stack :=
  Pa (static_clusters st) (ram_nodes st) cur (cpu_id st) (preempt st).

(** The first head of the list with the node number. *)
Fixpoint find_head (l : list km_cluster_head) (node i : Z) : option Z :=
  match l with
  | [] => None
  | h :: l => if hnode h =? node then Some i else find_head l node (i + 1)
  end.

(** The loop of [km_cluster_alloc] over the clusters of the head: the index of
    the cluster taken and the array, or [None] when none is free. *)
Fixpoint take_cluster (cs : list km_cluster) (l : list Z) (node hd : Z) (totally_using : bool)
  : option (option (Z * list km_cluster)) :=
  match l with
  | [] => Some None
  | i :: l =>
    c ← word_at cs i;
    if flag c KM_CLUSTER_TOTALLY_USING || flag c KM_CLUSTER_NOT_FREE
    then take_cluster cs l node hd totally_using
    else
      let f := Z.setbit (flags c) KM_CLUSTER_NOT_FREE in
      let f := if totally_using
               then Z.clearbit (Z.setbit f KM_CLUSTER_TOTALLY_USING) KM_CLUSTER_NOT_FREE else f in
      cs ← word_set cs i (Cluster hd (start_pfn c) (end_pfn c) (ram_base c) (cbitmap c) node
                            (usbale_count c) (cfree c) f);
      Some (Some (i, cs))
  end.

(** The first result is the cluster, [None] for NULL; the node [-1] is
    replaced by 0. *)
Definition km_cluster_alloc (st : km_stack) (node : Z) (totally_using : bool)
  : option (option Z * km_stack) :=
  let node := if node =? -1 then 0 else node in
  match find_head (ram_nodes st) node 0 with
  | None => Some (None, st)
  | Some hd =>
    h ← word_at (ram_nodes st) hd;
    r ← take_cluster (static_clusters st) (hclusters h) node hd totally_using;
    match r with
    | None => Some (None, st)
    | Some (i, cs) => Some (Some i, set_clusters st cs)
    end
  end.

(** [page_start], [page_count] of [ret_info]. *)
Definition cluster_info (st : km_stack) (i : Z) : option (Z * Z) :=
  c ← word_at (static_clusters st) i; Some (ram_base c, usbale_count c).

(** [kc_get] disables preemption. *)
Definition km_get_current_cluster (st : km_stack) : option (option Z * km_stack) :=
  let st := set_preempt st (preempt st + 1) in
  match mm_current_cluster st with
  | Some i => Some (Some i, st)
  | None =>
    '(r, st) ← km_cluster_alloc st (cpu_id st) false;
    match r with
    | None => Some (None, st)
    | Some i => Some (Some i, set_current_cluster st (Some i))
    end
  end.

Definition km_put_current_cluster (st : km_stack) : km_stack := set_preempt st (preempt st - 1).

Definition allocate (fuel : nat) (st : km_stack) (i count : Z) : run (Z * km_stack) :=
  c ← lift (word_at (static_clusters st) i);
  if cfree c =? 0 then Ret (0, st) else
  '(bit, bm) ← (if negb (count =? 1) then cl_bitmap_alloc_consistant_bits fuel (cbitmap c) count
                else lift (cl_bitmap_alloc_bit (cbitmap c)));
  let failed := bit =? HAL_BITMAP_ALLOC_BIT_ERROR in
  cs ← lift (word_set (static_clusters st) i
               (with_bitmap c bm (if failed then cfree c else cfree c -w count)));
  Ret (if failed then 0 else bit * PAGE_SIZE +w ram_base c, set_clusters st cs).

(** The search of [allocate_page] for another cluster of the same owner. *)
Fixpoint find_next (cs : list km_cluster) (l : list Z) (ram node count : Z) : option (option Z) :=
  match l with
  | [] => Some None
  | i :: l =>
    c ← word_at cs i;
    if negb (ram =? i) && (node =? real_node c) && flag c KM_CLUSTER_NOT_FREE && (count <=? cfree c)
    then Some (Some i) else find_next cs l ram node count
  end.

(** The second cluster to try, after the current one had no page. *)
Definition second_cluster (st : km_stack) (ram count : Z) : option (option Z * km_stack) :=
  c ← word_at (static_clusters st) ram;
  h ← word_at (ram_nodes st) (head c);
  next ← find_next (static_clusters st) (hclusters h) ram (real_node c) count;
  match next with
  | Some i => Some (Some i, st)
  | None => km_cluster_alloc st (cpu_id st) false
  end.

Definition allocate_page (fuel : nat) (st : km_stack) (count : Z) : run (Z * km_stack) :=
  '(ram, st) ← lift (km_get_current_cluster st);
  match ram with
  | None => Ret (0, st)
  | Some ram =>
    '(page, st) ← allocate fuel st ram count;
    if negb (page =? 0) then Ret (page, km_put_current_cluster st) else
    '(next, st) ← lift (second_cluster st ram count);
    match next with
    | None => Ret (page, km_put_current_cluster st)
    | Some i =>
      '(page, st) ← allocate fuel (set_current_cluster st (Some i)) i count;
      Ret (page, km_put_current_cluster st)
    end
  end.

Definition km_page_alloc (fuel : nat) (st : km_stack) : run (Z * km_stack) := allocate_page fuel st 1.

Definition km_page_alloc_kerneled (fuel : nat) (st : km_stack) (count : Z) : run (Z * km_stack) :=
  '(kp, st) ← allocate_page fuel st count;
  Ret (if kp =? 0 then 0 else HAL_GET_BASIC_KADDRESS kp, st).

(** The inner loop of [km_get_page_node]. *)
Fixpoint find_cluster (cs : list km_cluster) (l : list Z) (pfn : Z) : option (option Z) :=
  match l with
  | [] => Some None
  | i :: l =>
    c ← word_at cs i;
    if (start_pfn c <=? pfn) && (pfn <=? end_pfn c) then Some (Some i) else find_cluster cs l pfn
  end.

(** The cluster, which is what [back_ram] receives. *)
Fixpoint km_get_page_node (cs : list km_cluster) (nodes : list km_cluster_head) (page : Z)
  : option (option Z) :=
  match nodes with
  | [] => Some None
  | h :: nodes =>
    r ← find_cluster cs (hclusters h) (KM_PAGE_ADDRESS_TO_PFN page);
    match r with Some i => Some (Some i) | None => km_get_page_node cs nodes page end
  end.

Definition deallocate_page (st : km_stack) (page count : Z) : option km_stack :=
  r ← km_get_page_node (static_clusters st) (ram_nodes st) page;
  match r with
  | None => Some st
  | Some i =>
    c ← word_at (static_clusters st) i;
    let bit := (page -w ram_base c) / PAGE_SIZE in
    '(freed, bm) ← (if count =? 1 then cl_bitmap_dealloc_bit (cbitmap c) bit
                    else '(_, bm) ← cl_bitmap_dealloc_consistent_bits (cbitmap c) count bit;
                         Some (true, bm));
    cs ← word_set (static_clusters st) i
           (with_bitmap c bm (if (freed : bool) then cfree c +w count else cfree c));
    Some (set_clusters st cs)
  end.

Definition km_page_dealloc (st : km_stack) (phy_page : Z) : option km_stack :=
  deallocate_page st phy_page 1.

Definition km_page_dealloc_kerneled (st : km_stack) (kernel_page size : Z) : option km_stack :=
  deallocate_page st (HAL_GET_BASIC_PHYADDRESS kernel_page) (KM_PAGE_ROUND_COUNT size).

(** The description of the cluster of [t] bytes at [start]; [ram a] are the
    words of the physical memory at [a]; [last] marks the last cluster. *)
Definition fill_cluster (ram : Z -> list Z) (c : km_cluster) (start t : Z) (last : bool)
  : option km_cluster :=
  let spfn := KM_PAGE_ADDRESS_TO_PFN start in
  let epfn := KM_PAGE_ADDRESS_TO_PFN (start +w t -w 1) in
  let page_count := epfn -w spfn +w 1 in
  let bitmap_size := KM_PAGE_ROUND_COUNT (cl_bitmap_calc_size page_count) in
  bm ← cl_bitmap_init (cbitmap c) (ram start) (page_count - bitmap_size);
  Some (Cluster (head c) spfn epfn (start +w bitmap_size *w PAGE_SIZE) bm (real_node c)
          (page_count -w bitmap_size) (page_count -w bitmap_size)
          (if last then Z.setbit (flags c) KM_CLUSTER_IS_END_NODE else flags c)).

(** [list_add_tail] on the list of clusters of a head. *)
Definition link_cluster (st : km_stack) (hd i : Z) : option km_stack :=
  h ← word_at (ram_nodes st) hd;
  l ← word_set (ram_nodes st) hd (Head (hnode h) (hclusters h ++ [i]));
  Some (set_nodes st l).

(** The [for] loop of [km_insert_ram], [i] clusters to go. *)
Fixpoint insert_clusters (ram : Z -> list Z) (i : nat) (st : km_stack) (hd start size : Z)
  : option (bool * km_stack) :=
  match i with
  | O => Some (true, st)
  | S i' =>
    let t := if size <? KM_CLUSTER_SIZE then size else KM_CLUSTER_SIZE in
    match alloc_cluster st with
    | None => Some (false, st)
    | Some (k, st) =>
      c ← word_at (static_clusters st) k;
      c ← fill_cluster ram c start t (Nat.eqb i 1);
      cs ← word_set (static_clusters st) k c;
      st ← link_cluster (set_clusters st cs) hd k;
      insert_clusters ram i' st hd (start +w KM_CLUSTER_SIZE) (size -w KM_CLUSTER_SIZE)
    end
  end.

Definition km_insert_ram (ram : Z -> list Z) (st : km_stack) (start size node : Z)
  : option (bool * km_stack) :=
  if negb (Z.land start (PAGE_SIZE - 1) =? 0) then Some (false, st) else
  let go hd st := insert_clusters ram
        (Z.to_nat ((size +w KM_CLUSTER_SIZE -w 1) / KM_CLUSTER_SIZE)) st hd start size in
  match find_head (ram_nodes st) node 0 with
  | Some hd => go hd st
  | None =>
    match alloc_cluster_head st node with
    | None => Some (false, st)
    | Some (hd, st) => go hd st
    end
  end.

Definition km_cluster_init : km_stack := Pa [] [] None 0 0.

End PaOps.
Import PaOps.

(** ** Well-formed allocators *)

(** The pages of a cluster end with [end_pfn]; [cfree] counts its free bits. *)
Record cluster_ok (c : km_cluster) : Prop := {
  co_bm : bm_wf (cbitmap c);
  co_mask : mask_count (cbitmap c) = usbale_count c;
  co_free : cfree c = usbale_count c - used_below (cbitmap c) (Z.to_nat (usbale_count c));
  co_base : ram_base c = (end_pfn c + 1 - usbale_count c) * PAGE_SIZE;
  co_first : 0 <= start_pfn c < end_pfn c + 1 - usbale_count c;
  co_last : end_pfn c < 1048576
}.

Record pa_wf (st : km_stack) : Prop := {
  pw_cluster : forall i c, word_at (static_clusters st) i = Some c -> cluster_ok c;
  pw_disjoint : forall i j c d, word_at (static_clusters st) i = Some c ->
    word_at (static_clusters st) j = Some d -> i <> j ->
    end_pfn c < start_pfn d \/ end_pfn d < start_pfn c;
  pw_heads : forall h i, h ∈ ram_nodes st -> i ∈ hclusters h -> is_Some (word_at (static_clusters st) i);
  pw_linked : forall i, is_Some (word_at (static_clusters st) i) ->
    exists h, h ∈ ram_nodes st /\ i ∈ hclusters h;
  pw_owned : forall i c, word_at (static_clusters st) i = Some c -> flag c KM_CLUSTER_NOT_FREE = true ->
    is_Some (word_at (ram_nodes st) (head c));
  pw_current : forall i, mm_current_cluster st = Some i ->
    exists c, word_at (static_clusters st) i = Some c /\ flag c KM_CLUSTER_NOT_FREE = true
}.

(** Bit [b] of the cluster stands for this physical page. *)
Definition page_of (c : km_cluster) (b : Z) : Z := ram_base c + b * PAGE_SIZE.

(** The abstract state: the physical pages handed out. *)
Definition allocated (st : km_stack) (p : Z) : Prop :=
  exists i c b, word_at (static_clusters st) i = Some c /\ 0 <= b < usbale_count c /\
    used (cbitmap c) b = true /\ p = page_of c b.

Lemma page_pfn c b :
  cluster_ok c -> 0 <= b < usbale_count c ->
  KM_PAGE_ADDRESS_TO_PFN (page_of c b) = end_pfn c + 1 - usbale_count c + b /\
  is_word (page_of c b) /\ 0 < page_of c b.
Proof.
  intros [_ _ _ Hb Hf Hl] Hr. unfold KM_PAGE_ADDRESS_TO_PFN, page_of, is_word. rewrite Hb. unfold PAGE_SIZE.
  rewrite Z.shiftr_div_pow2 by lia. change (2 ^ 12) with 4096.
  replace ((end_pfn c + 1 - usbale_count c) * 4096 + b * 4096)
    with ((end_pfn c + 1 - usbale_count c + b) * 4096) by lia.
  rewrite Z.div_mul by lia. lia.
Qed.

(** A page belongs to one bit of one cluster. *)
Lemma page_of_inj st i j c d b b' :
  pa_wf st -> word_at (static_clusters st) i = Some c -> word_at (static_clusters st) j = Some d ->
  0 <= b < usbale_count c -> 0 <= b' < usbale_count d -> page_of c b = page_of d b' -> i = j /\ b = b'.
Proof.
  intros Hwf Hc Hd Hb Hb' E.
  pose proof (pw_cluster _ Hwf _ _ Hc) as Hok. pose proof (pw_cluster _ Hwf _ _ Hd) as Hod.
  destruct (page_pfn c b Hok Hb) as [E1 _], (page_pfn d b' Hod Hb') as [E2 _].
  rewrite E, E2 in E1. destruct (Z.eq_dec i j) as [->|Hne].
  - rewrite Hc in Hd. injection Hd as <-. split; [done|lia].
  - destruct (pw_disjoint _ Hwf _ _ _ _ Hc Hd Hne); destruct Hok, Hod; lia.
Qed.

(** Two states with the same clusters up to the fields that do not matter for
    the pages. *)
Lemma word_at_update {A} (l : list A) i x y j :
  word_at l i = Some x -> word_at (<[Z.to_nat i := y]> l) j = if i =? j then Some y else word_at l j.
Proof. intros H. apply word_at_insert. by apply (word_at_bound l i x). Qed.

Lemma word_set_update {A} (l : list A) i x y :
  word_at l i = Some x -> word_set l i y = Some (<[Z.to_nat i := y]> l).
Proof. intros H. apply word_at_set. by apply (word_at_bound l i x). Qed.

(** Replacing cluster [i] by [d], which describes the same pages and does not
    give up its owner, keeps the state well-formed. *)
Lemma pa_wf_update st i c d :
  pa_wf st -> word_at (static_clusters st) i = Some c -> cluster_ok d ->
  start_pfn d = start_pfn c -> end_pfn d = end_pfn c ->
  (flag d KM_CLUSTER_NOT_FREE = true -> is_Some (word_at (ram_nodes st) (head d))) ->
  (flag c KM_CLUSTER_NOT_FREE = true -> flag d KM_CLUSTER_NOT_FREE = true) ->
  pa_wf (set_clusters st (<[Z.to_nat i := d]> (static_clusters st))).
Proof.
  intros [H1 H2 H3 H4 H5 H6] Hc Hok Hs He Hh Hf.
  assert (forall j e, word_at (<[Z.to_nat i := d]> (static_clusters st)) j = Some e ->
            exists e0, word_at (static_clusters st) j = Some e0 /\
              start_pfn e = start_pfn e0 /\ end_pfn e = end_pfn e0 /\ cluster_ok e /\
              (flag e0 KM_CLUSTER_NOT_FREE = true -> flag e KM_CLUSTER_NOT_FREE = true) /\
              (flag e KM_CLUSTER_NOT_FREE = true -> is_Some (word_at (ram_nodes st) (head e)))) as Hup.
  { intros j e Hj. rewrite (word_at_update _ _ c) in Hj by done.
    destruct (Z.eqb_spec i j) as [<-|Hne]; [injection Hj as <-; exists c; by split_and!|].
    exists e. split_and!; try done; eauto. }
  assert (forall j, is_Some (word_at (static_clusters st) j) <->
            is_Some (word_at (<[Z.to_nat i := d]> (static_clusters st)) j)) as Hdom.
  { intros j. rewrite (word_at_update _ _ c) by done. destruct (Z.eqb_spec i j) as [<-|]; [|done].
    rewrite Hc. split; by eexists. }
  constructor; cbn [set_clusters static_clusters ram_nodes mm_current_cluster].
  - intros j e Hj. by destruct (Hup _ _ Hj) as (? & _ & _ & _ & ? & _).
  - intros j k e f Hj Hk Hne. destruct (Hup _ _ Hj) as (e0 & Hj0 & -> & -> & _).
    destruct (Hup _ _ Hk) as (f0 & Hk0 & -> & -> & _). by apply (H2 j k).
  - intros h j Hhd Hj. apply Hdom. by apply (H3 h).
  - intros j Hj. apply H4. by apply Hdom.
  - intros j e Hj. destruct (Hup _ _ Hj) as (_ & _ & _ & _ & _ & _ & Hx). done.
  - intros j (e & Hj & Hfl)%H6. destruct (proj1 (Hdom j)) as [e' He']; [by rewrite Hj|].
    exists e'. split; [done|]. destruct (Hup _ _ He') as (e0 & Hj0 & _ & _ & _ & Hx & _).
    apply Hx. congruence.
Qed.

(** Changing bit [b] of a cluster to [v], with its counter. *)
Lemma change_bit st i c b v bm free :
  pa_wf st -> word_at (static_clusters st) i = Some c -> 0 <= b < usbale_count c ->
  bm_wf bm -> mask_count bm = mask_count (cbitmap c) ->
  (forall k, used bm k = if k =? b then v else used (cbitmap c) k) ->
  free = cfree c - Z.b2z v + Z.b2z (used (cbitmap c) b) ->
  let st' := set_clusters st (<[Z.to_nat i := with_bitmap c bm free]> (static_clusters st)) in
  pa_wf st' /\
  forall p, allocated st' p <-> if p =? page_of c b then v = true else allocated st p.
Proof.
  intros Hwf Hc Hb Hbm Hm Hu Hfree st'.
  pose proof (pw_cluster _ Hwf _ _ Hc) as Hok.
  assert (cluster_ok (with_bitmap c bm free)) as Hok'.
  { destruct Hok. constructor; cbn; try done; [congruence|].
    rewrite (used_below_update (cbitmap c) bm b v) by (done || lia).
    rewrite (proj2 (Z.ltb_lt b _)) by lia. lia. }
  split.
  { apply (pa_wf_update st i c); try done. intros Hfl. by apply (pw_owned _ Hwf i c). }
  intros p. split.
  - intros (j & d & b' & Hd & Hb' & Hus & ->). cbn in Hd. rewrite (word_at_update _ _ c) in Hd by done.
    destruct (Z.eqb_spec i j) as [<-|Hne].
    + injection Hd as <-. cbn in Hb', Hus. change (page_of (with_bitmap c bm free) b') with (page_of c b').
      rewrite Hu in Hus. destruct (Z.eqb_spec (page_of c b') (page_of c b)) as [E|E].
      * destruct (page_of_inj st i i c c b' b Hwf Hc Hc Hb' Hb E) as [_ ->]. by rewrite Z.eqb_refl in Hus.
      * destruct (Z.eqb_spec b' b) as [E'|]; [by rewrite E' in E|]. by exists i, c, b'.
    + destruct (Z.eqb_spec (page_of d b') (page_of c b)) as [E|E].
      * by destruct (page_of_inj st j i d c b' b Hwf Hd Hc Hb' Hb E).
      * by exists j, d, b'.
  - destruct (Z.eqb_spec p (page_of c b)) as [->|Hne].
    + intros ->. exists i, (with_bitmap c bm free), b. cbn. rewrite (word_at_update _ _ c), Z.eqb_refl by done.
      split_and!; try done; try lia. by rewrite Hu, Z.eqb_refl.
    + intros (j & d & b' & Hd & Hb' & Hus & ->).
      destruct (Z.eqb_spec i j) as [<-|Hij].
      * rewrite Hc in Hd. injection Hd as <-. exists i, (with_bitmap c bm free), b'. cbn.
        rewrite (word_at_update _ _ c), Z.eqb_refl by done. split_and!; try done; try lia.
        rewrite Hu. destruct (Z.eqb_spec b' b) as [->|]; [done|done].
      * exists j, d, b'. cbn. rewrite (word_at_update _ _ c) by done.
        by rewrite (proj2 (Z.eqb_neq i j) Hij).
Qed.

(** The counter is 0 exactly when every page is handed out. *)
Lemma cfree_zero c :
  cluster_ok c -> 0 <= usbale_count c ->
  cfree c = 0 <-> forall b, 0 <= b < usbale_count c -> used (cbitmap c) b = true.
Proof.
  intros Hok Hu. pose proof (used_below_full (cbitmap c) (Z.to_nat (usbale_count c))) as H.
  rewrite Z2Nat.id in H by lia. rewrite <- H, (co_free _ Hok). lia.
Qed.

Lemma usable_nonneg c : cluster_ok c -> 0 <= usbale_count c < 2147483648.
Proof. intros [[_ Hm Hi _] Hmc _ _ _ _]. rewrite Hmc in *. lia. Qed.

Lemma cfree_range c : cluster_ok c -> 0 <= cfree c <= usbale_count c.
Proof.
  intros Hok. pose proof (usable_nonneg c Hok).
  pose proof (used_below_range (cbitmap c) (Z.to_nat (usbale_count c))).
  rewrite (co_free _ Hok). lia.
Qed.

(** ** One page from one cluster *)

Lemma allocate_one fuel st i c :
  pa_wf st -> word_at (static_clusters st) i = Some c ->
  (cfree c = 0 /\ allocate fuel st i 1 = Ret (0, st)) \/
  (0 < cfree c /\ exists b bm,
     let st' := set_clusters st (<[Z.to_nat i := with_bitmap c bm (cfree c - 1)]> (static_clusters st)) in
     allocate fuel st i 1 = Ret (page_of c b, st') /\ pa_wf st' /\ 0 <= b < usbale_count c /\
     page_of c b <> 0 /\ ~ allocated st (page_of c b) /\
     forall p, allocated st' p <-> p = page_of c b \/ allocated st p).
Proof.
  intros Hwf Hc. pose proof (pw_cluster _ Hwf _ _ Hc) as Hok.
  pose proof (usable_nonneg c Hok) as Hus. pose proof (cfree_range c Hok) as Hfr.
  unfold allocate. rewrite Hc. cbn [lift mbind run_bind].
  destruct (Z.eqb_spec (cfree c) 0) as [E|E]; [by left|right]. split; [lia|].
  cbn [Z.eqb Pos.eqb negb].
  destruct (alloc_bit_cases (cbitmap c) (co_bm _ Hok)) as (b & bm & -> & Hwfb & Hm & _ & Hr).
  cbn [lift mbind run_bind]. destruct Hr as [(-> & _ & _ & Hall)|(Hb & Hz & _ & Hu & _)].
  { destruct E. apply cfree_zero; [done|lia|]. rewrite (co_mask _ Hok) in Hall. done. }
  rewrite (co_mask _ Hok) in Hb.
  rewrite (proj2 (Z.eqb_neq b HAL_BITMAP_ALLOC_BIT_ERROR))
    by (unfold HAL_BITMAP_ALLOC_BIT_ERROR, ULONG_MAX; lia).
  rewrite (word_set_update _ _ c) by done. cbn [lift mbind run_bind].
  destruct (page_pfn c b Hok Hb) as (_ & Hw & Hpos).
  rewrite (wrap_small (cfree c - 1)) by (unfold is_word; lia).
  replace (b * PAGE_SIZE + ram_base c) with (page_of c b) by (unfold page_of; lia).
  rewrite wrap_small by done.
  destruct (change_bit st i c b true bm (cfree c - 1)) as [Hwf' Hal]; try done.
  { rewrite Hz. cbn. lia. }
  exists b, bm. cbv zeta. split_and!; try done; try lia.
  - intros (j & d & b' & Hd & Hb' & Hus' & E').
    destruct (page_of_inj st i j c d b b' Hwf Hc Hd Hb Hb' E') as [<- <-]. congruence.
  - intros p. rewrite Hal. destruct (Z.eqb_spec p (page_of c b)) as [->|Hne]; [split; [by left|done]|].
    split; [by right|by intros [?|?]].
Qed.

(** ** Taking a cluster *)

Lemma find_head_spec l node k hd :
  find_head l node k = Some hd -> k <= hd /\ exists h, l !! Z.to_nat (hd - k) = Some h /\ hnode h = node.
Proof.
  revert k. induction l as [|h l IH]; intros k; cbn [find_head]; [done|].
  destruct (Z.eqb_spec (hnode h) node).
  - intros [= <-]. split; [lia|]. exists h. by rewrite Z.sub_diag.
  - intros H. destruct (IH _ H) as (Hk & h' & Hl & Hn). split; [lia|]. exists h'. split; [|done].
    replace (Z.to_nat (hd - k)) with (S (Z.to_nat (hd - (k + 1)))) by lia. done.
Qed.

Lemma find_head_at l node hd :
  find_head l node 0 = Some hd -> exists h, word_at l hd = Some h /\ h ∈ l /\ hnode h = node.
Proof.
  intros H. destruct (find_head_spec _ _ _ _ H) as (Hk & h & Hl & Hn). rewrite Z.sub_0_r in Hl.
  exists h. unfold word_at. rewrite (proj2 (Z.leb_le 0 hd)) by lia.
  split_and!; [done|by eapply list_elem_of_lookup_2|done].
Qed.

(** The cluster [c], taken for [node]. *)
Definition taken (c : km_cluster) (hd node : Z) : km_cluster :=
  Cluster hd (start_pfn c) (end_pfn c) (ram_base c) (cbitmap c) node (usbale_count c) (cfree c)
    (Z.setbit (flags c) KM_CLUSTER_NOT_FREE).

Lemma take_cluster_spec cs l node hd :
  (forall i, i ∈ l -> is_Some (word_at cs i)) ->
  take_cluster cs l node hd false = Some None \/
  exists i c, i ∈ l /\ word_at cs i = Some c /\ flag c KM_CLUSTER_NOT_FREE = false /\
    take_cluster cs l node hd false = Some (Some (i, <[Z.to_nat i := taken c hd node]> cs)).
Proof.
  induction l as [|i l IH]; intros Hl; cbn [take_cluster]; [by left|].
  destruct (Hl i) as [c Hc]; [apply list_elem_of_here|]. rewrite Hc. cbn [mbind option_bind].
  destruct (flag c KM_CLUSTER_NOT_FREE) eqn:E; [rewrite orb_true_r|rewrite orb_false_r;
    destruct (flag c KM_CLUSTER_TOTALLY_USING)].
  3: { right. exists i, c. rewrite (word_set_update _ _ c) by done. cbn [mbind option_bind].
       split_and!; try done. apply list_elem_of_here. }
  all: destruct IH as [IH|(j & d & Hj & Hd & Hf & IH)];
    [intros j Hj; apply Hl; by apply list_elem_of_further|by left|right].
  all: exists j, d; split_and!; try done; by apply list_elem_of_further.
Qed.

Definition same_frame (st st' : km_stack) : Prop :=
  ram_nodes st' = ram_nodes st /\ cpu_id st' = cpu_id st /\ preempt st' = preempt st.

(** Taking a cluster changes no page. *)
Lemma taken_pages st i c hd node p :
  word_at (static_clusters st) i = Some c ->
  allocated (set_clusters st (<[Z.to_nat i := taken c hd node]> (static_clusters st))) p <-> allocated st p.
Proof.
  intros Hc. split; intros (j & d & b & Hd & Hb & Hu & ->).
  - cbn in Hd. rewrite (word_at_update _ _ c) in Hd by done. destruct (Z.eqb_spec i j) as [<-|].
    + injection Hd as <-. by exists i, c, b.
    + by exists j, d, b.
  - destruct (Z.eqb_spec i j) as [<-|Hne].
    + rewrite Hc in Hd. injection Hd as <-. exists i, (taken c hd node), b. cbn.
      rewrite (word_at_update _ _ c), Z.eqb_refl by done. done.
    + exists j, d, b. cbn. rewrite (word_at_update _ _ c) by done.
      by rewrite (proj2 (Z.eqb_neq i j) Hne).
Qed.

Lemma cluster_alloc_spec st node :
  pa_wf st ->
  km_cluster_alloc st node false = Some (None, st) \/
  exists i c hd n, word_at (static_clusters st) i = Some c /\ flag c KM_CLUSTER_NOT_FREE = false /\
    let st' := set_clusters st (<[Z.to_nat i := taken c hd n]> (static_clusters st)) in
    km_cluster_alloc st node false = Some (Some i, st') /\ pa_wf st' /\
    forall p, allocated st' p <-> allocated st p.
Proof.
  intros Hwf. unfold km_cluster_alloc. set (n := if node =? -1 then 0 else node).
  destruct (find_head (ram_nodes st) n 0) as [hd|] eqn:Eh; [|by left].
  destruct (find_head_at _ _ _ Eh) as (h & Hh & Hin & _). rewrite Hh. cbn [mbind option_bind].
  destruct (take_cluster_spec (static_clusters st) (hclusters h) n hd) as [->|(i & c & Hi & Hc & Hf & ->)].
  { intros i Hi. by apply (pw_heads _ Hwf h). }
  { by left. }
  right. exists i, c, hd, n. cbn [mbind option_bind]. split_and!; try done.
  - apply (pa_wf_update st i c); try done.
    + destruct (pw_cluster _ Hwf _ _ Hc). by constructor.
    + by rewrite Hf.
  - intros p. by apply taken_pages.
Qed.

(** ** The search for another cluster *)

Definition owned_full (cs : list km_cluster) (l : list Z) (ram node : Z) : Prop :=
  forall j d, j ∈ l -> word_at cs j = Some d -> j <> ram -> real_node d = node ->
    flag d KM_CLUSTER_NOT_FREE = true -> cfree d <= 0.

Lemma find_next_spec cs l ram node :
  (forall i, i ∈ l -> is_Some (word_at cs i)) ->
  (find_next cs l ram node 1 = Some None /\ owned_full cs l ram node) \/
  exists i c, find_next cs l ram node 1 = Some (Some i) /\ word_at cs i = Some c /\
    1 <= cfree c /\ flag c KM_CLUSTER_NOT_FREE = true.
Proof.
  induction l as [|i l IH]; intros Hl; cbn [find_next].
  { left. split; [done|]. intros j d Hj. by apply not_elem_of_nil in Hj. }
  destruct (Hl i) as [c Hc]; [apply list_elem_of_here|]. rewrite Hc. cbn [mbind option_bind].
  destruct (negb (ram =? i) && (node =? real_node c) && flag c KM_CLUSTER_NOT_FREE && (1 <=? cfree c)) eqn:E.
  { zbool. right. exists i, c. by split_and!. }
  destruct IH as [[IH Hfull]|IH]; [intros j Hj; apply Hl; by apply list_elem_of_further| |by right].
  left. split; [done|]. intros j d [->|Hj]%elem_of_cons Hd Hne Hn Hfl; [|by apply (Hfull j)].
  rewrite Hc in Hd. injection Hd as <-.
  rewrite (proj2 (Z.eqb_neq ram i)), (proj2 (Z.eqb_eq node _)), Hfl in E by congruence.
  cbn [negb andb] in E. zbool. lia.
Qed.

(** Every cluster the owner of [ram] has in that list is out of pages. *)
Definition exhausted (st : km_stack) (ram : Z) : Prop :=
  exists c h, word_at (static_clusters st) ram = Some c /\ word_at (ram_nodes st) (head c) = Some h /\
    forall j d, (j = ram \/ j ∈ hclusters h) -> word_at (static_clusters st) j = Some d ->
      real_node d = real_node c -> flag d KM_CLUSTER_NOT_FREE = true -> cfree d <= 0.

Lemma word_at_elem {A} (l : list A) i x : word_at l i = Some x -> x ∈ l.
Proof. unfold word_at. case_if; [|done]. intros H. by eapply list_elem_of_lookup_2. Qed.

(** The current cluster is out of pages: a second one has a page, or there is
    a new one, or there is none. *)
Lemma second_cluster_spec st ram c :
  pa_wf st -> word_at (static_clusters st) ram = Some c -> flag c KM_CLUSTER_NOT_FREE = true ->
  cfree c = 0 ->
  (exists i d, second_cluster st ram 1 = Some (Some i, st) /\ word_at (static_clusters st) i = Some d /\
     1 <= cfree d /\ flag d KM_CLUSTER_NOT_FREE = true) \/
  (exhausted st ram /\
   (second_cluster st ram 1 = Some (None, st) \/
    exists i d hd n, word_at (static_clusters st) i = Some d /\ flag d KM_CLUSTER_NOT_FREE = false /\
      let st' := set_clusters st (<[Z.to_nat i := taken d hd n]> (static_clusters st)) in
      second_cluster st ram 1 = Some (Some i, st') /\ pa_wf st' /\
      forall p, allocated st' p <-> allocated st p)).
Proof.
  intros Hwf Hc Hfl H0. unfold second_cluster. rewrite Hc. cbn [mbind option_bind].
  destruct (pw_owned _ Hwf _ _ Hc Hfl) as [h Hh]. rewrite Hh. cbn [mbind option_bind].
  destruct (find_next_spec (static_clusters st) (hclusters h) ram (real_node c))
    as [[-> Hfull]|(i & d & -> & Hd & Hf & Hfd)].
  { intros i Hi. apply (pw_heads _ Hwf h); [by eapply word_at_elem|done]. }
  - right. split.
    + exists c, h. split_and!; try done. intros j d Hj Hd Hn Hfd.
      destruct (Z.eq_dec j ram) as [->|Hne]; [rewrite Hc in Hd; injection Hd as <-; lia|].
      destruct Hj as [?|Hj]; [done|]. by apply (Hfull j).
    + cbn [mbind option_bind].
      destruct (cluster_alloc_spec st (cpu_id st) Hwf) as [->|(i & d & hd & n & Hd & Hfd & E & Hwf' & Hal)];
        [by left|right]. by exists i, d, hd, n.
  - left. by exists i, d.
Qed.

(** A cluster without pages that is taken keeps the others exhausted. *)
Lemma exhausted_taken st ram i d hd n :
  pa_wf st -> exhausted st ram -> word_at (static_clusters st) i = Some d ->
  flag d KM_CLUSTER_NOT_FREE = false -> cfree d = 0 ->
  (exists c, word_at (static_clusters st) ram = Some c /\ flag c KM_CLUSTER_NOT_FREE = true) ->
  exhausted (set_clusters st (<[Z.to_nat i := taken d hd n]> (static_clusters st))) ram.
Proof.
  intros Hwf (c & h & Hc & Hh & Hfull) Hd Hfd H0 (c' & Hc' & Hfc). rewrite Hc in Hc'. injection Hc' as <-.
  exists c, h. cbn. rewrite (word_at_update _ _ d) by done.
  destruct (Z.eqb_spec i ram) as [->|Hne]; [congruence|]. split_and!; try done.
  intros j e Hj He Hn Hfe. rewrite (word_at_update _ _ d) in He by done.
  destruct (Z.eqb_spec i j) as [<-|]; [injection He as <-; cbn; lia|]. by apply (Hfull j).
Qed.

(** ** Allocation and release of a page *)

Lemma pa_wf_frame st cur n :
  pa_wf st ->
  (forall i, cur = Some i -> exists c, word_at (static_clusters st) i = Some c /\
                               flag c KM_CLUSTER_NOT_FREE = true) ->
  pa_wf (Pa (static_clusters st) (ram_nodes st) cur (cpu_id st) n).
Proof. intros [] H. by constructor. Qed.

(** A page was handed out, or none is left for the owner of the cluster [ram]. *)
Definition page_result (st : km_stack) (page : Z) (st' : km_stack) (ram : Z) : Prop :=
  (page <> 0 /\ page mod PAGE_SIZE = 0 /\ ~ allocated st page /\
     forall p, allocated st' p <-> p = page \/ allocated st p) \/
  (page = 0 /\ exhausted st' ram /\ forall p, allocated st' p <-> allocated st p).

Lemma page_aligned c b : cluster_ok c -> page_of c b mod PAGE_SIZE = 0.
Proof.
  intros Hok. unfold page_of. rewrite (co_base _ Hok), <- Z.mul_add_distr_r. apply Z.mod_mul. done.
Qed.

(** From the current cluster [ram] on. *)
Lemma allocate_from fuel st ram c :
  pa_wf st -> word_at (static_clusters st) ram = Some c -> flag c KM_CLUSTER_NOT_FREE = true ->
  exists page st', ('(page, st1) ← allocate fuel st ram 1;
     if negb (page =? 0) then Ret (page, km_put_current_cluster st1) else
     '(next, st2) ← lift (second_cluster st1 ram 1);
     match next with
     | None => Ret (page, km_put_current_cluster st2)
     | Some i =>
       '(page, st3) ← allocate fuel (set_current_cluster st2 (Some i)) i 1;
       Ret (page, km_put_current_cluster st3)
     end) = Ret (page, st') /\
    pa_wf st' /\ preempt st' = preempt st - 1 /\ page_result st page st' ram.
Proof.
  intros Hwf Hc Hfl.
  destruct (allocate_one fuel st ram c Hwf Hc) as [[H0 ->]|(_ & b & bm & -> & Hwf' & Hb & Hnz & Hno & Hal)].
  2: { cbn [mbind run_bind]. rewrite (proj2 (Z.eqb_neq _ 0) Hnz). cbn [negb].
       eexists _, _. split; [done|]. split; [|split; [done|]].
       - apply (pa_wf_frame _ _ _ Hwf'). apply (pw_current _ Hwf').
       - left. split_and!; try done. apply page_aligned. by apply (pw_cluster _ Hwf ram). }
  cbn [mbind run_bind Z.eqb negb].
  assert (forall i d st2, pa_wf st2 -> word_at (static_clusters st2) i = Some d ->
            flag d KM_CLUSTER_NOT_FREE = true -> pa_wf (set_current_cluster st2 (Some i))) as Hcur.
  { intros i d st2 H2 Hd Hfd. apply (pa_wf_frame _ _ _ H2). intros j [= <-]. by exists d. }
  destruct (second_cluster_spec st ram c Hwf Hc Hfl H0)
    as [(i & d & -> & Hd & Hf & Hfd)|[Hex [->|(i & d & hd & n & Hd & Hfd & -> & Hwf2 & Hal2)]]];
    cbn [lift mbind run_bind].
  - assert (pa_wf (set_current_cluster st (Some i))) as Hw by (by apply (Hcur i d)).
    destruct (allocate_one fuel (set_current_cluster st (Some i)) i d Hw Hd)
      as [[? _]|(_ & b & bm & -> & Hwf' & Hb & Hnz & Hno & Hal)]; [lia|].
    cbn [mbind run_bind]. eexists _, _. split; [done|]. split; [|split; [done|]].
    + apply (pa_wf_frame _ _ _ Hwf'). apply (pw_current _ Hwf').
    + left. split_and!; try done. apply page_aligned. by apply (pw_cluster _ Hwf i).
  - eexists _, _. split; [done|]. split; [|split; [done|]].
    + apply (pa_wf_frame _ _ _ Hwf). apply (pw_current _ Hwf).
    + right. by split_and!.
  - assert (word_at (<[Z.to_nat i := taken d hd n]> (static_clusters st)) i = Some (taken d hd n)) as Hd2
      by (by rewrite (word_at_update _ _ d), Z.eqb_refl).
    set (st2 := set_clusters st (<[Z.to_nat i := taken d hd n]> (static_clusters st))) in *.
    assert (flag (taken d hd n) KM_CLUSTER_NOT_FREE = true) as Hft.
    { unfold flag, taken. cbn [flags]. by apply Z.setbit_eq. }
    assert (pa_wf (set_current_cluster st2 (Some i))) as Hw by (by apply (Hcur i (taken d hd n))).
    destruct (allocate_one fuel (set_current_cluster st2 (Some i)) i (taken d hd n) Hw Hd2)
      as [[H0' ->]|(_ & b & bm & -> & Hwf' & Hb & Hnz & Hno & Hal)]; cbn [mbind run_bind].
    + eexists _, _. split; [done|]. split; [|split; [done|]].
      * apply (pa_wf_frame _ _ _ Hw). apply (pw_current _ Hw).
      * right. split_and!; [done| |done]. apply (exhausted_taken st ram i d hd n); try done. by exists c.
    + eexists _, _. split; [done|]. split; [|split; [done|]].
      * apply (pa_wf_frame _ _ _ Hwf'). apply (pw_current _ Hwf').
      * left. split_and!; try done.
        -- apply page_aligned. by apply (pw_cluster _ Hw i).
        -- intros Ha. apply Hno. by apply Hal2.
        -- intros p. etransitivity; [apply Hal|]. change (allocated (set_current_cluster st2 (Some i)) p)
             with (allocated st2 p). by rewrite Hal2.
Qed.

(** The cluster of a page. *)
Lemma get_page_node_spec st i c pfn page :
  pa_wf st -> word_at (static_clusters st) i = Some c -> start_pfn c <= pfn <= end_pfn c ->
  KM_PAGE_ADDRESS_TO_PFN page = pfn ->
  km_get_page_node (static_clusters st) (ram_nodes st) page = Some (Some i).
Proof.
  intros Hwf Hc Hp Hpfn.
  assert (forall l, (forall j, j ∈ l -> is_Some (word_at (static_clusters st) j)) ->
            (i ∈ l -> find_cluster (static_clusters st) l pfn = Some (Some i)) /\
            (i ∉ l -> find_cluster (static_clusters st) l pfn = Some None)) as Hfind.
  { induction l as [|j l IH]; intros Hl; cbn [find_cluster].
    { split; [by intros ?%not_elem_of_nil|done]. }
    destruct (Hl j) as [d Hd]; [apply list_elem_of_here|]. rewrite Hd. cbn [mbind option_bind].
    destruct IH as [IH1 IH2]; [intros k Hk; apply Hl; by apply list_elem_of_further|].
    destruct (Z.eq_dec j i) as [->|Hne].
    - rewrite Hc in Hd. injection Hd as <-.
      rewrite (proj2 (Z.leb_le _ pfn)), (proj2 (Z.leb_le pfn _)) by lia. cbn [andb].
      split; [done|]. intros Hn. destruct Hn. apply list_elem_of_here.
    - assert ((start_pfn d <=? pfn) && (pfn <=? end_pfn d) = false) as ->.
      { destruct (pw_disjoint _ Hwf _ _ _ _ Hc Hd) as [H|H]; [congruence| |].
        - rewrite (proj2 (Z.leb_gt (start_pfn d) pfn)) by lia. done.
        - rewrite (proj2 (Z.leb_gt pfn (end_pfn d))) by lia. by rewrite andb_false_r. }
      split.
      + intros [?|Hi]%elem_of_cons; [congruence|by apply IH1].
      + intros [_ Hi]%not_elem_of_cons. by apply IH2. }
  destruct (pw_linked _ Hwf i) as (h0 & Hh0 & Hi0); [by rewrite Hc|].
  assert (forall h, h ∈ ram_nodes st -> h ∈ ram_nodes st) as Hsub by done. revert Hsub Hh0.
  generalize (ram_nodes st) at 1 3 4 as nodes.
  induction nodes as [|h nodes IH]; intros Hsub Hh0; [by apply not_elem_of_nil in Hh0|].
  cbn [km_get_page_node]. rewrite Hpfn.
  destruct (Hfind (hclusters h)) as [F1 F2].
  { intros j Hj. apply (pw_heads _ Hwf h); [apply Hsub, list_elem_of_here|done]. }
  destruct (decide (i ∈ hclusters h)) as [Hin|Hin]; [by rewrite F1|]. rewrite F2 by done.
  cbn [mbind option_bind]. apply IH; [intros h' Hh'; apply Hsub; by apply list_elem_of_further|].
  by apply elem_of_cons in Hh0 as [->|?].
Qed.

(** ** Inserting RAM *)

(** The pages the allocator can hand out. *)
Definition managed (st : km_stack) (p : Z) : Prop :=
  exists i c b, word_at (static_clusters st) i = Some c /\ 0 <= b < usbale_count c /\ p = page_of c b.

Lemma word_at_app {A} (l : list A) x i :
  word_at (l ++ [x]) i = if i =? Z.of_nat (length l) then Some x else word_at l i.
Proof.
  unfold word_at. destruct (Z.leb_spec 0 i); [|destruct (Z.eqb_spec i (Z.of_nat (length l))); [lia|done]].
  destruct (Z.eqb_spec i (Z.of_nat (length l))) as [->|Hne].
  - rewrite Nat2Z.id, lookup_app_r, Nat.sub_diag by lia. done.
  - destruct (Nat.lt_ge_cases (Z.to_nat i) (length l)); [by apply lookup_app_l|].
    rewrite lookup_app_r by lia. rewrite (lookup_ge_None_2 l) by lia.
    destruct (Z.to_nat i - length l)%nat eqn:E; [lia|done].
Qed.

(** A new cluster, linked in the head [hd]. *)
Definition appended (st : km_stack) (hd : Z) (h : km_cluster_head) (c : km_cluster) : km_stack :=
  set_nodes (set_clusters st (static_clusters st ++ [c]))
    (<[Z.to_nat hd := Head (hnode h) (hclusters h ++ [Z.of_nat (length (static_clusters st))])]>
       (ram_nodes st)).

Lemma appended_wf st hd h c :
  pa_wf st -> word_at (ram_nodes st) hd = Some h -> cluster_ok c -> flag c KM_CLUSTER_NOT_FREE = false ->
  (forall i d, word_at (static_clusters st) i = Some d -> end_pfn d < start_pfn c \/ end_pfn c < start_pfn d) ->
  pa_wf (appended st hd h c).
Proof.
  intros [H1 H2 H3 H4 H5 H6] Hh Hok Hf Hdis.
  set (k := Z.of_nat (length (static_clusters st))).
  assert (word_at (static_clusters st) k = None) as Hk.
  { unfold word_at. rewrite (proj2 (Z.leb_le 0 k)) by lia. apply lookup_ge_None_2. unfold k. lia. }
  assert (forall i d, word_at (static_clusters st) i = Some d ->
            word_at (static_clusters st ++ [c]) i = Some d) as Hold.
  { intros i d Hd. rewrite word_at_app. destruct (Z.eqb_spec i k) as [->|]; [congruence|].
    fold k. by rewrite (proj2 (Z.eqb_neq i k)). }
  pose proof (word_at_bound _ _ _ Hh) as Hhb.
  assert (forall h', h' ∈ ram_nodes st -> exists h2, h2 ∈ ram_nodes (appended st hd h c) /\
            forall i, i ∈ hclusters h' -> i ∈ hclusters h2) as Hheads.
  { intros h' [j Hj]%list_elem_of_lookup_1. cbn. destruct (Nat.eq_dec j (Z.to_nat hd)) as [->|Hne].
    - eexists. split; [eapply list_elem_of_lookup_2, list_lookup_insert_eq; lia|].
      unfold word_at in Hh. rewrite (proj2 (Z.leb_le 0 hd)), Hj in Hh by lia. injection Hh as <-.
      intros i Hi. cbn. apply elem_of_app. by left.
    - exists h'. split; [|done]. eapply list_elem_of_lookup_2. by rewrite list_lookup_insert_ne. }
  constructor; cbn [appended set_nodes set_clusters static_clusters ram_nodes mm_current_cluster].
  - intros i d. rewrite word_at_app. case_if; [by intros [= <-]|by apply H1].
  - intros i j d e. rewrite !word_at_app. fold k.
    destruct (Z.eqb_spec i k) as [->|], (Z.eqb_spec j k) as [->|]; intros Hd He Hne; simplify_eq.
    + destruct (Hdis _ _ He); lia.
    + by apply (Hdis i).
    + by apply (H2 i j).
  - intros h' i Hh' Hi. rewrite word_at_app. fold k. destruct (Z.eqb_spec i k) as [->|Hne]; [done|].
    apply list_elem_of_lookup_1 in Hh' as [j Hj]. destruct (Nat.eq_dec j (Z.to_nat hd)) as [->|Hj'].
    + rewrite list_lookup_insert_eq in Hj by lia. injection Hj as <-. cbn in Hi.
      apply elem_of_app in Hi as [Hi|Hi%list_elem_of_singleton]; [|done].
      apply (H3 h); [by eapply word_at_elem|done].
    + rewrite list_lookup_insert_ne in Hj by done. apply (H3 h'); [by eapply list_elem_of_lookup_2|done].
  - intros i. rewrite word_at_app. fold k. destruct (Z.eqb_spec i k) as [->|Hne]; intros Hi.
    + eexists. split; [eapply list_elem_of_lookup_2, list_lookup_insert_eq; lia|].
      cbn. apply elem_of_app. right. by apply list_elem_of_singleton.
    + destruct (H4 i Hi) as (h' & Hh' & Hin). destruct (Hheads h' Hh') as (h2 & Hh2 & Hsub).
      exists h2. split; [done|by apply Hsub].
  - intros i d. rewrite word_at_app. case_if; [intros [= <-]; by rewrite Hf|]. intros Hd Hfd.
    rewrite (word_at_update _ _ h) by done. case_if; [done|]. by apply (H5 i).
  - intros i (d & Hd & Hfd)%H6. exists d. split; [by apply Hold|done].
Qed.

(** The pages of the new cluster are free. *)
Lemma appended_pages st hd h c p :
  (forall b, 0 <= b < usbale_count c -> used (cbitmap c) b = false) ->
  (allocated (appended st hd h c) p <-> allocated st p) /\
  (managed (appended st hd h c) p <-> managed st p \/ exists b, 0 <= b < usbale_count c /\ p = page_of c b).
Proof.
  intros Hfree.
  assert (forall i d, word_at (static_clusters st ++ [c]) i = Some d <->
            (i = Z.of_nat (length (static_clusters st)) /\ d = c) \/ word_at (static_clusters st) i = Some d)
    as Hat.
  { intros i d. rewrite word_at_app. destruct (Z.eqb_spec i (Z.of_nat (length (static_clusters st)))) as [->|].
    - split; [intros [= <-]; by left|]. intros [[_ ->]|H%word_at_bound]; [done|lia].
    - split; [by right|]. by intros [[? _]|?]. }
  split; split.
  - intros (i & d & b & Hd & Hb & Hu & ->). apply Hat in Hd as [[_ ->]|Hd]; [by rewrite Hfree in Hu|].
    by exists i, d, b.
  - intros (i & d & b & Hd & Hb & Hu & ->). exists i, d, b. split_and!; try done; try lia. apply Hat. by right.
  - intros (i & d & b & Hd & Hb & ->). apply Hat in Hd as [[_ ->]|Hd]; [right; by exists b|left; by exists i, d, b].
  - intros [(i & d & b & Hd & Hb & ->)|(b & Hb & ->)].
    + exists i, d, b. split_and!; try lia. apply Hat. by right.
    + eexists _, c, b. split_and!; try lia. apply Hat. by left.
Qed.

Section Insert.
Context (ram : Z -> list Z) (Hram : forall a, words_ok (ram a) /\ length (ram a) = 1024%nat).

(** The cluster at [start] with [n] pages: one for the bitmap, the others free. *)
Lemma fill_cluster_spec start n last :
  start mod 4096 = 0 -> 0 <= start -> 1 <= n <= 8192 -> is_word (start + n * 4096) ->
  exists c, fill_cluster ram (Cluster 0 0 0 0 (Bitmap [] 0 0) 0 0 0 0) start (n * 4096) last = Some c /\
    cluster_ok c /\ flag c KM_CLUSTER_NOT_FREE = false /\ start_pfn c = start / 4096 /\
    end_pfn c = start / 4096 + n - 1 /\ usbale_count c = n - 1 /\ ram_base c = start + 4096 /\
    forall b, 0 <= b < usbale_count c -> used (cbitmap c) b = false.
Proof using Hram.
  intros Hal Hs Hn Hw. unfold is_word in Hw. unfold fill_cluster, KM_PAGE_ADDRESS_TO_PFN.
  rewrite (wrap_small (start + n * 4096)), (wrap_small (start + n * 4096 - 1)) by (unfold is_word; lia).
  rewrite !Z.shiftr_div_pow2 by lia. change (2 ^ 12) with 4096.
  assert (exists s, start = s * 4096 /\ 0 <= s) as (s & -> & Hs0) by (exists (start / 4096); zlia).
  replace ((s * 4096 + n * 4096 - 1) / 4096) with (s + n - 1) by zlia.
  rewrite Z.div_mul by lia.
  rewrite (wrap_small (s + n - 1 - s)), (wrap_small (s + n - 1 - s + 1)) by (unfold is_word; lia).
  replace (s + n - 1 - s + 1) with n by lia.
  assert (KM_PAGE_ROUND_COUNT (cl_bitmap_calc_size n) = 1) as ->.
  { unfold KM_PAGE_ROUND_COUNT, PAGE_SIZE. rewrite calc_size_ceil by lia.
    assert (0 <= (n + 7) / 8 <= 1024) by zlia.
    rewrite (wrap_small ((n + 7) / 8 + 4096)) by (unfold is_word; lia).
    rewrite wrap_small by (unfold is_word; lia). zlia. }
  destruct (Hram (s * 4096)) as [Hok Hlen].
  destruct (init_spec (Bitmap [] 0 0) (ram (s * 4096)) (n - 1)) as (bm & Hbm & Hwf & Hm & _ & _ & Hu); try done.
  { unfold nbits, BITS_PER_LONG. rewrite Hlen. lia. } { lia. }
  cbn [cbitmap]. rewrite Hbm. cbn [mbind option_bind]. unfold PAGE_SIZE.
  rewrite !(wrap_small (n - 1)), (wrap_small (1 * 4096)), (wrap_small (s * 4096 + 1 * 4096))
    by (unfold is_word; lia).
  eexists. split; [done|].
  assert (used_below bm (Z.to_nat (n - 1)) = 0) as Hz.
  { apply used_below_empty. intros i Hi. apply Hu. lia. }
  split_and!; try done; cbn; try lia.
  - constructor; cbn; try done; try lia. unfold PAGE_SIZE. lia.
  - by destruct last.
Qed.

(** One round of the loop: the cluster of the next [m] pages is appended. *)
Lemma insert_step i st hd h start n :
  pa_wf st -> word_at (ram_nodes st) hd = Some h ->
  start mod 4096 = 0 -> 0 <= start -> 1 <= n -> is_word (start + n * 4096) ->
  Z.of_nat (length (static_clusters st)) < KM_MAX_STATIC_RAM_INFO ->
  (forall j d, word_at (static_clusters st) j = Some d ->
     end_pfn d < start / 4096 \/ start / 4096 + n - 1 < start_pfn d) ->
  let m := Z.min n 8192 in
  exists c, insert_clusters ram (S i) st hd start (n * 4096) =
      insert_clusters ram i (appended st hd h c) hd (start +w KM_CLUSTER_SIZE) (n * 4096 -w KM_CLUSTER_SIZE) /\
    pa_wf (appended st hd h c) /\ end_pfn c = start / 4096 + m - 1 /\
    (forall p, allocated (appended st hd h c) p <-> allocated st p) /\
    (forall p, managed (appended st hd h c) p <-> managed st p \/
       exists k, 0 <= k < m /\ k mod 8192 <> 0 /\ p = start + k * 4096).
Proof using Hram.
  intros Hwf Hh Hal Hs Hn Hw Hroom Hdis m. unfold is_word in Hw. cbn [insert_clusters].
  assert ((if n * 4096 <? KM_CLUSTER_SIZE then n * 4096 else KM_CLUSTER_SIZE) = m * 4096) as ->.
  { unfold KM_CLUSTER_SIZE, m. case_if; lia. }
  unfold alloc_cluster. rewrite (proj2 (Z.leb_gt KM_MAX_STATIC_RAM_INFO _)) by lia.
  cbn [set_clusters static_clusters]. rewrite word_at_app, Z.eqb_refl. cbn [mbind option_bind].
  destruct (fill_cluster_spec start m (Nat.eqb (S i) 1))
    as (c & -> & Hok & Hf & Hsp & Hep & Hus & Hrb & Hfree); [done|done|lia|unfold is_word; lia|].
  cbn [mbind option_bind].
  rewrite word_at_set by (rewrite length_app; cbn; lia). cbn [mbind option_bind].
  rewrite Nat2Z.id, insert_app_r_alt, Nat.sub_diag by lia. cbn [list_insert insert].
  unfold link_cluster. cbn [set_clusters ram_nodes static_clusters]. rewrite Hh. cbn [mbind option_bind].
  rewrite (word_set_update _ _ h) by done. cbn [mbind option_bind].
  exists c. split; [done|]. split_and!; [|done|..].
  - apply appended_wf; try done. intros j d Hd. destruct (Hdis j d Hd); lia.
  - intros p. apply (appended_pages st hd h c p Hfree).
  - intros p. rewrite (proj2 (appended_pages st hd h c p Hfree)), Hus. unfold page_of, PAGE_SIZE.
    rewrite Hrb. split; (intros [?|H]; [by left|right]).
    + destruct H as (b & Hb & ->). exists (b + 1). rewrite Z.mod_small by lia. lia.
    + destruct H as (k & Hk & Hk0 & ->). exists (k - 1). rewrite Z.mod_small in Hk0 by lia. lia.
Qed.

(** The loop: [n] pages from [start], in [i] clusters. *)
Lemma insert_clusters_spec i st hd h start n :
  pa_wf st -> word_at (ram_nodes st) hd = Some h ->
  start mod 4096 = 0 -> 0 <= start -> 1 <= n -> is_word (start + n * 4096) ->
  8192 * (Z.of_nat i - 1) < n <= 8192 * Z.of_nat i ->
  Z.of_nat (length (static_clusters st)) + Z.of_nat i <= KM_MAX_STATIC_RAM_INFO ->
  (forall j d, word_at (static_clusters st) j = Some d ->
     end_pfn d < start / 4096 \/ start / 4096 + n - 1 < start_pfn d) ->
  exists st', insert_clusters ram i st hd start (n * 4096) = Some (true, st') /\ pa_wf st' /\
    (forall p, allocated st' p <-> allocated st p) /\
    (forall p, managed st' p <-> managed st p \/
       exists k, 0 <= k < n /\ k mod 8192 <> 0 /\ p = start + k * 4096).
Proof using Hram.
  revert st h start n. induction i as [|i IH]; intros st h start n Hwf Hh Hal Hs Hn Hw Hi Hroom Hdis; [lia|].
  destruct (insert_step i st hd h start n) as (c & -> & Hwf1 & Hep & Ha & Hm); try done; [lia|].
  unfold is_word, KM_CLUSTER_SIZE in *. destruct i as [|i'].
  { exists (appended st hd h c). cbn [insert_clusters]. split_and!; try done.
    intros p. rewrite Hm. by replace (Z.min n 8192) with n by lia. }
  rewrite Z.min_r in * by lia. rewrite !wrap_small by (unfold is_word; lia).
  replace (n * 4096 - 32 * 1024 * 1024) with ((n - 8192) * 4096) by lia.
  destruct (IH (appended st hd h c) (Head (hnode h) (hclusters h ++ [Z.of_nat (length (static_clusters st))]))
              (start + 32 * 1024 * 1024) (n - 8192)) as (st' & E & Hwf' & Ha' & Hm');
    try done; try lia; try zlia.
  - cbn. rewrite (word_at_update _ _ h), Z.eqb_refl by done. done.
  - cbn. rewrite length_app. cbn. lia.
  - intros j d Hd. cbn in Hd. rewrite word_at_app in Hd.
    replace ((start + 32 * 1024 * 1024) / 4096) with (start / 4096 + 8192) by zlia.
    destruct (j =? Z.of_nat (length (static_clusters st))).
    + injection Hd as <-. left. lia.
    + destruct (Hdis j d Hd); lia.
  - exists st'. split_and!; try done; [intros p; by rewrite Ha', Ha|].
    intros p. rewrite Hm', Hm. split.
    + intros [[?|(k & Hk & Hk0 & ->)]|(k & Hk & Hk0 & ->)]; [by left|right; exists k; lia|right].
      exists (k + 8192). split_and!; [lia|lia| |lia]. zlia.
    + intros [?|(k & Hk & Hk0 & ->)]; [by left; left|].
      destruct (Z.lt_ge_cases k 8192); [left; right; by exists k; split_and!; try lia|right].
      exists (k - 8192). split_and!; [lia|lia| |lia]. zlia.
Qed.

End Insert.

Lemma init_wf : pa_wf km_cluster_init.
Proof.
  assert (forall i, word_at (@nil km_cluster) i = None) as Hn by (intros i; unfold word_at; by case_if).
  constructor; cbn; try done.
  - intros i c. by rewrite Hn.
  - intros i j c d. by rewrite Hn.
  - by intros h i ?%not_elem_of_nil.
  - intros i. rewrite Hn. by intros [? ?].
  - intros i c. by rewrite Hn.
Qed.

(** The page, or the reason why there is none. *)
Lemma page_alloc_cases fuel st :
  pa_wf st ->
  exists page st', km_page_alloc fuel st = Ret (page, st') /\ pa_wf st' /\
    ((exists ram, preempt st' = preempt st /\ page_result st page st' ram /\
        forall i, mm_current_cluster st = Some i -> i = ram) \/
     (page = 0 /\ mm_current_cluster st = None /\ st' = set_preempt st (preempt st + 1))).
Proof.
  intros Hwf. unfold km_page_alloc, allocate_page, km_get_current_cluster.
  set (st0 := set_preempt st (preempt st + 1)).
  assert (pa_wf st0) as Hwf0 by (apply (pa_wf_frame _ _ _ Hwf), (pw_current _ Hwf)).
  destruct (mm_current_cluster st) as [ram|] eqn:Ec;
    change (mm_current_cluster st0) with (mm_current_cluster st); rewrite Ec; cbn [lift mbind run_bind].
  - destruct (pw_current _ Hwf ram Ec) as (c & Hc & Hfl).
    destruct (allocate_from fuel st0 ram c Hwf0 Hc Hfl) as (page & st' & -> & Hwf' & Hp & Hres).
    exists page, st'. split; [done|]. split; [done|]. left. exists ram. split; [cbn in Hp; lia|].
    split; [done|]. by intros i [= ->].
  - destruct (cluster_alloc_spec st0 (cpu_id st0) Hwf0)
      as [->|(ram & c & hd & n & Hc & Hf & -> & Hwf1 & Hal)]; cbn [lift mbind option_bind run_bind].
    { exists 0, st0. split; [done|]. split; [done|]. by right. }
    set (cs := <[Z.to_nat ram := taken c hd n]> (static_clusters st0)) in *.
    assert (word_at cs ram = Some (taken c hd n)) as Hc1
      by (unfold cs; by rewrite (word_at_update _ _ c), Z.eqb_refl).
    assert (flag (taken c hd n) KM_CLUSTER_NOT_FREE = true) as Hft by (by apply Z.setbit_eq).
    assert (pa_wf (set_current_cluster (set_clusters st0 cs) (Some ram))) as Hwf2.
    { apply (pa_wf_frame _ _ _ Hwf1). intros i [= <-]. by exists (taken c hd n). }
    destruct (allocate_from fuel _ ram _ Hwf2 Hc1 Hft) as (page & st' & -> & Hwf' & Hp & Hres).
    exists page, st'. split; [done|]. split; [done|]. left. exists ram. split; [cbn in Hp; lia|].
    split; [|done]. unfold page_result in *.
    assert (forall p, allocated (set_current_cluster (set_clusters st0 cs) (Some ram)) p <-> allocated st p)
      as Hsame by (intros p; exact (Hal p)).
    destruct Hres as [(H1 & H2 & H3 & H4)|(H1 & H2 & H3)]; [left|right]; split_and!; try done.
    + by rewrite <- Hsame.
    + intros p. by rewrite H4, Hsame.
    + intros p. by rewrite H3, Hsame.
Qed.

(** The page of the cluster is released. *)
Lemma page_dealloc_cases st page :
  pa_wf st -> managed st page ->
  exists st', km_page_dealloc st page = Some st' /\ pa_wf st' /\ same_frame st st' /\
    (forall p, allocated st' p <-> p <> page /\ allocated st p) /\
    (~ allocated st page -> forall i c', word_at (static_clusters st') i = Some c' ->
       exists c, word_at (static_clusters st) i = Some c /\ cfree c' = cfree c).
Proof.
  intros Hwf (i & c & b & Hc & Hb & ->). pose proof (pw_cluster _ Hwf _ _ Hc) as Hok.
  destruct (page_pfn c b Hok Hb) as (Hpfn & Hw & _). pose proof (co_first _ Hok) as Hfi.
  unfold km_page_dealloc, deallocate_page.
  rewrite (get_page_node_spec st i c (end_pfn c + 1 - usbale_count c + b)) by (done || lia).
  cbn [mbind option_bind]. rewrite Hc. cbn [mbind option_bind].
  assert (wrap (page_of c b - ram_base c) / PAGE_SIZE = b) as ->.
  { unfold page_of in *. replace (ram_base c + b * PAGE_SIZE - ram_base c) with (b * PAGE_SIZE) by lia.
    pose proof (usable_nonneg c Hok). pose proof (co_last _ Hok).
    rewrite wrap_small by (unfold is_word, PAGE_SIZE in *; lia). by apply Z.div_mul. }
  cbn [Z.eqb Pos.eqb].
  destruct (dealloc_bit_cases (cbitmap c) b (co_bm _ Hok)) as (bm & -> & Hwfb & Hm & _ & _ & Hu).
  { rewrite (co_mask _ Hok). done. }
  cbn [mbind option_bind]. rewrite (word_set_update _ _ c) by done. cbn [mbind option_bind].
  pose proof (cfree_range c Hok) as Hfr. pose proof (usable_nonneg c Hok) as Hus.
  rewrite (wrap_small (cfree c + 1)) by (unfold is_word; lia).
  destruct (change_bit st i c b false bm (if used (cbitmap c) b then cfree c + 1 else cfree c))
    as [Hwf' Hal]; try done.
  { destruct (used (cbitmap c) b); cbn; lia. }
  eexists. split; [done|]. split; [done|]. split; [done|]. split.
  - intros p. rewrite Hal. destruct (Z.eqb_spec p (page_of c b)) as [->|Hne].
    + split; [done|]. by intros [? _].
    + split; [by split|]. by intros [_ ?].
  - intros Hna j c' Hj. cbn in Hj. rewrite (word_at_update _ _ c) in Hj by done.
    destruct (Z.eqb_spec i j) as [<-|]; [|by exists c']. injection Hj as <-. exists c. split; [done|].
    cbn. destruct (used (cbitmap c) b) eqn:E; [|done]. destruct Hna. by exists i, c, b.
Qed.

(** ** The clusters stay where they are *)

Definition geometry (st : km_stack) : list (Z * Z * Z) :=
  (fun c => (end_pfn c, usbale_count c, ram_base c)) <$> static_clusters st.

Lemma geometry_set st i c d cs :
  word_at (static_clusters st) i = Some c -> word_set (static_clusters st) i d = Some cs ->
  (end_pfn d, usbale_count d, ram_base d) = (end_pfn c, usbale_count c, ram_base c) ->
  geometry (set_clusters st cs) = geometry st.
Proof.
  intros Hc Hs He. pose proof (word_at_bound _ _ _ Hc) as Hb. rewrite word_at_set in Hs by done. injection Hs as <-.
  unfold geometry. cbn. rewrite list_fmap_insert, He. apply list_insert_id. rewrite list_lookup_fmap.
  unfold word_at in Hc. by destruct (0 <=? i); [rewrite Hc|].
Qed.

Lemma cluster_alloc_geometry st node t r st' :
  km_cluster_alloc st node t = Some (r, st') -> geometry st' = geometry st.
Proof.
  unfold km_cluster_alloc. set (k := if node =? -1 then 0 else node). destruct (find_head _ k 0) as [hd|]; [|by intros [= <- <-]].
  destruct (word_at (ram_nodes st) hd) as [h|]; [|done]. cbn [mbind option_bind].
  induction (hclusters h) as [|i l IH]; cbn [take_cluster mbind option_bind]; [by intros [= <- <-]|].
  destruct (word_at (static_clusters st) i) as [c|] eqn:Hc; [|done]. cbn [mbind option_bind].
  destruct (_ || _); [exact IH|]. destruct (word_set _ i _) as [cs|] eqn:Hs; [|done]. cbn [mbind option_bind].
  intros [= <- <-]. by apply (geometry_set st i c _ cs Hc Hs).
Qed.

Lemma allocate_geometry fuel st i n p st' : allocate fuel st i n = Ret (p, st') -> geometry st' = geometry st.
Proof.
  unfold allocate. destruct (word_at (static_clusters st) i) as [c|] eqn:Hc; [|done]. cbn [lift mbind run_bind].
  destruct (cfree c =? 0); [by intros [= <- <-]|]. destruct (if negb (n =? 1) then _ else _) as [[bit bm]| |]; [|done|done].
  cbn [mbind run_bind]. destruct (word_set _ i _) as [cs|] eqn:Hs; [|done]. cbn [lift mbind run_bind].
  intros [= <- <-]. by apply (geometry_set st i c _ cs Hc Hs).
Qed.

Lemma page_alloc_geometry fuel st p st' : km_page_alloc fuel st = Ret (p, st') -> geometry st' = geometry st.
Proof.
  unfold km_page_alloc, allocate_page, km_get_current_cluster. set (st0 := set_preempt st (preempt st + 1)).
  assert (forall ram st1, geometry st1 = geometry st ->
    ('(page, st2) ← allocate fuel st1 ram 1;
     if negb (page =? 0) then Ret (page, km_put_current_cluster st2) else
     '(next, st3) ← lift (second_cluster st2 ram 1);
     match next with
     | None => Ret (page, km_put_current_cluster st3)
     | Some i => '(page, st4) ← allocate fuel (set_current_cluster st3 (Some i)) i 1; Ret (page, km_put_current_cluster st4)
     end) = Ret (p, st') -> geometry st' = geometry st) as Hcont.
  { intros ram st1 G1. destruct (allocate fuel st1 ram 1) as [[q st2]| |] eqn:E1; [|done|done]. cbn [mbind run_bind].
    pose proof (allocate_geometry _ _ _ _ _ _ E1) as G2. destruct (negb (q =? 0)); [intros [= <- <-]; exact (eq_trans G2 G1)|].
    destruct (second_cluster st2 ram 1) as [[next st3]|] eqn:E2; [|done]. cbn [lift mbind run_bind].
    assert (geometry st3 = geometry st2) as G3.
    { revert E2. unfold second_cluster. destruct (word_at _ ram) as [c|]; [|done]. cbn [mbind option_bind].
      destruct (word_at _ (head c)) as [h|]; [|done]. cbn [mbind option_bind].
      destruct (find_next _ _ _ _ _) as [[i|]|]; cbn [mbind option_bind]; [by intros [= <- <-]|apply cluster_alloc_geometry|done]. }
    destruct next as [i|]; [|intros [= <- <-]; exact (eq_trans G3 (eq_trans G2 G1))].
    destruct (allocate fuel _ i 1) as [[q' st4]| |] eqn:E3; [|done|done]. cbn [mbind run_bind]. intros [= <- <-].
    exact (eq_trans (allocate_geometry _ _ _ _ _ _ E3) (eq_trans G3 (eq_trans G2 G1))). }
  destruct (mm_current_cluster st0) as [ram|]; cbn [lift mbind run_bind]; [by apply Hcont|].
  destruct (km_cluster_alloc st0 (cpu_id st0) false) as [[[ram|] st1]|] eqn:E; [| |done]; cbn [lift mbind option_bind run_bind];
    pose proof (cluster_alloc_geometry _ _ _ _ _ E) as G; [by apply Hcont|by intros [= <- <-]].
Qed.

Lemma page_dealloc_geometry st p st' : km_page_dealloc st p = Some st' -> geometry st' = geometry st.
Proof.
  unfold km_page_dealloc, deallocate_page. destruct (km_get_page_node _ _ p) as [[i|]|]; [|by intros [= <-]|done].
  cbn [mbind option_bind]. destruct (word_at (static_clusters st) i) as [c|] eqn:Hc; [|done]. cbn [mbind option_bind Z.eqb Pos.eqb].
  destruct (cl_bitmap_dealloc_bit _ _) as [[f bm]|]; [|done]. cbn [mbind option_bind].
  destruct (word_set _ i _) as [cs|] eqn:Hs; [|done]. cbn [mbind option_bind].
  intros [= <-]. by apply (geometry_set st i c _ cs Hc Hs).
Qed.

(** The pages an allocator manages are those of its clusters. *)
Lemma managed_geometry st st' p : geometry st' = geometry st -> managed st p -> managed st' p.
Proof.
  intros G (i & c & b & Hc & Hb & ->). unfold word_at in Hc. destruct (0 <=? i) eqn:Hi; [|done].
  assert (geometry st' !! Z.to_nat i = Some (end_pfn c, usbale_count c, ram_base c)) as Hg.
  { rewrite G. unfold geometry. by rewrite list_lookup_fmap, Hc. }
  unfold geometry in Hg. rewrite list_lookup_fmap in Hg. destruct (static_clusters st' !! Z.to_nat i) as [d|] eqn:Hd; [|done].
  injection Hg as _ Hu Hr. exists i, d, b. unfold word_at, page_of. rewrite Hi, Hd, Hu, Hr. done.
Qed.

(** A machine with one cluster of three pages, taken by CPU 0: the first page
    holds the bitmap, the second is handed out, the third is free. *)
Definition sample_pa : km_stack :=
  Pa [Cluster 0 256 258 0x101000 (Bitmap [1] 2 1) 0 2 1 2] [Head 0 [0]] (Some 0) 0 0.

Lemma sample_pa_wf : pa_wf sample_pa.
Proof.
  assert (forall i c, word_at (static_clusters sample_pa) i = Some c ->
            i = 0 /\ c = Cluster 0 256 258 0x101000 (Bitmap [1] 2 1) 0 2 1 2) as Hinv.
  { intros i c H. pose proof (word_at_bound _ _ _ H) as Hb. cbn in Hb.
    assert (i = 0) as -> by lia. by injection H as <-. }
  constructor.
  - intros i c [_ ->]%Hinv. constructor; try done.
    constructor; cbn; unfold words_ok, nbits, BITS_PER_LONG, is_word; cbn; try lia.
    repeat constructor; unfold is_word; lia.
  - intros i j c d [-> _]%Hinv [-> _]%Hinv. done.
  - intros h i ->%list_elem_of_singleton ->%list_elem_of_singleton. by eexists.
  - intros i [c [-> _]%Hinv]. exists (Head 0 [0]). by split; apply list_elem_of_singleton.
  - intros i c [_ ->]%Hinv _. by eexists.
  - intros i [= <-]. by eexists.
Qed.

(** ** Theorems *)

(** C2: [km_page_alloc] returns and keeps the allocator well-formed.  A
    result that is not 0 is a page that was not handed out; it is now, and no
    other page changes.  The result 0 changes no page; either every cluster
    owned by the owner of the current one is out of pages, or the CPU has no
    cluster and gets none, and only then preemption stays disabled. *)
Theorem km_page_alloc_correct fuel st :
  pa_wf st ->
  exists page st', km_page_alloc fuel st = Ret (page, st') /\ pa_wf st' /\
    ((exists ram, preempt st' = preempt st /\ page_result st page st' ram /\
        forall i, mm_current_cluster st = Some i -> i = ram) \/
     (page = 0 /\ mm_current_cluster st = None /\ st' = set_preempt st (preempt st + 1))).
Proof. apply page_alloc_cases. Qed.

Lemma km_page_alloc_witness :
  exists page st', km_page_alloc 1 sample_pa = Ret (page, st') /\ pa_wf st' /\
    ((exists ram, preempt st' = 0 /\ page_result sample_pa page st' ram /\
        forall i, Some 0 = Some i -> i = ram) \/
     (page = 0 /\ Some 0 = None /\ st' = set_preempt sample_pa (0 + 1))).
Proof. apply (km_page_alloc_correct 1 sample_pa sample_pa_wf). Defined.

(** [km_page_dealloc] of a page the allocator manages takes back exactly
    that page; releasing a page that is not handed out changes no page and no
    counter. *)
Theorem km_page_dealloc_correct st page :
  pa_wf st -> managed st page ->
  exists st', km_page_dealloc st page = Some st' /\ pa_wf st' /\ same_frame st st' /\
    (forall p, allocated st' p <-> p <> page /\ allocated st p) /\
    (~ allocated st page -> forall i c', word_at (static_clusters st') i = Some c' ->
       exists c, word_at (static_clusters st) i = Some c /\ cfree c' = cfree c).
Proof. apply page_dealloc_cases. Qed.

Lemma km_page_dealloc_witness :
  exists st', km_page_dealloc sample_pa 0x101000 = Some st' /\ pa_wf st' /\ same_frame sample_pa st' /\
    (forall p, allocated st' p <-> p <> 0x101000 /\ allocated sample_pa p) /\
    (~ allocated sample_pa 0x101000 -> forall i c', word_at (static_clusters st') i = Some c' ->
       exists c, word_at (static_clusters sample_pa) i = Some c /\ cfree c' = cfree c).
Proof.
  apply (km_page_dealloc_correct sample_pa 0x101000 sample_pa_wf).
  exists 0, (Cluster 0 256 258 0x101000 (Bitmap [1] 2 1) 0 2 1 2), 0. split_and!; done || (cbn; lia).
Defined.

(** [km_insert_ram] of [n] pages that overlap no cluster, with enough
    static entries, succeeds: the allocator stays well-formed, nothing is
    handed out or taken back, and the new pages it manages are those of the
    region except the first of every 32 MB, which holds the bitmap. *)
Theorem km_insert_ram_correct ram st start n node :
  (forall a, words_ok (ram a) /\ length (ram a) = 1024%nat) ->
  pa_wf st -> start mod 4096 = 0 -> 0 <= start -> 1 <= n -> is_word (start + n * 4096) ->
  is_word (n * 4096 + KM_CLUSTER_SIZE) ->
  Z.of_nat (length (static_clusters st)) + (n + 8191) / 8192 <= KM_MAX_STATIC_RAM_INFO ->
  (find_head (ram_nodes st) node 0 = None -> Z.of_nat (length (ram_nodes st)) < KM_MAX_STATIC_NODE_INFO) ->
  (forall j d, word_at (static_clusters st) j = Some d ->
     end_pfn d < start / 4096 \/ start / 4096 + n - 1 < start_pfn d) ->
  exists st', km_insert_ram ram st start (n * 4096) node = Some (true, st') /\ pa_wf st' /\
    (forall p, allocated st' p <-> allocated st p) /\
    (forall p, managed st' p <-> managed st p \/
       exists k, 0 <= k < n /\ k mod 8192 <> 0 /\ p = start + k * 4096).
Proof.
  intros Hram Hwf Hal Hs Hn Hw Hov Hroom Hnode Hdis. unfold km_insert_ram, PAGE_SIZE.
  change (4096 - 1) with (Z.ones 12). rewrite Z.land_ones by lia. change (2 ^ 12) with 4096.
  rewrite Hal. cbn [Z.eqb negb].
  assert (wrap (wrap (n * 4096 + KM_CLUSTER_SIZE) - 1) / KM_CLUSTER_SIZE = (n + 8191) / 8192) as ->.
  { unfold is_word, KM_CLUSTER_SIZE in *. rewrite (wrap_small (n * 4096 + 32 * 1024 * 1024)) by done.
    rewrite wrap_small by (unfold is_word; lia). zlia. }
  cbv zeta. set (i := Z.to_nat ((n + 8191) / 8192)).
  assert (8192 * (Z.of_nat i - 1) < n <= 8192 * Z.of_nat i) as Hi by (unfold i; rewrite Z2Nat.id by zlia; zlia).
  assert (Z.of_nat i = (n + 8191) / 8192) as Ei by (unfold i; rewrite Z2Nat.id by zlia; done).
  destruct (find_head (ram_nodes st) node 0) as [hd|] eqn:Eh.
  { destruct (find_head_at _ _ _ Eh) as (h & Hh & _). apply (insert_clusters_spec ram Hram i st hd h); try done; lia. }
  unfold alloc_cluster_head. rewrite (proj2 (Z.leb_gt KM_MAX_STATIC_NODE_INFO _)) by (by apply Hnode).
  set (st1 := set_nodes st (ram_nodes st ++ [Head node []])).
  assert (pa_wf st1) as Hwf1.
  { destruct Hwf as [H1 H2 H3 H4 H5 H6]. constructor; cbn; try done.
    - intros h j [Hh| ->%list_elem_of_singleton]%elem_of_app Hj; [by apply (H3 h)|].
      by apply not_elem_of_nil in Hj.
    - intros j (h & Hh & Hj)%H4. exists h. split; [apply elem_of_app; by left|done].
    - intros j c Hc Hf. rewrite word_at_app. case_if; [done|]. by apply (H5 j). }
  apply (insert_clusters_spec ram Hram i st1 _ (Head node [])); try done; [|cbn; lia].
  cbn. by rewrite word_at_app, Z.eqb_refl.
Qed.

Lemma km_insert_ram_witness :
  exists st', km_insert_ram (fun _ => replicate 1024 0) km_cluster_init 0x100000 (3 * 4096) 0 = Some (true, st') /\
    pa_wf st' /\ (forall p, allocated st' p <-> allocated km_cluster_init p) /\
    (forall p, managed st' p <-> managed km_cluster_init p \/
       exists k, 0 <= k < 3 /\ k mod 8192 <> 0 /\ p = 0x100000 + k * 4096).
Proof.
  apply (km_insert_ram_correct (fun _ => replicate 1024 0) km_cluster_init 0x100000 3 0).
  - intros _. split; [|apply length_replicate]. apply Forall_replicate. split; lia.
  - apply init_wf.
  - reflexivity.
  - lia.
  - lia.
  - vm_compute. split; congruence.
  - vm_compute. split; congruence.
  - vm_compute. congruence.
  - done.
  - intros j d Hd. unfold word_at in Hd. cbn in Hd. by destruct (0 <=? j).
Defined.
