(* ===== verification/Stock.v ===== *)
(** * Creations that need no new memory

    The pools of [libs/common/object] hand out a block of their buffers while
    there is one.  [ObjectStock] extends the interface [ObjectPool] by pools
    that have enough free blocks, in which a creation succeeds; operations that
    create several objects (an executable with its segments, a process with
    its first thread) are verified for such pools. *)

From stdpp Require Import gmap strings.
From S2P Require Import Prelude Bits Bitmap BlkBuf Object KoSection.
Import BkbOps ObjectOps.

(** ** What the interface adds

    [pool_stock n e m]: the pool has memory for the next [n] objects, which
    then succeed; other operations do not change that. *)

Class ObjectStock (M E : Type) `{ObjectPool M E} := {
  pool_stock : nat -> E -> M -> Prop;
  pool_stock_le : forall n k e m, (n <= k)%nat -> pool_stock k e m -> pool_stock n e m;
  pool_stock_ready : forall n e m, pool_stock (S n) e m -> pool_ready e m;
  pool_stock_create : forall n e m p m', pool_stock (S n) e m -> pool_create e m = Ret (p, m') -> p <> 0 /\ pool_stock n e m';
  pool_stock_inc : forall n e m p m', pool_stock n e m -> pool_inc m p = Some m' -> pool_stock n e m'
}.

(** The address of a block of some buffer. *)
Definition is_block (ns : Z) (h : instances) (q : Z) : Prop :=
  exists a i id, h !! a = Some i /\ 0 <= id < node_count i /\ q = area ns a i + id * ns.

Lemma is_block_shape ns h h' q : (forall a, shape h' a = shape h a) -> is_block ns h q -> is_block ns h' q.
Proof.
  intros Hs (a & i & id & Ha & Hid & ->). specialize (Hs a). unfold shape in Hs. rewrite Ha in Hs. cbn in Hs.
  destruct (h' !! a) as [i'|] eqn:E; [|done]. injection Hs as _ _ Hc. exists a, i', id. unfold area. rewrite Hc. done.
Qed.

(** There are [n] blocks that are not in use. *)
Definition free_in (n : nat) (bkb : cl_bkb) (h : instances) : Prop :=
  exists fs, NoDup fs /\ length fs = n /\ forall q, q ∈ fs -> is_block (node_size bkb) h q /\ ~ live (node_size bkb) h q.
Definition free_blocks (n : nat) (m : cl_object_type) : Prop := free_in n (obj_allocator m) (obj_insts m).
Definition free_names (n : nat) (m : cl_object_type) : Prop := free_in n (name_allocator m) (name_insts m).

Lemma free_in_le n k bkb h : (n <= k)%nat -> free_in k bkb h -> free_in n bkb h.
Proof.
  intros Hle (fs & Hnd & Hl & Hfs). exists (take n fs). split_and!.
  - eapply sublist_NoDup; [done|apply sublist_take].
  - rewrite length_take. lia.
  - intros q Hq%(subseteq_take n). by apply Hfs.
Qed.

Lemma filter_length_ne (fs : list Z) r n : NoDup fs -> length fs = S n -> (n <= length (filter (fun q => q <> r) fs))%nat.
Proof.
  intros Hnd Hl. destruct (decide (r ∈ fs)) as [Hin|Hin]; [|rewrite filter_absent by done; lia].
  apply list_elem_of_split in Hin as (a & b & ->). rewrite filter_app, filter_cons_False by (by intros H).
  apply NoDup_app in Hnd as (_ & Ha & Hb). apply NoDup_cons in Hb as [Hb _].
  rewrite !filter_absent; [rewrite length_app in *; cbn in Hl; lia|done|]. intros Hr. apply (Ha r Hr). apply list_elem_of_here.
Qed.

(** An allocation takes one of them. *)
Lemma alloc_free fuel bkb h l n :
  bkb_wf bkb h l -> (length l < fuel)%nat -> free_in (S n) bkb h ->
  exists r h', cl_bkb_alloc fuel bkb h = Ret (r, h') /\ bkb_wf bkb h' l /\ 0 < r /\ ~ live (node_size bkb) h r /\
    (forall p, live (node_size bkb) h' p <-> p = r \/ live (node_size bkb) h p) /\ free_in n bkb h'.
Proof.
  intros Hwf Hf (fs & Hnd & Hl & Hfs).
  destruct (bkb_alloc_spec fuel bkb h l Hwf Hf) as (r & h' & -> & Hwf' & Hsh & Hr). exists r, h'. do 2 (split; [done|]).
  destruct Hr as [(-> & _ & Hfull)|(Hr & Hno & Hlive & _)].
  { destruct fs as [|q fs]; [done|]. destruct (Hfs q) as [(a & i & id & Ha & Hid & ->) Hnl]; [apply list_elem_of_here|]. exfalso. apply Hnl.
    exists a, i, id. do 2 (split; [done|]). split; [|done]. specialize (Hfull a i id Ha Hid). unfold ubit in Hfull. by rewrite Ha in Hfull. }
  split; [apply (live_pos (node_size bkb) h'); [by apply (bkb_ns _ _ _ Hwf')|by apply (bkb_store _ _ _ Hwf')|apply Hlive; by left]|].
  do 2 (split; [done|]). exists (take n (filter (fun q => q <> r) fs)). split_and!.
  - eapply sublist_NoDup; [|apply sublist_take]. by apply NoDup_filter.
  - rewrite length_take. pose proof (filter_length_ne fs r n Hnd Hl). lia.
  - intros q Hq%(subseteq_take n). apply list_elem_of_filter in Hq as [Hqr Hq]. destruct (Hfs q Hq) as [Hb Hnl]. split; [by eapply is_block_shape|].
    rewrite Hlive. intros [?|?]; done.
Qed.

Lemma object_create_free fuel mem m l nl space n :
  type_wf m l nl -> (length l < fuel)%nat -> free_blocks (S n) m ->
  exists p m', cl_object_create fuel mem m space (Some (fun _ => true)) = Ret (p, m') /\ p <> 0 /\ objects m !! TO_CL_OBJECT p = None /\
    type_wf m' l nl /\ free_blocks n m' /\ objects m' = <[TO_CL_OBJECT p := Obj 0 0]> (objects m) /\
    name_allocator m' = name_allocator m /\ name_insts m' = name_insts m.
Proof.
  intros Hwf Hf Hfs. pose proof Hwf as [Ho Hs Hn Hsl Hlv Hli Hnd' Hnm Hinj]. unfold cl_object_create, alloc_extending.
  destruct (alloc_free fuel (obj_allocator m) (obj_insts m) l n Ho Hf Hfs) as (r & h & -> & Hwf' & Hr & Hno & Hlive & Hfb). cbn [mbind run_bind].
  rewrite (proj2 (Z.eqb_neq r 0)) by lia. cbn [negb mbind run_bind]. rewrite (proj2 (Z.eqb_neq r 0)) by lia.
  cbn [Object.size obj_allocator obj_insts name_allocator name_insts unname_objects objects names closed].
  exists (TO_USER_OBJECT r). eexists. split; [done|]. assert (TO_CL_OBJECT (TO_USER_OBJECT r) = r) as -> by (unfold TO_CL_OBJECT, TO_USER_OBJECT; lia).
  rewrite Hs in Hno, Hlive. split; [unfold TO_USER_OBJECT, SIZEOF_OBJECT; lia|]. split.
  { destruct (objects m !! r) eqn:E; [|done]. destruct Hno. apply Hlv. by rewrite E. }
  split; [by apply (type_wf_add m l nl)|]. done.
Qed.

Lemma set_name_free fuel mem m l nl who what space o n :
  type_wf m l nl -> (length nl < fuel)%nat -> free_names (S n) m -> objects m !! TO_CL_OBJECT who = Some o ->
  Z.of_nat (String.length what) + 1 < CL_OBJECT_NAME_SLOTE_LENGTH ->
  exists slot m', cl_object_set_name fuel mem m who what space = Ret (slot, m') /\ slot <> 0 /\ type_wf m' l nl /\ free_names n m' /\
    objects m' = <[TO_CL_OBJECT who := Obj slot (ref o)]> (objects m) /\ obj_allocator m' = obj_allocator m /\ obj_insts m' = obj_insts m.
Proof.
  intros Hwf Hf Hfs Hp Hlen. pose proof Hwf as [Ho Hs Hn Hsl Hlv Hli Hnd' Hnm Hinj]. unfold cl_object_set_name.
  rewrite (proj2 (Z.leb_gt _ _) Hlen), Hp. cbn [lift mbind run_bind]. unfold alloc_extending.
  destruct (alloc_free fuel (name_allocator m) (name_insts m) nl n Hn Hf Hfs) as (r & h & -> & Hwf' & Hr & Hno & Hlive & Hfb). cbn [mbind run_bind].
  rewrite (proj2 (Z.eqb_neq r 0)) by lia. cbn [negb mbind run_bind]. rewrite (proj2 (Z.eqb_neq r 0)) by lia.
  cbn [Object.size obj_allocator obj_insts name_allocator name_insts unname_objects objects names closed].
  exists r. eexists. split; [done|]. rewrite Hsl in Hno, Hlive. split; [lia|].
  split; [apply (type_wf_rename m l nl (TO_CL_OBJECT who) o r); try done; lia|]. done.
Qed.

(** In a single buffer, the blocks of clear bits. *)
Lemma free_in_single bkb h a i ids :
  h = {[ a := i ]} -> 0 < node_size bkb -> NoDup ids ->
  (forall id, id ∈ ids -> 0 <= id < node_count i /\ used (inst_bitmap i) id = false) -> free_in (length ids) bkb h.
Proof.
  intros Hm Hn Hnd Hids. set (ns := node_size bkb) in *. exists (map (fun id => area ns a i + id * ns) ids). split_and!.
  - apply NoDup_fmap_2_strong; [|done]. intros x y _ _ E. nia.
  - by rewrite length_map.
  - intros q (id & -> & Hid)%list_elem_of_fmap. destruct (Hids id Hid) as [Hb Hu]. fold ns. rewrite Hm. split.
    + exists a, i, id. by rewrite lookup_singleton_eq.
    + intros (b & j & id' & [<- <-]%lookup_singleton_Some & _ & Hu' & E). assert (id = id') as -> by nia. congruence.
Qed.

#[export] Instance object_stock : ObjectStock cl_object_type obj_env.
Proof.
  refine {| pool_stock := fun n e m => free_blocks n m /\ exists l nl, type_wf m l nl /\ (forall x, is_word (env_mem e x)) /\
              env_space e = None /\ (S (length l) < env_fuel e)%nat |}.
  - intros n k e m Hle [Hfb Hrest]. split; [by eapply free_in_le|done].
  - intros n e m (_ & l & nl & Hwf & Hm & Hs & Hf). exists l, nl. rewrite Hs. done.
  - intros n e m p m' (Hfb & l & nl & Hwf & Hm & Hs & Hf) E.
    destruct (object_create_free (env_fuel e) (env_mem e) m l nl (env_space e) n) as (r & m1 & E' & Hr & _ & Hwf' & Hfb' & _); try done; [lia|].
    cbn in E. rewrite E' in E. injection E as <- <-. split; [done|]. split; [done|]. by exists l, nl.
  - intros n e m p m' (Hfb & l & nl & Hwf & Hm & Hs & Hf) E. cbn in E. unfold cl_object_inc_ref in E.
    pose proof E as E0. unfold add_ref in E0. destruct (objects m !! TO_CL_OBJECT p) as [o|] eqn:Ho; [|done]. cbn in E0.
    split; [injection E0 as <-; done|].
    destruct (add_ref_spec m l nl p 1 o Hwf Ho) as (m1 & E' & Hwf' & _). rewrite E' in E. injection E as <-. by exists l, nl.
Defined.
