(* ===== verification/Fault.v ===== *)
(** * Page faults

    [source/kernel/memory/exp.c], with [kp_exe_share] of
    [source/kernel/process/exe.c] and [do_page_fault] of
    [source/kernel/arch/x86/page.c]: a fault is dispatched on the type of the
    section that contains the address.  What the handlers do to page tables is
    behind the class [PageOps], the interface of [page.h] and of the file
    system's cache; a process is a number, 0 is the system process.  The
    memory keys ([kp_get_mem], [kp_put_mem]) are taken and given back around
    each page operation and are left out. *)

From stdpp Require Import gmap.
From S2P Require Import Prelude Vm.
Import VmOps.
Local Open Scope c_scope.

(** ** The page operations

    [P] is the state of the page tables and of the physical memory. *)

Class PageOps (P : Type) := {
  km_page_create : P -> Z -> Z -> Z -> bool * P;              (* process, address, prot *)
  km_page_create_cow : P -> Z -> Z -> bool * P;               (* process, address *)
  km_page_share : P -> Z -> Z -> Z -> Z -> Z -> Z * P;        (* dst, to, src, from, prot *)
  km_page_share_kernel : P -> Z -> Z -> P;                    (* process, address *)
  page_clear : P -> Z -> Z -> P;                              (* memset of the page *)
  fss_map_prepare_dbd : P -> Z -> Z -> Z -> Z * P             (* file, process, position *)
}.

Definition KM_PAGE_SHARE_RESULT_OK : Z := 0.
Definition KM_PAGE_SHARE_RESULT_ERR : Z := 1.
Definition KM_PAGE_SHARE_RESULT_SRC_INVALID : Z := -2.
Definition PAGE_FAULT_P : Z := 1.
Definition PAGE_FAULT_W : Z := 2.
Definition PAGE_FAULT_U : Z := 4.
Definition PROT_READ : Z := 1.
Definition PROT_WRITE : Z := 2.
Definition kp_get_system : Z := 0.
Definition KM_PAGE_ROUND_ALIGN (a : Z) : Z := Z.land a (w_not (PAGE_SIZE - 1)).

(** ** The handler table *)

Inductive refill_handler :=
  | refill_null_h | refill_share_h | refill_exe_h | refill_private_h | refill_file_h | refill_kernel_h.

Definition ks_exception_init : list refill_handler :=
  let t := replicate (Z.to_nat KS_TYPE_MAX) refill_null_h in
  let t := <[Z.to_nat KS_TYPE_EXE := refill_exe_h]> t in
  let t := <[Z.to_nat KS_TYPE_PRIVATE := refill_private_h]> t in
  let t := <[Z.to_nat KS_TYPE_STACK := refill_private_h]> t in
  let t := <[Z.to_nat KS_TYPE_FILE := refill_file_h]> t in
  let t := <[Z.to_nat KS_TYPE_SHARE := refill_share_h]> t in
  <[Z.to_nat KS_TYPE_KERNEL := refill_kernel_h]> t.

Section Faults.
Context {P : Type} `{PageOps P}.

(** Sections, processes, the objects [struct ko_exe] (their [backend]) and the
    process that holds the files; they do not change during a fault. *)
Variable mem : sections.
Variable procs : Z -> ko_process.
Variable exe_backend : Z -> option Z.
Variable kp_get_file_process : Z.

Definition restore_file (p : P) (who where_ address : Z) : run (bool * P) :=
  s ← lift (mem !! where_);
  let pos := address -w start (node s) in
  let '(db_addr, p) := fss_map_prepare_dbd p (priv0 s) who pos in
  if db_addr =? 0 then Ret (false, p) else
  let '(r, p) := km_page_share p who address kp_get_system db_addr (prot s) in
  Ret (r =? KM_PAGE_SHARE_RESULT_OK, p).

Definition ks_restore (p : P) (who where_ address : Z) : run (bool * P) :=
  s ← lift (mem !! where_);
  if Z.land (type s) KS_TYPE_MASK =? KS_TYPE_FILE then restore_file p who where_ address
  else Ret (false, p).

(** [share_again]: the source page is restored while it is invalid. *)
Fixpoint share_again (fuel : nat) (p : P) (dst src_process src_section to src prot : Z) : run (bool * P) :=
  match fuel with
  | O => NoFuel
  | S fuel =>
    let '(ret, p) := km_page_share p dst to src_process src prot in
    if ret =? KM_PAGE_SHARE_RESULT_OK then Ret (true, p)
    else if ret =? KM_PAGE_SHARE_RESULT_ERR then Ret (false, p)
    else if ret =? KM_PAGE_SHARE_RESULT_SRC_INVALID then
      '(ok, p) ← ks_restore p src_process src_section src;
      if (ok : bool) then share_again fuel p dst src_process src_section to src prot else Ret (false, p)
    else Ret (true, p)
  end.

Definition ks_restore_share (fuel : nat) (p : P) (dst_process dst_section src_process src_section to src
    prot_overwrite : Z) : run (bool * P) :=
  prot ← (if prot_overwrite =? 0 then s ← lift (mem !! dst_section); Ret (prot s) else Ret prot_overwrite);
  share_again fuel p dst_process src_process src_section to src prot.

Definition kp_exe_share (fuel : nat) (p : P) (where_ ks_dst to ke_src : Z) : run (bool * P) :=
  d ← lift (mem !! ks_dst);
  backend ← lift (exe_backend ke_src);
  b ← lift (mem !! backend);
  let source := start (node b) +w priv1 d in
  let source := source +w (to -w start (node d)) in
  ks_restore_share fuel p where_ ks_dst kp_get_file_process backend to source PROT_READ.

Definition refill_share (fuel : nat) (p : P) (current where_ address : Z) : run (bool * P) :=
  s ← lift (mem !! where_);
  src ← lift (mem !! priv2 s);
  let source_address := priv1 s +w start (node src) in
  let source_address := source_address +w (address -w start (node s)) in
  ks_restore_share fuel p current where_ (priv3 s) (priv2 s) address source_address 0.

Definition refill_exe (fuel : nat) (p : P) (current where_ address code : Z) : run (bool * P) :=
  detailed ← lift (ks_sub_locate mem where_ address);
  if detailed =? 0 then Ret (false, p) else
  d ← lift (mem !! detailed);
  s ← lift (mem !! where_);
  if start (node d) +w priv0 d <=? address then
    let '(r, p) := km_page_create p current address (Z.lor PROT_READ PROT_WRITE) in
    Ret (r, if r then page_clear p current (KM_PAGE_ROUND_ALIGN address) else p)
  else
    let cow := negb (Z.land code PAGE_FAULT_W =? 0) && negb (Z.land code PAGE_FAULT_P =? 0) in
    if cow then Ret (km_page_create_cow p current address)
    else kp_exe_share fuel p current detailed address (priv0 s).

Definition refill_private (p : P) (current where_ address code : Z) : run (bool * P) :=
  if negb (Z.land code PAGE_FAULT_P =? 0) then Ret (false, p) else
  s ← lift (mem !! where_);
  Ret (km_page_create p current address (prot s)).

Definition refill_file (p : P) (current where_ address code : Z) : run (bool * P) :=
  s ← lift (mem !! where_);
  if negb (Z.land code PAGE_FAULT_W =? 0) && (Z.land (prot s) PROT_WRITE =? 0) then Ret (false, p)
  else restore_file p current where_ address.

(** The call through [exception_handler[]]: [refill_kernel] makes another one
    for the section of the system process, with code 0. *)
Fixpoint dispatch (fuel : nat) (table : list refill_handler) (p : P) (current ks address code : Z)
  : run (bool * P) :=
  match fuel with
  | O => NoFuel
  | S fuel' =>
    s ← lift (mem !! ks);
    h ← lift (word_at table (Z.land (type s) KS_TYPE_MASK));
    match h with
    | refill_null_h => Ret (false, p)
    | refill_share_h => refill_share fuel p current ks address
    | refill_exe_h => refill_exe fuel p current ks address code
    | refill_private_h => refill_private p current ks address code
    | refill_file_h => refill_file p current ks address code
    | refill_kernel_h =>
      sys ← lift (ks_get_by_vaddress mem (procs kp_get_system) address);
      if sys =? 0 then Ret (false, p) else
      '(ok, p) ← dispatch fuel' table p current sys address 0;
      if (ok : bool) then Ret (true, km_page_share_kernel p current address) else Ret (false, p)
    end
  end.

Definition ks_exception (fuel : nat) (table : list refill_handler) (p : P) (thread error_address code : Z)
  : run (bool * P) :=
  ks ← lift (ks_get_by_vaddress mem (procs thread) error_address);
  if ks =? 0 then Ret (false, p) else dispatch fuel table p thread ks error_address code.

(** [false]: the thread is deleted ([die_cur]); [true]: it goes on. *)
Definition address_in_user (address : Z) : bool := address <? HAL_GET_BASIC_KADDRESS PHYS_OFFSET.

Definition do_page_fault (fuel : nat) (table : list refill_handler) (p : P) (current error_address error_code : Z)
  : run (bool * P) :=
  let in_user := address_in_user error_address in
  if negb (Z.land error_code PAGE_FAULT_U =? 0) && negb in_user then Ret (false, p)
  else ks_exception fuel table p current error_address error_code.

(** ** Facts *)

(** A process whose address space is well-formed and whose sections have
    types the table knows. *)
Definition faultable (w : ko_process) : Prop :=
  spaces (rd_node mem) 0 (vm_list w) /\
  forall ks s, ks ∈ vm_list w -> mem !! ks = Some s -> 0 <= Z.land (type s) KS_TYPE_MASK < KS_TYPE_MAX.

Lemma table_lookup t : 0 <= t < KS_TYPE_MAX -> is_Some (word_at ks_exception_init t).
Proof. intros Ht. destruct (word_at_Some ks_exception_init t) as [h ->]; [exact Ht|by eexists]. Qed.

Lemma covering_section w address ks :
  faultable w -> ks_get_by_vaddress mem w address = Some ks -> ks <> 0 ->
  ks ∈ vm_list w /\ covers (rd_node mem) ks address /\ is_Some (mem !! ks).
Proof.
  intros [Hs _] E Hne. destruct (get_by_vaddress_spec (rd_node mem) 0 (vm_list w) address Hs)
    as (r & E' & Hr). unfold ks_get_by_vaddress in E. rewrite E in E'. injection E' as <-.
  destruct Hr as [[? _]|(_ & Hin & Hc)]; [done|]. split_and!; try done.
  destruct Hc as (s & z & Hrd & _). unfold rd_node in Hrd. destruct (mem !! ks); [by eexists|done].
Qed.

(** A fault outside every section is refused and touches no page. *)
Theorem ks_exception_unmapped fuel p thread address code :
  faultable (procs thread) ->
  (forall q, q ∈ vm_list (procs thread) -> ~ covers (rd_node mem) q address) ->
  ks_exception fuel ks_exception_init p thread address code = Ret (false, p).
Proof.
  intros [Hs _] Hno. unfold ks_exception.
  destruct (get_by_vaddress_spec (rd_node mem) 0 (vm_list (procs thread)) address Hs)
    as (r & E & [[-> _]|(_ & Hin & Hc)]); [|by destruct (Hno r Hin)].
  unfold ks_get_by_vaddress. by rewrite E.
Qed.

(** A thread in user mode that touches the kernel half is deleted, whatever
    its sections are, and no page changes; the same holds for an address
    outside every section. *)
Theorem do_page_fault_protects fuel p thread address code :
  (Z.land code PAGE_FAULT_U <> 0 /\ 0x80000000 <= address) \/
  (faultable (procs thread) /\ forall q, q ∈ vm_list (procs thread) -> ~ covers (rd_node mem) q address) ->
  do_page_fault fuel ks_exception_init p thread address code = Ret (false, p).
Proof.
  intros Hc. unfold do_page_fault.
  destruct (negb (Z.land code PAGE_FAULT_U =? 0) && negb (address_in_user address)) eqn:E; [done|].
  destruct Hc as [[Hu Ha]|[Hf Hno]]; [|by apply ks_exception_unmapped]. exfalso.
  rewrite (proj2 (Z.eqb_neq _ 0) Hu) in E. cbn [negb andb] in E. apply negb_false_iff in E.
  unfold address_in_user in E. change (HAL_GET_BASIC_KADDRESS PHYS_OFFSET) with 0x80000000 in E. zbool. lia.
Qed.

(** The section of the process that covers the address. *)
Lemma exception_section fuel p thread address code ks s :
  faultable (procs thread) -> ks ∈ vm_list (procs thread) -> mem !! ks = Some s ->
  covers (rd_node mem) ks address ->
  ks_exception fuel ks_exception_init p thread address code =
    dispatch fuel ks_exception_init p thread ks address code.
Proof.
  intros Hf Hin Hs Hc. pose proof Hf as [Hsp _]. unfold ks_exception, ks_get_by_vaddress.
  destruct (get_by_vaddress_spec (rd_node mem) 0 (vm_list (procs thread)) address Hsp)
    as (r & E & [[_ Hno]|(Hr & Hin' & Hc')]); [by destruct (Hno ks Hin)|].
  rewrite E. cbn [lift mbind run_bind]. rewrite (proj2 (Z.eqb_neq r 0) Hr).
  enough (r = ks) as -> by done. clear E. destruct Hc as (s1 & z1 & R1 & B1), Hc' as (s2 & z2 & R2 & B2).
  destruct (Z.eq_dec r ks) as [|Hne]; [done|exfalso].
  revert Hsp Hin Hin'. generalize 0. induction (vm_list (procs thread)) as [|q l IH]; intros lo Hsp Hin Hin';
    [by apply not_elem_of_nil in Hin|].
  destruct Hsp as (s0 & z0 & _ & R0 & _ & _ & _ & Hl).
  apply elem_of_cons in Hin as [->|Hin], Hin' as [->|Hin']; [done| | |by apply (IH (s0 + z0))].
  - destruct (spaces_elem _ _ _ _ Hl Hin') as (s' & z' & _ & R' & ? & _). simplify_eq. lia.
  - destruct (spaces_elem _ _ _ _ Hl Hin) as (s' & z' & _ & R' & ? & _). simplify_eq. lia.
Qed.

(** Private memory and stacks: a missing page is created with the protection
    of the section, a violation on a present page is refused. *)
Theorem ks_exception_private fuel p thread address code ks s :
  faultable (procs thread) -> ks ∈ vm_list (procs thread) -> mem !! ks = Some s ->
  covers (rd_node mem) ks address ->
  Z.land (type s) KS_TYPE_MASK = KS_TYPE_PRIVATE \/ Z.land (type s) KS_TYPE_MASK = KS_TYPE_STACK ->
  ks_exception (S fuel) ks_exception_init p thread address code =
    if Z.land code PAGE_FAULT_P =? 0 then Ret (km_page_create p thread address (prot s)) else Ret (false, p).
Proof.
  intros Hf Hin Hs Hc Ht. rewrite (exception_section _ _ _ _ _ ks s) by done.
  cbn [dispatch]. rewrite Hs. cbn [lift mbind run_bind].
  assert (word_at ks_exception_init (Z.land (type s) KS_TYPE_MASK) = Some refill_private_h) as ->
    by (by destruct Ht as [-> | ->]).
  cbn [lift mbind run_bind]. unfold refill_private. rewrite Hs. cbn [lift mbind run_bind].
  by destruct (Z.land code PAGE_FAULT_P =? 0).
Qed.

(** The kernel range of a process: the page of the system process is created
    first and then shared into the process, or nothing is shared. *)
Theorem ks_exception_kernel fuel p thread address code ks s sys t :
  faultable (procs thread) -> ks ∈ vm_list (procs thread) -> mem !! ks = Some s ->
  covers (rd_node mem) ks address -> Z.land (type s) KS_TYPE_MASK = KS_TYPE_KERNEL ->
  ks_get_by_vaddress mem (procs kp_get_system) address = Some sys -> sys <> 0 -> mem !! sys = Some t ->
  Z.land (type t) KS_TYPE_MASK = KS_TYPE_PRIVATE ->
  ks_exception (S (S fuel)) ks_exception_init p thread address code =
    let '(ok, p) := km_page_create p thread address (prot t) in
    Ret (ok, if ok then km_page_share_kernel p thread address else p).
Proof.
  intros Hf Hin Hs Hc Ht Hsys H0 Hm Htt. rewrite (exception_section _ _ _ _ _ ks s) by done.
  cbn [dispatch]. rewrite Hs. cbn [lift mbind run_bind]. rewrite Ht.
  assert (word_at ks_exception_init KS_TYPE_KERNEL = Some refill_kernel_h) as -> by done.
  assert (word_at ks_exception_init KS_TYPE_PRIVATE = Some refill_private_h) as Hp by done.
  cbn [lift mbind run_bind]. rewrite Hsys. cbn [lift mbind run_bind]. rewrite (proj2 (Z.eqb_neq sys 0) H0), Hm.
  cbn [lift mbind run_bind]. rewrite Htt, Hp. cbn [lift mbind run_bind].
  unfold refill_private. change (Z.land 0 PAGE_FAULT_P) with 0. rewrite Hm. cbn [Z.eqb negb lift mbind run_bind].
  by destruct (km_page_create p thread address (prot t)) as [[|] p'].
Qed.

End Faults.
