(* ===== verification/MemAlloc.v ===== *)
(** * The variable-size allocator

    [source/libs/common/malloc.c], the kernel's heap ([valloc.c] keeps one
    block of 13 MB): the block starts with a [struct linear_memory_block],
    followed by nodes that tile the rest of it.  A node is a header of 32
    bytes and [size] bytes for the user.  The adjacency list ([pre], [next])
    is the list [nodes] in its order; the chain of free nodes behind
    [free_table[k]] ([hash_next], [hash_pre]) is the [k]-th list of
    [free_table].  [raw a] is what memory holds at a header that is about to
    be written.  [None] is an access to something that is not a node, or a
    removal from a chain the node is not in. *)

From Stdlib Require Import Zbitwise.
From S2P Require Import Prelude.
Local Open Scope c_scope.

Definition FREE_NODE : Z := 1.
Definition P_MAGIC : Z := 0x12332101.
Definition N_MAGIC : Z := 0x12332102.
Definition MAX_HASH_ENTRY : Z := 10.
Definition SIZEOF_NODE : Z := 32.
Definition SIZEOF_BLOCK : Z := 64.

Record node_t := Nod {
  addr : Z;             (* where the header is *)
  p_magic : Z;
  attribute : Z;
  nsize : Z;            (* size, without the header *)
  n_magic : Z
}.

Record linear_memory_block := Block {
  base : Z;                      (* the address of the block *)
  bused : Z;                     (* used *)
  bsize : Z;                     (* size *)
  nodes : list node_t;
  free_table : list (list Z)
}.

Module HeapOps.

Definition IS_FREE_NODE (n : node_t) : bool := negb (Z.land (attribute n) FREE_NODE =? 0).
Definition MAKE_FREE (n : node_t) : node_t :=
  Nod (addr n) (p_magic n) (Z.lor (attribute n) FREE_NODE) (nsize n) (n_magic n).
Definition MAKE_OCCUPIED (n : node_t) : node_t :=
  Nod (addr n) P_MAGIC (Z.land (attribute n) (w_not FREE_NODE)) (nsize n) N_MAGIC.
Definition set_size (n : node_t) (z : Z) : node_t :=
  Nod (addr n) (p_magic n) (attribute n) z (n_magic n).

(** [HASH_APPEND] puts the node first. *)
Definition HASH_APPEND (tbl : list (list Z)) (k i : Z) : option (list (list Z)) :=
  l ← word_at tbl k; word_set tbl k (i :: l).

Definition HASH_DELETE (tbl : list (list Z)) (k i : Z) : option (list (list Z)) :=
  l ← word_at tbl k;
  if bool_decide (i ∈ l) then word_set tbl k (filter (fun q => q <> i) l) else None.

(** The [while] loop halves [k]; 32 rounds are enough for a word. *)
Fixpoint hash_loop (fuel : nat) (k i : Z) : Z :=
  match fuel with
  | O => i
  | S fuel => if 1 <? k then hash_loop fuel (Z.shiftr k 1) (i + 1) else i
  end.

Definition calc_hash_index (k : Z) : Z :=
  let i := hash_loop 32 (Z.shiftr k 5) 0 in
  if MAX_HASH_ENTRY <=? i then MAX_HASH_ENTRY - 1 else i.

(** The node at an address, with the nodes before and after it. *)
Fixpoint split_at (l : list node_t) (a : Z) : option (list node_t * node_t * list node_t) :=
  match l with
  | [] => None
  | n :: l =>
    if addr n =? a then Some ([], n, l)
    else '(l1, x, l2) ← split_at l a; Some (n :: l1, x, l2)
  end.

(** The first node of a chain with at least [m] bytes. *)
Fixpoint find_fit (ns : list node_t) (chain : list Z) (m : Z) : option (option Z) :=
  match chain with
  | [] => Some None
  | a :: chain =>
    '(_, n, _) ← split_at ns a;
    if nsize n <? m then find_fit ns chain m else Some (Some a)
  end.

(** The [for] loop over the chains from [j] on: the chain and the node. *)
Fixpoint find_chain (ns : list node_t) (tbl : list (list Z)) (n : nat) (j m : Z) : option (option (Z * Z)) :=
  match n with
  | O => Some None
  | S n =>
    if j <? MAX_HASH_ENTRY then
      chain ← word_at tbl j;
      r ← find_fit ns chain m;
      match r with Some a => Some (Some (j, a)) | None => find_chain ns tbl n (j + 1) m end
    else Some None
  end.

Definition alloc (raw : Z -> node_t) (b : linear_memory_block) (siz : Z) : option (Z * linear_memory_block) :=
  let m := siz +w SIZEOF_NODE in
  let i := calc_hash_index m in
  f ← find_chain (nodes b) (free_table b) 10 i m;
  match f with
  | None => Some (0, b)
  | Some (j, a) =>
    '(l1, nod, l2) ← split_at (nodes b) a;
    let rest := nsize nod +w SIZEOF_NODE -w m in
    tbl ← HASH_DELETE (free_table b) j a;
    let nod := MAKE_OCCUPIED nod in
    if SIZEOF_NODE <=? rest then
      let a2 := addr nod +w m in
      let r := raw a2 in
      let nod2 := Nod a2 (p_magic r) (attribute r) (rest -w SIZEOF_NODE) (n_magic r) in
      tbl ← HASH_APPEND tbl (calc_hash_index rest) a2;
      Some (addr nod +w SIZEOF_NODE,
            Block (base b) (bused b) (bsize b) (l1 ++ set_size nod siz :: MAKE_FREE nod2 :: l2) tbl)
    else Some (addr nod +w SIZEOF_NODE, Block (base b) (bused b) (bsize b) (l1 ++ nod :: l2) tbl)
  end.

(** [merge] of the neighbours [a] and [b], [c] the one that is in a chain. *)
Definition merge (tbl : list (list Z)) (a b c : node_t) : option (node_t * list (list Z)) :=
  tbl ← HASH_DELETE tbl (calc_hash_index (nsize c +w SIZEOF_NODE)) (addr c);
  Some (set_size a (nsize a +w (nsize b +w SIZEOF_NODE)), tbl).

(** The free neighbour before the node is merged with it. *)
Definition merge_pre (tbl : list (list Z)) (l1 : list node_t) (nod : node_t)
  : option (list node_t * node_t * list (list Z)) :=
  match last l1 with
  | Some p =>
    if IS_FREE_NODE p then
      '(n, tbl) ← merge tbl p nod p; Some (removelast l1, n, tbl)
    else Some (l1, nod, tbl)
  | None => Some (l1, nod, tbl)
  end.

Definition merge_next (tbl : list (list Z)) (nod : node_t) (l2 : list node_t)
  : option (node_t * list node_t * list (list Z)) :=
  match l2 with
  | q :: l2' =>
    if IS_FREE_NODE q then
      '(n, tbl) ← merge tbl nod q q; Some (n, l2', tbl)
    else Some (nod, l2, tbl)
  | [] => Some (nod, l2, tbl)
  end.

Definition dealloc (b : linear_memory_block) (p : Z) : option (Z * linear_memory_block) :=
  '(l1, nod, l2) ← split_at (nodes b) (p -w SIZEOF_NODE);
  if IS_FREE_NODE nod || negb (p_magic nod =? P_MAGIC) || negb (n_magic nod =? N_MAGIC)
  then Some (0, b)
  else
    let this_size := nsize nod in
    let nod := MAKE_FREE nod in
    '(l1, nod, tbl) ← merge_pre (free_table b) l1 nod;
    '(nod, l2, tbl) ← merge_next tbl nod l2;
    tbl ← HASH_APPEND tbl (calc_hash_index (nsize nod +w SIZEOF_NODE)) (addr nod);
    Some (this_size, Block (base b) (bused b) (bsize b) (l1 ++ nod :: l2) tbl).

Definition init_block (raw : Z -> node_t) (base_ size_ : Z) (tbl : list (list Z)) : option linear_memory_block :=
  let a := base_ +w SIZEOF_BLOCK in
  let r := raw a in
  tbl ← HASH_APPEND tbl (MAX_HASH_ENTRY - 1) a;
  Some (Block base_ 0 size_ [MAKE_FREE (Nod a (p_magic r) (attribute r) (size_ -w SIZEOF_NODE) (n_magic r))] tbl).

(** [int size]; the test [<= 0] is on an unsigned value. *)
Definition memalloc_init_allocation (raw : Z -> node_t) (big_block size_ : Z)
  : option (bool * option linear_memory_block) :=
  if (size_ -w SIZEOF_BLOCK -w SIZEOF_NODE) <=? 0 then Some (false, None) else
  b ← init_block raw big_block (size_ -w SIZEOF_BLOCK) (replicate 10 []);
  Some (true, Some b).

Definition set_used (b : linear_memory_block) (u : Z) : linear_memory_block :=
  Block (base b) u (bsize b) (nodes b) (free_table b).

(** [size |= 3; size++] when the size is not a multiple of 4. *)
Definition align_size (size_ : Z) : Z :=
  if Z.land size_ 3 =? 0 then size_ else to_int (Z.lor size_ 3 + 1).

Definition _malloc (raw : Z -> node_t) (b : linear_memory_block) (size_ : Z)
  : option (Z * linear_memory_block) :=
  if size_ =? 0 then Some (0, b) else
  let size_ := align_size size_ in
  '(p, b) ← alloc raw b (wrap size_);
  if p =? 0 then Some (0, b) else Some (p, set_used b (bused b +w size_)).

(** There is one block: [p_next] is NULL. *)
Definition _free (b : linear_memory_block) (aptr : Z) : option (Z * linear_memory_block) :=
  if aptr =? 0 then Some (0, b) else
  if (base b <? aptr) && (aptr <? (base b +w SIZEOF_BLOCK) +w bsize b) then
    '(n, b) ← dealloc b aptr;
    Some (aptr, set_used b (bused b -w n))
  else Some (0, b).

Definition memalloc (raw : Z -> node_t) (b : linear_memory_block) (size_ : Z) := _malloc raw b size_.
Definition memfree (b : linear_memory_block) (p : Z) := _free b p.

End HeapOps.
Import HeapOps.

(** ** The hash index *)

Lemma hash_loop_log2 fuel k i : 0 <= k < 2 ^ Z.of_nat fuel -> hash_loop fuel k i = i + Z.log2 k.
Proof.
  revert k i. induction fuel as [|fuel IH]; intros k i Hk; cbn [hash_loop].
  - change (2 ^ Z.of_nat 0) with 1 in Hk. replace k with 0 by lia. cbn. lia.
  - rewrite Nat2Z.inj_succ, Z.pow_succ_r in Hk by lia. destruct (Z.ltb_spec 1 k) as [Hk1|Hk1].
    + pose proof (Z.log2_pos k Hk1).
      rewrite IH, Z.log2_shiftr by (rewrite ?Z.shiftr_div_pow2 by lia; change (2 ^ 1) with 2; zlia). lia.
    + destruct (Z.eq_dec k 1) as [->|]; [cbn; lia|]. replace k with 0 by lia. cbn. lia.
Qed.

Lemma hash_eq k : is_word k -> calc_hash_index k = Z.min 9 (Z.log2 (Z.shiftr k 5)).
Proof.
  intros [H0 H1]. unfold calc_hash_index, MAX_HASH_ENTRY. rewrite hash_loop_log2.
  - case_if; lia.
  - rewrite Z.shiftr_div_pow2 by lia. change (2 ^ Z.of_nat 32) with 4294967296. change (2 ^ 5) with 32. zlia.
Qed.

Lemma hash_range k : is_word k -> 0 <= calc_hash_index k < 10.
Proof. intros Hk. rewrite hash_eq by done. pose proof (Z.log2_nonneg (Z.shiftr k 5)). lia. Qed.

Lemma hash_mono k k' : is_word k -> is_word k' -> k <= k' -> calc_hash_index k <= calc_hash_index k'.
Proof.
  intros Hk Hk' Hle. rewrite !hash_eq by done. apply Z.min_le_compat_l, Z.log2_le_mono.
  rewrite !Z.shiftr_div_pow2 by lia. apply Z.div_le_mono; lia.
Qed.

(** ** Flags *)

Lemma make_free_free n : IS_FREE_NODE (MAKE_FREE n) = true.
Proof.
  unfold IS_FREE_NODE, MAKE_FREE, FREE_NODE. cbn [attribute].
  assert (Z.testbit (Z.land (Z.lor (attribute n) 1) 1) 0 = true) as Hb.
  { rewrite Z.land_spec, Z.lor_spec. cbn. by rewrite orb_true_r. }
  destruct (Z.eqb_spec (Z.land (Z.lor (attribute n) 1) 1) 0) as [E|]; [|done].
  by rewrite E in Hb.
Qed.

Lemma make_occupied_used n : IS_FREE_NODE (MAKE_OCCUPIED n) = false.
Proof.
  unfold IS_FREE_NODE, MAKE_OCCUPIED. cbn [attribute]. rewrite <- Z.land_assoc.
  change (Z.land (w_not FREE_NODE) FREE_NODE) with 0. by rewrite Z.land_0_r.
Qed.

Lemma set_size_free n z : IS_FREE_NODE (set_size n z) = IS_FREE_NODE n.
Proof. done. Qed.

(** ** Tiling *)

Fixpoint tiles (a : Z) (l : list node_t) (e : Z) : Prop :=
  match l with
  | [] => a = e
  | n :: l => addr n = a /\ 0 <= nsize n /\ tiles (a + 32 + nsize n) l e
  end.

Lemma tiles_app a l1 l2 e : tiles a (l1 ++ l2) e <-> exists m, tiles a l1 m /\ tiles m l2 e.
Proof.
  revert a. induction l1 as [|n l1 IH]; intros a; cbn.
  - split; [intros H; by exists a|]. by intros (m & -> & H).
  - split.
    + intros (H1 & H2 & H3). apply IH in H3 as (m & H3 & H4). by exists m.
    + intros (m & (H1 & H2 & H3) & H4). split_and!; try done. apply IH. by exists m.
Qed.

Lemma tiles_le a l e : tiles a l e -> a <= e.
Proof. revert a. induction l as [|n l IH]; intros a; cbn; [lia|]. intros (_ & H2 & H3%IH). lia. Qed.

Lemma tiles_elem a l e n :
  tiles a l e -> n ∈ l -> a <= addr n /\ 0 <= nsize n /\ addr n + 32 + nsize n <= e.
Proof.
  revert a. induction l as [|x l IH]; intros a; [by intros _ ?%not_elem_of_nil|].
  intros (H1 & H2 & H3) [->|Hn]%elem_of_cons.
  - apply tiles_le in H3. lia.
  - specialize (IH _ H3 Hn). lia.
Qed.

Lemma tiles_mid a l1 n l2 e :
  tiles a (l1 ++ n :: l2) e <->
  tiles a l1 (addr n) /\ 0 <= nsize n /\ tiles (addr n + 32 + nsize n) l2 e.
Proof.
  rewrite tiles_app. split.
  - intros (m & H1 & <- & H2 & H3). done.
  - intros (H1 & H2 & H3). by exists (addr n).
Qed.

Lemma split_at_mid a l1 n l2 e :
  tiles a (l1 ++ n :: l2) e -> split_at (l1 ++ n :: l2) (addr n) = Some (l1, n, l2).
Proof.
  revert a. induction l1 as [|x l1 IH]; intros a Ht; cbn [app split_at].
  - by rewrite Z.eqb_refl.
  - destruct Ht as (Hx & Hz & Ht). pose proof (proj1 (tiles_mid _ _ _ _ _) Ht) as (Hl & _).
    apply tiles_le in Hl. rewrite (proj2 (Z.eqb_neq (addr x) (addr n))) by lia. by rewrite (IH _ Ht).
Qed.

Lemma split_at_elem a l e n :
  tiles a l e -> n ∈ l -> exists l1 l2, l = l1 ++ n :: l2 /\ split_at l (addr n) = Some (l1, n, l2).
Proof.
  intros Ht (l1 & l2 & ->)%list_elem_of_split. exists l1, l2. split; [done|]. by eapply split_at_mid.
Qed.

(** ** Chains of free nodes *)

Definition chains (S : Z -> Z -> Prop) (tbl : list (list Z)) : Prop :=
  length tbl = 10%nat /\
  forall k l, word_at tbl k = Some l -> NoDup l /\ forall a, a ∈ l <-> S a k.

Lemma chains_ext S S' tbl : (forall a k, S a k <-> S' a k) -> chains S tbl -> chains S' tbl.
Proof.
  intros H [Hl Hc]. split; [done|]. intros k l Hk. destruct (Hc k l Hk) as [Hn Ha].
  split; [done|]. intros a. by rewrite Ha.
Qed.

Lemma chains_at S tbl k : chains S tbl -> 0 <= k < 10 ->
  exists l, word_at tbl k = Some l /\ NoDup l /\ forall a, a ∈ l <-> S a k.
Proof.
  intros [Hl Hc] Hk. destruct (word_at_Some tbl k) as [l Hw]; [lia|]. exists l. split; [done|]. by apply Hc.
Qed.

Lemma chains_set S tbl k x :
  chains S tbl -> 0 <= k < 10 -> NoDup x ->
  exists tbl', word_set tbl k x = Some tbl' /\ chains (fun a j => if j =? k then a ∈ x else S a j) tbl'.
Proof.
  intros [Hl Hc] Hk Hx. rewrite word_at_set by lia. eexists. split; [done|]. split; [by rewrite length_insert|].
  intros j l. rewrite word_at_insert by lia. rewrite (Z.eqb_sym k j).
  destruct (Z.eqb_spec j k) as [->|]; [by intros [= <-]|]. apply Hc.
Qed.

Lemma hash_append_spec S tbl k i :
  chains S tbl -> 0 <= k < 10 -> ~ S i k ->
  exists tbl', HASH_APPEND tbl k i = Some tbl' /\ chains (fun a j => S a j \/ a = i /\ j = k) tbl'.
Proof.
  intros Hc Hk Hno. unfold HASH_APPEND. destruct (chains_at _ _ _ Hc Hk) as (l & -> & Hn & Hl).
  cbn [mbind option_bind].
  destruct (chains_set S tbl k (i :: l) Hc Hk) as (tbl' & -> & Hc').
  { constructor; [|done]. by rewrite Hl. }
  exists tbl'. split; [done|]. revert Hc'. apply chains_ext. intros a j.
  destruct (Z.eqb_spec j k) as [->|]; [rewrite elem_of_cons, Hl|]; intuition congruence.
Qed.

Lemma hash_delete_spec S tbl k i :
  chains S tbl -> 0 <= k < 10 -> S i k ->
  exists tbl', HASH_DELETE tbl k i = Some tbl' /\ chains (fun a j => S a j /\ ~ (a = i /\ j = k)) tbl'.
Proof.
  intros Hc Hk Hi. unfold HASH_DELETE. destruct (chains_at _ _ _ Hc Hk) as (l & -> & Hn & Hl).
  cbn [mbind option_bind]. rewrite bool_decide_true by (by apply Hl).
  destruct (chains_set S tbl k (filter (fun q => q <> i) l) Hc Hk) as (tbl' & -> & Hc').
  { by apply NoDup_filter. }
  exists tbl'. split; [done|]. revert Hc'. apply chains_ext. intros a j.
  destruct (Z.eqb_spec j k) as [->|]; [rewrite list_elem_of_filter, Hl|]; intuition congruence.
Qed.

(** The free nodes of a list, with their chains. *)
Definition free_at (ns : list node_t) (a k : Z) : Prop :=
  exists n, n ∈ ns /\ addr n = a /\ IS_FREE_NODE n = true /\ k = calc_hash_index (nsize n + 32).

Lemma free_at_app l1 l2 a k : free_at (l1 ++ l2) a k <-> free_at l1 a k \/ free_at l2 a k.
Proof.
  unfold free_at. split.
  - intros (n & [Hn|Hn]%elem_of_app & H); [left|right]; by exists n.
  - intros [(n & Hn & H)|(n & Hn & H)]; exists n; (split; [apply elem_of_app; auto|done]).
Qed.

Lemma free_at_cons n l a k :
  free_at (n :: l) a k <->
  (IS_FREE_NODE n = true /\ a = addr n /\ k = calc_hash_index (nsize n + 32)) \/ free_at l a k.
Proof.
  unfold free_at. split.
  - intros (x & [->|Hx]%elem_of_cons & Ha & H); [left; by destruct H as [H1 H2]; subst|right; by exists x].
  - intros [(H & -> & ->)|(x & Hx & H)].
    + exists n. split_and!; try done. apply list_elem_of_here.
    + exists x. split; [by apply list_elem_of_further|done].
Qed.

Lemma free_at_mid l1 n l2 a k :
  free_at (l1 ++ n :: l2) a k <->
  (IS_FREE_NODE n = true /\ a = addr n /\ k = calc_hash_index (nsize n + 32)) \/ free_at (l1 ++ l2) a k.
Proof. rewrite !free_at_app, free_at_cons. tauto. Qed.

(** The addresses of the other nodes lie outside the node. *)
Lemma free_at_apart a l1 n l2 e b k :
  tiles a (l1 ++ n :: l2) e -> free_at (l1 ++ l2) b k ->
  b < addr n \/ addr n + 32 + nsize n <= b.
Proof.
  intros (H1 & H2 & H3)%tiles_mid (x & [Hx|Hx]%elem_of_app & <- & _).
  - pose proof (tiles_elem _ _ _ _ H1 Hx). lia.
  - pose proof (tiles_elem _ _ _ _ H3 Hx). lia.
Qed.

(** ** Coalesced lists: no two free neighbours

    [prev] tells whether the node before the list is free. *)

Fixpoint coalesced (prev : bool) (l : list node_t) : Prop :=
  match l with
  | [] => True
  | n :: l => (prev = true -> IS_FREE_NODE n = false) /\ coalesced (IS_FREE_NODE n) l
  end.

Definition last_free (prev : bool) (l : list node_t) : bool :=
  match last l with Some n => IS_FREE_NODE n | None => prev end.

Lemma last_free_cons prev n l : last_free prev (n :: l) = last_free (IS_FREE_NODE n) l.
Proof.
  unfold last_free. destruct l as [|x l]; [done|].
  change (last (n :: x :: l)) with (last (x :: l)).
  destruct (last (x :: l)) eqn:E; [done|]. by apply last_None in E.
Qed.

Lemma coalesced_app prev l1 l2 :
  coalesced prev (l1 ++ l2) <-> coalesced prev l1 /\ coalesced (last_free prev l1) l2.
Proof.
  revert prev. induction l1 as [|n l1 IH]; intros prev; [cbn; tauto|].
  rewrite last_free_cons. cbn. rewrite IH. tauto.
Qed.

Lemma coalesced_weaken prev l : coalesced prev l -> coalesced false l.
Proof. destruct l; [done|]. cbn. by intros [_ ?]. Qed.

(** ** Well-formed heaps *)

Record heap_wf (b : linear_memory_block) : Prop := {
  hw_base : 0 <= base b;
  hw_word : is_word (base b + 64 + bsize b);
  hw_tiles : tiles (base b + 64) (nodes b) (base b + 64 + bsize b);
  hw_chains : chains (free_at (nodes b)) (free_table b);
  hw_coal : coalesced false (nodes b);
  hw_magic : forall n, n ∈ nodes b -> IS_FREE_NODE n = false -> p_magic n = P_MAGIC /\ n_magic n = N_MAGIC
}.

(** The abstract state: the blocks in use, by user address and size. *)
Definition live (ns : list node_t) (p z : Z) : Prop :=
  exists n, n ∈ ns /\ IS_FREE_NODE n = false /\ p = addr n + 32 /\ z = nsize n.

Lemma live_app l1 l2 p z : live (l1 ++ l2) p z <-> live l1 p z \/ live l2 p z.
Proof.
  unfold live. split.
  - intros (n & [Hn|Hn]%elem_of_app & H); [left|right]; by exists n.
  - intros [(n & Hn & H)|(n & Hn & H)]; exists n; (split; [apply elem_of_app; auto|done]).
Qed.

Lemma live_cons n l p z :
  live (n :: l) p z <-> (IS_FREE_NODE n = false /\ p = addr n + 32 /\ z = nsize n) \/ live l p z.
Proof.
  unfold live. split.
  - intros (x & [->|Hx]%elem_of_cons & H); [by left|right; by exists x].
  - intros [H|(x & Hx & H)].
    + exists n. split; [apply list_elem_of_here|done].
    + exists x. split; [by apply list_elem_of_further|done].
Qed.

(** Blocks in use do not overlap and lie inside the memory block. *)
Lemma live_disjoint b p z q y :
  heap_wf b -> live (nodes b) p z -> live (nodes b) q y ->
  base b + 96 <= p /\ p + z <= base b + 64 + bsize b /\ ((p = q /\ z = y) \/ p + z + 32 <= q \/ q + y + 32 <= p).
Proof.
  intros Hwf (n & Hn & _ & -> & ->) (x & Hx & _ & -> & ->). pose proof (hw_tiles _ Hwf) as Ht.
  pose proof (tiles_elem _ _ _ _ Ht Hn). split; [lia|]. split; [lia|].
  apply list_elem_of_split in Hn as (l1 & l2 & E). rewrite E in Ht, Hx. apply tiles_mid in Ht as (H1 & H2 & H3).
  apply elem_of_app in Hx as [Hx|[->|Hx]%elem_of_cons]; [| by left |].
  - pose proof (tiles_elem _ _ _ _ H1 Hx). lia.
  - pose proof (tiles_elem _ _ _ _ H3 Hx). lia.
Qed.

Section Search.
Context (a e : Z) (ns : list node_t) (Ht : tiles a ns e).

Lemma find_fit_spec chain m :
  (forall x, x ∈ chain -> exists n, n ∈ ns /\ addr n = x) ->
  exists r, find_fit ns chain m = Some r /\
    match r with
    | None => forall n, n ∈ ns -> addr n ∈ chain -> nsize n < m
    | Some x => x ∈ chain /\ exists n, n ∈ ns /\ addr n = x /\ m <= nsize n
    end.
Proof using Ht.
  induction chain as [|x chain IH]; intros Hc; cbn [find_fit].
  { exists None. split; [done|]. by intros n _ ?%not_elem_of_nil. }
  destruct (Hc x) as (n & Hn & Hx); [apply list_elem_of_here|]. subst x.
  destruct (split_at_elem _ _ _ _ Ht Hn) as (l1 & l2 & E & ->). cbn [mbind option_bind].
  destruct (Z.ltb_spec (nsize n) m).
  - destruct IH as (r & -> & Hr); [intros x Hx; apply Hc; by apply list_elem_of_further|].
    exists r. split; [done|]. destruct r as [x|].
    + destruct Hr as [Hx Hr]. split; [by apply list_elem_of_further|done].
    + intros n' Hn' [E'|Hc']%elem_of_cons; [|by apply Hr].
      destruct (split_at_elem _ _ _ _ Ht Hn') as (k1 & k2 & Ek & Hs).
      destruct (split_at_elem _ _ _ _ Ht Hn) as (k3 & k4 & Ek' & Hs'). rewrite E' in Hs. congruence.
  - exists (Some (addr n)). split; [done|]. split; [apply list_elem_of_here|]. by exists n.
Qed.

Lemma find_chain_spec tbl k j m :
  chains (free_at ns) tbl -> 0 <= j -> 10 <= j + Z.of_nat k ->
  exists r, find_chain ns tbl k j m = Some r /\
    match r with
    | None => forall n, n ∈ ns -> IS_FREE_NODE n = true -> is_word (nsize n + 32) ->
                j <= calc_hash_index (nsize n + 32) -> nsize n < m
    | Some (i, x) => exists n, n ∈ ns /\ addr n = x /\ IS_FREE_NODE n = true /\
                       i = calc_hash_index (nsize n + 32) /\ m <= nsize n
    end.
Proof using Ht.
  intros Hc. revert j. induction k as [|k IH]; intros j Hj Hk; cbn [find_chain].
  { exists None. split; [done|]. intros n _ _ Hw Hi. pose proof (hash_range _ Hw). lia. }
  unfold MAX_HASH_ENTRY. destruct (Z.ltb_spec j 10).
  2: { exists None. split; [done|]. intros n _ _ Hw Hi. pose proof (hash_range _ Hw). lia. }
  destruct (chains_at _ _ j Hc) as (l & -> & _ & Hl); [lia|]. cbn [mbind option_bind].
  destruct (find_fit_spec l m) as (r & -> & Hr).
  { intros x (n & Hn & Hx & _)%Hl. by exists n. }
  cbn [mbind option_bind]. destruct r as [x|].
  - destruct Hr as [Hx (n & Hn & En & Hm)]. apply Hl in Hx as (n' & Hn' & En' & Hf & Hi).
    exists (Some (j, x)). split; [done|]. exists n'. split_and!; try done.
    destruct (split_at_elem _ _ _ _ Ht Hn) as (k1 & k2 & Ek & Hs).
    destruct (split_at_elem _ _ _ _ Ht Hn') as (k3 & k4 & Ek' & Hs'). rewrite En in Hs. rewrite En' in Hs'.
    rewrite Hs in Hs'. injection Hs' as <- <- <-. done.
  - destruct (IH (j + 1)) as (r & -> & Hr'); [lia|lia|]. exists r. split; [done|].
    destruct r as [[i x]|]; [done|]. intros n Hn Hf Hw Hi.
    destruct (Z.eq_dec j (calc_hash_index (nsize n + 32))) as [->|]; [|apply Hr'; try done; lia].
    apply Hr; [done|]. apply Hl. by exists n.
Qed.

End Search.

(** ** Allocation *)

Section Alloc.
Variable raw : Z -> node_t.

(** What [alloc] makes of the free node [n]: a block of [siz] bytes and a free
    rest. *)
Definition split_node (n : node_t) (siz : Z) : list node_t :=
  let r := raw (addr n + (siz + 32)) in
  [set_size (MAKE_OCCUPIED n) siz;
   MAKE_FREE (Nod (addr n + (siz + 32)) (p_magic r) (attribute r) (nsize n - siz - 32) (n_magic r))].

Lemma split_node_wf b l1 n l2 siz tbl :
  heap_wf b -> nodes b = l1 ++ n :: l2 -> IS_FREE_NODE n = true -> 0 <= siz -> siz + 32 <= nsize n ->
  chains (free_at (l1 ++ split_node n siz ++ l2)) tbl ->
  heap_wf (Block (base b) (bused b) (bsize b) (l1 ++ split_node n siz ++ l2) tbl).
Proof.
  intros [Hb Hw Ht Hc Hco Hm] E Hf Hs Hle Hch. rewrite E in *. constructor; cbn [base bsize nodes free_table]; try done.
  - apply tiles_mid in Ht as (H1 & H2 & H3). cbn. apply tiles_mid. cbn. split_and!; try done; try lia.
    by replace (addr n + 32 + siz + 32 + (nsize n - siz - 32)) with (addr n + 32 + nsize n) by lia.
  - apply coalesced_app in Hco as [Hco1 Hco2]. cbn in Hco2. destruct Hco2 as [Hp Hco2].
    apply coalesced_app. split; [done|]. cbn. rewrite set_size_free, make_occupied_used, make_free_free.
    split_and!; try done. by rewrite Hf in Hco2.
  - intros x [Hx|Hx]%elem_of_app Hxf; [apply Hm; [apply elem_of_app; by left|done]|].
    apply elem_of_cons in Hx as [->|Hx]; [done|].
    apply elem_of_cons in Hx as [->|Hx]; [by rewrite make_free_free in Hxf|].
    apply Hm; [|done]. apply elem_of_app. right. by apply list_elem_of_further.
Qed.

Lemma alloc_spec b siz :
  heap_wf b -> 0 <= siz -> is_word (siz + 32) ->
  (alloc raw b siz = Some (0, b) /\
     forall n, n ∈ nodes b -> IS_FREE_NODE n = true -> nsize n < siz + 32) \/
  exists l1 n l2 tbl, nodes b = l1 ++ n :: l2 /\ IS_FREE_NODE n = true /\ siz + 32 <= nsize n /\
    let b' := Block (base b) (bused b) (bsize b) (l1 ++ split_node n siz ++ l2) tbl in
    alloc raw b siz = Some (addr n + 32, b') /\ heap_wf b'.
Proof.
  intros Hwf Hs Hw. pose proof Hwf as [Hb Hwb Ht Hc Hco Hm]. unfold alloc, SIZEOF_NODE.
  rewrite (wrap_small (siz + 32)) by done.
  assert (forall n, n ∈ nodes b -> is_word (addr n + 32 + nsize n) /\ 0 <= nsize n /\ 0 <= addr n) as Hin.
  { intros n Hn. pose proof (tiles_elem _ _ _ _ Ht Hn). unfold is_word in *. lia. }
  destruct (find_chain_spec _ _ _ Ht (free_table b) 10 (calc_hash_index (siz + 32)) (siz + 32) Hc)
    as (r & -> & Hr); [by apply hash_range|pose proof (hash_range _ Hw); lia|].
  cbn [mbind option_bind]. destruct r as [[i x]|].
  2: { left. split; [done|]. intros n Hn Hf. destruct (Hin n Hn) as (Hw1 & Hn0 & Ha).
       destruct (Z.lt_ge_cases (nsize n) (siz + 32)) as [|Hge]; [done|].
       apply Hr; try done; [unfold is_word in *; lia|].
       apply hash_mono; [done|unfold is_word in *; lia|lia]. }
  destruct Hr as (n & Hn & <- & Hf & -> & Hle). right. destruct (Hin n Hn) as (Hw1 & Hn0 & Ha).
  destruct (split_at_elem _ _ _ _ Ht Hn) as (l1 & l2 & E & ->). cbn [mbind option_bind].
  rewrite E in Ht, Hc.
  destruct (hash_delete_spec _ _ (calc_hash_index (nsize n + 32)) (addr n) Hc) as (t1 & -> & Hc1).
  { apply hash_range. unfold is_word in *. lia. }
  { apply free_at_mid. by left. }
  cbn [mbind option_bind]. unfold is_word in *.
  rewrite (wrap_small (nsize n + 32)), (wrap_small (nsize n + 32 - (siz + 32))) by (unfold is_word; lia).
  rewrite (proj2 (Z.leb_le 32 _)) by lia. cbn [addr MAKE_OCCUPIED].
  rewrite (wrap_small (addr n + (siz + 32))), (wrap_small (nsize n + 32 - (siz + 32) - 32)),
    (wrap_small (addr n + 32)) by (unfold is_word; lia).
  destruct (hash_append_spec _ t1 (calc_hash_index (nsize n + 32 - (siz + 32))) (addr n + (siz + 32)) Hc1)
    as (t2 & -> & Hc2).
  { apply hash_range. unfold is_word. lia. }
  { intros [[(_ & Ex & _)|Hx]%free_at_mid _]; [lia|].
    destruct (free_at_apart _ _ _ _ _ _ _ Ht Hx); lia. }
  cbn [mbind option_bind].
  assert (chains (free_at (l1 ++ split_node n siz ++ l2)) t2) as Hc3.
  { revert Hc2. apply chains_ext. intros y k. rewrite (free_at_mid l1 n l2), !free_at_app.
    unfold split_node. rewrite !free_at_cons. cbn [nsize addr MAKE_FREE].
    rewrite set_size_free, make_occupied_used, make_free_free.
    replace (nsize n - siz - 32 + 32) with (nsize n + 32 - (siz + 32)) by lia.
    assert (free_at [] y k <-> False) as -> by (split; [by intros (? & ?%not_elem_of_nil & _)|done]).
    assert (free_at (l1 ++ l2) y k -> y <> addr n) as Hne.
    { intros Hx. destruct (free_at_apart _ _ _ _ _ _ _ Ht Hx); lia. }
    rewrite free_at_app in Hne. intuition (try congruence). }
  exists l1, n, l2, t2. split_and!; try done.
  - by replace (nsize n + 32 - (siz + 32) - 32) with (nsize n - siz - 32) by lia.
  - by apply split_node_wf.
Qed.

End Alloc.

(** ** Release

    While a node is being released it is free but in no chain. *)

Record loose (a e : Z) (l1 : list node_t) (nod : node_t) (l2 : list node_t) (tbl : list (list Z)) : Prop := {
  lo_tiles : tiles a (l1 ++ nod :: l2) e;
  lo_chains : chains (free_at (l1 ++ l2)) tbl;
  lo_coal1 : coalesced false l1;
  lo_coal2 : coalesced false l2;
  lo_free : IS_FREE_NODE nod = true;
  lo_word : 0 <= a /\ is_word e
}.

(** The chain of a free neighbour [c] gives it up. *)
Lemma loose_delete a e l1 nod l2 tbl k1 c k2 :
  loose a e l1 nod l2 tbl -> tiles a (k1 ++ c :: k2) e -> IS_FREE_NODE c = true ->
  (forall x k, free_at (l1 ++ l2) x k <->
     (x = addr c /\ k = calc_hash_index (nsize c + 32)) \/ free_at (k1 ++ k2) x k /\ x <> addr nod) ->
  addr c <> addr nod ->
  exists tbl', HASH_DELETE tbl (calc_hash_index (nsize c +w 32)) (addr c) = Some tbl' /\
    chains (fun x k => free_at (k1 ++ k2) x k /\ x <> addr nod) tbl'.
Proof.
  intros Hl Ht Hf Hset Hne. pose proof (lo_word _ _ _ _ _ _ Hl) as [Ha He].
  pose proof (tiles_elem _ _ _ c Ht) as Hc.
  destruct Hc as (H1 & H2 & H3); [apply elem_of_app; right; apply list_elem_of_here|].
  unfold is_word in He. rewrite (wrap_small (nsize c + 32)) by (unfold is_word; lia).
  destruct (hash_delete_spec _ tbl (calc_hash_index (nsize c + 32)) (addr c) (lo_chains _ _ _ _ _ _ Hl))
    as (tbl' & E & Hch).
  { apply hash_range. unfold is_word. lia. } { apply Hset. by left. }
  exists tbl'. split; [done|]. revert Hch. apply chains_ext. intros x k. rewrite Hset.
  assert (free_at (k1 ++ k2) x k -> x <> addr c) as Hap.
  { intros Hx. destruct (free_at_apart _ _ _ _ _ _ _ Ht Hx); lia. }
  intuition congruence.
Qed.

Lemma merge_pre_spec a e l1 nod l2 tbl :
  loose a e l1 nod l2 tbl ->
  exists l1' nod' tbl', merge_pre tbl l1 nod = Some (l1', nod', tbl') /\ loose a e l1' nod' l2 tbl' /\
    last_free false l1' = false /\ (forall p z, live l1' p z <-> live l1 p z) /\
    (forall x, x ∈ l1' -> x ∈ l1).
Proof.
  intros Hl. pose proof Hl as [Ht Hc Hc1 Hc2 Hf [Ha He]]. unfold merge_pre.
  destruct (last l1) as [p|] eqn:El.
  2: { apply last_None in El as ->. exists [], nod, tbl. by split_and!. }
  apply last_Some in El as (l1' & ->).
  destruct (IS_FREE_NODE p) eqn:Ep.
  2: { exists (l1' ++ [p]), nod, tbl. split_and!; try done. unfold last_free. by rewrite last_snoc. }
  unfold merge, SIZEOF_NODE. rewrite <- app_assoc in Ht. cbn [app] in Ht.
  pose proof (proj1 (tiles_mid _ _ _ _ _) Ht) as (T1 & T2 & T3 & T4 & T5).
  assert (forall x k, free_at (l1' ++ l2) x k -> x <> addr nod) as Hnn.
  { intros x k Hx. change (l1' ++ p :: nod :: l2) with (l1' ++ [p] ++ nod :: l2) in Ht. rewrite app_assoc in Ht.
    destruct (free_at_apart _ _ _ _ _ x k Ht); [|lia|lia].
    rewrite <- app_assoc. cbn [app]. apply free_at_mid. by right. }
  destruct (loose_delete _ _ _ _ _ _ l1' p (nod :: l2) Hl Ht Ep) as (tbl' & E & Hch); [|lia|].
  { intros x k. rewrite <- app_assoc. cbn [app]. rewrite !free_at_mid, Ep. specialize (Hnn x k). intuition congruence. }
  rewrite E. cbn [mbind option_bind].
  assert (is_word (nsize nod + 32) /\ is_word (nsize p + (nsize nod + 32))) as [W1 W2].
  { apply tiles_le in T1, T5. unfold is_word in *. lia. }
  rewrite (wrap_small (nsize nod + 32)), (wrap_small (nsize p + (nsize nod + 32))) by done.
  rewrite removelast_last. apply coalesced_app in Hc1 as [Hc1 [Hp _]].
  exists l1', (set_size p (nsize p + (nsize nod + 32))), tbl'. split; [done|]. split.
  - constructor; try done.
    + apply tiles_mid. cbn. split_and!; try done; try lia.
      by replace (addr p + 32 + (nsize p + (nsize nod + 32))) with (addr p + 32 + nsize p + 32 + nsize nod) by lia.
    + revert Hch. apply chains_ext. intros x k. rewrite free_at_mid. specialize (Hnn x k). intuition congruence.
  - split_and!.
    + destruct (last_free false l1') eqn:E'; [|done]. rewrite (Hp eq_refl) in Ep. done.
    + intros q z. rewrite live_app, live_cons, Ep.
      assert (live [] q z <-> False) as -> by (split; [by intros (? & ?%not_elem_of_nil & _)|done]).
      intuition congruence.
    + intros x Hx. apply elem_of_app. by left.
Qed.

Lemma merge_next_spec a e l1 nod l2 tbl :
  loose a e l1 nod l2 tbl ->
  exists nod' l2' tbl', merge_next tbl nod l2 = Some (nod', l2', tbl') /\ loose a e l1 nod' l2' tbl' /\
    coalesced true l2' /\ (forall p z, live l2' p z <-> live l2 p z) /\ (forall x, x ∈ l2' -> x ∈ l2).
Proof.
  intros Hl. pose proof Hl as [Ht Hc Hc1 Hc2 Hf [Ha He]]. unfold merge_next.
  destruct l2 as [|q l2]; [exists nod, [], tbl; by split_and!|].
  destruct Hc2 as [_ Hc2]. destruct (IS_FREE_NODE q) eqn:Eq.
  2: { exists nod, (q :: l2), tbl. split_and!; try done. cbn. by rewrite Eq. }
  unfold merge, SIZEOF_NODE.
  pose proof (proj1 (tiles_mid _ _ _ _ _) Ht) as (T1 & T2 & T3 & T4 & T5).
  assert (forall x k, free_at (l1 ++ l2) x k -> x <> addr nod) as Hnn.
  { intros x k Hx. destruct (free_at_apart _ _ _ _ _ x k Ht); [|lia|lia].
    apply free_at_mid. by right. }
  assert (tiles a ((l1 ++ [nod]) ++ q :: l2) e) as Htq by (by rewrite <- app_assoc).
  destruct (loose_delete _ _ _ _ _ _ (l1 ++ [nod]) q l2 Hl Htq Eq) as (tbl' & E & Hch); [|lia|].
  { intros x k. rewrite <- app_assoc. cbn [app]. rewrite !free_at_mid, Eq. specialize (Hnn x k). intuition congruence. }
  rewrite E. cbn [mbind option_bind].
  assert (is_word (nsize q + 32) /\ is_word (nsize nod + (nsize q + 32))) as [W1 W2].
  { apply tiles_le in T1, T5. unfold is_word in *. lia. }
  rewrite (wrap_small (nsize q + 32)), (wrap_small (nsize nod + (nsize q + 32))) by done.
  exists (set_size nod (nsize nod + (nsize q + 32))), l2, tbl'. split; [done|]. split.
  - constructor; try done.
    + apply tiles_mid. cbn. split_and!; try done; try lia.
      by replace (addr nod + 32 + (nsize nod + (nsize q + 32))) with (addr nod + 32 + nsize nod + 32 + nsize q) by lia.
    + revert Hch. apply chains_ext. intros x k. rewrite <- app_assoc. cbn [app]. rewrite free_at_mid.
      specialize (Hnn x k). intuition congruence.
    + by apply (coalesced_weaken true).
  - split_and!; [done| |intros x Hx; by apply list_elem_of_further].
    intros p z. rewrite live_cons, Eq. intuition congruence.
Qed.

Lemma dealloc_spec b l1 n l2 :
  heap_wf b -> nodes b = l1 ++ n :: l2 -> IS_FREE_NODE n = false ->
  exists b', dealloc b (addr n + 32) = Some (nsize n, b') /\ heap_wf b' /\
    base b' = base b /\ bsize b' = bsize b /\ bused b' = bused b /\
    forall p z, live (nodes b') p z <-> live (l1 ++ l2) p z.
Proof.
  intros [Hb Hw Ht Hc Hco Hm] E Hf. unfold dealloc, SIZEOF_NODE. rewrite E in *.
  destruct (Hm n) as [HP HN]; [apply elem_of_app; right; apply list_elem_of_here|done|].
  pose proof (proj1 (tiles_mid _ _ _ _ _) Ht) as (T1 & T2 & T3). pose proof (tiles_le _ _ _ T1). pose proof (tiles_le _ _ _ T3).
  replace (addr n + 32 - 32) with (addr n) by lia. rewrite wrap_small by (unfold is_word in *; lia).
  rewrite (split_at_mid _ _ _ _ _ Ht). cbn [mbind option_bind].
  rewrite Hf, HP, HN, !Z.eqb_refl. cbn [negb orb].
  apply coalesced_app in Hco as [Hco1 [_ Hco2]]. rewrite Hf in Hco2.
  assert (loose (base b + 64) (base b + 64 + bsize b) l1 (MAKE_FREE n) l2 (free_table b)) as L0.
  { constructor; try done; [by apply tiles_mid| |apply make_free_free|split; [lia|done]].
    revert Hc. apply chains_ext. intros x k. rewrite free_at_mid, Hf. intuition congruence. }
  destruct (merge_pre_spec _ _ _ _ _ _ L0) as (l1' & n1 & t1 & -> & L1 & Hlast & Hlv1 & Hsub1).
  cbn [mbind option_bind].
  destruct (merge_next_spec _ _ _ _ _ _ L1) as (n2 & l2' & t2 & -> & L2 & Hco2' & Hlv2 & Hsub2).
  cbn [mbind option_bind]. destruct L2 as [Ht' Hc' Hco1' _ Hf' _].
  pose proof (proj1 (tiles_mid _ _ _ _ _) Ht') as (S1 & S2 & S3). pose proof (tiles_le _ _ _ S1). pose proof (tiles_le _ _ _ S3).
  rewrite (wrap_small (nsize n2 + 32)) by (unfold is_word in *; lia).
  destruct (hash_append_spec _ t2 (calc_hash_index (nsize n2 + 32)) (addr n2) Hc') as (t3 & -> & Hc3).
  { apply hash_range. unfold is_word in *. lia. }
  { intros Hx. destruct (free_at_apart _ _ _ _ _ _ _ Ht' Hx); lia. }
  cbn [mbind option_bind]. eexists. split; [done|]. split_and!; try done.
  - constructor; cbn [base bsize nodes free_table]; try done.
    + revert Hc3. apply chains_ext. intros x k. rewrite free_at_mid, Hf'. intuition congruence.
    + apply coalesced_app. split; [done|]. rewrite Hlast. cbn. rewrite Hf'. done.
    + intros x [Hx|[->|Hx]%elem_of_cons]%elem_of_app Hxf; [|congruence|]; apply Hm; try done; apply elem_of_app.
      * left. by apply Hsub1.
      * right. apply list_elem_of_further. by apply Hsub2.
  - intros p z. cbn [nodes]. rewrite !live_app, live_cons, Hf', Hlv1, Hlv2. intuition congruence.
Qed.

(** ** The interface *)

Lemma align_size_eq size : 0 < size < 2147483645 -> align_size size = 4 * ((size + 3) / 4).
Proof.
  intros Hs. unfold align_size. pose proof (Z.add_lor_land size 3) as Hor.
  change 3 with (Z.ones 2) in *. rewrite Z.land_ones in * by lia. change (2 ^ 2) with 4 in *.
  change (Z.ones 2) with 3 in *. destruct (Z.eqb_spec (size mod 4) 0); [zlia|].
  rewrite to_int_small by zlia. zlia.
Qed.

(** ... and for every positive int, as a word: the largest three are rounded
    to 2^31, which is negative as an int. *)
Lemma align_size_wrap size u :
  0 < size < 2147483648 -> wrap (align_size size) = 4 * ((size + 3) / 4) /\
    wrap (u + align_size size) = wrap (u + 4 * ((size + 3) / 4)).
Proof.
  intros Hs. destruct (Z.lt_ge_cases size 2147483645) as [Hl|Hl].
  - rewrite align_size_eq by lia. split; [apply wrap_small; unfold is_word; zlia|done].
  - assert (size = 2147483645 \/ size = 2147483646 \/ size = 2147483647) as [->|[->| ->]] by lia.
    all: change (align_size _) with (-2147483648);
      match goal with |- context [4 * ((?a + 3) / 4)] => change (4 * ((a + 3) / 4)) with 2147483648 end.
    all: split; [done|]; unfold wrap; replace (u + 2147483648) with (u + -2147483648 + 1 * 4294967296) by lia;
      symmetry; apply Z_mod_plus_full.
Qed.

Lemma set_used_wf b u : heap_wf b -> heap_wf (set_used b u).
Proof. intros []. by constructor. Qed.

(** Freeing a node that is free returns the pointer and changes nothing but
    the wrap of the counter: the interface documents NULL. *)
Theorem memfree_free_node b n :
  heap_wf b -> n ∈ nodes b -> IS_FREE_NODE n = true -> 0 < nsize n ->
  memfree b (addr n + 32) = Some (addr n + 32, set_used b (wrap (bused b - 0))).
Proof.
  intros [Hb Hw Ht _ _ _] Hn Hf Hz. pose proof (tiles_elem _ _ _ _ Ht Hn). unfold is_word in Hw.
  unfold memfree, _free, dealloc, SIZEOF_NODE, SIZEOF_BLOCK.
  rewrite (proj2 (Z.eqb_neq (addr n + 32) 0)) by lia.
  rewrite (wrap_small (base b + 64)), (wrap_small (base b + 64 + bsize b)) by (unfold is_word; lia).
  rewrite (proj2 (Z.ltb_lt (base b) _)), (proj2 (Z.ltb_lt (addr n + 32) _)) by lia. cbn [andb].
  replace (addr n + 32 - 32) with (addr n) by lia. rewrite (wrap_small (addr n)) by (unfold is_word; lia).
  destruct (split_at_elem _ _ _ _ Ht Hn) as (l1 & l2 & _ & ->). cbn [mbind option_bind]. by rewrite Hf.
Qed.

Lemma empty_chains : chains (fun _ _ => False) (replicate 10 []).
Proof.
  split; [done|]. intros k l Hk. unfold word_at in Hk. destruct (0 <=? k); [|done].
  apply lookup_replicate in Hk as [-> _]. split; [constructor|]. intros a.
  split; [by intros ?%not_elem_of_nil|done].
Qed.

(** A heap of 16 KB at 1 MB: a block of 16 bytes in use and the free rest. *)
Definition sample_raw (a : Z) : node_t := Nod a 0 0 0 0.
Definition sample_heap : linear_memory_block :=
  Block 0x100000 16 16384 [Nod 0x100040 P_MAGIC 0 16 N_MAGIC; Nod 0x100070 0 1 16304 0]
    (<[8%nat := [0x100070]]> (replicate 10 [])).

Lemma sample_heap_wf : heap_wf sample_heap.
Proof.
  constructor; try done.
  - cbn [nodes free_table sample_heap].
    destruct (hash_append_spec _ _ 8 0x100070 empty_chains) as (tbl & E & Hc); [lia|intros Hx; exact Hx|].
    vm_compute in E. injection E as <-. revert Hc. apply chains_ext. intros a k.
    rewrite !free_at_cons.
    assert (free_at [] a k <-> False) as -> by (split; [by intros (? & ?%not_elem_of_nil & _)|done]).
    change (IS_FREE_NODE (Nod 0x100040 P_MAGIC 0 16 N_MAGIC)) with false.
    change (IS_FREE_NODE (Nod 0x100070 0 1 16304 0)) with true.
    change (calc_hash_index (nsize (Nod 0x100070 0 1 16304 0) + 32)) with 8. cbn [addr].
    intuition congruence.
  - intros n [->|Hn]%elem_of_cons; [done|]. apply list_elem_of_singleton in Hn as ->. done.
Qed.

(** [memalloc_init_allocation] of at least 16 KB makes a well-formed heap
    without blocks in use, one free node that covers it. *)
Theorem memalloc_init_correct raw big_block size_ :
  0 <= big_block -> 16384 + 64 <= size_ < 2147483648 -> is_word (big_block + size_) ->
  exists b, memalloc_init_allocation raw big_block size_ = Some (true, Some b) /\ heap_wf b /\
    base b = big_block /\ bsize b = size_ - 64 /\ bused b = 0 /\ forall p z, ~ live (nodes b) p z.
Proof.
  intros Hb Hs Hw. unfold is_word in Hw.
  unfold memalloc_init_allocation, init_block, SIZEOF_BLOCK, SIZEOF_NODE.
  rewrite (wrap_small (size_ - 64)), (wrap_small (size_ - 64 - 32)), (wrap_small (big_block + 64))
    by (unfold is_word; lia).
  rewrite (proj2 (Z.leb_gt (size_ - 64 - 32) 0)) by lia.
  destruct (hash_append_spec _ _ (MAX_HASH_ENTRY - 1) (big_block + 64) empty_chains) as (tbl & -> & Hc);
    [unfold MAX_HASH_ENTRY; lia|intros Hx; exact Hx|].
  cbn [mbind option_bind]. eexists. split; [done|].
  set (r := Nod _ _ _ _ _).
  assert (calc_hash_index (nsize (MAKE_FREE r) + 32) = 9) as Hh.
  { cbn. rewrite hash_eq by (unfold is_word; lia). rewrite Z.min_l; [done|].
    change 9 with (Z.log2 512). apply Z.log2_le_mono. rewrite Z.shiftr_div_pow2 by lia.
    change (2 ^ 5) with 32. zlia. }
  split_and!; try done.
  - constructor; cbn [base bsize nodes free_table]; try done.
    + unfold is_word. lia.
    + cbn. lia.
    + revert Hc. apply chains_ext. intros a k. rewrite free_at_cons, Hh, make_free_free.
      assert (free_at [] a k <-> False) as -> by (split; [by intros (? & ?%not_elem_of_nil & _)|done]).
      unfold MAX_HASH_ENTRY. cbn. intuition congruence.
    + intros n ->%list_elem_of_singleton. by rewrite make_free_free.
  - intros p z (n & ->%list_elem_of_singleton & Hf & _). by rewrite make_free_free in Hf.
Qed.

(** A block that cannot hold its own headers is accepted: the comparison
    with 0 is made on unsigned values, after the subtraction has wrapped. *)
Theorem memalloc_init_too_small raw big_block size_ :
  0 <= size_ < 96 ->
  exists b, memalloc_init_allocation raw big_block size_ = Some (true, Some b) /\
    bsize b = wrap (size_ - 64).
Proof.
  intros Hs. unfold memalloc_init_allocation, init_block, SIZEOF_BLOCK, SIZEOF_NODE.
  assert (0 < wrap (wrap (size_ - 64) - 32)) as Hpos.
  { unfold wrap. rewrite Zminus_mod_idemp_l. replace (size_ - 64 - 32) with (size_ + 4294967200 + (-1) * 4294967296) by lia.
    rewrite Z.mod_add by lia. rewrite Z.mod_small; lia. }
  rewrite (proj2 (Z.leb_gt _ 0)) by done.
  destruct (hash_append_spec _ _ (MAX_HASH_ENTRY - 1) (wrap (big_block + 64)) empty_chains) as (tbl & -> & _);
    [unfold MAX_HASH_ENTRY; lia|intros Hx; exact Hx|].
  cbn [mbind option_bind]. by eexists.
Qed.

(** What [memalloc] does on a well-formed heap. *)
Lemma memalloc_spec raw b size_ :
  heap_wf b -> 0 < size_ < 2147483648 ->
  let z := 4 * ((size_ + 3) / 4) in
  exists r b', memalloc raw b size_ = Some (r, b') /\ heap_wf b' /\
    base b' = base b /\ bsize b' = bsize b /\
    ((r = 0 /\ b' = b /\ forall n, n ∈ nodes b -> IS_FREE_NODE n = true -> nsize n < z + 32) \/
     (r <> 0 /\ (exists n, n ∈ nodes b /\ IS_FREE_NODE n = true /\ z + 32 <= nsize n) /\
      bused b' = wrap (bused b + z) /\ ~ (exists y, live (nodes b) r y) /\
      forall p y, live (nodes b') p y <-> (p = r /\ y = z) \/ live (nodes b) p y)).
Proof.
  intros Hwf Hs z. unfold memalloc, _malloc.
  destruct (align_size_wrap size_ (bused b) Hs) as [Ez Eu]. fold z in Ez, Eu.
  rewrite (proj2 (Z.eqb_neq size_ 0)) by lia. cbn [mbind option_bind].
  rewrite Ez. assert (0 <= z <= 2147483648) as Hz by (unfold z; zlia).
  destruct (alloc_spec raw b z Hwf) as [[-> Hno]|(l1 & n & l2 & tbl & E & Hf & Hle & -> & Hwf')];
    [lia|unfold is_word; lia| |]; cbn [mbind option_bind].
  { exists 0, b. cbn [Z.eqb]. split_and!; try done. by left. }
  pose proof (hw_tiles _ Hwf) as Ht. rewrite E in Ht. pose proof (hw_base _ Hwf).
  pose proof (proj1 (tiles_mid _ _ _ _ _) Ht) as (T1 & T2 & T3). pose proof (tiles_le _ _ _ T1).
  rewrite (proj2 (Z.eqb_neq (addr n + 32) 0)) by lia. cbn [bused].
  eexists _, _. split; [done|]. split; [by apply set_used_wf|]. split; [done|]. split; [done|]. right.
  rewrite E. split_and!; [lia| |by rewrite <- Eu| |].
  - exists n. split_and!; [apply elem_of_app; right; apply list_elem_of_here|done|done].
  - intros (y & x & Hx & Hxf & Ex & _). apply elem_of_app in Hx as [Hx|[->|Hx]%elem_of_cons].
    + pose proof (tiles_elem _ _ _ _ T1 Hx). lia.
    + congruence.
    + pose proof (tiles_elem _ _ _ _ T3 Hx). lia.
  - intros p y. cbn [set_used nodes]. unfold split_node. rewrite !live_app, !live_cons.
    rewrite set_size_free, make_occupied_used, make_free_free, Hf. cbn [addr nsize set_size MAKE_OCCUPIED].
    assert (live [] p y <-> False) as -> by (split; [by intros (? & ?%not_elem_of_nil & _)|done]).
    intuition congruence.
Qed.

(** C11: on a well-formed heap [memalloc] returns, for every size that is not
    negative.  Size 0 gives NULL and changes nothing.  Otherwise the result is
    NULL, and nothing changes, exactly when every free node is smaller than the
    size rounded to words plus the 32 bytes of one more header, so that a free
    node that fits exactly is refused; in all other cases the result is a new
    block of the rounded size that is disjoint from the blocks in use, which
    stay as they are, and the heap stays well-formed. *)
Theorem memalloc_correct raw b size_ :
  heap_wf b -> 0 <= size_ < 2147483648 ->
  let z := 4 * ((size_ + 3) / 4) in
  let room := exists n, n ∈ nodes b /\ IS_FREE_NODE n = true /\ z + 32 <= nsize n in
  exists r b', memalloc raw b size_ = Some (r, b') /\ heap_wf b' /\
    base b' = base b /\ bsize b' = bsize b /\
    ((r = 0 /\ b' = b /\ (size_ = 0 \/ ~ room)) \/
     (r <> 0 /\ 0 < size_ /\ room /\ bused b' = wrap (bused b + z) /\ ~ (exists y, live (nodes b) r y) /\
      forall p y, live (nodes b') p y <-> (p = r /\ y = z) \/ live (nodes b) p y)).
Proof.
  intros Hwf Hs z room. destruct (Z.eq_dec size_ 0) as [->|Hne].
  { exists 0, b. split_and!; try done. left. split_and!; try done. by left. }
  destruct (memalloc_spec raw b size_ Hwf) as (r & b' & E & Hwf' & Hb & Hz & [(-> & -> & Hno)|(Hr & Hroom & H)]); [lia|..].
  - exists 0, b. split_and!; try done. left. split_and!; try done. right.
    intros (n & Hn & Hf & Hle). specialize (Hno n Hn Hf). fold z in Hno. lia.
  - exists r, b'. split_and!; try done. right. split_and!; try done; [lia|apply H..].
Qed.

Lemma memalloc_witness :
  let z := 4 * ((13 + 3) / 4) in
  let room := exists n, n ∈ nodes sample_heap /\ IS_FREE_NODE n = true /\ z + 32 <= nsize n in
  exists r b', memalloc sample_raw sample_heap 13 = Some (r, b') /\ heap_wf b' /\
    base b' = 0x100000 /\ bsize b' = 16384 /\
    ((r = 0 /\ b' = sample_heap /\ (13 = 0 \/ ~ room)) \/
     (r <> 0 /\ 0 < 13 /\ room /\ bused b' = wrap (16 + z) /\ ~ (exists y, live (nodes sample_heap) r y) /\
      forall p y, live (nodes b') p y <-> (p = r /\ y = z) \/ live (nodes sample_heap) p y)).
Proof. apply (memalloc_correct sample_raw sample_heap 13 sample_heap_wf). lia. Defined.

(** A free node of exactly the size that is asked for is not used: the
    search compares its size, which is without the header, with the size that
    includes one, and the case of no rest never happens. *)
Theorem memalloc_exact_fit_refused raw b size_ :
  heap_wf b -> 0 < size_ < 2147483648 ->
  (forall n, n ∈ nodes b -> IS_FREE_NODE n = true -> nsize n <= 4 * ((size_ + 3) / 4)) ->
  memalloc raw b size_ = Some (0, b).
Proof.
  intros Hwf Hs Hall. destruct (memalloc_spec raw b size_ Hwf Hs)
    as (r & b' & E & _ & _ & _ & [(-> & -> & _)|(_ & (n & Hn & Hf & Hle) & _)]); [done|].
  specialize (Hall n Hn Hf). lia.
Qed.

(** What [memfree] does on a block in use. *)
Lemma memfree_spec b p z :
  heap_wf b -> live (nodes b) p z -> 0 < z ->
  exists b', memfree b p = Some (p, b') /\ heap_wf b' /\ base b' = base b /\ bsize b' = bsize b /\
    bused b' = wrap (bused b - z) /\
    forall q y, live (nodes b') q y <-> q <> p /\ live (nodes b) q y.
Proof.
  intros Hwf (n & Hn & Hf & -> & ->) Hz. pose proof Hwf as [Hb Hw Ht _ _ _]. unfold is_word in Hw.
  pose proof (tiles_elem _ _ _ _ Ht Hn). unfold memfree, _free, SIZEOF_BLOCK.
  rewrite (proj2 (Z.eqb_neq (addr n + 32) 0)) by lia.
  rewrite (wrap_small (base b + 64)), (wrap_small (base b + 64 + bsize b)) by (unfold is_word; lia).
  rewrite (proj2 (Z.ltb_lt (base b) _)), (proj2 (Z.ltb_lt (addr n + 32) _)) by lia. cbn [andb].
  destruct (split_at_elem _ _ _ _ Ht Hn) as (l1 & l2 & E & _).
  destruct (dealloc_spec b l1 n l2 Hwf E Hf) as (b1 & -> & Hwf1 & Hb1 & Hs1 & Hu1 & Hl1).
  cbn [mbind option_bind]. eexists. split; [done|]. split; [by apply set_used_wf|].
  split; [done|]. split; [done|]. split; [cbn; by rewrite Hu1|]. intros q y. cbn [set_used nodes].
  rewrite Hl1, E, !live_app, live_cons, Hf. rewrite E in Ht.
  pose proof (proj1 (tiles_mid _ _ _ _ _) Ht) as (T1 & T2 & T3).
  assert (live l1 q y \/ live l2 q y -> q <> addr n + 32) as Hne.
  { intros [(x & Hx & _ & -> & _)|(x & Hx & _ & -> & _)].
    - pose proof (tiles_elem _ _ _ _ T1 Hx). lia.
    - pose proof (tiles_elem _ _ _ _ T3 Hx). lia. }
  intuition congruence.
Qed.

(** C12: [memfree] of a block in use returns the pointer; exactly that block
    is no longer in use, the counter goes down by its size, and the heap stays
    well-formed: the chains hold the free nodes and no two free nodes are
    neighbours. *)
Theorem memfree_correct b p z :
  heap_wf b -> live (nodes b) p z -> 0 < z ->
  exists b', memfree b p = Some (p, b') /\ heap_wf b' /\ base b' = base b /\ bsize b' = bsize b /\
    bused b' = wrap (bused b - z) /\
    forall q y, live (nodes b') q y <-> q <> p /\ live (nodes b) q y.
Proof. apply memfree_spec. Qed.

Lemma memfree_witness :
  exists b', memfree sample_heap 0x100060 = Some (0x100060, b') /\ heap_wf b' /\
    base b' = 0x100000 /\ bsize b' = 16384 /\ bused b' = wrap (16 - 16) /\
    forall q y, live (nodes b') q y <-> q <> 0x100060 /\ live (nodes sample_heap) q y.
Proof.
  apply (memfree_correct sample_heap 0x100060 16 sample_heap_wf); [|lia].
  eexists. split; [apply list_elem_of_here|]. split_and!; reflexivity.
Defined.
