(* ===== verification/Walk.v ===== *)
(** * Page tables

    [source/kernel/memory/walk.c] with the inline functions of
    [include/walk.h] and [include/arch/x86/arch/page.h]: walks through the two
    levels of x86 page tables, that create missing tables or not, and the
    operations on the entry a walk has reached.  Pages come from the class
    [PagePool], the promise of [pa.c] to its clients; [Pa] discharges it in
    the file [Page].  The locks of [struct km] are left out: every operation
    here runs with the lock held. *)

From stdpp Require Import gmap.
From S2P Require Import Prelude Vm Pa.
Import VmOps PaOps.
Local Open Scope c_scope.

(** ** The interface of the page allocator

    [handed a p]: the physical page [p] is handed out; [managed a p]: the
    allocator hands out [p] at some time.  The kernel version of the
    allocation returns the address in the kernel's direct mapping. *)

Class PagePool (A : Type) := {
  page_alloc : A -> run (Z * A);
  page_dealloc : A -> Z -> option A;
  pool_wf : A -> Prop;
  handed : A -> Z -> Prop;
  managed : A -> Z -> Prop;
  managed_page : forall a p, pool_wf a -> managed a p ->
    0 < p < CONFIG_HAL_KERNEL_MEM_LEN /\ p mod PAGE_SIZE = 0;
  handed_managed : forall a p, handed a p -> managed a p;
  page_alloc_spec : forall a, pool_wf a ->
    exists p a', page_alloc a = Ret (p, a') /\ pool_wf a' /\ (forall q, managed a' q <-> managed a q) /\
      ((p = 0 /\ forall q, handed a' q <-> handed a q) \/
       (p <> 0 /\ managed a p /\ ~ handed a p /\ forall q, handed a' q <-> q = p \/ handed a q));
  page_dealloc_spec : forall a p, pool_wf a -> handed a p ->
    exists a', page_dealloc a p = Some a' /\ pool_wf a' /\ (forall q, managed a' q <-> managed a q) /\
      forall q, handed a' q <-> q <> p /\ handed a q
}.

(** ** Data *)

Definition ARCH_KM_LV1_COUNT : Z := 1024.
Definition ARCH_KM_LV2_COUNT : Z := 1024.
Definition KM_WALK_MAX_LEVEL : nat := 2.
Definition PAGE_MASK : Z := w_not (PAGE_SIZE - 1).

Definition PAGE_FLAG_VALID : Z := 1.
Definition PAGE_FLAG_RW : Z := 2.
Definition PAGE_FLAG_USER : Z := 4.
Definition PAGE_FLAG_PWT : Z := 8.
Definition PAGE_FLAG_PCD : Z := 16.
Definition PAGE_FLAG_FROM_OTHER : Z := 512.
Definition PAGE_FLAG_MASK : Z := 0x3ff.

Definition KM_PROT_READ : Z := 1.
Definition KM_PROT_WRITE : Z := 2.
Definition KM_MAP_DEVICE : Z := 65536.

(** The physical memory, by page: 1024 words each; [roots] are the
    [translation_table] fields of the address spaces ([struct km]). *)
Record machine (A : Type) := Machine {
  pool : A;
  ram : gmap Z (list Z);
  roots : gmap Z Z
}.
Arguments Machine {A}.
Arguments pool {A}.
Arguments ram {A}.
Arguments roots {A}.

(** [hirarch_id[0]] is [level_id]; [miss_action] is [km_walk_miss] or NULL. *)
Record km_walk_ctx := Ctx {
  mem : Z;
  hirarch_id : list Z;
  table_base : list Z;
  current_virtual_address : Z;
  miss_action : bool
}.

(** A page of zeros. *)
Definition zero_page : list Z := replicate 1024 0.
#[global] Arguments zero_page : simpl never.

Module WalkOps.
Section Ops.
Context {A : Type} `{PagePool A}.

Definition km_get_vid (level va : Z) : Z :=
  match level with
  | 2 => Z.land (Z.shiftr va 22) (ARCH_KM_LV2_COUNT - 1)
  | 1 => Z.land (Z.shiftr va 12) (ARCH_KM_LV1_COUNT - 1)
  | _ => ULONG_MAX
  end.

Definition KM_PAGE_PHY_FROM_ENTRY (entry : Z) : Z := Z.land entry PAGE_MASK.

(** [table[i]] and [table[i] = x] for a table at a kernel address. *)
Definition read_entry (m : machine A) (table i : Z) : option Z :=
  l ← ram m !! HAL_GET_BASIC_PHYADDRESS table; word_at l i.

Definition write_entry (m : machine A) (table i x : Z) : option (machine A) :=
  l ← ram m !! HAL_GET_BASIC_PHYADDRESS table;
  l ← word_set l i x;
  Some (Machine (pool m) (<[HAL_GET_BASIC_PHYADDRESS table := l]> (ram m)) (roots m)).

Definition km_get_sub_table (m : machine A) (table sub_id : Z) : option Z :=
  e ← read_entry m table sub_id;
  let sub_table_phy := KM_PAGE_PHY_FROM_ENTRY e in
  Some (if sub_table_phy =? 0 then 0 else HAL_GET_BASIC_KADDRESS sub_table_phy).

Definition km_write_sub_table (m : machine A) (table sub_id phyiscal : Z) : option (machine A) :=
  write_entry m table sub_id
    (Z.lor (Z.lor (Z.lor phyiscal PAGE_FLAG_USER) PAGE_FLAG_VALID) PAGE_FLAG_RW).

(** [km_page_alloc_kerneled(1)]. *)
Definition alloc_kerneled (m : machine A) : run (Z * machine A) :=
  '(kp, a) ← page_alloc (pool m);
  Ret (if kp =? 0 then 0 else HAL_GET_BASIC_KADDRESS kp, Machine a (ram m) (roots m)).

Definition km_walk_alloc_table (m : machine A) : run (Z * machine A) :=
  '(p, m) ← alloc_kerneled m;
  if p =? 0 then Ret (p, m) else
  Ret (p, Machine (pool m) (<[HAL_GET_BASIC_PHYADDRESS p := zero_page]> (ram m)) (roots m)).

Definition km_create_sub_table (m : machine A) (table sub_id : Z) : run (Z * machine A) :=
  '(sub_table, m) ← km_walk_alloc_table m;
  if sub_table =? 0 then Ret (0, m) else
  let sub_table_phy := HAL_GET_BASIC_PHYADDRESS sub_table in
  m ← lift (km_write_sub_table m table sub_id sub_table_phy);
  Ret (sub_table, m).

Definition level_id (ctx : km_walk_ctx) : option Z := word_at (hirarch_id ctx) 0.

Definition km_walk_miss (m : machine A) (ctx : km_walk_ctx) : run (Z * machine A) :=
  root ← lift (roots m !! mem ctx);
  if root =? 0 then
    '(table, m) ← km_walk_alloc_table m;
    if table =? 0 then Ret (table, m) else
    Ret (table, Machine (pool m) (ram m) (<[mem ctx := table]> (roots m)))
  else
    level ← lift (level_id ctx);
    sub_id ← lift (word_at (hirarch_id ctx) level);
    table ← lift (word_at (table_base ctx) level);
    km_create_sub_table m table sub_id.

(** The assignments of a round of [km_walk_to] at level [i]. *)
Definition record_level (ctx : km_walk_ctx) (i sub_id table : Z) : option km_walk_ctx :=
  h ← word_set (hirarch_id ctx) i sub_id;
  t ← word_set (table_base ctx) i table;
  h ← word_set h 0 i;
  Some (Ctx (mem ctx) h t (current_virtual_address ctx) (miss_action ctx)).

(** The loop of [km_walk_to], from level [i] on. *)
Fixpoint walk_levels (i : nat) (m : machine A) (ctx : km_walk_ctx) (table : Z)
  : run (bool * km_walk_ctx * machine A) :=
  match i with
  | O => Ret (true, ctx, m)
  | S i' =>
    '(table, m) ← (if table =? 0 then if miss_action ctx then km_walk_miss m ctx else Ret (0, m)
                   else Ret (table, m));
    if table =? 0 then Ret (false, ctx, m) else
    let sub_id := km_get_vid (Z.of_nat i) (current_virtual_address ctx) in
    ctx ← lift (record_level ctx (Z.of_nat i) sub_id table);
    match i' with
    | O => Ret (true, ctx, m)
    | S _ =>
      table ← lift (km_get_sub_table m table sub_id);
      walk_levels i' m ctx table
    end
  end.

Definition km_walk_to (m : machine A) (ctx : km_walk_ctx) (va : Z) : run (bool * km_walk_ctx * machine A) :=
  h ← lift (word_set (hirarch_id ctx) 0 (Z.of_nat KM_WALK_MAX_LEVEL));
  table ← lift (roots m !! mem ctx);
  walk_levels KM_WALK_MAX_LEVEL m (Ctx (mem ctx) h (table_base ctx) va (miss_action ctx)) table.

(** The arrays of a fresh context are written before they are read. *)
Definition KM_WALK_INIT (mem : Z) : km_walk_ctx := Ctx mem [0; 0; 0] [0; 0; 0] 0 true.

(** ** The entry a walk has reached *)

Definition leaf (ctx : km_walk_ctx) : option (Z * Z) :=
  t ← word_at (table_base ctx) 1;
  i ← word_at (hirarch_id ctx) 1;
  Some (t, i).

Definition km_pte_write_force (m : machine A) (ctx : km_walk_ctx) (what : Z) : option (machine A) :=
  '(t, i) ← leaf ctx; write_entry m t i what.

(** An entry that is not empty stays. *)
Definition km_pte_write (m : machine A) (ctx : km_walk_ctx) (what : Z) : option (machine A) :=
  '(t, i) ← leaf ctx;
  p ← read_entry m t i;
  if negb (p =? 0) then Some m else km_pte_write_force m ctx what.

Definition km_pte_read (m : machine A) (ctx : km_walk_ctx) : option Z :=
  '(t, i) ← leaf ctx; read_entry m t i.

Definition km_pte_clean (m : machine A) (ctx : km_walk_ctx) : option (machine A) :=
  km_pte_write_force m ctx 0.

Definition km_pte_next (m : machine A) (ctx : km_walk_ctx) : run (bool * km_walk_ctx * machine A) :=
  let va := current_virtual_address ctx +w PAGE_SIZE in
  let ctx := Ctx (mem ctx) (hirarch_id ctx) (table_base ctx) va (miss_action ctx) in
  i ← lift (word_at (hirarch_id ctx) 1);
  if negb (i + 1 =? ARCH_KM_LV1_COUNT) then
    h ← lift (word_set (hirarch_id ctx) 1 (i + 1));
    Ret (true, Ctx (mem ctx) h (table_base ctx) va (miss_action ctx), m)
  else km_walk_to m ctx va.

Definition km_pte_write_and_next (m : machine A) (ctx : km_walk_ctx) (what : Z)
  : run (bool * km_walk_ctx * machine A) :=
  m ← lift (km_pte_write m ctx what); km_pte_next m ctx.

Definition km_pte_read_and_next (m : machine A) (ctx : km_walk_ctx)
  : run (Z * (bool * km_walk_ctx * machine A)) :=
  pte ← lift (km_pte_read m ctx);
  r ← km_pte_next m ctx;
  Ret (pte, r).

(** ** Walking over a range *)

Definition km_get_sub_level_size (id : Z) : Z :=
  if id =? 1 then ARCH_KM_LV1_COUNT * PAGE_SIZE else 0.

(** [level_size - 1] is an [int], converted to [unsigned long]. *)
Definition km_walk_jump (ctx : km_walk_ctx) : option (Z * km_walk_ctx) :=
  level ← level_id ctx;
  let old := current_virtual_address ctx in
  let level_size := km_get_sub_level_size level in
  let va := Z.lor old (wrap (level_size - 1)) +w 1 in
  Some (va -w old, Ctx (mem ctx) (hirarch_id ctx) (table_base ctx) va (miss_action ctx)).

(** The inner loop of [km_walk_loop]; [s] counts the bytes done. *)
Fixpoint loop_ptes (fuel : nat) (act : machine A -> km_walk_ctx -> Z -> option (machine A))
    (m : machine A) (ctx : km_walk_ctx) (s size : Z) : run (Z * km_walk_ctx * machine A) :=
  match fuel with
  | O => NoFuel
  | S fuel =>
    pte ← lift (km_pte_read m ctx);
    m ← lift (act m ctx pte);
    let s := s +w PAGE_SIZE in
    if s <? size then
      '(ok, ctx, m) ← km_pte_next m ctx;
      if (ok : bool) then loop_ptes fuel act m ctx s size else Ret (s, ctx, m)
    else Ret (s, ctx, m)
  end.

(** The outer loop. *)
Fixpoint loop_tables (fuel : nat) (act : machine A -> km_walk_ctx -> Z -> option (machine A))
    (m : machine A) (ctx : km_walk_ctx) (jump : bool) (s size : Z) : run (machine A) :=
  match fuel with
  | O => NoFuel
  | S fuel' =>
    let ptes ctx m s :=
      '(s, ctx, m) ← loop_ptes fuel act m ctx s size;
      if s <? size then loop_tables fuel' act m ctx true s size else Ret m in
    if jump then
      '(jump_size, ctx) ← lift (km_walk_jump ctx);
      let s := s +w jump_size in
      if size <=? s then Ret m else
      '(ok, ctx, m) ← km_walk_to m ctx (current_virtual_address ctx);
      if (ok : bool) then ptes ctx m s else loop_tables fuel' act m ctx true s size
    else ptes ctx m s
  end.

Definition km_walk_loop (fuel : nat) (m : machine A) (ctx : km_walk_ctx) (start size : Z)
    (meet_action : machine A -> km_walk_ctx -> Z -> option (machine A)) : run (machine A) :=
  let ctx := Ctx (mem ctx) (hirarch_id ctx) (table_base ctx) (current_virtual_address ctx) false in
  '(ok, ctx, m) ← km_walk_to m ctx start;
  loop_tables fuel meet_action m ctx (negb ok) 0 size.

(** The wait queues of [struct km] are not in use. *)
Definition km_walk_init (m : machine A) (mem : Z) : run (bool * machine A) :=
  '(ok, _, m) ← km_walk_to m (KM_WALK_INIT mem) 0;
  Ret (ok, m).

End Ops.
#[global] Arguments km_get_vid : simpl never.
End WalkOps.
Import WalkOps.

(** ** The address spaces a machine holds

    The abstract view: a page table is the function [pte] from the indices of
    an address to its entry, 0 where there is no table.  Every page of the
    allocator has at most one holder: it is the root or a second-level table
    of one address space, or the frame of one entry.  [own_index km i]: the
    second-level table of index [i] belongs to the address space [km], and is
    not a copy of an entry of the system process. *)

Class Ownership := {
  own_index : Z -> Z -> bool;
  own_range : forall km i, own_index km i = true -> 0 <= i < 1024
}.

(** A valid entry whose frame the address space allocated. *)
Definition owned (e : Z) : bool :=
  negb (Z.land e PAGE_FLAG_VALID =? 0) && (Z.land e PAGE_FLAG_FROM_OTHER =? 0).

Inductive holder := HRoot (km : Z) | HSub (km i : Z) | HFrame (km i j : Z).

#[global] Instance holder_eq_dec : EqDecision holder.
Proof. solve_decision. Defined.

Section View.
Context {A : Type} `{PagePool A} {OW : Ownership}.

Definition root_of (m : machine A) (km : Z) : option Z :=
  r ← roots m !! km; if r =? 0 then None else Some (HAL_GET_BASIC_PHYADDRESS r).

Definition sub_of (m : machine A) (km i : Z) : option Z :=
  if own_index km i then
    p ← root_of m km; l ← ram m !! p; e ← word_at l i;
    if KM_PAGE_PHY_FROM_ENTRY e =? 0 then None else Some (KM_PAGE_PHY_FROM_ENTRY e)
  else None.

Definition entry (m : machine A) (km i j : Z) : option Z :=
  q ← sub_of m km i; l ← ram m !! q; word_at l j.

Definition pte (m : machine A) (km i j : Z) : Z := default 0 (entry m km i j).

(** The page of [initial_pagetable], the root of the system process. *)
Variable init : Z.

Definition held (m : machine A) (h : holder) : option Z :=
  match h with
  | HRoot km => p ← root_of m km; if p =? init then None else Some p
  | HSub km i => sub_of m km i
  | HFrame km i j => e ← entry m km i j; if owned e then Some (Z.land e PAGE_MASK) else None
  end.

Record tables_wf (m : machine A) : Prop := {
  tw_pool : pool_wf (pool m);
  tw_init : ~ managed (pool m) init;
  tw_init_word : is_word init;
  tw_init_root : forall km, root_of m km = Some init -> km = 0;
  tw_roots : forall km r, roots m !! km = Some r -> is_word r;
  tw_shape : forall p l, ram m !! p = Some l -> length l = 1024%nat /\ Forall is_word l;
  tw_ram : forall p, managed (pool m) p \/ p = init -> is_Some (ram m !! p);
  tw_handed : forall h p, held m h = Some p -> handed (pool m) p;
  tw_inj : forall h h' p, held m h = Some p -> held m h' = Some p -> h = h'
}.

(** ** Words and entries *)

Lemma phys_kaddr p : is_word p -> HAL_GET_BASIC_PHYADDRESS (HAL_GET_BASIC_KADDRESS p) = p.
Proof.
  intros Hp. unfold HAL_GET_BASIC_PHYADDRESS, HAL_GET_BASIC_KADDRESS, PHYS_OFFSET, CONFIG_HAL_KERNEL_BASE, wrap, is_word in *.
  zlia.
Qed.

Lemma page_mask_spec e : is_word e -> Z.land e PAGE_MASK = e - e mod PAGE_SIZE.
Proof.
  intros He. assert (PAGE_MASK = Z.ldiff (Z.ones 32) (Z.ones 12)) as -> by reflexivity.
  change PAGE_SIZE with (2 ^ 12). rewrite <- Z.land_ones by lia.
  rewrite Z.sub_nocarry_ldiff.
  - apply Z.bits_inj'. intros i Hi. rewrite Z.land_spec, !Z.ldiff_spec, Z.land_spec.
    destruct (decide (i < 32)).
    + rewrite (Z.ones_spec_low 32) by lia. by destruct (Z.testbit e i), (Z.testbit (Z.ones 12) i).
    + by rewrite (testbit_word_high e i) by (done || lia).
  - apply Z.bits_inj'. intros k Hk. rewrite Z.ldiff_spec, Z.land_spec, Z.bits_0.
    by destruct (Z.testbit e k), (Z.testbit (Z.ones 12) k).
Qed.

(** An entry made of an aligned page and flags below the page size. *)
Lemma lor_page p f : p mod PAGE_SIZE = 0 -> 0 <= p -> 0 <= f < PAGE_SIZE -> Z.lor p f = p + f.
Proof.
  intros Hp H0 Hf. rewrite <- Z.add_nocarry_lor; [done|]. apply Z.bits_inj'. intros i Hi.
  rewrite Z.land_spec, Z.bits_0. unfold PAGE_SIZE in *. destruct (decide (i < 12)).
  - rewrite (Z.div_mod p 4096), Hp, Z.add_0_r by done. change 4096 with (2 ^ 12).
    by rewrite Z.mul_comm, Z.mul_pow2_bits_low by lia.
  - rewrite andb_comm. destruct (decide (f = 0)) as [->|]; [by rewrite Z.bits_0|].
    rewrite (Z.bits_above_log2 f); [done|lia|]. enough (Z.log2 f < 12) by lia. apply Z.log2_lt_pow2; lia.
Qed.

Lemma entry_page p f :
  p mod PAGE_SIZE = 0 -> is_word p -> 0 <= f < PAGE_SIZE ->
  is_word (Z.lor p f) /\ Z.land (Z.lor p f) PAGE_MASK = p /\ forall k, 0 <= k < 12 -> Z.testbit (Z.lor p f) k = Z.testbit f k.
Proof.
  intros Hp Hw Hf. assert (is_word (Z.lor p f)) as Hl.
  { apply lor_is_word; [done|]. unfold is_word, PAGE_SIZE in *. lia. }
  split; [done|]. rewrite page_mask_spec by done. rewrite lor_page by (done || apply Hw).
  unfold is_word, PAGE_SIZE in *. split; [zlia|]. intros k Hk.
  rewrite <- (Z.mod_pow2_bits_low (p + f) 12) by lia. f_equal. change (2 ^ 12) with 4096. zlia.
Qed.

(** ** Changing one holder *)

Lemma root_page m km p : tables_wf m -> root_of m km = Some p -> p = init \/ handed (pool m) p.
Proof.
  intros Hwf Hr. destruct (Z.eqb_spec p init) as [|Hne]; [by left|right].
  apply (tw_handed _ Hwf (HRoot km)). cbn. rewrite Hr. cbn. by rewrite (proj2 (Z.eqb_neq p init) Hne).
Qed.

Lemma root_word m km r :
  tables_wf m -> roots m !! km = Some r -> r <> 0 ->
  root_of m km = Some (HAL_GET_BASIC_PHYADDRESS r).
Proof. intros Hwf Hr Hne. unfold root_of. rewrite Hr. cbn. by rewrite (proj2 (Z.eqb_neq r 0) Hne). Qed.

Lemma sub_handed m km i q : tables_wf m -> sub_of m km i = Some q -> handed (pool m) q.
Proof. intros Hwf Hs. by apply (tw_handed _ Hwf (HSub km i)). Qed.

Lemma handed_page m p : tables_wf m -> handed (pool m) p ->
  is_word p /\ p mod PAGE_SIZE = 0 /\ p <> 0 /\ p <> init /\ HAL_GET_BASIC_KADDRESS p <> 0.
Proof.
  intros Hwf Hp. pose proof (handed_managed _ _ Hp) as Hm.
  destruct (managed_page _ _ (tw_pool _ Hwf) Hm) as [Hr Ha].
  unfold is_word, CONFIG_HAL_KERNEL_MEM_LEN, HAL_GET_BASIC_KADDRESS, PHYS_OFFSET, CONFIG_HAL_KERNEL_BASE, wrap in *.
  split_and!; try done; try lia; [by intros ->; destruct (tw_init _ Hwf)|zlia].
Qed.

Lemma table_words m p :
  tables_wf m -> handed (pool m) p \/ p = init ->
  exists l, ram m !! p = Some l /\ length l = 1024%nat /\ Forall is_word l.
Proof.
  intros Hwf Hp. destruct (tw_ram _ Hwf p) as [l Hl].
  { destruct Hp; [left; by apply handed_managed|by right]. }
  exists l. split; [done|]. by apply (tw_shape _ Hwf p).
Qed.

Lemma shape_insert m (p : Z) (l : list Z) : tables_wf m -> length l = 1024%nat -> Forall is_word l ->
  forall q k, <[p := l]> (ram m) !! q = Some k -> length k = 1024%nat /\ Forall is_word k.
Proof.
  intros Hwf Hl Hf q k Hq. apply lookup_insert_Some in Hq as [[_ <-]|[_ Hq]]; [done|]. by apply (tw_shape _ Hwf q).
Qed.

(** The tables of a machine are seen through the pages handed out. *)
Lemma view_frame m m' :
  tables_wf m -> roots m' = roots m ->
  (forall p, handed (pool m) p \/ p = init -> ram m' !! p = ram m !! p) ->
  (forall km, root_of m' km = root_of m km) /\ (forall km i, sub_of m' km i = sub_of m km i) /\
  (forall km i j, entry m' km i j = entry m km i j).
Proof.
  intros Hwf Hr Hram.
  assert (forall km, root_of m' km = root_of m km) as H1 by (intros km; unfold root_of; by rewrite Hr).
  assert (forall km i, sub_of m' km i = sub_of m km i) as H2.
  { intros km i. unfold sub_of. destruct (own_index km i); [|done]. rewrite H1.
    destruct (root_of m km) as [p|] eqn:E; [|done]. cbn [mbind option_bind].
    rewrite Hram; [done|]. destruct (root_page _ _ _ Hwf E); auto. }
  split_and!; [done|done|]. intros km i j. unfold entry. rewrite H2.
  destruct (sub_of m km i) as [q|] eqn:E; [|done]. cbn [mbind option_bind].
  rewrite Hram; [done|]. left. by apply (sub_handed m km i).
Qed.

Lemma held_view m m' :
  (forall km, root_of m' km = root_of m km) -> (forall km i, sub_of m' km i = sub_of m km i) ->
  (forall km i j, entry m' km i j = entry m km i j) -> forall h, held m' h = held m h.
Proof. intros H1 H2 H3 [km|km i|km i j]; cbn; by rewrite ?H1, ?H2, ?H3. Qed.

Lemma wf_change m m' h0 x :
  tables_wf m ->
  (forall h, held m' h = if decide (h = h0) then x else held m h) ->
  pool_wf (pool m') -> (forall q, managed (pool m') q <-> managed (pool m) q) ->
  (forall h p, h <> h0 -> held m h = Some p -> handed (pool m') p) ->
  (forall p, x = Some p -> handed (pool m') p /\ forall h, h <> h0 -> held m h <> Some p) ->
  (forall km, root_of m' km = Some init -> km = 0) ->
  (forall km r, roots m' !! km = Some r -> is_word r) ->
  (forall p l, ram m' !! p = Some l -> length l = 1024%nat /\ Forall is_word l) ->
  (forall p, is_Some (ram m !! p) -> is_Some (ram m' !! p)) ->
  tables_wf m'.
Proof.
  intros Hwf Hh Hp Hm Hha Hx Hi Hr Hs Hd. constructor; try done.
  - rewrite Hm. apply (tw_init _ Hwf).
  - apply (tw_init_word _ Hwf).
  - intros p Hp'. apply Hd, (tw_ram _ Hwf). by rewrite <- Hm.
  - intros h p. rewrite Hh. case_decide; intros E; [by apply Hx|by apply (Hha h)].
  - intros h h' p. rewrite !Hh. destruct (decide (h = h0)) as [->|Hn], (decide (h' = h0)) as [->|Hn'];
      intros E E'; [done|by destruct (proj2 (Hx p E) h')|by destruct (proj2 (Hx p E') h)|].
    by apply (tw_inj _ Hwf h h' p).
Qed.

(** ** New tables

    [grown]: tables were added; no entry, frame or frame content changed, and
    every page that was taken from the allocator has a holder. *)

Record grown (m m' : machine A) : Prop := {
  g_pte : forall km i j, pte m' km i j = pte m km i j;
  g_held : forall h p, held m h = Some p -> held m' h = Some p;
  g_frame : forall km i j, held m' (HFrame km i j) = held m (HFrame km i j);
  g_data : forall p, (handed (pool m) p \/ ~ managed (pool m) p) -> (forall km, root_of m km <> Some p) ->
             ram m' !! p = ram m !! p;
  g_root : forall km p, root_of m' km = Some p ->
             root_of m km = Some p \/ (managed (pool m) p /\ ~ handed (pool m) p);
  g_handed : forall p, handed (pool m) p -> handed (pool m') p;
  g_new : forall p, handed (pool m') p -> handed (pool m) p \/ exists h, held m' h = Some p;
  g_managed : forall p, managed (pool m') p <-> managed (pool m) p;
  g_roots : forall km, is_Some (roots m !! km) -> is_Some (roots m' !! km)
}.

Lemma grown_refl m : grown m m.
Proof. constructor; auto. Qed.

Lemma grown_trans m1 m2 m3 : grown m1 m2 -> grown m2 m3 -> grown m1 m3.
Proof.
  intros G1 G2. constructor.
  - intros. by rewrite (g_pte _ _ G2), (g_pte _ _ G1).
  - intros. by apply (g_held _ _ G2), (g_held _ _ G1).
  - intros. by rewrite (g_frame _ _ G2), (g_frame _ _ G1).
  - intros p Hp Hr. rewrite (g_data _ _ G2), (g_data _ _ G1); try done.
    + rewrite (g_managed _ _ G1). destruct Hp; [left; by apply (g_handed _ _ G1)|by right].
    + intros km Hk. destruct (g_root _ _ G1 km p Hk) as [E|[Hm Hn]]; [by apply (Hr km)|by destruct Hp].
  - intros km p Hk. destruct (g_root _ _ G2 km p Hk) as [E|[Hm Hn]]; [by apply (g_root _ _ G1)|right].
    split; [by apply (g_managed _ _ G1)|]. intros Hp. by apply Hn, (g_handed _ _ G1).
  - intros. by apply (g_handed _ _ G2), (g_handed _ _ G1).
  - intros p Hp. destruct (g_new _ _ G2 p Hp) as [Hp'|Hn]; [|by right].
    destruct (g_new _ _ G1 p Hp') as [|[h Hh]]; [by left|right]. exists h. by apply (g_held _ _ G2).
  - intros. by rewrite (g_managed _ _ G2), (g_managed _ _ G1).
  - intros. by apply (g_roots _ _ G2), (g_roots _ _ G1).
Qed.

Lemma zeros_at i e : word_at zero_page i = Some e -> e = 0.
Proof. unfold word_at, zero_page. case_if; [|done]. intros [-> _]%lookup_replicate. done. Qed.

Lemma zeros_shape : length zero_page = 1024%nat /\ Forall is_word zero_page.
Proof. unfold zero_page. split; [apply length_replicate|]. apply Forall_replicate. unfold is_word. lia. Qed.

(** The result of an allocation, on the side of the page tables. *)
Definition fresh (m : machine A) (a : A) (p : Z) : Prop :=
  pool_wf a /\ (forall q, managed a q <-> managed (pool m) q) /\ managed (pool m) p /\ ~ handed (pool m) p /\
  forall q, handed a q <-> q = p \/ handed (pool m) q.

Lemma fresh_page m a p : tables_wf m -> fresh m a p ->
  is_word p /\ p mod PAGE_SIZE = 0 /\ p <> 0 /\ p <> init /\ HAL_GET_BASIC_KADDRESS p <> 0 /\
  forall h, held m h <> Some p.
Proof.
  intros Hwf (_ & _ & Hm & Hn & _). destruct (managed_page _ _ (tw_pool _ Hwf) Hm) as [Hr Ha].
  unfold is_word, CONFIG_HAL_KERNEL_MEM_LEN, HAL_GET_BASIC_KADDRESS, PHYS_OFFSET, CONFIG_HAL_KERNEL_BASE, wrap in *.
  split_and!; try done; try lia; [by intros ->; destruct (tw_init _ Hwf)|zlia|].
  intros h Hh. by apply Hn, (tw_handed _ Hwf h).
Qed.

(** Writing a page nobody holds. *)
Lemma scratch_view m a p (l : list Z) : tables_wf m -> fresh m a p ->
  let m' := Machine a (<[p := l]> (ram m)) (roots m) in
  (forall km, root_of m' km = root_of m km) /\ (forall km i, sub_of m' km i = sub_of m km i) /\
  (forall km i j, entry m' km i j = entry m km i j).
Proof.
  intros Hwf Hf m'. apply view_frame; [done|done|]. intros q Hq. apply lookup_insert_ne.
  intros ->. destruct (fresh_page _ _ _ Hwf Hf) as (_ & _ & _ & Hi & _). destruct Hf as (_ & _ & _ & Hn & _).
  by destruct Hq.
Qed.

Lemma install_root m a km p :
  tables_wf m -> fresh m a p -> roots m !! km = Some 0 ->
  let m' := Machine a (<[p := zero_page]> (ram m)) (<[km := HAL_GET_BASIC_KADDRESS p]> (roots m)) in
  tables_wf m' /\ grown m m' /\ forall i, sub_of m' km i = None.
Proof.
  intros Hwf Hf Hr m'. destruct (fresh_page _ _ _ Hwf Hf) as (Hw & Ha & H0 & Hi & Hk & Hh).
  destruct (scratch_view m a p zero_page Hwf Hf) as (V1 & V2 & V3). cbn in V1, V2, V3.
  assert (root_of m km = None) as Rk by (unfold root_of; by rewrite Hr).
  assert (forall k, root_of m' k = if k =? km then Some p else root_of m k) as R.
  { intros k. unfold root_of at 1, m'. cbn. destruct (Z.eqb_spec k km) as [->|Hne].
    - rewrite lookup_insert_eq. cbn. rewrite (proj2 (Z.eqb_neq _ 0) Hk). by rewrite phys_kaddr.
    - rewrite lookup_insert_ne by done. done. }
  assert (forall k i, sub_of m' k i = sub_of m k i) as S.
  { intros k i. unfold sub_of. rewrite R. destruct (own_index k i) eqn:E; [|done].
    destruct (Z.eqb_spec k km) as [->|Hne].
    - rewrite Rk. unfold m'. cbn [mbind option_bind ram]. rewrite lookup_insert_eq. cbn [mbind option_bind].
      destruct (word_at zero_page i) as [e|] eqn:Ee; [|done]. by apply zeros_at in Ee as ->.
    - specialize (V2 k i). unfold sub_of in V2. rewrite E in V2. exact V2. }
  assert (forall i, sub_of m km i = None) as S0.
  { intros i. unfold sub_of. rewrite Rk. by destruct (own_index km i). }
  assert (forall k i j, entry m' k i j = entry m k i j) as E.
  { intros k i j. rewrite <- V3. unfold entry. rewrite S, V2. done. }
  assert (forall h, held m' h = if decide (h = HRoot km) then Some p else held m h) as Hheld.
  { intros [k|k i|k i j]; rewrite ?decide_False by done; cbn; rewrite ?R, ?S, ?E; try done.
    destruct (Z.eqb_spec k km) as [->|Hne].
    - rewrite decide_True by done. cbn. by rewrite (proj2 (Z.eqb_neq p init) Hi).
    - rewrite decide_False by congruence. done. }
  pose proof Hf as (Hpw & Hman & Hmp & Hn & Hha).
  split; [|split; [constructor|]].
  - apply (wf_change m m' (HRoot km) (Some p)); try done.
    + intros h q _ Hq. apply Hha. right. by apply (tw_handed _ Hwf h).
    + intros q [= <-]. split; [apply Hha; by left|]. intros h _. apply Hh.
    + intros k. rewrite R. destruct (Z.eqb_spec k km) as [->|]; [by intros [= ?]|apply (tw_init_root _ Hwf)].
    + intros k r. unfold m'. cbn. intros [[_ <-]|[_ Hq]]%lookup_insert_Some; [apply wrap_is_word|].
      by apply (tw_roots _ Hwf k).
    + apply (shape_insert m); [done|apply zeros_shape..].
    + intros q. unfold m'. cbn. rewrite lookup_insert_is_Some'. by right.
  - intros k i j. unfold pte. by rewrite E.
  - intros h q Hq. rewrite Hheld. case_decide; [|done]. subst h. cbn in Hq. by rewrite Rk in Hq.
  - intros k i j. by rewrite Hheld, decide_False.
  - intros q Hq _. apply lookup_insert_ne. intros <-. by destruct Hq.
  - intros k q. rewrite R. destruct (k =? km); [|by left]. intros [= <-]. by right.
  - intros q Hq. apply Hha. by right.
  - intros q [->|Hq]%Hha; [right|by left]. exists (HRoot km). by rewrite Hheld, decide_True.
  - done.
  - intros k Hq. unfold m'. cbn. rewrite lookup_insert_is_Some'. by right.
  - intros i. by rewrite S, S0.
Qed.

(** Tables of different holders are different pages. *)
Lemma root_inj m k km r : tables_wf m -> root_of m k = Some r -> root_of m km = Some r -> k = km.
Proof.
  intros Hwf E1 E2. destruct (Z.eqb_spec r init) as [->|Hne].
  - by rewrite (tw_init_root _ Hwf _ E1), (tw_init_root _ Hwf _ E2).
  - enough (HRoot k = HRoot km) as [= ->] by done. apply (tw_inj _ Hwf _ _ r); cbn; rewrite ?E1, ?E2; cbn;
      by rewrite (proj2 (Z.eqb_neq r init) Hne).
Qed.

Lemma root_not_sub m k km i r : tables_wf m -> root_of m k = Some r -> sub_of m km i <> Some r.
Proof.
  intros Hwf Er Es. destruct (handed_page m r Hwf (sub_handed _ _ _ _ Hwf Es)) as (_ & _ & _ & Hi & _).
  assert (HRoot k = HSub km i); [|done]. apply (tw_inj _ Hwf _ _ r); cbn; [|done]. rewrite Er. cbn.
  by rewrite (proj2 (Z.eqb_neq r init) Hi).
Qed.

Lemma sub_inj m k i k' i' q :
  tables_wf m -> sub_of m k i = Some q -> sub_of m k' i' = Some q -> k = k' /\ i = i'.
Proof.
  intros Hwf E1 E2. enough (HSub k i = HSub k' i') as [= -> ->] by done. by apply (tw_inj _ Hwf _ _ q).
Qed.

Lemma sub_own m km i q : sub_of m km i = Some q -> own_index km i = true.
Proof. unfold sub_of. by destruct (own_index km i). Qed.

Lemma sub_entry p : is_word p -> p mod PAGE_SIZE = 0 ->
  let e := Z.lor (Z.lor (Z.lor p PAGE_FLAG_USER) PAGE_FLAG_VALID) PAGE_FLAG_RW in
  is_word e /\ KM_PAGE_PHY_FROM_ENTRY e = p.
Proof.
  intros Hw Ha e. unfold KM_PAGE_PHY_FROM_ENTRY.
  assert (e = Z.lor p 7) as -> by (unfold e; by rewrite <- !Z.lor_assoc).
  destruct (entry_page p 7 Ha Hw) as (? & ? & _); [unfold PAGE_SIZE; lia|done].
Qed.

(** A table is entered in the root table. *)
Lemma install_sub_view m a km i p r l e :
  tables_wf m -> fresh m a p -> own_index km i = true -> root_of m km = Some r -> ram m !! r = Some l ->
  sub_of m km i = None -> KM_PAGE_PHY_FROM_ENTRY e = p ->
  let m' := Machine a (<[r := <[Z.to_nat i := e]> l]> (<[p := zero_page]> (ram m))) (roots m) in
  (forall k, root_of m' k = root_of m k) /\
  (forall k i', sub_of m' k i' = if decide (k = km /\ i' = i) then Some p else sub_of m k i') /\
  (forall k i' j, entry m' k i' j = if decide (k = km /\ i' = i) then word_at zero_page j else entry m k i' j).
Proof.
  intros Hwf Hf Ho Hr Hl Hno He m'. destruct (fresh_page _ _ _ Hwf Hf) as (Hw & Ha & H0 & Hi & Hk & Hh).
  assert (forall k, root_of m' k = root_of m k) as R by done.
  assert (forall q, p <> q -> r <> q -> ram m' !! q = ram m !! q) as Rm.
  { intros q H1 H2. unfold m'. cbn. by rewrite !lookup_insert_ne. }
  assert (p <> r) as Hpr. { intros ->. destruct (root_page _ _ _ Hwf Hr) as [?|?]; [done|]. by apply Hf. }
  assert (length l = 1024%nat) as Hlen by (by apply (tw_shape _ Hwf r)). pose proof (own_range _ _ Ho) as Hi'.
  assert (forall k i', sub_of m' k i' = if decide (k = km /\ i' = i) then Some p else sub_of m k i') as S.
  { intros k i'. unfold sub_of. rewrite R. destruct (own_index k i') eqn:Eo.
    2: { rewrite decide_False; [done|]. intros [-> ->]. congruence. }
    destruct (root_of m k) as [r'|] eqn:Er. 2: { rewrite decide_False; [done|]. intros [-> ->]. congruence. }
    cbn [mbind option_bind]. destruct (decide (k = km)) as [->|Hne].
    - assert (r' = r) as -> by congruence. unfold m'. cbn [ram]. rewrite lookup_insert_eq, Hl. cbn [mbind option_bind].
      rewrite word_at_insert by lia. destruct (Z.eqb_spec i i') as [<-|Hne'].
      + rewrite decide_True by done. cbn [mbind option_bind]. by rewrite He, (proj2 (Z.eqb_neq p 0) H0).
      + rewrite decide_False; [done|]. intros [_ ->]. done.
    - rewrite decide_False by (intros [? _]; done). rewrite Rm; [done| |].
      + intros <-. destruct (root_page _ _ _ Hwf Er) as [?|?]; [done|]. by apply Hf.
      + intros <-. by destruct Hne; apply (root_inj m _ _ r). }
  split_and!; [done|done|]. intros k i' j. unfold entry. rewrite S. case_decide as Ed.
  - cbn [mbind option_bind]. unfold m'. cbn [ram]. rewrite lookup_insert_ne, lookup_insert_eq by done. done.
  - destruct (sub_of m k i') as [q|] eqn:Eq; [|done]. cbn [mbind option_bind]. rewrite Rm; [done| |].
    + intros <-. by apply (Hh (HSub k i')).
    + intros <-. by apply (root_not_sub m km k i' r Hwf Hr).
Qed.

Lemma install_sub m a km i p r l e :
  tables_wf m -> fresh m a p -> own_index km i = true -> root_of m km = Some r -> ram m !! r = Some l ->
  sub_of m km i = None -> KM_PAGE_PHY_FROM_ENTRY e = p -> is_word e ->
  let m' := Machine a (<[r := <[Z.to_nat i := e]> l]> (<[p := zero_page]> (ram m))) (roots m) in
  tables_wf m' /\ grown m m' /\ sub_of m' km i = Some p.
Proof.
  intros Hwf Hf Ho Hr Hl Hno He Hew m'. pose proof (fresh_page _ _ _ Hwf Hf) as (Hw & Ha & H0 & Hi & Hk & Hh).
  destruct (install_sub_view m a km i p r l e Hwf Hf Ho Hr Hl Hno He) as (R & S & E). fold m' in R, S, E.
  assert (forall j, entry m km i j = None) as E0 by (intros j; unfold entry; by rewrite Hno).
  assert (forall h, held m' h = if decide (h = HSub km i) then Some p else held m h) as Hheld.
  { intros [k|k i'|k i' j]; cbn; rewrite ?R, ?S, ?E, ?(decide_False (P := HRoot k = _)); try done.
    - destruct (decide (k = km /\ i' = i)) as [[-> ->]|Hne]; [by rewrite decide_True|].
      rewrite decide_False; [done|]. intros [= -> ->]. by destruct Hne.
    - rewrite (decide_False (P := HFrame k i' j = _)) by done.
      destruct (decide (k = km /\ i' = i)) as [[-> ->]|Hne]; [|done]. rewrite E0.
      destruct (word_at zero_page j) as [x|] eqn:Ez; [|done]. by apply zeros_at in Ez as ->. }
  pose proof Hf as (Hpw & Hman & Hmp & Hn & Hha). destruct (tw_shape _ Hwf r l Hl) as [Hlen Hall].
  split; [|split; [constructor|by rewrite S, decide_True]].
  - apply (wf_change m m' (HSub km i) (Some p)); try done.
    + intros h q _ Hq. apply Hha. right. by apply (tw_handed _ Hwf h).
    + intros q [= <-]. split; [apply Hha; by left|]. intros h _. apply Hh.
    + intros k. rewrite R. apply (tw_init_root _ Hwf).
    + intros k. apply (tw_roots _ Hwf).
    + intros q k. unfold m'. cbn. intros [[_ <-]|[_ Hq]]%lookup_insert_Some.
      * rewrite length_insert. split; [done|by apply Forall_insert].
      * by apply (shape_insert m p zero_page Hwf (proj1 zeros_shape) (proj2 zeros_shape) q).
    + intros q Hq. unfold m'. cbn. rewrite !lookup_insert_is_Some'. by right; right.
  - intros k i' j. unfold pte. rewrite E. case_decide as Ed; [|done]. destruct Ed as [-> ->]. rewrite E0.
    destruct (word_at zero_page j) eqn:Ez; [|done]. by apply zeros_at in Ez.
  - intros h q Hq. rewrite Hheld. case_decide; [|done]. subst h. cbn in Hq. by rewrite Hno in Hq.
  - intros k i' j. by rewrite Hheld, decide_False.
  - intros q Hq Hro. unfold m'. cbn. rewrite !lookup_insert_ne; [done| |].
    + intros <-. by destruct Hq.
    + intros <-. by apply (Hro km).
  - intros k q. rewrite R. by left.
  - intros q Hq. apply Hha. by right.
  - intros q [->|Hq]%Hha; [right|by left]. exists (HSub km i). by rewrite Hheld, decide_True.
  - done.
  - done.
Qed.

(** ** Writing an entry *)

Lemma same_view_wf m m' :
  tables_wf m -> roots m' = roots m ->
  (forall p, handed (pool m) p \/ p = init -> ram m' !! p = ram m !! p) ->
  (forall p l, ram m' !! p = Some l -> length l = 1024%nat /\ Forall is_word l) ->
  (forall p, is_Some (ram m !! p) -> is_Some (ram m' !! p)) ->
  pool_wf (pool m') -> (forall q, managed (pool m') q <-> managed (pool m) q) ->
  (forall q, handed (pool m) q -> handed (pool m') q) ->
  tables_wf m' /\ (forall h, held m' h = held m h) /\ (forall km i, sub_of m' km i = sub_of m km i) /\
  (forall km i j, entry m' km i j = entry m km i j).
Proof.
  intros Hwf Hr Hram Hs Hd Hp Hm Hha. destruct (view_frame m m' Hwf Hr Hram) as (V1 & V2 & V3).
  pose proof (held_view m m' V1 V2 V3) as Hheld. split_and!; try done.
  apply (wf_change m m' (HRoot 0) (held m (HRoot 0))); try done.
  - intros h. rewrite Hheld. case_decide; by subst.
  - intros h p _ Hp'. by apply Hha, (tw_handed _ Hwf h).
  - intros p Hp'. split; [by apply Hha, (tw_handed _ Hwf (HRoot 0))|]. intros h Hne Hh'.
    by destruct Hne; apply (tw_inj _ Hwf _ _ p).
  - intros km. rewrite V1. apply (tw_init_root _ Hwf).
  - rewrite Hr. apply (tw_roots _ Hwf).
Qed.

Lemma write_leaf m a km i j q l e :
  tables_wf m -> sub_of m km i = Some q -> ram m !! q = Some l -> 0 <= j < 1024 -> is_word e ->
  pool_wf a -> (forall p, managed a p <-> managed (pool m) p) ->
  (forall h p, h <> HFrame km i j -> held m h = Some p -> handed a p) ->
  (owned e = true -> handed a (Z.land e PAGE_MASK) /\
     forall h, h <> HFrame km i j -> held m h <> Some (Z.land e PAGE_MASK)) ->
  let m' := Machine a (<[q := <[Z.to_nat j := e]> l]> (ram m)) (roots m) in
  tables_wf m' /\
  (forall k i' j', entry m' k i' j' = if decide (k = km /\ i' = i /\ j' = j) then Some e else entry m k i' j') /\
  (forall k i', sub_of m' k i' = sub_of m k i') /\
  (forall h, held m' h = if decide (h = HFrame km i j)
                         then if owned e then Some (Z.land e PAGE_MASK) else None else held m h).
Proof.
  intros Hwf Hs Hl Hj He Hpa Hm Hha Ho m'. destruct (tw_shape _ Hwf q l Hl) as [Hlen Hall].
  assert (forall p, q <> p -> ram m' !! p = ram m !! p) as Rm.
  { intros p Hne. unfold m'. cbn. by rewrite lookup_insert_ne. }
  assert (forall k, root_of m' k = root_of m k) as R by done.
  assert (forall k i', sub_of m' k i' = sub_of m k i') as S.
  { intros k i'. unfold sub_of. rewrite R. destruct (own_index k i'); [|done].
    destruct (root_of m k) as [r|] eqn:Er; [|done]. cbn [mbind option_bind]. rewrite Rm; [done|].
    intros ->. by apply (root_not_sub m k km i r Hwf Er). }
  assert (forall k i' j', entry m' k i' j' =
            if decide (k = km /\ i' = i /\ j' = j) then Some e else entry m k i' j') as E.
  { intros k i' j'. unfold entry. rewrite S. destruct (sub_of m k i') as [q'|] eqn:Eq.
    2: { rewrite decide_False; [done|]. intros (-> & -> & ->). congruence. }
    cbn [mbind option_bind]. destruct (Z.eq_dec q q') as [<-|Hne].
    - destruct (sub_inj m _ _ _ _ q Hwf Hs Eq) as [<- <-]. unfold m'. cbn [ram]. rewrite lookup_insert_eq, Hl.
      cbn [mbind option_bind]. rewrite word_at_insert by lia. destruct (Z.eqb_spec j j') as [<-|Hne].
      + by rewrite decide_True.
      + rewrite decide_False; [done|]. intros (_ & _ & ->). done.
    - rewrite Rm, decide_False; [done| |done]. intros (-> & -> & ->). congruence. }
  assert (forall h, held m' h = if decide (h = HFrame km i j)
            then if owned e then Some (Z.land e PAGE_MASK) else None else held m h) as Hheld.
  { intros [k|k i'|k i' j']; rewrite ?(decide_False (P := HRoot _ = _)), ?(decide_False (P := HSub _ _ = _)) by done;
      cbn; rewrite ?R, ?S, ?E; try done.
    destruct (decide (k = km /\ i' = i /\ j' = j)) as [(-> & -> & ->)|Hne]; [by rewrite decide_True|].
    rewrite decide_False; [done|]. intros [= -> -> ->]. by destruct Hne. }
  split_and!; try done.
  apply (wf_change m m' (HFrame km i j) (if owned e then Some (Z.land e PAGE_MASK) else None)); try done.
  - intros p. destruct (owned e); [|done]. intros [= <-]. by apply Ho.
  - intros k. rewrite R. apply (tw_init_root _ Hwf).
  - intros k. apply (tw_roots _ Hwf).
  - apply (shape_insert m); [done|by rewrite length_insert|by apply Forall_insert].
  - intros p Hp. unfold m'. cbn. rewrite lookup_insert_is_Some'. by right.
Qed.

(** ** Walking to an address *)

Lemma vid2 va : km_get_vid 2 va = va / 4194304 mod 1024.
Proof.
  unfold km_get_vid, ARCH_KM_LV2_COUNT. rewrite Z.shiftr_div_pow2 by lia. by rewrite (Z.land_ones _ 10) by lia.
Qed.

Lemma vid1 va : km_get_vid 1 va = va / 4096 mod 1024.
Proof.
  unfold km_get_vid, ARCH_KM_LV1_COUNT. rewrite Z.shiftr_div_pow2 by lia. by rewrite (Z.land_ones _ 10) by lia.
Qed.

Lemma vid1_range va : 0 <= km_get_vid 1 va < 1024.
Proof. rewrite vid1. apply Z.mod_pos_bound. lia. Qed.

Definition ctx_ok (ctx : km_walk_ctx) : Prop :=
  length (hirarch_id ctx) = 3%nat /\ length (table_base ctx) = 3%nat.

(** The walk stands on the entry of [va] in its address space. *)
Definition at_leaf (m : machine A) (ctx : km_walk_ctx) (va : Z) : Prop :=
  exists q, sub_of m (mem ctx) (km_get_vid 2 va) = Some q /\
    leaf ctx = Some (HAL_GET_BASIC_KADDRESS q, km_get_vid 1 va).

(** The allocator had no page left. *)
Definition out_of_pages (m : machine A) : Prop := exists a, page_alloc a = Ret (0, pool m).

Record walked (m : machine A) (km va : Z) (miss b : bool) (ctx : km_walk_ctx) (m' : machine A) : Prop := {
  wk_wf : tables_wf m';
  wk_grown : grown m m';
  wk_ctx : ctx_ok ctx;
  wk_mem : mem ctx = km;
  wk_va : current_virtual_address ctx = va;
  wk_miss : miss_action ctx = miss;
  wk_leaf : b = true -> at_leaf m' ctx va;
  wk_fail : b = false -> sub_of m' km (km_get_vid 2 va) = None /\ level_id ctx = Some 2 /\
              (miss = true -> out_of_pages m');
  wk_same : miss = false -> m' = m;
  wk_frame : forall p, handed (pool m) p \/ p = init -> root_of m km <> Some p -> ram m' !! p = ram m !! p
}.

(** An allocation that failed. *)
Lemma pool_changed m a :
  tables_wf m -> pool_wf a -> (forall q, managed a q <-> managed (pool m) q) ->
  (forall q, handed a q <-> handed (pool m) q) ->
  let m' := Machine a (ram m) (roots m) in
  tables_wf m' /\ grown m m' /\ forall km i, sub_of m' km i = sub_of m km i.
Proof.
  intros Hwf Hpw Hm Hh m'.
  destruct (same_view_wf m m' Hwf) as (Hwf' & Hheld & S & Ee); try done.
  { apply (tw_shape _ Hwf). } { intros q Hq. by apply Hh. }
  split_and!; try done. constructor; try done; unfold pte; intros; rewrite ?Ee, ?Hheld; try done;
    [by left|by apply Hh|left; by apply Hh].
Qed.

Lemma alloc_table_spec m : tables_wf m ->
  exists t m', km_walk_alloc_table m = Ret (t, m') /\
    ((t = 0 /\ tables_wf m' /\ grown m m' /\ out_of_pages m' /\ ram m' = ram m /\
      forall km i, sub_of m' km i = sub_of m km i) \/
     (exists a p, fresh m a p /\ t = HAL_GET_BASIC_KADDRESS p /\
        m' = Machine a (<[p := zero_page]> (ram m)) (roots m))).
Proof.
  intros Hwf. unfold km_walk_alloc_table, alloc_kerneled.
  destruct (page_alloc_spec (pool m) (tw_pool _ Hwf)) as (p & a & E & Hpw & Hm & [[-> Hh]|(Hp0 & Hpm & Hpn & Hh)]);
    rewrite E; cbn [mbind run_bind].
  - cbn [Z.eqb]. eexists _, _. split; [done|]. left. split; [done|].
    destruct (pool_changed m a Hwf Hpw Hm Hh) as (Hwf' & G & S). split_and!; try done. by exists (pool m).
  - assert (fresh m a p) as Hf by done. destruct (fresh_page m a p Hwf Hf) as (Hw & _ & _ & _ & Hk & _).
    rewrite (proj2 (Z.eqb_neq p 0) Hp0). rewrite (proj2 (Z.eqb_neq _ 0) Hk).
    eexists _, _. split; [done|]. right. exists a, p. by rewrite phys_kaddr.
Qed.

Lemma get_sub_table_spec m km r i :
  tables_wf m -> roots m !! km = Some r -> r <> 0 -> own_index km i = true ->
  km_get_sub_table m r i = Some (match sub_of m km i with Some q => HAL_GET_BASIC_KADDRESS q | None => 0 end).
Proof.
  intros Hwf Hr H0 Ho. pose proof (root_word m km r Hwf Hr H0) as Er.
  destruct (table_words m (HAL_GET_BASIC_PHYADDRESS r) Hwf) as (l & Hl & Hlen & _).
  { destruct (root_page m km _ Hwf Er); auto. }
  unfold km_get_sub_table, read_entry, sub_of. rewrite Ho, Er. cbn [mbind option_bind]. rewrite Hl. cbn [mbind option_bind].
  pose proof (own_range _ _ Ho). destruct (word_at_Some l i) as [e ->]; [lia|]. cbn [mbind option_bind].
  by destruct (KM_PAGE_PHY_FROM_ENTRY e =? 0).
Qed.

Lemma miss_sub (m : machine A) km r h1 i b0 b1 va miss :
  roots m !! km = Some r -> r <> 0 ->
  km_walk_miss m (Ctx km [2; h1; i] [b0; b1; r] va miss) = km_create_sub_table m r i.
Proof.
  intros Hr H0. unfold km_walk_miss. cbn [mem]. rewrite Hr. cbn [lift mbind run_bind].
  by rewrite (proj2 (Z.eqb_neq r 0) H0).
Qed.

Lemma create_sub_spec m km r i :
  tables_wf m -> roots m !! km = Some r -> r <> 0 -> own_index km i = true -> sub_of m km i = None ->
  exists t m', km_create_sub_table m r i = Ret (t, m') /\ tables_wf m' /\ grown m m' /\
    (forall p, handed (pool m) p \/ p = init -> root_of m km <> Some p -> ram m' !! p = ram m !! p) /\
    ((t = 0 /\ out_of_pages m' /\ sub_of m' km i = None) \/
     exists p, t = HAL_GET_BASIC_KADDRESS p /\ t <> 0 /\ sub_of m' km i = Some p).
Proof.
  intros Hwf Hr H0 Ho Es. unfold km_create_sub_table.
  destruct (alloc_table_spec m Hwf) as (t & m1 & -> & [(-> & Hwf1 & G1 & Ho1 & Hra & S1)|(a & p & Hf & -> & ->)]);
    cbn [lift mbind run_bind Z.eqb].
  { eexists 0, m1. split; [done|]. split_and!; try done; [by rewrite Hra|]. left. by rewrite S1. }
  destruct (fresh_page m a p Hwf Hf) as (Hw & Hal & Hp0 & Hpi & Hk & _). rewrite (proj2 (Z.eqb_neq _ 0) Hk), phys_kaddr by done.
  pose proof (root_word m km r Hwf Hr H0) as Er. set (rp := HAL_GET_BASIC_PHYADDRESS r) in *.
  destruct (table_words m rp Hwf) as (l & Hl & Hlen & _). { destruct (root_page m km _ Hwf Er); auto. }
  assert (p <> rp) as Hpr. { intros ->. destruct (root_page _ _ _ Hwf Er) as [?|?]; [done|]. by apply Hf. }
  unfold km_write_sub_table, write_entry. fold rp. cbn [ram pool roots]. rewrite lookup_insert_ne, Hl by done.
  cbn [lift mbind option_bind run_bind]. pose proof (own_range _ _ Ho). rewrite word_at_set by lia.
  cbn [lift mbind option_bind run_bind]. destruct (sub_entry p Hw Hal) as [Hew Hep].
  destruct (install_sub m a km i p rp l _ Hwf Hf Ho Er Hl Es Hep Hew) as (Hwf' & G & S).
  eexists _, _. split; [done|]. split_and!; try done; [|right; by exists p].
  intros q Hq Hne. cbn [ram]. rewrite !lookup_insert_ne; [done| |by intros <-].
  intros <-. destruct Hq; [by apply Hf|done].
Qed.

(** The second round, after the root table was found. *)
Lemma walk_level1 m km r va h1 b0 b1 miss :
  let i := km_get_vid 2 va in
  tables_wf m -> roots m !! km = Some r -> r <> 0 -> own_index km i = true ->
  exists b ctx' m', walk_levels 1 m (Ctx km [2; h1; i] [b0; b1; r] va miss)
      (match sub_of m km i with Some q => HAL_GET_BASIC_KADDRESS q | None => 0 end) = Ret (b, ctx', m') /\
    walked m km va miss b ctx' m'.
Proof.
  intros i Hwf Hr H0 Ho. cbn [walk_levels]. destruct (sub_of m km i) as [q|] eqn:Es.
  { destruct (handed_page m q Hwf (sub_handed _ _ _ _ Hwf Es)) as (_ & _ & _ & _ & Hk).
    rewrite (proj2 (Z.eqb_neq _ 0) Hk). cbn [mbind run_bind]. rewrite (proj2 (Z.eqb_neq _ 0) Hk).
    eexists true, _, m. split; [done|]. constructor; try done; [apply grown_refl|]. intros _. by exists q. }
  cbn [Z.eqb miss_action]. destruct miss.
  2: { cbn [mbind run_bind Z.eqb]. eexists false, _, m. split; [done|]. constructor; try done. apply grown_refl. }
  rewrite miss_sub by done.
  destruct (create_sub_spec m km r i Hwf Hr H0 Ho Es) as (t & m1 & -> & Hwf1 & G1 & Hfr & [(-> & Ho1 & S1)|(p & -> & Ht & S1)]);
    cbn [mbind run_bind]; [|rewrite (proj2 (Z.eqb_neq _ 0) Ht)].
  - eexists false, _, m1. split; [done|]. by constructor.
  - eexists true, _, m1. split; [done|]. constructor; try done. intros _. by exists p.
Qed.

(** The first round, from the root table on. *)
Lemma walk_to_unfold (m : machine A) km h0 h1 h2 t0 t1 t2 cva miss va :
  km_walk_to m (Ctx km [h0; h1; h2] [t0; t1; t2] cva miss) va =
    table ← lift (roots m !! km);
    let ctx := Ctx km [2; h1; h2] [t0; t1; t2] va miss in
    '(table, m) ← (if table =? 0 then if miss then km_walk_miss m ctx else Ret (0, m) else Ret (table, m));
    if table =? 0 then Ret (false, ctx, m) else
    sub ← lift (km_get_sub_table m table (km_get_vid 2 va));
    walk_levels 1 m (Ctx km [2; h1; km_get_vid 2 va] [t0; t1; table] va miss) sub.
Proof. reflexivity. Qed.

Lemma walk_to_spec m ctx va :
  tables_wf m -> ctx_ok ctx -> is_Some (roots m !! mem ctx) -> own_index (mem ctx) (km_get_vid 2 va) = true ->
  exists b ctx' m', km_walk_to m ctx va = Ret (b, ctx', m') /\
    walked m (mem ctx) va (miss_action ctx) b ctx' m'.
Proof.
  intros Hwf [Hh Ht] [r Hr] Ho. destruct ctx as [km h t cva miss]. cbn in Hh, Ht, Hr, Ho |- *.
  destruct h as [|h0 [|h1 [|h2 [|]]]]; try done. destruct t as [|t0 [|t1 [|t2 [|]]]]; try done.
  rewrite walk_to_unfold, Hr. cbn [lift mbind run_bind]. destruct (Z.eqb_spec r 0) as [->|H0].
  2: { cbn [mbind run_bind]. rewrite (proj2 (Z.eqb_neq r 0) H0), (get_sub_table_spec m km r) by done.
       cbn [lift mbind run_bind]. by apply walk_level1. }
  assert (sub_of m km (km_get_vid 2 va) = None) as Es by (unfold sub_of, root_of; by rewrite Ho, Hr).
  destruct miss.
  2: { cbn [mbind run_bind Z.eqb]. eexists false, _, m. split; [done|]. constructor; try done. apply grown_refl. }
  unfold km_walk_miss. cbn [mem]. rewrite Hr. cbn [lift mbind run_bind Z.eqb].
  destruct (alloc_table_spec m Hwf) as (t & m1 & -> & [(-> & Hwf1 & G1 & Ho1 & Hra & S1)|(a & p & Hf & -> & ->)]);
    cbn [lift mbind run_bind Z.eqb].
  { eexists false, _, m1. split; [done|]. constructor; try done; [|by rewrite Hra]. intros _. by rewrite S1. }
  destruct (fresh_page m a p Hwf Hf) as (Hw & Hal & Hp0 & Hpi & Hk & _). rewrite (proj2 (Z.eqb_neq _ 0) Hk).
  cbn [mbind run_bind pool ram roots]. rewrite (proj2 (Z.eqb_neq _ 0) Hk).
  destruct (install_root m a km p Hwf Hf Hr) as (Hwf1 & G1 & S1).
  rewrite (get_sub_table_spec _ km) by (done || apply lookup_insert_eq). cbn [lift mbind run_bind].
  destruct (walk_level1 _ km (HAL_GET_BASIC_KADDRESS p) va h1 t0 t1 true Hwf1) as (b & ctx' & m' & -> & Wk);
    [apply lookup_insert_eq|done|done|].
  exists b, ctx', m'. split; [done|]. destruct Wk as [? ? ? ? ? ? ? ? ? Hfr]. constructor; try done; [by apply (grown_trans _ _ _ G1)|].
  intros q Hq Hne. assert (q <> p) as Hqp by (intros ->; destruct Hq; [by apply Hf|done]).
  rewrite Hfr; [by apply lookup_insert_ne| |].
  - destruct Hq; [left; by apply (g_handed _ _ G1)|by right].
  - unfold root_of. cbn [roots]. rewrite lookup_insert_eq. cbn. rewrite (proj2 (Z.eqb_neq _ 0) Hk), phys_kaddr by done. congruence.
Qed.

(** ** The entry at the end of a walk *)

Lemma leaf_table m ctx va :
  tables_wf m -> at_leaf m ctx va ->
  exists q l, sub_of m (mem ctx) (km_get_vid 2 va) = Some q /\ ram m !! q = Some l /\ length l = 1024%nat /\
    Forall is_word l /\ leaf ctx = Some (HAL_GET_BASIC_KADDRESS q, km_get_vid 1 va) /\
    HAL_GET_BASIC_PHYADDRESS (HAL_GET_BASIC_KADDRESS q) = q.
Proof.
  intros Hwf (q & Hs & Hl). pose proof (sub_handed _ _ _ _ Hwf Hs) as Hq.
  destruct (table_words m q Hwf (or_introl Hq)) as (l & Hr & Hlen & Hw). exists q, l. split_and!; try done.
  apply phys_kaddr. by apply (handed_page m q Hwf).
Qed.

Lemma leaf_read m ctx va :
  tables_wf m -> at_leaf m ctx va ->
  km_pte_read m ctx = Some (pte m (mem ctx) (km_get_vid 2 va) (km_get_vid 1 va)) /\
  is_word (pte m (mem ctx) (km_get_vid 2 va) (km_get_vid 1 va)).
Proof.
  intros Hwf Hat. destruct (leaf_table m ctx va Hwf Hat) as (q & l & Hs & Hr & Hlen & Hw & Hl & Hp).
  unfold km_pte_read, read_entry, pte, entry. rewrite Hl. cbn [mbind option_bind]. rewrite Hp, Hs, Hr. cbn [mbind option_bind].
  rewrite Hr. cbn [mbind option_bind]. pose proof (vid1_range va). destruct (word_at_Some l (km_get_vid 1 va)) as [e He]; [lia|].
  rewrite He. split; [done|]. cbn. by apply (proj1 (Forall_forall is_word l) Hw), word_at_elem with (km_get_vid 1 va).
Qed.

(** [m'] is [m] with the entry of [va] set to [e] and the allocator [a]. *)
Record wrote (m m' : machine A) (a : A) (km va e : Z) : Prop := {
  wr_wf : tables_wf m';
  wr_pool : pool m' = a;
  wr_roots : roots m' = roots m;
  wr_pte : forall k i j, pte m' k i j = if decide (k = km /\ i = km_get_vid 2 va /\ j = km_get_vid 1 va)
                                        then e else pte m k i j;
  wr_sub : forall k i, sub_of m' k i = sub_of m k i;
  wr_held : forall h, held m' h = if decide (h = HFrame km (km_get_vid 2 va) (km_get_vid 1 va))
                                  then if owned e then Some (Z.land e PAGE_MASK) else None else held m h;
  wr_ram : forall p, sub_of m km (km_get_vid 2 va) <> Some p -> ram m' !! p = ram m !! p
}.

Lemma leaf_write m a ctx va e :
  let h0 := HFrame (mem ctx) (km_get_vid 2 va) (km_get_vid 1 va) in
  tables_wf m -> at_leaf m ctx va -> is_word e ->
  pool_wf a -> (forall p, managed a p <-> managed (pool m) p) ->
  (forall h p, h <> h0 -> held m h = Some p -> handed a p) ->
  (owned e = true -> handed a (Z.land e PAGE_MASK) /\ forall h, h <> h0 -> held m h <> Some (Z.land e PAGE_MASK)) ->
  exists m', km_pte_write_force (Machine a (ram m) (roots m)) ctx e = Some m' /\ wrote m m' a (mem ctx) va e.
Proof.
  intros h0 Hwf Hat He Hpa Hm Hha Ho. destruct (leaf_table m ctx va Hwf Hat) as (q & l & Hs & Hr & Hlen & Hw & Hl & Hp).
  unfold km_pte_write_force, write_entry. rewrite Hl. cbn [mbind option_bind pool ram roots]. rewrite Hp, Hr.
  cbn [mbind option_bind]. pose proof (vid1_range va) as Hj. rewrite word_at_set by lia. cbn [mbind option_bind].
  eexists. split; [done|].
  destruct (write_leaf m a (mem ctx) _ _ q l e Hwf Hs Hr Hj He Hpa Hm Hha Ho) as (Hwf' & E & S & Hh).
  constructor; try done.
  - intros k i j. unfold pte. rewrite E. by case_decide.
  - intros p Hne. cbn. apply lookup_insert_ne. congruence.
Qed.

Lemma pte_write_read (m : machine A) ctx x e :
  km_pte_read m ctx = Some x ->
  km_pte_write m ctx e = if x =? 0 then km_pte_write_force m ctx e else Some m.
Proof.
  unfold km_pte_write, km_pte_read. destruct (leaf ctx) as [[t i]|]; [|done]. cbn [mbind option_bind].
  intros ->. cbn [mbind option_bind]. by destruct (x =? 0).
Qed.

(** The next page: inside the table, or by a new walk. *)
Lemma pte_next_spec m ctx va :
  tables_wf m -> ctx_ok ctx -> at_leaf m ctx va -> current_virtual_address ctx = va -> is_word va ->
  is_Some (roots m !! mem ctx) -> own_index (mem ctx) (km_get_vid 2 (wrap (va + PAGE_SIZE))) = true ->
  exists b ctx' m', km_pte_next m ctx = Ret (b, ctx', m') /\
    walked m (mem ctx) (wrap (va + PAGE_SIZE)) (miss_action ctx) b ctx' m'.
Proof.
  intros Hwf Hok Hat Hva Hw Hr Ho. unfold km_pte_next. rewrite Hva.
  destruct Hat as (q & Hs & Hl). destruct Hok as [Hh Ht]. destruct ctx as [km h t cva miss]. cbn in Hh, Ht, Hva, Ho, Hs, Hr.
  cbn [mem hirarch_id table_base current_virtual_address miss_action].
  destruct h as [|h0 [|h1 [|h2 [|]]]]; try done. destruct t as [|t0 [|t1 [|t2 [|]]]]; try done.
  change (Some (t1, h1) = Some (HAL_GET_BASIC_KADDRESS q, km_get_vid 1 va)) in Hl. injection Hl as -> ->.
  change (word_at [h0; km_get_vid 1 va; h2] 1) with (Some (km_get_vid 1 va)). cbn [lift mbind run_bind].
  destruct (Z.eqb_spec (km_get_vid 1 va + 1) ARCH_KM_LV1_COUNT) as [Hlast|Hin]; cbn [negb].
  { by apply (walk_to_spec m (Ctx km _ _ _ miss)). }
  eexists true, _, m. split; [done|]. pose proof (vid1_range va) as Hj. unfold ARCH_KM_LV1_COUNT in Hin.
  assert (km_get_vid 2 (wrap (va + PAGE_SIZE)) = km_get_vid 2 va /\
          km_get_vid 1 (wrap (va + PAGE_SIZE)) = km_get_vid 1 va + 1) as [E2 E1].
  { rewrite !vid2, !vid1 in *. unfold wrap, PAGE_SIZE, is_word in *. zlia. }
  constructor; try done; [apply grown_refl|]. intros _. exists q. cbn [mem]. by rewrite E2, E1.
Qed.

(** The walk of a fresh context. *)
Lemma walk_init_spec m km va :
  tables_wf m -> is_Some (roots m !! km) -> own_index km (km_get_vid 2 va) = true ->
  exists b ctx m', km_walk_to m (KM_WALK_INIT km) va = Ret (b, ctx, m') /\ walked m km va true b ctx m'.
Proof. intros Hwf Hr Ho. by apply (walk_to_spec m (KM_WALK_INIT km) va). Qed.

End View.
