(* ===== verification/Page.v ===== *)
(** * Pages of an address space

    [source/kernel/memory/page.c] and the page functions of
    [source/kernel/arch/x86/page.c] and [include/arch/x86/arch/page.h]:
    creating, copying, sharing, mapping and releasing the pages of an address
    space.  TLB flushes have no counterpart in the model. *)

From stdpp Require Import gmap.
From S2P Require Import Prelude Vm Pa Walk.
Import VmOps PaOps WalkOps.
Local Open Scope c_scope.

Definition ARCH_KM_TOP_MOST_LEVEL : Z := 2.
Definition ARCH_KM_ENTRY_PHYSICAL_MASK : Z := w_not (PAGE_SIZE - 1).
Definition SHARE_OK : Z := 0.             (* KM_PAGE_SHARE_RESULT_OK *)
Definition SHARE_ERR : Z := 1.            (* KM_PAGE_SHARE_RESULT_ERR *)
Definition SHARE_SRC_INVALID : Z := -2.   (* KM_PAGE_SHARE_RESULT_SRC_INVALID *)

Module PageC.

Definition KE_PAGE_INVALID_PTE (pte : Z) : bool := (pte =? 0) || (Z.land pte PAGE_FLAG_VALID =? 0).
Definition KE_PAGE_PHY_FROM_PTE (pte : Z) : Z := Z.land pte ARCH_KM_ENTRY_PHYSICAL_MASK.
Definition KE_PAGE_IS_SHARED_FROM (pte : Z) : Z := Z.land pte PAGE_FLAG_FROM_OTHER.

Definition km_arch_get_flags (prot : Z) : Z :=
  let arch_flags := PAGE_FLAG_USER in
  if prot =? 0 then 0
  else if negb (Z.land prot KM_MAP_DEVICE =? 0) then
    Z.lor arch_flags (Z.lor (Z.lor (Z.lor PAGE_FLAG_VALID PAGE_FLAG_RW) PAGE_FLAG_PCD) PAGE_FLAG_PWT)
  else
    let arch_flags := if negb (Z.land prot KM_PROT_READ =? 0) then Z.lor arch_flags PAGE_FLAG_VALID
                      else arch_flags in
    if negb (Z.land prot KM_PROT_WRITE =? 0) then Z.lor arch_flags (Z.lor PAGE_FLAG_RW PAGE_FLAG_VALID)
    else arch_flags.

Section Ops.
Context {A : Type} `{PagePool A}.

(** [hal_x86_get_init_pgtable()], as a physical page. *)
Variable init : Z.

Definition set_pool (m : machine A) (a : A) : machine A := Machine a (ram m) (roots m).

Definition page_alloc_m (m : machine A) : run (Z * machine A) :=
  '(p, a) ← page_alloc (pool m); Ret (p, set_pool m a).

Definition page_dealloc_m (m : machine A) (p : Z) : option (machine A) :=
  a ← page_dealloc (pool m) p; Some (set_pool m a).

Definition delete_page (m : machine A) (ctx : km_walk_ctx) (pte : Z) : option (machine A) :=
  let phy := KE_PAGE_PHY_FROM_PTE pte in
  if KE_PAGE_INVALID_PTE pte then Some m else
  m ← (if KE_PAGE_IS_SHARED_FROM pte =? 0 then page_dealloc_m m phy else Some m);
  km_pte_clean m ctx.

(** The loop of [km_page_map_range]; [i] is a [long]. *)
Fixpoint map_loop (fuel : nat) (m : machine A) (ctx : km_walk_ctx) (i physical_address flags : Z)
  : run (bool * machine A) :=
  match fuel with
  | O => NoFuel
  | S fuel =>
    if 0 <? i then
      '(ok, ctx, m) ← km_pte_write_and_next m ctx (Z.lor physical_address flags);
      if (ok : bool) then map_loop fuel m ctx (i - PAGE_SIZE) (physical_address +w PAGE_SIZE) flags
      else Ret (false, m)
    else Ret (true, m)
  end.

Definition km_page_map_range (fuel : nat) (m : machine A) (mem_dst start_va size physical_pfn prot : Z)
  : run (bool * machine A) :=
  let physical_address := wrap (Z.shiftl physical_pfn 12) in
  '(ok, dst_ctx, m) ← km_walk_to m (KM_WALK_INIT mem_dst) start_va;
  if negb ok then Ret (false, m)
  else map_loop fuel m dst_ctx (to_int size) physical_address
         (Z.lor (km_arch_get_flags prot) PAGE_FLAG_FROM_OTHER).

Definition km_page_create (m : machine A) (mem_dst address prot : Z) : run (bool * machine A) :=
  '(ok, dst_ctx, m) ← km_walk_to m (KM_WALK_INIT mem_dst) address;
  if negb ok then Ret (false, m) else
  old ← lift (km_pte_read m dst_ctx);
  if negb (old =? 0) then Ret (false, m) else
  '(page, m) ← page_alloc_m m;
  if page =? 0 then Ret (false, m) else
  let entry := Z.lor page (km_arch_get_flags prot) in
  m ← lift (km_pte_write m dst_ctx entry);
  Ret (true, m).

(** [memcpy] of the page at a virtual address, read through its entry [pte]. *)
Definition copy_page (m : machine A) (dst_page pte : Z) : option (machine A) :=
  if KE_PAGE_INVALID_PTE pte then None else
  src ← ram m !! KE_PAGE_PHY_FROM_PTE pte;
  Some (Machine (pool m) (<[dst_page := src]> (ram m)) (roots m)).

Definition km_page_create_cow (m : machine A) (mem_dst address : Z) : run (bool * machine A) :=
  '(ok, dst_ctx, m) ← km_walk_to m (KM_WALK_INIT mem_dst) address;
  if negb ok then Ret (false, m) else
  old ← lift (km_pte_read m dst_ctx);
  if old =? 0 then Ret (false, m) else
  '(page, m) ← page_alloc_m m;
  if page =? 0 then Ret (false, m) else
  if CONFIG_HAL_KERNEL_MEM_LEN <=? page then
    m ← lift (page_dealloc_m m page); Ret (false, m)
  else
    m ← lift (copy_page m page old);
    let entry := Z.lor page (km_arch_get_flags (Z.lor KM_PROT_READ KM_PROT_WRITE)) in
    m ← lift (km_pte_write_force m dst_ctx entry);
    Ret (true, m).

(** The loop of [km_page_share]; it ends after one round. *)
Fixpoint share_loop (fuel : nat) (m : machine A) (dst_ctx src_ctx : km_walk_ctx) (i src_end prot : Z)
  : run (Z * machine A) :=
  match fuel with
  | O => NoFuel
  | S fuel =>
    if i <? src_end then
      '(pte, (ok, src_ctx, m)) ← km_pte_read_and_next m src_ctx;
      if negb ok then Ret (SHARE_ERR, m)
      else if KE_PAGE_INVALID_PTE pte then Ret (SHARE_SRC_INVALID, m) else
      let pte := Z.land pte (w_not PAGE_FLAG_MASK) in
      let pte := Z.lor pte (Z.lor (km_arch_get_flags prot) PAGE_FLAG_FROM_OTHER) in
      '(ok, dst_ctx, m) ← km_pte_write_and_next m dst_ctx pte;
      if negb ok then Ret (SHARE_ERR, m)
      else share_loop fuel m dst_ctx src_ctx (i +w PAGE_SIZE) src_end prot
    else Ret (SHARE_OK, m)
  end.

Definition km_page_share (m : machine A) (dst dst_addr src src_addr prot : Z) : run (Z * machine A) :=
  let src_end := src_addr +w PAGE_SIZE in
  '(ok, dst_ctx, m) ← km_walk_to m (KM_WALK_INIT dst) dst_addr;
  if negb ok then Ret (SHARE_ERR, m) else
  '(ok, src_ctx, m) ← km_walk_to m (KM_WALK_INIT src) src_addr;
  if negb ok then Ret (SHARE_ERR, m) else
  old ← lift (km_pte_read m dst_ctx);
  if negb (old =? 0) then Ret (SHARE_ERR, m)
  else share_loop 2 m dst_ctx src_ctx src_addr src_end prot.

Definition km_page_dealloc_range (fuel : nat) (m : machine A) (mem_dst start size : Z) : run (machine A) :=
  km_walk_loop fuel m (KM_WALK_INIT mem_dst) start size delete_page.

(** ** The root tables of x86 *)

(** [dst[i] = src[i] & ~PAGE_FLAG_USER] for [i] from [base] on, [n] times. *)
Fixpoint copy_kernel_entries (n : nat) (m : machine A) (dst base : Z) : option (machine A) :=
  match n with
  | O => Some m
  | S n =>
    e ← read_entry m (HAL_GET_BASIC_KADDRESS init) base;
    m ← write_entry m dst base (Z.land e (w_not PAGE_FLAG_USER));
    copy_kernel_entries n m dst (base + 1)
  end.

Definition copy_kernel_to_user (m : machine A) (mm_ctx base end_ : Z) : option (machine A) :=
  dst ← roots m !! mm_ctx;
  copy_kernel_entries (Z.to_nat (end_ - base)) m dst base.

Definition km_arch_copy_kernel (m : machine A) (mm_ctx address : Z) : option (machine A) :=
  let start := km_get_vid ARCH_KM_TOP_MOST_LEVEL address in
  copy_kernel_to_user m mm_ctx start (start + 1).

Definition km_page_share_kernel (m : machine A) (mem_dst virtual_address : Z) : option (machine A) :=
  km_arch_copy_kernel m mem_dst virtual_address.

Definition km_arch_ctx_init (m : machine A) (mm_ctx : Z) : option (machine A) :=
  copy_kernel_to_user m mm_ctx (HAL_GET_BASIC_KADDRESS PHYS_OFFSET / 0x400000) ARCH_KM_LV2_COUNT.

Definition km_arch_init_for_kernel (m : machine A) (mem : Z) : machine A :=
  Machine (pool m) (ram m) (<[mem := HAL_GET_BASIC_KADDRESS init]> (roots m)).

(** The part of [object_init] of a process that is about its memory. *)
Definition process_mem_init (m : machine A) (mem : Z) : run (machine A) :=
  '(_, m) ← km_walk_init m mem;
  lift (km_arch_ctx_init m mem).

End Ops.
End PageC.
Import PageC.

(** ** Flags *)

Lemma flags_range prot : 0 <= km_arch_get_flags prot < 32.
Proof.
  assert (forall b1 b2 b3 b4 : bool, 0 <= (if b1 then 0 else if b2 then 31 else
            let f := if b3 then 5 else 4 in if b4 then Z.lor f 3 else f) < 32) as Hc.
  { intros [|] [|] [|] [|]; split; vm_compute; congruence. }
  exact (Hc (prot =? 0) (negb (Z.land prot KM_MAP_DEVICE =? 0)) (negb (Z.land prot KM_PROT_READ =? 0))
           (negb (Z.land prot KM_PROT_WRITE =? 0))).
Qed.

Lemma flags_high prot : Z.testbit (km_arch_get_flags prot) 9 = false.
Proof.
  pose proof (flags_range prot). destruct (decide (km_arch_get_flags prot = 0)) as [->|]; [by rewrite Z.bits_0|].
  apply Z.bits_above_log2; [lia|]. enough (Z.log2 (km_arch_get_flags prot) < 5) by lia. apply Z.log2_lt_pow2; lia.
Qed.

(** The flags of a page that belongs to somebody else. *)
Lemma foreign_flags prot :
  let f := Z.lor (km_arch_get_flags prot) PAGE_FLAG_FROM_OTHER in 0 <= f < 4096 /\ Z.testbit f 9 = true.
Proof.
  intros f. pose proof (flags_range prot) as Hf. split.
  2: { unfold f. rewrite Z.lor_spec. change (Z.testbit PAGE_FLAG_FROM_OTHER 9) with true. apply orb_true_r. }
  enough (f = km_arch_get_flags prot + 512) by lia. unfold f, PAGE_FLAG_FROM_OTHER.
  rewrite <- Z.add_nocarry_lor; [done|]. apply Z.bits_inj'. intros i Hi. rewrite Z.land_spec, Z.bits_0.
  change 512 with (2 ^ 9). rewrite Z.pow2_bits_eqb by lia. destruct (Z.eqb_spec 9 i) as [<-|]; [|by rewrite andb_false_r].
  by rewrite flags_high.
Qed.

(** An entry of a page with the flags of a protection. *)
Lemma page_entry p prot :
  is_word p -> p mod PAGE_SIZE = 0 ->
  let e := Z.lor p (km_arch_get_flags prot) in
  is_word e /\ Z.land e PAGE_MASK = p /\ (e = 0 -> p = 0) /\
  owned e = negb (Z.land (km_arch_get_flags prot) PAGE_FLAG_VALID =? 0).
Proof.
  intros Hw Ha e. pose proof (flags_range prot) as Hf.
  destruct (entry_page p (km_arch_get_flags prot) Ha Hw) as (He & Hm & Hb); [unfold PAGE_SIZE; lia|].
  split_and!; try done.
  { by intros [E _]%Z.lor_eq_0_iff. }
  assert (forall k n, 0 <= k < 12 -> n = 2 ^ k -> Z.land e n = Z.land (km_arch_get_flags prot) n) as Hl.
  { intros k n Hk ->. apply Z.bits_inj'. intros i Hi. rewrite !Z.land_spec, Z.pow2_bits_eqb by lia.
    destruct (Z.eqb_spec k i) as [<-|]; [|by rewrite !andb_false_r]. by rewrite !andb_true_r; apply Hb. }
  unfold owned. rewrite (Hl 0), (Hl 9) by (done || lia).
  assert (Z.land (km_arch_get_flags prot) PAGE_FLAG_FROM_OTHER = 0) as ->.
  { unfold PAGE_FLAG_FROM_OTHER. change 512 with (2 ^ 9). apply Z.bits_inj'. intros i Hi.
    rewrite Z.land_spec, Z.pow2_bits_eqb, Z.bits_0 by lia. destruct (Z.eqb_spec 9 i) as [<-|]; [|by rewrite andb_false_r].
    by rewrite flags_high. }
  by rewrite andb_true_r.
Qed.

Section Facts.
Context {A : Type} `{PagePool A} {OW : Ownership}.
Variable init : Z.
Local Notation tables_wf := (tables_wf init).
Local Notation held := (held init).
Local Notation grown := (grown init).

Lemma page_alloc_m_spec (m : machine A) : tables_wf m ->
  exists p m', page_alloc_m m = Ret (p, m') /\
    ((p = 0 /\ tables_wf m' /\ grown m m' /\ out_of_pages m' /\ ram m' = ram m) \/
     (exists a, p <> 0 /\ fresh m a p /\ m' = set_pool m a)).
Proof.
  intros Hwf. unfold page_alloc_m.
  destruct (page_alloc_spec (pool m) (tw_pool _ _ Hwf)) as (p & a & E & Hpw & Hm & [[-> Hh]|(Hp0 & Hpm & Hpn & Hh)]);
    rewrite E; cbn [mbind run_bind]; eexists _, _; (split; [done|]).
  - left. destruct (pool_changed init m a Hwf Hpw Hm Hh) as (Hwf' & G & _). split_and!; try done. by exists (pool m).
  - right. by exists a.
Qed.

(** Entering a fresh page where the walk stands. *)
Lemma enter_page m a p ctx va prot :
  tables_wf m -> fresh m a p -> at_leaf m ctx va ->
  exists m', km_pte_write_force (set_pool m a) ctx (Z.lor p (km_arch_get_flags prot)) = Some m' /\
    wrote init m m' a (mem ctx) va (Z.lor p (km_arch_get_flags prot)).
Proof.
  intros Hwf Hf Hat. destruct (fresh_page init m a p Hwf Hf) as (Hw & Ha & H0 & Hi & Hk & Hh).
  destruct (page_entry p prot Hw Ha) as (He & Hm & _ & Ho). pose proof Hf as (Hpw & Hman & Hmp & Hn & Hha).
  apply (leaf_write init m a ctx va); try done.
  - intros h q _ Hq. apply Hha. right. by apply (tw_handed _ _ Hwf h).
  - intros _. rewrite Hm. split; [apply Hha; by left|]. intros h _. apply Hh.
Qed.

(** ** Creating a page *)

(** The entry of the page of an address. *)
Definition pte_at (m : machine A) (km va : Z) : Z := pte m km (km_get_vid 2 va) (km_get_vid 1 va).

(** Only the entry of one page changed, to [e]. *)
Definition only_pte (m m' : machine A) (km va e : Z) : Prop :=
  forall k i j, pte m' k i j =
    if decide (k = km /\ i = km_get_vid 2 va /\ j = km_get_vid 1 va) then e else pte m k i j.

Lemma page_create_spec m km va prot :
  tables_wf m -> is_Some (roots m !! km) -> own_index km (km_get_vid 2 va) = true ->
  exists r m', km_page_create m km va prot = Ret (r, m') /\ tables_wf m' /\
    (root_of m km <> Some init -> ram m' !! init = ram m !! init) /\
    ((r = true /\ pte_at m km va = 0 /\ exists page, managed (pool m) page /\ ~ handed (pool m) page /\
        handed (pool m') page /\ only_pte m m' km va (Z.lor page (km_arch_get_flags prot)) /\
        (forall p, handed (pool m) p -> handed (pool m') p) /\
        (forall p, handed (pool m') p -> handed (pool m) p \/ p = page \/ exists h, held m' h = Some p)) \/
     (r = false /\ grown m m' /\ (pte_at m km va <> 0 \/ out_of_pages m'))).
Proof.
  intros Hwf Hr Ho. unfold km_page_create.
  destruct (walk_init_spec init m km va Hwf Hr Ho) as (b & ctx & m1 & -> & W). cbn [mbind run_bind].
  destruct W as [Hwf1 G _ Hmem _ _ Hleaf Hfail _ Hfr]. specialize (Hfr init (or_intror eq_refl)). destruct b; cbn [negb].
  2: { exists false, m1. split; [done|]. split; [done|]. split; [done|]. right. split_and!; try done. right. by apply Hfail. }
  specialize (Hleaf eq_refl). destruct (leaf_read init m1 ctx va Hwf1 Hleaf) as [Hread _]. rewrite Hmem in Hread.
  rewrite (g_pte _ _ _ G) in Hread. fold (pte_at m km va) in Hread. rewrite Hread. cbn [lift mbind run_bind].
  destruct (Z.eqb_spec (pte_at m km va) 0) as [E0|Hne]; cbn [negb].
  2: { exists false, m1. split; [done|]. split; [done|]. split; [done|]. right. split_and!; try done. by left. }
  destruct (page_alloc_m_spec m1 Hwf1) as (page & m2 & -> & [(-> & Hwf2 & G2 & Hoom & Hra)|(a & Hp0 & Hf & ->)]);
    cbn [mbind run_bind].
  { exists false, m2. split; [done|]. split; [done|]. split; [by rewrite Hra|]. right. split_and!; [done| |by right].
    by apply (grown_trans init _ m1). }
  rewrite (proj2 (Z.eqb_neq page 0) Hp0).
  rewrite (pte_write_read (set_pool m1 a) ctx (pte_at m km va)) by (exact Hread). rewrite E0. cbn [Z.eqb].
  destruct (enter_page m1 a page ctx va prot Hwf1 Hf Hleaf) as (m' & -> & Wr). rewrite Hmem in Wr.
  cbn [lift mbind run_bind]. exists true, m'. split; [done|]. split; [by apply (wr_wf _ _ _ _ _ _ _ Wr)|].
  split.
  { intros Hri. rewrite (wr_ram _ _ _ _ _ _ _ Wr); [by apply Hfr|]. intros Hs.
    by destruct (handed_page init m1 init Hwf1 (sub_handed init _ _ _ _ Hwf1 Hs)) as (_ & _ & _ & ? & _). }
  pose proof Hf as (_ & _ & Hmp & Hn & Hha). rewrite (wr_pool _ _ _ _ _ _ _ Wr).
  left. split; [done|]. split; [done|]. exists page. split_and!.
  - by apply (g_managed _ _ _ G).
  - intros Hx. by apply Hn, (g_handed _ _ _ G).
  - apply Hha. by left.
  - intros k i j. rewrite (wr_pte _ _ _ _ _ _ _ Wr). case_decide; [done|]. apply (g_pte _ _ _ G).
  - intros p Hp. apply Hha. right. by apply (g_handed _ _ _ G).
  - intros p [->|Hp]%Hha; [by right; left|]. destruct (g_new _ _ _ G p Hp) as [|[h Hh]]; [by left|right; right].
    exists h. rewrite (wr_held _ _ _ _ _ _ _ Wr). case_decide as Ed; [|done]. subst h. exfalso.
    rewrite (g_frame _ _ _ G) in Hh. cbn in Hh. unfold pte_at, pte in E0.
    destruct (entry m km (km_get_vid 2 va) (km_get_vid 1 va)) as [e|]; [|done]. cbn in E0, Hh. by subst e.
Qed.

(** ** Copy on write *)

(** A page with data: not a root table and not free. *)
Definition data_page (m : machine A) (p : Z) : Prop :=
  is_Some (ram m !! p) /\ (handed (pool m) p \/ ~ managed (pool m) p) /\ forall km, root_of m km <> Some p.

(** A fresh page can be filled before it is entered. *)
Lemma fill_page m a p l :
  tables_wf m -> fresh m a p -> length l = 1024%nat -> Forall is_word l ->
  let m1 := Machine (pool m) (<[p := l]> (ram m)) (roots m) in
  tables_wf m1 /\ fresh m1 a p /\ (forall h, held m1 h = held m h) /\
  (forall km i, sub_of m1 km i = sub_of m km i) /\ forall km i j, pte m1 km i j = pte m km i j.
Proof.
  intros Hwf Hf Hl Hw m1. destruct (fresh_page init m a p Hwf Hf) as (_ & _ & _ & Hi & _).
  destruct (same_view_wf init m m1 Hwf) as (Hwf1 & Hh & S & E); try done.
  - intros q Hq. apply lookup_insert_ne. intros <-. destruct Hq; [|done]. by apply Hf.
  - by apply (shape_insert init m).
  - intros q Hq. unfold m1. cbn. rewrite lookup_insert_is_Some'. by right.
  - apply (tw_pool _ _ Hwf).
  - split_and!; try done. intros km i j. unfold pte. by rewrite E.
Qed.

Lemma page_cow_spec m km va :
  tables_wf m -> is_Some (roots m !! km) -> own_index km (km_get_vid 2 va) = true ->
  (pte_at m km va <> 0 -> KE_PAGE_INVALID_PTE (pte_at m km va) = false /\
     data_page m (KE_PAGE_PHY_FROM_PTE (pte_at m km va))) ->
  exists r m', km_page_create_cow m km va = Ret (r, m') /\ tables_wf m' /\
    ((r = true /\ pte_at m km va <> 0 /\ exists page, managed (pool m) page /\ ~ handed (pool m) page /\
        handed (pool m') page /\ only_pte m m' km va (Z.lor page 7) /\
        ram m' !! page = ram m !! KE_PAGE_PHY_FROM_PTE (pte_at m km va)) \/
     (r = false /\ grown m m' /\ (pte_at m km va = 0 \/ out_of_pages m'))).
Proof.
  intros Hwf Hr Ho Hdata. unfold km_page_create_cow.
  destruct (walk_init_spec init m km va Hwf Hr Ho) as (b & ctx & m1 & -> & W). cbn [mbind run_bind].
  destruct W as [Hwf1 G _ Hmem _ _ Hleaf Hfail _ _]. destruct b; cbn [negb].
  2: { exists false, m1. split; [done|]. split; [done|]. right. split_and!; try done. right. by apply Hfail. }
  specialize (Hleaf eq_refl). destruct (leaf_read init m1 ctx va Hwf1 Hleaf) as [Hread _]. rewrite Hmem in Hread.
  rewrite (g_pte _ _ _ G) in Hread. fold (pte_at m km va) in Hread. rewrite Hread. cbn [lift mbind run_bind].
  destruct (Z.eqb_spec (pte_at m km va) 0) as [E0|Hne].
  { exists false, m1. split; [done|]. split; [done|]. right. split_and!; try done. by left. }
  destruct (page_alloc_m_spec m1 Hwf1) as (page & m2 & -> & [(-> & Hwf2 & G2 & Hoom & _)|(a & Hp0 & Hf & ->)]);
    cbn [mbind run_bind].
  { exists false, m2. split; [done|]. split; [done|]. right. split_and!; [done| |by right].
    by apply (grown_trans init _ m1). }
  rewrite (proj2 (Z.eqb_neq page 0) Hp0). pose proof Hf as (_ & _ & Hmp & Hn & Hha).
  destruct (managed_page _ _ (tw_pool _ _ Hwf1) Hmp) as [Hrange _].
  rewrite (proj2 (Z.leb_gt CONFIG_HAL_KERNEL_MEM_LEN page)) by lia.
  destruct (Hdata Hne) as (Hval & [src Hsrc] & Hhm & Hro). set (old := KE_PAGE_PHY_FROM_PTE (pte_at m km va)) in *.
  pose proof (g_data _ _ _ G old Hhm Hro) as Hsame. rewrite Hsrc in Hsame.
  destruct (tw_shape _ _ Hwf1 old src Hsame) as [Hlen Hws].
  destruct (fill_page m1 a page src Hwf1 Hf Hlen Hws) as (Hwf3 & Hf3 & Hh3 & S3 & P3).
  set (m3 := Machine (pool m1) (<[page := src]> (ram m1)) (roots m1)) in *.
  unfold copy_page. rewrite Hval. fold old. cbn [ram set_pool]. rewrite Hsame. cbn [lift mbind run_bind option_bind].
  assert (at_leaf m3 ctx va) as Hleaf3.
  { destruct Hleaf as (q & Hs & Hl). exists q. by rewrite S3. }
  destruct (enter_page m3 a page ctx va (Z.lor KM_PROT_READ KM_PROT_WRITE) Hwf3 Hf3 Hleaf3) as (m' & Hw & Wr).
  change (set_pool m3 a) with (Machine a (<[page := src]> (ram m1)) (roots m1)) in Hw.
  rewrite Hmem in Wr. change (km_arch_get_flags (Z.lor KM_PROT_READ KM_PROT_WRITE)) with 7 in Hw, Wr |- *.
  cbn [set_pool pool roots]. rewrite Hw. cbn [lift mbind run_bind].
  exists true, m'. split; [done|]. split; [by apply (wr_wf _ _ _ _ _ _ _ Wr)|]. left. split; [done|]. split; [done|].
  exists page. rewrite (wr_pool _ _ _ _ _ _ _ Wr). split_and!.
  - by apply (g_managed _ _ _ G).
  - intros Hx. by apply Hn, (g_handed _ _ _ G).
  - apply Hha. by left.
  - intros k i j. rewrite (wr_pte _ _ _ _ _ _ _ Wr). case_decide; [done|]. by rewrite P3, (g_pte _ _ _ G).
  - rewrite (wr_ram _ _ _ _ _ _ _ Wr), Hsrc; [apply lookup_insert_eq|]. rewrite S3. intros Hs.
    by apply Hn, (sub_handed init m1 km (km_get_vid 2 va)).
Qed.

(** ** Entries that refer to a page of somebody else *)

Lemma foreign_entry x f :
  is_word x -> 0 <= f < 4096 -> Z.testbit f 9 = true -> is_word (Z.lor x f) /\ owned (Z.lor x f) = false.
Proof.
  intros Hx Hf Hb. split; [apply lor_is_word; [done|unfold is_word; lia]|].
  unfold owned. apply andb_false_iff. right. apply Z.eqb_neq. intros E.
  assert (Z.testbit (Z.land (Z.lor x f) PAGE_FLAG_FROM_OTHER) 9 = true) as Ht.
  { rewrite Z.land_spec, Z.lor_spec, Hb, orb_true_r. done. }
  rewrite E in Ht. by rewrite Z.bits_0 in Ht.
Qed.

(** [km_pte_write] of such an entry, and the step to the next page. *)
Lemma write_foreign m ctx va e :
  tables_wf m -> at_leaf m ctx va -> is_word e -> owned e = false ->
  exists m', km_pte_write m ctx e = Some m' /\ tables_wf m' /\ pool m' = pool m /\ roots m' = roots m /\
    (forall k i, sub_of m' k i = sub_of m k i) /\
    only_pte m m' (mem ctx) va (if pte_at m (mem ctx) va =? 0 then e else pte_at m (mem ctx) va).
Proof.
  intros Hwf Hat He Ho. destruct (leaf_read init m ctx va Hwf Hat) as [Hread _]. fold (pte_at m (mem ctx) va) in Hread.
  rewrite (pte_write_read m ctx _ e Hread). destruct (Z.eqb_spec (pte_at m (mem ctx) va) 0) as [E0|Hne].
  - destruct (leaf_write init m (pool m) ctx va e) as (m' & Hw & Wr); try done.
    + apply (tw_pool _ _ Hwf).
    + intros h p _. apply (tw_handed _ _ Hwf h).
    + by rewrite Ho.
    + exists m'. split; [by destruct m|]. destruct Wr. split_and!; try done.
  - exists m. split_and!; try done. intros k i j. case_decide as Ed; [|done]. by destruct Ed as (-> & -> & ->).
Qed.

Lemma at_leaf_grown m m' ctx va : grown m m' -> at_leaf m ctx va -> at_leaf m' ctx va.
Proof. intros G (q & Hs & Hl). exists q. split; [|done]. by apply (g_held _ _ _ G (HSub _ _)). Qed.

Definition or_old (old e : Z) : Z := if old =? 0 then e else old.

(** The context stands on the entry of its address. *)
Record standing (m : machine A) (ctx : km_walk_ctx) (km va : Z) : Prop := {
  sd_leaf : at_leaf m ctx va;
  sd_ctx : ctx_ok ctx;
  sd_mem : mem ctx = km;
  sd_va : current_virtual_address ctx = va;
  sd_word : is_word va;
  sd_root : is_Some (roots m !! km)
}.

Lemma walked_standing m km va miss ctx m' :
  walked init m km va miss true ctx m' -> is_word va -> is_Some (roots m !! km) -> standing m' ctx km va.
Proof.
  intros [Hwf G Hc Hm Hv Hmi Hl _ _ _] Hw Hr. constructor; try done; [by apply Hl|by apply (g_roots _ _ _ G)].
Qed.

Lemma write_next m ctx km va e :
  tables_wf m -> standing m ctx km va -> miss_action ctx = true ->
  own_index km (km_get_vid 2 (wrap (va + PAGE_SIZE))) = true -> is_word e -> owned e = false ->
  exists b ctx' m', km_pte_write_and_next m ctx e = Ret (b, ctx', m') /\ tables_wf m' /\ miss_action ctx' = true /\
    (b = true -> standing m' ctx' km (wrap (va + PAGE_SIZE))) /\ (b = false -> out_of_pages m') /\
    only_pte m m' km va (or_old (pte_at m km va) e) /\ (forall p, handed (pool m) p -> handed (pool m') p).
Proof.
  intros Hwf [Hat Hok Hmem Hva Hw Hr] Hmiss Hown He Ho. unfold km_pte_write_and_next.
  destruct (write_foreign m ctx va e Hwf Hat He Ho) as (m1 & -> & Hwf1 & Hp & Hro & S & O). cbn [lift mbind run_bind].
  rewrite Hmem in O. assert (at_leaf m1 ctx va) as Hat1.
  { destruct Hat as (q & Hs & Hl). exists q. by rewrite S. }
  destruct (pte_next_spec init m1 ctx va Hwf1 Hok Hat1 Hva Hw) as (b & ctx' & m' & -> & W); [by rewrite Hro, Hmem|by rewrite Hmem|].
  exists b, ctx', m'. rewrite Hmem, Hmiss in W. pose proof (wk_wf _ _ _ _ _ _ _ _ W) as Hwf'.
  pose proof (wk_grown _ _ _ _ _ _ _ _ W) as G. split_and!; try done.
  - apply (wk_miss _ _ _ _ _ _ _ _ W).
  - intros ->. apply (walked_standing m1 km _ true); [done|apply wrap_is_word|by rewrite Hro].
  - intros ->. by apply (wk_fail _ _ _ _ _ _ _ _ W).
  - intros k i j. rewrite (g_pte _ _ _ G). apply O.
  - intros p Hp'. apply (g_handed _ _ _ G). by rewrite Hp.
Qed.

(** ** Sharing a page *)

(** The entry of a shared page: the frame of the source, new flags. *)
Definition shared_entry (pte prot : Z) : Z :=
  Z.lor (Z.land pte (w_not PAGE_FLAG_MASK)) (Z.lor (km_arch_get_flags prot) PAGE_FLAG_FROM_OTHER).

Lemma shared_entry_foreign e prot : is_word e ->
  is_word (shared_entry e prot) /\ owned (shared_entry e prot) = false.
Proof.
  intros He. apply foreign_entry.
  - apply land_is_word; [done|]. vm_compute. congruence.
  - apply foreign_flags.
  - apply foreign_flags.
Qed.

(** What [km_page_share] returns and does. *)
Definition share_result (m : machine A) (dst dst_addr src src_addr prot r : Z) (m' : machine A) : Prop :=
  let e := shared_entry (pte_at m src src_addr) prot in
  (r = SHARE_OK /\ pte_at m dst dst_addr = 0 /\ KE_PAGE_INVALID_PTE (pte_at m src src_addr) = false /\
     only_pte m m' dst dst_addr e) \/
  (r = SHARE_SRC_INVALID /\ KE_PAGE_INVALID_PTE (pte_at m src src_addr) = true /\ grown m m') \/
  (r = SHARE_ERR /\ pte_at m dst dst_addr <> 0 /\ grown m m') \/
  (r = SHARE_ERR /\ out_of_pages m' /\ (grown m m' \/ only_pte m m' dst dst_addr e)).

Lemma only_pte_grown m m1 m' km va e : grown m m1 -> only_pte m1 m' km va e -> only_pte m m' km va e.
Proof. intros G O k i j. rewrite (O k i j). case_decide; [done|apply (g_pte _ _ _ G)]. Qed.

Lemma pte_at_grown m m1 km va : grown m m1 -> pte_at m1 km va = pte_at m km va.
Proof. intros G. apply (g_pte _ _ _ G). Qed.

Lemma share_result_grown m m1 dst dst_addr src src_addr prot r m' :
  grown m m1 -> share_result m1 dst dst_addr src src_addr prot r m' ->
  share_result m dst dst_addr src src_addr prot r m'.
Proof.
  intros G. unfold share_result. rewrite !(pte_at_grown m m1) by done.
  intros [(-> & H1 & H2 & H3)|[(-> & H1 & H2)|[(-> & H1 & H2)|(-> & H1 & H2)]]].
  - left. split_and!; try done. by apply (only_pte_grown m m1).
  - right; left. split_and!; try done. by apply (grown_trans init _ m1).
  - do 2 right; left. split_and!; try done. by apply (grown_trans init _ m1).
  - do 3 right. split_and!; try done.
    destruct H2; [left; by apply (grown_trans init _ m1)|right; by apply (only_pte_grown m m1)].
Qed.

Lemma standing_grown m m' ctx km va : grown m m' -> standing m ctx km va -> standing m' ctx km va.
Proof. intros G []. constructor; try done; [by apply (at_leaf_grown m)|by apply (g_roots _ _ _ G)]. Qed.

Lemma share_loop_spec m dctx sctx dst dst_addr src src_addr prot :
  tables_wf m -> standing m dctx dst dst_addr -> standing m sctx src src_addr ->
  miss_action dctx = true -> miss_action sctx = true -> pte_at m dst dst_addr = 0 ->
  own_index dst (km_get_vid 2 (wrap (dst_addr + PAGE_SIZE))) = true ->
  own_index src (km_get_vid 2 (wrap (src_addr + PAGE_SIZE))) = true ->
  wrap (src_addr + PAGE_SIZE) = src_addr + PAGE_SIZE ->
  exists r m', share_loop 2 m dctx sctx src_addr (src_addr + PAGE_SIZE) prot = Ret (r, m') /\ tables_wf m' /\
    share_result m dst dst_addr src src_addr prot r m'.
Proof.
  intros Hwf D S Hmd Hms Ed0 Hod Hos Hse. cbn [share_loop].
  rewrite (proj2 (Z.ltb_lt _ _)) by (unfold PAGE_SIZE; lia). unfold km_pte_read_and_next.
  destruct (leaf_read init m sctx src_addr Hwf (sd_leaf _ _ _ _ S)) as [Hrs Hew].
  rewrite (sd_mem _ _ _ _ S) in Hrs, Hew. fold (pte_at m src src_addr) in Hrs, Hew. rewrite Hrs. cbn [lift mbind run_bind].
  destruct (pte_next_spec init m sctx src_addr Hwf (sd_ctx _ _ _ _ S) (sd_leaf _ _ _ _ S) (sd_va _ _ _ _ S) (sd_word _ _ _ _ S))
    as (b & sctx3 & m3 & -> & W3); [rewrite (sd_mem _ _ _ _ S); apply (sd_root _ _ _ _ S)|by rewrite (sd_mem _ _ _ _ S)|].
  pose proof (wk_wf _ _ _ _ _ _ _ _ W3) as Hwf3. pose proof (wk_grown _ _ _ _ _ _ _ _ W3) as G3.
  cbn [lift mbind run_bind]. destruct b; cbn [negb].
  2: { eexists _, m3. split; [done|]. split; [done|]. do 3 right.
       split_and!; [done|by apply (wk_fail _ _ _ _ _ _ _ _ W3)|by left]. }
  destruct (KE_PAGE_INVALID_PTE (pte_at m src src_addr)) eqn:Einv.
  { eexists _, m3. split; [done|]. split; [done|]. right. left. by split_and!. }
  fold (shared_entry (pte_at m src src_addr) prot). set (e := shared_entry (pte_at m src src_addr) prot).
  destruct (shared_entry_foreign _ prot Hew) as [He Heo].
  destruct (write_next m3 dctx dst dst_addr e Hwf3 (standing_grown _ _ _ _ _ G3 D) Hmd Hod He Heo)
    as (b & dctx4 & m4 & -> & Hwf4 & _ & _ & Hf4 & O4 & _). cbn [lift mbind run_bind].
  assert (only_pte m m4 dst dst_addr e) as O.
  { apply (only_pte_grown m m3); [done|]. by rewrite (pte_at_grown m m3), Ed0 in O4. }
  destruct b; cbn [negb]; [rewrite Hse, Z.ltb_irrefl|]; eexists _, m4; (split; [done|]; split; [done|]).
  - left. by split_and!.
  - do 3 right. split_and!; [done|by apply Hf4|by right].
Qed.

Lemma page_share_spec m dst dst_addr src src_addr prot :
  tables_wf m -> is_Some (roots m !! dst) -> is_Some (roots m !! src) ->
  own_index dst (km_get_vid 2 dst_addr) = true -> own_index src (km_get_vid 2 src_addr) = true ->
  own_index dst (km_get_vid 2 (wrap (dst_addr + PAGE_SIZE))) = true ->
  own_index src (km_get_vid 2 (wrap (src_addr + PAGE_SIZE))) = true ->
  is_word dst_addr -> 0 <= src_addr <= ULONG_MAX - PAGE_SIZE ->
  exists r m', km_page_share m dst dst_addr src src_addr prot = Ret (r, m') /\ tables_wf m' /\
    share_result m dst dst_addr src src_addr prot r m'.
Proof.
  intros Hwf Hrd Hrs Hod Hos Hod' Hos' Hwd Hsa. unfold ULONG_MAX, PAGE_SIZE in Hsa.
  assert (wrap (src_addr + PAGE_SIZE) = src_addr + PAGE_SIZE) as Hse
    by (apply wrap_small; unfold is_word, PAGE_SIZE; lia).
  assert (is_word src_addr) as Hws by (unfold is_word; lia).
  unfold km_page_share. rewrite Hse.
  destruct (walk_init_spec init m dst dst_addr Hwf Hrd Hod) as (b & dctx & m1 & -> & W1). cbn [mbind run_bind].
  pose proof (wk_wf _ _ _ _ _ _ _ _ W1) as Hwf1. pose proof (wk_grown _ _ _ _ _ _ _ _ W1) as G1.
  destruct b; cbn [negb].
  2: { eexists _, m1. split; [done|]. split; [done|]. do 3 right. split_and!; [done|by apply (wk_fail _ _ _ _ _ _ _ _ W1)|by left]. }
  destruct (walk_init_spec init m1 src src_addr Hwf1 (g_roots _ _ _ G1 _ Hrs) Hos) as (b & sctx & m2 & -> & W2). cbn [mbind run_bind].
  pose proof (wk_wf _ _ _ _ _ _ _ _ W2) as Hwf2. pose proof (grown_trans init _ _ _ G1 (wk_grown _ _ _ _ _ _ _ _ W2)) as G2.
  destruct b; cbn [negb].
  2: { eexists _, m2. split; [done|]. split; [done|]. do 3 right. split_and!; [done|by apply (wk_fail _ _ _ _ _ _ _ _ W2)|by left]. }
  assert (standing m2 dctx dst dst_addr) as D.
  { apply (standing_grown m1); [apply (wk_grown _ _ _ _ _ _ _ _ W2)|]. by apply (walked_standing m _ _ true). }
  assert (standing m2 sctx src src_addr) as S by (apply (walked_standing m1 _ _ true); [done..|by apply (g_roots _ _ _ G1)]).
  destruct (leaf_read init m2 dctx dst_addr Hwf2 (sd_leaf _ _ _ _ D)) as [Hrd2 _]. rewrite (sd_mem _ _ _ _ D) in Hrd2.
  fold (pte_at m2 dst dst_addr) in Hrd2. rewrite Hrd2. cbn [lift mbind run_bind].
  destruct (Z.eqb_spec (pte_at m2 dst dst_addr) 0) as [Ed0|Hne]; cbn [negb].
  - destruct (share_loop_spec m2 dctx sctx dst dst_addr src src_addr prot Hwf2 D S) as (r & m' & E & Hwf' & R);
      try done; [apply (wk_miss _ _ _ _ _ _ _ _ W1)|apply (wk_miss _ _ _ _ _ _ _ _ W2)|].
    exists r, m'. split_and!; try done. by apply (share_result_grown m m2).
  - eexists _, m2. split; [done|]. split; [done|]. do 2 right. left. split_and!; try done.
    by rewrite (pte_at_grown m m2) in Hne.
Qed.

(** ** Mapping a range *)

(** The address of the [t]-th page from [va]. *)
Definition nth_page (va : Z) (t : nat) : Z := wrap (va + Z.of_nat t * PAGE_SIZE).

Lemma nth_page_S va t : nth_page (wrap (va + PAGE_SIZE)) t = nth_page va (S t).
Proof.
  unfold nth_page, wrap. rewrite Nat2Z.inj_succ, Zplus_mod_idemp_l. f_equal. unfold PAGE_SIZE. lia.
Qed.

Lemma nth_page_0 va : is_word va -> nth_page va 0 = va.
Proof. intros Hw. unfold nth_page. rewrite Z.mul_0_l, Z.add_0_r. by apply wrap_small. Qed.

(** Different pages have different indices. *)
Lemma nth_page_indices va s t :
  (s < t)%nat -> Z.of_nat t < 1048576 ->
  km_get_vid 2 (nth_page va s) = km_get_vid 2 (nth_page va t) ->
  km_get_vid 1 (nth_page va s) <> km_get_vid 1 (nth_page va t).
Proof.
  intros Hst Ht. rewrite !vid2, !vid1. unfold nth_page, wrap, PAGE_SIZE.
  assert (0 < Z.of_nat t - Z.of_nat s < 1048576) as Hd by lia. revert Hd.
  generalize (Z.of_nat s), (Z.of_nat t). clear. intros. zlia.
Qed.

Lemma nth_page_ne va t :
  is_word va -> Z.of_nat (S t) < 1048576 ->
  ~ (km_get_vid 2 va = km_get_vid 2 (nth_page va (S t)) /\ km_get_vid 1 va = km_get_vid 1 (nth_page va (S t))).
Proof.
  intros Hw Ht [E2 E1]. apply (nth_page_indices va 0 (S t)); rewrite ?nth_page_0; done || lia.
Qed.

(** The empty entries of [n] pages from [va] now refer to the pages from
    [phys]; other entries are as before. *)
Definition mapped (m m' : machine A) (km va : Z) (n : nat) (phys flags : Z) : Prop :=
  (forall t, (t < n)%nat -> pte_at m' km (nth_page va t) =
     or_old (pte_at m km (nth_page va t)) (Z.lor (nth_page phys t) flags)) /\
  (forall k i j, k <> km \/
     (forall t, (t < n)%nat -> ~ (i = km_get_vid 2 (nth_page va t) /\ j = km_get_vid 1 (nth_page va t))) ->
     pte m' k i j = pte m k i j).

Lemma mapped_cons m m1 m' km va n phys flags :
  is_word va -> is_word phys -> Z.of_nat (S n) < 1048576 ->
  only_pte m m1 km va (or_old (pte_at m km va) (Z.lor phys flags)) ->
  mapped m1 m' km (wrap (va + PAGE_SIZE)) n (wrap (phys + PAGE_SIZE)) flags ->
  mapped m m' km va (S n) phys flags.
Proof.
  intros Hva Hph Hn O [M1 M2]. split.
  - intros [|t] Ht.
    + rewrite !nth_page_0 by done. unfold pte_at at 1. rewrite M2; [by rewrite (O km _ _), decide_True|].
      right. intros t Hlt. rewrite nth_page_S. apply nth_page_ne; [done|lia].
    + specialize (M1 t). rewrite !nth_page_S in M1. rewrite M1 by lia. f_equal. unfold pte_at.
      rewrite (O km _ _), decide_False; [done|]. intros (_ & E2 & E1).
      by apply (nth_page_ne va t Hva); [lia|].
  - intros k i j Hk. rewrite M2.
    + rewrite (O k i j), decide_False; [done|]. intros (-> & -> & ->). destruct Hk as [|Hk]; [done|].
      apply (Hk 0%nat); [lia|]. by rewrite nth_page_0.
    + destruct Hk as [|Hk]; [by left|right]. intros t Ht. rewrite nth_page_S. apply Hk. lia.
Qed.

Lemma map_loop_spec n fuel m ctx km va i phys flags :
  tables_wf m -> standing m ctx km va -> miss_action ctx = true -> (n < fuel)%nat -> Z.of_nat n < 1048576 ->
  (Z.of_nat n - 1) * PAGE_SIZE < i <= Z.of_nat n * PAGE_SIZE ->
  (forall t, (t <= n)%nat -> own_index km (km_get_vid 2 (nth_page va t)) = true) ->
  is_word phys -> 0 <= flags < 4096 -> Z.testbit flags 9 = true ->
  exists r m', map_loop fuel m ctx i phys flags = Ret (r, m') /\ tables_wf m' /\
    ((r = true /\ mapped m m' km va n phys flags) \/ (r = false /\ out_of_pages m')).
Proof.
  revert fuel m ctx va i phys. induction n as [|n IH]; intros [|fuel] m ctx va i phys Hwf St Hmiss Hfu Hn Hi Hown Hph Hfl Hb;
    try lia; cbn [map_loop].
  { rewrite (proj2 (Z.ltb_ge 0 i)) by (unfold PAGE_SIZE in *; lia). exists true, m. split_and!; try done. left.
    split; [done|]. split; [intros; lia|done]. }
  rewrite (proj2 (Z.ltb_lt 0 i)) by (unfold PAGE_SIZE in *; lia).
  destruct (foreign_entry phys flags Hph Hfl Hb) as [He Heo].
  assert (forall t, nth_page (wrap (va + PAGE_SIZE)) t = nth_page va (S t)) as HS by (intros; apply nth_page_S).
  destruct (write_next m ctx km va (Z.lor phys flags) Hwf St Hmiss) as (b & ctx' & m1 & -> & Hwf1 & Hmi & Hst & Hf & O & _); try done.
  { specialize (Hown 1%nat). unfold nth_page in Hown. rewrite Z.mul_1_l in Hown. apply Hown. lia. }
  cbn [mbind run_bind]. destruct b.
  2: { exists false, m1. split_and!; try done. right. by auto. }
  destruct (IH fuel m1 ctx' (wrap (va + PAGE_SIZE)) (i - PAGE_SIZE) (wrap (phys + PAGE_SIZE)))
    as (r & m' & -> & Hwf' & R); try done.
  { by apply Hst. } { lia. } { lia. } { unfold PAGE_SIZE in *. lia. }
  { intros t Ht. rewrite HS. apply Hown. lia. } { apply wrap_is_word. }
  exists r, m'. split_and!; try done. destruct R as [[-> M]|R]; [left|by right]. split; [done|].
  apply (mapped_cons m m1); try done. apply (sd_word _ _ _ _ St).
Qed.

Lemma page_map_range_spec n fuel m km va size pfn prot :
  tables_wf m -> is_Some (roots m !! km) -> is_word va -> (n < fuel)%nat ->
  0 <= size < 2147483648 -> (Z.of_nat n - 1) * PAGE_SIZE < size <= Z.of_nat n * PAGE_SIZE ->
  (forall t, (t <= n)%nat -> own_index km (km_get_vid 2 (nth_page va t)) = true) ->
  exists r m', km_page_map_range fuel m km va size pfn prot = Ret (r, m') /\ tables_wf m' /\
    ((r = true /\ mapped m m' km va n (wrap (Z.shiftl pfn 12))
                    (Z.lor (km_arch_get_flags prot) PAGE_FLAG_FROM_OTHER)) \/
     (r = false /\ out_of_pages m')).
Proof.
  intros Hwf Hr Hw Hfu Hsz Hn Hown. unfold km_page_map_range.
  destruct (walk_init_spec init m km va Hwf Hr) as (b & ctx & m1 & -> & W).
  { specialize (Hown O). rewrite nth_page_0 in Hown by done. apply Hown. lia. }
  cbn [mbind run_bind]. pose proof (wk_wf _ _ _ _ _ _ _ _ W) as Hwf1. pose proof (wk_grown _ _ _ _ _ _ _ _ W) as G.
  destruct b; cbn [negb].
  2: { exists false, m1. split_and!; try done. right. split; [done|]. by apply (wk_fail _ _ _ _ _ _ _ _ W). }
  rewrite to_int_small by lia.
  destruct (map_loop_spec n fuel m1 ctx km va size (wrap (Z.shiftl pfn 12))
              (Z.lor (km_arch_get_flags prot) PAGE_FLAG_FROM_OTHER)) as (r & m' & -> & Hwf' & R); try done.
  - by apply (walked_standing m _ _ true).
  - apply (wk_miss _ _ _ _ _ _ _ _ W).
  - unfold PAGE_SIZE in *. lia.
  - apply wrap_is_word.
  - apply foreign_flags.
  - apply foreign_flags.
  - exists r, m'. split_and!; try done. destruct R as [[-> [M1 M2]]|R]; [left|by right]. split; [done|]. split.
    + intros t Ht. rewrite (M1 t Ht). by rewrite (pte_at_grown m m1).
    + intros k i j Hk. rewrite (M2 k i j Hk). apply (g_pte _ _ _ G).
Qed.

(** ** Releasing a range *)

(** What [delete_page] leaves of an entry. *)
Definition clear_entry (e : Z) : Z := if KE_PAGE_INVALID_PTE e then e else 0.

Lemma owned_valid e : owned e = true -> KE_PAGE_INVALID_PTE e = false /\ KE_PAGE_IS_SHARED_FROM e = 0.
Proof.
  unfold owned, KE_PAGE_INVALID_PTE, KE_PAGE_IS_SHARED_FROM. intros Ho. zbool.
  split; [|done]. apply orb_false_iff. split; [|by apply Z.eqb_neq]. apply Z.eqb_neq. by intros ->.
Qed.

Lemma not_owned e : owned e = false -> KE_PAGE_INVALID_PTE e = false -> KE_PAGE_IS_SHARED_FROM e <> 0.
Proof.
  unfold owned, KE_PAGE_INVALID_PTE, KE_PAGE_IS_SHARED_FROM. intros Ho [_ Hv]%orb_false_iff E.
  by rewrite Hv, E in Ho.
Qed.

Lemma delete_page_spec m ctx va :
  let e := pte_at m (mem ctx) va in
  tables_wf m -> at_leaf m ctx va ->
  exists m', delete_page m ctx e = Some m' /\ tables_wf m' /\ roots m' = roots m /\
    (forall k i, sub_of m' k i = sub_of m k i) /\ only_pte m m' (mem ctx) va (clear_entry e) /\
    (forall p, handed (pool m') p <-> handed (pool m) p /\ ~ (owned e = true /\ p = Z.land e PAGE_MASK)).
Proof.
  intros e Hwf Hat. unfold delete_page, clear_entry. destruct (KE_PAGE_INVALID_PTE e) eqn:Ei.
  { exists m. split_and!; try done.
    - intros k i j. case_decide as Ed; [|done]. by destruct Ed as (-> & -> & ->).
    - intros p. split; [|by intros [? _]]. intros Hp. split; [done|]. intros [Ho _]. apply owned_valid in Ho as [? _]. congruence. }
  set (i2 := km_get_vid 2 va) in *. set (i1 := km_get_vid 1 va) in *. destruct (owned e) eqn:Ho.
  - destruct (owned_valid e Ho) as [_ ->]. cbn [Z.eqb]. unfold page_dealloc_m.
    assert (held m (HFrame (mem ctx) i2 i1) = Some (Z.land e PAGE_MASK)) as Hh.
    { unfold e, pte_at, pte in *. cbn. fold i2 i1 in Ho |- *. destruct (entry m (mem ctx) i2 i1) as [x|]; [|done].
      cbn in *. by rewrite Ho. }
    destruct (page_dealloc_spec (pool m) (Z.land e PAGE_MASK) (tw_pool _ _ Hwf) (tw_handed _ _ Hwf _ _ Hh))
      as (a & E & Hpw & Hman & Hha).
    change (KE_PAGE_PHY_FROM_PTE e) with (Z.land e PAGE_MASK). rewrite E. cbn [mbind option_bind].
    destruct (leaf_write init m a ctx va 0 Hwf Hat) as (m' & Hw & Wr); try done.
    + intros h p Hne Hp. apply Hha. split; [|by apply (tw_handed _ _ Hwf h)]. intros ->.
      by apply Hne, (tw_inj _ _ Hwf _ _ (Z.land e PAGE_MASK)).
    + exists m'. split; [done|]. destruct Wr as [Hwf' Hp Hro Hpt Hs _ _]. split_and!; try done.
      intros p. rewrite Hp, Hha. intuition congruence.
  - rewrite (proj2 (Z.eqb_neq _ 0) (not_owned e Ho Ei)). cbn [mbind option_bind].
    destruct (leaf_write init m (pool m) ctx va 0 Hwf Hat) as (m' & Hw & Wr); try done.
    + apply (tw_pool _ _ Hwf).
    + intros h p _. apply (tw_handed _ _ Hwf h).
    + exists m'. split; [by destruct m|]. destruct Wr as [Hwf' Hp Hro Hpt Hs _ _]. split_and!; try done.
      intros p. rewrite Hp. intuition congruence.
Qed.

(** [n] pages from [va] were released: valid entries are empty, the frames the
    address space allocated are free, everything else is as before. *)
Record released (m m' : machine A) (km va : Z) (n : nat) : Prop := {
  rl_pte : forall t, (t < n)%nat -> pte_at m' km (nth_page va t) = clear_entry (pte_at m km (nth_page va t));
  rl_other : forall k i j, k <> km \/
     (forall t, (t < n)%nat -> ~ (i = km_get_vid 2 (nth_page va t) /\ j = km_get_vid 1 (nth_page va t))) ->
     pte m' k i j = pte m k i j;
  rl_free : forall p, handed (pool m') p <-> handed (pool m) p /\
     ~ exists t, (t < n)%nat /\ owned (pte_at m km (nth_page va t)) = true /\
         p = Z.land (pte_at m km (nth_page va t)) PAGE_MASK;
  rl_sub : forall k i, sub_of m' k i = sub_of m k i;
  rl_roots : roots m' = roots m
}.

Lemma released_cons m m1 m' km va n :
  is_word va -> Z.of_nat (S n) < 1048576 -> roots m1 = roots m ->
  (forall k i, sub_of m1 k i = sub_of m k i) -> only_pte m m1 km va (clear_entry (pte_at m km va)) ->
  (forall p, handed (pool m1) p <-> handed (pool m) p /\
     ~ (owned (pte_at m km va) = true /\ p = Z.land (pte_at m km va) PAGE_MASK)) ->
  released m1 m' km (wrap (va + PAGE_SIZE)) n -> released m m' km va (S n).
Proof.
  intros Hva Hn Hr1 S1 O Hh [R1 R2 R3 R4 R5].
  assert (forall t, (t < n)%nat -> pte_at m1 km (nth_page va (S t)) = pte_at m km (nth_page va (S t))) as Hrest.
  { intros t Ht. unfold pte_at. rewrite (O km _ _), decide_False; [done|]. intros (_ & E2 & E1).
    by apply (nth_page_ne va t Hva); [lia|]. }
  constructor.
  - intros [|t] Ht.
    + rewrite !nth_page_0 by done. unfold pte_at at 1. rewrite R2; [by rewrite (O km _ _), decide_True|].
      right. intros t Hlt. rewrite nth_page_S. apply nth_page_ne; [done|lia].
    + specialize (R1 t). rewrite !nth_page_S in R1. rewrite R1, Hrest by lia. done.
  - intros k i j Hk. rewrite R2.
    + rewrite (O k i j), decide_False; [done|]. intros (-> & -> & ->). destruct Hk as [|Hk]; [done|].
      apply (Hk 0%nat); [lia|]. by rewrite nth_page_0.
    + destruct Hk as [|Hk]; [by left|right]. intros t Ht. rewrite nth_page_S. apply Hk. lia.
  - intros p. rewrite R3, Hh. split.
    + intros [[Hp H0] Hn']. split; [done|]. intros ([|t] & Ht & Ho & Hpe); rewrite ?nth_page_0 in Ho, Hpe by done; [by apply H0|].
      apply Hn'. exists t. rewrite nth_page_S, Hrest by lia. split_and!; [lia|done|done].
    + intros [Hp Hn']. split_and!; [done| |].
      * intros [Ho Hpe]. apply Hn'. exists 0%nat. rewrite nth_page_0 by done. split_and!; [lia|done|done].
      * intros (t & Ht & Ho & Hpe). rewrite nth_page_S, Hrest in Ho, Hpe by lia. apply Hn'. exists (S t). split_and!; [lia|done|done].
  - intros k i. by rewrite R4, S1.
  - congruence.
Qed.

Lemma released_one m m' km va :
  is_word va -> roots m' = roots m -> (forall k i, sub_of m' k i = sub_of m k i) ->
  only_pte m m' km va (clear_entry (pte_at m km va)) ->
  (forall p, handed (pool m') p <-> handed (pool m) p /\
     ~ (owned (pte_at m km va) = true /\ p = Z.land (pte_at m km va) PAGE_MASK)) -> released m m' km va 1.
Proof.
  intros Hva Hr S O Hh. apply (released_cons m m' m'); try done. constructor; try done; try (intros; lia).
  intros p. split; [|by intros [? _]]. intros Hp. split; [done|]. by intros (t & Ht & _); lia.
Qed.

(** The tables of the first [n] pages exist; the walk ends there, because the
    range does or because the next table is missing. *)
Definition walk_end (m : machine A) (km va : Z) (n : nat) (s size : Z) : Prop :=
  (forall t, (t < n)%nat -> is_Some (sub_of m km (km_get_vid 2 (nth_page va t)))) /\
  s + (Z.of_nat n - 1) * PAGE_SIZE < size /\
  (size <= s + Z.of_nat n * PAGE_SIZE \/
   sub_of m km (km_get_vid 2 (nth_page va n)) = None /\ own_index km (km_get_vid 2 (nth_page va n)) = true).

Lemma loop_ptes_spec n fuel m ctx km va s size :
  tables_wf m -> standing m ctx km va -> miss_action ctx = false -> (n < fuel)%nat -> 0 <= s -> is_word size ->
  s + (Z.of_nat (S n)) * PAGE_SIZE < 4294967296 -> walk_end m km va (S n) s size ->
  exists ctx' m', loop_ptes fuel delete_page m ctx s size = Ret (s + Z.of_nat (S n) * PAGE_SIZE, ctx', m') /\
    tables_wf m' /\ released m m' km va (S n) /\
    (s + Z.of_nat (S n) * PAGE_SIZE < size ->
       mem ctx' = km /\ current_virtual_address ctx' = nth_page va (S n) /\ level_id ctx' = Some 2).
Proof.
  revert fuel m ctx va s. induction n as [|n IH]; intros [|fuel] m ctx va s Hwf St Hmiss Hfu Hs0 Hsz Hb (Ht & Hlt & He); try lia;
    cbn [loop_ptes]; destruct St as [Hat Hok Hmem Hva Hw Hr];
    destruct (leaf_read init m ctx va Hwf Hat) as [-> _]; cbn [lift mbind run_bind]; fold (pte_at m (mem ctx) va);
    destruct (delete_page_spec m ctx va Hwf Hat) as (m1 & -> & Hwf1 & Hr1 & S1 & O1 & H1); cbn [lift mbind run_bind];
    rewrite Hmem in O1, H1; rewrite (wrap_small (s + PAGE_SIZE)) by (unfold is_word, PAGE_SIZE in *; lia).
  - assert (released m m1 km va 1) as Rel by (by apply released_one). rewrite Z.mul_1_l in *.
    destruct (Z.ltb_spec (s + PAGE_SIZE) size) as [Hmore|Hdone].
    2: { exists ctx, m1. split_and!; try done. intros. lia. }
    destruct He as [He|[Hnone Hown]]; [lia|]. unfold nth_page in Hnone, Hown. rewrite Z.mul_1_l in Hnone, Hown.
    assert (at_leaf m1 ctx va) as Hat1. { destruct Hat as (q & Hq & Hl). exists q. by rewrite S1. }
    destruct (pte_next_spec init m1 ctx va Hwf1 Hok Hat1 Hva Hw) as (b & ctx' & m2 & -> & W); [by rewrite Hr1, Hmem|by rewrite Hmem|].
    rewrite Hmem, Hmiss in W. pose proof (wk_same _ _ _ _ _ _ _ _ W eq_refl) as ->. cbn [mbind run_bind]. destruct b.
    { destruct (wk_leaf _ _ _ _ _ _ _ _ W eq_refl) as (q & Hq & _). rewrite (wk_mem _ _ _ _ _ _ _ _ W), S1 in Hq. congruence. }
    exists ctx', m1. split_and!; try done. intros _. split_and!; [apply (wk_mem _ _ _ _ _ _ _ _ W)| |by apply (wk_fail _ _ _ _ _ _ _ _ W)].
    rewrite (wk_va _ _ _ _ _ _ _ _ W). unfold nth_page. by rewrite Z.mul_1_l.
  - rewrite (proj2 (Z.ltb_lt _ _)) by (unfold PAGE_SIZE in *; lia).
    assert (at_leaf m1 ctx va) as Hat1. { destruct Hat as (q & Hq & Hl). exists q. by rewrite S1. }
    assert (nth_page va 1 = wrap (va + PAGE_SIZE)) as N1 by (unfold nth_page; by rewrite Z.mul_1_l).
    destruct (Ht 1%nat) as [q1 Hq1]; [lia|]. rewrite N1 in Hq1.
    destruct (pte_next_spec init m1 ctx va Hwf1 Hok Hat1 Hva Hw) as (b & ctx' & m2 & -> & W);
      [by rewrite Hr1, Hmem|rewrite Hmem; by apply (sub_own m km _ q1)|].
    rewrite Hmem, Hmiss in W. pose proof (wk_same _ _ _ _ _ _ _ _ W eq_refl) as ->. cbn [mbind run_bind]. destruct b.
    2: { destruct (wk_fail _ _ _ _ _ _ _ _ W eq_refl) as [Hf _]. rewrite S1 in Hf. congruence. }
    destruct (IH fuel m1 ctx' (wrap (va + PAGE_SIZE)) (s + PAGE_SIZE)) as (ctx2 & m' & E & Hwf' & Rel & Hend); try done.
    + apply (walked_standing m1 _ _ false); [done|apply wrap_is_word|by rewrite Hr1].
    + apply (wk_miss _ _ _ _ _ _ _ _ W).
    + lia.
    + unfold PAGE_SIZE in *. lia.
    + unfold PAGE_SIZE in *. lia.
    + split_and!; [intros t Ht'; rewrite nth_page_S, S1; apply Ht; lia|unfold PAGE_SIZE in *; lia|].
      rewrite nth_page_S, S1. destruct He as [He|He]; [left; unfold PAGE_SIZE in *; lia|by right].
    + rewrite nth_page_S in Hend. replace (s + PAGE_SIZE + Z.of_nat (S n) * PAGE_SIZE) with (s + Z.of_nat (S (S n)) * PAGE_SIZE)
        in E, Hend by lia. exists ctx2, m'. split_and!; try done.
      apply (released_cons m m1); try done. unfold PAGE_SIZE in *. lia.
Qed.

(** After a walk that met a missing table the jump goes to address 0. *)
Lemma jump_top ctx :
  level_id ctx = Some 2 -> is_word (current_virtual_address ctx) ->
  exists ctx', km_walk_jump ctx = Some (wrap (0 - current_virtual_address ctx), ctx') /\
    mem ctx' = mem ctx /\ current_virtual_address ctx' = 0 /\ hirarch_id ctx' = hirarch_id ctx /\
    table_base ctx' = table_base ctx /\ miss_action ctx' = miss_action ctx.
Proof.
  intros Hl Hw. unfold km_walk_jump. rewrite Hl. cbn [mbind option_bind].
  change (wrap (km_get_sub_level_size 2 - 1)) with (Z.ones 32).
  assert (Z.lor (current_virtual_address ctx) (Z.ones 32) = Z.ones 32) as ->.
  { apply Z.bits_inj'. intros i Hi. rewrite Z.lor_spec. destruct (decide (i < 32)).
    - by rewrite Z.ones_spec_low, orb_true_r by lia.
    - by rewrite testbit_word_high by (done || lia). }
  change (wrap (Z.ones 32 + 1)) with 0. eexists. by split_and!.
Qed.

Lemma released_none (m : machine A) km va : released m m km va 0.
Proof.
  constructor; try done; try (intros; lia). intros p. split; [|by intros [? _]]. intros Hp. split; [done|].
  by intros (t & Ht & _); lia.
Qed.

(** From a missing table on nothing is done. *)
Lemma loop_stops fuel m ctx start s size :
  level_id ctx = Some 2 -> current_virtual_address ctx = start + s -> 0 < start -> 0 <= s ->
  start + size <= 4294967296 -> s < size ->
  loop_tables (S fuel) delete_page m ctx true s size = Ret m.
Proof.
  intros Hl Hv H0 Hs Hsz Hlt. cbn [loop_tables].
  destruct (jump_top ctx Hl) as (ctx' & -> & _); [rewrite Hv; unfold is_word; lia|]. cbn [lift mbind run_bind].
  assert (wrap (s + wrap (0 - current_virtual_address ctx)) = 4294967296 - start) as ->.
  { rewrite Hv. unfold wrap. zlia. }
  by rewrite (proj2 (Z.leb_le _ _)) by lia.
Qed.

Lemma page_dealloc_range_spec n fuel m km start size :
  tables_wf m -> is_Some (roots m !! km) -> own_index km (km_get_vid 2 start) = true ->
  0 < start -> 0 < size -> start + size <= 4294967296 -> Z.of_nat n * PAGE_SIZE < 4294967296 ->
  (n < fuel)%nat -> walk_end m km start n 0 size ->
  exists m', km_page_dealloc_range fuel m km start size = Ret m' /\ tables_wf m' /\ released m m' km start n.
Proof.
  intros Hwf Hr Ho H0 Hs Hend Hb Hfu He. assert (is_word start) as Hw by (unfold is_word; lia).
  unfold km_page_dealloc_range, km_walk_loop, KM_WALK_INIT. cbn [mem hirarch_id table_base current_virtual_address].
  destruct (walk_to_spec init m (Ctx km [0; 0; 0] [0; 0; 0] 0 false) start Hwf) as (b & ctx & m1 & -> & W); try done.
  cbn [mem miss_action] in W. pose proof (wk_same _ _ _ _ _ _ _ _ W eq_refl) as ->. cbn [mbind run_bind].
  destruct fuel as [|fuel]; [lia|]. destruct n as [|n].
  - destruct He as (_ & _ & [?|[Hnone _]]); [lia|]. rewrite nth_page_0 in Hnone by done. destruct b.
    { destruct (wk_leaf _ _ _ _ _ _ _ _ W eq_refl) as (q & Hq & _). rewrite (wk_mem _ _ _ _ _ _ _ _ W) in Hq. congruence. }
    cbn [negb]. rewrite (loop_stops fuel m ctx start 0); try lia.
    + exists m. split_and!; try done. apply released_none.
    + by apply (wk_fail _ _ _ _ _ _ _ _ W).
    + rewrite (wk_va _ _ _ _ _ _ _ _ W). lia.
  - pose proof He as (Ht & Hlt & Hor). destruct (Ht 0%nat) as [q Hq]; [lia|]. rewrite nth_page_0 in Hq by done.
    destruct b. 2: { destruct (wk_fail _ _ _ _ _ _ _ _ W eq_refl) as [Hf _]. congruence. }
    cbn [negb loop_tables].
    destruct (loop_ptes_spec n (S fuel) m ctx km start 0 size Hwf) as (ctx' & m' & -> & Hwf' & Rel & Hnext); try done; try lia.
    + by apply (walked_standing m _ _ false).
    + apply (wk_miss _ _ _ _ _ _ _ _ W).
    + unfold is_word. lia.
    + cbn [mbind run_bind]. destruct (Z.ltb_spec (0 + Z.of_nat (S n) * PAGE_SIZE) size) as [Hmore|_].
      2: { by exists m'. }
      destruct (Hnext Hmore) as (_ & Hv & Hl). destruct fuel as [|fuel]; [lia|].
      exists m'. split; [|by split]. apply (loop_stops fuel m' ctx' start); try done; try (unfold PAGE_SIZE; lia).
      rewrite Hv. unfold nth_page. rewrite wrap_small by (unfold is_word, PAGE_SIZE in *; lia). lia.
Qed.

(** From address 0 the jump stands still: with no table there the loop has no
    end. *)
Lemma loop_at_zero fuel m ctx size :
  tables_wf m -> ctx_ok ctx -> is_Some (roots m !! mem ctx) -> own_index (mem ctx) 0 = true ->
  sub_of m (mem ctx) 0 = None -> miss_action ctx = false -> level_id ctx = Some 2 ->
  current_virtual_address ctx = 0 -> 0 < size ->
  loop_tables fuel delete_page m ctx true 0 size = NoFuel.
Proof.
  revert ctx. induction fuel as [|fuel IH]; intros ctx Hwf Hok Hr Ho Hs Hmi Hl Hv Hsz; [done|]. cbn [loop_tables].
  destruct (jump_top ctx Hl) as (c1 & -> & Hm1 & Hv1 & Hh1 & Ht1 & Hmi1); [rewrite Hv; unfold is_word; lia|].
  cbn [lift mbind run_bind]. rewrite Hv. change (wrap (0 + wrap (0 - 0))) with 0. rewrite (proj2 (Z.leb_gt size 0)) by lia.
  rewrite Hv1. destruct (walk_to_spec init m c1 0 Hwf) as (b & c2 & m2 & -> & W).
  { unfold ctx_ok in *. by rewrite Hh1, Ht1. } { by rewrite Hm1. } { by rewrite Hm1. }
  rewrite Hm1, Hmi1, Hmi in W. pose proof (wk_same _ _ _ _ _ _ _ _ W eq_refl) as ->. cbn [mbind run_bind].
  pose proof (wk_mem _ _ _ _ _ _ _ _ W) as Hm2. destruct b.
  { destruct (wk_leaf _ _ _ _ _ _ _ _ W eq_refl) as (q & Hq & _). rewrite Hm2 in Hq. change (km_get_vid 2 0) with 0 in Hq. congruence. }
  apply IH; rewrite ?Hm2; try done.
  - apply (wk_ctx _ _ _ _ _ _ _ _ W).
  - apply (wk_miss _ _ _ _ _ _ _ _ W).
  - by apply (wk_fail _ _ _ _ _ _ _ _ W).
  - apply (wk_va _ _ _ _ _ _ _ _ W).
Qed.

Lemma page_dealloc_range_zero fuel m km size :
  tables_wf m -> is_Some (roots m !! km) -> own_index km 0 = true -> sub_of m km 0 = None -> 0 < size ->
  km_page_dealloc_range fuel m km 0 size = NoFuel.
Proof.
  intros Hwf Hr Ho Hs Hsz. unfold km_page_dealloc_range, km_walk_loop, KM_WALK_INIT.
  cbn [mem hirarch_id table_base current_virtual_address].
  destruct (walk_to_spec init m (Ctx km [0; 0; 0] [0; 0; 0] 0 false) 0 Hwf) as (b & ctx & m1 & -> & W); try done.
  cbn [mem miss_action] in W. pose proof (wk_same _ _ _ _ _ _ _ _ W eq_refl) as ->. cbn [mbind run_bind].
  pose proof (wk_mem _ _ _ _ _ _ _ _ W) as Hm. destruct b.
  { destruct (wk_leaf _ _ _ _ _ _ _ _ W eq_refl) as (q & Hq & _). rewrite Hm in Hq. change (km_get_vid 2 0) with 0 in Hq. congruence. }
  cbn [negb]. apply loop_at_zero; rewrite ?Hm; try done; [apply (wk_ctx _ _ _ _ _ _ _ _ W)|apply (wk_miss _ _ _ _ _ _ _ _ W)
    |by apply (wk_fail _ _ _ _ _ _ _ _ W)|apply (wk_va _ _ _ _ _ _ _ _ W)].
Qed.

End Facts.
