(* ===== verification/Machine.v ===== *)
(** * Page tables, physical pages and page faults together

    The page allocator of [Pa] discharges the interface [PagePool], the page
    operations of [Page] discharge the interface [PageOps] of [Fault]; with
    both the theorems about page tables hold for the allocator of the kernel,
    and a fault is followed from the section that covers the address to the
    entry of the page table. *)

From stdpp Require Import gmap.
From S2P Require Import Prelude Bits Bitmap Vm Pa Fault Walk Page.
Import BitOps BitmapOps VmOps PaOps WalkOps PageC.
Local Open Scope c_scope.

(** ** The allocator of the kernel

    [km_page_alloc] uses no fuel for one page.  All RAM is directly mapped. *)

Definition low_ram (st : km_stack) : Prop :=
  Forall (fun g => fst (fst g) < CONFIG_HAL_KERNEL_MEM_LEN / PAGE_SIZE) (geometry st).

Lemma pa_managed_page st p :
  pa_wf st /\ low_ram st -> Pa.managed st p -> 0 < p < CONFIG_HAL_KERNEL_MEM_LEN /\ p mod PAGE_SIZE = 0.
Proof.
  intros [Hwf Hlow] (i & c & b & Hc & Hb & ->). pose proof (pw_cluster _ Hwf _ _ Hc) as Hok.
  split; [|by apply page_aligned]. pose proof (co_first _ Hok). unfold page_of. rewrite (co_base _ Hok).
  assert (end_pfn c < CONFIG_HAL_KERNEL_MEM_LEN / PAGE_SIZE) as He.
  { apply (proj1 (Forall_forall _ _) Hlow (end_pfn c, usbale_count c, ram_base c)).
    unfold geometry. apply list_elem_of_fmap. exists c. split; [done|]. by apply word_at_elem with i. }
  change (CONFIG_HAL_KERNEL_MEM_LEN / PAGE_SIZE) with 262144 in He.
  unfold PAGE_SIZE, CONFIG_HAL_KERNEL_MEM_LEN. lia.
Qed.

Lemma pa_alloc st : pa_wf st /\ low_ram st ->
  exists p st', km_page_alloc 0 st = Ret (p, st') /\ (pa_wf st' /\ low_ram st') /\
    (forall q, Pa.managed st' q <-> Pa.managed st q) /\
    ((p = 0 /\ forall q, allocated st' q <-> allocated st q) \/
     (p <> 0 /\ Pa.managed st p /\ ~ allocated st p /\ forall q, allocated st' q <-> q = p \/ allocated st q)).
Proof.
  intros [Hwf Hlow]. destruct (page_alloc_cases 0 st Hwf) as (p & st' & E & Hwf' & Hc). exists p, st'.
  pose proof (page_alloc_geometry _ _ _ _ E) as G. split; [done|]. split; [split; [done|]|split].
  - unfold low_ram. by rewrite G.
  - intros q. split; by apply managed_geometry.
  - destruct Hc as [(ram & _ & [(Hp & _ & Hn & Ha)|(Hp & _ & Ha)] & _)|(Hp & _ & ->)]; [right|by left|by left].
    split_and!; try done. assert (allocated st' p) as (i & c & b & Hc & Hb & _ & ->) by (apply Ha; by left).
    apply (managed_geometry st'); [done|]. by exists i, c, b.
Qed.

Lemma pa_dealloc st p : pa_wf st /\ low_ram st -> allocated st p ->
  exists st', km_page_dealloc st p = Some st' /\ (pa_wf st' /\ low_ram st') /\
    (forall q, Pa.managed st' q <-> Pa.managed st q) /\ forall q, allocated st' q <-> q <> p /\ allocated st q.
Proof.
  intros [Hwf Hlow] (i & c & b & Hc & Hb & _ & Hp).
  destruct (page_dealloc_cases st p Hwf) as (st' & E & Hwf' & _ & Ha & _); [by exists i, c, b|].
  pose proof (page_dealloc_geometry _ _ _ E) as G. exists st'. split; [done|]. split; [split; [done|]|split; [|done]].
  - unfold low_ram. by rewrite G.
  - intros q. split; by apply managed_geometry.
Qed.

Lemma allocated_managed st p : allocated st p -> Pa.managed st p.
Proof. intros (i & c & b & Hc & Hb & _ & ->). by exists i, c, b. Qed.

#[export] Instance pa_pool : PagePool km_stack := {|
  page_alloc := km_page_alloc 0;
  page_dealloc := km_page_dealloc;
  pool_wf st := pa_wf st /\ low_ram st;
  handed := allocated;
  Walk.managed := Pa.managed;
  managed_page := pa_managed_page;
  handed_managed := allocated_managed;
  page_alloc_spec := pa_alloc;
  page_dealloc_spec := pa_dealloc
|}.

(** ** Who owns which tables

    The user half belongs to each address space; the part above the direct
    mapping belongs to the system process, 0, and the others hold copies. *)

Definition user_index (i : Z) : bool := (0 <=? i) && (i <? 512).
Definition kernel_index (i : Z) : bool := (768 <=? i) && (i <? 1024).

#[export, refine] Instance system_owns : Ownership := {|
  own_index km i := user_index i || ((km =? 0) && kernel_index i)
|}.
Proof. intros km i [E|E]%orb_true_iff; unfold user_index, kernel_index in E; zbool; lia. Defined.

(** Before an entry of the system process was copied. *)
#[refine] Definition each_owns : Ownership := {| own_index km i := user_index i || kernel_index i |}.
Proof. intros km i [E|E]%orb_true_iff; unfold user_index, kernel_index in E; zbool; lia. Defined.

(** ** The page operations of the fault handlers

    The state is the machine, or the fault or divergence of an earlier
    operation; the cache of the file system is a parameter. *)

Section Instance_.
Context {A : Type} `{PagePool A} {OW : Ownership}.
Variable init : Z.
Variable prepare_dbd : machine A -> Z -> Z -> Z -> run (Z * machine A).

Definition op {B} (d : B) (f : machine A -> run (B * machine A)) (p : run (machine A)) : B * run (machine A) :=
  match p with
  | Ret m => match f m with Ret (b, m) => (b, Ret m) | Fault => (d, Fault) | NoFuel => (d, NoFuel) end
  | Fault => (d, Fault)
  | NoFuel => (d, NoFuel)
  end.

(** [memset] of the page of a virtual address. *)
Definition clear_page (m : machine A) (km va : Z) : option (machine A) :=
  let e := pte_at m km va in
  if KE_PAGE_INVALID_PTE e then None
  else Some (Machine (pool m) (<[KE_PAGE_PHY_FROM_PTE e := zero_page]> (ram m)) (roots m)).

Definition machine_ops : PageOps (run (machine A)) := {|
  Fault.km_page_create p km va prot := op false (fun m => km_page_create m km va prot) p;
  Fault.km_page_create_cow p km va := op false (fun m => km_page_create_cow m km va) p;
  Fault.km_page_share p dst to src from prot := op SHARE_ERR (fun m => km_page_share m dst to src from prot) p;
  Fault.km_page_share_kernel p km va :=
    snd (op tt (fun m => m ← lift (km_page_share_kernel init m km va); Ret (tt, m)) p);
  page_clear p km va := snd (op tt (fun m => m ← lift (clear_page m km va); Ret (tt, m)) p);
  fss_map_prepare_dbd p file km pos := op 0 (fun m => prepare_dbd m file km pos) p
|}.
End Instance_.

(** ** A small machine

    Eight free pages of RAM; the system process has the initial table, the
    process 1 no table yet. *)

Definition sample_init : Z := 0x50000.
Definition sample_pool : km_stack :=
  Pa [Cluster 0 256 264 0x101000 (Bitmap [0] 8 0) 0 8 8 2] [Head 0 [0]] (Some 0) 0 0.
Definition sample_frames : list Z :=
  [0x101000; 0x102000; 0x103000; 0x104000; 0x105000; 0x106000; 0x107000; 0x108000].
Definition sample_machine : machine km_stack :=
  Machine sample_pool (list_to_map ((fun p => (p, zero_page)) <$> (sample_init :: sample_frames)))
    {[0 := HAL_GET_BASIC_KADDRESS sample_init; 1 := 0]}.

Lemma sample_pool_wf : pa_wf sample_pool /\ low_ram sample_pool.
Proof.
  assert (forall i c, word_at (static_clusters sample_pool) i = Some c ->
            i = 0 /\ c = Cluster 0 256 264 0x101000 (Bitmap [0] 8 0) 0 8 8 2) as Hinv.
  { intros i c H. pose proof (word_at_bound _ _ _ H) as Hb. cbn in Hb.
    assert (i = 0) as -> by lia. by injection H as <-. }
  split; [constructor|].
  - intros i c [_ ->]%Hinv. constructor; try done.
    constructor; cbn; unfold words_ok, nbits, BITS_PER_LONG, is_word; cbn; try lia.
    repeat constructor; unfold is_word; lia.
  - intros i j c d [-> _]%Hinv [-> _]%Hinv. done.
  - intros h i ->%list_elem_of_singleton ->%list_elem_of_singleton. by eexists.
  - intros i [c [-> _]%Hinv]. exists (Head 0 [0]). by split; apply list_elem_of_singleton.
  - intros i c [_ ->]%Hinv _. by eexists.
  - intros i [= <-]. by eexists.
  - repeat constructor.
Qed.

Lemma sample_ram p l : ram sample_machine !! p = Some l -> l = zero_page.
Proof.
  cbn [ram sample_machine]. intros Hl. apply elem_of_list_to_map_2 in Hl.
  apply list_elem_of_fmap in Hl as (q & Hq & _). by injection Hq as _ ->.
Qed.

Lemma sample_held {OW : Ownership} h : held sample_init sample_machine h = None.
Proof.
  assert (forall km i, sub_of sample_machine km i = None) as Hs.
  { intros km i. unfold sub_of. destruct (own_index km i); [|done]. destruct (root_of sample_machine km) as [p|]; [|done].
    cbn [mbind option_bind]. destruct (ram sample_machine !! p) as [l|] eqn:Hl; [|done]. apply sample_ram in Hl as ->.
    cbn [mbind option_bind]. destruct (word_at zero_page i) as [e|] eqn:He; [|done]. by apply zeros_at in He as ->. }
  destruct h as [km|km i|km i j]; cbn; unfold entry; rewrite ?Hs; try done.
  unfold root_of. cbn [roots sample_machine].
  destruct (decide (km = 0)) as [->|]; [by vm_compute|]. destruct (decide (km = 1)) as [->|]; [by vm_compute|].
  by rewrite lookup_insert_ne, lookup_singleton_ne.
Qed.

Lemma sample_machine_wf {OW : Ownership} : tables_wf sample_init sample_machine.
Proof.
  assert (forall p, Pa.managed sample_pool p -> p ∈ sample_frames) as Hman.
  { intros p (i & c & b & Hc & Hb & ->). pose proof (word_at_bound _ _ _ Hc) as Hbd. cbn in Hbd.
    assert (i = 0) as -> by lia. injection Hc as <-. cbn in Hb. unfold page_of. cbn [ram_base].
    assert (b = 0 \/ b = 1 \/ b = 2 \/ b = 3 \/ b = 4 \/ b = 5 \/ b = 6 \/ b = 7) as Hcase by lia.
    unfold sample_frames, PAGE_SIZE. rewrite !elem_of_cons. lia. }
  constructor.
  - apply sample_pool_wf.
  - intros Hm%Hman. unfold sample_init, sample_frames in Hm. rewrite !elem_of_cons, elem_of_nil in Hm. lia.
  - done.
  - intros km. unfold root_of. cbn [roots sample_machine].
    destruct (decide (km = 0)) as [->|]; [done|]. destruct (decide (km = 1)) as [->|]; [by vm_compute|].
    by rewrite lookup_insert_ne, lookup_singleton_ne.
  - intros km r. cbn [roots sample_machine].
    intros [[_ <-]|[_ [_ <-]%lookup_singleton_Some]]%lookup_insert_Some; [apply wrap_is_word|done].
  - intros p l ->%sample_ram. apply zeros_shape.
  - intros p Hp. assert (p ∈ sample_init :: sample_frames) as Hin.
    { destruct Hp as [Hp%Hman| ->]; [by apply list_elem_of_further|by apply list_elem_of_here]. }
    unfold sample_machine, sample_init, sample_frames in *. rewrite !elem_of_cons, elem_of_nil in Hin.
    destruct Hin as [->|[->|[->|[->|[->|[->|[->|[->|[->|[]]]]]]]]]]; cbn [fmap list_fmap list_to_map foldr ram fst snd];
      by eexists; repeat (rewrite lookup_insert_eq || rewrite lookup_insert_ne by done).
  - intros h p. by rewrite sample_held.
  - intros h h' p. by rewrite sample_held.
Qed.

(** ** Theorems *)

Section Theorems.
Context {A : Type} `{PagePool A} {OW : Ownership}.
Variable init : Z.
Local Notation tables_wf := (tables_wf init).
Local Notation grown := (grown init).
Local Notation held := (held init).

(** A walk to an address whose table belongs to the address space returns.
    It may add tables and changes no entry, no frame and no page with data;
    each page it took from the allocator is held as a table.  When it succeeds
    the entry it stands on is the entry of the address; when it fails there is
    no table and the allocator had no page left. *)
Theorem km_walk_to_correct m km va :
  tables_wf m -> is_Some (roots m !! km) -> own_index km (km_get_vid 2 va) = true ->
  exists b ctx m', km_walk_to m (KM_WALK_INIT km) va = Ret (b, ctx, m') /\ tables_wf m' /\ grown m m' /\
    (b = true -> km_pte_read m' ctx = Some (pte_at m km va)) /\
    (b = false -> sub_of m' km (km_get_vid 2 va) = None /\ out_of_pages m').
Proof.
  intros Hwf Hr Ho. destruct (walk_init_spec init m km va Hwf Hr Ho) as (b & ctx & m' & -> & W).
  exists b, ctx, m'. destruct W as [Hwf' G _ Hmem _ _ Hl Hf _ _]. split_and!; try done.
  - intros Hb. destruct (leaf_read init m' ctx va Hwf' (Hl Hb)) as [-> _]. by rewrite Hmem, (g_pte _ _ _ G).
  - intros Hb. destruct (Hf Hb) as (? & _ & ?). by auto.
Qed.

(** [km_page_create] returns.  It returns true exactly when the entry was
    empty and a page could be allocated: a page that was free is handed out,
    the entry refers to it with the flags of the protection, and no other
    entry of any address space changes; pages handed out besides it are held as
    tables.  Otherwise only tables were added. *)
Theorem km_page_create_correct m km va prot :
  tables_wf m -> is_Some (roots m !! km) -> own_index km (km_get_vid 2 va) = true ->
  exists r m', km_page_create m km va prot = Ret (r, m') /\ tables_wf m' /\
    ((r = true /\ pte_at m km va = 0 /\ exists page, managed (pool m) page /\ ~ handed (pool m) page /\
        handed (pool m') page /\ only_pte m m' km va (Z.lor page (km_arch_get_flags prot)) /\
        (forall p, handed (pool m) p -> handed (pool m') p) /\
        (forall p, handed (pool m') p -> handed (pool m) p \/ p = page \/ exists h, held m' h = Some p)) \/
     (r = false /\ grown m m' /\ (pte_at m km va <> 0 \/ out_of_pages m'))).
Proof.
  intros Hwf Hr Ho. destruct (page_create_spec init m km va prot Hwf Hr Ho) as (r & m' & E & Hwf' & _ & R).
  by exists r, m'.
Qed.

(** [km_page_create_cow] of a page that is mapped replaces its frame by a
    page that was free, with the same contents and writable; no other entry
    changes.  It fails when the entry is empty or no page is left. *)
Theorem km_page_create_cow_correct m km va :
  tables_wf m -> is_Some (roots m !! km) -> own_index km (km_get_vid 2 va) = true ->
  (pte_at m km va <> 0 -> KE_PAGE_INVALID_PTE (pte_at m km va) = false /\
     data_page m (KE_PAGE_PHY_FROM_PTE (pte_at m km va))) ->
  exists r m', km_page_create_cow m km va = Ret (r, m') /\ tables_wf m' /\
    ((r = true /\ pte_at m km va <> 0 /\ exists page, managed (pool m) page /\ ~ handed (pool m) page /\
        handed (pool m') page /\ only_pte m m' km va (Z.lor page 7) /\
        ram m' !! page = ram m !! KE_PAGE_PHY_FROM_PTE (pte_at m km va)) \/
     (r = false /\ grown m m' /\ (pte_at m km va = 0 \/ out_of_pages m'))).
Proof. apply page_cow_spec. Qed.

(** [km_page_share] enters the frame of the source page, with new flags
    and marked as foreign, in the empty entry of the destination, and changes
    no other entry; an invalid source entry or a used destination entry changes
    no entry.  When no table can be allocated it returns an error, and the
    entry may have been written already. *)
Theorem km_page_share_correct m dst dst_addr src src_addr prot :
  tables_wf m -> is_Some (roots m !! dst) -> is_Some (roots m !! src) ->
  own_index dst (km_get_vid 2 dst_addr) = true -> own_index src (km_get_vid 2 src_addr) = true ->
  own_index dst (km_get_vid 2 (wrap (dst_addr + PAGE_SIZE))) = true ->
  own_index src (km_get_vid 2 (wrap (src_addr + PAGE_SIZE))) = true ->
  is_word dst_addr -> 0 <= src_addr <= ULONG_MAX - PAGE_SIZE ->
  exists r m', km_page_share m dst dst_addr src src_addr prot = Ret (r, m') /\ tables_wf m' /\
    share_result init m dst dst_addr src src_addr prot r m'.
Proof. apply page_share_spec. Qed.

(** [km_page_map_range] of [n] pages below 2 GB returns.  If it returns
    true every entry of the range that was empty refers to its physical page
    with the flags, one that was not empty is as before, and no entry outside
    the range changes; false means that no page was left for a table. *)
Theorem km_page_map_range_correct n fuel m km va size pfn prot :
  tables_wf m -> is_Some (roots m !! km) -> is_word va -> (n < fuel)%nat ->
  0 <= size < 2147483648 -> (Z.of_nat n - 1) * PAGE_SIZE < size <= Z.of_nat n * PAGE_SIZE ->
  (forall t, (t <= n)%nat -> own_index km (km_get_vid 2 (nth_page va t)) = true) ->
  exists r m', km_page_map_range fuel m km va size pfn prot = Ret (r, m') /\ tables_wf m' /\
    ((r = true /\ mapped m m' km va n (wrap (Z.shiftl pfn 12))
                    (Z.lor (km_arch_get_flags prot) PAGE_FLAG_FROM_OTHER)) \/
     (r = false /\ out_of_pages m')).
Proof. apply page_map_range_spec. Qed.

(** [km_page_dealloc_range] terminates; let [n] pages of the range be
    before its end and before the first missing table.  Exactly their valid
    entries are emptied and exactly their frames that the address space
    allocated become free: after a missing table, nothing is released. *)
Theorem km_page_dealloc_range_correct n fuel m km start size :
  tables_wf m -> is_Some (roots m !! km) -> own_index km (km_get_vid 2 start) = true ->
  0 < start -> 0 < size -> start + size <= 4294967296 -> Z.of_nat n * PAGE_SIZE < 4294967296 ->
  (n < fuel)%nat -> walk_end m km start n 0 size ->
  exists m', km_page_dealloc_range fuel m km start size = Ret m' /\ tables_wf m' /\ released m m' km start n.
Proof. apply page_dealloc_range_spec. Qed.

(** C3: a fault on a missing page of private memory or a stack.  It is
    resolved exactly when the page is not there yet and a page is left: then
    the entry of the fault address, and no other entry of any address space,
    refers to a page that was free, with the protection of the section that
    covers the address. *)
Theorem private_fault_maps prep mem procs exe fp fuel m thread va code ks s :
  tables_wf m -> is_Some (roots m !! thread) -> own_index thread (km_get_vid 2 va) = true ->
  faultable mem (procs thread) -> ks ∈ vm_list (procs thread) -> mem !! ks = Some s ->
  covers (rd_node mem) ks va -> Z.land code PAGE_FAULT_P = 0 ->
  Z.land (type s) KS_TYPE_MASK = KS_TYPE_PRIVATE \/ Z.land (type s) KS_TYPE_MASK = KS_TYPE_STACK ->
  exists r m', ks_exception (H := machine_ops init prep) mem procs exe fp (S fuel) ks_exception_init
      (Ret m) thread va code = Ret (r, Ret m') /\ tables_wf m' /\
    ((r = true /\ pte_at m thread va = 0 /\ exists page, managed (pool m) page /\ ~ handed (pool m) page /\
        handed (pool m') page /\ only_pte m m' thread va (Z.lor page (km_arch_get_flags (prot s)))) \/
     (r = false /\ grown m m' /\ (pte_at m thread va <> 0 \/ out_of_pages m'))).
Proof.
  intros Hwf Hr Ho Hf Hin Hs Hc Hcode Ht.
  rewrite (ks_exception_private (H := machine_ops init prep) _ _ _ _ _ _ _ _ _ ks s Hf Hin Hs Hc Ht), Hcode. cbn [Z.eqb].
  destruct (page_create_spec init m thread va (prot s) Hwf Hr Ho) as (r & m' & E & Hwf' & _ & R).
  exists r, m'. split; [cbn; by rewrite E|]. split; [done|].
  destruct R as [(-> & H1 & page & H2 & H3 & H4 & H5 & _)|R]; [left|by right]. split_and!; try done. by exists page.
Qed.

(** The root entry of a process is replaced by the one of the kernel. *)
Lemma copy_kernel_drops m km va r l e :
  tables_wf m -> roots m !! km = Some r -> r <> 0 -> root_of m km <> Some init ->
  ram m !! init = Some l -> word_at l (km_get_vid 2 va) = Some e -> KM_PAGE_PHY_FROM_ENTRY e = 0 ->
  own_index km (km_get_vid 2 va) = true ->
  exists m', km_page_share_kernel init m km va = Some m' /\ pool m' = pool m /\
    sub_of m' km (km_get_vid 2 va) = None /\
    (forall k i, (k, i) <> (km, km_get_vid 2 va) -> sub_of m' k i = sub_of m k i) /\
    (forall p, root_of m km <> Some p -> ram m' !! p = ram m !! p) /\ forall k, root_of m' k = root_of m k.
Proof.
  intros Hwf Hr Hr0 Hri Hl He He0 Ho. pose proof (root_word init m km r Hwf Hr Hr0) as Hrw.
  set (i := km_get_vid 2 va) in *. set (rp := HAL_GET_BASIC_PHYADDRESS r) in *.
  destruct (table_words init m rp Hwf) as (lr & Hlr & Hlen & _); [destruct (root_page init m km _ Hwf Hrw); auto|].
  pose proof (own_range km i Ho) as Hi. unfold km_page_share_kernel, km_arch_copy_kernel, copy_kernel_to_user.
  change (km_get_vid ARCH_KM_TOP_MOST_LEVEL va) with i. rewrite Hr. cbn [mbind option_bind].
  replace (i + 1 - i) with 1 by lia. change (Z.to_nat 1) with 1%nat. cbn [copy_kernel_entries].
  unfold read_entry, write_entry. rewrite phys_kaddr by apply (tw_init_word _ _ Hwf). rewrite Hl. cbn [mbind option_bind].
  rewrite He. cbn [mbind option_bind]. fold rp. rewrite Hlr. cbn [mbind option_bind]. rewrite word_at_set by lia.
  cbn [mbind option_bind]. eexists. split; [done|]. split; [done|].
  assert (KM_PAGE_PHY_FROM_ENTRY (Z.land e (w_not PAGE_FLAG_USER)) = 0) as Hz.
  { unfold KM_PAGE_PHY_FROM_ENTRY in *. rewrite <- Z.land_assoc, (Z.land_comm (w_not PAGE_FLAG_USER)), Z.land_assoc, He0. done. }
  split_and!; try done.
  - unfold sub_of. rewrite Ho. unfold root_of in *. cbn [roots ram]. rewrite Hrw. cbn [mbind option_bind].
    rewrite lookup_insert_eq. cbn [mbind option_bind]. rewrite word_at_insert, Z.eqb_refl by lia. cbn [mbind option_bind].
    by rewrite Hz.
  - intros k i' Hne. unfold sub_of. destruct (own_index k i') eqn:Eo; [|done].
    change (root_of (Machine _ _ (roots m)) k) with (root_of m k). destruct (root_of m k) as [q|] eqn:Eq; [|done].
    cbn [mbind option_bind ram]. destruct (Z.eq_dec rp q) as [<-|Hn]; [|by rewrite lookup_insert_ne].
    assert (k = km) as -> by (by apply (root_inj init m k km rp)). rewrite lookup_insert_eq, Hlr. cbn [mbind option_bind].
    rewrite word_at_insert by lia. destruct (Z.eqb_spec i i') as [<-|]; [|done]. by destruct Hne.
  - intros p Hp. cbn [ram]. apply lookup_insert_ne. congruence.
Qed.

End Theorems.

Lemma km_walk_to_witness :
  exists b ctx m', km_walk_to sample_machine (KM_WALK_INIT 1) 0x400000 = Ret (b, ctx, m') /\
    tables_wf sample_init m' /\ grown sample_init sample_machine m' /\
    (b = true -> km_pte_read m' ctx = Some (pte_at sample_machine 1 0x400000)) /\
    (b = false -> sub_of m' 1 (km_get_vid 2 0x400000) = None /\ out_of_pages m').
Proof. apply (km_walk_to_correct sample_init sample_machine 1 0x400000 sample_machine_wf); [by eexists|done]. Defined.

Lemma km_page_create_witness :
  exists r m', km_page_create sample_machine 1 0x400000 3 = Ret (r, m') /\ tables_wf sample_init m' /\
    ((r = true /\ pte_at sample_machine 1 0x400000 = 0 /\ exists page, managed (pool sample_machine) page /\
        ~ handed (pool sample_machine) page /\
        handed (pool m') page /\ only_pte sample_machine m' 1 0x400000 (Z.lor page (km_arch_get_flags 3)) /\
        (forall p, handed (pool sample_machine) p -> handed (pool m') p) /\
        (forall p, handed (pool m') p -> handed (pool sample_machine) p \/ p = page \/
           exists h, held sample_init m' h = Some p)) \/
     (r = false /\ grown sample_init sample_machine m' /\
      (pte_at sample_machine 1 0x400000 <> 0 \/ out_of_pages m'))).
Proof. apply (km_page_create_correct sample_init sample_machine 1 0x400000 3 sample_machine_wf); [by eexists|done]. Defined.

Lemma km_page_create_cow_witness :
  exists r m', km_page_create_cow sample_machine 1 0x400000 = Ret (r, m') /\ tables_wf sample_init m' /\
    ((r = true /\ pte_at sample_machine 1 0x400000 <> 0 /\ exists page, managed (pool sample_machine) page /\
        ~ handed (pool sample_machine) page /\ handed (pool m') page /\
        only_pte sample_machine m' 1 0x400000 (Z.lor page 7) /\
        ram m' !! page = ram sample_machine !! KE_PAGE_PHY_FROM_PTE (pte_at sample_machine 1 0x400000)) \/
     (r = false /\ grown sample_init sample_machine m' /\
      (pte_at sample_machine 1 0x400000 = 0 \/ out_of_pages m'))).
Proof.
  apply (km_page_create_cow_correct sample_init sample_machine 1 0x400000 sample_machine_wf); [by eexists|done|].
  intros Hne. destruct Hne. by vm_compute.
Defined.

Lemma km_page_share_witness :
  exists r m', km_page_share sample_machine 1 0x400000 0 0xC0000000 1 = Ret (r, m') /\ tables_wf sample_init m' /\
    share_result sample_init sample_machine 1 0x400000 0 0xC0000000 1 r m'.
Proof.
  apply (km_page_share_correct sample_init sample_machine 1 0x400000 0 0xC0000000 1 sample_machine_wf);
    try (by eexists); try done; unfold is_word, ULONG_MAX, PAGE_SIZE; lia.
Defined.

Lemma km_page_map_range_witness :
  exists r m', km_page_map_range 3 sample_machine 0 0xC0000000 0x2000 0xE0000 0x10000 = Ret (r, m') /\
    tables_wf sample_init m' /\
    ((r = true /\ mapped sample_machine m' 0 0xC0000000 2 (wrap (Z.shiftl 0xE0000 12))
                    (Z.lor (km_arch_get_flags 0x10000) PAGE_FLAG_FROM_OTHER)) \/
     (r = false /\ out_of_pages m')).
Proof.
  apply (km_page_map_range_correct sample_init 2 3 sample_machine 0 0xC0000000 0x2000 0xE0000 0x10000 sample_machine_wf);
    try (by eexists); try lia; try (unfold is_word, PAGE_SIZE; lia).
  intros [|[|[|t]]] Ht; [done|done|done|lia].
Defined.

(** The machine after the process 1 got a page. *)
Definition sample_mapped : machine km_stack :=
  match km_page_create sample_machine 1 0x400000 3 with Ret (_, m) => m | _ => sample_machine end.

Lemma sample_mapped_wf {OW : Ownership} :
  own_index 1 1 = true -> tables_wf sample_init sample_mapped.
Proof.
  intros Ho. destruct (page_create_spec sample_init sample_machine 1 0x400000 3 sample_machine_wf) as (r & m & E & Hwf & _);
    [by eexists|exact Ho|]. unfold sample_mapped. by rewrite E.
Qed.

Lemma km_page_dealloc_range_witness :
  exists m', km_page_dealloc_range 2 sample_mapped 1 0x400000 0x1000 = Ret m' /\ tables_wf sample_init m' /\
    released sample_mapped m' 1 0x400000 1.
Proof.
  apply (km_page_dealloc_range_correct sample_init 1 2 sample_mapped 1 0x400000 0x1000 (sample_mapped_wf (OW := system_owns) eq_refl));
    try (unfold PAGE_SIZE; lia).
  - eexists. by vm_compute.
  - by vm_compute.
  - unfold walk_end. split_and!; [|done|left; unfold PAGE_SIZE; lia]. intros [|t] Ht; [|lia]. eexists. by vm_compute.
Defined.

(** ** The root table of a new process *)

Section NewProcess.
Context {A : Type} `{PagePool A} {OW : Ownership}.
Variable init : Z.

Lemma copy_entries_spec n (m : machine A) dst base src l :
  let dp := HAL_GET_BASIC_PHYADDRESS dst in
  is_word init -> dp <> init -> ram m !! init = Some src -> ram m !! dp = Some l ->
  length src = 1024%nat -> length l = 1024%nat -> 0 <= base -> base + Z.of_nat n <= 1024 ->
  exists l', copy_kernel_entries init n m dst base = Some (Machine (pool m) (<[dp := l']> (ram m)) (roots m)) /\
    length l' = 1024%nat /\
    forall j, word_at l' j = if (base <=? j) && (j <? base + Z.of_nat n)
                             then (fun e => Z.land e (w_not PAGE_FLAG_USER)) <$> word_at src j else word_at l j.
Proof.
  intros dp Hw Hne Hsrc. revert m base l Hsrc. induction n as [|n IH]; intros m base l Hsrc Hl Hls Hll Hb Hn; cbn [copy_kernel_entries].
  { exists l. split_and!; try done.
    - destruct m as [a r t]. cbn in *. by rewrite insert_id.
    - intros j. destruct (Z.leb_spec base j), (Z.ltb_spec j (base + Z.of_nat 0)); try done. lia. }
  unfold read_entry, write_entry. rewrite phys_kaddr by done. rewrite Hsrc. cbn [mbind option_bind].
  destruct (word_at_Some src base) as [e He]; [lia|]. rewrite He. cbn [mbind option_bind]. fold dp. rewrite Hl. cbn [mbind option_bind].
  rewrite word_at_set by lia. cbn [mbind option_bind].
  set (l1 := <[Z.to_nat base := Z.land e (w_not PAGE_FLAG_USER)]> l).
  destruct (IH (Machine (pool m) (<[dp := l1]> (ram m)) (roots m)) (base + 1) l1) as (l' & E & Hlen & Hat).
  - cbn. by rewrite lookup_insert_ne.
  - apply lookup_insert_eq.
  - done.
  - unfold l1. by rewrite length_insert.
  - lia.
  - lia.
  - exists l'. rewrite E. cbn. rewrite insert_insert_eq. split_and!; try done. intros j. rewrite Hat. unfold l1. rewrite word_at_insert by lia.
    destruct (Z.leb_spec (base + 1) j), (Z.ltb_spec j (base + 1 + Z.of_nat n)), (Z.leb_spec base j), (Z.ltb_spec j (base + Z.of_nat (S n)));
      cbn [andb]; try lia; try done; destruct (Z.eqb_spec base j) as [<-|]; try lia; try done. by rewrite He.
Qed.

Lemma copy_entries_null n (m : machine A) dst base :
  ram m !! HAL_GET_BASIC_PHYADDRESS dst = None -> copy_kernel_entries init (S n) m dst base = None.
Proof.
  intros Hn. cbn [copy_kernel_entries]. destruct (read_entry m _ base) as [e|]; [|done]. cbn [mbind option_bind].
  unfold write_entry. by rewrite Hn.
Qed.

(** Entries of the root table that are not owned are out of the view. *)
Lemma root_rewrite (m : machine A) km rp l l' :
  tables_wf init m -> root_of m km = Some rp -> ram m !! rp = Some l -> length l' = 1024%nat -> Forall is_word l' ->
  (forall j, own_index km j = true -> word_at l' j = word_at l j) ->
  let m' := Machine (pool m) (<[rp := l']> (ram m)) (roots m) in
  tables_wf init m' /\ forall k i j, pte m' k i j = pte m k i j.
Proof.
  intros Hwf Hr Hl Hlen Hw Hj m'.
  assert (forall p, rp <> p -> ram m' !! p = ram m !! p) as Hram by (intros p Hp; by apply lookup_insert_ne).
  assert (forall k, root_of m' k = root_of m k) as R by done.
  assert (forall k i, sub_of m' k i = sub_of m k i) as S.
  { intros k i. unfold sub_of. rewrite R. destruct (own_index k i) eqn:Eo; [|done].
    destruct (root_of m k) as [p|] eqn:Ep; [|done]. cbn [mbind option_bind].
    destruct (Z.eq_dec rp p) as [<-|Hne]; [|by rewrite Hram].
    assert (k = km) as -> by (by apply (root_inj init m k km rp)). unfold m'. cbn [ram]. rewrite lookup_insert_eq, Hl.
    cbn [mbind option_bind]. by rewrite Hj. }
  assert (forall k i j, entry m' k i j = entry m k i j) as E.
  { intros k i j. unfold entry. rewrite S. destruct (sub_of m k i) as [q|] eqn:Eq; [|done]. cbn [mbind option_bind].
    rewrite Hram; [done|]. intros <-. by apply (root_not_sub init m km k i rp Hwf Hr). }
  split; [|intros; unfold pte; by rewrite E]. pose proof (held_view init m m' R S E) as Hh.
  apply (wf_change init m m' (HRoot 0) (held init m (HRoot 0)) Hwf); try done.
  - intros h. rewrite Hh. case_decide; by subst.
  - apply (tw_pool _ _ Hwf).
  - intros h p _. apply (tw_handed _ _ Hwf h).
  - intros p Hp. split; [by apply (tw_handed _ _ Hwf (HRoot 0))|]. intros h Hne Hh'. by apply Hne, (tw_inj _ _ Hwf _ _ p).
  - intros k. rewrite R. apply (tw_init_root _ _ Hwf).
  - apply (tw_roots _ _ Hwf).
  - by apply (shape_insert init m).
  - intros p Hp. unfold m'. cbn. rewrite lookup_insert_is_Some'. by right.
Qed.

Lemma ctx_init_spec (m : machine A) km r src :
  tables_wf init m -> roots m !! km = Some r -> r <> 0 -> root_of m km <> Some init ->
  ram m !! init = Some src -> (forall j, 512 <= j -> own_index km j = false) ->
  exists m' l, km_arch_ctx_init init m km = Some m' /\ tables_wf init m' /\ roots m' = roots m /\
    (forall k i j, pte m' k i j = pte m k i j) /\ ram m' !! HAL_GET_BASIC_PHYADDRESS r = Some l /\
    forall j, 512 <= j < 1024 -> word_at l j = (fun e => Z.land e (w_not PAGE_FLAG_USER)) <$> word_at src j.
Proof.
  intros Hwf Hr H0 Hri Hsrc Hno. pose proof (root_word init m km r Hwf Hr H0) as Hrw.
  set (rp := HAL_GET_BASIC_PHYADDRESS r) in *.
  destruct (table_words init m rp Hwf) as (l & Hl & Hlen & Hlw); [destruct (root_page init m km _ Hwf Hrw); auto|].
  destruct (tw_shape _ _ Hwf init src Hsrc) as [Hls Hsw].
  unfold km_arch_ctx_init, copy_kernel_to_user. rewrite Hr. cbn [mbind option_bind].
  change (HAL_GET_BASIC_KADDRESS PHYS_OFFSET / 0x400000) with 512. change (Z.to_nat (ARCH_KM_LV2_COUNT - 512)) with 512%nat.
  destruct (copy_entries_spec 512 m r 512 src l) as (l' & E & Hlen' & Hat); try done; try lia.
  { apply (tw_init_word _ _ Hwf). } { fold rp. congruence. }
  assert (forall j, 512 <= j < 1024 -> word_at l' j = (fun e => Z.land e (w_not PAGE_FLAG_USER)) <$> word_at src j) as Hk.
  { intros j Hj. rewrite Hat, (proj2 (Z.leb_le 512 j)), (proj2 (Z.ltb_lt j _)) by lia. done. }
  assert (forall j, ~ (512 <= j < 1024) -> word_at l' j = word_at l j) as Hu.
  { intros j Hj. rewrite Hat. destruct (Z.leb_spec 512 j), (Z.ltb_spec j (512 + Z.of_nat 512)); cbn [andb]; done || lia. }
  assert (Forall is_word l') as Hw'.
  { apply Forall_lookup. intros k x Hx. assert (word_at l' (Z.of_nat k) = Some x) as Hx'.
    { unfold word_at. rewrite (proj2 (Z.leb_le 0 _)) by lia. by rewrite Nat2Z.id. }
    destruct (decide (512 <= Z.of_nat k < 1024)).
    - rewrite Hk in Hx' by done. apply fmap_Some in Hx' as (y & Hy & ->). apply land_is_word; [|vm_compute; congruence].
      apply (proj1 (Forall_forall _ _) Hsw). by apply word_at_elem with (Z.of_nat k).
    - rewrite Hu in Hx' by done. apply (proj1 (Forall_forall _ _) Hlw). by apply word_at_elem with (Z.of_nat k). }
  destruct (root_rewrite m km rp l l' Hwf Hrw Hl Hlen' Hw') as [Hwf' Hp].
  { intros j Ho. apply Hu. intros [? _]. by rewrite Hno in Ho. }
  rewrite E. eexists _, l'. split_and!; try done. apply lookup_insert_eq.
Qed.

(** The walk of [km_walk_init] in an address space without a root table. *)
Lemma walk_init_root (m : machine A) km p a :
  tables_wf init m -> roots m !! km = Some 0 -> own_index km 0 = true -> page_alloc (pool m) = Ret (p, a) -> p <> 0 ->
  exists b m', km_walk_init m km = Ret (b, m') /\ tables_wf init m' /\ grown init m m' /\
    root_of m' km = Some p /\ p <> init /\ ram m' !! init = ram m !! init.
Proof.
  intros Hwf Hr Ho Ea Hp0. destruct (page_alloc_spec (pool m) (tw_pool _ _ Hwf)) as (p' & a' & E & Hpw & Hm & Hc).
  rewrite Ea in E. injection E as <- <-. destruct Hc as [[? _]|(_ & Hpm & Hpn & Hh)]; [done|].
  assert (fresh m a p) as Hf by done. destruct (fresh_page init m a p Hwf Hf) as (Hw & _ & _ & Hpi & Hk & _).
  unfold km_walk_init, KM_WALK_INIT. rewrite walk_to_unfold, Hr. cbn [lift mbind run_bind Z.eqb].
  unfold km_walk_miss. cbn [mem]. rewrite Hr. cbn [lift mbind run_bind Z.eqb].
  unfold km_walk_alloc_table, alloc_kerneled. rewrite Ea. cbn [mbind run_bind]. rewrite (proj2 (Z.eqb_neq p 0) Hp0).
  rewrite (proj2 (Z.eqb_neq _ 0) Hk). cbn [mbind run_bind pool ram roots]. rewrite (proj2 (Z.eqb_neq _ 0) Hk). rewrite phys_kaddr by done.
  cbn [mbind run_bind]. rewrite (proj2 (Z.eqb_neq _ 0) Hk).
  destruct (install_root init m a km p Hwf Hf Hr) as (Hwf1 & G1 & S1).
  set (m1 := Machine a _ _) in *. assert (roots m1 !! km = Some (HAL_GET_BASIC_KADDRESS p)) as Hr1 by apply lookup_insert_eq.
  rewrite (get_sub_table_spec init m1 km) by done. cbn [lift mbind run_bind].
  destruct (walk_level1 init m1 km (HAL_GET_BASIC_KADDRESS p) 0 0 0 0 true Hwf1 Hr1 Hk Ho) as (b & ctx' & m' & -> & Wk).
  cbn [mbind run_bind]. pose proof (wk_grown _ _ _ _ _ _ _ _ Wk) as G2.
  assert (root_of m1 km = Some p) as R1 by (rewrite (root_word init m1 km _ Hwf1 Hr1 Hk); by rewrite phys_kaddr).
  exists b, m'. split_and!; try done.
  - apply (wk_wf _ _ _ _ _ _ _ _ Wk).
  - by apply (grown_trans init _ m1).
  - assert (held init m' (HRoot km) = Some p) as Hh'.
    { apply (g_held _ _ _ G2). cbn. rewrite R1. cbn. by rewrite (proj2 (Z.eqb_neq p init) Hpi). }
    cbn in Hh'. destruct (root_of m' km) as [q|]; [|done]. cbn in Hh'. by destruct (q =? init).
  - rewrite (wk_frame _ _ _ _ _ _ _ _ Wk init); [|by right|congruence]. by apply lookup_insert_ne.
Qed.

(** C17: the memory of a new process.  If the allocator has a page, the process
    gets a root table with the kernel half of the system process, not
    accessible to the user, and maps no page; nothing changes in the other
    address spaces.  If there is no page, the result of [km_walk_init] is
    ignored and the copy is written through the NULL root table. *)
Theorem process_mem_init_correct (m : machine A) km p a src :
  tables_wf init m -> roots m !! km = Some 0 -> own_index km 0 = true ->
  (forall j, 512 <= j -> own_index km j = false) -> ram m !! init = Some src ->
  ram m !! HAL_GET_BASIC_PHYADDRESS 0 = None -> page_alloc (pool m) = Ret (p, a) ->
  if p =? 0 then process_mem_init init m km = Fault
  else exists m' r l, process_mem_init init m km = Ret m' /\ tables_wf init m' /\
    roots m' !! km = Some r /\ ram m' !! HAL_GET_BASIC_PHYADDRESS r = Some l /\
    (forall k i j, pte m' k i j = pte m k i j) /\
    forall j, 512 <= j < 1024 -> word_at l j = (fun e => Z.land e (w_not PAGE_FLAG_USER)) <$> word_at src j.
Proof.
  intros Hwf Hr Ho Hno Hsrc Hnull Ea. unfold process_mem_init. destruct (Z.eqb_spec p 0) as [->|Hp0].
  - unfold km_walk_init, KM_WALK_INIT. rewrite walk_to_unfold, Hr. cbn [lift mbind run_bind Z.eqb].
    unfold km_walk_miss. cbn [mem]. rewrite Hr. cbn [lift mbind run_bind Z.eqb].
    unfold km_walk_alloc_table, alloc_kerneled. rewrite Ea. cbn [lift mbind run_bind Z.eqb].
    unfold km_arch_ctx_init, copy_kernel_to_user. cbn [roots]. rewrite Hr. cbn [mbind option_bind].
    change (Z.to_nat (ARCH_KM_LV2_COUNT - HAL_GET_BASIC_KADDRESS PHYS_OFFSET / 0x400000)) with (S 511).
    by rewrite copy_entries_null.
  - destruct (walk_init_root m km p a Hwf Hr Ho Ea Hp0) as (b & m1 & -> & Hwf1 & G & R1 & Hpi & Hin). cbn [mbind run_bind].
    assert (exists r, roots m1 !! km = Some r /\ r <> 0) as (r & Hr1 & Hr0).
    { unfold root_of in R1. destruct (roots m1 !! km) as [r|]; [|done]. cbn in R1. destruct (Z.eqb_spec r 0); [done|by exists r]. }
    destruct (ctx_init_spec m1 km r src Hwf1 Hr1 Hr0) as (m' & l & -> & Hwf' & Hrr & Hp & Hl & Hk); try done; [congruence|by rewrite Hin|].
    exists m', r, l. split_and!; try done; [by rewrite Hrr|]. intros k i j. by rewrite Hp, (g_pte _ _ _ G).
Qed.

End NewProcess.

Lemma process_mem_init_witness :
  exists m' r l, process_mem_init sample_init sample_machine 1 = Ret m' /\ tables_wf sample_init m' /\
    roots m' !! 1 = Some r /\ ram m' !! HAL_GET_BASIC_PHYADDRESS r = Some l /\
    (forall k i j, pte m' k i j = pte sample_machine k i j) /\
    forall j, 512 <= j < 1024 -> word_at l j = (fun e => Z.land e (w_not PAGE_FLAG_USER)) <$> word_at zero_page j.
Proof.
  apply (process_mem_init_correct sample_init sample_machine 1 0x101000
           (Pa [Cluster 0 256 264 0x101000 (Bitmap [1] 8 1) 0 8 7 2] [Head 0 [0]] (Some 0) 0 0) zero_page sample_machine_wf);
    try (vm_compute; reflexivity).
  intros j Hj. unfold own_index, system_owns, user_index, kernel_index. apply orb_false_iff. split; [|done].
  apply andb_false_iff. right. apply Z.ltb_ge. lia.
Defined.

(** ** Faults in the kernel range *)

Section KernelFault.
Context {A : Type} `{PagePool A}.
Variable init : Z.

(** A table of the address space has a root. *)
Lemma sub_root {OW : Ownership} (m : machine A) km i q :
  sub_of m km i = Some q -> exists r, roots m !! km = Some r /\ r <> 0.
Proof.
  unfold sub_of, root_of. destruct (own_index km i); [|done]. destruct (roots m !! km) as [r|]; [|done].
  cbn [mbind option_bind]. destruct (Z.eqb_spec r 0); [done|]. intros _. by exists r.
Qed.

(** The page that [m1] has at [va] is lost when the table of [va] is dropped. *)
Lemma drop_table {OW : Ownership} (m1 m2 : machine A) km va page :
  tables_wf init m1 -> held init m1 (HFrame km (km_get_vid 2 va) (km_get_vid 1 va)) = Some page ->
  sub_of m2 km (km_get_vid 2 va) = None ->
  (forall k i, (k, i) <> (km, km_get_vid 2 va) -> sub_of m2 k i = sub_of m1 k i) ->
  (forall p, root_of m1 km <> Some p -> ram m2 !! p = ram m1 !! p) -> (forall k, root_of m2 k = root_of m1 k) ->
  pte_at m2 km va = 0 /\ forall h, held init m2 h <> Some page.
Proof.
  intros Hwf Hp Hs Hso Hram Hr. split; [unfold pte_at, pte, entry; by rewrite Hs|].
  assert (forall h, held init m2 h = Some page -> held init m1 h = Some page /\
            h <> HFrame km (km_get_vid 2 va) (km_get_vid 1 va)) as Hk.
  { intros [k|k i|k i j]; cbn.
    - rewrite Hr. by intros E.
    - destruct (decide ((k, i) = (km, km_get_vid 2 va))) as [[= -> ->]|Hne]; [by rewrite Hs|].
      rewrite Hso by done. by intros E.
    - unfold entry. destruct (decide ((k, i) = (km, km_get_vid 2 va))) as [[= -> ->]|Hne]; [by rewrite Hs|].
      rewrite Hso by done. destruct (sub_of m1 k i) as [q|] eqn:Eq; [|done]. cbn [mbind option_bind].
      rewrite Hram by (intros Hq; by apply (root_not_sub init m1 km k i q Hwf Hq)).
      intros E. split; [done|]. intros [= -> -> ->]. by destruct Hne. }
  intros h Hh. destruct (Hk h Hh) as [Hh1 Hne]. by apply Hne, (tw_inj _ _ Hwf _ _ page).
Qed.

(** A fault in the kernel range of a process, whose page the kernel does
    not have yet, where the kernel has no table.  The handler enters a new
    page in the tables of the process and then overwrites their root entry
    with the empty one of the kernel: it reports success, but the address has
    no entry, and the new page stays allocated without a holder. *)
Theorem kernel_fault_loses_page prep mem procs exe fp fuel (m : machine A) thread va code ks s sys t l e :
  let OW := each_owns in
  tables_wf init m -> thread <> 0 -> is_Some (roots m !! thread) -> kernel_index (km_get_vid 2 va) = true ->
  ram m !! init = Some l -> word_at l (km_get_vid 2 va) = Some e -> KM_PAGE_PHY_FROM_ENTRY e = 0 ->
  faultable mem (procs thread) -> ks ∈ vm_list (procs thread) -> mem !! ks = Some s ->
  covers (rd_node mem) ks va -> Z.land (type s) KS_TYPE_MASK = KS_TYPE_KERNEL ->
  ks_get_by_vaddress mem (procs kp_get_system) va = Some sys -> sys <> 0 -> mem !! sys = Some t ->
  Z.land (type t) KS_TYPE_MASK = KS_TYPE_PRIVATE ->
  Z.land (km_arch_get_flags (prot t)) PAGE_FLAG_VALID <> 0 ->
  exists r m', ks_exception (H := machine_ops init prep) mem procs exe fp (S (S fuel)) ks_exception_init
      (Ret m) thread va code = Ret (r, Ret m') /\
    (r = true -> sub_of m' thread (km_get_vid 2 va) = None /\ pte_at m' thread va = 0 /\
       exists page, handed (pool m') page /\ ~ handed (pool m) page /\ forall h, held init m' h <> Some page) /\
    (r = false -> pte_at m thread va <> 0 \/ out_of_pages m').
Proof.
  intros OW Hwf Hth Hr Hki Hl He He0 Hf Hin Hs Hc Hty Hsys Hsy0 Ht Htty Hval.
  rewrite (ks_exception_kernel (H := machine_ops init prep) _ _ _ _ _ _ _ _ _ ks s sys t Hf Hin Hs Hc Hty Hsys Hsy0 Ht Htty).
  assert (own_index thread (km_get_vid 2 va) = true) as Ho by (apply orb_true_iff; by right).
  assert (root_of m thread <> Some init) as Hri by (intros E; by apply Hth, (tw_init_root _ _ Hwf)).
  destruct (page_create_spec init m thread va (prot t) Hwf Hr Ho) as (r & m1 & E & Hwf1 & Hin1 & R).
  cbn [Fault.km_page_create Fault.km_page_share_kernel machine_ops op]. rewrite E.
  destruct R as [(-> & _ & page & Hpm & Hpn & Hph & O & Hmono & _)|(-> & _ & Hwhy)].
  2: { exists false, m1. by split_and!. }
  destruct (managed_page _ _ (tw_pool _ _ Hwf) Hpm) as [Hpr Hpa].
  destruct (page_entry page (prot t)) as (_ & Hmask & _ & How); [unfold is_word, CONFIG_HAL_KERNEL_MEM_LEN in *; lia|done|].
  rewrite (proj2 (Z.eqb_neq _ 0) Hval) in How. cbn in How.
  specialize (O thread (km_get_vid 2 va) (km_get_vid 1 va)). rewrite decide_True in O by done.
  assert (held init m1 (HFrame thread (km_get_vid 2 va) (km_get_vid 1 va)) = Some page) as Hh.
  { cbn. unfold pte in O. destruct (entry m1 thread _ _) as [x|]; cbn in O |- *; subst; [by rewrite How, Hmask|].
    rewrite <- O in How. done. }
  assert (exists q, sub_of m1 thread (km_get_vid 2 va) = Some q) as [q Hq].
  { cbn in Hh. unfold entry in Hh. destruct (sub_of m1 thread _); [by eexists|done]. }
  destruct (sub_root m1 thread _ q Hq) as (rt & Hrt & Hrt0).
  destruct (copy_kernel_drops init m1 thread va rt l e Hwf1 Hrt Hrt0) as (m2 & Hm2 & Hp2 & Hs2 & Hso2 & Hram2 & Hr2); try done.
  - intros E'. by apply Hth, (tw_init_root _ _ Hwf1).
  - by rewrite Hin1.
  - cbn [op]. rewrite Hm2. cbn [lift mbind run_bind snd]. exists true, m2. split; [done|]. split; [|done]. intros _.
    destruct (drop_table m1 m2 thread va page Hwf1 Hh Hs2 Hso2 Hram2 Hr2) as [H1 H2].
    split; [done|]. split; [done|]. exists page. by rewrite Hp2.
Qed.

End KernelFault.

(** Process 1 has a private section and the kernel range; the system process
    has a private section in that range. *)
Definition sample_spaces_map : sections :=
  {[ 4096 := Section_ (Node 0x400000 0x2000) KS_TYPE_PRIVATE 3 0 0 0 0 [];
     4160 := Section_ (Node 0xC0000000 0x3FC00000) KS_TYPE_KERNEL 3 0 0 0 0 [];
     4224 := Section_ (Node 0xC0000000 0x400000) KS_TYPE_PRIVATE 3 0 0 0 0 [] ]}.
Definition sample_procs (p : Z) : ko_process :=
  if p =? 0 then Proc KP_CPL0 [4224] else Proc KP_USER [4096; 4160].

Lemma sample_faultable : faultable sample_spaces_map (sample_procs 1).
Proof.
  split.
  - exists 0x400000, 0x2000. split_and!; try done. exists 0xC0000000, 0x3FC00000. by split_and!.
  - intros ks s Hin Hs. change (vm_list (sample_procs 1)) with [4096; 4160] in Hin.
    rewrite !elem_of_cons, elem_of_nil in Hin. destruct Hin as [->|[->|[]]]; by injection Hs as <-.
Qed.

Definition no_files (m : machine km_stack) (_ _ _ : Z) : run (Z * machine km_stack) := Ret (0, m).

Lemma private_fault_witness :
  exists r m', ks_exception (H := machine_ops sample_init no_files) sample_spaces_map sample_procs
      (fun _ => None) 0 1 ks_exception_init (Ret sample_machine) 1 0x401004 4 = Ret (r, Ret m') /\
    tables_wf sample_init m' /\
    ((r = true /\ pte_at sample_machine 1 0x401004 = 0 /\ exists page, managed (pool sample_machine) page /\
        ~ handed (pool sample_machine) page /\ handed (pool m') page /\
        only_pte sample_machine m' 1 0x401004 (Z.lor page (km_arch_get_flags 3))) \/
     (r = false /\ grown sample_init sample_machine m' /\
      (pte_at sample_machine 1 0x401004 <> 0 \/ out_of_pages m'))).
Proof.
  apply (private_fault_maps sample_init no_files sample_spaces_map sample_procs (fun _ => None) 0 0 sample_machine 1
           0x401004 4 4096 (Section_ (Node 0x400000 0x2000) KS_TYPE_PRIVATE 3 0 0 0 0 []) sample_machine_wf);
    try apply sample_faultable; try (by eexists); try done;
    [by apply list_elem_of_here|exists 0x400000, 0x2000; split; [done|lia]|by left].
Defined.

Lemma kernel_fault_witness :
  exists r m', ks_exception (H := machine_ops (OW := each_owns) sample_init no_files) sample_spaces_map sample_procs
      (fun _ => None) 0 2 ks_exception_init (Ret sample_machine) 1 0xC0000000 0 = Ret (r, Ret m') /\
    (r = true -> sub_of (OW := each_owns) m' 1 (km_get_vid 2 0xC0000000) = None /\
       pte_at (OW := each_owns) m' 1 0xC0000000 = 0 /\
       exists page, handed (pool m') page /\ ~ handed (pool sample_machine) page /\
         forall h, held (OW := each_owns) sample_init m' h <> Some page) /\
    (r = false -> pte_at (OW := each_owns) sample_machine 1 0xC0000000 <> 0 \/ out_of_pages m').
Proof.
  apply (kernel_fault_loses_page sample_init no_files sample_spaces_map sample_procs (fun _ => None) 0 0 sample_machine 1
           0xC0000000 0 4160 (Section_ (Node 0xC0000000 0x3FC00000) KS_TYPE_KERNEL 3 0 0 0 0 []) 4224
           (Section_ (Node 0xC0000000 0x400000) KS_TYPE_PRIVATE 3 0 0 0 0 []) zero_page 0 sample_machine_wf);
    try apply sample_faultable; try (by eexists); try done;
    [by apply list_elem_of_further, list_elem_of_here|exists 0xC0000000, 0x3FC00000; split; [done|lia]].
Defined.

(** On the small machine the fault of the theorem is reported as resolved. *)
Example kernel_fault_true :
  match ks_exception (H := machine_ops (OW := each_owns) sample_init no_files) sample_spaces_map sample_procs
          (fun _ => None) 0 2 ks_exception_init (Ret sample_machine) 1 0xC0000000 0 with
  | Ret (r, _) => r | _ => false
  end = true.
Proof. by vm_compute. Qed.
