(* ===== verification/RingBuff.v ===== *)
(** * The ring buffer of packages

    [source/libs/common/ring_buff.c]: packages in one memory area, each with a
    header that is linked with its neighbours in a circle; a writer allocates
    at the write position, a reader takes packages from the read position.
    The headers are a store keyed by their offset from the area, pointers are
    offsets; 0 stands for NULL.  The contents of the packages are left out. *)

From stdpp Require Import gmap.
From S2P Require Import Prelude.
Local Open Scope c_scope.

Definition INVALID_FLAG : Z := 0.
Definition VALID_FLAG : Z := 1.
Definition BUSY_FLAG : Z := 2.

(** [sizeof(struct ring_buff_cache)] and [sizeof(struct ring_package)]. *)
Definition SIZEOF_CACHE : Z := 16.
Definition SIZEOF_PACKAGE : Z := 20.

Record ring_package := Package {
  valid_flag : Z;
  next_head : Z;
  prev_head : Z;
  package_offset : Z;
  package_size : Z
}.

Record ring_buff_cache := Cache {
  cache_buff_length : Z;
  curr_read_pos : Z;
  curr_write_pos : Z;
  packages : gmap Z ring_package
}.

Module RingOps.

Definition set_packages (c : ring_buff_cache) (m : gmap Z ring_package) : ring_buff_cache :=
  Cache (cache_buff_length c) (curr_read_pos c) (curr_write_pos c) m.
Definition set_read (c : ring_buff_cache) (o : Z) : ring_buff_cache :=
  Cache (cache_buff_length c) o (curr_write_pos c) (packages c).
Definition set_write (c : ring_buff_cache) (o : Z) : ring_buff_cache :=
  Cache (cache_buff_length c) (curr_read_pos c) o (packages c).

(** A header is read or written inside the area. *)
Definition get (c : ring_buff_cache) (o : Z) : option ring_package := packages c !! o.
Definition put (c : ring_buff_cache) (o : Z) (p : ring_package) : option ring_buff_cache :=
  if (SIZEOF_CACHE <=? o) && (o + SIZEOF_PACKAGE <=? cache_buff_length c)
  then Some (set_packages c (<[o := p]> (packages c))) else None.

Definition set_flag (p : ring_package) (f : Z) : ring_package :=
  Package f (next_head p) (prev_head p) (package_offset p) (package_size p).
Definition set_next (p : ring_package) (o : Z) : ring_package :=
  Package (valid_flag p) o (prev_head p) (package_offset p) (package_size p).
Definition set_prev (p : ring_package) (o : Z) : ring_package :=
  Package (valid_flag p) (next_head p) o (package_offset p) (package_size p).
Definition set_size (p : ring_package) (n : Z) : ring_package :=
  Package (valid_flag p) (next_head p) (prev_head p) (package_offset p) n.

(** [ptr->field = ...] *)
Definition update (c : ring_buff_cache) (o : Z) (f : ring_package -> ring_package) : option ring_buff_cache :=
  p ← get c o; put c o (f p).

Definition req_len_is_gt_package_len (p : ring_package) (length : Z) : bool :=
  package_size p <? length +w SIZEOF_PACKAGE.

Definition ALIGN_LONG (length : Z) : Z := Z.land (length +w 3) (w_not 3).

Definition cache_is_full (c : ring_buff_cache) : option bool :=
  if curr_write_pos c =? curr_read_pos c then
    p ← get c (curr_write_pos c); Some (negb (valid_flag p =? 0))
  else Some false.

Definition ring_buff_head_init (length : Z) : option ring_buff_cache :=
  put (Cache length SIZEOF_CACHE SIZEOF_CACHE ∅) SIZEOF_CACHE
    (Package 0 SIZEOF_CACHE SIZEOF_CACHE (SIZEOF_CACHE + SIZEOF_PACKAGE)
       (length -w SIZEOF_PACKAGE -w SIZEOF_CACHE)).

Definition handle_small_free_package_at_tail (c : ring_buff_cache) (obj : Z) : ring_buff_cache :=
  if curr_read_pos c =? curr_write_pos c then set_read c obj else c.

(** [add_to_prev_head(head, new, cache)] *)
Definition add_to_prev_head (c : ring_buff_cache) (head new : Z) : option ring_buff_cache :=
  h ← get c head;
  c ← update c (next_head h) (fun p => set_prev p new);
  h ← get c head;
  c ← update c new (fun p => set_prev (set_next p (next_head h)) head);
  update c head (fun p => set_next p new).

Definition slice_buff (c : ring_buff_cache) (slice_head length : Z) (small : bool) : option (Z * ring_buff_cache) :=
  s ← get c slice_head;
  let new_head := slice_head +w length +w SIZEOF_PACKAGE in
  c ← put c new_head (Package INVALID_FLAG 0 0 (slice_head +w length +w 2 * SIZEOF_PACKAGE)
                        (package_size s -w length -w SIZEOF_PACKAGE));
  c ← update c slice_head (fun p => Package VALID_FLAG (next_head p) (prev_head p) (slice_head +w SIZEOF_PACKAGE) length);
  c ← add_to_prev_head c slice_head new_head;
  let c := if small then handle_small_free_package_at_tail c slice_head else c in
  s ← get c slice_head;
  Some (package_offset s, set_write c (next_head s)).

(** The search of [ring_buff_alloc], from the header [curr]. *)
Fixpoint alloc_loop (fuel : nat) (c : ring_buff_cache) (curr length : Z) (small : bool)
  : run (Z * ring_buff_cache) :=
  match fuel with
  | O => NoFuel
  | S fuel =>
    p ← lift (get c curr);
    let again curr small :=
      if negb (curr =? curr_read_pos c) then alloc_loop fuel c curr length small else Ret (0, c) in
    if negb (valid_flag p =? 0) then again (next_head p) small
    else if package_size p =? length then
      c ← lift (update c curr (fun p => set_flag p VALID_FLAG));
      let c := if small then handle_small_free_package_at_tail c curr else c in
      Ret (package_offset p, set_write c (next_head p))
    else if negb (req_len_is_gt_package_len p length) then lift (slice_buff c curr length small)
    else again (next_head p) true
  end.

Definition ring_buff_alloc (fuel : nat) (c : ring_buff_cache) (length : Z) : run (Z * ring_buff_cache) :=
  let length := ALIGN_LONG length in
  full ← lift (cache_is_full c);
  if (full : bool) then Ret (0, c) else alloc_loop fuel c (curr_write_pos c) length false.

(** A position that refers to a header that is merged away. *)
Definition move_positions (c : ring_buff_cache) (from to : Z) : ring_buff_cache :=
  let c := if from =? curr_write_pos c then set_write c to else c in
  if from =? curr_read_pos c then set_read c to else c.

(** The header [b] after [a] becomes a part of [a]. *)
Definition merge_heads (c : ring_buff_cache) (a b : Z) : option ring_buff_cache :=
  pb ← get c b;
  c ← update c a (fun p => set_next p (next_head pb));
  pb ← get c b;
  c ← update c (next_head pb) (fun p => set_prev p a);
  pb ← get c b;
  c ← update c a (fun p => set_size p (package_size p +w package_size pb +w SIZEOF_PACKAGE));
  Some (move_positions c b a).

(** The label [mereg_next]. *)
Definition mereg_next (c : ring_buff_cache) (package next : Z) : option ring_buff_cache :=
  n ← get c next;
  if valid_flag n =? 0 then merge_heads c package next else Some c.

Definition ring_buff_free (c : ring_buff_cache) (buff : Z) : option ring_buff_cache :=
  let package := buff -w SIZEOF_PACKAGE in
  p ← get c package;
  if valid_flag p =? 0 then Some c else
  c ← put c package (set_flag p INVALID_FLAG);
  let prev := prev_head p in
  let next := next_head p in
  let only_merge_prev := next =? SIZEOF_CACHE in
  if package =? SIZEOF_CACHE then mereg_next c package next else
  v ← get c prev;
  '(package, c) ← (if valid_flag v =? 0 then c ← merge_heads c prev package; Some (prev, c) else Some (package, c));
  if only_merge_prev then Some c else mereg_next c package next.

(** The package is found in the area it belongs to. *)
Definition ring_buff_free_package (c : ring_buff_cache) (obj : Z) : option ring_buff_cache :=
  p ← get c obj;
  if obj -w package_offset p +w SIZEOF_PACKAGE =? 0 then ring_buff_free c (obj +w SIZEOF_PACKAGE) else None.

(** The loop of [ring_cache_read_package]: the next read position. *)
Fixpoint next_read (fuel : nat) (c : ring_buff_cache) (next_package : Z) : run Z :=
  match fuel with
  | O => NoFuel
  | S fuel =>
    if next_package =? curr_write_pos c then Ret (curr_write_pos c) else
    p ← lift (get c next_package);
    if valid_flag p =? VALID_FLAG then Ret next_package else next_read fuel c (next_head p)
  end.

Definition ring_cache_read_package (fuel : nat) (c : ring_buff_cache) : run (Z * ring_buff_cache) :=
  let curr_read := curr_read_pos c in
  p ← lift (get c curr_read);
  pos ← next_read fuel c (next_head p);
  let c := set_read c pos in
  if valid_flag p =? VALID_FLAG then
    c ← lift (update c curr_read (fun p => set_flag p BUSY_FLAG));
    Ret (curr_read, c)
  else Ret (0, c).

End RingOps.
Import RingOps.

(** ** The circle of packages

    A package is its offset, the size of its data and its flag; the headers of
    a list of packages are linked from [prev] to [nxt]. *)

Record pkg := Pk { po : Z; psz : Z; pf : Z }.

Definition hdr (p : pkg) (prev nxt : Z) : ring_package := Package (pf p) nxt prev (po p + SIZEOF_PACKAGE) (psz p).

Definition head_off (l : list pkg) (d : Z) : Z := match l with [] => d | p :: _ => po p end.
Fixpoint last_off (l : list pkg) (d : Z) : Z := match l with [] => d | p :: l => last_off l (po p) end.

Fixpoint seg (m : gmap Z ring_package) (prev : Z) (l : list pkg) (nxt : Z) : Prop :=
  match l with
  | [] => True
  | p :: l => m !! po p = Some (hdr p prev (head_off l nxt)) /\ seg m (po p) l nxt
  end.

(** The packages of [l] follow each other in a circle. *)
Definition cyc (m : gmap Z ring_package) (l : list pkg) : Prop :=
  l <> [] /\ seg m (last_off l 0) l (head_off l 0).

(** The packages fill the area from [lo] to [hi]. *)
Fixpoint tiles (lo : Z) (l : list pkg) (hi : Z) : Prop :=
  match l with
  | [] => lo = hi
  | p :: l => po p = lo /\ 0 <= psz p /\ tiles (lo + SIZEOF_PACKAGE + psz p) l hi
  end.

Record ring_wf (c : ring_buff_cache) (l : list pkg) : Prop := {
  rw_cyc : cyc (packages c) l;
  rw_tiles : tiles SIZEOF_CACHE l (cache_buff_length c);
  rw_len : is_word (cache_buff_length c);
  rw_read : curr_read_pos c ∈ po <$> l;
  rw_write : curr_write_pos c ∈ po <$> l
}.

Lemma head_off_app l1 l2 d : head_off (l1 ++ l2) d = head_off l1 (head_off l2 d).
Proof. by destruct l1. Qed.

Lemma last_off_app l1 l2 d : last_off (l1 ++ l2) d = last_off l2 (last_off l1 d).
Proof. revert d. induction l1 as [|p l1 IH]; intros d; [done|]. apply IH. Qed.

Lemma last_off_ne l d d' : l <> [] -> last_off l d = last_off l d'.
Proof. by destruct l. Qed.

Lemma seg_app m prev l1 l2 nxt :
  seg m prev (l1 ++ l2) nxt <-> seg m prev l1 (head_off l2 nxt) /\ seg m (last_off l1 prev) l2 nxt.
Proof.
  revert prev. induction l1 as [|p l1 IH]; intros prev; cbn; [by intuition|].
  rewrite head_off_app, IH. by intuition.
Qed.

Lemma cyc_rotate m l1 l2 : cyc m (l1 ++ l2) -> cyc m (l2 ++ l1).
Proof.
  destruct l1 as [|p l1]; [by rewrite app_nil_r|]. destruct l2 as [|q l2]; [by rewrite app_nil_r|].
  intros [_ Hs]. split; [done|]. rewrite last_off_app, head_off_app, seg_app in *. cbn in *. by intuition.
Qed.

Lemma seg_insert m prev l nxt o x : o ∉ po <$> l -> seg (<[o := x]> m) prev l nxt <-> seg m prev l nxt.
Proof.
  revert prev. induction l as [|p l IH]; intros prev Ho; [done|]. cbn in *. apply not_elem_of_cons in Ho as [Hp Hl].
  rewrite IH by done. rewrite lookup_insert_ne by done. done.
Qed.

(** The first package of a circle, and its neighbours. *)
Lemma cyc_cons m p l :
  cyc m (p :: l) <-> m !! po p = Some (hdr p (last_off l (po p)) (head_off l (po p))) /\ seg m (po p) l (po p).
Proof. unfold cyc. cbn. split; [by intros [_ ?]|by split]. Qed.

Lemma ring_tiles_app lo l1 l2 hi : tiles lo (l1 ++ l2) hi <-> exists mid, tiles lo l1 mid /\ tiles mid l2 hi.
Proof.
  revert lo. induction l1 as [|p l1 IH]; intros lo; cbn.
  - split; [intros H; by exists lo|by intros (mid & -> & ?)].
  - setoid_rewrite IH. split; [intros (H1 & H2 & mid & H3 & H4); by exists mid|]. intros (mid & (H1 & H2 & H3) & H4).
    split_and!; try done. by exists mid.
Qed.

Lemma ring_tiles_le lo l hi : tiles lo l hi -> lo <= hi.
Proof.
  revert lo. induction l as [|p l IH]; intros lo; cbn; [lia|]. intros (_ & H & Ht). apply IH in Ht.
  unfold SIZEOF_PACKAGE in *. lia.
Qed.

Lemma tiles_bounds lo l hi p : tiles lo l hi -> p ∈ l ->
  lo <= po p /\ po p + SIZEOF_PACKAGE + psz p <= hi /\ 0 <= psz p.
Proof.
  revert lo. induction l as [|q l IH]; intros lo; cbn; [by intros _ ?%not_elem_of_nil|].
  intros (<- & H & Ht) [->|Hp]%elem_of_cons; [pose proof (ring_tiles_le _ _ _ Ht); unfold SIZEOF_PACKAGE in *; lia|].
  destruct (IH _ Ht Hp) as (? & ? & ?). unfold SIZEOF_PACKAGE in *. lia.
Qed.

Lemma tiles_nodup lo l hi : tiles lo l hi -> NoDup (po <$> l).
Proof.
  revert lo. induction l as [|p l IH]; intros lo; cbn; [constructor|]. intros (<- & H & Ht). constructor; [|by apply (IH _ Ht)].
  intros (q & Hq & Hin)%list_elem_of_fmap. destruct (tiles_bounds _ _ _ _ Ht Hin) as [? _]. unfold SIZEOF_PACKAGE in *. lia.
Qed.

(** A header of the circle, and the rest of the circle after it. *)
Lemma ring_split c l1 p l2 :
  ring_wf c (l1 ++ p :: l2) ->
  cyc (packages c) (p :: l2 ++ l1) /\ NoDup (po p :: (po <$> (l2 ++ l1))) /\
  SIZEOF_CACHE <= po p /\ po p + SIZEOF_PACKAGE + psz p <= cache_buff_length c /\ 0 <= psz p.
Proof.
  intros [Hc Ht Hl _ _]. split; [apply (cyc_rotate _ l1 (p :: l2) Hc)|]. split.
  - pose proof (tiles_nodup _ _ _ Ht) as Hn. rewrite fmap_app in Hn. change (po p :: (po <$> (l2 ++ l1))) with (po <$> ((p :: l2) ++ l1)).
    rewrite fmap_app. by rewrite Permutation_app_comm.
  - destruct (tiles_bounds _ _ _ p Ht) as (? & ? & ?); [apply elem_of_app; right; by apply list_elem_of_here|done].
Qed.

(** ** Updates of headers *)

Definition in_area (c : ring_buff_cache) (o : Z) : Prop :=
  SIZEOF_CACHE <= o /\ o + SIZEOF_PACKAGE <= cache_buff_length c.

Lemma put_eq c o x : in_area c o -> put c o x = Some (set_packages c (<[o := x]> (packages c))).
Proof. intros [H1 H2]. unfold put. by rewrite (proj2 (Z.leb_le _ _) H1), (proj2 (Z.leb_le _ _) H2). Qed.

Lemma update_eq c o f x :
  packages c !! o = Some x -> in_area c o -> update c o f = Some (set_packages c (<[o := f x]> (packages c))).
Proof. intros Hx Ha. unfold update, get. rewrite Hx. cbn [mbind option_bind]. by apply put_eq. Qed.

Ltac lookups := repeat first [rewrite lookup_insert_eq | rewrite lookup_insert_ne by done].

Lemma ne_from_nodup (a b : Z) l : a ∉ b :: l -> a <> b /\ b <> a /\ a ∉ l.
Proof. intros [H1 H2]%not_elem_of_cons. by split_and!. Qed.

(** A new header is linked after the first package of a circle. *)
Lemma add_new c p r o s f x y :
  cyc (packages c) (p :: r) -> NoDup (po p :: (po <$> r)) -> o ∉ po p :: (po <$> r) ->
  packages c !! o = Some (Package f x y (o + SIZEOF_PACKAGE) s) -> in_area c o ->
  (forall q, q ∈ p :: r -> in_area c (po q)) ->
  exists m, add_to_prev_head c (po p) o = Some (set_packages c m) /\ cyc m (p :: Pk o s f :: r) /\
    m !! po p = Some (hdr p (last_off (Pk o s f :: r) (po p)) o) /\
    forall k, k <> o -> k ∉ po p :: (po <$> r) -> m !! k = packages c !! k.
Proof.
  intros Hc Hnd Ho Hm Hin Hall. apply cyc_cons in Hc as [Hp Hs].
  apply ne_from_nodup in Ho as (Hop & Hpo & Hor). apply NoDup_cons in Hnd as [Hpr Hnd].
  unfold add_to_prev_head, get. rewrite Hp. cbn [mbind option_bind next_head hdr].
  destruct r as [|q r]; cbn [head_off].
  - rewrite (update_eq _ _ _ _ Hp) by (apply Hall, list_elem_of_here). cbn [mbind option_bind packages set_packages].
    rewrite lookup_insert_eq. cbn [mbind option_bind next_head set_prev hdr head_off].
    rewrite (update_eq _ o _ (Package f x y (o + SIZEOF_PACKAGE) s)) by (done || (cbn; by lookups)).
    cbn [mbind option_bind packages set_packages]. erewrite (update_eq _ (po p)); [|cbn; by lookups|apply Hall, list_elem_of_here].
    eexists. split; [done|]. split; [|split].
    + apply cyc_cons. cbn. split_and!; try done; by lookups.
    + by lookups.
    + intros k Hk [Hk' _]%not_elem_of_cons. cbn. by rewrite !lookup_insert_ne.
  - destruct Hs as [Hq Hs]. cbn in Hpr, Hor, Hnd. apply ne_from_nodup in Hpr as (Hpq & Hqp & Hpr).
    apply ne_from_nodup in Hor as (Hoq & Hqo & Hor). apply NoDup_cons in Hnd as [Hqr _].
    rewrite (update_eq _ (po q) _ _ Hq) by (apply Hall, list_elem_of_further, list_elem_of_here). cbn [mbind option_bind packages set_packages].
    rewrite lookup_insert_ne, Hp by done. cbn [mbind option_bind next_head hdr head_off].
    rewrite (update_eq _ o _ (Package f x y (o + SIZEOF_PACKAGE) s)) by (done || (cbn; by lookups)).
    cbn [mbind option_bind packages set_packages]. erewrite (update_eq _ (po p)); [|cbn; lookups; exact Hp|apply Hall, list_elem_of_here].
    eexists. split; [done|]. cbn [packages set_packages]. split; [|split].
    + apply cyc_cons. cbn. split_and!; try by lookups. by rewrite !seg_insert.
    + by lookups.
    + intros k Hk [Hk' [Hkq _]%not_elem_of_cons]%not_elem_of_cons. by rewrite !lookup_insert_ne.
Qed.

Lemma tiles_apart lo l1 p l2 hi q :
  tiles lo (l1 ++ p :: l2) hi -> q ∈ l2 ++ l1 -> po q < po p \/ po p + SIZEOF_PACKAGE + psz p <= po q.
Proof.
  intros (mid & H1 & Hp & H0 & H2)%ring_tiles_app [Hq|Hq]%elem_of_app; [right|left].
  - destruct (tiles_bounds _ _ _ _ H2 Hq) as [? _]. lia.
  - destruct (tiles_bounds _ _ _ _ H1 Hq) as (_ & ? & ?). unfold SIZEOF_PACKAGE in *. lia.
Qed.

Lemma in_area_elem c l p : tiles SIZEOF_CACHE l (cache_buff_length c) -> p ∈ l -> in_area c (po p).
Proof. intros Ht Hp. destruct (tiles_bounds _ _ _ _ Ht Hp) as (? & ? & ?). split; lia. Qed.

Lemma elem_rotate {A} (q p : A) l1 l2 : q ∈ p :: l2 ++ l1 <-> q ∈ l1 ++ p :: l2.
Proof. rewrite elem_of_cons, !elem_of_app, elem_of_cons. tauto. Qed.

(** The first package of a circle changes its flag or its size. *)
Lemma cyc_head m p p' r :
  cyc m (p :: r) -> po p ∉ po <$> r -> po p' = po p ->
  cyc (<[po p := hdr p' (last_off r (po p)) (head_off r (po p))]> m) (p' :: r).
Proof.
  intros [Hp Hs]%cyc_cons Hn E. apply cyc_cons. rewrite E. split; [by lookups|]. by rewrite seg_insert.
Qed.

Lemma cyc_extra m l o x : cyc m l -> o ∉ po <$> l -> cyc (<[o := x]> m) l.
Proof. intros [Hne Hs] Ho. split; [done|]. by rewrite seg_insert. Qed.

Lemma slice_spec c l1 p l2 length small :
  ring_wf c (l1 ++ p :: l2) -> 0 <= length -> length + SIZEOF_PACKAGE <= psz p ->
  let new := po p + SIZEOF_PACKAGE + length in
  exists c', slice_buff c (po p) length small = Some (po p + SIZEOF_PACKAGE, c') /\
    ring_wf c' (l1 ++ Pk (po p) length VALID_FLAG :: Pk new (psz p - length - SIZEOF_PACKAGE) INVALID_FLAG :: l2) /\
    curr_write_pos c' = new /\ cache_buff_length c' = cache_buff_length c /\
    curr_read_pos c' = if small && (curr_read_pos c =? curr_write_pos c) then po p else curr_read_pos c.
Proof.
  intros Hwf Hl0 Hfit new. pose proof Hwf as [_ Ht Hw Hrd Hwr]. destruct (ring_split c l1 p l2 Hwf) as (Hc & Hnd & Hlo & Hhi & Hsz).
  set (r := l2 ++ l1) in *. pose proof Hnd as Hnd'. apply NoDup_cons in Hnd' as [Hpr _].
  assert (forall q, q ∈ p :: r -> in_area c (po q)) as Hall.
  { intros q Hq. apply (in_area_elem c (l1 ++ p :: l2)); [done|]. by apply elem_rotate. }
  unfold SIZEOF_PACKAGE, SIZEOF_CACHE, is_word in *.
  assert (new ∉ po p :: (po <$> r)) as Hnew.
  { apply not_elem_of_cons. split; [unfold new; lia|]. intros (q & Hq & Hin)%list_elem_of_fmap.
    destruct (tiles_apart _ _ _ _ _ q Ht Hin); unfold new, SIZEOF_PACKAGE in *; lia. }
  pose proof Hnew as [Hnp Hnr]%not_elem_of_cons.
  assert (in_area c new) as Hina by (unfold in_area, new, SIZEOF_PACKAGE, SIZEOF_CACHE; lia).
  pose proof Hc as [Hp _]%cyc_cons. unfold slice_buff, get. rewrite Hp. cbn [mbind option_bind hdr package_size].
  rewrite (wrap_small (po p + length)), (wrap_small (psz p - length)) by (unfold is_word; lia).
  unfold SIZEOF_PACKAGE. rewrite (wrap_small (psz p - length - 20)), (wrap_small (po p + length + 20)), (wrap_small (po p + length + 2 * 20)),
    (wrap_small (po p + 20)) by (unfold is_word; lia).
  replace (po p + length + 20) with new by (unfold new; lia). replace (po p + length + 2 * 20) with (new + 20) by (unfold new; lia).
  rewrite put_eq by done. cbn [mbind option_bind]. set (p' := Pk (po p) length VALID_FLAG).
  rewrite (update_eq _ (po p) _ (hdr p (last_off r (po p)) (head_off r (po p))))
    by (cbn; rewrite ?lookup_insert_ne by done; done || (apply Hall, list_elem_of_here)).
  cbn [mbind option_bind set_packages packages cache_buff_length curr_read_pos curr_write_pos hdr next_head prev_head].
  set (m1 := <[po p := _]> _).
  match goal with |- context [add_to_prev_head ?x _ _] =>
    change x with (Cache (cache_buff_length c) (curr_read_pos c) (curr_write_pos c) m1) end.
  assert (cyc m1 (p' :: r)) as Hc1.
  { apply (cyc_head _ p p' r); [|done|done]. apply cyc_extra; done. }
  destruct (add_new (Cache (cache_buff_length c) (curr_read_pos c) (curr_write_pos c) m1) p' r new (psz p - length - 20) INVALID_FLAG 0 0)
    as (m2 & Ha & Hc2 & Hp2 & _); try done.
  { cbn. unfold m1. lookups. done. }
  { intros q [->|Hq]%elem_of_cons; [apply (Hall p), list_elem_of_here|by apply Hall, list_elem_of_further]. }
  change (po p') with (po p) in Ha. unfold set_packages in Ha. cbn in Ha. rewrite Ha. cbn [mbind option_bind].
  set (c2 := if small then _ else _).
  assert (packages c2 = m2 /\ cache_buff_length c2 = cache_buff_length c /\
          curr_read_pos c2 = if small && (curr_read_pos c =? curr_write_pos c) then po p else curr_read_pos c) as (E1 & E2 & E3).
  { unfold c2, handle_small_free_package_at_tail. destruct small; cbn; [|done]. by destruct (curr_read_pos c =? curr_write_pos c). }
  rewrite E1. change (po p') with (po p) in Hp2. rewrite Hp2. cbn [mbind option_bind package_offset next_head hdr p' po].
  eexists. split; [done|]. cbn. split_and!; try done. constructor; cbn; rewrite ?E1, ?E2, ?E3; try done.
  - apply (cyc_rotate _ (p' :: Pk new _ _ :: l2) l1). exact Hc2.
  - apply ring_tiles_app in Ht as (mid & T1 & T2 & T3 & T4). apply ring_tiles_app. exists mid. split; [done|]. cbn.
    unfold new, SIZEOF_PACKAGE in *. split_and!; try lia. by replace (mid + 20 + length + 20 + (psz p - length - 20)) with (mid + 20 + psz p) by lia.
  - rewrite fmap_app, elem_of_app in Hrd |- *. cbn [fmap list_fmap po p'] in Hrd |- *.
    rewrite elem_of_cons in Hrd. rewrite !elem_of_cons. destruct (small && _); tauto.
  - rewrite fmap_app, elem_of_app. cbn [fmap list_fmap po p']. rewrite !elem_of_cons. tauto.
Qed.

(** ** Allocation *)

Definition fits (length : Z) (p : pkg) : Prop :=
  pf p = 0 /\ (psz p = length \/ length + SIZEOF_PACKAGE <= psz p).

(** The packages before the offset [o]. *)
Fixpoint upto (o : Z) (l : list pkg) : list pkg :=
  match l with [] => [] | p :: l => if po p =? o then [] else p :: upto o l end.

(** A change of the flag of one package. *)
Lemma flag_spec c l1 p l2 f :
  ring_wf c (l1 ++ p :: l2) ->
  exists m, update c (po p) (fun x => set_flag x f) = Some (set_packages c m) /\
    ring_wf (set_packages c m) (l1 ++ Pk (po p) (psz p) f :: l2).
Proof.
  intros Hwf. pose proof Hwf as [_ Ht Hw Hrd Hwr]. destruct (ring_split c l1 p l2 Hwf) as (Hc & Hnd & Hlo & Hhi & Hsz).
  apply NoDup_cons in Hnd as [Hpr _]. pose proof Hc as [Hp _]%cyc_cons.
  rewrite (update_eq _ _ _ _ Hp) by (apply (in_area_elem c _ _ Ht), elem_rotate, list_elem_of_here).
  eexists. split; [done|]. constructor; cbn; try done.
  - apply (cyc_rotate _ (Pk (po p) (psz p) f :: l2) l1).
    exact (cyc_head _ p (Pk (po p) (psz p) f) _ Hc Hpr eq_refl).
  - apply ring_tiles_app in Ht as (mid & T1 & T2). apply ring_tiles_app. by exists mid.
  - by rewrite fmap_app in *.
  - by rewrite fmap_app in *.
Qed.

(** What the search does with the package it chose. *)
Definition place (c : ring_buff_cache) (q : pkg) (nxt length : Z) (small : bool) : run (Z * ring_buff_cache) :=
  if psz q =? length then
    c ← lift (update c (po q) (fun p => set_flag p VALID_FLAG));
    let c := if small then handle_small_free_package_at_tail c (po q) else c in
    Ret (po q + SIZEOF_PACKAGE, set_write c nxt)
  else lift (slice_buff c (po q) length small).

Lemma cyc_next m done p todo :
  cyc m (done ++ p :: todo) ->
  exists prev, m !! po p = Some (hdr p prev (head_off (todo ++ done) (po p))).
Proof.
  intros Hc. apply (cyc_rotate _ done (p :: todo)) in Hc. apply cyc_cons in Hc as [Hp _]. by eexists.
Qed.

(** The search on the list of packages: the packages passed over, the one that
    is taken, those after it, and whether a free one was too small. *)
Definition fitsb (length : Z) (p : pkg) : bool :=
  (pf p =? 0) && ((psz p =? length) || (length + SIZEOF_PACKAGE <=? psz p)).

Fixpoint search (rd length : Z) (small : bool) (p : pkg) (todo : list pkg) : option (list pkg * pkg * list pkg * bool) :=
  if fitsb length p then Some ([], p, todo, small) else
  match todo with
  | [] => None
  | p1 :: todo =>
    if po p1 =? rd then None else
    '(k, q, rest, s) ← search rd length (small || (pf p =? 0)) p1 todo; Some (p :: k, q, rest, s)
  end.

Lemma fitsb_spec length p : fitsb length p = true <-> fits length p.
Proof.
  unfold fitsb, fits. rewrite andb_true_iff, orb_true_iff, Z.eqb_eq, Z.eqb_eq, Z.leb_le. done.
Qed.

Lemma search_none rd length todo : forall small p,
  search rd length small p todo = None -> forall q, q ∈ p :: upto rd todo -> ~ fits length q.
Proof.
  induction todo as [|p1 todo IH]; intros small p; cbn; destruct (fitsb length p) eqn:Ef; try done; intros Hs q;
    assert (~ fits length p) as Hp by (rewrite <- fitsb_spec; by rewrite Ef).
  - by intros ->%list_elem_of_singleton.
  - destruct (po p1 =? rd); [by intros ->%list_elem_of_singleton|]. intros [->|Hq]%elem_of_cons; [done|].
    destruct (search rd length (small || (pf p =? 0)) p1 todo) as [[[[? ?] ?] ?]|] eqn:E; [done|]. by apply (IH _ _ E).
Qed.

Lemma search_some rd length todo : forall small p k q rest s,
  search rd length small p todo = Some (k, q, rest, s) ->
  p :: todo = k ++ q :: rest /\ fits length q /\ s = small || existsb (fun x => pf x =? 0) k /\
  rd ∉ po <$> tail (k ++ [q]).
Proof.
  induction todo as [|p1 todo IH]; intros small p k q rest s; cbn; destruct (fitsb length p) eqn:Ef; try done.
  1,2: intros [= <- <- <- <-]; split_and!; [done|by apply fitsb_spec|cbn; by rewrite orb_false_r|apply not_elem_of_nil].
  destruct (Z.eqb_spec (po p1) rd) as [|Hne]; [done|].
  destruct (search rd length (small || (pf p =? 0)) p1 todo) as [[[[k' q'] r'] s']|] eqn:E; [|done].
  intros [= <- <- <- <-]. destruct (IH _ _ _ _ _ _ E) as (E1 & Hf & -> & Hr). split_and!; [cbn; by f_equal|done|cbn; by rewrite orb_assoc|].
  cbn. destruct k' as [|x k']; cbn in E1, Hr |- *; injection E1 as E1 _; subst; apply not_elem_of_cons; by split.
Qed.

(** The loop takes the package the search finds. *)
Lemma alloc_loop_search c length todo : forall done p small fuel,
  cyc (packages c) (done ++ p :: todo) -> head_off (done ++ [p]) 0 = curr_read_pos c \/ curr_read_pos c ∈ po <$> todo ->
  (List.length todo < fuel)%nat -> 0 <= length -> length + SIZEOF_PACKAGE < 4294967296 ->
  alloc_loop fuel c (po p) length small =
    match search (curr_read_pos c) length small p todo with
    | None => Ret (0, c)
    | Some (k, q, rest, s) => place c q (head_off (rest ++ done ++ k) (po q)) length s
    end.
Proof.
  induction todo as [|p1 todo IH]; intros done p small [|fuel] Hc Hr Hf H0 Hlen; cbn in Hf; try lia;
    destruct (cyc_next _ _ _ _ Hc) as [prev Hp]; cbn [alloc_loop search]; unfold get, fitsb; rewrite Hp;
    cbn [lift mbind run_bind valid_flag hdr package_size next_head package_offset];
    unfold req_len_is_gt_package_len; cbn [package_size hdr]; rewrite wrap_small by (unfold is_word, SIZEOF_PACKAGE in *; lia).
  - assert (head_off ([] ++ done) (po p) = curr_read_pos c) as Hnext.
    { destruct Hr as [<-|Hr%not_elem_of_nil]; [|done]. by destruct done. }
    rewrite Hnext, Z.eqb_refl. cbn [negb app]. cbn in Hnext.
    destruct (pf p =? 0); cbn [negb andb]; [|done]. destruct (psz p =? length) eqn:Es; cbn [orb].
    + unfold place. rewrite app_nil_r. cbn [app]. by rewrite ?Hnext, Es.
    + rewrite Z.leb_antisym. destruct (psz p <? length + SIZEOF_PACKAGE); [done|]. cbn [negb]. by unfold place; rewrite Es.
  - cbn [app head_off].
    assert (forall b, (if negb (po p1 =? curr_read_pos c) then alloc_loop fuel c (po p1) length b else Ret (0, c)) =
      match (if po p1 =? curr_read_pos c then None
             else '(k, q, rest, s) ← search (curr_read_pos c) length b p1 todo; Some (p :: k, q, rest, s)) with
      | None => Ret (0, c)
      | Some (k, q, rest, s) => place c q (head_off (rest ++ done ++ k) (po q)) length s
      end) as Hnext.
    { intros b. destruct (Z.eqb_spec (po p1) (curr_read_pos c)) as [E|Hne]; cbn [negb]; [done|].
      rewrite (IH (done ++ [p]) p1 b fuel); try done; try lia; [|by rewrite <- app_assoc|].
      - destruct (search _ _ _ _ _) as [[[[? ?] ?] ?]|]; cbn [mbind option_bind]; [|done]. by rewrite <- (app_assoc done).
      - destruct Hr as [Hr|[Hr|Hr]%elem_of_cons]; [left|by destruct Hne|by right]. rewrite <- Hr. by destruct done. }
    destruct (pf p =? 0); cbn [negb andb]; rewrite ?orb_true_r, ?orb_false_r; [|apply Hnext].
    destruct (psz p =? length) eqn:Es; cbn [orb]; [unfold place; by rewrite Es, app_nil_r|].
    rewrite Z.leb_antisym. destruct (psz p <? length + SIZEOF_PACKAGE); cbn [negb]; [apply Hnext|]. by unfold place; rewrite Es.
Qed.

Lemma head_off_elem l d : head_off l d ∈ d :: (po <$> l).
Proof. destruct l as [|p l]; cbn; [apply list_elem_of_here|apply list_elem_of_further, list_elem_of_here]. Qed.

Lemma set_write_wf c l o : ring_wf c l -> o ∈ po <$> l -> ring_wf (set_write c o) l.
Proof. intros [] Ho. by constructor. Qed.

Lemma set_read_wf c l o : ring_wf c l -> o ∈ po <$> l -> ring_wf (set_read c o) l.
Proof. intros [] Ho. by constructor. Qed.

(** The packages after an allocation of [length] bytes at [p]. *)
Definition carve (p : pkg) (length : Z) : list pkg :=
  if psz p =? length then [Pk (po p) length VALID_FLAG]
  else [Pk (po p) length VALID_FLAG;
        Pk (po p + SIZEOF_PACKAGE + length) (psz p - length - SIZEOF_PACKAGE) INVALID_FLAG].

Lemma place_spec c l1 q l2 nxt length small :
  ring_wf c (l1 ++ q :: l2) -> fits length q -> 0 <= length -> nxt ∈ po <$> (l1 ++ q :: l2) ->
  exists c', place c q nxt length small = Ret (po q + SIZEOF_PACKAGE, c') /\ ring_wf c' (l1 ++ carve q length ++ l2) /\
    curr_write_pos c' = head_off (tail (carve q length)) nxt /\
    curr_read_pos c' = if small && (curr_read_pos c =? curr_write_pos c) then po q else curr_read_pos c.
Proof.
  intros Hwf [_ Hfit] H0 Hn. unfold place, carve. destruct (Z.eqb_spec (psz q) length) as [<-|Hne].
  - destruct (flag_spec c l1 q l2 VALID_FLAG Hwf) as (m & -> & Hwf'). cbn [lift mbind run_bind].
    assert (forall o, o ∈ po <$> (l1 ++ q :: l2) -> o ∈ po <$> (l1 ++ Pk (po q) (psz q) VALID_FLAG :: l2)) as Ho
      by (intros o; by rewrite !fmap_app).
    eexists. split; [done|]. cbn [app]. split_and!; [|done|].
    + apply set_write_wf; [|by apply Ho]. destruct small; [|done].
      unfold handle_small_free_package_at_tail. destruct (_ =? _); [|done]. apply set_read_wf; [done|].
      rewrite fmap_app, elem_of_app. right. apply list_elem_of_here.
    + destruct small; [|done]. unfold handle_small_free_package_at_tail. cbn. by destruct (_ =? _).
  - destruct Hfit as [?|Hfit]; [done|].
    destruct (slice_spec c l1 q l2 length small Hwf H0 Hfit) as (c' & -> & Hwf' & Hw & _ & Hr). by exists c'.
Qed.

Lemma align_range length : is_word length -> 0 <= ALIGN_LONG length.
Proof. intros _. unfold ALIGN_LONG. apply Z.land_nonneg. left. apply wrap_is_word. Qed.

Lemma split_unique x y l1 : forall l2 l1' l2',
  NoDup (po <$> (l1 ++ x :: l2)) -> po x = po y -> l1 ++ x :: l2 = l1' ++ y :: l2' -> l1' = l1 /\ y = x /\ l2' = l2.
Proof.
  induction l1 as [|z l1 IH]; intros l2 [|z' l1'] l2' Hnd Exy [= <- El]; cbn in Hnd.
  - done.
  - exfalso. subst l2. apply NoDup_cons in Hnd as [Hn _]. apply Hn. rewrite Exy, fmap_app, elem_of_app.
    right. apply list_elem_of_here.
  - exfalso. subst l2'. apply NoDup_cons in Hnd as [Hn _]. apply Hn. rewrite <- Exy, fmap_app, elem_of_app.
    right. apply list_elem_of_here.
  - apply NoDup_cons in Hnd as [_ Hnd]. by destruct (IH _ _ _ Hnd Exy El) as (-> & -> & ->).
Qed.

(** ** The queue of written packages

    The packages in the order of the circle from the read position are those
    of [w], up to the write position, and then those of [u].  All packages that
    wait for the reader are in [w], and the first one is such a package. *)

Definition rot (l k : list pkg) : Prop := exists l1 l2, l = l1 ++ l2 /\ k = l2 ++ l1.

Record fifo (c : ring_buff_cache) (w u : list pkg) : Prop := {
  ff_read : curr_read_pos c = head_off (w ++ u) 0;
  ff_write : curr_write_pos c = head_off (u ++ w) 0;
  ff_first : match w with [] => True | p :: _ => pf p = VALID_FLAG end;
  ff_rest : Forall (fun p => pf p <> VALID_FLAG) u
}.

Definition waiting (w : list pkg) : list Z := po <$> filter (fun p => pf p = VALID_FLAG) w.

Definition ring_queue (c : ring_buff_cache) (l : list pkg) (qs : list Z) : Prop :=
  ring_wf c l /\ exists w u, rot l (w ++ u) /\ fifo c w u /\ qs = waiting w.

Lemma rot_sym l k : rot l k -> rot k l.
Proof. intros (l1 & l2 & -> & ->). by exists l2, l1. Qed.

Lemma rot_app l k1 k2 : rot l (k1 ++ k2) -> rot l (k2 ++ k1).
Proof.
  intros (l1 & l2 & -> & [(z & -> & ->)|(z & -> & ->)]%app_eq_inv).
  - exists z, (k2 ++ l2). split; by rewrite <- app_assoc.
  - exists (l1 ++ k1), z. split; by rewrite <- app_assoc.
Qed.

Lemma rot_elem l k (o : Z) : rot l k -> o ∈ po <$> l <-> o ∈ po <$> k.
Proof. intros (l1 & l2 & -> & ->). rewrite !fmap_app, !elem_of_app. tauto. Qed.

Lemma rot_nodup l k : rot l k -> NoDup (po <$> l) -> NoDup (po <$> k).
Proof. intros (l1 & l2 & -> & ->). rewrite !fmap_app. by rewrite Permutation_app_comm. Qed.

(** A package is replaced in both lists. *)
Lemma rot_replace l1 x l2 k : rot (l1 ++ x :: l2) k ->
  exists k1 k2, k = k1 ++ x :: k2 /\ forall X, rot (l1 ++ X ++ l2) (k1 ++ X ++ k2).
Proof.
  intros (a & b & [(z & -> & E)|(z & -> & E)]%app_eq_inv & ->).
  - exists z, (l2 ++ a). split; [rewrite E; by rewrite <- app_assoc|]. intros X. exists a, (z ++ X ++ l2).
    by rewrite <- !app_assoc.
  - destruct z as [|y z]; cbn in E.
    + rewrite app_nil_r, <- E. exists [], (l2 ++ l1). split; [done|]. intros X. exists l1, (X ++ l2). by rewrite <- app_assoc.
    + injection E as <- ->. exists (b ++ l1), z. split; [by rewrite <- app_assoc|]. intros X. exists (l1 ++ X ++ z), b.
      by rewrite <- !app_assoc.
Qed.

(** The package at a position. *)
Lemma rot_head c l p k : ring_wf c l -> rot l (p :: k) -> exists a b, l = a ++ p :: b /\ k = b ++ a.
Proof.
  intros Hwf Hr. pose proof Hr as (l1 & l2 & -> & E). pose proof (tiles_nodup _ _ _ (rw_tiles _ _ Hwf)) as Hnd.
  destruct l2 as [|p' l2]; cbn in E.
  - exists [], k. rewrite <- E, !app_nil_r in *. done.
  - injection E as <- ->. by exists l1, l2.
Qed.

Lemma waiting_app w1 w2 : waiting (w1 ++ w2) = waiting w1 ++ waiting w2.
Proof. unfold waiting. by rewrite filter_app, fmap_app. Qed.

Lemma waiting_none u : Forall (fun p => pf p <> VALID_FLAG) u -> waiting u = [].
Proof.
  induction 1 as [|p u Hp _ IH]; [done|]. unfold waiting in *. by rewrite filter_cons_False.
Qed.

Lemma waiting_valid o s : waiting [Pk o s VALID_FLAG] = [o].
Proof. unfold waiting. by rewrite filter_cons_True. Qed.

(** The part of the circle an allocation may take: from the write position up
    to the read position. *)
Definition carved (w k : list pkg) (q : pkg) (length : Z) (rest : list pkg) : list pkg * list pkg :=
  match w with
  | [] => ([Pk (po q) length VALID_FLAG], tail (carve q length) ++ rest ++ k)
  | _ => (w ++ k ++ [Pk (po q) length VALID_FLAG], tail (carve q length) ++ rest)
  end.

Lemma carve_cons q length : carve q length = Pk (po q) length VALID_FLAG :: tail (carve q length).
Proof. unfold carve. by destruct (_ =? _). Qed.

Lemma carve_rest q length : Forall (fun p => pf p <> VALID_FLAG) (tail (carve q length)).
Proof. unfold carve. destruct (_ =? _); cbn; by repeat constructor. Qed.

(** The search stays in the unused part. *)
Lemma search_unused c w u p k q rest :
  fifo c w (p :: u) -> p :: u ++ w = k ++ q :: rest -> curr_read_pos c ∉ po <$> tail (k ++ [q]) ->
  exists u2, p :: u = k ++ q :: u2 /\ rest = u2 ++ w.
Proof.
  intros Hf E Hr. destruct w as [|v w]; [exists rest; by rewrite !app_nil_r in *|].
  rewrite (ff_read _ _ _ Hf) in Hr. cbn in Hr. change (p :: u ++ v :: w) with ((p :: u) ++ v :: w) in E.
  apply app_eq_inv in E as [(z & Ez & E)|(z & -> & E)].
  - destruct z as [|q' z]; cbn in E.
    + exfalso. injection E as -> _. rewrite app_nil_r in Ez. subst k. apply Hr. cbn. rewrite fmap_app, elem_of_app. right. apply list_elem_of_here.
    + injection E as <- ->. by exists z.
  - exfalso. apply Hr. cbn. rewrite fmap_app, elem_of_app.
    destruct z as [|v' z]; cbn in E; injection E as -> _; [right; apply list_elem_of_here|].
    left. rewrite fmap_app, elem_of_app. right. apply list_elem_of_here.
Qed.

Lemma carved_fifo c c' w u p k q u2 length s :
  fifo c w (p :: u) -> p :: u = k ++ q :: u2 -> NoDup (po <$> (w ++ p :: u)) -> (w = [] -> pf p = 0) ->
  s = existsb (fun x => pf x =? 0) k ->
  curr_write_pos c' = head_off (tail (carve q length)) (head_off ((u2 ++ w) ++ k) (po q)) ->
  curr_read_pos c' = (if s && (curr_read_pos c =? curr_write_pos c) then po q else curr_read_pos c) ->
  let '(w', u') := carved w k q length u2 in fifo c' w' u' /\ waiting w' = waiting w ++ [po q].
Proof.
  intros [Hrd Hwr Hfst Hrest] E Hnd Hp -> Ew Er. rewrite Hrd, Hwr in Er. rewrite E in *. apply Forall_app in Hrest as [Hk Hq].
  apply Forall_cons in Hq as [_ Hu2]. unfold carved. destruct w as [|v w].
  - split; [|by rewrite waiting_valid]. constructor; [| |done|].
    + rewrite Er. destruct k as [|x k]; cbn in *; [done|]. injection E as <- _. rewrite Hp by done. cbn.
      by rewrite Z.eqb_refl.
    + rewrite Ew. rewrite app_nil_r, !head_off_app. done.
    + apply Forall_app. split; [apply carve_rest|]. apply Forall_app. by split.
  - split; [|rewrite !waiting_app, waiting_valid, (waiting_none k) by done; done].
    constructor; [| |done|apply Forall_app; by split; [apply carve_rest|]].
    + rewrite Er. cbn. rewrite (proj2 (Z.eqb_neq _ _)), andb_false_r; [done|]. intros Ev. cbn in Hnd.
      apply NoDup_cons in Hnd as [Hn _]. apply Hn. rewrite Ev, fmap_app, elem_of_app. right.
      rewrite <- E. apply list_elem_of_here.
    + rewrite Ew. by rewrite !head_off_app.
Qed.

Lemma carved_rot l1 q l2 w k u2 length :
  rot ((w ++ k) ++ carve q length ++ u2) (l1 ++ carve q length ++ l2) ->
  let '(w', u') := carved w k q length u2 in rot (l1 ++ carve q length ++ l2) (w' ++ u').
Proof.
  intros Hr%rot_sym. unfold carved. destruct w as [|v w].
  - apply rot_app in Hr. rewrite carve_cons in Hr at 2. cbn in Hr |- *. by rewrite <- app_assoc in Hr.
  - rewrite carve_cons in Hr at 2. cbn in Hr |- *. by rewrite <- !app_assoc in *.
Qed.

Definition window (c : ring_buff_cache) (l : list pkg) (q : pkg) : Prop :=
  exists a p b, l = a ++ p :: b /\ po p = curr_write_pos c /\ q ∈ p :: upto (curr_read_pos c) (b ++ a).

Lemma wf_nodup c l k : ring_wf c l -> rot l k -> NoDup (po <$> k).
Proof. intros Hwf Hr. apply (rot_nodup l); [done|]. apply (tiles_nodup _ _ _ (rw_tiles _ _ Hwf)). Qed.

(** The buffer is full when both positions are at a package in use. *)
Lemma full_spec c l w u : ring_wf c l -> rot l (w ++ u) -> fifo c w u ->
  cache_is_full c = Some true \/ exists p u', u = p :: u' /\ cache_is_full c = Some false /\ (w = [] -> pf p = 0).
Proof.
  intros Hwf Hr [Hrd Hwt Hf _]. unfold cache_is_full. rewrite Hrd, Hwt. unfold get. destruct u as [|p u].
  - rewrite app_nil_r in *. rewrite Z.eqb_refl. destruct w as [|p w].
    { destruct Hr as (l1 & l2 & -> & E). symmetry in E. apply app_eq_nil in E as [-> ->]. by destruct (rw_cyc _ _ Hwf). }
    destruct (rot_head _ _ _ _ Hwf Hr) as (a & b & -> & _). destruct (cyc_next _ _ _ _ (rw_cyc _ _ Hwf)) as [prev Hp].
    left. cbn [head_off app]. rewrite Hp. cbn. by rewrite Hf.
  - destruct w as [|v w]; cbn [head_off app].
    + destruct (rot_head _ _ _ _ Hwf Hr) as (a & b & -> & _). destruct (cyc_next _ _ _ _ (rw_cyc _ _ Hwf)) as [prev Hp].
      rewrite Z.eqb_refl, Hp. cbn. destruct (Z.eqb_spec (pf p) 0) as [E|E]; [right; by exists p, u|by left].
    + right. exists p, u. split_and!; [done| |done]. rewrite (proj2 (Z.eqb_neq _ _)); [done|]. intros E.
      pose proof (wf_nodup _ _ _ Hwf Hr) as Hnd. cbn in Hnd. apply NoDup_cons in Hnd as [Hn _]. apply Hn.
      rewrite fmap_app, elem_of_app, <- E. right. apply list_elem_of_here.
Qed.

Lemma ring_alloc_spec fuel c l qs length :
  ring_queue c l qs -> (List.length l <= fuel)%nat -> is_word length ->
  ALIGN_LONG length + SIZEOF_PACKAGE < 4294967296 ->
  exists o c', ring_buff_alloc fuel c length = Ret (o, c') /\
    ((o = 0 /\ c' = c /\ (cache_is_full c = Some true \/ forall q, window c l q -> ~ fits (ALIGN_LONG length) q)) \/
     (exists l1 q l2, l = l1 ++ q :: l2 /\ fits (ALIGN_LONG length) q /\ o = po q + SIZEOF_PACKAGE /\
        ring_queue c' (l1 ++ carve q (ALIGN_LONG length) ++ l2) (qs ++ [po q]))).
Proof.
  intros [Hwf (w & u & Hr & Hff & ->)] Hf Hw Hlen. unfold ring_buff_alloc. set (L := ALIGN_LONG length) in *.
  assert (0 <= L) as HL by (by apply align_range).
  destruct (full_spec _ _ _ _ Hwf Hr Hff) as [->|(p & u' & -> & -> & Hp0)]; cbn [lift mbind run_bind].
  { exists 0, c. split; [done|]. left. split_and!; try done. by left. }
  pose proof (rot_app _ _ _ Hr) as Hr'. cbn in Hr'. destruct (rot_head _ _ _ _ Hwf Hr') as (a & b & El & Eab).
  pose proof (ff_write _ _ _ Hff) as Hwp. cbn in Hwp. rewrite Hwp.
  rewrite (alloc_loop_search c L (u' ++ w) [] p false fuel); try done.
  2: { cbn [app]. rewrite Eab. apply (cyc_rotate _ a (p :: b)). rewrite <- El. apply (rw_cyc _ _ Hwf). }
  2: { rewrite (ff_read _ _ _ Hff). destruct w as [|v w]; [by left|right]. cbn. rewrite fmap_app, elem_of_app. right. apply list_elem_of_here. }
  2: { rewrite Eab. subst l. rewrite !length_app in *. cbn in Hf. lia. }
  destruct (search _ _ _ _ _) as [[[[k q] rest] s]|] eqn:Es.
  2: { exists 0, c. split; [done|]. left. split_and!; try done. right. intros q (a' & p' & b' & El' & Hp' & Hq).
       rewrite El in El'. destruct (split_unique p p' a b a' b') as (-> & -> & ->); try done; [|congruence|].
       { rewrite <- El. apply (tiles_nodup _ _ _ (rw_tiles _ _ Hwf)). }
       rewrite Eab in Es. by apply (search_none _ _ _ _ _ Es). }
  destruct (search_some _ _ _ _ _ _ _ _ _ Es) as (E1 & Hfit & Hs & Hrd).
  destruct (search_unused _ _ _ _ _ _ _ Hff E1 Hrd) as (u2 & E2 & ->).
  pose proof Hr as Hr2. rewrite E2, app_assoc in Hr2. apply rot_sym in Hr2.
  destruct (rot_replace _ _ _ _ Hr2) as (l1 & l2 & -> & Hrep).
  destruct (place_spec c l1 q l2 (head_off ((u2 ++ w) ++ [] ++ k) (po q)) L s Hwf Hfit HL) as (c' & -> & Hwf' & Hw' & Hr0').
  { rewrite (rot_elem _ _ _ Hr'), E1. pose proof (head_off_elem ((u2 ++ w) ++ k) (po q)) as Hh. cbn [app].
    rewrite fmap_app, elem_of_cons, elem_of_app in Hh. rewrite fmap_app, elem_of_app. cbn. rewrite elem_of_cons. tauto. }
  eexists _, c'. split; [done|]. right. exists l1, q, l2. split_and!; try done.
  pose proof (carved_fifo c c' w u' p k q u2 L s Hff E2 (wf_nodup _ _ _ Hwf Hr) Hp0 Hs Hw' Hr0') as Hc1.
  pose proof (carved_rot l1 q l2 w k u2 L (Hrep (carve q L))) as Hc2.
  destruct (carved w k q L u2) as [w' u'']. destruct Hc1 as [Hc1 <-]. split; [done|]. by exists w', u''.
Qed.

(** ** Release *)

Definition merge_pk (a b : pkg) : pkg := Pk (po a) (psz a + SIZEOF_PACKAGE + psz b) (pf a).

Definition moved (o from to : Z) : Z := if from =? o then to else o.

Lemma move_positions_eq c from to :
  curr_read_pos (move_positions c from to) = moved (curr_read_pos c) from to /\
  curr_write_pos (move_positions c from to) = moved (curr_write_pos c) from to.
Proof.
  unfold move_positions, moved. destruct (from =? curr_write_pos c); cbn; by destruct (from =? curr_read_pos c).
Qed.

Lemma move_wf c (l l' : list pkg) a b :
  is_word (cache_buff_length c) -> curr_read_pos c ∈ po <$> l -> curr_write_pos c ∈ po <$> l ->
  cyc (packages c) l' -> tiles SIZEOF_CACHE l' (cache_buff_length c) -> a ∈ po <$> l' ->
  (forall o, o ∈ po <$> l -> o <> b -> o ∈ po <$> l') -> ring_wf (move_positions c b a) l'.
Proof.
  intros Hl Hr Hw Hc Ht Ha Hk. unfold move_positions.
  assert (forall c0, packages c0 = packages c -> cache_buff_length c0 = cache_buff_length c ->
            curr_read_pos c0 ∈ po <$> l' -> curr_write_pos c0 ∈ po <$> l' -> ring_wf c0 l') as Hmk.
  { intros c0 E1 E2 H1 H2. constructor; rewrite ?E1, ?E2; done. }
  destruct (Z.eqb_spec b (curr_write_pos c)) as [E1|E1]; cbn [curr_read_pos set_write];
    destruct (Z.eqb_spec b (curr_read_pos c)) as [E2|E2]; apply Hmk; cbn; try done; apply Hk; congruence.
Qed.

Lemma cyc_merge_map m p q r x :
  cyc m (p :: q :: r) -> NoDup (po p :: po q :: (po <$> r)) ->
  let m1 := <[po p := hdr p (last_off (q :: r) (po p)) (head_off r (po p))]> m in
  m1 !! head_off r (po p) = Some x ->
  let m2 := <[head_off r (po p) := set_prev x (po p)]> m1 in
  m2 !! po q = Some (hdr q (po p) (head_off r (po p))) /\
  m2 !! po p = Some (hdr p (last_off r (po p)) (head_off r (po p))) /\ seg m2 (po p) r (po p).
Proof.
  intros Hc Hnd m1 Hx m2. apply cyc_cons in Hc as [Hp [Hq Hs]]. cbn in Hs.
  apply NoDup_cons in Hnd as [(Hpq & Hpr)%not_elem_of_cons Hnd]. apply NoDup_cons in Hnd as [Hqr Hnd].
  destruct r as [|y r]; cbn in *.
  - unfold m2, m1 in *. rewrite lookup_insert_eq in Hx. injection Hx as <-. split_and!; by lookups.
  - apply not_elem_of_cons in Hpr as [Hpy Hpr]. apply not_elem_of_cons in Hqr as [Hqy Hqr]. apply NoDup_cons in Hnd as [Hyr Hnd].
    destruct Hs as [Hy Hs]. unfold m2, m1 in *. rewrite lookup_insert_ne, Hy in Hx by done. injection Hx as <-.
    split_and!; [by lookups|by lookups|by lookups|]. by rewrite !seg_insert.
Qed.

Lemma merge_spec c l1 p q l2 :
  ring_wf c (l1 ++ p :: q :: l2) ->
  exists c', merge_heads c (po p) (po q) = Some c' /\ ring_wf c' (l1 ++ merge_pk p q :: l2) /\
    curr_read_pos c' = moved (curr_read_pos c) (po q) (po p) /\ curr_write_pos c' = moved (curr_write_pos c) (po q) (po p).
Proof.
  intros Hwf. pose proof Hwf as [_ Ht Hw Hrd Hwr]. destruct (ring_split c l1 p (q :: l2) Hwf) as (Hc & Hnd & Hlo & _ & _).
  cbn [app] in Hc, Hnd. set (r := l2 ++ l1) in *. rewrite fmap_cons in Hnd.
  assert (forall x, x ∈ p :: q :: r -> in_area c (po x)) as Hall.
  { intros x Hx. apply (in_area_elem c _ _ Ht). apply elem_rotate. done. }
  pose proof Hc as [Hp [Hq _]]%cyc_cons. apply ring_tiles_app in Ht as (mid & T1 & T2 & T3 & T4 & T5 & T6).
  pose proof (ring_tiles_le _ _ _ T6) as T7. pose proof (ring_tiles_le _ _ _ T1) as T0.
  unfold merge_heads, get. rewrite Hq. cbn [mbind option_bind next_head hdr].
  rewrite (update_eq _ _ _ _ Hp) by (apply Hall, list_elem_of_here). cbn [mbind option_bind packages set_packages].
  match goal with |- context [<[po p := ?v]> (packages c)] =>
    change v with (hdr p (last_off (q :: r) (po p)) (head_off r (po p))) end.
  set (m1 := <[po p := _]> (packages c)).
  assert (po p <> po q) as Hpq by (apply NoDup_cons in Hnd as [[? _]%not_elem_of_cons _]; done).
  assert (m1 !! po q = Some (hdr q (po p) (head_off r (po p)))) as -> by (unfold m1; by rewrite lookup_insert_ne).
  cbn [mbind option_bind next_head hdr].
  assert (exists x, m1 !! head_off r (po p) = Some x) as [x Hx].
  { unfold m1. destruct r as [|y r]; cbn; [by eexists; lookups|]. destruct (Z.eq_dec (po p) (po y)) as [->|Hn]; [by eexists; lookups|].
    rewrite lookup_insert_ne by done. apply cyc_cons in Hc as (_ & _ & Hy & _). by eexists. }
  rewrite (update_eq _ _ _ x); [|done|]. 2: { destruct r as [|y r]; [apply (Hall p), list_elem_of_here|].
    apply (Hall y). do 2 apply list_elem_of_further. apply list_elem_of_here. }
  cbn [mbind option_bind packages set_packages].
  destruct (cyc_merge_map (packages c) p q r x Hc Hnd Hx) as (M1 & M2 & M3). fold m1 in M1, M2, M3.
  rewrite M1. cbn [mbind option_bind package_size hdr]. erewrite (update_eq _ (po p)); [|exact M2|apply (Hall p), list_elem_of_here].
  cbn [mbind option_bind packages set_packages]. eexists. split; [done|].
  set (m2 := <[head_off r (po p) := _]> m1) in *. unfold SIZEOF_CACHE, SIZEOF_PACKAGE, is_word in *.
  match goal with |- context [<[po p := ?v]> m2] =>
    replace v with (hdr (merge_pk p q) (last_off r (po p)) (head_off r (po p))) end.
  2: { unfold set_size, hdr, merge_pk. cbn. unfold SIZEOF_PACKAGE.
       rewrite (wrap_small (psz p + psz q)) by (unfold is_word; lia). rewrite wrap_small by (unfold is_word; lia). f_equal. lia. }
  split; [|match goal with |- curr_read_pos (move_positions ?x ?a ?b) = _ /\ _ => exact (move_positions_eq x a b) end].
  apply (move_wf _ (l1 ++ p :: q :: l2)); try done.
  - apply (cyc_rotate _ (merge_pk p q :: l2) l1). apply cyc_cons. cbn. split; [by lookups|]. rewrite seg_insert; [exact M3|].
    apply NoDup_cons in Hnd as [[_ ?]%not_elem_of_cons _]. done.
  - apply ring_tiles_app. exists mid. split; [done|]. cbn. unfold SIZEOF_PACKAGE. split_and!; [done|lia|].
    by replace (mid + 20 + (psz p + 20 + psz q)) with (mid + 20 + psz p + 20 + psz q) by lia.
  - rewrite fmap_app, elem_of_app. right. apply list_elem_of_here.
  - intros o. rewrite !fmap_app, !elem_of_app. cbn. rewrite !elem_of_cons. tauto.
Qed.

(** A released package joins a free package after it, and then a free package
    before it. *)
Definition join (p : pkg) (l : list pkg) : list pkg :=
  match l with
  | [] => [p]
  | q :: r => if pf q =? 0 then merge_pk p q :: r else p :: l
  end.

Definition release (l1 : list pkg) (p : pkg) (l2 : list pkg) : list pkg :=
  match last l1 with
  | Some v => if pf v =? 0 then removelast l1 ++ join (merge_pk v p) l2 else l1 ++ join p l2
  | None => join p l2
  end.

Lemma tiles_first lo l1 p l2 hi : tiles lo (l1 ++ p :: l2) hi -> (po p =? lo) = bool_decide (l1 = []).
Proof.
  destruct l1 as [|v l1]; cbn; [intros (-> & _); apply Z.eqb_refl|]. intros (_ & Hv & Ht).
  destruct (tiles_bounds _ _ _ p Ht) as [Hle _]; [apply elem_of_app; right; apply list_elem_of_here|].
  unfold SIZEOF_PACKAGE in *. apply Z.eqb_neq. lia.
Qed.

(** Two neighbours of the circle. *)
Lemma rot_pair l1 x y l2 k : rot (l1 ++ x :: y :: l2) k ->
  (exists k1 k2, k = k1 ++ x :: y :: k2 /\ forall z, rot (l1 ++ z :: l2) (k1 ++ z :: k2)) \/
  (exists k0, k = y :: k0 ++ [x] /\ forall z, rot (l1 ++ z :: l2) (z :: k0)).
Proof.
  intros (a & b & [(z & -> & E)|(z & -> & E)]%app_eq_inv & ->).
  - left. exists z, (l2 ++ a). split; [rewrite E; by rewrite <- app_assoc|]. intros x'. exists a, (z ++ x' :: l2).
    by rewrite <- !app_assoc.
  - destruct z as [|x' [|y' z]]; cbn in E.
    + left. rewrite app_nil_r, <- E. exists [], (l2 ++ l1). split; [done|]. intros z. by exists l1, (z :: l2).
    + right. injection E as <- <-. exists (l2 ++ l1). split; [cbn; by rewrite app_assoc|]. intros z. by exists l1, (z :: l2).
    + left. injection E as <- <- ->. exists (b ++ l1), z. split; [by rewrite <- app_assoc|]. intros x'. exists (l1 ++ x' :: z), b.
      by rewrite <- !app_assoc.
Qed.

Lemma second_not_head k k1 x y k2 : k = k1 ++ x :: y :: k2 -> NoDup (po <$> k) ->
  (po y =? head_off k 0) = false /\ head_off k 0 = head_off (k1 ++ merge_pk x y :: k2) 0.
Proof.
  intros -> Hnd. split; [|by rewrite !head_off_app]. apply Z.eqb_neq. rewrite fmap_app in Hnd. destruct k1 as [|z k1]; cbn in *.
  - apply NoDup_cons in Hnd as [[Hn _]%not_elem_of_cons _]. by apply not_eq_sym.
  - apply NoDup_cons in Hnd as [Hn _]. intros E. apply Hn. rewrite <- E, elem_of_app. right.
    apply list_elem_of_further, list_elem_of_here.
Qed.

Lemma waiting_drop w1 x w2 : pf x <> VALID_FLAG -> waiting (w1 ++ x :: w2) = waiting (w1 ++ w2).
Proof. intros Hx. rewrite !waiting_app. unfold waiting at 2. by rewrite filter_cons_False. Qed.

(** Two neighbours that do not wait for the reader are merged: the queue and
    the positions in it stay. *)
Lemma merge_inside c c' w u k1 x y k2 :
  w ++ u = k1 ++ x :: y :: k2 -> NoDup (po <$> (w ++ u)) -> pf x <> VALID_FLAG -> pf y <> VALID_FLAG -> fifo c w u ->
  curr_read_pos c' = moved (curr_read_pos c) (po y) (po x) -> curr_write_pos c' = moved (curr_write_pos c) (po y) (po x) ->
  exists w' u', w' ++ u' = k1 ++ merge_pk x y :: k2 /\ fifo c' w' u' /\ waiting w' = waiting w.
Proof.
  intros E Hnd Hx Hy [Hrd Hwt Hf Hu] Er Ew. rewrite Hrd in Er. rewrite Hwt in Ew. unfold moved in *.
  assert (NoDup (po <$> (u ++ w))) as Hnd2 by (rewrite fmap_app in *; by rewrite Permutation_app_comm).
  destruct (second_not_head _ _ _ _ _ E Hnd) as [E1 E2]. rewrite E1, E2 in Er. apply app_eq_inv in E as [(z & -> & E)|(z & -> & ->)].
  - destruct z as [|y' z]; cbn in E; [subst u|injection E as <- E; destruct z as [|y' z]; cbn in E; [subst u|injection E as <- ->]].
    + rewrite app_nil_r in *. destruct (second_not_head ((x :: y :: k2) ++ k1) [] x y (k2 ++ k1) eq_refl Hnd2) as [E3 E4]. rewrite E3, E4 in Ew.
      exists k1, (merge_pk x y :: k2). split_and!; [done| |done]. apply Forall_cons in Hu as [_ [_ Hu]%Forall_cons].
      constructor; try done. by constructor.
    + cbn in Ew. rewrite Z.eqb_refl in Ew. exists k1, (merge_pk x y :: k2). apply Forall_cons in Hu as [_ Hu].
      split_and!; [done| |by rewrite waiting_drop, app_nil_r]. constructor; try done; [by destruct k1|by constructor].
    + destruct (second_not_head _ (u ++ k1) x y z (app_assoc _ _ _) Hnd2) as [E3 E4]. rewrite E3, E4 in Ew.
      exists (k1 ++ merge_pk x y :: z), u. split_and!; [by rewrite <- app_assoc| |by rewrite !waiting_drop].
      constructor; try done; [by rewrite Er, <- app_assoc|by rewrite Ew, <- app_assoc|by destruct k1].
  - assert ((z ++ x :: y :: k2) ++ w = z ++ x :: y :: (k2 ++ w)) as Ez by (by rewrite <- app_assoc).
    destruct (second_not_head _ _ _ _ _ Ez Hnd2) as [E3 E4]. rewrite E3, E4 in Ew.
    exists w, (z ++ merge_pk x y :: k2). apply Forall_app in Hu as [Hu1 [_ [_ Hu2]%Forall_cons]%Forall_cons].
    split_and!; [by rewrite app_assoc| |done]. constructor; try done; [by rewrite Er, <- app_assoc|by rewrite Ew, <- app_assoc|].
    apply Forall_app. split; [done|]. by constructor.
Qed.

Lemma merge_fifo c c' w u x y l1 l2 :
  ring_wf c (l1 ++ x :: y :: l2) -> rot (l1 ++ x :: y :: l2) (w ++ u) -> fifo c w u ->
  pf x <> VALID_FLAG -> pf y <> VALID_FLAG ->
  curr_read_pos c' = moved (curr_read_pos c) (po y) (po x) -> curr_write_pos c' = moved (curr_write_pos c) (po y) (po x) ->
  exists w' u', rot (l1 ++ merge_pk x y :: l2) (w' ++ u') /\ fifo c' w' u' /\ waiting w' = waiting w.
Proof.
  intros Hwf Hr Hff Hx Hy Er Ew. pose proof (wf_nodup _ _ _ Hwf Hr) as Hn.
  destruct (rot_pair _ _ _ _ _ Hr) as [(k1 & k2 & E & Hz)|(k0 & E & Hz)]; specialize (Hz (merge_pk x y)).
  - destruct (merge_inside c c' w u k1 x y k2 E Hn Hx Hy Hff Er Ew) as (w' & u' & E' & H'). exists w', u'. by rewrite E'.
  - destruct Hff as [Hrd Hwt Hf Hu]. rewrite Hrd in Er. rewrite Hwt in Ew. unfold moved in *.
    destruct w as [|p w]; [|by injection E as -> _]. cbn in E. subst u. exists [], (merge_pk x y :: k0).
    split_and!; [done| |done]. cbn in *. rewrite Z.eqb_refl in *. apply Forall_cons in Hu as [_ [Hu _]%Forall_app].
    constructor; try done. by constructor.
Qed.

Lemma merge_queue c l1 p q l2 qs :
  ring_queue c (l1 ++ p :: q :: l2) qs -> pf p <> VALID_FLAG -> pf q <> VALID_FLAG ->
  exists c', merge_heads c (po p) (po q) = Some c' /\ ring_queue c' (l1 ++ merge_pk p q :: l2) qs.
Proof.
  intros [Hwf (w & u & Hr & Hff & ->)] Hp Hq. destruct (merge_spec c l1 p q l2 Hwf) as (c' & E & Hwf' & Er & Ew).
  destruct (merge_fifo c c' w u p q l1 l2 Hwf Hr Hff Hp Hq Er Ew) as (w' & u' & H1 & H2 & <-).
  exists c'. split; [done|]. split; [done|]. by exists w', u'.
Qed.

Lemma mereg_next_spec c l1 p q l2 qs :
  ring_queue c (l1 ++ p :: q :: l2) qs -> pf p <> VALID_FLAG ->
  exists c', mereg_next c (po p) (po q) = Some c' /\ ring_queue c' (l1 ++ join p (q :: l2)) qs.
Proof.
  intros Hq Hp. unfold mereg_next, get, join.
  assert (ring_wf c ((l1 ++ [p]) ++ q :: l2)) as Hwf' by (rewrite <- app_assoc; apply Hq).
  destruct (cyc_next _ _ _ _ (rw_cyc _ _ Hwf')) as [prev ->]. cbn [mbind option_bind valid_flag hdr].
  destruct (Z.eqb_spec (pf q) 0) as [E|E]; [|by exists c]. apply merge_queue; try done. by rewrite E.
Qed.

(** The flag of a package that does not wait for the reader. *)
Lemma flag_fifo c m w u k1 p k2 f :
  w ++ u = k1 ++ p :: k2 -> pf p <> VALID_FLAG -> f <> VALID_FLAG -> fifo c w u ->
  exists w' u', w' ++ u' = k1 ++ Pk (po p) (psz p) f :: k2 /\ fifo (set_packages c m) w' u' /\ waiting w' = waiting w.
Proof.
  intros E Hp Hf [Hrd Hwt Hfst Hu]. set (p' := Pk (po p) (psz p) f).
  assert (forall l l', head_off (l ++ p :: l') 0 = head_off (l ++ p' :: l') 0) as Hh by (intros l l'; by rewrite !head_off_app).
  rewrite E, Hh in Hrd. apply app_eq_inv in E as [(z & -> & E)|(z & -> & ->)].
  - destruct z as [|x z]; cbn in E; [subst u|injection E as <- ->].
    + rewrite app_nil_r in *. exists k1, (p' :: k2). split_and!; [done| |done].
      constructor; try done. constructor; [done|]. by apply Forall_cons in Hu as [_ Hu].
    + exists (k1 ++ p' :: z), u. split_and!; [by rewrite <- app_assoc| |by rewrite !waiting_drop].
      constructor; cbn; try done; [by rewrite Hrd, <- app_assoc| |by destruct k1].
      rewrite Hwt, !app_assoc. apply Hh.
  - exists w, (z ++ p' :: k2). apply Forall_app in Hu as [Hu1 [_ Hu2]%Forall_cons].
    split_and!; [by rewrite app_assoc| |done]. constructor; cbn; try done.
    + by rewrite Hrd, <- app_assoc.
    + rewrite Hwt, <- !app_assoc. apply Hh.
    + apply Forall_app. split; [done|]. by constructor.
Qed.

Lemma flag_queue c l1 p l2 f qs :
  ring_queue c (l1 ++ p :: l2) qs -> pf p <> VALID_FLAG -> f <> VALID_FLAG ->
  exists m, update c (po p) (fun x => set_flag x f) = Some (set_packages c m) /\
    ring_queue (set_packages c m) (l1 ++ Pk (po p) (psz p) f :: l2) qs.
Proof.
  intros [Hwf (w & u & Hr & Hff & ->)] Hp Hf. destruct (flag_spec c l1 p l2 f Hwf) as (m & E & Hwf').
  destruct (rot_replace _ _ _ _ Hr) as (k1 & k2 & Ek & Hrep).
  destruct (flag_fifo c m w u k1 p k2 f Ek Hp Hf Hff) as (w' & u' & E' & Hff' & <-).
  exists m. split; [done|]. split; [done|]. exists w', u'. split_and!; try done. rewrite E'. apply (Hrep [_]).
Qed.

Lemma free_spec c l1 p l2 qs :
  ring_queue c (l1 ++ p :: l2) qs -> l1 ++ l2 <> [] -> pf p <> 0 -> pf p <> VALID_FLAG ->
  exists c', ring_buff_free c (po p + SIZEOF_PACKAGE) = Some c' /\
    ring_queue c' (release l1 (Pk (po p) (psz p) INVALID_FLAG) l2) qs.
Proof.
  intros Hq Hne Hf Hv. pose proof Hq as [Hwf _].
  destruct (ring_split _ _ _ _ Hwf) as (Hc & _ & Hlo & Hhi & Hsz). pose proof Hc as [Hp _]%cyc_cons.
  pose proof (rw_len _ _ Hwf) as Hl. destruct (flag_queue c l1 p l2 INVALID_FLAG qs Hq) as (m & Hu & Hwf'); try done.
  unfold ring_buff_free. unfold SIZEOF_CACHE, SIZEOF_PACKAGE, is_word in Hlo, Hhi, Hl |- *.
  replace (po p + 20 -w 20) with (po p) by (symmetry; replace (po p + 20 - 20) with (po p) by lia; apply wrap_small; unfold is_word; lia).
  unfold update in Hu. unfold get in Hu |- *. rewrite Hp in Hu |- *. cbn [mbind option_bind] in Hu |- *.
  cbn [valid_flag hdr] in *. rewrite (proj2 (Z.eqb_neq _ _) Hf), Hu. cbn [mbind option_bind].
  set (c1 := set_packages c m) in *. set (p0 := Pk (po p) (psz p) INVALID_FLAG) in *. clear Hu. cbn [prev_head next_head hdr].
  pose proof (rw_tiles _ _ (proj1 Hwf')) as Ht. rewrite (tiles_first _ _ p0 _ _ Ht : (po p =? 16) = _).
  unfold release. destruct l1 as [|v k1 _] using rev_ind.
  { rewrite bool_decide_true by done. rewrite app_nil_r. destruct l2 as [|q l2]; [done|]. cbn [head_off].
    by apply (mereg_next_spec c1 [] p0 q l2). }
  rewrite bool_decide_false by (by destruct k1). rewrite last_snoc, removelast_last, !last_off_app. cbn [last_off].
  rewrite <- app_assoc in Hwf', Ht. cbn [app] in Hwf', Ht.
  destruct (cyc_next _ _ _ _ (rw_cyc _ _ (proj1 Hwf'))) as [prev Hpv].
  rewrite Hpv. cbn [mbind option_bind valid_flag hdr].
  assert (exists c2 x, (if pf v =? 0 then c ← merge_heads c1 (po v) (po p); Some (po v, c) else Some (po p, c1)) = Some (po x, c2) /\
            ring_queue c2 ((if pf v =? 0 then k1 else k1 ++ [v]) ++ x :: l2) qs /\ x = (if pf v =? 0 then merge_pk v p0 else p0) /\
            pf x <> VALID_FLAG)
    as (c2 & x & Eq & Hwf2 & Ex & Hx).
  { destruct (Z.eqb_spec (pf v) 0) as [Ev|Ev].
    - destruct (merge_queue c1 k1 v p0 l2 qs Hwf') as (c2 & Em & Hwf2); [by rewrite Ev|done|]. change (po p0) with (po p) in Em.
      rewrite Em. exists c2, (merge_pk v p0). split_and!; try done. cbn. by rewrite Ev.
    - exists c1, p0. split_and!; try done. by rewrite <- app_assoc. }
  rewrite Eq. cbn [mbind option_bind]. destruct l2 as [|q l2]; cbn [app head_off].
  - assert (head_off (k1 ++ [v]) (po p) = 16) as ->.
    { destruct k1 as [|z k1]; cbn in Ht |- *; apply Ht. }
    cbn. exists c2. split; [done|]. destruct (pf v =? 0); by subst x.
  - replace (po q =? 16) with false.
    2: { symmetry. assert (po q =? SIZEOF_CACHE = bool_decide (k1 ++ [v; p0] = [])) as E.
         { apply (tiles_first _ _ q l2 (cache_buff_length c1)). by rewrite <- app_assoc. }
         unfold SIZEOF_CACHE in E. rewrite E. apply bool_decide_false. by destruct k1. }
    destruct (mereg_next_spec c2 _ x q l2 qs Hwf2 Hx) as (c' & Em & Hwf3). exists c'. split; [done|].
    destruct (pf v =? 0); by subst x.
Qed.

(** ** Reading *)

(** The next package for the reader, or the write position. *)
Fixpoint next_pos (wr : Z) (l : list pkg) : Z :=
  match l with
  | [] => wr
  | q :: l => if po q =? wr then wr else if pf q =? VALID_FLAG then po q else next_pos wr l
  end.

Lemma next_read_spec c todo : forall done fuel,
  cyc (packages c) (done ++ todo) -> curr_write_pos c ∈ po <$> todo \/ head_off done 0 = curr_write_pos c -> done <> [] ->
  (List.length todo < fuel)%nat ->
  next_read fuel c (head_off (todo ++ done) 0) = Ret (next_pos (curr_write_pos c) todo).
Proof.
  induction todo as [|q todo IH]; intros done [|fuel] Hc Hw Hne Hf; cbn in Hf; try lia; cbn [next_read app head_off next_pos].
  - destruct Hw as [Hw%not_elem_of_nil| ->]; [done|]. by rewrite Z.eqb_refl.
  - destruct (Z.eqb_spec (po q) (curr_write_pos c)) as [E|E]; [done|]. unfold get.
    destruct (cyc_next _ _ _ _ Hc) as [prev ->]. cbn [lift mbind run_bind valid_flag next_head hdr].
    destruct (pf q =? VALID_FLAG); [done|].
    rewrite <- (IH (done ++ [q]) fuel); [|by rewrite <- app_assoc| |by destruct done|lia].
    + f_equal. rewrite !head_off_app. by destruct done.
    + destruct Hw as [[Hw|Hw]%elem_of_cons|Hw]; [by destruct E|by left|right]. rewrite <- Hw. by destruct done.
Qed.

(** The packages up to the next one that waits for the reader. *)
Lemma valid_span (w : list pkg) : exists s t, w = s ++ t /\ Forall (fun p => pf p <> VALID_FLAG) s /\
  match t with [] => True | p :: _ => pf p = VALID_FLAG end.
Proof.
  induction w as [|p w (s & t & -> & Hs & Ht)]; [by exists [], []|].
  destruct (Z.eq_dec (pf p) VALID_FLAG) as [E|E]; [by exists [], (p :: s ++ t)|]. exists (p :: s), t. split_and!; try done. by constructor.
Qed.

Lemma next_pos_skip wr s l : Forall (fun p => pf p <> VALID_FLAG) s -> wr ∉ po <$> s -> next_pos wr (s ++ l) = next_pos wr l.
Proof.
  induction 1 as [|p s Hp _ IH]; [done|]. intros [Hn Hs]%not_elem_of_cons. cbn.
  rewrite (proj2 (Z.eqb_neq _ _) (not_eq_sym Hn)), (proj2 (Z.eqb_neq _ _) Hp). by apply IH.
Qed.

(** From the first waiting package the position moves to the second, or to the
    write position. *)
Lemma next_pos_window c p s t u :
  fifo c (p :: s ++ t) u -> NoDup (po <$> (p :: (s ++ t) ++ u)) ->
  Forall (fun x => pf x <> VALID_FLAG) s -> match t with [] => True | x :: _ => pf x = VALID_FLAG end ->
  next_pos (curr_write_pos c) ((s ++ t) ++ u) = head_off t (curr_write_pos c).
Proof.
  intros Hff Hnd Hs Ht. rewrite <- app_assoc.
  assert (curr_write_pos c ∉ po <$> (s ++ t)) as Hw.
  { rewrite (ff_write _ _ _ Hff). cbn in Hnd. rewrite fmap_app in Hnd. apply NoDup_cons in Hnd as [Hn Hnd].
    apply not_elem_of_app in Hn as [Hn _]. destruct u as [|x u]; [done|]. cbn in Hnd |- *.
    apply NoDup_app in Hnd as (_ & Hd & _). intros Hx. apply (Hd _ Hx), list_elem_of_here. }
  rewrite fmap_app in Hw. apply not_elem_of_app in Hw as [Hw1 Hw2]. rewrite next_pos_skip by done.
  destruct t as [|x t]; cbn.
  - destruct u as [|x u]; [done|]. cbn. rewrite (ff_write _ _ _ Hff). cbn. by rewrite Z.eqb_refl.
  - apply not_elem_of_cons in Hw2 as [Hw2 _]. by rewrite (proj2 (Z.eqb_neq _ _) (not_eq_sym Hw2)), Ht.
Qed.

Lemma next_read_at c l p k fuel : ring_wf c l -> rot l (p :: k) -> (List.length l <= fuel)%nat ->
  exists prev nxt, packages c !! po p = Some (hdr p prev nxt) /\ next_read fuel c nxt = Ret (next_pos (curr_write_pos c) k).
Proof.
  intros Hwf Hr Hf. destruct (rot_head _ _ _ _ Hwf Hr) as (a & b & -> & ->).
  pose proof (cyc_rotate _ a (p :: b) (rw_cyc _ _ Hwf) : cyc _ (p :: b ++ a)) as Hc.
  pose proof Hc as [Hp _]%cyc_cons. eexists _, _. split; [done|].
  rewrite <- (next_read_spec c (b ++ a) [p] fuel); try done.
  - by rewrite (head_off_app (b ++ a) [p]).
  - pose proof (rw_write _ _ Hwf) as Hw. apply (rot_elem _ _ _ Hr) in Hw. apply elem_of_cons in Hw as [Hw|Hw]; [by right|by left].
  - rewrite length_app in *. cbn in Hf. lia.
Qed.

Lemma read_spec fuel c l qs :
  ring_queue c l qs -> (List.length l <= fuel)%nat ->
  match qs with
  | [] => ring_cache_read_package fuel c = Ret (0, c)
  | o :: qs' => exists l1 p l2 c', l = l1 ++ p :: l2 /\ po p = o /\ pf p = VALID_FLAG /\
      ring_cache_read_package fuel c = Ret (o, c') /\ ring_queue c' (l1 ++ Pk o (psz p) BUSY_FLAG :: l2) qs'
  end.
Proof.
  intros [Hwf (w & u & Hr & Hff & ->)] Hf. unfold ring_cache_read_package, get. pose proof Hff as [Hrd Hwt Hfst Hu].
  rewrite Hrd. destruct w as [|p w]; cbn [app head_off] in *. 
  - destruct u as [|p u].
    { destruct Hr as (l1 & l2 & -> & E). symmetry in E. apply app_eq_nil in E as [-> ->]. by destruct (rw_cyc _ _ Hwf). }
    cbn [head_off app]. destruct (next_read_at _ _ _ _ _ Hwf Hr Hf) as (prev & nxt & -> & En). cbn [lift mbind run_bind next_head hdr valid_flag head_off].
    rewrite En. cbn [mbind run_bind]. apply Forall_cons in Hu as [Hp Hu]. rewrite (proj2 (Z.eqb_neq _ _) Hp).
    assert (next_pos (curr_write_pos c) u = curr_read_pos c) as ->.
    { rewrite Hwt, Hrd. cbn. pose proof (wf_nodup _ _ _ Hwf Hr) as Hnd. cbn in Hnd. apply NoDup_cons in Hnd as [Hn _].
      rewrite <- (app_nil_r u). by rewrite next_pos_skip. }
    by destruct c.
  - destruct (valid_span w) as (s & t & -> & Hs & Ht). destruct (rot_head _ _ _ _ Hwf Hr) as (a & b & -> & Eab).
    destruct (next_read_at _ _ _ _ _ Hwf Hr Hf) as (prev & nxt & -> & En). cbn [lift mbind run_bind next_head hdr valid_flag].
    rewrite En. cbn [mbind run_bind]. rewrite (next_pos_window c p s t u Hff (wf_nodup _ _ _ Hwf Hr) Hs Ht).
    rewrite Hfst, Z.eqb_refl. cbn [andb].
    change (p :: s ++ t) with ([p] ++ s ++ t). rewrite !waiting_app, (waiting_none s) by done.
    assert (waiting [p] = [po p]) as -> by (destruct p; cbn in Hfst; subst; apply waiting_valid). cbn [app].
    destruct (flag_spec (set_read c (head_off t (curr_write_pos c))) a p b BUSY_FLAG) as (m & E & Hwf').
    { apply set_read_wf; [done|]. apply (rot_elem _ _ _ Hr). destruct t as [|x t]; cbn.
      - apply (rot_elem _ _ _ Hr), (rw_write _ _ Hwf).
      - rewrite !fmap_app. apply elem_of_cons. right. rewrite !elem_of_app. left. right. apply list_elem_of_here. }
    rewrite E. cbn [lift mbind run_bind]. eexists a, p, b, _. split_and!; try done. split; [done|].
    exists t, (u ++ Pk (po p) (psz p) BUSY_FLAG :: s). split_and!; [|constructor; cbn|done].
    + apply (rot_app _ (u ++ Pk (po p) (psz p) BUSY_FLAG :: s) t). rewrite <- app_assoc. apply (rot_app _ (_ :: s ++ t) u).
      cbn. rewrite Eab. by exists a, (Pk (po p) (psz p) BUSY_FLAG :: b).
    + rewrite Hwt, !head_off_app. by destruct t, u.
    + rewrite Hwt, !head_off_app. by destruct u.
    + done.
    + apply Forall_app. split; [done|]. by constructor.
Qed.

(** ** Correctness *)

(** [ring_buff_head_init] makes one free package of the whole area behind
    the two headers, with nothing to read; an area that is too short for the
    headers is written past its end. *)
Theorem ring_buff_head_init_correct length : is_word length ->
  match ring_buff_head_init length with
  | Some c => 36 <= length /\ ring_queue c [Pk SIZEOF_CACHE (length - 36) INVALID_FLAG] []
  | None => length < 36
  end.
Proof.
  intros Hw. unfold ring_buff_head_init, put. cbn [cache_buff_length]. unfold SIZEOF_CACHE, SIZEOF_PACKAGE. cbn [andb Z.leb Z.compare Z.add Pos.add Pos.compare Pos.compare_cont].
  destruct (Z.leb_spec (16 + 20) length) as [H|H]; cbn [andb]; [|cbn; lia]. split; [lia|]. unfold is_word in *.
  assert (length -w 20 -w 16 = length - 36) as E.
  { rewrite (wrap_small (length - 20)) by (unfold is_word; lia). rewrite wrap_small by (unfold is_word; lia). lia. }
  split.
  - constructor; cbn; unfold SIZEOF_CACHE, SIZEOF_PACKAGE; [|split_and!; lia|done|apply list_elem_of_here|apply list_elem_of_here].
    apply cyc_cons. cbn. split; [|done]. rewrite E. by lookups.
  - exists [], [Pk 16 (length - 36) INVALID_FLAG]. split_and!; [by exists [], [Pk 16 (length - 36) INVALID_FLAG]| |done].
    constructor; cbn; try done. by repeat constructor.
Qed.

Lemma ring_buff_head_init_witness :
  is_word 100 /\ exists c, ring_buff_head_init 100 = Some c /\ ring_queue c [Pk 16 64 0] [].
Proof.
  assert (is_word 100) as Hw by (unfold is_word; lia). split; [done|].
  pose proof (ring_buff_head_init_correct 100 Hw) as H. destruct (ring_buff_head_init 100) as [c|] eqn:E; [|done].
  exists c. split; [done|]. exact (proj2 H).
Defined.

(** A ring with one package in use at the start and a free one after it. *)
Definition sample_ring (f rd : Z) : ring_buff_cache :=
  Cache 136 rd 56 (<[16 := Package f 56 56 36 20]> {[56 := Package 0 16 16 76 60]}).

Lemma sample_wf f rd : rd ∈ [16; 56] -> ring_wf (sample_ring f rd) [Pk 16 20 f; Pk 56 60 0].
Proof.
  intros Hr. constructor; cbn; [|by unfold SIZEOF_CACHE, SIZEOF_PACKAGE; split_and!; lia|unfold is_word; lia|done|].
  - apply cyc_cons. cbn. by split_and!.
  - apply list_elem_of_further, list_elem_of_here.
Qed.

Lemma sample_busy : ring_queue (sample_ring 2 56) [Pk 16 20 2; Pk 56 60 0] [].
Proof.
  split; [apply sample_wf, list_elem_of_further, list_elem_of_here|]. exists [], [Pk 56 60 0; Pk 16 20 2].
  split_and!; [by exists [Pk 16 20 2], [Pk 56 60 0]| |done]. constructor; cbn; try done. by repeat constructor.
Qed.

Lemma sample_valid : ring_queue (sample_ring 1 16) [Pk 16 20 1; Pk 56 60 0] [16].
Proof.
  split; [apply sample_wf, list_elem_of_here|]. exists [Pk 16 20 1], [Pk 56 60 0].
  split_and!; [by exists [], [Pk 16 20 1; Pk 56 60 0]| |done]. constructor; cbn; try done. by repeat constructor.
Qed.

(** C4: [ring_buff_alloc] ends, and on a well-formed ring it either returns
    NULL and changes nothing, when the ring is full or no free package from the
    write position up to the read position can hold the request, or it takes
    such a package, gives back the rest as a free package, and appends it to
    the queue of the packages that wait for the reader. *)
Theorem ring_buff_alloc_correct fuel c l qs length :
  ring_queue c l qs -> (List.length l <= fuel)%nat -> is_word length ->
  ALIGN_LONG length + SIZEOF_PACKAGE < 4294967296 ->
  exists o c', ring_buff_alloc fuel c length = Ret (o, c') /\
    ((o = 0 /\ c' = c /\ (cache_is_full c = Some true \/ forall q, window c l q -> ~ fits (ALIGN_LONG length) q)) \/
     (exists l1 q l2, l = l1 ++ q :: l2 /\ fits (ALIGN_LONG length) q /\ o = po q + SIZEOF_PACKAGE /\
        ring_queue c' (l1 ++ carve q (ALIGN_LONG length) ++ l2) (qs ++ [po q]))).
Proof. apply ring_alloc_spec. Qed.

Lemma ring_buff_alloc_witness :
  exists o c', ring_buff_alloc 2 (sample_ring 1 16) 10 = Ret (o, c') /\ o = 76 /\
    ring_queue c' [Pk 16 20 1; Pk 56 12 1; Pk 88 28 0] [16; 56].
Proof.
  destruct (ring_buff_alloc_correct 2 (sample_ring 1 16) [Pk 16 20 1; Pk 56 60 0] [16] 10)
    as (o & c' & E & [(-> & _)|(l1 & q & l2 & El & Hf & Ho & Hq)]).
  - apply sample_valid.
  - cbn. lia.
  - unfold is_word. lia.
  - vm_compute. reflexivity.
  - exfalso. vm_compute in E. discriminate E.
  - exists o, c'. split; [exact E|]. vm_compute in E. injection E as <- _. split; [reflexivity|].
    destruct l1 as [|p1 [|p2 l1]]; cbn in El.
    + exfalso. injection El as <- _. destruct Hf as [Hf _]. discriminate Hf.
    + injection El as <- <- <-. exact Hq.
    + destruct l1; discriminate El.
Defined.

(** [ring_buff_free] of a package the reader has taken makes it free and
    joins it with a free package before it and after it; the queue of the
    packages that wait for the reader stays.  [ring_buff_free_package] does the
    same from the header of the package. *)
Theorem ring_buff_free_correct c l1 p l2 qs :
  ring_queue c (l1 ++ p :: l2) qs -> l1 ++ l2 <> [] -> pf p = BUSY_FLAG ->
  exists c', ring_buff_free c (po p + SIZEOF_PACKAGE) = Some c' /\ ring_buff_free_package c (po p) = Some c' /\
    ring_queue c' (release l1 (Pk (po p) (psz p) INVALID_FLAG) l2) qs.
Proof.
  intros Hq Hne Hp. pose proof (ring_split _ _ _ _ (proj1 Hq)) as ([Hc _]%cyc_cons & _ & Hlo & Hhi & Hsz).
  pose proof (rw_len _ _ (proj1 Hq)) as Hl. destruct (free_spec c l1 p l2 qs Hq Hne) as (c' & E & Hq'); [by rewrite Hp..|].
  exists c'. split_and!; try done. unfold ring_buff_free_package, get. rewrite Hc. cbn [mbind option_bind package_offset hdr].
  unfold SIZEOF_CACHE, SIZEOF_PACKAGE, is_word in *. rewrite <- E.
  replace (po p - (po p + 20)) with (-20) by lia. rewrite wrap_small with (z := po p + 20) by (unfold is_word; lia). done.
Qed.

Lemma ring_buff_free_witness :
  exists c', ring_buff_free (sample_ring 2 56) 36 = Some c' /\ ring_queue c' [Pk 16 100 0] [].
Proof.
  destruct (ring_buff_free_correct (sample_ring 2 56) [] (Pk 16 20 2) [Pk 56 60 0] []) as (c' & E & _ & Hq).
  - exact sample_busy.
  - discriminate.
  - reflexivity.
  - exists c'. split; [exact E|exact Hq].
Defined.

(** [ring_cache_read_package] ends and takes the package at the front of
    the queue, which it marks as busy; when none waits it returns NULL and
    changes nothing. *)
Theorem ring_cache_read_package_correct fuel c l qs :
  ring_queue c l qs -> (List.length l <= fuel)%nat ->
  match qs with
  | [] => ring_cache_read_package fuel c = Ret (0, c)
  | o :: qs' => exists l1 p l2 c', l = l1 ++ p :: l2 /\ po p = o /\ pf p = VALID_FLAG /\
      ring_cache_read_package fuel c = Ret (o, c') /\ ring_queue c' (l1 ++ Pk o (psz p) BUSY_FLAG :: l2) qs'
  end.
Proof. apply read_spec. Qed.

Lemma ring_cache_read_package_witness :
  exists c', ring_cache_read_package 2 (sample_ring 1 16) = Ret (16, c') /\
    ring_queue c' [Pk 16 20 2; Pk 56 60 0] [].
Proof.
  destruct (ring_cache_read_package_correct 2 (sample_ring 1 16) [Pk 16 20 1; Pk 56 60 0] [16] sample_valid)
    as (l1 & p & l2 & c' & El & Hp & Hv & E & Hq).
  - cbn. lia.
  - exists c'. split; [exact E|]. destruct l1 as [|p1 [|p2 l1]]; cbn in El.
    + injection El as <- <-. exact Hq.
    + injection El as _ <- _. discriminate Hv.
    + destruct l1; discriminate El.
Defined.

(** A header that is its own neighbour is merged with itself. *)
Lemma merge_self c x : packages c !! po x = Some (hdr x (po x) (po x)) -> in_area c (po x) ->
  exists c', merge_heads c (po x) (po x) = Some c' /\
    packages c' !! po x = Some (set_size (hdr x (po x) (po x)) (psz x +w psz x +w SIZEOF_PACKAGE)).
Proof.
  intros Hx Ha. unfold merge_heads, get. rewrite Hx. cbn [mbind option_bind next_head hdr].
  rewrite (update_eq _ _ _ _ Hx Ha). cbn [mbind option_bind packages set_packages]. lookups. cbn [mbind option_bind next_head set_next hdr].
  erewrite update_eq; [|cbn; by lookups|done]. cbn [mbind option_bind packages set_packages]. lookups. cbn [mbind option_bind].
  erewrite update_eq; [|cbn; by lookups|done]. cbn [mbind option_bind packages set_packages]. eexists. split; [done|].
  unfold move_positions. destruct (_ =? _); cbn; destruct (_ =? _); cbn; by lookups.
Qed.

(** The only package of a ring (an allocation that took all of it) is merged
    with itself when it is released: its size becomes more than the whole
    area. *)
Theorem ring_buff_free_only_package c p qs :
  ring_queue c [p] qs -> pf p = BUSY_FLAG -> psz p < 2147483638 ->
  exists c' h, ring_buff_free c (po p + SIZEOF_PACKAGE) = Some c' /\ packages c' !! po p = Some h /\
    package_size h = 2 * psz p + SIZEOF_PACKAGE.
Proof.
  intros [Hwf _] Hp Hs. destruct (ring_split c [] p [] Hwf) as ([Hc _]%cyc_cons & _ & Hlo & Hhi & Hsz). cbn in Hc.
  pose proof (rw_len _ _ Hwf) as Hl. destruct (flag_spec c [] p [] INVALID_FLAG Hwf) as (m & Hu & Hwf').
  pose proof (rw_tiles _ _ Hwf) as [Ht _]. unfold ring_buff_free. unfold SIZEOF_CACHE, SIZEOF_PACKAGE, is_word in *.
  replace (po p + 20 - 20) with (po p) by lia. rewrite wrap_small by (unfold is_word; lia).
  unfold update in Hu. unfold get in Hu |- *. rewrite Hc in Hu |- *. cbn [mbind option_bind] in Hu |- *.
  cbn [valid_flag hdr] in *. rewrite Hp. cbn [Z.eqb BUSY_FLAG]. rewrite Hu. cbn [mbind option_bind].
  rewrite (proj2 (Z.eqb_eq _ _) Ht). unfold mereg_next, get. cbn [next_head hdr].
  pose proof Hwf' as [[Hc' _]%cyc_cons _ _ _ _]. cbn in Hc'. cbn [packages set_packages]. rewrite Hc'. cbn [mbind option_bind valid_flag hdr pf Z.eqb INVALID_FLAG].
  destruct (merge_self (set_packages c m) (Pk (po p) (psz p) INVALID_FLAG)) as (c' & E & Hg); [done|unfold in_area, SIZEOF_CACHE, SIZEOF_PACKAGE; cbn [cache_buff_length set_packages po]; lia|].
  exists c'. eexists. split_and!; [exact E|exact Hg|]. cbn. unfold SIZEOF_PACKAGE.
  rewrite (wrap_small (psz p + psz p)) by (unfold is_word; lia). rewrite wrap_small by (unfold is_word; lia). lia.
Qed.

Lemma ring_buff_free_only_witness :
  exists c' h, ring_buff_free (Cache 136 16 16 {[16 := Package 2 16 16 36 100]}) 36 = Some c' /\
    packages c' !! 16 = Some h /\ package_size h = 220.
Proof.
  apply (ring_buff_free_only_package (Cache 136 16 16 {[16 := Package 2 16 16 36 100]}) (Pk 16 100 2) []).
  - split.
    + constructor; cbn; [|by unfold SIZEOF_CACHE, SIZEOF_PACKAGE; split_and!; lia|unfold is_word; lia|apply list_elem_of_here|apply list_elem_of_here].
      apply cyc_cons. cbn. by split_and!.
    + exists [], [Pk 16 100 2]. split_and!; [by exists [], [Pk 16 100 2]| |done]. constructor; cbn; try done. by repeat constructor.
  - reflexivity.
  - cbn. lia.
Defined.

(** A request within 20 bytes of the largest size passes the test of any
    package that can hold a header: the sum wraps. *)
Lemma req_len_wraps p length :
  is_word length -> 4294967296 - SIZEOF_PACKAGE <= length -> SIZEOF_PACKAGE <= package_size p ->
  req_len_is_gt_package_len p length = false.
Proof.
  unfold is_word, req_len_is_gt_package_len, SIZEOF_PACKAGE, wrap. intros Hw Hl Hp. apply Z.ltb_ge.
  replace (length + 20) with (length + 20 - 4294967296 + 1 * 4294967296) by lia. rewrite Z.mod_add, Z.mod_small by lia. lia.
Qed.
