(* ===== verification/Msg.v ===== *)
(** * Thread messages

    [source/libs/common/msg.c], [source/libs/common/include/message.h],
    [source/kernel/process/msg.c] and the message functions of
    [source/libs/grid/sys/process.c].  A thread has a ring of slots in memory
    it shares with the kernel: a sender reserves consecutive slots for a
    header and the data under the lock of the ring, fills them and then marks
    the header as new; the receiver handles the message at its position, frees
    its slots and goes on behind it.  A pointer to a slot is the index of the
    slot, a pointer to data the index of a word of the ring. *)

From stdpp Require Import gmap.
From S2P Require Import Prelude Sched.
Import SchedOps.

Definition MSG_STATUS_NEW : Z := 2.
Definition MSG_STATUS_USED_BIT : Z := 8.
Definition MSG_FLAGS_ADDRESS : Z := 16.
Definition MSG_FLAGS_SYNC : Z := 32.
Definition SIZEOF_Y_MESSAGE : Z := 8.

(** [struct y_message]: [count] and [flags] are unsigned shorts. *)
Record y_message := Msg { m_count : Z; m_flags : Z; m_what : Z }.

(** The part of [struct y_message_instance] that describes the ring;
    [current_slot] is [None] without a ring. *)
Record y_message_instance := Instance { current_slot : option nat; slot_buffer_size : Z }.

Module MsgOps.

Definition set_flags (m : y_message) (f : Z) : y_message := Msg (m_count m) f (m_what m).

Definition add_msg_count (data_count : Z) : nat :=
  Z.to_nat ((data_count * SIZEOF_LONG + SIZEOF_Y_MESSAGE - 1) / SIZEOF_Y_MESSAGE).

Definition MSG_GET_NEXT_SLOT (size : Z) (cur : nat) : nat :=
  if size <=? SIZEOF_Y_MESSAGE * Z.of_nat (S cur) then O else S cur.

Definition MSG_GET_NEXT_DATA (size : Z) (cur : nat) : nat :=
  if size <=? SIZEOF_LONG * Z.of_nat (S cur) then O else S cur.

(** ** The receiver *)

(** [message_clean]; the argument is the number of slots. *)
Fixpoint message_clean (size : Z) (mem : list y_message) (cur : nat) (count : nat) : option (nat * list y_message) :=
  match count with
  | O => Some (cur, mem)
  | S count =>
    m ← mem !! cur;
    message_clean size (<[cur := set_flags m 0]> mem) (MSG_GET_NEXT_SLOT size cur) count
  end.

(** The functions of a [struct y_message_instance]; [invoke] is the call of
    the code at an address. *)
Record receiver := Receiver {
  filter_msg : option (list y_message -> nat -> bool);
  find_handler : option (Z -> Z);
  invoke : Z -> list y_message -> nat -> list y_message;
  response_sync : list y_message -> nat -> list y_message
}.

(** The calls the receiver makes, with the position and the ring they find:
    the code at an address, and the kernel that acknowledges a message. *)
Inductive event := Call (fn : Z) (what : nat) (mem : list y_message) | Ack (what : nat) (mem : list y_message).

Definition call (rc : receiver) (fn : Z) (mem : list y_message) (what : nat) : list event * list y_message :=
  ([Call fn what mem], invoke rc fn mem what).

Definition dispatch_msg (rc : receiver) (mem : list y_message) (what : nat) (m : y_message)
  : list event * list y_message :=
  if has_flag (m_flags m) MSG_FLAGS_ADDRESS then call rc (m_what m) mem what
  else match find_handler rc with
       | Some find => let fn := find (m_what m) in if fn =? 0 then ([], mem) else call rc fn mem what
       | None => ([], mem)
       end.

Definition handle_message (rc : receiver) (size : Z) (mem : list y_message) (what : nat)
  : option (nat * list y_message * list event) :=
  let r := match filter_msg rc with Some f => f mem what | None => true end in
  m ← mem !! what;
  let count := m_count m in
  let '(called, mem) := if r then dispatch_msg rc mem what m else ([], mem) in
  m ← mem !! what;
  let '(acked, mem) :=
    if has_flag (m_flags m) MSG_FLAGS_SYNC then ([Ack what mem], response_sync rc mem what) else ([], mem) in
  '(next, mem) ← message_clean size mem (MSG_GET_NEXT_SLOT size what) (add_msg_count count);
  m ← mem !! what;
  Some (next, <[what := set_flags m 0]> mem, called ++ acked).

(** The inner loop of [message_loop]: all messages up to the next sleep. *)
Fixpoint handle_new (fuel : nat) (rc : receiver) (size : Z) (mem : list y_message) (cur : nat)
  : run (nat * list y_message * list event) :=
  match fuel with
  | O => NoFuel
  | S fuel =>
    m ← lift (mem !! cur);
    if has_flag (m_flags m) MSG_STATUS_NEW then
      '(cur, mem, es) ← lift (handle_message rc size mem cur);
      '(cur, mem, es') ← handle_new fuel rc size mem cur;
      Ret (cur, mem, es ++ es')
    else Ret (cur, mem, [])
  end.

Fixpoint reset_loop (fuel : nat) (size : Z) (mem : list y_message) (cur : nat) : run (list y_message) :=
  match fuel with
  | O => NoFuel
  | S fuel =>
    m ← lift (mem !! cur);
    let mem := <[cur := set_flags m 0]> mem in
    let cur := MSG_GET_NEXT_SLOT size cur in
    if Nat.eqb cur 0 then Ret mem else reset_loop fuel size mem cur
  end.

Definition message_reset_all (fuel : nat) (size : Z) (mem : list y_message) : run (list y_message) :=
  reset_loop fuel size mem 0.

(** ** Data of a message *)

Definition data_word (m : y_message) (hi : bool) : Z :=
  if hi then m_what m else m_count m + 65536 * m_flags m.
Definition set_data_word (m : y_message) (hi : bool) (w : Z) : y_message :=
  if hi then Msg (m_count m) (m_flags m) w else Msg (w mod 65536) (w / 65536) (m_what m).

Definition read_data (mem : list y_message) (cur : nat) : option Z :=
  m ← mem !! Nat.div2 cur; Some (data_word m (Nat.odd cur)).
Definition write_data (mem : list y_message) (cur : nat) (w : Z) : option (list y_message) :=
  m ← mem !! Nat.div2 cur; Some (<[Nat.div2 cur := set_data_word m (Nat.odd cur) w]> mem).

(** [MSG_DATA_START] *)
Definition data_start (size : Z) (what : nat) : nat := 2 * MSG_GET_NEXT_SLOT size what.

Fixpoint read_loop (size : Z) (mem : list y_message) (cur : nat) (count : nat) : option (list Z) :=
  match count with
  | O => Some []
  | S count =>
    data ← read_data mem cur;
    rest ← read_loop size mem (MSG_GET_NEXT_DATA size cur) count;
    Some (data :: rest)
  end.

Definition y_message_read (size : Z) (mem : list y_message) (what : nat) : option (list Z) :=
  m ← mem !! what; read_loop size mem (data_start size what) (Z.to_nat (m_count m)).

Fixpoint write_loop (size : Z) (mem : list y_message) (cur : nat) (args : list Z) : option (list y_message) :=
  match args with
  | [] => Some mem
  | data :: args =>
    mem ← write_data mem cur data; write_loop size mem (MSG_GET_NEXT_DATA size cur) args
  end.

Definition y_message_writeback (size : Z) (mem : list y_message) (what : nat) (args : list Z)
  : option (Z * list y_message) :=
  m ← mem !! what;
  if m_count m <? Z.of_nat (length args) then Some (-1, mem) else
  mem ← write_loop size mem (data_start size what) args; Some (Z.of_nat (length args), mem).

(** ** Handlers of a process *)

(** [struct message_desc] in [registered_handler]. *)
Record message_desc := Desc { msg_id : Z; callback : Z }.

Fixpoint message_default_find_handler (l : list message_desc) (id : Z) : Z :=
  match l with
  | [] => 0
  | d :: l => if msg_id d =? id then callback d else message_default_find_handler l id
  end.

(** [node] is whether [crt_alloc] has memory. *)
Definition y_message_register (node : bool) (l : list message_desc) (message_id call_back_func : Z)
  : bool * list message_desc :=
  if negb (message_default_find_handler l message_id =? 0) then (false, l)
  else if negb node then (false, l)
  else (true, l ++ [Desc message_id call_back_func]).

(** ** The sender *)

(** The search for consecutive slots: at most [todo] more are looked at. *)
Fixpoint find_slots (todo : nat) (size : Z) (mem : list y_message) (tmp dst i : nat) : option nat :=
  match todo with
  | O => Some i
  | S todo =>
    m ← mem !! dst;
    if has_flag MSG_STATUS_USED_BIT (m_flags m) then Some i else
    let dst := MSG_GET_NEXT_SLOT size dst in
    if Nat.eqb dst tmp then Some (S i) else find_slots todo size mem tmp dst (S i)
  end.

Fixpoint mark_slots (todo : nat) (size : Z) (mem : list y_message) (dst : nat) : option (nat * list y_message) :=
  match todo with
  | O => Some (dst, mem)
  | S todo =>
    m ← mem !! dst;
    mark_slots todo size (<[dst := set_flags m (Z.lor (m_flags m) MSG_STATUS_USED_BIT)]> mem) (MSG_GET_NEXT_SLOT size dst)
  end.

(** The data slots are copied behind [dst]; [src] is the message after the
    last slot that was copied. *)
Fixpoint copy_slots (todo : nat) (size : Z) (mem : list y_message) (dst : nat) (src : list y_message) : option (list y_message) :=
  match todo, src with
  | O, _ => Some mem
  | S _, [] => None
  | S todo, s :: src =>
    let dst := MSG_GET_NEXT_SLOT size dst in
    _ ← mem !! dst; copy_slots todo size (<[dst := s]> mem) dst src
  end.

(** The part of [send] under the lock: the slots are reserved and the data is
    copied; [None] when there is no room. *)
Definition reserve (desc : y_message_instance) (mem : list y_message) (what : list y_message)
  : option (option nat * y_message_instance * list y_message) :=
  w ← head what;
  let size := slot_buffer_size desc in
  let count := add_msg_count (m_count w) in
  match current_slot desc with
  | None => Some (None, desc, mem)
  | Some tmp =>
    i ← find_slots (S count) size mem tmp tmp 0;
    if negb (Nat.eqb i (S count)) then Some (None, desc, mem) else
    '(dst, mem) ← mark_slots (S count) size mem tmp;
    mem ← copy_slots count size mem tmp (tail what);
    Some (Some tmp, Instance (Some dst) size, mem)
  end.

(** The part after the lock, which makes the message visible. *)
Definition fire (mem : list y_message) (dst : nat) (what : list y_message) : option (list y_message) :=
  w ← head what;
  m ← mem !! dst;
  Some (<[dst := Msg (m_count w) (Z.lor (Z.lor (m_flags m) (m_flags w)) MSG_STATUS_NEW) (m_what w)]> mem).

End MsgOps.
Import MsgOps.

(** A handler that was registered is found, and the others stay; a second
    handler for the same message is refused. *)
Theorem y_message_register_correct l id fn :
  (forall d, d ∈ l -> callback d <> 0) ->
  exists l', y_message_register true l id fn = (message_default_find_handler l id =? 0, l') /\
    (message_default_find_handler l id = 0 -> message_default_find_handler l' id = fn) /\
    (message_default_find_handler l id <> 0 -> l' = l) /\
    forall id', id' <> id -> message_default_find_handler l' id' = message_default_find_handler l id'.
Proof.
  intros Hl. unfold y_message_register.
  assert (forall id', message_default_find_handler l id' = 0 -> forall d, d ∈ l -> msg_id d <> id') as Hno.
  { intros id'. clear id fn. induction l as [|d l IH]; cbn; [by intros _ d ?%not_elem_of_nil|].
    destruct (Z.eqb_spec (msg_id d) id') as [E|E].
    - intros H0. destruct (Hl d); [apply list_elem_of_here|done].
    - intros H0 d' [->|Hd]%elem_of_cons; [done|]. apply IH; [|done..]. intros x Hx. apply Hl. by apply list_elem_of_further. }
  assert (forall id', message_default_find_handler (l ++ [Desc id fn]) id' =
    if existsb (fun d => msg_id d =? id') l then message_default_find_handler l id' else if id =? id' then fn else 0) as Happ.
  { intros id'. clear Hl Hno. induction l as [|d l IH]; [done|]. cbn. by destruct (msg_id d =? id'). }
  assert (forall id', existsb (fun d => msg_id d =? id') l = false -> message_default_find_handler l id' = 0) as Hnone.
  { intros id'. clear Hl Hno Happ. induction l as [|d l IH]; [done|]. cbn. by destruct (msg_id d =? id'). }
  destruct (Z.eqb_spec (message_default_find_handler l id) 0) as [E|E]; cbn [negb]; [|by exists l].
  eexists. split; [done|]. split_and!; [|done|].
  - intros _. rewrite Happ, Z.eqb_refl. destruct (existsb _ l) eqn:Ex; [|done].
    apply existsb_exists in Ex as (d & Hd%list_elem_of_In & Ed). zbool. by destruct (Hno id E d Hd).
  - intros id' Hne. rewrite Happ. destruct (existsb _ l) eqn:Ex; [done|]. rewrite (proj2 (Z.eqb_neq id id')) by congruence.
    symmetry. by apply Hnone.
Qed.

(** ** Positions of the ring *)

Section Ring.

Context (N : nat) (HN : (0 < N)%nat).
Local Notation size := (SIZEOF_Y_MESSAGE * Z.of_nat N).
Local Notation at_ r i := (rotate_nat_add r i N).

Lemma next_at r i : MSG_GET_NEXT_SLOT size (at_ r i) = at_ r (S i).
Proof.
  rewrite rotate_nat_add_S by done. pose proof (rotate_nat_add_lt r i N HN) as Hx.
  unfold MSG_GET_NEXT_SLOT, SIZEOF_Y_MESSAGE. set (x := at_ r i) in *.
  destruct (Z.leb_spec (8 * Z.of_nat N) (8 * Z.of_nat (S x))) as [H|H].
  - assert (S x = N) as -> by lia. by rewrite Nat.Div0.mod_same.
  - rewrite Nat.mod_small; lia.
Qed.

Lemma at_0 r : (r < N)%nat -> at_ r 0 = r.
Proof. apply rotate_nat_add_0. Qed.

Lemma at_at r i j : at_ (at_ r i) j = at_ r (i + j).
Proof.
  rewrite rotate_nat_add_add by done. unfold rotate_nat_add at 1.
  rewrite <- Nat2Z.inj_add, <- Nat2Z.inj_mod, Nat2Z.id. done.
Qed.

Lemma at_all r : (r < N)%nat -> at_ r N = r.
Proof.
  intros Hr. unfold rotate_nat_add. rewrite <- Nat2Z.inj_add, <- Nat2Z.inj_mod, Nat2Z.id.
  replace (r + N)%nat with (r + 1 * N)%nat by lia. rewrite Nat.Div0.mod_add. by apply Nat.mod_small.
Qed.

Lemma at_ne r i : (r < N)%nat -> (0 < i < N)%nat -> at_ r i <> r.
Proof. intros Hr Hi. rewrite rotate_nat_add_alt by lia. case_decide; lia. Qed.

(** The slots from a position on. *)
Lemma slot_get (mem a b : list y_message) r x :
  length mem = N -> rotate r mem = a ++ x :: b -> mem !! at_ r (length a) = Some x.
Proof.
  intros Hl E. pose proof (length_rotate mem r) as Hr. rewrite E, length_app in Hr. cbn in Hr.
  rewrite <- Hl, <- lookup_rotate_r, E by lia. by rewrite lookup_app_r, Nat.sub_diag by lia.
Qed.

Lemma slot_set (mem a b : list y_message) r x y :
  length mem = N -> rotate r mem = a ++ x :: b -> rotate r (<[at_ r (length a) := y]> mem) = a ++ y :: b.
Proof.
  intros Hl E. pose proof (length_rotate mem r) as Hr. rewrite E, length_app in Hr. cbn in Hr.
  rewrite <- Hl, rotate_insert_l, E by lia. by rewrite insert_app_r_alt, Nat.sub_diag by lia.
Qed.

Lemma rotate_shift (mem a b : list y_message) r :
  length mem = N -> rotate r mem = a ++ b -> rotate (at_ r (length a)) mem = b ++ a.
Proof.
  intros Hl E. pose proof (length_rotate mem r) as Hr. rewrite E, length_app in Hr.
  apply list_eq. intros i. destruct (decide (i < N)%nat) as [Hi|Hi].
  2: { rewrite !lookup_ge_None_2; [done|rewrite length_app; lia|rewrite length_rotate; lia]. }
  rewrite lookup_rotate_r, Hl, at_at by lia. destruct (decide (i < length b)%nat) as [Hb|Hb].
  - rewrite <- Hl, <- lookup_rotate_r, E by lia. rewrite lookup_app_r by lia. rewrite lookup_app_l by lia. f_equal. lia.
  - rewrite lookup_app_r by lia. replace (length a + i)%nat with (N + (i - length b))%nat by lia.
    assert (at_ r (N + (i - length b)) = at_ r (i - length b)) as ->.
    { unfold rotate_nat_add. f_equal. rewrite Nat2Z.inj_add.
      replace (Z.of_nat r + (Z.of_nat N + Z.of_nat (i - length b))) with (Z.of_nat r + Z.of_nat (i - length b) + 1 * Z.of_nat N) by lia.
      apply Z_mod_plus_full. }
    rewrite <- Hl, <- lookup_rotate_r, E by lia. by rewrite lookup_app_l by lia.
Qed.

(** ** Loops over consecutive slots *)

Definition clear_slot (m : y_message) : y_message := set_flags m 0.
Definition mark_slot (m : y_message) : y_message := set_flags m (Z.lor (m_flags m) MSG_STATUS_USED_BIT).

Lemma clean_spec b : forall (mem a c : list y_message) r,
  length mem = N -> rotate r mem = a ++ b ++ c ->
  exists mem', message_clean size mem (at_ r (length a)) (length b) = Some (at_ r (length a + length b), mem') /\
    length mem' = N /\ rotate r mem' = a ++ (clear_slot <$> b) ++ c.
Proof.
  induction b as [|x b IH]; intros mem a c r Hl E; cbn [message_clean length].
  - exists mem. by rewrite Nat.add_0_r.
  - rewrite (slot_get mem a (b ++ c) r x Hl E). cbn [mbind option_bind].
    destruct (IH (<[at_ r (length a) := clear_slot x]> mem) (a ++ [clear_slot x]) c r) as (mem' & E' & Hl' & R).
    + by rewrite length_insert.
    + rewrite (slot_set mem a (b ++ c) r x (clear_slot x) Hl E). by rewrite <- app_assoc.
    + exists mem'. rewrite length_app in E'. cbn in E'. rewrite next_at. replace (S (length a)) with (length a + 1)%nat by lia.
      split_and!; [|done|by rewrite <- app_assoc in R]. unfold clear_slot in E'. rewrite E'. do 2 f_equal. f_equal. lia.
Qed.

Lemma mark_spec b : forall (mem a c : list y_message) r,
  length mem = N -> rotate r mem = a ++ b ++ c ->
  exists mem', mark_slots (length b) size mem (at_ r (length a)) = Some (at_ r (length a + length b), mem') /\
    length mem' = N /\ rotate r mem' = a ++ (mark_slot <$> b) ++ c.
Proof.
  induction b as [|x b IH]; intros mem a c r Hl E; cbn [mark_slots length].
  - exists mem. by rewrite Nat.add_0_r.
  - rewrite (slot_get mem a (b ++ c) r x Hl E). cbn [mbind option_bind].
    destruct (IH (<[at_ r (length a) := mark_slot x]> mem) (a ++ [mark_slot x]) c r) as (mem' & E' & Hl' & R).
    + by rewrite length_insert.
    + rewrite (slot_set mem a (b ++ c) r x (mark_slot x) Hl E). by rewrite <- app_assoc.
    + exists mem'. rewrite length_app in E'. cbn in E'. rewrite next_at. replace (S (length a)) with (length a + 1)%nat by lia.
      split_and!; [|done|by rewrite <- app_assoc in R]. unfold mark_slot in E'. rewrite E'. do 2 f_equal. f_equal. lia.
Qed.

(** The data is copied behind the slot [x]. *)
Lemma copy_spec b : forall (mem a c src : list y_message) x r,
  length mem = N -> rotate r mem = a ++ x :: b ++ c -> (length b <= length src)%nat ->
  exists mem', copy_slots (length b) size mem (at_ r (length a)) src = Some mem' /\
    length mem' = N /\ rotate r mem' = a ++ x :: take (length b) src ++ c.
Proof.
  induction b as [|y b IH]; intros mem a c src x r Hl E Hs; cbn [copy_slots length].
  - exists mem. by split_and!.
  - destruct src as [|s src]; cbn in Hs; [lia|]. rewrite next_at.
    assert (rotate r mem = (a ++ [x]) ++ y :: b ++ c) as E2 by (by rewrite <- app_assoc).
    assert (S (length a) = length (a ++ [x])) as -> by (rewrite length_app; cbn; lia).
    rewrite (slot_get mem (a ++ [x]) (b ++ c) r y Hl E2). cbn [mbind option_bind].
    destruct (IH (<[at_ r (length (a ++ [x])) := s]> mem) (a ++ [x]) c src s r) as (mem' & E' & Hl' & R).
    + by rewrite length_insert.
    + apply (slot_set mem (a ++ [x]) (b ++ c) r y s Hl E2).
    + lia.
    + exists mem'. split_and!; [done|done|]. rewrite R, <- app_assoc. done.
Qed.

Definition free_slot (m : y_message) : Prop := m_flags m = 0.
Definition used (m : y_message) : Prop := has_flag MSG_STATUS_USED_BIT (m_flags m) = true.

Lemma free_not_used m : free_slot m -> has_flag MSG_STATUS_USED_BIT (m_flags m) = false.
Proof. by intros ->. Qed.

(** The search from a free slot on: it ends at the first used slot. *)
Lemma find_spec f : forall todo (mem f0 u : list y_message) tmp,
  length mem = N -> (tmp < N)%nat -> rotate tmp mem = f0 ++ f ++ u -> Forall free_slot f ->
  match u with [] => True | x :: _ => used x end ->
  f <> [] \/ u <> [] ->
  find_slots todo size mem tmp (at_ tmp (length f0)) (length f0) = Some (length f0 + Nat.min todo (length f))%nat.
Proof.
  induction f as [|x f IH]; intros todo mem f0 u tmp Hl Ht E Hf Hu Hne; destruct todo as [|todo]; cbn [find_slots length Nat.min];
    rewrite ?Nat.add_0_r; try done.
  - destruct u as [|x u]; [by destruct Hne|]. rewrite (slot_get mem f0 u tmp x Hl E). cbn [mbind option_bind].
    by rewrite Hu.
  - apply Forall_cons in Hf as [Hx Hf]. rewrite (slot_get mem f0 (f ++ u) tmp x Hl E). cbn [mbind option_bind].
    rewrite (free_not_used x Hx), next_at. pose proof (length_rotate mem tmp) as Hr. rewrite E, !length_app in Hr. cbn in Hr. rewrite ?length_app in Hr.
    destruct (Nat.eqb_spec (at_ tmp (S (length f0))) tmp) as [Ew|Ew].
    + destruct (decide (S (length f0) = N)) as [EN|EN]; [|by destruct (at_ne tmp (S (length f0)) Ht); [lia|]].
      assert (length f = 0)%nat as -> by lia. rewrite Nat.min_0_r. f_equal. lia.
    + assert (f <> [] \/ u <> []) as Hne'.
      { destruct f, u; try (by left); try (by right). cbn in Hr. destruct Ew.
        replace (S (length f0)) with N by lia. by apply at_all. }
      specialize (IH todo mem (f0 ++ [x]) u tmp Hl Ht). rewrite length_app in IH. cbn in IH.
      replace (S (length f0)) with (length f0 + 1)%nat by lia. rewrite IH; [f_equal; lia|by rewrite <- app_assoc|done..].
Qed.

(** ** The queue of messages

    A pending message is its header slot and its data slots; its slots follow
    each other from the position of the receiver to the position of the
    senders.  A message that is reserved but not yet fired has no valid count. *)

Record pmsg := Pending { p_head : y_message; p_body : list y_message }.

Definition slots_of (p : pmsg) : list y_message := p_head p :: p_body p.
Definition is_new (p : pmsg) : bool := has_flag (m_flags (p_head p)) MSG_STATUS_NEW.
Definition pending_ok (p : pmsg) : Prop :=
  used (p_head p) /\ (is_new p = true -> length (p_body p) = add_msg_count (m_count (p_head p))).

Definition all_slots (ps : list pmsg) : list y_message := concat (slots_of <$> ps).

Record msg_ring (mem : list y_message) (r cur : nat) (ps : list pmsg) (free : list y_message) : Prop := {
  rg_length : length mem = N;
  rg_pos : (r < N)%nat;
  rg_slots : rotate r mem = all_slots ps ++ free;
  rg_free : Forall free_slot free;
  rg_pending : Forall pending_ok ps;
  rg_cur : cur = at_ r (length (all_slots ps))
}.

Lemma all_slots_app ps1 ps2 : all_slots (ps1 ++ ps2) = all_slots ps1 ++ all_slots ps2.
Proof. unfold all_slots. by rewrite fmap_app, concat_app. Qed.

Lemma ring_total mem r cur ps free : msg_ring mem r cur ps free -> (length (all_slots ps) + length free = N)%nat.
Proof. intros [Hl _ E _ _ _]. rewrite <- length_app, <- E, length_rotate. done. Qed.

Lemma all_slots_used ps : Forall pending_ok ps -> match all_slots ps with [] => True | x :: _ => used x end.
Proof. destruct 1 as [|p ps [Hu _] _]; [done|exact Hu]. Qed.

(** The header a reservation leaves: the first free slot, marked. *)
Lemma mark_free m : free_slot m -> mark_slot m = Msg (m_count m) MSG_STATUS_USED_BIT (m_what m).
Proof. unfold mark_slot, set_flags. by intros ->. Qed.

Lemma reserve_spec mem r cur ps free w src :
  let n := add_msg_count (m_count w) in
  msg_ring mem r cur ps free -> (n <= length src)%nat ->
  if decide (n < length free)%nat
  then exists mem' cur' x, reserve (Instance (Some cur) size) mem (w :: src) = Some (Some cur, Instance (Some cur') size, mem') /\
    msg_ring mem' r cur' (ps ++ [Pending (mark_slot x) (take n src)]) (drop (S n) free) /\ head free = Some x /\
    rotate cur mem = free ++ all_slots ps
  else reserve (Instance (Some cur) size) mem (w :: src) = Some (None, Instance (Some cur) size, mem).
Proof.
  intros n Hr Hs. pose proof (ring_total _ _ _ _ _ Hr) as Htot. destruct Hr as [Hl Hpos E Hf Hp Hc].
  assert (cur < N)%nat as Hcur by (subst; by apply rotate_nat_add_lt).
  pose proof (rotate_shift mem _ _ r Hl E) as E2. rewrite <- Hc in E2.
  assert (find_slots (S n) size mem cur cur 0 = Some (Nat.min (S n) (length free))) as Hfind.
  { rewrite <- (at_0 cur Hcur) at 2. apply (find_spec free (S n) mem [] (all_slots ps) cur Hl Hcur); [done|done|by apply all_slots_used|].
    destruct free, (all_slots ps); cbn in Htot; try lia; try (by left); by right. }
  unfold reserve. cbn [head mbind option_bind slot_buffer_size current_slot]. fold n. rewrite Hfind. cbn [mbind option_bind].
  case_decide as Hn.
  2: { destruct (Nat.eqb_spec (Nat.min (S n) (length free)) (S n)); [lia|done]. }
  rewrite (proj2 (Nat.eqb_eq _ _)) by lia. cbn [negb].
  destruct free as [|x free]; cbn in Hn; [lia|]. apply Forall_cons in Hf as [Hx Hf].
  pose proof (take_drop n free) as Efree. set (b := take n free) in *. set (c := drop n free) in *.
  assert (length b = n) as Hb by (unfold b; rewrite length_take; lia).
  assert (rotate cur mem = [] ++ (x :: b) ++ (c ++ all_slots ps)) as E3 by (rewrite E2, <- Efree; cbn; by rewrite <- app_assoc).
  destruct (mark_spec (x :: b) mem [] (c ++ all_slots ps) cur Hl E3) as (m1 & Em & Hl1 & R1).
  cbn [length plus] in Em. rewrite (at_0 cur Hcur), Hb in Em. rewrite Em. cbn [mbind option_bind tail].
  destruct (copy_spec (mark_slot <$> b) m1 [] (c ++ all_slots ps) src (mark_slot x) cur Hl1) as (m2 & Ec & Hl2 & R2).
  { by rewrite R1. }
  { rewrite length_fmap. lia. }
  cbn [length] in Ec. rewrite (at_0 cur Hcur), length_fmap, Hb in Ec. rewrite Ec. cbn [mbind option_bind].
  rewrite length_fmap, Hb in R2. cbn [app] in R2. eexists m2, _, x. split_and!; [done| |done|done].
  set (q := Pending (mark_slot x) (take n src)).
  assert (rotate r m2 = all_slots ps ++ mark_slot x :: take n src ++ c) as R.
  { assert (rotate cur m2 = (mark_slot x :: take n src ++ c) ++ all_slots ps) as R3 by (rewrite R2; cbn; by rewrite <- app_assoc).
    pose proof (rotate_shift m2 _ _ cur Hl2 R3) as R4. rewrite <- R4. f_equal. rewrite Hc, at_at. cbn [length].
    rewrite length_app, length_take, Nat.min_l by lia. unfold c. rewrite length_drop. cbn in Htot. rewrite <- at_all at 1 by done. f_equal. lia. }
  constructor; try done.
  - rewrite R, all_slots_app. unfold all_slots at 3. cbn. by rewrite app_nil_r, <- app_assoc.
  - cbn. unfold c. by apply Forall_drop.
  - apply Forall_app. split; [done|]. constructor; [|done]. unfold pending_ok, used, is_new. cbn [q p_head]. by rewrite (mark_free x Hx).
  - rewrite Hc, at_at, all_slots_app, length_app. unfold all_slots at 3. cbn. rewrite app_nil_r, length_take, Nat.min_l by lia. done.
Qed.

(** The message becomes new. *)
Definition fired (w : y_message) (p : pmsg) : pmsg :=
  Pending (Msg (m_count w) (Z.lor (Z.lor (m_flags (p_head p)) (m_flags w)) MSG_STATUS_NEW) (m_what w)) (p_body p).

Lemma lor_flag a b flag : has_flag a flag = true -> has_flag (Z.lor a b) flag = true.
Proof.
  unfold has_flag. intros H. zbool. apply negb_true_iff, Z.eqb_neq. intros E. apply H. apply Z.bits_inj'. intros i Hi.
  assert (Z.testbit (Z.land (Z.lor a b) flag) i = false) as Hb by (rewrite E; apply Z.testbit_0_l).
  rewrite Z.land_spec, Z.lor_spec in Hb. rewrite Z.land_spec, Z.testbit_0_l. destruct (Z.testbit a i), (Z.testbit flag i); done.
Qed.

Lemma has_flag_comm a b : has_flag a b = has_flag b a.
Proof. unfold has_flag. by rewrite Z.land_comm. Qed.

Lemma fire_spec mem r cur ps1 p ps2 free w src :
  msg_ring mem r cur (ps1 ++ p :: ps2) free -> length (p_body p) = add_msg_count (m_count w) ->
  exists mem', fire mem (at_ r (length (all_slots ps1))) (w :: src) = Some mem' /\
    msg_ring mem' r cur (ps1 ++ fired w p :: ps2) free.
Proof.
  intros [Hl Hpos E Hf Hp Hc] Hb. rewrite all_slots_app, <- app_assoc in E. cbn in E.
  unfold fire. cbn [head mbind option_bind]. rewrite (slot_get mem _ _ r _ Hl E). cbn [mbind option_bind].
  eexists. split; [done|]. constructor; try done.
  - by rewrite length_insert.
  - rewrite (slot_set mem _ _ r _ _ Hl E), all_slots_app, <- (app_assoc (all_slots ps1)). done.
  - apply Forall_app in Hp as [Hp1 [[Hu _] Hp2]%Forall_cons]. apply Forall_app. split; [done|]. constructor; [|done].
    split; [|by intros _]. unfold used in *. cbn. rewrite has_flag_comm in Hu |- *. by do 2 apply lor_flag.
  - rewrite Hc, !all_slots_app, !length_app. done.
Qed.

(** ** Receiving *)

(** What the receiver relies on.  A handler that is called for a message
    changes the slots of that message only and does not take back that the
    message is synchronous; it may overwrite the count.  The acknowledgement
    changes the header at most.  The filter judges a message by its header, and
    [accepts] is its verdict. *)
Record receiver_ok (rc : receiver) (accepts : y_message -> bool) : Prop := {
  ro_invoke : forall fn mem r hd body rest, length mem = N -> (r < N)%nat ->
    rotate r mem = hd :: body ++ rest -> length body = add_msg_count (m_count hd) ->
    exists hd' body', length (invoke rc fn mem r) = N /\ rotate r (invoke rc fn mem r) = hd' :: body' ++ rest /\
      length body' = length body /\
      has_flag (m_flags hd') MSG_FLAGS_SYNC = has_flag (m_flags hd) MSG_FLAGS_SYNC;
  ro_response : forall mem r hd rest, length mem = N -> (r < N)%nat -> rotate r mem = hd :: rest ->
    exists hd', length (response_sync rc mem r) = N /\ rotate r (response_sync rc mem r) = hd' :: rest;
  ro_filter : forall mem r hd, mem !! r = Some hd ->
    match filter_msg rc with Some f => f mem r | None => true end = accepts hd
}.

(** The code a message is for: the address it carries or the handler that is
    registered for it; none when the filter rejects it. *)
Definition target (rc : receiver) (accepts : y_message -> bool) (p : pmsg) : option Z :=
  let hd := p_head p in
  if accepts hd then
    if has_flag (m_flags hd) MSG_FLAGS_ADDRESS then Some (m_what hd)
    else match find_handler rc with
         | Some find => if find (m_what hd) =? 0 then None else Some (find (m_what hd))
         | None => None
         end
  else None.

(** The calls for the message [p] at [r]: its target, which finds the message
    as it was sent, and then, for a synchronous message, the acknowledgement,
    which finds what the target has made of it. *)
Definition served (rc : receiver) (accepts : y_message -> bool) (r : nat) (p : pmsg) (es : list event) : Prop :=
  exists mem rest, rotate r mem = slots_of p ++ rest /\
    es = match target rc accepts p with Some fn => [Call fn r mem] | None => [] end ++
         (if has_flag (m_flags (p_head p)) MSG_FLAGS_SYNC
          then [Ack r (match target rc accepts p with Some fn => invoke rc fn mem r | None => mem end)]
          else []).

Inductive all_served (rc : receiver) (accepts : y_message -> bool) : nat -> list pmsg -> list event -> Prop :=
  | served_nil r : all_served rc accepts r [] []
  | served_cons r p ps es es' : served rc accepts r p es ->
      all_served rc accepts (at_ r (length (slots_of p))) ps es' -> all_served rc accepts r (p :: ps) (es ++ es').

Lemma dispatch_target rc (accepts : y_message -> bool) mem r hd body :
  (if accepts hd then dispatch_msg rc mem r hd else ([] : list event, mem)) =
  match target rc accepts (Pending hd body) with Some fn => call rc fn mem r | None => ([], mem) end.
Proof.
  unfold target, dispatch_msg. cbn [p_head]. destruct (accepts hd); [|done]. destruct (has_flag _ _); [done|].
  destruct (find_handler rc); [|done]. cbn. by destruct (_ =? 0).
Qed.

Lemma front_get (mem : list y_message) r hd rest : length mem = N -> (r < N)%nat -> rotate r mem = hd :: rest -> mem !! r = Some hd.
Proof.
  intros Hl Hr E. pose proof (slot_get mem [] rest r hd Hl E) as Hg. cbn [length] in Hg. by rewrite (at_0 r Hr) in Hg.
Qed.

(** The slots of the first message after it was handled, and the calls. *)
Lemma handle_message_slots rc accepts mem r hd body rest :
  receiver_ok rc accepts -> length mem = N -> (r < N)%nat -> rotate r mem = hd :: body ++ rest ->
  length body = add_msg_count (m_count hd) ->
  exists hd' body' mem' es, handle_message rc size mem r = Some (at_ r (S (length body)), mem', es) /\ length mem' = N /\
    rotate r mem' = clear_slot hd' :: (clear_slot <$> body') ++ rest /\ length body' = length body /\
    served rc accepts r (Pending hd body) es.
Proof.
  intros Hrc Hl Hr E Hb. unfold handle_message. pose proof (front_get mem r hd _ Hl Hr E) as Hg.
  rewrite (ro_filter _ _ Hrc mem r hd Hg), Hg. cbn [mbind option_bind]. rewrite (dispatch_target rc accepts mem r hd body).
  set (mem1 := match target rc accepts (Pending hd body) with Some fn => invoke rc fn mem r | None => mem end).
  assert (match target rc accepts (Pending hd body) with Some fn => call rc fn mem r | None => ([], mem) end
    = (match target rc accepts (Pending hd body) with Some fn => [Call fn r mem] | None => [] end, mem1)) as ->
    by (unfold mem1, call; by destruct (target _ _ _)).
  assert (exists h1 b1, length mem1 = N /\ rotate r mem1 = h1 :: b1 ++ rest /\ length b1 = length body /\
    has_flag (m_flags h1) MSG_FLAGS_SYNC = has_flag (m_flags hd) MSG_FLAGS_SYNC) as (h1 & b1 & Hl1 & E1 & Hb1 & Hs1).
  { unfold mem1. destruct (target _ _ _); [by apply (ro_invoke _ _ Hrc)|by exists hd, body]. }
  rewrite (front_get mem1 r h1 _ Hl1 Hr E1). cbn [mbind option_bind]. rewrite Hs1.
  set (sync := has_flag (m_flags hd) MSG_FLAGS_SYNC) in *.
  set (mem2 := if sync then response_sync rc mem1 r else mem1).
  replace (if sync then ([Ack r mem1], response_sync rc mem1 r) else ([], mem1))
    with (if sync then [Ack r mem1] else [], mem2) by (unfold mem2; by destruct sync).
  assert (exists h2, length mem2 = N /\ rotate r mem2 = h2 :: b1 ++ rest) as (h2 & Hl2 & E2).
  { unfold mem2. destruct sync; [by apply (ro_response _ _ Hrc mem1 r h1)|by exists h1]. }
  destruct (clean_spec b1 mem2 [h2] rest r Hl2 E2) as (mem3 & Ecl & Hl3 & E3). cbn [length plus] in Ecl.
  assert (MSG_GET_NEXT_SLOT size r = at_ r 1) as Hn by (rewrite <- next_at; by rewrite (at_0 r Hr)).
  rewrite Hn, <- Hb, <- Hb1, Ecl. cbn [mbind option_bind].
  rewrite (front_get mem3 r h2 _ Hl3 Hr E3). cbn [mbind option_bind].
  pose proof (slot_set mem3 [] _ r h2 (clear_slot h2) Hl3 E3) as Hs3. cbn [length] in Hs3. rewrite (at_0 r Hr) in Hs3.
  exists h2, b1. do 2 eexists. split_and!; [done|by rewrite length_insert|done|done|].
  exists mem, rest. split; [exact E|done].
Qed.

Lemma handle_spec rc accepts mem r cur p ps free :
  receiver_ok rc accepts -> msg_ring mem r cur (p :: ps) free -> is_new p = true ->
  exists mem' cleared es, handle_message rc size mem r = Some (at_ r (length (slots_of p)), mem', es) /\
    msg_ring mem' (at_ r (length (slots_of p))) cur ps (free ++ cleared) /\ served rc accepts r p es.
Proof.
  intros Hrc Hring Hnew. pose proof (ring_total _ _ _ _ _ Hring) as Htot. destruct Hring as [Hl Hr E Hf Hp Hc].
  apply Forall_cons in Hp as [[_ Hb] Hp]. specialize (Hb Hnew).
  assert (rotate r mem = p_head p :: p_body p ++ (all_slots ps ++ free)) as E' by (rewrite E; cbn; by rewrite <- app_assoc).
  destruct (handle_message_slots rc accepts mem r _ _ _ Hrc Hl Hr E' Hb) as (h & b & mem' & es & Eh & Hl' & R & Hlb & Hes).
  exists mem', (clear_slot <$> h :: b), es. cbn [length slots_of]. split; [done|]. split; [|by destruct p].
  assert (rotate r mem' = (clear_slot <$> h :: b) ++ (all_slots ps ++ free)) as R' by (rewrite R; done).
  pose proof (rotate_shift mem' _ _ r Hl' R') as R2. rewrite length_fmap in R2. cbn [length] in R2. rewrite Hlb in R2.
  constructor; try done.
  - by apply rotate_nat_add_lt.
  - rewrite R2. by rewrite <- app_assoc.
  - apply Forall_app. split; [done|]. apply Forall_fmap, Forall_true. by intros x.
  - rewrite Hc, at_at. unfold all_slots at 1. cbn. rewrite length_app. done.
Qed.

Fixpoint take_new (ps : list pmsg) : list pmsg :=
  match ps with [] => [] | p :: l => if is_new p then p :: take_new l else [] end.
Fixpoint drop_new (ps : list pmsg) : list pmsg :=
  match ps with [] => [] | p :: l => if is_new p then drop_new l else ps end.

Lemma handle_new_spec rc accepts ps : forall fuel mem r cur free,
  receiver_ok rc accepts -> msg_ring mem r cur ps free -> (length ps < fuel)%nat ->
  exists r' mem' free' es, handle_new fuel rc size mem r = Ret (r', mem', es) /\
    msg_ring mem' r' cur (drop_new ps) free' /\ all_served rc accepts r (take_new ps) es.
Proof.
  induction ps as [|p ps IH]; intros [|fuel] mem r cur free Hrc Hring Hf; cbn in Hf; try lia; cbn [handle_new drop_new take_new].
  - destruct free as [|x free].
    { pose proof (ring_total _ _ _ _ _ Hring) as Ht. cbn in Ht. lia. }
    pose proof Hring as [Hl Hr E Hfr Hp Hc]. rewrite (front_get mem r x _ Hl Hr E). cbn [lift mbind run_bind].
    pose proof Hfr as [Hx _]%Forall_cons. rewrite Hx. exists r, mem, (x :: free), []. split_and!; [done|done|constructor].
  - assert (mem !! r = Some (p_head p)) as Hg by (destruct Hring as [Hl Hr E _ _ _]; by apply (front_get mem r _ _ Hl Hr E)).
    rewrite Hg. cbn [lift mbind run_bind]. fold (is_new p).
    destruct (is_new p) eqn:Hn; [|exists r, mem, free, []; split_and!; [done|done|constructor]].
    destruct (handle_spec rc accepts mem r cur p ps free Hrc Hring Hn) as (mem' & cl & es & -> & Hring' & Hes).
    cbn [lift mbind run_bind].
    destruct (IH fuel mem' _ cur (free ++ cl) Hrc Hring') as (r2 & mem2 & free2 & es2 & -> & Hr2 & Hes2); [lia|].
    cbn [mbind run_bind]. exists r2, mem2, free2, (es ++ es2). split_and!; [done|done|by constructor].
Qed.

Lemma reset_spec b : forall (mem a : list y_message) fuel,
  length mem = N -> mem = a ++ b -> b <> [] -> (length b <= fuel)%nat ->
  reset_loop fuel size mem (length a) = Ret (a ++ (clear_slot <$> b)).
Proof.
  induction b as [|x b IH]; intros mem a [|fuel] Hl E Hne Hf; cbn in Hf; try done; try lia. cbn [reset_loop].
  subst mem. rewrite list_lookup_middle by done. cbn [lift mbind run_bind].
  replace (<[length a := set_flags x 0]> (a ++ x :: b)) with ((a ++ [clear_slot x]) ++ b)
    by (rewrite <- app_assoc; cbn; rewrite insert_app_r_alt, Nat.sub_diag by lia; done).
  rewrite length_app in Hl. cbn in Hl. unfold MSG_GET_NEXT_SLOT.
  destruct b as [|y b].
  - rewrite (proj2 (Z.leb_le _ _)) by (unfold SIZEOF_Y_MESSAGE; cbn in Hl; lia). cbn [Nat.eqb fmap list_fmap]. by rewrite app_nil_r.
  - rewrite (proj2 (Z.leb_gt _ _)) by (unfold SIZEOF_Y_MESSAGE; cbn in Hl; lia). cbn [Nat.eqb].
    replace (S (length a)) with (length (a ++ [clear_slot x])) by (rewrite length_app; cbn; lia).
    rewrite (IH ((a ++ [clear_slot x]) ++ y :: b) (a ++ [clear_slot x]) fuel); try done.
    + by rewrite <- app_assoc.
    + rewrite !length_app. cbn. cbn in Hl. lia.
    + cbn in Hf |- *. lia.
Qed.

(** ** Data *)

Definition words (b : list y_message) : list Z := concat ((fun m => [data_word m false; data_word m true]) <$> b).

Lemma data_word_set m hi w hi' :
  data_word (set_data_word m hi w) hi' = if Bool.eqb hi hi' then w else data_word m hi'.
Proof.
  destruct hi, hi'; cbn; try done. rewrite Z.add_comm. symmetry. apply Z.div_mod. lia.
Qed.

Lemma next_data_even x : (x < N)%nat -> MSG_GET_NEXT_DATA size (2 * x) = S (2 * x).
Proof.
  intros Hx. unfold MSG_GET_NEXT_DATA, SIZEOF_LONG, SIZEOF_Y_MESSAGE. by rewrite (proj2 (Z.leb_gt _ _)) by lia.
Qed.

Lemma next_data_odd x : MSG_GET_NEXT_DATA size (S (2 * x)) = (2 * MSG_GET_NEXT_SLOT size x)%nat.
Proof.
  unfold MSG_GET_NEXT_DATA, MSG_GET_NEXT_SLOT, SIZEOF_LONG, SIZEOF_Y_MESSAGE.
  replace (4 * Z.of_nat (S (S (2 * x)))) with (8 * Z.of_nat (S x)) by lia. destruct (_ <=? _); lia.
Qed.

Lemma odd_double x : Nat.odd (2 * x) = false.
Proof. by rewrite Nat.odd_mul. Qed.

Lemma odd_succ_double x : Nat.odd (S (2 * x)) = true.
Proof. by rewrite Nat.odd_succ, Nat.even_mul. Qed.

Lemma read_data_eq mem x m : mem !! x = Some m ->
  read_data mem (2 * x) = Some (data_word m false) /\ read_data mem (S (2 * x)) = Some (data_word m true).
Proof.
  intros Hm. unfold read_data. by rewrite Nat.div2_double, Nat.div2_succ_double, Hm, odd_double, odd_succ_double.
Qed.

Lemma write_data_eq mem x m w : mem !! x = Some m ->
  write_data mem (2 * x) w = Some (<[x := set_data_word m false w]> mem) /\
  write_data mem (S (2 * x)) w = Some (<[x := set_data_word m true w]> mem).
Proof.
  intros Hm. unfold write_data. by rewrite Nat.div2_double, Nat.div2_succ_double, Hm, odd_double, odd_succ_double.
Qed.

Lemma read_words b : forall (mem a c : list y_message) r n,
  length mem = N -> rotate r mem = a ++ b ++ c -> (n <= 2 * length b)%nat ->
  read_loop size mem (2 * at_ r (length a)) n = Some (take n (words b)).
Proof.
  induction b as [|x b IH]; intros mem a c r n Hl E Hn; cbn [length] in Hn.
  { replace n with O by lia. done. }
  destruct n as [|[|n]]; [done| |]; pose proof (rotate_nat_add_lt r (length a) N HN) as Hlt;
    destruct (read_data_eq mem _ x (slot_get mem a (b ++ c) r x Hl E)) as [R1 R2]; cbn [read_loop]; rewrite R1; cbn [mbind option_bind]; [done|].
  rewrite next_data_even, R2, next_data_odd, next_at by done. cbn [mbind option_bind].
  specialize (IH mem (a ++ [x]) c r n Hl). rewrite length_app, Nat.add_comm in IH. cbn [length plus] in IH.
  rewrite IH; [done|by rewrite <- app_assoc|lia].
Qed.

Lemma write_words b : forall (mem a c : list y_message) r args,
  length mem = N -> rotate r mem = a ++ b ++ c -> (length args <= 2 * length b)%nat ->
  exists mem' b', write_loop size mem (2 * at_ r (length a)) args = Some mem' /\ length mem' = N /\
    rotate r mem' = a ++ b' ++ c /\ length b' = length b /\ words b' = args ++ drop (length args) (words b).
Proof.
  induction b as [|x b IH]; intros mem a c r args Hl E Hn; cbn [length] in Hn.
  { destruct args; cbn in Hn; [|lia]. by exists mem, []. }
  pose proof (slot_get mem a (b ++ c) r x Hl E) as Hg. pose proof (rotate_nat_add_lt r (length a) N HN) as Hlt.
  destruct args as [|w1 [|w2 args]]; cbn [write_loop].
  - exists mem, (x :: b). by split_and!.
  - destruct (write_data_eq mem _ x w1 Hg) as [-> _]. cbn [mbind option_bind]. eexists _, (set_data_word x false w1 :: b).
    split_and!; [done|by rewrite length_insert|by apply (slot_set mem a (b ++ c) r x)|done|].
    unfold words. cbn [fmap list_fmap concat app length drop]. by rewrite !data_word_set.
  - destruct (write_data_eq mem _ x w1 Hg) as [-> _]. cbn [mbind option_bind]. rewrite next_data_even by done.
    pose proof (slot_set mem a (b ++ c) r x (set_data_word x false w1) Hl E) as E1.
    set (mem1 := <[_ := _]> mem) in *. assert (length mem1 = N) as Hl1 by (unfold mem1; by rewrite length_insert).
    destruct (write_data_eq mem1 _ _ w2 (slot_get mem1 a (b ++ c) r _ Hl1 E1)) as [_ ->]. cbn [mbind option_bind].
    set (y := set_data_word (set_data_word x false w1) true w2). pose proof (slot_set mem1 a (b ++ c) r _ y Hl1 E1) as E2.
    set (mem2 := <[_ := _]> mem1) in *. assert (length mem2 = N) as Hl2 by (unfold mem2; by rewrite length_insert).
    rewrite next_data_odd, next_at. specialize (IH mem2 (a ++ [y]) c r args Hl2). rewrite (length_app a), Nat.add_comm in IH. cbn [length plus] in IH, Hn.
    destruct IH as (mem' & b' & Ew & Hl' & R & Hlb & Hw); [by rewrite <- app_assoc|lia|].
    exists mem', (y :: b'). split_and!; [done|done|by rewrite <- app_assoc in R|cbn; lia|].
    unfold words in Hw |- *. cbn [fmap list_fmap concat app length drop]. unfold y. by rewrite !data_word_set, Hw.
Qed.

Lemma words_length b : length (words b) = (2 * length b)%nat.
Proof. induction b as [|x b IH]; [done|]. unfold words in *. cbn in *. lia. Qed.

Lemma add_msg_count_enough c : 0 <= c -> (Z.to_nat c <= 2 * add_msg_count c)%nat.
Proof.
  intros Hc. unfold add_msg_count, SIZEOF_LONG, SIZEOF_Y_MESSAGE.
  assert (c <= 2 * ((c * 4 + 8 - 1) / 8)) by zlia. lia.
Qed.

Lemma data_start_at r : (r < N)%nat -> data_start size r = (2 * at_ r 1)%nat.
Proof. intros Hr. unfold data_start. rewrite <- (at_0 r Hr) at 1. by rewrite next_at. Qed.

(** The data of the message at the front of the queue. *)
Lemma read_spec_front mem r cur p ps free :
  msg_ring mem r cur (p :: ps) free -> is_new p = true -> 0 <= m_count (p_head p) ->
  y_message_read size mem r = Some (take (Z.to_nat (m_count (p_head p))) (words (p_body p))).
Proof.
  intros [Hl Hr E _ Hp _] Hn Hc. apply Forall_cons in Hp as [[_ Hb] _]. specialize (Hb Hn).
  assert (rotate r mem = [p_head p] ++ p_body p ++ (all_slots ps ++ free)) as E' by (rewrite E; cbn; by rewrite <- app_assoc).
  pose proof (slot_get mem [] _ r (p_head p) Hl E') as Hg. cbn [length] in Hg. rewrite (at_0 r Hr) in Hg.
  unfold y_message_read. rewrite Hg, (data_start_at r Hr). cbn [mbind option_bind].
  apply (read_words _ mem [p_head p] (all_slots ps ++ free)); [done|done|]. rewrite Hb. by apply add_msg_count_enough.
Qed.

(** [y_message_writeback] stays inside the message. *)
Lemma writeback_slots mem r hd body rest args :
  length mem = N -> (r < N)%nat -> rotate r mem = hd :: body ++ rest -> length body = add_msg_count (m_count hd) ->
  Z.of_nat (length args) <= m_count hd ->
  exists mem' body', y_message_writeback size mem r args = Some (Z.of_nat (length args), mem') /\ length mem' = N /\
    rotate r mem' = hd :: body' ++ rest /\ length body' = length body /\ words body' = args ++ drop (length args) (words body).
Proof.
  intros Hl Hr E Hb Ha. pose proof (slot_get mem [] _ r hd Hl E) as Hg. cbn [length] in Hg. rewrite (at_0 r Hr) in Hg.
  unfold y_message_writeback. rewrite Hg. cbn [mbind option_bind]. rewrite (proj2 (Z.ltb_ge _ _) Ha), (data_start_at r Hr).
  destruct (write_words body mem [hd] rest r args Hl E) as (mem' & body' & Ew & R).
  { rewrite Hb. pose proof (add_msg_count_enough (m_count hd)). lia. }
  cbn [length] in Ew. rewrite Ew. cbn [mbind option_bind]. exists mem', body'. destruct R as (R1 & R2 & R3 & R4). by split_and!.
Qed.

(** What the receiver sees of a message that was sent. *)
Definition delivered (m : y_message) (src : list y_message) : pmsg :=
  Pending (Msg (m_count m) (Z.lor (Z.lor MSG_STATUS_USED_BIT (m_flags m)) MSG_STATUS_NEW) (m_what m))
          (take (add_msg_count (m_count m)) src).

Lemma words_take n b : words (take n b) = take (2 * n) (words b).
Proof.
  revert n. induction b as [|x b IH]; intros [|n]; try done. unfold words in *. cbn [take fmap list_fmap concat app]. rewrite IH.
  replace (2 * S n)%nat with (S (S (2 * n))) by lia. done.
Qed.

(** C18: the data words the sender put behind its header are the words
    [y_message_read] returns when its message is at the front of the queue. *)
Theorem message_read_correct mem r cur m src ps free :
  msg_ring mem r cur (delivered m src :: ps) free -> 0 <= m_count m ->
  y_message_read size mem r = Some (take (Z.to_nat (m_count m)) (words src)).
Proof.
  intros Hring Hc. rewrite (read_spec_front _ _ _ _ _ _ Hring); [|unfold is_new; cbn; rewrite Z.lor_comm; by apply lor_flag|done].
  cbn [p_head p_body delivered m_count]. rewrite words_take, take_take, Nat.min_l; [done|]. by apply add_msg_count_enough.
Qed.

(** [y_message_writeback] of at most as many words as the message has
    changes the first words of its data and nothing else of the ring, and they
    are read back; more words are refused. *)
Theorem message_writeback_correct mem r cur p ps free args :
  msg_ring mem r cur (p :: ps) free -> is_new p = true -> 0 <= m_count (p_head p) ->
  if decide (Z.of_nat (length args) <= m_count (p_head p))
  then exists mem' body', y_message_writeback size mem r args = Some (Z.of_nat (length args), mem') /\
    msg_ring mem' r cur (Pending (p_head p) body' :: ps) free /\
    y_message_read size mem' r =
      Some (args ++ drop (length args) (take (Z.to_nat (m_count (p_head p))) (words (p_body p))))
  else y_message_writeback size mem r args = Some (-1, mem).
Proof.
  intros Hring Hnew Hc. pose proof Hring as [Hl Hr E Hf Hp Hcur]. apply Forall_cons in Hp as [[Hu Hb] Hp]. specialize (Hb Hnew).
  assert (rotate r mem = p_head p :: p_body p ++ (all_slots ps ++ free)) as E' by (rewrite E; cbn; by rewrite <- app_assoc).
  case_decide as Ha.
  - destruct (writeback_slots mem r _ _ _ args Hl Hr E' Hb Ha) as (mem' & body' & Ew & Hl' & R & Hlb & Hw).
    exists mem', body'. split; [done|].
    assert (msg_ring mem' r cur (Pending (p_head p) body' :: ps) free) as Hring'.
    { constructor; try done.
      - rewrite R. unfold all_slots. cbn. by rewrite <- app_assoc.
      - constructor; [|done]. split; [done|]. intros _. cbn. by rewrite Hlb.
      - rewrite Hcur. unfold all_slots. cbn. by rewrite !length_app, Hlb. }
    split; [done|]. rewrite (read_spec_front _ _ _ _ _ _ Hring' Hnew Hc). cbn [p_head p_body]. rewrite Hw. f_equal.
    rewrite take_app_ge by lia. f_equal. by rewrite take_drop_commute, Nat.add_comm, Nat.sub_add by lia.
  - pose proof (slot_get mem [] _ r _ Hl E') as Hg. cbn [length] in Hg. rewrite (at_0 r Hr) in Hg.
    unfold y_message_writeback. rewrite Hg. cbn [mbind option_bind]. by rewrite (proj2 (Z.ltb_lt _ _)) by lia.
Qed.

(** C7: the receiver loop handles the new messages in the order in which
    their slots were reserved, ends, and stops at the first message that is not
    fired yet or at the end of the queue.  For each of them it calls exactly the
    code the message is for (the address in it, or the handler registered for
    it, unless the filter rejects it), which finds the message as it was sent,
    and then acknowledges it if it is synchronous, after the handler has written
    its answer.  The slots of the handled messages are free again, also when a
    handler or the acknowledgement overwrites the count, and no other message
    changes.  Handlers stay within the slots of their message and leave the
    synchronous flag, the acknowledgement touches the header at most, and the
    filter judges by the header. *)
Theorem handle_new_correct rc accepts ps fuel mem r cur free :
  receiver_ok rc accepts -> msg_ring mem r cur ps free -> (length ps < fuel)%nat ->
  exists r' mem' free' es, handle_new fuel rc size mem r = Ret (r', mem', es) /\
    msg_ring mem' r' cur (drop_new ps) free' /\ all_served rc accepts r (take_new ps) es.
Proof. apply handle_new_spec. Qed.

(** The ring after the sender of a synchronous message has taken the answer:
    the count is overwritten. *)
Definition answered (mem : list y_message) (r : nat) : list y_message :=
  match mem !! r with
  | Some m => <[r := Msg 0 (Z.land (m_flags m) (65535 - MSG_STATUS_NEW)) (m_what m)]> mem
  | None => mem
  end.

(** A receiver whose handlers answer with one word. *)
Definition answering (word : Z) : receiver := Receiver None (Some (fun id => id))
  (fun _ mem r => match y_message_writeback size mem r [word] with Some (_, mem) => mem | None => mem end) answered.

Lemma answering_ok word : receiver_ok (answering word) (fun _ => true).
Proof.
  constructor; [| |done].
  - intros fn mem r hd body rest Hl Hr E Hb. cbn.
    destruct (decide (Z.of_nat (length [word]) <= m_count hd)) as [Ha|Ha].
    + destruct (writeback_slots mem r hd body rest [word] Hl Hr E Hb Ha) as (mem' & body' & -> & Hl' & R & Hlb & _).
      by exists hd, body'.
    + unfold y_message_writeback. rewrite (front_get mem r hd _ Hl Hr E). cbn [mbind option_bind].
      rewrite (proj2 (Z.ltb_lt _ _)) by lia. by exists hd, body.
  - intros mem r hd rest Hl Hr E. cbn [response_sync answering]. unfold answered.
    rewrite (front_get mem r hd _ Hl Hr E).
    pose proof (slot_set mem [] _ r _ (Msg 0 (Z.land (m_flags hd) (65535 - MSG_STATUS_NEW)) (m_what hd)) Hl E) as Hs.
    cbn [length] in Hs. rewrite (at_0 r Hr) in Hs. eexists. split; [by rewrite length_insert|exact Hs].
Qed.

End Ring.

(** ** A ring of four slots *)

Definition sample_data : list y_message := [Msg 7 0 9].
Definition sample_head : y_message := Msg 2 (Z.lor MSG_FLAGS_SYNC 0) 5.
Definition sample_msgs : list y_message := [Msg 0 0 0; Msg 2 42 5; Msg 7 0 9; Msg 0 0 0].

Lemma sample_ring_ok : msg_ring 4 sample_msgs 1 3 [delivered sample_head sample_data] [Msg 0 0 0; Msg 0 0 0].
Proof.
  constructor; try done; try lia.
  - by repeat constructor.
  - constructor; [|done]. by split.
Qed.

Lemma message_read_witness : y_message_read 32 sample_msgs 1 = Some [7; 9].
Proof. apply (message_read_correct 4 ltac:(lia) sample_msgs 1 3 sample_head sample_data [] _ sample_ring_ok). cbn. lia. Defined.

Lemma message_writeback_witness :
  exists mem', y_message_writeback 32 sample_msgs 1 [8] = Some (1, mem') /\ y_message_read 32 mem' 1 = Some [8; 9].
Proof.
  destruct (message_writeback_correct 4 ltac:(lia) sample_msgs 1 3 (delivered sample_head sample_data) [] [Msg 0 0 0; Msg 0 0 0] [8])
    as (mem' & body' & E1 & _ & E2).
  - exact sample_ring_ok.
  - reflexivity.
  - cbn. lia.
  - exists mem'. split; [exact E1|exact E2].
Defined.

Lemma handle_new_witness :
  exists mem' free es, handle_new 2 (answering 4 8) 32 sample_msgs 1 = Ret (3%nat, mem', es) /\ msg_ring 4 mem' 3 3 [] free /\
    all_served 4 (answering 4 8) (fun _ => true) 1 [delivered sample_head sample_data] es.
Proof.
  destruct (handle_new_correct 4 ltac:(lia) (answering 4 8) (fun _ => true) [delivered sample_head sample_data] 2 sample_msgs 1 3
              [Msg 0 0 0; Msg 0 0 0] (answering_ok 4 ltac:(lia) 8) sample_ring_ok) as (r' & mem' & free' & es & E & Hring & Hes).
  - cbn. lia.
  - assert (r' = 3%nat) as -> by (vm_compute in E; injection E as <- _ _; reflexivity).
    exists mem', free', es. split; [exact E|]. split; [exact Hring|exact Hes].
Defined.
