(* ===== verification/Ktm.v ===== *)
(** * Messages in the kernel

    [source/kernel/process/msg.c]: sending to the ring of another thread,
    waiting for the answer of a synchronous message, acknowledging it, and the
    rings' memory, one page each of a common pool.  A call that gives up the
    CPU is split there: [ktm_send] is its attempts ([ktm_try_send],
    [ktm_resend]), the wait of a synchronous sender ([ktm_wait],
    [ktm_wait_resume]) and what follows the wait ([ktm_finish]); [ktm_ack_sync]
    is the acknowledgement and the polling of the slot ([ktm_ack_poll]).  The
    node a synchronous sender waits with is on its stack and named by its
    address; [list_del] of a node that is in no list is a fault, as the source
    poisons the links of a deleted node. *)

From stdpp Require Import gmap.
From S2P Require Import Prelude Bits Bitmap Sched Sync Vm KoSection Msg.
Import BitmapOps SchedOps MsgOps.

Definition KE_MESSAGE_WAIT_STATUS_NONE : Z := 0.
Definition KE_MESSAGE_WAIT_STATUS_OK : Z := 1.
Definition KE_MESSAGE_WAIT_STATUS_ABANDONED : Z := 2.
Definition KE_MESSAGE_SLOTS_SIZE_PER_THREAD : Z := 4096.
Definition KE_MESSAGE_SLOTS_BUFFER_SIZE : Z := 65536.

Record ke_message_wait := Wait { sent : nat; who_sent : Z; wait_status : Z }.

(** [struct ktm]; [slots] is the address of the ring, 0 without one. *)
Record ktm := Ktm {
  map_of : Z;
  slots : Z;
  desc : y_message_instance;
  waiting : list Z
}.

(** The scheduler, the threads' [msg] members, the slots of their rings and
    the wait nodes. *)
Record mworld := World {
  mkern : kernel;
  ktms : gmap Z ktm;
  rings : gmap Z (list y_message);
  waits : gmap Z ke_message_wait
}.

Module KtmOps.

Definition set_mkern (w : mworld) (k : kernel) : mworld := World k (ktms w) (rings w) (waits w).
Definition set_ktm (w : mworld) (who : Z) (k : ktm) : mworld := World (mkern w) (<[who := k]> (ktms w)) (rings w) (waits w).
Definition set_ring (w : mworld) (who : Z) (m : list y_message) : mworld :=
  World (mkern w) (ktms w) (<[who := m]> (rings w)) (waits w).
Definition set_wait (w : mworld) (a : Z) (x : ke_message_wait) : mworld :=
  World (mkern w) (ktms w) (rings w) (<[a := x]> (waits w)).
Definition set_waiting (k : ktm) (l : list Z) : ktm := Ktm (map_of k) (slots k) (desc k) l.
Definition set_desc (k : ktm) (d : y_message_instance) : ktm := Ktm (map_of k) (slots k) d (waiting k).

(** [list_del(&wait->list)] *)
Definition list_del_wait (k : ktm) (a : Z) : option ktm :=
  if existsb (Z.eqb a) (waiting k) then Some (set_waiting k (filter (fun x => x <> a) (waiting k))) else None.

Definition send (w : mworld) (to : Z) (what : list y_message) (wait : option Z) : option (option nat * mworld) :=
  where_ ← ktms w !! to;
  mem ← rings w !! to;
  '(r, d, mem) ← reserve (desc where_) mem what;
  match r with
  | None => Some (None, w)
  | Some tmp =>
    let w := set_ktm w to (set_desc where_ d) in
    let w := match wait with
             | Some a => set_ktm (set_wait w a (Wait tmp (cur (cpu (mkern w))) KE_MESSAGE_WAIT_STATUS_NONE)) to
                           (set_waiting (set_desc where_ d) (waiting where_ ++ [a]))
             | None => w
             end in
    mem ← fire mem tmp what;
    Some (Some tmp, set_ring w to mem)
  end.

(** How an attempt of [ktm_send] ends: the message is delivered, the sender
    has to wait for the answer, it has given up the CPU and has [left] attempts,
    or [ktm_send] returns false. *)
Inductive send_out := Delivered | Waits | Switched (left : nat) | Refused.

Definition is_sync (what : list y_message) : bool :=
  match what with m :: _ => has_flag (m_flags m) MSG_FLAGS_SYNC | [] => false end.

Definition ktm_try_send (w : mworld) (to : Z) (what : list y_message) (wait : Z) (try_resend : nat)
  : option (send_out * mworld) :=
  '(r, w) ← send w to what (if is_sync what then Some wait else None);
  match r with
  | Some _ =>
    k ← kt_wakeup to (mkern w);
    Some (if is_sync what then Waits else Delivered, set_mkern w k)
  | None =>
    match Nat.pred try_resend with
    | O => Some (Refused, w)
    | S n => '(_, k) ← kt_switch (mkern w); Some (Switched (S n), set_mkern w k)
    end
  end.

(** After the switch; [KT_THREAD_KILLING(to) == KT_STATE_KILLING] compares a
    truth value with 4. *)
Definition ktm_resend (w : mworld) (to : Z) (what : list y_message) (wait : Z) (try_resend : nat)
  : option (send_out * mworld) :=
  me ← threads (mkern w) !! cur (cpu (mkern w));
  th ← threads (mkern w) !! to;
  if KT_THREAD_KILLING me || (Z.b2z (KT_THREAD_KILLING th) =? KT_STATE_KILLING) then Some (Refused, w)
  else ktm_try_send w to what wait try_resend.

(** One round of [KT_WAIT(wait.wait_status != NONE)]: whether the wait is over. *)
Definition ktm_wait (w : mworld) (wait : Z) : option (bool * mworld) :=
  x ← waits w !! wait;
  if negb (wait_status x =? KE_MESSAGE_WAIT_STATUS_NONE) then Some (true, w) else
  '(_, k) ← kt_sleep 0 (mkern w); Some (false, set_mkern w k).

Definition ktm_wait_resume (w : mworld) (wait : Z) : option (bool * mworld) :=
  me ← threads (mkern w) !! cur (cpu (mkern w));
  if KT_THREAD_KILLING me then Some (true, w) else ktm_wait w wait.

(** The copy of the answer: [dst] is the message after the last slot that was
    copied. *)
Fixpoint copy_answer (todo : nat) (size : Z) (mem : list y_message) (src : nat) (dst : list y_message)
  : option (list y_message) :=
  match todo, dst with
  | O, _ => Some dst
  | S _, [] => None
  | S todo, _ :: dst =>
    let src := MSG_GET_NEXT_SLOT size src in
    m ← mem !! src; rest ← copy_answer todo size mem src dst; Some (m :: rest)
  end.

Definition ktm_finish (w : mworld) (to : Z) (what : list y_message) (wait : Z)
  : option (bool * list y_message * mworld) :=
  x ← waits w !! wait;
  where_ ← ktms w !! to;
  if wait_status x =? KE_MESSAGE_WAIT_STATUS_OK then
    mem ← rings w !! to;
    hd ← mem !! sent x;
    m ← head what;
    let response_count := Nat.min (add_msg_count (m_count hd)) (add_msg_count (m_count m)) in
    body ← copy_answer response_count (slot_buffer_size (desc where_)) mem (sent x) (tail what);
    let mem := <[sent x := set_flags hd (Z.land (m_flags hd) (65535 - MSG_STATUS_NEW))]> mem in
    Some (true, hd :: body, set_ring w to mem)
  else
    where_ ← list_del_wait where_ wait;
    Some (false, what, set_ktm w to where_).

(** The node of the waiting sender of the slot [what]. *)
Fixpoint find_wait (ws : gmap Z ke_message_wait) (l : list Z) (what : nat) : option (option Z) :=
  match l with
  | [] => Some None
  | a :: l => x ← ws !! a; if Nat.eqb (sent x) what then Some (Some a) else find_wait ws l what
  end.

(** [ktm_ack_sync] up to the polling; [false] is its result without a waiting
    sender. *)
Definition ktm_ack_sync (w : mworld) (what : nat) : option (bool * mworld) :=
  let who := cur (cpu (mkern w)) in
  msg ← ktms w !! who;
  r ← find_wait (waits w) (waiting msg) what;
  match r with
  | None => Some (false, w)
  | Some a =>
    msg ← list_del_wait msg a;
    x ← waits w !! a;
    k ← kt_wakeup (who_sent x) (mkern w);
    Some (true, set_mkern (set_wait (set_ktm w who msg) a (Wait (sent x) (who_sent x) KE_MESSAGE_WAIT_STATUS_OK)) k)
  end.

(** A round of the polling: whether the sender has taken the answer. *)
Definition ktm_ack_poll (w : mworld) (what : nat) : option (bool * mworld) :=
  mem ← rings w !! cur (cpu (mkern w));
  m ← mem !! what;
  if has_flag (m_flags m) MSG_STATUS_NEW
  then '(_, k) ← kt_switch (mkern w); Some (false, set_mkern w k)
  else Some (true, w).

(** ** The memory of the rings *)

(** The operations on sections a ring is mapped with: creation of a shared
    page, closing and sharing. *)
Class RingMap (S : Type) := {
  rm_create : S -> run (Z * S);
  rm_close : S -> Z -> run S;
  rm_share : S -> Z -> Z -> run S
}.

Record ke_message_pool := Pool { pool_addr : Z; slots_bitmap : cl_bitmap }.

Section Rings.
Context {S : Type} `{RingMap S}.

Fixpoint abandon_loop (w : mworld) (l : list Z) : option mworld :=
  match l with
  | [] => Some w
  | a :: l =>
    x ← waits w !! a;
    k ← kt_wakeup (who_sent x) (mkern w);
    abandon_loop (set_mkern (set_wait w a (Wait (sent x) (who_sent x) KE_MESSAGE_WAIT_STATUS_ABANDONED)) k) l
  end.

Definition put_thread_msg (p : ke_message_pool) (st : S) (w : mworld) (who : Z) : run (ke_message_pool * S * mworld) :=
  msg ← lift (ktms w !! who);
  let slots_base := slots msg in
  w ← lift (abandon_loop w (waiting msg));
  let msg := Ktm (map_of msg) 0 (Instance None (slot_buffer_size (desc msg))) [] in
  '(msg, st) ← (if negb (map_of msg =? 0) then
                  st ← rm_close st (map_of msg); Ret (Ktm 0 (slots msg) (desc msg) (waiting msg), st)
                else Ret (msg, st));
  '(_, bm) ← lift (cl_bitmap_dealloc_bit (slots_bitmap p)
                     (wrap (slots_base - pool_addr p) / KE_MESSAGE_SLOTS_SIZE_PER_THREAD));
  Ret (Pool (pool_addr p) bm, st, set_ktm w who msg).

(** [get_thread_msg]: false is NULL; the new ring has the contents [mem] of its
    page. *)
Definition get_thread_msg (p : ke_message_pool) (st : S) (w : mworld) (who : Z) (try_create : bool)
    (page : Z -> list y_message) : run (bool * ke_message_pool * S * mworld) :=
  msg ← lift (ktms w !! who);
  if negb ((map_of msg =? 0) && try_create) then Ret (true, p, st, w) else
  if negb (who =? cur (cpu (mkern w))) then Fault else
  '(map, st) ← rm_create st;
  let msg := Ktm map (slots msg) (desc msg) (waiting msg) in
  if map =? 0 then Ret (false, p, st, set_ktm w who msg) else
  '(r, bm) ← lift (cl_bitmap_alloc_bit (slots_bitmap p));
  let p := Pool (pool_addr p) bm in
  if r =? HAL_BITMAP_ALLOC_BIT_ERROR then
    st ← rm_close st map;
    Ret (false, p, st, set_ktm w who (Ktm 0 (slots msg) (desc msg) (waiting msg)))
  else
    let base := wrap (pool_addr p + r * KE_MESSAGE_SLOTS_SIZE_PER_THREAD) in
    let msg := Ktm map base (Instance (Some O) KE_MESSAGE_SLOTS_SIZE_PER_THREAD) (waiting msg) in
    mem ← message_reset_all 512 KE_MESSAGE_SLOTS_SIZE_PER_THREAD (page r);
    st ← rm_share st map (wrap (base - pool_addr p));
    Ret (true, p, st, set_ring (set_ktm w who msg) who mem).

Definition ktm_prepare_loop (p : ke_message_pool) (st : S) (w : mworld) (page : Z -> list y_message) :=
  get_thread_msg p st w (cur (cpu (mkern w))) true page.

Definition ktm_delete (p : ke_message_pool) (st : S) (w : mworld) := put_thread_msg p st w (cur (cpu (mkern w))).

Definition ktm_msg_init (w : mworld) (who : Z) : mworld := set_ktm w who (Ktm 0 0 (Instance None 0) []).

End Rings.

End KtmOps.
Import KtmOps.

(** ** Sending *)

(** The ring of a thread: the queue [ps] from the position [r] of the thread. *)
Definition thread_ring (N : nat) (w : mworld) (who : Z) (r : nat) (ps : list pmsg) (free : list y_message) : Prop :=
  exists k mem c, ktms w !! who = Some k /\ rings w !! who = Some mem /\
    desc k = Instance (Some c) (SIZEOF_Y_MESSAGE * Z.of_nat N) /\ msg_ring N mem r c ps free.

(** The wait node a synchronous sender leaves. *)
Definition enlisted (w w' : mworld) (to wait : Z) (sync : bool) (pos : nat) : Prop :=
  (forall k, ktms w !! to = Some k ->
     exists k', ktms w' !! to = Some k' /\ waiting k' = if sync then waiting k ++ [wait] else waiting k) /\
  waits w' = if sync then <[wait := Wait pos (cur (cpu (mkern w))) KE_MESSAGE_WAIT_STATUS_NONE]> (waits w) else waits w.

Section Rings.
Context (N : nat) (HN : (0 < N)%nat).

Lemma send_spec w to r ps free m src wait (sync : bool) :
  let n := add_msg_count (m_count m) in
  thread_ring N w to r ps free -> (n <= length src)%nat ->
  if decide (n < length free)%nat
  then exists pos w', send w to (m :: src) (if sync then Some wait else None) = Some (Some pos, w') /\
    pos = rotate_nat_add r (length (all_slots ps)) N /\ mkern w' = mkern w /\
    thread_ring N w' to r (ps ++ [delivered m src]) (drop (S n) free) /\ enlisted w w' to wait sync pos
  else send w to (m :: src) (if sync then Some wait else None) = Some (None, w).
Proof.
  intros n (k & mem & c & Hk & Hmem & Hd & Hring) Hs. unfold send. rewrite Hk, Hmem. cbn [mbind option_bind].
  pose proof (reserve_spec N HN mem r c ps free m src Hring Hs) as R. fold n in R. rewrite Hd. case_decide as Hn.
  2: { rewrite R. done. }
  destruct R as (mem' & cur' & x & -> & Hring' & Hx & _). cbn [mbind option_bind].
  destruct (fire_spec N HN mem' r cur' ps _ [] (drop (S n) free) m src Hring') as (mem2 & Ef & Hring2).
  { cbn. rewrite length_take. lia. }
  rewrite <- (rg_cur _ _ _ _ _ _ Hring) in Ef. rewrite Ef. cbn [mbind option_bind].
  eexists c, _. split; [done|]. split; [apply (rg_cur _ _ _ _ _ _ Hring)|].
  assert (fired m (Pending (mark_slot x) (take n src)) = delivered m src) as Efd.
  { unfold fired, delivered. cbn. destruct free as [|y free]; [done|]. injection Hx as ->.
    pose proof (rg_free _ _ _ _ _ _ Hring) as [Hy _]%Forall_cons. unfold free_slot in Hy. by rewrite Hy. }
  rewrite Efd in Hring2. split_and!.
  - by destruct sync.
  - destruct sync; eexists _, mem2, cur'; (split_and!; [apply lookup_insert_eq|apply lookup_insert_eq|done|done]).
  - split; [|by destruct sync]. intros k' Hk'. rewrite Hk in Hk'. injection Hk' as <-.
    destruct sync; cbn; rewrite lookup_insert_eq; by eexists.
Qed.

Lemma thread_ring_kern w k to r ps free : thread_ring N (set_mkern w k) to r ps free <-> thread_ring N w to r ps free.
Proof. done. Qed.

(** C5: an attempt of [ktm_send].  With room in the ring of the receiver the
    message, as the receiver will read it, is appended to the queue, the
    receiver is made runnable, and a synchronous sender is enlisted at the
    slot of its message; without room nothing changes, and the sender gives
    way or, after its last attempt, gives up. *)
Theorem ktm_try_send_correct w to r ps free m src wait try_resend :
  let n := add_msg_count (m_count m) in
  let sync := has_flag (m_flags m) MSG_FLAGS_SYNC in
  wakeable (mkern w) -> is_Some (threads (mkern w) !! to) ->
  thread_ring N w to r ps free -> (n <= length src)%nat ->
  if decide (n < length free)%nat
  then exists w' th, ktm_try_send w to (m :: src) wait try_resend = Some (if sync then Waits else Delivered, w') /\
    thread_ring N w' to r (ps ++ [delivered m src]) (drop (S n) free) /\
    enlisted w w' to wait sync (rotate_nat_add r (length (all_slots ps)) N) /\
    wakeable (mkern w') /\ threads (mkern w') !! to = Some th /\ running th
  else ktm_try_send w to (m :: src) wait try_resend =
    match Nat.pred try_resend with
    | O => Some (Refused, w)
    | S more => '(_, k) ← kt_switch (mkern w); Some (Switched (S more), set_mkern w k)
    end.
Proof.
  intros n sync Hw Ht Hring Hs. unfold ktm_try_send. cbn [is_sync]. fold sync.
  pose proof (send_spec w to r ps free m src wait sync Hring Hs) as R. fold n in R. case_decide as Hn.
  2: { rewrite R. done. }
  destruct R as (pos & w1 & -> & -> & Ek & Hring' & He). cbn [mbind option_bind]. rewrite Ek.
  destruct (wakeup_runs (mkern w) to Hw Ht) as (k' & th & -> & Hm & Hth & Hrun). cbn [mbind option_bind].
  eexists _, th. split; [done|]. split_and!; try done. apply (mr_wf _ _ Hm).
Qed.

(** ** The answer to a synchronous message *)

(** The nodes of the waiting senders exist, each for a message of its own. *)
Definition waits_ok (w : mworld) (l : list Z) : Prop :=
  NoDup l /\ (forall a, a ∈ l -> is_Some (waits w !! a)) /\
  forall a b x y, a ∈ l -> b ∈ l -> waits w !! a = Some x -> waits w !! b = Some y -> sent x = sent y -> a = b.

Lemma find_wait_spec w l a x : waits_ok w l -> a ∈ l -> waits w !! a = Some x -> find_wait (waits w) l (sent x) = Some (Some a).
Proof.
  intros (_ & Hex & Hinj) Ha Hx.
  assert (forall l', (forall b, b ∈ l' -> b ∈ l) -> a ∈ l' -> find_wait (waits w) l' (sent x) = Some (Some a)) as G; [|by apply (G l)].
  induction l' as [|b l' IH]; intros Hsub Hin; [by apply not_elem_of_nil in Hin|]. cbn.
  assert (b ∈ l) as Hb by (apply Hsub, list_elem_of_here). destruct (Hex b Hb) as [y Hy]. rewrite Hy. cbn [mbind option_bind].
  destruct (Nat.eqb_spec (sent y) (sent x)) as [E|E]; [by rewrite (Hinj b a y x)|].
  apply IH; [intros c Hc; apply Hsub; by apply list_elem_of_further|].
  apply elem_of_cons in Hin as [->|Hin]; [|done]. rewrite Hx in Hy. by injection Hy as ->.
Qed.

Lemma list_del_spec k a : a ∈ waiting k -> list_del_wait k a = Some (set_waiting k (filter (fun x => x <> a) (waiting k))).
Proof.
  intros Ha. unfold list_del_wait. rewrite (proj2 (existsb_exists _ _)); [done|]. exists a. split; [by apply list_elem_of_In|apply Z.eqb_refl].
Qed.

Lemma copy_answer_spec b : forall (mem pre c dst : list y_message) x r,
  length mem = N -> rotate r mem = pre ++ x :: b ++ c -> (length b <= length dst)%nat ->
  copy_answer (length b) (SIZEOF_Y_MESSAGE * Z.of_nat N) mem (rotate_nat_add r (length pre) N) dst = Some (b ++ drop (length b) dst).
Proof.
  induction b as [|y b IH]; intros mem pre c dst x r Hl E Hd; cbn [copy_answer length]; [by destruct dst|].
  destruct dst as [|d dst]; cbn in Hd; [lia|]. rewrite (next_at N HN).
  assert (rotate r mem = (pre ++ [x]) ++ y :: b ++ c) as E2 by (by rewrite <- app_assoc).
  assert (S (length pre) = length (pre ++ [x])) as -> by (rewrite length_app; cbn; lia).
  rewrite (slot_get N HN mem (pre ++ [x]) (b ++ c) r y Hl E2). cbn [mbind option_bind].
  rewrite (IH mem (pre ++ [x]) c dst y r Hl E2) by lia. done.
Qed.

(** The message after its sender has taken the answer. *)
Definition taken (p : pmsg) : pmsg :=
  Pending (set_flags (p_head p) (Z.land (m_flags (p_head p)) (65535 - MSG_STATUS_NEW))) (p_body p).

Lemma finish_spec w to r p ps free m src wait x :
  thread_ring N w to r (p :: ps) free -> is_new p = true ->
  waits w !! wait = Some x -> sent x = r -> wait_status x = KE_MESSAGE_WAIT_STATUS_OK ->
  (add_msg_count (m_count m) <= length src)%nat ->
  let n := Nat.min (length (p_body p)) (add_msg_count (m_count m)) in
  exists mem', ktm_finish w to (m :: src) wait = Some (true, p_head p :: take n (p_body p) ++ drop n src, set_ring w to mem') /\
    length mem' = N /\ rotate r mem' = slots_of (taken p) ++ all_slots ps ++ free.
Proof.
  intros (k & mem & c & Hk & Hmem & Hd & [Hl Hr E Hf Hp Hc]) Hnew Hx Hs Hst Hsrc n.
  apply Forall_cons in Hp as [[_ Hb] _]. specialize (Hb Hnew).
  unfold ktm_finish. rewrite Hx, Hk. cbn [mbind option_bind]. rewrite Hst, Z.eqb_refl, Hmem, Hs. cbn [mbind option_bind head tail].
  assert (rotate r mem = [] ++ p_head p :: take n (p_body p) ++ (drop n (p_body p) ++ all_slots ps ++ free)) as E'.
  { rewrite E. unfold all_slots. cbn. rewrite <- app_assoc. f_equal. by rewrite (app_assoc (take n (p_body p))), take_drop. }
  pose proof (slot_get N HN mem [] _ r _ Hl E') as Hg. cbn [length] in Hg. rewrite (at_0 N r Hr) in Hg. rewrite Hg. cbn [mbind option_bind].
  assert (length (take n (p_body p)) = n) as Hn by (rewrite length_take; lia).
  pose proof (copy_answer_spec (take n (p_body p)) mem [] _ src _ r Hl E') as Hcp. rewrite Hn in Hcp. cbn [length] in Hcp.
  rewrite (at_0 N r Hr) in Hcp. rewrite Hd, <- Hb. fold n. cbn [slot_buffer_size]. rewrite Hcp by lia. cbn [mbind option_bind].
  eexists. split; [done|]. split; [by rewrite length_insert|].
  pose proof (slot_set N HN mem [] _ r _ (p_head (taken p)) Hl E') as Hset. cbn [length] in Hset. rewrite (at_0 N r Hr) in Hset.
  unfold taken in Hset. cbn [p_head] in Hset. rewrite Hset. cbn. f_equal. by rewrite app_assoc, take_drop.
Qed.

(** C6: the answer to a synchronous message.  The receiver acknowledges the
    message at the front of its queue: the sender is taken off the list and
    made runnable, its wait is over, it gets the header and the data slots of
    the message as they are now (but not more slots than it sent), and the
    polling of the receiver ends; the other messages stay. *)
Theorem sync_answer_correct w to r p ps free m src wait sender k :
  wakeable (mkern w) -> cur (cpu (mkern w)) = to -> is_Some (threads (mkern w) !! sender) ->
  thread_ring N w to r (p :: ps) free -> is_new p = true ->
  ktms w !! to = Some k -> wait ∈ waiting k -> waits_ok w (waiting k) ->
  waits w !! wait = Some (Wait r sender KE_MESSAGE_WAIT_STATUS_NONE) ->
  (add_msg_count (m_count m) <= length src)%nat ->
  let n := Nat.min (length (p_body p)) (add_msg_count (m_count m)) in
  exists w1 w2 mem2 th, ktm_ack_sync w r = Some (true, w1) /\
    threads (mkern w1) !! sender = Some th /\ running th /\ wakeable (mkern w1) /\
    ktm_wait w1 wait = Some (true, w1) /\
    ktm_finish w1 to (m :: src) wait = Some (true, p_head p :: take n (p_body p) ++ drop n src, w2) /\
    ktm_ack_poll w2 r = Some (true, w2) /\ rings w2 !! to = Some mem2 /\
    rotate r mem2 = slots_of (taken p) ++ all_slots ps ++ free /\
    (exists k2, ktms w2 !! to = Some k2 /\ waiting k2 = filter (fun a => a <> wait) (waiting k)).
Proof.
  intros Hw Hcur Hsd Hring Hnew Hk Ha Hok Hx Hsrc n. unfold ktm_ack_sync. rewrite Hcur, Hk. cbn [mbind option_bind].
  rewrite (find_wait_spec w (waiting k) wait _ Hok Ha Hx : find_wait _ _ r = _). cbn [mbind option_bind]. rewrite (list_del_spec k wait Ha), Hx. cbn [mbind option_bind who_sent sent].
  destruct (wakeup_runs (mkern w) sender Hw Hsd) as (k' & th & -> & Hm & Hth & Hrun). cbn [mbind option_bind].
  set (w1 := set_mkern _ k').
  assert (thread_ring N w1 to r (p :: ps) free) as Hring1.
  { destruct Hring as (k0 & mem & c & Hk0 & Hmem & Hd & Hr). rewrite Hk in Hk0. injection Hk0 as <-.
    eexists _, mem, c. split_and!; [apply lookup_insert_eq|done|done|done]. }
  assert (waits w1 !! wait = Some (Wait r sender KE_MESSAGE_WAIT_STATUS_OK)) as Hx1 by apply lookup_insert_eq.
  destruct (finish_spec w1 to r p ps free m src wait _ Hring1 Hnew Hx1) as (mem' & Ef & Hl' & R); [done..|].
  exists w1, (set_ring w1 to mem'), mem', th. split_and!; try done.
  - apply (mr_wf _ _ Hm).
  - unfold ktm_wait. by rewrite Hx1.
  - unfold ktm_ack_poll. cbn [mkern set_ring w1 set_mkern]. rewrite (mr_cur _ _ Hm), Hcur.
    assert (rings (set_ring w1 to mem') !! to = Some mem') as -> by apply lookup_insert_eq. cbn [mbind option_bind].
    destruct Hring as (_ & _ & _ & _ & _ & _ & [_ Hr _ _ _ _]).
    pose proof (slot_get N HN mem' [] _ r _ Hl' R) as Hg. cbn [length] in Hg. rewrite (at_0 N r Hr) in Hg. rewrite Hg. cbn [mbind option_bind].
    replace (has_flag (m_flags (p_head (taken p))) MSG_STATUS_NEW) with false; [done|]. cbn. unfold has_flag.
    by rewrite <- Z.land_assoc, Z.land_0_r.
  - apply lookup_insert_eq.
  - eexists. split; [apply lookup_insert_eq|done].
Qed.

End Rings.

(** ** The end of a ring *)

Lemma abandon_spec l : forall w,
  wakeable (mkern w) -> NoDup l ->
  (forall a, a ∈ l -> exists x, waits w !! a = Some x /\ is_Some (threads (mkern w) !! who_sent x)) ->
  exists w', abandon_loop w l = Some w' /\ ktms w' = ktms w /\ rings w' = rings w /\ more_running (mkern w) (mkern w') /\
    (forall a, a ∉ l -> waits w' !! a = waits w !! a) /\
    (forall a x, a ∈ l -> waits w !! a = Some x ->
       waits w' !! a = Some (Wait (sent x) (who_sent x) KE_MESSAGE_WAIT_STATUS_ABANDONED) /\
       exists th, threads (mkern w') !! who_sent x = Some th /\ running th).
Proof.
  induction l as [|a l IH]; intros w Hw Hnd Hex; cbn [abandon_loop].
  { exists w. split_and!; try done; [by apply more_running_refl|]. by intros a x ?%not_elem_of_nil. }
  apply NoDup_cons in Hnd as [Hal Hnd]. destruct (Hex a) as (x & Hx & Hth); [apply list_elem_of_here|].
  rewrite Hx. cbn [mbind option_bind]. destruct (wakeup_runs (mkern w) (who_sent x) Hw Hth) as (k & th & -> & Hm & Hr & Hrun).
  cbn [mbind option_bind]. set (w1 := set_mkern _ k).
  assert (forall b, b <> a -> waits w1 !! b = waits w !! b) as Hne by (intros b Hb; by apply lookup_insert_ne).
  destruct (IH w1) as (w' & E & Hk & Hrg & Hm' & Hkeep & Hset); [apply (mr_wf _ _ Hm)|done| |].
  { intros b Hb. destruct (Hex b) as (y & Hy & Hty); [by apply list_elem_of_further|]. exists y.
    split; [by rewrite Hne by congruence|]. by apply (mr_dom _ _ Hm). }
  exists w'. split_and!; try done.
  - by apply (more_running_trans _ k).
  - intros b [Hb1 Hb2]%not_elem_of_cons. by rewrite Hkeep, Hne.
  - intros b y [->|Hb]%elem_of_cons Hy.
    + rewrite Hx in Hy. injection Hy as <-. rewrite Hkeep by done. split; [apply lookup_insert_eq|]. by apply (mr_run _ _ Hm' _ th).
    + apply Hset; [done|]. by rewrite Hne by congruence.
Qed.

(** The sections of the kernel as the maps of rings: [ks_message] is the section
    of the pool, which belongs to the process [system]. *)
Definition section_maps {M E} `{ObjectPool M E} (e : E) (system ks_message : Z) : RingMap (kstate M) := {|
  rm_create st := ks_create e st KS_TYPE_SHARE 0 PAGE_SIZE (Z.lor KM_PROT_READ KM_PROT_WRITE);
  rm_close := ks_close e;
  rm_share st map offset := ks_share st system ks_message map offset
|}.

Section Pool.
Context {S : Type} `{RingMap S}.

(** The pool of pages and the rings of the threads in it. *)
Record pool_ok (p : ke_message_pool) (w : mworld) : Prop := {
  po_bitmap : bm_wf (slots_bitmap p);
  po_space : 0 < pool_addr p /\ pool_addr p + mask_count (slots_bitmap p) * KE_MESSAGE_SLOTS_SIZE_PER_THREAD <= 4294967296;
  po_used : forall who k, ktms w !! who = Some k -> slots k <> 0 ->
    exists r, 0 <= r < mask_count (slots_bitmap p) /\ Bitmap.used (slots_bitmap p) r = true /\
      slots k = pool_addr p + r * KE_MESSAGE_SLOTS_SIZE_PER_THREAD;
  po_apart : forall who who' k k', ktms w !! who = Some k -> ktms w !! who' = Some k' ->
    slots k <> 0 -> slots k = slots k' -> who = who'
}.

(** The thread has a ring, and the nodes of its waiting senders exist. *)
Record has_ring (p : ke_message_pool) (w : mworld) (who : Z) (k : ktm) : Prop := {
  hr_ktm : ktms w !! who = Some k;
  hr_slots : slots k <> 0;
  hr_map : map_of k <> 0;
  hr_nodes : NoDup (waiting k);
  hr_senders : forall a, a ∈ waiting k -> exists x, waits w !! a = Some x /\ is_Some (threads (mkern w) !! who_sent x)
}.

Lemma put_spec p st st' w who k :
  pool_ok p w -> wakeable (mkern w) -> has_ring p w who k -> rm_close st (map_of k) = Ret st' ->
  let r := (slots k - pool_addr p) / KE_MESSAGE_SLOTS_SIZE_PER_THREAD in
  exists bm w1, put_thread_msg p st w who =
      Ret (Pool (pool_addr p) bm, st', set_ktm w1 who (Ktm 0 0 (Instance None (slot_buffer_size (desc k))) [])) /\
    abandon_loop w (waiting k) = Some w1 /\ bm_wf bm /\ mask_count bm = mask_count (slots_bitmap p) /\
    (forall i, Bitmap.used bm i = if i =? r then false else Bitmap.used (slots_bitmap p) i) /\
    slots k = pool_addr p + r * KE_MESSAGE_SLOTS_SIZE_PER_THREAD.
Proof.
  intros [Hb [Hp0 Hp1] Hu Hap] Hw [Hk Hs Hm Hnd Hex] Hcl r. unfold put_thread_msg. rewrite Hk. cbn [lift mbind run_bind].
  destruct (abandon_spec (waiting k) w Hw Hnd Hex) as (w1 & Ea & _). rewrite Ea. cbn [lift mbind run_bind map_of].
  rewrite (proj2 (Z.eqb_neq _ _) Hm), Hcl. cbn [negb mbind run_bind slots desc waiting].
  destruct (Hu who k Hk Hs) as (r' & Hr & Hur & Er').
  assert (r = r') as Er by (unfold r; rewrite Er'; replace (pool_addr p + r' * KE_MESSAGE_SLOTS_SIZE_PER_THREAD - pool_addr p)
    with (r' * KE_MESSAGE_SLOTS_SIZE_PER_THREAD) by lia; by apply Z.div_mul).
  unfold r in Er. rewrite wrap_small by (unfold is_word, KE_MESSAGE_SLOTS_SIZE_PER_THREAD in *; nia). rewrite Er.
  destruct (dealloc_bit_cases (slots_bitmap p) r' Hb Hr) as (bm & -> & Hb' & Hmask & _ & _ & Hused). cbn [lift mbind run_bind].
  exists bm, w1. unfold r. rewrite Er. by split_and!.
Qed.

(** [put_thread_msg] of a thread with a ring: every waiting sender is told
    that its message is abandoned and made runnable, the section is closed, the
    page is free again and the others' pages stay, and messages to the thread
    are refused. *)
Theorem put_thread_msg_correct p st st' w who k :
  pool_ok p w -> wakeable (mkern w) -> has_ring p w who k -> rm_close st (map_of k) = Ret st' ->
  exists p' w', put_thread_msg p st w who = Ret (p', st', w') /\ pool_ok p' w' /\
    (forall i, Bitmap.used (slots_bitmap p') i =
       if i =? (slots k - pool_addr p) / KE_MESSAGE_SLOTS_SIZE_PER_THREAD then false else Bitmap.used (slots_bitmap p) i) /\
    (forall a x, a ∈ waiting k -> waits w !! a = Some x ->
       wait_status <$> waits w' !! a = Some KE_MESSAGE_WAIT_STATUS_ABANDONED /\
       exists th, threads (mkern w') !! who_sent x = Some th /\ running th) /\
    (forall what a, is_Some (head what) -> is_Some (rings w !! who) -> send w' who what a = Some (None, w')).
Proof.
  intros Hp Hw Hr Hcl. destruct (put_spec p st st' w who k Hp Hw Hr Hcl) as (bm & w1 & -> & Ea & Hb & Hmask & Hused & Es).
  destruct Hr as [Hk Hs Hm Hnd Hex], Hp as [_ Hsp Hu Hap]. set (r := _ / _) in *.
  destruct (abandon_spec (waiting k) w Hw Hnd Hex) as (w1' & Ea' & Ek & Er & _ & _ & Hset). rewrite Ea in Ea'. injection Ea' as <-.
  eexists _, _. split; [done|]. split_and!; [|done| |].
  - constructor; cbn [pool_addr slots_bitmap ktms set_ktm]; rewrite ?Hmask; [done|done| |]; rewrite Ek.
    + intros who' k' [[<- <-]|[Hne Hk']]%lookup_insert_Some; [done|]. intros Hs'.
      destruct (Hu who' k' Hk' Hs') as (r' & Hr' & Hur' & Es'). exists r'. split; [done|]. split; [|done]. rewrite Hused.
      destruct (Z.eqb_spec r' r) as [->|]; [|done]. destruct Hne. apply (Hap who who' k k'); [done..|]. lia.
    + intros a b ka kb [[<- <-]|[Ha Hka]]%lookup_insert_Some; [done|]. intros [[<- <-]|[Hb1 Hkb]]%lookup_insert_Some; [cbn; lia|].
      by apply Hap.
  - intros a x Ha Hx. destruct (Hset a x Ha Hx) as [Hx' Hth]. cbn [waits set_ktm]. by rewrite Hx'.
  - intros what a [m Hm'] [mem Hmem]. unfold send. cbn [ktms rings set_ktm]. rewrite lookup_insert_eq, Er, Hmem. cbn [mbind option_bind].
    unfold reserve. rewrite Hm'. done.
Qed.

(** A sender whose message is abandoned deletes its node from the list a second
    time. *)
Theorem abandoned_sender_faults p st st' w who k a what :
  pool_ok p w -> wakeable (mkern w) -> has_ring p w who k -> rm_close st (map_of k) = Ret st' -> a ∈ waiting k ->
  exists p' w', put_thread_msg p st w who = Ret (p', st', w') /\ ktm_finish w' who what a = None.
Proof.
  intros Hp Hw Hr Hcl Ha. destruct (put_spec p st st' w who k Hp Hw Hr Hcl) as (bm & w1 & -> & Ea & _).
  destruct Hr as [Hk Hs Hm Hnd Hex]. destruct (Hex a Ha) as (x & Hx & _).
  destruct (abandon_spec (waiting k) w Hw Hnd Hex) as (w1' & Ea' & _ & _ & _ & _ & Hset). rewrite Ea in Ea'. injection Ea' as <-.
  eexists _, _. split; [done|]. destruct (Hset a x Ha Hx) as [Hx' _]. unfold ktm_finish. cbn [waits ktms set_ktm].
  by rewrite Hx', lookup_insert_eq.
Qed.

Lemma alloc_slot p w :
  pool_ok p w -> exists r bm, cl_bitmap_alloc_bit (slots_bitmap p) = Some (r, bm) /\ bm_wf bm /\
    mask_count bm = mask_count (slots_bitmap p) /\
    ((r = HAL_BITMAP_ALLOC_BIT_ERROR /\ (forall i, Bitmap.used bm i = Bitmap.used (slots_bitmap p) i) /\
        forall i, 0 <= i < mask_count (slots_bitmap p) -> Bitmap.used (slots_bitmap p) i = true) \/
     (r <> HAL_BITMAP_ALLOC_BIT_ERROR /\ 0 <= r < mask_count (slots_bitmap p) /\ Bitmap.used (slots_bitmap p) r = false /\
        forall i, Bitmap.used bm i = if i =? r then true else Bitmap.used (slots_bitmap p) i)).
Proof.
  intros Hp. destruct (alloc_bit_cases (slots_bitmap p) (po_bitmap _ _ Hp)) as (r & bm & E & Hb & Hm & _ & C).
  exists r, bm. split_and!; try done. pose proof (wf_int _ (po_bitmap _ _ Hp)) as Hi.
  destruct C as [(-> & Hbm & _ & Hall)|(Hr & Hu & _ & Hset & _)]; [left|right].
  - split_and!; try done. intros i. unfold Bitmap.used. by rewrite Hbm.
  - assert (r <> HAL_BITMAP_ALLOC_BIT_ERROR) by (unfold HAL_BITMAP_ALLOC_BIT_ERROR; unfold ULONG_MAX in *; lia). split; [done|]. split; [lia|]. by split.
Qed.

(** [get_thread_msg] of the current thread without a ring.  If the pool has
    a free page, the thread gets an empty ring of 512 slots in a page that no
    other ring uses, mapped at its offset in the pool; otherwise it gets
    nothing, the section it created is closed again and the pool is as before. *)
Theorem get_thread_msg_correct p st st1 st2 st3 w who k map page :
  pool_ok p w -> ktms w !! who = Some k -> map_of k = 0 -> slots k = 0 -> who = cur (cpu (mkern w)) ->
  rm_create st = Ret (map, st1) -> map <> 0 -> rm_close st1 map = Ret st2 ->
  (forall r, rm_share st1 map (r * KE_MESSAGE_SLOTS_SIZE_PER_THREAD) = Ret (st3 r)) ->
  (forall r, length (page r) = 512%nat) ->
  exists b p' st' w', get_thread_msg p st w who true page = Ret (b, p', st', w') /\ pool_ok p' w' /\
    if (b : bool) then exists r free, Bitmap.used (slots_bitmap p) r = false /\ st' = st3 r /\ thread_ring 512 w' who 0 [] free /\
         forall i, Bitmap.used (slots_bitmap p') i = if i =? r then true else Bitmap.used (slots_bitmap p) i
    else st' = st2 /\ (forall i, 0 <= i < mask_count (slots_bitmap p) -> Bitmap.used (slots_bitmap p) i = true) /\
         (forall i, Bitmap.used (slots_bitmap p') i = Bitmap.used (slots_bitmap p) i) /\ ktms w' !! who = Some k.
Proof.
  intros Hp Hk Hm Hs Hcur Hcr Hm0 Hcl Hsh Hpg. unfold get_thread_msg. rewrite Hk. cbn [lift mbind run_bind].
  rewrite Hm. cbn [Z.eqb andb negb]. rewrite Hcur, Z.eqb_refl. cbn [negb]. rewrite <- Hcur, Hcr. cbn [mbind run_bind].
  rewrite (proj2 (Z.eqb_neq _ _) Hm0). destruct (alloc_slot p w Hp) as (r & bm & -> & Hb & Hmask & C). cbn [lift mbind run_bind].
  destruct Hp as [_ [Hp0 Hp1] Hu Hap]. destruct C as [(-> & Hsame & Hall)|(Hr0 & Hr & Hfree & Hset)].
  - rewrite Z.eqb_refl, Hcl. cbn [mbind run_bind slots desc waiting]. exists false. eexists _, _, _. split; [done|].
    assert (Ktm 0 (slots k) (desc k) (waiting k) = k) as -> by (destruct k; cbn in *; by subst).
    split; [constructor; cbn [pool_addr slots_bitmap ktms set_ktm]; rewrite ?Hmask, ?(insert_id _ _ _ Hk); try done|].
    + intros who' k' Hk' Hs'. destruct (Hu who' k' Hk' Hs') as (r' & ?). exists r'. by rewrite Hsame.
    + split_and!; try done. apply lookup_insert_eq.
  - rewrite (proj2 (Z.eqb_neq _ _) Hr0). cbn [pool_addr].
    unfold message_reset_all, KE_MESSAGE_SLOTS_SIZE_PER_THREAD in *.
    assert (reset_loop 512 4096 (page r) 0 = Ret (clear_slot <$> page r)) as ->.
    { apply (reset_spec 512 ltac:(lia) (page r) (page r) [] 512 (Hpg r) eq_refl); [|by rewrite Hpg].
      intros E. specialize (Hpg r). by rewrite E in Hpg. }
    cbn [mbind run_bind]. rewrite (wrap_small (pool_addr p + r * 4096)) by (unfold is_word; nia).
    replace (pool_addr p + r * 4096 - pool_addr p) with (r * 4096) by lia. rewrite (wrap_small (r * 4096)) by (unfold is_word; nia).
    rewrite Hsh. cbn [mbind run_bind]. exists true. eexists _, _, _. split; [done|].
    assert (forall who' k', ktms w !! who' = Some k' -> slots k' <> pool_addr p + r * 4096) as Hother.
    { intros who' k' Hk' E. destruct (Hu who' k' Hk') as (r' & _ & Hur & Es); [lia|]. replace r' with r in Hur by lia. by rewrite Hfree in Hur. }
    split; [constructor; cbn [pool_addr slots_bitmap ktms set_ktm set_ring]; rewrite ?Hmask; [done|done| |]|].
    + intros who' k' [[<- <-]|[Hne Hk']]%lookup_insert_Some Hs'; [exists r; by rewrite Hset, Z.eqb_refl|].
      destruct (Hu who' k' Hk' Hs') as (r' & Hr' & Hur & Es). exists r'. rewrite Hset. by destruct (r' =? r).
    + intros a b ka kb [[<- <-]|[Ha Hka]]%lookup_insert_Some [[<- <-]|[Hb1 Hkb]]%lookup_insert_Some; cbn [slots]; try done.
      * intros _ E. by destruct (Hother b kb Hkb).
      * intros _ E. by destruct (Hother a ka Hka).
      * by apply (Hap a b ka kb).
    + exists r, (clear_slot <$> page r). split_and!; try done. eexists _, _, _.
      split_and!; [apply lookup_insert_eq|apply lookup_insert_eq|done|].
      constructor; [by rewrite length_fmap|lia| |by apply Forall_fmap, Forall_true|done|done].
      cbn. unfold rotate. rewrite Nat.Div0.mod_0_l. cbn. by rewrite app_nil_r.
Qed.

End Pool.

(** ** Samples *)

(** Thread 10 runs and has the ring of [sample_msgs], to which thread 30 has
    sent a synchronous message. *)
Definition sample_answer : mworld :=
  World sample_kernel {[10 := Ktm 1 0x100000 (Instance (Some 3%nat) 32) [500]]} {[10 := sample_msgs]} {[500 := Wait 1 30 0]}.

Lemma sample_answer_ring : thread_ring 4 sample_answer 10 1 [delivered sample_head sample_data] [Msg 0 0 0; Msg 0 0 0].
Proof. exists (Ktm 1 0x100000 (Instance (Some 3%nat) 32) [500]), sample_msgs, 3%nat. split_and!; try done. apply sample_ring_ok. Qed.

Lemma ktm_try_send_witness :
  exists w', ktm_try_send sample_answer 10 [Msg 1 0 6; Msg 3 0 0] 600 3 = Some (Delivered, w') /\
    thread_ring 4 w' 10 1 [delivered sample_head sample_data; delivered (Msg 1 0 6) [Msg 3 0 0]] [].
Proof.
  destruct (ktm_try_send_correct 4 ltac:(lia) sample_answer 10 1 [delivered sample_head sample_data] [Msg 0 0 0; Msg 0 0 0]
              (Msg 1 0 6) [Msg 3 0 0] 600 3 sample_wakeable) as (w' & th & E & R & _).
  - by eexists.
  - exact sample_answer_ring.
  - apply Nat.leb_le. reflexivity.
  - exists w'. split; [exact E|exact R].
Defined.

Lemma sync_answer_witness :
  exists w1 w2, ktm_ack_sync sample_answer 1 = Some (true, w1) /\
    ktm_finish w1 10 [sample_head; Msg 0 0 0] 500 = Some (true, [Msg 2 42 5; Msg 7 0 9], w2) /\ ktm_ack_poll w2 1 = Some (true, w2).
Proof.
  destruct (sync_answer_correct 4 ltac:(lia) sample_answer 10 1 (delivered sample_head sample_data) [] [Msg 0 0 0; Msg 0 0 0]
              sample_head [Msg 0 0 0] 500 30 (Ktm 1 0x100000 (Instance (Some 3%nat) 32) [500]) sample_wakeable)
    as (w1 & w2 & mem & th & E1 & _ & _ & _ & _ & E2 & E3 & _).
  - reflexivity.
  - by eexists.
  - exact sample_answer_ring.
  - reflexivity.
  - reflexivity.
  - apply list_elem_of_here.
  - split_and!; [apply NoDup_singleton|intros a ->%list_elem_of_singleton; by eexists|].
    by intros a b x y ->%list_elem_of_singleton ->%list_elem_of_singleton.
  - reflexivity.
  - apply Nat.leb_le. reflexivity.
  - exists w1, w2. split_and!; [exact E1|exact E2|exact E3].
Defined.

(** Maps that are counted. *)
#[local] Instance counted_maps : RingMap Z := {|
  rm_create n := Ret (n + 1, n + 1); rm_close n _ := Ret n; rm_share n _ _ := Ret n |}.

Definition sample_pool : ke_message_pool := Pool 0x100000 (Bitmap [1] 15 0).

Lemma sample_pool_ok : pool_ok sample_pool sample_answer.
Proof.
  constructor; cbn; unfold KE_MESSAGE_SLOTS_SIZE_PER_THREAD; try lia.
  - constructor; cbn; unfold words_ok, nbits, BITS_PER_LONG, is_word; cbn; try lia. repeat constructor; lia.
  - intros who k [<- <-]%lookup_singleton_Some _. exists 0. by split_and!.
  - by intros a b k k' [<- <-]%lookup_singleton_Some [<- <-]%lookup_singleton_Some.
Qed.

Lemma sample_has_ring : has_ring sample_pool sample_answer 10 (Ktm 1 0x100000 (Instance (Some 3%nat) 32) [500]).
Proof.
  constructor; try done; [apply NoDup_singleton|]. intros a ->%list_elem_of_singleton. eexists. by split; [|eexists].
Qed.

Lemma put_thread_msg_witness :
  exists p' w', put_thread_msg sample_pool 1 sample_answer 10 = Ret (p', 1, w') /\ pool_ok p' w'.
Proof.
  destruct (put_thread_msg_correct sample_pool 1 1 sample_answer 10 _ sample_pool_ok sample_wakeable sample_has_ring)
    as (p' & w' & E & Hp & _); [reflexivity|]. exists p', w'. split; [exact E|exact Hp].
Defined.

Lemma abandoned_sender_witness :
  exists p' w', put_thread_msg sample_pool 1 sample_answer 10 = Ret (p', 1, w') /\ ktm_finish w' 10 [sample_head; Msg 0 0 0] 500 = None.
Proof.
  apply (abandoned_sender_faults sample_pool 1 1 sample_answer 10 _ 500 _ sample_pool_ok sample_wakeable sample_has_ring);
    [reflexivity|]. apply list_elem_of_here.
Defined.

Lemma get_thread_msg_witness :
  let w := World sample_kernel {[10 := Ktm 0 0 (Instance None 0) []]} ∅ ∅ in
  exists p' w', get_thread_msg sample_pool 0 w 10 true (fun _ => replicate 512 (Msg 0 0 0)) = Ret (true, p', 1, w') /\
    exists free, thread_ring 512 w' 10 0 [] free.
Proof.
  intros w.
  assert (pool_ok sample_pool w) as Hp.
  { destruct sample_pool_ok as [Hb Hs _ _]. constructor; [exact Hb|exact Hs| |].
    - cbn. by intros who k [<- <-]%lookup_singleton_Some [].
    - cbn. by intros a b k k' [<- <-]%lookup_singleton_Some [<- <-]%lookup_singleton_Some. }
  destruct (get_thread_msg_correct sample_pool 0 1 1 (fun _ => 1) w 10 (Ktm 0 0 (Instance None 0) []) 1
              (fun _ => replicate 512 (Msg 0 0 0)) Hp) as (b & p' & st' & w' & E & _ & R).
  - reflexivity.
  - reflexivity.
  - reflexivity.
  - reflexivity.
  - reflexivity.
  - lia.
  - reflexivity.
  - reflexivity.
  - intros r. apply length_replicate.
  - destruct b.
    + destruct R as (r & free & _ & Est & Hring & _). exists p', w'. rewrite Est in E. split; [exact E|]. exists free. exact Hring.
    + exfalso. destruct R as (_ & Hall & _). assert (0 <= 1 < mask_count (slots_bitmap sample_pool)) as H1 by (cbn; lia).
      specialize (Hall 1 H1). vm_compute in Hall. discriminate Hall.
Defined.
