(* ===== verification/Valloc.v ===== *)
(** * The kernel heap and aligned blocks

    [source/kernel/memory/valloc.c] puts the variable-size allocator on 13 MB
    of kernel addresses; [source/subsystem/fs/mltt.c] takes aligned blocks
    from it and stores, in the two bytes before the address it returns, how
    far that is from the start of the block.  [half] is the memory of these
    16-bit values.  [KernelHeap] is what the users of the heap rely on.  The
    spin lock of the heap is not modelled: an operation is one step. *)

From stdpp Require Import gmap.
From S2P Require Import Prelude MemAlloc KoSection.
Local Open Scope c_scope.
Import HeapOps.

Definition KE_VIRTUAL_MEMORY_SIZE : Z := 13 * 1024 * 1024.

(** What the heap promises: blocks in use do not overlap, lie in the address
    space on multiples of 4, and only the two operations change them. *)
Class KernelHeap (H : Type) := {
  kh_ok : H -> Prop;
  kh_live : H -> Z -> Z -> Prop;                  (* a block in use: address and size *)
  kh_alloc : H -> Z -> option (Z * H);
  kh_free : H -> Z -> option H;
  kh_bounds : forall h p z, kh_ok h -> kh_live h p z -> 32 <= p /\ p mod 4 = 0 /\ 0 <= z /\ is_word (p + z);
  kh_apart : forall h p z q y, kh_ok h -> kh_live h p z -> kh_live h q y ->
    (p = q /\ z = y) \/ p + z <= q \/ q + y <= p;
  kh_alloc_law : forall h size, kh_ok h -> 0 < size < 2147483644 ->
    exists p h', kh_alloc h size = Some (p, h') /\ kh_ok h' /\
      ((p = 0 /\ forall q y, kh_live h' q y <-> kh_live h q y) \/
       (p <> 0 /\ ~ (exists y, kh_live h p y) /\
        forall q y, kh_live h' q y <-> (q = p /\ y = 4 * ((size + 3) / 4)) \/ kh_live h q y));
  kh_free_law : forall h p z, kh_ok h -> kh_live h p z -> 0 < z ->
    exists h', kh_free h p = Some h' /\ kh_ok h' /\
      forall q y, kh_live h' q y <-> q <> p /\ kh_live h q y
}.

Module VallocOps.
Section Heap.
Variable raw : Z -> node_t.

(** The parameter of [memalloc] is an [int]. *)
Definition km_valloc (kernel_vm_object : linear_memory_block) (size : Z) : option (Z * linear_memory_block) :=
  memalloc raw kernel_vm_object (to_int size).

Definition km_vfree (kernel_vm_object : linear_memory_block) (kp : Z) : option (Z * linear_memory_block) :=
  '(_, b) ← memfree kernel_vm_object kp; Some (kp, b).

Definition km_valloc_init {M E} `{ObjectPool M E} (e : E) (st : kstate M)
  : run (bool * option linear_memory_block * kstate M) :=
  '(base, _, st) ← km_alloc_virtual e st KE_VIRTUAL_MEMORY_SIZE (Z.lor KM_PROT_READ KM_PROT_WRITE);
  if base =? 0 then Ret (false, None, st) else
  '(_, b) ← lift (memalloc_init_allocation raw base KE_VIRTUAL_MEMORY_SIZE);
  Ret (true, b, st).

End Heap.

Section Aligned.
Context {H : Type} `{KernelHeap H}.

Record aheap := AHeap { blocks : H; half : gmap Z Z }.

Definition aligned_malloc (h : aheap) (size alignment : Z) : option (Z * aheap) :=
  let alignment := if alignment =? 0 then SIZEOF_LONG else alignment in
  '(tmp, b) ← kh_alloc (blocks h) (size +w alignment);
  if tmp =? 0 then Some (0, AHeap b (half h)) else
  let mem_ptr := Z.land ((tmp +w alignment) -w 1) (w_not (alignment -w 1)) in
  let mem_ptr := if mem_ptr =? tmp then mem_ptr +w alignment else mem_ptr in
  Some (mem_ptr, AHeap b (<[mem_ptr -w 2 := Z.land (mem_ptr -w tmp) 0xffff]> (half h))).

Definition aligned_free (h : aheap) (mem_ptr : Z) : option aheap :=
  if mem_ptr =? 0 then Some h else
  off ← half h !! (mem_ptr -w 2);
  b ← kh_free (blocks h) (mem_ptr -w off);
  Some (AHeap b (half h)).

End Aligned.
End VallocOps.
Import VallocOps.
Arguments aheap : clear implicits.

(** ** The allocator as a kernel heap *)

Definition on_grid (ns : list node_t) : Prop := forall n, n ∈ ns -> addr n mod 4 = 0.

Lemma on_grid_app l1 l2 : on_grid (l1 ++ l2) <-> on_grid l1 /\ on_grid l2.
Proof. unfold on_grid. setoid_rewrite elem_of_app. naive_solver. Qed.

Lemma on_grid_cons n l : on_grid (n :: l) <-> addr n mod 4 = 0 /\ on_grid l.
Proof. unfold on_grid. setoid_rewrite elem_of_cons. naive_solver. Qed.

Lemma merge_pre_grid tbl l1 n l1' n' tbl' :
  merge_pre tbl l1 n = Some (l1', n', tbl') -> on_grid l1 -> addr n mod 4 = 0 -> on_grid l1' /\ addr n' mod 4 = 0.
Proof.
  unfold merge_pre, merge. intros E G Gn. destruct (last l1) as [p|] eqn:El; [|naive_solver].
  apply last_Some in El as (l & ->). apply on_grid_app in G as [G Gp].
  destruct (IS_FREE_NODE p); [|simplify_eq; by rewrite on_grid_app].
  destruct (HASH_DELETE _ _ _); [|done]. cbn [mbind option_bind] in E. injection E as <- <- <-.
  rewrite removelast_last. split; [done|]. apply (Gp p), list_elem_of_here.
Qed.

Lemma merge_next_grid tbl n l2 n' l2' tbl' :
  merge_next tbl n l2 = Some (n', l2', tbl') -> on_grid l2 -> addr n mod 4 = 0 -> on_grid l2' /\ addr n' mod 4 = 0.
Proof.
  unfold merge_next, merge. intros E G Gn. destruct l2 as [|q l2]; [naive_solver|].
  destruct (IS_FREE_NODE q); [|by simplify_eq]. apply on_grid_cons in G as [_ G].
  destruct (HASH_DELETE _ _ _); [|done]. cbn [mbind option_bind] in E. by injection E as <- <- <-.
Qed.

Lemma split_at_app l a l1 n l2 : split_at l a = Some (l1, n, l2) -> l = l1 ++ n :: l2.
Proof.
  revert l1 n l2. induction l as [|x l IH]; [done|]. cbn. intros l1 n l2. case_if; [naive_solver|].
  destruct (split_at l a) as [[[k1 y] k2]|]; [|done]. cbn [mbind option_bind].
  injection 1 as <- <- <-. by rewrite (IH k1 y k2).
Qed.

Lemma memfree_grid b p r b' : memfree b p = Some (r, b') -> on_grid (nodes b) -> on_grid (nodes b').
Proof.
  unfold memfree, _free, dealloc. intros E G. destruct (p =? 0); [naive_solver|].
  destruct (_ && _); [|naive_solver]. destruct (split_at _ _) as [[[l1 n] l2]|] eqn:Es; [|done].
  cbn [mbind option_bind] in E. destruct (_ || _); [cbn [mbind option_bind] in E; by injection E as <- <-|].
  apply split_at_app in Es. rewrite Es, on_grid_app, on_grid_cons in G. destruct G as (G1 & Gn & G2).
  destruct (merge_pre _ _ _) as [[[l1' n1] t1]|] eqn:E1; [|done]. cbn [mbind option_bind] in E.
  apply merge_pre_grid in E1 as [G1' Gn1]; [|done|done].
  destruct (merge_next _ _ _) as [[[n2 l2'] t2]|] eqn:E2; [|done]. cbn [mbind option_bind] in E.
  apply merge_next_grid in E2 as [G2' Gn2]; [|done|done].
  destruct (HASH_APPEND _ _ _); [|done]. cbn [mbind option_bind] in E. injection E as _ <-.
  cbn [set_used nodes]. by rewrite on_grid_app, on_grid_cons.
Qed.

Lemma memalloc_grid raw b size r b' :
  heap_wf b -> 0 < size < 2147483644 -> on_grid (nodes b) -> memalloc raw b size = Some (r, b') -> on_grid (nodes b').
Proof.
  intros Hwf Hs G. unfold memalloc, _malloc.
  rewrite (proj2 (Z.eqb_neq size 0)), align_size_eq by lia. set (z := 4 * _).
  assert (0 <= z < 2147483648 /\ z mod 4 = 0) as [Hz Hz4] by (unfold z; zlia).
  rewrite (wrap_small z) by (unfold is_word; lia).
  destruct (alloc_spec raw b z Hwf) as [[-> _]|(l1 & n & l2 & tbl & En & _ & _ & -> & _)];
    [lia|unfold is_word; lia| |]; cbn [mbind option_bind]; [by injection 1 as <- <-|].
  rewrite En, on_grid_app, on_grid_cons in G. destruct G as (G1 & Gn & G2).
  intros E. assert (nodes b' = l1 ++ split_node raw n z ++ l2) as ->.
  { destruct (_ =? 0); by injection E as <- <-. }
  rewrite !on_grid_app. unfold split_node. rewrite !on_grid_cons. cbn [addr set_size MAKE_OCCUPIED MAKE_FREE].
  split_and!; try done; [zlia|]. by intros x ?%not_elem_of_nil.
Qed.

Lemma vfree_eq b p r b' : memfree b p = Some (r, b') -> km_vfree b p = Some (p, b').
Proof. intros E. unfold km_vfree. by rewrite E. Qed.

(** The heap of [valloc.c] keeps what [KernelHeap] promises; its state is a
    well-formed block whose nodes are on multiples of 4. *)
Definition kernel_heap (raw : Z -> node_t) : KernelHeap linear_memory_block.
Proof.
  refine {|
    kh_ok := fun b => heap_wf b /\ on_grid (nodes b);
    kh_live := fun b => live (nodes b);
    kh_alloc := km_valloc raw;
    kh_free := fun b p => snd <$> km_vfree b p
  |}.
  - intros b p z [Hwf G] Hl. pose proof Hl as (n & Hn & _ & -> & ->).
    pose proof (tiles_elem _ _ _ _ (hw_tiles _ Hwf) Hn). pose proof (hw_base _ Hwf). pose proof (hw_word _ Hwf) as Hw.
    unfold is_word in *. specialize (G n Hn). split_and!; [lia|zlia|lia..].
  - intros b p z q y [Hwf _] Hp Hq. destruct (live_disjoint b p z q y Hwf Hp Hq) as (_ & _ & [?|[?|?]]); lia.
  - intros b size [Hwf G] Hs. unfold km_valloc. rewrite to_int_small by lia.
    destruct (memalloc_spec raw b size Hwf ltac:(lia)) as (r & b' & E & Hwf' & _ & _ & Hr).
    exists r, b'. split; [done|]. split; [split; [done|by apply (memalloc_grid raw b size r b')]|].
    destruct Hr as [(-> & -> & _)|(Hne & _ & _ & Hfr & Hl)]; [by left|by right].
  - intros b p z [Hwf G] Hp Hz. destruct (memfree_spec b p z Hwf Hp Hz) as (b' & E & Hwf' & _ & _ & _ & Hl).
    exists b'. split; [by rewrite (vfree_eq _ _ _ _ E)|]. split; [|done]. split; [done|by apply (memfree_grid b p p b')].
Defined.

(** ** Aligned blocks *)

(** The address an aligned block is given in the block at [tmp]: the first
    multiple of the alignment after [tmp]. *)
Definition next_multiple (tmp alignment : Z) : Z := alignment * (tmp / alignment + 1).

Lemma next_multiple_bounds tmp a : 0 < a -> tmp < next_multiple tmp a <= tmp + a.
Proof. intros Ha. unfold next_multiple. pose proof (Z.div_mod tmp a). pose proof (Z.mod_pos_bound tmp a). lia. Qed.

Lemma round_down_pow2 x k : is_word x -> 0 <= k < 32 -> Z.land x (w_not (2 ^ k - 1)) = 2 ^ k * (x / 2 ^ k).
Proof.
  intros Hx Hk. rewrite Z.mul_comm, <- Z.shiftr_div_pow2, <- Z.shiftl_mul_pow2, <- Z.ldiff_ones_r by lia.
  assert (is_word (2 ^ k - 1)) as Ho.
  { pose proof (Z.pow_pos_nonneg 2 k). pose proof (Z.pow_lt_mono_r 2 k 32). unfold is_word.
    change (2 ^ 32) with 4294967296 in *. lia. }
  apply word_bits_eq.
  - apply land_is_word; [done|]. apply w_not_is_word in Ho. unfold is_word in Ho. lia.
  - apply is_word_bits; [apply Z.ldiff_nonneg; unfold is_word in Hx; lia|].
    intros i Hi. by rewrite Z.ldiff_spec, testbit_word_high.
  - intros i Hi. rewrite Z.land_spec, testbit_w_not, Z.ldiff_spec by done. do 2 f_equal.
    by rewrite Z.ones_equiv, <- Z.sub_1_r.
Qed.

(** The two steps of the code make it: rounding up, and one more step when
    the block is aligned already. *)
Lemma aligned_ptr_eq tmp k :
  0 < tmp -> 0 <= k < 32 -> is_word (tmp + 2 ^ k) ->
  (let m := Z.land ((tmp +w 2 ^ k) -w 1) (w_not (2 ^ k -w 1)) in if m =? tmp then m +w 2 ^ k else m) =
  next_multiple tmp (2 ^ k).
Proof.
  intros Ht Hk Hw. assert (0 < 2 ^ k) as Ha by (apply Z.pow_pos_nonneg; lia). set (a := 2 ^ k) in *. cbn zeta.
  unfold is_word in Hw. rewrite (wrap_small (tmp + a)), (wrap_small (tmp + a - 1)), (wrap_small (a - 1)) by (unfold is_word; lia).
  replace (Z.land (tmp + a - 1) (w_not (a - 1))) with (a * ((tmp + a - 1) / a))
    by (symmetry; apply round_down_pow2; [unfold is_word; lia|done]).
  unfold next_multiple.
  assert (a * ((tmp + a - 1) / a) = if tmp mod a =? 0 then tmp else a * (tmp / a + 1)) as ->.
  { pose proof (Z.div_mod tmp a). pose proof (Z.mod_pos_bound tmp a). case_if.
    - replace (tmp + a - 1) with ((a - 1) + (tmp / a + 0) * a + (tmp mod a)) by lia.
      replace (tmp mod a) with 0 by lia. rewrite Z.add_0_r, Z.div_add, Z.div_small by lia. lia.
    - replace (tmp + a - 1) with ((tmp mod a - 1) + (tmp / a + 1) * a) by lia.
      rewrite Z.div_add, Z.div_small by lia. lia. }
  pose proof (Z.div_mod tmp a). pose proof (Z.mod_pos_bound tmp a). destruct (tmp mod a =? 0) eqn:E; zbool.
  - rewrite Z.eqb_refl, wrap_small by (unfold is_word; lia). lia.
  - rewrite (proj2 (Z.eqb_neq (a * (tmp / a + 1)) tmp)); [done|]. lia.
Qed.

Section Blocks.
Context {H : Type} `{KernelHeap H}.

(** [p] is the address of an aligned block of [size] bytes: inside a block in
    use, behind the two bytes that lead back to its start. *)
Definition aligned_in (h : aheap H) (alignment size p : Z) : Prop :=
  exists tmp z, kh_live (blocks h) tmp z /\ p = next_multiple tmp alignment /\ tmp + 4 <= p /\
    p + size <= tmp + z /\ half h !! (p - 2) = Some (p - tmp).

Lemma aligned_malloc_spec h size k :
  kh_ok (blocks h) -> 0 < size -> 2 <= k < 16 -> size + 2 ^ k < 2147483644 ->
  exists p h', aligned_malloc h size (2 ^ k) = Some (p, h') /\ kh_ok (blocks h') /\
    ((p = 0 /\ half h' = half h /\ forall q y, kh_live (blocks h') q y <-> kh_live (blocks h) q y) \/
     (exists tmp, let z := 4 * ((size + 2 ^ k + 3) / 4) in
       p = next_multiple tmp (2 ^ k) /\ tmp + 4 <= p /\ p + size <= tmp + z /\ is_word (tmp + z) /\
       half h' = <[p - 2 := p - tmp]> (half h) /\ ~ (exists y, kh_live (blocks h) tmp y) /\
       forall q y, kh_live (blocks h') q y <-> (q = tmp /\ y = z) \/ kh_live (blocks h) q y)).
Proof.
  intros Hok Hs Hk Hsz. assert (4 <= 2 ^ k <= 32768) as Ha.
  { split; [change 4 with (2 ^ 2)|change 32768 with (2 ^ 15)]; apply Z.pow_le_mono_r; lia. }
  assert (2 ^ k mod 4 = 0) as Ha4.
  { replace k with (2 + (k - 2)) by lia. rewrite Z.pow_add_r by lia. change (2 ^ 2) with 4.
    rewrite Z.mul_comm. by apply Z.mod_mul. }
  unfold aligned_malloc. rewrite (proj2 (Z.eqb_neq (2 ^ k) 0)) by lia. cbn zeta.
  rewrite (wrap_small (size + 2 ^ k)) by (unfold is_word; lia).
  destruct (kh_alloc_law (blocks h) (size + 2 ^ k) Hok) as (tmp & b & -> & Hok' & Hb); [lia|].
  cbn [mbind option_bind]. destruct Hb as [[-> Hb]|(Hne & Hfr & Hb)].
  { exists 0, (AHeap b (half h)). cbn [Z.eqb]. split_and!; try done. by left. }
  set (z := 4 * ((size + 2 ^ k + 3) / 4)) in *.
  destruct (kh_bounds b tmp z Hok') as (Ht & Ht4 & Hz & Hw); [apply Hb; by left|].
  assert (size + 2 ^ k <= z) as Hle by (unfold z; zlia). unfold is_word in Hw.
  rewrite (proj2 (Z.eqb_neq tmp 0)) by lia.
  pose proof (aligned_ptr_eq tmp k) as Hptr. cbn zeta in Hptr. rewrite Hptr by (unfold is_word; lia).
  pose proof (next_multiple_bounds tmp (2 ^ k)). set (p := next_multiple tmp (2 ^ k)) in *.
  assert (p mod 4 = 0) as Hp4.
  { unfold p, next_multiple. rewrite <- Z.mul_mod_idemp_l, Ha4 by lia. done. }
  rewrite (wrap_small (p - 2)), (wrap_small (p - tmp)) by (unfold is_word; lia).
  change 0xffff with (Z.ones 16). rewrite Z.land_ones, (Z.mod_small (p - tmp)) by lia.
  eexists _, _. split; [done|]. split; [done|]. right. exists tmp. cbn [blocks half].
  split_and!; try done; try lia. zlia.
Qed.

Lemma aligned_free_spec h a size p :
  kh_ok (blocks h) -> 0 < size -> aligned_in h a size p ->
  exists h' tmp z, kh_live (blocks h) tmp z /\ p = next_multiple tmp a /\ tmp + 4 <= p /\ p + size <= tmp + z /\
    aligned_free h p = Some h' /\ kh_ok (blocks h') /\ half h' = half h /\
    forall q y, kh_live (blocks h') q y <-> q <> tmp /\ kh_live (blocks h) q y.
Proof.
  intros Hok Hs (tmp & z & Hl & Hp & Hlo & Hhi & Hh). destruct (kh_bounds _ _ _ Hok Hl) as (Ht & _ & _ & Hw).
  unfold is_word in Hw. destruct (kh_free_law _ _ _ Hok Hl) as (b & E & Hok' & Hb); [lia|].
  exists (AHeap b (half h)), tmp, z. split_and!; try done. unfold aligned_free.
  rewrite (proj2 (Z.eqb_neq p 0)), (wrap_small (p - 2)), Hh by (unfold is_word; lia). cbn [mbind option_bind].
  replace (p - (p - tmp)) with tmp by lia. rewrite (wrap_small tmp) by (unfold is_word; lia).
  by rewrite E.
Qed.

(** The aligned blocks after an allocation are the old ones and the new one. *)
Lemma aligned_in_alloc h h' a n p tmp z :
  kh_ok (blocks h') -> 0 < n -> p = next_multiple tmp a -> tmp + 4 <= p -> p + n <= tmp + z ->
  half h' = <[p - 2 := p - tmp]> (half h) -> ~ (exists y, kh_live (blocks h) tmp y) ->
  (forall q y, kh_live (blocks h') q y <-> (q = tmp /\ y = z) \/ kh_live (blocks h) q y) ->
  ~ aligned_in h a n p /\ forall q, aligned_in h' a n q <-> q = p \/ aligned_in h a n q.
Proof.
  intros Hok Hn Hp Hlo Hhi Hh Hfr Hl.
  assert (forall t y, kh_live (blocks h) t y -> t + y <= tmp \/ tmp + z <= t) as Hap.
  { intros t y Ht. destruct (kh_apart _ t y tmp z Hok) as [[-> ->]|?]; [apply Hl; by right|apply Hl; by left| |lia].
    destruct Hfr. by eexists. }
  split. { intros (t & y & Ht & _ & ? & ? & _). specialize (Hap _ _ Ht). lia. }
  intros q. split.
  - intros (t & y & [[-> ->]|Ht]%Hl & Hq & ? & ? & Hx); [left; congruence|right].
    exists t, y. split_and!; try done. rewrite Hh, lookup_insert_ne in Hx; [done|]. specialize (Hap _ _ Ht). lia.
  - intros [->|(t & y & Ht & Hq & ? & ? & Hx)].
    + exists tmp, z. split_and!; try done; [apply Hl; by left|]. rewrite Hh. apply lookup_insert_eq.
    + exists t, y. split_and!; try done; [apply Hl; by right|]. rewrite Hh, lookup_insert_ne; [done|].
      specialize (Hap _ _ Ht). lia.
Qed.

Lemma aligned_in_free h h' a n p tmp z :
  kh_ok (blocks h) -> 0 < n -> kh_live (blocks h) tmp z -> p = next_multiple tmp a -> tmp + 4 <= p -> p + n <= tmp + z ->
  half h' = half h -> (forall q y, kh_live (blocks h') q y <-> q <> tmp /\ kh_live (blocks h) q y) ->
  forall q, aligned_in h' a n q <-> q <> p /\ aligned_in h a n q.
Proof.
  intros Hok Hn Htmp Hp Hlo Hhi Hh Hl q. split.
  - intros (t & y & [Hne Ht]%Hl & Hq & ? & ? & Hx). split; [|exists t, y; rewrite <- Hh; by split_and!].
    intros ->. destruct (kh_apart _ t y tmp z Hok Ht Htmp) as [[-> _]|?]; [done|lia].
  - intros [Hne (t & y & Ht & Hq & ? & ? & Hx)]. exists t, y. rewrite Hh. split_and!; try done. apply Hl.
    split; [congruence|done].
Qed.

End Blocks.

(** ** The interface of aligned blocks

    What the users of [aligned_malloc] with one size and one alignment rely
    on: every block is aligned and apart from the others. *)
Class AlignedHeap (A : Type) (alignment size : Z) := {
  ah_ok : A -> Prop;
  ah_in : A -> Z -> Prop;
  ah_malloc : A -> option (Z * A);
  ah_free : A -> Z -> option A;
  ah_bounds : forall h p, ah_ok h -> ah_in h p -> 0 < p /\ p mod alignment = 0 /\ is_word (p + size);
  ah_malloc_law : forall h, ah_ok h -> exists p h', ah_malloc h = Some (p, h') /\ ah_ok h' /\
    ((p = 0 /\ forall q, ah_in h' q <-> ah_in h q) \/
     (~ ah_in h p /\ forall q, ah_in h' q <-> q = p \/ ah_in h q));
  ah_free_law : forall h p, ah_ok h -> ah_in h p -> exists h', ah_free h p = Some h' /\ ah_ok h' /\
    forall q, ah_in h' q <-> q <> p /\ ah_in h q
}.

Definition aligned_heap {H} `{KernelHeap H} (k n : Z) (Hk : 2 <= k < 16) (Hn : 0 < n) (Hb : n + 2 ^ k < 2147483644) :
  AlignedHeap (aheap H) (2 ^ k) n.
Proof.
  refine {|
    ah_ok := fun h => kh_ok (blocks h);
    ah_in := fun h => aligned_in h (2 ^ k) n;
    ah_malloc := fun h => aligned_malloc h n (2 ^ k);
    ah_free := aligned_free
  |}.
  - intros h p Hok (tmp & z & Hl & -> & ? & ? & _). destruct (kh_bounds _ _ _ Hok Hl) as (? & _ & _ & Hw).
    unfold is_word in *. split_and!; try lia. unfold next_multiple. rewrite Z.mul_comm. apply Z.mod_mul.
    pose proof (Z.pow_pos_nonneg 2 k). lia.
  - intros h Hok. destruct (aligned_malloc_spec h n k Hok Hn Hk Hb) as (p & h' & E & Hok' & Hp).
    exists p, h'. split; [done|]. split; [done|]. destruct Hp as [(-> & Hh & Hl)|(tmp & Hp & ? & ? & _ & Hh & Hfr & Hl)].
    + left. split; [done|]. intros q. unfold aligned_in. setoid_rewrite Hl. by rewrite Hh.
    + right. by eapply aligned_in_alloc.
  - intros h p Hok Hp. destruct (aligned_free_spec h _ n p Hok Hn Hp) as (h' & tmp & z & Hl & Ep & ? & ? & E & Hok' & Hh & Hb').
    exists h'. split; [done|]. split; [done|]. by apply (aligned_in_free h h' (2 ^ k) n p tmp z).
Defined.

(** ** Theorems *)

(** On a heap that keeps its promise [aligned_malloc] returns.  It returns
    NULL and changes nothing, or an address that is a multiple of the alignment, with
    room for the size inside a new block of the heap; the distance to the
    start of that block, at most the alignment, is stored without loss in the
    16 bits before it, which also lie inside the block. *)
Theorem aligned_malloc_correct {H} `{KernelHeap H} (h : aheap H) size k :
  kh_ok (blocks h) -> 0 < size -> 2 <= k < 16 -> size + 2 ^ k < 2147483644 ->
  exists p h', aligned_malloc h size (2 ^ k) = Some (p, h') /\ kh_ok (blocks h') /\
    ((p = 0 /\ half h' = half h /\ forall q y, kh_live (blocks h') q y <-> kh_live (blocks h) q y) \/
     exists tmp z, p mod 2 ^ k = 0 /\ tmp < p <= tmp + 2 ^ k /\ tmp <= p - 2 /\ p + size <= tmp + z /\ is_word (tmp + z) /\
       half h' = <[p - 2 := p - tmp]> (half h) /\ ~ (exists y, kh_live (blocks h) tmp y) /\
       forall q y, kh_live (blocks h') q y <-> (q = tmp /\ y = z) \/ kh_live (blocks h) q y).
Proof.
  intros Hok Hs Hk Hb. destruct (aligned_malloc_spec h size k Hok Hs Hk Hb) as (p & h' & E & Hok' & Hp).
  exists p, h'. split; [done|]. split; [done|]. destruct Hp as [Hp|(tmp & Ep & ? & ? & ? & ? & ? & ?)]; [by left|right].
  pose proof (Z.pow_pos_nonneg 2 k). pose proof (next_multiple_bounds tmp (2 ^ k)).
  exists tmp, (4 * ((size + 2 ^ k + 3) / 4)). split; [|by split_and!; try lia].
  rewrite Ep. unfold next_multiple. rewrite Z.mul_comm. apply Z.mod_mul. lia.
Qed.

Lemma sample_heap_ok : @kh_ok _ (kernel_heap sample_raw) sample_heap.
Proof.
  split; [apply sample_heap_wf|]. apply on_grid_cons. split; [done|]. apply on_grid_cons. split; [done|].
  by intros n ?%not_elem_of_nil.
Qed.

Lemma aligned_malloc_witness :
  let h := AHeap sample_heap ∅ in
  exists p h', @aligned_malloc _ (kernel_heap sample_raw) h 100 (2 ^ 6) = Some (p, h') /\
    @kh_ok _ (kernel_heap sample_raw) (blocks h').
Proof.
  destruct (@aligned_malloc_correct _ (kernel_heap sample_raw) (AHeap sample_heap ∅) 100 6 sample_heap_ok)
    as (p & h' & E & Hok & _); [lia|lia|reflexivity|]. exists p, h'. split; [exact E|exact Hok].
Defined.

(** [aligned_free] takes back what [aligned_malloc] gave: a block that was
    allocated and freed leaves the blocks in use as they were. *)
Theorem aligned_malloc_free {H} `{KernelHeap H} (h : aheap H) size k p h1 :
  kh_ok (blocks h) -> 0 < size -> 2 <= k < 16 -> size + 2 ^ k < 2147483644 ->
  aligned_malloc h size (2 ^ k) = Some (p, h1) ->
  exists h2, aligned_free h1 p = Some h2 /\ kh_ok (blocks h2) /\
    forall q y, kh_live (blocks h2) q y <-> kh_live (blocks h) q y.
Proof.
  intros Hok Hs Hk Hb E. destruct (aligned_malloc_spec h size k Hok Hs Hk Hb) as (p' & h' & E' & Hok' & Hp).
  rewrite E in E'. injection E' as <- <-. destruct Hp as [(-> & Hh & Hl)|(tmp & Ep & ? & ? & _ & Hh & Hfr & Hl)].
  { exists h1. by split_and!. }
  destruct (aligned_free_spec h1 (2 ^ k) size p Hok' Hs) as (h2 & t & z & Ht & Et & ? & ? & E2 & Hok2 & _ & Hl2).
  { exists tmp, (4 * ((size + 2 ^ k + 3) / 4)). split_and!; try done; [apply Hl; by left|]. rewrite Hh. apply lookup_insert_eq. }
  assert (t = tmp) as ->.
  { apply Hl in Ht as Ht'. destruct Ht' as [[-> _]|Ht']; [done|].
    destruct (kh_apart _ t z tmp (4 * ((size + 2 ^ k + 3) / 4)) Hok' Ht) as [[? _]|?]; [apply Hl; by left|done|lia]. }
  exists h2. split_and!; try done. intros q y. rewrite Hl2, Hl. split; [naive_solver|].
  intros Hq. split; [|by right]. intros ->. destruct Hfr. by eexists.
Qed.

Lemma aligned_malloc_free_witness :
  let h := AHeap sample_heap ∅ in
  exists p h1 h2, @aligned_malloc _ (kernel_heap sample_raw) h 100 (2 ^ 6) = Some (p, h1) /\ p = 0x1000c0 /\
    @aligned_free _ (kernel_heap sample_raw) h1 p = Some h2.
Proof.
  destruct (@aligned_malloc_free _ (kernel_heap sample_raw) (AHeap sample_heap ∅) 100 6 0x1000c0
    (AHeap (Block 0x100000 180 16384 [Nod 0x100040 P_MAGIC 0 16 N_MAGIC; Nod 0x100070 P_MAGIC 0 164 N_MAGIC; Nod 0x100134 0 1 16108 0]
      (<[8%nat := [0x100134]]> (replicate 10 []))) {[0x1000be := 0x30]}) sample_heap_ok)
    as (h2 & E & _); [lia|lia|reflexivity|vm_compute; reflexivity|].
  eexists _, _, h2. split; [vm_compute; reflexivity|]. split; [reflexivity|exact E].
Defined.

(** With an alignment of 64 KB and a block that is aligned already, the
    distance does not fit into the 16 bits: 0 is stored, and [aligned_free]
    hands the address itself, which is not a block, to the heap. *)
Theorem aligned_malloc_truncates {H} `{KernelHeap H} (h : aheap H) size tmp b :
  kh_alloc (blocks h) (size +w 65536) = Some (tmp, b) -> 0 < tmp -> tmp mod 65536 = 0 -> is_word (tmp + 65536) ->
  aligned_malloc h size 65536 = Some (tmp + 65536, AHeap b (<[tmp + 65534 := 0]> (half h))) /\
  aligned_free (AHeap b (<[tmp + 65534 := 0]> (half h))) (tmp + 65536) =
    (b' ← kh_free b (tmp + 65536); Some (AHeap b' (<[tmp + 65534 := 0]> (half h)))).
Proof.
  intros E Ht Hm Hw. unfold is_word in Hw. split.
  - unfold aligned_malloc. cbn [Z.eqb]. rewrite E. cbn [mbind option_bind].
    rewrite (proj2 (Z.eqb_neq tmp 0)) by lia. pose proof (aligned_ptr_eq tmp 16) as Hp. cbn zeta in Hp.
    change (2 ^ 16) with 65536 in Hp. rewrite Hp by (unfold is_word; lia).
    replace (next_multiple tmp 65536) with (tmp + 65536) by (unfold next_multiple; zlia).
    rewrite (wrap_small (tmp + 65536 - 2)), (wrap_small (tmp + 65536 - tmp)) by (unfold is_word; lia).
    replace (tmp + 65536 - 2) with (tmp + 65534) by lia. by replace (tmp + 65536 - tmp) with 65536 by lia.
  - unfold aligned_free. rewrite (proj2 (Z.eqb_neq _ 0)), (wrap_small (tmp + 65536 - 2)) by (unfold is_word; lia).
    cbn [half blocks]. replace (tmp + 65536 - 2) with (tmp + 65534) by lia. rewrite lookup_insert_eq. cbn [mbind option_bind].
    by rewrite Z.sub_0_r, wrap_small by (unfold is_word; lia).
Qed.

(** 1 MB of heap at 1 MB, nothing in use. *)
Definition fs_block : linear_memory_block :=
  Block 0x100000 0 1048512 [Nod 0x100040 0 1 1048480 0] (<[9%nat := [0x100040]]> (replicate 10 [])).

Lemma fs_block_ok : @kh_ok _ (kernel_heap sample_raw) fs_block.
Proof.
  split.
  - destruct (memalloc_init_correct sample_raw 0x100000 0x100000) as (b & E & Hwf & _); [lia|lia|unfold is_word; lia|].
    vm_compute in E. injection E as <-. exact Hwf.
  - intros n Hn. apply list_elem_of_singleton in Hn as ->. done.
Qed.
