(* ===== verification/CString.v ===== *)
(** * C strings and decimal numbers

    [source/libs/common/cpu/string.c], [misc/fname.c] and [misc/h2d.c].  A
    [char] buffer is the list of its bytes (0 to 255); a pointer into it is
    the list from there on, and the result of a search is the index of the
    byte it points at.  [None] is an access behind the end of the buffer. *)

From S2P Require Import Prelude.
Local Open Scope c_scope.

Module StringOps.

(** [(char)c] and a byte are equal when their low 8 bits are. *)
Definition to_char (c : Z) : Z := c mod 256.

Fixpoint strlen (s : list Z) : option Z :=
  match s with
  | [] => None
  | c :: s => if c =? 0 then Some 0 else n ← strlen s; Some (n + 1)
  end.

Fixpoint strnlen (s : list Z) (count : Z) : option Z :=
  if count =? 0 then Some 0 else
  match s with
  | [] => None
  | c :: s => if c =? 0 then Some 0 else n ← strnlen s (count - 1); Some (n + 1)
  end.

Fixpoint strcmp (cs ct : list Z) : option Z :=
  match cs, ct with
  | c1 :: cs, c2 :: ct =>
    if negb (c1 =? c2) then Some (if c1 <? c2 then -1 else 1) else
    if c1 =? 0 then Some 0 else strcmp cs ct
  | _, _ => None
  end.

(** The results of the copies are the bytes of [dest] afterwards. *)
Fixpoint strcpy (dest src : list Z) : option (list Z) :=
  match dest, src with
  | _ :: dest, c :: src => if c =? 0 then Some (c :: dest) else d ← strcpy dest src; Some (c :: d)
  | _, _ => None
  end.

Fixpoint strncpy_loop (count : nat) (tmp src : list Z) : option (list Z) :=
  match count with
  | O => Some tmp
  | S count =>
    match tmp, src with
    | _ :: tmp, c :: src' =>
      d ← strncpy_loop count tmp (if c =? 0 then src else src'); Some (c :: d)
    | _, _ => None
    end
  end.

Definition strncpy (dest src : list Z) (count : Z) : option (list Z) := strncpy_loop (Z.to_nat count) dest src.

Fixpoint strncmp (cs ct : list Z) (count : Z) : option Z :=
  if count =? 0 then Some 0 else
  match cs, ct with
  | c1 :: cs, c2 :: ct =>
    if negb (c1 =? c2) then Some (if c1 <? c2 then -1 else 1) else
    if c1 =? 0 then Some 0 else strncmp cs ct (count - 1)
  | _, _ => None
  end.

(** [p] is [s + i]; the loop ends below [s]. *)
Fixpoint rchr_loop (s : list Z) (c : Z) (i : nat) : option (option nat) :=
  x ← s !! i;
  if x =? to_char c then Some (Some i) else
  match i with O => Some None | S i => rchr_loop s c i end.

Definition strrchr (s : list Z) (c : Z) : option (option nat) :=
  n ← strlen s; rchr_loop s c (Z.to_nat n).

Fixpoint strchr (s : list Z) (c : Z) : option (option nat) :=
  match s with
  | [] => None
  | x :: s =>
    if x =? to_char c then Some (Some O) else
    if x =? 0 then Some None else r ← strchr s c; Some (option_map S r)
  end.

(** [fname.c]: the offset of the result in [fname]. *)
Definition cl_locate_pure_file_name (fname : list Z) : option nat :=
  pname ← strrchr fname 92;
  match pname with
  | Some i => Some (S i)
  | None =>
    pname ← strrchr fname 47;
    match pname with Some i => Some (S i) | None => Some O end
  end.

(** The digits, the lowest first; a word has at most 10. *)
Fixpoint h2d_loop (fuel : nat) (p : list Z) (i hex : Z) : run (Z * list Z) :=
  match fuel with
  | O => NoFuel
  | S fuel =>
    let r := hex mod 10 in
    let hex := hex / 10 in
    p ← lift (word_set p i (r + 48));
    let i := i + 1 in
    if hex <? 10 then p ← lift (word_set p i (hex + 48)); Ret (i + 1, p)
    else h2d_loop fuel p i hex
  end.

(** The two loops that turn the string around differ in their test. *)
Fixpoint turn_loop (fuel : nat) (even : bool) (p : list Z) (r_t r_f : Z) : run (list Z) :=
  match fuel with
  | O => NoFuel
  | S fuel =>
    r ← lift (word_at p r_t);
    x ← lift (word_at p r_f);
    p ← lift (word_set p r_t x);
    p ← lift (word_set p r_f r);
    let r_t := r_t + 1 in
    let r_f := r_f - 1 in
    if (if even then r_t <? r_f else negb (r_f =? r_t)) then turn_loop fuel even p r_t r_f else Ret p
  end.

Definition h2d (p : list Z) (revert : bool) (hex : Z) : run (Z * list Z) :=
  if hex <? 10 then p ← lift (word_set p 0 (hex + 48)); Ret (1, p) else
  '(i, p) ← h2d_loop 10 p 0 hex;
  if negb revert then Ret (i, p) else
  p ← turn_loop 10 (i mod 2 =? 0) p 0 (i - 1);
  Ret (i, p).

End StringOps.
Import StringOps.

(** ** What a buffer holds *)

(** The string [l] is at the start of the buffer [s]. *)
Definition cstr (s l : list Z) : Prop := 0 ∉ l /\ exists rest, s = l ++ 0 :: rest.

Lemma cstr_nil s : cstr (0 :: s) [].
Proof. split; [apply not_elem_of_nil|by exists s]. Qed.

Lemma cstr_cons c s l : cstr (c :: s) (c :: l) <-> c <> 0 /\ cstr s l.
Proof.
  unfold cstr. rewrite not_elem_of_cons. split.
  - intros [[? ?] [rest [= ->]]]. split; [congruence|]. split; [done|by exists rest].
  - intros [? [? [rest ->]]]. split; [split; [congruence|done]|by exists rest].
Qed.

(** Induction over a string in a buffer. *)
Lemma cstr_inv s l : cstr s l ->
  (l = [] /\ exists rest, s = 0 :: rest) \/
  (exists c l' s', l = c :: l' /\ s = c :: s' /\ c <> 0 /\ cstr s' l').
Proof.
  intros Hs. pose proof Hs as [_ [rest ->]]. destruct l as [|c l]; [left; split; [done|by exists rest]|right].
  exists c, l, (l ++ 0 :: rest). split; [done|]. split; [done|]. by apply cstr_cons.
Qed.

Lemma strlen_spec s l : cstr s l -> strlen s = Some (Z.of_nat (length l)).
Proof.
  revert s. induction l as [|c l IH]; intros s Hs; apply cstr_inv in Hs.
  - destruct Hs as [[_ [rest ->]]|(? & ? & ? & ? & _)]; done.
  - destruct Hs as [[? _]|(c' & l' & s' & [= <- <-] & -> & Hc & Hs)]; [done|]. cbn [strlen].
    rewrite (proj2 (Z.eqb_neq c 0) Hc), (IH _ Hs). cbn [mbind option_bind length]. f_equal. lia.
Qed.

Lemma strnlen_spec s l count :
  cstr s l -> 0 <= count -> strnlen s count = Some (Z.min count (Z.of_nat (length l))).
Proof.
  revert s count. induction l as [|c l IH]; intros s count Hs Hc; apply cstr_inv in Hs.
  - destruct Hs as [[_ [rest ->]]|(? & ? & ? & ? & _)]; [|done]. cbn. case_if; f_equal; lia.
  - destruct Hs as [[? _]|(c' & l' & s' & [= <- <-] & -> & Hc0 & Hs)]; [done|]. cbn [strnlen].
    case_if; [subst; f_equal; cbn; lia|]. rewrite (proj2 (Z.eqb_neq c 0) Hc0), (IH _ (count - 1) Hs) by lia.
    cbn [mbind option_bind length]. f_equal. lia.
Qed.

(** The order of strings: by the first byte in which they differ, a proper
    prefix before the longer string. *)
Fixpoint order (l m : list Z) : Z :=
  match l, m with
  | [], [] => 0
  | [], _ => -1
  | _, [] => 1
  | c :: l, d :: m => if c <? d then -1 else if d <? c then 1 else order l m
  end.

Lemma order_eq l m : order l m = 0 <-> l = m.
Proof.
  revert m. induction l as [|c l IH]; intros [|d m]; cbn; try done.
  destruct (Z.ltb_spec c d); [split; [done|intros [= ]; lia]|].
  destruct (Z.ltb_spec d c); [split; [done|intros [= ]; lia]|].
  rewrite IH. assert (c = d) as -> by lia. split; [by intros ->|by intros [= ->]].
Qed.

Definition bytes (l : list Z) : Prop := Forall (fun c => 0 <= c < 256) l.

Lemma strncmp_order s t l m count :
  cstr s l -> cstr t m -> bytes l -> bytes m -> 0 <= count ->
  strncmp s t count = Some (order (take (Z.to_nat count) l) (take (Z.to_nat count) m)).
Proof.
  revert s t m count. induction l as [|c l IH]; intros s t m count Hs Ht Bl Bm Hn;
    (destruct (decide (count = 0)) as [->|Hn0]; [by destruct s, t|]);
    (destruct (Z.to_nat count) as [|n] eqn:En; [lia|]); apply cstr_inv in Hs, Ht;
    destruct Hs as [[Es [rs ->]]|(c1 & l1 & s1 & Es & -> & Hc1 & Hs)]; try done; try injection Es as <- <-;
    destruct Ht as [[-> [rt ->]]|(c2 & m2 & t2 & -> & -> & Hc2 & Ht)]; cbn [strncmp take order];
    rewrite (proj2 (Z.eqb_neq count 0)) by done; try done.
  - apply Forall_cons in Bm as [B2 _]. rewrite (proj2 (Z.eqb_neq 0 c2)), (proj2 (Z.ltb_lt 0 c2)) by lia. done.
  - apply Forall_cons in Bl as [B1 _]. rewrite (proj2 (Z.eqb_neq c 0)), (proj2 (Z.ltb_ge c 0)) by lia. done.
  - apply Forall_cons in Bl as [B1 Bl], Bm as [B2 Bm]. destruct (Z.eqb_spec c c2) as [<-|Hne]; cbn [negb].
    + rewrite Z.ltb_irrefl, (proj2 (Z.eqb_neq c 0)) by done. rewrite (IH s1 t2 m2 (count - 1)) by (done || lia).
      by replace (Z.to_nat (count - 1)) with n by lia.
    + destruct (Z.ltb_spec c c2); [done|]. by rewrite (proj2 (Z.ltb_lt c2 c)) by lia.
Qed.

Lemma strcmp_order s t l m :
  cstr s l -> cstr t m -> bytes l -> bytes m -> strcmp s t = Some (order l m).
Proof.
  revert s t m. induction l as [|c l IH]; intros s t m Hs Ht Bl Bm; apply cstr_inv in Hs, Ht;
    destruct Hs as [[Es [rs ->]]|(c1 & l1 & s1 & Es & -> & Hc1 & Hs)]; try done; try injection Es as <- <-;
    destruct Ht as [[-> [rt ->]]|(c2 & m2 & t2 & -> & -> & Hc2 & Ht)]; cbn [strcmp order]; try done.
  - apply Forall_cons in Bm as [B2 _]. rewrite (proj2 (Z.eqb_neq 0 c2)), (proj2 (Z.ltb_lt 0 c2)) by lia. done.
  - apply Forall_cons in Bl as [B1 _]. rewrite (proj2 (Z.eqb_neq c 0)), (proj2 (Z.ltb_ge c 0)) by lia. done.
  - apply Forall_cons in Bl as [B1 Bl], Bm as [B2 Bm]. destruct (Z.eqb_spec c c2) as [<-|Hne]; cbn [negb].
    + rewrite Z.ltb_irrefl, (proj2 (Z.eqb_neq c 0)) by done. by apply IH.
    + destruct (Z.ltb_spec c c2); [done|]. by rewrite (proj2 (Z.ltb_lt c2 c)) by lia.
Qed.

Lemma strcpy_spec dest s l :
  cstr s l -> (length l < length dest)%nat -> strcpy dest s = Some (l ++ 0 :: drop (S (length l)) dest).
Proof.
  revert dest s. induction l as [|c l IH]; intros dest s Hs Hd; apply cstr_inv in Hs;
    (destruct dest as [|x dest]; cbn in Hd; [lia|]).
  - destruct Hs as [[_ [rest ->]]|(? & ? & ? & ? & _)]; done.
  - destruct Hs as [[? _]|(c' & l' & s' & [= <- <-] & -> & Hc & Hs)]; [done|]. cbn [strcpy].
    rewrite (proj2 (Z.eqb_neq c 0) Hc), (IH dest _ Hs) by lia. done.
Qed.

(** Bytes behind the end of the string are filled with 0; there is none at
    the end when the string is not shorter than [count]. *)
Lemma strncpy_spec dest s l count :
  cstr s l -> (Z.to_nat count <= length dest)%nat ->
  strncpy dest s count =
    Some (take (Z.to_nat count) l ++ replicate (Z.to_nat count - length l) 0 ++ drop (Z.to_nat count) dest).
Proof.
  intros Hs. unfold strncpy. generalize (Z.to_nat count) as n. intros n. revert dest s l Hs.
  induction n as [|n IH]; intros dest s l Hs Hd; [done|].
  destruct dest as [|x dest]; cbn in Hd; [lia|]. pose proof Hs as Hs'. apply cstr_inv in Hs'.
  destruct Hs' as [[-> [rest ->]]|(c & l' & s' & -> & -> & Hc & Hs')]; cbn [strncpy_loop].
  - cbn [Z.eqb]. rewrite (IH dest _ [] Hs) by lia. cbn. by rewrite Nat.sub_0_r, take_nil.
  - rewrite (proj2 (Z.eqb_neq c 0) Hc), (IH dest s' l' Hs') by lia. done.
Qed.

Lemma strchr_spec s l c :
  cstr s l -> exists r, strchr s c = Some r /\
    match r with
    | Some i => (l ++ [0]) !! i = Some (to_char c) /\ to_char c ∉ take i l
    | None => to_char c ∉ l ++ [0]
    end.
Proof.
  revert s. induction l as [|x l IH]; intros s Hs; apply cstr_inv in Hs.
  - destruct Hs as [[_ [rest ->]]|(? & ? & ? & ? & _)]; [|done]. cbn [strchr].
    destruct (Z.eqb_spec 0 (to_char c)) as [<-|Hne]; eexists; (split; [done|]).
    + split; [done|apply not_elem_of_nil].
    + intros E%list_elem_of_singleton. congruence.
  - destruct Hs as [[? _]|(c' & l' & s' & [= <- <-] & -> & Hc & Hs)]; [done|]. cbn [strchr].
    destruct (Z.eqb_spec x (to_char c)) as [->|Hne]; [eexists; split; [done|]; split; [done|apply not_elem_of_nil]|].
    rewrite (proj2 (Z.eqb_neq x 0) Hc). destruct (IH s' Hs) as (r & -> & Hr). cbn [mbind option_bind].
    eexists. split; [done|]. destruct r as [i|]; cbn [option_map].
    + destruct Hr as [Hr1 Hr2]. split; [done|]. cbn [take]. apply not_elem_of_cons. split; [congruence|done].
    + cbn [app]. apply not_elem_of_cons. split; [congruence|done].
Qed.

Lemma rchr_loop_spec s c i :
  (i < length s)%nat -> exists r, rchr_loop s c i = Some r /\
    match r with
    | Some j => s !! j = Some (to_char c) /\ (j <= i)%nat /\ forall k, (j < k <= i)%nat -> s !! k <> Some (to_char c)
    | None => forall k, (k <= i)%nat -> s !! k <> Some (to_char c)
    end.
Proof.
  induction i as [|i IH]; intros Hi; cbn [rchr_loop]; destruct (lookup_lt_is_Some_2 s _ Hi) as [x Hx];
    rewrite Hx; cbn [mbind option_bind]; (destruct (Z.eqb_spec x (to_char c)) as [->|Hne];
    [eexists; split; [done|]; split_and!; [done|done|intros; lia]|]).
  - exists None. split; [done|]. intros k Hk. assert (k = 0)%nat as -> by lia. rewrite Hx. congruence.
  - destruct IH as (r & -> & Hr); [lia|]. exists r. split; [done|].
    assert (forall k, k = S i -> s !! k <> Some (to_char c)) as Hlast by (intros ? ->; rewrite Hx; congruence).
    destruct r as [j|].
    + destruct Hr as (H1 & H2 & H3). split_and!; [done|lia|]. intros k Hk.
      destruct (decide (k = S i)); [by apply Hlast|apply H3; lia].
    + intros k Hk. destruct (decide (k = S i)); [by apply Hlast|apply Hr; lia].
Qed.

(** The last position of the byte in the string and its terminator. *)
Lemma strrchr_spec s l c :
  cstr s l -> exists r, strrchr s c = Some r /\
    match r with
    | Some i => (l ++ [0]) !! i = Some (to_char c) /\ forall k, (i < k)%nat -> (l ++ [0]) !! k <> Some (to_char c)
    | None => to_char c ∉ l ++ [0]
    end.
Proof.
  intros Hs. unfold strrchr. rewrite (strlen_spec _ _ Hs). cbn [mbind option_bind]. rewrite Nat2Z.id.
  destruct Hs as [_ [rest ->]].
  destruct (rchr_loop_spec (l ++ 0 :: rest) c (length l)) as (r & -> & Hr); [rewrite length_app; cbn; lia|].
  exists r. split; [done|].
  assert (forall k, (k <= length l)%nat -> (l ++ 0 :: rest) !! k = (l ++ [0]) !! k) as Heq.
  { intros k Hk. change (0 :: rest) with ([0] ++ rest). rewrite app_assoc. apply lookup_app_l.
    rewrite length_app. cbn. lia. }
  assert (forall k x, (l ++ [0]) !! k = Some x -> (k <= length l)%nat) as Hlt.
  { intros k x Hk%lookup_lt_Some. rewrite length_app in Hk. cbn in Hk. lia. }
  destruct r as [i|].
  - destruct Hr as (H1 & H2 & H3). rewrite <- Heq by done. split; [done|]. intros k Hk Hx.
    specialize (Hlt _ _ Hx). rewrite <- Heq in Hx by done. apply (H3 k); [lia|done].
  - intros [k Hk]%list_elem_of_lookup_1. specialize (Hlt _ _ Hk). rewrite <- Heq in Hk by done. by apply (Hr k).
Qed.

(** ** Numerals

    [ds] are the digits of [n], the lowest first, without leading zeros. *)

Fixpoint value (base : Z) (ds : list Z) : Z :=
  match ds with [] => 0 | d :: ds => d + base * value base ds end.

Definition numeral (base n : Z) (ds : list Z) : Prop :=
  ds <> [] /\ Forall (fun d => 0 <= d < base) ds /\ value base ds = n /\ (last ds = Some 0 -> ds = [0]).

Lemma value_nonneg base ds : 0 <= base -> Forall (fun d => 0 <= d < base) ds -> 0 <= value base ds.
Proof. intros Hb. induction 1; cbn; [lia|]. nia. Qed.

(** Digits whose value is 0 end in a zero. *)
Lemma value_zero base ds :
  1 < base -> ds <> [] -> Forall (fun d => 0 <= d < base) ds -> value base ds = 0 -> last ds = Some 0.
Proof.
  intros Hb. induction ds as [|a k IH]; [done|]. intros _ [Ha Fk]%Forall_cons Vk. cbn in Vk.
  pose proof (value_nonneg base k ltac:(lia) Fk). assert (a = 0 /\ value base k = 0) as [-> V0] by nia.
  destruct k as [|b k]; [done|]. by apply IH.
Qed.

(** A number has one numeral. *)
Lemma numeral_unique base n ds es : 1 < base -> numeral base n ds -> numeral base n es -> ds = es.
Proof.
  intros Hb. revert n es. induction ds as [|d ds IH]; [by intros n es (? & _)|].
  intros n [|e es]; [by intros _ (? & _)|]. intros (_ & Fd & Vd & Ld) (_ & Fe & Ve & Le).
  apply Forall_cons in Fd as [Hd Fd], Fe as [He Fe]. cbn in Vd, Ve.
  pose proof (value_nonneg base ds ltac:(lia) Fd). pose proof (value_nonneg base es ltac:(lia) Fe).
  assert (d = e /\ value base ds = value base es) as [<- Hv].
  { assert (n mod base = d /\ n / base = value base ds) as [E1 E2].
    { split; [symmetry; apply (Z.mod_unique_pos _ _ (value base ds))|symmetry; apply (Z.div_unique_pos _ _ _ d)]; lia. }
    assert (n mod base = e /\ n / base = value base es) as [E3 E4].
    { split; [symmetry; apply (Z.mod_unique_pos _ _ (value base es))|symmetry; apply (Z.div_unique_pos _ _ _ e)]; lia. }
    lia. }
  f_equal. destruct ds as [|x ds], es as [|y es]; [done| | |].
  - discriminate Le. change (last (d :: y :: es)) with (last (y :: es)). by apply (value_zero base).
  - discriminate Ld. change (last (d :: x :: ds)) with (last (x :: ds)). by apply (value_zero base).
  - apply (IH (value base (x :: ds))).
    + split_and!; [done|done|done|]. intros Hl. discriminate Ld. done.
    + split_and!; [done|done|done|]. intros Hl. discriminate Le. done.
Qed.

(** The numeral, computed. *)
Fixpoint digits (fuel : nat) (base n : Z) : list Z :=
  match fuel with
  | O => []
  | S fuel => if n <? base then [n] else n mod base :: digits fuel base (n / base)
  end.

Lemma digits_nonempty fuel base n : digits (S fuel) base n <> [].
Proof. cbn. by destruct (n <? base). Qed.

Lemma pow_S_div base n fuel : 0 < base -> 0 <= n < base ^ Z.of_nat (S fuel) -> 0 <= n / base < base ^ Z.of_nat fuel.
Proof.
  intros Hb [H0 Hn]. split; [by apply Z.div_pos|]. apply Z.div_lt_upper_bound; [done|].
  rewrite Nat2Z.inj_succ, Z.pow_succ_r in Hn by lia. lia.
Qed.

Lemma digits_numeral fuel base n : 1 < base -> 0 <= n < base ^ Z.of_nat (S fuel) -> numeral base n (digits (S fuel) base n).
Proof.
  intros Hb. revert n. induction fuel as [|fuel IH]; intros n Hn.
  - change (base ^ Z.of_nat 1) with (base ^ 1) in Hn. rewrite Z.pow_1_r in Hn. cbn.
    rewrite (proj2 (Z.ltb_lt n base)) by lia. split_and!; [done|by apply Forall_singleton|cbn; lia|by intros [= ->]].
  - change (digits (S (S fuel)) base n) with (if n <? base then [n] else n mod base :: digits (S fuel) base (n / base)).
    destruct (Z.ltb_spec n base) as [Hlt|Hge].
    { split_and!; [done|apply Forall_singleton; lia|cbn; lia|by intros [= ->]]. }
    apply pow_S_div in Hn as Hq; [|lia]. destruct (IH _ Hq) as (Hne & Hf & Hv & Hl).
    split_and!; [done|apply Forall_cons; split; [apply Z.mod_pos_bound; lia|done]| |].
    + cbn [value]. rewrite Hv. pose proof (Z.div_mod n base). lia.
    + intros E. destruct (digits (S fuel) base (n / base)) as [|x k] eqn:Ek; [done|].
      change (last (n mod base :: x :: k)) with (last (x :: k)) in E. specialize (Hl E). rewrite Hl in Hv. cbn in Hv.
      assert (1 <= n / base) by (apply Z.div_le_lower_bound; lia). lia.
Qed.

Lemma digits_fuel fuel fuel' base n :
  1 < base -> 0 <= n < base ^ Z.of_nat (S fuel) -> 0 <= n < base ^ Z.of_nat (S fuel') ->
  digits (S fuel) base n = digits (S fuel') base n.
Proof. intros Hb H1 H2. by apply (numeral_unique base n); [|apply digits_numeral..]. Qed.

Lemma length_digits fuel base n : (length (digits fuel base n) <= fuel)%nat.
Proof. revert n. induction fuel as [|fuel IH]; intros n; cbn; [lia|]. case_if; cbn; [lia|]. specialize (IH (n / base)). lia. Qed.

Definition to_digit (d : Z) : Z := d + 48.

Lemma h2d_loop_spec fuel pre rest hex :
  10 <= hex < 10 ^ Z.of_nat (S fuel) -> (length (digits (S fuel) 10 hex) <= length rest)%nat ->
  h2d_loop fuel (pre ++ rest) (Z.of_nat (length pre)) hex =
    Ret (Z.of_nat (length pre + length (digits (S fuel) 10 hex)),
         pre ++ map to_digit (digits (S fuel) 10 hex) ++ drop (length (digits (S fuel) 10 hex)) rest).
Proof.
  revert pre rest hex. induction fuel as [|fuel IH]; intros pre rest hex Hh Hr; [cbn in Hh; lia|].
  assert (0 <= hex / 10 < 10 ^ Z.of_nat (S fuel)) as Hq by (apply pow_S_div; lia).
  change (digits (S (S fuel)) 10 hex) with (if hex <? 10 then [hex] else hex mod 10 :: digits (S fuel) 10 (hex / 10)) in *.
  rewrite (proj2 (Z.ltb_ge hex 10)) in * by lia. cbn [length] in Hr. destruct rest as [|x rest]; [cbn in Hr; lia|].
  cbn [h2d_loop]. rewrite word_at_set by (rewrite length_app; cbn; lia). cbn [lift mbind run_bind].
  rewrite Nat2Z.id. rewrite (insert_app_r_alt _ _ (length pre)), Nat.sub_diag by lia. cbn [insert list_insert].
  change (pre ++ hex mod 10 + 48 :: rest) with (pre ++ [to_digit (hex mod 10)] ++ rest). rewrite app_assoc.
  replace (Z.of_nat (length pre) + 1) with (Z.of_nat (length (pre ++ [to_digit (hex mod 10)])))
    by (rewrite length_app; cbn; lia).
  destruct (Z.ltb_spec (hex / 10) 10) as [Hlt|Hge].
  - cbn [digits] in *. rewrite (proj2 (Z.ltb_lt (hex / 10) 10)) in * by done. cbn in Hr.
    destruct rest as [|y rest]; [cbn in Hr; lia|]. rewrite word_at_set by (rewrite !length_app; cbn; lia).
    cbn [lift mbind run_bind]. rewrite Nat2Z.id. rewrite (insert_app_r_alt _ _ (length (pre ++ _))), Nat.sub_diag by lia.
    cbn [insert list_insert]. rewrite !length_app. cbn. rewrite <- app_assoc. do 3 f_equal. lia.
  - rewrite IH; [|lia|cbn in Hr |- *; lia]. rewrite !length_app. cbn [length map drop]. rewrite <- !app_assoc. cbn [app].
    do 2 f_equal. lia.
Qed.

Lemma word_at_middle {A} (a b : list A) x : word_at (a ++ x :: b) (Z.of_nat (length a)) = Some x.
Proof. unfold word_at. rewrite (proj2 (Z.leb_le 0 _)), Nat2Z.id by lia. by apply list_lookup_middle. Qed.

Lemma word_set_middle {A} (a b : list A) x y : word_set (a ++ x :: b) (Z.of_nat (length a)) y = Some (a ++ y :: b).
Proof.
  rewrite word_at_set by (rewrite length_app; cbn; lia). rewrite Nat2Z.id, insert_app_r_alt, Nat.sub_diag by lia. done.
Qed.

Lemma turn_loop_spec fuel a mid b :
  (2 <= length mid <= fuel)%nat ->
  turn_loop fuel (Z.of_nat (length mid) mod 2 =? 0) (a ++ mid ++ b) (Z.of_nat (length a))
    (Z.of_nat (length a) + Z.of_nat (length mid) - 1) = Ret (a ++ reverse mid ++ b).
Proof.
  revert a mid b. induction fuel as [|fuel IH]; intros a mid b Hm; [lia|].
  destruct mid as [|x mid]; cbn in Hm; [lia|]. destruct mid as [|y mid] using rev_ind; cbn in Hm; [lia|clear IHmid].
  rewrite length_app in Hm. cbn [length] in Hm. cbn [turn_loop].
  replace (Z.of_nat (length a) + Z.of_nat (length (x :: mid ++ [y])) - 1) with (Z.of_nat (length (a ++ x :: mid)))
    by (rewrite !length_app; cbn; rewrite length_app; cbn; lia).
  replace (a ++ (x :: mid ++ [y]) ++ b) with (a ++ x :: (mid ++ y :: b)) by (cbn; by rewrite <- app_assoc).
  rewrite word_at_middle. cbn [lift mbind run_bind].
  replace (a ++ x :: mid ++ y :: b) with ((a ++ x :: mid) ++ y :: b) at 1 by (by rewrite <- app_assoc).
  rewrite word_at_middle. cbn [lift mbind run_bind]. rewrite word_set_middle. cbn [lift mbind run_bind].
  replace (a ++ y :: mid ++ y :: b) with ((a ++ y :: mid) ++ y :: b) by (by rewrite <- app_assoc).
  replace (length (a ++ x :: mid)) with (length (a ++ y :: mid)) by (rewrite !length_app; done).
  rewrite word_set_middle. cbn [lift mbind run_bind].
  replace (Z.of_nat (length (x :: mid ++ [y])) mod 2) with (Z.of_nat (length mid) mod 2)
    by (cbn; rewrite length_app; cbn; zlia).
  assert (a ++ reverse (x :: mid ++ [y]) ++ b = (a ++ [y]) ++ reverse mid ++ x :: b) as ->.
  { rewrite reverse_cons, reverse_snoc, <- !app_assoc. done. }
  assert ((a ++ y :: mid) ++ x :: b = (a ++ [y]) ++ mid ++ x :: b) as -> by (by rewrite <- !app_assoc).
  replace (Z.of_nat (length (a ++ y :: mid)) - 1) with (Z.of_nat (length a) + Z.of_nat (length mid))
    by (rewrite length_app; cbn; lia).
  destruct (decide (2 <= length mid)%nat) as [Hge|Hlt].
  - replace (if Z.of_nat (length mid) mod 2 =? 0 then _ else _) with true.
    2: { symmetry. case_if; [apply Z.ltb_lt; lia|apply negb_true_iff, Z.eqb_neq; lia]. }
    replace (Z.of_nat (length a) + 1) with (Z.of_nat (length (a ++ [y]))) by (rewrite length_app; cbn; lia).
    replace (Z.of_nat (length a) + Z.of_nat (length mid)) with (Z.of_nat (length (a ++ [y])) + Z.of_nat (length mid) - 1)
      by (rewrite length_app; cbn; lia).
    apply IH. lia.
  - replace (if Z.of_nat (length mid) mod 2 =? 0 then _ else _) with false.
    2: { symmetry. case_if; [apply Z.ltb_ge; lia|apply negb_false_iff, Z.eqb_eq].
         destruct (length mid) as [|[|?]]; [done|lia|lia]. }
    by destruct mid as [|? [|? ?]]; cbn in Hlt; try lia.
Qed.

Lemma h2d_spec p revert hex :
  is_word hex -> (length (digits 10 10 hex) <= length p)%nat ->
  let ds := map to_digit (digits 10 10 hex) in
  h2d p revert hex = Ret (Z.of_nat (length ds), (if revert then reverse ds else ds) ++ drop (length ds) p).
Proof.
  intros Hw Hp. cbn zeta. rewrite length_map. unfold h2d. unfold is_word in Hw.
  destruct (Z.ltb_spec hex 10) as [Hlt|Hge].
  { cbn [digits] in *. rewrite (proj2 (Z.ltb_lt hex 10)) in * by done. destruct p as [|x p]; cbn in Hp; [lia|].
    by destruct revert. }
  rewrite (digits_fuel 9 10 10 hex) in * by lia.
  pose proof (h2d_loop_spec 10 [] p hex ltac:(lia) Hp) as E. cbn [app length Nat.add] in E. change (Z.of_nat 0) with 0 in E.
  rewrite E. cbn [lift mbind run_bind].
  destruct revert; cbn [negb]; [|done]. pose proof (length_digits 10 10 hex) as Hl.
  rewrite (digits_fuel 9 10 10 hex) in Hl by lia. set (ds := digits 11 10 hex) in *.
  assert (2 <= length ds)%nat as H2.
  { unfold ds. cbn [digits]. rewrite (proj2 (Z.ltb_ge hex 10)) by lia. case_if; cbn; lia. }
  pose proof (turn_loop_spec 10 [] (map to_digit ds) (drop (length ds) p)) as T. rewrite length_map in T.
  cbn [app length] in T. rewrite Z.add_0_l in T. change (Z.of_nat 0) with 0 in T. rewrite T by lia. done.
Qed.

(** ** Theorems *)

(** [strcmp] and [strncmp] of strings of bytes are the order of the strings,
    of their first [count] bytes for [strncmp]; 0 means that they are equal. *)
Theorem strcmp_correct s t l m count :
  cstr s l -> cstr t m -> bytes l -> bytes m -> 0 <= count ->
  strcmp s t = Some (order l m) /\ (strcmp s t = Some 0 <-> l = m) /\
  strncmp s t count = Some (order (take (Z.to_nat count) l) (take (Z.to_nat count) m)).
Proof.
  intros Hs Ht Bl Bm Hc. rewrite (strcmp_order s t l m) by done. split; [done|]. split.
  - rewrite <- order_eq. split; [by intros [= ->]|by intros ->].
  - by apply strncmp_order.
Qed.

Definition separator (c : Z) : Prop := c = 92 \/ c = 47.

(** The name of a path that uses one kind of separator is what follows its
    last separator. *)
Theorem cl_locate_pure_file_name_correct s l :
  cstr s l -> 92 ∉ l \/ 47 ∉ l ->
  exists i, cl_locate_pure_file_name s = Some i /\ (i <= length l)%nat /\
    (forall k c, (i <= k)%nat -> l !! k = Some c -> ~ separator c) /\
    (i = O \/ exists c, l !! (i - 1)%nat = Some c /\ separator c).
Proof.
  intros Hs Hone. unfold cl_locate_pure_file_name.
  assert (forall c i, c <> 0 -> (l ++ [0]) !! i = Some c -> l !! i = Some c) as Hin.
  { intros c i Hc [Hi|[Hi E]]%lookup_app_Some; [done|]. apply list_lookup_singleton_Some in E as [_ <-]. done. }
  destruct (strrchr_spec s l 92 Hs) as (r & -> & Hr). destruct (strrchr_spec s l 47 Hs) as (r' & -> & Hr').
  cbn [mbind option_bind]. change (to_char 92) with 92 in Hr. change (to_char 47) with 47 in Hr'.
  assert (forall (b : Z) i, (l ++ [0]) !! i = Some b -> b <> 0 ->
    (forall k, (i < k)%nat -> (l ++ [0]) !! k <> Some b) -> (forall d : Z, separator d -> d <> b -> d ∉ l) -> separator b ->
    (S i <= length l)%nat /\ (forall k c, (S i <= k)%nat -> l !! k = Some c -> ~ separator c) /\
    (S i = O \/ exists c, l !! (S i - 1)%nat = Some c /\ separator c)) as Hgen.
  { intros b i Hi Hb Hlast Hoth Hsep. apply Hin in Hi; [|done]. split_and!.
    - by apply lookup_lt_Some in Hi.
    - intros k c Hk Hc Hsc. destruct (decide (c = b)) as [->|Hne].
      + apply (Hlast k); [lia|]. by apply lookup_app_l_Some.
      + apply (Hoth c Hsc Hne). by eapply list_elem_of_lookup_2.
    - right. exists b. by replace (S i - 1)%nat with i by lia. }
  destruct r as [i|].
  - exists (S i). split; [done|]. destruct Hr as [H1 H2]. apply (Hgen 92); try done; [|by left].
    intros d [->| ->] Hd; [done|]. destruct Hone as [Hn|Hn]; [|done]. destruct Hn.
    apply Hin in H1; [|done]. by eapply list_elem_of_lookup_2.
  - apply not_elem_of_app in Hr as [Hn _]. destruct r' as [i|].
    + exists (S i). split; [done|]. destruct Hr' as [H1 H2]. apply (Hgen 47); try done; [|by right].
      by intros d [->| ->] Hd.
    + exists O. apply not_elem_of_app in Hr' as [Hn' _]. split_and!; [done|lia| |by left].
      intros k c _ Hc%list_elem_of_lookup_2 [->| ->]; done.
Qed.

(** When both kinds occur the last backslash wins, also over a later slash:
    the name of ["a\b/c"] is ["b/c"]. *)
Theorem cl_locate_pure_file_name_mixed :
  let name := [97; 92; 98; 47; 99; 0] in
  cl_locate_pure_file_name name = Some 2%nat /\ name !! 3%nat = Some 47.
Proof. done. Qed.
