(* ===== verification/Exe.v ===== *)
(** * Executables

    [source/kernel/process/exe.c]: an executable is an object with a name, the
    section that maps its file into the file process ([backend]) and the
    description the ELF library made of it.  Binding it to a process creates a
    section of the size of the image, with a subsection per segment that says
    which part of the file the segment shows.  The description is opaque to
    this code, which reads it through the functions of [libs/elf2/elf.h]: they
    are the class [ElfImage].  The sections are those of [KoSection], the
    executables and the processes objects of [Object]; the page faults of
    [Fault] read what binding leaves behind. *)

From stdpp Require Import gmap strings.
From S2P Require Import Prelude Bits Bitmap BlkBuf Object Vm KoSection Stock Fault.
Import BkbOps ObjectOps VmOps.
Local Open Scope c_scope.

(** ** Descriptions of images *)

Record elf_segment := Seg {
  seg_flags : Z;
  vstart : Z;
  foffset : Z;
  fsize : Z;
  vsize : Z
}.

Definition ELF_SEG_WRITE : Z := 2.

(** The base an image asks for (0: any) and its size in memory, its [i]-th
    segment, and the size of a description. *)
Class ElfImage (C : Type) := {
  elf_get_mapping_base : C -> Z * Z;
  elf_read_segment : C -> Z -> option elf_segment;
  elf_get_private_size : Z
}.

Record ko_exe (C : Type) := Exe { backend : Z; entry : Z; private : C }.
Arguments Exe {C} backend entry private.
Arguments backend {C} k.
Arguments entry {C} k.
Arguments private {C} k.

Module ExeOps.
Section Exe.
Context {M E C : Type} `{ObjectPool M E} `{ElfImage C}.

(** Sections, executables and processes.  [e] is the environment of the
    section objects, [ee] that of the executables. *)
Record xstate := XState {
  sects : kstate M;
  exe_type : cl_object_type;
  exes : gmap Z (ko_exe C);
  process_type : cl_object_type
}.

Definition set_sects (x : xstate) (st : kstate M) : xstate := XState st (exe_type x) (exes x) (process_type x).
Definition set_exe_type (x : xstate) (m : cl_object_type) : xstate := XState (sects x) m (exes x) (process_type x).
Definition set_process_type (x : xstate) (m : cl_object_type) : xstate := XState (sects x) (exe_type x) (exes x) m.

(** [init] of the type accepts every object. *)
Definition kp_exe_create (ee : obj_env) (x : xstate) (backend : Z) (ctx : C) : run (Z * xstate) :=
  '(p, m) ← cl_object_create (env_fuel ee) (env_mem ee) (exe_type x) (env_space ee) (Some (fun _ => true));
  let x := set_exe_type x m in
  if p =? 0 then Ret (0, x) else
  pm ← lift (pool_inc (pool (sects x)) backend);
  Ret (p, XState (set_pool (sects x) pm) (exe_type x) (<[p := Exe backend 0 ctx]> (exes x)) (process_type x)).

(** [ts] is the address of the local variable that serves as the section, [te]
    what follows the other one on the stack. *)
Definition kp_exe_create_temp (ee : obj_env) (x : xstate) (ts : Z) (te : C) : run (Z * xstate) :=
  kp_exe_create ee x ts te.

Definition set_priv (s : ko_section) (prot a b : Z) : ko_section :=
  Section_ (node s) (type s) prot a b (priv2 s) (priv3 s) (subsection_head s).

(** The loop of [kp_exe_bind]: the number of segments, [None] if a subsection
    could not be created. *)
Fixpoint bind_loop (fuel : nat) (e : E) (st : kstate M) (elf : C) (ks need_base i : Z) : run (option Z * kstate M) :=
  match fuel with
  | O => NoFuel
  | S fuel =>
    match elf_read_segment elf i with
    | None => Ret (Some i, st)
    | Some seg =>
      '(sub, st) ← ks_sub_create e st ks (vstart seg +w need_base) (wrap (vsize seg));
      if sub =? 0 then Ret (None, st) else
      s ← lift (mem st !! sub);
      let prot := if Z.land (seg_flags seg) ELF_SEG_WRITE =? 0 then prot s else Z.lor (prot s) KM_PROT_WRITE in
      let st := set_mem st (<[sub := set_priv s prot (wrap (fsize seg)) (wrap (foffset seg))]> (mem st)) in
      bind_loop fuel e st elf ks need_base (i + 1)
    end
  end.

Definition kp_exe_bind (fuel : nat) (e : E) (x : xstate) (what : Z) : run (Z * xstate) :=
  ke ← lift (exes x !! what);
  let '(base, size) := elf_get_mapping_base (private ke) in
  '(ks, st) ← ks_create e (sects x) KS_TYPE_EXE base size KM_PROT_READ;
  if ks =? 0 then Ret (0, set_sects x st) else
  m ← lift (cl_object_inc_ref (exe_type x) what);
  s ← lift (mem st !! ks);
  let st := set_mem st (<[ks := set_priv s (prot s) what (priv1 s)]> (mem st)) in
  st ← ks_open_by st ks;
  let need_base := if base =? 0 then start (node s) else 0 in
  '(n, st) ← bind_loop fuel e st (private ke) ks need_base 0;
  let x := set_exe_type (set_sects x st) m in
  match n with
  | None => Ret (0, x)
  | Some n => Ret (if n =? 0 then 0 else if base =? 0 then need_base else base, x)
  end.

Definition kp_exe_get_context_size : Z := elf_get_private_size.

Definition SIZEOF_EXE : Z := 8.
Definition kp_exe_init : cl_object_type := cl_object_type_register (SIZEOF_EXE + elf_get_private_size).

(** The copy, if the buffer is large enough. *)
Definition kp_exe_copy_private (x : xstate) (ke dst_size : Z) : run (option C) :=
  if dst_size <? kp_exe_get_context_size then Ret None else
  k ← lift (exes x !! ke); Ret (Some (private k)).

(** [ee] and [en]: the memory for the object and for its name. *)
Definition kp_exe_create_from_file (ee en : obj_env) (x : xstate) (name : string) (ks : Z) (ctx : C) (entry_address : Z)
  : run (Z * xstate) :=
  '(p, x) ← kp_exe_create ee x ks ctx;
  if p =? 0 then Ret (0, x) else
  '(slot, m) ← cl_object_set_name (env_fuel en) (env_mem en) (exe_type x) p name (env_space en);
  let x := set_exe_type x m in
  if slot =? 0 then Ret (0, x) else
  k ← lift (exes x !! p);
  let x := XState (sects x) (exe_type x) (<[p := Exe (backend k) entry_address (private k)]> (exes x)) (process_type x) in
  m ← lift (cl_object_inc_ref (exe_type x) p);
  Ret (p, set_exe_type x m).

(** [p0]: the uninitialised local of [cl_object_search_name]. *)
Definition kp_exe_search_by_name (x : xstate) (p0 : Z) (name : string) : run (Z * xstate) :=
  '(ke, m) ← lift (cl_object_search_name (exe_type x) p0 name); Ret (ke, set_exe_type x m).

Definition kp_exe_put (x : xstate) (ke : Z) : run xstate :=
  m ← lift (cl_object_dec_ref (exe_type x) ke); Ret (set_exe_type x m).

Definition kp_exe_close (fuel : nat) (x : xstate) (ke : Z) : run xstate :=
  m ← cl_object_close fuel (exe_type x) ke true;
  let x := set_exe_type x m in
  Ret (match cl_object_get_ref_counter m ke with
       | Some _ => x
       | None => XState (sects x) m (delete ke (exes x)) (process_type x)
       end).

(** The executable and the base it is bound at.  When binding fails, the
    reference that is given back is the one of the process [who]. *)
Definition kp_exe_open_by_name (fuel : nat) (e : E) (x : xstate) (who p0 : Z) (name : string) : run (Z * Z * xstate) :=
  '(ke, x) ← kp_exe_search_by_name x p0 name;
  if ke =? 0 then Ret (0, 0, x) else
  '(base, x) ← kp_exe_bind fuel e x ke;
  if base =? 0 then
    m ← lift (cl_object_dec_ref (process_type x) who); Ret (0, 0, set_process_type x m)
  else x ← kp_exe_put x ke; Ret (ke, base, x).

End Exe.
Arguments xstate M C : clear implicits.
End ExeOps.
Import ExeOps.

(** ** Subsections

    The allocator reads the file size and the file offset of an existing
    subsection where it expects its address and size ([rd_sublink]).  As long
    as those end below the address asked for, every range inside the parent is
    accepted and linked last. *)

Definition below (rd : Z -> option (Z * Z)) (l : list Z) (a : Z) : Prop :=
  forall p, p ∈ l -> p <> 0 /\ exists s z, rd p = Some (s, z) /\ 0 <= s /\ 0 <= z /\ s + z <= a.

Lemma below_cons rd p l a : below rd (p :: l) a -> below rd l a.
Proof. intros Hl q Hq. apply Hl. by apply list_elem_of_further. Qed.

Lemma alloc_below rd l rs rl desired size pP :
  below rd l desired -> is_word desired -> 0 < desired -> (pP = 0 \/ below rd [pP] desired) ->
  finish rd rs rl size (scan_spaces rd l rs rl desired size desired pP pP) = Some (check_limit rs rl size desired).
Proof.
  intros Hl Hw Hd. revert pP. induction l as [|p l IH]; intros pP Hp; cbn [scan_spaces].
  - cbn [finish]. unfold after_scan. rewrite Z.eqb_refl. destruct (Z.eqb_spec pP 0) as [->|Hne]; [done|].
    destruct Hp as [?|Hp]; [done|]. destruct (Hp pP) as (_ & s & z & -> & Hs & Hz & Hsz); [by apply list_elem_of_singleton|].
    cbn [andb mbind option_bind]. unfold is_word in Hw. rewrite wrap_small by (unfold is_word; lia). by rewrite (proj2 (Z.leb_le _ _) Hsz).
  - destruct (Hl p) as (Hp0 & s & z & Hr & Hs & Hz & Hsz); [apply list_elem_of_here|]. rewrite Hr. cbn [mbind option_bind].
    unfold hole_at. rewrite (proj2 (Z.ltb_ge desired s)), (proj2 (Z.eqb_neq desired 0)) by lia.
    cbn [andb mbind option_bind]. apply IH; [by eapply below_cons|right].
    intros q ->%list_elem_of_singleton. split; [done|]. by exists s, z.
Qed.

Lemma insert_below rd l who w n :
  below rd l w -> is_word w -> insert_virtual_space rd l who w n = Some (true, l ++ [who]).
Proof.
  intros Hl Hw. unfold insert_virtual_space.
  assert (insert_before rd l who w n = Some None) as ->.
  { clear Hw. induction l as [|p l IH]; [done|]. cbn [insert_before].
    destruct (Hl p) as (_ & s & z & -> & Hs & Hz & Hsz); [apply list_elem_of_here|]. cbn [mbind option_bind].
    rewrite (proj2 (Z.ltb_ge w s)) by lia. cbn [andb]. rewrite IH; [done|by eapply below_cons]. }
  cbn [mbind option_bind]. destruct (last l) as [p|] eqn:Hla; [|done].
  destruct (Hl p) as (_ & s & z & -> & Hs & Hz & Hsz); [rewrite last_lookup in Hla; by eapply list_elem_of_lookup_2|].
  unfold is_word in Hw. cbn [mbind option_bind]. rewrite wrap_small by (unfold is_word; lia). by rewrite (proj2 (Z.leb_le _ _) Hsz).
Qed.

Lemma create_sub_below m parent ps sub ss a z :
  m !! parent = Some ps -> m !! sub = Some ss -> sub <> parent -> sub ∉ subsection_head ps ->
  below (rd_sublink m) (subsection_head ps) a -> 0 < a -> 0 <= z ->
  is_word (start (node ps) + size (node ps)) -> 0 <= start (node ps) <= a -> a + z <= start (node ps) + size (node ps) ->
  km_vm_create_sub m parent sub a z =
    Some (a, <[parent := set_subs ps (subsection_head ps ++ [sub])]> (<[sub := set_node ss (Node a z)]> m)).
Proof.
  intros Hp Hs Hne Hnin Hb Ha Hz Hpz Hlo Hhi. unfold km_vm_create_sub. rewrite Hp. cbn [mbind option_bind].
  assert (is_word a /\ is_word (a + z)) as [Hwa Hwz] by (unfold is_word in *; lia).
  assert (alloc_virtual_space (rd_sublink m) (subsection_head ps) (start (node ps)) (size (node ps)) a z = Some a) as ->.
  { unfold alloc_virtual_space. rewrite (proj2 (Z.eqb_neq a 0)) by lia.
    etransitivity; [apply (alloc_below (rd_sublink m)); [done|done|done|by left]|].
    rewrite check_limit_eq by done. by rewrite (proj2 (Z.leb_le (a + z) _)), (proj2 (Z.leb_le _ a)) by lia. }
  cbn [mbind option_bind]. rewrite (proj2 (Z.eqb_neq a 0)), Hs by lia. cbn [mbind option_bind].
  rewrite insert_below; [|intros p Hpin; destruct (Hb p Hpin) as [H0 Hr]; split; [done|]|done].
  - cbn [mbind option_bind]. rewrite lookup_insert_ne, Hp by done. done.
  - unfold rd_sublink in *. by rewrite lookup_insert_ne by (intros <-; done).
Qed.

Section Bind.
Context {M E C : Type} {OP : ObjectPool M E} {OS : ObjectStock M E} {EI : ElfImage C}.

(** A section whose node stays the same may change. *)
Lemma st_wf_update e (st : kstate M) p s s' :
  st_wf e st -> mem st !! p = Some s -> node s' = node s -> st_wf e (set_mem st (<[p := s']> (mem st))).
Proof.
  intros [Hp Hl H0 Hs] Hm Hn. assert (p <> 0) as Hp0 by (intros ->; congruence). constructor; cbn [set_mem pool mem proc]; [done| | |].
  - intros q. rewrite <- Hl, lookup_insert_is_Some. destruct (Z.eq_dec p q) as [<-|]; [rewrite Hm|tauto]. split; [done|by left].
  - by rewrite lookup_insert_ne.
  - apply (spaces_ext (rd_node (mem st))); [|done]. intros q _. unfold rd_node.
    destruct (Z.eq_dec p q) as [<-|]; [|by rewrite lookup_insert_ne]. rewrite lookup_insert_eq, Hm. cbn. by rewrite Hn.
Qed.

(** What [ks_create] made of the pool. *)
Lemma ks_create_pool e (st : kstate M) ty base sz pr p st' :
  ks_create e st ty base sz pr = Ret (p, st') -> p <> 0 -> exists m, pool_create e (pool st) = Ret (p, m) /\ pool st' = m.
Proof.
  unfold ks_create, section_create. destruct (pool_create e (pool st)) as [[q m]| |]; cbn [mbind run_bind]; [|done|done].
  destruct (Z.eqb_spec q 0) as [->|Hq]; cbn [mbind run_bind]; [intros [= <- _]; done|].
  rewrite (proj2 (Z.eqb_neq q 0) Hq). destruct (km_vm_create _ _ _ _) as [[[ok m'] w]|]; cbn [lift mbind run_bind]; [|done].
  destruct ok; [intros [= <- <-] _; by exists m|]. destruct (ks_close _ _ _); cbn [mbind run_bind]; [intros [= <- _]; done|done|done].
Qed.

Lemma sub_create_spec n e (st : kstate M) wh ps a z :
  st_wf e st -> pool_stock (S n) e (pool st) -> mem st !! wh = Some ps ->
  (forall q, q ∈ subsection_head ps -> is_Some (mem st !! q)) ->
  below (rd_sublink (mem st)) (subsection_head ps) a -> 0 < a -> 0 <= z ->
  is_word (start (node ps) + size (node ps)) -> 0 <= start (node ps) <= a -> a + z <= start (node ps) + size (node ps) ->
  exists sub st', ks_sub_create e st wh a z = Ret (sub, st') /\ st_wf e st' /\ pool_stock n e (pool st') /\ proc st' = proc st /\
    sub <> 0 /\ mem st !! sub = None /\
    mem st' = <[wh := set_subs ps (subsection_head ps ++ [sub])]>
                (<[sub := Section_ (Node a z) (Z.lor KS_TYPE_PRIVATE KS_TYPE_ADD_SUB) KM_PROT_READ 0 0 0 0 []]> (mem st)).
Proof.
  intros Hwf Hst Hm Hsub Hb Ha Hz Hw Hlo Hhi. unfold ks_sub_create.
  assert (forall p m, section_create e st = Ret (p, m) -> p <> 0 /\ pool_stock n e (pool m)) as Hstock.
  { intros p m. unfold section_create. destruct (pool_create e (pool st)) as [[q m1]| |] eqn:Ec; cbn [mbind run_bind]; [|done|done].
    destruct (pool_stock_create _ _ _ _ _ Hst Ec) as [Hq Hs1]. rewrite (proj2 (Z.eqb_neq q 0) Hq). by intros [= <- <-]. }
  destruct (section_create_spec e st Hwf (pool_stock_ready _ _ _ Hst)) as (p & m & Hok & [(-> & E1 & Hwf1)|(Hp & Hnone & Href & E1 & Hwf1)]).
  { by destruct (Hstock _ _ E1). }
  destruct (Hstock _ _ E1) as [_ Hs1]. rewrite E1. cbn [mbind run_bind]. rewrite (proj2 (Z.eqb_neq p 0) Hp).
  cbn [set_mem set_pool mem]. rewrite insert_insert_eq. set (ss := Section_ (Node 0 0) _ _ 0 0 0 0 []).
  assert (p <> wh) as Hne by congruence. assert (p ∉ subsection_head ps) as Hnin.
  { intros Hin%Hsub. rewrite Hnone in Hin. by destruct Hin. }
  rewrite (create_sub_below _ wh ps p ss a z); try done.
  2: by rewrite lookup_insert_ne. 2: apply lookup_insert_eq.
  2: { intros q Hq. destruct (Hb q Hq) as [H0 Hr]. split; [done|]. unfold rd_sublink in *. by rewrite lookup_insert_ne by (intros <-; done). }
  cbn [lift mbind run_bind]. rewrite (proj2 (Z.eqb_neq a 0)) by lia. do 2 eexists. split; [done|]. cbn [set_mem set_pool mem pool proc].
  rewrite insert_insert_eq. split; [|done].
  refine (st_wf_update e (set_mem (set_pool st m) (<[p := set_node ss (Node a z)]> (mem st))) wh ps (set_subs ps (subsection_head ps ++ [p])) (Hwf1 _) _ eq_refl).
  cbn [set_mem mem]. by rewrite lookup_insert_ne.
Qed.

(** ** The subsections of an image *)

(** The subsection of a segment of an image that is moved by [bias]. *)
Definition sub_section (bias : Z) (seg : elf_segment) : ko_section :=
  Section_ (Node (vstart seg + bias) (vsize seg)) (Z.lor KS_TYPE_PRIVATE KS_TYPE_ADD_SUB)
    (if Z.land (seg_flags seg) ELF_SEG_WRITE =? 0 then KM_PROT_READ else Z.lor KM_PROT_READ KM_PROT_WRITE)
    (fsize seg) (foffset seg) 0 0 [].

Definition sub_for (m : sections) (bias : Z) (seg : elf_segment) (sub : Z) : Prop := m !! sub = Some (sub_section bias seg).

(** The segment lies in the [z] bytes at [a] and shows a part of a file. *)
Definition seg_ok (a z bias : Z) (seg : elf_segment) : Prop :=
  a <= vstart seg + bias /\ 0 < vsize seg /\ vstart seg + bias + vsize seg <= a + z /\
  0 <= foffset seg /\ 0 <= fsize seg <= vsize seg /\ is_word (fsize seg + foffset seg).

(** The part of the file that a segment shows ends, as a number, below the
    addresses of the later segments. *)
Definition files_below (bias : Z) (segs : list elf_segment) : Prop :=
  forall i j s t, (i < j)%nat -> segs !! i = Some s -> segs !! j = Some t -> fsize s + foffset s <= vstart t + bias.

Lemma sub_for_mono m m' bias segs subs :
  (forall q, is_Some (m !! q) -> q ∈ subs -> m' !! q = m !! q) -> Forall2 (sub_for m bias) segs subs -> Forall2 (sub_for m' bias) segs subs.
Proof.
  intros Hm Hf. assert (forall q, q ∈ subs -> is_Some (m !! q)) as Hs.
  { intros q [i Hi]%list_elem_of_lookup. destruct (Forall2_lookup_r _ _ _ _ _ Hf Hi) as (s & _ & ->). by eexists. }
  revert Hm Hs. induction Hf as [|s q segs subs Hq Hf IH]; intros Hm Hs; constructor.
  - unfold sub_for. rewrite Hm; [done|by eexists|apply list_elem_of_here].
  - apply IH; intros; [apply Hm|apply Hs]; try done; by apply list_elem_of_further.
Qed.

Section Loop.
Context (e : E) (elf : C) (segs : list elf_segment) (ks bias : Z) (K : ko_section).
Context (Hsegs : forall i, elf_read_segment elf (Z.of_nat i) = segs !! i).
Context (Hok : forall s, s ∈ segs -> seg_ok (start (node K)) (size (node K)) bias s) (Hfb : files_below bias segs).
Context (H0 : 0 < start (node K)) (HK : is_word (start (node K) + size (node K))).

(** One round: the next segment gets its subsection. *)
Lemma bind_round n (st : kstate M) done seg rest subs :
  segs = done ++ seg :: rest -> st_wf e st -> pool_stock (S n) e (pool st) -> mem st !! ks = Some (set_subs K subs) ->
  ks ∉ subs -> Forall2 (sub_for (mem st) bias) done subs ->
  exists sub st', ks_sub_create e st ks (vstart seg +w bias) (wrap (vsize seg)) = Ret (sub, st') /\ st_wf e st' /\ pool_stock n e (pool st') /\
    proc st' = proc st /\ sub <> 0 /\ mem st !! sub = None /\ sub <> ks /\
    mem st' = <[ks := set_subs K (subs ++ [sub])]>
                (<[sub := Section_ (Node (vstart seg + bias) (vsize seg)) (Z.lor KS_TYPE_PRIVATE KS_TYPE_ADD_SUB) KM_PROT_READ 0 0 0 0 []]> (mem st)).
Proof.
  intros Es Hwf Hst Hks Hnin Hf. destruct (Hok seg) as (Ha & Hz & Hhi & Ho & Hs & Hw).
  { rewrite Es. apply elem_of_app. right. apply list_elem_of_here. }
  unfold is_word in HK. rewrite (wrap_small (vstart seg + bias)), (wrap_small (vsize seg)) by (unfold is_word; lia).
  destruct (sub_create_spec n e st ks (set_subs K subs) (vstart seg + bias) (vsize seg)) as (sub & st' & E1 & Hwf' & Hst' & Hpr & Hn & Hnone & Hm);
    cbn [set_subs subsection_head node]; try done; try lia.
  - intros q [i Hi]%list_elem_of_lookup. destruct (Forall2_lookup_r _ _ _ _ _ Hf Hi) as (s & _ & ->). by eexists.
  - intros q [i Hi]%list_elem_of_lookup. destruct (Forall2_lookup_r _ _ _ _ _ Hf Hi) as (s & Hd & Hq). split.
    { intros ->. unfold sub_for in Hq. by rewrite (sw_zero _ _ Hwf) in Hq. }
    unfold sub_for in Hq. unfold rd_sublink. rewrite Hq. cbn. exists (fsize s), (foffset s). split; [done|].
    assert (s ∈ segs) as (_ & _ & _ & Ho' & Hs' & _)%Hok by (rewrite Es; apply elem_of_app; left; by eapply list_elem_of_lookup_2).
    split; [lia|]. split; [done|]. apply (Hfb i (length done)).
    + by apply lookup_lt_Some in Hd.
    + rewrite Es, lookup_app_l; [done|]. by apply lookup_lt_Some in Hd.
    + by rewrite Es, list_lookup_middle.
  - exists sub, st'. cbn [set_subs subsection_head node] in Hm.
    do 6 (split; [done|]). split; [congruence|done].
Qed.

Lemma bind_loop_spec n rest : forall done subs fuel (st : kstate M),
  segs = done ++ rest -> st_wf e st -> pool_stock (length rest + n) e (pool st) -> mem st !! ks = Some (set_subs K subs) ->
  ks ∉ subs -> Forall2 (sub_for (mem st) bias) done subs -> (length rest < fuel)%nat ->
  exists st' subs', bind_loop fuel e st elf ks bias (Z.of_nat (length done)) = Ret (Some (Z.of_nat (length segs)), st') /\ st_wf e st' /\ pool_stock n e (pool st') /\ proc st' = proc st /\
    mem st' !! ks = Some (set_subs K subs') /\
    (forall q, q <> ks -> is_Some (mem st !! q) -> mem st' !! q = mem st !! q) /\ Forall2 (sub_for (mem st') bias) segs subs'.
Proof.
  induction rest as [|seg rest IH]; intros done subs [|fuel] st Es Hwf Hst Hks Hnin Hf Hfuel; cbn [length] in *; try lia; cbn [bind_loop]; rewrite Hsegs.
  { rewrite app_nil_r in Es. subst done. rewrite lookup_ge_None_2 by lia. by exists st, subs. }
  assert (segs !! length done = Some seg) as -> by (by rewrite Es, list_lookup_middle).
  destruct (bind_round (length rest + n) st done seg rest subs Es Hwf Hst Hks Hnin Hf) as (sub & st' & -> & Hwf' & Hst' & Hpr & Hsub & Hnone & Hne & Hm).
  cbn [mbind run_bind].   rewrite (proj2 (Z.eqb_neq sub 0) Hsub), Hm, lookup_insert_ne, lookup_insert_eq by done. cbn [lift mbind run_bind].
  destruct (Hok seg) as (Ha & Hz & Hhi & Ho & Hs & Hw). { rewrite Es. apply elem_of_app. right. apply list_elem_of_here. }
  unfold is_word in Hw. rewrite (wrap_small (fsize seg)), (wrap_small (foffset seg)) by (unfold is_word; lia).
  set (s1 := set_priv _ _ _ _). assert (s1 = sub_section bias seg) as Es1.
  { unfold s1, set_priv, sub_section. cbn. by destruct (Z.land (seg_flags seg) ELF_SEG_WRITE =? 0). }
  clearbody s1. subst s1. set (m1 := <[sub := sub_section bias seg]> _). set (st1 := set_mem st' m1).
  assert (m1 = <[ks := set_subs K (subs ++ [sub])]> (<[sub := sub_section bias seg]> (mem st))) as Em.
  { unfold m1. by rewrite insert_insert_ne, insert_insert_eq by done. }
  assert (forall q, q <> ks -> is_Some (mem st !! q) -> m1 !! q = mem st !! q) as Hold.
  { intros q Hq Hi. rewrite Em, lookup_insert_ne by done. apply lookup_insert_ne. intros <-. rewrite Hnone in Hi. by destruct Hi. }
  destruct (IH (done ++ [seg]) (subs ++ [sub]) fuel st1) as (st2 & subs' & E2 & Hwf2 & Hst2 & Hpr2 & Hks2 & Hold2 & Hr).
  - by rewrite <- app_assoc.
  - unfold st1, m1. rewrite <- Hm. eapply st_wf_update; [done| |]; [rewrite Hm, lookup_insert_ne, lookup_insert_eq by done; done|done].
  - done.
  - unfold st1. cbn [set_mem mem]. by rewrite Em, lookup_insert_eq.
  - rewrite not_elem_of_app, list_elem_of_singleton. done.
  - apply Forall2_app.
    + eapply sub_for_mono; [|done]. intros q Hi Hq. apply Hold; [by intros ->|done].
    + constructor; [|constructor]. unfold sub_for, st1. cbn [set_mem mem]. by rewrite Em, lookup_insert_ne, lookup_insert_eq by done.
  - lia.
  - rewrite length_app in E2. cbn [length] in E2. replace (Z.of_nat (length done) + 1) with (Z.of_nat (length done + 1)) by lia.
    exists st2, subs'. do 3 (split; [done|]). split; [by rewrite Hpr2|]. split; [done|]. split; [|done].
    intros q Hq Hi. rewrite Hold2; [by apply Hold|done|]. unfold st1. cbn [set_mem mem]. by rewrite Hold.
Qed.
End Loop.

(** ** Binding *)

(** The image fits its size, and its file is smaller than its addresses. *)
Definition image_ok (base z low : Z) (segs : list elf_segment) : Prop :=
  segs <> [] /\ (forall s, s ∈ segs -> seg_ok base z 0 s) /\ files_below (if base =? 0 then low else 0) segs.

Record bound (x x' : xstate M C) (what ks a z bias : Z) (segs : list elf_segment) (subs : list Z) : Prop := {
  bd_sect : mem (sects x') !! ks = Some (Section_ (Node a z) KS_TYPE_EXE KM_PROT_READ what 0 0 0 subs);
  bd_new : mem (sects x) !! ks = None;
  bd_list : vm_list (proc (sects x')) ≡ₚ ks :: vm_list (proc (sects x));
  bd_subs : Forall2 (sub_for (mem (sects x')) bias) segs subs
}.

Lemma range_exe c base sz rs rl ds dz : get_vm_range c base sz (is_type_kernel KS_TYPE_EXE) = Some (rs, rl, ds, dz) -> ds = base.
Proof.
  unfold get_vm_range. change (is_type_kernel KS_TYPE_EXE) with false. repeat (case_if; cbn [mbind option_bind]); by intros [= _ _ -> _].
Qed.

Lemma image_at base z rs segs a :
  image_ok base z rs segs -> 0 < rs <= a -> (base <> 0 -> a = base) ->
  let bias := if base =? 0 then a else 0 in (forall s, s ∈ segs -> seg_ok a z bias s) /\ files_below bias segs.
Proof.
  intros (_ & Hs & Hf) Ha Hb. cbv zeta. destruct (Z.eqb_spec base 0) as [->|Hne].
  - split.
    + intros s (H1 & H2 & H3 & H4)%Hs. split; [lia|]. split; [done|]. split; [lia|done].
    + intros i j s t Hij Hi Hj. pose proof (Hf i j s t Hij Hi Hj). lia.
  - rewrite (Hb Hne). done.
Qed.

Lemma exe_bind_spec n fuel e (x : xstate M C) what ke o base sz segs rs rl ds dz :
  st_wf e (sects x) -> pool_stock (S (length segs + n)) e (pool (sects x)) -> exes x !! what = Some ke ->
  objects (exe_type x) !! TO_CL_OBJECT what = Some o ->
  elf_get_mapping_base (private ke) = (base, sz) -> (forall i, elf_read_segment (private ke) (Z.of_nat i) = segs !! i) ->
  get_vm_range (cpl (proc (sects x))) base sz (is_type_kernel KS_TYPE_EXE) = Some (rs, rl, ds, dz) ->
  0 < dz -> 0 < rs -> is_word (rs + rl) -> no_wrap (rd_node (mem (sects x))) (vm_list (proc (sects x))) rs rl ds dz ->
  image_ok base dz rs segs -> (length segs < fuel)%nat ->
  exists r x', kp_exe_bind fuel e x what = Ret (r, x') /\ st_wf e (sects x') /\ exes x' = exes x /\ process_type x' = process_type x /\
    cpl (proc (sects x')) = cpl (proc (sects x)) /\
    (forall q, is_Some (mem (sects x) !! q) -> mem (sects x') !! q = mem (sects x) !! q) /\
    ((r = 0 /\ mem (sects x') = mem (sects x) /\ proc (sects x') = proc (sects x) /\ exe_type x' = exe_type x /\
      forall a, (base <> 0 -> a = base) -> ~ fits (rd_node (mem (sects x))) (vm_list (proc (sects x))) rs rl a dz) \/
     (fits (rd_node (mem (sects x))) (vm_list (proc (sects x))) rs rl r dz /\ (base <> 0 -> r = base) /\
      objects (exe_type x') = <[TO_CL_OBJECT what := Obj (name o) (to_int (ref o + 1))]> (objects (exe_type x)) /\
      pool_stock n e (pool (sects x')) /\ exists ks subs, bound x x' what ks r dz (if base =? 0 then r else 0) segs subs)).
Proof.
  intros Hwf Hst Hke Ho Hbase Hsegs Hrange Hdz Hrs Hw Hnw Him Hfuel. pose proof (range_exe _ _ _ _ _ _ _ Hrange) as ->.
  unfold kp_exe_bind. rewrite Hke. cbn [lift mbind run_bind]. rewrite Hbase.
  destruct (ks_create_spec e (sects x) KS_TYPE_EXE base sz KM_PROT_READ rs rl base dz Hwf (pool_stock_ready _ _ _ Hst) Hrange Hdz Hrs Hw Hnw)
    as (ks & st & E1 & Hwf1 & Hcpl & Hres). rewrite E1. cbn [mbind run_bind].
  destruct Hres as [(-> & Hm & Hp & Hno)|(Hks & Hnone & Href & Hl & a & Hfit & Hab & Hm)].
  { cbn [Z.eqb]. do 2 eexists. do 5 (split; [done|]). cbn [set_sects sects]. rewrite Hm. split; [done|left]. do 4 (split; [done|]).
    destruct Hno as [[m Ep]|Hno]; [|done]. by destruct (pool_stock_create _ _ _ _ _ Hst Ep). }
  pose proof Hfit as (Hlo & Hhi & _).
  rewrite (proj2 (Z.eqb_neq ks 0) Hks). unfold cl_object_inc_ref, add_ref. rewrite Ho. cbn [mbind option_bind lift run_bind].
  destruct (ks_create_pool _ _ _ _ _ _ _ _ E1 Hks) as (pm & Ep & Epool). destruct (pool_stock_create _ _ _ _ _ Hst Ep) as [_ Hst1]. rewrite <- Epool in Hst1.
  rewrite Hm, lookup_insert_eq. cbn [lift mbind run_bind]. unfold ks_open_by. cbn [set_mem pool set_priv prot priv1 node start].
  destruct (pool_inc_law e (pool st) ks 0 (sw_pool _ _ Hwf1) Href) as (m2 & E2 & Hok2 & Hr2). rewrite E2. cbn [lift mbind run_bind].
  rewrite insert_insert_eq. set (bias := if base =? 0 then a else 0). set (K := Section_ (Node a dz) KS_TYPE_EXE KM_PROT_READ what 0 0 0 []).
  set (st1 := set_pool _ m2). assert (st_wf e st1) as Hwf2.
  { pose proof (st_wf_update e st ks _ (set_priv (Section_ (Node a dz) KS_TYPE_EXE KM_PROT_READ 0 0 0 0 []) KM_PROT_READ what 0) Hwf1 ltac:(rewrite Hm; apply lookup_insert_eq) eq_refl) as [Hp1 Hp2 Hp3 Hp4].
    rewrite Hm in Hp2, Hp3, Hp4. cbn [set_mem pool mem proc] in Hp2, Hp3, Hp4. rewrite insert_insert_eq in Hp2, Hp3, Hp4.
    constructor; try done. intros q. cbn [st1 set_pool set_mem pool mem]. rewrite Hr2, Hp2. destruct (Z.eqb_spec q ks) as [->|]; [|done].
    rewrite Href. split; intros _; by eexists. }
  destruct (image_at base dz rs segs a Him) as [Hseg Hfb]; [lia|done|]. fold bias in Hseg, Hfb.
  destruct (bind_loop_spec e (private ke) segs ks bias K Hsegs) with (n := n) (rest := segs) (done := @nil elf_segment) (subs := @nil Z) (fuel := fuel) (st := st1)
    as (st2 & subs & E3 & Hwf3 & Hst3 & Hpr & Hks3 & Hold & Hsub); try done.
  - cbn [K node start]. lia.
  - cbn [K node start size]. unfold is_word in *. lia.
  - cbn [st1 set_pool pool]. by eapply pool_stock_inc.
  - cbn [st1 set_pool set_mem mem]. apply lookup_insert_eq.
  - apply not_elem_of_nil.
  - cbn [length] in E3. change (Z.of_nat 0) with 0 in E3. rewrite E3. cbn [mbind run_bind].
    assert (forall q, is_Some (mem (sects x) !! q) -> mem st2 !! q = mem (sects x) !! q) as Hkeep.
    { intros q Hq. assert (q <> ks) as Hne by (intros ->; rewrite Hnone in Hq; by destruct Hq). rewrite Hold; [|done|];
        unfold st1; cbn [set_pool set_mem mem]; by rewrite lookup_insert_ne. }
    do 2 eexists. split; [done|]. cbn [set_exe_type set_sects sects exes exe_type process_type objects set_objects]. rewrite Hpr.
    do 5 (split; [done|]). right.
    destruct Him as [Hne _]. rewrite (proj2 (Z.eqb_neq (Z.of_nat (length segs)) 0)) by (destruct segs; [done|cbn; lia]).
    assert ((if base =? 0 then bias else base) = a) as ->. { unfold bias. destruct (Z.eqb_spec base 0) as [|Hb]; [done|]. by rewrite Hab. }
    do 4 (split; [done|]). exists ks, subs. constructor; cbn [set_exe_type set_sects sects]; try done. by rewrite Hpr.
Qed.

(** ** Faults in a bound image *)

Definition segs_apart (segs : list elf_segment) : Prop :=
  forall i j s t, i <> j -> segs !! i = Some s -> segs !! j = Some t -> vstart s + vsize s <= vstart t \/ vstart t + vsize t <= vstart s.

Definition in_seg (bias : Z) (seg : elf_segment) (address : Z) : Prop :=
  vstart seg + bias <= address < vstart seg + bias + vsize seg.

Lemma sub_locate_seg m bias segs subs i seg address :
  Forall2 (sub_for m bias) segs subs -> (forall s, s ∈ segs -> is_word (vstart s + bias + vsize s)) ->
  segs_apart segs -> segs !! i = Some seg -> in_seg bias seg address ->
  exists sub, subs !! i = Some sub /\ sub_locate (rd_node m) subs address = Some sub.
Proof.
  intros Hf. revert i. induction Hf as [|s q segs subs Hq Hf IH]; intros i Hw Hap Hi Ha; [done|].
  cbn [sub_locate]. assert (rd_node m q = Some (vstart s + bias, vsize s)) as ->. { unfold rd_node. unfold sub_for in Hq. by rewrite Hq. }
  cbn [mbind option_bind].
  rewrite wrap_small by (apply Hw, list_elem_of_here). destruct i as [|i].
  - injection Hi as ->. exists q. unfold in_seg in Ha. by rewrite (proj2 (Z.leb_le _ _)), (proj2 (Z.ltb_lt _ _)) by lia.
  - destruct (Hap 0%nat (S i) s seg) as [H1|H1]; [done|done|done| |].
    all: unfold in_seg in Ha; destruct (Z.leb_spec (vstart s + bias) address), (Z.ltb_spec address (vstart s + bias + vsize s)); try lia; cbn [andb].
    all: apply IH; try done; [intros t Ht; apply Hw; by apply list_elem_of_further|].
    all: intros j k t u Hjk Hj Hk; by apply (Hap (S j) (S k)); [congruence| |].
Qed.

Lemma bound_faultable e x x' what ks a z bias segs subs :
  st_wf e (sects x') -> faultable (mem (sects x)) (proc (sects x)) ->
  (forall q, is_Some (mem (sects x) !! q) -> mem (sects x') !! q = mem (sects x) !! q) ->
  bound x x' what ks a z bias segs subs -> faultable (mem (sects x')) (proc (sects x')).
Proof.
  intros Hwf [Hsp Hty] Hold [Hks _ Hl _]. split; [apply (sw_spaces _ _ Hwf)|]. intros q s Hq Hs. rewrite Hl in Hq.
  apply elem_of_cons in Hq as [->|Hq].
  - rewrite Hks in Hs. injection Hs as <-. by vm_compute.
  - apply (Hty q); [done|]. rewrite <- Hold; [done|]. destruct (spaces_elem _ _ _ _ Hsp Hq) as (s1 & z1 & _ & Hr & _).
    unfold rd_node in Hr. destruct (mem (sects x) !! q); [by eexists|done].
Qed.

Section ExeFaults.
Context {P : Type} {PO : PageOps P}.

(** What a fault at [address] does when the segment [seg] of the image whose
    file is at [file] is moved by [bias]. *)
Definition seg_fault (m : sections) (fuel : nat) (file_process b file bias : Z) (seg : elf_segment) (p : P) (thread address code : Z) : run (bool * P) :=
  if vstart seg + bias + fsize seg <=? address then
    let '(r, p) := km_page_create p thread address (Z.lor PROT_READ PROT_WRITE) in
    Ret (r, if r then page_clear p thread (KM_PAGE_ROUND_ALIGN address) else p)
  else if negb (Z.land code PAGE_FAULT_W =? 0) && negb (Z.land code PAGE_FAULT_P =? 0) then Ret (km_page_create_cow p thread address)
  else share_again m fuel p thread file_process b address (file + foffset seg + (address - (vstart seg + bias))) PROT_READ.

Lemma refill_exe_seg fuel (x x' : xstate M C) what ke ks a z bias segs subs i seg b bs (p : P) fp thread address code :
  bound x x' what ks a z bias segs subs -> (forall s, s ∈ segs -> seg_ok a z bias s) -> 0 <= a -> is_word (a + z) -> segs_apart segs -> mem (sects x') !! 0 = None ->
  segs !! i = Some seg -> in_seg bias seg address -> exes x' !! what = Some ke -> backend ke = b -> mem (sects x') !! b = Some bs ->
  0 <= start (node bs) -> is_word (start (node bs) + foffset seg + fsize seg) ->
  refill_exe (mem (sects x')) (fun k => backend <$> exes x' !! k) fp fuel p thread ks address code =
    seg_fault (mem (sects x')) fuel fp b (start (node bs)) bias seg p thread address code.
Proof.
  intros [Hks _ _ Hsub] Hok Ha Haz Hap H0 Hi Hin Hke Hb Hbs Hb0 Hbw. unfold refill_exe, ks_sub_locate. rewrite Hks. cbn [mbind option_bind subsection_head].
  assert (forall s, s ∈ segs -> is_word (vstart s + bias + vsize s)) as Hw.
  { intros s (H1 & H2 & H3 & _)%Hok. unfold is_word in *. lia. }
  destruct (sub_locate_seg (mem (sects x')) bias segs subs i seg address Hsub Hw Hap Hi Hin) as (sub & Hs & ->). cbn [lift mbind run_bind].
  destruct (Forall2_lookup_r _ _ _ _ _ Hsub Hs) as (seg' & Hi' & Hq). rewrite Hi in Hi'. injection Hi' as <-. unfold sub_for in Hq.
  rewrite (proj2 (Z.eqb_neq sub 0)) by (intros ->; congruence). rewrite Hq. cbn [lift mbind run_bind sub_section node start priv0]. destruct (Hok seg) as (H1 & H2 & H3 & H4 & H5 & H6); [by eapply list_elem_of_lookup_2|].
  unfold seg_fault. unfold is_word, in_seg in *.
  rewrite (wrap_small (vstart seg + bias + fsize seg)) by (unfold is_word; lia).
  destruct (Z.leb_spec (vstart seg + bias + fsize seg) address); [done|]. destruct (negb _ && negb _); [done|].
  unfold kp_exe_share. rewrite Hq, Hke. cbn [lift mbind run_bind fmap option_fmap option_map priv1 sub_section node start]. rewrite Hb, Hbs. cbn [lift mbind run_bind].
  rewrite (wrap_small (_ - _)), !wrap_small by (unfold is_word; rewrite ?wrap_small by (unfold is_word; lia); lia). done.
Qed.
End ExeFaults.

(** ** Properties *)

Section Bound.
Context (fuel : nat) (e : E) (x : xstate M C) (what : Z) (ke : ko_exe C) (o : cl_object) (base sz : Z) (segs : list elf_segment) (rs rl dz : Z).
Context (Hwf : st_wf e (sects x)) (Hstock : pool_stock (S (length segs)) e (pool (sects x))).
Context (Hke : exes x !! what = Some ke) (Ho : objects (exe_type x) !! TO_CL_OBJECT what = Some o).
Context (Hbase : elf_get_mapping_base (private ke) = (base, sz)) (Hsegs : forall i, elf_read_segment (private ke) (Z.of_nat i) = segs !! i).
Context (Hrange : get_vm_range (cpl (proc (sects x))) base sz (is_type_kernel KS_TYPE_EXE) = Some (rs, rl, base, dz)).
Context (Hdz : 0 < dz) (Hrs : 0 < rs) (Hw : is_word (rs + rl)).
Context (Hnw : no_wrap (rd_node (mem (sects x))) (vm_list (proc (sects x))) rs rl base dz).
Context (Him : image_ok base dz rs segs) (Hfuel : (length segs < fuel)%nat).

(** [kp_exe_bind] returns, keeps the address space sorted and disjoint and
    changes no section that was there.  It fails, changing nothing, only if
    the image does not fit.  Otherwise the image is in the process at the base
    it asks for, or at a free place if it asks for none, with one subsection
    per segment, in order, that has the address, size and protection of the
    segment and its place in the file, and the executable has one reference
    more. *)
Theorem kp_exe_bind_correct :
  exists r x', kp_exe_bind fuel e x what = Ret (r, x') /\ st_wf e (sects x') /\ exes x' = exes x /\
    (forall q, is_Some (mem (sects x) !! q) -> mem (sects x') !! q = mem (sects x) !! q) /\
    ((r = 0 /\ mem (sects x') = mem (sects x) /\ proc (sects x') = proc (sects x) /\ exe_type x' = exe_type x /\
      forall a, (base <> 0 -> a = base) -> ~ fits (rd_node (mem (sects x))) (vm_list (proc (sects x))) rs rl a dz) \/
     (fits (rd_node (mem (sects x))) (vm_list (proc (sects x))) rs rl r dz /\ (base <> 0 -> r = base) /\
      objects (exe_type x') = <[TO_CL_OBJECT what := Obj (name o) (to_int (ref o + 1))]> (objects (exe_type x)) /\
      exists ks subs, bound x x' what ks r dz (if base =? 0 then r else 0) segs subs)).
Proof.
  destruct (exe_bind_spec 0 fuel e x what ke o base sz segs rs rl base dz) as (r & x' & E1 & H1 & H2 & _ & _ & H3 & H4); try done; [by rewrite Nat.add_0_r|].
  exists r, x'. do 4 (split; [done|]). destruct H4 as [H4|(H4 & H5 & H6 & _ & H7)]; [by left|by right].
Qed.

(** C30: a fault of a thread of the process in a segment of a bound image.
    Behind the bytes of the file a zeroed page is created; a write to a page
    that is present gets a copy of its own; otherwise the page of the file
    process that shows the byte of the segment is shared read-only: the byte at
    distance [d] from the start of the segment is the byte at [foffset + d] of
    the file. *)
Theorem exe_fault_maps_file {P} {PO : PageOps P} r x' i seg bs (p : P) fuel' fp procs thread address code :
  kp_exe_bind fuel e x what = Ret (r, x') -> r <> 0 -> faultable (mem (sects x)) (proc (sects x)) -> procs thread = proc (sects x') ->
  segs_apart segs -> segs !! i = Some seg -> in_seg (if base =? 0 then r else 0) seg address ->
  mem (sects x) !! backend ke = Some bs -> 0 <= start (node bs) -> is_word (start (node bs) + foffset seg + fsize seg) ->
  ks_exception (mem (sects x')) procs (fun k => backend <$> exes x' !! k) fp (S fuel') ks_exception_init p thread address code =
    seg_fault (mem (sects x')) (S fuel') fp (backend ke) (start (node bs)) (if base =? 0 then r else 0) seg p thread address code.
Proof.
  intros Hb Hr Hfa Hth Hap Hi Hin Hbs Hb0 Hbw.
  destruct (exe_bind_spec 0 fuel e x what ke o base sz segs rs rl base dz) as (r' & x1 & E1 & Hwf' & Hex & _ & _ & Hold & Hres); try done; [by rewrite Nat.add_0_r|].
  rewrite Hb in E1. injection E1 as <- <-. destruct Hres as [[? _]|((Hlo & Hhi & _) & Hbe & _ & _ & ks & subs & Hbd)]; [done|].
  destruct (image_at base dz rs segs r Him) as [Hseg _]; [lia|done|]. pose proof Hbd as [Hks _ Hl _].
  assert (is_word (r + dz) /\ 0 <= r) as [Hrw Hr0] by (unfold is_word in *; lia).
  rewrite (exception_section _ _ _ _ _ _ _ _ _ ks (Section_ (Node r dz) KS_TYPE_EXE KM_PROT_READ what 0 0 0 subs)).
  - cbn [dispatch]. rewrite Hks. cbn [lift mbind run_bind type]. change (word_at ks_exception_init (Z.land KS_TYPE_EXE KS_TYPE_MASK)) with (Some refill_exe_h).
    cbn [lift mbind run_bind]. eapply refill_exe_seg; try done.
    + apply (sw_zero _ _ Hwf').
    + by rewrite Hex.
    + rewrite Hold; [done|by eexists].
  - rewrite Hth. by eapply bound_faultable.
  - rewrite Hth, Hl. apply list_elem_of_here.
  - done.
  - exists r, dz. split; [unfold rd_node; by rewrite Hks|]. destruct (Hseg seg) as (H1 & H2 & H3 & _); [by eapply list_elem_of_lookup_2|].
    unfold in_seg in Hin. lia.
Qed.
End Bound.
End Bind.

(** ** Examples

    An image of two pages of text at [0x500000] and a page of data, of which
    the file has the first 16 bytes. *)

Definition image : Type := Z * Z * list elf_segment.

#[local] Instance image_elf : ElfImage image := {|
  elf_get_mapping_base := fst;
  elf_read_segment := fun i n => if n <? 0 then None else snd i !! Z.to_nat n;
  elf_get_private_size := 64
|}.

Definition ex_segs : list elf_segment := [Seg 5 0x500000 0 0x2000 0x2000; Seg 3 0x502000 0x2000 16 0x1000].
Definition ex_env : obj_env := Env 100 (fun _ => 0) None.
Definition ex_kernel : run (Z * kstate cl_object_type) := ks_create sample_env sample_st KS_TYPE_KERNEL 0 0 0.
Definition ex_st1 : kstate cl_object_type := match ex_kernel with Ret (_, st) => st | _ => sample_st end.
Definition ex_file : Z * kstate cl_object_type := match ks_create ex_env ex_st1 KS_TYPE_FILE 0 0x3000 KM_PROT_READ with Ret r => r | _ => (0, sample_st) end.

Definition ex_x : xstate cl_object_type image :=
  XState (snd ex_file) (sample_type_ref 1) {[ 4116 := Exe (fst ex_file) 0 (0x500000, 0x3000, ex_segs) ]} (sample_type_ref 1).

Lemma ex_blocks : free_blocks 8 (pool ex_st1).
Proof.
  change 8%nat with (length (seqZ 1 8)). eapply (free_in_single _ _ 2164264892); [vm_compute; reflexivity|by vm_compute|apply NoDup_seqZ|].
  intros id Hid. cbn [node_count inst_bitmap]. assert (id ∈ [1;2;3;4;5;6;7;8]) as Hin by done. clear Hid.
  repeat (apply elem_of_cons in Hin as [->|Hin]; [by vm_compute|]). by apply elem_of_nil in Hin.
Qed.

Lemma ex_st1_ok : st_wf ex_env ex_st1 /\ pool_stock 8 ex_env (pool ex_st1).
Proof.
  pose proof ex_blocks as Hfb.
  destruct (ks_create_spec sample_env sample_st KS_TYPE_KERNEL 0 0 0 0x80000000 0x7FC00000 0x80000000 0x7FC00000)
    as (p & st' & E1 & Hwf & _); [apply sample_st_wf|apply sample_ready|reflexivity|lia|lia|vm_compute; split; congruence| |].
  { split; [lia|vm_compute; split; congruence]. }
  assert (ex_st1 = st') as E2 by (unfold ex_st1, ex_kernel; by rewrite E1). rewrite E2 in *. clear E2. destruct Hwf as [(l & nl & Ht & Hl) H2 H3 H4]. cbn in Hl. split.
  - constructor; try done. exists l, nl. split; [done|]. cbn. lia.
  - split; [done|]. exists l, nl. do 3 (split; [done|]). cbn. lia.
Qed.

Lemma ex_file_ok : st_wf ex_env (snd ex_file) /\ pool_stock 7 ex_env (pool (snd ex_file)) /\ fst ex_file <> 0.
Proof.
  destruct ex_st1_ok as [Hwf Hst].
  assert (fst ex_file <> 0) as Hne by (vm_compute; discriminate).
  destruct (ks_create_spec ex_env ex_st1 KS_TYPE_FILE 0 0x3000 KM_PROT_READ 0x400000 0x7FC00000 0 0x3000) as (p & st' & E1 & Hwf' & _).
  - done.
  - by apply (pool_stock_ready 7).
  - vm_compute. reflexivity.
  - lia.
  - lia.
  - vm_compute. split; congruence.
  - split; [lia|]. intros q s z Hq Hr. revert Hr. assert (vm_list (proc ex_st1) = [fst (match ex_kernel with Ret r => r | _ => (0, sample_st) end)]) as Hv by (vm_compute; reflexivity).
    rewrite Hv in Hq. apply list_elem_of_singleton in Hq as ->.
    assert (rd_node (mem ex_st1) (fst (match ex_kernel with Ret r => r | _ => (0, sample_st) end)) = Some (0x80000000, 0x7FC00000)) as -> by (vm_compute; reflexivity).
    intros [= <- <-]. vm_compute. intuition congruence.
  - assert (ex_file = (p, st')) as E2 by (unfold ex_file; by rewrite E1). rewrite E2 in *. cbn [fst snd] in *. split; [done|]. split; [|done].
    destruct (ks_create_pool _ _ _ _ _ _ _ _ E1 Hne) as (m & Ep & ->). by destruct (pool_stock_create _ _ _ _ _ Hst Ep).
Qed.

Lemma ex_image_ok : image_ok 0x500000 0x3000 0x400000 ex_segs.
Proof.
  split; [done|]. split.
  - intros s [->|[->|[]%elem_of_nil]%elem_of_cons]%elem_of_cons; vm_compute; intuition congruence.
  - intros i j s t Hij Hi Hj. destruct j as [|[|j]]; [lia| |done]. destruct i as [|i]; [|lia]. cbn in Hi, Hj. simplify_eq. cbn. lia.
Qed.

Lemma kp_exe_bind_witness : exists r x', kp_exe_bind 9 ex_env ex_x 4116 = Ret (r, x') /\ st_wf ex_env (sects x') /\
  (r = 0 \/ exists ks subs, bound ex_x x' 4116 ks r 0x3000 0 ex_segs subs).
Proof.
  destruct ex_file_ok as (Hwf & Hst & _).
  destruct (kp_exe_bind_correct 9 ex_env ex_x 4116 (Exe (fst ex_file) 0 (0x500000, 0x3000, ex_segs)) (Obj 0 1) 0x500000 0x3000 ex_segs 0x400000 0x7FC00000 0x3000)
    as (r & x' & E1 & H1 & _ & _ & H2).
  - exact Hwf.
  - refine (pool_stock_le _ _ _ _ _ Hst). cbn. lia.
  - reflexivity.
  - reflexivity.
  - reflexivity.
  - intros i. cbn [private elf_read_segment image_elf snd]. rewrite (proj2 (Z.ltb_ge _ 0)) by lia. by rewrite Nat2Z.id.
  - vm_compute. reflexivity.
  - lia.
  - lia.
  - vm_compute. split; congruence.
  - vm_compute. intuition congruence.
  - exact ex_image_ok.
  - cbn. lia.
  - exists r, x'. split; [exact E1|]. split; [exact H1|]. destruct H2 as [[H2 _]|(_ & _ & _ & H2)]; [by left|by right].
Defined.

(** Page operations that record their calls. *)
#[local] Instance log_ops : PageOps (list (Z * Z)) := {|
  km_page_create := fun p a b c => (true, p ++ [(a, b)]);
  km_page_create_cow := fun p a b => (true, p ++ [(a, b)]);
  km_page_share := fun p a b c d f => (KM_PAGE_SHARE_RESULT_OK, p ++ [(b, d)]);
  km_page_share_kernel := fun p a b => p;
  page_clear := fun p a b => p;
  fss_map_prepare_dbd := fun p a b c => (0, p)
|}.

Definition ex_bound : Z * xstate cl_object_type image := match kp_exe_bind 9 ex_env ex_x 4116 with Ret r => r | _ => (0, ex_x) end.

Lemma ex_bound_eq : kp_exe_bind 9 ex_env ex_x 4116 = Ret (0x500000, snd ex_bound).
Proof.
  assert (match kp_exe_bind 9 ex_env ex_x 4116 with Ret (r, _) => r =? 0x500000 | _ => false end = true) as H by (vm_compute; reflexivity).
  unfold ex_bound. destruct (kp_exe_bind 9 ex_env ex_x 4116) as [[r x']| |]; [|done|done]. apply Z.eqb_eq in H as ->. done.
Qed.

Lemma ex_faultable : faultable (mem (sects ex_x)) (proc (sects ex_x)).
Proof.
  destruct ex_file_ok as (Hwf & _). split; [apply (sw_spaces _ _ Hwf)|].
  assert (forallb (fun q => match mem (sects ex_x) !! q with Some s => (0 <=? Z.land (type s) KS_TYPE_MASK) && (Z.land (type s) KS_TYPE_MASK <? KS_TYPE_MAX) | None => true end)
            (vm_list (proc (sects ex_x))) = true) as H by (vm_compute; reflexivity).
  intros ks s Hin Hs. rewrite forallb_forall in H. specialize (H ks). rewrite Hs, <- list_elem_of_In in H.
  apply H in Hin. zbool. lia.
Qed.

(** A read of the second text page: the page of the file at the same distance. *)
Lemma exe_fault_witness : ks_exception (mem (sects (snd ex_bound))) (fun _ => proc (sects (snd ex_bound))) (fun k => backend <$> exes (snd ex_bound) !! k) 1 9
    ks_exception_init [] 7 0x501234 PAGE_FAULT_U = Ret (true, [(0x501234, 0x401234)]).
Proof.
  destruct ex_file_ok as (Hwf & Hst & _).
  rewrite (exe_fault_maps_file 9 ex_env ex_x 4116 (Exe (fst ex_file) 0 (0x500000, 0x3000, ex_segs)) (Obj 0 1) 0x500000 0x3000 ex_segs 0x400000 0x7FC00000 0x3000)
    with (r := 0x500000) (i := 0%nat) (seg := Seg 5 0x500000 0 0x2000 0x2000)
         (bs := Section_ (Node 0x400000 0x3000) KS_TYPE_FILE KM_PROT_READ 0 0 0 0 []).
  - vm_compute. reflexivity.
  - exact Hwf.
  - refine (pool_stock_le _ _ _ _ _ Hst). cbn. lia.
  - reflexivity.
  - reflexivity.
  - reflexivity.
  - intros i. cbn [private elf_read_segment image_elf snd]. rewrite (proj2 (Z.ltb_ge _ 0)) by lia. by rewrite Nat2Z.id.
  - vm_compute. reflexivity.
  - lia.
  - lia.
  - vm_compute. split; congruence.
  - vm_compute. intuition congruence.
  - exact ex_image_ok.
  - cbn. lia.
  - exact ex_bound_eq.
  - lia.
  - exact ex_faultable.
  - reflexivity.
  - intros [|[|i]] [|[|j]] s t Hij Hi Hj; cbn in Hi, Hj; simplify_eq; cbn; lia.
  - reflexivity.
  - split; vm_compute; congruence.
  - vm_compute. reflexivity.
  - cbn. lia.
  - vm_compute. split; congruence.
Defined.

(** *** Where the code does not do what it means to *)

(** When an executable cannot be bound, [kp_exe_open_by_name] gives back a
    reference of the process, not the one the search took: the counter of the
    process drops and that of the executable stays. *)
Theorem open_failure_drops_process {M E C} `{ObjectPool M E} `{ElfImage C} fuel (e : E) (x x1 x2 : xstate M C) who p0 nm ke o :
  kp_exe_search_by_name x p0 nm = Ret (ke, x1) -> ke <> 0 -> kp_exe_bind fuel e x1 ke = Ret (0, x2) ->
  objects (process_type x2) !! TO_CL_OBJECT who = Some o ->
  exists x3, kp_exe_open_by_name fuel e x who p0 nm = Ret (0, 0, x3) /\ exe_type x3 = exe_type x2 /\
    objects (process_type x3) = <[TO_CL_OBJECT who := Obj (name o) (to_int (ref o - 1))]> (objects (process_type x2)).
Proof.
  intros Es Hne Eb Ho. unfold kp_exe_open_by_name. rewrite Es. cbn [mbind run_bind]. rewrite (proj2 (Z.eqb_neq ke 0) Hne), Eb. cbn [mbind run_bind Z.eqb].
  unfold cl_object_dec_ref, add_ref. rewrite Ho. cbn [lift mbind option_bind run_bind]. eexists. split; [done|]. split; done.
Qed.

(** The section of the executable that [kp_exe_create_temp] makes is a local
    variable, not an object: taking a reference writes in front of it. *)
Theorem exe_create_temp_faults {C} `{ElfImage C} (ee : obj_env) (x : xstate cl_object_type C) ts te p m :
  objects (pool (sects x)) !! TO_CL_OBJECT ts = None ->
  cl_object_create (env_fuel ee) (env_mem ee) (exe_type x) (env_space ee) (Some (fun _ => true)) = Ret (p, m) -> p <> 0 ->
  kp_exe_create_temp ee x ts te = Fault.
Proof.
  intros Hn Ec Hp. unfold kp_exe_create_temp, kp_exe_create. rewrite Ec. cbn [mbind run_bind]. rewrite (proj2 (Z.eqb_neq p 0) Hp).
  cbn. unfold cl_object_inc_ref, add_ref. by rewrite Hn.
Qed.

(** Subsections are not compared with each other: two segments at the same
    address are both accepted. *)
Example bind_accepts_overlap :
  match kp_exe_bind 9 ex_env (XState (snd ex_file) (sample_type_ref 1)
          {[ 4116 := Exe (fst ex_file) 0 (0x500000, 0x3000, [Seg 5 0x500000 0 0x2000 0x2000; Seg 3 0x500000 0x2000 16 0x1000]) ]} (sample_type_ref 1)) 4116 with
  | Ret (r, _) => r = 0x500000 | _ => False end.
Proof. vm_compute. reflexivity. Qed.
