(* ===== verification/Process.v ===== *)
(** * Processes and threads

    [source/kernel/process/process.c] and [thread.c], with the x86 part
    [arch/x86/thread.c]: creating a process (its object, name and address
    space), creating a thread (its stacks, its object, the context it starts
    with, its place in the run queue), and [kp_run_user], which makes a process
    of an executable and a command line.  The state joins the components these
    functions call: sections and executables ([Exe]), handles ([Handle]), the
    scheduler and the messages ([Ktm]).  The page tables of a new process are
    made by [object_init] and are in [Page].

    The command line goes through the kernel stack of the first thread:
    [kt_create] copies it to the bottom of the stack and [process_startup] of
    [source/kernel/srv.c] copies it from there to the new process. *)

From stdpp Require Import gmap strings.
From S2P Require Import Prelude Bits Bitmap BlkBuf I2p Object Handle Sched Sync Vm KoSection Stock Fault Msg Ktm CString Exe.
Import BkbOps ObjectOps SchedOps VmOps KtmOps StringOps ExeOps.
Local Open Scope c_scope.

Definition KT_CREATE_STACK_AS_PARA : Z := 2.
Definition KT_CREATE_RUN : Z := 4.
Definition KT_THREAD_FIRST_STACK_SIZE : Z := 0x200000.
Definition KT_ARCH_THREAD_CP0_STACK_SIZE : Z := PAGE_SIZE * 4.
Definition SYSREQ_PROCESS_STARTUP_MAX_SIZE : Z := 512.

(** [sizeof(struct y_thread_environment_block)]: three pointers. *)
Definition SIZEOF_TEB : Z := 12.

Record kt_thread_creating_context := Ctx {
  stack_pos : Z;
  stack0 : Z;
  stack0_size : Z;
  fate_entry : Z;
  thread_entry : Z;
  ctx_cpl : Z;
  para : Z;
  ctx_flags : Z
}.

(** The members of [struct kt_arch_thread] that creation sets. *)
Record kt_arch_thread := Arch {
  sp : Z;
  sp0 : Z;
  ip : Z;
  error_code : Z;
  cr2 : Z;
  ptrace_dr7 : Z;
  debugreg6 : Z
}.

(** What [Sched] and [Ktm] do not have of [struct ko_thread]. *)
Record thread_desc := Desc { arch : kt_arch_thread; teb : Z; current_dir : Z }.

(** [struct ko_process]: its address space and its handles. *)
Record process := Process { vm : Vm.ko_process; hands : Handle.ko_process i2p }.

(** The text of [sprintf(name, "e:%p", entry)]. *)
Definition hex_digit (d : Z) : string :=
  String (Ascii.ascii_of_nat (Z.to_nat (if d <? 10 then d + 48 else d + 87))) EmptyString.
Fixpoint hex_text (n : nat) (x : Z) : string :=
  match n with O => "" | S n => hex_text n (x / 16) +:+ hex_digit (x mod 16) end.
Definition thread_name (entry : Z) : string := "e:" +:+ (if entry =? 0 then "(null)" else hex_text 8 entry).

Module ProcessOps.
Section Process.
Context {M E C : Type} `{ObjectPool M E} `{ElfImage C}.

(** The addresses of [first_time_entry] and [kernel_thread_fate_entry]. *)
Context (first_time_entry kernel_thread_fate_entry : Z).

Record psys := PSys {
  xs : xstate M C;
  procs : gmap Z process;
  thread_type : cl_object_type;
  world : mworld;                  (* scheduler and messages *)
  descs : gmap Z thread_desc;
  stacks : gmap Z (list Z)         (* the pages of kernel stacks, as bytes *)
}.

Definition set_xs (s : psys) (x : xstate M C) : psys := PSys x (procs s) (thread_type s) (world s) (descs s) (stacks s).
Definition set_procs (s : psys) (p : gmap Z process) : psys := PSys (xs s) p (thread_type s) (world s) (descs s) (stacks s).
Definition set_thread_type (s : psys) (m : cl_object_type) : psys := PSys (xs s) (procs s) m (world s) (descs s) (stacks s).
Definition set_world (s : psys) (w : mworld) : psys := PSys (xs s) (procs s) (thread_type s) w (descs s) (stacks s).
Definition set_descs (s : psys) (d : gmap Z thread_desc) : psys := PSys (xs s) (procs s) (thread_type s) (world s) d (stacks s).
Definition set_stacks (s : psys) (k : gmap Z (list Z)) : psys := PSys (xs s) (procs s) (thread_type s) (world s) (descs s) k.

(** The memory a call may get: the environments of the objects and of their
    names, the pages [km_page_alloc_kerneled] returns for the kernel stack
    (their address, 0 for failure, and what they hold), and what the two
    allocations of a handle table return. *)
Record penv := PEnv {
  e_sect : E;
  e_proc : obj_env;
  e_pname : obj_env;
  e_thread : obj_env;
  e_tname : obj_env;
  e_stack : Z;
  e_bytes : list Z;
  e_table : Z * Z
}.

Definition create_object (ev : obj_env) (m : cl_object_type) : run (Z * cl_object_type) :=
  cl_object_create (env_fuel ev) (env_mem ev) m (env_space ev) (Some (fun _ => true)).
Definition set_name (ev : obj_env) (m : cl_object_type) (who : Z) (what : string) : run (Z * cl_object_type) :=
  cl_object_set_name (env_fuel ev) (env_mem ev) m who what (env_space ev).

(** Operations on the address space of the process [w]. *)
Definition on_exe {A} (s : psys) (w : Z) (f : xstate M C -> run (A * xstate M C)) : run (A * psys) :=
  p ← lift (procs s !! w);
  '(a, x) ← f (set_sects (xs s) (set_proc (sects (xs s)) (vm p)));
  Ret (a, set_procs (set_xs s x) (<[w := Process (proc (sects x)) (hands p)]> (procs s))).
Definition on_space {A} (s : psys) (w : Z) (f : kstate M -> run (A * kstate M)) : run (A * psys) :=
  on_exe s w (fun x => '(a, st) ← f (sects x); Ret (a, set_sects x st)).

(** ** Threads *)

(** [object_init] of a thread, whose block is zeroed. *)
Definition thread_object_init (w : mworld) (p : Z) : mworld :=
  ktm_msg_init (set_mkern w (Kernel (cpu (mkern w)) (<[p := Thread 0 0 0 0 0]> (threads (mkern w))))) p.

Definition kt_arch_init_thread (ctx : kt_thread_creating_context) : kt_arch_thread :=
  let top := stack0 ctx +w stack0_size ctx in
  Arch top top first_time_entry (para ctx) (fate_entry ctx) (thread_entry ctx) (if ctx_cpl ctx =? KP_USER then stack_pos ctx else 0).

(** The user stack: [None] if there is none, otherwise [stack_pos], which is
    also the address of the TEB. *)
Definition create_user_stack (ev : penv) (s : psys) (where_ : Z) : run (option Z * psys) :=
  '(ks, s) ← on_space s where_ (fun st =>
     ks_create (e_sect ev) st KS_TYPE_STACK 0 KT_THREAD_FIRST_STACK_SIZE (Z.lor KM_PROT_READ KM_PROT_WRITE));
  if ks =? 0 then Ret (None, s) else
  sec ← lift (mem (sects (xs s)) !! ks);
  Ret (Some (start (node sec) +w (KT_THREAD_FIRST_STACK_SIZE - SIZEOF_TEB)), s).

(** [stack0] and [stack0_size]: the caller's, or new pages, without a test. *)
Definition kernel_stack (ev : penv) (s : psys) (ctx : kt_thread_creating_context) : Z * Z * psys :=
  if stack0_size ctx =? 0 then
    (e_stack ev, KT_ARCH_THREAD_CP0_STACK_SIZE, if e_stack ev =? 0 then s else set_stacks s (<[e_stack ev := e_bytes ev]> (stacks s)))
  else (stack0 ctx, stack0_size ctx, s).

(** The parameter, after the copy to the kernel stack; [text] is the buffer
    [ctx->para] points to.  [None]: the text is too long. *)
Definition stack_para (s : psys) (ctx : kt_thread_creating_context) (text : list Z) (stack size : Z) : run (option Z * psys) :=
  if Z.land (ctx_flags ctx) KT_CREATE_STACK_AS_PARA =? 0 then Ret (Some (para ctx), s) else
  n ← lift (strlen text);
  if size <=? n then Ret (None, s) else
  bytes ← lift (stacks s !! stack);
  bytes ← lift (strcpy bytes text);
  Ret (Some stack, set_stacks s (<[stack := bytes]> (stacks s))).

(** From the thread object on. *)
Definition create_thread (ev : penv) (s : psys) (where_ teb : Z) (ctx : kt_thread_creating_context) : run (Z * psys) :=
  '(p, m) ← create_object (e_thread ev) (thread_type s);
  let s := set_thread_type s m in
  if p =? 0 then Ret (0, s) else
  let w := thread_object_init (world s) p in
  let w := set_mkern w (Kernel (cpu (mkern w)) (<[p := Thread where_ 0 0 0 0]> (threads (mkern w)))) in
  let s := set_descs (set_world s w) (<[p := Desc (kt_arch_init_thread ctx) teb 0]> (descs s)) in
  '(_, m) ← set_name (e_tname ev) (thread_type s) p (thread_name (thread_entry ctx));
  let s := set_thread_type s m in
  if Z.land (ctx_flags ctx) KT_CREATE_RUN =? 0 then Ret (p, s) else
  k ← lift (kt_wakeup p (mkern (world s)));
  Ret (p, set_world s (set_mkern (world s) k)).

Definition kt_create (ev : penv) (s : psys) (where_ : Z) (ctx : kt_thread_creating_context) (text : list Z) : run (Z * psys) :=
  w ← lift (procs s !! where_);
  let c := cpl (vm w) in
  '(pos, s) ← (if c =? KP_USER then create_user_stack ev s where_ else Ret (Some 0, s));
  match pos with
  | None => Ret (0, s)
  | Some pos =>
    let '(stack, size, s) := kernel_stack ev s ctx in
    '(pa, s) ← stack_para s ctx text stack size;
    match pa with
    | None => Ret (0, s)
    | Some pa =>
      if (fate_entry ctx =? 0) && (c =? KP_USER) then Ret (0, s) else
      let fate := if fate_entry ctx =? 0 then kernel_thread_fate_entry else fate_entry ctx in
      create_thread ev s where_ pos (Ctx (if c =? KP_USER then pos else stack_pos ctx) stack size fate (thread_entry ctx) c pa (ctx_flags ctx))
    end
  end.

(** [system] is the process [kp_get_system] returns. *)
Definition kt_create_kernel (ev : penv) (s : psys) (system entry para : Z) : run (Z * psys) :=
  kt_create ev s system (Ctx 0 0 0 0 entry 0 para KT_CREATE_RUN) [].

Definition kt_create_driver_thread (ev : penv) (s : psys) (system ring0_stack stack_size entry para : Z) : run (Z * psys) :=
  kt_create ev s system (Ctx 0 ring0_stack stack_size 0 entry 0 para 0) [].

(** [init_idle_thread]: [cpu] has no other thread yet. *)
Definition init_idle_thread (ev : penv) (s : psys) (system : Z) : run (Z * psys) :=
  '(p, m) ← create_object (e_thread ev) (thread_type s);
  let s := set_thread_type s m in
  if p =? 0 then Ret (0, s) else
  let w := thread_object_init (world s) p in
  let k := Kernel (set_cur (cpu (mkern w)) p) (<[p := Thread system 0 0 0 0]> (threads (mkern w))) in
  k ← lift (kt_wakeup p k);
  Ret (p, set_world s (set_mkern w k)).

(** ** Processes *)

Definition new_process (cpl : Z) : process := Process (Vm.Proc cpl []) (Handle.Proc None false).

Definition kp_create (ev : penv) (s : psys) (cpl : Z) (name : string) : run (Z * psys) :=
  if negb (cpl =? KP_CPL0) && negb (cpl =? KP_CPL0_FAKE) && negb (cpl =? KP_USER) then Ret (0, s) else
  '(p, m) ← create_object (e_proc ev) (process_type (xs s));
  let s := set_xs s (set_process_type (xs s) m) in
  if p =? 0 then Ret (0, s) else
  let s := set_procs s (<[p := new_process cpl]> (procs s)) in
  '(slot, m) ← set_name (e_pname ev) (process_type (xs s)) p name;
  let s := set_xs s (set_process_type (xs s) m) in
  if slot =? 0 then
    m ← cl_object_close (env_fuel (e_proc ev)) (process_type (xs s)) p true;
    Ret (0, set_procs (set_xs s (set_process_type (xs s) m)) (delete p (procs s)))
  else
    '(ok, s) ← on_space s p (ks_init_for_process (e_sect ev));
    Ret (if (ok : bool) then p else 0, s).

Definition init_name : string := "初始化进程".

(** [cmdline] is the buffer with the command line; [fuel] bounds the segments
    of the executable. *)
Definition kp_run_user (fuel : nat) (ev : penv) (s : psys) (ke : Z) (cmdline : list Z) : run (Z * psys) :=
  '(kp, s) ← kp_create ev s KP_USER init_name;
  if kp =? 0 then Ret (0, s) else
  '(base, s) ← on_exe s kp (fun x => kp_exe_bind fuel (e_sect ev) x ke);
  if base =? 0 then Ret (0, s) else
  p ← lift (procs s !! kp);
  '(_, h) ← ke_handle_init (hands p) (fst (e_table ev)) (snd (e_table ev));
  let s := set_procs s (<[kp := Process (vm p) h]> (procs s)) in
  k ← lift (exes (xs s) !! ke);
  '(t, s) ← kt_create ev s kp (Ctx 0 0 0 (entry k) (entry k) 0 0 (Z.lor KT_CREATE_RUN KT_CREATE_STACK_AS_PARA)) cmdline;
  Ret (if t =? 0 then 0 else kp, s).

(** ** The command line, in the new process

    [process_startup] with [SYSREQ_PROCESS_STARTUP_FUNC_START], called by
    [thread]: the bytes that are copied to its buffer. *)
Definition startup_cmdline (s : psys) (thread : Z) : run (list Z) :=
  d ← lift (descs s !! thread);
  bytes ← lift (stacks s !! (sp0 (arch d) -w KT_ARCH_THREAD_CP0_STACK_SIZE));
  if Z.of_nat (length bytes) <? SYSREQ_PROCESS_STARTUP_MAX_SIZE then Fault
  else Ret (take (Z.to_nat SYSREQ_PROCESS_STARTUP_MAX_SIZE) bytes).

End Process.
Arguments psys M C : clear implicits.
Arguments penv E : clear implicits.
End ProcessOps.
Import ProcessOps.

(** ** A thread that was not there before starts to run *)

Lemma sched_wf_new k p w :
  sched_wf k -> threads k !! p = None -> Z.of_nat (base.size (threads k)) + 1 < 2147483648 ->
  sched_wf (Kernel (cpu k) (<[p := Thread w 0 0 0 0]> (threads k))).
Proof.
  intros [Hc Hq Hr Ht Hs] Hp Hsz. constructor; cbn; try done.
  - intros i q t Hi Hin. destruct (Hq i q t Hi Hin) as (th & Hth & ?). exists th. split; [|done].
    rewrite lookup_insert_ne; [done|]. intros <-. congruence.
  - intros t th [[<- <-]|[_ Hth]]%lookup_insert_Some Hru Hd; [by vm_compute in Hru|by eapply Hr].
  - intros t th [[<- <-]|[_ Hth]]%lookup_insert_Some; [by vm_compute|by eapply Ht].
  - rewrite map_size_insert_None by done. lia.
Qed.

Lemma wakeup_new k p w :
  sched_wf k -> threads k !! p = None -> Z.of_nat (base.size (threads k)) + 1 < 2147483648 ->
  exists k' th, kt_wakeup p (Kernel (cpu k) (<[p := Thread w 0 0 0 0]> (threads k))) = Some k' /\ sched_wf k' /\
    threads k' = <[p := th]> (threads k) /\ running th /\ Sched.process th = w /\ cur (cpu k') = cur (cpu k) /\
    queued (cpu k') ≡ₚ p :: queued (cpu k).
Proof.
  intros Hwf Hp Hsz. pose proof (sched_wf_new k p w Hwf Hp Hsz) as Hwf1. set (k1 := Kernel _ _) in *.
  assert (threads k1 !! p = Some (Thread w 0 0 0 0)) as Hth by apply lookup_insert_eq. assert (~ running (Thread w 0 0 0 0)) as Hnr by (by vm_compute).
  destruct (wakeup_enqueue k1 p _ Hwf1 Hth Hnr) as (c & Ee & Hwf' & Hcu & _ & Hperm & _). unfold kt_wakeup. rewrite Hth. cbn [mbind option_bind].
  change (negb (KT_STATUS_BASE (Thread w 0 0 0 0) =? KT_STATE_RUNNING)) with true. cbn [state priority_level].
  change (has_flag KT_STATE_ADD_FORCE_BY_SYSTEM 0) with false. change (has_flag KT_STATE_ADD_DIEING 0) with false. cbn [priority_level] in Ee.
  destruct (linked p (run_queue (cpu k1))) eqn:El.
  { apply linked_elem, elem_of_queues in El as (i & q & Hi & Hin). destruct (sw_queued _ Hwf1 i q p Hi Hin) as (th' & Hth' & _ & Hr).
    rewrite Hth in Hth'. injection Hth' as <-. done. }
  rewrite Ee. cbn [mbind option_bind]. do 2 eexists. split; [done|]. split; [done|]. unfold k1. cbn [threads cpu]. rewrite insert_insert_eq. by split_and!.
Qed.

Section ProcessProofs.
Context {M E C : Type} {OP : ObjectPool M E} {OS : ObjectStock M E} {EI : ElfImage C}.
Context (first_time_entry kernel_thread_fate_entry : Z).

(** ** Sections of a process *)

(** [ks_create] when the pool has memory: it fails only if the request does
    not fit. *)
Lemma ks_create_stock n e (st : kstate M) ty base sz pr rs rl ds dz :
  st_wf e st -> pool_stock (S n) e (pool st) ->
  get_vm_range (cpl (proc st)) base sz (is_type_kernel ty) = Some (rs, rl, ds, dz) ->
  0 < dz -> 0 < rs -> is_word (rs + rl) -> no_wrap (rd_node (mem st)) (vm_list (proc st)) rs rl ds dz ->
  (exists a, (ds <> 0 -> a = ds) /\ fits (rd_node (mem st)) (vm_list (proc st)) rs rl a dz) ->
  exists p st' a, ks_create e st ty base sz pr = Ret (p, st') /\ p <> 0 /\ st_wf e st' /\ pool_stock n e (pool st') /\
    cpl (proc st') = cpl (proc st) /\ mem st !! p = None /\ vm_list (proc st') ≡ₚ p :: vm_list (proc st) /\
    fits (rd_node (mem st)) (vm_list (proc st)) rs rl a dz /\ (ds <> 0 -> a = ds) /\
    mem st' = <[p := Section_ (Node a dz) ty pr 0 0 0 0 []]> (mem st).
Proof.
  intros Hwf Hst Hr Hdz Hrs Hw Hnw (b & Hb & Hfb).
  destruct (ks_create_spec e st ty base sz pr rs rl ds dz Hwf (pool_stock_ready _ _ _ Hst) Hr Hdz Hrs Hw Hnw) as (p & st' & E1 & Hwf' & Hcpl & Hres).
  destruct Hres as [(-> & _ & _ & [[m Ep]|Hno])|(Hp & Hnone & _ & Hl & a & Hfit & Ha & Hm)].
  - by destruct (pool_stock_create _ _ _ _ _ Hst Ep).
  - by destruct (Hno b Hb).
  - destruct (ks_create_pool _ _ _ _ _ _ _ _ E1 Hp) as (m & Ep & Epool). destruct (pool_stock_create _ _ _ _ _ Hst Ep) as [_ Hst']. rewrite <- Epool in Hst'.
    by exists p, st', a.
Qed.

(** The address space does not depend on the process at hand. *)
Lemma st_wf_proc e (st : kstate M) w : st_wf e st -> spaces (rd_node (mem st)) 0 (vm_list w) -> st_wf e (set_proc st w).
Proof. intros [H1 H2 H3 _] H4. by constructor. Qed.

(** ** Creating a process *)

(** The section that shows the kernel in a user process. *)
Definition kernel_section : ko_section := Section_ (Node 0x80000000 0x7FC00000) KS_TYPE_KERNEL 0 0 0 0 0 [].

Record proc_ready (ev : penv E) (s : psys M C) : Prop := {
  pr_type : exists l nl, type_wf (process_type (xs s)) l nl /\ (length l < env_fuel (e_proc ev))%nat /\ (length nl < env_fuel (e_pname ev))%nat;
  pr_block : free_blocks 1 (process_type (xs s));
  pr_name : free_names 1 (process_type (xs s));
  pr_live : forall w, is_Some (procs s !! w) -> is_Some (objects (process_type (xs s)) !! TO_CL_OBJECT w)
}.

Lemma init_space n e (st : kstate M) :
  st_wf e (set_proc st (Vm.Proc KP_USER [])) -> pool_stock (S n) e (pool st) ->
  exists ks st', ks_init_for_process e (set_proc st (Vm.Proc KP_USER [])) = Ret (true, st') /\ st_wf e st' /\ pool_stock n e (pool st') /\
    proc st' = Vm.Proc KP_USER [ks] /\ mem st !! ks = None /\ mem st' = <[ks := kernel_section]> (mem st).
Proof.
  intros Hwf Hst. unfold ks_init_for_process. cbn [set_proc proc cpl]. change (KP_USER =? KP_CPL0) with false.
  destruct (ks_create_stock n e (set_proc st (Vm.Proc KP_USER [])) KS_TYPE_KERNEL 0 0 0 0x80000000 0x7FC00000 0x80000000 0x7FC00000)
    as (p & st' & a & E1 & Hp & Hwf' & Hst' & Hcpl & Hnone & Hl & _ & Ha & Hm); try done.
  - exists 0x80000000. split; [done|]. split; [lia|]. split; [lia|]. apply free_nil.
  - cbn [set_proc pool mem proc vm_list cpl] in *. change (set_proc (set_proc st (Vm.Proc KP_USER [])) (Vm.Proc KP_USER [])) with (set_proc st (Vm.Proc KP_USER [])).
    rewrite E1. cbn [mbind run_bind]. rewrite (proj2 (Z.eqb_neq p 0) Hp). exists p, st'. split; [done|]. split; [done|]. split; [done|].
    apply Permutation_singleton_r in Hl. split; [destruct (proc st'); cbn in *; congruence|]. split; [done|]. rewrite Hm. by rewrite Ha.
Qed.

Lemma kp_create_user n ev (s : psys M C) nm :
  st_wf (e_sect ev) (set_proc (sects (xs s)) (Vm.Proc KP_USER [])) -> pool_stock (S n) (e_sect ev) (pool (sects (xs s))) ->
  proc_ready ev s -> Z.of_nat (String.length nm) + 1 < CL_OBJECT_NAME_SLOTE_LENGTH ->
  exists p ks s' st', kp_create ev s KP_USER nm = Ret (p, s') /\ p <> 0 /\ procs s !! p = None /\
    s' = PSys (XState st' (exe_type (xs s)) (exes (xs s)) (process_type (xs s'))) (<[p := Process (Vm.Proc KP_USER [ks]) (Handle.Proc None false)]> (procs s))
           (thread_type s) (world s) (descs s) (stacks s) /\
    st_wf (e_sect ev) st' /\ pool_stock n (e_sect ev) (pool st') /\ proc st' = Vm.Proc KP_USER [ks] /\
    mem (sects (xs s)) !! ks = None /\ mem st' = <[ks := kernel_section]> (mem (sects (xs s))).
Proof.
  intros Hwf Hst [(l & nl & Ht & Hf1 & Hf2) Hb Hn Hlive] Hlen. unfold kp_create.
  change (negb (KP_USER =? KP_CPL0) && negb (KP_USER =? KP_CPL0_FAKE) && negb (KP_USER =? KP_USER)) with false. cbn iota. unfold create_object.
  destruct (object_create_free (env_fuel (e_proc ev)) (env_mem (e_proc ev)) _ l nl (env_space (e_proc ev)) 0 Ht Hf1 Hb) as (p & m & -> & Hp & Hnone & Ht1 & _ & Hob & Hna & Hni).
  cbn [mbind run_bind]. rewrite (proj2 (Z.eqb_neq p 0) Hp). unfold set_name. cbn [xs set_procs set_xs set_process_type process_type].
  destruct (set_name_free (env_fuel (e_pname ev)) (env_mem (e_pname ev)) m l nl p nm (env_space (e_pname ev)) (Obj 0 0) 0) as (slot & m' & -> & Hslot & Ht2 & _); try done.
  { unfold free_names. by rewrite Hna, Hni. } { by rewrite Hob, lookup_insert_eq. }
  cbn [mbind run_bind]. rewrite (proj2 (Z.eqb_neq slot 0) Hslot). unfold on_space, on_exe. cbn [procs set_procs set_xs]. rewrite lookup_insert_eq. cbn [lift mbind run_bind vm new_process hands xs set_procs set_xs sects set_sects set_process_type].
  destruct (init_space n (e_sect ev) (sects (xs s)) Hwf Hst) as (ks & st' & -> & Hwf' & Hst' & Hpr & Hk & Hm). cbn [mbind run_bind].
  exists p, ks. eexists. exists st'. split; [done|]. split; [done|]. split.
  { destruct (procs s !! p) eqn:Ep; [|done]. destruct (Hlive p) as [o' Ho']; [by rewrite Ep|]. congruence. }
  split; [|done]. cbn [xs procs thread_type world descs stacks set_procs set_xs set_process_type sects set_sects exe_type exes process_type]. by rewrite insert_insert_eq, Hpr.
Qed.

(** ** Creating a thread *)

Record thread_ready (ev : penv E) (s : psys M C) : Prop := {
  tr_type : exists l nl, type_wf (thread_type s) l nl /\ (length l < env_fuel (e_thread ev))%nat /\ (length nl < env_fuel (e_tname ev))%nat;
  tr_block : free_blocks 1 (thread_type s);
  tr_name : free_names 1 (thread_type s);
  tr_live : forall t, is_Some (threads (mkern (world s)) !! t) -> is_Some (objects (thread_type s) !! TO_CL_OBJECT t);
  tr_sched : sched_wf (mkern (world s));
  tr_count : Z.of_nat (base.size (threads (mkern (world s)))) + 1 < 2147483648
}.

(** [t] is a new thread of [w] with the context [a], ready to run. *)
Record started (s s' : psys M C) (t w pos : Z) (a : kt_arch_thread) : Prop := {
  sd_new : threads (mkern (world s)) !! t = None;
  sd_thread : exists th, threads (mkern (world s')) = <[t := th]> (threads (mkern (world s))) /\ running th /\ Sched.process th = w;
  sd_queue : queued (cpu (mkern (world s'))) ≡ₚ t :: queued (cpu (mkern (world s)));
  sd_cur : cur (cpu (mkern (world s'))) = cur (cpu (mkern (world s)));
  sd_sched : sched_wf (mkern (world s'));
  sd_desc : descs s' !! t = Some (Desc a pos 0);
  sd_msg : ktms (world s') !! t = Some (Ktm 0 0 (Instance None 0) [])
}.

Lemma length_string_app a b : String.length (a +:+ b) = (String.length a + String.length b)%nat.
Proof. induction a as [|c a IH]; [done|]. cbn. by rewrite <- IH. Qed.

Lemma length_thread_name e : (String.length (thread_name e) <= 10)%nat.
Proof.
  unfold thread_name. rewrite length_string_app. destruct (e =? 0); [cbn; lia|].
  assert (forall n x, String.length (hex_text n x) = n) as ->; [|cbn; lia].
  intros n. induction n as [|n IH]; intros x; [done|]. cbn [hex_text]. rewrite length_string_app, IH. cbn. lia.
Qed.

Lemma create_thread_spec ev (s : psys M C) w pos ctx :
  thread_ready ev s -> Z.land (ctx_flags ctx) KT_CREATE_RUN <> 0 ->
  exists t s', create_thread first_time_entry ev s w pos ctx = Ret (t, s') /\ t <> 0 /\
    started s s' t w pos (kt_arch_init_thread first_time_entry ctx) /\ xs s' = xs s /\ procs s' = procs s /\ stacks s' = stacks s.
Proof.
  intros [(l & nl & Ht & Hf1 & Hf2) Hb Hn Hlive Hsch Hcnt] Hrun. unfold create_thread, create_object.
  destruct (object_create_free (env_fuel (e_thread ev)) (env_mem (e_thread ev)) _ l nl (env_space (e_thread ev)) 0 Ht Hf1 Hb) as (t & m & -> & Hne & Hnone & Ht1 & _ & Hob & Hna & Hni).
  cbn [mbind run_bind]. rewrite (proj2 (Z.eqb_neq t 0) Hne). unfold set_name. cbn [thread_type set_descs set_world set_thread_type].
  destruct (set_name_free (env_fuel (e_tname ev)) (env_mem (e_tname ev)) m l nl t (thread_name (thread_entry ctx)) (env_space (e_tname ev)) (Obj 0 0) 0) as (slot & m' & -> & _); try done.
  { unfold free_names. by rewrite Hna, Hni. } { by rewrite Hob, lookup_insert_eq. }
  { pose proof (length_thread_name (thread_entry ctx)). unfold CL_OBJECT_NAME_SLOTE_LENGTH. lia. }
  cbn [mbind run_bind]. rewrite (proj2 (Z.eqb_neq _ 0) Hrun).
  assert (threads (mkern (world s)) !! t = None) as Hnew.
  { destruct (threads (mkern (world s)) !! t) eqn:Et; [|done]. destruct (Hlive t) as [o' Ho']; [by rewrite Et|]. congruence. }
  cbn [world set_thread_type set_descs set_world set_mkern mkern thread_object_init ktm_msg_init set_ktm cpu threads]. rewrite insert_insert_eq.
  destruct (wakeup_new (mkern (world s)) t w Hsch Hnew Hcnt) as (k' & th & -> & Hwf & Hth & Hr & Hpr & Hcu & Hq). cbn [lift mbind run_bind].
  exists t. eexists. split; [done|]. split; [done|]. split; [|done]. constructor; cbn [world set_world set_mkern mkern ktms descs set_thread_type set_descs]; try done.
  - by exists th.
  - apply lookup_insert_eq.
  - apply lookup_insert_eq.
Qed.

Definition stack_section (a : Z) : ko_section :=
  Section_ (Node a KT_THREAD_FIRST_STACK_SIZE) KS_TYPE_STACK (Z.lor KM_PROT_READ KM_PROT_WRITE) 0 0 0 0 [].

(** The address of the TEB on a stack. *)
Definition teb_of (a : Z) : Z := a + KT_THREAD_FIRST_STACK_SIZE - SIZEOF_TEB.

Record stack_room (m : sections) (l : list Z) : Prop := {
  sr_fits : exists a, fits (rd_node m) l 0x400000 0x7FC00000 a KT_THREAD_FIRST_STACK_SIZE;
  sr_wrap : forall p s z, p ∈ l -> rd_node m p = Some (s, z) -> s < 0x80000000 -> is_word (s + z + KT_THREAD_FIRST_STACK_SIZE)
}.

Lemma user_stack_spec n ev (s : psys M C) w p :
  procs s !! w = Some p -> cpl (vm p) = KP_USER -> st_wf (e_sect ev) (set_proc (sects (xs s)) (vm p)) ->
  pool_stock (S n) (e_sect ev) (pool (sects (xs s))) -> stack_room (mem (sects (xs s))) (vm_list (vm p)) ->
  exists ks a st', create_user_stack ev s w = Ret (Some (teb_of a), set_procs (set_xs s (set_sects (xs s) st')) (<[w := Process (proc st') (hands p)]> (procs s))) /\
    fits (rd_node (mem (sects (xs s)))) (vm_list (vm p)) 0x400000 0x7FC00000 a KT_THREAD_FIRST_STACK_SIZE /\
    st_wf (e_sect ev) st' /\ pool_stock n (e_sect ev) (pool st') /\ cpl (proc st') = KP_USER /\ vm_list (proc st') ≡ₚ ks :: vm_list (vm p) /\
    mem (sects (xs s)) !! ks = None /\ mem st' = <[ks := stack_section a]> (mem (sects (xs s))).
Proof.
  intros Hp Hc Hwf Hst [(b & Hb) Hwr]. unfold create_user_stack, on_space, on_exe. rewrite Hp. cbn [lift mbind run_bind sects set_sects].
  destruct (ks_create_stock n (e_sect ev) (set_proc (sects (xs s)) (vm p)) KS_TYPE_STACK 0 KT_THREAD_FIRST_STACK_SIZE (Z.lor KM_PROT_READ KM_PROT_WRITE)
              0x400000 0x7FC00000 0 KT_THREAD_FIRST_STACK_SIZE) as (ks & st' & a & -> & Hks & Hwf' & Hst' & Hcpl & Hnone & Hl & Hfit & _ & Hm).
  - done.
  - done.
  - cbn [set_proc proc]. rewrite Hc. reflexivity.
  - done.
  - done.
  - vm_compute. intuition congruence.
  - split; [done|]. intros q s0 z0 Hq Hr Hs0. by apply (Hwr q).
  - by exists b.
  - cbn [mbind run_bind]. rewrite (proj2 (Z.eqb_neq ks 0) Hks). cbn [xs set_procs set_xs sects set_sects]. rewrite Hm, lookup_insert_eq.
    cbn [set_proc mem pool proc cpl vm_list] in *. cbn [lift mbind run_bind node start].
    exists ks, a, st'. split; [|by rewrite Hcpl, Hc]. pose proof Hfit as (H1 & H2 & _). unfold KT_THREAD_FIRST_STACK_SIZE in H2. f_equal. f_equal. f_equal.
    unfold teb_of, KT_THREAD_FIRST_STACK_SIZE, SIZEOF_TEB. rewrite wrap_small by (unfold is_word; lia). lia.
Qed.

(** The pages of the kernel stack of a new thread. *)
Definition stack_pages (ev : penv E) : Prop :=
  e_stack ev <> 0 /\ is_word (e_stack ev) /\ is_word (e_stack ev + KT_ARCH_THREAD_CP0_STACK_SIZE) /\
  Z.of_nat (length (e_bytes ev)) = KT_ARCH_THREAD_CP0_STACK_SIZE.

(** The context a user thread starts with. *)
Definition user_context (ev : penv E) (entry fate pos : Z) : kt_arch_thread :=
  let top := e_stack ev + KT_ARCH_THREAD_CP0_STACK_SIZE in Arch top top first_time_entry (e_stack ev) fate entry pos.

Lemma kt_create_user n ev (s : psys M C) w p entry fate text l :
  procs s !! w = Some p -> cpl (vm p) = KP_USER -> st_wf (e_sect ev) (set_proc (sects (xs s)) (vm p)) ->
  pool_stock (S n) (e_sect ev) (pool (sects (xs s))) -> stack_room (mem (sects (xs s))) (vm_list (vm p)) ->
  thread_ready ev s -> stack_pages ev -> fate <> 0 -> cstr text l -> Z.of_nat (length l) < KT_ARCH_THREAD_CP0_STACK_SIZE ->
  exists t s' ks a st', kt_create first_time_entry kernel_thread_fate_entry ev s w
      (Ctx 0 0 0 fate entry 0 0 (Z.lor KT_CREATE_RUN KT_CREATE_STACK_AS_PARA)) text = Ret (t, s') /\ t <> 0 /\
    started s s' t w (teb_of a) (user_context ev entry fate (teb_of a)) /\
    fits (rd_node (mem (sects (xs s)))) (vm_list (vm p)) 0x400000 0x7FC00000 a KT_THREAD_FIRST_STACK_SIZE /\
    xs s' = set_sects (xs s) st' /\ procs s' = <[w := Process (proc st') (hands p)]> (procs s) /\
    stacks s' !! e_stack ev = Some (l ++ 0 :: drop (S (length l)) (e_bytes ev)) /\
    st_wf (e_sect ev) st' /\ cpl (proc st') = KP_USER /\ vm_list (proc st') ≡ₚ ks :: vm_list (vm p) /\
    mem (sects (xs s)) !! ks = None /\ mem st' = <[ks := stack_section a]> (mem (sects (xs s))).
Proof.
  intros Hp Hc Hwf Hst Hroom Htr (Hs1 & Hs2 & Hs3 & Hs4) Hfate Htext Hlen. unfold kt_create. rewrite Hp. cbn [lift mbind run_bind]. rewrite Hc, Z.eqb_refl.
  destruct (user_stack_spec n ev s w p Hp Hc Hwf Hst Hroom) as (ks & a & st' & -> & Hfit & Hwf' & Hst' & Hcpl & Hl & Hnone & Hm). cbn [mbind run_bind].
  unfold kernel_stack. cbn [stack0_size Z.eqb]. rewrite (proj2 (Z.eqb_neq _ 0) Hs1). unfold stack_para. cbn [ctx_flags].
  change (Z.land (Z.lor KT_CREATE_RUN KT_CREATE_STACK_AS_PARA) KT_CREATE_STACK_AS_PARA =? 0) with false. cbn iota.
  rewrite (strlen_spec _ _ Htext). cbn [lift mbind run_bind]. rewrite (proj2 (Z.leb_gt _ _) Hlen). cbn [stacks set_stacks set_procs set_xs]. rewrite lookup_insert_eq.
  cbn [lift mbind run_bind]. rewrite (strcpy_spec _ _ _ Htext) by lia. cbn [lift mbind run_bind fate_entry thread_entry]. rewrite (proj2 (Z.eqb_neq fate 0) Hfate). cbn [andb].
  set (s1 := set_stacks _ _). set (ctx := Ctx _ _ _ _ _ _ _ _).
  destruct (create_thread_spec ev s1 w (teb_of a) ctx) as (t & s' & E1 & Ht & [Hsd1 Hsd2 Hsd3 Hsd4 Hsd5 Hsd6 Hsd7] & Hx & Hpr & Hsk).
  { destruct Htr. by constructor. } { done. }
  rewrite E1. exists t, s', ks, a, st'. split; [done|]. split; [done|]. split.
  { constructor; try done. rewrite Hsd6. unfold ctx, kt_arch_init_thread, user_context. cbn. by rewrite wrap_small. }
  split; [done|]. rewrite Hx, Hpr, Hsk. unfold s1. cbn [xs procs stacks set_stacks set_procs set_xs]. rewrite lookup_insert_eq. done.
Qed.

(** ** Running an executable *)

Lemma init_name_short : Z.of_nat (String.length init_name) + 1 < CL_OBJECT_NAME_SLOTE_LENGTH.
Proof. by vm_compute. Qed.

(** Beside the image there is room for a stack: the image leaves two holes,
    and it is not so large that both are smaller than a stack. *)
Lemma room_beside_image m ks ke r z l :
  l ≡ₚ [ke; ks] -> rd_node m ks = Some (0x80000000, 0x7FC00000) -> rd_node m ke = Some (r, z) -> 0 < z <= 0x7F800000 ->
  0x400000 <= r -> r + z <= 0x80000000 -> stack_room m l.
Proof.
  intros Hl Hk He Hz Hr Hrz. split.
  - assert (exists a, 0x400000 <= a /\ a + 0x200000 <= 0x80000000 /\ (a + 0x200000 <= r \/ r + z <= a)) as (a & H1 & H2 & H3).
    { destruct (Z.le_gt_cases (0x400000 + 0x200000) r); [exists 0x400000; lia|exists (r + z); lia]. }
    exists a. split; [done|]. split; [done|]. intros p s y Hp Hs. rewrite Hl in Hp.
    apply elem_of_cons in Hp as [->|Hp]; [rewrite He in Hs; by injection Hs as <- <-|].
    apply list_elem_of_singleton in Hp as ->. rewrite Hk in Hs. injection Hs as <- <-. unfold KT_THREAD_FIRST_STACK_SIZE. lia.
  - intros p s y Hp Hs Hlt. rewrite Hl in Hp. apply elem_of_cons in Hp as [->|Hp]; [rewrite He in Hs; injection Hs as <- <-|].
    + unfold is_word, KT_THREAD_FIRST_STACK_SIZE. lia.
    + apply list_elem_of_singleton in Hp as ->. rewrite Hk in Hs. injection Hs as <- <-. lia.
Qed.

(** What [kp_run_user] starts from: memory for all it creates, an executable
    whose image can be placed in a user process, and an entry. *)
Record run_ready (ev : penv E) (s : psys M C) (ke : Z) (k : ko_exe C) (o : cl_object) (base sz : Z) (segs : list elf_segment) : Prop := {
  rr_sect : st_wf (e_sect ev) (set_proc (sects (xs s)) (Vm.Proc KP_USER []));
  rr_stock : pool_stock (3 + length segs) (e_sect ev) (pool (sects (xs s)));
  rr_proc : proc_ready ev s;
  rr_thread : thread_ready ev s;
  rr_pages : stack_pages ev;
  rr_exe : exes (xs s) !! ke = Some k;
  rr_obj : objects (exe_type (xs s)) !! TO_CL_OBJECT ke = Some o;
  rr_entry : entry k <> 0;
  rr_base : elf_get_mapping_base (private k) = (base, sz);
  rr_segs : forall i, elf_read_segment (private k) (Z.of_nat i) = segs !! i;
  rr_size : 0 < ALIGN sz PAGE_SIZE <= 0x7F800000;
  rr_place : base <> 0 -> 0x400000 <= base /\ base + ALIGN sz PAGE_SIZE <= 0x80000000;
  rr_image : image_ok base (ALIGN sz PAGE_SIZE) 0x400000 segs
}.

(** The image of a process that has only the kernel section fits. *)
Lemma image_fits (m : sections) (ks base z : Z) :
  rd_node m ks = Some (0x80000000, 0x7FC00000) -> 0 < z <= 0x7F800000 -> (base <> 0 -> 0x400000 <= base /\ base + z <= 0x80000000) ->
  no_wrap (rd_node m) [ks] 0x400000 0x7FC00000 base z /\ exists a, (base <> 0 -> a = base) /\ fits (rd_node m) [ks] 0x400000 0x7FC00000 a z.
Proof.
  intros Hk Hz Hb. split.
  - unfold no_wrap. destruct (Z.eqb_spec base 0) as [->|Hne].
    + split; [lia|]. intros p s y ->%list_elem_of_singleton Hs. rewrite Hk in Hs. injection Hs as <- <-. lia.
    + destruct (Hb Hne). unfold is_word. lia.
  - exists (if base =? 0 then 0x400000 else base). split; [by destruct (Z.eqb_spec base 0)|].
    assert (0x400000 <= (if base =? 0 then 0x400000 else base) /\ (if base =? 0 then 0x400000 else base) + z <= 0x80000000) as [H1 H2]
      by (destruct (Z.eqb_spec base 0); lia).
    split; [done|]. split; [lia|]. intros p s y ->%list_elem_of_singleton Hs. rewrite Hk in Hs. injection Hs as <- <-. lia.
Qed.

(** A started process: its address space is the kernel, the image and the
    stack of its first thread, apart from each other. *)
Record running_process (s s' : psys M C) (kp ke t base z : Z) (segs : list elf_segment) (ctx : Z -> kt_arch_thread) : Prop := {
  rp_new : procs s !! kp = None;
  rp_others : forall w, w <> kp -> procs s' !! w = procs s !! w;
  rp_space : exists p ks kex kst r a subs, procs s' !! kp = Some p /\ cpl (vm p) = KP_USER /\ is_Some (handle_table (hands p)) /\
    vm_list (vm p) ≡ₚ [kst; kex; ks] /\ spaces (rd_node (mem (sects (xs s')))) 0 (vm_list (vm p)) /\
    mem (sects (xs s')) !! ks = Some kernel_section /\
    mem (sects (xs s')) !! kex = Some (Section_ (Node r z) KS_TYPE_EXE KM_PROT_READ ke 0 0 0 subs) /\
    Forall2 (sub_for (mem (sects (xs s'))) (if base =? 0 then r else 0)) segs subs /\ (base <> 0 -> r = base) /\
    mem (sects (xs s')) !! kst = Some (stack_section a) /\
    started s s' t kp (teb_of a) (ctx (teb_of a));
  rp_old : forall q, is_Some (mem (sects (xs s)) !! q) -> mem (sects (xs s')) !! q = mem (sects (xs s)) !! q
}.

(** What binding and the new stack leave of each other. *)
Lemma bound_space (x x' : xstate M C) e ke ks kex r z bias segs subs :
  bound x x' ke kex r z bias segs subs -> st_wf e (sects x') -> vm_list (proc (sects x)) = [ks] -> mem (sects x') !! ks = Some kernel_section ->
  0 < z <= 0x7F800000 -> 0x400000 <= r -> r + z <= 0x80000000 -> stack_room (mem (sects x')) (vm_list (proc (sects x'))).
Proof.
  intros [Hk _ Hl _] Hwf Hv Hks Hz Hr Hrz. rewrite Hv in Hl. apply (room_beside_image _ ks kex r z); try done.
  - unfold rd_node. by rewrite Hks.
  - unfold rd_node. by rewrite Hk.
Qed.

Lemma thread_ready_ext ev (s s' : psys M C) : thread_type s' = thread_type s -> world s' = world s -> thread_ready ev s -> thread_ready ev s'.
Proof. intros E1 E2 [H1 H2 H3 H4 H5 H6]. constructor; rewrite ?E1, ?E2; done. Qed.

(** The first thread of a process with a bound image. *)
Lemma start_bound ev (s : psys M C) x1 x2 kp ke ks kex r z base segs subs tb ent text l :
  thread_ready ev s -> stack_pages ev -> ent <> 0 -> cstr text l -> Z.of_nat (length l) < KT_ARCH_THREAD_CP0_STACK_SIZE ->
  procs s !! kp = None -> (forall q, is_Some (mem (sects (xs s)) !! q) -> mem (sects x1) !! q = mem (sects (xs s)) !! q) ->
  vm_list (proc (sects x1)) = [ks] -> mem (sects x1) !! ks = Some kernel_section ->
  (forall q, is_Some (mem (sects x1) !! q) -> mem (sects x2) !! q = mem (sects x1) !! q) ->
  bound x1 x2 ke kex r z (if base =? 0 then r else 0) segs subs -> st_wf (e_sect ev) (sects x2) -> pool_stock 1 (e_sect ev) (pool (sects x2)) ->
  cpl (proc (sects x2)) = KP_USER -> 0 < z <= 0x7F800000 -> 0x400000 <= r -> r + z <= 0x80000000 -> (base <> 0 -> r = base) ->
  exists t s', kt_create first_time_entry kernel_thread_fate_entry ev
      (PSys x2 (<[kp := Process (proc (sects x2)) (Handle.Proc (Some tb) false)]> (procs s)) (thread_type s) (world s) (descs s) (stacks s)) kp
      (Ctx 0 0 0 ent ent 0 0 (Z.lor KT_CREATE_RUN KT_CREATE_STACK_AS_PARA)) text = Ret (t, s') /\ t <> 0 /\
    running_process s s' kp ke t base z segs (user_context ev ent ent) /\
    stacks s' !! e_stack ev = Some (l ++ 0 :: drop (S (length l)) (e_bytes ev)).
Proof.
  intros Htr Hpg Hent Htext Hlen Hnew Hold1 Hv Hks Hold2 Hbd Hwf Hst Hcpl Hz Hr Hrz Hrb. set (s2 := PSys _ _ _ _ _ _).
  assert (mem (sects x2) !! ks = Some kernel_section) as Hks2 by (rewrite Hold2; [done|by eexists]).
  destruct (kt_create_user 0 ev s2 kp (Process (proc (sects x2)) (Handle.Proc (Some tb) false)) ent ent text l)
    as (t & s' & kst & a & st' & E1 & Ht & [Hs1 Hs2 Hs3 Hs4 Hs5 Hs6 Hs7] & _ & Hx & Hpr & Hsk & Hwf' & Hc' & Hl' & Hn' & Hm'); try done.
  - apply lookup_insert_eq.
  - cbn. by replace (set_proc (sects x2) (proc (sects x2))) with (sects x2) by (by destruct (sects x2)).
  - by eapply bound_space.
  - by eapply (thread_ready_ext _ s).
  - exists t, s'. split; [done|]. split; [done|]. split; [|done]. pose proof Hbd as [Hk _ Hl Hsub]. cbn [s2 xs] in Hx, Hn', Hm', Hl'.
    assert (forall q, is_Some (mem (sects x2) !! q) -> mem (sects (xs s')) !! q = mem (sects x2) !! q) as Hold3.
    { intros q Hq. rewrite Hx. cbn [set_sects sects]. rewrite Hm'. apply lookup_insert_ne. intros <-. rewrite Hn' in Hq. by destruct Hq. }
    constructor.
    + done.
    + intros w Hw. rewrite Hpr. cbn [s2 procs]. by rewrite !lookup_insert_ne by done.
    + eexists _, ks, kex, kst, r, a, subs. rewrite Hpr. split; [apply lookup_insert_eq|]. cbn [vm hands handle_table]. split; [done|]. split; [by eexists|].
      split; [rewrite Hl'; cbn [vm]; by rewrite Hl, Hv|]. split; [rewrite Hx; apply (sw_spaces _ _ Hwf')|].
      split; [rewrite Hold3; [done|by eexists]|]. split; [rewrite Hold3; [done|by eexists]|].
      split; [eapply sub_for_mono; [|done]; intros q Hq _; by apply Hold3|]. split; [done|].
      split; [rewrite Hx; cbn [set_sects sects]; by rewrite Hm', lookup_insert_eq|]. by constructor.
    + intros q Hq. assert (mem (sects x2) !! q = mem (sects (xs s)) !! q) as Hq2 by (rewrite Hold2, Hold1; [done|done|by rewrite Hold1]).
      rewrite Hold3; [done|by rewrite Hq2].
Qed.

Lemma run_user_spec fuel ev (s : psys M C) ke k o base sz segs text l :
  run_ready ev s ke k o base sz segs -> fst (e_table ev) <> 0 -> snd (e_table ev) <> 0 -> (length segs < fuel)%nat ->
  cstr text l -> Z.of_nat (length l) < KT_ARCH_THREAD_CP0_STACK_SIZE ->
  exists kp t s', kp_run_user first_time_entry kernel_thread_fate_entry fuel ev s ke text = Ret (kp, s') /\ kp <> 0 /\
    running_process s s' kp ke t base (ALIGN sz PAGE_SIZE) segs (user_context ev (entry k) (entry k)) /\
    stacks s' !! e_stack ev = Some (l ++ 0 :: drop (S (length l)) (e_bytes ev)).
Proof.
  intros [Hsect Hstock Hproc Hthr Hpages Hexe Hobj Hent Hbase Hsegs Hsize Hplace Himg] Ht1 Ht2 Hfuel Htext Hlen. unfold kp_run_user.
  destruct (kp_create_user (S (length segs + 1)) ev s init_name Hsect) as (kp & ks & s1 & st1 & -> & Hkp & Hnew & Es1 & Hwf1 & Hst1 & Hpr1 & Hks & Hm1).
  { by replace (S (S (length segs + 1))) with (3 + length segs)%nat by lia. } { done. } { apply init_name_short. }
  cbn [mbind run_bind]. rewrite (proj2 (Z.eqb_neq kp 0) Hkp). unfold on_exe. rewrite Es1. cbn [procs xs sects]. rewrite lookup_insert_eq. cbn [lift mbind run_bind vm].
  rewrite <- Hpr1. set (x1 := XState st1 (exe_type (xs s)) (exes (xs s)) (process_type (xs s1))).
  assert (set_sects x1 (set_proc st1 (proc st1)) = x1) as -> by (unfold x1, set_sects, set_proc; by destruct st1).
  assert (rd_node (mem st1) ks = Some (0x80000000, 0x7FC00000)) as Hrd by (unfold rd_node; by rewrite Hm1, lookup_insert_eq).
  destruct (image_fits (mem st1) ks base (ALIGN sz PAGE_SIZE) Hrd Hsize Hplace) as [Hnw (b & Hb & Hfb)].
  destruct (exe_bind_spec 1 fuel (e_sect ev) x1 ke k o base sz segs 0x400000 0x7FC00000 base (ALIGN sz PAGE_SIZE))
    as (r & x2 & -> & Hwf2 & Hex2 & _ & Hcpl2 & Hold2 & Hres); unfold x1; cbn [sects exes exe_type]; try done; try lia; try (by rewrite Hpr1).
  destruct Hres as [(_ & _ & _ & _ & Hno)|((Hrlo & Hrhi & _) & Hrb & _ & Hst2 & kex & subs & Hbd)].
  { exfalso. apply (Hno b Hb). unfold x1. cbn [sects]. by rewrite Hpr1. }
  cbn [mbind run_bind]. rewrite (proj2 (Z.eqb_neq r 0)) by lia. cbn [procs set_procs set_xs hands]. rewrite !lookup_insert_eq. cbn [lift mbind run_bind hands vm].
  unfold ke_handle_init. cbn [tbl_create i2p_table]. destruct (i2p_create_spec (fst (e_table ev)) (snd (e_table ev)) Ht1 Ht2) as (tb & Etb & _).
  rewrite Etb. cbn [fmap option_fmap option_map fst lift mbind run_bind handle_lock xs set_procs set_xs exes]. rewrite Hex2. unfold x1. cbn [exes]. rewrite Hexe. cbn [lift mbind run_bind].
  rewrite !insert_insert_eq.
  destruct (start_bound ev s x1 x2 kp ke ks kex r (ALIGN sz PAGE_SIZE) base segs subs tb (entry k) text l) as (t & s' & Ek & Ht & Hrun & Hsk); try done; try lia.
  - intros q Hq. unfold x1. cbn [sects]. rewrite Hm1. apply lookup_insert_ne. intros <-. rewrite Hks in Hq. by destruct Hq.
  - unfold x1. cbn [sects]. by rewrite Hpr1.
  - unfold x1. cbn [sects]. by rewrite Hm1, lookup_insert_eq.
  - rewrite Hcpl2. unfold x1. cbn [sects]. by rewrite Hpr1.
  - unfold set_procs, set_xs. cbn [xs thread_type world descs stacks]. rewrite Ek. cbn [mbind run_bind]. rewrite (proj2 (Z.eqb_neq t 0) Ht).
    by exists kp, t, s'.
Qed.
End ProcessProofs.

(** What the first thread reads at the bottom of its kernel stack. *)
Lemma startup_spec {M E C : Type} fte (ev : penv E) (s s' : psys M C) t w pos entry fate bytes :
  started s s' t w pos (user_context fte ev entry fate pos) -> is_word (e_stack ev) -> stacks s' !! e_stack ev = Some bytes -> (512 <= length bytes)%nat ->
  startup_cmdline s' t = Ret (take 512 bytes).
Proof.
  intros Hst Hw Hsk Hlen. unfold startup_cmdline. rewrite (sd_desc _ _ _ _ _ _ Hst). cbn [lift mbind run_bind arch user_context sp0].
  replace (e_stack ev + KT_ARCH_THREAD_CP0_STACK_SIZE - KT_ARCH_THREAD_CP0_STACK_SIZE) with (e_stack ev) by lia. rewrite wrap_small by done.
  rewrite Hsk. cbn [lift mbind run_bind]. unfold SYSREQ_PROCESS_STARTUP_MAX_SIZE. by rewrite (proj2 (Z.ltb_ge _ _)) by lia.
Qed.

(** ** Properties *)

Section Claims.
Context {M E C : Type} {OP : ObjectPool M E} {OS : ObjectStock M E} {EI : ElfImage C}.
Context (first_time_entry kernel_thread_fate_entry : Z).
Context (fuel : nat) (ev : penv E) (s : psys M C) (ke : Z) (k : ko_exe C) (o : cl_object) (base sz : Z) (segs : list elf_segment) (text l : list Z).
Context (Hready : run_ready ev s ke k o base sz segs) (Ht1 : fst (e_table ev) <> 0) (Ht2 : snd (e_table ev) <> 0) (Hfuel : (length segs < fuel)%nat).
Context (Htext : cstr text l).

(** C28: with memory for its objects, [kp_run_user] makes a process of an
    executable.  The process is new and no other process and no section that
    was there changes; its address space is sorted and disjoint and has the
    kernel, the image (at the base it asks for, one subsection per segment)
    and a stack; it has a handle table; and its first thread, whose context
    enters the executable with the stack below the TEB, is at the end of the
    run queue, with an empty message ring. *)
Theorem kp_run_user_correct :
  Z.of_nat (length l) < KT_ARCH_THREAD_CP0_STACK_SIZE ->
  exists kp t s', kp_run_user first_time_entry kernel_thread_fate_entry fuel ev s ke text = Ret (kp, s') /\ kp <> 0 /\
    running_process s s' kp ke t base (ALIGN sz PAGE_SIZE) segs (user_context first_time_entry ev (entry k) (entry k)).
Proof.
  intros Hlen. destruct (run_user_spec first_time_entry kernel_thread_fate_entry fuel ev s ke k o base sz segs text l) as (kp & t & s' & E1 & H1 & H2 & _); try done.
  by exists kp, t, s'.
Qed.

(** C29: what [process_startup] hands to the first thread of a new process is
    the command line the process was created with, if it has fewer than 512
    bytes. *)
Theorem startup_roundtrip :
  Z.of_nat (length l) < SYSREQ_PROCESS_STARTUP_MAX_SIZE ->
  exists kp t s' buf, kp_run_user first_time_entry kernel_thread_fate_entry fuel ev s ke text = Ret (kp, s') /\ kp <> 0 /\
    (exists th, threads (mkern (world s')) !! t = Some th /\ Sched.process th = kp) /\ startup_cmdline s' t = Ret buf /\ cstr buf l.
Proof.
  unfold SYSREQ_PROCESS_STARTUP_MAX_SIZE. intros Hlen. destruct (rr_pages _ _ _ _ _ _ _ _ Hready) as (_ & Hw & _ & Hb). unfold KT_ARCH_THREAD_CP0_STACK_SIZE, PAGE_SIZE in Hb.
  destruct (run_user_spec first_time_entry kernel_thread_fate_entry fuel ev s ke k o base sz segs text l) as (kp & t & s' & E1 & H1 & Hrun & Hsk); try done.
  { unfold KT_ARCH_THREAD_CP0_STACK_SIZE, PAGE_SIZE. lia. }
  destruct Hrun as [_ _ (p & ks & kex & kst & r & a & subs & _ & _ & _ & _ & _ & _ & _ & _ & _ & _ & Hst) _].
  destruct (sd_thread _ _ _ _ _ _ Hst) as (th & Hth & _ & Hpr). exists kp, t, s', (take 512 (l ++ 0 :: drop (S (length l)) (e_bytes ev))).
  split; [done|]. split; [done|]. split; [exists th; rewrite Hth; split; [apply lookup_insert_eq|done]|]. split.
  - eapply startup_spec; try done. rewrite length_app. cbn [length]. rewrite length_drop. lia.
  - destruct Htext as [H0 _]. split; [done|]. rewrite take_app_ge by lia. replace (512 - length l)%nat with (S (511 - length l)) by lia. cbn [take]. by eexists.
Qed.

(** A longer command line is cut, and no terminator is copied. *)
Theorem startup_cuts :
  SYSREQ_PROCESS_STARTUP_MAX_SIZE <= Z.of_nat (length l) < KT_ARCH_THREAD_CP0_STACK_SIZE ->
  exists kp t s' buf, kp_run_user first_time_entry kernel_thread_fate_entry fuel ev s ke text = Ret (kp, s') /\
    startup_cmdline s' t = Ret buf /\ buf = take 512 l /\ 0 ∉ buf.
Proof.
  unfold SYSREQ_PROCESS_STARTUP_MAX_SIZE. intros Hlen. destruct (rr_pages _ _ _ _ _ _ _ _ Hready) as (_ & Hw & _ & Hb). unfold KT_ARCH_THREAD_CP0_STACK_SIZE, PAGE_SIZE in Hb.
  destruct (run_user_spec first_time_entry kernel_thread_fate_entry fuel ev s ke k o base sz segs text l) as (kp & t & s' & E1 & H1 & Hrun & Hsk); try done; [lia|].
  destruct Hrun as [_ _ (p & ks & kex & kst & r & a & subs & _ & _ & _ & _ & _ & _ & _ & _ & _ & _ & Hst) _].
  exists kp, t, s', (take 512 l). split; [done|]. split; [|split; [done|]].
  - etransitivity; [eapply startup_spec; try done; rewrite length_app; lia|]. f_equal. apply take_app_le. lia.
  - destruct Htext as [H0 _]. intros Hin. apply H0. by eapply subseteq_take.
Qed.
End Claims.

(** ** Examples *)

#[local] Existing Instance image_elf.

Lemma no_threads_wf : sched_wf (Kernel (init_a_cpu 0) ∅).
Proof.
  assert (forall p q, word_at (run_queue (init_a_cpu 0)) p = Some q -> q = []) as Hq.
  { intros p q. unfold word_at. cbn [run_queue init_a_cpu]. case_if; [|done]. intros Hq%lookup_replicate_1. by destruct Hq. }
  constructor; cbn [cpu threads]; try done.
  - constructor; try done; [|by vm_compute; constructor]. intros p q ->%Hq. cbn. rewrite Z.testbit_0_l. done.
  - intros p q t Hp Ht. rewrite (Hq p q Hp) in Ht. by apply elem_of_nil in Ht.
Qed.

Lemma sample_free r : free_blocks 1 (sample_type_ref r) /\ free_names 1 (sample_type_ref r).
Proof.
  split; change 1%nat with (length [1]); (eapply free_in_single; [reflexivity|done|apply NoDup_singleton|]); by intros id ->%list_elem_of_singleton.
Qed.

(** The state of [Exe]'s example with an entry, no process and no thread. *)
Definition ex_exe : ko_exe image := Exe (fst ex_file) 0x500010 (0x500000, 0x3000, ex_segs).
Definition ex_sys : psys cl_object_type image :=
  PSys (XState (snd ex_file) (sample_type_ref 1) {[ 4116 := ex_exe ]} (sample_type_ref 1)) ∅ (sample_type_ref 1)
    (World (Kernel (init_a_cpu 0) ∅) ∅ ∅ ∅) ∅ ∅.
Definition ex_penv : penv obj_env := PEnv ex_env ex_env ex_env ex_env ex_env 0x90000000 (replicate (Z.to_nat KT_ARCH_THREAD_CP0_STACK_SIZE) 0) (1, 2).

Lemma ex_run_ready : run_ready ex_penv ex_sys 4116 ex_exe (Obj 0 1) 0x500000 0x3000 ex_segs.
Proof.
  destruct ex_file_ok as (Hwf & Hst & _). destruct (sample_free 1) as [Hb Hn]. pose proof (sample_type_ref_wf 1) as Ht.
  constructor.
  - by apply st_wf_proc.
  - refine (pool_stock_le _ _ _ _ _ Hst). cbn. lia.
  - constructor; [|done|done|by intros w [? ?]]. exists [4192], [8320]. split; [done|]. cbn. lia.
  - constructor; [|done|done|by intros w [? ?]|apply no_threads_wf|done]. exists [4192], [8320]. split; [done|]. cbn. lia.
  - split; [done|]. split; [done|]. split; [done|]. cbn [ex_penv e_bytes]. by rewrite length_replicate.
  - reflexivity.
  - reflexivity.
  - done.
  - reflexivity.
  - intros i. cbn [private elf_read_segment image_elf snd ex_exe]. rewrite (proj2 (Z.ltb_ge _ 0)) by lia. by rewrite Nat2Z.id.
  - vm_compute. intuition congruence.
  - intros _. vm_compute. intuition congruence.
  - exact ex_image_ok.
Qed.

(** "dl" as a command line. *)
Lemma kp_run_user_witness : exists kp t s', kp_run_user 1 2 9 ex_penv ex_sys 4116 [100; 108; 0] = Ret (kp, s') /\ kp <> 0 /\
  running_process ex_sys s' kp 4116 t 0x500000 0x3000 ex_segs (user_context 1 ex_penv 0x500010 0x500010).
Proof.
  apply (kp_run_user_correct 1 2 9 ex_penv ex_sys 4116 ex_exe (Obj 0 1) 0x500000 0x3000 ex_segs [100; 108; 0] [100; 108]).
  - exact ex_run_ready.
  - discriminate.
  - discriminate.
  - cbn. lia.
  - split; [|by eexists]. intros [?|[?|?%elem_of_nil]%elem_of_cons]%elem_of_cons; done.
  - vm_compute. reflexivity.
Defined.

Lemma startup_witness : exists kp t s' buf, kp_run_user 1 2 9 ex_penv ex_sys 4116 [100; 108; 0] = Ret (kp, s') /\ kp <> 0 /\
  (exists th, threads (mkern (world s')) !! t = Some th /\ Sched.process th = kp) /\ startup_cmdline s' t = Ret buf /\ cstr buf [100; 108].
Proof.
  apply (startup_roundtrip 1 2 9 ex_penv ex_sys 4116 ex_exe (Obj 0 1) 0x500000 0x3000 ex_segs [100; 108; 0] [100; 108]).
  - exact ex_run_ready.
  - discriminate.
  - discriminate.
  - cbn. lia.
  - split; [|by eexists]. intros [?|[?|?%elem_of_nil]%elem_of_cons]%elem_of_cons; done.
  - vm_compute. reflexivity.
Defined.

(** *** Where the code does not do what it means to *)

(** The result of the allocation of the kernel stack is not looked at: without
    pages a kernel thread is started on the stack below address 16384. *)
Theorem kernel_thread_null_stack {M E C} {OP : ObjectPool M E} {OS : ObjectStock M E} {EI : ElfImage C} fte fate (ev : penv E) (s : psys M C) system p ent par :
  procs s !! system = Some p -> cpl (vm p) = KP_CPL0 -> thread_ready ev s -> e_stack ev = 0 ->
  exists t s' d, kt_create_kernel fte fate ev s system ent par = Ret (t, s') /\ t <> 0 /\ t ∈ queued (cpu (mkern (world s'))) /\
    descs s' !! t = Some d /\ sp0 (arch d) = 16384.
Proof.
  intros Hp Hc Htr H0. unfold kt_create_kernel, kt_create. rewrite Hp. cbn [lift mbind run_bind]. rewrite Hc. change (KP_CPL0 =? KP_USER) with false. cbn iota.
  cbn [mbind run_bind]. unfold kernel_stack. cbn [stack0_size Z.eqb]. rewrite H0. cbn [Z.eqb]. unfold stack_para. cbn [ctx_flags].
  change (Z.land KT_CREATE_RUN KT_CREATE_STACK_AS_PARA =? 0) with true. cbn [mbind run_bind fate_entry Z.eqb andb para thread_entry].
  destruct (create_thread_spec fte ev s system 0 (Ctx 0 0 KT_ARCH_THREAD_CP0_STACK_SIZE fate ent KP_CPL0 par KT_CREATE_RUN)) as (t & s' & E1 & Ht & Hst & _); [done|done|].
  cbn [stack_pos]. rewrite E1. eexists t, s', _. split; [done|]. split; [done|]. split; [rewrite (sd_queue _ _ _ _ _ _ Hst); apply list_elem_of_here|].
  split; [apply (sd_desc _ _ _ _ _ _ Hst)|]. done.
Qed.
