(* ===== verification/Printf.v ===== *)
(** * Formatted output

    [source/libs/common/misc/vsprintf.c].  The output pointer [str] and [end]
    are addresses, 32-bit words that wrap around; the buffer is the bytes at an
    address, and [None] / [Fault] is a store outside it.  The length that is
    returned is an [int].  A format is the list of its bytes without the terminator.  The
    variable arguments are the words on the stack, a [long long] takes two.
    Strings and the formats of [%pV] are read through [env]; the stores of
    [%n] are the list of address and value.  The [int] counters of widths and
    precisions are not wrapped: their overflow is undefined in C. *)

From S2P Require Import Prelude CString.
Local Open Scope c_scope.
Import StringOps.

Definition ZEROPAD : Z := 1.
Definition SIGN : Z := 2.
Definition PLUS : Z := 4.
Definition SPACE : Z := 8.
Definition LEFT : Z := 16.
Definition SMALL : Z := 32.
Definition SPECIAL : Z := 64.

Inductive format_type :=
  | FORMAT_TYPE_NONE | FORMAT_TYPE_WIDTH | FORMAT_TYPE_PRECISION | FORMAT_TYPE_CHAR | FORMAT_TYPE_STR
  | FORMAT_TYPE_PTR | FORMAT_TYPE_PERCENT_CHAR | FORMAT_TYPE_INVALID | FORMAT_TYPE_LONG_LONG | FORMAT_TYPE_ULONG
  | FORMAT_TYPE_LONG | FORMAT_TYPE_UBYTE | FORMAT_TYPE_BYTE | FORMAT_TYPE_USHORT | FORMAT_TYPE_SHORT
  | FORMAT_TYPE_UINT | FORMAT_TYPE_INT | FORMAT_TYPE_NRCHARS | FORMAT_TYPE_SIZE_T.

Record printf_spec := Spec {
  type : format_type;
  flags : Z;
  field_width : Z;
  base : Z;
  precision : Z;
  qualifier : Z
}.

(** What the arguments point at. *)
Record env := Env {
  str_at : Z -> option (list Z);                  (* the bytes from an address on *)
  vaf_at : Z -> option (list Z * list Z)          (* [struct va_format]: format and arguments *)
}.

Module PrintfOps.

Definition TOLOWER (x : Z) : Z := Z.lor x 0x20.
Definition isdigit (c : Z) : bool := (48 <=? c) && (c <=? 57).
Definition isxdigit (c : Z) : bool :=
  ((48 <=? c) && (c <=? 57)) || ((97 <=? c) && (c <=? 102)) || ((65 <=? c) && (c <=? 70)).
Definition isalnum (c : Z) : bool :=
  ((48 <=? c) && (c <=? 57)) || ((97 <=? c) && (c <=? 122)) || ((65 <=? c) && (c <=? 90)).

Definition is_set (flags f : Z) : bool := negb (Z.land flags f =? 0).

Definition set_type (s : printf_spec) (t : format_type) : printf_spec :=
  Spec t (flags s) (field_width s) (base s) (precision s) (qualifier s).
Definition set_flags (s : printf_spec) (f : Z) : printf_spec :=
  Spec (type s) f (field_width s) (base s) (precision s) (qualifier s).
Definition set_width (s : printf_spec) (w : Z) : printf_spec :=
  Spec (type s) (flags s) w (base s) (precision s) (qualifier s).
Definition set_base (s : printf_spec) (b : Z) : printf_spec :=
  Spec (type s) (flags s) (field_width s) b (precision s) (qualifier s).
Definition set_precision (s : printf_spec) (p : Z) : printf_spec :=
  Spec (type s) (flags s) (field_width s) (base s) p (qualifier s).
Definition set_qualifier (s : printf_spec) (q : Z) : printf_spec :=
  Spec (type s) (flags s) (field_width s) (base s) (precision s) q.

(** ** Output *)

(** The bytes from an address on, and a store. *)
Record buffer := Buffer { b_addr : Z; b_bytes : list Z }.

Definition store (m : buffer) (p c : Z) : option buffer :=
  l ← word_set (b_bytes m) (p - b_addr m) c; Some (Buffer (b_addr m) l).

(** [str] and the buffer. *)
Definition out : Type := Z * buffer.

(** [if (buf < end) *buf = c; ++buf;] *)
Definition put (end_ : Z) (o : out) (c : Z) : run out :=
  let '(str, mem) := o in
  if str <? end_ then mem ← lift (store mem str c); Ret (str +w 1, mem) else Ret (str +w 1, mem).

(** [while (k <= --w) put c], with the value of [w] after it.  The loops of the source
    are [--w >= 0] (k is 0), [--w > 0] (k is 1), [i <= --w], and [len < w--],
    the same as [len <= --w]. *)
Fixpoint pad_loop (fuel : nat) (end_ k c w : Z) (o : out) : run (Z * out) :=
  match fuel with
  | O => NoFuel
  | S fuel =>
    let w := w - 1 in
    if k <=? w then o ← put end_ o c; pad_loop fuel end_ k c w o else Ret (w, o)
  end.

Definition pad (end_ k c w : Z) (o : out) : run (Z * out) := pad_loop (S (Z.to_nat (w - k))) end_ k c w o.

(** ["0123456789ABCDEF"[d]] *)
Definition hex_digit (d : Z) : Z := if d <? 10 then d + 48 else d + 55.

Fixpoint radix_loop (fuel : nat) (tmp : list Z) (i num mask shift locase : Z) : run (Z * list Z) :=
  match fuel with
  | O => NoFuel
  | S fuel =>
    tmp ← lift (word_set tmp i (Z.lor (hex_digit (Z.land (num mod 256) mask)) locase));
    let num := Z.shiftr num shift in
    if num =? 0 then Ret (i + 1, tmp) else radix_loop fuel tmp (i + 1) num mask shift locase
  end.

(** [h2d] takes an [unsigned long]. *)
Definition put_dec (buf : list Z) (num : Z) : run (Z * list Z) := h2d buf false (wrap num).

(** [while (--i >= 0) put tmp[i]] *)
Fixpoint back_loop (fuel : nat) (end_ : Z) (tmp : list Z) (i : Z) (o : out) : run out :=
  match fuel with
  | O => NoFuel
  | S fuel =>
    let i := i - 1 in
    if 0 <=? i then c ← lift (word_at tmp i); o ← put end_ o c; back_loop fuel end_ tmp i o else Ret o
  end.

(** The sign character, 0 for none, and the number without it. *)
Definition sign_of (num flags : Z) : Z * Z :=
  if is_set flags SIGN then
    if 2 ^ 63 <=? num then (45, (2 ^ 64 - num) mod 2 ^ 64) else
    if is_set flags PLUS then (43, num) else
    if is_set flags SPACE then (32, num) else (0, num)
  else (0, num).

Definition number (end_ : Z) (o : out) (num : Z) (spec : printf_spec) : run out :=
  let need_pfx := is_set (flags spec) SPECIAL && negb (base spec =? 10) in
  let locase := Z.land (flags spec) SMALL in
  let fl := if is_set (flags spec) LEFT then Z.land (flags spec) (w_not ZEROPAD) else flags spec in
  let '(sign, num) := sign_of num fl in
  let w := if sign =? 0 then field_width spec else field_width spec - 1 in
  let w := if need_pfx then (if base spec =? 16 then w - 1 - 1 else w - 1) else w in
  let tmp := replicate 66 0 in
  '(i, tmp) ← (if num =? 0 then tmp ← lift (word_set tmp 0 48); Ret (1, tmp)
               else if negb (base spec =? 10) then
                 radix_loop 66 tmp 0 num (base spec - 1) (if base spec =? 16 then 4 else 3) locase
               else put_dec tmp num);
  let prec := if precision spec <? i then i else precision spec in
  let w := w - prec in
  '(w, o) ← (if negb (is_set fl (ZEROPAD + LEFT)) then pad end_ 0 32 w o else Ret (w, o));
  o ← (if negb (sign =? 0) then put end_ o sign else Ret o);
  o ← (if need_pfx then
         o ← put end_ o 48;
         if base spec =? 16 then put end_ o (Z.lor 88 locase) else Ret o
       else Ret o);
  '(w, o) ← (if negb (is_set fl LEFT) then pad end_ 0 (if is_set fl ZEROPAD then 48 else 32) w o else Ret (w, o));
  '(_, o) ← pad end_ i 48 prec o;
  o ← back_loop (S (Z.to_nat i)) end_ tmp i o;
  '(_, o) ← pad end_ 0 32 w o;
  Ret o.

(** [for (i = 0; i < len; ++i) put *s++] *)
Fixpoint copy_loop (n : nat) (end_ : Z) (s : list Z) (o : out) : run out :=
  match n with
  | O => Ret o
  | S n => match s with [] => Fault | c :: s => o ← put end_ o c; copy_loop n end_ s o end
  end.

(** [string] on the bytes at [s]. *)
Definition string_bytes (end_ : Z) (o : out) (s : list Z) (spec : printf_spec) : run out :=
  len ← lift (strnlen s (wrap (precision spec)));
  '(w, o) ← (if negb (is_set (flags spec) LEFT) then pad end_ len 32 (field_width spec) o
             else Ret (field_width spec, o));
  o ← copy_loop (Z.to_nat len) end_ s o;
  '(_, o) ← pad end_ len 32 w o;
  Ret o.

(** ["(force null)"] and ["(null)"] *)
Definition force_null : list Z := [40; 102; 111; 114; 99; 101; 32; 110; 117; 108; 108; 41; 0].
Definition null_text : list Z := [40; 110; 117; 108; 108; 41; 0].

Definition string (e : env) (end_ : Z) (o : out) (s : Z) (spec : printf_spec) : run out :=
  if s <? 0x10000 then string_bytes end_ o force_null spec
  else l ← lift (str_at e s); string_bytes end_ o l spec.

(** [*fmt], the terminator behind the last byte. *)
Definition peek (fmt : list Z) : Z := match fmt with [] => 0 | c :: _ => c end.

(** [rec str] is [vsnprintf] on the bytes from [str] on, with the stores of
    [%n] in its result.  The literal [null_text] is above 0x10000. *)
Definition pointer (rec : Z -> list Z -> Z -> list Z -> list Z -> run (Z * list Z * list (Z * Z)))
    (e : env) (fmt : list Z) (end_ : Z) (o : out) (ptr : Z) (spec : printf_spec)
    : run (out * list (Z * Z)) :=
  if (ptr =? 0) && negb (peek fmt =? 75) then o ← string_bytes end_ o null_text spec; Ret (o, []) else
  if peek fmt =? 86 then
    '(f, args) ← lift (vaf_at e ptr);
    let '(str, mem) := o in
    let i := Z.to_nat (str - b_addr mem) in
    '(n, tail, nr) ← rec str (drop i (b_bytes mem)) (wrap (end_ - str)) f args;
    Ret ((str +w n, Buffer (b_addr mem) (take i (b_bytes mem) ++ tail)), nr)
  else
    let spec := set_flags spec (Z.lor (flags spec) SMALL) in
    let spec := if field_width spec =? -1
                then set_flags (set_width spec 8) (Z.lor (flags spec) ZEROPAD) else spec in
    o ← number end_ o ptr (set_base spec 16); Ret (o, []).

(** ** The format *)

(** The parsers return the rest of the format and the specification. *)
Fixpoint skip_atoi (i : Z) (s : list Z) : Z * list Z :=
  match s with
  | c :: s' => if isdigit c then skip_atoi (to_int (i * 10 + c - 48)) s' else (i, s)
  | [] => (i, s)
  end.

Definition flag_of (c : Z) : option Z :=
  if c =? 45 then Some LEFT else if c =? 43 then Some PLUS else if c =? 32 then Some SPACE else
  if c =? 35 then Some SPECIAL else if c =? 48 then Some ZEROPAD else None.

Fixpoint flag_loop (fl : Z) (fmt : list Z) : Z * list Z :=
  match fmt with
  | c :: fmt' => match flag_of c with Some f => flag_loop (Z.lor fl f) fmt' | None => (fl, fmt) end
  | [] => (fl, fmt)
  end.

(** The type of a number, by the qualifier and the sign. *)
Definition number_type (q fl : Z) : format_type :=
  if q =? 76 then FORMAT_TYPE_LONG_LONG else
  if q =? 108 then (if is_set fl SIGN then FORMAT_TYPE_LONG else FORMAT_TYPE_ULONG) else
  if (q =? 90) || (q =? 122) then FORMAT_TYPE_SIZE_T else
  if q =? 72 then (if is_set fl SIGN then FORMAT_TYPE_BYTE else FORMAT_TYPE_UBYTE) else
  if q =? 104 then (if is_set fl SIGN then FORMAT_TYPE_SHORT else FORMAT_TYPE_USHORT) else
  (if is_set fl SIGN then FORMAT_TYPE_INT else FORMAT_TYPE_UINT).

Definition decode_conversion (spec : printf_spec) (fmt : list Z) : list Z * printf_spec :=
  let spec := set_base spec 10 in
  let num b f := let spec := set_base (set_flags spec f) b in
                 (tail fmt, set_type spec (number_type (qualifier spec) (flags spec))) in
  let c := peek fmt in
  if c =? 99 then (tail fmt, set_type spec FORMAT_TYPE_CHAR) else
  if c =? 115 then (tail fmt, set_type spec FORMAT_TYPE_STR) else
  if c =? 112 then (fmt, set_type spec FORMAT_TYPE_PTR) else
  if c =? 110 then (tail fmt, set_type spec FORMAT_TYPE_NRCHARS) else
  if c =? 37 then (tail fmt, set_type spec FORMAT_TYPE_PERCENT_CHAR) else
  if c =? 111 then num 8 (flags spec) else
  if c =? 120 then num 16 (Z.lor (flags spec) SMALL) else
  if c =? 88 then num 16 (flags spec) else
  if (c =? 100) || (c =? 105) then num 10 (Z.lor (flags spec) SIGN) else
  if c =? 117 then num 10 (flags spec) else
  (fmt, set_type spec FORMAT_TYPE_INVALID).

Definition is_qualifier (c : Z) : bool :=
  (c =? 104) || (c =? 108) || (c =? 76) || (c =? 90) || (c =? 122) || (c =? 116).

Definition decode_qualifier (spec : printf_spec) (fmt : list Z) : list Z * printf_spec :=
  if is_qualifier (peek fmt) then
    let q := peek fmt in
    let fmt := tail fmt in
    if q =? peek fmt then
      if q =? 108 then decode_conversion (set_qualifier spec 76) (tail fmt) else
      if q =? 104 then decode_conversion (set_qualifier spec 72) (tail fmt) else
      decode_conversion (set_qualifier spec q) fmt
    else decode_conversion (set_qualifier spec q) fmt
  else decode_conversion (set_qualifier spec (-1)) fmt.

Definition decode_precision (spec : printf_spec) (fmt : list Z) : list Z * printf_spec :=
  let spec := set_precision spec (-1) in
  if peek fmt =? 46 then
    let fmt := tail fmt in
    if isdigit (peek fmt) then
      let '(p, fmt) := skip_atoi 0 fmt in
      decode_qualifier (set_precision spec (if p <? 0 then 0 else p)) fmt
    else if peek fmt =? 42 then (tail fmt, set_type spec FORMAT_TYPE_PRECISION)
    else decode_qualifier spec fmt
  else decode_qualifier spec fmt.

(** The bytes before the first [%]. *)
Fixpoint literal (fmt : list Z) : nat :=
  match fmt with c :: fmt => if c =? 37 then O else S (literal fmt) | [] => O end.

Definition format_decode (fmt : list Z) (spec : printf_spec) : list Z * printf_spec :=
  match type spec with
  | FORMAT_TYPE_WIDTH =>
    let spec := if field_width spec <? 0
                then set_flags (set_width spec (- field_width spec)) (Z.lor (flags spec) LEFT) else spec in
    decode_precision (set_type spec FORMAT_TYPE_NONE) fmt
  | FORMAT_TYPE_PRECISION =>
    let spec := if precision spec <? 0 then set_precision spec 0 else spec in
    decode_qualifier (set_type spec FORMAT_TYPE_NONE) fmt
  | _ =>
    let spec := set_type spec FORMAT_TYPE_NONE in
    let n := literal fmt in
    if negb (Nat.eqb n 0) || (peek (drop n fmt) =? 0) then (drop n fmt, spec) else
    let '(fl, fmt) := flag_loop 0 (tail fmt) in
    let spec := set_width (set_flags spec fl) (-1) in
    if isdigit (peek fmt) then
      let '(w, fmt) := skip_atoi 0 fmt in decode_precision (set_width spec w) fmt
    else if peek fmt =? 42 then (tail fmt, set_type spec FORMAT_TYPE_WIDTH)
    else decode_precision spec fmt
  end.

(** ** The main loop *)

(** [va_arg] of a type of one word. *)
Definition va_word (args : list Z) : run (Z * list Z) :=
  match args with a :: args => Ret (a, args) | [] => Fault end.

(** The number for a conversion, as an [unsigned long long]. *)
Definition u64 (z : Z) : Z := z mod 2 ^ 64.
Definition va_num (t : format_type) (args : list Z) : run (Z * list Z) :=
  '(a, args) ← va_word args;
  match t with
  | FORMAT_TYPE_LONG_LONG => '(b, args) ← va_word args; Ret (a + 2 ^ 32 * b, args)
  | FORMAT_TYPE_ULONG | FORMAT_TYPE_SIZE_T => Ret (a, args)
  | FORMAT_TYPE_LONG | FORMAT_TYPE_INT => Ret (u64 (to_int a), args)
  | FORMAT_TYPE_UBYTE => Ret (a mod 256, args)
  | FORMAT_TYPE_BYTE => Ret (u64 (if a mod 256 <? 128 then a mod 256 else a mod 256 - 256), args)
  | FORMAT_TYPE_USHORT => Ret (a mod 65536, args)
  | FORMAT_TYPE_SHORT => Ret (u64 (if a mod 65536 <? 32768 then a mod 65536 else a mod 65536 - 65536), args)
  | _ => Ret (a, args)
  end.

Fixpoint skip_alnum (fmt : list Z) : list Z :=
  match fmt with c :: fmt' => if isalnum c then skip_alnum fmt' else fmt | [] => [] end.

Definition put_char (end_ : Z) (o : out) (spec : printf_spec) (c : Z) : run out :=
  '(w, o) ← (if negb (is_set (flags spec) LEFT) then pad end_ 1 32 (field_width spec) o
             else Ret (field_width spec, o));
  o ← put end_ o c;
  '(_, o) ← pad end_ 1 32 w o;
  Ret o.

(** [memcpy] of the literal text, cut at [end]. *)
Definition put_literal (end_ : Z) (o : out) (text : list Z) : run out :=
  let '(str, mem) := o in
  let read := Z.of_nat (length text) in
  mem ← (if str <? end_ then
           let copy := if end_ - str <? read then end_ - str else read in
           let i := str - b_addr mem in
           let l := b_bytes mem in
           if (i <? 0) || (Z.of_nat (length l) <? i + copy) then Fault
           else Ret (Buffer (b_addr mem)
                       (take (Z.to_nat i) l ++ take (Z.to_nat copy) text ++ drop (Z.to_nat (i + copy)) l))
         else Ret mem);
  Ret (str +w read, mem).

Record vstate := VState { v_out : out; v_spec : printf_spec; v_args : list Z; v_nr : list (Z * Z) }.

(** One round: [old] is the format before [format_decode], [fmt] the rest. *)
Definition directive (rec : Z -> list Z -> Z -> list Z -> list Z -> run (Z * list Z * list (Z * Z)))
    (e : env) (end_ : Z) (old fmt : list Z) (spec : printf_spec) (s : vstate) : run (list Z * vstate) :=
  let o := v_out s in
  let with_out o args := VState o spec args (v_nr s) in
  match type spec with
  | FORMAT_TYPE_NONE =>
    o ← put_literal end_ o (take (length old - length fmt) old); Ret (fmt, with_out o (v_args s))
  | FORMAT_TYPE_WIDTH =>
    '(a, args) ← va_word (v_args s); Ret (fmt, VState o (set_width spec (to_int a)) args (v_nr s))
  | FORMAT_TYPE_PRECISION =>
    '(a, args) ← va_word (v_args s); Ret (fmt, VState o (set_precision spec (to_int a)) args (v_nr s))
  | FORMAT_TYPE_CHAR =>
    '(a, args) ← va_word (v_args s); o ← put_char end_ o spec (a mod 256); Ret (fmt, with_out o args)
  | FORMAT_TYPE_STR =>
    '(a, args) ← va_word (v_args s); o ← string e end_ o a spec; Ret (fmt, with_out o args)
  | FORMAT_TYPE_PTR =>
    '(a, args) ← va_word (v_args s);
    '(o, nr) ← pointer rec e (tail fmt) end_ o a spec;
    Ret (skip_alnum fmt, VState o spec args (v_nr s ++ nr))
  | FORMAT_TYPE_PERCENT_CHAR | FORMAT_TYPE_INVALID =>
    o ← put end_ o 37; Ret (fmt, with_out o (v_args s))
  | FORMAT_TYPE_NRCHARS =>
    '(a, args) ← va_word (v_args s); Ret (fmt, VState o spec args (v_nr s ++ [(a, to_int (fst o - b_addr (snd o)))]))
  | _ =>
    '(num, args) ← va_num (type spec) (v_args s); o ← number end_ o num spec; Ret (fmt, with_out o args)
  end.

Fixpoint vsn_loop (rec : Z -> list Z -> Z -> list Z -> list Z -> run (Z * list Z * list (Z * Z)))
    (fuel : nat) (e : env) (end_ : Z) (fmt : list Z) (s : vstate) : run vstate :=
  match fmt with
  | [] => Ret s
  | _ =>
    match fuel with
    | O => NoFuel
    | S fuel =>
      let '(rest, spec) := format_decode fmt (v_spec s) in
      '(rest, s) ← directive rec e end_ fmt rest spec s;
      vsn_loop rec fuel e end_ rest s
    end
  end.

(** [depth] bounds the nesting of [%pV]; [buf] is the address of [mem].  Every
    second round consumes a byte of the format. *)
Fixpoint vsnprintf (depth : nat) (e : env) (buf : Z) (mem : list Z) (size : Z) (fmt args : list Z)
    : run (Z * list Z * list (Z * Z)) :=
  match depth with
  | O => NoFuel
  | S depth =>
    if to_int size <? 0 then Ret (0, mem, []) else
    let end_ := buf +w size in
    let '(end_, size) := if end_ <? buf then (0xffffffff, 0xffffffff - buf) else (end_, size) in
    s ← vsn_loop (vsnprintf depth e) (S (2 * length fmt)) e end_ fmt
          (VState (buf, Buffer buf mem) (Spec FORMAT_TYPE_NONE 0 0 0 0 0) args []);
    let '(str, mem) := v_out s in
    mem ← (if 0 <? size then
             if str <? end_ then lift (store mem str 0) else lift (store mem (end_ -w 1) 0)
           else Ret mem);
    Ret (to_int (str - buf), b_bytes mem, v_nr s)
  end.

Definition INT_MAX : Z := 2147483647.

(** [sprintf] and [snprintf] are [vsprintf] and [vsnprintf] of their
    arguments. *)
Definition vsprintf (depth : nat) (e : env) (buf : Z) (mem fmt args : list Z) := vsnprintf depth e buf mem INT_MAX fmt args.

(** [i < size] compares as [size_t]. *)
Definition vscnprintf (depth : nat) (e : env) (buf : Z) (mem : list Z) (size : Z) (fmt args : list Z)
    : run (Z * list Z * list (Z * Z)) :=
  '(i, mem, nr) ← vsnprintf depth e buf mem size fmt args;
  if wrap i <? size then Ret (i, mem, nr) else
  if negb (size =? 0) then Ret (size - 1, mem, nr) else Ret (0, mem, nr).

(** ** Numbers from text *)

Definition char_at (cp : list Z) (i : nat) : option Z := cp !! i.

Definition simple_guess_base (cp : list Z) : option Z :=
  c0 ← char_at cp 0;
  if c0 =? 48 then
    c1 ← char_at cp 1;
    if TOLOWER c1 =? 120 then c2 ← char_at cp 2; Some (if isxdigit c2 then 16 else 8) else Some 8
  else Some 10.

(** The loop over the digits; [m] is the modulus of the result's type. *)
Fixpoint strto_loop (m base result : Z) (cp : list Z) : option (Z * list Z) :=
  match cp with
  | [] => None
  | c :: cp' =>
    if isxdigit c then
      let v := if isdigit c then c - 48 else TOLOWER c - 97 + 10 in
      if base <=? v then Some (result, cp) else strto_loop m base ((result * base + v) mod m) cp'
    else Some (result, cp)
  end.

Definition strto (m : Z) (cp : list Z) (base : Z) : option (Z * list Z) :=
  base ← (if base =? 0 then simple_guess_base cp else Some base);
  cp ← (if base =? 16 then
          c0 ← char_at cp 0;
          if c0 =? 48 then c1 ← char_at cp 1; Some (if TOLOWER c1 =? 120 then drop 2 cp else cp) else Some cp
        else Some cp);
  strto_loop m base 0 cp.

(** The second result is [*endp]. *)
Definition simple_strtoul (cp : list Z) (base : Z) : option (Z * list Z) := strto (2 ^ 32) cp base.
Definition simple_strtoull (cp : list Z) (base : Z) : option (Z * list Z) := strto (2 ^ 64) cp base.

End PrintfOps.
Import PrintfOps.

(** ** What is written

    [render end mem0 text]: the output pointer and the buffer after the
    characters [text] were put into [mem0], those before [end]. *)

Definition shown (end_ : Z) (mem0 : buffer) (text : list Z) : nat :=
  Z.to_nat (Z.min (end_ - b_addr mem0) (Z.of_nat (length text))).
Definition render (end_ : Z) (mem0 : buffer) (text : list Z) : out :=
  (b_addr mem0 + Z.of_nat (length text),
   Buffer (b_addr mem0) (take (shown end_ mem0 text) text ++ drop (shown end_ mem0 text) (b_bytes mem0))).

(** The characters before [end] have room in the buffer, and the output
    pointer and the number of characters stay within their types. *)
Definition fits (end_ : Z) (mem0 : buffer) (text : list Z) : Prop :=
  (shown end_ mem0 text <= length (b_bytes mem0))%nat /\ 0 <= b_addr mem0 /\
  is_word (b_addr mem0 + Z.of_nat (length text)) /\ Z.of_nat (length text) < 2147483648.

Lemma fits_app end_ mem0 a b : fits end_ mem0 (a ++ b) -> fits end_ mem0 a.
Proof. unfold fits, shown, is_word. rewrite length_app. lia. Qed.

Lemma render_nil end_ mem0 : render end_ mem0 [] = (b_addr mem0, mem0).
Proof.
  unfold render, shown. cbn [length]. replace (Z.to_nat (Z.min _ (Z.of_nat 0))) with O by lia.
  rewrite Z.add_0_r. by destruct mem0.
Qed.

Section Output.
Context (end_ : Z) (mem0 : buffer).
Notation render := (render end_ mem0).
Notation fits := (fits end_ mem0).

Lemma store_middle (a : Z) (x y : list Z) c d :
  store (Buffer a (x ++ c :: y)) (a + Z.of_nat (length x)) d = Some (Buffer a (x ++ d :: y)).
Proof.
  unfold store. cbn [b_addr b_bytes]. replace (a + Z.of_nat (length x) - a) with (Z.of_nat (length x)) by lia.
  by rewrite word_set_middle.
Qed.

Lemma put_render text c : fits (text ++ [c]) -> put end_ (render text) c = Ret (render (text ++ [c])).
Proof.
  unfold Printf.fits, Printf.render, put, shown, is_word. rewrite length_app. cbn [length]. intros (Hf & Hb & Hw & _).
  set (b0 := b_addr mem0) in *. set (l0 := b_bytes mem0) in *. rewrite wrap_small by (unfold is_word; lia).
  replace (b0 + Z.of_nat (length text) + 1) with (b0 + Z.of_nat (length text + 1)) by lia.
  destruct (Z.ltb_spec (b0 + Z.of_nat (length text)) end_) as [Hlt|Hge].
  - replace (Z.to_nat (Z.min (end_ - b0) (Z.of_nat (length text)))) with (length text) by lia.
    replace (Z.to_nat (Z.min (end_ - b0) (Z.of_nat (length text + 1)))) with (S (length text)) in * by lia.
    rewrite firstn_all. destruct (lookup_lt_is_Some_2 l0 (length text)) as [x Hx]; [lia|].
    rewrite (drop_S _ _ _ Hx), store_middle. cbn [lift mbind run_bind].
    rewrite take_ge by (rewrite length_app; cbn; lia). by rewrite <- app_assoc.
  - replace (Z.min (end_ - b0) (Z.of_nat (length text + 1))) with (end_ - b0) by lia. rewrite Z.min_l by lia.
    by rewrite take_app_le by lia.
Qed.

Lemma pad_loop_S fuel k c w o :
  pad_loop (S fuel) end_ k c w o =
    if k <=? w - 1 then o ← put end_ o c; pad_loop fuel end_ k c (w - 1) o else Ret (w - 1, o).
Proof. done. Qed.

Lemma pad_render k c w text :
  let n := Z.to_nat (w - k) in
  fits (text ++ replicate n c) ->
  pad end_ k c w (render text) = Ret (Z.min (w - 1) (k - 1), render (text ++ replicate n c)).
Proof.
  cbn zeta. unfold pad. remember (Z.to_nat (w - k)) as n eqn:En. revert w text En.
  induction n as [|n IH]; intros w text En Hf; rewrite pad_loop_S.
  - rewrite (proj2 (Z.leb_gt k (w - 1))) by lia. cbn [replicate]. rewrite app_nil_r. do 2 f_equal. lia.
  - rewrite (proj2 (Z.leb_le k (w - 1))) by lia. cbn [replicate] in Hf |- *.
    change (c :: replicate n c) with ([c] ++ replicate n c) in *. rewrite app_assoc in *.
    rewrite put_render by (by eapply fits_app). cbn [mbind run_bind]. rewrite IH by (done || lia).
    do 2 f_equal. lia.
Qed.

Lemma copy_render n s text :
  (n <= length s)%nat -> fits (text ++ take n s) -> copy_loop n end_ s (render text) = Ret (render (text ++ take n s)).
Proof.
  revert s text. induction n as [|n IH]; intros s text Hn Hf; cbn [copy_loop].
  - cbn [take]. by rewrite app_nil_r.
  - destruct s as [|c s]; cbn [length] in Hn; [lia|]. cbn [take] in *. change (c :: take n s) with ([c] ++ take n s) in *.
    rewrite app_assoc in *. rewrite put_render by (by eapply fits_app). cbn [mbind run_bind]. apply IH; [lia|done].
Qed.

Lemma back_render tmp i text :
  0 <= i <= Z.of_nat (length tmp) -> fits (text ++ reverse (take (Z.to_nat i) tmp)) ->
  back_loop (S (Z.to_nat i)) end_ tmp i (render text) = Ret (render (text ++ reverse (take (Z.to_nat i) tmp))).
Proof.
  remember (Z.to_nat i) as n eqn:En. revert i text En. induction n as [|n IH]; intros i text En Hi Hf.
  - cbn. rewrite (proj2 (Z.leb_gt 0 (i - 1))) by lia. by rewrite app_nil_r.
  - change (back_loop (S (S n)) end_ tmp i (render text)) with
      (let i := i - 1 in if 0 <=? i then c ← lift (word_at tmp i); o ← put end_ (render text) c; back_loop (S n) end_ tmp i o
       else Ret (render text)). cbn zeta. rewrite (proj2 (Z.leb_le 0 (i - 1))) by lia.
    unfold word_at. rewrite (proj2 (Z.leb_le 0 (i - 1))) by lia. replace (Z.to_nat (i - 1)) with n by lia.
    destruct (lookup_lt_is_Some_2 tmp n) as [c Hc]; [lia|]. rewrite Hc. cbn [lift mbind run_bind].
    rewrite (take_S_r _ _ _ Hc), reverse_snoc in *. change (c :: reverse (take n tmp)) with ([c] ++ reverse (take n tmp)) in *.
    rewrite app_assoc in *. rewrite put_render by (by eapply fits_app). cbn [mbind run_bind].
    apply IH; [lia|lia|done].
Qed.

Lemma literal_render l text :
  b_addr mem0 <= end_ -> fits (text ++ l) -> put_literal end_ (render text) l = Ret (render (text ++ l)).
Proof.
  intros He. unfold Printf.fits, Printf.render, put_literal, shown, is_word. rewrite length_app. intros (Hf & Hb & Hw & _).
  cbn [b_addr b_bytes]. set (b0 := b_addr mem0) in *. set (l0 := b_bytes mem0) in *. rewrite wrap_small by (unfold is_word; lia).
  replace (b0 + Z.of_nat (length text) + Z.of_nat (length l)) with (b0 + Z.of_nat (length text + length l)) by lia.
  destruct (Z.ltb_spec (b0 + Z.of_nat (length text)) end_) as [Hlt|Hge]; cbn [mbind run_bind].
  - rewrite (Z.min_r (end_ - b0) (Z.of_nat (length text))) by lia.
    replace (b0 + Z.of_nat (length text) - b0) with (Z.of_nat (length text)) by lia. rewrite !Nat2Z.id, firstn_all.
    set (k := if end_ - _ <? Z.of_nat (length l) then _ else _).
    assert (0 <= k <= Z.of_nat (length l) /\ Z.of_nat (length text) + k = Z.min (end_ - b0) (Z.of_nat (length text + length l))) as [Hk Ek].
    { unfold k. case_if; lia. }
    rewrite length_app, length_drop, (proj2 (Z.ltb_ge (Z.of_nat (length text)) 0)), (proj2 (Z.ltb_ge _ (Z.of_nat (length text) + k))) by lia.
    cbn [orb mbind run_bind].
    rewrite Ek, take_app_length. rewrite drop_app_ge by lia. rewrite drop_drop.
    rewrite (take_app_ge text l) by lia. rewrite <- !app_assoc. do 4 f_equal. f_equal; f_equal; lia.
  - replace (Z.min (end_ - b0) (Z.of_nat (length text + length l))) with (end_ - b0) by lia. rewrite Z.min_l by lia.
    by rewrite take_app_le by lia.
Qed.

End Output.

(** ** The text of the directives *)

(** The digits of a number as [number] makes them, the lowest first.  Decimal
    digits are those of the low 32 bits. *)
Definition number_digits (base locase num : Z) : list Z :=
  if num =? 0 then [48] else
  if base =? 10 then map to_digit (digits 10 10 (wrap num))
  else map (fun d => Z.lor (hex_digit d) locase) (digits 66 base num).

(** The field: sign and prefix, the digits filled up with zeros to the
    precision, and the fill to the width on the left, between, or on the right. *)
Definition number_text (num : Z) (spec : printf_spec) : list Z :=
  let locase := Z.land (flags spec) SMALL in
  let '(sign, num) := sign_of num (flags spec) in
  let prefix := (if sign =? 0 then [] else [sign]) ++
    (if is_set (flags spec) SPECIAL && negb (base spec =? 10)
     then 48 :: (if base spec =? 16 then [Z.lor 88 locase] else []) else []) in
  let ds := number_digits (base spec) locase num in
  let body := replicate (Z.to_nat (precision spec - Z.of_nat (length ds))) 48 ++ reverse ds in
  let fill := Z.to_nat (field_width spec - Z.of_nat (length prefix) - Z.of_nat (length body)) in
  if is_set (flags spec) LEFT then prefix ++ body ++ replicate fill 32 else
  if is_set (flags spec) ZEROPAD then prefix ++ replicate fill 48 ++ body
  else replicate fill 32 ++ prefix ++ body.

Definition text_field (text : list Z) (spec : printf_spec) : list Z :=
  let fill := Z.to_nat (field_width spec - Z.of_nat (length text)) in
  if is_set (flags spec) LEFT then text ++ replicate fill 32 else replicate fill 32 ++ text.

Lemma radix_loop_spec fuel pre rest num shift locase :
  1 <= shift <= 8 -> 0 <= num < (2 ^ shift) ^ Z.of_nat (S fuel) ->
  (length (digits (S fuel) (2 ^ shift) num) <= length rest)%nat ->
  radix_loop (S fuel) (pre ++ rest) (Z.of_nat (length pre)) num (2 ^ shift - 1) shift locase =
    Ret (Z.of_nat (length pre + length (digits (S fuel) (2 ^ shift) num)),
         pre ++ map (fun d => Z.lor (hex_digit d) locase) (digits (S fuel) (2 ^ shift) num) ++
         drop (length (digits (S fuel) (2 ^ shift) num)) rest).
Proof.
  intros Hs. assert (2 <= 2 ^ shift <= 256) as Hb.
  { split; [change 2 with (2 ^ 1) at 1|change 256 with (2 ^ 8)]; apply Z.pow_le_mono_r; lia. }
  assert (forall n, Z.land (n mod 256) (2 ^ shift - 1) = n mod 2 ^ shift) as Hmod.
  { intros n. rewrite Z.sub_1_r, <- Z.ones_equiv, Z.land_ones by lia. apply Z.mod_mod_divide.
    exists (2 ^ (8 - shift)). rewrite <- Z.pow_add_r by lia. by replace (8 - shift + shift) with 8 by lia. }
  set (B := 2 ^ shift) in *. assert (forall f p r n, radix_loop (S f) (p ++ r) (Z.of_nat (length p)) n (B - 1) shift locase =
    match r with
    | [] => Fault
    | _ :: r => let p' := p ++ [Z.lor (hex_digit (n mod B)) locase] in
      if n / B =? 0 then Ret (Z.of_nat (length p'), p' ++ r)
      else radix_loop f (p' ++ r) (Z.of_nat (length p')) (n / B) (B - 1) shift locase
    end) as Hstep.
  { intros f p [|x r] n; cbn [radix_loop].
    - rewrite app_nil_r. unfold word_set. rewrite (proj2 (Z.ltb_ge (Z.of_nat (length p)) _)), andb_false_r by lia. done.
    - rewrite word_set_middle. cbn [lift mbind run_bind]. rewrite Hmod, Z.shiftr_div_pow2 by lia. fold B. cbn zeta.
      rewrite length_app, <- app_assoc. cbn [length app]. by replace (Z.of_nat (length p + 1)) with (Z.of_nat (length p) + 1) by lia. }
  revert pre rest num. induction fuel as [|fuel IH]; intros pre rest num Hn Hr; rewrite Hstep;
    (destruct rest as [|x rest]; [exfalso; eapply digits_nonempty, nil_length_inv; cbn [length] in Hr; apply Nat.le_0_r, Hr|]); cbn zeta.
  - change (Z.of_nat 1) with 1 in Hn. rewrite Z.pow_1_r in Hn. cbn [digits].
    rewrite Z.div_small, Z.mod_small, (proj2 (Z.ltb_lt num B)) by lia. cbn [Z.eqb map length drop app].
    by rewrite length_app, <- app_assoc.
  - change (digits (S (S fuel)) B num) with (if num <? B then [num] else num mod B :: digits (S fuel) B (num / B)) in *.
    destruct (Z.ltb_spec num B) as [Hlt|Hge].
    + rewrite Z.div_small, Z.mod_small by lia. cbn [Z.eqb map length drop app]. by rewrite length_app, <- app_assoc.
    + assert (1 <= num / B) by (apply Z.div_le_lower_bound; lia).
      rewrite (proj2 (Z.eqb_neq (num / B) 0)) by lia. rewrite IH; [|apply pow_S_div; lia|cbn in Hr |- *; lia].
      rewrite length_app, <- !app_assoc. cbn [length map drop app]. do 3 f_equal. lia.
Qed.

(** ** Flags *)

Lemma is_set_bit f k : 0 <= k -> is_set f (2 ^ k) = Z.testbit f k.
Proof.
  intros Hk. unfold is_set. destruct (Z.testbit f k) eqn:E.
  - apply negb_true_iff, Z.eqb_neq. intros H0. apply (f_equal (fun z => Z.testbit z k)) in H0.
    by rewrite Z.land_spec, E, Z.pow2_bits_true, Z.bits_0 in H0.
  - apply negb_false_iff, Z.eqb_eq, Z.bits_inj'. intros j Hj. rewrite Z.land_spec, Z.bits_0, Z.pow2_bits_eqb by done.
    destruct (Z.eqb_spec k j) as [<-|]; [by rewrite E|apply andb_false_r].
Qed.

Lemma is_set_clear f k : 1 <= k < 32 -> is_set (Z.land f (w_not ZEROPAD)) (2 ^ k) = is_set f (2 ^ k).
Proof.
  intros Hk. rewrite !is_set_bit, Z.land_spec, testbit_w_not by (done || lia).
  unfold ZEROPAD. change 1 with (2 ^ 0) at 1. rewrite Z.pow2_bits_false, andb_true_r by lia. done.
Qed.

Lemma is_set_both f : is_set f (ZEROPAD + LEFT) = is_set f ZEROPAD || is_set f LEFT.
Proof.
  unfold is_set. change (ZEROPAD + LEFT) with (Z.lor ZEROPAD LEFT). rewrite Z.land_lor_distr_r.
  destruct (Z.eqb_spec (Z.lor (Z.land f ZEROPAD) (Z.land f LEFT)) 0) as [E|E].
  - by apply Z.lor_eq_0_iff in E as [-> ->].
  - destruct (Z.eqb_spec (Z.land f ZEROPAD) 0) as [E1|]; [|done]. destruct (Z.eqb_spec (Z.land f LEFT) 0) as [E2|]; [|done].
    by rewrite E1, E2 in E.
Qed.

Lemma sign_of_clear num f : sign_of num (Z.land f (w_not ZEROPAD)) = sign_of num f.
Proof. unfold sign_of. change SIGN with (2 ^ 1). change PLUS with (2 ^ 2). change SPACE with (2 ^ 3). by rewrite !is_set_clear. Qed.

Lemma sign_of_bounds num f : 0 <= num < 2 ^ 64 -> let '(s, n) := sign_of num f in 0 <= n < 2 ^ 64.
Proof. intros Hn. unfold sign_of. case_ifs; try done. by apply Z.mod_pos_bound. Qed.

(** ** Numbers *)

Lemma number_tmp_spec base num locase :
  base = 8 \/ base = 10 \/ base = 16 -> 0 <= num < 2 ^ 64 -> locase = 0 \/ locase = 32 ->
  exists rest, (length (number_digits base locase num) <= 66)%nat /\
    (if num =? 0 then tmp ← lift (word_set (replicate 66 0) 0 48); Ret (1, tmp)
     else if negb (base =? 10) then
       radix_loop 66 (replicate 66 0) 0 num (base - 1) (if base =? 16 then 4 else 3) locase
     else put_dec (replicate 66 0) num) =
    Ret (Z.of_nat (length (number_digits base locase num)), number_digits base locase num ++ rest).
Proof.
  intros Hb Hn Hl. unfold number_digits. destruct (Z.eqb_spec num 0) as [->|Hne]; [eexists; split; [cbn; lia|done]|].
  assert (forall shift, 1 <= shift <= 8 -> (2 ^ 64 <= (2 ^ shift) ^ 66) ->
    exists rest, (length (map (fun d => Z.lor (hex_digit d) locase) (digits 66 (2 ^ shift) num)) <= 66)%nat /\
    radix_loop 66 (replicate 66 0) 0 num (2 ^ shift - 1) shift locase =
    Ret (Z.of_nat (length (map (fun d => Z.lor (hex_digit d) locase) (digits 66 (2 ^ shift) num))),
         map (fun d => Z.lor (hex_digit d) locase) (digits 66 (2 ^ shift) num) ++ rest)) as Hradix.
  { intros shift Hs Hp. rewrite length_map. pose proof (length_digits 66 (2 ^ shift) num) as Hlen.
    eexists. split; [done|]. apply (radix_loop_spec 65 [] (replicate 66 0) num shift locase); [done| |by rewrite length_replicate].
    change (Z.of_nat 66) with 66. lia. }
  destruct Hb as [->|[->| ->]]; cbn [Z.eqb Pos.eqb negb].
  - apply (Hradix 3); [lia|done].
  - exists (drop (length (map to_digit (digits 10 10 (wrap num)))) (replicate 66 0)).
    pose proof (length_digits 10 10 (wrap num)) as Hlen. split; [rewrite length_map; lia|].
    unfold put_dec. rewrite (h2d_spec _ false); [done|apply wrap_is_word|rewrite length_replicate; lia].
  - apply (Hradix 4); [lia|done].
Qed.

Lemma small_cases f : Z.land f SMALL = 0 \/ Z.land f SMALL = 32.
Proof.
  destruct (Z.testbit f 5) eqn:E; [right|left]; apply Z.bits_inj'; intros j Hj; unfold SMALL; change 32 with (2 ^ 5);
    rewrite Z.land_spec, Z.pow2_bits_eqb by done; destruct (Z.eqb_spec 5 j) as [<-|].
  - by rewrite E.
  - apply andb_false_r.
  - by rewrite E, Z.bits_0.
  - by rewrite andb_false_r, Z.bits_0.
Qed.

(** Goals [fits end mem0 a] from [fits] of a longer text. *)
Ltac fits_within n :=
  lazymatch n with
  | O => eassumption
  | S ?n => first [eassumption | eapply fits_app; fits_within n]
  end.
Ltac fits := fits_within 9%nat.

Lemma pad0_render end_ mem0 c w text :
  fits end_ mem0 (text ++ replicate (Z.to_nat w) c) ->
  pad end_ 0 c w (render end_ mem0 text) = Ret (Z.min (w - 1) (-1), render end_ mem0 (text ++ replicate (Z.to_nat w) c)).
Proof. intros Hf. pose proof (pad_render end_ mem0 0 c w text) as E. cbn zeta in E. rewrite Z.sub_0_r in E. by apply E. Qed.

Lemma sign_render end_ mem0 sign text :
  fits end_ mem0 (text ++ if sign =? 0 then [] else [sign]) ->
  (if negb (sign =? 0) then put end_ (render end_ mem0 text) sign else Ret (render end_ mem0 text)) =
    Ret (render end_ mem0 (text ++ if sign =? 0 then [] else [sign])).
Proof. destruct (sign =? 0); cbn [negb]; [by rewrite app_nil_r|]. intros Hf. by apply put_render. Qed.

Definition radix_prefix (pfx : bool) (base lc : Z) : list Z :=
  if pfx then 48 :: (if base =? 16 then [Z.lor 88 lc] else []) else [].

Lemma prefix_render end_ mem0 pfx base lc text :
  fits end_ mem0 (text ++ radix_prefix pfx base lc) ->
  (if pfx : bool then
     o ← put end_ (render end_ mem0 text) 48;
     if base =? 16 then put end_ o (Z.lor 88 lc) else Ret o
   else Ret (render end_ mem0 text)) = Ret (render end_ mem0 (text ++ radix_prefix pfx base lc)).
Proof.
  unfold radix_prefix. destruct pfx; [|by rewrite app_nil_r]. intros Hf.
  change (48 :: ?l) with ([48] ++ l) in *. rewrite app_assoc in *. rewrite put_render by fits. cbn [mbind run_bind].
  destruct (base =? 16); [by apply put_render|by rewrite app_nil_r].
Qed.

(** The zeros up to the precision, and the digits. *)
Definition precise (ds : list Z) (prec : Z) : list Z := replicate (Z.to_nat (prec - Z.of_nat (length ds))) 48 ++ reverse ds.

Lemma length_precise ds prec :
  Z.of_nat (length (precise ds prec)) = if prec <? Z.of_nat (length ds) then Z.of_nat (length ds) else prec.
Proof. unfold precise. rewrite length_app, length_replicate, length_reverse. case_if; lia. Qed.

Lemma precise_render end_ mem0 ds rest prec w text :
  fits end_ mem0 (text ++ precise ds prec ++ replicate (Z.to_nat w) 32) ->
  ('(_, o) ← pad end_ (Z.of_nat (length ds)) 48 (if prec <? Z.of_nat (length ds) then Z.of_nat (length ds) else prec)
               (render end_ mem0 text);
   o ← back_loop (S (Z.to_nat (Z.of_nat (length ds)))) end_ (ds ++ rest) (Z.of_nat (length ds)) o;
   '(_, o) ← pad end_ 0 32 w o;
   Ret o) = Ret (render end_ mem0 (text ++ precise ds prec ++ replicate (Z.to_nat w) 32)).
Proof.
  unfold precise. rewrite !app_assoc. intros Hf.
  set (p := if _ <? _ then _ else _).
  assert (Z.to_nat (p - Z.of_nat (length ds)) = Z.to_nat (prec - Z.of_nat (length ds))) as Ep by (unfold p; case_if; lia).
  rewrite pad_render by (rewrite Ep; fits). cbn [mbind run_bind]. rewrite Ep.
  rewrite back_render; rewrite ?Nat2Z.id, ?take_app_length; [|rewrite length_app; lia|fits]. cbn [mbind run_bind].
  by rewrite pad0_render.
Qed.

Lemma replicate_neg n (c : Z) : n <= 0 -> replicate (Z.to_nat n) c = [].
Proof. intros Hn. by rewrite Z2Nat.nonpos. Qed.

Lemma number_render end_ mem0 num spec text :
  base spec = 8 \/ base spec = 10 \/ base spec = 16 -> 0 <= num < 2 ^ 64 ->
  fits end_ mem0 (text ++ number_text num spec) ->
  number end_ (render end_ mem0 text) num spec = Ret (render end_ mem0 (text ++ number_text num spec)).
Proof.
  intros Hb Hn. unfold number, number_text.
  set (fl := if is_set (flags spec) LEFT then Z.land (flags spec) (w_not ZEROPAD) else flags spec).
  assert (sign_of num fl = sign_of num (flags spec)) as -> by (unfold fl; case_if; [apply sign_of_clear|done]).
  assert (is_set fl LEFT = is_set (flags spec) LEFT) as HL.
  { unfold fl. change LEFT with (2 ^ 4). case_if; [|done]. by rewrite is_set_clear. }
  assert (is_set fl ZEROPAD = negb (is_set (flags spec) LEFT) && is_set (flags spec) ZEROPAD) as HZ.
  { unfold fl. case_if; [|done]. change ZEROPAD with (2 ^ 0) at 2. rewrite is_set_bit, Z.land_spec, testbit_w_not by done.
    apply andb_false_r. }
  rewrite is_set_both, HL, HZ. pose proof (sign_of_bounds num (flags spec) Hn) as Hn'.
  destruct (sign_of num (flags spec)) as [sign num']. clear HL HZ fl.
  set (pfx := is_set (flags spec) SPECIAL && negb (base spec =? 10)).
  set (lc := Z.land (flags spec) SMALL).
  destruct (number_tmp_spec (base spec) num' lc Hb Hn' (small_cases _)) as (rest & Hlen & ->).
  set (ds := number_digits (base spec) lc num') in *. cbn [mbind run_bind]. cbn zeta.
  change (if pfx then 48 :: _ else []) with (radix_prefix pfx (base spec) lc).
  set (sg := if sign =? 0 then [] else [sign]). set (px := radix_prefix pfx (base spec) lc).
  fold (precise ds (precision spec)). set (body := precise ds (precision spec)).
  set (w := _ - (if precision spec <? _ then _ else _)).
  assert (field_width spec - Z.of_nat (length (sg ++ px)) - Z.of_nat (length body) = w) as ->.
  { unfold w, body, sg, px, radix_prefix. rewrite length_precise.
    destruct (sign =? 0), pfx, (base spec =? 16); cbn [length app]; lia. }
  pose proof (length_precise ds (precision spec)) as Hlb. fold body in Hlb.
  assert (forall c : Z, replicate (Z.to_nat (Z.min (w - 1) (-1))) c = []) as Hz by (intros; apply replicate_neg; lia).
  destruct (is_set (flags spec) LEFT) eqn:EL; cbn [negb andb orb]; [|destruct (is_set (flags spec) ZEROPAD) eqn:EZ; cbn [negb orb]];
    cbn [mbind run_bind]; intros Hf; pose proof Hf as Hf1; rewrite !app_assoc in Hf1.
  - rewrite sign_render by fits. cbn [mbind run_bind]. fold sg. rewrite prefix_render by fits. cbn [mbind run_bind]. fold px.
    rewrite precise_render; fold body; rewrite !app_assoc in *; done.
  - rewrite sign_render by fits. cbn [mbind run_bind]. fold sg. rewrite prefix_render by fits. cbn [mbind run_bind]. fold px.
    rewrite pad0_render by fits. cbn [mbind run_bind].
    rewrite precise_render; fold body; rewrite Hz, app_nil_r, !app_assoc in *; done.
  - rewrite pad0_render by fits. cbn [mbind run_bind].
    rewrite sign_render by fits. cbn [mbind run_bind]. fold sg. rewrite prefix_render by fits. cbn [mbind run_bind]. fold px.
    rewrite pad0_render by (rewrite Hz, app_nil_r; fits). rewrite Hz, app_nil_r. cbn [mbind run_bind].
    rewrite precise_render; fold body; (rewrite (replicate_neg (Z.min (Z.min (w - 1) (-1) - 1) (-1))) by lia);
      rewrite app_nil_r, !app_assoc in *; done.
Qed.

(** ** Strings and characters *)

Definition string_text (l : list Z) (spec : printf_spec) : list Z :=
  text_field (take (Z.to_nat (Z.min (wrap (precision spec)) (Z.of_nat (length l)))) l) spec.

(** A field around [t]: [n] characters, fill on the left or on the right. *)
Lemma field_render end_ mem0 (f : out -> run out) t spec text :
  (forall x, fits end_ mem0 (x ++ t) -> f (render end_ mem0 x) = Ret (render end_ mem0 (x ++ t))) ->
  fits end_ mem0 (text ++ text_field t spec) ->
  ('(w, o) ← (if negb (is_set (flags spec) LEFT)
              then pad end_ (Z.of_nat (length t)) 32 (field_width spec) (render end_ mem0 text)
              else Ret (field_width spec, render end_ mem0 text));
   o ← f o;
   '(_, o) ← pad end_ (Z.of_nat (length t)) 32 w o;
   Ret o) = Ret (render end_ mem0 (text ++ text_field t spec)).
Proof.
  intros Hfr. unfold text_field. destruct (is_set (flags spec) LEFT); cbn [negb]; intros Hf; rewrite app_assoc in Hf.
  - cbn [mbind run_bind]. rewrite Hfr by fits. cbn [mbind run_bind]. rewrite pad_render by fits. cbn [mbind run_bind].
    by rewrite app_assoc.
  - rewrite pad_render by fits. cbn [mbind run_bind]. rewrite Hfr by fits. cbn [mbind run_bind].
    set (w := Z.min _ _). pose proof (replicate_neg (w - Z.of_nat (length t)) 32) as Hz.
    rewrite pad_render; rewrite Hz by lia; rewrite app_nil_r; [|done]. cbn [mbind run_bind]. by rewrite app_assoc.
Qed.

Lemma string_bytes_render end_ mem0 s l spec text :
  cstr s l -> fits end_ mem0 (text ++ string_text l spec) ->
  string_bytes end_ (render end_ mem0 text) s spec = Ret (render end_ mem0 (text ++ string_text l spec)).
Proof.
  intros Hs Hf. unfold string_bytes. pose proof (wrap_is_word (precision spec)) as Hw. unfold is_word in Hw.
  rewrite (strnlen_spec s l) by (done || lia). cbn [lift mbind run_bind]. unfold string_text in *.
  set (k := Z.min _ _) in *. set (t := take (Z.to_nat k) l) in *.
  assert (length t = Z.to_nat k) as Ht by (unfold t; rewrite length_take; lia).
  replace k with (Z.of_nat (length t)) at 1 by lia. replace (pad end_ k 32) with (pad end_ (Z.of_nat (length t)) 32) by (f_equal; lia).
  apply (field_render end_ mem0 (fun o => copy_loop (Z.to_nat k) end_ s o) t spec text); [|done].
  intros x Hx. destruct Hs as [_ [rest ->]]. rewrite copy_render.
  - unfold t. by rewrite take_app_le by lia.
  - rewrite length_app. lia.
  - unfold t in Hx. by rewrite take_app_le by lia.
Qed.

Lemma put_char_render end_ mem0 spec c text :
  fits end_ mem0 (text ++ text_field [c] spec) ->
  put_char end_ (render end_ mem0 text) spec c = Ret (render end_ mem0 (text ++ text_field [c] spec)).
Proof. apply (field_render end_ mem0 (fun o => put end_ o c) [c] spec text). intros x Hx. by apply put_render. Qed.

(** The text of a pointer that is not [%pV]. *)
Definition pointer_text (ptr : Z) (spec : printf_spec) : list Z :=
  let spec := set_flags spec (Z.lor (flags spec) SMALL) in
  let spec := if field_width spec =? -1
              then set_flags (set_width spec 8) (Z.lor (flags spec) ZEROPAD) else spec in
  number_text ptr (set_base spec 16).

(** ** The text of a format

    What a directive adds to the output, what is left of the format and of
    the arguments, and the store of [%n], [n] being the number of characters so
    far.  [Fault] is a missing argument, a pointer that is not a string, or
    [%pV]. *)

Record tstate := TState { t_spec : printf_spec; t_args : list Z; t_nr : list (Z * Z) }.

(** The string at an address. *)
Definition string_at (e : env) (a : Z) : run (list Z) :=
  if a <? 0x10000 then Ret (removelast force_null) else
  s ← lift (str_at e a); n ← lift (strlen s); Ret (take (Z.to_nat n) s).

Definition directive_text (e : env) (old fmt : list Z) (spec : printf_spec) (args : list Z) (n : Z)
    : run (list Z * list Z * tstate) :=
  match type spec with
  | FORMAT_TYPE_NONE => Ret (take (length old - length fmt) old, fmt, TState spec args [])
  | FORMAT_TYPE_WIDTH => '(a, args) ← va_word args; Ret ([], fmt, TState (set_width spec (to_int a)) args [])
  | FORMAT_TYPE_PRECISION => '(a, args) ← va_word args; Ret ([], fmt, TState (set_precision spec (to_int a)) args [])
  | FORMAT_TYPE_CHAR => '(a, args) ← va_word args; Ret (text_field [a mod 256] spec, fmt, TState spec args [])
  | FORMAT_TYPE_STR =>
    '(a, args) ← va_word args; l ← string_at e a; Ret (string_text l spec, fmt, TState spec args [])
  | FORMAT_TYPE_PTR =>
    '(a, args) ← va_word args;
    let c := peek (tail fmt) in
    t ← (if (a =? 0) && negb (c =? 75) then Ret (string_text (removelast null_text) spec) else
         if c =? 86 then Fault else Ret (pointer_text a spec));
    Ret (t, skip_alnum fmt, TState spec args [])
  | FORMAT_TYPE_PERCENT_CHAR | FORMAT_TYPE_INVALID => Ret ([37], fmt, TState spec args [])
  | FORMAT_TYPE_NRCHARS => '(a, args) ← va_word args; Ret ([], fmt, TState spec args [(a, n)])
  | _ => '(num, args) ← va_num (type spec) args; Ret (number_text num spec, fmt, TState spec args [])
  end.

Fixpoint format_text (fuel : nat) (e : env) (fmt : list Z) (s : tstate) (text : list Z) : run (list Z * list (Z * Z)) :=
  match fmt with
  | [] => Ret (text, t_nr s)
  | _ =>
    match fuel with
    | O => NoFuel
    | S fuel =>
      let '(rest, spec) := format_decode fmt (t_spec s) in
      '(t, rest, s') ← directive_text e fmt rest spec (t_args s) (Z.of_nat (length text));
      format_text fuel e rest (TState (t_spec s') (t_args s') (t_nr s ++ t_nr s')) (text ++ t)
    end
  end.

(** The whole output of [fmt], without a buffer. *)
Definition printed (e : env) (fmt args : list Z) : run (list Z * list (Z * Z)) :=
  format_text (S (2 * length fmt)) e fmt (TState (Spec FORMAT_TYPE_NONE 0 0 0 0 0) args []) [].

(** ** Progress of the parser *)

Definition mid (t : format_type) : bool :=
  match t with FORMAT_TYPE_WIDTH | FORMAT_TYPE_PRECISION => true | _ => false end.

Definition is_number (t : format_type) : bool :=
  match t with
  | FORMAT_TYPE_LONG_LONG | FORMAT_TYPE_ULONG | FORMAT_TYPE_LONG | FORMAT_TYPE_UBYTE | FORMAT_TYPE_BYTE
  | FORMAT_TYPE_USHORT | FORMAT_TYPE_SHORT | FORMAT_TYPE_UINT | FORMAT_TYPE_INT | FORMAT_TYPE_SIZE_T => true
  | _ => false
  end.

Definition radix_ok (spec : printf_spec) : Prop :=
  is_number (type spec) = true -> base spec = 8 \/ base spec = 10 \/ base spec = 16.

Lemma suffix_tail (fmt : list Z) : tail fmt `suffix_of` fmt.
Proof. destruct fmt as [|c fmt]; [done|]. by exists [c]. Qed.

Lemma suffix_skip_atoi i s : (skip_atoi i s).2 `suffix_of` s.
Proof.
  revert i. induction s as [|c s IH]; intros i; cbn; [done|]. destruct (isdigit c); [|done].
  etrans; [apply IH|]. by exists [c].
Qed.

Lemma suffix_flag_loop fl s : (flag_loop fl s).2 `suffix_of` s.
Proof.
  revert fl. induction s as [|c s IH]; intros fl; cbn; [done|]. destruct (flag_of c); [|done].
  etrans; [apply IH|]. by exists [c].
Qed.

Lemma suffix_skip_alnum s : skip_alnum s `suffix_of` s.
Proof. induction s as [|c s IH]; cbn; [done|]. case_if; [|done]. etrans; [apply IH|]. by exists [c]. Qed.

Lemma tail_lt fmt c : peek fmt = c -> c <> 0 -> (length (tail fmt) < length fmt)%nat.
Proof. destruct fmt; cbn; [congruence|lia]. Qed.

Lemma number_type_number q f : is_number (number_type q f) = true /\ mid (number_type q f) = false.
Proof. unfold number_type. by case_ifs. Qed.

(** What a parser delivers: a suffix of the format, and a specification that
    [P] holds of. *)
Definition delivers (fmt : list Z) (P : list Z -> printf_spec -> Prop) (r : list Z * printf_spec) : Prop :=
  r.1 `suffix_of` fmt /\ radix_ok r.2 /\ P r.1 r.2.

Lemma decode_conversion_delivers spec fmt :
  delivers fmt (fun _ s => mid (type s) = false) (decode_conversion spec fmt).
Proof.
  unfold decode_conversion.
  repeat match goal with |- context [if ?b then _ else _] => destruct b end;
    (split; [apply suffix_tail || done|]);
    (split; [unfold radix_ok; cbn; try done; intros _; auto|cbn; try done; apply number_type_number]).
Qed.

Lemma delivers_suffix fmt fmt' P r : fmt' `suffix_of` fmt -> delivers fmt' P r -> delivers fmt P r.
Proof. intros Hs (H1 & H2 & H3). split; [by etrans|done]. Qed.

Lemma decode_qualifier_delivers spec fmt :
  delivers fmt (fun _ s => mid (type s) = false) (decode_qualifier spec fmt).
Proof.
  unfold decode_qualifier. case_ifs; (eapply delivers_suffix; [|apply decode_conversion_delivers]); try done;
    try apply suffix_tail; etrans; apply suffix_tail.
Qed.

Lemma decode_precision_delivers spec fmt :
  delivers fmt (fun r s => mid (type s) = true -> (length r < length fmt)%nat) (decode_precision spec fmt).
Proof.
  assert (forall f s, f `suffix_of` fmt ->
    delivers fmt (fun r s => mid (type s) = true -> (length r < length fmt)%nat) (decode_qualifier s f)) as Hq.
  { intros f s Hs. destruct (decode_qualifier_delivers s f) as (H1 & H2 & H3).
    split; [by etrans|]. split; [done|]. by rewrite H3. }
  unfold decode_precision. destruct (peek fmt =? 46) eqn:E; zbool; [|by apply Hq].
  pose proof (suffix_tail fmt) as Ht. destruct (isdigit (peek (tail fmt))).
  - pose proof (suffix_skip_atoi 0 (tail fmt)) as Hk. destruct (skip_atoi 0 (tail fmt)) as [p f]. apply Hq. by etrans.
  - destruct (peek (tail fmt) =? 42) eqn:E'; zbool; [|by apply Hq].
    split; [cbn; etrans; [apply suffix_tail|done]|]. split; [by intros ?|]. cbn. intros _.
    pose proof (tail_lt fmt _ E). pose proof (tail_lt (tail fmt) _ E'). lia.
Qed.

Lemma literal_le fmt : (literal fmt <= length fmt)%nat.
Proof. induction fmt as [|c fmt IH]; cbn; [lia|]. case_if; lia. Qed.

Lemma literal_rest fmt : 0 ∉ fmt -> peek (drop (literal fmt) fmt) = 0 -> drop (literal fmt) fmt = [].
Proof.
  intros Hn Hp. destruct (drop (literal fmt) fmt) as [|c r] eqn:E; [done|]. cbn in Hp. subst c. destruct Hn.
  rewrite <- (take_drop (literal fmt) fmt), E. apply elem_of_app. right. apply list_elem_of_here.
Qed.

(** A round consumes a byte of the format, or it finishes a directive whose
    width or precision was an argument. *)
Lemma format_decode_delivers fmt spec :
  fmt <> [] -> 0 ∉ fmt ->
  delivers fmt (fun r s => mid (type spec) = false \/ mid (type s) = true -> (length r < length fmt)%nat)
    (format_decode fmt spec).
Proof.
  intros Hne Hz. unfold format_decode.
  assert (delivers fmt (fun r s => mid (type spec) = false \/ mid (type s) = true -> (length r < length fmt)%nat)
    (let spec := set_type spec FORMAT_TYPE_NONE in
     let n := literal fmt in
     if negb (Nat.eqb n 0) || (peek (drop n fmt) =? 0) then (drop n fmt, spec) else
     let '(fl, fmt) := flag_loop 0 (tail fmt) in
     let spec := set_width (set_flags spec fl) (-1) in
     if isdigit (peek fmt) then
       let '(w, fmt) := skip_atoi 0 fmt in decode_precision (set_width spec w) fmt
     else if peek fmt =? 42 then (tail fmt, set_type spec FORMAT_TYPE_WIDTH)
     else decode_precision spec fmt)) as Hmain.
  { cbn zeta. destruct fmt as [|c0 fmt0] eqn:Ef; [done|]. rewrite <- Ef in *. clear Hne.
    assert (length (tail fmt) < length fmt)%nat as Hlt by (subst fmt; cbn; lia).
    destruct (negb _ || _) eqn:Eb.
    { split; [apply suffix_drop|]. split; [by intros ?|]. intros _. cbn [fst]. rewrite length_drop.
      pose proof (literal_le fmt). enough (literal fmt <> O) by (subst fmt; cbn in *; lia). intros E0.
      rewrite E0 in Eb. cbn [Nat.eqb negb orb drop] in Eb. apply Z.eqb_eq in Eb. rewrite Ef in Eb. cbn in Eb. subst c0.
      apply Hz. rewrite Ef. apply list_elem_of_here. }
    pose proof (suffix_flag_loop 0 (tail fmt)) as Hf. destruct (flag_loop 0 (tail fmt)) as [fl f]. cbn in Hf.
    pose proof (suffix_length _ _ Hf) as Hfl.
    assert (f `suffix_of` fmt) as Hsf by (etrans; [done|apply suffix_tail]).
    assert (forall s g, g `suffix_of` f -> delivers fmt (fun r s => mid (type spec) = false \/ mid (type s) = true ->
      (length r < length fmt)%nat) (decode_precision s g)) as Hp.
    { intros s g Hg. destruct (decode_precision_delivers s g) as (H1 & H2 & _). split; [etrans; [done|by etrans]|].
      split; [done|]. intros _. pose proof (suffix_length _ _ H1). pose proof (suffix_length _ _ Hg). lia. }
    destruct (isdigit (peek f)).
    - pose proof (suffix_skip_atoi 0 f) as Hk. destruct (skip_atoi 0 f) as [w g]. by apply Hp.
    - destruct (peek f =? 42); [|by apply Hp]. pose proof (suffix_length _ _ (suffix_tail f)).
      split; [cbn; etrans; [apply suffix_tail|done]|]. split; [by intros ?|]. intros _. cbn. lia. }
  destruct (type spec); try exact Hmain.
  - set (s := set_type _ _). destruct (decode_precision_delivers s fmt) as (H1 & H2 & H3).
    split; [done|]. split; [done|]. intros [?|?]; [done|by apply H3].
  - set (s := set_type _ _). destruct (decode_qualifier_delivers s fmt) as (H1 & H2 & H3).
    split; [done|]. split; [done|]. rewrite H3. by intros [?|?].
Qed.

(** ** The code prints the text *)

Lemma strlen_cstr s n : strlen s = Some n -> cstr s (take (Z.to_nat n) s) /\ 0 <= n.
Proof.
  revert n. induction s as [|c s IH]; intros n; cbn [strlen]; [done|]. destruct (Z.eqb_spec c 0) as [->|Hc].
  - intros [= <-]. split; [apply cstr_nil|done].
  - destruct (strlen s) as [m|]; [|done]. cbn [mbind option_bind]. intros [= <-]. destruct (IH m eq_refl) as [H1 H2].
    split; [|lia]. replace (Z.to_nat (m + 1)) with (S (Z.to_nat m)) by lia. cbn [take]. by apply cstr_cons.
Qed.

Lemma string_render e end_ mem0 a l spec text :
  string_at e a = Ret l -> fits end_ mem0 (text ++ string_text l spec) ->
  string e end_ (render end_ mem0 text) a spec = Ret (render end_ mem0 (text ++ string_text l spec)).
Proof.
  unfold string_at, string. case_if.
  - intros [= <-] Hf. apply string_bytes_render; [|done]. split; [by apply (bool_decide_unpack _)|by exists []].
  - destruct (str_at e a) as [s|]; [|done]. cbn [lift mbind run_bind]. destruct (strlen s) as [n|] eqn:En; [|done].
    cbn [lift mbind run_bind]. intros [= <-] Hf. apply strlen_cstr in En as [Hc _]. by apply string_bytes_render.
Qed.

Lemma u64_bounds z : 0 <= u64 z < 2 ^ 64.
Proof. apply Z.mod_pos_bound. lia. Qed.

Lemma va_word_spec args a r : va_word args = Ret (a, r) -> Forall is_word args -> is_word a /\ Forall is_word r.
Proof. destruct args; [done|]. intros [= <- <-] [? ?]%Forall_cons. done. Qed.

Lemma va_num_spec t args n r :
  va_num t args = Ret (n, r) -> Forall is_word args -> 0 <= n < 2 ^ 64 /\ Forall is_word r.
Proof.
  unfold va_num. destruct (va_word args) as [[a r1]| |] eqn:E; try done. cbn [mbind run_bind]. intros En Hw.
  apply va_word_spec in E as [Ha Hr]; [|done]. unfold is_word in Ha.
  assert (0 <= a mod 256 < 256 /\ 0 <= a mod 65536 < 65536) as [? ?] by (split; apply Z.mod_pos_bound; lia).
  destruct t; try (injection En as <- <-; split; [first [apply u64_bounds|lia]|done]).
  destruct (va_word r1) as [[b r2]| |] eqn:E2; try done. cbn [mbind run_bind] in En. injection En as <- <-.
  apply va_word_spec in E2 as [Hb ?]; [|done]. unfold is_word in Hb. split; [lia|done].
Qed.

Lemma pointer_render rec e fmt end_ mem0 a spec text t :
  is_word a ->
  (if (a =? 0) && negb (peek fmt =? 75) then Ret (string_text (removelast null_text) spec) else
   if peek fmt =? 86 then Fault else Ret (pointer_text a spec)) = Ret t ->
  fits end_ mem0 (text ++ t) ->
  pointer rec e fmt end_ (render end_ mem0 text) a spec = Ret (render end_ mem0 (text ++ t), []).
Proof.
  intros Ha. unfold pointer. destruct (_ && _).
  - intros [= <-] Hf. rewrite (string_bytes_render _ _ _ (removelast null_text)); [done| |done].
    split; [by apply (bool_decide_unpack _)|by exists []].
  - destruct (peek fmt =? 86); [done|]. intros [= <-] Hf. unfold pointer_text in *. unfold is_word in Ha.
    rewrite number_render; [done|by right; right|lia|done].
Qed.

Lemma directive_render rec e end_ mem0 old fmt spec s text t rest ts :
  b_addr mem0 <= end_ -> radix_ok spec -> Forall is_word (v_args s) -> v_out s = render end_ mem0 text ->
  directive_text e old fmt spec (v_args s) (Z.of_nat (length text)) = Ret (t, rest, ts) ->
  fits end_ mem0 (text ++ t) ->
  directive rec e end_ old fmt spec s =
    Ret (rest, VState (render end_ mem0 (text ++ t)) (t_spec ts) (t_args ts) (v_nr s ++ t_nr ts)) /\
  Forall is_word (t_args ts) /\ rest `suffix_of` fmt /\ type (t_spec ts) = type spec.
Proof.
  intros He Hb Hw Ho. destruct s as [o sp args nr]. cbn in Hw, Ho |- *. subst o.
  unfold directive_text, directive. cbn [v_out v_args v_nr]. unfold radix_ok in Hb.
  destruct (type spec) eqn:Et; intros E Hf;
    try (destruct (va_word args) as [[a args']| |] eqn:Ea; try done; cbn [mbind run_bind] in E |- *;
         apply va_word_spec in Ea as [Ha Ha']; [|done]);
    try (destruct (va_num _ args) as [[num args']| |] eqn:Ea; try done; cbn [mbind run_bind] in E |- *;
         apply va_num_spec in Ea as [Ha Ha']; [|done]; injection E as <- <- <-; cbn [t_spec t_args t_nr];
         rewrite number_render by (done || by apply Hb); cbn [mbind run_bind]; by rewrite app_nil_r).
  - injection E as <- <- <-. rewrite literal_render by done. cbn [mbind run_bind t_spec t_args t_nr]. by rewrite app_nil_r.
  - injection E as <- <- <-. cbn [t_spec t_args t_nr]. rewrite !app_nil_r. by split_and!.
  - injection E as <- <- <-. cbn [t_spec t_args t_nr]. rewrite !app_nil_r. by split_and!.
  - injection E as <- <- <-. rewrite put_char_render by done. cbn [mbind run_bind t_spec t_args t_nr]. by rewrite app_nil_r.
  - destruct (string_at e a) as [l| |] eqn:Es; try done. cbn [mbind run_bind] in E. injection E as <- <- <-.
    rewrite (string_render _ _ _ _ l) by done. cbn [mbind run_bind t_spec t_args t_nr]. by rewrite app_nil_r.
  - set (p := if (a =? 0) && _ then _ else _) in E. destruct p as [t'| |] eqn:Ep; try done. cbn [mbind run_bind] in E.
    injection E as <- <- <-. rewrite (pointer_render _ _ _ _ _ _ _ _ t') by done.
    cbn [mbind run_bind t_spec t_args t_nr]. split_and!; [done|done|apply suffix_skip_alnum|done].
  - injection E as <- <- <-. rewrite put_render by done. cbn [mbind run_bind t_spec t_args t_nr]. by rewrite app_nil_r.
  - injection E as <- <- <-. rewrite put_render by done. cbn [mbind run_bind t_spec t_args t_nr]. by rewrite app_nil_r.
  - injection E as <- <- <-. cbn [t_spec t_args t_nr render fst snd b_addr]. rewrite app_nil_r in Hf |- *.
    destruct Hf as (_ & _ & _ & Hlen). cbn [b_addr].
    replace (b_addr mem0 + Z.of_nat (length text) - b_addr mem0) with (Z.of_nat (length text)) by lia.
    rewrite to_int_small by lia. by split_and!.
Qed.

Lemma not_elem_suffix (a b : list Z) : a `suffix_of` b -> 0 ∉ b -> 0 ∉ a.
Proof. intros [k ->]. rewrite not_elem_of_app. by intros [_ ?]. Qed.

(** The text only grows. *)
Lemma format_text_grows fuel e fmt s text T nr : format_text fuel e fmt s text = Ret (T, nr) -> exists t, T = text ++ t.
Proof.
  revert fmt s text. induction fuel as [|fuel IH]; intros fmt s text; destruct fmt as [|c fmt]; cbn [format_text]; try done.
  1-2: intros [= <- _]; exists []; by rewrite app_nil_r.
  destruct (format_decode _ _) as [rest spec]. destruct (directive_text _ _ _ _ _ _) as [[[t rest'] s']| |]; try done.
  cbn [mbind run_bind]. intros [u ->]%IH. exists (t ++ u). by rewrite app_assoc.
Qed.

Lemma format_text_S fuel e c fmt s text :
  format_text (S fuel) e (c :: fmt) s text =
    (let '(rest, spec) := format_decode (c :: fmt) (t_spec s) in
     '(t, rest, s') ← directive_text e (c :: fmt) rest spec (t_args s) (Z.of_nat (length text));
     format_text fuel e rest (TState (t_spec s') (t_args s') (t_nr s ++ t_nr s')) (text ++ t)).
Proof. done. Qed.

Lemma vsn_loop_S rec fuel e end_ c fmt s :
  vsn_loop rec (S fuel) e end_ (c :: fmt) s =
    (let '(rest, spec) := format_decode (c :: fmt) (v_spec s) in
     '(rest, s) ← directive rec e end_ (c :: fmt) rest spec s; vsn_loop rec fuel e end_ rest s).
Proof. done. Qed.

Lemma vsn_loop_render rec e end_ mem0 fuel fmt spec args nr text T nr' :
  b_addr mem0 <= end_ -> 0 ∉ fmt -> Forall is_word args ->
  format_text fuel e fmt (TState spec args nr) text = Ret (T, nr') -> fits end_ mem0 T ->
  exists s, vsn_loop rec fuel e end_ fmt (VState (render end_ mem0 text) spec args nr) = Ret s /\
    v_out s = render end_ mem0 T /\ v_nr s = nr'.
Proof.
  intros He. revert fmt spec args nr text. induction fuel as [|fuel IH]; intros fmt spec args nr text Hz Hw HT Hf;
    destruct fmt as [|c fmt]; try (injection HT as <- <-; eexists; split; [done|done]); [done|].
  rewrite format_text_S in HT. rewrite vsn_loop_S. cbn [t_spec t_args t_nr v_spec] in *.
  destruct (format_decode_delivers (c :: fmt) spec) as (D1 & D2 & _); [done|done|].
  destruct (format_decode (c :: fmt) spec) as [rest spec']. cbn [fst snd] in *.
  destruct (directive_text _ _ _ _ _ _) as [[[t rest'] ts]| |] eqn:Ed; try done. cbn [mbind run_bind] in HT.
  destruct (format_text_grows _ _ _ _ _ _ _ HT) as [u ->].
  destruct (directive_render rec e end_ mem0 (c :: fmt) rest spec' (VState (render end_ mem0 text) spec args nr) text t rest' ts)
    as (-> & Hw' & Hs & _); try done; [by eapply fits_app|]. cbn [mbind run_bind v_nr].
  apply IH; try done. apply (not_elem_suffix _ (c :: fmt)); [by etrans|done].
Qed.

Lemma directive_text_ends e old fmt spec args n : directive_text e old fmt spec args n <> NoFuel.
Proof.
  unfold directive_text, va_num. destruct (type spec), args as [|a [|b args]]; cbn [va_word mbind run_bind]; try done.
  all: try (unfold string_at; case_ifs; cbn [mbind run_bind]; try done).
  all: try (destruct (str_at e a) as [s|]; [|done]; cbn [lift mbind run_bind]; by destruct (strlen s)).
Qed.

Lemma directive_text_rest e old fmt spec args n t rest ts :
  directive_text e old fmt spec args n = Ret (t, rest, ts) -> rest `suffix_of` fmt /\ type (t_spec ts) = type spec.
Proof.
  unfold directive_text. destruct (type spec) eqn:Et; intros E;
    try (match type of E with context [va_word args] => destruct (va_word args) as [[a args']| |] end; try done; cbn [mbind run_bind] in E);
    try (destruct (va_num _ args) as [[a args']| |]; try done; cbn [mbind run_bind] in E);
    try (match type of E with context [string_at e ?x] => destruct (string_at e x) end; try done; cbn [mbind run_bind] in E);
    try (injection E as <- <- <-; by split).
  set (p := if (a =? 0) && _ then _ else _) in E. destruct p; try done. cbn [mbind run_bind] in E.
  injection E as <- <- <-. split; [apply suffix_skip_alnum|done].
Qed.

(** The rounds the loop has are enough. *)
Lemma format_text_ends fuel e fmt s text :
  0 ∉ fmt -> (2 * length fmt + (if mid (type (t_spec s)) then 1 else 0) <= fuel)%nat ->
  format_text fuel e fmt s text <> NoFuel.
Proof.
  revert fmt s text. induction fuel as [|fuel IH]; intros fmt s text Hz Hf; (destruct fmt as [|c fmt]; [done|]); [cbn in Hf; lia|].
  rewrite format_text_S. destruct (format_decode_delivers (c :: fmt) (t_spec s)) as (D1 & _ & D3); [done|done|].
  destruct (format_decode (c :: fmt) (t_spec s)) as [rest spec']. cbn [fst snd] in *.
  pose proof (directive_text_ends e (c :: fmt) rest spec' (t_args s) (Z.of_nat (length text))) as Hd.
  destruct (directive_text _ _ _ _ _ _) as [[[t rest'] ts]| |] eqn:Ed; try done. cbn [mbind run_bind].
  apply directive_text_rest in Ed as [Hs Ht]. apply IH; [by apply (not_elem_suffix _ (c :: fmt)); [etrans|]|].
  cbn [t_spec]. rewrite Ht. pose proof (suffix_length _ _ Hs). pose proof (suffix_length _ _ D1). cbn [length] in *.
  destruct (mid (type (t_spec s))), (mid (type spec')); try lia; specialize (D3 ltac:(by auto)); lia.
Qed.

(** Where the terminator goes: behind the text, or on the last byte. *)
Definition cut (room : Z) (T : list Z) : nat := Z.to_nat (Z.min (room - 1) (Z.of_nat (length T))).

(** The bytes after the output [T] has gone to a buffer with [room] bytes. *)
Definition written (room : Z) (T mem : list Z) : list Z :=
  if room =? 0 then mem else take (cut room T) T ++ 0 :: drop (S (cut room T)) mem.

Lemma render_end buf room mem T :
  0 <= buf -> 0 <= room -> is_word (buf + room) -> (room <> 0 -> (cut room T < length mem)%nat) ->
  (let '(str, mem) := render (buf + room) (Buffer buf mem) T in
   if 0 <? room then
     if str <? buf + room then lift (store mem str 0) else lift (store mem (buf + room -w 1) 0)
   else Ret mem) = Ret (Buffer buf (written room T mem)).
Proof.
  intros Hb He Hw Hm. unfold is_word in Hw. unfold render, shown, written, cut in *. cbn [b_addr b_bytes].
  replace (buf + room - buf) with room by lia. destruct (Z.eqb_spec room 0) as [->|Hne].
  { cbn [Z.ltb]. change (0 <? 0) with false. cbn match. rewrite Z.min_l by lia. done. }
  specialize (Hm Hne). rewrite (proj2 (Z.ltb_lt 0 room)) by lia.
  destruct (Z.ltb_spec (buf + Z.of_nat (length T)) (buf + room)) as [Hlt|Hge].
  - rewrite !Z.min_r in * by lia. rewrite Nat2Z.id, firstn_all in *.
    destruct (lookup_lt_is_Some_2 mem (length T)) as [x Hx]; [lia|]. rewrite (drop_S _ _ _ Hx), store_middle. done.
  - rewrite !Z.min_l in * by lia. replace (Z.to_nat room) with (S (Z.to_nat (room - 1))) by lia.
    set (n := Z.to_nat (room - 1)) in *. destruct (lookup_lt_is_Some_2 T n) as [c Hc]; [lia|].
    rewrite (take_S_r _ _ _ Hc), <- app_assoc. cbn [app]. rewrite wrap_small by (unfold is_word; lia).
    replace (buf + room - 1) with (buf + Z.of_nat (length (take n T))) by (rewrite length_take; lia).
    by rewrite store_middle.
Qed.

(** The bytes [vsnprintf] may use: [size], or what is left of the address
    space behind [buf]. *)
Definition room (buf size : Z) : Z := if (buf +w size) <? buf then 0xffffffff - buf else size.

Lemma room_end buf size :
  is_word buf -> 0 <= size < 2147483648 ->
  (let end_ := buf +w size in if end_ <? buf then (0xffffffff, 0xffffffff - buf) else (end_, size)) =
    (buf + room buf size, room buf size) /\ 0 <= room buf size /\ is_word (buf + room buf size).
Proof.
  unfold is_word, room. intros Hb Hs. cbn zeta. destruct (Z.lt_ge_cases (buf + size) 4294967296) as [Hn|Hn].
  - rewrite (wrap_small (buf + size)) by (unfold is_word; lia). rewrite (proj2 (Z.ltb_ge _ buf)) by lia. split; [done|lia].
  - assert (wrap (buf + size) = buf + size - 4294967296) as ->.
    { unfold wrap. symmetry. apply (Z.mod_unique _ _ 1); lia. }
    rewrite (proj2 (Z.ltb_lt _ buf)) by lia. split; [f_equal; lia|lia].
Qed.

Lemma vsnprintf_spec depth e buf mem size fmt args T nr :
  is_word buf -> 0 <= size < 2147483648 -> Z.of_nat (length T) < 2147483648 -> is_word (buf + Z.of_nat (length T)) ->
  (room buf size <> 0 -> (cut (room buf size) T < length mem)%nat) ->
  0 ∉ fmt -> Forall is_word args -> printed e fmt args = Ret (T, nr) ->
  vsnprintf (S depth) e buf mem size fmt args =
    Ret (Z.of_nat (length T), written (room buf size) T mem, nr).
Proof.
  intros Hbw Hs HlT HwT Hm Hz Ha HT. cbn [vsnprintf]. rewrite to_int_small, (proj2 (Z.ltb_ge size 0)) by lia.
  destruct (room_end buf size Hbw Hs) as (E & Hr & Hre). cbn zeta in E |- *. rewrite E. clear E.
  set (rm := room buf size) in *. unfold is_word in Hbw.
  destruct (vsn_loop_render (vsnprintf depth e) e (buf + rm) (Buffer buf mem) (S (2 * length fmt)) fmt
    (Spec FORMAT_TYPE_NONE 0 0 0 0 0) args [] [] T nr) as (s & E & Ho & Hnr); try done.
  { cbn. lia. }
  { unfold fits, shown. cbn [b_addr b_bytes]. split_and!; try done; try lia. unfold cut in Hm. lia. }
  rewrite render_nil in E. cbn [b_addr] in E. rewrite E. cbn [mbind run_bind]. rewrite Ho, Hnr.
  pose proof (render_end buf rm mem T ltac:(lia) Hr Hre Hm) as Er.
  destruct (render (buf + rm) (Buffer buf mem) T) as [str m] eqn:Es. rewrite Er. cbn [mbind run_bind b_bytes].
  unfold render in Es. injection Es as <- _. cbn [b_addr].
  replace (buf + Z.of_nat (length T) - buf) with (Z.of_nat (length T)) by lia. by rewrite to_int_small by lia.
Qed.

(** ** Numbers from text *)

Lemma digit_char d lc :
  0 <= d < 16 -> lc = 0 \/ lc = 32 -> let c := Z.lor (hex_digit d) lc in
  isxdigit c = true /\ (if isdigit c then c - 48 else TOLOWER c - 97 + 10) = d.
Proof.
  intros Hd Hl. assert (d ∈ seqZ 0 16) as He by (apply elem_of_seqZ; lia).
  clear Hd. revert d He. rewrite <- Forall_forall. destruct Hl as [-> | ->]; repeat constructor.
Qed.

Lemma strto_loop_digits m b lc acc ds tail :
  1 < b <= 16 -> 0 < m -> lc = 0 \/ lc = 32 -> Forall (fun d => 0 <= d < b) ds -> 0 <= acc < m ->
  strto_loop m b acc (reverse (map (fun d => Z.lor (hex_digit d) lc) ds) ++ tail) =
    strto_loop m b ((acc * b ^ Z.of_nat (length ds) + value b ds) mod m) tail.
Proof.
  intros Hb Hm Hl. revert acc tail. induction ds as [|d ds IH]; intros acc tail Hds Ha.
  { cbn [map length value]. change (reverse []) with (@nil Z). cbn [app]. rewrite Z.mul_1_r, Z.add_0_r, Z.mod_small by lia. done. }
  apply Forall_cons in Hds as [Hd Hds]. cbn [map]. rewrite reverse_cons, <- app_assoc, IH by done. cbn [app strto_loop].
  destruct (digit_char d lc) as [-> Hv]; [lia|done|]. cbn zeta in Hv |- *. rewrite Hv, (proj2 (Z.leb_gt b d)) by lia.
  f_equal. cbn [length value]. rewrite Nat2Z.inj_succ, Z.pow_succ_r by lia.
  rewrite <- Z.add_mod_idemp_l, Z.mul_mod_idemp_l, Z.add_mod_idemp_l by lia. f_equal. ring.
Qed.

Lemma strto_numeral m b lc n ds tail :
  b = 8 \/ b = 10 \/ b = 16 -> lc = 0 \/ lc = 32 -> numeral b n ds -> n < m ->
  strto m (reverse (map (fun d => Z.lor (hex_digit d) lc) ds) ++ 0 :: tail) b = Some (n, 0 :: tail).
Proof.
  intros Hb Hl (Hne & Hds & Hv & Hlast) Hm. pose proof (value_nonneg b ds ltac:(lia) Hds).
  assert (strto_loop m b 0 (reverse (map (fun d => Z.lor (hex_digit d) lc) ds) ++ 0 :: tail) = Some (n, 0 :: tail)) as Hloop.
  { rewrite strto_loop_digits by (done || lia). rewrite Z.mul_0_l, Z.add_0_l, Hv, Z.mod_small by lia. done. }
  unfold strto. rewrite (proj2 (Z.eqb_neq b 0)) by lia. cbn [mbind option_bind].
  destruct (Z.eqb_spec b 16) as [->|]; [|done]. unfold char_at. destruct ds as [|d0 ds] using rev_ind; [done|clear IHds].
  rewrite map_app, reverse_app in Hloop |- *. cbn [map] in *. change (reverse [?x]) with [x] in *. cbn [app lookup list_lookup mbind option_bind] in *.
  apply Forall_app in Hds as [_ Hd0]. apply Forall_cons in Hd0 as [Hd0 _].
  destruct (Z.eqb_spec (Z.lor (hex_digit d0) lc) 48) as [E0|]; [|done].
  assert (d0 = 0) as ->.
  { destruct (digit_char d0 lc Hd0 Hl) as [_ Hc]. cbn zeta in Hc. rewrite E0 in Hc. done. }
  rewrite last_snoc in Hlast. specialize (Hlast eq_refl).
  assert (ds = []) as -> by (destruct ds as [|? [|? ?]]; [done|discriminate|discriminate]).
  done.
Qed.

Lemma number_digits_numeral b lc n :
  b = 8 \/ b = 10 \/ b = 16 -> lc = 0 \/ lc = 32 -> is_word n ->
  exists ds, numeral b n ds /\ number_digits b lc n = map (fun d => Z.lor (hex_digit d) lc) ds /\ (length ds <= 11)%nat.
Proof.
  intros Hb Hl Hn. unfold is_word in Hn. assert (forall k, 1 < b -> n < b ^ Z.of_nat (S k) -> digits (S k) b n = digits 11 b n) as Hfu.
  { intros k H1 H2. apply digits_fuel; [done|lia|].
    assert (8 ^ 11 <= b ^ 11) by (apply Z.pow_le_mono_l; lia). change (Z.of_nat 11) with 11. lia. }
  exists (digits 11 b n). split_and!; [| |apply length_digits].
  - rewrite <- (Hfu 65%nat); [apply digits_numeral|..]; try lia; change (Z.of_nat 66) with 66;
      assert (8 ^ 66 <= b ^ 66) by (apply Z.pow_le_mono_l; lia); lia.
  - unfold number_digits. destruct (Z.eqb_spec n 0) as [->|].
    { cbn [digits]. rewrite (proj2 (Z.ltb_lt 0 b)) by lia. by destruct Hl as [->| ->]. }
    destruct (Z.eqb_spec b 10) as [->|].
    + rewrite wrap_small by done. rewrite (Hfu 9%nat) by lia. apply map_ext_in. intros d Hd.
      assert (numeral 10 n (digits 11 10 n)) as (_ & Hf & _) by (apply digits_numeral; lia).
      rewrite Forall_forall in Hf. specialize (Hf d (proj2 (list_elem_of_In _ _) Hd)).
      destruct (digit_char d lc) as [_ Hc]; [lia|done|].
      assert (d ∈ seqZ 0 10) as He by (apply elem_of_seqZ; lia).
      revert He. clear -Hl. intros He. revert d He. rewrite <- Forall_forall. destruct Hl as [->| ->]; repeat constructor.
    + rewrite (Hfu 65%nat); [done|lia|]. change (Z.of_nat 66) with 66.
      assert (8 ^ 66 <= b ^ 66) by (apply Z.pow_le_mono_l; lia). lia.
Qed.

(** ** Theorems *)

(** C19: [printed] is the output of a format without regard to a buffer; it is
    computed in the rounds the loop of [vsnprintf] has, and faults for a missing
    argument, a pointer that is no string, and [%pV].  If the output has fewer
    than 2^31 characters and does not run over the end of the address space
    behind [buf], [vsnprintf] returns its length; it changes the buffer only
    before [end], [size] bytes behind [buf] or at the end of the address space:
    there it puts the output, cut to leave room, and the terminator.  So the
    buffer always holds a string and nothing is written behind [size] bytes;
    with size 0 nothing is written at all. *)
Theorem vsnprintf_correct depth e buf mem size fmt args :
  0 ∉ fmt -> Forall is_word args -> is_word buf -> 0 <= size < 2147483648 ->
  printed e fmt args <> NoFuel /\
  forall T nr, printed e fmt args = Ret (T, nr) ->
    Z.of_nat (length T) < 2147483648 -> is_word (buf + Z.of_nat (length T)) ->
    let k := cut (room buf size) T in
    (size = 0 -> vsnprintf (S depth) e buf mem size fmt args = Ret (Z.of_nat (length T), mem, nr)) /\
    (0 < room buf size -> (k < length mem)%nat ->
     vsnprintf (S depth) e buf mem size fmt args = Ret (Z.of_nat (length T), take k T ++ 0 :: drop (S k) mem, nr)).
Proof.
  intros Hz Ha Hb Hs. split.
  - apply format_text_ends; [done|]. cbn [t_spec type mid]. lia.
  - intros T nr HT HlT HwT k. split.
    + intros ->. assert (room buf 0 = 0) as Hr.
      { unfold room. rewrite Z.add_0_r, wrap_small by done. by rewrite Z.ltb_irrefl. }
      rewrite (vsnprintf_spec depth e buf mem 0 fmt args T nr); rewrite ?Hr; try done.
    + intros Hr Hk. rewrite (vsnprintf_spec depth e buf mem size fmt args T nr); try done.
      unfold written. by rewrite (proj2 (Z.eqb_neq (room buf size) 0)) by lia.
Qed.

(** "%5d|%-5x|%s" *)
Definition sample_fmt : list Z := [37; 53; 100; 124; 37; 45; 53; 120; 124; 37; 115].
Definition sample_printf_env : env := Env (fun a => if a =? 0x20000 then Some [104; 105; 0] else None) (fun _ => None).

Lemma vsnprintf_witness :
  vsnprintf 1 sample_printf_env 0x1000 (replicate 9 7) 9 sample_fmt [4294967254; 255; 0x20000] =
    Ret (14, [32; 32; 45; 52; 50; 124; 102; 102; 0], []).
Proof.
  destruct (vsnprintf_correct 0 sample_printf_env 0x1000 (replicate 9 7) 9 sample_fmt [4294967254; 255; 0x20000])
    as [_ H].
  - apply (bool_decide_unpack _). reflexivity.
  - repeat constructor; lia.
  - unfold is_word. lia.
  - lia.
  - destruct (H [32; 32; 45; 52; 50; 124; 102; 102; 32; 32; 32; 124; 104; 105] [] eq_refl) as [_ H2];
      [cbn; lia|unfold is_word; cbn; lia|].
    exact (H2 eq_refl ltac:(apply Nat.leb_le; reflexivity)).
Defined.

(** The unsigned conversions: "%u", "%x", "%X" and "%o" with their bases. *)
Definition unsigned_conversion (c b : Z) : Prop :=
  (c = 117 /\ b = 10) \/ (c = 120 /\ b = 16) \/ (c = 88 /\ b = 16) \/ (c = 111 /\ b = 8).

Lemma number_text_plain n t fl b q :
  fl = 0 \/ fl = 32 -> number_text n (Spec t fl (-1) b (-1) q) = reverse (number_digits b fl n).
Proof.
  intros Hf. unfold number_text, sign_of. cbn [flags base field_width precision].
  assert (is_set fl SIGN = false /\ is_set fl SPECIAL = false /\ is_set fl LEFT = false /\ is_set fl ZEROPAD = false /\
    Z.land fl SMALL = fl) as (-> & -> & -> & -> & ->) by (by destruct Hf as [->| ->]).
  cbn [andb Z.eqb app]. rewrite !replicate_neg by (cbn [length]; lia). done.
Qed.

Lemma printed_unsigned e c b n :
  unsigned_conversion c b -> printed e [37; c] [n] = Ret (reverse (number_digits b (if c =? 120 then 32 else 0) n), []).
Proof.
  intros Hc. rewrite <- (number_text_plain n FORMAT_TYPE_UINT _ b (-1)) by (case_if; auto).
  by destruct Hc as [[-> ->]|[[-> ->]|[[-> ->]|[-> ->]]]].
Qed.

(** C20: what an unsigned conversion prints, [simple_strtoul] reads back: for
    every word and the bases 8, 10 and 16, printing into a buffer of 12 bytes
    and parsing the buffer gives the number, and the parser stops at the
    terminator. *)
Theorem print_parse_roundtrip depth e buf mem size c b n :
  unsigned_conversion c b -> is_word n -> 12 <= size < 2147483648 -> 0 <= buf -> is_word (buf + size) ->
  size <= Z.of_nat (length mem) ->
  exists len mem' tail, vsnprintf (S depth) e buf mem size [37; c] [n] = Ret (len, mem', []) /\
    simple_strtoul mem' b = Some (n, 0 :: tail) /\ drop (Z.to_nat size) mem' = drop (Z.to_nat size) mem.
Proof.
  intros Hc Hn Hs Hb Hw Hm. set (lc := if c =? 120 then 32 else 0).
  assert (lc = 0 \/ lc = 32) as Hl by (unfold lc; case_if; auto).
  assert (b = 8 \/ b = 10 \/ b = 16) as Hb3.
  { unfold unsigned_conversion in Hc. lia. }
  destruct (number_digits_numeral b lc n Hb3 Hl Hn) as (ds & Hds & Ed & Hlen).
  pose proof (printed_unsigned e c b n Hc) as HT. fold lc in HT. rewrite Ed in HT. set (T := reverse _) in HT.
  assert (length T = length ds) as HlT by (unfold T; by rewrite length_reverse, length_map).
  assert (room buf size = size) as Hroom.
  { unfold room. unfold is_word in Hw. rewrite wrap_small by (unfold is_word; lia). by rewrite (proj2 (Z.ltb_ge _ buf)) by lia. }
  pose proof (vsnprintf_spec depth e buf mem size [37; c] [n] T []) as HV. rewrite Hroom in HV.
  assert (cut size T = length T) as Hcut by (unfold cut; lia).
  unfold written in HV. rewrite (proj2 (Z.eqb_neq size 0)), Hcut, firstn_all in HV by lia. unfold is_word in HV, Hw.
  eexists _, _, _. split; [apply HV; try done; try lia|].
  { unfold unsigned_conversion in Hc. rewrite !not_elem_of_cons. split_and!; [lia|lia|apply not_elem_of_nil]. }
  { by apply Forall_singleton. }
  split; [apply strto_numeral; try done; unfold is_word in Hn; lia|].
  rewrite drop_app_ge by lia. replace (Z.to_nat size - length T)%nat with (S (Z.to_nat size - S (length T)))%nat by lia.
  cbn [drop]. rewrite drop_drop. f_equal. lia.
Qed.

Lemma print_parse_witness :
  exists len mem' tail, vsnprintf 1 sample_printf_env 0x1000 (replicate 12 7) 12 [37; 117] [4294967295] = Ret (len, mem', []) /\
    simple_strtoul mem' 10 = Some (4294967295, 0 :: tail) /\ drop 12 mem' = [].
Proof.
  apply (print_parse_roundtrip 0 sample_printf_env 0x1000 (replicate 12 7) 12 117 10 4294967295).
  - left. split; reflexivity.
  - unfold is_word. lia.
  - lia.
  - lia.
  - unfold is_word. lia.
  - cbn. lia.
Defined.

(** Decimal conversions of a [long long] print the low 32 bits of the
    magnitude: [put_dec] passes it to [h2d] as an [unsigned long].  "%llu" of
    [2^32 + 7] is "7". *)
Theorem number_truncates_long_long :
  let mem := replicate 30 1 in
  vsnprintf 1 sample_printf_env 0x1000 mem 30 [37; 108; 108; 117] [7; 1] = Ret (1, [55; 0] ++ drop 2 mem, []) /\
  vsnprintf 1 sample_printf_env 0x1000 mem 30 [37; 108; 108; 120] [7; 1] =
    Ret (9, [49; 48; 48; 48; 48; 48; 48; 48; 55; 0] ++ drop 10 mem, []).
Proof. by vm_compute. Qed.

(** A size with the sign bit set is rejected. *)
Theorem vsnprintf_rejects depth e buf mem size fmt args :
  2147483648 <= size < 4294967296 -> vsnprintf (S depth) e buf mem size fmt args = Ret (0, mem, []).
Proof.
  intros Hs. cbn [vsnprintf]. unfold to_int. rewrite wrap_small by (unfold is_word; lia).
  rewrite (proj2 (Z.ltb_ge size _)) by lia. by rewrite (proj2 (Z.ltb_lt _ 0)) by lia.
Qed.

(** [vscnprintf] returns the number of characters that are in the buffer. *)
Theorem vscnprintf_correct depth e buf mem size fmt args T nr :
  0 ∉ fmt -> Forall is_word args -> 0 < size < 2147483648 -> 0 <= buf -> is_word (buf + size) ->
  size <= Z.of_nat (length mem) -> Z.of_nat (length T) < 2147483648 -> is_word (buf + Z.of_nat (length T)) ->
  printed e fmt args = Ret (T, nr) ->
  let k := cut size T in
  vscnprintf (S depth) e buf mem size fmt args = Ret (Z.of_nat k, take k T ++ 0 :: drop (S k) mem, nr).
Proof.
  intros Hz Ha Hs Hb Hw Hm HlT HwT HT. cbn zeta. unfold vscnprintf.
  assert (room buf size = size) as Hroom.
  { unfold room. unfold is_word in Hw. rewrite wrap_small by (unfold is_word; lia). by rewrite (proj2 (Z.ltb_ge _ buf)) by lia. }
  rewrite (vsnprintf_spec depth e buf mem size fmt args T nr); rewrite ?Hroom; try done; try lia;
    [|unfold is_word in *; lia|unfold cut; lia].
  unfold written. cbn [mbind run_bind]. rewrite wrap_small, (proj2 (Z.eqb_neq size 0)) by (unfold is_word; lia). cbn [negb].
  destruct (Z.ltb_spec (Z.of_nat (length T)) size); f_equal; f_equal; f_equal; unfold cut; lia.
Qed.

(** [vsprintf] trusts its caller: a buffer that has room for the output and
    the terminator receives them. *)
Theorem vsprintf_correct depth e buf mem fmt args T nr :
  0 ∉ fmt -> Forall is_word args -> 0 <= buf -> buf + Z.of_nat (length mem) <= 0xffffffff ->
  Z.of_nat (length T) < INT_MAX -> (length T < length mem)%nat -> printed e fmt args = Ret (T, nr) ->
  vsprintf (S depth) e buf mem fmt args = Ret (Z.of_nat (length T), T ++ 0 :: drop (S (length T)) mem, nr).
Proof.
  intros Hz Ha Hb Hw Hi Hl HT. unfold vsprintf. unfold INT_MAX in *.
  assert (Z.of_nat (length T) < room buf 2147483647) as Hroom by (unfold room; case_if; lia).
  assert (cut (room buf 2147483647) T = length T) as Hcut by (unfold cut; lia).
  rewrite (vsnprintf_spec depth e buf mem 2147483647 fmt args T nr); try done; try (unfold is_word; lia).
  unfold written. by rewrite (proj2 (Z.eqb_neq (room buf 2147483647) 0)), Hcut, firstn_all by lia.
Qed.
