(* ===== verification/FsCache.v ===== *)
(** * The block cache of the file system

    [source/subsystem/fs]: [block.c] (descriptors and buffers), [mltt.c] (the
    two-level table from the blocks of a file to descriptors), and the users of
    the cache in [main.c] and [map.c].  The state keeps descriptors, tables and
    buffers by address; an array of 4096 zeroed entries is a map in which a
    missing entry is 0.  The doubly linked lists are lists of descriptors.  The
    content of a 256 KB buffer is a value of [data]: the code copies whole
    buffers only.  Locks are not modelled: an operation is one step.  [None] is
    an access through a NULL or a stray pointer. *)

From stdpp Require Import gmap.
From S2P Require Import Prelude MemAlloc Valloc.
Local Open Scope c_scope.
Import HeapOps VallocOps.

Definition FSS_CACHE_DB_SIZE : Z := Z.shiftl 1 18.
Definition FSS_CACHE_SIZE : Z := 8 * 1024 * 1024.
Definition DB_DIRTY : Z := 1.
Definition DB_WB_ERR : Z := 2.
Definition DB_VALID_DATA : Z := 4.
Definition DB_STAIC : Z := 8.
Definition FSS_DBD_LEVEL_EXCHANGE_MASK : Z := 127.
Definition MLTT_PAGE_SIZE_SHIFT : Z := 14.
Definition MLTT_PAGE_SIZE : Z := Z.shiftl 1 MLTT_PAGE_SIZE_SHIFT.
Definition MLTT_ENTRY_COUNT : Z := MLTT_PAGE_SIZE / 4.
Definition MLTT_TABLE_POINTER_MASK : Z := w_not (MLTT_PAGE_SIZE - 1).
Definition MLTT_TABLE_COUNTER_MASK : Z := MLTT_ENTRY_COUNT - 1.
Definition MLTT_TABLE_USING : Z := Z.shiftl 1 (MLTT_PAGE_SIZE_SHIFT - 1).
Definition SIZEOF_DBD : Z := 64.
Definition EBADF : Z := 9.
Definition ENOMEM : Z := 12.

(** The size of every file. *)
Definition fss_get_size : Z := 1024 * 1024.

Record dbmr := Dbmr { m_process : Z; m_base : Z }.

Record dbd := Dbd {
  d_prev : Z;                  (* list.prev while the descriptor is free, 0 otherwise *)
  d_block_id : Z;
  d_who : Z;
  d_map_list : list dbmr;
  d_access_counter : Z;
  d_refcount : Z;
  d_buffer : Z;
  d_valid_size : Z;
  d_flags : Z
}.

Record fss_cache := Cache {
  db_count : Z;
  db_stack : list Z;
  db_stack_top : Z;
  dbd_stack_top : Z;
  sort_list : list Z;
  dirty_list : list Z
}.

Record fss_mltt_pos := Pos { lv1 : Z; lv2 : Z }.

#[global] Instance fss_mltt_pos_eq_dec : EqDecision fss_mltt_pos.
Proof. solve_decision. Defined.

Section State.
Context {data A : Type}.

(** [mltt] and [private] are the fields of the open files; a file without a
    table has [mltt] 0. *)
Record fstate := FState {
  cache : fss_cache;
  dbds : gmap Z dbd;
  tables : gmap Z (gmap Z Z);
  bufs : gmap Z data;
  heap : A;
  mltt : gmap Z Z;
  private : gmap Z Z
}.
End State.
Arguments fstate : clear implicits.

Module CacheOps.

Definition set_prev (d : dbd) (p : Z) : dbd :=
  Dbd p (d_block_id d) (d_who d) (d_map_list d) (d_access_counter d) (d_refcount d) (d_buffer d) (d_valid_size d) (d_flags d).
Definition set_block (d : dbd) (b : Z) : dbd :=
  Dbd (d_prev d) b (d_who d) (d_map_list d) (d_access_counter d) (d_refcount d) (d_buffer d) (d_valid_size d) (d_flags d).
Definition set_who (d : dbd) (f : Z) : dbd :=
  Dbd (d_prev d) (d_block_id d) f (d_map_list d) (d_access_counter d) (d_refcount d) (d_buffer d) (d_valid_size d) (d_flags d).
Definition set_maps (d : dbd) (l : list dbmr) : dbd :=
  Dbd (d_prev d) (d_block_id d) (d_who d) l (d_access_counter d) (d_refcount d) (d_buffer d) (d_valid_size d) (d_flags d).
Definition set_access (d : dbd) (n : Z) : dbd :=
  Dbd (d_prev d) (d_block_id d) (d_who d) (d_map_list d) n (d_refcount d) (d_buffer d) (d_valid_size d) (d_flags d).
Definition set_refcount (d : dbd) (n : Z) : dbd :=
  Dbd (d_prev d) (d_block_id d) (d_who d) (d_map_list d) (d_access_counter d) n (d_buffer d) (d_valid_size d) (d_flags d).
Definition set_buffer (d : dbd) (p : Z) : dbd :=
  Dbd (d_prev d) (d_block_id d) (d_who d) (d_map_list d) (d_access_counter d) (d_refcount d) p (d_valid_size d) (d_flags d).
Definition set_valid (d : dbd) (n f : Z) : dbd :=
  Dbd (d_prev d) (d_block_id d) (d_who d) (d_map_list d) (d_access_counter d) (d_refcount d) (d_buffer d) n f.

Definition set_sort (c : fss_cache) (l : list Z) : fss_cache :=
  Cache (db_count c) (db_stack c) (db_stack_top c) (dbd_stack_top c) l (dirty_list c).

Section Ops.
Context {data A : Type} `{AlignedHeap A MLTT_PAGE_SIZE MLTT_PAGE_SIZE}.
Notation st := (fstate data A).

Definition set_cache (s : st) (c : fss_cache) : st := FState c (dbds s) (tables s) (bufs s) (heap s) (mltt s) (private s).
Definition set_dbd (s : st) (d : Z) (x : dbd) : st :=
  FState (cache s) (<[d := x]> (dbds s)) (tables s) (bufs s) (heap s) (mltt s) (private s).
Definition set_tables (s : st) (t : gmap Z (gmap Z Z)) (h : A) : st :=
  FState (cache s) (dbds s) t (bufs s) h (mltt s) (private s).
Definition set_mltt (s : st) (f p : Z) : st :=
  FState (cache s) (dbds s) (tables s) (bufs s) (heap s) (<[f := p]> (mltt s)) (private s).
Definition set_buf (s : st) (p : Z) (x : data) : st :=
  FState (cache s) (dbds s) (tables s) (<[p := x]> (bufs s)) (heap s) (mltt s) (private s).

(** ** [block.c] *)

Definition fss_db_malloc (s : st) : option (Z * st) :=
  let c := cache s in
  if 0 <=? db_stack_top c then
    ret ← word_at (db_stack c) (db_stack_top c);
    Some (ret, set_cache s (Cache (db_count c) (db_stack c) (db_stack_top c - 1) (dbd_stack_top c) (sort_list c) (dirty_list c)))
  else Some (0, s).

(** [memset] and the empty lists. *)
Definition fss_dbd_malloc (s : st) (who : Z) : option (Z * st) :=
  let c := cache s in
  let ret := dbd_stack_top c in
  if negb (ret =? 0) then
    d ← dbds s !! ret;
    let s := set_cache s (Cache (db_count c) (db_stack c) (db_stack_top c) (d_prev d) (sort_list c) (dirty_list c)) in
    Some (ret, set_dbd s ret (Dbd 0 0 who [] 0 0 0 0 0))
  else Some (0, s).

(** The links of a descriptor that is in the LRU list are in use: the store
    to [list.prev] would break that list. *)
Definition fss_dbd_free (s : st) (d : Z) : option st :=
  x ← dbds s !! d;
  if bool_decide (d ∈ sort_list (cache s)) then None else
  '(s, x) ← (if negb (d_buffer x =? 0) then
               let c := cache s in
               let top := db_stack_top c + 1 in
               stack ← word_set (db_stack c) top (d_buffer x);
               Some (set_cache s (Cache (db_count c) stack top (dbd_stack_top c) (sort_list c) (dirty_list c)), set_buffer x 0)
             else Some (s, x));
  let c := cache s in
  let s := set_dbd s d (set_who (set_prev x (dbd_stack_top c)) 0) in
  Some (set_cache s (Cache (db_count c) (db_stack c) (db_stack_top c) d (sort_list c) (dirty_list c))).

(** [list_del] and [list_add] behind the successor; the successor of the last
    element is the head of the list.  [None]: the element is not in the list. *)
Fixpoint exchange (l : list Z) (d : Z) : option (list Z) :=
  match l with
  | [] => None
  | x :: l =>
    if x =? d then match l with y :: l => Some (y :: d :: l) | [] => Some [d] end
    else l ← exchange l d; Some (x :: l)
  end.

Definition lru_exchange (l : list Z) (d : Z) : option (list Z) :=
  l' ← exchange l d;
  Some (if bool_decide (last l = Some d) then d :: removelast l else l').

Definition fss_dbd_lru_update (s : st) (d : Z) : option st :=
  x ← dbds s !! d;
  let n := to_int (d_access_counter x + 1) in
  let s := set_dbd s d (set_access x n) in
  if Z.land n FSS_DBD_LEVEL_EXCHANGE_MASK =? 0 then
    match sort_list (cache s) with
    | [_] => Some s
    | l => l' ← lru_exchange l d; Some (set_cache s (set_sort (cache s) l'))
    end
  else Some s.

Definition fss_dbd_lru_add (s : st) (which : Z) : st :=
  set_cache s (set_sort (cache s) (sort_list (cache s) ++ [which])).

Definition fss_dbd_add_to_dirty (s : st) (which : Z) : st :=
  let c := cache s in
  if bool_decide (which ∈ dirty_list c) then s
  else set_cache s (Cache (db_count c) (db_stack c) (db_stack_top c) (dbd_stack_top c) (sort_list c) (which :: dirty_list c)).

(** [cache_desc()->recaller] is never assigned: it is a NULL pointer. *)
Definition fss_grab_buffer : option bool := None.

(** The two loops of [fss_db_init]. *)
Fixpoint push_dbs (n : nat) (db_cache : Z) : list Z :=
  match n with O => [] | S n => push_dbs n db_cache ++ [db_cache +w (Z.of_nat n *w FSS_CACHE_DB_SIZE)] end.
Fixpoint push_dbds (n : nat) (dbd_cache : Z) (raw : Z -> dbd) (m : gmap Z dbd) : Z * gmap Z dbd :=
  match n with
  | O => (0, m)
  | S n =>
    let '(prev, m) := push_dbds n dbd_cache raw m in
    let p := dbd_cache + Z.of_nat n * SIZEOF_DBD in
    (p, <[p := set_prev (set_buffer (raw p) 0) prev]> m)
  end.

(** The arguments are the results of the three allocations, and what memory
    holds; the blocks a failed start gives back are the third result. *)
Definition fss_db_init (s : st) (db_cache stack dbd_cache : Z) (raw : Z -> dbd) : bool * st * list Z :=
  let n := FSS_CACHE_SIZE / FSS_CACHE_DB_SIZE in
  let c := cache s in
  if db_cache =? 0 then
    (false, set_cache s (Cache n (db_stack c) (db_stack_top c) (dbd_stack_top c) (sort_list c) (dirty_list c)), []) else
  if stack =? 0 then
    (false, set_cache s (Cache 0 (db_stack c) (db_stack_top c) (dbd_stack_top c) (sort_list c) (dirty_list c)), [db_cache]) else
  let dbs := push_dbs (Z.to_nat n) db_cache in
  if dbd_cache =? 0 then
    (false, set_cache s (Cache 0 dbs (n - 1) (dbd_stack_top c) (sort_list c) (dirty_list c)), [stack; db_cache]) else
  let '(top, m) := push_dbds (Z.to_nat n) dbd_cache raw (dbds s) in
  (true, FState (Cache n dbs (n - 1) top [] []) m (tables s) (bufs s) (heap s) (mltt s) (private s), []).

(** ** [mltt.c] *)

Definition calc_mltt_pos (block_id : Z) : fss_mltt_pos :=
  let lv_bits := if MLTT_ENTRY_COUNT =? 1024 then 10 else if MLTT_ENTRY_COUNT =? 2048 then 11 else 12 in
  Pos (Z.land block_id (Z.shiftl 1 lv_bits - 1)) (Z.land (Z.shiftr block_id lv_bits) (Z.shiftl 1 lv_bits - 1)).

(** A zeroed array of words. *)
Definition entry (t : gmap Z Z) (i : Z) : Z := default 0 (t !! i).
Definition set_entry (t : gmap Z Z) (i v : Z) : gmap Z Z := if v =? 0 then delete i t else <[i := v]> t.

Definition read_entry (s : st) (p i : Z) : option Z :=
  t ← tables s !! p; if (0 <=? i) && (i <? MLTT_ENTRY_COUNT) then Some (entry t i) else None.
Definition write_entry (s : st) (p i v : Z) : option st :=
  t ← tables s !! p;
  if (0 <=? i) && (i <? MLTT_ENTRY_COUNT) then Some (set_tables s (<[p := set_entry t i v]> (tables s)) (heap s)) else None.

Definition allocate_lv2 (s : st) (f : Z) : option (Z * st) :=
  '(p, h) ← ah_malloc (heap s);
  if p =? 0 then Some (0, set_tables s (tables s) h)
  else Some (p, set_mltt (set_tables s (<[p := ∅]> (tables s)) h) f p).

Definition allocate_lv1 (s : st) (f : Z) (pos : fss_mltt_pos) : option (Z * st) :=
  '(p, h) ← ah_malloc (heap s);
  if p =? 0 then Some (0, set_tables s (tables s) h)
  else
    t ← mltt s !! f;
    s ← write_entry (set_tables s (<[p := ∅]> (tables s)) h) t (lv2 pos) p;
    Some (p, s).

Definition deallocate_lv1 (s : st) (p : Z) : option st :=
  h ← ah_free (heap s) p; Some (set_tables s (delete p (tables s)) h).

(** [search_mltt] up to the label [end]: the descriptor, 0 when a table
    cannot be allocated. *)
Definition find_dbd (s : st) (file : Z) (pos : fss_mltt_pos) (block_id : Z) : option (Z * st) :=
  t ← mltt s !! file;
  '(t, s) ← (if t =? 0 then allocate_lv2 s file else Some (t, s));
  if t =? 0 then Some (0, s) else
  e ← read_entry s t (lv2 pos);
  let l := Z.land e MLTT_TABLE_POINTER_MASK in
  '(l, s) ← (if l =? 0 then allocate_lv1 s file pos else Some (l, s));
  if l =? 0 then Some (0, s) else
  d ← read_entry s l (lv1 pos);
  if negb (d =? 0) then Some (d, s) else
  '(d, s) ← fss_dbd_malloc s file;
  if d =? 0 then fss_grab_buffer ≫= (fun _ => None) else
  s ← write_entry s l (lv1 pos) d;
  e ← read_entry s t (lv2 pos);
  s ← write_entry s t (lv2 pos) (e +w 1);
  x ← dbds s !! d;
  Some (d, set_dbd s d (set_block x block_id)).

(** A descriptor without a buffer gets one and enters the LRU list. *)
Definition fill_buffer (s : st) (who : Z) : option st :=
  x ← dbds s !! who;
  if negb (d_buffer x =? 0) then Some s else
  '(p, s) ← fss_db_malloc s;
  if p =? 0 then fss_grab_buffer ≫= (fun _ => None) else
  Some (fss_dbd_lru_add (set_dbd s who (set_buffer x p)) who).

(** The counter of [who] is incremented also when it is NULL. *)
Definition search_mltt (s : st) (file : Z) (pos : fss_mltt_pos) (block_id : Z) : option (Z * st) :=
  '(who, s) ← find_dbd s file pos block_id;
  x ← (if who =? 0 then None else dbds s !! who);
  let s := set_dbd s who (set_refcount x (to_int (d_refcount x + 1))) in
  s ← fill_buffer s who;
  s ← fss_dbd_lru_update s who;
  Some (who, s).

Definition fss_mltt_entry_clean_nolock (s : st) (d : Z) : option (bool * st) :=
  x ← dbds s !! d;
  if negb (Z.land (d_flags x) DB_STAIC =? 0) then Some (true, s) else
  let pos := calc_mltt_pos (d_block_id x) in
  t ← mltt s !! d_who x;
  e ← read_entry s t (lv2 pos);
  let l := Z.land e MLTT_TABLE_POINTER_MASK in
  s ← write_entry s l (lv1 pos) 0;
  let e := e -w 1 in
  s ← write_entry s t (lv2 pos) e;
  if Z.land e MLTT_TABLE_COUNTER_MASK =? 0 then
    if negb (Z.land e MLTT_TABLE_USING =? 0) then Some (true, s)
    else
      s ← write_entry s t (lv2 pos) 0;
      s ← deallocate_lv1 s l;
      Some (true, s)
  else Some (true, s).

Definition fss_dbd_get (s : st) (who block_id : Z) : option (Z * st) :=
  search_mltt s who (calc_mltt_pos block_id) block_id.

Definition fss_dbd_put (s : st) (which : Z) : option st :=
  x ← dbds s !! which; Some (set_dbd s which (set_refcount x (to_int (d_refcount x - 1)))).

(** ** [main.c] and [map.c] *)

(** The driver: the result, the content of the buffer and the size. *)
Context (fRead : Z -> Z -> data -> Z * data * Z).

Definition fss_dbd_make_dirty (s : st) (which : Z) : option st :=
  x ← dbds s !! which; Some (set_dbd s which (set_valid x (d_valid_size x) (Z.lor (d_flags x) DB_DIRTY))).

Definition fss_dbd_make_valid (s : st) (who which : Z) : option (Z * st) :=
  x ← dbds s !! which;
  if negb (Z.land (d_flags x) DB_VALID_DATA =? 0) then Some (d_valid_size x, s) else
  pr ← private s !! who;
  if pr =? 0 then Some (- EBADF, s) else
  old ← bufs s !! d_buffer x;
  let '(ret, content, size) := fRead pr (d_block_id x) old in
  let s := set_buf s (d_buffer x) content in
  Some (ret, set_dbd s which (set_valid x (to_int size) (Z.lor (d_flags x) DB_VALID_DATA))).

(** [buffer] is the content of the caller's buffer, before and after. *)
Definition fss_block_io (s : st) (who block : Z) (buffer : data) (write : bool) : option (Z * data * st) :=
  '(which, s) ← fss_dbd_get s who block;
  '(ret, s) ← fss_dbd_make_valid s who which;
  '(ret, buffer, s) ← (if ret <? 0 then Some (ret, buffer, s) else
    x ← dbds s !! which;
    '(buffer, s) ← (if negb write then content ← bufs s !! d_buffer x; Some (content, s)
                    else s ← fss_dbd_make_dirty (set_buf s (d_buffer x) buffer) which; Some (buffer, s));
    Some (d_valid_size x, buffer, s));
  s ← fss_dbd_put s which;
  Some (ret, buffer, s).

(** [km_ok]: the allocation of the map record succeeded; the position has 64
    bits, the block is truncated to a word. *)
Definition fss_map_prepare_dbd (s : st) (file process file_pos : Z) (km_ok : bool) : option (Z * st) :=
  '(which, s) ← fss_dbd_get s file (wrap (file_pos / FSS_CACHE_DB_SIZE));
  '(ret, s) ← fss_dbd_make_valid s file which;
  '(addr, s) ← (if (ret <? 0) || negb km_ok then Some (0, s) else
    x ← dbds s !! which;
    Some (d_buffer x +w file_pos mod FSS_CACHE_DB_SIZE, set_dbd s which (set_maps x (d_map_list x ++ [Dbmr process 0]))));
  s ← fss_dbd_put s which;
  Some (addr, s).

End Ops.
End CacheOps.
Import CacheOps.

(** ** Table entries: a pointer and a counter in one word *)

Lemma mask_split p n : p mod 16384 = 0 -> 0 <= n < 16384 -> 0 <= p -> is_word (p + n) ->
  Z.land (p + n) MLTT_TABLE_POINTER_MASK = p.
Proof.
  intros Hp Hn H0 Hw. change MLTT_TABLE_POINTER_MASK with (w_not (2 ^ 14 - 1)).
  rewrite round_down_pow2 by (done || lia). change (2 ^ 14) with 16384. zlia.
Qed.

Lemma mask_zero e : is_word e -> e < 16384 -> Z.land e MLTT_TABLE_POINTER_MASK = 0.
Proof. intros He Hl. pose proof (mask_split 0 e) as E. rewrite Z.add_0_l in E. unfold is_word in *. apply E; (done || lia). Qed.

Lemma entry_set t i j v : entry (set_entry t i v) j = if j =? i then v else entry t j.
Proof.
  unfold entry, set_entry. destruct (Z.eqb_spec v 0) as [->|Hv], (Z.eqb_spec j i) as [->|Hj].
  - by rewrite lookup_delete_eq.
  - by rewrite lookup_delete_ne.
  - by rewrite lookup_insert_eq.
  - by rewrite lookup_insert_ne.
Qed.

Lemma entry_empty i : entry ∅ i = 0.
Proof. done. Qed.

(** Tables have entries at their indices only, and no zero is stored. *)
Definition table_wf (t : gmap Z Z) : Prop := forall i v, t !! i = Some v -> 0 <= i < 4096 /\ v <> 0.

Lemma table_wf_set t i v : table_wf t -> 0 <= i < 4096 -> table_wf (set_entry t i v).
Proof.
  intros Ht Hi j w. unfold set_entry. destruct (Z.eqb_spec v 0) as [->|Hv].
  - intros [_ Hj]%lookup_delete_Some. by apply Ht.
  - intros [[<- <-]|[_ Hj]]%lookup_insert_Some; [done|by apply Ht].
Qed.

Lemma table_size t : table_wf t -> Z.of_nat (size t) <= 4096.
Proof.
  intros Ht. rewrite <- size_dom. assert (dom t ⊆ list_to_set (seqZ 0 4096)) as Hs.
  { intros i [v Hv]%elem_of_dom. apply elem_of_list_to_set, elem_of_seqZ. apply Ht in Hv. lia. }
  apply subseteq_size in Hs. etrans; [apply Nat2Z.inj_le, Hs|].
  rewrite size_list_to_set by apply NoDup_seqZ. rewrite length_seqZ. lia.
Qed.

Lemma size_set t i v : table_wf t -> entry t i = 0 -> v <> 0 -> size (set_entry t i v) = S (size t).
Proof.
  intros Ht He Hv. unfold set_entry. rewrite (proj2 (Z.eqb_neq v 0) Hv). apply map_size_insert_None.
  unfold entry in He. destruct (t !! i) as [w|] eqn:E; [|done]. cbn in He. subst w. by destruct (Ht _ _ E).
Qed.

(** The position of a block. *)
Lemma calc_mltt_pos_eq b : 0 <= b -> calc_mltt_pos b = Pos (b mod 4096) ((b / 4096) mod 4096).
Proof.
  intros Hb. unfold calc_mltt_pos. cbn zeta. change (if MLTT_ENTRY_COUNT =? 1024 then 10 else _) with 12.
  change (Z.shiftl 1 12 - 1) with (Z.ones 12). rewrite !Z.land_ones, Z.shiftr_div_pow2 by lia. done.
Qed.

Lemma calc_mltt_pos_range b : 0 <= b -> 0 <= lv1 (calc_mltt_pos b) < 4096 /\ 0 <= lv2 (calc_mltt_pos b) < 4096.
Proof. intros Hb. rewrite calc_mltt_pos_eq by done. cbn. split; apply Z.mod_pos_bound; lia. Qed.

(** Below 2^24 blocks have positions of their own. *)
Lemma calc_mltt_pos_inj b b' : 0 <= b < 2 ^ 24 -> 0 <= b' < 2 ^ 24 -> calc_mltt_pos b = calc_mltt_pos b' -> b = b'.
Proof. intros Hb Hb'. rewrite !calc_mltt_pos_eq by lia. intros [= H1 H2]. zlia. Qed.

Section Invariant.
Context {data A : Type} `{AlignedHeap A MLTT_PAGE_SIZE MLTT_PAGE_SIZE}.
Notation st := (fstate data A).

(** ** The table of a file *)

Definition tab (s : st) (p : Z) : gmap Z Z := default ∅ (tables s !! p).
Definition top (s : st) (f : Z) : Z := default 0 (mltt s !! f).
Definition sub (s : st) (f i : Z) : Z := Z.land (entry (tab s (top s f)) i) MLTT_TABLE_POINTER_MASK.
(** The descriptor of a position, 0 for none. *)
Definition find (s : st) (f : Z) (pos : fss_mltt_pos) : Z := entry (tab s (sub s f (lv2 pos))) (lv1 pos).

Inductive role := Top (f : Z) | Sub (f i : Z).
Definition table_of (s : st) (r : role) : Z := match r with Top f => top s f | Sub f i => sub s f i end.

(** Every table has one role; the word of a second-level table counts its
    entries. *)
Record tables_ok (s : st) : Prop := {
  to_heap : ah_ok (heap s);
  to_in : forall p t, tables s !! p = Some t -> ah_in (heap s) p /\ table_wf t;
  to_role : forall r, table_of s r <> 0 -> is_Some (tables s !! table_of s r);
  to_inj : forall r r', table_of s r = table_of s r' -> table_of s r <> 0 -> r = r';
  to_count : forall f i, entry (tab s (top s f)) i <> 0 ->
    sub s f i <> 0 /\ entry (tab s (top s f)) i = sub s f i + Z.of_nat (size (tab s (sub s f i)))
}.

Lemma to_bounds s p t : tables_ok s -> tables s !! p = Some t -> 0 < p /\ p mod 16384 = 0 /\ is_word (p + 16384).
Proof. intros Hok Hp. apply (ah_bounds (heap s)); [apply Hok|by eapply to_in]. Qed.

Lemma to_zero s : tables_ok s -> tables s !! 0 = None.
Proof. intros Hok. destruct (tables s !! 0) as [t|] eqn:E; [|done]. apply to_bounds in E; [lia|done]. Qed.

Lemma tab_wf s p : tables_ok s -> table_wf (tab s p).
Proof. intros Hok. unfold tab. destruct (tables s !! p) as [t|] eqn:E; [by apply (to_in s Hok p)|done]. Qed.

Lemma tab_zero s : tables_ok s -> tab s 0 = ∅.
Proof. intros Hok. unfold tab. by rewrite to_zero. Qed.

Lemma sub_zero s f i : tables_ok s -> sub s f i = 0 -> entry (tab s (top s f)) i = 0.
Proof.
  intros Hok Hs. destruct (decide (entry (tab s (top s f)) i = 0)) as [|Hne]; [done|].
  by destruct (to_count s Hok f i Hne).
Qed.

(** States with the same tables have the same positions. *)
Lemma tables_ok_ext s s' :
  tables s' = tables s -> mltt s' = mltt s -> heap s' = heap s -> tables_ok s -> tables_ok s'.
Proof.
  intros Ht Hm Hh [H1 H2 H3 H4 H5].
  assert (forall r, table_of s' r = table_of s r) as Hr.
  { intros [f|f i]; cbn; unfold sub, tab, top; by rewrite ?Hm, ?Ht. }
  constructor; rewrite ?Ht, ?Hh; try done.
  - intros r. rewrite Hr. apply H3.
  - intros r r'. rewrite !Hr. apply H4.
  - intros f i. unfold sub, tab, top in *. rewrite Hm, Ht. apply H5.
Qed.

Lemma find_ext s s' f pos : tables s' = tables s -> mltt s' = mltt s -> find s' f pos = find s f pos.
Proof. intros Ht Hm. unfold find, sub, tab, top. by rewrite Ht, Hm. Qed.

Lemma tab_insert (s : st) t h p q x :
  tab (set_tables s (<[p := x]> t) h) q = if q =? p then x else default ∅ (t !! q).
Proof.
  unfold tab. cbn. destruct (Z.eqb_spec q p) as [->|Hne]; [by rewrite lookup_insert_eq|by rewrite lookup_insert_ne].
Qed.

(** A table in use is not the fresh block [p]. *)
Lemma role_fresh s r p : tables_ok s -> tables s !! p = None -> p <> 0 -> table_of s r <> p.
Proof.
  intros Hok Hp H0 E. destruct (to_role s Hok r) as [t Ht]; [congruence|]. by rewrite E, Hp in Ht.
Qed.

Lemma malloc_fresh s p h :
  tables_ok s -> ah_malloc (heap s) = Some (p, h) -> p <> 0 ->
  ah_ok h /\ tables s !! p = None /\ ah_in h p /\ (forall q, ah_in (heap s) q -> ah_in h q) /\
  p mod 16384 = 0 /\ 0 < p /\ is_word (p + 16384).
Proof.
  intros Hok E Hp. destruct (ah_malloc_law (heap s) (to_heap s Hok)) as (p' & h' & E' & Hok' & Hl).
  rewrite E in E'. injection E' as <- <-. destruct Hl as [[? _]|[Hni Hl]]; [done|].
  assert (ah_in h p) as Hin by (apply Hl; by left). destruct (ah_bounds h p Hok' Hin) as (? & ? & ?).
  split_and!; try done.
  - destruct (tables s !! p) as [t|] eqn:Et; [|done]. by apply (to_in s Hok) in Et as [? _].
  - intros q Hq. apply Hl. by right.
Qed.

Lemma fresh_top s f p h :
  tables_ok s -> top s f = 0 -> ah_malloc (heap s) = Some (p, h) -> p <> 0 ->
  let s' := set_mltt (set_tables s (<[p := ∅]> (tables s)) h) f p in
  tables_ok s' /\ top s' f = p /\ forall g pos, find s' g pos = find s g pos.
Proof.
  intros Hok Hf E Hp s'. destruct (malloc_fresh s p h Hok E Hp) as (Hh & Hn & Hin & Hmono & Ha & H0 & Hw).
  assert (forall q, q <> p -> tab s' q = tab s q) as Htab.
  { intros q Hq. unfold tab, s'. cbn. by rewrite lookup_insert_ne. }
  assert (tab s' p = ∅) as Htp by (unfold tab, s'; cbn; by rewrite lookup_insert_eq).
  assert (forall g, g <> f -> top s' g = top s g) as Htop.
  { intros g Hg. unfold top, s'. cbn. by rewrite lookup_insert_ne. }
  assert (top s' f = p) as Htf by (unfold top, s'; cbn; by rewrite lookup_insert_eq).
  assert (forall r, table_of s r <> p) as Hnr by (intros r; by apply role_fresh).
  assert (forall g i, sub s' g i = sub s g i) as Hsub.
  { intros g i. unfold sub. destruct (decide (g = f)) as [->|Hg].
    - by rewrite Htf, Htp, Hf, tab_zero by done.
    - rewrite Htop, Htab by (done || apply (Hnr (Top g))). done. }
  assert (forall g i, entry (tab s' (top s' g)) i <> 0 -> g <> f) as Hgf.
  { intros g i He ->. by rewrite Htf, Htp in He. }
  split; [|split; [done|intros g pos; unfold find; rewrite Hsub, Htab; [done|apply (Hnr (Sub g _))]]].
  constructor.
  - done.
  - intros q t. unfold s'. cbn. intros [[<- <-]|[_ Ht]]%lookup_insert_Some; [done|].
    destruct (to_in s Hok q t Ht). split; [by apply Hmono|done].
  - intros r Hr. destruct (decide (table_of s' r = p)) as [->|Hne]; [unfold s'; cbn; rewrite lookup_insert_eq; by eexists|].
    unfold s'. cbn. rewrite lookup_insert_ne by done. destruct r as [g|g i]; cbn in *.
    + assert (g <> f) by (intros ->; congruence). rewrite Htop in * by done. by apply (to_role s Hok (Top g)).
    + rewrite Hsub in *. by apply (to_role s Hok (Sub g i)).
  - intros r r' Er Hr.
    assert (forall r, r = Top f \/ table_of s' r = table_of s r) as Hcase.
    { intros [g|g i]; cbn; [|by right; apply Hsub]. destruct (decide (g = f)) as [->|]; [by left|right; by apply Htop]. }
    destruct (Hcase r) as [->|E1], (Hcase r') as [->|E2]; [done| | |].
    + exfalso. apply (Hnr r'). rewrite <- E2, <- Er. exact Htf.
    + exfalso. apply (Hnr r). rewrite <- E1, Er. exact Htf.
    + rewrite E1, E2 in *. by apply (to_inj s Hok).
  - intros g i He. pose proof (Hgf _ _ He) as Hg. rewrite Hsub, Htop, Htab in * by (done || apply (Hnr (Top g))).
    rewrite Htab by apply (Hnr (Sub g i)). by apply (to_count s Hok).
Qed.

Lemma fresh_sub s f i p h t T :
  tables_ok s -> top s f = t -> t <> 0 -> tables s !! t = Some T -> sub s f i = 0 -> 0 <= i < 4096 ->
  ah_malloc (heap s) = Some (p, h) -> p <> 0 ->
  let s' := set_tables s (<[t := set_entry T i p]> (<[p := ∅]> (tables s))) h in
  tables_ok s' /\ sub s' f i = p /\ forall g pos, find s' g pos = find s g pos.
Proof.
  intros Hok Ht Ht0 HT Hs Hi E Hp s'. destruct (malloc_fresh s p h Hok E Hp) as (Hh & Hn & Hin & Hmono & Ha & H0 & Hw).
  assert (forall r, table_of s r <> p) as Hnr by (intros r; by apply role_fresh).
  assert (t <> p) as Htp by (rewrite <- Ht; apply (Hnr (Top f))).
  assert (tab s t = T) as HtT by (unfold tab; by rewrite HT).
  assert (forall q, q <> t -> q <> p -> tab s' q = tab s q) as Htab.
  { intros q Hq1 Hq2. unfold tab, s'. cbn. by rewrite !lookup_insert_ne. }
  assert (tab s' t = set_entry T i p) as Htt by (unfold tab, s'; cbn; by rewrite lookup_insert_eq).
  assert (tab s' p = ∅) as Htp' by (unfold tab, s'; cbn; rewrite lookup_insert_ne, lookup_insert_eq by done; done).
  assert (forall g, g <> f -> top s g <> t) as Hgt.
  { intros g Hg Eg. apply Hg. assert (Top g = Top f) as [=]; [|done]. apply (to_inj s Hok); cbn; congruence. }
  assert (forall g j, sub s g j <> t) as Hst.
  { intros g j Es. assert (Sub g j = Top f) as [=]. apply (to_inj s Hok); cbn; congruence. }
  assert (Z.land p MLTT_TABLE_POINTER_MASK = p) as Hmask.
  { rewrite <- (Z.add_0_r p) at 1. apply mask_split; try lia. unfold is_word in *. lia. }
  assert (sub s' f i = p) as Hsi.
  { unfold sub. change (top s' f) with (top s f). rewrite Ht, Htt, entry_set, Z.eqb_refl. done. }
  assert (forall g j, (g, j) <> (f, i) -> sub s' g j = sub s g j) as Hsub.
  { intros g j Hne. unfold sub. change (top s' g) with (top s g). destruct (decide (g = f)) as [->|Hg].
    - rewrite Ht, Htt, HtT, entry_set. rewrite (proj2 (Z.eqb_neq j i)) by congruence. done.
    - rewrite Htab; [done|by apply Hgt|apply (Hnr (Top g))]. }
  assert (forall g j, (g, j) <> (f, i) -> tab s' (sub s' g j) = tab s (sub s g j)) as Hstab.
  { intros g j Hne. rewrite Hsub by done. apply Htab; [apply Hst|apply (Hnr (Sub g j))]. }
  split; [|split; [done|]].
  2: { intros g pos. unfold find. destruct (decide ((g, lv2 pos) = (f, i))) as [[= -> E2]|Hne]; [|by rewrite Hstab].
       rewrite E2, Hsi, Htp', Hs, tab_zero by done. done. }
  assert (forall r, r = Sub f i \/ table_of s' r = table_of s r) as Hcase.
  { intros [g|g j]; [by right|]. destruct (decide ((g, j) = (f, i))) as [[= -> ->]|]; [by left|right; by apply Hsub]. }
  constructor.
  - done.
  - intros q x. unfold s'. cbn. intros [[<- <-]|[_ [[<- <-]|[_ Hq]]%lookup_insert_Some]]%lookup_insert_Some; [|done|].
    + destruct (to_in s Hok t T HT). split; [by apply Hmono|by apply table_wf_set].
    + destruct (to_in s Hok q x Hq). split; [by apply Hmono|done].
  - intros r Hr. change (tables s') with (<[t := set_entry T i p]> (<[p := ∅]> (tables s))).
    destruct (decide (table_of s' r = t)) as [->|Hne]; [rewrite lookup_insert_eq; by eexists|].
    rewrite lookup_insert_ne by done.
    destruct (Hcase r) as [->|Er]; [cbn [table_of]; rewrite Hsi, lookup_insert_eq; by eexists|].
    rewrite Er in *. rewrite lookup_insert_ne by (apply not_eq_sym, Hnr). by apply (to_role s Hok).
  - intros r r' Er Hr. destruct (Hcase r) as [->|E1], (Hcase r') as [->|E2]; [done| | |].
    + exfalso. apply (Hnr r'). rewrite <- E2, <- Er. exact Hsi.
    + exfalso. apply (Hnr r). rewrite <- E1, Er. exact Hsi.
    + rewrite E1, E2 in *. by apply (to_inj s Hok).
  - intros g j. change (top s' g) with (top s g). destruct (decide ((g, j) = (f, i))) as [[= -> ->]|Hne].
    + intros _. rewrite Hsi, Htp', Ht, Htt, entry_set, Z.eqb_refl. split; [done|]. rewrite map_size_empty. lia.
    + intros He. rewrite Hstab, Hsub by done.
      assert (entry (tab s' (top s g)) j = entry (tab s (top s g)) j) as Ee.
      { destruct (decide (g = f)) as [->|Hg].
        - rewrite Ht, Htt, HtT, entry_set. by rewrite (proj2 (Z.eqb_neq j i)) by congruence.
        - by rewrite Htab; [|apply Hgt|apply (Hnr (Top g))]. }
      rewrite Ee in *. by apply (to_count s Hok).
Qed.

(** The entry [j] of a second-level table and the word that counts. *)
Lemma set_leaf s f i j t T l L d e :
  tables_ok s -> top s f = t -> t <> 0 -> tables s !! t = Some T -> sub s f i = l -> l <> 0 -> tables s !! l = Some L ->
  0 <= i < 4096 -> 0 <= j < 4096 -> e = l + Z.of_nat (size (set_entry L j d)) ->
  let s' := set_tables s (<[t := set_entry T i e]> (<[l := set_entry L j d]> (tables s))) (heap s) in
  tables_ok s' /\ forall g pos, find s' g pos = if bool_decide (g = f /\ pos = Pos j i) then d else find s g pos.
Proof.
  intros Hok Ht Ht0 HT Hl Hl0 HL Hi Hj Hinc s'.
  assert (tab s t = T /\ tab s l = L) as [HtT HlL] by (unfold tab; by rewrite HT, HL).
  assert (l <> t) as Hlt.
  { intros ->. assert (Sub f i = Top f) as [=]. apply (to_inj s Hok); cbn; congruence. }
  destruct (to_in s Hok l L HL) as [_ HLw]. destruct (to_in s Hok t T HT) as [_ HTw].
  destruct (to_bounds s l L Hok HL) as (Hlp & Hlm & Hlw).
  assert (entry T i = l + Z.of_nat (size L)) as Hcnt.
  { destruct (to_count s Hok f i) as [_ Hc].
    - rewrite Ht, HtT. intros E0. apply Hl0. rewrite <- Hl. unfold sub. by rewrite Ht, HtT, E0.
    - by rewrite Ht, HtT, Hl, HlL in Hc. }
  assert (Z.of_nat (size L) <= 4096 /\ Z.of_nat (size (set_entry L j d)) <= 4096) as [HsL HsL'].
  { split; apply table_size; [done|by apply table_wf_set]. }
  assert (forall q, q <> t -> q <> l -> tab s' q = tab s q) as Htab.
  { intros q Hq1 Hq2. unfold tab, s'. cbn. by rewrite !lookup_insert_ne. }
  assert (tab s' t = set_entry T i e) as Htt by (unfold tab, s'; cbn; by rewrite lookup_insert_eq).
  assert (tab s' l = set_entry L j d) as Hll by (unfold tab, s'; cbn; rewrite lookup_insert_ne, lookup_insert_eq by done; done).
  assert (forall g, g <> f -> top s g <> t) as Hgt.
  { intros g Hg Eg. apply Hg. assert (Top g = Top f) as [=]; [|done]. apply (to_inj s Hok); cbn; congruence. }
  assert (forall g, top s g <> l) as Hgl.
  { intros g Eg. assert (Top g = Sub f i) as [=]. apply (to_inj s Hok); cbn; congruence. }
  assert (forall g k, sub s g k <> t) as Hst.
  { intros g k Es. assert (Sub g k = Top f) as [=]. apply (to_inj s Hok); cbn; congruence. }
  assert (forall g k, (g, k) <> (f, i) -> sub s g k <> l) as Hsl.
  { intros g k Hne Es. assert (Sub g k = Sub f i) as [=]; [|congruence]. apply (to_inj s Hok); cbn; congruence. }
  assert (forall g k, sub s' g k = sub s g k) as Hsub.
  { intros g k. unfold sub. change (top s' g) with (top s g). destruct (decide (g = f)) as [->|Hg]; [|by rewrite Htab; [|apply Hgt|]].
    rewrite Ht, Htt, HtT, entry_set. destruct (Z.eqb_spec k i) as [->|]; [|done].
    rewrite Hinc, Hcnt, !mask_split; try done; unfold is_word in *; lia. }
  assert (forall r, table_of s' r = table_of s r) as Hr by (intros [g|g k]; [done|apply Hsub]).
  split.
  2: { intros g pos. unfold find. rewrite Hsub. case_bool_decide as Hc.
       - destruct Hc as [-> ->]. cbn [lv1 lv2]. by rewrite Hl, Hll, entry_set, Z.eqb_refl.
       - destruct (decide ((g, lv2 pos) = (f, i))) as [[= -> E2]|Hne].
         + rewrite E2, Hl, Hll, HlL, entry_set. destruct (Z.eqb_spec (lv1 pos) j) as [E1|]; [|done].
           destruct Hc. split; [done|]. destruct pos. cbn in *. congruence.
         + by rewrite Htab; [|apply Hst|apply Hsl]. }
  constructor.
  - apply Hok.
  - intros q x. unfold s'. cbn. intros [[<- <-]|[_ [[<- <-]|[_ Hq]]%lookup_insert_Some]]%lookup_insert_Some.
    + split; [by apply (to_in s Hok t T)|by apply table_wf_set].
    + split; [by apply (to_in s Hok l L)|by apply table_wf_set].
    + by apply (to_in s Hok).
  - intros r. rewrite Hr. intros H0. unfold s'. cbn. apply lookup_insert_is_Some.
    destruct (decide (t = table_of s r)); [by left|right; split; [done|]]. apply lookup_insert_is_Some.
    destruct (decide (l = table_of s r)); [by left|right; split; [done|]]. by apply (to_role s Hok).
  - intros r r'. rewrite !Hr. apply (to_inj s Hok).
  - intros g k. rewrite Hsub. change (top s' g) with (top s g). destruct (decide ((g, k) = (f, i))) as [[= -> ->]|Hne].
    + intros _. rewrite Hl, Hll, Ht, Htt, entry_set, Z.eqb_refl. by split.
    + intros He'. assert (entry (tab s' (top s g)) k = entry (tab s (top s g)) k) as Ee.
      { destruct (decide (g = f)) as [->|Hg]; [|by rewrite Htab; [|apply Hgt|]].
        rewrite Ht, Htt, HtT, entry_set. by rewrite (proj2 (Z.eqb_neq k i)) by congruence. }
      rewrite Ee in *. rewrite Htab; [by apply (to_count s Hok)|apply Hst|by apply Hsl].
Qed.

Lemma leaf_count s f i t T l L :
  tables_ok s -> top s f = t -> tables s !! t = Some T -> sub s f i = l -> l <> 0 -> tables s !! l = Some L ->
  entry T i = l + Z.of_nat (size L) /\ table_wf L /\ l mod 16384 = 0 /\ 0 < l /\ is_word (l + 16384).
Proof.
  intros Hok Ht HT Hl Hl0 HL. destruct (to_in s Hok l L HL) as [_ HLw]. destruct (to_bounds s l L Hok HL) as (? & ? & ?).
  split; [|done]. assert (tab s t = T /\ tab s l = L) as [HtT HlL] by (unfold tab; by rewrite HT, HL).
  destruct (to_count s Hok f i) as [_ Hc].
  - rewrite Ht, HtT. intros E0. apply Hl0. rewrite <- Hl. unfold sub. by rewrite Ht, HtT, E0.
  - by rewrite Ht, HtT, Hl, HlL in Hc.
Qed.

Lemma fresh_leaf s f i j t T l L d :
  tables_ok s -> top s f = t -> t <> 0 -> tables s !! t = Some T -> sub s f i = l -> l <> 0 -> tables s !! l = Some L ->
  0 <= i < 4096 -> 0 <= j < 4096 -> entry L j = 0 -> d <> 0 ->
  let s' := set_tables s (<[t := set_entry T i (entry T i +w 1)]> (<[l := set_entry L j d]> (tables s))) (heap s) in
  tables_ok s' /\ forall g pos, find s' g pos = if bool_decide (g = f /\ pos = Pos j i) then d else find s g pos.
Proof.
  intros Hok Ht Ht0 HT Hl Hl0 HL Hi Hj He Hd. apply set_leaf; try done.
  destruct (leaf_count s f i t T l L Hok Ht HT Hl Hl0 HL) as (Hc & HLw & _ & ? & Hw).
  pose proof (table_size _ (table_wf_set L j d HLw Hj)) as Hsz. rewrite size_set in Hsz by done.
  unfold is_word in Hw. rewrite size_set, Hc, wrap_small by (done || unfold is_word; lia). lia.
Qed.

Lemma size_clear (t : gmap Z Z) i : entry t i <> 0 -> size t = S (size (set_entry t i 0)).
Proof.
  intros He. unfold set_entry. cbn [Z.eqb]. unfold entry in He. destruct (t !! i) as [v|] eqn:E; [|done].
  rewrite <- (insert_delete_id t i v E) at 1. apply map_size_insert_None, lookup_delete_eq.
Qed.

(** An entry is cleared and counted down. *)
Lemma clear_leaf s f i j t T l L :
  tables_ok s -> top s f = t -> t <> 0 -> tables s !! t = Some T -> sub s f i = l -> l <> 0 -> tables s !! l = Some L ->
  0 <= i < 4096 -> 0 <= j < 4096 -> entry L j <> 0 ->
  let s' := set_tables s (<[t := set_entry T i (entry T i -w 1)]> (<[l := set_entry L j 0]> (tables s))) (heap s) in
  entry T i -w 1 = l + Z.of_nat (size (set_entry L j 0)) /\
  tables_ok s' /\ forall g pos, find s' g pos = if bool_decide (g = f /\ pos = Pos j i) then 0 else find s g pos.
Proof.
  intros Hok Ht Ht0 HT Hl Hl0 HL Hi Hj He.
  assert (entry T i -w 1 = l + Z.of_nat (size (set_entry L j 0))) as Hdec; [|split; [done|by apply set_leaf]].
  destruct (leaf_count s f i t T l L Hok Ht HT Hl Hl0 HL) as (Hc & HLw & _ & ? & Hw).
  pose proof (table_size _ HLw) as Hsz. rewrite (size_clear L j He) in Hc, Hsz. rewrite Hc, wrap_small; unfold is_word in *; lia.
Qed.

(** An empty second-level table is given back. *)
Lemma drop_sub s f i t T l h :
  tables_ok s -> top s f = t -> t <> 0 -> tables s !! t = Some T -> sub s f i = l -> l <> 0 -> tables s !! l = Some ∅ ->
  0 <= i < 4096 -> ah_free (heap s) l = Some h ->
  let s' := set_tables s (delete l (<[t := set_entry T i 0]> (tables s))) h in
  tables_ok s' /\ forall g pos, find s' g pos = find s g pos.
Proof.
  intros Hok Ht Ht0 HT Hl Hl0 HL Hi Hh s'.
  destruct (ah_free_law (heap s) l (to_heap s Hok)) as (h' & E & Hok' & Hin); [by apply (to_in s Hok l ∅)|].
  rewrite Hh in E. injection E as <-.
  assert (tab s t = T /\ tab s l = ∅) as [HtT HlL] by (unfold tab; by rewrite HT, HL).
  assert (forall r, table_of s r = t -> r = Top f) as Hrt by (intros r E; apply (to_inj s Hok); cbn [table_of]; congruence).
  assert (forall r, table_of s r = l -> r = Sub f i) as Hrl by (intros r E; apply (to_inj s Hok); cbn [table_of]; congruence).
  assert (l <> t) as Hlt by (intros ->; by discriminate (Hrt (Sub f i) Hl)).
  assert (forall q, q <> t -> q <> l -> tab s' q = tab s q) as Htab.
  { intros q Hq1 Hq2. unfold tab, s'. cbn. by rewrite lookup_delete_ne, lookup_insert_ne. }
  assert (tab s' t = set_entry T i 0) as Htt by (unfold tab, s'; cbn; by rewrite lookup_delete_ne, lookup_insert_eq).
  assert (forall g k, (g, k) <> (f, i) -> entry (tab s' (top s g)) k = entry (tab s (top s g)) k) as Hent.
  { intros g k Hne. destruct (decide (top s g = t)) as [Eg|Hg].
    - assert (Top g = Top f) as [= ->] by (by apply Hrt). rewrite Eg, Htt, HtT, entry_set.
      by rewrite (proj2 (Z.eqb_neq k i)) by congruence.
    - rewrite Htab; [done|done|]. intros El. by discriminate (Hrl (Top g) El). }
  assert (sub s' f i = 0) as Hsi by (unfold sub; change (top s' f) with (top s f); by rewrite Ht, Htt, entry_set, Z.eqb_refl).
  assert (forall g k, (g, k) <> (f, i) -> sub s' g k = sub s g k) as Hsub.
  { intros g k Hne. unfold sub. change (top s' g) with (top s g). by rewrite Hent. }
  assert (forall g k, (g, k) <> (f, i) -> tab s' (sub s g k) = tab s (sub s g k)) as Hstab.
  { intros g k Hne. apply Htab; intros E; [by discriminate (Hrt (Sub g k) E)|]. apply (Hrl (Sub g k)) in E as [= -> ->]. done. }
  assert (forall r, r = Sub f i \/ table_of s' r = table_of s r) as Hcase.
  { intros [g|g k]; [by right|]. destruct (decide ((g, k) = (f, i))) as [[= -> ->]|]; [by left|right; by apply Hsub]. }
  assert (tables s' !! 0 = None) as Hz.
  { unfold s'. cbn. rewrite lookup_delete_ne, lookup_insert_ne by done. by apply to_zero. }
  split.
  2: { intros g pos. unfold find. destruct (decide ((g, lv2 pos) = (f, i))) as [[= -> E2]|Hne]; [|by rewrite Hsub, Hstab].
       rewrite E2, Hsi, Hl, HlL. unfold tab. by rewrite Hz. }
  constructor.
  - done.
  - intros q x. unfold s'. cbn. intros [Hq [[<- <-]|[_ Hx]]%lookup_insert_Some]%lookup_delete_Some.
    + destruct (to_in s Hok t T HT) as [? HTw]. split; [apply Hin; by split|exact (table_wf_set T i 0 HTw Hi)].
    + destruct (to_in s Hok q x Hx). split; [apply Hin; by split|done].
  - intros r Hr. destruct (Hcase r) as [->|Er]; [done|]. rewrite Er in *. change (tables s') with (delete l (<[t := set_entry T i 0]> (tables s))).
    assert (table_of s r <> l) as Hnl.
    { intros E. apply Hrl in E as ->. cbn [table_of] in Er. congruence. }
    rewrite lookup_delete_ne by done. apply lookup_insert_is_Some. destruct (decide (t = table_of s r)); [by left|right; split; [done|]].
    by apply (to_role s Hok).
  - intros r r' Er Hr. destruct (Hcase r) as [->|E1]; [done|]. destruct (Hcase r') as [->|E2]; [cbn [table_of] in Er; congruence|].
    rewrite E1, E2 in *. by apply (to_inj s Hok).
  - intros g k. change (top s' g) with (top s g). destruct (decide ((g, k) = (f, i))) as [[= -> ->]|Hne].
    + rewrite Ht, Htt, entry_set, Z.eqb_refl. done.
    + rewrite Hent, Hsub, Hstab by done. apply (to_count s Hok).
Qed.

(** ** Descriptors and buffers *)

Fixpoint chain (m : gmap Z dbd) (p : Z) (l : list Z) : Prop :=
  match l with
  | [] => p = 0
  | d :: l => p = d /\ d <> 0 /\ exists x, m !! d = Some x /\ chain m (d_prev x) l
  end.

Lemma chain_ext m m' p l : (forall d, d ∈ l -> m' !! d = m !! d) -> chain m p l -> chain m' p l.
Proof.
  revert p. induction l as [|d l IH]; intros p Hm; [done|]. cbn. intros (-> & Hd & x & Hx & Hc).
  split; [done|]. split; [done|]. exists x. rewrite Hm by apply list_elem_of_here. split; [done|].
  apply IH; [|done]. intros e He. apply Hm. by apply list_elem_of_further.
Qed.

Definition valid (x : dbd) : bool := negb (Z.land (d_flags x) DB_VALID_DATA =? 0).

(** [fs] are the free descriptors, [fb] the free buffers.  A descriptor in use
    has a buffer of its own and is in the LRU list, or has neither. *)
Record pool_ok (s : st) (fs fb : list Z) : Prop := {
  po_chain : chain (dbds s) (dbd_stack_top (cache s)) fs;
  po_fs : NoDup fs;
  po_zero : dbds s !! 0 = None;
  po_top : -1 <= db_stack_top (cache s) < Z.of_nat (length (db_stack (cache s)));
  po_fb : fb = take (Z.to_nat (db_stack_top (cache s) + 1)) (db_stack (cache s));
  po_fb_nodup : NoDup fb;
  po_fb_buf : forall b, b ∈ fb -> b <> 0 /\ is_Some (bufs s !! b);
  po_sort : NoDup (sort_list (cache s));
  po_used : forall d x, dbds s !! d = Some x -> d ∉ fs ->
    (d_buffer x = 0 /\ valid x = false /\ d ∉ sort_list (cache s)) \/
    (d_buffer x <> 0 /\ is_Some (bufs s !! d_buffer x) /\ d_buffer x ∉ fb /\ d ∈ sort_list (cache s));
  po_inj : forall d d' x x', dbds s !! d = Some x -> dbds s !! d' = Some x' -> d ∉ fs -> d' ∉ fs ->
    d_buffer x = d_buffer x' -> d_buffer x <> 0 -> d = d';
  po_sort_in : forall d, d ∈ sort_list (cache s) -> d ∉ fs /\ is_Some (dbds s !! d)
}.

(** Descriptors are where the tables say; blocks are below 2^24. *)
Record cache_ok (s : st) (fs fb : list Z) : Prop := {
  co_tables : tables_ok s;
  co_pool : pool_ok s fs fb;
  co_leaf : forall f pos, find s f pos <> 0 -> exists x, dbds s !! find s f pos = Some x /\ find s f pos ∉ fs /\
    d_who x = f /\ 0 <= d_block_id x < 2 ^ 24 /\ calc_mltt_pos (d_block_id x) = pos
}.

(** Two positions do not share a descriptor. *)
Lemma leaf_inj s fs fb f pos g pos' :
  cache_ok s fs fb -> find s f pos = find s g pos' -> find s f pos <> 0 -> f = g /\ pos = pos'.
Proof.
  intros Hok E Hne. destruct (co_leaf s fs fb Hok f pos Hne) as (x & Hx & _ & Hw & _ & Hp).
  destruct (co_leaf s fs fb Hok g pos') as (y & Hy & _ & Hw' & _ & Hp'); [congruence|].
  rewrite E, Hy in Hx. injection Hx as ->. split; congruence.
Qed.

(** The heap has room for two more tables. *)
Definition has_room (h : A) : Prop :=
  exists p h1 q h2, ah_malloc h = Some (p, h1) /\ p <> 0 /\ ah_malloc h1 = Some (q, h2) /\ q <> 0.

(** An update of one used descriptor that keeps its buffer. *)
Lemma pool_ok_update s fs fb d x x' :
  pool_ok s fs fb -> dbds s !! d = Some x -> d ∉ fs -> d_buffer x' = d_buffer x -> (d_buffer x = 0 -> valid x' = false) ->
  pool_ok (set_dbd s d x') fs fb.
Proof.
  intros [P1 P2 P3 P4 P5 P6 P7 P8 P9 P10 P11] Hx Hd Hb Hv.
  constructor; cbn [set_dbd cache dbds bufs]; try done.
  - revert P1. apply chain_ext. intros e He. apply lookup_insert_ne. congruence.
  - rewrite lookup_insert_ne; [done|]. intros ->. congruence.
  - intros e y [[<- <-]|[Hne Hy]]%lookup_insert_Some He; [|by apply P9].
    rewrite Hb. destruct (P9 d x Hx Hd) as [(H1 & _ & H3)|H1]; [left; by auto|by right].
  - intros e e' y y' [[<- <-]|[Hne Hy]]%lookup_insert_Some [[<- <-]|[Hne' Hy']]%lookup_insert_Some He He' Hbb H0; [done| | |].
    + rewrite Hb in *. by apply (P10 d e' x y').
    + rewrite Hb in *. by apply (P10 e d y x).
    + by apply (P10 e e' y y').
  - intros e He. destruct (P11 e He) as [H1 H2]. split; [done|]. apply lookup_insert_is_Some. by destruct (decide (d = e)); auto.
Qed.

(** ** The search *)

(** Nothing but the tables changed. *)
Definition same_pool (s s' : st) : Prop :=
  cache s' = cache s /\ dbds s' = dbds s /\ bufs s' = bufs s /\ private s' = private s.

Lemma read_entry_eq (s : st) p i : is_Some (tables s !! p) -> 0 <= i < 4096 -> read_entry s p i = Some (entry (tab s p) i).
Proof.
  intros [t Ht] Hi. unfold read_entry, tab. rewrite Ht. cbn [mbind option_bind default from_option id].
  change MLTT_ENTRY_COUNT with 4096. by rewrite (proj2 (Z.leb_le 0 i)), (proj2 (Z.ltb_lt i 4096)) by lia.
Qed.

Lemma write_entry_eq (s : st) p t i v :
  tables s !! p = Some t -> 0 <= i < 4096 ->
  write_entry s p i v = Some (set_tables s (<[p := set_entry t i v]> (tables s)) (heap s)).
Proof.
  intros Ht Hi. unfold write_entry. rewrite Ht. cbn [mbind option_bind].
  change MLTT_ENTRY_COUNT with 4096. by rewrite (proj2 (Z.leb_le 0 i)), (proj2 (Z.ltb_lt i 4096)) by lia.
Qed.

Lemma top_table s f t : tables_ok s -> mltt s !! f = Some t -> t <> 0 -> is_Some (tables s !! t).
Proof. intros Hok Ht H0. pose proof (to_role s Hok (Top f)) as Hr. cbn in Hr. unfold top in Hr. rewrite Ht in Hr. by apply Hr. Qed.

Lemma get_top s f t0 :
  tables_ok s -> mltt s !! f = Some t0 -> has_room (heap s) ->
  exists t (s1 : st), (if t0 =? 0 then allocate_lv2 s f else Some (t0, s)) = Some (t, s1) /\ t <> 0 /\ tables_ok s1 /\
    mltt s1 !! f = Some t /\ same_pool s s1 /\ (forall g pos, find s1 g pos = find s g pos) /\
    (forall g, is_Some (mltt s !! g) -> is_Some (mltt s1 !! g)) /\ exists q h2, ah_malloc (heap s1) = Some (q, h2) /\ q <> 0.
Proof.
  intros Hok Hf (p & h1 & q & h2 & E1 & Hp & E2 & Hq). destruct (Z.eqb_spec t0 0) as [->|Hne].
  - unfold allocate_lv2. rewrite E1. cbn [mbind option_bind]. rewrite (proj2 (Z.eqb_neq p 0) Hp).
    destruct (fresh_top s f p h1 Hok) as (Hok' & Ht & Hfind); [unfold top; by rewrite Hf|done|done|].
    eexists _, _. split; [done|]. split; [done|]. split; [done|]. split; [apply lookup_insert_eq|]. split; [done|].
    split; [done|]. split; [|by exists q, h2]. intros g Hg. cbn. apply lookup_insert_is_Some. by destruct (decide (f = g)); auto.
  - exists t0, s. split_and!; try done. by exists p, h1.
Qed.

Lemma get_sub s f t pos :
  tables_ok s -> mltt s !! f = Some t -> t <> 0 -> 0 <= lv2 pos < 4096 ->
  (exists q h2, ah_malloc (heap s) = Some (q, h2) /\ q <> 0) ->
  exists e l (s2 : st), read_entry s t (lv2 pos) = Some e /\
    (let l := Z.land e MLTT_TABLE_POINTER_MASK in if l =? 0 then allocate_lv1 s f pos else Some (l, s)) = Some (l, s2) /\
    l <> 0 /\ tables_ok s2 /\ mltt s2 = mltt s /\ sub s2 f (lv2 pos) = l /\ same_pool s s2 /\
    forall g pos', find s2 g pos' = find s g pos'.
Proof.
  intros Hok Hf Ht Hi (q & h2 & E & Hq). pose proof (top_table s f t Hok Hf Ht) as HT.
  assert (top s f = t) as Htop by (unfold top; by rewrite Hf).
  exists (entry (tab s t) (lv2 pos)). rewrite (read_entry_eq s t) by done. cbn zeta.
  assert (sub s f (lv2 pos) = Z.land (entry (tab s t) (lv2 pos)) MLTT_TABLE_POINTER_MASK) as Hsub by (unfold sub; by rewrite Htop).
  rewrite <- Hsub. destruct (Z.eqb_spec (sub s f (lv2 pos)) 0) as [H0|Hne].
  - unfold allocate_lv1. rewrite E. cbn [mbind option_bind]. rewrite (proj2 (Z.eqb_neq q 0) Hq), Hf. cbn [mbind option_bind].
    destruct HT as [T HT]. destruct (malloc_fresh s q h2 Hok E Hq) as (_ & Hn & _).
    rewrite (write_entry_eq _ t T); [|cbn; rewrite lookup_insert_ne; [done|congruence]|done]. cbn [mbind option_bind].
    destruct (fresh_sub s f (lv2 pos) q h2 t T) as (Hok' & Hs' & Hfind); try done.
    eexists _, _. split; [done|]. split; [done|]. split; [done|]. split; [done|]. split; [done|].
    split; [done|]. split; [done|]. done.
  - exists (sub s f (lv2 pos)), s. by split_and!.
Qed.

Lemma dbd_malloc_spec s d fs fb who :
  pool_ok s (d :: fs) fb -> exists s' : st, fss_dbd_malloc s who = Some (d, s') /\
    tables s' = tables s /\ mltt s' = mltt s /\ heap s' = heap s /\ bufs s' = bufs s /\ private s' = private s /\
    sort_list (cache s') = sort_list (cache s) /\ dbds s' = <[d := Dbd 0 0 who [] 0 0 0 0 0]> (dbds s) /\ pool_ok s' fs fb.
Proof.
  intros [P1 P2 P3 P4 P5 P6 P7 P8 P9 P10 P11]. destruct P1 as (Htop & Hd & x & Hx & Hc).
  apply NoDup_cons in P2 as [Hnin P2]. unfold fss_dbd_malloc. rewrite Htop, (proj2 (Z.eqb_neq d 0) Hd). cbn [negb].
  rewrite Hx. cbn [mbind option_bind]. eexists. split; [done|]. cbn. split_and!; try done.
  constructor; cbn; try done.
  - revert Hc. apply chain_ext. intros e He. apply lookup_insert_ne. congruence.
  - rewrite lookup_insert_ne; done.
  - intros e y [[<- <-]|[Hne Hy]]%lookup_insert_Some He.
    + left. split_and!; try done. intros Hs. destruct (P11 d Hs) as [Hn _]. apply Hn, list_elem_of_here.
    + apply P9; [done|]. apply not_elem_of_cons. split; [congruence|done].
  - intros e e' y y' [[<- <-]|[Hne Hy]]%lookup_insert_Some [[<- <-]|[Hne' Hy']]%lookup_insert_Some He He' Hbb H0; try done.
    apply (P10 e e' y y'); try done; apply not_elem_of_cons; (split; [congruence|done]).
  - intros e He. destruct (P11 e He) as [H1 H2]. apply not_elem_of_cons in H1 as [_ H1]. split; [done|].
    apply lookup_insert_is_Some. by destruct (decide (d = e)); auto.
Qed.

Lemma calc_pos_eta b : Pos (lv1 (calc_mltt_pos b)) (lv2 (calc_mltt_pos b)) = calc_mltt_pos b.
Proof. by destruct (calc_mltt_pos b). Qed.

(** What the search for a descriptor delivers: the one of the position, or a
    free one that is entered there. *)
Lemma find_dbd_spec s fs fb f b :
  cache_ok s fs fb -> is_Some (mltt s !! f) -> 0 <= b < 2 ^ 24 -> has_room (heap s) -> fs <> [] ->
  exists d (s' : st) fs', find_dbd s f (calc_mltt_pos b) b = Some (d, s') /\ cache_ok s' fs' fb /\ d <> 0 /\
    (forall g pos, find s' g pos = if bool_decide (g = f /\ pos = calc_mltt_pos b) then d else find s g pos) /\
    (forall g, is_Some (mltt s !! g) -> is_Some (mltt s' !! g)) /\
    bufs s' = bufs s /\ private s' = private s /\ sort_list (cache s') = sort_list (cache s) /\
    ((d = find s f (calc_mltt_pos b) /\ fs' = fs /\ dbds s' = dbds s) \/
     (find s f (calc_mltt_pos b) = 0 /\ fs = d :: fs' /\ dbds s' = <[d := Dbd 0 b f [] 0 0 0 0 0]> (dbds s))).
Proof.
  intros [Hok Hpool Hleaf] [t0 Hf] Hb Hroom Hfs. set (pos := calc_mltt_pos b).
  destruct (calc_mltt_pos_range b) as [Hj Hi]; [lia|]. fold pos in Hi, Hj. unfold find_dbd. rewrite Hf. cbn [mbind option_bind].
  destruct (get_top s f t0 Hok Hf Hroom) as (t & s1 & -> & Ht & Hok1 & Hf1 & (C1 & D1 & B1 & Q1) & Hfind1 & Hdom & Hroom1).
  cbn [mbind option_bind]. rewrite (proj2 (Z.eqb_neq t 0) Ht).
  destruct (get_sub s1 f t pos Hok1 Hf1 Ht Hi Hroom1)
    as (e & l & s2 & -> & E2 & Hl & Hok2 & Hm2 & Hsub2 & (C2 & D2 & B2 & Q2) & Hfind2).
  cbn [mbind option_bind]. cbn zeta in E2. rewrite E2. cbn [mbind option_bind]. rewrite (proj2 (Z.eqb_neq l 0) Hl).
  assert (is_Some (tables s2 !! l)) as HL.
  { pose proof (to_role s2 Hok2 (Sub f (lv2 pos))) as Hr. cbn [table_of] in Hr. rewrite Hsub2 in Hr. by apply Hr. }
  rewrite (read_entry_eq s2 l) by done. cbn [mbind option_bind].
  assert (entry (tab s2 l) (lv1 pos) = find s f pos) as Hd.
  { rewrite <- Hfind1, <- Hfind2. unfold find. by rewrite Hsub2. }
  assert (pool_ok s2 fs fb) as Hpool2.
  { destruct Hpool. constructor; rewrite ?C2, ?C1, ?D2, ?D1, ?B2, ?B1; done. }
  rewrite Hd. destruct (Z.eqb_spec (find s f pos) 0) as [H0|Hne]; cbn [negb].
  2: { exists (find s f pos), s2, fs. split; [done|]. split.
       { constructor; try done. intros g p'. rewrite Hfind2, Hfind1, D2, D1. apply Hleaf. }
       split; [done|]. split; [|rewrite Hm2, B2, B1, Q2, Q1, C2, C1, D2, D1; split; [done|]; split; [done|]; split; [done|];
         split; [done|by left]].
       intros g p'. rewrite Hfind2, Hfind1. case_bool_decide as Hc; [|done]. by destruct Hc as [-> ->]. }
  destruct fs as [|d fs']; [done|]. destruct (dbd_malloc_spec s2 d fs' fb f Hpool2)
    as (s3 & -> & T3 & M3 & Hp3 & B3 & Q3 & S3 & D3 & Hpool3).
  cbn [mbind option_bind]. destruct (po_chain _ _ _ Hpool2) as (_ & Hd0 & x & Hx & _).
  rewrite (proj2 (Z.eqb_neq d 0) Hd0). assert (tables_ok s3) as Hok3 by (by apply (tables_ok_ext s2)).
  destruct HL as [L HL]. destruct (top_table s2 f t Hok2) as [T HT]; [by rewrite Hm2|done|].
  assert (l <> t) as Hlt.
  { intros ->. assert (Sub f (lv2 pos) = Top f) as [=]. apply (to_inj s2 Hok2); cbn [table_of]; [|congruence].
    rewrite Hsub2. unfold top. by rewrite Hm2, Hf1. }
  rewrite (write_entry_eq s3 l L) by (by rewrite ?T3). cbn [mbind option_bind].
  rewrite read_entry_eq; [|cbn; rewrite T3, lookup_insert_ne by done; by eexists|done]. cbn [mbind option_bind].
  rewrite (write_entry_eq _ t T); [|cbn; by rewrite T3, lookup_insert_ne|done]. cbn [mbind option_bind].
  cbn [dbds set_tables heap tables]. rewrite D3, lookup_insert_eq. cbn [mbind option_bind].
  destruct (fresh_leaf s3 f (lv2 pos) (lv1 pos) t T l L d) as (Hok4 & Hfind4); try done.
  { unfold top. by rewrite M3, Hm2, Hf1. } { by rewrite T3. } { unfold sub, tab, top in *. by rewrite T3, M3. } { by rewrite T3. }
  { rewrite H0 in Hd. unfold tab in Hd. by rewrite HL in Hd. }
  rewrite tab_insert, (proj2 (Z.eqb_neq t l)), T3, HT by congruence. cbn [default from_option id].
  rewrite T3 in Hok4, Hfind4. set (s4 := set_tables s3 _ _) in Hok4, Hfind4.
  assert (forall g p', find s4 g p' = if bool_decide (g = f /\ p' = pos) then d else find s g p') as Hfind5.
  { intros g p'. rewrite Hfind4, (find_ext s2 s3), Hfind2, Hfind1 by done. pose proof (calc_pos_eta b) as Heta. fold pos in Heta.
    do 2 case_bool_decide; try done; exfalso; rewrite Heta in *; by auto. }
  assert (pool_ok s4 fs' fb) as Hpool4 by (destruct Hpool3; by constructor).
  assert (d ∉ fs') as Hnin by (pose proof (po_fs _ _ _ Hpool2) as Hnd; by apply NoDup_cons in Hnd as [? _]).
  set (x' := Dbd 0 b f [] 0 0 0 0 0). assert (dbds s4 !! d = Some (Dbd 0 0 f [] 0 0 0 0 0)) as Hd4.
  { unfold s4. cbn. by rewrite D3, lookup_insert_eq. }
  exists d, (set_dbd s4 d x'), fs'. split; [done|].
  assert (dbds (set_dbd s4 d x') = <[d := x']> (dbds s)) as HD.
  { unfold s4. cbn. by rewrite D3, insert_insert_eq, D2, D1. }
  split; [constructor|].
  - by apply (tables_ok_ext s4).
  - by apply (pool_ok_update s4 fs' fb d (Dbd 0 0 f [] 0 0 0 0 0) x').
  - intros g p'. rewrite (find_ext s4 (set_dbd s4 d x')), Hfind5, HD by done. case_bool_decide as Hc.
    + destruct Hc as [-> ->]. intros _. exists x'. rewrite lookup_insert_eq. split; [done|]. split; [done|]. split; [done|]. by split.
    + intros Hg. destruct (Hleaf g p' Hg) as (y & Hy & Hn & Hrest). apply not_elem_of_cons in Hn as [Hn1 Hn2].
      exists y. rewrite lookup_insert_ne by congruence. done.
  - split; [done|]. split; [intros g p'; by rewrite (find_ext s4)|]. unfold s4. cbn.
    rewrite M3, Hm2, B3, B2, B1, Q3, Q2, Q1, S3, C2, C1. split; [done|]. split; [done|]. split; [done|]. split; [done|].
    right. split; [done|]. split; [done|]. exact HD.
Qed.

Lemma exchange_perm l d : d ∈ l -> exists l', exchange l d = Some l' /\ l' ≡ₚ l.
Proof.
  induction l as [|x l IH]; [by intros ?%not_elem_of_nil|]. intros Hd. cbn [exchange].
  destruct (Z.eqb_spec x d) as [->|Hne].
  - destruct l as [|y l]; eexists; (split; [done|]); [done|apply perm_swap].
  - apply elem_of_cons in Hd as [?|Hd]; [congruence|]. destruct (IH Hd) as (l' & -> & Hp). cbn [mbind option_bind].
    eexists. split; [done|]. by rewrite Hp.
Qed.

Lemma lru_exchange_perm l d : d ∈ l -> exists l', lru_exchange l d = Some l' /\ l' ≡ₚ l.
Proof.
  intros Hd. unfold lru_exchange. destruct (exchange_perm l d Hd) as (l' & -> & Hp). cbn [mbind option_bind].
  eexists. split; [done|]. case_bool_decide as Hl; [|done]. apply last_Some in Hl as (k & ->).
  rewrite removelast_last. apply Permutation_cons_append.
Qed.

Lemma pool_ok_sort s fs fb l :
  pool_ok s fs fb -> l ≡ₚ sort_list (cache s) -> pool_ok (set_cache s (set_sort (cache s) l)) fs fb.
Proof.
  intros [P1 P2 P3 P4 P5 P6 P7 P8 P9 P10 P11] Hl. constructor; cbn; try done; try (by rewrite Hl).
  - intros d x. rewrite Hl. apply P9.
  - intros d. rewrite Hl. apply P11.
Qed.

Lemma lru_update_spec s fs fb d x :
  pool_ok s fs fb -> dbds s !! d = Some x -> d ∉ fs -> d ∈ sort_list (cache s) ->
  exists n (s' : st), fss_dbd_lru_update s d = Some s' /\ pool_ok s' fs fb /\ tables s' = tables s /\ mltt s' = mltt s /\
    heap s' = heap s /\ bufs s' = bufs s /\ private s' = private s /\ dbds s' = <[d := set_access x n]> (dbds s).
Proof.
  intros Hp Hx Hd Hs. unfold fss_dbd_lru_update. rewrite Hx. cbn [mbind option_bind]. exists (to_int (d_access_counter x + 1)).
  set (n := to_int _). set (s1 := set_dbd s d (set_access x n)).
  assert (pool_ok s1 fs fb) as Hp1.
  { apply (pool_ok_update s fs fb d x); try done. intros H0.
    destruct (po_used s fs fb Hp d x Hx Hd) as [(_ & Hv & _)|(Hb & _)]; [exact Hv|done]. }
  change (cache s) with (cache s1) in Hs. case_if; [|exists s1; by split_and!].
  destruct (lru_exchange_perm (sort_list (cache s1)) d Hs) as (l' & El & Hperm).
  destruct (sort_list (cache s1)) as [|y [|z k]] eqn:E; [by apply not_elem_of_nil in Hs|exists s1; by split_and!|].
  rewrite El. cbn [mbind option_bind]. eexists. split; [done|]. rewrite <- E in Hperm.
  split; [by apply pool_ok_sort|]. by split_and!.
Qed.

Lemma fill_buffer_spec s fs fb d x :
  pool_ok s fs fb -> dbds s !! d = Some x -> d ∉ fs -> fb <> [] ->
  exists (s' : st) fb' x', fill_buffer s d = Some s' /\ pool_ok s' fs fb' /\ tables s' = tables s /\ mltt s' = mltt s /\
    heap s' = heap s /\ bufs s' = bufs s /\ private s' = private s /\ dbds s' = <[d := x']> (dbds s) /\
    d ∈ sort_list (cache s') /\ d_buffer x' <> 0 /\ x' = set_buffer x (d_buffer x') /\ (d_buffer x <> 0 -> x' = x).
Proof.
  intros Hp Hx Hd Hfb. unfold fill_buffer. rewrite Hx. cbn [mbind option_bind].
  destruct (Z.eqb_spec (d_buffer x) 0) as [H0|Hne]; cbn [negb].
  2: { exists s, fb, x. destruct (po_used s fs fb Hp d x Hx Hd) as [(? & _)|(_ & _ & _ & Hs)]; [done|].
       split_and!; try done; [by rewrite insert_id|by destruct x]. }
  pose proof Hp as [P1 P2 P3 P4 P5 P6 P7 P8 P9 P10 P11]. set (c := cache s) in *.
  assert (0 <= db_stack_top c) as Htop.
  { destruct (Z.le_gt_cases 0 (db_stack_top c)); [done|]. destruct Hfb. rewrite P5. by replace (Z.to_nat _) with O by lia. }
  destruct (lookup_lt_is_Some_2 (db_stack c) (Z.to_nat (db_stack_top c))) as [p Hpk]; [lia|].
  unfold fss_db_malloc, word_at. fold c. rewrite (proj2 (Z.leb_le 0 (db_stack_top c)) Htop), Hpk. cbn [mbind option_bind].
  set (fb' := take (Z.to_nat (db_stack_top c)) (db_stack c)).
  assert (fb = fb' ++ [p]) as Efb.
  { rewrite P5. replace (Z.to_nat (db_stack_top c + 1)) with (S (Z.to_nat (db_stack_top c))) by lia. by apply take_S_r. }
  destruct (P7 p) as [Hp0 Hpb]; [rewrite Efb; apply elem_of_app; right; apply list_elem_of_here|].
  rewrite (proj2 (Z.eqb_neq p 0) Hp0). eexists _, fb', (set_buffer x p). split; [done|]. cbn [cache dbds set_dbd].
  assert (p ∉ fb' /\ NoDup fb') as [Hnp Hnd].
  { rewrite Efb in P6. apply NoDup_app in P6 as (? & Hdj & _). split; [|done]. intros Hin. apply (Hdj p Hin), list_elem_of_here. }
  assert (forall q, q ∉ fb -> q ∉ fb') as Hsubset by (intros q Hq Hq'; apply Hq; rewrite Efb; apply elem_of_app; by left).
  assert (forall e y, dbds s !! e = Some y -> e ∉ fs -> d_buffer y <> p) as Hown.
  { intros e y Hy He Eb. destruct (P9 e y Hy He) as [(? & _)|(_ & _ & Hn & _)]; [congruence|].
    apply Hn. rewrite Eb, Efb. apply elem_of_app. right. apply list_elem_of_here. }
  assert (d ∉ sort_list c) as Hds by (destruct (P9 d x Hx Hd) as [(_ & _ & ?)|(? & _)]; done).
  split; [|split_and!; try done; apply elem_of_app; right; apply list_elem_of_here].
  constructor; cbn.
  - revert P1. apply chain_ext. intros e He. apply lookup_insert_ne. congruence.
  - done.
  - rewrite lookup_insert_ne; [done|congruence].
  - lia.
  - by replace (db_stack_top c - 1 + 1) with (db_stack_top c) by lia.
  - done.
  - intros q Hq. apply P7. rewrite Efb. apply elem_of_app. by left.
  - apply NoDup_app. split; [done|]. split; [|apply NoDup_singleton]. intros e He ->%list_elem_of_singleton. done.
  - intros e y [[<- <-]|[Hne Hy]]%lookup_insert_Some He.
    + right. cbn. split_and!; try done. apply elem_of_app. right. apply list_elem_of_here.
    + destruct (P9 e y Hy He) as [(A1 & A2 & A3)|(A1 & A2 & A3 & A4)]; [left|right]; split_and!; try done.
      * rewrite not_elem_of_app. split; [done|]. intros ->%list_elem_of_singleton. done.
      * by apply Hsubset.
      * apply elem_of_app. by left.
  - intros e e' y y' [[<- <-]|[Hne Hy]]%lookup_insert_Some [[<- <-]|[Hne' Hy']]%lookup_insert_Some He He' Hbb H0'; [done| | |].
    + cbn in Hbb. by destruct (Hown e' y' Hy' He').
    + cbn in Hbb. by destruct (Hown e y Hy He).
    + by apply (P10 e e' y y').
  - intros e [He|He]%elem_of_app.
    + destruct (P11 e He) as [? ?]. split; [done|]. apply lookup_insert_is_Some. by destruct (decide (d = e)); auto.
    + apply list_elem_of_singleton in He as ->. split; [done|]. rewrite lookup_insert_eq. by eexists.
Qed.

Lemma cache_ok_update s s' fs fb fb' d x x' :
  cache_ok s fs fb -> pool_ok s' fs fb' -> tables s' = tables s -> mltt s' = mltt s -> heap s' = heap s ->
  dbds s !! d = Some x -> dbds s' = <[d := x']> (dbds s) -> d_who x' = d_who x -> d_block_id x' = d_block_id x ->
  cache_ok s' fs fb'.
Proof.
  intros [Hok _ Hleaf] Hp Ht Hm Hh Hx Hd Hw Hb. constructor; [by apply (tables_ok_ext s)|done|].
  intros f pos. rewrite (find_ext s s') by done. intros H0. destruct (Hleaf f pos H0) as (y & Hy & Hn & Hy1 & Hy2 & Hy3).
  rewrite Hd. destruct (decide (d = find s f pos)) as [E|Hne].
  - exists x'. rewrite <- E in *. rewrite lookup_insert_eq. rewrite Hx in Hy. injection Hy as ->. rewrite Hw, Hb. done.
  - exists y. by rewrite lookup_insert_ne.
Qed.

(** After the search: the descriptor [d] of the block, with a buffer. *)
Record got (s s' : st) (fs' fb' : list Z) (f b d : Z) (x' : dbd) : Prop := {
  g_ok : cache_ok s' fs' fb';
  g_d : d <> 0 /\ d ∉ fs' /\ dbds s' !! d = Some x' /\ d_buffer x' <> 0 /\ d_block_id x' = b;
  g_find : forall g pos, find s' g pos = if bool_decide (g = f /\ pos = calc_mltt_pos b) then d else find s g pos;
  g_bufs : bufs s' = bufs s;
  g_private : private s' = private s;
  g_mltt : forall g, is_Some (mltt s !! g) -> is_Some (mltt s' !! g);
  g_others : forall e, e <> d -> dbds s' !! e = dbds s !! e;
  g_kept : (exists x, find s f (calc_mltt_pos b) = d /\ dbds s !! d = Some x /\ valid x' = valid x /\
              d_valid_size x' = d_valid_size x /\ (valid x = true -> d_buffer x' = d_buffer x)) \/
           (find s f (calc_mltt_pos b) = 0 /\ valid x' = false)
}.

Lemma search_spec s fs fb f b :
  cache_ok s fs fb -> is_Some (mltt s !! f) -> 0 <= b < 2 ^ 24 -> has_room (heap s) -> fs <> [] -> fb <> [] ->
  exists d (s' : st) fs' fb' x', fss_dbd_get s f b = Some (d, s') /\ got s s' fs' fb' f b d x'.
Proof.
  intros Hok Hf Hb Hroom Hfs Hfb. unfold fss_dbd_get, search_mltt.
  destruct (find_dbd_spec s fs fb f b Hok Hf Hb Hroom Hfs)
    as (d & s1 & fs' & -> & Hok1 & Hd & Hfind1 & Hm1 & B1 & Q1 & _ & Hcase).
  cbn [mbind option_bind]. rewrite (proj2 (Z.eqb_neq d 0) Hd).
  destruct (co_leaf s1 fs' fb Hok1 f (calc_mltt_pos b)) as (x1 & Hx1 & Hn1 & Hw1 & Hb1 & Hp1).
  { rewrite Hfind1, bool_decide_true by done. done. }
  rewrite Hfind1, bool_decide_true in Hx1, Hn1 by done. apply calc_mltt_pos_inj in Hp1; [|done|done].
  rewrite Hx1. cbn [mbind option_bind]. set (x2 := set_refcount x1 _). set (s2 := set_dbd s1 d x2).
  assert (pool_ok s2 fs' fb) as Hpool2.
  { apply (pool_ok_update s1 fs' fb d x1); try done; [apply Hok1|]. intros H0.
    destruct (po_used s1 fs' fb (co_pool _ _ _ Hok1) d x1 Hx1 Hn1) as [(_ & Hv & _)|(? & _)]; [exact Hv|done]. }
  destruct (fill_buffer_spec s2 fs' fb d x2 Hpool2) as
    (s3 & fb' & x3 & -> & Hpool3 & T3 & M3 & H3 & B3 & Q3 & D3 & Hs3 & Hbuf3 & E3 & Hkeep3); [apply lookup_insert_eq|done|done|].
  cbn [mbind option_bind].
  destruct (lru_update_spec s3 fs' fb' d x3 Hpool3) as (n & s4 & -> & Hpool4 & T4 & M4 & H4 & B4 & Q4 & D4);
    [by rewrite D3, lookup_insert_eq|done|done|].
  cbn [mbind option_bind]. exists d, s4, fs', fb', (set_access x3 n). split; [done|].
  assert (dbds s4 = <[d := set_access x3 n]> (dbds s1)) as D5.
  { rewrite D4, D3. unfold s2. cbn. by rewrite !insert_insert_eq. }
  assert (d_who (set_access x3 n) = d_who x1 /\ d_block_id (set_access x3 n) = d_block_id x1 /\
    d_flags (set_access x3 n) = d_flags x1 /\ d_valid_size (set_access x3 n) = d_valid_size x1) as (W5 & K5 & F5 & V5)
    by (rewrite E3; by split_and!).
  assert (cache_ok s4 fs' fb') as Hok4.
  { apply (cache_ok_update s1 s4 fs' fb fb' d x1 (set_access x3 n)); try done; by rewrite ?T4, ?M4, ?H4, ?T3, ?M3, ?H3. }
  constructor; try done.
  - split; [done|]. split; [done|]. rewrite D5, lookup_insert_eq. split; [done|]. split; [done|congruence].
  - intros g pos. rewrite <- Hfind1. apply find_ext; [by rewrite T4, T3|by rewrite M4, M3].
  - by rewrite B4, B3.
  - by rewrite Q4, Q3.
  - intros g Hg. rewrite M4, M3. by apply Hm1.
  - intros e He. rewrite D5, lookup_insert_ne by done. destruct Hcase as [(_ & _ & ->)|(_ & _ & ->)]; [done|].
    by rewrite lookup_insert_ne.
  - unfold valid. rewrite F5, V5. destruct Hcase as [(Ed & _ & Ds)|(H0 & _ & Ds)].
    + left. exists x1. rewrite <- Ds. split; [done|]. split; [done|]. split; [done|]. split; [done|]. intros Hv.
      destruct (po_used s1 fs' fb (co_pool _ _ _ Hok1) d x1 Hx1 Hn1) as [(_ & Hv' & _)|(Hnz & _)];
        [unfold valid in Hv'; congruence|]. by rewrite (Hkeep3 Hnz).
    + right. split; [done|]. rewrite Ds, lookup_insert_eq in Hx1. by injection Hx1 as <-.
Qed.

(** ** The contents of files

    What a block holds: the buffer when it is valid, the disk otherwise. *)
Definition view (disk : Z -> Z -> data) (s : st) (f b : Z) : option data :=
  let on_disk := Some (disk (default 0 (private s !! f)) b) in
  match dbds s !! find s f (calc_mltt_pos b) with
  | Some x => if valid x then bufs s !! d_buffer x else on_disk
  | None => on_disk
  end.

Lemma valid_dirty x n f : valid (set_valid x n (Z.lor f DB_VALID_DATA)) = true.
Proof.
  unfold valid. cbn. change (Z.lor f DB_VALID_DATA) with (Z.lor f (2 ^ 2)). apply negb_true_iff, Z.eqb_neq. intros E.
  apply (f_equal (fun z => Z.testbit z 2)) in E. rewrite Z.land_spec, Z.lor_spec in E. by rewrite orb_true_r in E.
Qed.

Lemma valid_mark_dirty x n : valid (set_valid x n (Z.lor (d_flags x) DB_DIRTY)) = valid x.
Proof.
  unfold valid. cbn. f_equal. rewrite Z.land_lor_distr_l. change (Z.land DB_DIRTY DB_VALID_DATA) with 0. by rewrite Z.lor_0_r.
Qed.

(** The view of the other blocks does not depend on the descriptor [d] of
    [(f, b)] and its buffer. *)
Lemma view_others disk s s' fs' fb' f b d x' s'' x'' v g c :
  got s s' fs' fb' f b d x' -> 0 <= b < 2 ^ 24 -> 0 <= c < 2 ^ 24 -> (g, c) <> (f, b) ->
  tables s'' = tables s' -> mltt s'' = mltt s' -> private s'' = private s' ->
  dbds s'' = <[d := x'']> (dbds s') -> bufs s'' = <[d_buffer x' := v]> (bufs s') ->
  view disk s'' g c = view disk s g c.
Proof.
  intros [Hok (Hd & Hn & Hx & Hbf & Hbl) Hfind Hbufs Hpr _ Hoth _] Hb Hc Hne T M Q D B.
  assert (~ (g = f /\ calc_mltt_pos c = calc_mltt_pos b)) as Hpos.
  { intros [-> E]. apply calc_mltt_pos_inj in E; [congruence|done|done]. }
  unfold view. rewrite (find_ext s' s''), Hfind, bool_decide_false, Q, Hpr by done.
  set (e := find s g (calc_mltt_pos c)). assert (find s' g (calc_mltt_pos c) = e) as Ee by (by rewrite Hfind, bool_decide_false).
  destruct (decide (e = 0)) as [E0|E0].
  { rewrite E0, D, lookup_insert_ne by done. rewrite Hoth by congruence.
    rewrite <- (Hoth 0), (po_zero _ _ _ (co_pool _ _ _ Hok)) by congruence. done. }
  assert (e <> d) as Hed.
  { intros E. destruct (leaf_inj s' fs' fb' g (calc_mltt_pos c) f (calc_mltt_pos b) Hok) as [-> ?]; [|congruence|by apply Hpos].
    rewrite Ee, Hfind, bool_decide_true by done. done. }
  rewrite D, lookup_insert_ne, Hoth by congruence. destruct (dbds s !! e) as [y|] eqn:Ey; [|done].
  destruct (valid y); [|done]. rewrite B, Hbufs, lookup_insert_ne; [done|]. intros Eb. apply Hed.
  destruct (co_leaf s' fs' fb' Hok g (calc_mltt_pos c)) as (z & Hz & Hzn & _); [congruence|]. rewrite Ee in Hz, Hzn.
  assert (z = y) as -> by (rewrite Hoth in Hz by done; congruence).
  apply (po_inj s' fs' fb' (co_pool _ _ _ Hok) e d y x'); try done; congruence.
Qed.

Lemma pool_ok_buf s fs fb p v : pool_ok s fs fb -> pool_ok (set_buf s p v) fs fb.
Proof.
  assert (forall q, is_Some (bufs s !! q) -> is_Some (bufs (set_buf s p v) !! q)) as Hs.
  { intros q Hq. cbn. apply lookup_insert_is_Some. destruct (decide (p = q)); by auto. }
  intros [P1 P2 P3 P4 P5 P6 P7 P8 P9 P10 P11]. constructor; try done.
  - intros b Hb. destruct (P7 b Hb). split; [done|by apply Hs].
  - intros d x Hx Hd. destruct (P9 d x Hx Hd) as [?|(? & ? & ?)]; [by left|right]. split; [done|]. split; [by apply Hs|done].
Qed.

(** The sizes of valid blocks are not negative. *)
Definition sizes_ok (s : st) : Prop := forall f pos x, dbds s !! find s f pos = Some x -> valid x = true -> 0 <= d_valid_size x.

(** An update of the descriptor [d] and its buffer. *)
Definition touched (s s' : st) (d p : Z) (x' : dbd) (v : data) : Prop :=
  cache s' = cache s /\ tables s' = tables s /\ mltt s' = mltt s /\ heap s' = heap s /\ private s' = private s /\
  dbds s' = <[d := x']> (dbds s) /\ bufs s' = <[p := v]> (bufs s).

Lemma touched_ok s s' fs fb d x x' v :
  cache_ok s fs fb -> dbds s !! d = Some x -> d ∉ fs -> d_buffer x <> 0 -> touched s s' d (d_buffer x) x' v ->
  d_who x' = d_who x -> d_block_id x' = d_block_id x -> d_buffer x' = d_buffer x -> cache_ok s' fs fb.
Proof.
  intros Hok Hx Hn Hb (C & T & M & Hh & Q & D & B) Hw Hbl Hbf.
  apply (cache_ok_update s s' fs fb fb d x x'); try done.
  assert (pool_ok (set_dbd (set_buf s (d_buffer x) v) d x') fs fb) as [P1 P2 P3 P4 P5 P6 P7 P8 P9 P10 P11].
  { apply (pool_ok_update _ fs fb d x); try done. apply pool_ok_buf, Hok. }
  constructor; rewrite ?C, ?D, ?B; done.
Qed.

Section Driver.
Context (fRead : Z -> Z -> data -> Z * data * Z) (disk : Z -> Z -> data).

(** What the driver documents: a read that succeeds fills the buffer with the
    block and reports its size. *)
Definition reads (pr b : Z) : Prop := forall old, exists ret size,
  fRead pr b old = (ret, disk pr b, size) /\ 0 <= ret /\ 0 <= size < 2147483648.

Lemma make_valid_spec s s1 fs fb f b d x :
  got s s1 fs fb f b d x -> sizes_ok s1 -> (exists pr, private s !! f = Some pr /\ pr <> 0 /\ reads pr b) ->
  exists ret s2 x2 v, fss_dbd_make_valid fRead s1 f d = Some (ret, s2) /\ 0 <= ret /\
    touched s1 s2 d (d_buffer x) x2 v /\ view disk s f b = Some v /\ valid x2 = true /\ 0 <= d_valid_size x2 /\
    d_who x2 = d_who x /\ d_block_id x2 = d_block_id x /\ d_buffer x2 = d_buffer x.
Proof.
  intros [Hok (Hd & Hn & Hx & Hb & Hbl) Hfind Hbufs Hpr _ Hoth Hkept] Hsz (pr & Hp & Hp0 & Hr).
  unfold fss_dbd_make_valid. rewrite Hx. cbn [mbind option_bind]. fold (valid x).
  destruct (po_used s1 fs fb (co_pool _ _ _ Hok) d x Hx Hn) as [(? & _)|(_ & [v0 Hv0] & _)]; [done|].
  assert (dbds s !! 0 = None) as Hz by (rewrite <- Hoth by congruence; apply (po_zero s1 fs fb), Hok).
  destruct (valid x) eqn:Ev.
  - assert (0 <= d_valid_size x) as Hpos.
    { apply (Hsz f (calc_mltt_pos b)); [|done]. by rewrite Hfind, bool_decide_true. }
    exists (d_valid_size x), s1, x, v0. split; [done|]. split; [done|]. split.
    { unfold touched. rewrite !insert_id by done. by split_and!. }
    split; [|by split_and!].
    destruct Hkept as [(y & Hf & Hy & Hvy & _ & Hby)|[_ Hv]]; [|congruence]. unfold view. rewrite Hf, Hy, <- Hvy.
    rewrite Hbufs in Hv0. rewrite <- (Hby ltac:(congruence)). done.
  - rewrite Hpr, Hp. cbn [mbind option_bind]. rewrite (proj2 (Z.eqb_neq pr 0) Hp0), Hv0. cbn [mbind option_bind].
    rewrite Hbl. destruct (Hr v0) as (ret & size & -> & Hret & Hs).
    eexists ret, _, _, (disk pr b). split; [done|]. split; [done|]. split; [unfold touched; cbn; by split_and!|].
    split; [|split; [apply valid_dirty|cbn; rewrite to_int_small by lia; split; [lia|done]]].
    unfold view. rewrite Hp. cbn [default from_option id].
    destruct Hkept as [(y & -> & -> & Hvy & _)|[-> _]]; [by rewrite <- Hvy|by rewrite Hz].
Qed.

Lemma got_sizes s s1 fs fb f b d x : got s s1 fs fb f b d x -> sizes_ok s -> sizes_ok s1.
Proof.
  intros [Hok (Hd & Hn & Hx & Hb & Hbl) Hfind Hbufs Hpr _ Hoth Hkept] Hs g pos y Hy Hv.
  destruct (decide (find s1 g pos = d)) as [E|He].
  - rewrite E, Hx in Hy. injection Hy as <-. destruct Hkept as [(z & Hf & Hz & Hvz & -> & _)|[_ ?]]; [|congruence].
    apply (Hs f (calc_mltt_pos b) z); congruence.
  - rewrite Hoth in Hy by done. rewrite Hfind in Hy, He. case_bool_decide; [done|]. by apply (Hs g pos y).
Qed.

Lemma block_io_spec s fs fb f b buf wr :
  cache_ok s fs fb -> sizes_ok s -> is_Some (mltt s !! f) -> 0 <= b < 2 ^ 24 -> has_room (heap s) -> fs <> [] -> fb <> [] ->
  (exists pr, private s !! f = Some pr /\ pr <> 0 /\ reads pr b) ->
  exists n v s' fs' fb', fss_block_io fRead s f b buf wr = Some (n, (if wr then buf else v), s') /\ 0 <= n /\
    view disk s f b = Some v /\ cache_ok s' fs' fb' /\ sizes_ok s' /\
    view disk s' f b = Some (if wr then buf else v) /\
    (forall g c, 0 <= c < 2 ^ 24 -> (g, c) <> (f, b) -> view disk s' g c = view disk s g c).
Proof.
  intros Hok Hsz Hf Hb Hroom Hfs Hfb Hpr. unfold fss_block_io.
  destruct (search_spec s fs fb f b Hok Hf Hb Hroom Hfs Hfb) as (d & s1 & fs' & fb' & x & -> & Hgot).
  cbn [mbind option_bind]. pose proof (got_sizes _ _ _ _ _ _ _ _ Hgot Hsz) as Hsz1.
  destruct (make_valid_spec s s1 fs' fb' f b d x Hgot Hsz1 Hpr)
    as (ret & s2 & x2 & v & -> & Hret & Ht2 & Hv & Hvx2 & Hs2 & Hw2 & Hb2 & Hbf2).
  cbn [mbind option_bind]. rewrite (proj2 (Z.ltb_ge ret 0) Hret). destruct Ht2 as (C2 & T2 & M2 & H2 & Q2 & D2 & B2).
  rewrite D2, lookup_insert_eq. cbn [mbind option_bind].
  assert (forall s' x' v', touched s1 s' d (d_buffer x) x' v' -> valid x' = true -> 0 <= d_valid_size x' ->
    d_who x' = d_who x -> d_block_id x' = d_block_id x -> d_buffer x' = d_buffer x ->
    cache_ok s' fs' fb' /\ sizes_ok s' /\ view disk s' f b = Some v' /\
    forall g c, 0 <= c < 2 ^ 24 -> (g, c) <> (f, b) -> view disk s' g c = view disk s g c) as Hfinal.
  { intros s' x' v' Ht' Hvx' Hs' Hw' Hb' Hbf'. pose proof Hgot as [Hok1 (Hd & Hn & Hx & Hbf & Hbl) Hfind _ _ _ _ _].
    destruct Ht' as (C' & T' & M' & H' & Q' & D' & B').
    assert (cache_ok s' fs' fb') as Hok' by (by apply (touched_ok s1 s' fs' fb' d x x' v')).
    split; [done|]. split; [|split].
    - intros g pos y. rewrite (find_ext s1 s'), D' by done. intros [[_ <-]|[_ Hy]]%lookup_insert_Some; [done|exact (Hsz1 g pos y Hy)].
    - unfold view. rewrite (find_ext s1 s'), Hfind, bool_decide_true by done. rewrite D', lookup_insert_eq, Hvx', Hbf', B'.
      apply lookup_insert_eq.
    - intros g c Hc Hne. by apply (view_others disk s s1 fs' fb' f b d x s' x' v'). }
  destruct wr; cbn [negb].
  - unfold fss_dbd_make_dirty. cbn [dbds set_buf]. rewrite D2, lookup_insert_eq. cbn [mbind option_bind].
    unfold fss_dbd_put. cbn [dbds set_dbd set_buf]. rewrite lookup_insert_eq. cbn [mbind option_bind].
    eexists _, v, _, fs', fb'. split; [done|]. split; [done|]. split; [done|]. eapply Hfinal.
    + unfold touched. cbn. rewrite D2, B2, Hbf2, !insert_insert_eq. by split_and!.
    + unfold valid. cbn. pose proof (valid_mark_dirty x2 0) as E. unfold valid in E. cbn in E. rewrite E. exact Hvx2.
    + done.
    + done.
    + done.
    + done.
  - rewrite B2, Hbf2, lookup_insert_eq. cbn [mbind option_bind].
    unfold fss_dbd_put. rewrite D2, lookup_insert_eq. cbn [mbind option_bind].
    eexists _, v, _, fs', fb'. split; [done|]. split; [done|]. split; [done|]. eapply Hfinal.
    + unfold touched. cbn. rewrite D2, insert_insert_eq. by split_and!.
    + exact Hvx2.
    + done.
    + done.
    + done.
    + done.
Qed.

End Driver.
End Invariant.

(** ** The start *)

Lemma elem_push_dbs n base b :
  b ∈ push_dbs n base <-> exists i, (i < n)%nat /\ b = base +w (Z.of_nat i *w FSS_CACHE_DB_SIZE).
Proof.
  induction n as [|n IH]; cbn [push_dbs].
  - split; [by intros ?%not_elem_of_nil|intros (i & ? & _); lia].
  - rewrite elem_of_app, IH, list_elem_of_singleton. split.
    + intros [(i & Hi & ->)| ->]; [exists i|exists n]; (split; [lia|done]).
    + intros (i & Hi & ->). destruct (decide (i = n)) as [->|]; [by right|left; exists i; split; [lia|done]].
Qed.

Lemma push_dbs_eq i base : 0 <= base -> 0 <= i < 32 -> base + 8388608 < 4294967296 ->
  base +w (i *w FSS_CACHE_DB_SIZE) = base + i * 262144.
Proof.
  intros Hb Hi Hw. change FSS_CACHE_DB_SIZE with 262144. rewrite (wrap_small (i * 262144)) by (unfold is_word; lia).
  apply wrap_small. unfold is_word. lia.
Qed.

Lemma NoDup_push_dbs n base : 0 <= base -> (n <= 32)%nat -> base + 8388608 < 4294967296 -> NoDup (push_dbs n base).
Proof.
  intros Hb. induction n as [|n IH]; intros Hn Hw; cbn [push_dbs]; [constructor|]. apply NoDup_app.
  split; [apply IH; lia|]. split; [|apply NoDup_singleton]. intros b (i & Hi & ->)%elem_push_dbs E%list_elem_of_singleton.
  rewrite !push_dbs_eq in E by lia. lia.
Qed.

Lemma length_push_dbs n base : length (push_dbs n base) = n.
Proof. induction n as [|n IH]; cbn [push_dbs]; [done|]. rewrite length_app, IH. cbn. lia. Qed.

(** The free descriptors, the last one pushed first. *)
Fixpoint dbd_list (n : nat) (base : Z) : list Z :=
  match n with O => [] | S n => (base + Z.of_nat n * SIZEOF_DBD) :: dbd_list n base end.

Lemma elem_dbd_list n base d : d ∈ dbd_list n base -> exists i, (i < n)%nat /\ d = base + Z.of_nat i * SIZEOF_DBD.
Proof.
  induction n as [|n IH]; cbn [dbd_list]; [by intros ?%not_elem_of_nil|].
  intros [->|Hd]%elem_of_cons; [exists n; split; [lia|done]|]. destruct (IH Hd) as (i & ? & ->). exists i. split; [lia|done].
Qed.

Lemma NoDup_dbd_list n base : NoDup (dbd_list n base).
Proof.
  induction n as [|n IH]; cbn [dbd_list]; [constructor|]. apply NoDup_cons. split; [|done].
  intros (i & Hi & E)%elem_dbd_list. unfold SIZEOF_DBD in E. lia.
Qed.

Lemma push_dbds_chain n base raw m :
  0 < base -> let '(p, m') := push_dbds n base raw m in
  chain m' p (dbd_list n base) /\ (forall d, d ∉ dbd_list n base -> m' !! d = m !! d).
Proof.
  intros Hb. induction n as [|n IH]; cbn [push_dbds dbd_list]; [done|].
  destruct (push_dbds n base raw m) as [p m1]. destruct IH as [Hc Ho].
  assert (base + Z.of_nat n * SIZEOF_DBD ∉ dbd_list n base) as Hn.
  { intros (i & Hi & E)%elem_dbd_list. unfold SIZEOF_DBD in E. lia. }
  split.
  - split; [done|]. split; [unfold SIZEOF_DBD; lia|]. eexists. rewrite lookup_insert_eq. split; [done|].
    cbn [d_prev set_prev]. revert Hc. apply chain_ext. intros d Hd. apply lookup_insert_ne. congruence.
  - intros d [Hd1 Hd2]%not_elem_of_cons. rewrite lookup_insert_ne by congruence. by apply Ho.
Qed.

Section Theorems.
Context {data A : Type} `{AlignedHeap A MLTT_PAGE_SIZE MLTT_PAGE_SIZE}.

Lemma tables_ok_empty (s : fstate data A) :
  ah_ok (heap s) -> tables s = ∅ -> (forall f t, mltt s !! f = Some t -> t = 0) -> tables_ok s /\ forall f pos, find s f pos = 0.
Proof.
  intros Hh Ht Hm. assert (forall p, tab s p = ∅) as Htab by (intros p; unfold tab; by rewrite Ht).
  assert (forall f, top s f = 0) as Htop by (intros f; unfold top; destruct (mltt s !! f) eqn:E; [by apply Hm in E|done]).
  assert (forall f i, sub s f i = 0) as Hsub by (intros f i; unfold sub; by rewrite Htab).
  split; [|intros f pos; unfold find; by rewrite Htab]. constructor; try done.
  - by rewrite Ht.
  - intros [f|f i]; cbn [table_of]; by rewrite ?Htop, ?Hsub.
  - intros [f|f i] r' _; cbn [table_of]; by rewrite ?Htop, ?Hsub.
  - intros f i. by rewrite Htab.
Qed.

(** With memory for its buffers, its stack and its descriptors,
    [fss_db_init] makes a well-formed cache of 32 free descriptors and 32
    free buffers in which no file has a block. *)
Theorem fss_db_init_correct (s : fstate data A) db_cache stack dbd_cache raw :
  0 < db_cache -> db_cache + 8388608 < 4294967296 -> stack <> 0 -> 0 < dbd_cache ->
  ah_ok (heap s) -> tables s = ∅ -> dbds s = ∅ -> (forall f t, mltt s !! f = Some t -> t = 0) ->
  (forall i, 0 <= i < 32 -> is_Some (bufs s !! (db_cache + i * 262144))) ->
  exists s', fss_db_init s db_cache stack dbd_cache raw = (true, s', []) /\
    cache_ok s' (dbd_list 32 dbd_cache) (push_dbs 32 db_cache) /\ (forall f pos, find s' f pos = 0) /\
    mltt s' = mltt s /\ private s' = private s /\ bufs s' = bufs s /\ heap s' = heap s.
Proof.
  intros Hdb Hw Hst Hd Hh Ht Hds Hm Hbufs. unfold fss_db_init.
  rewrite (proj2 (Z.eqb_neq db_cache 0)), (proj2 (Z.eqb_neq stack 0)), (proj2 (Z.eqb_neq dbd_cache 0)) by lia.
  change (FSS_CACHE_SIZE / FSS_CACHE_DB_SIZE) with 32. change (Z.to_nat 32) with 32%nat.
  pose proof (push_dbds_chain 32 dbd_cache raw (dbds s) Hd) as Hc.
  destruct (push_dbds 32 dbd_cache raw (dbds s)) as [p m]. destruct Hc as [Hc Ho]. eexists. split; [done|].
  set (s' := FState _ _ _ _ _ _ _). destruct (tables_ok_empty s') as [Hok Hfind]; [done|done|done|].
  split; [constructor; [done| |intros f pos; by rewrite Hfind]|by split_and!].
  assert (forall d, d ∉ dbd_list 32 dbd_cache -> m !! d = None) as Hnone by (intros d Hn; by rewrite Ho, Hds).
  constructor; unfold s'; cbn [cache dbds bufs db_stack db_stack_top dbd_stack_top sort_list]; try done.
  - apply NoDup_dbd_list.
  - apply Hnone. intros (i & _ & E)%elem_dbd_list. unfold SIZEOF_DBD in E. lia.
  - apply NoDup_push_dbs; lia.
  - intros b (i & Hi & ->)%elem_push_dbs. rewrite push_dbs_eq by lia. split; [lia|]. apply Hbufs. lia.
  - constructor.
  - intros d x Hx Hn. by rewrite Hnone in Hx.
  - intros d d' x x' Hx _ Hn. by rewrite Hnone in Hx.
  - by intros d ?%not_elem_of_nil.
Qed.

(** C21: under four conditions block input and output through the cache is that
    of the files: a descriptor and a buffer are free, there is memory for two
    tables, the block number is below 2^24, and [fRead] of the driver succeeds
    on the block ([cache_full_faults], [blocks_alias] and
    [make_valid_hides_error] show what happens otherwise).  Then the call of a
    read or a write on an open file returns; a read delivers
    what the block holds, from the disk or from the cache, and changes no
    block; a write makes the block hold the caller's buffer and changes no
    other block of any file.  The cache stays well-formed: tables, counters,
    free lists and LRU list agree. *)
Theorem fss_block_io_correct (fRead : Z -> Z -> data -> Z * data * Z) disk (s : fstate data A) fs fb f b buf wr :
  cache_ok s fs fb -> sizes_ok s -> is_Some (mltt s !! f) -> 0 <= b < 2 ^ 24 -> has_room (heap s) -> fs <> [] -> fb <> [] ->
  (exists pr, private s !! f = Some pr /\ pr <> 0 /\ reads fRead disk pr b) ->
  exists n v s' fs' fb', fss_block_io fRead s f b buf wr = Some (n, (if wr then buf else v), s') /\ 0 <= n /\
    view disk s f b = Some v /\ cache_ok s' fs' fb' /\ sizes_ok s' /\
    view disk s' f b = Some (if wr then buf else v) /\
    (forall g c, 0 <= c < 2 ^ 24 -> (g, c) <> (f, b) -> view disk s' g c = view disk s g c).
Proof. apply block_io_spec. Qed.

(** The tables behind an entry. *)
Lemma find_tables (s : fstate data A) f pos :
  tables_ok s -> find s f pos <> 0 -> exists t T L, mltt s !! f = Some t /\ t <> 0 /\ tables s !! t = Some T /\
    sub s f (lv2 pos) <> 0 /\ tables s !! sub s f (lv2 pos) = Some L /\ entry L (lv1 pos) = find s f pos.
Proof.
  intros Hok Hne. assert (sub s f (lv2 pos) <> 0) as Hs.
  { intros E. apply Hne. unfold find. by rewrite E, tab_zero. }
  assert (top s f <> 0) as Ht. { intros E. apply Hs. unfold sub. by rewrite E, tab_zero. }
  destruct (to_role s Hok (Top f) Ht) as [T HT]. destruct (to_role s Hok (Sub f (lv2 pos)) Hs) as [L HL]. cbn [table_of] in *.
  exists (top s f), T, L. split; [|split_and!; try done; unfold find, tab; by rewrite HL].
  unfold top in *. by destruct (mltt s !! f).
Qed.

Lemma counter_zero l n : l mod 16384 = 0 -> 0 <= n < 4096 -> Z.land (l + n) MLTT_TABLE_COUNTER_MASK =? 0 = (n =? 0).
Proof.
  intros Hl Hn. change MLTT_TABLE_COUNTER_MASK with (Z.ones 12). rewrite Z.land_ones by lia. change (2 ^ 12) with 4096.
  replace ((l + n) mod 4096) with n by zlia. done.
Qed.

Lemma using_clear l : l mod 16384 = 0 -> Z.land (l + 0) MLTT_TABLE_USING = 0.
Proof.
  intros Hl. rewrite Z.add_0_r. change MLTT_TABLE_USING with (2 ^ 13). apply Z.bits_inj'. intros j Hj.
  rewrite Z.land_spec, Z.pow2_bits_eqb, Z.bits_0 by done. destruct (Z.eqb_spec 13 j) as [<-|]; [|apply andb_false_r].
  replace l with (l / 2 ^ 14 * 2 ^ 14) by (change (2 ^ 14) with 16384; zlia). by rewrite Z.mul_pow2_bits_low.
Qed.

(** Cleaning the entry of a descriptor removes exactly that entry from the
    tables of all files; the second-level table goes back to the heap when it
    was the last one. *)
Theorem fss_mltt_entry_clean_correct (s : fstate data A) fs fb f pos x :
  cache_ok s fs fb -> find s f pos <> 0 -> dbds s !! find s f pos = Some x -> Z.land (d_flags x) DB_STAIC = 0 ->
  exists s', fss_mltt_entry_clean_nolock s (find s f pos) = Some (true, s') /\ tables_ok s' /\
    cache s' = cache s /\ dbds s' = dbds s /\ bufs s' = bufs s /\
    forall g p, find s' g p = if bool_decide (g = f /\ p = pos) then 0 else find s g p.
Proof.
  intros [Hok Hpool Hleaf] Hne Hx Hst. destruct (Hleaf f pos Hne) as (y & Hy & _ & Hw & Hb & Hp).
  rewrite Hx in Hy. injection Hy as <-. destruct (find_tables s f pos Hok Hne) as (t & T & L & Hf & Ht & HT & Hs & HL & He).
  unfold fss_mltt_entry_clean_nolock. rewrite Hx. cbn [mbind option_bind]. rewrite Hst. cbn [Z.eqb negb].
  destruct (calc_mltt_pos_range (d_block_id x)) as [Hj Hi]; [lia|]. rewrite Hp in *. rewrite Hw, Hf. cbn [mbind option_bind].
  assert (top s f = t) as Htop by (unfold top; by rewrite Hf). assert (tab s t = T) as HtT by (unfold tab; by rewrite HT).
  rewrite (read_entry_eq s t) by (done || by eexists). cbn [mbind option_bind].
  assert (Z.land (entry (tab s t) (lv2 pos)) MLTT_TABLE_POINTER_MASK = sub s f (lv2 pos)) as -> by (unfold sub; by rewrite Htop).
  set (l := sub s f (lv2 pos)) in *. assert (l <> t) as Hlt.
  { intros E. assert (Sub f (lv2 pos) = Top f) as [=]. apply (to_inj s Hok); cbn [table_of]; [by rewrite Htop|done]. }
  rewrite (write_entry_eq s l L) by done. cbn [mbind option_bind].
  rewrite (write_entry_eq _ t T); [|cbn; by rewrite lookup_insert_ne|done]. cbn [mbind option_bind]. rewrite HtT.
  destruct (clear_leaf s f (lv2 pos) (lv1 pos) t T l L) as (Hdec & Hok1 & Hfind1); try done; [congruence|].
  destruct (leaf_count s f (lv2 pos) t T l L) as (_ & HLw & Hlm & Hl0 & Hlw); try done.
  set (s1 := set_tables s _ _) in Hok1, Hfind1. change (set_tables (set_tables s _ _) _ _) with s1.
  assert (forall g p, find s1 g p = if bool_decide (g = f /\ p = pos) then 0 else find s g p) as Hfind.
  { intros g p. rewrite Hfind1. destruct pos as [j i]. done. }
  pose proof (table_size _ (table_wf_set L (lv1 pos) 0 HLw Hj)) as Hsz.
  assert (Z.of_nat (size (set_entry L (lv1 pos) 0)) < 4096) as Hsz'.
  { pose proof (table_size _ HLw) as Hsz0. rewrite (size_clear L (lv1 pos)) in Hsz0 by congruence. lia. }
  rewrite Hdec, counter_zero by (done || lia). destruct (Z.eqb_spec (Z.of_nat (size (set_entry L (lv1 pos) 0))) 0) as [E0|]; [|exists s1; by split_and!].
  rewrite E0, using_clear by done. cbn [Z.eqb negb].
  assert (set_entry L (lv1 pos) 0 = ∅) as HLe by (apply map_size_empty_inv; lia).
  assert (tables s1 !! t = Some (set_entry T (lv2 pos) (entry T (lv2 pos) -w 1))) as HT1 by (unfold s1; cbn; by rewrite lookup_insert_eq).
  assert (tables s1 !! l = Some ∅) as HL1 by (unfold s1; cbn [tables set_tables]; by rewrite lookup_insert_ne, lookup_insert_eq, HLe).
  assert (sub s1 f (lv2 pos) = l) as Hs1.
  { unfold sub, tab. change (top s1 f) with (top s f). rewrite Htop, HT1. cbn [default from_option id].
    rewrite entry_set, Z.eqb_refl, Hdec, E0. apply mask_split; try lia. unfold is_word in *. lia. }
  rewrite (write_entry_eq s1 t _ _ _ HT1) by done. cbn [mbind option_bind]. unfold deallocate_lv1. cbn [heap set_tables tables].
  change (heap s1) with (heap s).
  destruct (ah_free_law (heap s) l (to_heap s Hok)) as (h & Eh & _); [by apply (to_in s Hok l L)|]. rewrite Eh. cbn [mbind option_bind].
  destruct (drop_sub s1 f (lv2 pos) t _ l h Hok1 Htop Ht HT1 Hs1) as (Hok2 & Hfind2); try done.
  eexists. split; [done|]. split; [done|]. split; [done|]. split; [done|]. split; [done|].
  intros g p. by rewrite <- Hfind, <- Hfind2.
Qed.

(** When the table cannot be allocated, [search_mltt] jumps to the code that
    increments the counter of the descriptor, with a NULL pointer. *)
Theorem search_mltt_null (s : fstate data A) f b h :
  mltt s !! f = Some 0 -> ah_malloc (heap s) = Some (0, h) -> fss_dbd_get s f b = None.
Proof.
  intros Hf Hh. unfold fss_dbd_get, search_mltt, find_dbd. rewrite Hf. cbn [mbind option_bind Z.eqb].
  unfold allocate_lv2. rewrite Hh. done.
Qed.

(** A cache without free descriptors faults on every block it does not hold:
    the thread asks for a recaller that does not exist. *)
Theorem cache_full_faults (s : fstate data A) fb f b :
  cache_ok s [] fb -> is_Some (mltt s !! f) -> 0 <= b -> has_room (heap s) -> find s f (calc_mltt_pos b) = 0 ->
  fss_dbd_get s f b = None.
Proof.
  intros [Hok Hpool _] [t0 Hf] Hb Hroom H0. unfold fss_dbd_get, search_mltt, find_dbd. rewrite Hf. cbn [mbind option_bind].
  destruct (calc_mltt_pos_range b Hb) as [Hj Hi].
  destruct (get_top s f t0 Hok Hf Hroom) as (t & s1 & -> & Ht & Hok1 & Hf1 & (C1 & D1 & _) & Hfind1 & _ & Hroom1).
  cbn [mbind option_bind]. rewrite (proj2 (Z.eqb_neq t 0) Ht).
  destruct (get_sub s1 f t (calc_mltt_pos b) Hok1 Hf1 Ht Hi Hroom1) as (e & l & s2 & -> & E2 & Hl & Hok2 & _ & Hsub2 & (C2 & D2 & _) & Hfind2).
  cbn [mbind option_bind]. cbn zeta in E2. rewrite E2. cbn [mbind option_bind]. rewrite (proj2 (Z.eqb_neq l 0) Hl).
  assert (is_Some (tables s2 !! l)) as HL.
  { pose proof (to_role s2 Hok2 (Sub f (lv2 (calc_mltt_pos b)))) as Hr. cbn [table_of] in Hr. rewrite Hsub2 in Hr. by apply Hr. }
  rewrite (read_entry_eq s2 l) by done. cbn [mbind option_bind].
  assert (entry (tab s2 l) (lv1 (calc_mltt_pos b)) = 0) as ->.
  { rewrite <- H0, <- Hfind1, <- Hfind2. unfold find. by rewrite Hsub2. }
  unfold fss_dbd_malloc. rewrite C2, C1, (po_chain s [] fb Hpool). done.
Qed.

(** A block whose read failed counts as valid: the next access succeeds with
    whatever the buffer holds. *)
Theorem make_valid_hides_error (fRead : Z -> Z -> data -> Z * data * Z) (s : fstate data A) f d x pr old ret content size :
  dbds s !! d = Some x -> valid x = false -> private s !! f = Some pr -> pr <> 0 -> bufs s !! d_buffer x = Some old ->
  fRead pr (d_block_id x) old = (ret, content, size) -> ret < 0 ->
  exists s', fss_dbd_make_valid fRead s f d = Some (ret, s') /\ fss_dbd_make_valid fRead s' f d = Some (to_int size, s').
Proof.
  intros Hx Hv Hp Hp0 Ho Hr Hneg. unfold fss_dbd_make_valid at 1. rewrite Hx. cbn [mbind option_bind]. fold (valid x).
  rewrite Hv, Hp. cbn [mbind option_bind]. rewrite (proj2 (Z.eqb_neq pr 0) Hp0), Ho. cbn [mbind option_bind]. rewrite Hr.
  eexists. split; [done|]. unfold fss_dbd_make_valid. cbn [dbds set_dbd set_buf]. rewrite lookup_insert_eq. cbn [mbind option_bind].
  pose proof (valid_dirty x (to_int size) (d_flags x)) as E. unfold valid in E. by rewrite E.
Qed.

End Theorems.

(** Blocks that differ by a multiple of 2^24 have the same position, and
    share a descriptor: the second one gets the data of the first. *)
Theorem blocks_alias b : 0 <= b -> calc_mltt_pos (b + 2 ^ 24) = calc_mltt_pos b.
Proof.
  intros Hb. rewrite !calc_mltt_pos_eq by lia. f_equal; [by rewrite Z.add_mod, Z.add_0_r, Z.mod_mod by lia|].
  replace (b + 2 ^ 24) with (b + 4096 * 4096) by lia. rewrite Z.div_add, Z.add_mod, Z.add_0_r, Z.mod_mod by lia. done.
Qed.

(** The exchange with the successor moves an element one place towards the
    end that is kept longest; but the last element becomes the first, the next
    to be given up. *)
Theorem lru_exchange_last l d : d ∉ l -> lru_exchange (l ++ [d]) d = Some (d :: l).
Proof.
  intros Hd. unfold lru_exchange. destruct (exchange_perm (l ++ [d]) d) as (l' & -> & _);
    [apply elem_of_app; right; apply list_elem_of_here|].
  cbn [mbind option_bind]. by rewrite last_snoc, bool_decide_true, removelast_last by done.
Qed.

Lemma exchange_next l d e r : d ∉ l -> exchange (l ++ d :: e :: r) d = Some (l ++ e :: d :: r).
Proof.
  induction l as [|x l IH]; cbn [app exchange]; [by rewrite Z.eqb_refl|]. intros [Hx Hd]%not_elem_of_cons.
  rewrite (proj2 (Z.eqb_neq x d)) by congruence. by rewrite IH.
Qed.

Theorem lru_exchange_next l d e r : d ∉ l -> d ∉ e :: r -> lru_exchange (l ++ d :: e :: r) d = Some (l ++ e :: d :: r).
Proof.
  intros Hl Hr. unfold lru_exchange. rewrite exchange_next by done. cbn [mbind option_bind].
  rewrite bool_decide_false; [done|]. intros E. change (d :: e :: r) with ([d] ++ e :: r) in E. rewrite app_assoc, last_app_cons in E.
  apply Hr. apply last_Some in E as (k & ->). apply elem_of_app. right. apply list_elem_of_here.
Qed.

(** ** A cache on the kernel's heap *)

Definition table_heap {H} `{KernelHeap H} : AlignedHeap (aheap H) MLTT_PAGE_SIZE MLTT_PAGE_SIZE.
Proof. refine (aligned_heap 14 16384 _ _ _); lia. Defined.

(** File 5, opened by the driver as 77, and buffers at 16 MB. *)
Definition fs_start : fstate Z (aheap linear_memory_block) :=
  FState (Cache 0 [] 0 0 [] []) ∅ ∅ (list_to_map ((fun i => (0x1000000 + i * 262144, 0)) <$> seqZ 0 32)) (AHeap fs_block ∅)
    {[5 := 0]} {[5 := 77]}.
Definition fs_sample : fstate Z (aheap linear_memory_block) :=
  snd (fst (@fss_db_init Z _ fs_start 0x1000000 0x3000000 0x2000000 (fun _ => Dbd 0 0 0 [] 0 0 0 0 0))).

#[local] Instance sample_tables : AlignedHeap (aheap linear_memory_block) MLTT_PAGE_SIZE MLTT_PAGE_SIZE :=
  @table_heap _ (kernel_heap sample_raw).

Lemma fs_sample_ok :
  cache_ok fs_sample (dbd_list 32 0x2000000) (push_dbs 32 0x1000000) /\ (forall f pos, find fs_sample f pos = 0).
Proof.
  destruct (fss_db_init_correct fs_start 0x1000000 0x3000000 0x2000000 (fun _ => Dbd 0 0 0 [] 0 0 0 0 0))
    as (s' & E & Hok & Hfind & _); try done; try lia; [apply fs_block_ok| | |].
  - intros f t Hf. unfold fs_start in Hf. cbn [mltt] in Hf. by apply lookup_singleton_Some in Hf as [_ <-].
  - intros i Hi. eexists. apply elem_of_list_to_map_1.
    + rewrite <- list_fmap_compose. apply NoDup_fmap_2; [|apply NoDup_seqZ]. intros a b. cbn. lia.
    + apply list_elem_of_fmap. exists i. split; [done|]. apply elem_of_seqZ. lia.
  - unfold fs_sample. rewrite E. by split.
Qed.

Definition sample_read (pr b old : Z) : Z * Z * Z := (0, pr + b, 262144).

Lemma fss_block_io_witness :
  exists n s', fss_block_io sample_read fs_sample 5 3 9 false = Some (n, 80, s').
Proof.
  destruct fs_sample_ok as [Hok Hfind].
  destruct (fss_block_io_correct sample_read (fun pr b => pr + b) fs_sample (dbd_list 32 0x2000000) (push_dbs 32 0x1000000) 5 3 9 false)
    as (n & v & s' & fs' & fb' & E & _ & Hv & _).
  - exact Hok.
  - intros f pos x. rewrite Hfind, (po_zero _ _ _ (co_pool _ _ _ Hok)). discriminate.
  - exists 0. reflexivity.
  - lia.
  - eexists _, _, _, _. split; [vm_compute; reflexivity|]. split; [discriminate|]. split; [vm_compute; reflexivity|]. discriminate.
  - discriminate.
  - discriminate.
  - exists 77. split; [reflexivity|]. split; [lia|]. intros old. exists 0, 262144. split; [reflexivity|]. lia.
  - exists n, s'. rewrite E. unfold view in Hv. rewrite Hfind, (po_zero _ _ _ (co_pool _ _ _ Hok)) in Hv. by injection Hv as <-.
Defined.
