(* ===== verification/FsTree.v ===== *)
(** * The file tree of the file system

    [source/subsystem/fs/tree.c], and of [main.c] the volumes, the registration
    of a driver and [fss_open].  The tree holds the files that have been seen,
    by address; a directory is filled by the driver the first time a name in it
    is looked up.  Files and their names are blocks of the kernel's heap, the
    class [KernelHeap]; the driver is the class [VfsDriver].  Of the union in a
    file, [TFile] is the part of a normal file and [TDir] that of a directory.
    Locks are not modelled: an operation is one step.  [Fault] is an access
    through a NULL or a stray pointer; [NoFuel] is only returned when a
    directory record has the length 0. *)

From stdpp Require Import gmap.
From S2P Require Import Prelude MemAlloc Valloc CString.
Local Open Scope c_scope.
Import HeapOps VallocOps StringOps.

Definition FSS_VOLUMN_LABEL_CHECK_LEN : nat := 5.
Definition FSS_FILE_TREE_COMPLETION : Z := 1.
Definition FSS_NAME_END_SIZE : Z := 1.
Definition SIZEOF_FSS_FILE : Z := 1096.
Definition SIZEOF_FSS_VOLUMN : Z := 28.
Definition EIO : Z := 5.
Definition ENOMEM : Z := 12.
Definition ENOTDIR : Z := 20.

Inductive fss_file_type := FSS_FILE_TYPE_NORMAL | FSS_FILE_TYPE_DIR.

Inductive fss_action_reason := LOOP_FILE_END | LOOP_NOT_FOUND | LOOP_FOUND.

#[global] Instance fss_file_type_eq_dec : EqDecision fss_file_type.
Proof. solve_decision. Defined.

Inductive file_union := TFile | TDir (child_head : list Z) (tree_flags : Z).

(** [name] is the block of the name and [name_str] what is in it. *)
Record fss_file := File {
  parent : Z;
  ref : Z;
  volumn : Z;
  private : Z;
  name : Z;
  name_str : list Z;
  type : fss_file_type;
  t : file_union
}.

Record fss_volumn := Volumn {
  volumn_id : list Z;
  root_dir : Z;
  v_drv : Z;
  using_count : Z
}.

(** A directory as the driver stores it: records of 19 bytes (inode, offset,
    length of the record, type) that the name with its end and a padding
    follow.  [content] gives the entries of a directory and nothing for a
    normal file. *)
Section Image.
Context {N : Type} (content : N -> option (list (list Z * N))).

Fixpoint dir_image (es : list (list Z * N)) (img : list Z) : Prop :=
  match es with
  | [] => img = []
  | (nm, m) :: es => exists head lo hi ty pad rest,
      img = head ++ lo :: hi :: ty :: nm ++ 0 :: pad ++ rest /\ length head = 16%nat /\
      0 <= lo < 256 /\ 0 <= hi < 256 /\ lo + 256 * hi = Z.of_nat (20 + length nm + length pad) /\
      (ty = 4 <-> is_Some (content m)) /\ 0 ∉ nm /\ bytes nm /\ dir_image es rest
  end.
End Image.

(** What the tree needs of a file system driver.  [stands d dr pr n]: in the
    state [d] the driver at [dr] gave out [pr] as its description of [n].
    Opening and reading may fail; what they give back is in the file system,
    and descriptions stay valid. *)
Class VfsDriver (D N : Type) := {
  fMount : D -> Z -> Z * D;
  fOpen : D -> Z -> Z -> list Z -> Z * D;
  fStat : D -> Z -> Z -> Z * Z * D;                       (* error code and [info.size] *)
  fReadDir : D -> Z -> Z -> Z -> Z * list Z * D;          (* bytes or error code, and the buffer *)
  content : N -> option (list (list Z * N));
  stands : D -> Z -> Z -> N -> Prop;
  fMount_law : forall d dr pr d', fMount d dr = (pr, d') ->
    (forall dr q k, stands d dr q k -> stands d' dr q k) /\ (pr = 0 \/ exists n es, stands d' dr pr n /\ content n = Some es);
  fOpen_law : forall d dr pr n es nm m s pr' d', stands d dr pr n -> content n = Some es -> (nm, m) ∈ es -> cstr s nm ->
    fOpen d dr pr s = (pr', d') ->
    (forall dr q k, stands d dr q k -> stands d' dr q k) /\ (pr' = 0 \/ stands d' dr pr' m);
  fStat_law : forall d dr pr n es r size d', stands d dr pr n -> content n = Some es -> fStat d dr pr = (r, size, d') ->
    (forall dr q k, stands d dr q k -> stands d' dr q k) /\ (r = 0 -> 0 < size < 2147483644);
  fReadDir_law : forall d dr pr n es size r buf d', stands d dr pr n -> content n = Some es -> fReadDir d dr pr size = (r, buf, d') ->
    (forall dr q k, stands d dr q k -> stands d' dr q k) /\
    (0 <= r -> r <= size /\ exists img pad, buf = img ++ pad /\ r = Z.of_nat (length img) /\ dir_image content es img)
}.

(** The files and volumes by address, the volumes of [fss_vfs_info], the heap
    and the state of the drivers. *)
Record tree (H D : Type) := Tree {
  files : gmap Z fss_file;
  vols : gmap Z fss_volumn;
  vol_list : list Z;
  drv_list : list Z;
  heap : H;
  drv : D
}.
Arguments Tree {H D} _ _ _ _ _ _.
Arguments files {H D} _.
Arguments vols {H D} _.
Arguments vol_list {H D} _.
Arguments drv_list {H D} _.
Arguments heap {H D} _.
Arguments drv {H D} _.

Module TreeOps.
Section Tree.
Context {H} `{KH : KernelHeap H} {D N} `{VD : VfsDriver D N}.
Notation st := (tree H D).

Definition set_files (s : st) (m : gmap Z fss_file) : st := Tree m (vols s) (vol_list s) (drv_list s) (heap s) (drv s).
Definition set_vols (s : st) (m : gmap Z fss_volumn) (l : list Z) : st := Tree (files s) m l (drv_list s) (heap s) (drv s).
Definition set_heap (s : st) (h : H) : st := Tree (files s) (vols s) (vol_list s) (drv_list s) h (drv s).
Definition set_drv (s : st) (d : D) : st := Tree (files s) (vols s) (vol_list s) (drv_list s) (heap s) d.
Definition set_file (s : st) (f : Z) (x : fss_file) : st := set_files s (<[f := x]> (files s)).

Definition set_t (x : fss_file) (u : file_union) : fss_file :=
  File (parent x) (ref x) (volumn x) (private x) (name x) (name_str x) (type x) u.
Definition set_private (x : fss_file) (p : Z) : fss_file :=
  File (parent x) (ref x) (volumn x) p (name x) (name_str x) (type x) (t x).
Definition set_ref (x : fss_file) (r : Z) : fss_file :=
  File (parent x) r (volumn x) (private x) (name x) (name_str x) (type x) (t x).

(** [FSS_FILE_INC_REF_COUNTER] at [got:]. *)
Definition inc_ref (s : st) (f : Z) : option st :=
  x ← files s !! f; Some (set_file s f (set_ref x (to_int (ref x + 1)))).

Definition vfree (h : H) (p : Z) : option H := if p =? 0 then Some h else kh_free h p.

Definition fss_file_new (s : st) (father priv : Z) (nm : list Z) (ty : fss_file_type) : option (Z * st) :=
  '(file, h) ← kh_alloc (heap s) SIZEOF_FSS_FILE;
  len ← strlen nm;
  '(file_name, h) ← kh_alloc h (len + FSS_NAME_END_SIZE);
  if (file =? 0) || (file_name =? 0) then
    h ← vfree h file; h ← vfree h file_name; Some (0, set_heap s h)
  else
    str ← strcpy (replicate (Z.to_nat (len + FSS_NAME_END_SIZE)) 0) nm;
    let u := match ty with FSS_FILE_TYPE_DIR => TDir [] 0 | FSS_FILE_TYPE_NORMAL => TFile end in
    let s := set_heap s h in
    if father =? 0 then Some (file, set_file s file (File 0 0 0 priv file_name str ty u)) else
    fa ← files s !! father;
    match t fa with
    | TFile => None
    | TDir cs fl =>
      let s := set_file s father (set_t fa (TDir (cs ++ [file]) fl)) in
      Some (file, set_file s file (File father 0 (volumn fa) priv file_name str ty u))
    end.

(** The loop over the records of a directory; false when there is no memory. *)
Fixpoint import_loop (fuel : nat) (s : st) (current_path : Z) (p : list Z) (size : Z) : run (bool * st) :=
  match fuel with
  | O => NoFuel
  | S fuel =>
    if size =? 0 then Ret (true, s) else
    ty ← lift (p !! 18%nat);
    let type := if ty =? 4 then FSS_FILE_TYPE_DIR else FSS_FILE_TYPE_NORMAL in
    '(f, s) ← lift (fss_file_new s current_path 0 (drop 19 p) type);
    if f =? 0 then Ret (false, s) else
    lo ← lift (p !! 16%nat);
    hi ← lift (p !! 17%nat);
    let record_len := lo + 256 * hi in
    import_loop fuel s current_path (drop (Z.to_nat record_len) p) (wrap (size - record_len))
  end.

(** Behind [fStat]: the buffer, [fReadDir], the loop and the end. *)
Definition import_entries (fuel : nat) (s : st) (current_path dr size : Z) : run (Z * st) :=
  '(entries, h) ← lift (kh_alloc (heap s) size);
  let s := set_heap s h in
  if entries =? 0 then Ret (- ENOMEM, s) else
  c ← lift (files s !! current_path);
  let '(ret, buf, d) := fReadDir (drv s) dr (private c) (to_int size) in
  let s := set_drv s d in
  '(ret, s) ← (
    if ret <? 0 then Ret (ret, s) else
    '(ok, s) ← import_loop fuel s current_path buf (wrap ret);
    if negb ok then Ret (- ENOMEM, s) else
    c ← lift (files s !! current_path);
    match t c with
    | TFile => Fault
    | TDir cs fl => Ret (ret, set_file s current_path (set_t c (TDir cs (Z.lor fl FSS_FILE_TREE_COMPLETION))))
    end);
  h ← lift (kh_free (heap s) entries);
  Ret (ret, set_heap s h).

(** Behind the opening of the directory as [pr]. *)
Definition import_opened (fuel : nat) (s : st) (current_path dr pr : Z) : run (Z * st) :=
  if pr =? 0 then Ret (- EIO, s) else
  let '(r, size, d) := fStat (drv s) dr pr in
  let s := set_drv s d in
  if negb (r =? 0) then Ret (- EIO, s) else
  import_entries fuel s current_path dr (wrap size).

Definition import_file (fuel : nat) (s : st) (current_path : Z) : run (Z * st) :=
  c ← lift (files s !! current_path);
  if bool_decide (type c <> FSS_FILE_TYPE_DIR) then Ret (- ENOTDIR, s) else
  match t c with
  | TFile => Fault
  | TDir _ flags =>
    if negb (Z.land flags FSS_FILE_TREE_COMPLETION =? 0) then Ret (0, s) else
    v ← lift (vols s !! volumn c);
    '(pr, s) ← (
      if private c =? 0 then
        fa ← lift (files s !! parent c);
        let '(pr, d) := fOpen (drv s) (v_drv v) (private fa) (name_str c) in
        Ret (pr, set_file (set_drv s d) current_path (set_private c pr))
      else Ret (private c, s));
    import_opened fuel s current_path (v_drv v) pr
  end.

Definition fss_tree_make_full (fuel : nat) (s : st) (current_path : Z) : run (Z * st) := import_file fuel s current_path.

(** The search of the children, 0 when there is none of that name. *)
Fixpoint find_child (m : gmap Z fss_file) (cs : list Z) (key : list Z) (len : Z) : option Z :=
  match cs with
  | [] => Some 0
  | c :: cs =>
    x ← m !! c;
    r ← strncmp (name_str x) key len;
    if r =? 0 then
      n ← strlen (name_str x);
      if n =? len then Some c else find_child m cs key len
    else find_child m cs key len
  end.

Definition dot : list Z := [46; 0].
Definition dotdot : list Z := [46; 46; 0].

Definition get_file_by_name (s : st) (current_path : Z) (file_name : list Z) (iStart iEnd : nat) : option (Z * st) :=
  c ← files s !! current_path;
  r ← strcmp (drop iStart file_name) dot;
  if r =? 0 then s ← inc_ref s current_path; Some (current_path, s) else
  r ← strcmp (drop iStart file_name) dotdot;
  if r =? 0 then s ← inc_ref s (parent c); Some (parent c, s) else
  match t c with
  | TFile => None
  | TDir cs _ =>
    file ← find_child (files s) cs (drop iStart file_name) (Z.of_nat (iEnd - iStart));
    if file =? 0 then Some (0, s) else s ← inc_ref s file; Some (file, s)
  end.

(** From [loop_again:], the search without and with the sleep lock. *)
Definition get_twice (s : st) (current_path : Z) (file_name : list Z) (iStart iEnd : nat) : option (Z * st) :=
  '(file, s) ← get_file_by_name s current_path file_name iStart iEnd;
  if negb (file =? 0) then Some (file, s) else get_file_by_name s current_path file_name iStart iEnd.

Definition lockup_file_in_this_dir (fuel : nat) (s : st) (current_path : Z) (file_name : list Z) (iStart iEnd : nat)
  : run (Z * st) :=
  '(file, s) ← lift (get_twice s current_path file_name iStart iEnd);
  if negb (file =? 0) then Ret (file, s) else
  c ← lift (files s !! current_path);
  match t c with
  | TFile => Fault
  | TDir (_ :: _) _ => Ret (0, s)
  | TDir [] _ =>
    '(r, s) ← import_file fuel s current_path;
    if r <? 0 then Ret (0, s) else lift (get_twice s current_path file_name iStart iEnd)
  end.

(** ** Volumes *)

Definition fss_volumn_create_simple (s : st) : option (Z * st) :=
  '(v, h) ← kh_alloc (heap s) SIZEOF_FSS_VOLUMN;
  let s := set_heap s h in
  if v =? 0 then Some (0, s) else
  Some (v, set_vols s (<[v := Volumn (replicate 5 0) 0 0 0]> (vols s)) (vol_list s ++ [v])).

Fixpoint search_volumns (m : gmap Z fss_volumn) (l : list Z) (id : list Z) : option Z :=
  match l with
  | [] => Some 0
  | v :: l => x ← m !! v; r ← strcmp id (volumn_id x); if r =? 0 then Some v else search_volumns m l id
  end.

Definition fss_volumn_search (s : st) (id : list Z) : option Z := search_volumns (vols s) (vol_list s) id.

Definition root_label : list Z := [48; 58; 0].

Definition get_unix (s : st) : option Z := fss_volumn_search s root_label.

(** The name of the root directory in the encoding of the sources. *)
Definition root_name : list Z := [184; 249; 196; 191; 194; 188; 0].

Definition fss_tree_init (s : st) (v driver root_private : Z) : option (bool * st) :=
  x ← vols s !! v;
  id ← strcpy (volumn_id x) root_label;
  '(f, s) ← fss_file_new s 0 root_private root_name FSS_FILE_TYPE_DIR;
  let set s y := set_vols s (<[v := y]> (vols s)) (vol_list s) in
  if f =? 0 then Some (false, set s (Volumn id 0 (v_drv x) (using_count x))) else
  r ← files s !! f;
  let s := set_file s f (File (parent r) (ref r) v (private r) (name r) (name_str r) (type r) (t r)) in
  Some (true, set s (Volumn id f driver (to_int (using_count x + 1)))).

Definition fss_vfs_register (s : st) (driver : Z) : option st :=
  let s := Tree (files s) (vols s) (vol_list s) (drv_list s ++ [driver]) (heap s) (drv s) in
  '(v, s) ← fss_volumn_create_simple s;
  if v =? 0 then Some s else
  let '(private, d) := fMount (drv s) driver in
  let s := set_drv s d in
  if private =? 0 then Some s else
  '(_, s) ← fss_tree_init s v driver private; Some s.

(** ** Paths *)

Definition is_sep (c : Z) : bool := (c =? 47) || (c =? 92).                  (* slash and backslash *)
Definition is_colon (c : Z) : bool := (c =? 58) || (c =? 59).                (* colon and semicolon *)

(** The search for a special character, [n] rounds from [i]. *)
Fixpoint label_scan (n : nat) (s : list Z) (i : nat) : option nat :=
  match n with
  | O => Some i
  | S n => c ← s !! i; if (c =? 0) || is_sep c || is_colon c then Some i else label_scan n s (S i)
  end.

(** The condition that a volume ends at [i]. *)
Definition ends_label (s : list Z) (i : nat) : option bool :=
  c ← s !! i;
  if negb (is_colon c) then Some false else
  d ← s !! S i; Some ((d =? 0) || is_sep d).

(** The copy of [n] characters from [j] on; [interval] has 5 bytes. *)
Fixpoint copy_label (n : nat) (s : list Z) (j : nat) (interval : list Z) : option (list Z) :=
  match n with
  | O => Some interval
  | S n =>
    c ← s !! j;
    if is_sep c then copy_label n s (S j) interval else
    if (length interval <? FSS_VOLUMN_LABEL_CHECK_LEN)%nat then copy_label n s (S j) (interval ++ [c]) else None
  end.

Definition volumn_label (s : list Z) (i : nat) : option (list Z) :=
  interval ← copy_label (S i) s 0 [];
  l ← last interval;
  if (length interval <? FSS_VOLUMN_LABEL_CHECK_LEN)%nat then
    Some ((if l =? 59 then removelast interval ++ [58] else interval) ++ [0])
  else None.

(** From [loop_file_l2:] to [loop_file_l1:]; the directory 0 leads to the
    error return. *)
Definition volumn_start (s : st) (current_path : Z) (path : list Z) (i : nat) : option (Z * nat) :=
  b ← ends_label path i;
  if (b : bool) then
    interval ← volumn_label path i;
    fs ← fss_volumn_search s interval;
    if fs =? 0 then Some (0, 0%nat) else
    v ← vols s !! fs; Some (root_dir v, S i)
  else Some (current_path, 0%nat).

(** From the beginning to [loop_file_l1:]. *)
Definition loop_start (s : st) (current_path : Z) (path : list Z) : option (Z * nat) :=
  c ← path !! 0%nat;
  if c =? 47 then
    i ← label_scan FSS_VOLUMN_LABEL_CHECK_LEN path 1;
    b ← ends_label path i;
    if (b : bool) then volumn_start s current_path path i else
    fs ← get_unix s;
    if fs =? 0 then Some (0, 0%nat) else
    v ← vols s !! fs; Some (root_dir v, 1%nat)
  else
    i ← label_scan FSS_VOLUMN_LABEL_CHECK_LEN path 0;
    volumn_start s current_path path i.

(** The inner loop: the length of the name that begins here. *)
Fixpoint name_len (s : list Z) : option nat :=
  match s with
  | [] => None
  | c :: s => if (c =? 0) || is_sep c then Some O else S <$> name_len s
  end.

Section Loop.
Variable fuel : nat.
(** [action], with its context; the indices are those of the name. *)
Variable action : option (st -> Z -> fss_action_reason -> nat -> nat -> run (Z * st)).

Definition act (s : st) (file : Z) (reason : fss_action_reason) (j i : nat) (none : Z) : run (Z * st) :=
  match action with Some a => a s file reason j i | None => Ret (none, s) end.

Fixpoint path_loop (n : nat) (s : st) (cur_dir : Z) (path : list Z) (i : nat) : run (Z * st) :=
  match n with
  | O => NoFuel
  | S n =>
    c ← lift (path !! i);
    if c =? 0 then act s cur_dir LOOP_FILE_END 0 0 cur_dir else
    len ← lift (name_len (drop i path));
    if (len =? 0)%nat then path_loop n s cur_dir path (S i) else
    '(file, s) ← lockup_file_in_this_dir fuel s cur_dir path i (i + len);
    '(file, s) ← (
      if file =? 0 then act s cur_dir LOOP_NOT_FOUND i (i + len) 0
      else act s file LOOP_FOUND i (i + len) file);
    if file =? 0 then Ret (0, s) else path_loop n s file path (i + len)
  end.

Definition fss_loop_file (s : st) (current_path : Z) (path : list Z) : run (Z * st) :=
  '(cur_dir, i) ← lift (loop_start s current_path path);
  if cur_dir =? 0 then Ret (0, s) else path_loop (S (length path)) s cur_dir path i.
End Loop.

(** [fss_close] does nothing. *)
Definition fss_open (fuel : nat) (s : st) (current_dir : Z) (path : list Z) : run (Z * st) :=
  '(f, s) ← fss_loop_file fuel None s current_dir path;
  if f =? 0 then Ret (0, s) else
  x ← lift (files s !! f);
  if negb (private x =? 0) then Ret (f, s) else
  v ← lift (vols s !! volumn x);
  fa ← lift (files s !! parent x);
  let '(pr, d) := fOpen (drv s) (v_drv v) (private fa) (name_str x) in
  let s := set_file (set_drv s d) f (set_private x pr) in
  if pr =? 0 then Ret (0, s) else Ret (f, s).

End Tree.
End TreeOps.
Import TreeOps.

(** ** The tree and the file system it stands for *)

Section Spec.
Context {H} `{KH : KernelHeap H} {D N} `{VD : VfsDriver D N}.
Notation st := (tree H D).

(** [g] gives the node of the file system behind each file of the tree. *)
Definition child_ok (m : gmap Z fss_file) (g : gmap Z N) (f vol c : Z) (e : list Z * N) : Prop :=
  exists x, m !! c = Some x /\ parent x = f /\ volumn x = vol /\ cstr (name_str x) e.1 /\ bytes e.1 /\ g !! c = Some e.2.

(** The children of a directory are its first entries, all of them when it is
    marked complete. *)
Definition dir_ok (m : gmap Z fss_file) (g : gmap Z N) (f : Z) (x : fss_file) (n : N) : Prop :=
  match content n with
  | None => type x = FSS_FILE_TYPE_NORMAL /\ t x = TFile
  | Some es => type x = FSS_FILE_TYPE_DIR /\ exists cs fl, t x = TDir cs fl /\ (length cs <= length es)%nat /\
      Forall2 (child_ok m g f (volumn x)) cs (take (length cs) es) /\ (cs <> [] -> private x <> 0) /\
      (Z.land fl FSS_FILE_TREE_COMPLETION <> 0 -> length cs = length es)
  end.

Definition opened_ok (s : st) (x : fss_file) (n : N) : Prop :=
  exists v, vols s !! volumn x = Some v /\ (private x <> 0 -> stands (drv s) (v_drv v) (private x) n).

(** A file that the driver has not opened can be opened in its parent. *)
Definition parent_ok (m : gmap Z fss_file) (g : gmap Z N) (x : fss_file) (n : N) : Prop :=
  private x = 0 -> exists fa k es nm, m !! parent x = Some fa /\ private fa <> 0 /\ volumn fa = volumn x /\
    g !! parent x = Some k /\ content k = Some es /\ (nm, n) ∈ es /\ cstr (name_str x) nm.

Definition volumn_ok (s : st) (v : Z) : Prop :=
  v <> 0 /\ exists x l, vols s !! v = Some x /\ cstr (volumn_id x) l /\ bytes l /\ (root_dir x <> 0 -> is_Some (files s !! root_dir x)).

Record tree_ok (s : st) (g : gmap Z N) : Prop := {
  tk_heap : kh_ok (heap s);
  tk_live : forall f x, files s !! f = Some x -> exists z, kh_live (heap s) f z;
  tk_dom : forall f n, g !! f = Some n -> is_Some (files s !! f);
  tk_node : forall f x, files s !! f = Some x -> exists n, g !! f = Some n /\
    dir_ok (files s) g f x n /\ opened_ok s x n /\ parent_ok (files s) g x n;
  tk_vlive : forall v x, vols s !! v = Some x -> exists z, kh_live (heap s) v z;
  tk_vols : Forall (volumn_ok s) (vol_list s)
}.

Lemma tk_null s g : tree_ok s g -> files s !! 0 = None.
Proof.
  intros Hk. destruct (files s !! 0) as [x|] eqn:E; [|done]. destruct (tk_live _ _ Hk _ _ E) as [z Hz].
  pose proof (kh_bounds _ _ _ (tk_heap _ _ Hk) Hz). lia.
Qed.

(** What an update of a file keeps. *)
Definition same (x x' : fss_file) : Prop :=
  parent x' = parent x /\ volumn x' = volumn x /\ name_str x' = name_str x /\ (private x <> 0 -> private x' <> 0).

Lemma child_ok_update m g f x x' e vol c d : m !! d = Some x -> same x x' -> child_ok m g f vol c e -> child_ok (<[d := x']> m) g f vol c e.
Proof.
  intros Hd (E1 & E2 & E3 & _) (y & Hy & H1 & H2 & H3 & H4 & H5). destruct (decide (c = d)) as [->|Hne].
  - exists x'. rewrite lookup_insert_eq. simplify_eq. split_and!; try done. by rewrite E3.
  - exists y. by rewrite lookup_insert_ne by done.
Qed.

Lemma dir_ok_children m m' g g' f x n :
  (forall vol c e, child_ok m g f vol c e -> child_ok m' g' f vol c e) -> dir_ok m g f x n -> dir_ok m' g' f x n.
Proof.
  unfold dir_ok. intros Hc. destruct (content n); [|done]. intros (Ht & cs & fl & E & Hl & Hcs & Hr). split; [done|].
  exists cs, fl. split_and!; try done; try apply Hr. eapply Forall2_impl; [exact Hcs|]. intros c e. apply Hc.
Qed.

Lemma parent_ok_update m g d x x' y n : m !! d = Some x -> same x x' -> parent_ok m g y n -> parent_ok (<[d := x']> m) g y n.
Proof.
  intros Hd (E1 & E2 & E3 & E4) Hp Hy. destruct (Hp Hy) as (fa & k & es & nm & H1 & H2 & H3 & Hr).
  destruct (decide (parent y = d)) as [<-|Hne].
  - exists x', k, es, nm. rewrite lookup_insert_eq. simplify_eq. split_and!; try apply Hr; [done|by apply E4|congruence].
  - exists fa, k, es, nm. rewrite lookup_insert_ne by done. done.
Qed.

Lemma volumn_ok_files s m v : (forall f, is_Some (files s !! f) -> is_Some (m !! f)) -> volumn_ok s v -> volumn_ok (set_files s m) v.
Proof. intros Hm (Hv & x & l & H1 & H2 & H3 & H4). split; [done|]. exists x, l. cbn. split_and!; try done. intros Hr. apply Hm, H4, Hr. Qed.

(** A file changes, and the state of the drivers keeps its descriptions. *)
Lemma tree_ok_update s g f x x' d n :
  tree_ok s g -> files s !! f = Some x -> g !! f = Some n -> same x x' ->
  (forall dr q k, stands (drv s) dr q k -> stands d dr q k) ->
  dir_ok (files s) g f x' n -> opened_ok (set_drv s d) x' n ->
  tree_ok (set_file (set_drv s d) f x') g.
Proof.
  intros Hk Hf Hg Hs Hd Hdir Ho. split; cbn.
  - apply (tk_heap _ _ Hk).
  - intros y z. rewrite lookup_insert_Some. intros [[<- _]|[_ Hy]]; [by eapply (tk_live _ _ Hk)|by eapply (tk_live _ _ Hk)].
  - intros y k Hy. rewrite lookup_insert_is_Some. destruct (decide (f = y)); [by left|right]. split; [done|by eapply (tk_dom _ _ Hk)].
  - intros y z Hy. apply lookup_insert_Some in Hy as [[<- <-]|[Hne Hy]].
    + exists n. split_and!; try done.
      * eapply dir_ok_children; [|exact Hdir]. intros vol c e. by eapply child_ok_update.
      * destruct (tk_node _ _ Hk _ _ Hf) as (n' & Hn' & _ & _ & Hp). simplify_eq.
        destruct Hs as (E1 & E2 & E3 & E4). intros H0.
        assert (Hx : private x = 0) by (destruct (decide (private x = 0)) as [|Hx]; [done|by apply E4 in Hx]).
        rewrite E1, E2, E3. eapply parent_ok_update; [exact Hf|done|exact Hp|exact Hx].
    + destruct (tk_node _ _ Hk _ _ Hy) as (k & Hgk & Hdk & (v & Hv & Hst) & Hpk). exists k. split_and!; [done| | |].
      * eapply dir_ok_children; [|exact Hdk]. intros vol c e. by eapply child_ok_update.
      * exists v. split; [done|]. intros Hp. by apply Hd, Hst.
      * by eapply parent_ok_update.
  - apply (tk_vlive _ _ Hk).
  - eapply Forall_impl; [apply (tk_vols _ _ Hk)|]. intros v Hv. apply volumn_ok_files.
    + intros y Hy. rewrite lookup_insert_is_Some. destruct (decide (f = y)); [by left|by right].
    + destruct Hv as (Hv0 & a & l & Hv). split; [done|]. by exists a, l.
Qed.

Lemma set_drv_same (s : st) : set_drv s (drv s) = s.
Proof. by destruct s. Qed.

(** The same without the driver. *)
Lemma tree_ok_file s g f x x' n :
  tree_ok s g -> files s !! f = Some x -> g !! f = Some n -> same x x' -> private x' = private x ->
  dir_ok (files s) g f x' n -> tree_ok (set_file s f x') g.
Proof.
  intros Hk Hf Hg Hs Hp Hd. rewrite <- (set_drv_same s). eapply tree_ok_update; try done.
  destruct (tk_node _ _ Hk _ _ Hf) as (n' & Hn' & _ & (v & Hv & Ho) & _). simplify_eq.
  destruct Hs as (_ & Ev & _). exists v. cbn. by rewrite Ev, Hp.
Qed.

Lemma tree_ok_drv s g d : tree_ok s g -> (forall dr q k, stands (drv s) dr q k -> stands d dr q k) -> tree_ok (set_drv s d) g.
Proof.
  intros Hk Hd. split; cbn; try apply Hk. intros f x Hf. destruct (tk_node _ _ Hk _ _ Hf) as (n & Hn & Hdir & (v & Hv & Ho) & Hp).
  exists n. split_and!; try done. exists v. split; [done|]. intros Hx. by apply Hd, Ho.
Qed.

Lemma tree_ok_heap s g h :
  tree_ok s g -> kh_ok h -> (forall f z, is_Some (files s !! f) \/ is_Some (vols s !! f) -> kh_live (heap s) f z -> kh_live h f z) -> tree_ok (set_heap s h) g.
Proof.
  intros Hk Hh Hl. split; cbn; try apply Hk; [done| |].
  - intros f x Hf. destruct (tk_live _ _ Hk _ _ Hf) as [z Hz]. exists z. apply Hl; [by left|done].
  - intros v x Hv. destruct (tk_vlive _ _ Hk _ _ Hv) as [z Hz]. exists z. apply Hl; [by right|done].
Qed.

Lemma inc_ref_spec s g f x : tree_ok s g -> files s !! f = Some x ->
  exists s', inc_ref s f = Some s' /\ tree_ok s' g /\ s' = set_file s f (set_ref x (to_int (ref x + 1))).
Proof.
  intros Hk Hf. unfold inc_ref. rewrite Hf. cbn [mbind option_bind]. eexists. split_and!; [done| |done].
  destruct (tk_node _ _ Hk _ _ Hf) as (n & Hn & Hd & _). eapply tree_ok_file; try done.
Qed.

(** A new file below a directory that has been opened. *)
Lemma tree_ok_fresh s g r x m :
  tree_ok s g -> files s !! r = None -> (exists z, kh_live (heap s) r z) ->
  parent_ok (files s) g x m -> opened_ok s x m ->
  match content m with Some _ => type x = FSS_FILE_TYPE_DIR /\ t x = TDir [] 0 | None => type x = FSS_FILE_TYPE_NORMAL /\ t x = TFile end ->
  tree_ok (set_file s r x) (<[r := m]> g).
Proof.
  intros Hk Hr Hl Hp Ho Ht.
  assert (Hg : g !! r = None). { destruct (g !! r) as [k|] eqn:E; [|done]. destruct (tk_dom _ _ Hk _ _ E). congruence. }
  assert (Hc : forall f vol c e, child_ok (files s) g f vol c e -> child_ok (<[r := x]> (files s)) (<[r := m]> g) f vol c e).
  { intros f vol c e (y & Hy & H1 & H2 & H3 & H4 & H5). exists y. rewrite !lookup_insert_ne by congruence. done. }
  assert (Hpp : forall y n, parent_ok (files s) g y n -> parent_ok (<[r := x]> (files s)) (<[r := m]> g) y n).
  { intros y n Hy H0. destruct (Hy H0) as (fa & k & es & nm & H1 & H2 & H3 & H4 & Hrest). exists fa, k, es, nm.
    rewrite !lookup_insert_ne by congruence. done. }
  split; cbn.
  - apply (tk_heap _ _ Hk).
  - intros y z. rewrite lookup_insert_Some. intros [[<- _]|[_ Hy]]; [done|by eapply (tk_live _ _ Hk)].
  - intros y k. rewrite lookup_insert_Some, lookup_insert_is_Some. intros [[<- _]|[Hne Hy]]; [by left|right]. split; [done|by eapply (tk_dom _ _ Hk)].
  - intros y z Hy. apply lookup_insert_Some in Hy as [[<- <-]|[Hne Hy]].
    + exists m. rewrite lookup_insert_eq. split_and!; [done| | |by apply Hpp].
      * unfold dir_ok. destruct (content m) as [es|]; [|done]. destruct Ht as [Ht Eu]. split; [done|]. exists [], 0. split_and!; try done. cbn. lia.
      * done.
    + destruct (tk_node _ _ Hk _ _ Hy) as (k & Hgk & Hdk & Ho' & Hpk). exists k. rewrite lookup_insert_ne by done.
      split_and!; [done| |done|by apply Hpp]. eapply dir_ok_children; [|exact Hdk]. intros vol c e. apply Hc.
  - apply (tk_vlive _ _ Hk).
  - eapply Forall_impl; [apply (tk_vols _ _ Hk)|]. intros w Hw. apply volumn_ok_files; [|done].
    intros y Hy. rewrite lookup_insert_is_Some. destruct (decide (r = y)); [by left|by right].
Qed.

(** Blocks in use stay in use. *)
Definition keeps_live (h h' : H) : Prop := forall q y, kh_live h q y -> kh_live h' q y.

(** No new file in a block that was in use. *)
Definition not_filed (s s' : st) : Prop := forall q y, kh_live (heap s) q y -> files s !! q = None -> files s' !! q = None.

(** [current_path] is the directory [n] with the children [cs]. *)
Definition is_dir (s : st) (g : gmap Z N) (f : Z) (n : N) (cs : list Z) (fl : Z) : Prop :=
  exists x, files s !! f = Some x /\ g !! f = Some n /\ t x = TDir cs fl /\ private x <> 0.

(** The heap has no block of [z] bytes; no block for a file or for its name. *)
Definition no_memory (h : H) (z : Z) : Prop := exists h', kh_alloc h z = Some (0, h').
Definition no_file_memory (h : H) (nm : list Z) : Prop :=
  no_memory h SIZEOF_FSS_FILE \/
  exists file h1, kh_alloc h SIZEOF_FSS_FILE = Some (file, h1) /\ no_memory h1 (Z.of_nat (length nm) + FSS_NAME_END_SIZE).

(** Two blocks, or none. *)
Lemma alloc_two h len :
  kh_ok h -> 0 <= len < 70000 -> exists file h1 file_name h2,
    kh_alloc h SIZEOF_FSS_FILE = Some (file, h1) /\ kh_alloc h1 (len + FSS_NAME_END_SIZE) = Some (file_name, h2) /\
    ((file <> 0 /\ file_name <> 0 /\ kh_ok h2 /\ keeps_live h h2 /\ ~ (exists y, kh_live h file y) /\ (exists y, kh_live h2 file y)) \/
     ((file = 0 \/ file_name = 0) /\ exists h3 h4, vfree h2 file = Some h3 /\ vfree h3 file_name = Some h4 /\ kh_ok h4 /\ keeps_live h h4)).
Proof.
  intros Hh Hl. destruct (kh_alloc_law h SIZEOF_FSS_FILE Hh) as (file & h1 & E1 & Hh1 & C1); [unfold SIZEOF_FSS_FILE; lia|].
  destruct (kh_alloc_law h1 (len + FSS_NAME_END_SIZE) Hh1) as (fn & h2 & E2 & Hh2 & C2); [unfold FSS_NAME_END_SIZE; lia|].
  exists file, h1, fn, h2. split; [done|]. split; [done|].
  destruct C1 as [[-> L1]|(Hf & F1 & L1)], C2 as [[-> L2]|(Hn & F2 & L2)].
  - right. split; [by left|]. exists h2, h2. split_and!; try done. intros q y Hq. apply L2, L1, Hq.
  - right. split; [by left|]. destruct (kh_free_law h2 fn (4 * ((len + FSS_NAME_END_SIZE + 3) / 4)) Hh2) as (h4 & E4 & Hh4 & L4);
      [apply L2; by left|unfold FSS_NAME_END_SIZE; zlia|].
    exists h2, h4. unfold vfree. cbn [Z.eqb]. rewrite (proj2 (Z.eqb_neq fn 0) Hn). split_and!; try done.
    intros q y Hq. apply L4. split; [|apply L2; right; by apply L1]. intros ->. apply F2. exists y. by apply L1.
  - right. split; [by right|]. destruct (kh_free_law h2 file (4 * ((SIZEOF_FSS_FILE + 3) / 4)) Hh2) as (h3 & E3 & Hh3 & L3);
      [apply L2, L1; by left|done|].
    exists h3, h3. unfold vfree. rewrite (proj2 (Z.eqb_neq file 0) Hf). split_and!; try done.
    intros q y Hq. apply L3. split; [|apply L2, L1; by right]. intros ->. apply F1. by exists y.
  - left. split_and!; try done.
    + intros q y Hq. apply L2. right. apply L1. by right.
    + eexists. apply L2. right. apply L1. by left.
Qed.

Lemma child_ok_fresh m (g : gmap Z N) f vol c e r x k :
  m !! r = None -> g !! r = None -> child_ok m g f vol c e -> child_ok (<[r := x]> m) (<[r := k]> g) f vol c e.
Proof. intros Hm Hg (y & Hy & Q1 & Q2 & Q3 & Q4 & Q5). exists y. rewrite !lookup_insert_ne by congruence. done. Qed.

(** The next entry of a directory becomes its next child. *)
Lemma file_new_spec s g f n es cs fl nm m str ty :
  tree_ok s g -> is_dir s g f n cs fl -> content n = Some es -> es !! length cs = Some (nm, m) ->
  Z.land fl FSS_FILE_TREE_COMPLETION = 0 -> cstr str nm -> bytes nm -> Z.of_nat (length nm) < 70000 ->
  (ty = FSS_FILE_TYPE_DIR <-> is_Some (content m)) ->
  exists r s', fss_file_new s f 0 str ty = Some (r, s') /\ drv s' = drv s /\ vols s' = vols s /\ vol_list s' = vol_list s /\ keeps_live (heap s) (heap s') /\
    not_filed s s' /\
    ((r = 0 /\ tree_ok s' g /\ files s' = files s /\ no_file_memory (heap s) nm) \/
     (r <> 0 /\ g !! r = None /\ tree_ok s' (<[r := m]> g) /\ is_dir s' (<[r := m]> g) f n (cs ++ [r]) fl)).
Proof.
  intros Hk (x & Hx & Hg & Et & Hp) Ec Ee Hfl Hs Hb Hlen Hty. pose proof (tk_null _ _ Hk) as Hnull.
  destruct (alloc_two (heap s) (Z.of_nat (length nm)) (tk_heap _ _ Hk)) as (file & h1 & fn & h2 & E1 & E2 & C); [lia|].
  unfold fss_file_new. rewrite E1. cbn [mbind option_bind]. rewrite (strlen_spec _ _ Hs). cbn [mbind option_bind]. rewrite E2. cbn [mbind option_bind].
  destruct C as [(Hf & Hn & Hh2 & Hl & Hfresh & Hlive)|(Hz & h3 & h4 & E3 & E4 & Hh4 & Hl)].
  2: { rewrite (proj2 (orb_true_iff _ _)) by (rewrite !Z.eqb_eq; tauto). rewrite E3. cbn [mbind option_bind]. rewrite E4. cbn [mbind option_bind].
       eexists 0, _. split_and!; [done|done|done|done|exact Hl|by intros q y _|]. left. split_and!; [done| |done|].
       - apply tree_ok_heap; [done|done|]. intros q z _. apply Hl.
       - destruct Hz as [-> | ->]; [left; by exists h1|right]. exists file, h1. split; [done|by exists h2]. }
  rewrite (proj2 (Z.eqb_neq file 0) Hf), (proj2 (Z.eqb_neq fn 0) Hn). cbn [orb].
  rewrite (strcpy_spec _ _ _ Hs) by (rewrite length_replicate; unfold FSS_NAME_END_SIZE; lia). cbn [mbind option_bind].
  assert (Hf0 : f <> 0) by congruence. rewrite (proj2 (Z.eqb_neq f 0) Hf0). cbn [files set_heap]. rewrite Hx. cbn [mbind option_bind]. rewrite Et.
  assert (Hff : files s !! file = None). { destruct (files s !! file) as [y|] eqn:E; [|done]. destruct Hfresh. by eapply (tk_live _ _ Hk). }
  assert (Hgf : g !! file = None). { destruct (g !! file) as [k|] eqn:E; [|done]. destruct (tk_dom _ _ Hk _ _ E). congruence. }
  assert (Hne : file <> f) by congruence.
  destruct (tk_node _ _ Hk _ _ Hx) as (n' & Hn' & Hd & (v & Hv & _) & _). simplify_eq.
  set (u := match ty with FSS_FILE_TYPE_NORMAL => _ | _ => _ end).
  set (y := File f 0 (volumn x) 0 fn _ ty u).
  assert (Hk1 : tree_ok (set_file (set_heap s h2) file y) (<[file := m]> g)).
  { apply tree_ok_fresh; cbn; try done; [apply tree_ok_heap; try done; intros q z _; apply Hl| | |].
    - intros _. exists x, n, es, nm. cbn. split_and!; try done; [by eapply list_elem_of_lookup_2|]. split; [apply Hs|by eexists].
    - by exists v.
    - unfold u. destruct ty; [|destruct (content m); [done|by destruct Hty as [Hty _]; destruct (Hty eq_refl)]].
      destruct (content m); [|done]. destruct Hty as [_ Hty]. discriminate Hty. done. }
  eexists file, _. split_and!; [done|done|done|done|exact Hl| |].
  { intros q z Hq Hnf. cbn. rewrite !lookup_insert_ne; [done| |]; [congruence|]. intros ->. apply Hfresh. by exists z. }
  right. split; [done|]. split; [done|].
  unfold set_file at 1 3, set_files. cbn [files vols vol_list drv_list heap drv set_file set_files set_heap].
  rewrite insert_insert_ne by done. split.
  - change (tree_ok (set_file (set_file (set_heap s h2) file y) f (set_t x (TDir (cs ++ [file]) fl))) (<[file := m]> g)).
    eapply tree_ok_file; [exact Hk1| | | | |]; cbn; try by rewrite lookup_insert_ne. 1,2: done.
    unfold dir_ok in *. rewrite Ec in *. destruct Hd as (Htx & cs' & fl' & E & Hle & Hcs & Hpr & Hcm). rewrite Et in E. injection E as <- <-.
    split; [done|]. exists (cs ++ [file]), fl. rewrite length_app. cbn [length]. apply lookup_lt_Some in Ee as Hlt. split_and!; try done; [lia|].
    rewrite Nat.add_1_r, (take_S_r _ _ (nm, m)) by done. apply Forall2_app.
    + eapply Forall2_impl; [exact Hcs|]. intros c e. by apply child_ok_fresh.
    + constructor; [|constructor]. exists y. rewrite !lookup_insert_eq. cbn. split_and!; try done. split; [apply Hs|by eexists].
  - exists (set_t x (TDir (cs ++ [file]) fl)). cbn. rewrite lookup_insert_eq, lookup_insert_ne by done. done.
Qed.

(** What the operations that fill the tree do to the rest of it. *)
Record grows (s s' : st) (g g' : gmap Z N) : Prop := {
  gr_ok : tree_ok s' g';
  gr_nodes : g ⊆ g';
  gr_vols : vols s' = vols s;
  gr_list : vol_list s' = vol_list s;
  gr_live : keeps_live (heap s) (heap s');
  gr_new : not_filed s s'
}.

Lemma grows_refl s g : tree_ok s g -> grows s s g g.
Proof. intros Hk. split; try done; intros q y; done. Qed.

Lemma grows_trans s s1 s2 g g1 g2 : grows s s1 g g1 -> grows s1 s2 g1 g2 -> grows s s2 g g2.
Proof.
  intros G1 G2. split; [apply G2| | | | |].
  - transitivity g1; [apply G1|apply G2].
  - rewrite (gr_vols _ _ _ _ G2). apply G1.
  - rewrite (gr_list _ _ _ _ G2). apply G1.
  - intros q y Hq. apply (gr_live _ _ _ _ G2), (gr_live _ _ _ _ G1), Hq.
  - intros q y Hq Hn. eapply (gr_new _ _ _ _ G2); [by apply (gr_live _ _ _ _ G1)|by eapply (gr_new _ _ _ _ G1)].
Qed.

Lemma grows_drv s g d : tree_ok s g -> (forall dr q k, stands (drv s) dr q k -> stands d dr q k) -> grows s (set_drv s d) g g.
Proof. intros Hk Hd. split; try done; [by apply tree_ok_drv|intros q y; done|intros q y; done]. Qed.

Lemma image_head head lo hi ty nm (rest : list Z) :
  length head = 16%nat -> let p := head ++ lo :: hi :: ty :: nm ++ 0 :: rest in
  p !! 16%nat = Some lo /\ p !! 17%nat = Some hi /\ p !! 18%nat = Some ty /\ drop 19 p = nm ++ 0 :: rest.
Proof.
  intros Hl p. unfold p. rewrite !lookup_app_r, Hl by lia. split_and!; try done.
  replace 19%nat with (length head + 3)%nat by lia. by rewrite drop_app_add.
Qed.

Lemma image_next head lo hi ty nm pad (rest : list Z) :
  length head = 16%nat -> lo + 256 * hi = Z.of_nat (20 + length nm + length pad) ->
  drop (Z.to_nat (lo + 256 * hi)) (head ++ lo :: hi :: ty :: nm ++ 0 :: pad ++ rest) = rest.
Proof.
  intros Hl E. rewrite E, Nat2Z.id. replace (head ++ lo :: hi :: ty :: nm ++ 0 :: pad ++ rest)
    with ((head ++ lo :: hi :: ty :: nm ++ 0 :: pad) ++ rest) by (rewrite <- app_assoc; cbn; by rewrite <- app_assoc).
  apply drop_app_length'. rewrite length_app, Hl. cbn. rewrite length_app. cbn. lia.
Qed.

Lemma import_loop_spec fuel s g f n es cs fl img pad :
  tree_ok s g -> is_dir s g f n cs fl -> content n = Some es -> Z.land fl FSS_FILE_TREE_COMPLETION = 0 ->
  (length cs <= length es)%nat -> dir_image content (drop (length cs) es) img -> (length es - length cs < fuel)%nat ->
  Z.of_nat (length img) < 2147483648 ->
  exists b s' g' cs', import_loop fuel s f (img ++ pad) (Z.of_nat (length img)) = Ret (b, s') /\ grows s s' g g' /\
    is_dir s' g' f n cs' fl /\ (b = true -> length cs' = length es) /\
    (b = false -> exists s1 g1 nm m, grows s s1 g g1 /\ (nm, m) ∈ es /\ no_file_memory (heap s1) nm).
Proof.
  revert s g cs img. induction fuel as [|fuel IH]; intros s g cs img Hk Hdir Ec Hfl Hle Himg Hfuel Hsize; [lia|].
  cbn [import_loop]. destruct (drop (length cs) es) as [|[nm m] rest] eqn:Ed; cbn [dir_image] in Himg.
  { subst img. exists true, s, g, cs. split_and!; try done; [by apply grows_refl|]. intros _.
    apply (f_equal length) in Ed. rewrite length_drop in Ed. cbn in Ed. lia. }
  assert (Hin : (nm, m) ∈ es) by (rewrite <- (take_drop (length cs) es), Ed; apply elem_of_app; right; apply list_elem_of_here).
  destruct Himg as (head & lo & hi & ty & pad' & img' & -> & Hhead & Hlo & Hhi & Elen & Hty & Hnz & Hb & Himg).
  assert (Ee : es !! length cs = Some (nm, m)) by (rewrite <- (Nat.add_0_r (length cs)), <- lookup_drop, Ed; done).
  rewrite length_app in Hsize |- *. cbn [length] in Hsize |- *. rewrite !length_app in Hsize |- *. cbn [length] in Hsize |- *. rewrite length_app in Hsize |- *.
  rewrite (proj2 (Z.eqb_neq _ 0)) by lia. rewrite <- app_assoc. cbn [app]. rewrite <- app_assoc. cbn [app]. rewrite <- app_assoc.
  destruct (image_head head lo hi ty nm (pad' ++ img' ++ pad) Hhead) as (E16 & E17 & E18 & E19). cbv zeta in *.
  rewrite E18. cbn [lift mbind run_bind]. rewrite E19.
  destruct (file_new_spec s g f n es cs fl nm m (nm ++ 0 :: pad' ++ img' ++ pad) (if ty =? 4 then FSS_FILE_TYPE_DIR else FSS_FILE_TYPE_NORMAL))
    as (r & s1 & Er & Hdrv & Hvols & Hvl & Hlive & Hnf & C); try done; [by split; [|eexists]|lia| |].
  { rewrite <- Hty. destruct (Z.eqb_spec ty 4); [done|]. split; [done|]. intros ->. done. }
  rewrite Er. cbn [lift mbind run_bind].
  destruct C as [(-> & Hk1 & Ef & Hno)|(Hr & Hgr & Hk1 & Hd1)].
  { exists false, s1, g, cs. cbn [Z.eqb]. split_and!; try done; [destruct Hdir as (x & Hx & Hrest); exists x; by rewrite Ef|].
    intros _. exists s, g, nm, m. split_and!; try done. by apply grows_refl. }
  rewrite (proj2 (Z.eqb_neq r 0) Hr), E16. cbn [lift mbind run_bind]. rewrite E17. cbn [lift mbind run_bind].
  rewrite image_next by done. apply lookup_lt_Some in Ee as Hlt.
  assert (G1 : grows s s1 g (<[r := m]> g)) by (split; try done; by apply insert_subseteq).
  destruct (IH s1 (<[r := m]> g) (cs ++ [r]) img' Hk1 Hd1 Ec Hfl) as (b & s2 & g2 & cs2 & E2 & G2 & Hd2 & Hb2 & Hf2).
  - rewrite length_app. cbn. lia.
  - rewrite length_app, <- drop_drop, Ed. done.
  - rewrite length_app. cbn. lia.
  - lia.
  - exists b, s2, g2, cs2. split_and!; try done.
    + rewrite <- E2. f_equal. rewrite wrap_small; unfold is_word; lia.
    + by eapply grows_trans.
    + intros Hb'. destruct (Hf2 Hb') as (s3 & g3 & nm3 & m3 & G3 & Hrest). exists s3, g3, nm3, m3. split; [by eapply grows_trans|done].
Qed.

Definition complete (s : st) (f : Z) : Prop :=
  exists x cs fl, files s !! f = Some x /\ t x = TDir cs fl /\ Z.land fl FSS_FILE_TREE_COMPLETION <> 0.

Lemma complete_lor fl : Z.land (Z.lor fl FSS_FILE_TREE_COMPLETION) FSS_FILE_TREE_COMPLETION <> 0.
Proof.
  intros E. apply (f_equal (fun z => Z.testbit z 0)) in E. rewrite Z.land_spec, Z.lor_spec in E.
  unfold FSS_FILE_TREE_COMPLETION in E. rewrite Z.bits_0 in E. cbn in E. by rewrite orb_true_r in E.
Qed.

Lemma mark_complete_spec s g f n es cs fl :
  tree_ok s g -> is_dir s g f n cs fl -> content n = Some es -> length cs = length es ->
  exists x, files s !! f = Some x /\ t x = TDir cs fl /\
    let s' := set_file s f (set_t x (TDir cs (Z.lor fl FSS_FILE_TREE_COMPLETION))) in grows s s' g g /\ complete s' f.
Proof.
  intros Hk (x & Hx & Hg & Et & Hp) Ec El. exists x. split; [done|]. split; [done|]. intros s'. split.
  - split; try done.
    + destruct (tk_node _ _ Hk _ _ Hx) as (n' & Hn' & Hd & _). simplify_eq. eapply tree_ok_file; try done.
      unfold dir_ok in *. rewrite Ec in *. destruct Hd as (Ht & cs' & fl' & E & Hr). rewrite Et in E. injection E as <- <-.
      split; [done|]. eexists cs, _. split; [done|]. naive_solver.
    + intros q y. done.
    + intros q y _ Hn. cbn. by rewrite lookup_insert_ne by congruence.
  - eexists _, _, _. cbn. rewrite lookup_insert_eq. split_and!; [done|done|apply complete_lor].
Qed.

(** A state in which the block [p] of [s] is given back. *)
Lemma free_block s s1 g p z h1 :
  tree_ok s g -> ~ (exists y, kh_live (heap s) p y) -> (forall q y, kh_live h1 q y <-> (q = p /\ y = z) \/ kh_live (heap s) q y) -> 0 < z ->
  forall g1, grows (set_heap s h1) s1 g g1 ->
  exists h, kh_free (heap s1) p = Some h /\ grows s (set_heap s1 h) g g1.
Proof.
  intros Hk Hfresh Hl Hz g1 G. assert (Hp : kh_live (heap s1) p z) by (apply (gr_live _ _ _ _ G), Hl; by left).
  destruct (kh_free_law (heap s1) p z (tk_heap _ _ (gr_ok _ _ _ _ G)) Hp Hz) as (h & E & Hh & Hl').
  assert (Hpf : files s !! p = None). { destruct (files s !! p) as [x|] eqn:Ex; [|done]. destruct Hfresh. by eapply (tk_live _ _ Hk). }
  assert (Hpf1 : files s1 !! p = None) by (eapply (gr_new _ _ _ _ G); [apply Hl; by left|done]).
  exists h. split; [done|]. split; try apply G.
  - apply tree_ok_heap; [apply G|done|]. intros q y Hq Hy. apply Hl'. split; [|done].
    intros ->. destruct Hq as [[x Hq]|[x Hq]]; [congruence|]. rewrite (gr_vols _ _ _ _ G) in Hq. destruct Hfresh. by eapply (tk_vlive _ _ Hk).
  - intros q y Hq. apply Hl'. split; [intros ->; apply Hfresh; by exists y|]. apply (gr_live _ _ _ _ G), Hl. by right.
  - intros q y Hq Hn. eapply (gr_new _ _ _ _ G); [apply Hl; by right|done].
Qed.

(** ** Why a directory cannot be loaded *)

(** The driver is asked for the file [x] in its parent and gives nothing. *)
Definition refused (s : st) (x : fss_file) (d : D) : Prop :=
  private x = 0 /\ exists fa v, files s !! parent x = Some fa /\ vols s !! volumn x = Some v /\
    fOpen (drv s) (v_drv v) (private fa) (name_str x) = (0, d).

(** The directory [f] is open and has the entries [es]: the driver does not
    tell its size, there is no memory for the buffer, the driver does not read
    it, or there is no memory for one of its entries. *)
Definition load_fails (s : st) (g : gmap Z N) (f : Z) (es : list (list Z * N)) : Prop :=
  exists x v r z d, files s !! f = Some x /\ vols s !! volumn x = Some v /\ private x <> 0 /\
    fStat (drv s) (v_drv v) (private x) = (r, z, d) /\
    (r <> 0 \/ no_memory (heap s) z \/
     (exists e buf d', fReadDir d (v_drv v) (private x) z = (e, buf, d') /\ e < 0) \/
     (exists s1 g1 nm m, grows s s1 g g1 /\ (nm, m) ∈ es /\ no_file_memory (heap s1) nm)).

(** The directory [f], which stands for [n], cannot be loaded from the state
    [s]: the driver refuses to open it, loading fails, or it was cut off before
    and has some children, but not all. *)
Definition unreadable (s : st) (g : gmap Z N) (f : Z) (n : N) : Prop :=
  exists x es, files s !! f = Some x /\ content n = Some es /\
    ((exists d, refused s x d) \/
     (exists s1 g1, grows s s1 g g1 /\ load_fails s1 g1 f es) \/
     (exists c cs fl, t x = TDir (c :: cs) fl /\ Z.land fl FSS_FILE_TREE_COMPLETION = 0)).

(** ** Filling a directory *)

Lemma not_complete s f x cs fl r :
  files s !! f = Some x -> t x = TDir cs fl -> Z.land fl FSS_FILE_TREE_COMPLETION = 0 -> r < 0 -> 0 <= r <-> complete s f.
Proof.
  intros Hx Et Hfl Hr. split; [lia|]. intros (y & cs' & fl' & Hy & Ety & Hc). rewrite Hx in Hy. injection Hy as <-.
  rewrite Et in Ety. by injection Ety as <- <-.
Qed.

Lemma import_entries_spec fuel s g f n es fl x v size :
  tree_ok s g -> is_dir s g f n [] fl -> content n = Some es -> Z.land fl FSS_FILE_TREE_COMPLETION = 0 ->
  files s !! f = Some x -> vols s !! volumn x = Some v -> (length es < fuel)%nat -> 0 < size < 2147483644 ->
  exists r s' g', import_entries fuel s f (v_drv v) size = Ret (r, s') /\ grows s s' g g' /\ (0 <= r <-> complete s' f) /\
    (r < 0 -> no_memory (heap s) size \/
       (exists e buf d', fReadDir (drv s) (v_drv v) (private x) size = (e, buf, d') /\ e < 0) \/
       (exists s1 g1 nm m, grows s s1 g g1 /\ (nm, m) ∈ es /\ no_file_memory (heap s1) nm)).
Proof.
  intros Hk Hdir Ec Hfl Hx Hv Hfuel Hsize. unfold import_entries.
  destruct Hdir as (x' & Hx' & Hg & Et & Hpr). rewrite Hx in Hx'. injection Hx' as <-.
  destruct (kh_alloc_law (heap s) size (tk_heap _ _ Hk) Hsize) as (p & h1 & E1 & Hh1 & C). rewrite E1. cbn [lift mbind run_bind].
  destruct C as [[-> Hl]|(Hp & Hfresh & Hl)].
  { cbn [Z.eqb]. eexists _, _, g. split; [done|].
    split; [|split; [eapply not_complete; unfold ENOMEM, EIO; done || lia|intros _; left; by exists h1]].
    split; cbn; try done; [|intros q y Hq; by apply Hl|intros q y; done].
    apply tree_ok_heap; [done|done|]. intros q z _ Hq. by apply Hl. }
  rewrite (proj2 (Z.eqb_neq p 0) Hp). cbn [files set_heap]. rewrite Hx. cbn [lift mbind run_bind].
  rewrite (to_int_small size) by lia. cbn [drv set_heap].
  destruct (fReadDir (drv s) (v_drv v) (private x) size) as [[ret buf] d] eqn:Er.
  destruct (tk_node _ _ Hk _ _ Hx) as (n' & Hn' & _ & (v' & Hv' & Ho) & _). rewrite Hg in Hn'. rewrite Hv in Hv'. injection Hn' as <-. injection Hv' as <-.
  destruct (fReadDir_law _ _ _ _ _ _ _ _ _ (Ho Hpr) Ec Er) as (Hd & Hbuf).
  assert (Hk1 : tree_ok (set_heap s h1) g) by (apply tree_ok_heap; [done|done|intros q z _ Hq; apply Hl; by right]).
  pose proof (grows_drv (set_heap s h1) g d Hk1 Hd) as G1.
  assert (Hz : 0 < 4 * ((size + 3) / 4)) by zlia.
  destruct (Z.ltb_spec ret 0) as [Hneg|Hpos].
  { cbn [mbind run_bind]. destruct (free_block _ _ _ _ _ _ Hk Hfresh Hl Hz _ G1) as (h & Eh & G). rewrite Eh. cbn [lift mbind run_bind].
    eexists _, _, g. split; [done|]. split; [done|]. split; [eapply not_complete; unfold ENOMEM, EIO; done || lia|].
    intros _. right. left. by exists ret, buf, d. }
  destruct (Hbuf Hpos) as (Hret & img & pad & -> & -> & Himg).
  rewrite wrap_small by (unfold is_word; lia).
  destruct (import_loop_spec fuel (set_drv (set_heap s h1) d) g f n es [] fl img pad) as (b & s2 & g2 & cs2 & E2 & G2 & Hd2 & Hb2 & Hf2);
    try done; [apply G1|by exists x|cbn; lia|cbn; lia|lia|].
  rewrite E2. cbn [mbind run_bind]. pose proof (grows_trans _ _ _ _ _ _ G1 G2) as G.
  destruct b; cbn [negb mbind run_bind].
  - destruct (mark_complete_spec s2 g2 f n es cs2 fl (gr_ok _ _ _ _ G2) Hd2 Ec (Hb2 eq_refl)) as (y & Hy & Ety & G3 & Hc).
    rewrite Hy. cbn [lift mbind run_bind]. rewrite Ety. cbn [mbind run_bind].
    destruct (free_block _ _ _ _ _ _ Hk Hfresh Hl Hz _ (grows_trans _ _ _ _ _ _ G G3)) as (h & Eh & G4). rewrite Eh. cbn [lift mbind run_bind].
    eexists _, _, g2. split; [done|]. split; [done|]. split; [split; [by intros _|lia]|lia].
  - destruct (free_block _ _ _ _ _ _ Hk Hfresh Hl Hz _ G) as (h & Eh & G4). rewrite Eh. cbn [lift mbind run_bind].
    destruct Hd2 as (y & Hy & _ & Ety & _). eexists _, _, g2. split; [done|]. split; [done|].
    split; [eapply not_complete; unfold ENOMEM, EIO; done || lia|]. intros _. right. right.
    destruct (Hf2 eq_refl) as (s3 & g3 & nm & m & G3 & Hrest). exists s3, g3, nm, m. split; [|done].
    apply (grows_trans _ (set_heap s h1) _ _ g); [|exact (grows_trans _ _ _ _ _ _ G1 G3)].
    split; cbn; try done; intros q y0; [intros Hq; apply Hl; by right|done].
Qed.

(** The driver opens a file that is in the tree. *)
Lemma open_in_parent s g f x n v :
  tree_ok s g -> files s !! f = Some x -> g !! f = Some n -> private x = 0 -> vols s !! volumn x = Some v ->
  exists fa, files s !! parent x = Some fa /\ forall pr d, fOpen (drv s) (v_drv v) (private fa) (name_str x) = (pr, d) ->
    grows s (set_file (set_drv s d) f (set_private x pr)) g g /\ (pr <> 0 -> stands d (v_drv v) pr n).
Proof.
  intros Hk Hx Hg Hp Hv. destruct (tk_node _ _ Hk _ _ Hx) as (n' & Hn' & Hd & Ho & Hpa). rewrite Hg in Hn'. injection Hn' as <-.
  destruct (Hpa Hp) as (fa & k & es & nm & Hfa & Hpf & Evol & Hgk & Ec & Hin & Hs). exists fa. split; [done|]. intros pr d E.
  destruct (tk_node _ _ Hk _ _ Hfa) as (k' & Hk' & _ & (w & Hw & Hst) & _). rewrite Hgk in Hk'. injection Hk' as <-.
  rewrite Evol, Hv in Hw. injection Hw as <-. destruct (fOpen_law _ _ _ _ _ _ _ _ _ _ (Hst Hpf) Ec Hin Hs E) as [Hkeep Hpr].
  assert (Hst' : pr <> 0 -> stands d (v_drv v) pr n) by (intros Hn; by destruct Hpr).
  split; [|done]. split; try done; [|intros q y; done|].
  - eapply tree_ok_update; try done.
    + unfold dir_ok in *. destruct (content n); [|done]. destruct Hd as (Ht & cs & fl & Et & Hle & Hcs & Hne & Hfl). split; [done|].
      exists cs, fl. split_and!; try done. intros Hcs0. by destruct (Hne Hcs0).
    + by exists v.
  - intros q y _ Hn. cbn. by rewrite lookup_insert_ne by congruence.
Qed.

Lemma import_opened_spec fuel s g f n es y fl v :
  tree_ok s g -> g !! f = Some n -> content n = Some es -> (length es < fuel)%nat -> Z.land fl FSS_FILE_TREE_COMPLETION = 0 ->
  files s !! f = Some y -> t y = TDir [] fl -> vols s !! volumn y = Some v ->
  exists r s' g', import_opened fuel s f (v_drv v) (private y) = Ret (r, s') /\ grows s s' g g' /\ (0 <= r <-> complete s' f) /\
    (r < 0 -> private y = 0 \/ load_fails s g f es).
Proof.
  intros Hk Hg Ec Hfuel Hfl Hy Et Hv. unfold import_opened.
  destruct (Z.eqb_spec (private y) 0) as [|Hpr]; [eexists _, _, g; split; [done|split; [by apply grows_refl|split; [eapply not_complete; unfold ENOMEM, EIO; done || lia|by left]]]|].
  destruct (fStat (drv s) (v_drv v) (private y)) as [[r size] d] eqn:Es.
  destruct (tk_node _ _ Hk _ _ Hy) as (n' & Hn' & _ & (v' & Hv' & Ho) & _). rewrite Hg in Hn'. injection Hn' as <-.
  rewrite Hv in Hv'. injection Hv' as <-. destruct (fStat_law _ _ _ _ _ _ _ _ (Ho Hpr) Ec Es) as [Hkeep Hsize].
  pose proof (grows_drv s g d Hk Hkeep) as G.
  destruct (Z.eqb_spec r 0) as [Hr|Hr]; cbn [negb]; [|eexists _, _, g; split; [done|split; [done|split; [eapply not_complete; unfold ENOMEM, EIO; done || lia|]]];
    intros _; right; exists y, v, r, size, d; split_and!; try done; by left].
  rewrite wrap_small by (unfold is_word; lia).
  destruct (import_entries_spec fuel (set_drv s d) g f n es fl y v size) as (r' & s2 & g2 & E2 & G2 & Hc & Hwhy); try done.
  - apply G.
  - by exists y.
  - by apply Hsize.
  - exists r', s2, g2. split; [done|]. split; [by eapply grows_trans|]. split; [done|]. intros Hneg. right.
    exists y, v, r, size, d. split_and!; try done. right. destruct (Hwhy Hneg) as [?|[?|(s3 & g3 & nm & m & G3 & Hrest)]]; [by left|by right; left|].
    right. right. exists s3, g3, nm, m. split; [by eapply grows_trans|done].
Qed.

Lemma import_file_spec fuel s g f x n es fl :
  tree_ok s g -> files s !! f = Some x -> g !! f = Some n -> content n = Some es -> t x = TDir [] fl -> (length es < fuel)%nat ->
  exists r s' g', import_file fuel s f = Ret (r, s') /\ grows s s' g g' /\ (0 <= r <-> complete s' f) /\
    (r < 0 -> unreadable s g f n).
Proof.
  intros Hk Hx Hg Ec Et Hfuel. destruct (tk_node _ _ Hk _ _ Hx) as (n' & Hn' & Hd & (v & Hv & Ho) & _). rewrite Hg in Hn'. injection Hn' as <-.
  unfold dir_ok in Hd. rewrite Ec in Hd. destruct Hd as (Hty & _). unfold import_file. rewrite Hx. cbn [lift mbind run_bind].
  rewrite bool_decide_false by (rewrite Hty; intros E; by destruct E). rewrite Et.
  destruct (Z.eqb_spec (Z.land fl FSS_FILE_TREE_COMPLETION) 0) as [Hfl|Hfl]; cbn [negb].
  2: { exists 0, s, g. split; [done|]. split; [by apply grows_refl|]. split; [split; [intros _; by exists x, [], fl|lia]|lia]. }
  rewrite Hv. cbn [lift mbind run_bind].
  destruct (Z.eqb_spec (private x) 0) as [Hp|Hp]; cbn [mbind run_bind].
  2: { destruct (import_opened_spec fuel s g f n es x fl v) as (r & s' & g' & E & G & Hc & Hwhy); try done. exists r, s', g'.
       split_and!; try done. intros Hneg. exists x, es. split_and!; try done. right. left. exists s, g.
       split; [by apply grows_refl|]. by destruct (Hwhy Hneg). }
  destruct (open_in_parent s g f x n v Hk Hx Hg Hp Hv) as (fa & Hfa & Hopen). rewrite Hfa. cbn [lift mbind run_bind].
  destruct (fOpen (drv s) (v_drv v) (private fa) (name_str x)) as [pr d] eqn:Eop. destruct (Hopen _ _ eq_refl) as [G _]. cbn [mbind run_bind].
  destruct (import_opened_spec fuel (set_file (set_drv s d) f (set_private x pr)) g f n es (set_private x pr) fl v) as (r & s' & g' & E & G' & Hc & Hwhy);
    try done; [apply G|cbn; by rewrite lookup_insert_eq|].
  exists r, s', g'. split; [done|]. split; [by eapply grows_trans|]. split; [done|]. intros Hneg. exists x, es. split_and!; try done.
  destruct (Hwhy Hneg) as [E0|Hl]; [left|right; left; by eexists _, g].
  cbn in E0. subst pr. exists d. split; [done|]. by exists fa, v.
Qed.

(** ** Looking a name up *)

Fixpoint entry_of {A} (w : list Z) (es : list (list Z * A)) : option A :=
  match es with
  | [] => None
  | (nm, m) :: es => if bool_decide (nm = w) then Some m else entry_of w es
  end.

Lemma entry_of_take {A} w k (es : list (list Z * A)) m : entry_of w (take k es) = Some m -> entry_of w es = Some m.
Proof. revert k. induction es as [|[nm n] es IH]; intros [|k]; cbn; try done. case_bool_decide; [done|apply IH]. Qed.

(** The name [w] is at the front of what follows in the path. *)
Definition at_name (key w : list Z) : Prop :=
  exists l, cstr key l /\ bytes l /\ take (length w) l = w /\ l <> [46] /\ l <> [46; 46].

Lemma find_child_spec m (g : gmap Z N) f vol cs es key w :
  Forall2 (child_ok m g f vol) cs es -> at_name key w ->
  exists r, find_child m cs key (Z.of_nat (length w)) = Some r /\
    match entry_of w es with Some k => g !! r = Some k /\ is_Some (m !! r) | None => r = 0 end.
Proof.
  intros Hcs (l & Hl & Hb & Hw & _). induction Hcs as [|c [nm k] cs es (x & Hx & _ & _ & Hn & Hbn & Hg) _ (r & IH & Hr)]; [by exists 0|].
  cbn [find_child entry_of]. rewrite Hx. cbn [mbind option_bind fst snd] in *.
  rewrite (strncmp_order _ _ nm l) by (done || lia). cbn [mbind option_bind]. rewrite Nat2Z.id, Hw.
  destruct (Z.eqb_spec (order (take (length w) nm) w) 0) as [E%order_eq|E].
  - rewrite (strlen_spec _ _ Hn). cbn [mbind option_bind]. destruct (Z.eqb_spec (Z.of_nat (length nm)) (Z.of_nat (length w))) as [El|El].
    + rewrite take_ge in E by lia. rewrite bool_decide_true by done. exists c. split; [done|]. split; [done|by exists x].
    + rewrite bool_decide_false by congruence. by exists r.
  - rewrite bool_decide_false; [by exists r|]. intros ->. apply E, order_eq. by rewrite firstn_all.
Qed.

Lemma dots_differ key w : at_name key w ->
  (exists r, strcmp key dot = Some r /\ r <> 0) /\ (exists r, strcmp key dotdot = Some r /\ r <> 0).
Proof.
  intros (l & Hl & Hb & _ & H1 & H2).
  assert (Hd : cstr dot [46]) by (split; [apply not_elem_of_cons; split; [done|apply not_elem_of_nil]|by exists []]).
  assert (Hdd : cstr dotdot [46; 46]) by (split; [rewrite !not_elem_of_cons; split_and!; try done; apply not_elem_of_nil|by exists []]).
  split; eexists; (split; [apply strcmp_order; try done; repeat constructor; lia|]); rewrite order_eq; done.
Qed.

(** One file got one more reference, or nothing happened. *)
Lemma get_file_spec s g f x n es cs fl path i w :
  tree_ok s g -> files s !! f = Some x -> g !! f = Some n -> content n = Some es -> t x = TDir cs fl -> at_name (drop i path) w ->
  exists r s', get_file_by_name s f path i (i + length w) = Some (r, s') /\ grows s s' g g /\
    match entry_of w (take (length cs) es) with Some k => r <> 0 /\ g !! r = Some k | None => r = 0 /\ s' = s end.
Proof.
  intros Hk Hx Hg Ec Et Hw. destruct (tk_node _ _ Hk _ _ Hx) as (n' & Hn' & Hd & _). rewrite Hg in Hn'. injection Hn' as <-.
  unfold dir_ok in Hd. rewrite Ec in Hd. destruct Hd as (_ & cs' & fl' & Et' & Hle & Hcs & _). rewrite Et in Et'. injection Et' as <- <-.
  destruct (dots_differ _ _ Hw) as [(r1 & E1 & N1) (r2 & E2 & N2)]. unfold get_file_by_name. rewrite Hx. cbn [mbind option_bind].
  rewrite E1. cbn [mbind option_bind]. rewrite (proj2 (Z.eqb_neq r1 0) N1), E2. cbn [mbind option_bind]. rewrite (proj2 (Z.eqb_neq r2 0) N2), Et.
  replace (i + length w - i)%nat with (length w) by lia.
  destruct (find_child_spec _ _ _ _ _ _ _ _ Hcs Hw) as (r & E & Hr). rewrite E. cbn [mbind option_bind].
  destruct (entry_of w (take (length cs) es)) as [k|] eqn:Ee.
  - destruct Hr as [Hgr [y Hy]]. pose proof (tk_null _ _ Hk) as Hnull. assert (Hr0 : r <> 0) by congruence.
    rewrite (proj2 (Z.eqb_neq r 0) Hr0). destruct (inc_ref_spec s g r y Hk Hy) as (s' & Es & Hk' & ->). rewrite Es. cbn [mbind option_bind].
    eexists _, _. split; [done|]. split; [|done]. split; try done; [intros q z; done|].
    intros q z _ Hn. cbn. by rewrite lookup_insert_ne by congruence.
  - rewrite Hr. exists 0, s. split; [done|]. split; [by apply grows_refl|done].
Qed.

Lemma get_twice_spec s g f x n es cs fl path i w :
  tree_ok s g -> files s !! f = Some x -> g !! f = Some n -> content n = Some es -> t x = TDir cs fl -> at_name (drop i path) w ->
  exists r s', get_twice s f path i (i + length w) = Some (r, s') /\ grows s s' g g /\
    match entry_of w (take (length cs) es) with Some k => r <> 0 /\ g !! r = Some k | None => r = 0 /\ s' = s end.
Proof.
  intros Hk Hx Hg Ec Et Hw. destruct (get_file_spec s g f x n es cs fl path i w Hk Hx Hg Ec Et Hw) as (r & s' & E & G & Hr).
  unfold get_twice. rewrite E. cbn [mbind option_bind]. destruct (entry_of w (take (length cs) es)) as [k|].
  - rewrite (proj2 (Z.eqb_neq r 0)) by apply Hr. cbn [negb]. by exists r, s'.
  - destruct Hr as [-> ->]. cbn [Z.eqb negb]. rewrite E. exists 0, s. done.
Qed.

(** A search that misses in a directory marked complete is right. *)
Lemma miss_complete s g f x n es cs fl w :
  tree_ok s g -> files s !! f = Some x -> g !! f = Some n -> content n = Some es -> t x = TDir cs fl ->
  entry_of w (take (length cs) es) = None -> entry_of w es = None \/ ~ complete s f.
Proof.
  intros Hk Hx Hg Ec Et Hm. destruct (tk_node _ _ Hk _ _ Hx) as (n' & Hn' & Hd & _). rewrite Hg in Hn'. injection Hn' as <-.
  unfold dir_ok in Hd. rewrite Ec in Hd. destruct Hd as (_ & cs' & fl' & Et' & _ & _ & _ & Hfl). rewrite Et in Et'. injection Et' as <- <-.
  destruct (decide (Z.land fl FSS_FILE_TREE_COMPLETION = 0)) as [E|E].
  - right. intros (y & cs' & fl' & Hy & Ety & Hc). rewrite Hx in Hy. injection Hy as <-. rewrite Et in Ety. by injection Ety as <- <-.
  - left. rewrite (Hfl E) in Hm. by rewrite firstn_all in Hm.
Qed.

Lemma lockup_spec fuel s g f x n es path i w :
  tree_ok s g -> files s !! f = Some x -> g !! f = Some n -> content n = Some es -> at_name (drop i path) w -> (length es < fuel)%nat ->
  exists r s' g', lockup_file_in_this_dir fuel s f path i (i + length w) = Ret (r, s') /\ grows s s' g g' /\
    (r <> 0 -> exists k, entry_of w es = Some k /\ g' !! r = Some k) /\ (r = 0 -> entry_of w es = None \/ unreadable s g f n).
Proof.
  intros Hk Hx Hg Ec Hw Hfuel. destruct (tk_node _ _ Hk _ _ Hx) as (n' & Hn' & Hd & _). rewrite Hg in Hn'. injection Hn' as <-.
  unfold dir_ok in Hd. rewrite Ec in Hd. destruct Hd as (_ & cs & fl & Et & _).
  destruct (get_twice_spec s g f x n es cs fl path i w Hk Hx Hg Ec Et Hw) as (r & s1 & E & G & Hr). unfold lockup_file_in_this_dir.
  rewrite E. cbn [lift mbind run_bind]. destruct (entry_of w (take (length cs) es)) as [k|] eqn:Ee.
  { rewrite (proj2 (Z.eqb_neq r 0)) by apply Hr. cbn [negb]. exists r, s1, g. split_and!; try done; [|by intros ->; destruct Hr].
    intros _. exists k. split; [by eapply entry_of_take|apply Hr]. }
  destruct Hr as [-> ->]. cbn [Z.eqb negb]. rewrite Hx. cbn [lift mbind run_bind]. rewrite Et.
  destruct cs as [|c cs].
  2: { exists 0, s, g. split_and!; try done. intros _. destruct (decide (Z.land fl FSS_FILE_TREE_COMPLETION = 0)) as [Hfl|Hfl].
       - right. exists x, es. split_and!; try done. right. right. by exists c, cs, fl.
       - left. destruct (miss_complete s g f x n es (c :: cs) fl w Hk Hx Hg Ec Et Ee) as [|Hnc]; [done|]. destruct Hnc. by exists x, (c :: cs), fl. }
  destruct (import_file_spec fuel s g f x n es fl Hk Hx Hg Ec Et Hfuel) as (r2 & s2 & g2 & E2 & G2 & Hc & Hwhy). rewrite E2. cbn [mbind run_bind].
  pose proof (gr_ok _ _ _ _ G2) as Hk2. assert (Hg2 : g2 !! f = Some n) by (eapply lookup_weaken; [exact Hg|apply G2]).
  destruct (tk_dom _ _ Hk2 _ _ Hg2) as [y Hy].
  destruct (tk_node _ _ Hk2 _ _ Hy) as (n' & Hn' & Hd & _). rewrite Hg2 in Hn'. injection Hn' as <-.
  unfold dir_ok in Hd. rewrite Ec in Hd. destruct Hd as (_ & cs & fl2 & Ety & _).
  destruct (Z.ltb_spec r2 0) as [Hneg|Hpos].
  - exists 0, s2, g2. split_and!; try done. intros _. right. by apply Hwhy.
  - destruct (get_twice_spec s2 g2 f y n es cs fl2 path i w Hk2 Hy Hg2 Ec Ety Hw) as (r3 & s3 & E3 & G3 & Hr3). rewrite E3. cbn [lift].
    exists r3, s3, g2. split; [done|]. split; [by eapply grows_trans|].
    destruct (entry_of w (take (length cs) es)) as [k|] eqn:Ee3.
    + split; [|naive_solver]. intros _. exists k. split; [by eapply entry_of_take|apply Hr3].
    + destruct Hr3 as [-> ->]. split; [done|]. intros _. left.
      destruct (miss_complete s2 g2 f y n es cs fl2 w Hk2 Hy Hg2 Ec Ety Ee3) as [|Hnc]; [done|]. by destruct Hnc; apply Hc.
Qed.

(** ** Paths *)

(** The first name of a path and the other ones. *)
Fixpoint split_path (l : list Z) : list Z * list (list Z) :=
  match l with
  | [] => ([], [])
  | c :: l =>
    let '(w, ws) := split_path l in
    if is_sep c then ([], if bool_decide (w = []) then ws else w :: ws) else (c :: w, ws)
  end.

Definition components (l : list Z) : list (list Z) :=
  let '(w, ws) := split_path l in if bool_decide (w = []) then ws else w :: ws.

Lemma components_sep c l : is_sep c = true -> components (c :: l) = components l.
Proof. intros Hc. unfold components. cbn [split_path]. destruct (split_path l) as [w ws]. by rewrite Hc. Qed.

(** A path begins with its first name. *)
Lemma split_path_first l w ws : split_path l = (w, ws) ->
  exists rest, l = w ++ rest /\ ws = components rest /\ match rest with [] => True | c :: _ => is_sep c = true end.
Proof.
  revert w ws. induction l as [|c l IH]; intros w ws; cbn [split_path]; [intros [= <- <-]; by exists []|].
  destruct (split_path l) as [w' ws'] eqn:E. destruct (is_sep c) eqn:Hc; intros [= <- <-].
  - exists (c :: l). split_and!; try done. rewrite components_sep by done. unfold components. by rewrite E.
  - destruct (IH _ _ eq_refl) as (rest & -> & -> & Hr). by exists rest.
Qed.

Lemma name_len_spec key l w ws : cstr key l -> split_path l = (w, ws) -> name_len key = Some (length w).
Proof.
  revert key w ws. induction l as [|c l IH]; intros key w ws Hk E; apply cstr_inv in Hk.
  - destruct Hk as [[_ [rest ->]]|(? & ? & ? & ? & _)]; [|done]. cbn in E. by injection E as <- <-.
  - destruct Hk as [[? _]|(c' & l' & s' & [= <- <-] & -> & Hc & Hk)]; [done|]. cbn [split_path name_len] in *.
    rewrite (proj2 (Z.eqb_neq c 0) Hc). cbn [orb]. destruct (split_path l) as [w' ws'] eqn:El.
    destruct (is_sep c); injection E as <- <-; [done|]. by rewrite (IH s' _ _ Hk eq_refl).
Qed.

(** The file system that the tree stands for. *)
Fixpoint walk (n : N) (ws : list (list Z)) : option N :=
  match ws with
  | [] => Some n
  | w :: ws => es ← content n; m ← entry_of w es; walk m ws
  end.

(** Only directories are passed on the way. *)
Fixpoint passable (n : N) (ws : list (list Z)) : Prop :=
  match ws with
  | [] => True
  | w :: ws => exists es, content n = Some es /\ forall m, entry_of w es = Some m -> passable m ws
  end.

Definition plain (w : list Z) : Prop := w <> [46] /\ w <> [46; 46].

(** A directory on the way cannot be loaded in a state that the search
    reaches from [s]. *)
Definition unread (s : st) (g : gmap Z N) (n : N) (ws : list (list Z)) : Prop :=
  exists k f m s1 g1, (k < length ws)%nat /\ walk n (take k ws) = Some m /\ grows s s1 g g1 /\ g1 !! f = Some m /\
    unreadable s1 g1 f m.

Definition resolved (s : st) (g g' : gmap Z N) (n : N) (ws : list (list Z)) (r : Z) : Prop :=
  (r <> 0 -> exists k, walk n ws = Some k /\ g' !! r = Some k) /\ (r = 0 -> walk n ws = None \/ unread s g n ws).

Lemma resolved_step s s1 g g1 g' n es w m ws r :
  content n = Some es -> entry_of w es = Some m -> grows s s1 g g1 -> resolved s1 g1 g' m ws r -> resolved s g g' n (w :: ws) r.
Proof.
  intros Ec Ee G [H1 H2]. unfold resolved, unread. cbn [walk]. rewrite Ec. cbn [mbind option_bind]. rewrite Ee. cbn [mbind option_bind]. split; [done|].
  intros Hr. destruct (H2 Hr) as [Hn|(k & d & x & s2 & g2 & Hk & Hw & G2 & Hrest)]; [by left|right]. exists (S k), d, x, s2, g2. cbn [length take walk].
  rewrite Ec. cbn [mbind option_bind]. rewrite Ee. split; [lia|]. split; [done|]. split; [by eapply grows_trans|done].
Qed.

Lemma cstr_app key w rest : cstr key (w ++ rest) -> cstr (drop (length w) key) rest.
Proof.
  intros [Hn [tl ->]]. split; [intros Hin; apply Hn, elem_of_app; by right|]. exists tl. by rewrite <- app_assoc, drop_app_length.
Qed.

Lemma path_loop_spec fuel n s g f nd path i l :
  tree_ok s g -> g !! f = Some nd -> cstr (drop i path) l -> bytes l -> passable nd (components l) -> Forall plain (components l) ->
  (forall k es, content k = Some es -> (length es < fuel)%nat) -> (length l < n)%nat ->
  exists r s' g', path_loop fuel None n s f path i = Ret (r, s') /\ grows s s' g g' /\ resolved s g g' nd (components l) r.
Proof.
  intros Hk Hg Hl Hb Hpass Hplain Hfuel. revert s g f nd i l Hk Hg Hl Hb Hpass Hplain.
  induction n as [|n IH]; intros s g f nd i l Hk Hg Hl Hb Hpass Hplain Hn; [lia|]. cbn [path_loop].
  assert (Ei : path !! i = (drop i path) !! 0%nat) by (by rewrite lookup_drop, Nat.add_0_r). rewrite Ei.
  destruct (cstr_inv _ _ Hl) as [(-> & rest & E)|(c & l' & key & -> & E & Hc & Hl')]; rewrite E; cbn [lookup list_lookup lift mbind run_bind].
  { cbn [Z.eqb]. unfold act. exists f, s, g. split; [done|]. split; [by apply grows_refl|]. split; [intros _; by exists nd|].
    intros ->. destruct (tk_dom _ _ Hk _ _ Hg) as [x Hx]. by rewrite (tk_null _ _ Hk) in Hx. }
  rewrite (proj2 (Z.eqb_neq c 0) Hc). rewrite <- E.
  destruct (split_path (c :: l')) as [w ws] eqn:Es. rewrite (name_len_spec _ _ _ _ Hl Es). cbn [lift mbind run_bind].
  destruct (split_path_first _ _ _ Es) as (rest & El & Ews & Hrest).
  destruct (Nat.eqb_spec (length w) 0) as [Hw0|Hw0].
  { apply nil_length_inv in Hw0. subst w. cbn in El. subst rest. apply (components_sep _ l') in Hrest as Ec. rewrite Ec in *.
    apply IH; try done; [|by apply Forall_cons in Hb as [_ Hb]|cbn in Hn; lia]. rewrite <- Nat.add_1_r, <- drop_drop, E. done. }
  assert (Ecomp : components (c :: l') = w :: components rest).
  { unfold components at 1. rewrite Es, bool_decide_false, Ews; [done|]. intros ->. done. }
  rewrite Ecomp in *. destruct Hpass as (es & Ec & Hpass). apply Forall_cons in Hplain as [Hpl Hplain].
  rewrite El in Hl, Hb, Hn. apply Forall_app in Hb as [Hbw Hbr]. rewrite length_app in Hn.
  assert (Hat : at_name (drop i path) w).
  { exists (w ++ rest). split_and!; [done|by apply Forall_app|by apply take_app_length| |]; intros E'; unfold components in Ecomp; rewrite El, E' in Ecomp;
      injection Ecomp as <-; by destruct Hpl. }
  destruct (tk_dom _ _ Hk _ _ Hg) as [x Hx].
  destruct (lockup_spec fuel s g f x nd es path i w Hk Hx Hg Ec Hat (Hfuel _ _ Ec)) as (r & s1 & g1 & E1 & G1 & Hr1 & Hr0).
  rewrite E1. cbn [mbind run_bind]. unfold act. destruct (Z.eqb_spec r 0) as [Er|Er]; cbn [mbind run_bind].
  - cbn [Z.eqb]. exists 0, s1, g1. split; [done|]. split; [done|]. split; [done|]. intros _. destruct (Hr0 Er) as [Hm|Hm].
    + left. cbn [walk]. rewrite Ec. cbn [mbind option_bind]. by rewrite Hm.
    + right. exists 0%nat, f, nd, s, g. split; [cbn; lia|]. split_and!; try done. by apply grows_refl.
  - rewrite (proj2 (Z.eqb_neq r 0) Er). destruct (Hr1 Er) as (k & Ek & Hgk).
    destruct (IH s1 g1 r k (i + length w)%nat rest (gr_ok _ _ _ _ G1) Hgk) as (r2 & s2 & g2 & E2 & G2 & Hres); try done.
    + rewrite <- drop_drop. by apply cstr_app.
    + by apply Hpass.
    + lia.
    + exists r2, s2, g2. split; [done|]. split; [by eapply grows_trans|]. by eapply resolved_step.
Qed.

(** ** Where a path begins *)

Fixpoint c_str (l : list Z) : list Z :=
  match l with [] => [] | c :: l => if c =? 0 then [] else c :: c_str l end.

Lemma c_str_eq s l : cstr s l -> c_str s = l.
Proof.
  revert s. induction l as [|c l IH]; intros s Hs; apply cstr_inv in Hs.
  - destruct Hs as [[_ [rest ->]]|(? & ? & ? & ? & _)]; done.
  - destruct Hs as [[? _]|(c' & l' & s' & [= <- <-] & -> & Hc & Hs)]; [done|]. cbn. by rewrite (proj2 (Z.eqb_neq c 0) Hc), (IH _ Hs).
Qed.

(** The root of the first volume with the name [id], 0 when there is none. *)
Fixpoint first_root (m : gmap Z fss_volumn) (l : list Z) (id : list Z) : Z :=
  match l with
  | [] => 0
  | v :: l =>
    match m !! v with
    | Some x => if bool_decide (c_str (volumn_id x) = id) then root_dir x else first_root m l id
    | None => 0
    end
  end.

Definition volumn_root (s : st) (id : list Z) : Z := first_root (vols s) (vol_list s) id.

Lemma volumn_search_spec s g id l :
  tree_ok s g -> cstr id l -> bytes l -> exists v, fss_volumn_search s id = Some v /\
    (v = 0 /\ volumn_root s l = 0 \/ v <> 0 /\ exists x, vols s !! v = Some x /\ root_dir x = volumn_root s l) /\
    (volumn_root s l <> 0 -> is_Some (files s !! volumn_root s l)).
Proof.
  intros Hk Hi Hb. unfold fss_volumn_search, volumn_root.
  induction (tk_vols _ _ Hk) as [|v vs (Hv0 & x & i & Hv & Hx & Hbx & Hr) _ (u & Eu & Hu & IH)]; [by exists 0; split_and!; [|left|]|].
  cbn [search_volumns first_root]. rewrite Hv. cbn [mbind option_bind]. rewrite (strcmp_order _ _ l i) by done. cbn [mbind option_bind].
  rewrite (c_str_eq _ _ Hx). destruct (Z.eqb_spec (order l i) 0) as [->%order_eq|E].
  - rewrite bool_decide_true by done. exists v. split; [done|]. split; [right; split; [done|by exists x]|done].
  - rewrite bool_decide_false; [by exists u|]. intros ->. by apply E, order_eq.
Qed.

Definition is_special (c : Z) : bool := is_sep c || is_colon c.

Fixpoint take_label (l : list Z) : list Z * list Z :=
  match l with
  | [] => ([], [])
  | c :: l' => if is_special c then ([], l) else let '(a, b) := take_label l' in (c :: a, b)
  end.

Definition ends_name (l : list Z) : bool := match l with [] => true | c :: _ => is_sep c end.

(** The label of a path and what follows its colon. *)
Definition label_of (p : list Z) : option (list Z * list Z) :=
  let '(lab, r) := take_label (match p with c :: q => if c =? 47 then q else p | [] => [] end) in
  match r with
  | c :: rest => if (length lab <=? FSS_VOLUMN_LABEL_CHECK_LEN)%nat && is_colon c && ends_name rest then Some (lab, rest) else None
  | [] => None
  end.

Lemma take_label_eq l lab r : take_label l = (lab, r) ->
  l = lab ++ r /\ Forall (fun c => is_special c = false) lab /\ match r with [] => True | c :: _ => is_special c = true end.
Proof.
  revert lab. induction l as [|c l IH]; intros lab; cbn [take_label]; [by intros [= <- <-]|].
  destruct (is_special c) eqn:E; [intros [= <- <-]; split_and!; [done|constructor|done]|].
  destruct (take_label l) as [a b]. intros [= <- <-]. destruct (IH _ eq_refl) as (-> & Ha & Hr). split_and!; [done|by constructor|done].
Qed.

Lemma head_of path i l : cstr (drop i path) l -> path !! i = Some (hd 0 l).
Proof.
  intros Hl. assert (E : path !! i = (drop i path) !! 0%nat) by (by rewrite lookup_drop, Nat.add_0_r). rewrite E.
  destruct Hl as [_ [rest ->]]. by destruct l.
Qed.

Lemma cstr_skip path i a l : cstr (drop i path) (a ++ l) -> cstr (drop (i + length a) path) l.
Proof. intros Hl. rewrite <- drop_drop. by apply cstr_app. Qed.

Lemma cstr_step path i c l : cstr (drop i path) (c :: l) -> cstr (drop (S i) path) l.
Proof. rewrite <- Nat.add_1_r. apply (cstr_skip path i [c] l). Qed.

Lemma label_scan_spec n path i lab r :
  cstr (drop i path) (lab ++ r) -> Forall (fun c => is_special c = false) lab -> (r <> [] -> is_special (hd 0 r) = true) ->
  label_scan n path i = Some (i + min n (length lab))%nat.
Proof.
  revert i lab. induction n as [|n IH]; intros i lab Hl Hlab Hr; cbn [label_scan Nat.min]; [by rewrite Nat.add_0_r|].
  rewrite (head_of _ _ _ Hl). cbn [mbind option_bind]. destruct lab as [|c lab]; cbn [app hd length] in *.
  - rewrite Nat.add_0_r. destruct r as [|c r]; [done|]. unfold is_special in Hr. cbn [hd] in *. rewrite <- orb_assoc, Hr by done. by rewrite orb_true_r.
  - apply Forall_cons in Hlab as [Hc Hlab]. unfold is_special in Hc. rewrite <- orb_assoc, Hc, orb_false_r.
    pose proof (cstr_step _ _ _ _ Hl) as Hl'. destruct Hl as [Hnz _]. apply not_elem_of_cons in Hnz as [Hcz _].
    rewrite (proj2 (Z.eqb_neq c 0)) by congruence. rewrite (IH (S i) lab Hl') by done. f_equal. lia.
Qed.

Lemma hd_nonzero path i l : cstr (drop i path) l -> (hd 0 l =? 0) = bool_decide (l = []).
Proof. intros [Hn _]. destruct l as [|c l]; [done|]. apply not_elem_of_cons in Hn as [Hn _]. cbn. by apply Z.eqb_neq. Qed.

(** The test for a volume behind the scan, from [i] with the name [lab]. *)
Lemma ends_label_spec n path i lab r :
  cstr (drop i path) (lab ++ r) -> Forall (fun c => is_special c = false) lab ->
  ends_label path (i + min n (length lab)) =
    Some (match r with c :: rest => (length lab <=? n)%nat && is_colon c && ends_name rest | [] => false end).
Proof.
  intros Hl Hlab. unfold ends_label. destruct (Nat.leb_spec (length lab) n) as [Hle|Hgt].
  - rewrite Nat.min_r by done. apply cstr_skip in Hl. rewrite (head_of _ _ _ Hl). cbn [mbind option_bind].
    destruct r as [|c rest]; [done|]. cbn [hd]. destruct (is_colon c); [|done]. cbn [negb andb].
    apply cstr_step in Hl. rewrite (head_of _ _ _ Hl). cbn [mbind option_bind]. rewrite (hd_nonzero _ _ _ Hl).
    by destruct rest.
  - rewrite Nat.min_l by lia. rewrite <- (take_drop n lab), <- app_assoc in Hl. apply cstr_skip in Hl. rewrite length_take, Nat.min_l in Hl by lia.
    rewrite (head_of _ _ _ Hl). cbn [mbind option_bind]. destruct (drop n lab) as [|c rest] eqn:E.
    { apply (f_equal length) in E. rewrite length_drop in E. cbn in E. lia. }
    cbn [app hd]. assert (Hc : is_special c = false).
    { rewrite Forall_forall in Hlab. apply Hlab. rewrite <- (take_drop n lab), E. apply elem_of_app. right. apply list_elem_of_here. }
    unfold is_special in Hc. apply orb_false_iff in Hc as [_ ->]. by destruct r.
Qed.

Lemma copy_label_spec path j lab r acc :
  cstr (drop j path) (lab ++ r) -> Forall (fun c => is_sep c = false) lab -> (length acc + length lab <= FSS_VOLUMN_LABEL_CHECK_LEN)%nat ->
  copy_label (length lab) path j acc = Some (acc ++ lab).
Proof.
  revert j acc. induction lab as [|c lab IH]; intros j acc Hl Hlab Hn; cbn [copy_label length]; [by rewrite app_nil_r|].
  rewrite (head_of _ _ _ Hl). cbn [mbind option_bind app hd]. apply Forall_cons in Hlab as [-> Hlab]. cbn [length] in Hn.
  destruct (Nat.ltb_spec (length acc) FSS_VOLUMN_LABEL_CHECK_LEN); [|lia]. apply cstr_step in Hl.
  rewrite (IH (S j) (acc ++ [c]) Hl Hlab); [by rewrite <- app_assoc|]. rewrite length_app. cbn. lia.
Qed.

Lemma special_sep lab : Forall (fun c => is_special c = false) lab -> Forall (fun c => is_sep c = false) lab.
Proof. intros Hl. eapply Forall_impl; [exact Hl|]. intros c Hc. unfold is_special in Hc. by apply orb_false_iff in Hc as [? _]. Qed.

(** A label of at most three characters fits into [interval]. *)
Lemma volumn_label_spec path k lab c rest :
  cstr (drop k path) (lab ++ c :: rest) -> (k = 0%nat \/ k = 1%nat /\ path !! 0%nat = Some 47) ->
  Forall (fun c => is_special c = false) lab -> is_colon c = true -> (length lab <= 3)%nat ->
  volumn_label path (k + length lab) = Some (lab ++ [58; 0]).
Proof.
  intros Hl Hk Hlab Hc Hn. assert (Hc' : is_sep c = false /\ (c = 58 \/ c = 59)).
  { unfold is_colon, is_sep in *. apply orb_true_iff in Hc as [->%Z.eqb_eq| ->%Z.eqb_eq]; split; auto. }
  assert (E : copy_label (S (k + length lab)) path 0 [] = Some (lab ++ [c])).
  { assert (E1 : copy_label (length (lab ++ [c])) path k [] = Some ([] ++ lab ++ [c])).
    { apply (copy_label_spec path k (lab ++ [c]) rest); [by rewrite <- app_assoc| |rewrite length_app; cbn; unfold FSS_VOLUMN_LABEL_CHECK_LEN; lia].
      apply Forall_app. split; [by apply special_sep|]. constructor; [apply Hc'|constructor]. }
    rewrite length_app in E1. cbn [length app] in E1. rewrite Nat.add_1_r in E1. destruct Hk as [->|[-> Hs]]; [exact E1|].
    cbn [Nat.add copy_label]. rewrite Hs. cbn [mbind option_bind]. exact E1. }
  unfold volumn_label. rewrite E. cbn [mbind option_bind]. rewrite last_snoc. cbn [mbind option_bind]. rewrite length_app. cbn [length].
  destruct (Nat.ltb_spec (length lab + 1) FSS_VOLUMN_LABEL_CHECK_LEN) as [_|Hx]; [|unfold FSS_VOLUMN_LABEL_CHECK_LEN in Hx; lia].
  destruct Hc' as [_ [->| ->]]; cbn [Z.eqb Pos.eqb]; rewrite ?removelast_last, <- app_assoc; done.
Qed.

Definition start_dir (s : st) (cur : Z) (p : list Z) : Z * list Z :=
  match label_of p with
  | Some (lab, rest) => (volumn_root s (lab ++ [58]), rest)
  | None => match p with
            | c :: rest => if c =? 47 then (volumn_root s [48; 58], rest) else (cur, p)
            | [] => (cur, p)
            end
  end.

Definition label_fits (p : list Z) : Prop := match label_of p with Some (lab, _) => (length lab <= 3)%nat | None => True end.

(** The labelled part of a path, from [k] on. *)
Lemma volumn_start_spec s g cur path k lab r :
  tree_ok s g -> cstr (drop k path) (lab ++ r) -> bytes lab -> (k = 0%nat \/ k = 1%nat /\ path !! 0%nat = Some 47) ->
  Forall (fun c => is_special c = false) lab ->
  let i := (k + min FSS_VOLUMN_LABEL_CHECK_LEN (length lab))%nat in
  match r with
  | c :: rest =>
    if (length lab <=? FSS_VOLUMN_LABEL_CHECK_LEN)%nat && is_colon c && ends_name rest then
      (length lab <= 3)%nat -> exists j, volumn_start s cur path i = Some (volumn_root s (lab ++ [58]), j) /\
        (volumn_root s (lab ++ [58]) <> 0 -> cstr (drop j path) rest)
    else volumn_start s cur path i = Some (cur, 0%nat)
  | [] => volumn_start s cur path i = Some (cur, 0%nat)
  end.
Proof.
  intros Hk Hl Hb Hkk Hlab i. unfold volumn_start, i. rewrite (ends_label_spec _ _ _ _ _ Hl Hlab). cbn [mbind option_bind].
  destruct r as [|c rest]; [done|]. destruct (_ && _ && _) eqn:E; [|done]. intros Hn. apply andb_true_iff in E as [E _]. apply andb_true_iff in E as [_ Hc].
  rewrite Nat.min_r by (unfold FSS_VOLUMN_LABEL_CHECK_LEN; lia). rewrite (volumn_label_spec path k lab c rest) by done. cbn [mbind option_bind].
  assert (Hid : cstr (lab ++ [58; 0]) (lab ++ [58])).
  { split; [|exists []; by rewrite <- app_assoc]. destruct Hl as [Hnz _]. intros [Hin|Hin]%elem_of_app; [|by apply list_elem_of_singleton in Hin].
    apply Hnz, elem_of_app. by left. }
  destruct (volumn_search_spec s g _ _ Hk Hid) as (v & Ev & C & _); [apply Forall_app; split; [done|]; constructor; [lia|constructor]|].
  rewrite Ev. cbn [mbind option_bind]. destruct C as [[-> E0]|(Hv & x & Hx & Er)].
  - cbn [Z.eqb]. rewrite E0. by exists 0%nat.
  - rewrite (proj2 (Z.eqb_neq v 0) Hv), Hx. cbn [mbind option_bind]. rewrite Er. eexists. split; [done|]. intros _.
    apply cstr_skip in Hl. by apply cstr_step in Hl.
Qed.

Lemma get_unix_spec s g : tree_ok s g -> exists v, get_unix s = Some v /\
  (v = 0 /\ volumn_root s [48; 58] = 0 \/ v <> 0 /\ exists x, vols s !! v = Some x /\ root_dir x = volumn_root s [48; 58]).
Proof.
  intros Hk. destruct (volumn_search_spec s g root_label [48; 58] Hk) as (v & Ev & C & _).
  - split; [rewrite !not_elem_of_cons; split_and!; try done; apply not_elem_of_nil|by exists []].
  - repeat constructor; lia.
  - by exists v.
Qed.

Lemma loop_start_spec s g cur path p :
  tree_ok s g -> cstr path p -> bytes p -> label_fits p ->
  exists i, loop_start s cur path = Some ((start_dir s cur p).1, i) /\ ((start_dir s cur p).1 <> 0 -> cstr (drop i path) (start_dir s cur p).2).
Proof.
  intros Hk Hp Hb Hfit. unfold loop_start. rewrite (head_of path 0 p Hp). cbn [mbind option_bind]. unfold start_dir, label_fits, label_of in *.
  destruct (Z.eqb_spec (hd 0 p) 47) as [E47|E47].
  - destruct p as [|c q]; [done|]. cbn [hd] in E47. subst c. cbn [Z.eqb Pos.eqb] in *. destruct (take_label q) as [lab r] eqn:El.
    destruct (take_label_eq _ _ _ El) as (-> & Hlab & Hr). apply (cstr_step path 0) in Hp as Hq. apply Forall_cons in Hb as [_ [Hbl _]%Forall_app].
    rewrite (label_scan_spec _ _ _ _ r Hq Hlab) by (by destruct r). cbn [mbind option_bind]. rewrite (ends_label_spec _ _ _ _ _ Hq Hlab). cbn [mbind option_bind].
    pose proof (volumn_start_spec s g cur path 1 lab r Hk Hq Hbl (or_intror (conj eq_refl (head_of path 0 _ Hp))) Hlab) as Hs. cbv zeta in Hs.
    assert (Hunix : exists i, (fs ← get_unix s; if fs =? 0 then Some (0, 0%nat) else v ← vols s !! fs; Some (root_dir v, 1%nat)) =
        Some (volumn_root s [48; 58], i) /\ (volumn_root s [48; 58] <> 0 -> cstr (drop i path) (lab ++ r))).
    { destruct (get_unix_spec s g Hk) as (v & Ev & [[-> E0]|(Hv & x & Hx & Er)]); rewrite Ev; cbn [mbind option_bind].
      - cbn [Z.eqb]. rewrite E0. by exists 0%nat.
      - rewrite (proj2 (Z.eqb_neq v 0) Hv), Hx. cbn [mbind option_bind]. rewrite Er. by exists 1%nat. }
    destruct r as [|c rest]; [exact Hunix|]. destruct (_ && _ && _); [by apply Hs|exact Hunix].
  - replace (match p with c :: q => if c =? 47 then q else p | [] => [] end) with p in *
      by (destruct p as [|c q]; [done|]; cbn [hd] in E47; by rewrite (proj2 (Z.eqb_neq c 47) E47)).
    destruct (take_label p) as [lab r] eqn:El. destruct (take_label_eq _ _ _ El) as (Ep & Hlab & Hr). rewrite Ep in Hp, Hb. apply Forall_app in Hb as [Hbl _].
    rewrite (label_scan_spec _ path 0 _ r Hp Hlab) by (by destruct r). cbn [mbind option_bind].
    pose proof (volumn_start_spec s g cur path 0 lab r Hk Hp Hbl (or_introl eq_refl) Hlab) as Hs. cbv zeta in Hs.
    assert (Hrel : exists i, Some (cur, 0%nat) = Some ((match p with c :: rest => if c =? 47 then (volumn_root s [48; 58], rest) else (cur, p) | [] => (cur, p) end).1, i) /\
      ((match p with c :: rest => if c =? 47 then (volumn_root s [48; 58], rest) else (cur, p) | [] => (cur, p) end).1 <> 0 ->
       cstr (drop i path) (match p with c :: rest => if c =? 47 then (volumn_root s [48; 58], rest) else (cur, p) | [] => (cur, p) end).2)).
    { exists 0%nat. rewrite <- Ep in Hp. destruct p as [|c q]; [by split|]. cbn [hd] in E47. rewrite (proj2 (Z.eqb_neq c 47) E47). by split. }
    destruct r as [|c rest]; [rewrite Hs; exact Hrel|]. destruct (_ && _ && _); [by apply Hs|rewrite Hs; exact Hrel].
Qed.

(** ** Resolution of a path *)

Section Resolve.
Context (fuel : nat) (s : st) (g : gmap Z N) (cur : Z) (path p : list Z).
Let d := (start_dir s cur p).1.
Let ws := components (start_dir s cur p).2.
Hypothesis Hok : tree_ok s g.
Hypothesis Hpath : cstr path p.
Hypothesis Hbytes : bytes p.
Hypothesis Hfits : label_fits p.
Hypothesis Hcur : cur = 0 \/ is_Some (files s !! cur).
Hypothesis Hpass : forall n, g !! d = Some n -> passable n ws.
Hypothesis Hplain : Forall plain ws.
Hypothesis Hfuel : forall k es, content k = Some es -> (length es < fuel)%nat.

Lemma start_node : d = 0 /\ g !! d = None \/ exists n, g !! d = Some n /\ d <> 0.
Proof.
  assert (Hd : d = 0 \/ is_Some (files s !! d)).
  { unfold d, start_dir. assert (Hroot : forall id, bytes id -> 0 ∉ id -> volumn_root s id = 0 \/ is_Some (files s !! volumn_root s id)).
    { intros id Hb Hn. destruct (decide (volumn_root s id = 0)) as [|Hr]; [by left|right].
      destruct (volumn_search_spec s g (id ++ [0]) id Hok) as (v & _ & _ & Hf); [by split; [|exists []]|done|by apply Hf]. }
    unfold label_of. destruct (take_label _) as [lab r] eqn:El. destruct (take_label_eq _ _ _ El) as (Eq & Hlab & _).
    assert (Hlb : bytes lab /\ 0 ∉ lab).
    { assert (Hq : bytes (lab ++ r) /\ 0 ∉ lab ++ r).
      { rewrite <- Eq. destruct p as [|c q]; [by split; [constructor|apply not_elem_of_nil]|]. destruct Hpath as [Hnz _].
        destruct (c =? 47); [|done]. split; [by apply Forall_cons in Hbytes as [_ ?]|by apply not_elem_of_cons in Hnz as [_ ?]]. }
      destruct Hq as [Hq1 Hq2]. apply Forall_app in Hq1 as [? _]. split; [done|]. intros Hin. apply Hq2, elem_of_app. by left. }
    assert (Hunix : volumn_root s [48; 58] = 0 \/ is_Some (files s !! volumn_root s [48; 58])).
    { apply Hroot; [repeat constructor; lia|]. rewrite !not_elem_of_cons. split_and!; try done. apply not_elem_of_nil. }
    assert (Hother : let q := match p with c :: rest => if c =? 47 then (volumn_root s [48; 58], rest) else (cur, p) | [] => (cur, p) end in q.1 = 0 \/ is_Some (files s !! q.1)).
    { destruct p as [|c q]; [exact Hcur|]. destruct (c =? 47); [exact Hunix|exact Hcur]. }
    destruct r as [|c rest]; [exact Hother|]. destruct (_ && _ && _); [|exact Hother]. cbn [fst]. apply Hroot.
    - apply Forall_app. split; [apply Hlb|]. constructor; [lia|constructor].
    - intros [Hin|Hin]%elem_of_app; [by apply Hlb|by apply list_elem_of_singleton in Hin]. }
  destruct Hd as [E|[x Hx]].
  - left. split; [done|]. rewrite E. destruct (g !! 0) as [n|] eqn:En; [|done]. destruct (tk_dom _ _ Hok _ _ En) as [x Hx]. by rewrite (tk_null _ _ Hok) in Hx.
  - right. destruct (tk_node _ _ Hok _ _ Hx) as (n & Hn & _). exists n. split; [done|]. intros E. rewrite E, (tk_null _ _ Hok) in Hx. done.
Qed.

Lemma loop_file_spec : exists r s' g', fss_loop_file fuel None s cur path = Ret (r, s') /\ grows s s' g g' /\
  match g !! d with Some n => resolved s g g' n ws r | None => r = 0 end.
Proof.
  unfold fss_loop_file. destruct (loop_start_spec s g cur path p Hok Hpath Hbytes Hfits) as (i & E & Hi). rewrite E. cbn [lift mbind run_bind].
  fold d in Hi |- *. destruct start_node as [[Ed Eg]|(n & Eg & Hd)]; rewrite Eg.
  - rewrite Ed. cbn [Z.eqb]. exists 0, s, g. split; [done|]. split; [by apply grows_refl|done].
  - rewrite (proj2 (Z.eqb_neq d 0) Hd). specialize (Hi Hd).
    assert (Hlen : (length (start_dir s cur p).2 < S (length path))%nat).
    { destruct Hi as [_ [rest Er]]. apply (f_equal length) in Er. rewrite length_drop, length_app in Er. cbn in Er. lia. }
    assert (Hb2 : bytes (start_dir s cur p).2).
    { unfold bytes in *. apply Forall_forall. intros c Hc. rewrite Forall_forall in Hbytes. apply Hbytes. clear -Hc.
      unfold start_dir, label_of in Hc. destruct (take_label _) as [lab r] eqn:El. destruct (take_label_eq _ _ _ El) as (Eq & _).
      assert (Hsub : forall x, x ∈ lab ++ r -> x ∈ p).
      { rewrite <- Eq. intros x. destruct p as [|a q]; [done|]. destruct (a =? 47); [apply list_elem_of_further|done]. }
      assert (Hother : c ∈ (match p with a :: rest => if a =? 47 then (volumn_root s [48; 58], rest) else (cur, p) | [] => (cur, p) end).2 -> c ∈ p).
      { destruct p as [|a q]; [done|]. destruct (a =? 47); [apply list_elem_of_further|done]. }
      destruct r as [|a rest]; [by apply Hother|]. destruct (_ && _ && _); [|by apply Hother].
      apply Hsub, elem_of_app. right. by apply list_elem_of_further. }
    apply path_loop_spec; try done. by apply Hpass.
Qed.

(** The path leads to a file, and the driver is asked to open it in its
    directory and gives nothing; that is its last call. *)
Definition open_refused (s s' : st) (g : gmap Z N) (n : N) (ws : list (list Z)) : Prop :=
  exists s1 g1 f x k, grows s s1 g g1 /\ walk n ws = Some k /\ g1 !! f = Some k /\ files s1 !! f = Some x /\
    refused s1 x (drv s').

Lemma open_spec : exists r s' g', fss_open fuel s cur path = Ret (r, s') /\ grows s s' g g' /\
  match g !! d with
  | None => r = 0
  | Some n =>
    (r <> 0 -> exists k x v, walk n ws = Some k /\ g' !! r = Some k /\ files s' !! r = Some x /\
       vols s' !! volumn x = Some v /\ stands (drv s') (v_drv v) (private x) k) /\
    (r = 0 -> walk n ws = None \/ unread s g n ws \/ open_refused s s' g n ws)
  end.
Proof.
  destruct loop_file_spec as (r & s1 & g1 & E & G & Hr). unfold fss_open. rewrite E. cbn [mbind run_bind].
  destruct (g !! d) as [n|] eqn:En; [|rewrite Hr; cbn [Z.eqb]; by exists 0, s1, g1]. destruct Hr as [Hr1 Hr0].
  destruct (Z.eqb_spec r 0) as [Er|Er].
  { exists 0, s1, g1. split; [done|]. split; [done|]. split; [done|]. intros _. destruct (Hr0 Er); auto. }
  destruct (Hr1 Er) as (k & Ek & Hg). pose proof (gr_ok _ _ _ _ G) as Hk. destruct (tk_dom _ _ Hk _ _ Hg) as [x Hx].
  destruct (tk_node _ _ Hk _ _ Hx) as (k' & Hk' & _ & (v & Hv & Ho) & _). rewrite Hg in Hk'. injection Hk' as <-.
  rewrite Hx. cbn [lift mbind run_bind]. destruct (Z.eqb_spec (private x) 0) as [Hp|Hp]; cbn [negb].
  2: { exists r, s1, g1. split; [done|]. split; [done|]. split; [|done]. intros _. exists k, x, v. split_and!; try done. by apply Ho. }
  rewrite Hv. cbn [lift mbind run_bind]. destruct (open_in_parent s1 g1 r x k v Hk Hx Hg Hp Hv) as (fa & Hfa & Hopen). rewrite Hfa. cbn [lift mbind run_bind].
  destruct (fOpen (drv s1) (v_drv v) (private fa) (name_str x)) as [pr dd] eqn:Eop. destruct (Hopen _ _ eq_refl) as [G2 Hst].
  pose proof (grows_trans _ _ _ _ _ _ G G2) as G3. destruct (Z.eqb_spec pr 0) as [Epr|Epr].
  - eexists 0, _, g1. split; [done|]. split; [done|]. split; [done|]. intros _. right. right. exists s1, g1, r, x, k.
    split_and!; try done. split; [done|]. exists fa, v. cbn. rewrite Epr in Eop. done.
  - eexists r, _, g1. split; [done|]. split; [done|]. split; [|done]. intros _. exists k, (set_private x pr), v. cbn. rewrite lookup_insert_eq.
    split_and!; try done. by apply Hst.
Qed.
End Resolve.

(** ** Mounting *)

Fixpoint named_in (m : gmap Z fss_volumn) (l : list Z) (id : list Z) : bool :=
  match l with
  | [] => false
  | v :: l => match m !! v with Some x => bool_decide (c_str (volumn_id x) = id) | None => false end || named_in m l id
  end.

Definition named (s : st) (id : list Z) : bool := named_in (vols s) (vol_list s) id.

(** Of two volumes with one name the earlier one is found. *)
Lemma first_root_app m l v x id :
  Forall (fun u => u <> v /\ m !! u <> None) l ->
  first_root (<[v := x]> m) (l ++ [v]) id =
    if named_in m l id then first_root m l id else if bool_decide (c_str (volumn_id x) = id) then root_dir x else 0.
Proof.
  induction 1 as [|u l [Hu Hm] _ IH]; cbn [app first_root named_in]; [by rewrite lookup_insert_eq|].
  rewrite lookup_insert_ne by done. destruct (m !! u) as [y|]; [|done]. destruct (bool_decide (c_str (volumn_id y) = id)); [done|exact IH].
Qed.

Lemma first_root_unnamed m l id : named_in m l id = false -> first_root m l id = 0.
Proof.
  induction l as [|v l IH]; cbn; [done|]. destruct (m !! v) as [x|]; [|done]. intros [E1 E2]%orb_false_iff. rewrite E1. by apply IH.
Qed.

(** What a new volume at the end of the list changes. *)
Lemma added_root s g v x id :
  tree_ok s g -> vols s !! v = None -> first_root (<[v := x]> (vols s)) (vol_list s ++ [v]) id =
    if bool_decide (c_str (volumn_id x) = id) && negb (named s id) then root_dir x else volumn_root s id.
Proof.
  intros Hk Hv. rewrite first_root_app.
  - unfold volumn_root, named. destruct (named_in (vols s) (vol_list s) id) eqn:E; [by rewrite andb_false_r|].
    rewrite (first_root_unnamed _ _ _ E). by destruct (bool_decide _).
  - eapply Forall_impl; [apply (tk_vols _ _ Hk)|]. intros u (_ & y & i & Hu & _). split; congruence.
Qed.

Lemma tree_ok_volumn s g v x x' l :
  tree_ok s g -> vols s !! v = Some x -> (v_drv x' = v_drv x \/ forall f y, files s !! f = Some y -> volumn y <> v) ->
  cstr (volumn_id x') l -> bytes l -> (root_dir x' <> 0 -> is_Some (files s !! root_dir x')) ->
  tree_ok (set_vols s (<[v := x']> (vols s)) (vol_list s)) g.
Proof.
  intros Hk Hv Hd Hi Hb Hr. split; cbn; try apply Hk.
  - intros f y Hf. destruct (tk_node _ _ Hk _ _ Hf) as (n & Hn & Hdir & (w & Hw & Ho) & Hp). exists n. split_and!; try done.
    destruct (decide (volumn y = v)) as [E|E]; [|exists w; cbn; by rewrite lookup_insert_ne by done].
    destruct Hd as [Hd|Hd]; [|by destruct (Hd _ _ Hf)]. exists x'. cbn. rewrite E, lookup_insert_eq. split; [done|]. rewrite Hd.
    rewrite E, Hv in Hw. by injection Hw as <-.
  - intros u y. rewrite lookup_insert_Some. intros [[<- _]|[_ Hu]]; by eapply (tk_vlive _ _ Hk).
  - eapply Forall_impl; [apply (tk_vols _ _ Hk)|]. intros u (Hu0 & y & i & Hu & Hrest). split; [done|].
    destruct (decide (u = v)) as [->|Hne]; [exists x', l; cbn; by rewrite lookup_insert_eq|exists y, i; cbn; by rewrite lookup_insert_ne].
Qed.

Definition blank_volumn : fss_volumn := Volumn (replicate 5 0) 0 0 0.

Lemma create_volumn_spec s g : tree_ok s g -> exists v s', fss_volumn_create_simple s = Some (v, s') /\ tree_ok s' g /\ files s' = files s /\ drv s' = drv s /\
  ((v = 0 /\ vols s' = vols s /\ vol_list s' = vol_list s) \/
   (v <> 0 /\ vols s !! v = None /\ vols s' = <[v := blank_volumn]> (vols s) /\ vol_list s' = vol_list s ++ [v])).
Proof.
  intros Hk. unfold fss_volumn_create_simple.
  destruct (kh_alloc_law (heap s) SIZEOF_FSS_VOLUMN (tk_heap _ _ Hk)) as (v & h & E & Hh & C); [unfold SIZEOF_FSS_VOLUMN; lia|].
  rewrite E. cbn [mbind option_bind]. destruct C as [[-> Hl]|(Hv & Hf & Hl)].
  { cbn [Z.eqb]. eexists 0, _. split; [done|]. split; [|by split_and!; [| |left]].
    apply tree_ok_heap; [done|done|]. intros q z _ Hq. by apply Hl. }
  rewrite (proj2 (Z.eqb_neq v 0) Hv). eexists v, _. split; [done|]. assert (Hvn : vols s !! v = None).
  { destruct (vols s !! v) as [x|] eqn:Ex; [|done]. destruct Hf. by eapply (tk_vlive _ _ Hk). }
  split; [|by split_and!; [| |right]].
  assert (Hk1 : tree_ok (set_heap s h) g) by (apply tree_ok_heap; [done|done|intros q z _ Hq; apply Hl; by right]).
  split; cbn; try apply Hk1.
  - intros f x Hx. destruct (tk_node _ _ Hk1 _ _ Hx) as (n & Hn & Hdir & (w & Hw & Ho) & Hp). exists n. split_and!; try done.
    exists w. split; [|done]. cbn in *. by rewrite lookup_insert_ne by congruence.
  - intros u x. rewrite lookup_insert_Some. intros [[<- _]|[_ Hu]]; [eexists; apply Hl; by left|by eapply (tk_vlive _ _ Hk1)].
  - apply Forall_app. split.
    + eapply Forall_impl; [apply (tk_vols _ _ Hk)|]. intros u (Hu0 & x & i & Hu & Hrest). split; [done|]. exists x, i. cbn. by rewrite lookup_insert_ne by congruence.
    + constructor; [|constructor]. split; [done|]. exists blank_volumn, []. cbn. rewrite lookup_insert_eq. split_and!; [done|apply cstr_nil|constructor|done].
Qed.

(** The root of a volume without files. *)
Lemma tree_init_spec s g v driver pr n es :
  tree_ok s g -> vols s !! v = Some blank_volumn -> (forall f y, files s !! f = Some y -> volumn y <> v) ->
  stands (drv s) driver pr n -> pr <> 0 -> content n = Some es ->
  exists b s' g', fss_tree_init s v driver pr = Some (b, s') /\ tree_ok s' g' /\ vol_list s' = vol_list s /\ drv s' = drv s /\
    (b = false /\ g' = g /\ vols s' = <[v := Volumn [48; 58; 0; 0; 0] 0 0 0]> (vols s) \/
     b = true /\ exists f, g !! f = None /\ g' = <[f := n]> g /\ vols s' = <[v := Volumn [48; 58; 0; 0; 0] f driver 1]> (vols s)).
Proof.
  intros Hk Hv Hnone Hst Hpr Ec. unfold fss_tree_init. rewrite Hv. cbn [mbind option_bind].
  change (strcpy (volumn_id blank_volumn) root_label) with (Some [48; 58; 0; 0; 0]). cbn [mbind option_bind].
  unfold fss_file_new. destruct (alloc_two (heap s) 6 (tk_heap _ _ Hk)) as (file & h1 & fn & h2 & E1 & E2 & C); [lia|].
  rewrite E1. cbn [mbind option_bind]. change (strlen root_name) with (Some 6). cbn [mbind option_bind]. rewrite E2. cbn [mbind option_bind].
  assert (Hlab : cstr [48; 58; 0; 0; 0] [48; 58] /\ bytes [48; 58]).
  { split; [|repeat constructor; lia]. split; [rewrite !not_elem_of_cons; split_and!; try done; apply not_elem_of_nil|by exists [0; 0]]. }
  destruct C as [(Hf & Hn & Hh2 & Hl & Hfresh & Hlive)|(Hz & h3 & h4 & E3 & E4 & Hh4 & Hl)].
  2: { rewrite (proj2 (orb_true_iff _ _)) by (rewrite !Z.eqb_eq; tauto). rewrite E3. cbn [mbind option_bind]. rewrite E4. cbn [mbind option_bind Z.eqb].
       eexists _, _, g. split; [done|]. split; [|split; [done|]; split; [done|by left]].
       apply (tree_ok_volumn (set_heap s h4) g v blank_volumn _ [48; 58]); try done; [|by left|apply Hlab|apply Hlab].
       apply tree_ok_heap; [done|done|]. intros q z _. apply Hl. }
  rewrite (proj2 (Z.eqb_neq file 0) Hf), (proj2 (Z.eqb_neq fn 0) Hn). cbn [orb].
  change (strcpy (replicate (Z.to_nat (6 + FSS_NAME_END_SIZE)) 0) root_name) with (Some root_name). cbn [mbind option_bind Z.eqb].
  rewrite (proj2 (Z.eqb_neq file 0) Hf). cbn [files set_file set_files set_heap]. rewrite lookup_insert_eq. cbn [mbind option_bind].
  assert (Hff : files s !! file = None). { destruct (files s !! file) as [y|] eqn:E; [|done]. destruct Hfresh. by eapply (tk_live _ _ Hk). }
  assert (Hgf : g !! file = None). { destruct (g !! file) as [k|] eqn:E; [|done]. destruct (tk_dom _ _ Hk _ _ E). congruence. }
  eexists _, _, (<[file := n]> g). split; [done|]. split; [|split; [done|]; split; [done|]; right; split; [done|by exists file]].
  assert (Hk1 : tree_ok (set_heap s h2) g) by (apply tree_ok_heap; [done|done|intros q z _; apply Hl]).
  assert (Hk2 : tree_ok (set_vols (set_heap s h2) (<[v := Volumn [48; 58; 0; 0; 0] 0 driver 0]> (vols s)) (vol_list s)) g)
    by (apply (tree_ok_volumn (set_heap s h2) g v blank_volumn _ [48; 58]); try done; [by right|apply Hlab|apply Hlab]).
  set (root := File 0 0 v pr fn root_name FSS_FILE_TYPE_DIR (TDir [] 0)).
  pose proof (tree_ok_fresh _ _ file root n Hk2) as Hk3. cbn in Hk3. rewrite Ec in Hk3.
  assert (Hk3' : tree_ok (set_file (set_vols (set_heap s h2) (<[v := Volumn [48; 58; 0; 0; 0] 0 driver 0]> (vols s)) (vol_list s)) file root) (<[file := n]> g)).
  { apply Hk3; try done; [by intros ?|]. exists (Volumn [48; 58; 0; 0; 0] 0 driver 0). cbn. by rewrite lookup_insert_eq. }
  pose proof (tree_ok_volumn _ _ v (Volumn [48; 58; 0; 0; 0] 0 driver 0) (Volumn [48; 58; 0; 0; 0] file driver 1) [48; 58] Hk3') as Hk4.
  cbn in Hk4. rewrite !lookup_insert_eq, insert_insert_eq in Hk4. unfold set_vols, set_file, set_files. cbn. rewrite insert_insert_eq.
  apply Hk4; [done|by left|apply Hlab|apply Hlab|by intros _].
Qed.

Lemma register_spec s g driver : tree_ok s g ->
  exists s' g', fss_vfs_register s driver = Some s' /\ tree_ok s' g' /\ g ⊆ g' /\
    ((g' = g /\ forall id, volumn_root s' id = volumn_root s id) \/
     exists f n es, g !! f = None /\ g' = <[f := n]> g /\ content n = Some es /\ stands (drv s') driver (fMount (drv s) driver).1 n /\
       forall id, volumn_root s' id = if bool_decide (id = [48; 58]) && negb (named s id) then f else volumn_root s id).
Proof.
  intros Hk. unfold fss_vfs_register. set (s0 := Tree _ _ _ (drv_list s ++ [driver]) _ _).
  assert (Hk0 : tree_ok s0 g) by (split; apply Hk).
  destruct (create_volumn_spec s0 g Hk0) as (v & s1 & E1 & Hk1 & Hf1 & Hd1 & C). rewrite E1. cbn [mbind option_bind].
  destruct C as [(-> & Ev & El)|(Hv & Hvn & Ev & El)].
  { cbn [Z.eqb]. exists s1, g. split_and!; try done. left. split; [done|]. intros id. unfold volumn_root. by rewrite Ev, El. }
  unfold s0 in Hvn, Ev, El. cbn in Hvn, Ev, El. rewrite (proj2 (Z.eqb_neq v 0) Hv). destruct (fMount (drv s1) driver) as [pr d] eqn:Em.
  destruct (fMount_law _ _ _ _ Em) as [Hkeep Hpr]. assert (Hk2 : tree_ok (set_drv s1 d) g) by (by apply tree_ok_drv).
  assert (Hzero : forall x s', root_dir x = 0 -> vols s' = <[v := x]> (vols s) -> vol_list s' = vol_list s ++ [v] ->
    forall id, volumn_root s' id = volumn_root s id).
  { intros x s' Hx Evs Els id. unfold volumn_root at 1. rewrite Evs, Els, (added_root s g), Hx by done.
    destruct (named s id) eqn:En; [by rewrite andb_false_r|]. unfold volumn_root. rewrite (first_root_unnamed _ _ _ En). by destruct (bool_decide _). }
  destruct (Z.eqb_spec pr 0) as [Epr|Epr].
  { eexists _, g. split; [done|]. split_and!; try done. left. split; [done|]. by apply (Hzero blank_volumn). }
  destruct Hpr as [|(n & es & Hst & Ec)]; [done|].
  destruct (tree_init_spec (set_drv s1 d) g v driver pr n es Hk2) as (b & s' & g' & Ei & Hk' & El' & Ed' & C); try done.
  { cbn. by rewrite Ev, lookup_insert_eq. }
  { intros f y. cbn. rewrite Hf1. cbn. intros Hf Hvy. destruct (tk_node _ _ Hk _ _ Hf) as (? & _ & _ & (w & Hw & _) & _). congruence. }
  rewrite Ei. cbn [mbind option_bind]. exists s', g'. split; [done|]. split; [done|]. cbn in El', C. rewrite Ev in C. rewrite El in El'.
  destruct C as [(-> & -> & Ev')|(-> & f & Hgf & -> & Ev')].
  - split; [done|]. rewrite insert_insert_eq in Ev'. left. split; [done|]. by apply (Hzero (Volumn [48; 58; 0; 0; 0] 0 0 0) s').
  - split; [by apply insert_subseteq|]. right. exists f, n, es. cbn in Hd1. rewrite <- Hd1, Em, Ed'. split_and!; try done. intros id.
    unfold volumn_root at 1. rewrite insert_insert_eq in Ev'. rewrite Ev', El'. rewrite (added_root s g) by done. cbn. by rewrite (bool_decide_ext _ (id = [48; 58])).
Qed.

(** ** Where the code fails *)

(** A normal file is searched as if it were a directory: the list of children
    is read from the table of the cache. *)
Theorem lookup_in_file_faults fuel s f x path i w :
  files s !! f = Some x -> t x = TFile -> at_name (drop i path) w ->
  lockup_file_in_this_dir fuel s f path i (i + length w) = Fault.
Proof.
  intros Hx Et Hw. destruct (dots_differ _ _ Hw) as [(r1 & E1 & N1) (r2 & E2 & N2)].
  unfold lockup_file_in_this_dir, get_twice, get_file_by_name. rewrite Hx. cbn [mbind option_bind].
  rewrite E1. cbn [mbind option_bind]. rewrite (proj2 (Z.eqb_neq r1 0) N1), E2. cbn [mbind option_bind]. by rewrite (proj2 (Z.eqb_neq r2 0) N2), Et.
Qed.

(** The root has no parent, and [..] there counts a reference of NULL. *)
Theorem dotdot_at_root_faults fuel s g f x :
  tree_ok s g -> files s !! f = Some x -> parent x = 0 -> lockup_file_in_this_dir fuel s f dotdot 0 2 = Fault.
Proof.
  intros Hk Hx Hp. unfold lockup_file_in_this_dir, get_twice, get_file_by_name. rewrite Hx. cbn [mbind option_bind].
  change (strcmp (drop 0 dotdot) dot) with (Some 1). change (strcmp (drop 0 dotdot) dotdot) with (Some 0). cbn [mbind option_bind Z.eqb].
  unfold inc_ref. by rewrite Hp, (tk_null _ _ Hk).
Qed.

(** A directory whose reading was broken off is not read again: a name it did
    not get to is not found. *)
Theorem broken_import_final fuel s g f x n es c cs fl path i w :
  tree_ok s g -> files s !! f = Some x -> g !! f = Some n -> content n = Some es -> t x = TDir (c :: cs) fl -> at_name (drop i path) w ->
  entry_of w (take (length (c :: cs)) es) = None -> lockup_file_in_this_dir fuel s f path i (i + length w) = Ret (0, s).
Proof.
  intros Hk Hx Hg Ec Et Hw Hm. destruct (get_twice_spec s g f x n es _ fl path i w Hk Hx Hg Ec Et Hw) as (r & s1 & E & _ & Hr).
  rewrite Hm in Hr. destruct Hr as [-> ->]. unfold lockup_file_in_this_dir. rewrite E. cbn [lift mbind run_bind Z.eqb negb]. rewrite Hx. cbn [lift mbind run_bind]. by rewrite Et.
Qed.

Lemma copy_label_overflow path j lab r acc :
  cstr (drop j path) (lab ++ r) -> Forall (fun c => is_sep c = false) lab -> (length acc <= FSS_VOLUMN_LABEL_CHECK_LEN)%nat ->
  (FSS_VOLUMN_LABEL_CHECK_LEN < length acc + length lab)%nat -> copy_label (length lab) path j acc = None.
Proof.
  revert j acc. induction lab as [|c lab IH]; intros j acc Hl Hlab Ha Hn; cbn [copy_label length] in *; [lia|].
  rewrite (head_of _ _ _ Hl). cbn [mbind option_bind app hd]. apply Forall_cons in Hlab as [-> Hlab].
  destruct (Nat.ltb_spec (length acc) FSS_VOLUMN_LABEL_CHECK_LEN); [|done]. apply cstr_step in Hl.
  apply (IH (S j) (acc ++ [c]) Hl Hlab); rewrite length_app; cbn; lia.
Qed.

(** A label of four or five characters is written past the end of [interval]. *)
Theorem label_overflow fuel action s cur path lab c rest :
  cstr path (lab ++ c :: rest) -> Forall (fun c => is_special c = false) lab -> (4 <= length lab <= 5)%nat ->
  is_colon c = true -> ends_name rest = true -> fss_loop_file fuel action s cur path = Fault.
Proof.
  intros Hp Hlab Hn Hc He. unfold fss_loop_file, loop_start. rewrite (head_of path 0 _ Hp). cbn [mbind option_bind].
  destruct lab as [|a lab0] eqn:El; [cbn in Hn; lia|]. rewrite <- El in *. cbn [hd app].
  assert (Ha : a <> 47). { rewrite El in Hlab. apply Forall_cons in Hlab as [Ha _]. intros ->. done. }
  replace (hd 0 (lab ++ c :: rest) =? 47) with false by (rewrite El; symmetry; by apply Z.eqb_neq).
  rewrite (label_scan_spec _ path 0 lab (c :: rest) Hp Hlab) by (intros _; unfold is_special; cbn; rewrite Hc; apply orb_true_r). cbn [mbind option_bind].
  unfold volumn_start. rewrite (ends_label_spec _ path 0 lab (c :: rest) Hp Hlab). cbn [mbind option_bind].
  rewrite Hc, He, (proj2 (Nat.leb_le _ _)) by (unfold FSS_VOLUMN_LABEL_CHECK_LEN; lia). cbn [andb].
  rewrite Nat.min_r by (unfold FSS_VOLUMN_LABEL_CHECK_LEN; lia). unfold volumn_label. cbn [Nat.add].
  assert (Hsep : Forall (fun c => is_sep c = false) (lab ++ [c])).
  { apply Forall_app. split; [by apply special_sep|]. constructor; [|constructor]. unfold is_colon in Hc. apply orb_true_iff in Hc as [->%Z.eqb_eq| ->%Z.eqb_eq]; done. }
  assert (Hp' : cstr (drop 0 path) ((lab ++ [c]) ++ rest)) by (by rewrite <- app_assoc).
  replace (S (length lab)) with (length (lab ++ [c])) by (rewrite length_app; cbn; lia).
  destruct (decide (length lab = 4%nat)) as [E4|E4].
  - rewrite (copy_label_spec path 0 (lab ++ [c]) rest [] Hp' Hsep) by (rewrite length_app; cbn; unfold FSS_VOLUMN_LABEL_CHECK_LEN; lia). cbn [mbind option_bind app].
    rewrite last_snoc. cbn [mbind option_bind]. rewrite length_app, E4. done.
  - rewrite (copy_label_overflow path 0 (lab ++ [c]) rest [] Hp' Hsep); [done|cbn; lia|rewrite length_app; cbn; unfold FSS_VOLUMN_LABEL_CHECK_LEN; lia].
Qed.

(** ** The tree against the file system *)

(** [fss_loop_file] returns, whatever the tree has read so far.  The file
    it returns stands for what the names of the path lead to in the file
    system, from the root of the volume the path begins with or the current
    directory; it returns NULL only if there is no such volume, if the names
    lead to nothing, or if a directory on the way could not be read. *)
Theorem fss_loop_file_correct fuel s g cur path p :
  tree_ok s g -> cstr path p -> bytes p -> label_fits p -> cur = 0 \/ is_Some (files s !! cur) ->
  let d := (start_dir s cur p).1 in let ws := components (start_dir s cur p).2 in
  (forall n, g !! d = Some n -> passable n ws) -> Forall plain ws -> (forall k es, content k = Some es -> (length es < fuel)%nat) ->
  exists r s' g', fss_loop_file fuel None s cur path = Ret (r, s') /\ tree_ok s' g' /\ g ⊆ g' /\
    match g !! d with
    | None => r = 0
    | Some n => (r <> 0 -> exists k, walk n ws = Some k /\ g' !! r = Some k) /\ (r = 0 -> walk n ws = None \/ unread s g n ws)
    end.
Proof.
  intros Hk Hp Hb Hl Hc d ws Hpass Hpl Hfuel. destruct (loop_file_spec fuel s g cur path p Hk Hp Hb Hl Hc Hpass Hpl Hfuel) as (r & s' & g' & E & G & Hr).
  exists r, s', g'. split_and!; [done|apply G|apply G|exact Hr].
Qed.


(** Registering a driver keeps the files.  Every volume is called [0:]: the
    mounted file system is found under that name if no volume had it, and no
    other name changes its meaning. *)
Theorem fss_vfs_register_correct s g driver : tree_ok s g ->
  exists s' g', fss_vfs_register s driver = Some s' /\ tree_ok s' g' /\ g ⊆ g' /\
    ((g' = g /\ forall id, volumn_root s' id = volumn_root s id) \/
     exists f n es, g !! f = None /\ g' = <[f := n]> g /\ content n = Some es /\ stands (drv s') driver (fMount (drv s) driver).1 n /\
       forall id, volumn_root s' id = if bool_decide (id = [48; 58]) && negb (named s id) then f else volumn_root s id).
Proof. apply register_spec. Qed.
End Spec.

(** ** A small file system

    The directory [/bin] with the file [sh], and the file [/readme]. *)

Inductive sample_node := SRoot | SBin | SSh | SReadme.

Definition s_bin : list Z := [98; 105; 110].
Definition s_sh : list Z := [115; 104].
Definition s_readme : list Z := [114; 101; 97; 100; 109; 101].

Definition sample_content (n : sample_node) : option (list (list Z * sample_node)) :=
  match n with
  | SRoot => Some [(s_bin, SBin); (s_readme, SReadme)]
  | SBin => Some [(s_sh, SSh)]
  | _ => None
  end.

Definition code (n : sample_node) : Z := match n with SRoot => 1 | SBin => 2 | SSh => 3 | SReadme => 4 end.
Definition decode (z : Z) : option sample_node :=
  if z =? 1 then Some SRoot else if z =? 2 then Some SBin else if z =? 3 then Some SSh else if z =? 4 then Some SReadme else None.

Lemma decode_code n : decode (code n) = Some n.
Proof. by destruct n. Qed.

Definition sample_record (e : list Z * sample_node) : list Z :=
  replicate 16 0 ++ Z.of_nat (20 + length e.1) :: 0 :: (if sample_content e.2 then 4 else 8) :: e.1 ++ [0].

Definition sample_image (es : list (list Z * sample_node)) : list Z := mjoin (sample_record <$> es).

Definition sample_readdir (pr size : Z) : Z * list Z :=
  match decode pr ≫= sample_content with
  | Some es => let img := sample_image es in if size <? Z.of_nat (length img) then (- EIO, []) else (Z.of_nat (length img), img)
  | None => (- ENOTDIR, [])
  end.

Definition sample_open (pr : Z) (nm : list Z) : Z :=
  match n ← decode pr; es ← sample_content n; entry_of (c_str nm) es with Some m => code m | None => 0 end.

Lemma sample_image_ok es :
  Forall (fun e => 0 ∉ e.1 /\ bytes e.1 /\ (length e.1 < 200)%nat) es -> dir_image sample_content es (sample_image es).
Proof.
  induction 1 as [|[nm m] es (Hz & Hb & Hl) _ IH]; [done|]. cbn [dir_image fst] in *.
  exists (replicate 16 0), (Z.of_nat (20 + length nm)), 0, (if sample_content m then 4 else 8), [], (sample_image es).
  split; [unfold sample_image; cbn [fmap list_fmap mjoin list_join]; unfold sample_record; rewrite <- app_assoc; cbn [fst snd app]; by rewrite <- app_assoc|].
  do 4 (split; [done || (cbn; lia)|]). split; [|done]. destruct m; cbn; split; intros E; try done; by destruct E.
Qed.

Lemma sample_names n es : sample_content n = Some es -> Forall (fun e => 0 ∉ e.1 /\ bytes e.1 /\ (length e.1 < 200)%nat) es.
Proof. unfold bytes. destruct n; intros [= <-]; apply (bool_decide_unpack _); vm_compute; exact I. Qed.

#[local] Instance sample_driver : VfsDriver unit sample_node.
Proof.
  refine {| fMount d dr := (1, d);
            fOpen d dr pr nm := (sample_open pr nm, d);
            fStat d dr pr := (0, 4096, d);
            fReadDir d dr pr size := (sample_readdir pr size, d);
            content := sample_content;
            stands d dr pr n := pr = code n |}.
  - intros d dr pr d' [= <- <-]. split; [done|]. right. exists SRoot. by eexists.
  - intros d dr pr n es nm m s pr' d' -> Ec Hin Hs [= <- <-]. split; [done|]. right. unfold sample_open. rewrite decode_code. cbn. rewrite Ec. cbn.
    rewrite (c_str_eq _ _ Hs). assert (E : entry_of nm es = Some m); [|by rewrite E].
    destruct n; try discriminate Ec; injection Ec as <-; repeat (apply elem_of_cons in Hin as [[= -> ->]|Hin]; [reflexivity|]); by apply not_elem_of_nil in Hin.
  - intros d dr pr n es r size d' _ _ [= <- <- <-]. split; [done|]. lia.
  - intros d dr pr n es size r buf d' -> Ec [= E <-]. split; [done|]. unfold sample_readdir in E. rewrite decode_code in E. cbn in E. rewrite Ec in E.
    destruct (Z.ltb_spec size (Z.of_nat (length (sample_image es)))); injection E as <- <-; [unfold EIO; lia|]. intros _. split; [lia|].
    exists (sample_image es), []. rewrite app_nil_r. split_and!; [done|done|by eapply sample_image_ok, sample_names].
Defined.

#[local] Instance sample_kheap : KernelHeap linear_memory_block := kernel_heap sample_raw.

Definition empty_tree : tree linear_memory_block unit := Tree ∅ ∅ [] [] fs_block tt.
Definition mounted : tree linear_memory_block unit := default empty_tree (fss_vfs_register empty_tree 7).

Lemma mounted_ok : exists g, tree_ok mounted g /\ g !! volumn_root mounted [48; 58] = Some SRoot.
Proof.
  assert (Hk : tree_ok empty_tree ∅).
  { split; cbn; try done; apply fs_block_ok. }
  destruct (register_spec empty_tree ∅ 7 Hk) as (s' & g' & E & Hk' & _ & C). unfold mounted. rewrite E. cbn [default from_option].
  exists g'. split; [done|]. assert (Hr : volumn_root s' [48; 58] <> 0).
  { apply Z.eqb_neq, negb_true_iff. transitivity (match fss_vfs_register empty_tree 7 with Some s => negb (volumn_root s [48; 58] =? 0) | None => false end); [rewrite E; exact eq_refl|vm_compute; reflexivity]. }
  destruct C as [[_ Hid]|(f & n & es & _ & -> & Ec & Hst & Hid)]; [destruct Hr; rewrite Hid; reflexivity|].
  rewrite Hid. cbn. rewrite lookup_insert_eq. by destruct n.
Qed.

Definition sample_path : list Z := [47; 98; 105; 110; 47; 115; 104; 0].

(** [/bin/sh] is found, and the driver has been asked for both directories. *)
Example sample_resolved : exists r s' x, fss_loop_file 3 None mounted 0 sample_path = Ret (r, s') /\ files s' !! r = Some x /\
  c_str (name_str x) = s_sh /\ ref x = 1.
Proof. eexists _, _, _. split; [vm_compute; reflexivity|]. split; [vm_compute; reflexivity|]. by split. Qed.

(** Reading a directory that has its files but not the mark adds them again. *)
Example import_duplicates : exists r s1 x cs fl r2 s2 y cs2 fl2,
  let f := volumn_root mounted [48; 58] in
  import_file 3 mounted f = Ret (r, s1) /\ files s1 !! f = Some x /\ t x = TDir cs fl /\ length cs = 2%nat /\
  import_file 3 (set_file s1 f (set_t x (TDir cs 0))) f = Ret (r2, s2) /\ files s2 !! f = Some y /\ t y = TDir cs2 fl2 /\ length cs2 = 4%nat.
Proof.
  eexists _, _, _, _, _, _, _, _, _, _. cbv zeta. split; [vm_compute; reflexivity|]. split; [vm_compute; reflexivity|]. split; [reflexivity|]. split; [reflexivity|].
  split; [vm_compute; reflexivity|]. split; [vm_compute; reflexivity|]. by split.
Qed.

Lemma sample_fuel : forall (k : sample_node) es, content k = Some es -> (length es < 3)%nat.
Proof. intros k es E. destruct k; try discriminate E; injection E as <-; cbn; lia. Qed.

Lemma sample_path_ok : cstr sample_path [47; 98; 105; 110; 47; 115; 104] /\ bytes [47; 98; 105; 110; 47; 115; 104].
Proof.
  split; [split; [apply (bool_decide_unpack _); vm_compute; exact I|by exists []]|]. unfold bytes. apply (bool_decide_unpack _). vm_compute. exact I.
Qed.

Lemma sample_passable (g : gmap Z sample_node) : g !! volumn_root mounted [48; 58] = Some SRoot ->
  forall n, g !! volumn_root mounted [48; 58] = Some n -> passable n [s_bin; s_sh].
Proof.
  intros Hg n Hn. rewrite Hg in Hn. injection Hn as <-. eexists. split; [reflexivity|]. intros m [= <-].
  eexists. split; [reflexivity|]. done.
Qed.

Lemma fss_loop_file_witness : exists r s', fss_loop_file 3 None mounted 0 sample_path = Ret (r, s') /\ exists g', tree_ok s' g'.
Proof.
  destruct mounted_ok as (g & Hk & Hg). destruct sample_path_ok as [Hp Hb].
  destruct (fss_loop_file_correct 3 mounted g 0 sample_path [47; 98; 105; 110; 47; 115; 104]) as (r & s' & g' & E & Hk' & _).
  - exact Hk.
  - exact Hp.
  - exact Hb.
  - exact I.
  - left. reflexivity.
  - exact (sample_passable g Hg).
  - repeat constructor; discriminate.
  - exact sample_fuel.
  - exists r, s'. split; [exact E|]. exists g'. exact Hk'.
Defined.

