(* ===== verification/Ihash.v ===== *)
(** * The hash table of the threads library

    [source/libs/pthread/ihash.c] and [ihash.h]: open addressing with linear
    probing, deleted slots keep their key.  The items of a table
    are the list of its slots; NULL is the empty list.  What a call does outside
    the table is the list of its [event]s: calls of the cleanup function and
    stores of location pointers.  Whether [malloc] gives memory is an argument.
    [Fault] is an access outside the items. *)

From stdpp Require Import gmap.
From S2P Require Import Prelude.
Local Open Scope c_scope.

Definition HURD_IHASH_EMPTY : Z := 0.
Definition HURD_IHASH_DELETED : Z := ULONG_MAX.
Definition HURD_IHASH_MIN_SIZE : Z := 32.
Definition HURD_IHASH_MAX_LOAD_DEFAULT : Z := 96.
Definition HURD_IHASH_NO_LOCP : Z := - 2147483648.
Definition ENOMEM : Z := 12.

Record hurd_ihash_item := Item { value : Z; key : Z }.

Record hurd_ihash := Ihash {
  nr_items : Z;
  items : list hurd_ihash_item;
  size : Z;
  locp_offset : Z;
  max_load : Z;
  cleanup : bool                                   (* whether there is a function *)
}.

Inductive event := Cleanup (v : Z) | SetLocp (v idx : Z).

Module HashOps.

Definition set_items (ht : hurd_ihash) (n : Z) (l : list hurd_ihash_item) : hurd_ihash :=
  Ihash n l (size ht) (locp_offset ht) (max_load ht) (cleanup ht).

Definition is_empty (v : Z) : bool := (v =? HURD_IHASH_EMPTY) || (v =? HURD_IHASH_DELETED).

Definition index_empty (ht : hurd_ihash) (idx : Z) : option bool :=
  x ← word_at (items ht) idx; Some (is_empty (value x)).

Definition index_valid (ht : hurd_ihash) (idx k : Z) : option bool :=
  x ← word_at (items ht) idx; Some (negb (is_empty (value x)) && (key x =? k)).

(** The test at which a search stops. *)
Definition hit (k : Z) (x : hurd_ihash_item) : bool := (value x =? HURD_IHASH_EMPTY) || (key x =? k).

(** The loop of [find_index] and [add_one]; [None] when it comes back to
    [idx]. *)
Fixpoint probe (fuel : nat) (ht : hurd_ihash) (k mask idx up_idx : Z) : run (option Z) :=
  match fuel with
  | O => NoFuel
  | S fuel =>
    let up_idx := Z.land (up_idx +w 1) mask in
    x ← lift (word_at (items ht) up_idx);
    if hit k x then Ret (Some up_idx) else
    if negb (up_idx =? idx) then probe fuel ht k mask idx up_idx else Ret None
  end.

Definition probe_fuel (ht : hurd_ihash) : nat := length (items ht).

(** The slot at which the search for a key ends. *)
Definition search (ht : hurd_ihash) (k : Z) : run Z :=
  let mask := size ht -w 1 in
  let idx := Z.land k mask in
  x ← lift (word_at (items ht) idx);
  if hit k x then Ret idx else
  r ← probe (probe_fuel ht) ht k mask idx idx;
  Ret (default idx r).

Definition find_index (ht : hurd_ihash) (k : Z) : run Z := search ht k.

Definition locp_remove (ht : hurd_ihash) (idx : Z) : option (hurd_ihash * list event) :=
  x ← word_at (items ht) idx;
  l ← word_set (items ht) idx (Item HURD_IHASH_DELETED (key x));
  Some (set_items ht (nr_items ht -w 1) l, if cleanup ht then [Cleanup (value x)] else []).

Definition hurd_ihash_init (locp_offs : Z) : hurd_ihash :=
  Ihash 0 [] 0 locp_offs HURD_IHASH_MAX_LOAD_DEFAULT false.

Definition hurd_ihash_create (malloc : bool) (locp_offs : Z) : Z * option hurd_ihash :=
  if malloc then (0, Some (hurd_ihash_init locp_offs)) else (ENOMEM, None).

(** The iteration stores the address of the items through a NULL pointer
    before its first round. *)
Definition hurd_ihash_destroy (ht : hurd_ihash) : option unit :=
  if cleanup ht then None else Some tt.

Definition hurd_ihash_set_cleanup (ht : hurd_ihash) (c : bool) : hurd_ihash :=
  Ihash (nr_items ht) (items ht) (size ht) (locp_offset ht) (max_load ht) c.

Definition hurd_ihash_set_max_load (ht : hurd_ihash) (load : Z) : hurd_ihash :=
  Ihash (nr_items ht) (items ht) (size ht) (locp_offset ht) load (cleanup ht).

(** The size is a power of two, [__builtin_ctzl] its logarithm. *)
Definition hurd_ihash_get_load (ht : hurd_ihash) : Z :=
  let d := Z.log2 (size ht) - 7 in
  if 0 <=? d then Z.shiftr (nr_items ht) d else wrap (Z.shiftl (nr_items ht) (- d)).

(** From [if (index_empty (ht, first_free))] on. *)
Definition store_item (ht : hurd_ihash) (first_free k v : Z) : option (Z * hurd_ihash * list event) :=
  e ← index_empty ht first_free;
  if (e : bool) then
    l ← word_set (items ht) first_free (Item v k);
    Some (1, set_items ht (nr_items ht +w 1) l,
          if locp_offset ht =? HURD_IHASH_NO_LOCP then [] else [SetLocp v first_free])
  else Some (0, ht, []).

Definition add_one (ht : hurd_ihash) (k v : Z) : run (Z * hurd_ihash * list event) :=
  let first_free := Z.land k (size ht -w 1) in
  idx ← search ht k;
  b ← lift (index_valid ht idx k);
  '(ht, ev) ← lift (if (b : bool) then locp_remove ht idx else Some (ht, []));
  e ← lift (index_empty ht first_free);
  let first_free := if (e : bool) then first_free else idx in
  '(r, ht, ev') ← lift (store_item ht first_free k v);
  Ret (r, ht, ev ++ ev').

(** The loop over the old items, false when one could not be added. *)
Fixpoint rehash (old : list hurd_ihash_item) (ht : hurd_ihash) (ev : list event) : run (bool * hurd_ihash * list event) :=
  match old with
  | [] => Ret (true, ht, ev)
  | x :: old =>
    if is_empty (value x) then rehash old ht ev else
    '(was_added, ht, ev') ← add_one ht (key x) (value x);
    if was_added =? 0 then Ret (false, ht, ev ++ ev') else rehash old ht (ev ++ ev')
  end.

(** From [The hash table is too small] on. *)
Definition grow_and_add (malloc : bool) (old_ht : hurd_ihash) (k item : Z) : run (Z * hurd_ihash * list event) :=
  let size := if size old_ht =? 0 then HURD_IHASH_MIN_SIZE else wrap (Z.shiftl (size old_ht) 1) in
  if negb malloc then Ret (ENOMEM, old_ht, []) else
  let ht := Ihash 0 (replicate (Z.to_nat size) (Item 0 0)) size (locp_offset old_ht) (max_load old_ht) (cleanup old_ht) in
  let err ht ev := Ret (ENOMEM, set_items ht (nr_items ht) [], ev) in
  '(ok, ht, ev) ← rehash (items old_ht) ht [];
  if negb ok then err ht ev else
  '(was_added, ht, ev') ← add_one ht k item;
  if was_added =? 0 then err ht (ev ++ ev') else Ret (0, ht, ev ++ ev').

Definition hurd_ihash_add (malloc : bool) (ht : hurd_ihash) (k item : Z) : run (Z * hurd_ihash * list event) :=
  if negb (size ht =? 0) && (hurd_ihash_get_load ht <=? max_load ht) then
    '(r, ht', ev) ← add_one ht k item;
    if negb (r =? 0) then Ret (0, ht', ev) else
    '(r, ht2, ev2) ← grow_and_add malloc (set_items ht (nr_items ht) (items ht')) k item; Ret (r, ht2, ev ++ ev2)
  else grow_and_add malloc ht k item.

Definition hurd_ihash_find (ht : hurd_ihash) (k : Z) : run Z :=
  if size ht =? 0 then Ret 0 else
  idx ← find_index ht k;
  b ← lift (index_valid ht idx k);
  if (b : bool) then x ← lift (word_at (items ht) idx); Ret (value x) else Ret 0.

Definition hurd_ihash_remove (ht : hurd_ihash) (k : Z) : run (Z * hurd_ihash * list event) :=
  if size ht =? 0 then Ret (0, ht, []) else
  idx ← find_index ht k;
  b ← lift (index_valid ht idx k);
  if (b : bool) then '(ht, ev) ← lift (locp_remove ht idx); Ret (1, ht, ev) else Ret (0, ht, []).

Definition hurd_ihash_locp_remove (ht : hurd_ihash) (idx : Z) : option (hurd_ihash * list event) := locp_remove ht idx.

End HashOps.
Import HashOps.

(** ** The table as a map *)

(** The slot [j] steps behind the home of [k] does not stop the search. *)
Definition miss (l : list hurd_ihash_item) (k j : Z) : Prop :=
  exists y, word_at l ((k + j) mod Z.of_nat (length l)) = Some y /\ hit k y = false.

Definition reach (l : list hurd_ihash_item) (k i : Z) : Prop :=
  exists d, 0 <= d < Z.of_nat (length l) /\ i = (k + d) mod Z.of_nat (length l) /\ forall j, 0 <= j < d -> miss l k j.

Record tab_ok (l : list hurd_ihash_item) (m : gmap Z Z) : Prop := {
  to_len : exists e, 0 <= e <= 30 /\ Z.of_nat (length l) = 2 ^ e;
  to_item : forall i x, word_at l i = Some x -> is_empty (value x) = false ->
    is_word (key x) /\ m !! key x = Some (value x) /\ reach l (key x) i;
  to_key : forall k v, m !! k = Some v -> exists i x, word_at l i = Some x /\ key x = k /\ value x = v /\ is_empty v = false
}.

Definition hash_ok (ht : hurd_ihash) (m : gmap Z Z) : Prop :=
  nr_items ht = Z.of_nat (base.size m) /\ size ht = Z.of_nat (length (items ht)) /\
  (items ht = [] /\ m = ∅ \/ tab_ok (items ht) m).

Lemma to_pos l m : tab_ok l m -> 0 < Z.of_nat (length l) <= 2 ^ 30.
Proof. intros Hk. destruct (to_len _ _ Hk) as (e & He & ->). split; [apply Z.pow_pos_nonneg; lia|apply Z.pow_le_mono_r; lia]. Qed.

Lemma slot_range k j n : 0 < n -> 0 <= (k + j) mod n < n.
Proof. intros. by apply Z.mod_pos_bound. Qed.

(** Slots at different distances are different. *)
Lemma slot_inj k a b n : 0 <= a < n -> 0 <= b < n -> (k + a) mod n = (k + b) mod n -> a = b.
Proof.
  intros Ha Hb E. pose proof (Z.div_mod (k + a) n ltac:(lia)) as E1. pose proof (Z.div_mod (k + b) n ltac:(lia)) as E2.
  rewrite E in E1. assert (Hd : a - b = n * ((k + a) / n - (k + b) / n)) by lia. revert Hd. generalize ((k + a) / n - (k + b) / n). intros q Hd.
  assert (q = 0) as -> by nia. lia.
Qed.

Lemma slot_next k d n : 0 < n -> ((k + d) mod n + 1) mod n = (k + (d + 1)) mod n.
Proof. intros. rewrite Z.add_mod_idemp_l by lia. f_equal. lia. Qed.

Lemma slot_home k n : (k + 0) mod n = k mod n.
Proof. by rewrite Z.add_0_r. Qed.

(** Two items with one key are in one slot. *)
Lemma tab_unique l m i x j y :
  tab_ok l m -> word_at l i = Some x -> is_empty (value x) = false -> word_at l j = Some y -> is_empty (value y) = false ->
  key x = key y -> i = j.
Proof.
  intros Hk Hx Ex Hy Ey E. destruct (to_item _ _ Hk _ _ Hx Ex) as (_ & _ & d1 & Hd1 & E1 & M1).
  destruct (to_item _ _ Hk _ _ Hy Ey) as (_ & _ & d2 & Hd2 & E2 & M2). rewrite E in *.
  assert (Hhit : forall d z, word_at l ((key y + d) mod Z.of_nat (length l)) = Some z -> key z = key y -> ~ miss l (key y) d).
  { intros d z Hz Ez (w & Hw & Hm). rewrite Hz in Hw. injection Hw as <-. unfold hit in Hm. rewrite Ez, Z.eqb_refl, orb_true_r in Hm. done. }
  destruct (Z.lt_trichotomy d1 d2) as [Hlt|[->|Hlt]]; [|congruence|].
  - destruct (Hhit d1 x); [by rewrite <- E1|done|apply M2; lia].
  - destruct (Hhit d2 y); [by rewrite <- E2|done|apply M1; lia].
Qed.

(** Changes of one slot that keep a search going keep all searches. *)
Lemma miss_insert l k i j z :
  0 <= i < Z.of_nat (length l) -> (i = (k + j) mod Z.of_nat (length l) -> hit k z = false) -> miss l k j -> miss (<[Z.to_nat i := z]> l) k j.
Proof.
  intros Hi Hz (y & Hy & Hh). unfold miss. rewrite length_insert, word_at_insert by done. destruct (Z.eqb_spec i ((k + j) mod Z.of_nat (length l))) as [E|E].
  - exists z. split; [done|by apply Hz].
  - by exists y.
Qed.

Lemma reach_insert l k i c z :
  0 <= i < Z.of_nat (length l) -> (i <> c -> hit k z = false) -> reach l k c -> reach (<[Z.to_nat i := z]> l) k c.
Proof.
  intros Hi Hz (d & Hd & -> & Hm). exists d. rewrite length_insert. split_and!; [lia|lia|done|]. intros j Hj. apply miss_insert; [done| |by apply Hm].
  intros ->. apply Hz. intros E. apply slot_inj in E; lia.
Qed.

Lemma tab_delete l m i x :
  tab_ok l m -> word_at l i = Some x -> is_empty (value x) = false ->
  tab_ok (<[Z.to_nat i := Item HURD_IHASH_DELETED (key x)]> l) (delete (key x) m).
Proof.
  intros Hk Hx Ex. apply word_at_bound in Hx as Hi. split.
  - rewrite length_insert. apply (to_len _ _ Hk).
  - intros j y. rewrite word_at_insert by done. destruct (Z.eqb_spec i j) as [->|Hne]; [by intros [= <-]|]. intros Hy Ey.
    destruct (to_item _ _ Hk _ _ Hy Ey) as (Hw & Hm & Hr). split; [done|].
    assert (Hkey : key y <> key x) by (intros E; apply Hne; by eapply tab_unique).
    split; [by rewrite lookup_delete_ne by congruence|]. apply reach_insert; [done|intros _|done].
    unfold hit. cbn. by apply Z.eqb_neq.
  - intros k v. rewrite lookup_delete_Some. intros [Hne Hm]. destruct (to_key _ _ Hk _ _ Hm) as (j & y & Hy & <- & <- & Ey).
    exists j, y. rewrite word_at_insert by done. destruct (Z.eqb_spec i j) as [->|_]; [congruence|done].
Qed.

Lemma tab_put l m i x k v :
  tab_ok l m -> word_at l i = Some x -> is_empty (value x) = true -> is_empty v = false -> is_word k -> m !! k = None -> reach l k i ->
  tab_ok (<[Z.to_nat i := Item v k]> l) (<[k := v]> m).
Proof.
  intros Hk Hx Ex Ev Hw Hm Hr. apply word_at_bound in Hx as Hi. split.
  - rewrite length_insert. apply (to_len _ _ Hk).
  - intros j y. rewrite word_at_insert by done. destruct (Z.eqb_spec i j) as [<-|Hne].
    + intros [= <-] _. cbn. split; [done|]. rewrite lookup_insert_eq. split; [done|]. by apply reach_insert.
    + intros Hy Ey. destruct (to_item _ _ Hk _ _ Hy Ey) as (Hwy & Hmy & Hry). split; [done|].
      assert (Hkey : k <> key y) by congruence. split; [by rewrite lookup_insert_ne|]. apply reach_insert; [done|intros _|done].
      unfold hit. cbn. unfold is_empty in Ev. apply orb_false_iff in Ev as [-> _]. by apply Z.eqb_neq.
  - intros k' v'. rewrite lookup_insert_Some. intros [[<- <-]|[Hne Hm']].
    + exists i, (Item v k). by rewrite word_at_insert, Z.eqb_refl by done.
    + destruct (to_key _ _ Hk _ _ Hm') as (j & y & Hy & <- & <- & Ey). exists j, y. rewrite word_at_insert by done.
      destruct (Z.eqb_spec i j) as [->|_]; [congruence|done].
Qed.

(** ** Searching *)

Lemma mask_mod k e n : 0 <= e <= 30 -> n = 2 ^ e -> Z.land k (n -w 1) = k mod n.
Proof.
  intros He ->. assert (H1 : 0 < 2 ^ e) by (apply Z.pow_pos_nonneg; lia). assert (H2 : 2 ^ e <= 2 ^ 30) by (apply Z.pow_le_mono_r; lia).
  rewrite wrap_small by (unfold is_word; lia). replace (2 ^ e - 1) with (Z.ones e) by (rewrite Z.ones_equiv; lia). by rewrite Z.land_ones by lia.
Qed.

Lemma probe_spec fuel ht m k d :
  tab_ok (items ht) m -> let l := items ht in let n := Z.of_nat (length l) in
  0 <= d < n -> (forall j, 0 <= j <= d -> miss l k j) -> n - d <= Z.of_nat fuel ->
  exists r, probe fuel ht k (n -w 1) (k mod n) ((k + d) mod n) = Ret r /\
    match r with
    | Some i => exists c x, 0 <= c < n /\ i = (k + c) mod n /\ word_at l i = Some x /\ hit k x = true /\ forall j, 0 <= j < c -> miss l k j
    | None => forall j, 0 <= j < n -> miss l k j
    end.
Proof.
  intros Hk l n. pose proof (to_pos _ _ Hk) as Hn. fold l in Hn. fold n in Hn. destruct (to_len _ _ Hk) as (e & He & Hlen). fold l in Hlen. fold n in Hlen.
  revert d. induction fuel as [|fuel IH]; intros d Hd Hm Hf; [lia|]. cbn [probe]. fold l.
  assert (Eup : Z.land ((k + d) mod n +w 1) (n -w 1) = (k + (d + 1)) mod n).
  { pose proof (slot_range k d n ltac:(lia)). rewrite (wrap_small ((k + d) mod n + 1)) by (unfold is_word; lia).
    rewrite (mask_mod _ e n He Hlen). apply slot_next. lia. }
  rewrite Eup. destruct (decide (d + 1 = n)) as [Ed|Ed].
  - assert (E0 : (k + (d + 1)) mod n = (k + 0) mod n) by (rewrite Ed, <- Zplus_mod_idemp_r, Z_mod_same_full; done). rewrite E0.
    destruct (Hm 0 ltac:(lia)) as (y & Hy & Hh). fold n in Hy. rewrite Hy. cbn [lift mbind run_bind]. rewrite Hh, slot_home, Z.eqb_refl. cbn [negb].
    exists None. split; [done|]. intros j Hj. apply Hm. lia.
  - destruct (word_at_Some l ((k + (d + 1)) mod n)) as [x Hx]; [apply slot_range; lia|]. rewrite Hx. cbn [lift mbind run_bind].
    destruct (hit k x) eqn:Hh.
    + eexists. split; [done|]. exists (d + 1), x. split_and!; try done; try lia. intros j Hj. apply Hm. lia.
    + assert (Hne : (k + (d + 1)) mod n <> k mod n). { rewrite <- (slot_home k n). intros E. apply slot_inj in E; lia. }
      rewrite (proj2 (Z.eqb_neq _ _) Hne). cbn [negb]. apply IH; [lia| |lia].
      intros j Hj. destruct (decide (j = d + 1)) as [->|]; [by exists x|apply Hm; lia].
Qed.

(** Where a search ends: at the first slot that stops it, or, when there is
    none, at home. *)
Lemma hash_search_spec ht m k :
  tab_ok (items ht) m -> size ht = Z.of_nat (length (items ht)) -> let l := items ht in let n := Z.of_nat (length l) in
  exists i x, search ht k = Ret i /\ word_at l i = Some x /\
    ((hit k x = true /\ reach l k i) \/ (i = k mod n /\ forall j, 0 <= j < n -> miss l k j)).
Proof.
  intros Hk Hs l n. pose proof (to_pos _ _ Hk) as Hn. destruct (to_len _ _ Hk) as (e & He & Hlen). unfold search. rewrite Hs. fold l in Hn, Hlen |- *. fold n in Hn, Hlen |- *.
  rewrite (mask_mod k e n He Hlen). destruct (word_at_Some l (k mod n)) as [x Hx]; [rewrite <- (slot_home k n); apply slot_range; lia|].
  rewrite Hx. cbn [lift mbind run_bind]. destruct (hit k x) eqn:Hh.
  - exists (k mod n), x. split_and!; try done. left. split; [done|]. exists 0. rewrite slot_home. split_and!; try done; try lia.
  - assert (Hm0 : forall j, 0 <= j <= 0 -> miss l k j) by (intros j Hj; assert (j = 0) as -> by lia; exists x; by rewrite slot_home).
    destruct (probe_spec (probe_fuel ht) ht m k 0 Hk) as (r & Er & Hr); fold l; fold n; [lia|exact Hm0|unfold probe_fuel; fold l; unfold n; lia|].
    fold l in Er. fold n in Er. rewrite slot_home in Er. rewrite Er. cbn [mbind run_bind]. destruct r as [i|]; cbn [default from_option].
    + destruct Hr as (c & y & Hc & -> & Hy & Hhy & Hm). eexists _, y. split_and!; try done. left. split; [done|]. by exists c.
    + exists (k mod n), x. split_and!; try done. by right.
Qed.

(** A search for an absent key does not end at an item. *)
Lemma search_item ht m k i x :
  tab_ok (items ht) m -> word_at (items ht) i = Some x ->
  ((hit k x = true /\ reach (items ht) k i) \/ forall j, 0 <= j < Z.of_nat (length (items ht)) -> miss (items ht) k j) ->
  m !! k = if negb (is_empty (value x)) && (key x =? k) then Some (value x) else None.
Proof.
  intros Hk Hx C. destruct (negb (is_empty (value x)) && (key x =? k)) eqn:E.
  - apply andb_true_iff in E as [E1%negb_true_iff <-%Z.eqb_eq]. by apply (to_item _ _ Hk _ _ Hx E1).
  - destruct (m !! k) as [v|] eqn:Em; [exfalso|done]. destruct (to_key _ _ Hk _ _ Em) as (j & y & Hy & <- & <- & Ey).
    destruct (to_item _ _ Hk _ _ Hy Ey) as (_ & _ & d & Hd & -> & Hm).
    assert (Hhit : hit (key y) y = true) by (unfold hit; by rewrite Z.eqb_refl, orb_true_r).
    assert (Hno : ~ miss (items ht) (key y) d) by (intros (z & Hz & Hh); congruence).
    destruct C as [(Hh & c & Hc & -> & Hmc)|Hm']; [|by apply Hno, Hm'].
    assert (Hnc : ~ miss (items ht) (key y) c) by (intros (z & Hz & Hhz); congruence).
    destruct (Z.lt_trichotomy c d) as [Hlt|[->|Hlt]]; [apply Hnc, Hm; lia| |apply Hno, Hmc; lia].
    rewrite Hx in Hy. injection Hy as ->. rewrite Ey, Z.eqb_refl in E. done.
Qed.

(** ** Adding *)

Definition same_config (ht ht' : hurd_ihash) : Prop :=
  size ht' = size ht /\ length (items ht') = length (items ht) /\ locp_offset ht' = locp_offset ht /\ max_load ht' = max_load ht /\ cleanup ht' = cleanup ht.

Definition cleanups (ev : list event) : list Z := omap (fun e => match e with Cleanup v => Some v | SetLocp _ _ => None end) ev.

Definition no_deleted (l : list hurd_ihash_item) : Prop := forall i x, word_at l i = Some x -> value x <> HURD_IHASH_DELETED.

(** There are at least as many slots as keys. *)
Lemma tab_size l m : tab_ok l m -> (base.size m <= length l)%nat.
Proof.
  intros Hk. rewrite <- length_map_to_list, <- (length_fmap fst), <- (length_fmap key l). apply submseteq_length, NoDup_submseteq; [apply NoDup_fst_map_to_list|].
  intros k ([k' v] & -> & Hv%elem_of_map_to_list)%list_elem_of_fmap. cbn [fst].
  destruct (to_key _ _ Hk _ _ Hv) as (i & x & Hx & <- & _). apply list_elem_of_fmap. exists x. split; [done|].
  unfold word_at in Hx. destruct (0 <=? i); [|done]. by eapply list_elem_of_lookup_2.
Qed.

(** The second half of [add_one]: the search ended at [i], and the key has no
    item any more. *)
Lemma hash_place_spec ht m k v i z :
  tab_ok (items ht) m -> size ht = Z.of_nat (length (items ht)) -> nr_items ht = Z.of_nat (base.size m) -> is_word k -> is_empty v = false -> m !! k = None ->
  let n := Z.of_nat (length (items ht)) in
  word_at (items ht) i = Some z -> (is_empty (value z) = true /\ reach (items ht) k i) \/ i = k mod n ->
  exists r ht' ev f, (e ← lift (index_empty ht (Z.land k (size ht -w 1))); lift (store_item ht (if (e : bool) then Z.land k (size ht -w 1) else i) k v)) = Ret (r, ht', ev) /\
    ((r = 1 /\ ht' = set_items ht (nr_items ht + 1) (<[Z.to_nat f := Item v k]> (items ht)) /\ 0 <= f < n /\ tab_ok (items ht') (<[k := v]> m) /\ cleanups ev = []) \/
     (r = 0 /\ ht' = ht /\ ev = [] /\ is_empty (value z) = false)).
Proof.
  intros Hk Hs Hnr Hw Hv Hm n Hz C. pose proof (to_pos _ _ Hk) as Hn. destruct (to_len _ _ Hk) as (e & He & Hlen). pose proof (tab_size _ _ Hk) as Hle.
  rewrite Hs, (mask_mod k e _ He Hlen). fold n in Hn, Hlen |- *.
  assert (Hput : forall f y, word_at (items ht) f = Some y -> is_empty (value y) = true -> reach (items ht) k f ->
    exists ev, store_item ht f k v = Some (1, set_items ht (nr_items ht + 1) (<[Z.to_nat f := Item v k]> (items ht)), ev) /\ 0 <= f < n /\
      tab_ok (<[Z.to_nat f := Item v k]> (items ht)) (<[k := v]> m) /\ cleanups ev = []).
  { intros f y Hy Ey Hr. apply word_at_bound in Hy as Hf. unfold store_item, index_empty. rewrite Hy. cbn [mbind option_bind]. rewrite Ey, word_at_set by done. cbn [mbind option_bind].
    rewrite (wrap_small (nr_items ht + 1)) by (unfold is_word; lia). eexists. split; [done|]. split; [done|]. split; [by eapply tab_put|]. by destruct (locp_offset ht =? HURD_IHASH_NO_LOCP). }
  destruct (word_at_Some (items ht) (k mod n)) as [y Hy]; [rewrite <- (slot_home k n); apply slot_range; lia|].
  unfold index_empty. rewrite Hy. cbn [mbind option_bind lift run_bind]. destruct (is_empty (value y)) eqn:Ey.
  - destruct (Hput _ _ Hy Ey) as (ev & E & Hf & Ht & Hc).
    { exists 0. fold n. rewrite slot_home. split_and!; try done; lia. }
    rewrite E. cbn [lift]. eexists _, _, ev, (k mod n). split; [done|]. left. done.
  - destruct C as [[Ez Hr]| ->].
    + destruct (Hput _ _ Hz Ez Hr) as (ev & E & Hf & Ht & Hc). rewrite E. cbn [lift]. eexists _, _, ev, i. split; [done|]. left. done.
    + unfold store_item, index_empty. rewrite Hy. cbn [mbind option_bind]. rewrite Ey. cbn [lift]. eexists 0, ht, [], 0. split; [done|]. right. rewrite Hy in Hz. by injection Hz as <-.
Qed.

Lemma add_one_spec ht m k v :
  tab_ok (items ht) m -> size ht = Z.of_nat (length (items ht)) -> nr_items ht = Z.of_nat (base.size m) -> is_word k -> is_empty v = false ->
  exists r ht' ev, add_one ht k v = Ret (r, ht', ev) /\
    ((r = 1 /\ same_config ht ht' /\ nr_items ht' = Z.of_nat (base.size (<[k := v]> m)) /\ tab_ok (items ht') (<[k := v]> m) /\
      cleanups ev = match m !! k with Some w => if cleanup ht then [w] else [] | None => [] end /\
      (m !! k = None -> no_deleted (items ht) -> no_deleted (items ht'))) \/
     (r = 0 /\ ht' = ht /\ ev = [] /\ m !! k = None /\ forall j, 0 <= j < Z.of_nat (length (items ht)) -> miss (items ht) k j)).
Proof.
  intros Hk Hs Hnr Hw Hv. pose proof (to_pos _ _ Hk) as Hn. pose proof (tab_size _ _ Hk) as Hle.
  destruct (hash_search_spec ht m k Hk Hs) as (i & x & Ei & Hx & C). unfold add_one. rewrite Ei. cbn [mbind run_bind].
  unfold index_valid. rewrite Hx. cbn [mbind option_bind lift run_bind].
  assert (Hmk := search_item ht m k i x Hk Hx ltac:(tauto)).
  destruct (negb (is_empty (value x)) && (key x =? k)) eqn:Eb.
  - apply andb_true_iff in Eb as [Ex%negb_true_iff Ek%Z.eqb_eq]. subst k.
    assert (Hr : reach (items ht) (key x) i) by (by apply (to_item _ _ Hk _ _ Hx Ex)).
    apply word_at_bound in Hx as Hi. unfold locp_remove. rewrite Hx. cbn [mbind option_bind]. rewrite word_at_set by done. cbn [mbind option_bind lift run_bind].
    pose proof (tab_delete _ _ _ _ Hk Hx Ex) as Hk1. set (l1 := <[Z.to_nat i := Item HURD_IHASH_DELETED (key x)]> (items ht)) in *.
    assert (Hsz : Z.of_nat (base.size m) = Z.of_nat (base.size (delete (key x) m)) + 1).
    { rewrite (map_size_delete_Some (key x) m) by (by exists (value x)). assert (base.size m <> 0%nat); [|lia]. intros E%map_size_empty_inv. by rewrite E in Hmk. }
    set (ht1 := set_items ht (nr_items ht -w 1) l1).
    assert (Hlen1 : length l1 = length (items ht)) by apply length_insert.
    destruct (hash_place_spec ht1 (delete (key x) m) (key x) v i (Item HURD_IHASH_DELETED (key x))) as (r & ht' & ev & f & E & [(-> & -> & Hf & Ht & Hc)|(_ & _ & _ & Hz)]); try done.
    + cbn. by rewrite Hlen1.
    + cbn. rewrite wrap_small by (unfold is_word; lia). lia.
    + apply lookup_delete_eq.
    + cbn. unfold l1. by rewrite word_at_insert, Z.eqb_refl.
    + left. split; [done|]. cbn. apply reach_insert; [done|congruence|done].
    + destruct (index_empty ht1 _) as [e|]; [|done]. cbn [lift mbind run_bind] in E |- *. change (size ht1) with (size ht) in E. rewrite E. cbn [lift mbind run_bind].
      eexists _, _, _. split; [done|]. left. split; [done|]. split; [by split_and!; try done; cbn; rewrite length_insert|]. cbn in Ht. rewrite insert_delete_eq in Ht.
      split; [cbn; rewrite map_size_insert_Some by (by exists (value x)); rewrite wrap_small by (unfold is_word; lia); lia|].
      split; [done|]. split; [|congruence]. rewrite Hmk. unfold cleanups in *. rewrite omap_app, Hc, app_nil_r. by destruct (cleanup ht).
  - cbn [lift mbind run_bind]. destruct (hash_place_spec ht m k v i x) as (r & ht' & ev & f & E & C'); try done.
    + destruct C as [[Hh Hr]|[-> _]]; [left|by right]. split; [|done]. unfold hit in Hh. unfold is_empty in *. destruct (value x =? HURD_IHASH_EMPTY); [done|]. cbn in *. rewrite Hh, andb_true_r in Eb. by apply negb_false_iff in Eb.
    + destruct (index_empty ht _) as [e|]; [|done]. cbn [lift mbind run_bind] in E |- *. rewrite E. cbn [lift mbind run_bind app].
      eexists _, _, _. split; [done|]. destruct C' as [(-> & -> & Hf & Ht & Hc)|(-> & -> & -> & Hz)].
      * left. split; [done|]. split; [by split_and!; try done; cbn; rewrite length_insert|].
        split; [cbn; rewrite map_size_insert_None by done; lia|]. split; [done|]. split; [by rewrite Hmk|].
        intros _ Hnd j y. cbn. rewrite word_at_insert by done. destruct (Z.eqb_spec f j); [|apply Hnd]. intros [= <-]. cbn.
        unfold is_empty in Hv. apply orb_false_iff in Hv as [_ Hv]. by apply Z.eqb_neq in Hv.
      * right. split_and!; try done. destruct C as [[Hh _]|[_ Hm]]; [|done]. exfalso. unfold hit in Hh. unfold is_empty in *.
        apply orb_false_iff in Hz as [Hz1 Hz2]. rewrite Hz1, Hz2 in *. cbn in *. by rewrite Hh in Eb.
Qed.

(** A table without deleted slots that stops no search is full. *)
Lemma full_size l m k :
  tab_ok l m -> no_deleted l -> (forall j, 0 <= j < Z.of_nat (length l) -> miss l k j) -> (length l <= base.size m)%nat.
Proof.
  intros Hk Hnd Hm. pose proof (to_pos _ _ Hk) as Hn. set (n := Z.of_nat (length l)) in *.
  assert (Hocc : forall a x, l !! a = Some x -> is_empty (value x) = false).
  { intros a x Hx. apply lookup_lt_Some in Hx as Ha. destruct (Hm ((Z.of_nat a - k) mod n)) as (y & Hy & Hh); [apply Z.mod_pos_bound; lia|].
    rewrite Z.add_mod_idemp_r in Hy by lia. replace (k + (Z.of_nat a - k)) with (Z.of_nat a) in Hy by lia. rewrite Z.mod_small in Hy by lia.
    assert (Hx' : word_at l (Z.of_nat a) = Some x) by (unfold word_at; rewrite (proj2 (Z.leb_le 0 _)) by lia; by rewrite Nat2Z.id).
    rewrite Hx' in Hy. injection Hy as <-. specialize (Hnd _ _ Hx'). unfold hit, is_empty in *. apply orb_false_iff in Hh as [-> _]. by apply Z.eqb_neq. }
  assert (Hat : forall a x, l !! a = Some x -> word_at l (Z.of_nat a) = Some x).
  { intros a x Hx. unfold word_at. rewrite (proj2 (Z.leb_le 0 _)) by lia. by rewrite Nat2Z.id. }
  rewrite <- (length_fmap key l), <- length_map_to_list, <- (length_fmap fst (map_to_list m)). apply submseteq_length, NoDup_submseteq.
  - apply NoDup_alt. intros a b q (x & Eq & Hx)%list_lookup_fmap_Some (y & Ey & Hy)%list_lookup_fmap_Some.
    assert (Z.of_nat a = Z.of_nat b); [|lia]. eapply (tab_unique l m); [exact Hk|by apply Hat|by eapply Hocc|by apply Hat|by eapply Hocc|congruence].
  - intros q (x & -> & (a & Hx)%list_elem_of_lookup)%list_elem_of_fmap. destruct (to_item _ _ Hk _ _ (Hat _ _ Hx) (Hocc _ _ Hx)) as (_ & Hmx & _).
    apply list_elem_of_fmap. exists (key x, value x). split; [done|]. by apply elem_of_map_to_list.
Qed.

Lemma tab_fresh e : 0 <= e <= 30 -> tab_ok (replicate (Z.to_nat (2 ^ e)) (Item 0 0)) ∅.
Proof.
  intros He. assert (0 < 2 ^ e) by (apply Z.pow_pos_nonneg; lia). split; [|intros i x Hx|done].
  - exists e. rewrite length_replicate. split; lia.
  - unfold word_at in Hx. destruct (0 <=? i); [|done]. apply lookup_replicate in Hx as [-> _]. done.
Qed.

(** What the items before a position hold. *)
Definition holds (l : list hurd_ihash_item) (k v : Z) : Prop := Item v k ∈ l /\ is_empty v = false.

Lemma elem_word_at (l : list hurd_ihash_item) x : x ∈ l <-> exists i, word_at l i = Some x.
Proof.
  rewrite list_elem_of_lookup. unfold word_at. split.
  - intros [a Ha]. exists (Z.of_nat a). rewrite (proj2 (Z.leb_le 0 _)) by lia. by rewrite Nat2Z.id.
  - intros [i Hi]. destruct (0 <=? i); [|done]. by eexists.
Qed.

Lemma tab_holds l m : tab_ok l m -> forall k v, m !! k = Some v <-> holds l k v.
Proof.
  intros Hk k v. unfold holds. rewrite elem_word_at. split.
  - intros Hm. destruct (to_key _ _ Hk _ _ Hm) as (i & [v' k'] & Hx & <- & <- & Ex). split; [by exists i|done].
  - intros [[i Hi] Ev]. by apply (to_item _ _ Hk _ _ Hi).
Qed.

Lemma rehash_spec pre todo l0 m0 ht m ev :
  l0 = pre ++ todo -> tab_ok l0 m0 -> tab_ok (items ht) m -> size ht = Z.of_nat (length (items ht)) -> nr_items ht = Z.of_nat (base.size m) ->
  no_deleted (items ht) -> (length l0 < length (items ht))%nat -> (forall k v, m !! k = Some v <-> holds pre k v) -> cleanups ev = [] ->
  exists ht' ev', rehash todo ht ev = Ret (true, ht', ev') /\ same_config ht ht' /\ tab_ok (items ht') m0 /\ nr_items ht' = Z.of_nat (base.size m0) /\
    no_deleted (items ht') /\ cleanups ev' = [].
Proof.
  intros El Hk0. revert pre ht m ev El. induction todo as [|x todo IH]; intros pre ht m ev El Hk Hs Hnr Hnd Hlen Hm Hev.
  - assert (m0 = m) as ->. { apply map_eq. intros k. apply option_eq. intros v. rewrite app_nil_r in El. rewrite (tab_holds _ _ Hk0), Hm, El. done. }
    exists ht, ev. by split_and!.
  - assert (Hgo : forall ht1 m1 ev1, same_config ht ht1 -> tab_ok (items ht1) m1 -> nr_items ht1 = Z.of_nat (base.size m1) -> no_deleted (items ht1) ->
      (forall k v, m1 !! k = Some v <-> holds (pre ++ [x]) k v) -> cleanups ev1 = [] ->
      exists ht' ev', rehash todo ht1 ev1 = Ret (true, ht', ev') /\ same_config ht ht' /\ tab_ok (items ht') m0 /\ nr_items ht' = Z.of_nat (base.size m0) /\
        no_deleted (items ht') /\ cleanups ev' = []).
    { intros ht1 m1 ev1 (S1 & S2 & S3 & S4 & S5) Hk1 Hnr1 Hnd1 Hm1 Hev1.
      destruct (IH (pre ++ [x]) ht1 m1 ev1) as (ht' & ev' & E & (T1 & T2 & T3 & T4 & T5) & Hrest); try done; [by rewrite <- app_assoc|congruence|lia|].
      exists ht', ev'. split; [done|]. split; [split_and!; congruence|done]. }
    cbn [rehash]. destruct (is_empty (value x)) eqn:Ex.
    { apply (Hgo ht m); try done. intros k v. rewrite Hm. unfold holds. rewrite elem_of_app, list_elem_of_singleton.
      split; [intros [Hin Ev]; split; [by left|done]|]. intros [[Hin|<-] Ev]; [done|]. cbn in Ex. congruence. }
    assert (Hx : word_at l0 (Z.of_nat (length pre)) = Some x).
    { unfold word_at. rewrite (proj2 (Z.leb_le 0 _)) by lia. rewrite Nat2Z.id, El. by apply list_lookup_middle. }
    destruct (to_item _ _ Hk0 _ _ Hx Ex) as (Hw & Hmx & _).
    assert (Hnone : m !! key x = None).
    { destruct (m !! key x) as [v|] eqn:Ev; [exfalso|done]. apply Hm in Ev as [Hin Hv]. apply list_elem_of_lookup in Hin as [a Ha]. apply lookup_lt_Some in Ha as Hlt.
      assert (Hat : word_at l0 (Z.of_nat a) = Some (Item v (key x))).
      { unfold word_at. rewrite (proj2 (Z.leb_le 0 _)) by lia. rewrite Nat2Z.id, El. by rewrite lookup_app_l. }
      pose proof (tab_unique _ _ _ _ _ _ Hk0 Hat Hv Hx Ex eq_refl). lia. }
    assert (Hsub : (base.size m <= length l0)%nat).
    { etrans; [|by apply (tab_size _ _ Hk0)]. apply map_subseteq_size, map_subseteq_spec. intros k v [Hin Hv]%Hm. apply (tab_holds _ _ Hk0). split; [|done].
      rewrite El. apply elem_of_app. by left. }
    destruct (add_one_spec ht m (key x) (value x) Hk Hs Hnr Hw Ex) as (r & ht1 & ev1 & E & [(-> & Hc & Hnr1 & Hk1 & Hcl & Hnd1)|(_ & _ & _ & _ & Hfull)]).
    2: { pose proof (full_size _ _ _ Hk Hnd Hfull). lia. }
    rewrite E. cbn [mbind run_bind Z.eqb]. apply (Hgo ht1 (<[key x := value x]> m)); try done.
    + by apply Hnd1.
    + intros k v. rewrite lookup_insert_Some, Hm. unfold holds. rewrite elem_of_app, list_elem_of_singleton. destruct x as [vx kx]. cbn in *. split.
      * intros [[<- <-]|[_ [Hin Hv]]]; [split; [by right|done]|split; [by left|done]].
      * intros [[Hin|[= <- <-]] Hv]; [|by left]. right. split; [|done]. intros <-. assert (m !! kx = Some v) by (by apply Hm). congruence.
    + unfold cleanups in *. rewrite omap_app, Hev, Hcl, Hnone. done.
Qed.

(** The value a call of the cleanup function is due for. *)
Definition replaced (ht : hurd_ihash) (m : gmap Z Z) (k : Z) : list Z :=
  match m !! k with Some w => if cleanup ht then [w] else [] | None => [] end.

Lemma cleanups_app a b : cleanups (a ++ b) = cleanups a ++ cleanups b.
Proof. apply omap_app. Qed.

(** The table is doubled, which has room for everything. *)
Lemma grow_spec malloc ht m k v :
  hash_ok ht m -> size ht <= 2 ^ 27 -> is_word k -> is_empty v = false ->
  exists r ht' ev, grow_and_add malloc ht k v = Ret (r, ht', ev) /\
    ((r = 0 /\ hash_ok ht' (<[k := v]> m) /\ cleanups ev = replaced ht m k /\ size ht < size ht') \/ (r = ENOMEM /\ malloc = false /\ ht' = ht /\ ev = [])).
Proof.
  intros (Hnr & Hs & Hk) Hsz Hw Hv. unfold grow_and_add. destruct malloc; cbn [negb]; [|eexists _, _, _; split; [done|by right]].
  set (n := if size ht =? 0 then HURD_IHASH_MIN_SIZE else wrap (Z.shiftl (size ht) 1)).
  assert (Hn : exists e, 0 <= e <= 30 /\ n = 2 ^ e /\ size ht < n).
  { unfold n. destruct Hk as [[El _]|Hk].
    - rewrite Hs, El. exists 5. split_and!; try done; lia.
    - destruct (to_len _ _ Hk) as (e & He & Hlen). rewrite <- Hs in Hlen. pose proof (to_pos _ _ Hk). rewrite (proj2 (Z.eqb_neq (size ht) 0)) by lia.
      rewrite Z.shiftl_mul_pow2, Z.pow_1_r, wrap_small by (unfold is_word; lia). exists (e + 1). rewrite Z.pow_add_r by lia.
      assert (e <= 27). { apply (Z.pow_le_mono_r_iff 2); lia. } split_and!; lia. }
  clearbody n. destruct Hn as (e & He & -> & Hlt). set (ht0 := Ihash 0 _ _ _ _ _).
  assert (Hk0 : tab_ok (items ht0) ∅) by (by apply tab_fresh). assert (Hpos : 0 < 2 ^ e) by (apply Z.pow_pos_nonneg; lia).
  assert (Hl0 : length (items ht0) = Z.to_nat (2 ^ e)) by (cbn; by rewrite length_replicate).
  assert (Hnd0 : no_deleted (items ht0)). { intros i x Hx. cbn in Hx. unfold word_at in Hx. destruct (0 <=? i); [|done]. apply lookup_replicate in Hx as [-> _]. done. }
  assert (Hre : exists ht1 ev1, rehash (items ht) ht0 [] = Ret (true, ht1, ev1) /\ same_config ht0 ht1 /\ tab_ok (items ht1) m /\
    nr_items ht1 = Z.of_nat (base.size m) /\ no_deleted (items ht1) /\ cleanups ev1 = []).
  { destruct Hk as [[El Em]|Hk]; [rewrite El, Em; by exists ht0, []|].
    apply (rehash_spec [] (items ht) (items ht) m ht0 ∅ []); try done; [cbn; rewrite length_replicate; lia|lia|].
    intros k' v'. split; [done|]. intros [Hin _]. by apply not_elem_of_nil in Hin. }
  destruct Hre as (ht1 & ev1 & E1 & (C1 & C2 & C3 & C4 & C5) & Hk1 & Hnr1 & Hnd1 & Hev1). rewrite E1. cbn [mbind run_bind negb].
  destruct (add_one_spec ht1 m k v Hk1) as (r & ht2 & ev2 & E2 & [(-> & (D1 & D2 & D3 & D4 & D5) & Hnr2 & Hk2 & Hev2 & _)|(_ & _ & _ & _ & Hfull)]); try done.
  { rewrite C1, C2, Hl0. cbn. lia. }
  2: { pose proof (full_size _ _ _ Hk1 Hnd1 Hfull) as Hf. rewrite C2, Hl0 in Hf. destruct Hk as [[El Em]|Hk].
       - rewrite Em, map_size_empty in Hf. lia.
       - pose proof (tab_size _ _ Hk). lia. }
  rewrite E2. cbn [mbind run_bind Z.eqb]. eexists _, _, _. split; [done|]. left. split; [done|].
  split; [split_and!; [done| |by right]; rewrite D1, C1, D2, C2, Hl0; cbn; lia|]. split; [rewrite cleanups_app, Hev1, Hev2, C5; done|]. rewrite D1, C1. done.
Qed.

Lemma hash_add_spec malloc ht m k v :
  hash_ok ht m -> size ht <= 2 ^ 27 -> is_word k -> is_word v -> v <> HURD_IHASH_EMPTY -> v <> HURD_IHASH_DELETED ->
  exists r ht' ev, hurd_ihash_add malloc ht k v = Ret (r, ht', ev) /\
    ((r = 0 /\ hash_ok ht' (<[k := v]> m) /\ cleanups ev = replaced ht m k) \/ (r = ENOMEM /\ malloc = false /\ ht' = ht /\ ev = [])).
Proof.
  intros Hok Hsz Hw _ Hv1 Hv2. assert (Hv : is_empty v = false) by (unfold is_empty; rewrite (proj2 (Z.eqb_neq _ _) Hv1), (proj2 (Z.eqb_neq _ _) Hv2); done).
  destruct (grow_spec malloc ht m k v Hok Hsz Hw Hv) as (r0 & ht0 & ev0 & E0 & C0). unfold hurd_ihash_add.
  destruct (negb (size ht =? 0) && _) eqn:E; [|rewrite E0; eexists _, _, _; split; [done|]; destruct C0 as [(?&?&?&_)|?]; [by left|by right]].
  apply andb_true_iff in E as [Es%negb_true_iff%Z.eqb_neq _]. destruct Hok as (Hnr & Hs & [[El _]|Hk]); [rewrite Hs, El in Es; done|].
  destruct (add_one_spec ht m k v Hk Hs Hnr Hw Hv) as (r & ht1 & ev1 & E1 & [(-> & (D1 & D2 & _) & Hnr1 & Hk1 & Hev1 & _)|(-> & -> & -> & _ & _)]);
    rewrite E1; cbn [mbind run_bind Z.eqb negb].
  - eexists _, _, _. split; [done|]. left. split; [done|]. split; [|done]. split_and!; [done|congruence|by right].
  - replace (set_items ht (nr_items ht) (items ht)) with ht by (by destruct ht). rewrite E0. cbn [mbind run_bind app].
    eexists _, _, _. split; [done|]. destruct C0 as [(?&?&?&_)|?]; [by left|by right].
Qed.

(** C23: [hurd_ihash_add] returns, and on success the table is the one before
    with the new value under the key; the cleanup function was called for the
    value it replaced and for no other.  It fails only without memory, and then
    the table is as before; the loop that moves the items into a larger table
    never fails. *)
Theorem hurd_ihash_add_correct malloc ht m k v :
  hash_ok ht m -> size ht <= 2 ^ 27 -> is_word k -> is_word v -> v <> HURD_IHASH_EMPTY -> v <> HURD_IHASH_DELETED ->
  exists r ht' ev, hurd_ihash_add malloc ht k v = Ret (r, ht', ev) /\
    ((r = 0 /\ hash_ok ht' (<[k := v]> m) /\ cleanups ev = replaced ht m k) \/ (r = ENOMEM /\ malloc = false /\ ht' = ht /\ ev = [])).
Proof. apply hash_add_spec. Qed.

(** [hurd_ihash_find] returns the value under the key, NULL when there is
    none. *)
Theorem hurd_ihash_find_correct ht m k : hash_ok ht m -> hurd_ihash_find ht k = Ret (default 0 (m !! k)).
Proof.
  intros (Hnr & Hs & Hk). unfold hurd_ihash_find. destruct Hk as [[El Em]|Hk]; [by rewrite Hs, El, Em|].
  pose proof (to_pos _ _ Hk) as Hn. rewrite (proj2 (Z.eqb_neq (size ht) 0)) by lia. unfold find_index.
  destruct (hash_search_spec ht m k Hk Hs) as (i & x & Ei & Hx & C). rewrite Ei. cbn [mbind run_bind]. unfold index_valid. rewrite Hx. cbn [mbind option_bind lift run_bind].
  rewrite (search_item ht m k i x Hk Hx ltac:(tauto)). by destruct (negb _ && _).
Qed.

(** [hurd_ihash_remove] removes the key and nothing else, and says whether it
    was there. *)
Theorem hurd_ihash_remove_correct ht m k :
  hash_ok ht m -> exists ht' ev, hurd_ihash_remove ht k = Ret (if m !! k then 1 else 0, ht', ev) /\ hash_ok ht' (delete k m) /\ cleanups ev = replaced ht m k.
Proof.
  intros Hok. pose proof Hok as (Hnr & Hs & Hk). unfold hurd_ihash_remove, replaced. destruct Hk as [[El Em]|Hk].
  { rewrite Hs, El, Em. exists ht, []. rewrite delete_empty, lookup_empty. split; [done|]. split; [by rewrite <- Em|done]. }
  pose proof (to_pos _ _ Hk) as Hn. pose proof (tab_size _ _ Hk) as Hle. rewrite (proj2 (Z.eqb_neq (size ht) 0)) by lia. unfold find_index.
  destruct (hash_search_spec ht m k Hk Hs) as (i & x & Ei & Hx & C). rewrite Ei. cbn [mbind run_bind]. unfold index_valid. rewrite Hx. cbn [mbind option_bind lift run_bind].
  pose proof (search_item ht m k i x Hk Hx ltac:(tauto)) as Hm. destruct (negb (is_empty (value x)) && (key x =? k)) eqn:Eb.
  - apply andb_true_iff in Eb as [Ex%negb_true_iff <-%Z.eqb_eq]. apply word_at_bound in Hx as Hi. unfold locp_remove. rewrite Hx. cbn [mbind option_bind].
    rewrite word_at_set by done. cbn [mbind option_bind lift run_bind]. rewrite Hm. eexists _, _. split; [done|]. split; [|by destruct (cleanup ht)].
    assert (base.size m <> 0%nat). { intros E%map_size_empty_inv. by rewrite E in Hm. }
    split_and!; cbn; [|by rewrite length_insert|right; by apply tab_delete].
    rewrite map_size_delete_Some by (by exists (value x)). rewrite wrap_small by (unfold is_word; lia). lia.
  - rewrite Hm. eexists _, _. split; [done|]. split; [|done]. by rewrite delete_id.
Qed.

Lemma hurd_ihash_init_ok locp_offs : hash_ok (hurd_ihash_init locp_offs) ∅.
Proof. split_and!; [done|done|by left]. Qed.

(** NULL is the mark of an empty slot: stored as a value under a key that is in
    its home slot, it hides every other key with that home. *)
Theorem ihash_add_null_hides malloc ht m k k' x :
  hash_ok ht m -> size ht <> 0 -> hurd_ihash_get_load ht <= max_load ht -> is_word k ->
  word_at (items ht) (k mod size ht) = Some x -> is_empty (value x) = false -> key x = k -> k' mod size ht = k mod size ht ->
  exists ht' ev, hurd_ihash_add malloc ht k 0 = Ret (0, ht', ev) /\ hurd_ihash_find ht' k' = Ret 0.
Proof.
  intros (Hnr & Hs & Hk) Hs0 Hload Hw Hx Ex Ek Ehome. destruct Hk as [[El _]|Hk]; [by rewrite Hs, El in Hs0|]. destruct (to_len _ _ Hk) as (e & He & Hlen).
  rewrite <- Hs in Hlen. apply word_at_bound in Hx as Hi. unfold hurd_ihash_add. rewrite (proj2 (Z.eqb_neq _ _) Hs0), (proj2 (Z.leb_le _ _) Hload). cbn [negb andb].
  unfold add_one, search. rewrite !(mask_mod _ e (size ht) He Hlen), Hx. cbn [lift mbind run_bind]. unfold hit at 1. rewrite Ek, Z.eqb_refl, orb_true_r. cbn [mbind run_bind].
  unfold index_valid. rewrite Hx. cbn [mbind option_bind lift run_bind]. rewrite Ex, Ek, Z.eqb_refl. cbn [negb andb]. unfold locp_remove. rewrite Hx. cbn [mbind option_bind].
  rewrite word_at_set by done. cbn [mbind option_bind lift run_bind]. unfold index_empty. cbn [items set_items]. rewrite word_at_insert, Z.eqb_refl by done.
  cbn [mbind option_bind lift run_bind value]. change (is_empty HURD_IHASH_DELETED) with true. cbv iota. unfold store_item, index_empty. cbn [items set_items].
  rewrite word_at_insert, Z.eqb_refl by done. cbn [mbind option_bind value]. change (is_empty HURD_IHASH_DELETED) with true. cbv iota.
  rewrite word_at_set by (rewrite length_insert; done). cbn [mbind option_bind lift run_bind Z.eqb negb]. eexists _, _. split; [done|].
  unfold hurd_ihash_find. cbn [size set_items]. rewrite (proj2 (Z.eqb_neq _ _) Hs0). unfold find_index, search. cbn [size items set_items].
  rewrite (mask_mod k' e (size ht) He Hlen), Ehome, word_at_insert, Z.eqb_refl by (rewrite length_insert; done). cbn [lift mbind run_bind].
  change (hit k' (Item 0 k)) with true. cbn [mbind run_bind]. unfold index_valid. cbn [items set_items].
  rewrite word_at_insert, Z.eqb_refl by (rewrite length_insert; done). done.
Qed.

(** With a cleanup function the table cannot be destroyed. *)
Theorem ihash_destroy_faults ht : cleanup ht = true -> hurd_ihash_destroy ht = None.
Proof. intros E. unfold hurd_ihash_destroy. by rewrite E. Qed.

(** ** A small table *)

Definition sample_hash : hurd_ihash := Ihash 2 ([Item 70 0; Item 71 32] ++ replicate 30 (Item 0 0)) 32 HURD_IHASH_NO_LOCP 96 true.

Lemma sample_hash_ok : hash_ok sample_hash {[0 := 70; 32 := 71]}.
Proof.
  destruct (hash_add_spec true (hurd_ihash_set_cleanup (hurd_ihash_init HURD_IHASH_NO_LOCP) true) ∅ 0 70) as (r & h1 & ev & E & C); try done; [by split_and!; try done; left|].
  vm_compute in E. injection E as <- <- <-. destruct C as [(_ & Hok & _)|(? & _)]; [|done].
  match type of Hok with hash_ok ?h _ => destruct (hash_add_spec true h (<[0 := 70]> ∅) 32 71 Hok) as (r & h2 & ev & E & C); try done end.
  vm_compute in E. injection E as <- <- <-. destruct C as [(_ & Hok2 & _)|(? & _)]; [|done]. rewrite insert_empty in Hok2.
  replace ({[0 := 70; 32 := 71]} : gmap Z Z) with (<[32 := 71]> {[0 := 70]} : gmap Z Z); [exact Hok2|].
  change ({[0 := 70; 32 := 71]} : gmap Z Z) with (<[0 := 70]> {[32 := 71]} : gmap Z Z). rewrite <- (insert_empty 0 70), <- (insert_empty 32 71). by apply insert_insert_ne.
Qed.

Lemma hurd_ihash_add_witness : exists r ht' ev, hurd_ihash_add true sample_hash 32 99 = Ret (r, ht', ev) /\ cleanups ev = [71] /\ hash_ok ht' {[0 := 70; 32 := 99]}.
Proof.
  destruct (hurd_ihash_add_correct true sample_hash {[0 := 70; 32 := 71]} 32 99 sample_hash_ok) as (r & ht' & ev & E & C).
  - discriminate.
  - unfold is_word. lia.
  - unfold is_word. lia.
  - discriminate.
  - discriminate.
  - destruct C as [(_ & Hok & Hev)|(_ & Hm & _)]; [|discriminate Hm]. exists r, ht', ev. split; [exact E|]. split; [exact Hev|exact Hok].
Defined.
