(* ===== verification/Pthread.v ===== *)
(** * Keys and thread-specific data

    [source/libs/pthread]: [pthread_key.c] and [pthread_specific.c], over the
    tables of [Ihash].  An array that grows is the list of its elements, NULL
    is the empty list; tables are kept by address.  The thread that calls is an
    argument, and so is what [malloc] gives: for the array a truth value, for a
    table its address or 0.  The locks of the library are not modelled: a call
    is one step. *)

From stdpp Require Import gmap.
From S2P Require Import Prelude Ihash.
Local Open Scope c_scope.
Import HashOps.

Definition INVALID : Z := ULONG_MAX.               (* SPECIFIC_INVALID and DESTRUCTORT_INVALID *)
Definition EINVAL : Z := 22.

Record pstate := PState {
  destructort_arry : list Z;
  key_nums : Z;
  specific_arry : list Z;
  specific_nums : Z;
  tables : gmap Z hurd_ihash;
  pt_speci : gmap Z Z                              (* of the threads; 0 is NULL *)
}.

Module KeyOps.

(** The search for an element that is not in use, from [i] on. *)
Fixpoint find_invalid (n : nat) (arry : list Z) (nums i : Z) : option Z :=
  match n with
  | O => Some i
  | S n =>
    if negb (i <? nums) then Some i else
    x ← word_at arry i; if negb (x =? INVALID) then find_invalid n arry nums (i + 1) else Some i
  end.

(** The result, the index, the array and its length. *)
Definition find_elem_index_and_add_to_arry (malloc : bool) (elem : Z) (arry : list Z) (nums : Z) : option (Z * Z * list Z * Z) :=
  i ← find_invalid (S (length arry)) arry nums 0;
  if i <? nums then
    arry' ← word_set arry i elem; Some (0, i, arry', nums)
  else
    let new_size := if nums =? 0 then 8 else to_int (Z.shiftl nums 1) in
    if negb malloc then Some (- ENOMEM, 0, arry, nums) else
    let p := replicate (Z.to_nat new_size) INVALID in
    let p := match arry with [] => p | _ => take (Z.to_nat i) arry ++ drop (Z.to_nat i) p end in
    p ← word_set p i elem; Some (0, i, p, new_size).

Definition pthread_key_create (malloc : bool) (s : pstate) (destructor : Z) : option (Z * Z * pstate) :=
  '(ret, key, arry, nums) ← find_elem_index_and_add_to_arry malloc destructor (destructort_arry s) (key_nums s);
  Some (ret, key, PState arry nums (specific_arry s) (specific_nums s) (tables s) (pt_speci s)).

(** The test of a key, true when it is refused. *)
Definition bad_key (s : pstate) (k : Z) : option bool :=
  if key_nums s <? k then Some true else x ← word_at (destructort_arry s) k; Some (x =? INVALID).

(** The loop over the tables of all threads. *)
Fixpoint remove_all (arry : list Z) (m : gmap Z hurd_ihash) (k : Z) : run (gmap Z hurd_ihash) :=
  match arry with
  | [] => Ret m
  | p :: arry =>
    if p =? INVALID then remove_all arry m k else
    ht ← lift (m !! p);
    '(_, ht, _) ← hurd_ihash_remove ht k;
    remove_all arry (<[p := ht]> m) k
  end.

Definition pthread_key_delete (s : pstate) (k : Z) : run (Z * pstate) :=
  b ← lift (bad_key s k);
  if (b : bool) then Ret (- EINVAL, s) else
  m ← remove_all (take (Z.to_nat (specific_nums s)) (specific_arry s)) (tables s) k;
  arry ← lift (word_set (destructort_arry s) k INVALID);
  Ret (0, PState arry (key_nums s) (specific_arry s) (specific_nums s) m (pt_speci s)).

(** From [add to ihash tables] on; [malloc] is for the items. *)
Definition set_value (malloc : bool) (s : pstate) (p k v : Z) : run (Z * pstate) :=
  ht ← lift (tables s !! p);
  '(r, ht, _) ← hurd_ihash_add malloc ht k v;
  let s := PState (destructort_arry s) (key_nums s) (specific_arry s) (specific_nums s) (<[p := ht]> (tables s)) (pt_speci s) in
  Ret (if r =? 0 then 0 else - ENOMEM, s).

(** A new table is at [addr]. *)
Definition pthread_setspecific (malloc malloc_arry : bool) (addr : Z) (s : pstate) (self k v : Z) : run (Z * pstate) :=
  b ← lift (bad_key s k);
  if (b : bool) then Ret (- EINVAL, s) else
  let speci_tb := default 0 (pt_speci s !! self) in
  if negb (speci_tb =? 0) then set_value malloc s speci_tb k v else
  if addr =? 0 then Ret (- ENOMEM, s) else
  let ht := hurd_ihash_init HURD_IHASH_NO_LOCP in
  '(ret, _, arry, nums) ← lift (find_elem_index_and_add_to_arry malloc_arry addr (specific_arry s) (specific_nums s));
  if ret <? 0 then _ ← lift (hurd_ihash_destroy ht); Ret (- ENOMEM, s) else
  let s := PState (destructort_arry s) (key_nums s) arry nums (<[addr := ht]> (tables s)) (<[self := addr]> (pt_speci s)) in
  set_value malloc s addr k v.

Definition pthread_getspecific (s : pstate) (self k : Z) : run Z :=
  b ← lift (bad_key s k);
  if (b : bool) then Ret 0 else
  let speci_tb := default 0 (pt_speci s !! self) in
  if speci_tb =? 0 then Ret 0 else
  ht ← lift (tables s !! speci_tb); hurd_ihash_find ht k.

End KeyOps.
Import KeyOps.

(** ** The arrays *)

Definition arr_ok (l : list Z) (n : Z) : Prop := n = Z.of_nat (length l).

Lemma find_invalid_spec n l i :
  0 <= i <= Z.of_nat (length l) -> Z.of_nat (length l) - i < Z.of_nat n ->
  exists r, find_invalid n l (Z.of_nat (length l)) i = Some r /\ i <= r <= Z.of_nat (length l) /\
    (r < Z.of_nat (length l) -> word_at l r = Some INVALID).
Proof.
  revert i. induction n as [|n IH]; intros i Hi Hn; [lia|]. cbn [find_invalid]. destruct (Z.ltb_spec i (Z.of_nat (length l))) as [Hlt|Hge]; cbn [negb].
  - destruct (word_at_Some l i) as [x Hx]; [lia|]. rewrite Hx. cbn [mbind option_bind]. destruct (Z.eqb_spec x INVALID) as [->|Hne]; cbn [negb].
    + exists i. split; [done|]. split; [lia|done].
    + destruct (IH (i + 1)) as (r & E & Hr & Hinv); [lia|lia|]. exists r. split; [done|]. split; [lia|done].
  - exists i. split; [done|]. split; [lia|lia].
Qed.

(** An element is entered where none was in use; the other elements stay. *)
Lemma add_to_arry_spec malloc elem l n :
  arr_ok l n -> n <= 2 ^ 28 -> exists r i l' n', find_elem_index_and_add_to_arry malloc elem l n = Some (r, i, l', n') /\ arr_ok l' n' /\
    ((r = 0 /\ 0 <= i < n' /\ word_at l' i = Some elem /\ (word_at l i = None \/ word_at l i = Some INVALID) /\
      forall j, j <> i -> word_at l' j = word_at l j \/ (word_at l j = None /\ word_at l' j = Some INVALID)) \/
     (r = - ENOMEM /\ malloc = false /\ l' = l)).
Proof.
  unfold find_elem_index_and_add_to_arry, arr_ok. intros Hl Hn. subst n.
  destruct (find_invalid_spec (S (length l)) l 0) as (i & E & Hi & Hinv); [lia|lia|]. rewrite E. cbn [mbind option_bind].
  destruct (Z.ltb_spec i (Z.of_nat (length l))) as [Hlt|Hge].
  - rewrite word_at_set by lia. cbn [mbind option_bind]. eexists _, _, _, _. split; [done|]. split; [by rewrite length_insert|]. left. split; [done|]. split; [lia|].
    split; [by rewrite word_at_insert, Z.eqb_refl by lia|]. split; [right; by apply Hinv|]. intros j Hj. left. rewrite word_at_insert by lia.
    by rewrite (proj2 (Z.eqb_neq i j)) by congruence.
  - destruct malloc; cbn [negb]; [|eexists _, _, _, _; split; [done|]; split; [done|by right]].
    assert (i = Z.of_nat (length l)) as -> by lia. set (ns := if _ =? 0 then _ else _).
    assert (Hns : Z.of_nat (length l) < ns < 2 ^ 30).
    { unfold ns. destruct (Z.eqb_spec (Z.of_nat (length l)) 0); [lia|]. rewrite Z.shiftl_mul_pow2, Z.pow_1_r, to_int_small by lia. lia. }
    clearbody ns. rewrite Nat2Z.id.
    assert (Ep : match l with [] => replicate (Z.to_nat ns) INVALID | _ :: _ => take (length l) l ++ drop (length l) (replicate (Z.to_nat ns) INVALID) end =
      l ++ replicate (Z.to_nat ns - length l) INVALID).
    { rewrite drop_replicate, take_ge by lia. destruct l; [cbn; f_equal; lia|done]. }
    rewrite Ep. assert (Hlen : Z.of_nat (length (l ++ replicate (Z.to_nat ns - length l) INVALID)) = ns) by (rewrite length_app, length_replicate; lia).
    rewrite word_at_set by lia. cbn [mbind option_bind]. eexists _, _, _, _. split; [done|]. split; [rewrite length_insert; lia|]. left. split; [done|]. split; [lia|].
    split; [by rewrite word_at_insert, Z.eqb_refl by lia|]. split; [left; unfold word_at; rewrite (proj2 (Z.leb_le 0 _)) by lia; apply lookup_ge_None; lia|].
    intros j Hj. rewrite word_at_insert by lia. rewrite (proj2 (Z.eqb_neq _ j)) by congruence. unfold word_at. destruct (Z.leb_spec 0 j); [|by left].
    destruct (decide (Z.to_nat j < length l)%nat) as [Hlt|Hge']; [left; by rewrite lookup_app_l|]. rewrite lookup_app_r, (lookup_ge_None_2 l) by lia.
    destruct (replicate _ _ !! _) as [y|] eqn:Ey; [|by left]. apply lookup_replicate in Ey as [-> _]. by right.
Qed.

(** Membership in the array after an addition. *)
Lemma arry_members l l' i elem :
  word_at l' i = Some elem -> (word_at l i = None \/ word_at l i = Some INVALID) ->
  (forall j, j <> i -> word_at l' j = word_at l j \/ (word_at l j = None /\ word_at l' j = Some INVALID)) ->
  (forall x, x ∈ l' -> x = elem \/ x = INVALID \/ x ∈ l) /\ (forall x, x ∈ l -> x <> INVALID -> x ∈ l') /\ elem ∈ l'.
Proof.
  assert (Hel : forall (k : list Z) x, x ∈ k <-> exists j, word_at k j = Some x).
  { intros k x. rewrite list_elem_of_lookup. unfold word_at. split.
    - intros [a Ha]. exists (Z.of_nat a). rewrite (proj2 (Z.leb_le 0 _)) by lia. by rewrite Nat2Z.id.
    - intros [j Hj]. destruct (0 <=? j); [|done]. by eexists. }
  intros Hi Hl Hj. split_and!; [| |apply Hel; by exists i].
  - intros x [j Hx]%Hel. destruct (decide (j = i)) as [->|Hne]; [left; congruence|]. destruct (Hj _ Hne) as [E|[_ E]]; rewrite E in Hx.
    + right. right. apply Hel. by exists j.
    + right. left. congruence.
  - intros x [j Hx]%Hel Hinv. apply Hel. exists j. destruct (decide (j = i)) as [->|Hne]; [destruct Hl; congruence|].
    destruct (Hj _ Hne) as [E|[E _]]; congruence.
Qed.

(** ** The values of the threads *)

(** [vals t] are the values of the thread [t] by key. *)
Record keys_ok (s : pstate) (vals : Z -> gmap Z Z) : Prop := {
  ko_keys : arr_ok (destructort_arry s) (key_nums s);
  ko_specs : arr_ok (specific_arry s) (specific_nums s);
  ko_table : forall t p, pt_speci s !! t = Some p -> p <> 0 ->
    p <> INVALID /\ p ∈ specific_arry s /\ exists ht, tables s !! p = Some ht /\ hash_ok ht (vals t);
  ko_none : forall t, default 0 (pt_speci s !! t) = 0 -> vals t = ∅;
  ko_inj : forall t t' p, pt_speci s !! t = Some p -> pt_speci s !! t' = Some p -> p <> 0 -> t = t';
  ko_arr : forall p, p ∈ specific_arry s -> p = INVALID \/ (p <> 0 /\ exists t, pt_speci s !! t = Some p)
}.

Definition usable (s : pstate) (k : Z) : Prop := exists d, word_at (destructort_arry s) k = Some d /\ d <> INVALID.

Lemma bad_key_spec s vals k : keys_ok s vals -> 0 <= k < key_nums s -> exists d, word_at (destructort_arry s) k = Some d /\ bad_key s k = Some (d =? INVALID).
Proof.
  intros Hk Hr. unfold bad_key. rewrite (proj2 (Z.ltb_ge _ _)) by lia. pose proof (ko_keys _ _ Hk) as Hl. unfold arr_ok in Hl.
  destruct (word_at_Some (destructort_arry s) k) as [d Hd]; [lia|]. rewrite Hd. by exists d.
Qed.

Lemma usable_key s vals k : keys_ok s vals -> usable s k -> bad_key s k = Some false.
Proof.
  intros Hk (d & Hd & Hne). apply word_at_bound in Hd as Hr. pose proof (ko_keys _ _ Hk) as Hl. unfold arr_ok in Hl.
  destruct (bad_key_spec s vals k Hk) as (d' & Hd' & E); [lia|]. rewrite E. rewrite Hd in Hd'. injection Hd' as <-. by rewrite (proj2 (Z.eqb_neq _ _) Hne).
Qed.

Lemma speci_inv s t : (default 0 (pt_speci s !! t) = 0) \/ exists p, pt_speci s !! t = Some p /\ p <> 0.
Proof. destruct (pt_speci s !! t) as [p|]; [|by left]. destruct (decide (p = 0)); [by left|right; by exists p]. Qed.

Lemma getspecific_spec s vals self k : keys_ok s vals -> usable s k -> pthread_getspecific s self k = Ret (default 0 (vals self !! k)).
Proof.
  intros Hk Hu. unfold pthread_getspecific. rewrite (usable_key _ _ _ Hk Hu). cbn [lift mbind run_bind].
  destruct (speci_inv s self) as [E|(p & E & Hp)].
  - rewrite E, (ko_none _ _ Hk _ E). done.
  - rewrite E. cbn [default from_option id]. rewrite (proj2 (Z.eqb_neq p 0) Hp). destruct (ko_table _ _ Hk _ _ E Hp) as (_ & _ & ht & Hht & Hok).
    rewrite Hht. cbn [lift mbind run_bind]. by apply hurd_ihash_find_correct.
Qed.

(** A thread's table gets a value. *)
Lemma set_value_spec malloc s vals t p ht k v :
  keys_ok s vals -> pt_speci s !! t = Some p -> p <> 0 -> tables s !! p = Some ht -> size ht <= 2 ^ 27 -> is_word k -> is_word v -> v <> 0 -> v <> INVALID ->
  exists r s', set_value malloc s p k v = Ret (r, s') /\ destructort_arry s' = destructort_arry s /\
    ((r = 0 /\ keys_ok s' (fun u => if bool_decide (u = t) then <[k := v]> (vals t) else vals u)) \/ (r = - ENOMEM /\ malloc = false /\ keys_ok s' vals)).
Proof.
  intros Hk Ht Hp Hht Hsz Hw Hv Hv0 Hv1. destruct (ko_table _ _ Hk _ _ Ht Hp) as (_ & _ & ht' & Hht' & Hok). rewrite Hht in Hht'. injection Hht' as <-.
  unfold set_value. rewrite Hht. cbn [lift mbind run_bind].
  destruct (hash_add_spec malloc ht (vals t) k v Hok Hsz Hw Hv Hv0 Hv1) as (r & ht1 & ev & E & C). rewrite E. cbn [mbind run_bind].
  eexists _, _. split; [done|]. split; [done|]. destruct C as [(-> & Hok1 & _)|(-> & -> & -> & _)]; [left|right]; (split; [done|]).
  - split; cbn; try apply Hk.
    + intros u q Hu Hq. destruct (ko_table _ _ Hk _ _ Hu Hq) as (Hinv & Hin & h & Hh & Hokh). split_and!; try done.
      case_bool_decide as Eu.
      * subst u. rewrite Ht in Hu. injection Hu as <-. exists ht1. by rewrite lookup_insert_eq.
      * exists h. rewrite lookup_insert_ne; [done|]. intros ->. apply Eu. by eapply (ko_inj _ _ Hk).
    + intros u Hu. rewrite bool_decide_false; [by apply (ko_none _ _ Hk)|]. intros ->. by rewrite Ht in Hu.
  - split; [done|]. replace (PState _ _ _ _ _ _) with s; [done|]. rewrite insert_id by done. by destruct s.
Qed.

(** [pthread_setspecific] of a usable key and a value other than NULL and
    the reserved one changes the value of the calling thread under that key
    and no value of another thread or key, also when the thread or the process
    has no table yet; without memory it says so and changes no value. *)
Theorem pthread_setspecific_correct malloc malloc_arry addr s vals self k v :
  keys_ok s vals -> usable s k -> is_word k -> is_word v -> v <> 0 -> v <> INVALID -> specific_nums s <= 2 ^ 28 ->
  (forall p ht, tables s !! p = Some ht -> size ht <= 2 ^ 27) ->
  addr <> INVALID -> addr ∉ specific_arry s ->
  exists r s', pthread_setspecific malloc malloc_arry addr s self k v = Ret (r, s') /\ destructort_arry s' = destructort_arry s /\
    ((r = 0 /\ keys_ok s' (fun u => if bool_decide (u = self) then <[k := v]> (vals self) else vals u)) \/
     (r = - ENOMEM /\ (malloc = false \/ malloc_arry = false \/ addr = 0) /\ keys_ok s' vals)).
Proof.
  intros Hk Hu Hw Hv Hv0 Hv1 Hn Hsz Ha Hfresh. unfold pthread_setspecific. rewrite (usable_key _ _ _ Hk Hu). cbn [lift mbind run_bind].
  destruct (speci_inv s self) as [E|(p & E & Hp)].
  2: { rewrite E. cbn [default from_option id]. rewrite (proj2 (Z.eqb_neq p 0) Hp). cbn [negb]. destruct (ko_table _ _ Hk _ _ E Hp) as (_ & _ & ht & Hht & _).
       destruct (set_value_spec malloc s vals self p ht k v) as (r & s' & Es & Hd & C); try done; [by eapply Hsz|]. exists r, s'. split; [done|]. split; [done|].
       destruct C as [C|(? & ? & ?)]; [by left|right]. auto. }
  rewrite E. cbn [Z.eqb negb]. destruct (Z.eqb_spec addr 0) as [E0|E0]; [exists (- ENOMEM), s; split; [done|]; split; [done|right; auto]|].
  destruct (add_to_arry_spec malloc_arry addr (specific_arry s) (specific_nums s) (ko_specs _ _ Hk) Hn) as (r & i & l' & n' & Ea & Hl' & C).
  rewrite Ea. cbn [lift mbind run_bind]. destruct C as [(-> & Hi & Hat & Hold & Hoth)|(-> & -> & ->)].
  2: { cbn. exists (- ENOMEM), s. split; [done|]. split; [done|]. right. auto. }
  cbn [Z.ltb Z.compare]. destruct (arry_members _ _ _ _ Hat Hold Hoth) as (Hm1 & Hm2 & Hm3).
  set (s1 := PState _ _ _ _ _ _). assert (Hk1 : keys_ok s1 vals).
  { assert (Hnt : forall t q, pt_speci s !! t = Some q -> q <> 0 -> q <> addr) by (intros t q Hq Hq0 ->; by destruct (ko_table _ _ Hk _ _ Hq Hq0) as (_ & ? & _)).
    split; cbn; try apply Hk; try done.
    - intros t q Ht Hq. apply lookup_insert_Some in Ht as [[<- <-]|[Hne Ht]].
      + split_and!; try done. eexists. rewrite lookup_insert_eq. split; [done|]. rewrite (ko_none _ _ Hk _ E). apply hurd_ihash_init_ok.
      + destruct (ko_table _ _ Hk _ _ Ht Hq) as (Hinv & Hin & ht & Hht & Hok). split; [done|]. split; [by apply Hm2|]. exists ht.
        rewrite lookup_insert_ne; [done|]. symmetry. by eapply Hnt.
    - intros t Ht. destruct (decide (t = self)) as [->|Hne]; [by apply (ko_none _ _ Hk)|]. rewrite lookup_insert_ne in Ht by done. by apply (ko_none _ _ Hk).
    - intros t t' q Ht Ht' Hq. apply lookup_insert_Some in Ht as [[<- <-]|[Hne Ht]], Ht' as [[<- Eq]|[Hne' Ht']]; try done.
      + by destruct (Hnt _ _ Ht').
      + subst q. by destruct (Hnt _ _ Ht).
      + by eapply (ko_inj _ _ Hk).
    - intros q [->|[->|Hq]]%Hm1; [right; split; [done|exists self; apply lookup_insert_eq]|by left|].
      destruct (ko_arr _ _ Hk _ Hq) as [->|(Hq0 & t & Ht)]; [by left|right]. split; [done|]. exists t. rewrite lookup_insert_ne; [done|]. intros <-.
      rewrite Ht in E. done. }
  destruct (set_value_spec malloc s1 vals self addr (hurd_ihash_init HURD_IHASH_NO_LOCP) k v) as (r & s' & Es & Hd & C); try done;
    [apply lookup_insert_eq|apply lookup_insert_eq|]. exists r, s'. split; [done|]. split; [done|].
  destruct C as [C|(? & ? & ?)]; [by left|right]. auto.
Qed.

(** ** Keys *)

Definition tables_hold (speci : gmap Z Z) (m : gmap Z hurd_ihash) (cur : Z -> gmap Z Z) : Prop :=
  forall t p, speci !! t = Some p -> p <> 0 -> exists ht, m !! p = Some ht /\ hash_ok ht (cur t).

Lemma remove_all_spec speci arry m cur k :
  (forall p, p ∈ arry -> p = INVALID \/ (p <> 0 /\ exists t, speci !! t = Some p)) ->
  (forall t t' p, speci !! t = Some p -> speci !! t' = Some p -> p <> 0 -> t = t') -> tables_hold speci m cur ->
  exists m' cur', remove_all arry m k = Ret m' /\ tables_hold speci m' cur' /\
    forall t p, speci !! t = Some p -> p <> 0 -> cur' t = if bool_decide (p ∈ arry /\ p <> INVALID) then delete k (cur t) else cur t.
Proof.
  intros Harr Hinj. revert m cur. induction arry as [|p arry IH]; intros m cur Hm; cbn [remove_all].
  { by exists m, cur. }
  assert (Harr' : forall q, q ∈ arry -> q = INVALID \/ (q <> 0 /\ exists t, speci !! t = Some q)) by (intros q Hq; apply Harr; by apply list_elem_of_further).
  specialize (IH Harr'). destruct (Z.eqb_spec p INVALID) as [->|Hp].
  { destruct (IH m cur Hm) as (m' & cur' & E & Hm' & Hc). exists m', cur'. split_and!; try done. intros t q Ht Hq. rewrite (Hc _ _ Ht Hq).
    rewrite (bool_decide_ext _ (q ∈ INVALID :: arry /\ q <> INVALID)); [done|]. rewrite elem_of_cons. naive_solver. }
  destruct (Harr p (list_elem_of_here _ _)) as [|(Hp0 & t0 & Ht0)]; [done|]. destruct (Hm _ _ Ht0 Hp0) as (ht & Hht & Hok). rewrite Hht. cbn [lift mbind run_bind].
  destruct (hurd_ihash_remove_correct ht (cur t0) k Hok) as (ht' & ev & E & Hok' & _). rewrite E. cbn [mbind run_bind].
  destruct (IH (<[p := ht']> m) (fun t => if bool_decide (t = t0) then delete k (cur t0) else cur t)) as (m' & cur' & E' & Hm' & Hc).
  - intros t q Ht Hq. case_bool_decide as Et.
    + subst t. rewrite Ht0 in Ht. injection Ht as <-. exists ht'. by rewrite lookup_insert_eq.
    + destruct (Hm _ _ Ht Hq) as (h & Hh & Hokh). exists h. rewrite lookup_insert_ne; [done|]. intros ->. by apply Et, (Hinj _ _ q).
  - exists m', cur'. split_and!; try done. intros t q Ht Hq. rewrite (Hc _ _ Ht Hq). destruct (decide (t = t0)) as [->|Et].
    + rewrite Ht0 in Ht. injection Ht as <-. rewrite (bool_decide_true (t0 = t0)) by done.
      rewrite (bool_decide_true (p ∈ p :: arry /\ _)) by (split; [apply list_elem_of_here|done]). case_bool_decide; [apply delete_delete_eq|done].
    + rewrite (bool_decide_false (t = t0)) by done. assert (q <> p) by (intros ->; by apply Et, (Hinj _ _ p)).
      rewrite (bool_decide_ext _ (q ∈ p :: arry /\ q <> INVALID)); [done|]. rewrite elem_of_cons. naive_solver.
Qed.

(** [pthread_key_delete] of a usable key takes it out of use and its value
    from every thread: the key is without values when it is created again. *)
Theorem pthread_key_delete_correct s vals k :
  keys_ok s vals -> usable s k -> exists s', pthread_key_delete s k = Ret (0, s') /\ keys_ok s' (fun t => delete k (vals t)) /\
    forall j, word_at (destructort_arry s') j = if j =? k then Some INVALID else word_at (destructort_arry s) j.
Proof.
  intros Hk Hu. pose proof Hu as (d & Hd & _). apply word_at_bound in Hd as Hr. unfold pthread_key_delete. rewrite (usable_key _ _ _ Hk Hu). cbn [lift mbind run_bind].
  pose proof (ko_specs _ _ Hk) as Hsp. unfold arr_ok in Hsp. rewrite take_ge by lia.
  destruct (remove_all_spec (pt_speci s) (specific_arry s) (tables s) vals k (ko_arr _ _ Hk) (ko_inj _ _ Hk)) as (m' & cur' & E & Hm & Hc).
  { intros t p Ht Hp. by destruct (ko_table _ _ Hk _ _ Ht Hp) as (_ & _ & ?). }
  rewrite E. cbn [mbind run_bind]. rewrite word_at_set by lia. cbn [lift mbind run_bind]. eexists. split; [done|]. split.
  - split; cbn; try apply Hk.
    + unfold arr_ok. rewrite length_insert. apply (ko_keys _ _ Hk).
    + intros t p Ht Hp. destruct (ko_table _ _ Hk _ _ Ht Hp) as (Hinv & Hin & _). split_and!; try done. destruct (Hm _ _ Ht Hp) as (ht & Hht & Hok).
      exists ht. split; [done|]. rewrite (Hc _ _ Ht Hp), bool_decide_true in Hok by done. done.
    + intros t Ht. rewrite (ko_none _ _ Hk _ Ht). apply delete_empty.
  - intros j. cbn. rewrite word_at_insert by lia. by rewrite Z.eqb_sym.
Qed.

(** [pthread_key_create] gives out a key that is not in use and keeps the
    others; it fails only without memory. *)
Theorem pthread_key_create_correct malloc s vals destructor :
  keys_ok s vals -> destructor <> INVALID -> key_nums s <= 2 ^ 28 ->
  exists r k s', pthread_key_create malloc s destructor = Some (r, k, s') /\ keys_ok s' vals /\
    ((r = 0 /\ ~ usable s k /\ word_at (destructort_arry s') k = Some destructor /\ forall j, j <> k -> usable s' j <-> usable s j) \/
     (r = - ENOMEM /\ malloc = false /\ forall j, usable s' j <-> usable s j)).
Proof.
  intros Hk Hd Hn. unfold pthread_key_create.
  destruct (add_to_arry_spec malloc destructor (destructort_arry s) (key_nums s) (ko_keys _ _ Hk) Hn) as (r & i & l' & n' & E & Hl & C).
  rewrite E. cbn [mbind option_bind]. eexists _, _, _. split; [done|]. split; [split; cbn; try apply Hk; done|].
  destruct C as [(-> & _ & Hat & Hold & Hoth)|(-> & -> & ->)]; [left|by right]. split; [done|]. split; [|split; [done|]].
  - intros (d & Hd' & Hne). destruct Hold; congruence.
  - intros j Hj. unfold usable. cbn. destruct (Hoth _ Hj) as [->|[-> ->]]; [done|]. split; intros (d & E1 & E2); congruence.
Qed.

(** A key may be equal to the number of keys: the test reads behind the array,
    and before the first key is created through NULL. *)
Theorem key_test_past_end s vals self : keys_ok s vals -> pthread_getspecific s self (key_nums s) = Fault /\ pthread_key_delete s (key_nums s) = Fault.
Proof.
  intros Hk. unfold pthread_getspecific, pthread_key_delete, bad_key. rewrite Z.ltb_irrefl. pose proof (ko_keys _ _ Hk) as Hl. unfold arr_ok in Hl.
  assert (E : word_at (destructort_arry s) (key_nums s) = None); [|by rewrite E].
  unfold word_at. rewrite (proj2 (Z.leb_le 0 _)) by lia. apply lookup_ge_None. lia.
Qed.

(** ** An example *)

Definition sample_keys : pstate := PState (55 :: replicate 7 INVALID) 8 [] 0 ∅ ∅.

Lemma sample_keys_ok : keys_ok sample_keys (fun _ => ∅).
Proof. split; try done. intros p Hp. by apply not_elem_of_nil in Hp. Qed.

Lemma pthread_setspecific_witness : exists r s', pthread_setspecific true true 4096 sample_keys 7 0 99 = Ret (r, s') /\ pthread_getspecific s' 7 0 = Ret 99.
Proof.
  destruct (pthread_setspecific_correct true true 4096 sample_keys (fun _ => ∅) 7 0 99) as (r & s' & E & Hd & C).
  - exact sample_keys_ok.
  - exists 55. split; [reflexivity|discriminate].
  - unfold is_word. lia.
  - unfold is_word. lia.
  - discriminate.
  - discriminate.
  - discriminate.
  - intros p ht Hp. discriminate Hp.
  - discriminate.
  - apply not_elem_of_nil.
  - destruct C as [(-> & Hok)|(_ & [Hm|[Hm|Hm]] & _)]; try discriminate Hm. exists 0, s'. split; [exact E|].
    rewrite (getspecific_spec s' _ 7 0 Hok); [reflexivity|]. exists 55. rewrite Hd. split; [reflexivity|discriminate].
Defined.
