(* ===== verification/Stream.v ===== *)
(** * Buffered files of the user library

    [source/libs/grid/stdio]: [stream_file.c], the streams over a pool of 16
    blocks, with the modes of [fopen.c] and the loop of [fread.c].  A stream is
    one record for [struct file] and [struct stdio_file] and known by its
    address; a block of the pool is known by its index, and its 256 KB are a
    function from offsets to bytes.  The system calls that read and write are
    parameters, with the state of the kernel; what reading promises here is what
    [req_read] of [subsystem/fs/main.c] does: whole blocks, as many bytes as the
    file has in the block, and [fss_get_size], 1 MB, as the size of every file.
    [LOCK_FILE] is empty in the source.  [Fault] is an access through NULL or outside a string. *)

From stdpp Require Import gmap.
From S2P Require Import Prelude CString FsCache.
Local Open Scope c_scope.
Import StringOps.

Definition BUF_SIZE : Z := 1024 * 1024 * 4.
Definition BUF_BLOCK_SIZE : Z := 1024 * 256.
Definition BUF_BLOCK_NUM : Z := BUF_SIZE / BUF_BLOCK_SIZE.
Definition BUF_BLOCK_VALID_FLAG : Z := 1.
Definition BUF_BLOCK_DIRTY_FLAG : Z := 2.
Definition BUF_BLOCK_BUSY_FLAG : Z := 4.
Definition BUF_BLOCK_ID (pos : Z) : Z := pos / BUF_BLOCK_SIZE.
Definition BUF_BLOCK_OFFSET (pos : Z) : Z := pos mod BUF_BLOCK_SIZE.
Definition O_RDONLY : Z := 0.
Definition O_WRONLY : Z := 1.
Definition O_RDWR : Z := 2.
Definition O_CREAT : Z := 64.
Definition O_TRUNC : Z := 512.
Definition O_APPEND : Z := 1024.
Definition EIO : Z := 5.
Definition SEEK_SET : Z := 0.
Definition SEEK_CUR : Z := 1.
Definition SEEK_END : Z := 2.
Definition FLAG_LENGTH : Z := 3.

(** The values of [uoffset] and [lsize_t]. *)
Definition wrap64 (z : Z) : Z := z mod 18446744073709551616.

Record buffer_block := Block {
  valid_size : Z;
  pre_id : Z;
  access_count : Z;
  b_flags : Z;
  base : Z -> Z;
  b_file : Z                                       (* 0 is NULL *)
}.

Record file := File {
  pos : Z;
  size : Z;
  handle : Z;
  flags : Z;
  block : option nat                               (* [None] is NULL *)
}.

Record sstate (K : Type) := SState {
  pool : list buffer_block;
  files : gmap Z file;
  kernel : K;
  errno : Z
}.
Arguments SState {K} _ _ _ _.
Arguments pool {K} _.
Arguments files {K} _.
Arguments kernel {K} _.
Arguments errno {K} _.

Module StreamOps.

Definition set_valid (b : buffer_block) (n f : Z) (d : Z -> Z) : buffer_block := Block n (pre_id b) (access_count b) f d (b_file b).
Definition set_bflags (b : buffer_block) (f : Z) : buffer_block := Block (valid_size b) (pre_id b) (access_count b) f (base b) (b_file b).
Definition set_pre (b : buffer_block) (i : Z) : buffer_block := Block (valid_size b) i (access_count b) (b_flags b) (base b) (b_file b).
Definition set_pos (f : file) (p : Z) : file := File p (size f) (handle f) (flags f) (block f).
Definition set_size (f : file) (n : Z) : file := File (pos f) n (handle f) (flags f) (block f).
Definition set_block (f : file) (b : option nat) : file := File (pos f) (size f) (handle f) (flags f) b.

Section Stream.
Context {K : Type}.
(** The requests [SYS_REQ_FILE_READ] (the result, the bytes of the buffer, the
    size of the file) and [SYS_REQ_FILE_WRITE] (the result). *)
Variable syscall_read : K -> Z -> Z -> Z -> Z * (Z -> Z) * Z * K.
Variable syscall_write : K -> Z -> (Z -> Z) -> Z -> Z -> Z * K.
Notation st := (sstate K).

Definition set_pool (s : st) (i : nat) (b : buffer_block) : st := SState (<[i := b]> (pool s)) (files s) (kernel s) (errno s).
Definition set_file (s : st) (f : Z) (x : file) : st := SState (pool s) (<[f := x]> (files s)) (kernel s) (errno s).
Definition set_kernel (s : st) (k : K) : st := SState (pool s) (files s) k (errno s).

(** The stream and its block. *)
Definition get (s : st) (f : Z) : option (file * nat * buffer_block) :=
  x ← files s !! f; i ← block x; b ← pool s !! i; Some (x, i, b).

Definition sys_write (k : K) (h : Z) (user_buffer : Z -> Z) (file_pos n_bytes : Z) : Z * K := syscall_write k h user_buffer file_pos n_bytes.

(** With the stream, whose size follows. *)
Definition sys_read (k : K) (x : file) (file_pos n_bytes : Z) : Z * (Z -> Z) * file * K :=
  let '(ret, data, current_size, k) := syscall_read k (handle x) file_pos n_bytes in
  if ret <? 0 then (ret, data, x, k) else (ret, data, set_size x current_size, k).

Definition append_stream_file (s : st) (h : Z) (buf : Z -> Z) (old_file_size append_bytes : Z) : Z * K :=
  sys_write (kernel s) h buf old_file_size BUF_BLOCK_SIZE.

Definition update_dirty_buffer_block (s : st) (f : Z) : option (bool * st) :=
  '(x, i, b) ← get s f;
  if Z.land (b_flags b) BUF_BLOCK_DIRTY_FLAG =? 0 then Some (true, s) else
  let '(n, k) :=
    if negb (Z.land (flags x) O_APPEND =? 0) || (size x <? pos x)
    then append_stream_file s (handle x) (base b) (size x) (pos x - size x)
    else sys_write (kernel s) (handle x) (base b) (pos x - BUF_BLOCK_OFFSET (pos x)) BUF_BLOCK_SIZE in
  let s := set_kernel s k in
  if n <? 0 then Some (false, s) else
  Some (true, set_pool s i (set_bflags b (Z.land (b_flags b) (w_not BUF_BLOCK_DIRTY_FLAG)))).

Definition swap_out_buffer_block (s : st) (i : nat) : option (bool * st) :=
  b ← pool s !! i;
  '(ret, s) ← update_dirty_buffer_block s (b_file b);
  x ← files s !! b_file b;
  b' ← pool s !! i;
  Some (ret, set_pool (set_file s (b_file b) (set_block x None)) i (Block 0 0 0 0 (base b') 0)).

(** The block with the smallest counter, from the second one on. *)
Fixpoint least (l : list buffer_block) (i mix_index : nat) (mix_access_count : Z) : nat :=
  match l with
  | [] => mix_index
  | b :: l => if access_count b <? mix_access_count then least l (S i) i (access_count b) else least l (S i) mix_index mix_access_count
  end.

Definition get_rebirth_buffer_block (s : st) : option (option nat * st) :=
  match pool s with
  | [] => None
  | b0 :: l =>
    let mix_index := least l 1 0 (access_count b0) in
    b ← pool s !! mix_index;
    if negb (Z.land (b_flags b) BUF_BLOCK_BUSY_FLAG =? 0) then Some (None, s) else
    '(ok, s) ← swap_out_buffer_block s mix_index;
    Some (if (ok : bool) then Some mix_index else None, s)
  end.

Fixpoint free_block (l : list buffer_block) (i : nat) : option nat :=
  match l with
  | [] => None
  | b :: l => if b_file b =? 0 then Some i else free_block l (S i)
  end.

Definition get_free_buffer_block (s : st) : option nat := free_block (pool s) 0.

(** The loop, with the index of the block it gets. *)
Fixpoint take_block (fuel : nat) (s : st) : run (nat * st) :=
  match fuel with
  | O => NoFuel
  | S fuel =>
    match get_free_buffer_block s with
    | Some i => Ret (i, s)
    | None =>
      '(r, s) ← lift (get_rebirth_buffer_block s);
      match r with Some i => Ret (i, s) | None => take_block fuel s end
    end
  end.

Definition get_buffer_block (fuel : nat) (s : st) (f : Z) : run st :=
  '(i, s) ← take_block fuel s;
  x ← lift (files s !! f);
  b ← lift (pool s !! i);
  let s := set_file s f (set_block x (Some i)) in
  Ret (set_pool s i (Block (valid_size b) (pre_id b) (to_int (access_count b + 1)) (Z.lor (b_flags b) BUF_BLOCK_BUSY_FLAG) (base b) f)).

Definition put_buffer_block (s : st) (f : Z) : option st :=
  '(_, i, b) ← get s f; Some (set_pool s i (set_bflags b (Z.land (b_flags b) (w_not BUF_BLOCK_BUSY_FLAG)))).

Definition make_valid_data (s : st) (f : Z) : option (bool * st) :=
  '(x, i, b) ← get s f;
  let fpos := pos x in
  s ← (if negb (pre_id b =? BUF_BLOCK_ID fpos) then
         '(_, s) ← update_dirty_buffer_block s f;
         '(_, i, b) ← get s f;
         Some (set_pool s i (set_bflags b (Z.land (b_flags b) (w_not BUF_BLOCK_VALID_FLAG))))
       else Some s);
  '(x, i, b) ← get s f;
  if negb (Z.land (b_flags b) BUF_BLOCK_VALID_FLAG =? 0) then Some (true, s) else
  let '(n, data, x, k) := sys_read (kernel s) x (wrap64 (BUF_BLOCK_ID fpos * BUF_BLOCK_SIZE)) BUF_BLOCK_SIZE in
  let s := set_file (set_kernel s k) f x in
  if 0 <? n then Some (true, set_pool s i (set_valid b n (Z.lor (b_flags b) BUF_BLOCK_VALID_FLAG) data))
  else Some (false, set_pool s i (set_valid b (valid_size b) (b_flags b) data)).

(** [memcpy] out of the block. *)
Definition slice (d : Z -> Z) (off len : Z) : list Z := (fun j => d (off + j)) <$> seqZ 0 len.

(** The loop of [stdio_fread]; the bytes read so far, [None] for the jump to
    [end_grab:]. *)
Fixpoint read_loop (fuel : nat) (s : st) (f n_bytes : Z) (out : list Z) : run (bool * list Z * st) :=
  match fuel with
  | O => NoFuel
  | S fuel =>
    x ← lift (files s !! f);
    if negb ((pos x <? size x) && (0 <? n_bytes)) then Ret (true, out, s) else
    '(ok, s) ← lift (make_valid_data s f);
    if negb ok then Ret (false, out, s) else
    '(x, i, b) ← lift (get s f);
    let tmp_len := wrap (valid_size b - BUF_BLOCK_OFFSET (pos x)) in
    let tmp_len := if n_bytes <? tmp_len then n_bytes else tmp_len in
    let out := out ++ slice (base b) (BUF_BLOCK_OFFSET (pos x)) tmp_len in
    let s := set_pool s i (set_pre b (to_int (BUF_BLOCK_ID (pos x)))) in
    let s := set_file s f (set_pos x (wrap64 (pos x + tmp_len))) in
    read_loop fuel s f (n_bytes - tmp_len) out
  end.

Definition stdio_fread (fuel : nat) (s : st) (f n_bytes : Z) : run (Z * list Z * st) :=
  x ← lift (files s !! f);
  if negb (Z.land (flags x) O_WRONLY =? 0) then Ret (- 1, [], SState (pool s) (files s) (kernel s) 1) else
  if size x =? 0 then Ret (0, [], s) else
  s ← (if block x then Ret s else get_buffer_block fuel s f);
  '(ok, out, s) ← read_loop fuel s f n_bytes [];
  y ← lift (files s !! f);
  s ← lift (put_buffer_block s f);
  Ret (if (ok : bool) then to_int (pos y - wrap (pos x)) else - 1, out, s).

(** [memcpy] of [len] bytes of [buf] from [i] on into the block. *)
Definition overlay (d : Z -> Z) (off : Z) (buf : list Z) (i len : Z) : Z -> Z :=
  fun o => if (off <=? o) && (o <? off + len) then default 0 (word_at buf (i + (o - off))) else d o.

Fixpoint write_loop (fuel : nat) (s : st) (f n_bytes : Z) (buf : list Z) (i : Z) : run (bool * st) :=
  match fuel with
  | O => NoFuel
  | S fuel =>
    if negb (0 <? n_bytes) then Ret (true, s) else
    '(ok, s) ← lift (make_valid_data s f);
    if negb ok && (errno s =? EIO) then Ret (false, s) else
    '(x, j, b) ← lift (get s f);
    let tmp_len := BUF_BLOCK_SIZE - BUF_BLOCK_OFFSET (pos x) in
    let tmp_len := if n_bytes <? tmp_len then n_bytes else tmp_len in
    let d := overlay (base b) (BUF_BLOCK_OFFSET (pos x)) buf i tmp_len in
    let b := Block (valid_size b) (to_int (BUF_BLOCK_ID (pos x))) (access_count b) (Z.lor (b_flags b) BUF_BLOCK_DIRTY_FLAG) d (b_file b) in
    let s := set_file (set_pool s j b) f (set_pos x (wrap64 (pos x + tmp_len))) in
    write_loop fuel s f (n_bytes - tmp_len) buf (i + tmp_len)
  end.

Definition stdio_fwrite (fuel : nat) (s : st) (f : Z) (buf : list Z) (n_bytes : Z) : run (Z * st) :=
  x ← lift (files s !! f);
  if (Z.land (flags x) O_WRONLY =? 0) && (Z.land (flags x) O_RDWR =? 0) then Ret (0, s) else
  s ← (if block x then Ret s else get_buffer_block fuel s f);
  x ← lift (files s !! f);
  let x := if negb (Z.land (flags x) O_APPEND =? 0) then set_pos x (size x) else x in
  let s := set_file s f x in
  '(ok, s) ← write_loop fuel s f n_bytes buf 0;
  y ← lift (files s !! f);
  s ← lift (put_buffer_block s f);
  Ret (if (ok : bool) then to_int (pos y - wrap (pos x)) else - 1, s).

(** The new position and the error code; [tmp_pos] is unsigned, so that its test
    never fails. *)
Definition seek_pos (x : file) (offset whence err : Z) : Z * Z :=
  if whence =? SEEK_SET then (wrap64 offset, err) else
  if whence =? SEEK_CUR then (wrap64 (pos x + offset), err) else
  if whence =? SEEK_END then (wrap64 (size x + offset), err) else (wrap64 (- 1), 22).

Definition stdio_fseek (s : st) (f offset whence : Z) : option (Z * st) :=
  x ← files s !! f;
  s ← (if block x then '(_, s) ← update_dirty_buffer_block s f; Some s else Some s);
  x ← files s !! f;
  let '(tmp_pos, err) := seek_pos x offset whence (errno s) in
  let s := SState (pool s) (files s) (kernel s) err in
  if tmp_pos <? 0 then Some (- 1, s) else Some (0, set_file s f (set_pos x tmp_pos)).

Definition stdio_fclose (s : st) (f : Z) : option (Z * st) :=
  x ← files s !! f;
  s ← match block x with Some i => '(_, s) ← swap_out_buffer_block s i; Some s | None => Some s end;
  Some (0, SState (pool s) (delete f (files s)) (kernel s) (errno s)).

(** [fread]: the number of items and what was copied for each; a read that
    returns anything counts as an item. *)
Fixpoint fread_loop (fuel n : nat) (s : st) (f size : Z) (items : list (list Z)) : run (list (list Z) * st) :=
  match n with
  | O => Ret (items, s)
  | S n =>
    '(ret, data, s) ← stdio_fread fuel s f size;
    if ret <=? 0 then Ret (items, s) else fread_loop fuel n s f size (items ++ [data])
  end.

Definition fread (fuel : nat) (s : st) (f size nmemb : Z) : run (Z * list (list Z) * st) :=
  '(items, s) ← fread_loop fuel (Z.to_nat nmemb) s f size [];
  Ret (Z.of_nat (length items), items, s).

(** *** Files without a block: [nocache_file.c] *)

Definition nocache_fwrite (s : st) (f : Z) (buf : Z -> Z) (n_bytes : Z) : option (Z * st) :=
  x ← files s !! f;
  if (Z.land (flags x) O_WRONLY =? 0) && (Z.land (flags x) O_RDWR =? 0) then Some (0, s) else
  let x := if negb (Z.land (flags x) O_APPEND =? 0) then set_pos x (size x) else x in
  let '(ret, k) := sys_write (kernel s) (handle x) buf (pos x) n_bytes in
  Some (ret, set_file (set_kernel s k) f (set_pos x (wrap64 (pos x + n_bytes)))).

(** The result, the bytes of the buffer when it was passed on. *)
Definition nocache_fread (s : st) (f n_bytes : Z) : option (Z * option (Z -> Z) * st) :=
  x ← files s !! f;
  if negb (Z.land (flags x) O_WRONLY =? 0) then Some (0, None, s) else
  if size x =? 0 then Some (0, None, s) else
  let '(ret, data, x, k) := sys_read (kernel s) x (pos x) n_bytes in
  Some (ret, Some data, set_file (set_kernel s k) f (set_pos x (wrap64 (pos x + ret)))).

Definition nocache_fseek (s : st) (f offset whence : Z) : option (Z * st) :=
  x ← files s !! f;
  let '(tmp_pos, err) := seek_pos x offset whence (errno s) in
  let s := SState (pool s) (files s) (kernel s) err in
  if tmp_pos <? 0 then Some (- 1, s) else Some (0, set_file s f (set_pos x tmp_pos)).

Definition nocache_fclose (s : st) (f : Z) : option (Z * st) :=
  _ ← files s !! f; Some (0, SState (pool s) (delete f (files s)) (kernel s) (errno s)).

End Stream.

(** The blocks after [stream_file_buffer_init], whose memory holds [raw]. *)
Definition stream_file_buffer_init (malloc : bool) (raw : Z -> Z) (old : list buffer_block) : bool * list buffer_block :=
  if negb malloc then (false, old) else
  (true, imap (fun i b => Block (valid_size b) (pre_id b) 0 0 (fun o => raw (Z.of_nat i * BUF_BLOCK_SIZE + o)) (b_file b)) old).

(** *** The modes of [fopen] *)

(** A character beyond 127 is a negative index of [ascii_array]. *)
Fixpoint check_repeat (str : list Z) (ascii_array : Z -> Z) : option bool :=
  match str with
  | [] => None
  | c :: str =>
    if c =? 0 then Some false else
    if 128 <=? c then None else
    let a := fun x => if x =? c then ascii_array x + 1 else ascii_array x in
    if 2 <=? a c then Some true else check_repeat str a
  end.

Fixpoint mode_rest (type : list Z) (access_modes : Z) : option (option Z) :=
  match type with
  | [] => None
  | c :: type =>
    if c =? 0 then Some (Some access_modes) else
    if c =? 98 then mode_rest type access_modes else
    if c =? 43 then mode_rest type O_RDWR else Some None
  end.

(** The flags, or [Some None] when the mode is refused. *)
Definition set_file_flags (type : list Z) : option (option Z) :=
  n ← strlen type;
  if FLAG_LENGTH <? n then Some None else
  r ← check_repeat type (fun _ => 0);
  if (r : bool) then Some None else
  c ← type !! 0%nat;
  match (if c =? 114 then Some (O_RDONLY, 0) else
         if c =? 119 then Some (O_WRONLY, Z.lor O_CREAT O_TRUNC) else
         if c =? 97 then Some (O_WRONLY, Z.lor O_CREAT O_APPEND) else None) with
  | None => Some None
  | Some (access_modes, status_flags) =>
    m ← mode_rest (drop 1 type) access_modes;
    Some (m ← m; Some (Z.lor m status_flags))
  end.

(** *** [fopen] *)

Section Open.
Context {K : Type}.
(** The requests that open (the handle and the size left in the request), create,
    truncate and close, and [malloc]. *)
Variable syscall_open : K -> list Z -> Z * Z * K.
Variable syscall_create : K -> list Z -> Z * K.
Variable syscall_ftruncate : K -> Z -> Z -> Z * K.
Variable syscall_close : K -> Z -> K.
Variable malloc : K -> option Z.
Notation st := (sstate K).

Definition KE_INVALID_HANDLE : Z := ULONG_MAX.

(** [filp_open]: the handle, the stream. *)
Definition filp_open (k : K) (x : file) (path : list Z) (oflags : Z) : Z * file * K :=
  let '(h, n, k) := syscall_open k path in
  let x := set_size x n in
  let done h x k := (h, File (pos x) (size x) h (flags x) (block x), k) in
  if h =? KE_INVALID_HANDLE then
    if Z.land oflags O_CREAT =? 0 then (KE_INVALID_HANDLE, x, k) else
    let '(h, k) := syscall_create k path in
    if h =? KE_INVALID_HANDLE then (KE_INVALID_HANDLE, x, k) else done h x k
  else if negb (Z.land oflags O_TRUNC =? 0) then
    let '(r, k) := syscall_ftruncate k h 0 in
    if negb (r =? 0) then (KE_INVALID_HANDLE, x, syscall_close k h) else done h (set_size x 0) k
  else done h x k.

Definition fopen (s : st) (path type : list Z) : option (option Z * st) :=
  match malloc (kernel s) with
  | None => Some (None, s)
  | Some f =>
    m ← set_file_flags type;
    match m with
    | None => Some (None, SState (pool s) (files s) (kernel s) 22)
    | Some fl =>
      let '(h, x, k) := filp_open (kernel s) (File 0 0 0 fl None) path fl in
      if h =? KE_INVALID_HANDLE then Some (None, set_kernel s k) else Some (Some f, set_file (set_kernel s k) f x)
    end
  end.
End Open.

End StreamOps.
Import StreamOps.

(** ** Reading *)

Section Spec.
Context {K : Type}.
Variable syscall_read : K -> Z -> Z -> Z -> Z * (Z -> Z) * Z * K.
Variable syscall_write : K -> Z -> (Z -> Z) -> Z -> Z -> Z * K.
Notation st := (sstate K).

(** What the kernel keeps for a handle: the length and the bytes. *)
Variable len : K -> Z -> Z.
Variable content : K -> Z -> Z -> Z.

Definition same_content (k k' : K) : Prop := forall h, len k' h = len k h /\ forall o, content k' h o = content k h o.

(** The read of a block that starts before the end of the file gives its bytes, up to
    the end of the file, and reports the size that [fss_get_size] has for every
    file. *)
Hypothesis read_law : forall k h q, 0 <= q -> q * BUF_BLOCK_SIZE < len k h -> exists data k',
  syscall_read k h (q * BUF_BLOCK_SIZE) BUF_BLOCK_SIZE = (Z.min BUF_BLOCK_SIZE (len k h - q * BUF_BLOCK_SIZE), data, fss_get_size, k') /\ same_content k k' /\
  forall o, 0 <= o < Z.min BUF_BLOCK_SIZE (len k h - q * BUF_BLOCK_SIZE) -> data o = content k h (q * BUF_BLOCK_SIZE + o).

(** The block holds the block [q] of the file. *)
Definition data_at (k : K) (h : Z) (b : buffer_block) (q : Z) : Prop :=
  0 <= q /\ q * BUF_BLOCK_SIZE < len k h /\ valid_size b = Z.min BUF_BLOCK_SIZE (len k h - q * BUF_BLOCK_SIZE) /\
  forall o, 0 <= o < valid_size b -> base b o = content k h (q * BUF_BLOCK_SIZE + o).

Definition valid (b : buffer_block) : Prop := Z.land (b_flags b) BUF_BLOCK_VALID_FLAG <> 0.

(** Blocks and streams belong to each other, no block waits to be written, only
    that of [f] can be busy, and valid blocks hold what they are for. *)
Record pool_ok (s : st) (f : Z) : Prop := {
  po_len : pool s <> [];
  po_flags : forall i b, pool s !! i = Some b -> b_flags b = 0 \/ b_flags b = 1 \/ (b_file b = f /\ f <> 0 /\ (b_flags b = 4 \/ b_flags b = 5));
  po_free : forall i b, pool s !! i = Some b -> b_file b = 0 -> b_flags b = 0;
  po_file : forall i b, pool s !! i = Some b -> b_file b <> 0 -> exists x, files s !! b_file b = Some x /\ block x = Some i;
  po_block : forall g x i, files s !! g = Some x -> block x = Some i -> g <> 0 /\ exists b, pool s !! i = Some b /\ b_file b = g /\
    (valid b -> data_at (kernel s) (handle x) b (pre_id b))
}.

Lemma data_same k k' h b q : same_content k k' -> data_at k h b q -> data_at k' h b q.
Proof.
  intros Hs (H1 & H2 & H3 & H4). destruct (Hs h) as [El Ec]. unfold data_at. rewrite El. split_and!; try done. intros o Ho. rewrite Ec. by apply H4.
Qed.

(** Replacing the block and the record of one stream. *)
Lemma stream_update s f k i b b' x x' :
  pool_ok s f -> files s !! f = Some x -> block x = Some i -> pool s !! i = Some b -> block x' = Some i -> b_file b' = f ->
  (b_flags b' = 0 \/ b_flags b' = 1 \/ b_flags b' = 4 \/ b_flags b' = 5) -> same_content (kernel s) k ->
  (valid b' -> data_at k (handle x') b' (pre_id b')) ->
  pool_ok (SState (<[i := b']> (pool s)) (<[f := x']> (files s)) k (errno s)) f.
Proof.
  intros Hp Hx Hi Hb Hi' Hb' Hfl Hs Hd. destruct (po_block _ _ Hp _ _ _ Hx Hi) as (Hf0 & b0 & Hb0 & Hbf & _). rewrite Hb in Hb0. injection Hb0 as <-.
  apply lookup_lt_Some in Hb as Hlt. split; cbn.
  - intros E. apply (f_equal length) in E. rewrite length_insert in E. cbn in E. lia.
  - intros j c. rewrite list_lookup_insert_Some. intros [(<- & <- & _)|[_ Hc]]; [|by eapply (po_flags _ _ Hp)]. destruct Hfl as [?|[?|?]]; auto 6.
  - intros j c. rewrite list_lookup_insert_Some. intros [(<- & <- & _)|[_ Hc]]; [by rewrite Hb'|by eapply (po_free _ _ Hp)].
  - intros j c. rewrite list_lookup_insert_Some. intros [(<- & <- & _)|[Hne Hc]] Hc0.
    + exists x'. rewrite Hb'. by rewrite lookup_insert_eq.
    + destruct (po_file _ _ Hp _ _ Hc Hc0) as (y & Hy & Hj). exists y. rewrite lookup_insert_ne; [done|]. intros E. rewrite <- E in Hy. congruence.
  - intros g y j. rewrite lookup_insert_Some. intros [[<- <-]|[Hne Hy]] Hj.
    + rewrite Hi' in Hj. injection Hj as <-. split; [done|]. exists b'. rewrite list_lookup_insert_eq by done. done.
    + destruct (po_block _ _ Hp _ _ _ Hy Hj) as (Hg0 & c & Hc & Hcf & Hcd). split; [done|]. exists c. rewrite list_lookup_insert_ne; [|congruence].
      split_and!; try done. intros Hv. eapply data_same; [exact Hs|by apply Hcd].
Qed.

Lemma block_position p : 0 <= p -> BUF_BLOCK_ID p * BUF_BLOCK_SIZE + BUF_BLOCK_OFFSET p = p /\ 0 <= BUF_BLOCK_OFFSET p < BUF_BLOCK_SIZE /\ 0 <= BUF_BLOCK_ID p.
Proof.
  intros Hp. unfold BUF_BLOCK_ID, BUF_BLOCK_OFFSET, BUF_BLOCK_SIZE. pose proof (Z.div_mod p (1024 * 256)). pose proof (Z.mod_pos_bound p (1024 * 256)).
  pose proof (Z.div_pos p (1024 * 256)). lia.
Qed.

Lemma get_eq (s : st) f x i b : files s !! f = Some x -> block x = Some i -> pool s !! i = Some b -> get s f = Some (x, i, b).
Proof. intros Hx Hi Hb. unfold get. rewrite Hx. cbn. rewrite Hi. cbn. by rewrite Hb. Qed.

Lemma clean_update (s : st) f x i b :
  get s f = Some (x, i, b) -> Z.land (b_flags b) BUF_BLOCK_DIRTY_FLAG = 0 -> update_dirty_buffer_block syscall_write s f = Some (true, s).
Proof. intros E Hc. unfold update_dirty_buffer_block. rewrite E. cbn [mbind option_bind]. by rewrite Hc. Qed.

(** A stream in an operation and its block. *)
Record at_block (s : st) (f : Z) (x : file) (i : nat) (b : buffer_block) : Prop := {
  ab_ok : pool_ok s f;
  ab_file : files s !! f = Some x;
  ab_block : block x = Some i;
  ab_pool : pool s !! i = Some b
}.

Lemma ab_flags s f x i b : at_block s f x i b -> b_file b = f /\ (b_flags b = 0 \/ b_flags b = 1 \/ b_flags b = 4 \/ b_flags b = 5) /\
  (valid b -> data_at (kernel s) (handle x) b (pre_id b)).
Proof.
  intros [Hp Hx Hi Hb]. destruct (po_block _ _ Hp _ _ _ Hx Hi) as (Hf & c & Hc & Hcf & Hd). rewrite Hb in Hc. injection Hc as <-.
  split; [done|]. split; [|done]. destruct (po_flags _ _ Hp _ _ Hb) as [?|[?|(_ & _ & [?|?])]]; auto.
Qed.

Lemma at_block_update s f k i b b' x x' :
  at_block s f x i b -> block x' = Some i -> b_file b' = f -> (b_flags b' = 0 \/ b_flags b' = 1 \/ b_flags b' = 4 \/ b_flags b' = 5) ->
  same_content (kernel s) k -> (valid b' -> data_at k (handle x') b' (pre_id b')) ->
  at_block (SState (<[i := b']> (pool s)) (<[f := x']> (files s)) k (errno s)) f x' i b'.
Proof.
  intros [Hp Hx Hi Hb] Hi' Hb' Hfl Hs Hd. split; cbn; [by eapply stream_update|apply lookup_insert_eq|done|].
  apply list_lookup_insert_eq. by eapply lookup_lt_Some.
Qed.

Lemma same_content_refl k : same_content k k.
Proof. by intros h. Qed.

Definition read_flags (b : buffer_block) : Prop := b_flags b = 0 \/ b_flags b = 1 \/ b_flags b = 4 \/ b_flags b = 5.

Lemma flags_clean b : read_flags b -> Z.land (b_flags b) BUF_BLOCK_DIRTY_FLAG = 0.
Proof. by intros [->|[->|[->| ->]]]. Qed.

(** [make_valid_data] and the note of the block that follows it in the loop. *)
Lemma valid_data_spec s f x i b :
  at_block s f x i b -> size x = fss_get_size -> 0 <= pos x < size x -> BUF_BLOCK_ID (pos x) * BUF_BLOCK_SIZE < len (kernel s) (handle x) ->
  exists s' b', make_valid_data syscall_read syscall_write s f = Some (true, s') /\ files s' = files s /\ pool s' !! i = Some b' /\
    same_content (kernel s) (kernel s') /\ data_at (kernel s') (handle x) b' (BUF_BLOCK_ID (pos x)) /\
    forall x', block x' = Some i -> handle x' = handle x ->
      at_block (set_file (set_pool s' i (set_pre b' (BUF_BLOCK_ID (pos x)))) f x') f x' i (set_pre b' (BUF_BLOCK_ID (pos x))).
Proof.
  intros Hab Hsize Hpos Hlen. pose proof Hab as [Hp Hx Hi Hb]. destruct (ab_flags _ _ _ _ _ Hab) as (Hbf & Hfl & Hd).
  destruct (block_position (pos x)) as (Epos & Hoff & Hq); [lia|]. set (q := BUF_BLOCK_ID (pos x)) in *. apply lookup_lt_Some in Hb as Hlt. assert (0 <= q * BUF_BLOCK_SIZE < fss_get_size) as Hr by (unfold BUF_BLOCK_SIZE in *; lia).
  unfold make_valid_data. rewrite (get_eq _ _ _ _ _ Hx Hi Hb). cbn [mbind option_bind]. fold q.
  (* the block after the test of its number *)
  set (b1 := if negb (pre_id b =? q) then set_bflags b (Z.land (b_flags b) (w_not BUF_BLOCK_VALID_FLAG)) else b).
  set (s1 := SState (<[i := b1]> (pool s)) (files s) (kernel s) (errno s)).
  assert (E1 : (if negb (pre_id b =? q) then
         '(_, s) ← update_dirty_buffer_block syscall_write s f;
         '(_, i, b) ← get s f;
         Some (set_pool s i (set_bflags b (Z.land (b_flags b) (w_not BUF_BLOCK_VALID_FLAG))))
       else Some s) = Some s1).
  { unfold s1, b1. destruct (Z.eqb_spec (pre_id b) q); cbn [negb].
    - rewrite list_insert_id by done. by destruct s.
    - rewrite (clean_update _ _ _ _ _ (get_eq _ _ _ _ _ Hx Hi Hb) (flags_clean _ Hfl)). cbn [mbind option_bind]. by rewrite (get_eq _ _ _ _ _ Hx Hi Hb). }
  rewrite E1. cbn [mbind option_bind]. assert (Hb1 : pool s1 !! i = Some b1) by (by apply list_lookup_insert_eq).
  assert (Hfl1 : read_flags b1 /\ b_file b1 = f /\ (valid b1 -> data_at (kernel s) (handle x) b1 q)).
  { unfold b1. destruct (Z.eqb_spec (pre_id b) q) as [Eq|Eq]; cbn [negb]; [rewrite <- Eq; by split_and!|].
    destruct Hfl as [E|[E|[E|E]]]; unfold read_flags, valid, set_bflags; cbn; rewrite E; split_and!; auto; by intros []. }
  destruct Hfl1 as (Hfl1 & Hbf1 & Hd1). rewrite (get_eq s1 f x i b1 Hx Hi Hb1). cbn [mbind option_bind].
  destruct (Z.eqb_spec (Z.land (b_flags b1) BUF_BLOCK_VALID_FLAG) 0) as [Ev|Ev]; cbn [negb].
  - destruct (read_law (kernel s) (handle x) q Hq Hlen) as (data & k' & Er & Hsame & Hdata).
    unfold wrap64. rewrite Z.mod_small by (unfold fss_get_size in *; lia). unfold sys_read. cbn [kernel s1]. rewrite Er.
    set (n := Z.min BUF_BLOCK_SIZE (len (kernel s) (handle x) - q * BUF_BLOCK_SIZE)) in *.
    assert (Hn : 0 < n) by (unfold n, BUF_BLOCK_SIZE in *; lia). rewrite (proj2 (Z.ltb_ge n 0)), (proj2 (Z.ltb_lt 0 n)) by lia. rewrite <- Hsize.
    replace (set_size x (size x)) with x by (by destruct x).
    set (b2 := set_valid b1 n (Z.lor (b_flags b1) BUF_BLOCK_VALID_FLAG) data).
    assert (Hd2 : data_at k' (handle x) b2 q).
    { eapply data_same; [exact Hsame|]. unfold data_at. fold n. split; [done|]. split; [unfold BUF_BLOCK_SIZE in *; lia|]. split; [done|]. intros o Ho. by apply Hdata. }
    eexists _, b2. split; [done|]. cbn. rewrite insert_id, list_lookup_insert_eq by (rewrite ?length_insert; done).
    split_and!; try done. intros x' Hi' Hh'. unfold set_file, set_pool, set_kernel. cbn. rewrite !list_insert_insert_eq, ?insert_insert_eq.
    apply (at_block_update s f k' i b (set_pre b2 q) x x'); try done.
    + destruct Hfl1 as [E|[E|[E|E]]]; cbn; rewrite E; auto.
    + intros _. by rewrite Hh'.
  - exists s1, b1. split; [done|]. split; [done|]. split; [done|]. split; [apply same_content_refl|]. split; [by apply Hd1|].
    intros x' Hi' Hh'. unfold set_file, set_pool, s1. cbn. rewrite list_insert_insert_eq.
    apply (at_block_update s f (kernel s) i b (set_pre b1 q) x x'); try done.
    intros _. rewrite Hh'. by apply Hd1.
Qed.

(** *** The bytes copied *)

Lemma slice_app d p a b : 0 <= a -> 0 <= b -> slice d p (a + b) = slice d p a ++ slice d (p + a) b.
Proof.
  intros Ha Hb. unfold slice. rewrite seqZ_app by lia. rewrite fmap_app. f_equal. rewrite Z.add_0_l. rewrite <- (Z.add_0_r a) at 1.
  rewrite <- fmap_add_seqZ, <- list_fmap_compose. apply list_fmap_ext. intros _ j _. cbn. f_equal. lia.
Qed.

Lemma slice_ext d d' p p' n : (forall j, 0 <= j < n -> d (p + j) = d' (p' + j)) -> slice d p n = slice d' p' n.
Proof. intros H. apply list_fmap_ext. intros i j Hj. apply lookup_seqZ in Hj. apply H. lia. Qed.

Lemma slice_length d p n : 0 <= n -> Z.of_nat (length (slice d p n)) = n.
Proof. intros Hn. unfold slice. rewrite length_fmap, length_seqZ. lia. Qed.

(** What a read of [n] bytes can give at the position of the stream. *)
Definition readable (x : file) (n : Z) : Z := Z.max 0 (Z.min n (size x - pos x)).

(** A round of the loop: [m] bytes of the block in which the position is, all that
    the block still has or all that are asked for. *)
Lemma read_round fuel s f x i b n out :
  at_block s f x i b -> size x = fss_get_size -> 0 <= pos x < size x -> 0 < n ->
  pos x <= len (kernel s) (handle x) -> BUF_BLOCK_ID (pos x) * BUF_BLOCK_SIZE < len (kernel s) (handle x) ->
  let m := Z.min n (Z.min BUF_BLOCK_SIZE (len (kernel s) (handle x) - BUF_BLOCK_ID (pos x) * BUF_BLOCK_SIZE) - BUF_BLOCK_OFFSET (pos x)) in
  exists s1 b1, read_loop syscall_read syscall_write (S fuel) s f n out
      = read_loop syscall_read syscall_write fuel s1 f (n - m) (out ++ slice (content (kernel s) (handle x)) (pos x) m) /\
    at_block s1 f (set_pos x (pos x + m)) i b1 /\ same_content (kernel s) (kernel s1) /\ files s1 = <[f := set_pos x (pos x + m)]> (files s).
Proof.
  intros Hab Hsize Hpos Hn Hle Hlen m. pose proof (ab_file _ _ _ _ _ Hab) as Hx. cbn [read_loop]. rewrite Hx. cbn [lift mbind run_bind].
  rewrite (proj2 (Z.ltb_lt (pos x) _)), (proj2 (Z.ltb_lt 0 _)) by lia. cbn [negb andb].
  destruct (valid_data_spec s f x i b Hab Hsize Hpos Hlen) as (s1 & b1 & E1 & Ef1 & Hb1 & Hsame & Hdata & Hnext).
  rewrite E1. cbn [lift mbind run_bind negb]. rewrite (get_eq s1 f x i b1); [|by rewrite Ef1|by apply Hab|done]. cbn [lift mbind run_bind].
  destruct (block_position (pos x)) as (Epos & Hoff & Hq); [lia|]. set (q := BUF_BLOCK_ID (pos x)) in *. set (off := BUF_BLOCK_OFFSET (pos x)) in *.
  destruct Hdata as (_ & Hqlen & Hv & Hbytes). destruct (Hsame (handle x)) as [El Ec]. rewrite El in Hqlen, Hv.
  assert (Hoffv : 0 <= valid_size b1 - off) by (unfold BUF_BLOCK_SIZE in *; lia).
  assert (Hm : 0 <= m <= n /\ m <= valid_size b1 - off) by (unfold m; lia).
  assert (Et : wrap (valid_size b1 - off) = valid_size b1 - off) by (apply wrap_small; unfold is_word, BUF_BLOCK_SIZE in *; lia).
  rewrite Et. replace (if n <? valid_size b1 - off then n else valid_size b1 - off) with m by (unfold m; rewrite <- Hv; case_if; lia).
  rewrite to_int_small by (unfold BUF_BLOCK_SIZE, fss_get_size in *; lia).
  replace (wrap64 (pos x + m)) with (pos x + m) by (unfold wrap64; rewrite Z.mod_small; unfold fss_get_size, BUF_BLOCK_SIZE in *; lia).
  eexists _, _. split; [|split; [exact (Hnext (set_pos x (pos x + m)) (ab_block _ _ _ _ _ Hab) eq_refl)|split; [done|]]].
  - do 2 f_equal. apply slice_ext. intros j Hj. rewrite Hbytes by lia. rewrite Ec. f_equal. lia.
  - cbn. by rewrite Ef1.
Qed.

Lemma same_content_trans k k1 k2 : same_content k k1 -> same_content k1 k2 -> same_content k k2.
Proof. intros H1 H2 h. destruct (H1 h) as [E1 F1], (H2 h) as [-> F2]. split; [done|]. intros o. by rewrite F2. Qed.

(** The last block of a file that [fss_get_size] covers is not longer than the file is
    said to be. *)
Lemma block_before_end p : 0 <= p < fss_get_size -> BUF_BLOCK_SIZE - BUF_BLOCK_OFFSET p <= fss_get_size - p.
Proof.
  intros Hp. destruct (block_position p) as (E & Hoff & Hq); [lia|]. assert (BUF_BLOCK_ID p <= 3) by (unfold fss_get_size, BUF_BLOCK_SIZE in *; lia).
  unfold fss_get_size, BUF_BLOCK_SIZE in *. lia.
Qed.

Lemma read_loop_spec fuel s f x i b n out :
  at_block s f x i b -> size x = fss_get_size -> 0 <= pos x -> readable x n = 0 \/ pos x + readable x n <= len (kernel s) (handle x) -> 0 <= n -> n < Z.of_nat fuel ->
  exists s' b', read_loop syscall_read syscall_write fuel s f n out = Ret (true, out ++ slice (content (kernel s) (handle x)) (pos x) (readable x n), s') /\
    at_block s' f (set_pos x (pos x + readable x n)) i b' /\ same_content (kernel s) (kernel s') /\
    files s' = <[f := set_pos x (pos x + readable x n)]> (files s).
Proof.
  revert s x b n out. induction fuel as [|fuel IH]; intros s x b n out Hab Hsize Hpos Hlen Hn Hfuel; [lia|].
  destruct (decide (pos x < size x /\ 0 < n)) as [[H1 H2]|Hend].
  2:{ pose proof (ab_file _ _ _ _ _ Hab) as Hx. cbn [read_loop]. rewrite Hx. cbn [lift mbind run_bind].
      assert (E : readable x n = 0) by (unfold readable; lia). rewrite E, Z.add_0_r.
      replace (set_pos x (pos x)) with x by (by destruct x).
      replace (negb ((pos x <? size x) && (0 <? n))) with true by (symmetry; rewrite negb_true_iff, andb_false_iff, !Z.ltb_ge; lia).
      exists s, b. rewrite insert_id, app_nil_r by done. split; [done|]. split; [done|]. split; [apply same_content_refl|done]. }
  assert (pos x + readable x n <= len (kernel s) (handle x)) as Hl by (destruct Hlen as [E|]; [unfold readable in E; lia|done]).
  destruct (block_position (pos x)) as (Epos & Hoff & Hq); [lia|]. pose proof (block_before_end (pos x) ltac:(lia)) as Hend.
  destruct (read_round fuel s f x i b n out Hab Hsize) as (s1 & b1 & E1 & Hab1 & Hsame & Ef1); [lia|done|unfold readable in Hl; lia|unfold readable, BUF_BLOCK_SIZE in *; lia|].
  set (m := Z.min n _) in *. assert (Hm : 0 < m <= readable x n) by (unfold m, readable, BUF_BLOCK_SIZE in *; lia).
  set (x1 := set_pos x (pos x + m)) in *. destruct (Hsame (handle x)) as [El Ec].
  assert (Er : readable x n = m + readable x1 (n - m)) by (unfold readable, x1 in *; cbn; lia).
  assert (Hr0 : 0 <= readable x1 (n - m)) by (unfold readable; lia).
  destruct (IH s1 x1 b1 (n - m) (out ++ slice (content (kernel s) (handle x)) (pos x) m) Hab1) as (s2 & b2 & E2 & Hab2 & Hs2 & Ef2);
    [done|cbn; lia|right; change (handle x1) with (handle x); rewrite El; cbn [x1 pos set_pos]; lia|unfold readable in Hm; lia|lia|].
  exists s2, b2. rewrite E1, E2, Er, Z.add_assoc. split.
  - rewrite slice_app, <- app_assoc by lia. do 5 f_equal. apply slice_ext. intros j Hj. apply Ec.
  - split; [exact Hab2|]. split; [by eapply same_content_trans|]. rewrite Ef2, Ef1. cbn. by rewrite insert_insert_eq.
Qed.

(** A request beyond the end of the file that the reported size allows: in the last
    block of the file, when the position has reached the end, the rounds read
    nothing. *)
Lemma read_loop_hangs fuel s f x i b n out :
  at_block s f x i b -> size x = fss_get_size -> 0 <= pos x <= len (kernel s) (handle x) -> len (kernel s) (handle x) < pos x + readable x n ->
  len (kernel s) (handle x) mod BUF_BLOCK_SIZE <> 0 -> read_loop syscall_read syscall_write fuel s f n out = NoFuel.
Proof.
  revert s x b n out. induction fuel as [|fuel IH]; intros s x b n out Hab Hsize Hpos Hlen Hmod; [done|]. set (L := len (kernel s) (handle x)) in *.
  assert (0 < n /\ pos x < size x) as [Hn Hlt] by (unfold readable in Hlen; lia). destruct (block_position (pos x)) as (Epos & Hoff & Hq); [lia|]. pose proof (block_before_end (pos x) ltac:(lia)) as Hend.
  assert (BUF_BLOCK_ID (pos x) * BUF_BLOCK_SIZE < L) as Hblk.
  { destruct (Z.eq_dec (BUF_BLOCK_ID (pos x) * BUF_BLOCK_SIZE) L) as [E|]; [|lia]. destruct Hmod. rewrite <- E. by apply Z.mod_mul. }
  destruct (read_round fuel s f x i b n out Hab Hsize ltac:(lia) Hn) as (s1 & b1 & E1 & Hab1 & Hsame & _); [fold L; lia|done|].
  set (m := Z.min n _) in *. rewrite E1. destruct (Hsame (handle x)) as [El _]. fold L in m, El.
  apply (IH s1 (set_pos x (pos x + m)) b1); cbn [handle set_pos pos size]; rewrite ?El; try done; unfold m, readable in *; cbn [pos size set_pos] in *; lia.
Qed.

(** *** A block for the stream *)

Lemma free_block_spec l n : match free_block l n with
  | Some i => exists b, (n <= i)%nat /\ l !! (i - n)%nat = Some b /\ b_file b = 0
  | None => forall b, b ∈ l -> b_file b <> 0
  end.
Proof.
  revert n. induction l as [|b l IH]; intros n; cbn; [by intros b ?%elem_of_nil|]. destruct (Z.eqb_spec (b_file b) 0) as [E|E].
  - exists b. rewrite Nat.sub_diag. done.
  - specialize (IH (S n)). destruct (free_block l (S n)) as [i|].
    + destruct IH as (c & Hle & Hc & Hf). exists c. replace (i - n)%nat with (S (i - S n)) by lia. split; [lia|done].
    + intros c [->|Hc]%elem_of_cons; auto.
Qed.

Lemma least_bound l i m c : (m < i + length l)%nat -> (least l i m c < i + length l)%nat.
Proof.
  revert i m c. induction l as [|b l IH]; intros i m c; cbn; [done|]. intros Hm.
  case_if; (eapply Nat.lt_le_trans; [apply IH|]); lia.
Qed.

(** The streams are the same, apart from a block they lost. *)
Definition same_files (m m' : gmap Z file) : Prop := forall g y, m !! g = Some y -> m' !! g = Some y \/ m' !! g = Some (set_block y None).

Lemma swap_out_spec s i b :
  pool_ok s 0 -> pool s !! i = Some b -> b_file b <> 0 ->
  exists s' b', swap_out_buffer_block syscall_write s i = Some (true, s') /\ pool_ok s' 0 /\ pool s' !! i = Some b' /\ b_file b' = 0 /\
    kernel s' = kernel s /\ same_files (files s) (files s').
Proof.
  intros Hp Hb Hf0. destruct (po_file _ _ Hp _ _ Hb Hf0) as (x & Hx & Hi). apply lookup_lt_Some in Hb as Hlt.
  unfold swap_out_buffer_block. rewrite Hb. cbn [mbind option_bind]. rewrite (clean_update s (b_file b) x i b); [|by apply get_eq|].
  2:{ destruct (po_flags _ _ Hp _ _ Hb) as [->|[->|(_ & [] & _)]]; done. }
  cbn [mbind option_bind]. rewrite Hx. cbn [mbind option_bind]. rewrite Hb. cbn [mbind option_bind].
  eexists _, _. split; [done|]. cbn. rewrite list_lookup_insert_eq by done. split; [|split; [done|split; [done|split; [done|]]]].
  2:{ intros g y Hy. destruct (decide (g = b_file b)) as [->|]; [right; rewrite lookup_insert_eq; congruence|left; by rewrite lookup_insert_ne]. }
  split; cbn.
  - intros E. apply (f_equal length) in E. rewrite length_insert in E. cbn in E. lia.
  - intros j c. rewrite list_lookup_insert_Some. intros [(<- & <- & _)|[_ Hc]]; [by left|by eapply (po_flags _ _ Hp)].
  - intros j c. rewrite list_lookup_insert_Some. intros [(<- & <- & _)|[_ Hc]]; [done|by eapply (po_free _ _ Hp)].
  - intros j c. rewrite list_lookup_insert_Some. intros [(<- & <- & _)|[Hne Hc]] Hc0; [done|].
    destruct (po_file _ _ Hp _ _ Hc Hc0) as (y & Hy & Hj). exists y. rewrite lookup_insert_ne; [done|]. intros E. rewrite <- E in Hy. congruence.
  - intros g y j. rewrite lookup_insert_Some. intros [[<- <-]|[Hne Hy]] Hj; [done|].
    destruct (po_block _ _ Hp _ _ _ Hy Hj) as (Hg0 & c & Hc & Hcf & Hcd). split; [done|]. exists c. rewrite list_lookup_insert_ne; [done|congruence].
Qed.

(** The first round always finds a block. *)
Lemma take_block_spec fuel s :
  pool_ok s 0 -> exists i s' b, take_block syscall_write (S fuel) s = Ret (i, s') /\ pool_ok s' 0 /\ pool s' !! i = Some b /\ b_file b = 0 /\
    kernel s' = kernel s /\ same_files (files s) (files s').
Proof.
  intros Hp. cbn [take_block]. unfold get_free_buffer_block. pose proof (free_block_spec (pool s) 0) as Hfree. destruct (free_block (pool s) 0) as [i|].
  - destruct Hfree as (b & _ & Hb & Hf). rewrite Nat.sub_0_r in Hb. exists i, s, b. split_and!; try done. by intros g y; left.
  - unfold get_rebirth_buffer_block. destruct (pool s) as [|b0 l] eqn:El; [by destruct (po_len _ _ Hp)|].
    set (i := least l 1 0 (access_count b0)). assert (Hi : (i < length (pool s))%nat) by (rewrite El; cbn; apply (least_bound l 1 0); cbn; lia).
    rewrite <- El in *. destruct (lookup_lt_is_Some_2 _ _ Hi) as [b Hb]. assert (Hf : b_file b <> 0) by (by apply Hfree; eapply list_elem_of_lookup_2).
    rewrite Hb. cbn [lift mbind option_bind run_bind].
    replace (Z.land (b_flags b) BUF_BLOCK_BUSY_FLAG =? 0) with true by (by destruct (po_flags _ _ Hp _ _ Hb) as [->|[->|(_ & [] & _)]]). cbn [negb].
    destruct (swap_out_spec s i b Hp Hb Hf) as (s' & b' & E & H). rewrite E. cbn. exists i, s', b'. split; [done|exact H].
Qed.

Lemma attach_block s f x i b b' :
  pool_ok s 0 -> files s !! f = Some x -> block x = None -> pool s !! i = Some b -> b_file b = 0 -> f <> 0 -> b_file b' = f -> b_flags b' = 4 ->
  at_block (set_pool (set_file s f (set_block x (Some i))) i b') f (set_block x (Some i)) i b'.
Proof.
  intros Hp Hx Hn Hb Hb0 Hf Hb' Hfl. apply lookup_lt_Some in Hb as Hlt.
  split; cbn; [|apply lookup_insert_eq|done|by apply list_lookup_insert_eq]. split; cbn.
  - intros E. apply (f_equal length) in E. rewrite length_insert in E. cbn in E. lia.
  - intros j c. rewrite list_lookup_insert_Some. intros [(<- & <- & _)|[_ Hc]]; [auto 7|].
    destruct (po_flags _ _ Hp _ _ Hc) as [?|[?|(_ & [] & _)]]; auto; done.
  - intros j c. rewrite list_lookup_insert_Some. intros [(<- & <- & _)|[_ Hc]]; [congruence|by eapply (po_free _ _ Hp)].
  - intros j c. rewrite list_lookup_insert_Some. intros [(<- & <- & _)|[Hne Hc]] Hc0.
    + rewrite Hb'. exists (set_block x (Some i)). by rewrite lookup_insert_eq.
    + destruct (po_file _ _ Hp _ _ Hc Hc0) as (y & Hy & Hj). exists y. rewrite lookup_insert_ne; [done|]. intros E. rewrite <- E in Hy. congruence.
  - intros g y j. rewrite lookup_insert_Some. intros [[<- <-]|[Hne Hy]] Hj.
    + injection Hj as <-. split; [done|]. exists b'. rewrite list_lookup_insert_eq by done. split; [done|]. split; [done|]. intros Hv. unfold valid in Hv. by rewrite Hfl in Hv.
    + destruct (po_block _ _ Hp _ _ _ Hy Hj) as (Hg0 & c & Hc & Hcf & Hcd). split; [done|]. exists c. rewrite list_lookup_insert_ne; [done|congruence].
Qed.

Lemma pool_ok_any s f : pool_ok s 0 -> pool_ok s f.
Proof.
  intros [H1 H2 H3 H4 H5]. split; try done. intros i b Hb. destruct (H2 i b Hb) as [?|[?|(_ & [] & _)]]; auto; done.
Qed.

Lemma set_block_same x o : block x = o -> set_block x o = x.
Proof. intros <-. by destruct x. Qed.

(** [get_buffer_block] where the stream has none. *)
Lemma block_of_stream fuel s f x :
  pool_ok s 0 -> f <> 0 -> files s !! f = Some x -> exists s' i b,
  (if block x then Ret s else get_buffer_block syscall_write (S fuel) s f) = Ret s' /\ at_block s' f (set_block x (Some i)) i b /\
  kernel s' = kernel s /\ forall g, g <> f -> forall y, files s !! g = Some y -> files s' !! g = Some y \/ files s' !! g = Some (set_block y None).
Proof.
  intros Hp Hf Hx. destruct (block x) as [i|] eqn:Ei.
  - destruct (po_block _ _ Hp _ _ _ Hx Ei) as (_ & b & Hb & _). exists s, i, b. rewrite (set_block_same x (Some i)) by done.
    split; [done|]. split; [split; try done; by apply pool_ok_any|]. split; [done|auto].
  - destruct (take_block_spec fuel s Hp) as (i & s1 & b & E & Hp1 & Hb & Hb0 & Hk & Hfs). unfold get_buffer_block. rewrite E. cbn [mbind run_bind].
    assert (Hx1 : files s1 !! f = Some x) by (destruct (Hfs _ _ Hx) as [E1|E1]; [done|rewrite E1; f_equal; by apply set_block_same]).
    rewrite Hx1. cbn [lift mbind run_bind]. rewrite Hb. cbn [lift mbind run_bind]. eexists _, i, _. split; [done|]. split.
    + eapply attach_block; try done. cbn. by rewrite (po_free _ _ Hp1 _ _ Hb Hb0).
    + split; [done|]. intros g Hg y Hy. cbn. rewrite lookup_insert_ne by done. by apply Hfs.
Qed.

(** The end of the operation. *)
Lemma put_block_spec s f x i b :
  at_block s f x i b -> exists s', put_buffer_block s f = Some s' /\ pool_ok s' 0 /\ files s' = files s /\ kernel s' = kernel s.
Proof.
  intros Hab. pose proof Hab as [Hp Hx Hi Hb]. destruct (ab_flags _ _ _ _ _ Hab) as (Hbf & Hfl & Hd). unfold put_buffer_block.
  rewrite (get_eq _ _ _ _ _ Hx Hi Hb). cbn. eexists. split; [done|]. split; [|done].
  set (b' := set_bflags b (Z.land (b_flags b) (w_not BUF_BLOCK_BUSY_FLAG))).
  assert (Hfl' : (b_flags b' = 0 \/ b_flags b' = 1) /\ (valid b' -> valid b)) by (unfold valid, b'; destruct Hfl as [E|[E|[E|E]]]; cbn; rewrite E; cbn; auto).
  destruct Hfl' as [Hfl' Hv']. destruct (stream_update s f (kernel s) i b b' x x) as [H1 H2 H3 H4 H5]; try done; [tauto|intros Hv; by apply Hd, Hv'|].
  rewrite insert_id in H2, H3, H4, H5 by done. split; try done. cbn. intros j c Hc. destruct (H2 j c Hc) as [?|[?|(Hcf & Hf & Hc')]]; auto.
  destruct (decide (i = j)) as [<-|Hne]; [rewrite list_lookup_insert_eq in Hc by (by eapply lookup_lt_Some); injection Hc as <-; tauto|].
  rewrite list_lookup_insert_ne in Hc by done. destruct (po_file _ _ Hp _ _ Hc) as (y & Hy & Hj); [congruence|]. rewrite Hcf, Hx in Hy. congruence.
Qed.

Lemma advance p r : 0 <= r < 2147483648 -> to_int (p + r - wrap p) = r.
Proof. intros Hr. unfold to_int, wrap. rewrite Zminus_mod_idemp_r. replace (p + r - p) with r by lia. rewrite Z.mod_small by lia. case_if; lia. Qed.

(** C24: [stdio_fread] on a readable stream, when no block of the pool waits to be
    written.  The size of a stream is what the file system reports: 1 MB for every
    file, or 0 for a file just cut off.  A request whose bytes are all in the file, up
    to that size, returns with the bytes from the position of the stream on: the count
    is the smaller of the request and what is left to the reported size, the position
    moves by it, whether the stream has a block, finds a free one or takes that of
    another stream, and however many blocks of the file are crossed; the pool stays
    consistent, the file is not changed, and other streams keep all but perhaps their
    block.  A request from inside the file to beyond its end, when the end is not that
    of a block, never returns: at the end of the file the rounds of the loop copy
    nothing, and the reported size is never reached. *)
Theorem stdio_fread_correct fuel s f x n :
  pool_ok s 0 -> f <> 0 -> files s !! f = Some x -> Z.land (flags x) O_WRONLY = 0 -> size x = 0 \/ size x = fss_get_size -> 0 <= pos x -> 0 <= n < 2 ^ 31 ->
  let L := len (kernel s) (handle x) in
  (readable x n = 0 \/ pos x + readable x n <= L -> n < Z.of_nat fuel ->
   exists s' o, stdio_fread syscall_read syscall_write fuel s f n =
      Ret (readable x n, slice (content (kernel s) (handle x)) (pos x) (readable x n), s') /\
    pool_ok s' 0 /\ files s' !! f = Some (set_block (set_pos x (pos x + readable x n)) o) /\ same_content (kernel s) (kernel s') /\
    forall g y, g <> f -> files s !! g = Some y -> files s' !! g = Some y \/ files s' !! g = Some (set_block y None)) /\
  (pos x <= L < pos x + readable x n -> L mod BUF_BLOCK_SIZE <> 0 -> stdio_fread syscall_read syscall_write fuel s f n = NoFuel).
Proof.
  intros Hp Hf Hx Hfl Hsize Hpos Hn L. unfold stdio_fread. rewrite Hx. cbn [lift mbind run_bind].
  rewrite Hfl, Z.eqb_refl. cbn [negb]. assert (Hr : 0 <= readable x n <= n) by (unfold readable; lia). destruct (Z.eqb_spec (size x) 0) as [E0|E0].
  { assert (E : readable x n = 0) by (unfold readable; lia). rewrite E. split; [|lia]. intros _ _. exists s, (block x). rewrite Z.add_0_r. split; [done|]. split; [done|].
    rewrite Hx. split; [by destruct x|]. split; [apply same_content_refl|auto]. }
  destruct Hsize as [?|Hsize]; [done|]. split.
  - intros Hin Hfuel. destruct fuel as [|fuel]; [lia|]. destruct (block_of_stream fuel s f x Hp Hf Hx) as (s1 & i & b & E1 & Hab & Hk & Hother). rewrite E1. cbn [lift mbind run_bind].
    destruct (read_loop_spec (S fuel) s1 f (set_block x (Some i)) i b n [] Hab) as (s2 & b2 & E2 & Hab2 & Hsame & Ef); try (cbn; rewrite ?Hk; done || lia).
    rewrite E2. cbn [mbind run_bind lift]. rewrite (ab_file _ _ _ _ _ Hab2). cbn [mbind run_bind lift].
    destruct (put_block_spec _ _ _ _ _ Hab2) as (s3 & E3 & Hp3 & Ef3 & Ek3). rewrite E3. cbn [mbind run_bind lift]. rewrite Hk in *.
    exists s3, (Some i). change (readable (set_block x (Some i)) n) with (readable x n) in *. cbn [pos set_pos set_block app handle].
    rewrite advance by lia. split; [done|]. split; [done|]. rewrite Ef3, Ef, Ek3. split; [by rewrite lookup_insert_eq|]. split; [done|].
    intros g y Hg Hy. rewrite lookup_insert_ne by done. by apply Hother.
  - intros Hin Hmod. destruct fuel as [|fuel]; [by destruct (block x)|]. destruct (block_of_stream fuel s f x Hp Hf Hx) as (s1 & i & b & E1 & Hab & Hk & _). rewrite E1. cbn [lift mbind run_bind].
    assert (E2 : read_loop syscall_read syscall_write (S fuel) s1 f n [] = NoFuel); [|by rewrite E2].
    apply (read_loop_hangs (S fuel) s1 f (set_block x (Some i)) i b n [] Hab); cbn; rewrite ?Hk; fold L; try done; [lia|].
    change (readable (set_block x (Some i)) n) with (readable x n). lia.
Qed.

End Spec.

(** ** Examples *)

(** A file of 300000 bytes, whose size is reported as that of every file. *)
Definition ex_read (k : unit) (h p n : Z) : Z * (Z -> Z) * Z * unit := (Z.max 0 (Z.min n (300000 - p)), fun o => (p + o) mod 251, fss_get_size, k).
Definition ex_write (k : unit) (h : Z) (d : Z -> Z) (p n : Z) : Z * unit := (n, k).

(** One block, which belongs to stream 200; stream 100 is read. *)
Definition ex_state : sstate unit :=
  SState [Block 262144 0 1 1 (fun o => o mod 251) 200] {[ 100 := File 262140 fss_get_size 3 O_RDWR None; 200 := File 5 fss_get_size 4 O_RDONLY (Some 0%nat) ]} tt 0.

Lemma ex_state_ok : pool_ok (fun _ _ => 300000) (fun _ _ o => o mod 251) ex_state 0.
Proof.
  split.
  - done.
  - intros i b Hb. apply list_lookup_singleton_Some in Hb as [-> <-]. by right; left.
  - intros i b Hb. apply list_lookup_singleton_Some in Hb as [-> <-]. done.
  - intros i b Hb _. apply list_lookup_singleton_Some in Hb as [-> <-]. by eexists.
  - intros g x i Hg Hi. unfold ex_state in Hg. cbn in Hg. apply lookup_insert_Some in Hg as [[<- <-]|[_ [<- <-]%lookup_singleton_Some]]; [done|]. injection Hi as <-. split; [done|].
    eexists. split; [done|]. split; [done|]. intros _. unfold data_at. cbn. split; [done|]. split; [done|]. split; [done|]. done.
Qed.

(** The bytes on both sides of the border of two blocks, through the block of
    the other stream; and a request for 40000 bytes, of which the file has
    37860. *)
Lemma stdio_fread_witness :
  (exists s' o, stdio_fread ex_read ex_write 9 ex_state 100 8 = Ret (8, [96; 97; 98; 99; 100; 101; 102; 103], s') /\
     files s' !! 100 = Some (File 262148 fss_get_size 3 O_RDWR o)) /\
  forall fuel, stdio_fread ex_read ex_write fuel ex_state 100 40000 = NoFuel.
Proof.
  assert (forall k h q, 0 <= q -> q * BUF_BLOCK_SIZE < 300000 -> exists data k',
    ex_read k h (q * BUF_BLOCK_SIZE) BUF_BLOCK_SIZE = (Z.min BUF_BLOCK_SIZE (300000 - q * BUF_BLOCK_SIZE), data, fss_get_size, k') /\
    same_content (fun _ _ => 300000) (fun _ _ o => o mod 251) k k' /\
    forall o, 0 <= o < Z.min BUF_BLOCK_SIZE (300000 - q * BUF_BLOCK_SIZE) -> data o = (q * BUF_BLOCK_SIZE + o) mod 251) as Hread.
  { intros k h q Hq Hlt. eexists _, k. unfold ex_read. rewrite Z.max_r by (unfold BUF_BLOCK_SIZE in *; lia). split; [done|]. split; [by apply same_content_refl|done]. }
  assert (0 <= 40000 < 2 ^ 31 /\ 0 <= 8 < 2 ^ 31) as [H40000 H8] by lia. split.
  - destruct (stdio_fread_correct ex_read ex_write (fun _ _ => 300000) (fun _ _ o => o mod 251) Hread 9%nat ex_state 100 (File 262140 fss_get_size 3 O_RDWR None) 8
      ex_state_ok ltac:(done) eq_refl eq_refl (or_intror eq_refl) ltac:(done) H8) as [Hin _].
    destruct Hin as (s' & o & E & _ & Hx & _); [right; vm_compute; discriminate|lia|]. exists s', o. split; [exact E|exact Hx].
  - intros fuel. destruct (stdio_fread_correct ex_read ex_write (fun _ _ => 300000) (fun _ _ o => o mod 251) Hread fuel ex_state 100 (File 262140 fss_get_size 3 O_RDWR None) 40000
      ex_state_ok ltac:(done) eq_refl eq_refl (or_intror eq_refl) ltac:(done) H40000) as [_ Hout].
    apply Hout; [split; [vm_compute; discriminate|vm_compute; reflexivity]|vm_compute; discriminate].
Defined.

(** *** Where the code does not do what it means to *)

(** A stream over block 0 of a large file, one byte before the end of the block;
    the kernel keeps the positions written to, and the last byte of the block. *)
Definition log_read (k : list (Z * Z)) (h p n : Z) : Z * (Z -> Z) * Z * list (Z * Z) := (n, fun _ => 0, 1048576, k).
Definition log_write (k : list (Z * Z)) (h : Z) (d : Z -> Z) (p n : Z) : Z * list (Z * Z) := (n, k ++ [(p, d 262143)]).
Definition log_state : sstate (list (Z * Z)) := SState [Block 0 0 0 0 (fun _ => 0) 0] {[ 100 := File 262143 1048576 3 O_RDWR None ]} [] 0.

(** Bytes 7 and 8 written across the border of blocks 0 and 1: block 0 goes to
    the place of block 1, because the position has already moved on. *)
Theorem write_flushes_wrong_block : exists s', stdio_fwrite log_read log_write 3 log_state 100 [7; 8] 2 = Ret (2, s') /\
  kernel s' = [(262144, 7)] /\ exists x, files s' !! 100 = Some x /\ pos x = 262145.
Proof. eexists. split; [vm_compute; reflexivity|]. split; [reflexivity|]. eexists. split; reflexivity. Qed.

(** A file of 100 bytes for which the kernel always reports 1 MB, and a stream at
    its end. *)
Definition short_read (k : unit) (h p n : Z) : Z * (Z -> Z) * Z * unit := (100, fun _ => 0, 1048576, k).
Definition end_file (o : option nat) : file := File 100 1048576 3 O_RDONLY o.
Definition end_state (b : buffer_block) : sstate unit := SState [b] {[ 100 := end_file (Some 0%nat) ]} tt 0.
Definition end_block : buffer_block := Block 100 0 1 5 (fun _ => 0) 100.

(** The read never returns: nothing is left in the block and the position is
    before the size. *)
Theorem fread_diverges fuel : stdio_fread short_read ex_write fuel (end_state end_block) 100 1 = NoFuel.
Proof.
  assert (H : forall fuel out, read_loop short_read ex_write fuel (end_state end_block) 100 1 out = NoFuel).
  { clear fuel. induction fuel as [|fuel IH]; intros out; [done|]. rewrite <- (IH (out ++ [])). reflexivity. }
  unfold stdio_fread. cbn [lift mbind run_bind]. change (files (end_state end_block) !! 100) with (Some (end_file (Some 0%nat))). cbn [lift mbind run_bind]. cbn [flags end_file block size].
  change (negb (Z.land O_RDONLY O_WRONLY =? 0)) with false. change (1048576 =? 0) with false. cbn [mbind run_bind]. by rewrite H.
Qed.

(** Three bytes before the reported size count as an item of eight. *)
Theorem fread_counts_partial : exists s',
  fread log_read log_write 9 (set_file log_state 100 (File 1048573 1048576 3 O_RDWR None)) 100 8 2 = Ret (1, [[0; 0; 0]], s').
Proof.
  assert (match fread log_read log_write 9 (set_file log_state 100 (File 1048573 1048576 3 O_RDWR None)) 100 8 2 with Ret (n, out, _) => Some (n, out) | _ => None end
    = Some (1, [[0; 0; 0]])) as E by (vm_compute; reflexivity).
  destruct (fread _ _ _ _ _ _ _) as [[[n out] s']| |]; [|discriminate E|discriminate E]. injection E as -> ->. exists s'. exact eq_refl.
Qed.

(** Every seek succeeds, whatever the direction and the target. *)
Theorem fseek_never_fails {K} (w : K -> Z -> (Z -> Z) -> Z -> Z -> Z * K) s f x offset whence :
  files s !! f = Some x -> block x = None ->
  stdio_fseek w s f offset whence = Some (0, SState (pool s) (<[f := set_pos x (seek_pos x offset whence (errno s)).1]> (files s)) (kernel s)
    (seek_pos x offset whence (errno s)).2).
Proof.
  intros Hx Hb. unfold stdio_fseek. rewrite Hx. cbn [mbind option_bind]. rewrite Hb. cbn [mbind option_bind]. rewrite Hx. cbn [mbind option_bind].
  assert (H : 0 <= (seek_pos x offset whence (errno s)).1) by (unfold seek_pos, wrap64; case_ifs; cbn; try lia; apply Z.mod_pos_bound; lia).
  destruct (seek_pos x offset whence (errno s)) as [p e]. cbn in *. by rewrite (proj2 (Z.ltb_ge _ _)).
Qed.

(** A block whose data could not be written is given away all the same. *)
Theorem swap_out_drops_data {K} (w : K -> Z -> (Z -> Z) -> Z -> Z -> Z * K) s i b x s' :
  pool s !! i = Some b -> files s !! b_file b = Some x -> swap_out_buffer_block w s i = Some (false, s') ->
  exists b', pool s' !! i = Some b' /\ b_flags b' = 0 /\ b_file b' = 0.
Proof.
  intros Hb Hx. unfold swap_out_buffer_block. rewrite Hb. cbn [mbind option_bind].
  destruct (update_dirty_buffer_block w s (b_file b)) as [[ret s1]|] eqn:E; [|done]. cbn [mbind option_bind].
  destruct (files s1 !! b_file b) as [y|]; [|done]. cbn [mbind option_bind]. destruct (pool s1 !! i) as [b1|] eqn:Hb1; [|done]. cbn.
  intros [= _ <-]. cbn. rewrite list_lookup_insert_eq by (by eapply lookup_lt_Some). eexists. split; [done|]. done.
Qed.

(** *** The modes of [fopen] *)

(** The modes of the manual, with their flags. *)
Definition modes : list (list Z * Z) :=
  let r := 114 in let w := 119 in let a := 97 in let b := 98 in let p := 43 in
  let rd m := Z.lor m 0 in let cr m := Z.lor m (Z.lor O_CREAT O_TRUNC) in let ap m := Z.lor m (Z.lor O_CREAT O_APPEND) in
  [([r], rd O_RDONLY); ([r; b], rd O_RDONLY); ([r; p], rd O_RDWR); ([r; b; p], rd O_RDWR); ([r; p; b], rd O_RDWR);
   ([w], cr O_WRONLY); ([w; b], cr O_WRONLY); ([w; p], cr O_RDWR); ([w; b; p], cr O_RDWR); ([w; p; b], cr O_RDWR);
   ([a], ap O_WRONLY); ([a; b], ap O_WRONLY); ([a; p], ap O_RDWR); ([a; b; p], ap O_RDWR); ([a; p; b], ap O_RDWR)].

Fixpoint mode_flags (l : list (list Z * Z)) (m : list Z) : option Z :=
  match l with [] => None | (k, v) :: l => if decide (k = m) then Some v else mode_flags l m end.

Lemma check_repeat_total str a : Forall (fun c => 0 < c < 128) str -> exists r, check_repeat (str ++ [0]) a = Some r.
Proof.
  intros H. revert a. induction H as [|c str Hc _ IH]; intros a; cbn; [by eexists|]. rewrite (proj2 (Z.eqb_neq c 0)), (proj2 (Z.leb_gt 128 c)) by lia.
  case_if; [by eexists|apply IH].
Qed.

Lemma strlen_text str : Forall (fun c => 0 < c < 128) str -> strlen (str ++ [0]) = Some (Z.of_nat (length str)).
Proof.
  induction 1 as [|c str Hc _ IH]; [done|]. cbn [app strlen length]. rewrite (proj2 (Z.eqb_neq c 0)) by lia. rewrite IH. cbn. f_equal. lia.
Qed.

(** A mode with a wrong character is refused, repeated characters or not. *)
Lemma mode_refused str c :
  Forall (fun c => 0 < c < 128) (c :: str) ->
  (c <> 114 /\ c <> 119 /\ c <> 97) \/ (forall m, mode_rest (str ++ [0]) m = Some None) \/ (3 < length (c :: str))%nat ->
  set_file_flags ((c :: str) ++ [0]) = Some None.
Proof.
  intros Hs Hbad. unfold set_file_flags. rewrite strlen_text by done. cbn [mbind option_bind]. unfold FLAG_LENGTH.
  case_if; [done|]. destruct (check_repeat_total _ (fun _ => 0) Hs) as [r Er]. rewrite Er. cbn [mbind option_bind]. destruct r; [done|].
  change (((c :: str) ++ [0]) !! 0%nat) with (Some c). change (drop 1 ((c :: str) ++ [0])) with (str ++ [0]). cbn [mbind option_bind].
  destruct Hbad as [(H1 & H2 & H3)|[Hr|Hl]]; [|case_ifs; rewrite ?Hr; done|lia].
  by rewrite !(proj2 (Z.eqb_neq _ _)) by done.
Qed.

Lemma rest_refused str c : c <> 98 -> c <> 43 -> 0 < c -> forall m, mode_rest (c :: str) m = Some None.
Proof. intros H1 H2 H0 m. cbn. by rewrite !(proj2 (Z.eqb_neq c _)) by lia. Qed.

Lemma rest_refused_cons str b : 0 < b -> (forall m, mode_rest str m = Some None) -> forall m, mode_rest (b :: str) m = Some None.
Proof. intros H0 H m. cbn. rewrite (proj2 (Z.eqb_neq b 0)) by lia. by case_ifs. Qed.

(** Not one of the modes; the cases of a character. *)
Ltac no_mode := unfold modes; cbn [mode_flags]; repeat (rewrite decide_False by (intros [=]; subst; cbn in *; lia)); reflexivity.
Ltac first_char a := destruct (decide (a = 114)) as [->|]; [|destruct (decide (a = 119)) as [->|]; [|destruct (decide (a = 97)) as [->|]]].
Ltac next_char b := destruct (decide (b = 98)) as [->|]; [|destruct (decide (b = 43)) as [->|]].

(** [set_file_flags] accepts exactly the modes of the manual, and gives their
    flags. *)
Theorem set_file_flags_correct str : Forall (fun c => 0 < c < 128) str -> set_file_flags (str ++ [0]) = Some (mode_flags modes str).
Proof.
  intros Hs. destruct str as [|a [|b [|c [|d str]]]]; [done| | | |].
  - first_char a; try reflexivity. rewrite mode_refused; [no_mode|auto..].
  - pose proof Hs as [Ha [Hb _]%Forall_cons]%Forall_cons.
    first_char a; next_char b; try reflexivity; (rewrite mode_refused; [no_mode|done|]); auto; right; left; apply rest_refused; lia.
  - pose proof Hs as [Ha [Hb [Hc _]%Forall_cons]%Forall_cons]%Forall_cons.
    first_char a; next_char b; next_char c; try reflexivity; (rewrite mode_refused; [no_mode|done|]); auto;
      right; left; first [apply rest_refused; lia|apply rest_refused_cons; [lia|apply rest_refused; lia]].
  - rewrite mode_refused; [no_mode|done|]. right; right. cbn. lia.
Qed.
