(* ===== verification/Timer.v ===== *)
(** * Software timers

    [source/drivers/hal/time/timer.c]: the timing wheel behind the time-outs of
    the kernel, with the comparisons of [tick.h].  A timer is known by its
    address; [vec] has the lists of [tv1] (level 0) to [tv5] (level 4) by level
    and index, and [work] is the list of expired timers on the stack of
    [__run_timers].  [entry.next != NULL] is [pending]; of the pointer [base],
    which carries two flags, the flags are kept, and [None] is NULL.  There is
    one CPU and one base.  A call-back acts on timers by the operations a list
    gives for the function, its argument and the time. *)

From stdpp Require Import gmap.
From S2P Require Import Prelude Bits.
Import BitOps FindBit.
Local Open Scope c_scope.

Definition TVN_BITS : Z := 6.
Definition TVR_BITS : Z := 8.
Definition TVN_SIZE : Z := Z.shiftl 1 TVN_BITS.
Definition TVR_SIZE : Z := Z.shiftl 1 TVR_BITS.
Definition TVN_MASK : Z := TVN_SIZE - 1.
Definition TVR_MASK : Z := TVR_SIZE - 1.
Definition MAX_TVAL : Z := wrap (Z.shiftl 1 (TVR_BITS + 4 * TVN_BITS) - 1).
Definition TIMER_DEFERRABLE : Z := 1.
Definition TIMER_IRQSAFE : Z := 2.

Record timer_list := Timer {
  pending : bool;
  expires : Z;
  base : option Z;
  function : Z;
  data : Z;
  slack : Z
}.

Record tvec_base := TBase {
  running_timer : Z;                               (* 0 is NULL *)
  timer_jiffies : Z;
  next_timer : Z;
  active_timers : Z;
  vec : Z -> Z -> list Z
}.

Record tstate := TState {
  tb : tvec_base;
  work : list Z;
  timers : gmap Z timer_list;
  jiffies : Z
}.

Inductive timer_op :=
  | OpMod (id expires : Z)
  | OpAdd (id : Z)
  | OpDel (id : Z).

Module TimerOps.

Definition time_after (a b : Z) : bool := to_int (b - a) <? 0.
Definition time_before (a b : Z) : bool := time_after b a.
Definition time_after_eq (a b : Z) : bool := 0 <=? to_int (a - b).

Definition set_vec (b : tvec_base) (v : Z -> Z -> list Z) : tvec_base := TBase (running_timer b) (timer_jiffies b) (next_timer b) (active_timers b) v.
Definition set_counts (b : tvec_base) (next active : Z) : tvec_base := TBase (running_timer b) (timer_jiffies b) next active (vec b).
Definition set_tick (b : tvec_base) (t : Z) : tvec_base := TBase (running_timer b) t (next_timer b) (active_timers b) (vec b).
Definition set_running (b : tvec_base) (r : Z) : tvec_base := TBase r (timer_jiffies b) (next_timer b) (active_timers b) (vec b).
Definition upd_vec (v : Z -> Z -> list Z) (k i : Z) (l : list Z) : Z -> Z -> list Z :=
  fun k' i' => if (k' =? k) && (i' =? i) then l else v k' i'.
Definition set_tb (s : tstate) (b : tvec_base) : tstate := TState b (work s) (timers s) (jiffies s).
Definition set_timer (s : tstate) (id : Z) (t : timer_list) : tstate := TState (tb s) (work s) (<[id := t]> (timers s)) (jiffies s).
Definition set_pending (t : timer_list) (p : bool) : timer_list := Timer p (expires t) (base t) (function t) (data t) (slack t).
Definition set_expires (t : timer_list) (e : Z) : timer_list := Timer (pending t) e (base t) (function t) (data t) (slack t).

(** The flags of [timer->base]; those of NULL are clear. *)
Definition flags (t : timer_list) : Z := default 0 (base t).
Definition tbase_get_deferrable (t : timer_list) : bool := negb (Z.land (flags t) TIMER_DEFERRABLE =? 0).

(** The base after [init_timers_cpu] of the boot CPU. *)
Definition init_timers_cpu (now : Z) : tvec_base := TBase 0 now now 0 (fun _ _ => []).

Definition hal_timer_init (s : tstate) (id fl : Z) : option tstate :=
  t ← timers s !! id; Some (set_timer s id (Timer false (expires t) (Some fl) (function t) (data t) (- 1))).

(** [detach_timer]: the list the timer is in loses it. *)
Definition unlink (id : Z) (l : list Z) : list Z := filter (fun x => x <> id) l.

Definition detach_timer (s : tstate) (id : Z) (t : timer_list) (clear_pending : bool) : tstate :=
  let s := TState (set_vec (tb s) (fun k i => unlink id (vec (tb s) k i))) (unlink id (work s)) (timers s) (jiffies s) in
  if clear_pending then set_timer s id (set_pending t false) else s.

Definition detach_expired_timer (s : tstate) (id : Z) (t : timer_list) : tstate :=
  let s := detach_timer s id t true in
  if tbase_get_deferrable t then s else set_tb s (set_counts (tb s) (next_timer (tb s)) (wrap (active_timers (tb s) - 1))).

Definition detach_if_pending (s : tstate) (id : Z) (t : timer_list) (clear_pending : bool) : bool * tstate :=
  if negb (pending t) then (false, s) else
  let s := detach_timer s id t clear_pending in
  if tbase_get_deferrable t then (true, s) else
  let b := tb s in
  (true, set_tb s (set_counts b (if expires t =? next_timer b then timer_jiffies b else next_timer b) (wrap (active_timers b - 1)))).

(** The level and the index of the list [__internal_add_timer] chooses. *)
Definition choose_vec (tj expires : Z) : Z * Z :=
  let idx := wrap (expires - tj) in
  if idx <? TVR_SIZE then (0, Z.land expires TVR_MASK) else
  if idx <? Z.shiftl 1 (TVR_BITS + TVN_BITS) then (1, Z.land (Z.shiftr expires TVR_BITS) TVN_MASK) else
  if idx <? Z.shiftl 1 (TVR_BITS + 2 * TVN_BITS) then (2, Z.land (Z.shiftr expires (TVR_BITS + TVN_BITS)) TVN_MASK) else
  if idx <? Z.shiftl 1 (TVR_BITS + 3 * TVN_BITS) then (3, Z.land (Z.shiftr expires (TVR_BITS + 2 * TVN_BITS)) TVN_MASK) else
  if to_int idx <? 0 then (0, Z.land tj TVR_MASK) else
  let expires := if MAX_TVAL <? idx then wrap (MAX_TVAL + tj) else expires in
  (4, Z.land (Z.shiftr expires (TVR_BITS + 3 * TVN_BITS)) TVN_MASK).

Definition __internal_add_timer (s : tstate) (id : Z) (t : timer_list) : tstate :=
  let '(k, i) := choose_vec (timer_jiffies (tb s)) (expires t) in
  set_timer (set_tb s (set_vec (tb s) (upd_vec (vec (tb s)) k i (vec (tb s) k i ++ [id])))) id (set_pending t true).

Definition internal_add_timer (s : tstate) (id : Z) (t : timer_list) : tstate :=
  let s := __internal_add_timer s id t in
  if tbase_get_deferrable t then s else
  let b := tb s in
  set_tb s (set_counts b (if time_before (expires t) (next_timer b) then expires t else next_timer b) (wrap (active_timers b + 1))).

(** The loop of [cascade]; a timer of another base is a panic. *)
Fixpoint add_all (s : tstate) (l : list Z) : option tstate :=
  match l with
  | [] => Some s
  | id :: l => t ← timers s !! id; _ ← base t; add_all (internal_add_timer s id t) l
  end.

Definition cascade (s : tstate) (k index : Z) : option (Z * tstate) :=
  let l := vec (tb s) k index in
  s ← add_all (set_tb s (set_vec (tb s) (upd_vec (vec (tb s)) k index []))) l;
  Some (index, s).

Definition INDEX (s : tstate) (n : Z) : Z := Z.land (Z.shiftr (timer_jiffies (tb s)) (TVR_BITS + n * TVN_BITS)) TVN_MASK.

(** The cascades of one tick, each only if the index of the one before is 0. *)
Definition cascades (s : tstate) : option tstate :=
  if negb (Z.land (timer_jiffies (tb s)) TVR_MASK =? 0) then Some s else
  '(i, s) ← cascade s 1 (INDEX s 0);
  if negb (i =? 0) then Some s else
  '(i, s) ← cascade s 2 (INDEX s 1);
  if negb (i =? 0) then Some s else
  '(i, s) ← cascade s 3 (INDEX s 2);
  if negb (i =? 0) then Some s else
  '(_, s) ← cascade s 4 (INDEX s 3); Some s.

(** The loop body of [__run_timers] up to the expired timers. *)
Definition begin_tick (s : tstate) : option tstate :=
  let index := Z.land (timer_jiffies (tb s)) TVR_MASK in
  s ← cascades s;
  let b := set_tick (tb s) (wrap (timer_jiffies (tb s) + 1)) in
  Some (TState (set_vec b (upd_vec (vec b) 0 index [])) (vec b 0 index) (timers s) (jiffies s)).

(** [lock_timer_base] spins on a timer without a base. *)
Fixpoint lock_timer_base (fuel : nat) (t : timer_list) : run unit :=
  match fuel with
  | O => NoFuel
  | S fuel => match base t with Some _ => Ret tt | None => lock_timer_base fuel t end
  end.

Definition __mod_timer (fuel : nat) (s : tstate) (id : Z) (t : timer_list) (e : Z) (pending_only : bool) : run (Z * tstate) :=
  _ ← lock_timer_base fuel t;
  let '(ret, s) := detach_if_pending s id t false in
  if negb ret && pending_only then Ret (0, s) else
  Ret (if (ret : bool) then 1 else 0, internal_add_timer s id (set_expires t e)).

(** [expires_limit & ~mask] with the last bit where the limit differs; [None] would
    be an access outside of [mask]. *)
Definition round_down (e limit : Z) : option Z :=
  let mask := Z.lxor e limit in
  if mask =? 0 then Some e else bit ← find_last_bit [mask] BITS_PER_LONG; Some (Z.land limit (w_not (Z.shiftl 1 bit - 1))).

Definition apply_slack (now : Z) (t : timer_list) (e : Z) : option Z :=
  if 0 <=? slack t then round_down e (wrap (e + slack t)) else
  let delta := to_int (e - now) in
  if delta <? 256 then Some e else round_down e (wrap (e + delta / 256)).

Definition hal_timer_mod (fuel : nat) (s : tstate) (id e : Z) : run (Z * tstate) :=
  t ← lift (timers s !! id);
  e ← lift (apply_slack (jiffies s) t e);
  if pending t && (expires t =? e) then Ret (1, s) else __mod_timer fuel s id t e false.

Definition hal_timer_add (fuel : nat) (s : tstate) (id : Z) : run tstate :=
  t ← lift (timers s !! id);
  if pending t then Ret s else '(_, s) ← hal_timer_mod fuel s id (expires t); Ret s.

Definition hal_timer_del (fuel : nat) (s : tstate) (id : Z) : run (Z * tstate) :=
  t ← lift (timers s !! id);
  if negb (pending t) then Ret (0, s) else
  _ ← lock_timer_base fuel t;
  let '(ret, s) := detach_if_pending s id t true in Ret (if (ret : bool) then 1 else 0, s).

Section Run.
(** What the function does with timers, given its argument and the time. *)
Variable handler : Z -> Z -> Z -> list timer_op.

Definition do_op (fuel : nat) (s : tstate) (op : timer_op) : run tstate :=
  match op with
  | OpMod id e => '(_, s) ← hal_timer_mod fuel s id (wrap e); Ret s
  | OpAdd id => hal_timer_add fuel s id
  | OpDel id => '(_, s) ← hal_timer_del fuel s id; Ret s
  end.

Fixpoint do_ops (fuel : nat) (s : tstate) (l : list timer_op) : run tstate :=
  match l with [] => Ret s | op :: l => s ← do_op fuel s op; do_ops fuel s l end.

Definition call_timer_fn (fuel : nat) (s : tstate) (fn arg : Z) : run tstate := do_ops fuel s (handler fn arg (jiffies s)).

(** The expired timers, with the timers called. *)
Fixpoint expire (fuel : nat) (s : tstate) (called : list Z) : run (list Z * tstate) :=
  match fuel with
  | O => NoFuel
  | S fuel =>
    match work s with
    | [] => Ret (called, s)
    | id :: _ =>
      t ← lift (timers s !! id);
      let s := detach_expired_timer (set_tb s (set_running (tb s) id)) id t in
      s ← call_timer_fn (S fuel) s (function t) (data t);
      expire fuel s (called ++ [id])
    end
  end.

(** The loop, with the timers called in each tick. *)
Fixpoint run_loop (fuel inner : nat) (s : tstate) (calls : list (list Z)) : run (list (list Z) * tstate) :=
  match fuel with
  | O => NoFuel
  | S fuel =>
    if negb (time_after_eq (jiffies s) (timer_jiffies (tb s))) then Ret (calls, s) else
    s ← lift (begin_tick s);
    '(called, s) ← expire inner s [];
    run_loop fuel inner s (calls ++ [called])
  end.

Definition __run_timers (fuel inner : nat) (s : tstate) : run (list (list Z) * tstate) :=
  '(calls, s) ← run_loop fuel inner s []; Ret (calls, set_tb s (set_running (tb s) 0)).

Definition run_timer_softirq (fuel inner : nat) (s : tstate) : run (list (list Z) * tstate) :=
  if time_after_eq (jiffies s) (timer_jiffies (tb s)) then __run_timers fuel inner s else Ret ([], s).

Definition tick_handle_periodic (s : tstate) : tstate := TState (tb s) (work s) (timers s) (wrap (jiffies s + 1)).

End Run.
End TimerOps.
Import TimerOps.

(** ** The wheel and the times of its timers *)

(** The ticks in one list of level [k]. *)
Definition span (k : Z) : Z := 2 ^ (2 + 6 * k).

(** The first span of level [k] that has not been distributed when [T] is the next
    tick and the levels up to [c] have been distributed for it. *)
Definition first_span (T c k : Z) : Z := if k <=? c then T / span k + 1 else (T + span k - 1) / span k.

(** A timer due at [E], with [e] in [expires], in list [i] of level [k]. *)
Definition in_slot (T c k i E e : Z) : Prop :=
  (k = 0 /\ T <= E < T + 256 /\ i = E mod 256) \/
  (1 <= k <= 4 /\ first_span T c k <= E / span k <= (T + span k - 1) / span k + 63 /\ i = (E / span k) mod 64 /\ wrap E = e).

(** When a timer for [e] is due: at once if [e] has passed. *)
Definition place (T e : Z) : Z := let d := to_int (e - wrap T) in if d <? 0 then T else T + d.

(** [T] counts the ticks without wrapping, [due] has the tick of every timer in
    the wheel, [o] the pending timers outside of it. *)
Record wheel_ok (s : tstate) (T c : Z) (due : gmap Z Z) (o : list Z) : Prop := {
  wo_time : 0 <= T /\ timer_jiffies (tb s) = wrap T;
  wo_in : forall k i id, id ∈ vec (tb s) k i -> exists E t, due !! id = Some E /\ timers s !! id = Some t /\ in_slot T c k i E (expires t);
  wo_due : forall id E, due !! id = Some E -> exists k i, id ∈ vec (tb s) k i;
  wo_one : forall k i k' i' id, id ∈ vec (tb s) k i -> id ∈ vec (tb s) k' i' -> k = k' /\ i = i';
  wo_nodup : forall k i, NoDup (vec (tb s) k i);
  wo_out : NoDup o /\ forall id, id ∈ o -> due !! id = None /\ is_Some (timers s !! id);
  wo_timer : forall id t, timers s !! id = Some t -> is_Some (base t) /\ is_word (expires t) /\ - 2147483648 <= slack t < 2147483648 /\
    (pending t = true <-> is_Some (due !! id) \/ id ∈ o)
}.

(** Only the lists, the tick and the timers matter. *)
Lemma wheel_ok_ext s s' T c due o :
  wheel_ok s T c due o -> timer_jiffies (tb s') = timer_jiffies (tb s) -> (forall k i, vec (tb s') k i = vec (tb s) k i) -> timers s' = timers s ->
  wheel_ok s' T c due o.
Proof.
  intros [H1 H2 H3 H4 H5 H6 H7] Et Ev Em. split; rewrite ?Et, ?Em; try done.
  - intros k i id. rewrite Ev. apply H2.
  - intros id E HE. destruct (H3 id E HE) as (k & i & Hin). exists k, i. by rewrite Ev.
  - intros k i k' i' id. rewrite !Ev. apply H4.
  - intros k i. rewrite Ev. apply H5.
Qed.

Lemma elem_of_unlink x id l : x ∈ unlink id l <-> x <> id /\ x ∈ l.
Proof. unfold unlink. by rewrite list_elem_of_filter. Qed.

Lemma NoDup_unlink id l : NoDup l -> NoDup (unlink id l).
Proof. apply NoDup_filter. Qed.

Lemma unlink_absent id l : id ∉ l -> unlink id l = l.
Proof.
  intros H. induction l as [|x l IH]; [done|]. apply not_elem_of_cons in H as [Hx Hl]. unfold unlink. rewrite filter_cons_True by congruence.
  f_equal. by apply IH.
Qed.

Lemma unlink_head id l : id ∉ l -> unlink id (id :: l) = l.
Proof. intros H. unfold unlink. rewrite filter_cons_False by tauto. by apply unlink_absent. Qed.

(** *** Times *)

Lemma wrap_shift_mod E n m : 0 <= n -> 0 <= m -> n + m <= 32 -> Z.land (Z.shiftr (wrap E) n) (2 ^ m - 1) = (E / 2 ^ n) mod 2 ^ m.
Proof.
  intros Hn Hm Hs. replace (2 ^ m - 1) with (Z.ones m) by (rewrite Z.ones_equiv; lia). rewrite Z.land_ones by lia.
  apply Z.bits_inj'. intros j Hj. destruct (Z.lt_ge_cases j m).
  - rewrite !Z.mod_pow2_bits_low by lia. rewrite Z.shiftr_spec, Z.div_pow2_bits by lia. apply testbit_wrap. lia.
  - by rewrite !Z.mod_pow2_bits_high by lia.
Qed.

Lemma wrap_mod_256 E : Z.land (wrap E) 255 = E mod 256.
Proof. rewrite <- (Z.shiftr_0_r (wrap E)). change 255 with (2 ^ 8 - 1). rewrite wrap_shift_mod by lia. by rewrite Z.div_1_r. Qed.

Lemma to_int_range z : - 2147483648 <= to_int z < 2147483648.
Proof. unfold to_int, wrap. pose proof (Z.mod_pos_bound z 4294967296). case_if; lia. Qed.

Lemma place_range T e : T <= place T e < T + 2147483648.
Proof. unfold place. pose proof (to_int_range (e - wrap T)). case_if; lia. Qed.

Lemma wrap_sum a b : wrap (wrap a + b) = wrap (a + b).
Proof. unfold wrap. by rewrite Zplus_mod_idemp_l. Qed.

(** A timer that has not passed. *)
Lemma place_wrap T e : is_word e -> 0 <= to_int (e - wrap T) -> wrap (place T e) = e /\ wrap (e - wrap T) = place T e - T.
Proof.
  intros He H. unfold place. rewrite (proj2 (Z.ltb_ge _ _)) by done. unfold to_int in *. pose proof (wrap_is_word (e - wrap T)) as Hw. unfold is_word in Hw.
  destruct (wrap (e - wrap T) <? 2147483648) eqn:E; zbool; [|lia]. split; [|lia].
  rewrite <- wrap_sum. rewrite Z.add_comm, wrap_sum. replace (e - wrap T + wrap T) with e by lia. by apply wrap_small.
Qed.

Lemma place_self T E : 0 <= T <= E -> E < T + 2147483648 -> place T (wrap E) = E.
Proof.
  intros HT HE. unfold place. assert (Ed : to_int (wrap E - wrap T) = E - T).
  { unfold to_int. replace (wrap (wrap E - wrap T)) with (E - T); [case_if; lia|]. unfold wrap. rewrite <- Zminus_mod. rewrite Z.mod_small; lia. }
  rewrite Ed. case_if; lia.
Qed.

Lemma choose_vec_eq tj e : choose_vec tj e =
  let idx := wrap (e - tj) in
  if idx <? 256 then (0, Z.land e 255) else
  if idx <? 16384 then (1, Z.land (Z.shiftr e 8) (2 ^ 6 - 1)) else
  if idx <? 1048576 then (2, Z.land (Z.shiftr e 14) (2 ^ 6 - 1)) else
  if idx <? 67108864 then (3, Z.land (Z.shiftr e 20) (2 ^ 6 - 1)) else
  if to_int idx <? 0 then (0, Z.land tj 255) else
  (4, Z.land (Z.shiftr (if 4294967295 <? idx then wrap (4294967295 + tj) else e) 26) (2 ^ 6 - 1)).
Proof. reflexivity. Qed.

(** A timer in a list of level [k] above 0. *)
Lemma slot_above T c k E e : 0 <= T -> 1 <= k <= 4 -> T + span k <= E < T + 64 * span k -> wrap E = e ->
  in_slot T c k (Z.land (Z.shiftr e (2 + 6 * k)) (2 ^ 6 - 1)) E e.
Proof.
  intros HT Hk HE <-. right. split; [done|]. rewrite wrap_shift_mod by lia. fold (span k). change (2 ^ 6) with 64. split; [|done].
  assert (0 < span k) by (apply Z.pow_pos_nonneg; lia). unfold first_span. set (u := span k) in *. clearbody u.
  assert (H0 : (T + 1 * u) / u = T / u + 1) by (apply Z.div_add; lia). assert (H1 : (T + 1 * u) / u <= E / u) by (apply Z.div_le_mono; lia).
  assert (H2 : (T + u - 1) / u <= (T + 1 * u) / u) by (apply Z.div_le_mono; lia).
  assert (H3 : E / u <= (T + u - 1 + 63 * u) / u) by (apply Z.div_le_mono; lia). rewrite Z.div_add in H3 by lia. case_if; lia.
Qed.

(** The list chosen is one where the timer can be. *)
Lemma choose_vec_slot T c e k i : 0 <= T -> is_word e -> choose_vec (wrap T) e = (k, i) -> in_slot T c k i (place T e) e.
Proof.
  intros HT He. rewrite choose_vec_eq. cbv zeta. destruct (Z.lt_ge_cases (to_int (e - wrap T)) 0) as [Hd|Hd].
  - (* passed *)
    unfold place. rewrite (proj2 (Z.ltb_lt _ _) Hd). unfold to_int in *. pose proof (wrap_is_word (e - wrap T)) as Hw.
    rewrite (wrap_small (wrap _) Hw). unfold is_word in Hw. destruct (wrap (e - wrap T) <? 2147483648) eqn:E; zbool; [lia|].
    rewrite !(proj2 (Z.ltb_ge (wrap (e - wrap T)) _)), (proj2 (Z.ltb_lt _ 0)) by lia.
    intros [= <- <-]. left. split; [done|]. split; [lia|]. apply wrap_mod_256.
  - destruct (place_wrap T e He Hd) as [Ew Ed]. rewrite Ed. set (E := place T e) in *. pose proof (place_range T e) as Hr. fold E in Hr.
    rewrite (to_int_small (E - T)) by lia. rewrite (proj2 (Z.ltb_ge (E - T) 0)), (proj2 (Z.ltb_ge 4294967295 (E - T))) by lia.
    case_ifs; intros [= <- <-].
    + left. split; [done|]. split; [lia|]. rewrite <- Ew. apply wrap_mod_256.
    + apply (slot_above T c 1); [lia|lia|change (span 1) with 256; lia|done].
    + apply (slot_above T c 2); [lia|lia|change (span 2) with 16384; lia|done].
    + apply (slot_above T c 3); [lia|lia|change (span 3) with 1048576; lia|done].
    + apply (slot_above T c 4); [lia|lia|change (span 4) with 67108864; lia|done].
Qed.

(** *** Taking timers out and putting them in *)

Lemma detach_spec s T c due o id t clear :
  wheel_ok s T c due o -> timers s !! id = Some t ->
  wheel_ok (detach_timer s id t clear) T c (delete id due) (if clear then unlink id o else if pending t then id :: unlink id o else unlink id o).
Proof.
  intros [H1 H2 H3 H4 H5 [H6 H6'] H7] Ht.
  assert (Hin : forall k i x, x ∈ vec (tb (detach_timer s id t clear)) k i <-> x <> id /\ x ∈ vec (tb s) k i) by (intros k i x; destruct clear; apply elem_of_unlink).
  assert (Hother : forall x, x <> id -> timers (detach_timer s id t clear) !! x = timers s !! x) by (intros x Hx; destruct clear; cbn; [by rewrite lookup_insert_ne|done]).
  assert (Hself : timers (detach_timer s id t clear) !! id = Some (if clear then set_pending t false else t)) by (destruct clear; cbn; [by rewrite lookup_insert_eq|done]).
  split.
  - by destruct clear.
  - intros k i x [Hx Hxi]%Hin. destruct (H2 _ _ _ Hxi) as (E & tx & HE & Htx & Hs). exists E, tx. rewrite lookup_delete_ne, Hother by done. done.
  - intros x E [Hx HE]%lookup_delete_Some. destruct (H3 _ _ HE) as (k & i & Hk). exists k, i. apply Hin. done.
  - intros k i k' i' x [_ Hx]%Hin [_ Hx']%Hin. by eapply H4.
  - intros k i. destruct clear; apply NoDup_unlink, H5.
  - assert (Hu : NoDup (unlink id o)) by (by apply NoDup_unlink).
    assert (Hu' : forall x, x ∈ unlink id o -> delete id due !! x = None /\ is_Some (timers (detach_timer s id t clear) !! x)).
    { intros x [Hx Hxo]%elem_of_unlink. rewrite lookup_delete_ne, Hother by done. by apply H6'. }
    destruct clear; [done|]. destruct (pending t); [|done]. split; [apply NoDup_cons; split; [|done]; rewrite elem_of_unlink; tauto|].
    intros x [->|Hx]%elem_of_cons; [|by apply Hu']. rewrite lookup_delete_eq, Hself. done.
  - intros x tx Htx. destruct (decide (x = id)) as [->|Hx].
    + rewrite Hself in Htx. injection Htx as <-. destruct (H7 _ _ Ht) as (Hb & Hw & Hs & Hp). rewrite lookup_delete_eq.
      destruct clear; (split; [done|]; split; [done|]; split; [done|]); [cbn; rewrite elem_of_unlink; split; [done|intros [[]|[]]; done]|]. destruct (pending t); [split; [|done]; intros _; right; apply elem_of_cons; by left|].
      split; [done|]. rewrite elem_of_unlink. intros [[]|[]]; done.
    + rewrite Hother in Htx by done. destruct (H7 _ _ Htx) as (Hb & Hw & Hs & Hp). rewrite lookup_delete_ne by done. split; [done|]. split; [done|]. split; [done|].
      rewrite Hp. destruct clear; [|destruct (pending t)]; rewrite ?elem_of_cons, elem_of_unlink; tauto.
Qed.

(** What stays when timers are moved. *)
Definition frame (s s' : tstate) : Prop := jiffies s' = jiffies s /\ dom (timers s') = dom (timers s).

Lemma frame_refl s : frame s s.
Proof. done. Qed.

Lemma frame_trans s s' s'' : frame s s' -> frame s' s'' -> frame s s''.
Proof. unfold frame. intros [-> ->] [-> ->]. done. Qed.
#[local] Hint Resolve frame_refl frame_trans : grid.

Lemma set_timer_frame s id t t' : timers s !! id = Some t -> frame s (set_timer s id t').
Proof. intros Ht. split; [done|]. cbn. rewrite dom_insert_lookup_L; [done|]. by rewrite Ht. Qed.

Lemma upd_vec_elem v k i l k' i' x : x ∈ upd_vec v k i l k' i' -> (k' = k /\ i' = i /\ x ∈ l) \/ ((k', i') <> (k, i) /\ x ∈ v k' i').
Proof.
  unfold upd_vec. destruct (Z.eqb_spec k' k) as [->|]; [|right; split; [congruence|done]].
  destruct (Z.eqb_spec i' i) as [->|]; [by left|right; split; [congruence|done]].
Qed.

Lemma upd_vec_eq v k i l : upd_vec v k i l k i = l.
Proof. unfold upd_vec. by rewrite !Z.eqb_refl. Qed.

Lemma upd_vec_ne v k i l k' i' : (k', i') <> (k, i) -> upd_vec v k i l k' i' = v k' i'.
Proof. intros H. unfold upd_vec. destruct (Z.eqb_spec k' k) as [->|]; [|done]. destruct (Z.eqb_spec i' i) as [->|]; [done|done]. Qed.

Lemma in_slot_pending T c due o s id t : wheel_ok s T c due o -> timers s !! id = Some t -> due !! id = None -> forall k i, id ∉ vec (tb s) k i.
Proof. intros Hw _ Hd k i Hin. destruct (wo_in _ _ _ _ _ Hw _ _ _ Hin) as (E & _ & HE & _). congruence. Qed.

Lemma add_spec s T c due o id t e :
  wheel_ok s T c due o -> timers s !! id = Some t -> due !! id = None -> is_word e ->
  wheel_ok (internal_add_timer s id (set_expires t e)) T c (<[id := place T e]> due) (unlink id o) /\ frame s (internal_add_timer s id (set_expires t e)) /\
  work (internal_add_timer s id (set_expires t e)) = work s.
Proof.
  intros Hw Ht Hd He. pose proof (in_slot_pending _ _ _ _ _ _ _ Hw Ht Hd) as Hno. destruct Hw as [[H0 H1] H2 H3 H4 H5 [H6 H6'] H7].
  destruct (choose_vec (wrap T) e) as [k i] eqn:Ech. pose proof (choose_vec_slot T c e k i H0 He Ech) as Hslot.
  set (s1 := set_timer (set_tb s (set_vec (tb s) (upd_vec (vec (tb s)) k i (vec (tb s) k i ++ [id])))) id (set_pending (set_expires t e) true)).
  assert (E1 : __internal_add_timer s id (set_expires t e) = s1) by (unfold __internal_add_timer; rewrite H1; cbn [expires set_expires]; by rewrite Ech).
  assert (Hf : frame s s1) by (by apply (set_timer_frame (set_tb s _) id t)).
  enough (Hok : wheel_ok s1 T c (<[id := place T e]> due) (unlink id o)).
  { unfold internal_add_timer. rewrite E1. case_if; [by split_and!|]. split; [by eapply wheel_ok_ext|]. done. }
  assert (Hin : forall k' i' x, x ∈ vec (tb s1) k' i' -> (x = id /\ k' = k /\ i' = i) \/ (x <> id /\ x ∈ vec (tb s) k' i')).
  { intros k' i' x [(-> & -> & Hx)|[_ Hx]]%upd_vec_elem; [apply elem_of_app in Hx as [Hx|Hx%list_elem_of_singleton]|]; [right|by left|right]; (split; [|done]); intros ->; by eapply Hno. }
  assert (Hid : id ∈ vec (tb s1) k i) by (cbn; rewrite upd_vec_eq; apply elem_of_app; right; by apply list_elem_of_singleton).
  split; cbn [timers s1 set_timer].
  - done.
  - intros k' i' x [(-> & -> & ->)|[Hx Hxi]]%Hin.
    + exists (place T e). eexists. rewrite !lookup_insert_eq. done.
    + rewrite !lookup_insert_ne by done. by apply H2.
  - intros x E [[<- _]|[Hx HE]]%lookup_insert_Some; [exists k, i; exact Hid|]. destruct (H3 _ _ HE) as (k' & i' & Hk). exists k', i'. cbn.
    destruct (decide ((k', i') = (k, i))) as [[= -> ->]|]; [rewrite upd_vec_eq; apply elem_of_app; by left|by rewrite upd_vec_ne].
  - intros k1 i1 k2 i2 x [(Ex & -> & ->)|[Hx1 Hx]]%Hin [(Ex' & -> & ->)|[Hx2 Hx']]%Hin; try done. by eapply H4.
  - intros k' i'. cbn. destruct (decide ((k', i') = (k, i))) as [[= -> ->]|]; [rewrite upd_vec_eq|by rewrite upd_vec_ne].
    apply NoDup_app. split; [done|]. split; [|apply NoDup_singleton]. intros x Hx ->%list_elem_of_singleton. by eapply Hno.
  - split; [by apply NoDup_unlink|]. intros x [Hx Hxo]%elem_of_unlink. rewrite !lookup_insert_ne by done. by apply H6'.
  - intros x tx. rewrite lookup_insert_Some. intros [[<- <-]|[Hx Htx]].
    + destruct (H7 _ _ Ht) as (Hb & _ & Hs & _). cbn. rewrite lookup_insert_eq. split; [done|]. split; [done|]. split; [done|]. split; [|done]. by left; eexists.
    + rewrite lookup_insert_ne by done. destruct (H7 _ _ Htx) as (Hb & Hwd & Hs & Hp). split; [done|]. split; [done|]. split; [done|].
      rewrite Hp, elem_of_unlink. split; [intros [?|?]; auto|tauto].
Qed.

(** *** Distributing a list *)

Lemma add_all_spec L s T c due full w :
  wheel_ok s T c due (L ++ w) -> (forall id, id ∈ L -> exists t, timers s !! id = Some t /\ full !! id = Some (place T (expires t))) ->
  (forall id, id ∉ L -> full !! id = due !! id) ->
  exists s', add_all s L = Some s' /\ wheel_ok s' T c full w /\ frame s s' /\ work s' = work s.
Proof.
  revert s due. induction L as [|id L IH]; intros s due Hw HL Hfull.
  { exists s. assert (full = due) as -> by (apply map_eq; intros id; apply Hfull; apply not_elem_of_nil). by split_and!. }
  destruct (HL id) as (t & Ht & Hp); [by left|]. destruct (wo_timer _ _ _ _ _ Hw _ _ Ht) as ([fl Hb] & Hword & _).
  destruct (wo_out _ _ _ _ _ Hw) as [Hnd Hout]. apply NoDup_cons in Hnd as [Hid Hnd]. destruct (Hout id) as [Hdue _]; [by left|].
  assert (Es : set_expires t (expires t) = t) by (by destruct t).
  destruct (add_spec _ _ _ _ _ _ _ (expires t) Hw Ht Hdue Hword) as (Hw1 & Hf1 & Hwork). rewrite Es in *.
  replace (unlink id ((id :: L) ++ w)) with (L ++ w) in Hw1 by (symmetry; by apply unlink_head).
  assert (Htm : timers (internal_add_timer s id t) = <[id := set_pending t true]> (timers s)).
  { unfold internal_add_timer, __internal_add_timer. destruct (choose_vec _ _). by case_if. }
  destruct (IH _ _ Hw1) as (s' & E & Hw' & Hf' & Hwork').
  - intros x Hx. destruct (HL x) as (tx & Htx & Hpx); [by right|]. exists tx. rewrite Htm, lookup_insert_ne; [done|]. intros ->. apply Hid, elem_of_app. by left.
  - intros x Hx. destruct (decide (x = id)) as [->|Hne]; [by rewrite lookup_insert_eq|]. rewrite lookup_insert_ne by done. apply Hfull. by apply not_elem_of_cons.
  - exists s'. cbn [add_all]. rewrite Ht. cbn [mbind option_bind]. rewrite Hb. cbn [mbind option_bind]. split; [done|]. split; [done|]. split; [eauto with grid|congruence].
Qed.

Lemma span_pos k : 0 <= k -> 0 < span k.
Proof. intros Hk. apply Z.pow_pos_nonneg; lia. Qed.

Lemma aligned_ceil T u : 0 < u -> T mod u = 0 -> (T + u - 1) / u = T / u.
Proof.
  intros Hu Ha. rewrite (Z.div_mod T u) at 1 by lia. rewrite Ha. symmetry. apply (Z.div_unique_pos _ _ _ (u - 1)); lia.
Qed.

Lemma unaligned_ceil T u : 0 < u -> T mod u <> 0 -> (T + u - 1) / u = T / u + 1.
Proof.
  intros Hu Hm. pose proof (Z.div_mod T u). pose proof (Z.mod_pos_bound T u Hu). symmetry. apply (Z.div_unique_pos _ _ _ (T mod u - 1)); lia.
Qed.

(** The list whose turn it is has the timers of this span, the others do not. *)
Lemma slot_turn T k i E e : 1 <= k <= 4 -> T mod span k = 0 -> in_slot T (k - 1) k i E e ->
  (i = (T / span k) mod 64 -> T <= E < T + span k /\ wrap E = e) /\ (i <> (T / span k) mod 64 -> in_slot T k k i E e).
Proof.
  intros Hk Ha [[? _]|(_ & HE & Hi & He)]; [lia|]. pose proof (span_pos k) as Hu. unfold in_slot, first_span in *. rewrite Z.leb_refl.
  rewrite (proj2 (Z.leb_gt k (k - 1))), (aligned_ceil _ _ (Hu ltac:(lia)) Ha) in HE by lia. set (u := span k) in *. specialize (Hu ltac:(lia)). clearbody u.
  pose proof (Z.div_mod T u) as HT. pose proof (Z.div_mod E u) as HE'. pose proof (Z.mod_pos_bound E u Hu). split.
  - intros Ei. rewrite Hi in Ei. assert (Eq : E / u = T / u) by (clear - Ei HE; zlia). rewrite Eq in HE'. split; [lia|done].
  - intros Ei. right. split; [done|]. rewrite (aligned_ceil T u) by done.
    assert (E / u <> T / u) by congruence. split; [lia|done].
Qed.

Lemma slot_other T k k' i E e : k' <> k -> in_slot T (k - 1) k' i E e -> in_slot T k k' i E e.
Proof.
  intros Hk [H|(Hk' & HE & H)]; [by left|right]. split; [done|]. split; [|done]. unfold first_span in *.
  destruct (k' <=? k - 1) eqn:E1; zbool; [rewrite (proj2 (Z.leb_le k' k)) by lia; done|rewrite (proj2 (Z.leb_gt k' k)) by lia; done].
Qed.

Lemma INDEX_eq s T k : timer_jiffies (tb s) = wrap T -> 1 <= k <= 4 -> INDEX s (k - 1) = (T / span k) mod 64.
Proof.
  intros E Hk. unfold INDEX. rewrite E. replace (TVR_BITS + (k - 1) * TVN_BITS) with (2 + 6 * k) by (unfold TVR_BITS, TVN_BITS; lia).
  change TVN_MASK with (2 ^ 6 - 1). rewrite wrap_shift_mod by lia. done.
Qed.

(** The wheel without the list whose turn it is. *)
Lemma take_list s T k due o :
  wheel_ok s T (k - 1) due o -> 1 <= k <= 4 -> T mod span k = 0 ->
  let i := (T / span k) mod 64 in
  wheel_ok (set_tb s (set_vec (tb s) (upd_vec (vec (tb s)) k i []))) T k (filter (fun p => p.1 ∉ vec (tb s) k i) due) (vec (tb s) k i ++ o).
Proof.
  intros [H1 H2 H3 H4 H5 [H6 H6'] H7] Hk Ha i. set (L := vec (tb s) k i).
  assert (HL : forall x, x ∈ L -> is_Some (due !! x) /\ is_Some (timers s !! x)).
  { intros x Hx. destruct (H2 _ _ _ Hx) as (E & t & HE & Ht & _). by split; eexists. }
  assert (Hdue : forall x E, filter (fun p => p.1 ∉ L) due !! x = Some E <-> due !! x = Some E /\ x ∉ L) by (intros x E; by rewrite map_lookup_filter_Some).
  split; cbn.
  - done.
  - intros k' i' x [(_ & _ & []%elem_of_nil)|[Hne Hx]]%upd_vec_elem. destruct (H2 _ _ _ Hx) as (E & t & HE & Ht & Hs). exists E, t. split; [|split; [done|]].
    + apply Hdue. split; [done|]. intros HxL. destruct (H4 _ _ _ _ _ Hx HxL) as [-> ->]. done.
    + destruct (decide (k' = k)) as [->|]; [|by apply slot_other]. apply (slot_turn T k i' E _ Hk Ha Hs). intros ->. done.
  - intros x E [HE HxL]%Hdue. destruct (H3 _ _ HE) as (k' & i' & Hx). exists k', i'. rewrite upd_vec_ne; [done|]. intros [= -> ->]. done.
  - intros k1 i1 k2 i2 x [(_ & _ & []%elem_of_nil)|[_ Hx]]%upd_vec_elem [(_ & _ & []%elem_of_nil)|[_ Hx']]%upd_vec_elem. by eapply H4.
  - intros k' i'. destruct (decide ((k', i') = (k, i))) as [[= -> ->]|]; [rewrite upd_vec_eq; apply NoDup_nil_2|by rewrite upd_vec_ne].
  - split.
    + apply NoDup_app. split; [apply H5|]. split; [|done]. intros x Hx Hxo. destruct (HL x Hx) as [[E HE] _]. destruct (H6' x Hxo) as [HN _]. congruence.
    + intros x [Hx|Hx]%elem_of_app.
      * split; [|by apply HL]. apply eq_None_not_Some. intros [E HE%Hdue]. tauto.
      * destruct (H6' x Hx) as [HN Ht]. split; [|done]. apply eq_None_not_Some. intros [E HE%Hdue]. destruct HE. congruence.
  - intros x t Ht. destruct (H7 _ _ Ht) as (Hb & Hwd & Hs & Hp). split; [done|]. split; [done|]. split; [done|]. rewrite Hp, elem_of_app. split.
    + intros [[E HE]|Ho]; [|by auto]. destruct (decide (x ∈ L)); [by auto|]. left. exists E. by apply Hdue.
    + intros [[E [HE _]%Hdue]|[Hx|Ho]]; [left; by eexists|left; by apply HL|by right].
Qed.

Lemma cascade_spec s T k due o :
  wheel_ok s T (k - 1) due o -> 1 <= k <= 4 -> T mod span k = 0 ->
  exists s', cascade s k (INDEX s (k - 1)) = Some ((T / span k) mod 64, s') /\ wheel_ok s' T k due o /\ frame s s' /\ work s' = work s.
Proof.
  intros Hw Hk Ha. pose proof (wo_time _ _ _ _ _ Hw) as [HT Etj]. unfold cascade. rewrite (INDEX_eq s T k Etj Hk).
  set (i := (T / span k) mod 64). pose proof (take_list s T k due o Hw Hk Ha) as Hw1. cbv zeta in Hw1. fold i in Hw1.
  destruct (add_all_spec _ _ _ _ _ due _ Hw1) as (s' & E & H).
  - intros x Hx. destruct (wo_in _ _ _ _ _ Hw _ _ _ Hx) as (E & t & HE & Ht & Hs). exists t. split; [done|]. rewrite HE. f_equal.
    destruct (proj1 (slot_turn T k i E _ Hk Ha Hs) eq_refl) as [Hr He]. rewrite <- He. symmetry. apply place_self; [lia|].
    assert (span k <= 67108864) by (change 67108864 with (2 ^ 26); apply Z.pow_le_mono_r; lia). lia.
  - intros x Hx. destruct (due !! x) as [E|] eqn:HE; symmetry; [by apply map_lookup_filter_Some|].
    apply eq_None_not_Some. intros [E [HE' _]%map_lookup_filter_Some]. congruence.
  - rewrite E. cbn. exists s'. split; [done|]. exact H.
Qed.

(** All levels whose turn it is have been distributed. *)
Definition distributed (T c : Z) : Prop := forall k, 1 <= k <= 4 -> T mod span k = 0 -> k <= c.

Lemma span_next T k : 0 <= k -> T mod span (k + 1) = T mod span k + span k * ((T / span k) mod 64).
Proof.
  intros Hk. assert (Es : span (k + 1) = span k * 2 ^ 6) by (unfold span; rewrite <- Z.pow_add_r by lia; f_equal; lia). rewrite Es. change (2 ^ 6) with 64.
  apply Z.rem_mul_r; [|lia]. pose proof (span_pos k Hk). lia.
Qed.

Lemma distributed_next T k : 1 <= k -> T mod span k = 0 -> (T / span k) mod 64 <> 0 -> distributed T k.
Proof.
  intros Hk Ha Hn j Hj Hjm. destruct (Z.le_gt_cases j k); [done|exfalso]. apply Hn.
  assert (Hd : T mod span (k + 1) = 0).
  { apply Z.mod_divide; [pose proof (span_pos (k + 1)); lia|]. apply Z.mod_divide in Hjm; [|pose proof (span_pos j); lia]. eapply Z.divide_trans; [|exact Hjm].
    unfold span. exists (2 ^ (6 * (j - k - 1))). rewrite <- Z.pow_add_r by lia. f_equal. lia. }
  rewrite span_next in Hd by lia. pose proof (span_pos k). pose proof (Z.mod_pos_bound (T / span k) 64). nia.
Qed.

Lemma cascades_spec s T due o :
  wheel_ok s T 0 due o -> exists s' c, cascades s = Some s' /\ wheel_ok s' T c due o /\ distributed T c /\ frame s s' /\ work s' = work s.
Proof.
  intros Hw. pose proof (wo_time _ _ _ _ _ Hw) as [HT Etj]. unfold cascades. rewrite Etj. change TVR_MASK with 255. rewrite wrap_mod_256.
  destruct (Z.eqb_spec (T mod 256) 0) as [E0|E0]; cbn [negb].
  2:{ exists s, 0. split_and!; try done. intros k Hk Hm. exfalso. apply E0. apply Z.mod_divide in Hm; [|pose proof (span_pos k); lia].
      apply Z.mod_divide; [lia|]. eapply Z.divide_trans; [|exact Hm]. unfold span. exists (2 ^ (6 * (k - 1))). change 256 with (2 ^ 8). rewrite <- Z.pow_add_r by lia. f_equal. lia. }
  assert (Hstep : forall s1 k, 1 <= k <= 4 -> wheel_ok s1 T (k - 1) due o -> T mod span k = 0 -> frame s s1 -> work s1 = work s ->
    exists s2, cascade s1 k (INDEX s1 (k - 1)) = Some ((T / span k) mod 64, s2) /\ wheel_ok s2 T k due o /\ frame s s2 /\ work s2 = work s /\
      ((T / span k) mod 64 <> 0 -> distributed T k) /\ ((T / span k) mod 64 = 0 -> T mod span (k + 1) = 0)).
  { intros s1 k Hk Hw1 Ha Hf Hwk. destruct (cascade_spec s1 T k due o Hw1 Hk Ha) as (s2 & E & Hw2 & Hf2 & Hwk2). exists s2.
    split; [done|]. split; [done|]. split; [eauto with grid|]. split; [congruence|]. split; [intros ?; apply distributed_next; [lia|done|done]|]. intros Hz. rewrite span_next by lia. lia. }
  destruct (Hstep s 1) as (s1 & E1 & Hw1 & Hf1 & Hk1 & Hd1 & Hn1); [lia|exact Hw|exact E0|done|done|]. change (1 - 1) with 0 in E1. rewrite E1. cbn [mbind option_bind].
  destruct (Z.eqb_spec ((T / span 1) mod 64) 0) as [Z1|Z1]; cbn [negb]; [|exists s1, 1; auto 6].
  destruct (Hstep s1 2) as (s2 & E2 & Hw2 & Hf2 & Hk2 & Hd2 & Hn2); [lia|exact Hw1|by apply Hn1|done|done|]. change (2 - 1) with 1 in E2. rewrite E2. cbn [mbind option_bind].
  destruct (Z.eqb_spec ((T / span 2) mod 64) 0) as [Z2|Z2]; cbn [negb]; [|exists s2, 2; auto 6].
  destruct (Hstep s2 3) as (s3 & E3 & Hw3 & Hf3 & Hk3 & Hd3 & Hn3); [lia|exact Hw2|by apply Hn2|done|done|]. change (3 - 1) with 2 in E3. rewrite E3. cbn [mbind option_bind].
  destruct (Z.eqb_spec ((T / span 3) mod 64) 0) as [Z3|Z3]; cbn [negb]; [|exists s3, 3; auto 6].
  destruct (Hstep s3 4) as (s4 & E4 & Hw4 & Hf4 & Hk4 & _); [lia|exact Hw3|by apply Hn3|done|done|]. change (4 - 1) with 3 in E4. rewrite E4. cbn [mbind option_bind].
  exists s4, 4. split_and!; try done. intros k Hk _. lia.
Qed.

Lemma slot_advance T c k i E e : 0 <= T -> distributed T c -> in_slot T c k i E e -> (k, i) <> (0, T mod 256) -> in_slot (T + 1) 0 k i E e.
Proof.
  intros HT Hd [(-> & HE & Hi)|(Hk & HE & H)] Hne.
  - left. split; [done|]. split; [|done]. assert (E <> T) by congruence. lia.
  - right. split; [done|]. split; [|done]. pose proof (span_pos k ltac:(lia)) as Hu. unfold first_span in *. rewrite (proj2 (Z.leb_gt k 0)) by lia.
    assert (El : (T + 1 + span k - 1) / span k = T / span k + 1) by (replace (T + 1 + span k - 1) with (T + 1 * span k) by lia; apply Z.div_add; lia).
    assert (Hle : (T + span k - 1) / span k <= T / span k + 1) by (rewrite <- El; apply Z.div_le_mono; lia).
    rewrite El. destruct (k <=? c) eqn:Ec; zbool; [lia|]. assert (Hm : T mod span k <> 0) by (intros Hm; specialize (Hd k Hk Hm); lia).
    pose proof (unaligned_ceil T (span k) Hu Hm). lia.
Qed.

(** One tick: the timers due are taken out, all of them and no others. *)
Lemma begin_tick_spec s T due :
  wheel_ok s T 0 due [] -> exists s', begin_tick s = Some s' /\ wheel_ok s' (T + 1) 0 (filter (fun p => p.2 <> T) due) (work s') /\
    (forall id, id ∈ work s' <-> due !! id = Some T) /\ frame s s'.
Proof.
  intros Hw0. destruct (cascades_spec _ _ _ _ Hw0) as (s1 & c & E & Hw & Hd & Hf & _). pose proof (wo_time _ _ _ _ _ Hw0) as [_ Etj0].
  unfold begin_tick. rewrite E, Etj0. change TVR_MASK with 255. rewrite wrap_mod_256. cbn [mbind option_bind]. eexists. split; [done|]. cbn [work].
  destruct Hw as [[HT Etj] H2 H3 H4 H5 _ H7]. set (L := vec (tb s1) 0 (T mod 256)).
  assert (HL : forall id, id ∈ L <-> due !! id = Some T).
  { intros id. split.
    - intros Hin. destruct (H2 _ _ _ Hin) as (x & t & Hx & _ & [(_ & Hr & Hi)|[? _]]); [|lia]. rewrite Hx. f_equal. clear - Hr Hi HT. zlia.
    - intros Hx. destruct (H3 _ _ Hx) as (k & i & Hin). destruct (H2 _ _ _ Hin) as (x & t & Hx' & _ & Hs). rewrite Hx in Hx'. injection Hx' as <-.
      destruct Hs as [(-> & Hr & ->)|(Hk & HE & _)]; [done|exfalso]. pose proof (span_pos k ltac:(lia)) as Hu. unfold first_span in HE.
      destruct (k <=? c) eqn:Ec; zbool; [lia|]. destruct (decide (T mod span k = 0)) as [Hm|Hm]; [specialize (Hd k Hk Hm); lia|].
      rewrite unaligned_ceil in HE by done. lia. }
  assert (Hdue : forall x E, filter (fun p => p.2 <> T) due !! x = Some E <-> due !! x = Some E /\ E <> T) by (intros; by rewrite map_lookup_filter_Some).
  split; [|split; [done|exact Hf]]. split; cbn.
  - split; [lia|]. rewrite Etj. apply wrap_sum.
  - intros k i id [(_ & _ & []%elem_of_nil)|[Hne Hx]]%upd_vec_elem. destruct (H2 _ _ _ Hx) as (x & t & HE & Ht & Hs). exists x, t.
    split; [apply Hdue; split; [done|intros ->]|split; [done|by eapply slot_advance]]. apply HL in HE. destruct (H4 _ _ _ _ _ Hx HE) as [-> ->]. done.
  - intros id x [HE Hne]%Hdue. destruct (H3 _ _ HE) as (k & i & Hx). exists k, i. rewrite upd_vec_ne; [done|]. intros [= -> ->]. apply HL in Hx. congruence.
  - intros k1 i1 k2 i2 x [(_ & _ & []%elem_of_nil)|[_ Hx]]%upd_vec_elem [(_ & _ & []%elem_of_nil)|[_ Hx']]%upd_vec_elem. by eapply H4.
  - intros k i. destruct (decide ((k, i) = (0, T mod 256))) as [[= -> ->]|]; [rewrite upd_vec_eq; apply NoDup_nil_2|by rewrite upd_vec_ne].
  - split; [apply H5|]. intros id Hid. split.
    + apply eq_None_not_Some. intros [x [HE Hne]%Hdue]. apply HL in Hid. congruence.
    + destruct (H2 _ _ _ Hid) as (? & t & _ & Ht & _). by eexists.
  - intros id t Ht. destruct (H7 _ _ Ht) as (Hb & Hwd & Hs & Hp). split; [done|]. split; [done|]. split; [done|]. rewrite Hp. split.
    + intros [[x HE]|[]%elem_of_nil]. destruct (decide (x = T)) as [->|]; [right; by apply HL|left; exists x; by apply Hdue].
    + intros [[x [HE _]%Hdue]|Hx]; left; [by eexists|]. apply HL in Hx. by eexists.
Qed.

(** ** Slack *)

Lemma last_bit_word m : is_word m -> m <> 0 -> find_last_bit [m] BITS_PER_LONG = Some (Z.log2 m).
Proof.
  intros Hm Hn. unfold find_last_bit. change (Z.land BITS_PER_LONG (BITS_PER_LONG - 1) =? 0) with true. cbn [negb].
  change (Z.to_nat (BITS_PER_LONG / BITS_PER_LONG)) with 1%nat. cbn [last_loop]. change (word_at [m] (Z.of_nat 0)) with (Some m). cbn [mbind option_bind].
  rewrite (proj2 (Z.eqb_neq m 0) Hn). cbn [negb]. f_equal. apply wrap_small. pose proof (Z.log2_nonneg m).
  assert (Z.log2 m < 32) by (apply Z.log2_lt_pow2; unfold is_word in Hm; lia). unfold is_word. cbn. unfold __fls. lia.
Qed.

Lemma clear_low l b : is_word l -> 0 <= b < 32 -> Z.land l (w_not (Z.shiftl 1 b - 1)) = l / 2 ^ b * 2 ^ b.
Proof.
  intros Hl Hb. assert (Hp : 0 < 2 ^ b <= 2 ^ 31) by (split; [apply Z.pow_pos_nonneg; lia|apply Z.pow_le_mono_r; lia]).
  rewrite Z.shiftl_1_l. replace (2 ^ b - 1) with (Z.ones b) by (rewrite Z.ones_equiv; lia).
  assert (Ho : is_word (Z.ones b)) by (rewrite Z.ones_equiv; unfold is_word; lia).
  apply Z.bits_inj'. intros j Hj. rewrite Z.land_spec, <- Z.shiftl_mul_pow2, <- Z.shiftr_div_pow2 by lia.
  destruct (Z.lt_ge_cases j 32) as [Hj'|Hj'].
  - rewrite testbit_w_not by done. destruct (Z.lt_ge_cases j b).
    + rewrite Z.ones_spec_low, Z.shiftl_spec_low by lia. apply andb_false_r.
    + rewrite Z.ones_spec_high, Z.shiftl_spec_high, Z.shiftr_spec by lia. replace (j - b + b) with j by lia. apply andb_true_r.
  - rewrite (testbit_word_high l) by done. rewrite Z.shiftl_spec, Z.shiftr_spec by lia. rewrite (testbit_word_high l) by (done || lia). done.
Qed.

Lemma log2_differs e l : is_word e -> is_word l -> Z.lxor e l <> 0 -> e / 2 ^ Z.log2 (Z.lxor e l) <> l / 2 ^ Z.log2 (Z.lxor e l).
Proof.
  intros He Hl Hm E. set (m := Z.lxor e l) in *. pose proof (Z.log2_nonneg m) as Hb.
  assert (Hm0 : 0 < m) by (assert (0 <= m) by (apply Z.lxor_nonneg; unfold is_word in *; lia); lia).
  destruct (Z.log2_spec m Hm0) as [H1 _]. rewrite <- !Z.shiftr_div_pow2 in E by lia.
  assert (Ex : Z.shiftr m (Z.log2 m) = 0) by (unfold m; rewrite Z.shiftr_lxor; fold m; rewrite E; apply Z.lxor_nilpotent).
  rewrite Z.shiftr_div_pow2 in Ex by lia. assert (1 <= m / 2 ^ Z.log2 m) by (apply Z.div_le_lower_bound; [apply Z.pow_pos_nonneg; lia|lia]). lia.
Qed.

Lemma lxor_word e l : is_word e -> is_word l -> is_word (Z.lxor e l).
Proof.
  intros He Hl. apply is_word_bits; [apply Z.lxor_nonneg; unfold is_word in *; lia|]. intros i Hi. rewrite Z.lxor_spec, !testbit_word_high by done. done.
Qed.

Lemma round_down_spec e d : is_word e -> 0 <= d < 2147483648 -> exists r, round_down e (wrap (e + d)) = Some r /\ is_word r /\ wrap (r - e) <= d.
Proof.
  intros He Hd. set (l := wrap (e + d)). assert (Hl : is_word l) by apply wrap_is_word. unfold round_down. destruct (Z.eqb_spec (Z.lxor e l) 0) as [E0|E0].
  { exists e. split; [done|]. split; [done|]. rewrite Z.sub_diag. change (wrap 0) with 0. lia. }
  pose proof (log2_differs e l He Hl E0) as Hne. pose proof (lxor_word _ _ He Hl) as Hm. rewrite last_bit_word by done. cbn [mbind option_bind].
  set (b := Z.log2 (Z.lxor e l)) in *. assert (Hb : 0 <= b < 32).
  { split; [apply Z.log2_nonneg|]. unfold is_word in Hm. apply Z.log2_lt_pow2; [lia|]. change (2 ^ 32) with 4294967296. lia. }
  rewrite clear_low by done. set (u := 2 ^ b) in *. assert (Hu : 0 < u) by (apply Z.pow_pos_nonneg; lia).
  pose proof (Z.div_mod l u ltac:(lia)) as Hdl. pose proof (Z.mod_pos_bound l u Hu) as Hml. pose proof (Z.div_mod e u ltac:(lia)) as Hde. pose proof (Z.mod_pos_bound e u Hu) as Hme.
  exists (l / u * u). split; [done|]. split; [unfold is_word in *; pose proof (Z.div_pos l u); nia|].
  destruct (Z.lt_ge_cases (e + d) 4294967296) as [Hlt|Hge].
  - assert (El : l = e + d) by (apply wrap_small; unfold is_word in *; lia). assert (Hle : e / u <= l / u) by (apply Z.div_le_mono; lia).
    assert (Hr : e < l / u * u) by nia. rewrite wrap_small by (unfold is_word in *; lia). lia.
  - assert (El : l = e + d - 4294967296) by (unfold l, wrap; symmetry; apply (Z.mod_unique_pos _ _ 1); unfold is_word in *; lia).
    assert (E31 : b = 31).
    { assert (2 ^ 31 <= Z.lxor e l); [|pose proof (Z.log2_le_mono _ _ H) as H31; rewrite Z.log2_pow2 in H31 by lia; unfold b in *; lia].
      assert (Ex : Z.shiftr (Z.lxor e l) 31 = 1).
      { rewrite Z.shiftr_lxor, !Z.shiftr_div_pow2 by lia. change (2 ^ 31) with 2147483648. unfold is_word in *.
        rewrite <- (Z.div_unique_pos e 2147483648 1 (e - 2147483648)), <- (Z.div_unique_pos l 2147483648 0 l) by lia. done. }
      rewrite Z.shiftr_div_pow2 in Ex by lia. unfold is_word in Hm. pose proof (Z.mul_div_le (Z.lxor e l) (2 ^ 31)). lia. }
    assert (Eu : u = 2147483648) by (unfold u; rewrite E31; done). assert (Hz : l / u = 0) by (apply Z.div_small; unfold is_word in *; lia). rewrite Hz.
    unfold wrap. rewrite <- (Z.mod_unique_pos (0 * u - e) 4294967296 (-1) (4294967296 - e)) by (unfold is_word in *; lia). unfold is_word in *. lia.
Qed.

(** What [apply_slack] may add. *)
Definition max_slack (now : Z) (t : timer_list) (e : Z) : Z :=
  if 0 <=? slack t then slack t else if to_int (e - now) <? 256 then 0 else to_int (e - now) / 256.

(** [apply_slack] never moves a timer to an earlier tick and never by more than
    the slack of the timer or, without one, a 256th of the time that is left;
    also where the sum passes the end of the counter. *)
Theorem apply_slack_correct now t e :
  is_word e -> - 2147483648 <= slack t < 2147483648 -> exists r, apply_slack now t e = Some r /\ is_word r /\ wrap (r - e) <= max_slack now t e.
Proof.
  intros He Hs. unfold apply_slack, max_slack. pose proof (to_int_range (e - now)).
  destruct (0 <=? slack t) eqn:E1; zbool; [apply round_down_spec; [done|lia]|].
  destruct (to_int (e - now) <? 256) eqn:E2; zbool; [|apply round_down_spec; [done|zlia]].
  exists e. split; [done|]. split; [done|]. rewrite Z.sub_diag. change (wrap 0) with 0. lia.
Qed.

(** ** The operations *)

Lemma lock_spec fuel t : is_Some (base t) -> (0 < fuel)%nat -> lock_timer_base fuel t = Ret tt.
Proof. intros [fl Hb] Hf. destruct fuel; [lia|]. cbn. by rewrite Hb. Qed.

Lemma not_pending s T c due o id t : wheel_ok s T c due o -> timers s !! id = Some t -> pending t = false -> due !! id = None /\ id ∉ o.
Proof.
  intros Hw Ht Hp. destruct (wo_timer _ _ _ _ _ Hw _ _ Ht) as (_ & _ & _ & Hiff). split.
  - apply eq_None_not_Some. intros Hd. assert (pending t = true) by (apply Hiff; by left). congruence.
  - intros Ho. assert (pending t = true) by (apply Hiff; by right). congruence.
Qed.

(** [detach_if_pending], which also adjusts the counters. *)
Lemma detach_if_pending_spec s T due id t clear :
  wheel_ok s T 0 due (work s) -> timers s !! id = Some t ->
  exists s', detach_if_pending s id t clear = (pending t, s') /\
    wheel_ok s' T 0 (delete id due) (if clear then work s' else if pending t then id :: work s' else work s') /\ work s' = unlink id (work s) /\ frame s s' /\
    timers s' !! id = Some (if clear then set_pending t false else t).
Proof.
  intros Hw Ht. unfold detach_if_pending. destruct (pending t) eqn:Hp; cbn [negb].
  - pose proof (detach_spec _ _ _ _ _ _ _ clear Hw Ht) as Hd. rewrite Hp in Hd.
    assert (Hf : frame s (detach_timer s id t clear)) by (destruct clear; [by apply (set_timer_frame (TState _ _ (timers s) (jiffies s)) id t)|done]).
    assert (Htm : timers (detach_timer s id t clear) !! id = Some (if clear then set_pending t false else t)) by (destruct clear; cbn; [by rewrite lookup_insert_eq|done]).
    assert (Hwk : work (detach_timer s id t clear) = unlink id (work s)) by (by destruct clear).
    case_if; eexists; (split; [done|]); cbn [set_tb work]; rewrite ?Hwk; [by split_and!|]. split; [by eapply wheel_ok_ext|]. by split_and!.
  - destruct (not_pending _ _ _ _ _ _ _ Hw Ht Hp) as [Hd Ho]. exists s. rewrite delete_id by done. split; [done|]. split; [by destruct clear|].
    split; [by rewrite unlink_absent|]. split; [done|]. rewrite Ht. f_equal. destruct clear; [|done]. destruct t. cbn in Hp. by subst.
Qed.

Lemma mod_timer_spec fuel s T due id t e :
  wheel_ok s T 0 due (work s) -> timers s !! id = Some t -> is_word e -> (0 < fuel)%nat ->
  exists s', __mod_timer fuel s id t e false = Ret (if pending t then 1 else 0, s') /\ wheel_ok s' T 0 (<[id := place T e]> due) (work s') /\
    work s' = unlink id (work s) /\ frame s s'.
Proof.
  intros Hw Ht He Hfuel. destruct (wo_timer _ _ _ _ _ Hw _ _ Ht) as (Hb & _). unfold __mod_timer. rewrite lock_spec by done. cbn [mbind run_bind].
  destruct (detach_if_pending_spec s T due id t false Hw Ht) as (s1 & E1 & Hw1 & Hk1 & Hf1 & Ht1). rewrite E1. rewrite andb_false_r.
  destruct (add_spec _ _ _ _ _ _ _ e Hw1 Ht1) as (Hw2 & Hf2 & Hk2); [by rewrite lookup_delete_eq|done|]. rewrite insert_delete_eq in Hw2.
  assert (Ho : id ∉ work s1) by (rewrite Hk1; rewrite elem_of_unlink; tauto).
  eexists. split; [done|]. split; [|split; [by rewrite Hk2|eauto with grid]]. rewrite Hk2.
  replace (unlink id (if pending t then id :: work s1 else work s1)) with (work s1) in Hw2; [done|].
  destruct (pending t); symmetry; [by apply unlink_head|by apply unlink_absent].
Qed.

(** What an operation on timer [id] may change. *)
Definition touches (s : tstate) (T : Z) (due : gmap Z Z) (id : Z) (s' : tstate) : Prop := exists due', wheel_ok s' T 0 due' (work s') /\ frame s s' /\
  (forall x, x <> id -> due' !! x = due !! x) /\ (work s' = work s \/ work s' = unlink id (work s)).

Lemma touches_refl s T due id : wheel_ok s T 0 due (work s) -> touches s T due id s.
Proof. intros Hw. exists due. split; [done|]. split; [apply frame_refl|]. split; [done|by left]. Qed.

Lemma hal_timer_mod_spec fuel s T due id t e :
  wheel_ok s T 0 due (work s) -> timers s !! id = Some t -> is_word e -> (0 < fuel)%nat ->
  exists r s', apply_slack (jiffies s) t e = Some r /\ hal_timer_mod fuel s id e = Ret (if pending t then 1 else 0, s') /\ frame s s' /\
    ((pending t = true /\ expires t = r /\ s' = s) \/
     ((pending t = false \/ expires t <> r) /\ wheel_ok s' T 0 (<[id := place T r]> due) (work s') /\ work s' = unlink id (work s))).
Proof.
  intros Hw Ht He Hfuel. destruct (wo_timer _ _ _ _ _ Hw _ _ Ht) as (_ & _ & Hs & _).
  destruct (apply_slack_correct (jiffies s) t e He Hs) as (r & Er & Hr & _). unfold hal_timer_mod. rewrite Ht. cbn [lift mbind run_bind]. rewrite Er. cbn [lift mbind run_bind].
  exists r. destruct (pending t && (expires t =? r)) eqn:E.
  - apply andb_true_iff in E as [Hp Ee]. zbool. exists s. rewrite Hp. split; [done|]. split; [done|]. split; [done|]. by left.
  - destruct (mod_timer_spec fuel s T due id t r Hw Ht Hr Hfuel) as (s' & E' & Hw' & Hk & Hf). exists s'. split; [done|]. split; [done|]. split; [done|]. right. split; [|done].
    apply andb_false_iff in E as [|]; zbool; auto.
Qed.

Lemma hal_timer_del_spec fuel s T due id t :
  wheel_ok s T 0 due (work s) -> timers s !! id = Some t -> (0 < fuel)%nat ->
  exists s', hal_timer_del fuel s id = Ret (if pending t then 1 else 0, s') /\ wheel_ok s' T 0 (delete id due) (work s') /\ work s' = unlink id (work s) /\ frame s s'.
Proof.
  intros Hw Ht Hfuel. destruct (wo_timer _ _ _ _ _ Hw _ _ Ht) as (Hb & _). unfold hal_timer_del. rewrite Ht. cbn [lift mbind run_bind]. destruct (pending t) eqn:Hp; cbn [negb].
  - rewrite lock_spec by done. cbn [mbind run_bind]. destruct (detach_if_pending_spec s T due id t true Hw Ht) as (s1 & E1 & Hw1 & Hk1 & Hf1 & _). rewrite E1, Hp. exists s1. by split_and!.
  - destruct (not_pending _ _ _ _ _ _ _ Hw Ht Hp) as [Hd Ho]. exists s. rewrite delete_id, unlink_absent by done. by split_and!.
Qed.

Definition op_id (op : timer_op) : Z := match op with OpMod id _ | OpAdd id | OpDel id => id end.

Lemma do_op_spec fuel s T due op :
  wheel_ok s T 0 due (work s) -> op_id op ∈ dom (timers s) -> (0 < fuel)%nat -> exists s', do_op fuel s op = Ret s' /\ touches s T due (op_id op) s'.
Proof.
  intros Hw [t Ht]%elem_of_dom Hfuel.
  assert (Hmod : forall e, is_word e -> exists r s', hal_timer_mod fuel s (op_id op) e = Ret (r, s') /\ touches s T due (op_id op) s').
  { intros e He. destruct (hal_timer_mod_spec fuel s T due (op_id op) t e Hw Ht He Hfuel) as (r & s' & _ & E & Hf & [(_ & _ & ->)|(_ & Hw' & Hk)]); eexists _, _; (split; [done|]).
    - by apply touches_refl.
    - exists (<[op_id op := place T r]> due). split; [done|]. split; [done|]. split; [|by right]. intros x Hx. by rewrite lookup_insert_ne. }
  destruct op as [id e|id|id]; cbn [op_id do_op] in *.
  - destruct (Hmod (wrap e)) as (r & s' & E & H); [apply wrap_is_word|]. rewrite E. by exists s'.
  - unfold hal_timer_add. rewrite Ht. cbn [lift mbind run_bind]. destruct (pending t); [exists s; split; [done|by apply touches_refl]|].
    destruct (wo_timer _ _ _ _ _ Hw _ _ Ht) as (_ & Hwd & _). destruct (Hmod _ Hwd) as (r & s' & E & H). rewrite E. by exists s'.
  - destruct (hal_timer_del_spec fuel s T due id t Hw Ht Hfuel) as (s' & E & Hw' & Hk & Hf). rewrite E. exists s'. split; [done|]. exists (delete id due).
    split; [done|]. split; [done|]. split; [|by right]. intros x Hx. by rewrite lookup_delete_ne.
Qed.

(** ** Expiry *)

Section Expiry.
Variable handler : Z -> Z -> Z -> list timer_op.
(** The timers of the system; the call-backs use no others. *)
Variable known : gset Z.
Hypothesis handler_known : forall fn arg now op, op ∈ handler fn arg now -> op_id op ∈ known.

(** No call-back operates on the timer. *)
Definition untouched (id : Z) : Prop := forall fn arg now op, op ∈ handler fn arg now -> op_id op <> id.

Lemma do_ops_spec fuel l s T due :
  wheel_ok s T 0 due (work s) -> (forall op, op ∈ l -> op_id op ∈ dom (timers s)) -> (0 < fuel)%nat ->
  exists s' due', do_ops fuel s l = Ret s' /\ wheel_ok s' T 0 due' (work s') /\ frame s s' /\
    (length (work s') <= length (work s))%nat /\ (forall x, x ∈ work s' -> x ∈ work s) /\
    forall x, (forall op, op ∈ l -> op_id op <> x) -> due' !! x = due !! x /\ (x ∈ work s' <-> x ∈ work s).
Proof.
  revert s due. induction l as [|op l IH]; intros s due Hw Hk Hfuel; [by exists s, due|].
  destruct (do_op_spec fuel s T due op Hw) as (s1 & E1 & due1 & Hw1 & Hf1 & Hd1 & Hk1); [apply Hk; by left|done|].
  assert (Hsub : (length (work s1) <= length (work s))%nat /\ (forall x, x ∈ work s1 -> x ∈ work s) /\ forall x, op_id op <> x -> x ∈ work s1 <-> x ∈ work s).
  { destruct Hk1 as [->| ->]; [done|]. split; [apply length_filter|]. split; [by intros x [_ ?]%elem_of_unlink|]. intros x Hx. rewrite elem_of_unlink. split; [tauto|]. intros ?. split; [congruence|done]. }
  destruct Hsub as (Hl1 & Hs1 & Hi1).
  destruct (IH s1 due1 Hw1) as (s2 & due2 & E2 & Hw2 & Hf2 & Hl2 & Hs2 & Hd2); [intros o Ho; rewrite (proj2 Hf1); apply Hk; by right|done|].
  exists s2, due2. cbn [do_ops]. rewrite E1. cbn [mbind run_bind]. split; [done|]. split; [done|]. split; [eauto with grid|]. split; [lia|]. split; [auto|].
  intros x Hx. destruct (Hd2 x) as [-> ->]; [intros o Ho; apply Hx; by right|]. assert (op_id op <> x) by (apply Hx; by left). split; [by apply Hd1|by apply Hi1].
Qed.

Lemma work_length s T c due : wheel_ok s T c due (work s) -> (length (work s) <= size (dom (timers s)))%nat.
Proof.
  intros Hw. destruct (wo_out _ _ _ _ _ Hw) as [Hnd Ho]. rewrite <- (size_list_to_set (C := gset Z) _ Hnd). apply subseteq_size.
  intros x Hx%elem_of_list_to_set. apply elem_of_dom. by apply Ho.
Qed.

(** The timers taken out are called once each, in order, unless a call-back
    before them stopped or moved them. *)
Lemma expire_spec fuel s T due called :
  wheel_ok s T 0 due (work s) -> known = dom (timers s) -> (length (work s) < fuel)%nat ->
  exists out s' due', expire handler fuel s called = Ret (called ++ out, s') /\ work s' = [] /\ wheel_ok s' T 0 due' [] /\ frame s s' /\
    NoDup out /\ (forall x, x ∈ out -> x ∈ work s) /\ forall x, untouched x -> due' !! x = due !! x /\ (x ∈ out <-> x ∈ work s).
Proof.
  revert s due called. induction fuel as [|fuel IH]; intros s due called Hw Hkn Hfuel; [lia|]. cbn [expire]. destruct (work s) as [|id w] eqn:Ew.
  { exists [], s, due. rewrite app_nil_r. split; [done|]. split; [done|]. split; [done|]. split; [done|]. split; [apply NoDup_nil_2|]. done. }
  destruct (wo_out _ _ _ _ _ Hw) as [Hnd Ho]. destruct (Ho id) as [Hdn [t Ht]]; [by left|]. rewrite Ht. cbn [lift mbind run_bind].
  set (s0 := set_tb s (set_running (tb s) id)). assert (Hw0 : wheel_ok s0 T 0 due (id :: w)) by (by eapply wheel_ok_ext).
  pose proof (detach_spec s0 T 0 due (id :: w) id t true Hw0 Ht) as Hd. apply NoDup_cons in Hnd as [Hid Hnd]. rewrite delete_id, unlink_head in Hd by done.
  set (s1 := detach_expired_timer s0 id t).
  assert (H1 : wheel_ok s1 T 0 due w /\ frame s s1 /\ work s1 = w).
  { unfold s1, detach_expired_timer. assert (Hf : frame s (detach_timer s0 id t true)) by (by apply (set_timer_frame (TState _ _ (timers s) (jiffies s)) id t)).
    assert (Hk : work (detach_timer s0 id t true) = w) by (cbn; rewrite Ew; by apply unlink_head).
    case_if; [by split_and!|]. split; [by eapply wheel_ok_ext|]. by split. }
  destruct H1 as (Hw1 & Hf1 & Hk1). rewrite <- Hk1 in Hw1.
  destruct (do_ops_spec (S fuel) (handler (function t) (data t) (jiffies s1)) s1 T due Hw1) as (s2 & due2 & E2 & Hw2 & Hf2 & Hl2 & Hs2 & Hd2).
  { intros op Hop. rewrite (proj2 Hf1), <- Hkn. by eapply handler_known. } { lia. }
  unfold call_timer_fn. rewrite E2. cbn [mbind run_bind]. rewrite Hk1 in Hl2, Hs2, Hd2. cbn [length] in Hfuel.
  destruct (IH s2 due2 (called ++ [id]) Hw2) as (out & s3 & due3 & E3 & Hk3 & Hw3 & Hf3 & Hnd3 & Hs3 & Hd3).
  { rewrite (proj2 Hf2), (proj2 Hf1). done. } { lia. }
  exists (id :: out), s3, due3. rewrite E3, <- app_assoc. split; [done|]. split; [done|]. split; [done|]. split; [eauto with grid|].
  split; [apply NoDup_cons; split; [|done]; intros Hx; by apply Hid, Hs2, Hs3|]. split.
  - intros x [->|Hx]%elem_of_cons; [by left|]. right. by apply Hs2, Hs3.
  - intros x Hx. destruct (Hd3 x Hx) as [-> Hi3]. destruct (Hd2 x) as [-> Hi2]; [intros op Hop; by eapply Hx|]. rewrite !elem_of_cons, Hi3, Hi2. done.
Qed.

(** Timers in the wheel are due now or later. *)
Lemma due_later s T due o x E : wheel_ok s T 0 due o -> due !! x = Some E -> T <= E.
Proof.
  intros Hw HE. destruct (wo_due _ _ _ _ _ Hw _ _ HE) as (k & i & Hx). destruct (wo_in _ _ _ _ _ Hw _ _ _ Hx) as (E' & t & HE' & _ & Hs).
  rewrite HE in HE'. injection HE' as <-. destruct Hs as [(_ & ? & _)|(Hk & [Hs _] & _)]; [lia|]. unfold first_span in Hs. rewrite (proj2 (Z.leb_gt k 0)) in Hs by lia.
  pose proof (span_pos k ltac:(lia)) as Hu. pose proof (Z.mul_div_le E (span k) Hu). pose proof (Z.mul_succ_div_gt (T + span k - 1) (span k) Hu). nia.
Qed.

Lemma run_loop_spec J inner fuel : forall s T due calls,
  wheel_ok s T 0 due [] -> work s = [] -> known = dom (timers s) -> jiffies s = wrap J -> T <= J + 1 -> J - T < 2147483648 ->
  J + 1 - T < Z.of_nat fuel -> (size known < inner)%nat ->
  exists cs s' due', run_loop handler fuel inner s calls = Ret (calls ++ cs, s') /\ Z.of_nat (length cs) = J + 1 - T /\
    wheel_ok s' (J + 1) 0 due' [] /\ work s' = [] /\ frame s s' /\
    (forall j called, cs !! j = Some called -> NoDup called /\ forall x, untouched x -> x ∈ called <-> due !! x = Some (T + Z.of_nat j)) /\
    forall x E, untouched x -> due' !! x = Some E <-> due !! x = Some E /\ J < E.
Proof.
  induction fuel as [|fuel IH]; intros s T due calls Hw Hk Hkn HJ HT Hd Hfuel Hin; [lia|]. cbn [run_loop].
  destruct (wo_time _ _ _ _ _ Hw) as [HT0 Etj]. unfold time_after_eq. rewrite HJ, Etj.
  assert (Ei : to_int (wrap J - wrap T) = J - T).
  { unfold to_int, wrap. rewrite <- Zminus_mod. destruct (decide (J = T - 1)) as [->|]; [by replace (T - 1 - T) with (-1) by lia|].
    rewrite Z.mod_small by lia. case_if; lia. }
  rewrite Ei. destruct (Z.leb_spec 0 (J - T)) as [Hle|Hgt]; cbn [negb].
  2:{ assert (T = J + 1) as -> by lia. exists [], s, due. rewrite app_nil_r. split; [done|]. split; [cbn; lia|]. split; [done|]. split; [done|]. split; [done|].
      split; [done|]. intros x E _. split; [|tauto]. intros HE. split; [done|]. pose proof (due_later _ _ _ _ _ _ Hw HE). lia. }
  destruct (begin_tick_spec s T due Hw) as (s1 & E1 & Hw1 & Hdue & Hf1). rewrite E1. cbn [lift mbind run_bind].
  destruct (expire_spec inner s1 (T + 1) _ [] Hw1) as (out & s2 & due2 & E2 & Hk2 & Hw2 & Hf2 & Hnd & _ & Hu).
  { by rewrite (proj2 Hf1). } { pose proof (work_length _ _ _ _ Hw1) as Hl. rewrite (proj2 Hf1), <- Hkn in Hl. lia. }
  rewrite E2. cbn [mbind run_bind app].
  assert (Hf : frame s s2) by eauto with grid.
  destruct (IH s2 (T + 1) due2 (calls ++ [out]) Hw2 Hk2) as (cs & s3 & due3 & E3 & Hlen & Hw3 & Hk3 & Hf3 & Hcs & Hd3); try lia.
  { by rewrite (proj2 Hf). } { by rewrite (proj1 Hf). }
  assert (Hdu : forall x E, untouched x -> due2 !! x = Some E <-> due !! x = Some E /\ E <> T).
  { intros x E Hx. rewrite (proj1 (Hu x Hx)). by rewrite map_lookup_filter_Some. }
  exists (out :: cs), s3, due3. rewrite E3, <- app_assoc. split; [done|]. split; [cbn; lia|]. split; [done|]. split; [done|]. split; [eauto with grid|]. split.
  - intros [|j] called Hc; [injection Hc as <-|].
    + split; [done|]. intros x Hx. rewrite (proj2 (Hu x Hx)), Hdue. by rewrite Z.add_0_r.
    + destruct (Hcs j called Hc) as [Hn Hi]. split; [done|]. intros x Hx. rewrite (Hi x Hx), Hdu by done.
      replace (T + 1 + Z.of_nat j) with (T + Z.of_nat (S j)) by lia. split; [tauto|]. intros HE. split; [done|lia].
  - intros x E Hx. rewrite Hd3, Hdu by done. split; [tauto|]. intros [HE HJE]. split; [split; [done|lia]|done].
Qed.

End Expiry.

(** C25: [__run_timers] ends and has processed every tick up to the current one,
    whatever the call-backs do to timers.  A timer that no call-back operates
    on is called in the tick it is due, once, and in no other tick; if it is due
    later it stays due then.  The wheel stays consistent, lists move from level
    to level on the way, and the counter may pass [2^32]. *)
Theorem run_timers_correct handler fuel inner s T due J :
  wheel_ok s T 0 due [] -> work s = [] -> (forall fn arg now op, op ∈ handler fn arg now -> op_id op ∈ dom (timers s)) ->
  jiffies s = wrap J -> T <= J + 1 -> J - T < 2147483648 -> J + 1 - T < Z.of_nat fuel -> (size (dom (timers s)) < inner)%nat ->
  exists calls s' due', __run_timers handler fuel inner s = Ret (calls, s') /\ Z.of_nat (length calls) = J + 1 - T /\ wheel_ok s' (J + 1) 0 due' [] /\
    (forall j called, calls !! j = Some called -> NoDup called /\ forall x, untouched handler x -> x ∈ called <-> due !! x = Some (T + Z.of_nat j)) /\
    forall x E, untouched handler x -> due' !! x = Some E <-> due !! x = Some E /\ J < E.
Proof.
  intros Hw Hk Hh HJ HT Hd Hfuel Hin. destruct (run_loop_spec handler (dom (timers s)) Hh J inner fuel s T due [] Hw Hk eq_refl HJ HT Hd Hfuel Hin)
    as (cs & s' & due' & E & Hlen & Hw' & _ & _ & Hcs & Hdue). unfold __run_timers. rewrite E. cbn [mbind run_bind app].
  eexists cs, _, due'. split; [done|]. split; [done|]. split; [by eapply wheel_ok_ext|]. done.
Qed.

(** [hal_timer_mod] returns whether the timer was pending, and makes it due:
    not before the tick asked for and not more than the slack after it, once,
    wherever it was before.  A pending timer that has this time already stays as
    it is.  Other timers are not affected. *)
Theorem hal_timer_mod_correct fuel s T due id t e :
  wheel_ok s T 0 due (work s) -> timers s !! id = Some t -> is_word e -> (0 < fuel)%nat ->
  0 <= to_int (e - wrap T) -> to_int (e - wrap T) + max_slack (jiffies s) t e < 2147483648 ->
  exists E s', place T e <= E <= place T e + max_slack (jiffies s) t e /\ hal_timer_mod fuel s id e = Ret (if pending t then 1 else 0, s') /\
    ((pending t = true /\ expires t = wrap E /\ s' = s) \/
     (wheel_ok s' T 0 (<[id := E]> due) (work s') /\ work s' = unlink id (work s))).
Proof.
  intros Hw Ht He Hfuel Hd Hm. destruct (wo_timer _ _ _ _ _ Hw _ _ Ht) as (_ & _ & Hs & _).
  destruct (apply_slack_correct (jiffies s) t e He Hs) as (r' & Er' & Hr & Hrange).
  destruct (hal_timer_mod_spec fuel s T due id t e Hw Ht He Hfuel) as (r & s' & Er & E & _ & H). rewrite Er in Er'. injection Er' as <-.
  assert (Ed : wrap (r - wrap T) = wrap (r - e) + to_int (e - wrap T)).
  { destruct (place_wrap T e He Hd) as [_ Ew]. unfold place in Ew. rewrite (proj2 (Z.ltb_ge _ _)) in Ew by done.
    replace (to_int (e - wrap T)) with (wrap (e - wrap T)) by lia. rewrite <- (wrap_small (wrap (r - e) + wrap (e - wrap T))).
    - unfold wrap. rewrite <- Zplus_mod. f_equal. lia.
    - pose proof (wrap_is_word (r - e)). unfold is_word in *. lia. }
  pose proof (wrap_is_word (r - e)) as Hwr. unfold is_word in Hwr.
  assert (Ei : to_int (r - wrap T) = wrap (r - e) + to_int (e - wrap T)) by (unfold to_int at 1; rewrite Ed, (proj2 (Z.ltb_lt _ _)) by lia; done).
  assert (Ep : place T r = place T e + wrap (r - e)) by (unfold place; rewrite Ei, !(proj2 (Z.ltb_ge _ 0)) by lia; lia).
  exists (place T r), s'. split; [lia|]. split; [done|]. destruct H as [(H1 & H2 & H3)|(_ & H)]; [left|by right].
  split; [done|]. split; [|done]. rewrite H2. symmetry. apply place_wrap; [done|lia].
Qed.

(** The wheel after [init_timers_cpu], with no timer pending. *)
Lemma init_wheel_ok now m :
  0 <= now -> (forall id t, m !! id = Some t -> is_Some (base t) /\ is_word (expires t) /\ - 2147483648 <= slack t < 2147483648 /\ pending t = false) ->
  wheel_ok (TState (init_timers_cpu (wrap now)) [] m (wrap now)) now 0 ∅ [].
Proof.
  intros Hn Hm. split; cbn; try done.
  - intros k i id []%elem_of_nil.
  - intros k i k' i' id []%elem_of_nil.
  - intros k i. apply NoDup_nil_2.
  - split; [apply NoDup_nil_2|]. intros id []%elem_of_nil.
  - intros id t Ht. destruct (Hm _ _ Ht) as (H1 & H2 & H3 & H4). split; [done|]. split; [done|]. split; [done|]. rewrite H4. split; [done|].
    intros [[? []%lookup_empty_Some]|[]%elem_of_nil].
Qed.

(** ** Examples *)

(** Timer 7 is due at 600, in list 2 of level 1; the next tick is 250.  Every
    call-back moves timer 8. *)
Definition ex_timers : gmap Z timer_list := {[ 7 := Timer true 600 (Some 0) 1 0 0; 8 := Timer false 0 (Some 0) 2 0 0 ]}.
Definition ex_wheel : tstate := TState (TBase 0 250 250 1 (upd_vec (fun _ _ => []) 1 2 [7])) [] ex_timers 600.
Definition ex_handler (fn arg now : Z) : list timer_op := [OpMod 8 (now + 10)].

Lemma ex_wheel_ok : wheel_ok ex_wheel 250 0 {[ 7 := 600 ]} [].
Proof.
  assert (Hin : forall k i id, id ∈ vec (tb ex_wheel) k i -> k = 1 /\ i = 2 /\ id = 7).
  { intros k i id [(-> & -> & ->%list_elem_of_singleton)|[_ []%elem_of_nil]]%upd_vec_elem. done. }
  split.
  - done.
  - intros k i id (-> & -> & ->)%Hin. eexists _, _. split; [reflexivity|]. split; [reflexivity|]. right. split; [lia|]. split; [split; vm_compute; discriminate|]. done.
  - intros id E [<- <-]%lookup_singleton_Some. exists 1, 2. by apply list_elem_of_singleton.
  - intros k i k' i' id (-> & -> & _)%Hin (-> & -> & _)%Hin. done.
  - intros k i. cbn. unfold upd_vec. case_if; [apply NoDup_singleton|apply NoDup_nil_2].
  - split; [apply NoDup_nil_2|]. intros id []%elem_of_nil.
  - intros id t Ht. unfold ex_wheel, ex_timers in Ht. cbn in Ht. apply lookup_insert_Some in Ht as [[<- <-]|[Hne [<- <-]%lookup_singleton_Some]]; cbn.
    + split; [by eexists|]. split; [done|]. split; [lia|]. split; [|done]. intros _. left. by eexists.
    + split; [by eexists|]. split; [done|]. split; [lia|]. split; [done|]. intros [[? ?]|[]%elem_of_nil]. done.
Qed.

Lemma run_timers_witness : exists calls s', __run_timers ex_handler 352 3 ex_wheel = Ret (calls, s') /\ length calls = 351%nat /\
  forall called, calls !! 350%nat = Some called -> 7 ∈ called.
Proof.
  destruct (run_timers_correct ex_handler 352 3 ex_wheel 250 {[ 7 := 600 ]} 600) as (calls & s' & due' & E & Hlen & _ & Hc & _).
  - exact ex_wheel_ok.
  - reflexivity.
  - intros fn arg now op ->%list_elem_of_singleton. apply elem_of_dom. eexists. reflexivity.
  - reflexivity.
  - lia.
  - lia.
  - lia.
  - vm_compute. lia.
  - exists calls, s'. split; [exact E|]. split; [lia|]. intros called H. apply (proj2 (Hc _ _ H)); [|reflexivity].
    intros fn arg now op ->%list_elem_of_singleton. discriminate.
Defined.

Lemma hal_timer_mod_witness : exists E s', 650 <= E <= 650 /\ hal_timer_mod 1 ex_wheel 8 650 = Ret (0, s') /\
  ((false = true /\ 0 = wrap E /\ s' = ex_wheel) \/ (wheel_ok s' 250 0 (<[8 := E]> {[ 7 := 600 ]}) (work s') /\ work s' = [])).
Proof.
  apply (hal_timer_mod_correct 1 ex_wheel 250 {[ 7 := 600 ]} 8 (Timer false 0 (Some 0) 2 0 0) 650).
  - exact ex_wheel_ok.
  - reflexivity.
  - unfold is_word. lia.
  - lia.
  - vm_compute. discriminate.
  - vm_compute. reflexivity.
Defined.

(** *** Where the code does not do what it means to *)

Definition one_timer : tstate := TState (init_timers_cpu 0) [] {[ 7 := Timer false 0 (Some 0) 1 0 0 ]} 0.

(** [cascade] counts the timers it moves as new ones: one timer, asked for at 300,
    is counted twice after tick 256. *)
Theorem cascade_counts_twice : exists s1 calls s2,
  hal_timer_mod 1 one_timer 7 300 = Ret (0, s1) /\ active_timers (tb s1) = 1 /\
  __run_timers ex_handler 300 2 (TState (tb s1) (work s1) (timers s1) 256) = Ret (calls, s2) /\ concat calls = [] /\
  active_timers (tb s2) = 2 /\ dom (timers s2) = {[ 7 ]}.
Proof. eexists _, _, _. split; [vm_compute; reflexivity|]. split; [reflexivity|]. split; [vm_compute; reflexivity|]. repeat split; vm_compute; reflexivity. Qed.

(** The slack of a timer for [2^31 - 1] ticks from now moves it into the past: it
    is due in the next tick. *)
Theorem slack_into_past : exists s1 calls s2,
  hal_timer_mod 1 (set_timer one_timer 7 (Timer false 0 (Some 0) 1 0 (- 1))) 7 2147483647 = Ret (0, s1) /\
  __run_timers (fun _ _ _ => []) 2 2 s1 = Ret (calls, s2) /\ calls = [[7]].
Proof. eexists _, _, _. split; [vm_compute; reflexivity|]. split; vm_compute; reflexivity. Qed.
