(* ===== verification/FsReq.v ===== *)
(** * Requests of the file system: listing directories, watching files

    [req_readdir] of [source/subsystem/fs/main.c], which writes the children of
    a directory into the buffer of a process, with its other side,
    [source/libs/grid/dirent/readdir.c], [opendir.c] and [sys_readdir] of
    [sys/file.c]; and the notifications of [fsnotify.c] with [req_notify].
    Directories are those of [FsTree].  [translate] gives the file of a handle,
    0 for none; its reference is given back at the end of the request.  The
    buffer is the list of its bytes; an entry in it is the length and the type,
    two bytes each, and the name. *)

From stdpp Require Import gmap.
From S2P Require Import Prelude MemAlloc Valloc CString FsTree.
Local Open Scope c_scope.
Import StringOps TreeOps.

Definition SIZEOF_DIRENT_BUFFER : Z := 4.
Definition NAME_MAX : Z := 256.
Definition POSIX_END_CHAR_SIZE : Z := 1.
Definition DIR_BUFF_LEN : Z := 4 * 1024.
Definition EINVAL : Z := 22.
Definition E2BIG : Z := 7.
Definition Y_FILE_EVENT_READ : Z := 1.
Definition Y_FILE_EVENT_WRITE : Z := 2.
Definition SYSREQ_FILE_OPS_REG_FILE_NOTIFY : Z := 1.
Definition SYSREQ_FILE_OPS_UNREG_FILE_NOTIFY : Z := 2.

(** [struct __dirstream]; [current_entry] is an offset in the buffer, [None] is
    NULL, and [d_name] is the name in [entry_data]. *)
Record dirstream := Dir {
  dir_buffer : list Z;
  current_entry : option nat;
  total_size : Z;
  used_size : Z;
  next_bulk : Z;
  dir_handle : Z;
  d_name : list Z
}.

Record file_notify := Notify {
  listener : Z;
  even_type_mask : Z;
  call_func : Z;
  call_para : Z
}.

Module ReqOps.

(** A store of [v] as two bytes at [off]. *)
Definition put16 (buf : list Z) (off : nat) (v : Z) : option (list Z) :=
  if decide (off + 2 <= length buf)%nat then Some (<[off := v mod 256]> (<[S off := (v / 256) mod 256]> buf)) else None.

Definition get16 (buf : list Z) (off : nat) : option Z :=
  lo ← buf !! off; hi ← buf !! S off; Some (lo + 256 * hi).

(** [strncpy] to [buf + off]. *)
Definition strncpy_at (buf : list Z) (off : nat) (src : list Z) (count : Z) : option (list Z) :=
  d ← strncpy (drop off buf) src count; Some (take off buf ++ d).

Definition type_code (ty : fss_file_type) : Z := match ty with FSS_FILE_TYPE_NORMAL => 0 | FSS_FILE_TYPE_DIR => 1 end.

Section ReadDir.
Context {H} `{KH : KernelHeap H} {D N} `{VD : VfsDriver D N}.
Variable translate : Z -> Z.
Notation st := (tree H D).

(** One entry; the new length and the buffer. *)
Definition put_entry (x : fss_file) (max_size cpy_len : Z) (buf : list Z) : option (Z * list Z) :=
  len ← strlen (name_str x);
  let room := wrap (max_size - cpy_len - SIZEOF_DIRENT_BUFFER) in
  let name_len := to_int (if room <? wrap len then room else len) in
  buf ← put16 buf (Z.to_nat cpy_len + 2) (type_code (type x));
  buf ← put16 buf (Z.to_nat cpy_len) name_len;
  buf ← strncpy_at buf (Z.to_nat cpy_len + 4) (name_str x) name_len;
  n ← get16 buf (Z.to_nat cpy_len);
  Some (to_int (cpy_len + SIZEOF_DIRENT_BUFFER + n), buf).

(** The loop over the children: [rd_count], [cpy_count], [cpy_len], the buffer. *)
Fixpoint fill_loop (m : gmap Z fss_file) (cs : list Z) (start_entry max_size rd_count cpy_count cpy_len : Z) (buf : list Z)
  : option (Z * Z * Z * list Z) :=
  match cs with
  | [] => Some (rd_count, cpy_count, cpy_len, buf)
  | c :: cs =>
    if rd_count <? start_entry then fill_loop m cs start_entry max_size (rd_count + 1) cpy_count cpy_len buf else
    if wrap max_size <? wrap (cpy_len + SIZEOF_DIRENT_BUFFER) then Some (rd_count, cpy_count, cpy_len, buf) else
    x ← m !! c;
    '(cpy_len, buf) ← put_entry x max_size cpy_len buf;
    fill_loop m cs start_entry max_size rd_count (cpy_count + 1) cpy_len buf
  end.

(** The result, [next_entry] (as it was when the request fails) and the buffer. *)
Definition req_readdir (fuel : nat) (s : st) (start_entry dir : Z) (buf : list Z) (max_size next_entry : Z) : run (Z * Z * list Z * st) :=
  if max_size =? 0 then Ret (- EINVAL, next_entry, buf, s) else
  let file := translate dir in
  if file =? 0 then Ret (- ENOTDIR, next_entry, buf, s) else
  x ← lift (files s !! file);
  match type x, t x with
  | FSS_FILE_TYPE_NORMAL, _ => Ret (- ENOTDIR, next_entry, buf, s)
  | FSS_FILE_TYPE_DIR, TFile => Fault
  | FSS_FILE_TYPE_DIR, TDir _ flags =>
    '(r, s) ← (if Z.land flags FSS_FILE_TREE_COMPLETION =? 0 then fss_tree_make_full fuel s file else Ret (0, s));
    if r <? 0 then Ret (- EIO, next_entry, buf, s) else
    x ← lift (files s !! file);
    match t x with
    | TFile => Fault
    | TDir cs _ =>
      '(rd_count, cpy_count, cpy_len, buf) ← lift (fill_loop (files s) cs start_entry max_size 0 0 0 buf);
      Ret (cpy_len, to_int (start_entry + rd_count + cpy_count), buf, s)
    end
  end.

(** *** The user library *)

(** The stream [opendir] makes of a handle; the memory holds [raw]. *)
Definition opendir_stream (h : Z) (raw : list Z) : dirstream := Dir raw None DIR_BUFF_LEN 0 0 h (replicate 256 0).

Definition sys_readdir (fuel : nat) (d : dirstream) (next : Z) (s : st) : run (Z * Z * list Z * st) :=
  req_readdir fuel s (next_bulk d) (dir_handle d) (dir_buffer d) (total_size d) next.

Definition fill_dirent (buf : list Z) (entry : nat) (d_name : list Z) : option (list Z) :=
  n ← get16 buf entry;
  let name_length := if NAME_MAX <=? n then NAME_MAX - POSIX_END_CHAR_SIZE else n in
  if decide (Z.to_nat name_length < length d_name)%nat then
    strncpy (<[Z.to_nat name_length := 0]> d_name) (drop (entry + 4) buf) name_length
  else None.

(** From the entry on; what is returned is [entry_data]. *)
Definition read_entry (d : dirstream) (entry : nat) : option (list Z * dirstream) :=
  nm ← fill_dirent (dir_buffer d) entry (d_name d);
  n ← get16 (dir_buffer d) entry;
  let next := (entry + 4 + Z.to_nat n)%nat in
  Some (nm, Dir (dir_buffer d) (if used_size d <=? Z.of_nat next then None else Some next) (total_size d) (used_size d) (next_bulk d) (dir_handle d) nm).

(** [garbage]: [next_entry] of the request before the call.  [None] is the end or
    an error. *)
Definition read_dir (fuel : nat) (d : dirstream) (garbage : Z) (s : st) : run (option (list Z) * dirstream * st) :=
  match current_entry d with
  | Some entry => '(nm, d) ← lift (read_entry d entry); Ret (Some nm, d, s)
  | None =>
    '(bulk, next, buf, s) ← sys_readdir fuel d garbage s;
    let d := Dir buf (current_entry d) (total_size d) (used_size d) (next_bulk d) (dir_handle d) (d_name d) in
    if bulk <=? 0 then Ret (None, d, s) else
    '(nm, d) ← lift (read_entry (Dir buf (Some 0%nat) (total_size d) bulk next (dir_handle d) (d_name d)) 0);
    Ret (Some nm, d, s)
  end.

(** A program that reads to the end. *)
Fixpoint read_all (n fuel : nat) (d : dirstream) (garbage : Z) (s : st) : run (list (list Z) * st) :=
  match n with
  | O => NoFuel
  | S n =>
    '(r, d, s) ← read_dir fuel d garbage s;
    match r with
    | None => Ret ([], s)
    | Some nm => '(l, s) ← read_all n fuel d garbage s; Ret (nm :: l, s)
    end
  end.

End ReadDir.

(** *** Notifications *)

(** The messages sent: the listener, the function and its parameter. *)
Definition fnotify_msg_send (l : list file_notify) (even : Z) : list (Z * Z * Z) :=
  omap (fun n => if Z.land (even_type_mask n) even =? 0 then None else Some (listener n, call_func n, call_para n)) l.

Definition bad_event (cmd : Z) : bool := negb (Z.land cmd (w_not (Z.lor Y_FILE_EVENT_READ Y_FILE_EVENT_WRITE)) =? 0).

(** [mem]: the record could be allocated. *)
Definition fnotify_event_register (l : list file_notify) (current cmd func para : Z) (mem : bool) : Z * list file_notify :=
  if bad_event cmd then (- E2BIG, l) else
  if negb mem then (- ENOMEM, l) else
  (0, l ++ [Notify current cmd func para]).

(** The first record of the thread for one of the events loses them. *)
Fixpoint unregister (l : list file_notify) (current cmd : Z) : list file_notify :=
  match l with
  | [] => []
  | n :: l =>
    if (listener n =? current) && negb (Z.land cmd (even_type_mask n) =? 0) then
      let mask := Z.land (even_type_mask n) (w_not cmd) in
      if mask =? 0 then l else Notify (listener n) mask (call_func n) (call_para n) :: l
    else n :: unregister l current cmd
  end.

Definition fnotify_event_unregister (l : list file_notify) (current cmd : Z) : Z * list file_notify :=
  if bad_event cmd then (- E2BIG, l) else (0, unregister l current cmd).

(** [file]: the list of the file of the handle, [None] if there is no such file. *)
Definition req_notify (file : option (list file_notify)) (current ops mask func para : Z) (mem : bool) : Z * option (list file_notify) :=
  match file with
  | None => (- EINVAL, None)
  | Some l =>
    let '(r, l) := if ops =? SYSREQ_FILE_OPS_REG_FILE_NOTIFY then fnotify_event_register l current mask func para mem else
                   if ops =? SYSREQ_FILE_OPS_UNREG_FILE_NOTIFY then fnotify_event_unregister l current mask else (- EINVAL, l) in
    (r, Some l)
  end.

End ReqOps.
Import ReqOps.

(** ** Writing and reading entries *)

Definition entry_bytes (e : fss_file_type * list Z) : list Z :=
  let n := Z.of_nat (length e.2) in n mod 256 :: (n / 256) mod 256 :: type_code e.1 :: 0 :: e.2.

Definition listing_bytes (es : list (fss_file_type * list Z)) : list Z := concat (entry_bytes <$> es).

(** A name that fits into a [dirent]. *)
Definition good_name (nm : list Z) : Prop := 0 ∉ nm /\ (length nm < 256)%nat.

Lemma put16_spec p a b q off v : off = length p -> put16 (p ++ a :: b :: q) off v = Some (p ++ v mod 256 :: (v / 256) mod 256 :: q).
Proof.
  intros ->. unfold put16. rewrite decide_True by (rewrite length_app; cbn; lia). f_equal.
  rewrite !insert_app_r_alt by lia. rewrite Nat.sub_diag. by replace (S (length p) - length p)%nat with 1%nat by lia.
Qed.

Lemma get16_spec p n q off : off = length p -> 0 <= n < 65536 -> get16 (p ++ n mod 256 :: (n / 256) mod 256 :: q) off = Some n.
Proof.
  intros -> Hn. unfold get16. rewrite !lookup_app_r by lia. rewrite Nat.sub_diag. replace (S (length p) - length p)%nat with 1%nat by lia. cbn. f_equal. zlia.
Qed.

Lemma strncpy_prefix nm dest rest n : 0 ∉ nm -> (length nm <= length dest)%nat -> n = Z.of_nat (length nm) ->
  strncpy dest (nm ++ rest) n = Some (nm ++ drop (length nm) dest).
Proof.
  intros H0 Hd ->. unfold strncpy. rewrite Nat2Z.id. revert dest H0 Hd. induction nm as [|c nm IH]; intros dest H0 Hd; [done|].
  destruct dest as [|x dest]; cbn in Hd; [lia|]. apply not_elem_of_cons in H0 as [Hc H0]. cbn [length app strncpy_loop].
  rewrite (proj2 (Z.eqb_neq c 0)) by congruence. rewrite IH by (done || lia). done.
Qed.

Lemma entry_length e : Z.of_nat (length (entry_bytes e)) = 4 + Z.of_nat (length e.2).
Proof. unfold entry_bytes. cbn [length]. lia. Qed.

Section Listing.
Context {H} `{KH : KernelHeap H} {D N} `{VD : VfsDriver D N}.

(** A child and its entry. *)
Definition is_child (m : gmap Z fss_file) (c : Z) (e : fss_file_type * list Z) : Prop := exists x, m !! c = Some x /\ type x = e.1 /\ cstr (name_str x) e.2 /\ good_name e.2.

Lemma put_entry_spec x e max pre old cpy_len :
  type x = e.1 -> cstr (name_str x) e.2 -> good_name e.2 -> cpy_len = Z.of_nat (length pre) -> cpy_len + Z.of_nat (length (entry_bytes e)) <= max < 2147483648 ->
  (length (entry_bytes e) <= length old)%nat ->
  put_entry x max cpy_len (pre ++ old) = Some (cpy_len + Z.of_nat (length (entry_bytes e)), pre ++ entry_bytes e ++ drop (length (entry_bytes e)) old).
Proof.
  intros Hty Hs [H0 Hlen] -> Hmax Hold. pose proof (entry_length e) as El. destruct e as [ty nm]. cbn [fst snd] in *. unfold put_entry.
  rewrite (strlen_spec _ _ Hs). cbn [mbind option_bind]. unfold SIZEOF_DIRENT_BUFFER. rewrite Nat2Z.id, Hty.
  rewrite (wrap_small (max - _ - 4)), (wrap_small (Z.of_nat (length nm))) by (unfold is_word; lia).
  rewrite (proj2 (Z.ltb_ge _ _)) by lia. rewrite to_int_small by lia.
  destruct old as [|o0 [|o1 [|o2 [|o3 old]]]]; try (cbn in Hold; lia). change (length (entry_bytes (ty, nm))) with (4 + length nm)%nat in *.
  replace (pre ++ o0 :: o1 :: o2 :: o3 :: old) with ((pre ++ [o0; o1]) ++ o2 :: o3 :: old) by (by rewrite <- app_assoc).
  rewrite put16_spec by (rewrite length_app; cbn; lia). cbn [mbind option_bind]. rewrite <- app_assoc. cbn [app].
  rewrite put16_spec by done. cbn [mbind option_bind]. set (n := Z.of_nat (length nm)).
  replace (type_code ty mod 256) with (type_code ty) by (by destruct ty). replace ((type_code ty / 256) mod 256) with 0 by (by destruct ty).
  set (hd := [n mod 256; (n / 256) mod 256; type_code ty; 0]).
  replace (pre ++ n mod 256 :: (n / 256) mod 256 :: type_code ty :: 0 :: old) with ((pre ++ hd) ++ old) by (by rewrite <- app_assoc).
  unfold strncpy_at. rewrite drop_app_length' by (rewrite length_app; cbn; lia). rewrite take_app_length' by (rewrite length_app; cbn; lia).
  destruct Hs as [_ [rest ->]]. rewrite strncpy_prefix by (done || (cbn in Hold; lia)). cbn [mbind option_bind].
  rewrite <- app_assoc. unfold hd. cbn [app]. rewrite get16_spec by (done || (unfold n; lia)). cbn [mbind option_bind]. rewrite to_int_small by (unfold n; lia).
  f_equal. f_equal. unfold n. lia.
Qed.

(** The first request writes all entries, if there is room. *)
Lemma fill_loop_all m cs es max k pre old :
  Forall2 (is_child m) cs es -> Z.of_nat (length pre + length (listing_bytes es)) <= max < 2147483648 -> (length (listing_bytes es) <= length old)%nat ->
  fill_loop m cs 0 max 0 k (Z.of_nat (length pre)) (pre ++ old) =
    Some (0, k + Z.of_nat (length cs), Z.of_nat (length pre + length (listing_bytes es)), pre ++ listing_bytes es ++ drop (length (listing_bytes es)) old).
Proof.
  intros Hc. revert k pre old. induction Hc as [|c e cs es (x & Hx & Hty & Hs & Hg) _ IH]; intros k pre old Hmax Hold.
  { cbn [fill_loop length listing_bytes fmap list_fmap concat app drop]. rewrite Nat.add_0_r, Z.add_0_r. done. }
  assert (Elb : listing_bytes (e :: es) = entry_bytes e ++ listing_bytes es) by done. rewrite Elb, length_app in *.
  assert (E4 : Z.of_nat (length (entry_bytes e)) = 4 + Z.of_nat (length e.2)) by apply entry_length.
  cbn [fill_loop]. rewrite (proj2 (Z.ltb_ge 0 0)) by lia. unfold SIZEOF_DIRENT_BUFFER at 1.
  rewrite !wrap_small by (unfold is_word; lia). rewrite (proj2 (Z.ltb_ge max _)) by lia. rewrite Hx. cbn [mbind option_bind].
  rewrite (put_entry_spec x e) by (done || lia). cbn [mbind option_bind].
  replace (Z.of_nat (length pre) + Z.of_nat (length (entry_bytes e))) with (Z.of_nat (length (pre ++ entry_bytes e))) by (rewrite length_app; lia).
  rewrite (app_assoc pre). rewrite IH by (rewrite ?length_app, ?length_drop; lia). rewrite length_app, drop_drop, <- !app_assoc. cbn [length].
  rewrite Nat.add_assoc. replace (k + Z.of_nat (S (length cs))) with (k + 1 + Z.of_nat (length cs)) by lia. done.
Qed.

(** A request behind the last entry writes nothing. *)
Lemma fill_loop_none m cs start max rd buf : 0 <= rd -> rd + Z.of_nat (length cs) <= start ->
  fill_loop m cs start max rd 0 0 buf = Some (rd + Z.of_nat (length cs), 0, 0, buf).
Proof.
  revert rd. induction cs as [|c cs IH]; intros rd Hrd Hst; cbn [fill_loop length] in *; [by rewrite Z.add_0_r|].
  rewrite (proj2 (Z.ltb_lt _ _)) by lia. rewrite IH by lia.
  by replace (rd + Z.of_nat (S (length cs))) with (rd + 1 + Z.of_nat (length cs)) by lia.
Qed.

(** *** Reading *)

Variable translate : Z -> Z.

(** A complete directory at [file]. *)
Definition complete_dir (s : tree H D) (file : Z) (cs : list Z) : Prop := exists x flags, files s !! file = Some x /\ type x = FSS_FILE_TYPE_DIR /\ t x = TDir cs flags /\
  Z.land flags FSS_FILE_TREE_COMPLETION <> 0.

Lemma req_readdir_eq fuel s start h buf max g cs :
  translate h <> 0 -> complete_dir s (translate h) cs -> max <> 0 ->
  req_readdir translate fuel s start h buf max g =
    '(rd_count, cpy_count, cpy_len, buf) ← lift (fill_loop (files s) cs start max 0 0 0 buf);
    Ret (cpy_len, to_int (start + rd_count + cpy_count), buf, s).
Proof.
  intros Hh (x & fl & Hx & Hty & Ht & Hc) Hmax. unfold req_readdir. rewrite (proj2 (Z.eqb_neq max 0)), (proj2 (Z.eqb_neq (translate h) 0)) by done.
  rewrite Hx. cbn [lift mbind run_bind]. rewrite Hty, Ht, (proj2 (Z.eqb_neq _ 0)) by done. cbn [mbind run_bind]. rewrite (proj2 (Z.ltb_ge 0 0)) by lia.
  rewrite Hx. cbn [lift mbind run_bind]. by rewrite Ht.
Qed.

Lemma get16_entry pre e rest : good_name e.2 -> get16 (pre ++ entry_bytes e ++ rest) (length pre) = Some (Z.of_nat (length e.2)).
Proof. intros [_ Hlen]. unfold entry_bytes. cbn [app]. apply get16_spec; [done|lia]. Qed.

Lemma fill_dirent_spec pre e rest dn :
  good_name e.2 -> length dn = 256%nat -> exists dn', fill_dirent (pre ++ entry_bytes e ++ rest) (length pre) dn = Some dn' /\ cstr dn' e.2 /\ length dn' = 256%nat.
Proof.
  intros [H0 Hlen] Hdn. destruct e as [ty nm]. cbn [snd] in *. unfold fill_dirent, entry_bytes. cbn [fst snd app].
  rewrite get16_spec by (done || lia). cbn [mbind option_bind]. rewrite (proj2 (Z.leb_gt NAME_MAX _)) by (unfold NAME_MAX; lia). rewrite Nat2Z.id.
  rewrite decide_True by lia. set (n := Z.of_nat (length nm)).
  replace (pre ++ n mod 256 :: (n / 256) mod 256 :: type_code ty :: 0 :: nm ++ rest) with ((pre ++ [n mod 256; (n / 256) mod 256; type_code ty; 0]) ++ nm ++ rest)
    by (by rewrite <- app_assoc).
  rewrite drop_app_length' by (rewrite length_app; cbn; lia). rewrite strncpy_prefix by (done || (rewrite length_insert; lia)).
  assert (Ed : drop (length nm) (<[length nm := 0]> dn) = 0 :: drop (S (length nm)) dn).
  { rewrite drop_insert_ge, Nat.sub_diag by lia. destruct (lookup_lt_is_Some_2 dn (length nm)) as [y Hy]; [lia|]. by rewrite (drop_S _ _ _ Hy). }
  rewrite Ed. eexists. split; [done|]. split; [split; [done|by eexists]|]. rewrite length_app. cbn. rewrite length_drop. lia.
Qed.

(** The entries of a block, then a request that returns nothing. *)
Lemma read_rest fuel g s file cs es : forall pre tail dn n,
  translate file <> 0 -> complete_dir s (translate file) cs -> Forall (fun e => good_name e.2) es -> length dn = 256%nat ->
  (length es < n)%nat -> exists rs,
  read_all translate n fuel (Dir (pre ++ listing_bytes es ++ tail) (match es with [] => None | _ => Some (length pre) end) DIR_BUFF_LEN
      (Z.of_nat (length pre + length (listing_bytes es))) (Z.of_nat (length cs)) file dn) g s = Ret (rs, s) /\ Forall2 (fun r e => cstr r e.2) rs es.
Proof.
  induction es as [|e es IH]; intros pre tail dn n Hf Hcd Hg Hdn Hn; (destruct n as [|n]; [cbn in Hn; lia|]); cbn [read_all]; unfold read_dir; cbn [current_entry].
  { unfold sys_readdir. rewrite (req_readdir_eq fuel s _ _ _ _ g cs) by done. cbn [next_bulk]. rewrite fill_loop_none by lia. cbn. exists []. by split. }
  apply Forall_cons in Hg as [He Hg]. assert (Elb : listing_bytes (e :: es) = entry_bytes e ++ listing_bytes es) by done.
  unfold read_entry. cbn [dir_buffer d_name used_size total_size next_bulk dir_handle]. rewrite Elb, <- app_assoc.
  destruct (fill_dirent_spec pre e (listing_bytes es ++ tail) dn He Hdn) as (dn' & E & Hs & Hdn'). rewrite E. cbn [lift mbind option_bind run_bind].
  rewrite get16_entry by done. cbn [lift mbind option_bind run_bind].
  assert (E4 : (length (entry_bytes e) = 4 + length e.2)%nat) by done. rewrite Nat2Z.id.
  destruct (IH (pre ++ entry_bytes e) tail dn' n) as (rs & Er & Hrs); try done; [cbn in Hn; lia|].
  exists (dn' :: rs). split; [|by constructor]. rewrite !length_app in Er. rewrite <- app_assoc in Er. rewrite length_app, Nat.add_assoc.
  replace (length pre + 4 + length e.2)%nat with (length pre + length (entry_bytes e))%nat by lia.
  replace (if Z.of_nat (length pre + length (entry_bytes e) + length (listing_bytes es)) <=? Z.of_nat (length pre + length (entry_bytes e)) then None
    else Some (length pre + length (entry_bytes e))%nat) with (match es with [] => None | _ => Some (length pre + length (entry_bytes e))%nat end).
  - rewrite Er. done.
  - destruct es as [|e' es]; [rewrite (proj2 (Z.leb_le _ _)) by (cbn; lia); done|]. rewrite (proj2 (Z.leb_gt _ _)); [done|].
    assert (0 < length (listing_bytes (e' :: es)))%nat by (cbn; lia). lia.
Qed.

(** All of it, for a loaded directory. *)
Lemma read_all_loaded fuel g s h raw cs es :
  translate h <> 0 -> complete_dir s (translate h) cs -> Forall2 (is_child (files s)) cs es -> length raw = Z.to_nat DIR_BUFF_LEN ->
  Z.of_nat (length (listing_bytes es)) <= DIR_BUFF_LEN ->
  exists rs, read_all translate (S (length es)) fuel (opendir_stream h raw) g s = Ret (rs, s) /\ Forall2 (fun r e => cstr r e.2) rs es.
Proof.
  intros Hh Hcd Hc Hraw Hlen. assert (Hg : Forall (fun e => good_name e.2) es) by (clear - Hc; induction Hc as [|? ? ? ? (x & _ & _ & _ & ?)]; constructor; done).
  destruct es as [|e es].
  { apply Forall2_nil_inv_r in Hc as ->. cbn [read_all length]. unfold read_dir, opendir_stream. cbn [current_entry]. unfold sys_readdir.
    rewrite (req_readdir_eq fuel s _ _ _ _ g []) by done. cbn. exists []. by split. }
  unfold DIR_BUFF_LEN in *. remember (e :: es) as es' eqn:Ee. cbn [read_all]. unfold read_dir, opendir_stream. cbn [current_entry]. unfold sys_readdir.
  rewrite (req_readdir_eq fuel s _ _ _ _ g cs) by done. cbn [next_bulk dir_buffer total_size dir_handle].
  rewrite (fill_loop_all (files s) cs es' _ 0 [] raw Hc) by (unfold DIR_BUFF_LEN; cbn [length]; lia). cbn [app length lift mbind run_bind Nat.add].
  assert (Hpos : (0 < length (listing_bytes es'))%nat) by (rewrite Ee; cbn; lia). rewrite (proj2 (Z.leb_gt _ 0)) by lia.
  replace (to_int (0 + 0 + (0 + Z.of_nat (length cs)))) with (Z.of_nat (length cs)).
  2:{ rewrite to_int_small; [lia|]. pose proof (Forall2_length _ _ _ Hc). enough (length es' <= length (listing_bytes es'))%nat by lia.
      clear. induction es' as [|x l IH]; [done|]. change (listing_bytes (x :: l)) with (entry_bytes x ++ listing_bytes l). rewrite length_app. cbn [length entry_bytes]. lia. }
  cbn [total_size dir_handle d_name].
  destruct (read_rest fuel g s h cs es' [] (drop (length (listing_bytes es')) raw) (replicate 256 0) (S (length es')) Hh Hcd Hg) as (rs & E & Hrs); [done|lia|].
  exists rs. split; [|done]. rewrite <- E. cbn [read_all]. unfold read_dir. rewrite Ee. cbn [current_entry]. done.
Qed.

(** *** With the tree *)

(** The entry of a node in its directory. *)
Definition node_entry (e : list Z * N) : fss_file_type * list Z := (if content e.2 then FSS_FILE_TYPE_DIR else FSS_FILE_TYPE_NORMAL, e.1).

Lemma loaded_children (s : tree H D) (g : gmap Z N) f n es :
  tree_ok s g -> g !! f = Some n -> content n = Some es -> complete s f -> Forall (fun e => (length e.1 < 256)%nat) es ->
  exists cs, complete_dir s f cs /\ Forall2 (is_child (files s)) cs (node_entry <$> es).
Proof.
  intros Hk Hg Ec (x & cs & fl & Hx & Et & Hfl) Hlen. destruct (tk_node _ _ Hk _ _ Hx) as (n' & Hn' & Hd & _). rewrite Hg in Hn'. injection Hn' as <-.
  unfold dir_ok in Hd. rewrite Ec in Hd. destruct Hd as (Hty & cs' & fl' & Et' & _ & Hcs & _ & Hall). rewrite Et in Et'. injection Et' as <- <-.
  exists cs. split; [by exists x, fl|]. rewrite firstn_all2 in Hcs by (rewrite (Hall Hfl); lia). apply Forall2_fmap_r.
  clear Hall Ec Et. revert Hlen. induction Hcs as [|c e cs es (y & Hy & _ & _ & Hs & _ & Hgc) _ IH]; intros Hlen; [constructor|].
  apply Forall_cons in Hlen as [Hl Hlen]. constructor; [|by apply IH]. exists y. split; [done|]. split; [|split; [done|split; [apply Hs|done]]].
  destruct (tk_node _ _ Hk _ _ Hy) as (k & Hk' & Hdy & _). rewrite Hgc in Hk'. injection Hk' as <-. unfold dir_ok in Hdy. unfold node_entry. cbn. by destruct (content e.2), Hdy.
Qed.

(** A directory that the first request loads, or cannot load. *)
Lemma read_all_load n fuel (s s1 : tree H D) h raw g x fl r :
  translate h <> 0 -> files s !! translate h = Some x -> type x = FSS_FILE_TYPE_DIR -> t x = TDir [] fl -> Z.land fl FSS_FILE_TREE_COMPLETION = 0 ->
  import_file fuel s (translate h) = Ret (r, s1) ->
  (r < 0 -> read_all translate (S n) fuel (opendir_stream h raw) g s = Ret ([], s1)) /\
  (0 <= r -> forall cs, complete_dir s1 (translate h) cs ->
    read_all translate (S n) fuel (opendir_stream h raw) g s = read_all translate (S n) fuel (opendir_stream h raw) g s1).
Proof.
  intros Hh Hx Hty Et Hfl Ei.
  assert (Eq : req_readdir translate fuel s 0 h raw DIR_BUFF_LEN g =
    if r <? 0 then Ret (- EIO, g, raw, s1) else
    x ← lift (files s1 !! translate h);
    match t x with
    | TFile => Fault
    | TDir cs _ => '(rd_count, cpy_count, cpy_len, buf) ← lift (fill_loop (files s1) cs 0 DIR_BUFF_LEN 0 0 0 raw);
        Ret (cpy_len, to_int (0 + rd_count + cpy_count), buf, s1)
    end).
  { unfold req_readdir. cbn [Z.eqb DIR_BUFF_LEN Z.mul]. rewrite (proj2 (Z.eqb_neq (translate h) 0)) by done. rewrite Hx. cbn [lift mbind run_bind].
    rewrite Hty, Et, Hfl. cbn [Z.eqb]. unfold fss_tree_make_full. rewrite Ei. done. }
  split.
  - intros Hr. cbn [read_all]. unfold read_dir, opendir_stream, sys_readdir. cbn [current_entry next_bulk dir_handle dir_buffer total_size].
    rewrite Eq, (proj2 (Z.ltb_lt r 0)) by done. cbn [mbind run_bind]. done.
  - intros Hr cs Hc. cbn [read_all]. unfold read_dir, opendir_stream, sys_readdir. cbn [current_entry next_bulk dir_handle dir_buffer total_size].
    rewrite Eq, (proj2 (Z.ltb_ge r 0)) by done. rewrite (req_readdir_eq fuel s1 0 h raw DIR_BUFF_LEN g cs) by done.
    destruct Hc as (y & fl' & Hy & _ & Ety & _). rewrite Hy. cbn [lift mbind run_bind]. by rewrite Ety.
Qed.


End Listing.

(** ** Examples *)

#[local] Existing Instance sample_driver.
#[local] Existing Instance sample_kheap.

(** Handle 5 is the root of the small file system. *)
Definition sample_translate (h : Z) : Z := if h =? 5 then volumn_root mounted [48; 58] else 0.


(** It is read. *)
Example readdir_sample : exists r1 r2 s', read_all sample_translate 3 3 (opendir_stream 5 (replicate 4096 0)) 0 mounted = Ret ([r1; r2], s') /\
  c_str r1 = s_bin /\ c_str r2 = s_readme.
Proof. eexists _, _, _. split; [vm_compute; reflexivity|]. by split. Qed.

(** *** Where the code does not do what it means to *)

(** A loaded directory at 1 with the files a, b, c, d, and abc. *)
Definition letter (nm : list Z) : fss_file := File 1 0 0 0 0 (nm ++ [0]) FSS_FILE_TYPE_NORMAL TFile.
Definition letters : tree linear_memory_block unit :=
  Tree (list_to_map [(1, File 0 0 0 0 0 [0] FSS_FILE_TYPE_DIR (TDir [2; 3; 4; 5; 6] 1)); (2, letter [97]); (3, letter [98]); (4, letter [99]); (5, letter [100]); (6, letter [97; 98; 99])])
    ∅ [] [] fs_block tt.

(** Blocks with room for one entry: the third request, which starts where the
    second one said, gets the fourth file. *)
Theorem readdir_skips_entries :
  (exists buf, req_readdir (fun h => h) 1 letters 0 1 (replicate 5 0) 5 0 = Ret (5, 1, buf, letters) /\ drop 4 buf = [97]) /\
  (exists buf, req_readdir (fun h => h) 1 letters 1 1 (replicate 5 0) 5 0 = Ret (5, 3, buf, letters) /\ drop 4 buf = [98]) /\
  (exists buf, req_readdir (fun h => h) 1 letters 3 1 (replicate 5 0) 5 0 = Ret (5, 7, buf, letters) /\ drop 4 buf = [100]).
Proof. split_and!; eexists; (split; [vm_compute; reflexivity|]); vm_compute; reflexivity. Qed.

(** The last name of a block is cut to the room that is left, and counted. *)
Theorem readdir_cuts_name : exists buf,
  req_readdir (fun h => h) 1 letters 4 1 (replicate 6 0) 6 0 = Ret (6, 9, buf, letters) /\ get16 buf 0 = Some 2 /\ drop 4 buf = [97; 98].
Proof. eexists. split; [vm_compute; reflexivity|]. split; vm_compute; reflexivity. Qed.

(** ** Notifications *)

(** A registration adds its messages to those sent before. *)
Theorem fnotify_register_correct l current cmd func para :
  0 <= cmd < 4 -> exists l', fnotify_event_register l current cmd func para true = (0, l') /\
    forall ev, fnotify_msg_send l' ev = fnotify_msg_send l ev ++ (if Z.land cmd ev =? 0 then [] else [(current, func, para)]).
Proof.
  intros Hc. assert (Hb : bad_event cmd = false) by (assert (cmd = 0 \/ cmd = 1 \/ cmd = 2 \/ cmd = 3) as [->|[->|[->| ->]]] by lia; done).
  unfold fnotify_event_register. rewrite Hb. eexists. split; [done|]. intros ev. unfold fnotify_msg_send. rewrite omap_app. cbn. by case_if.
Qed.

Lemma send_absent l current ev : current ∉ (listener <$> l) -> filter (fun m => m.1.1 <> current) (fnotify_msg_send l ev) = fnotify_msg_send l ev.
Proof.
  induction l as [|n l IH]; [done|]. intros [H1 H2]%not_elem_of_cons. unfold fnotify_msg_send. cbn. fold (fnotify_msg_send l ev). case_if; [by apply IH|].
  rewrite filter_cons_True by (cbn; congruence). f_equal. by apply IH.
Qed.

(** Unregistering stops the events for the thread, and for no other, if the thread
    is registered once. *)
Theorem fnotify_unregister_correct l current cmd ev :
  NoDup (listener <$> l) -> Forall (fun n => 0 < even_type_mask n < 4) l -> 0 <= cmd < 4 -> ev = 1 \/ ev = 2 -> Z.land cmd ev <> 0 ->
  exists l', fnotify_event_unregister l current cmd = (0, l') /\ fnotify_msg_send l' ev = filter (fun m => m.1.1 <> current) (fnotify_msg_send l ev).
Proof.
  intros Hnd Hm Hc Hev Hce. assert (Hcmd : cmd = 0 \/ cmd = 1 \/ cmd = 2 \/ cmd = 3) by lia.
  assert (Hb : bad_event cmd = false) by (destruct Hcmd as [->|[->|[->| ->]]]; done). unfold fnotify_event_unregister. rewrite Hb. eexists. split; [done|].
  induction l as [|n l IH]; [done|]. apply NoDup_cons in Hnd as [Hn Hnd]. apply Forall_cons in Hm as [Hmn Hm]. cbn [unregister].
  destruct (Z.eqb_spec (listener n) current) as [E|E].
  - rewrite E in Hn. assert (Hmask : even_type_mask n = 1 \/ even_type_mask n = 2 \/ even_type_mask n = 3) by lia.
    assert (Hgoal : forall l', fnotify_msg_send l' ev = fnotify_msg_send l ev -> fnotify_msg_send l' ev = filter (fun m => m.1.1 <> current) (fnotify_msg_send (n :: l) ev)).
    { intros l' ->. unfold fnotify_msg_send at 2. cbn. fold (fnotify_msg_send l ev). case_if; [by rewrite send_absent|]. rewrite filter_cons_False by (cbn; tauto). by rewrite send_absent. }
    cbn [andb]. destruct (negb _) eqn:Ec; zbool.
    + apply Hgoal. case_if; [done|]. unfold fnotify_msg_send. cbn. fold (fnotify_msg_send l ev).
      replace (Z.land (Z.land (even_type_mask n) (w_not cmd)) ev =? 0) with true; [done|].
      destruct Hcmd as [->|[->|[->| ->]]], Hmask as [->|[->| ->]], Hev as [->| ->]; try done; by destruct Hce.
    + replace (fnotify_msg_send (n :: unregister l current cmd) ev) with (fnotify_msg_send (unregister l current cmd) ev).
      * rewrite (IH Hnd Hm). unfold fnotify_msg_send at 2. cbn. fold (fnotify_msg_send l ev). case_if; [done|]. by rewrite filter_cons_False by (cbn; tauto).
      * unfold fnotify_msg_send at 2. cbn. fold (fnotify_msg_send (unregister l current cmd) ev).
        replace (Z.land (even_type_mask n) ev =? 0) with true; [done|].
        destruct Hcmd as [->|[->|[->| ->]]], Hmask as [Hq|[Hq|Hq]], Hev as [->| ->]; rewrite Hq in *; try done; by destruct Hce.
  - cbn [andb]. unfold fnotify_msg_send at 1 2. cbn. fold (fnotify_msg_send l ev). fold (fnotify_msg_send (unregister l current cmd) ev).
    case_if; [by apply IH|]. rewrite filter_cons_True by (cbn; congruence). f_equal. by apply IH.
Qed.

(** The comment on the request says that a second registration for an event
    replaces the function; both are called, and one request to stop stops the
    first. *)
Theorem register_twice : exists l1 l2 l3,
  fnotify_event_register [] 9 Y_FILE_EVENT_WRITE 100 0 true = (0, l1) /\ fnotify_event_register l1 9 Y_FILE_EVENT_WRITE 200 0 true = (0, l2) /\
  fnotify_msg_send l2 Y_FILE_EVENT_WRITE = [(9, 100, 0); (9, 200, 0)] /\
  fnotify_event_unregister l2 9 Y_FILE_EVENT_WRITE = (0, l3) /\ fnotify_msg_send l3 Y_FILE_EVENT_WRITE = [(9, 200, 0)].
Proof. eexists _, _, _. repeat split; vm_compute; reflexivity. Qed.
