(* ===== verification/Resource.v ===== *)
(** * Device resources

    [source/drivers/hal/main/resource.c]: the trees of port and memory ranges in
    which drivers register what they use.  A resource is known by its address;
    [child] has the children of a resource in the order of their [sibling]
    links.  Addresses and sizes have 64 bits.  [None] and [Fault] are an access
    through NULL.  The lock is held during an operation. *)

From stdpp Require Import gmap sorting.
From S2P Require Import Prelude.
Local Open Scope c_scope.

Definition IO_SPACE_LIMIT : Z := 0xffff.
Definition IORESOURCE_IO : Z := 0x100.
Definition IORESOURCE_MEM : Z := 0x200.
Definition IORESOURCE_BUSY : Z := 0x80000000.
Definition DR_RESOURCE_TYPE_IO : Z := 0.
Definition DR_RESOURCE_TYPE_MEM : Z := 1.
Definition EBUSY : Z := 16.

(** The values of [resource_size_t]. *)
Definition wrap_size (z : Z) : Z := z mod 18446744073709551616.

Record resource := Res {
  start : Z;
  end_ : Z;
  flags : Z;
  parent : Z;                                      (* 0 is NULL *)
  child : list Z
}.

Module ResOps.
Notation st := (gmap Z resource).

Definition set_child (x : resource) (l : list Z) : resource := Res (start x) (end_ x) (flags x) (parent x) l.
Definition set_parent (x : resource) (p : Z) : resource := Res (start x) (end_ x) (flags x) p (child x).

(** The loop over the children: where the new one goes, or the one it meets. *)
Fixpoint scan (m : st) (cs : list Z) (i : nat) (lo hi : Z) : option (nat + Z) :=
  match cs with
  | [] => Some (inl i)
  | c :: cs =>
    x ← m !! c;
    if hi <? start x then Some (inl i) else
    if end_ x <? lo then scan m cs (S i) lo hi else Some (inr c)
  end.

(** 0 and the new tree, or the resource in conflict. *)
Definition __request_resource (m : st) (root new : Z) : option (Z * st) :=
  n ← m !! new; r ← m !! root;
  if end_ n <? start n then Some (root, m) else
  if start n <? start r then Some (root, m) else
  if end_ r <? end_ n then Some (root, m) else
  p ← scan m (child r) 0 (start n) (end_ n);
  match p with
  | inr c => Some (c, m)
  | inl i => Some (0, <[new := set_parent n root]> (<[root := set_child r (take i (child r) ++ new :: drop i (child r))]> m))
  end.

(** The first loop of [__insert_resource]: the end of the operation, or the parent
    and the child the new resource meets. *)
Fixpoint descend (fuel : nat) (m : st) (par new : Z) : run (Z * st + Z * Z) :=
  match fuel with
  | O => NoFuel
  | S fuel =>
    '(first, m) ← lift (__request_resource m par new);
    if first =? 0 then Ret (inl (0, m)) else
    if first =? par then Ret (inl (first, m)) else
    if first =? new then Ret (inl (first, m)) else
    x ← lift (m !! first);
    n ← lift (m !! new);
    if (start n <? start x) || (end_ x <? end_ n) then Ret (inr (par, first)) else
    if (start x =? start n) && (end_ x =? end_ n) then Ret (inr (par, first)) else
    descend fuel m first new
  end.

(** The second loop, from the first child on: how many children the new resource
    takes over, or the one it meets in part. *)
Fixpoint covered (m : st) (l : list Z) (lo hi : Z) : option (nat + Z) :=
  match l with
  | [] => None
  | c :: l =>
    x ← m !! c;
    if (start x <? lo) || (hi <? end_ x) then Some (inr c) else
    match l with
    | [] => Some (inl 1%nat)
    | d :: _ =>
      y ← m !! d;
      if hi <? start y then Some (inl 1%nat) else
      r ← covered m l lo hi;
      Some (match r with inl k => inl (S k) | inr c => inr c end)
    end
  end.

Fixpoint adopt (m : st) (l : list Z) (new : Z) : option st :=
  match l with
  | [] => Some m
  | c :: l => x ← m !! c; adopt (<[c := set_parent x new]> m) l new
  end.


(** The children before [c] and those from [c] on. *)
Fixpoint split_at (c : Z) (l : list Z) : list Z * list Z :=
  match l with
  | [] => ([], [])
  | x :: l => if x =? c then ([], x :: l) else let '(a, b) := split_at c l in (x :: a, b)
  end.

Definition __insert_resource (fuel : nat) (m : st) (par new : Z) : run (Z * st) :=
  r ← descend fuel m par new;
  match r with
  | inl res => Ret res
  | inr (par, first) =>
    p ← lift (m !! par);
    n ← lift (m !! new);
    let '(before, rest) := split_at first (child p) in
    k ← lift (covered m rest (start n) (end_ n));
    match k with
    | inr c => Ret (c, m)
    | inl k =>
      m ← lift (adopt (<[new := Res (start n) (end_ n) (flags n) par (take k rest)]> m) (take k rest) new);
      p ← lift (m !! par);
      Ret (0, <[par := set_child p (before ++ new :: drop k rest)]> m)
    end
  end.

Fixpoint region_loop (fuel : nat) (m : st) (par res : Z) : run (Z * st) :=
  match fuel with
  | O => NoFuel
  | S fuel =>
    '(conflict, m) ← lift (__request_resource m par res);
    if conflict =? 0 then Ret (res, m) else
    x ← lift (m !! conflict);
    if negb (conflict =? par) && (Z.land (flags x) IORESOURCE_BUSY =? 0) then region_loop fuel m conflict res else
    Ret (0, delete res m)
  end.

(** [alloc]: what [kzalloc] returns. *)
Definition __request_region (fuel : nat) (m : st) (par lo n fl : Z) (alloc : option Z) : run (Z * st) :=
  match alloc with
  | None => Ret (0, m)
  | Some res => region_loop fuel (<[res := Res lo (wrap_size (lo + n - 1)) (Z.lor IORESOURCE_BUSY fl) 0 []]> m) par res
  end.

(** The two roots, at [io] and [mem]. *)
Definition initial_resources (io mem : Z) : st :=
  {[ io := Res 0 IO_SPACE_LIMIT IORESOURCE_IO 0 []; mem := Res 0 (wrap_size (- 1)) IORESOURCE_MEM 0 [] ]}.

Definition dr_get_constance_resource (io mem type : Z) : Z :=
  if type =? DR_RESOURCE_TYPE_IO then io else if type =? DR_RESOURCE_TYPE_MEM then mem else 0.

Definition dr_register (fuel : nat) (m : st) (io mem type lo size fl : Z) (alloc : option Z) : run (Z * st) :=
  __request_region fuel m (dr_get_constance_resource io mem type) lo size fl alloc.

Definition dr_insert (fuel : nat) (m : st) (par new : Z) : run (Z * st) := __insert_resource fuel m par new.

Definition dr_release (m : st) (type lo n : Z) : st := m.

(** The child before [c], if there is one. *)
Fixpoint pred_of (c : Z) (l : list Z) : option (option Z) :=
  match l with
  | [] => None
  | x :: l => if x =? c then Some None else
    match l with
    | y :: _ => if y =? c then Some (Some x) else pred_of c l
    | [] => None
    end
  end.

Fixpoint succ_of (c : Z) (l : list Z) : option Z :=
  match l with
  | [] => None
  | x :: l => if x =? c then match l with y :: _ => Some y | [] => None end else succ_of c l
  end.

(** The tests of [dr_adjust_resource] against the parent and the neighbours. *)
Definition fits_parent (m : st) (res lo hi : Z) (x : resource) : option bool :=
  if parent x =? 0 then Some true else
  p ← m !! parent x;
  if (lo <? start p) || (end_ p <? hi) then Some false else
  next ← match succ_of res (child p) with None => Some false | Some d => y ← m !! d; Some (start y <=? hi) end;
  if (next : bool) then Some false else
  prev ← pred_of res (child p);
  match prev with None => Some true | Some d => y ← m !! d; Some (negb (lo <=? end_ y)) end.

Fixpoint fits_children (m : st) (l : list Z) (lo hi : Z) : option bool :=
  match l with
  | [] => Some true
  | c :: l => y ← m !! c; if (start y <? lo) || (hi <? end_ y) then Some false else fits_children m l lo hi
  end.

Definition dr_adjust_resource (m : st) (res lo size : Z) : option (Z * st) :=
  x ← m !! res;
  let hi := wrap_size (lo + size - 1) in
  a ← fits_parent m res lo hi x;
  if negb a then Some (- EBUSY, m) else
  b ← fits_children m (child x) lo hi;
  if negb b then Some (- EBUSY, m) else
  Some (0, <[res := Res lo hi (flags x) (parent x) (child x)]> m).

End ResOps.
Import ResOps.

(** ** The tree *)

Definition within (x y : resource) : Prop := start y <= start x /\ end_ x <= end_ y.
Definition overlap (x y : resource) : Prop := start x <= end_ y /\ start y <= end_ x.

(** The children lie apart, in order. *)
Definition apart (m : st) (c d : Z) : Prop := forall x y, m !! c = Some x -> m !! d = Some y -> end_ x < start y.

(** Ranges are not empty, children lie inside their parent in order, the links
    agree, and [rank] falls along them. *)
Record res_ok (m : st) (rank : Z -> nat) : Prop := {
  ro_null : m !! 0 = None;
  ro_range : forall a x, m !! a = Some x -> parent x <> 0 \/ child x <> [] -> start x <= end_ x;
  ro_child : forall a x c, m !! a = Some x -> c ∈ child x -> exists y, m !! c = Some y /\ parent y = a /\ within y x /\ (rank c < rank a)%nat;
  ro_parent : forall c y, m !! c = Some y -> parent y <> 0 -> exists x, m !! parent y = Some x /\ c ∈ child x;
  ro_nodup : forall a x, m !! a = Some x -> NoDup (child x);
  ro_sorted : forall a x, m !! a = Some x -> StronglySorted (apart m) (child x)
}.

(** [b] is [a] or in the tree below it. *)
Inductive below (m : st) : Z -> Z -> Prop :=
  | below_refl a : below m a a
  | below_step a x c b : m !! a = Some x -> c ∈ child x -> below m c b -> below m a b.

Lemma below_trans m a b c : below m a b -> below m b c -> below m a c.
Proof. induction 1 as [|a x d b Hx Hd _ IH]; [done|]. intros Hc. eapply below_step; [done|done|by apply IH]. Qed.

Lemma within_trans x y z : within x y -> within y z -> within x z.
Proof. unfold within. lia. Qed.

Lemma below_within m rank a b x y : res_ok m rank -> below m a b -> m !! a = Some x -> m !! b = Some y -> within y x.
Proof.
  intros Hok Hb. revert x. induction Hb as [a|a z c b Hz Hc _ IH]; intros x Hx Hy; [simplify_eq; unfold within; lia|].
  destruct (ro_child _ _ Hok _ _ _ Hz Hc) as (w & Hw & _ & Hwz & _). simplify_eq. eapply within_trans; [by eapply IH|done].
Qed.

Lemma below_rank m rank a b : res_ok m rank -> below m a b -> (rank b <= rank a)%nat.
Proof. intros Hok. induction 1 as [|a x c b Hx Hc _ IH]; [lia|]. destruct (ro_child _ _ Hok _ _ _ Hx Hc) as (? & _ & _ & _ & ?). lia. Qed.

Lemma below_known m rank a b : res_ok m rank -> below m a b -> is_Some (m !! a) -> is_Some (m !! b).
Proof. intros Hok Hb. induction Hb as [|a z c b Hz Hc _ IH]; [done|]. intros _. apply IH. destruct (ro_child _ _ Hok _ _ _ Hz Hc) as (w & Hw & _). by eexists. Qed.

Lemma sorted_apart m l c d : StronglySorted (apart m) l -> c ∈ l -> d ∈ l -> c <> d -> apart m c d \/ apart m d c.
Proof.
  intros Hs Hc Hd Hne. induction Hs as [|x l Hs IH Hx]; [by apply elem_of_nil in Hc|]. rewrite Forall_forall in Hx.
  apply elem_of_cons in Hc as [->|Hc]; apply elem_of_cons in Hd as [->|Hd]; [done|left; by apply Hx|right; by apply Hx|by apply IH].
Qed.

(** Resources that overlap are one below the other. *)
Lemma laminar m rank r a b x y :
  res_ok m rank -> below m r a -> below m r b -> m !! a = Some x -> m !! b = Some y -> overlap x y -> below m a b \/ below m b a.
Proof.
  intros Hok Ha. revert b y. induction Ha as [r|r z c a Hz Hc Ha IH]; intros b y Hb Hx Hy Ho; [by left|].
  inversion Hb as [|? z' d ? Hz' Hd Hb']; subst; [right; exact (below_step _ _ _ _ _ Hz Hc Ha)|]. simplify_eq.
  destruct (decide (c = d)) as [<-|Hne]; [by eapply IH|exfalso].
  destruct (ro_child _ _ Hok _ _ _ Hz Hc) as (w & Hw & _), (ro_child _ _ Hok _ _ _ Hz Hd) as (v & Hv & _).
  pose proof (below_within _ _ _ _ _ _ Hok Ha Hw Hx) as W1. pose proof (below_within _ _ _ _ _ _ Hok Hb' Hv Hy) as W2. unfold within, overlap in *.
  destruct (sorted_apart _ _ _ _ (ro_sorted _ _ Hok _ _ Hz) Hc Hd Hne) as [Hap|Hap]; [specialize (Hap _ _ Hw Hv)|specialize (Hap _ _ Hv Hw)]; lia.
Qed.

(** ** Linking a resource in *)

Lemma sorted_ext m m' l :
  (forall c y, c ∈ l -> m' !! c = Some y -> exists x, m !! c = Some x /\ start x = start y /\ end_ x = end_ y) ->
  StronglySorted (apart m) l -> StronglySorted (apart m') l.
Proof.
  intros Hm Hs. induction Hs as [|c l Hs IH Hc]; constructor.
  - apply IH. intros d y Hd. apply Hm. by right.
  - rewrite Forall_forall in Hc |- *. intros d Hd x y Hx Hy. destruct (Hm c x) as (x' & Hx' & _ & Ex); [by left|done|].
    destruct (Hm d y) as (y' & Hy' & Ey & _); [by right|done|]. specialize (Hc d Hd _ _ Hx' Hy'). lia.
Qed.

Lemma child_parent m rank a x c : res_ok m rank -> m !! a = Some x -> c ∈ child x -> exists y, m !! c = Some y /\ parent y = a /\ parent y <> 0 /\ start y <= end_ y.
Proof.
  intros Hok Hx Hc. destruct (ro_child _ _ Hok _ _ _ Hx Hc) as (y & Hy & Hp & _). exists y. assert (parent y <> 0) by (rewrite Hp; intros ->; rewrite (ro_null _ _ Hok) in Hx; done).
  split; [done|]. split; [done|]. split; [done|]. eapply (ro_range _ _ Hok); eauto.
Qed.

Definition rank_with (rank : Z -> nat) (par new : Z) (a : Z) : nat := if decide (a = new) then (2 * rank par)%nat else S (2 * rank a).

(** [new], which is nowhere yet, comes between [par] and some of its children. *)
Record linked (m m' : st) (par new : Z) (before adopted after : list Z) (p n : resource) : Prop := {
  lk_par : m !! par = Some p;
  lk_new : m !! new = Some n;
  lk_free : parent n = 0 /\ child n = [];
  lk_ne : new <> par;
  lk_split : child p = before ++ adopted ++ after;
  lk_within : start n <= end_ n /\ within n p;
  lk_before : forall c x, c ∈ before -> m !! c = Some x -> end_ x < start n;
  lk_adopted : forall c x, c ∈ adopted -> m !! c = Some x -> within x n;
  lk_after : forall c x, c ∈ after -> m !! c = Some x -> end_ n < start x;
  lk_new' : m' !! new = Some (Res (start n) (end_ n) (flags n) par adopted);
  lk_par' : m' !! par = Some (set_child p (before ++ new :: after));
  lk_adopted' : forall c x, c ∈ adopted -> m !! c = Some x -> m' !! c = Some (set_parent x new);
  lk_other : forall a, a <> new -> a <> par -> a ∉ adopted -> m' !! a = m !! a
}.

Arguments lk_par {_ _ _ _ _ _ _ _ _} _.
Arguments lk_new {_ _ _ _ _ _ _ _ _} _.
Arguments lk_free {_ _ _ _ _ _ _ _ _} _.
Arguments lk_ne {_ _ _ _ _ _ _ _ _} _.
Arguments lk_split {_ _ _ _ _ _ _ _ _} _.
Arguments lk_within {_ _ _ _ _ _ _ _ _} _.
Arguments lk_before {_ _ _ _ _ _ _ _ _} _.
Arguments lk_adopted {_ _ _ _ _ _ _ _ _} _.
Arguments lk_after {_ _ _ _ _ _ _ _ _} _.
Arguments lk_new' {_ _ _ _ _ _ _ _ _} _.
Arguments lk_par' {_ _ _ _ _ _ _ _ _} _.
Arguments lk_adopted' {_ _ _ _ _ _ _ _ _} _.
Arguments lk_other {_ _ _ _ _ _ _ _ _} _.

Section Linked.
Context (m m' : st) (rank : Z -> nat) (par new : Z) (before adopted after : list Z) (p n : resource).
Context (Hok : res_ok m rank) (L : linked m m' par new before adopted after p n).

Lemma lk_in_adopted c : c ∈ adopted -> c ∈ child p.
Proof. intros Hc. rewrite (lk_split L), !elem_of_app. auto. Qed.

Lemma lk_not_child a x : m !! a = Some x -> new ∉ child x.
Proof. intros Hx Hc. destruct (child_parent _ _ _ _ _ Hok Hx Hc) as (y & Hy & _ & Hp & _). pose proof (lk_new L). destruct (lk_free L). congruence. Qed.

Lemma lk_par_not_adopted : par ∉ adopted.
Proof. intros Hc%lk_in_adopted. destruct (ro_child _ _ Hok _ _ _ (lk_par L) Hc) as (_ & _ & _ & _ & Hr). lia. Qed.

Lemma lk_new_not_adopted : new ∉ adopted.
Proof. intros Hc%lk_in_adopted. by apply (lk_not_child _ _ (lk_par L)) in Hc. Qed.

(** Where a resource of the new tree comes from. *)
Lemma lk_cases a x' : m' !! a = Some x' ->
  (a = new /\ x' = Res (start n) (end_ n) (flags n) par adopted) \/ (a = par /\ x' = set_child p (before ++ new :: after)) \/
  (exists x, m !! a = Some x /\ a ∈ adopted /\ x' = set_parent x new /\ parent x = par) \/ (a <> new /\ a <> par /\ a ∉ adopted /\ m !! a = Some x').
Proof.
  intros Hx'. destruct (decide (a = new)) as [->|Hn]; [left; rewrite (lk_new' L) in Hx'; by simplify_eq|].
  destruct (decide (a = par)) as [->|Hp]; [right; left; rewrite (lk_par' L) in Hx'; by simplify_eq|]. right; right.
  destruct (decide (a ∈ adopted)) as [Ha|Ha].
  - left. destruct (child_parent _ _ _ _ _ Hok (lk_par L) (lk_in_adopted _ Ha)) as (y & Hy & Hpy & _). exists y.
    rewrite (lk_adopted' L _ _ Ha Hy) in Hx'. by simplify_eq.
  - right. rewrite (lk_other L) in Hx' by done. done.
Qed.

(** Ranges and flags do not change. *)
Lemma lk_same a x' : m' !! a = Some x' -> exists x, m !! a = Some x /\ start x = start x' /\ end_ x = end_ x' /\ flags x = flags x'.
Proof.
  intros [(-> & ->)|[(-> & ->)|[(x & Hx & _ & -> & _)|(_ & _ & _ & Hx)]]]%lk_cases; eauto using lk_par, lk_new.
  - exists n. split; [apply L|done].
  - exists p. split; [apply L|done].
Qed.

Lemma lk_same' a x : m !! a = Some x -> exists x', m' !! a = Some x' /\ start x = start x' /\ end_ x = end_ x' /\ flags x = flags x'.
Proof.
  intros Hx. destruct (decide (a = new)) as [->|Hn]; [rewrite (lk_new L) in Hx; simplify_eq; eexists; split; [apply L|done]|].
  destruct (decide (a = par)) as [->|Hp]; [rewrite (lk_par L) in Hx; simplify_eq; eexists; split; [apply L|done]|].
  destruct (decide (a ∈ adopted)) as [Ha|Ha]; [eexists; split; [by apply (lk_adopted' L)|done]|].
  exists x. by rewrite (lk_other L).
Qed.

Lemma lk_apart a x : m !! a = Some x -> StronglySorted (apart m') (child x).
Proof.
  intros Hx. eapply sorted_ext; [|by eapply (ro_sorted _ _ Hok)]. intros c y _ Hy. destruct (lk_same _ _ Hy) as (z & Hz & E1 & E2 & _). eauto.
Qed.
Lemma lk_not_adopted c x : m !! c = Some x -> parent x <> par -> c ∉ adopted.
Proof. intros Hx Hp Hc. destruct (child_parent _ _ _ _ _ Hok (lk_par L) (lk_in_adopted _ Hc)) as (y & Hy & E & _). congruence. Qed.

(** A child of an old resource that stays where it is. *)
Lemma lk_child_stays a x c : m !! a = Some x -> c ∈ child x -> a <> par -> exists y', m' !! c = Some y' /\ parent y' = a /\ within y' x /\ (rank c < rank a)%nat /\ c <> new.
Proof.
  intros Hx Hc Ha. destruct (ro_child _ _ Hok _ _ _ Hx Hc) as (y & Hy & Hp & Hw & Hr). assert (Hcn : c <> new) by (intros ->; exact (lk_not_child _ _ Hx Hc)).
  assert (Hca : c ∉ adopted) by (eapply lk_not_adopted; [done|congruence]). destruct (decide (c = par)) as [->|Hcp].
  - rewrite (lk_par L) in Hy. simplify_eq. eexists. split; [apply L|]. done.
  - exists y. rewrite (lk_other L) by done. done.
Qed.

Lemma lk_ranks c a : c <> new -> a <> new -> (rank c < rank a)%nat -> (rank_with rank par new c < rank_with rank par new a)%nat.
Proof. intros Hc Ha Hr. unfold rank_with. rewrite !decide_False by done. lia. Qed.

Lemma lk_nodup : NoDup before /\ NoDup adopted /\ NoDup (before ++ new :: after) /\ forall c, c ∈ before ++ after -> c ∈ child p /\ c ∉ adopted.
Proof.
  pose proof (ro_nodup _ _ Hok _ _ (lk_par L)) as Hnd. pose proof (lk_not_child _ _ (lk_par L)) as Hnew. rewrite (lk_split L) in *.
  apply NoDup_app in Hnd as (Hb & Hba & Hnd). apply NoDup_app in Hnd as (Had & Haa & Haf). rewrite !elem_of_app in Hnew.
  split; [done|]. split; [done|]. split.
  - apply NoDup_app. split; [done|]. split; [|apply NoDup_cons; split; [tauto|done]]. intros c Hc [->|Hc']%elem_of_cons; [tauto|]. eapply Hba; [exact Hc|]. apply elem_of_app. by right.
  - intros c [Hc|Hc]%elem_of_app; rewrite !elem_of_app; (split; [tauto|]); intros Hc'; [eapply Hba; [exact Hc|apply elem_of_app; by left]|by eapply Haa].
Qed.

Lemma lk_child a x' c : m' !! a = Some x' -> c ∈ child x' -> exists y', m' !! c = Some y' /\ parent y' = a /\ within y' x' /\ (rank_with rank par new c < rank_with rank par new a)%nat.
Proof.
  intros Hx' Hc. destruct (lk_within L) as [_ Hwn]. assert (Hnp := lk_ne L). destruct lk_nodup as (_ & _ & _ & Hold).
  destruct (lk_cases _ _ Hx') as [(-> & ->)|[(-> & ->)|[(x & Hx & Ha & -> & _)|(Hn & Hp & Ha & Hx)]]]; cbn in Hc.
  - destruct (ro_child _ _ Hok _ _ _ (lk_par L) (lk_in_adopted _ Hc)) as (y & Hy & _ & _ & Hr). exists (set_parent y new). split; [by apply (lk_adopted' L)|]. split; [done|].
    split; [exact (lk_adopted L _ _ Hc Hy)|]. assert (c <> new) by (intros ->; by apply lk_new_not_adopted). unfold rank_with. rewrite decide_False, decide_True by done. lia.
  - destruct (decide (c = new)) as [->|Hcn].
    + eexists. split; [apply L|]. split; [done|]. split; [done|]. unfold rank_with. rewrite decide_True, decide_False by done. lia.
    + assert (Hc' : c ∈ before ++ after) by (rewrite elem_of_app in Hc |- *; rewrite elem_of_cons in Hc; tauto). destruct (Hold c Hc') as [Hcp Hca].
      destruct (ro_child _ _ Hok _ _ _ (lk_par L) Hcp) as (y & Hy & Hpy & Hw & Hr). assert (c <> par) by (intros ->; lia). exists y. rewrite (lk_other L) by done.
      split; [done|]. split; [done|]. split; [done|]. by apply lk_ranks.
  - destruct (lk_child_stays a x c Hx Hc) as (y' & Hy' & Hpy & Hw & Hr & Hcn); [intros ->; by apply lk_par_not_adopted|]. exists y'. split; [done|]. split; [done|]. split; [done|].
    apply lk_ranks; [done| |done]. intros ->. by apply lk_new_not_adopted.
  - destruct (lk_child_stays a x' c Hx Hc Hp) as (y' & Hy' & Hpy & Hw & Hr & Hcn). exists y'. split; [done|]. split; [done|]. split; [done|]. by apply lk_ranks.
Qed.

Lemma lk_parent c y' : m' !! c = Some y' -> parent y' <> 0 -> exists x', m' !! parent y' = Some x' /\ c ∈ child x'.
Proof.
  intros Hy' Hp. destruct (lk_cases _ _ Hy') as [(-> & ->)|[(-> & ->)|[(x & Hx & Ha & -> & _)|(Hn & Hcp & Ha & Hx)]]]; cbn in Hp |- *.
  - eexists. split; [apply L|]. cbn. apply elem_of_app. right. by left.
  - destruct (ro_parent _ _ Hok _ _ (lk_par L) Hp) as (q & Hq & Hc). destruct (ro_child _ _ Hok _ _ _ Hq Hc) as (_ & _ & _ & _ & Hr).
    assert (Hqp : parent p <> par) by (intros E; rewrite E in Hr; lia).
    assert (Hqn : parent p <> new) by (intros E; rewrite E, (lk_new L) in Hq; simplify_eq; rewrite (proj2 (lk_free L)) in Hc; by apply elem_of_nil in Hc).
    destruct (decide (parent p ∈ adopted)) as [Hqa|Hqa]; [eexists; split; [by apply (lk_adopted' L)|done]|]. exists q. by rewrite (lk_other L).
  - eexists. split; [apply L|]. done.
  - destruct (ro_parent _ _ Hok _ _ Hx Hp) as (q & Hq & Hc). destruct (decide (parent y' = par)) as [E|Hqp].
    + rewrite E in *. rewrite (lk_par L) in Hq. simplify_eq. eexists. split; [apply L|]. cbn. rewrite (lk_split L), !elem_of_app in Hc. rewrite elem_of_app, elem_of_cons. tauto.
    + assert (Hqn : parent y' <> new) by (intros E; rewrite E, (lk_new L) in Hq; simplify_eq; rewrite (proj2 (lk_free L)) in Hc; by apply elem_of_nil in Hc).
      destruct (decide (parent y' ∈ adopted)) as [Hqa|Hqa]; [eexists; split; [by apply (lk_adopted' L)|done]|]. exists q. by rewrite (lk_other L).
Qed.

Lemma lk_par_sorted : StronglySorted (apart m') (before ++ new :: after).
Proof.
  pose proof (lk_apart _ _ (lk_par L)) as Hs. rewrite (lk_split L) in Hs. apply StronglySorted_app in Hs as (_ & Hb & Hs). apply StronglySorted_app in Hs as (_ & _ & Ha).
  pose proof (lk_apart _ _ (lk_par L)) as Hs. rewrite (lk_split L) in Hs. destruct (lk_within L) as [Hr _].
  assert (Hbn : forall c y', c ∈ before -> m' !! c = Some y' -> end_ y' < start n) by (intros c y' Hc (y & Hy & _ & <- & _)%lk_same; by eapply (lk_before L)).
  assert (Han : forall c y', c ∈ after -> m' !! c = Some y' -> end_ n < start y') by (intros c y' Hc (y & Hy & <- & _ & _)%lk_same; by eapply (lk_after L)).
  apply StronglySorted_app. split; [|split; [done|]].
  - intros c d Hc [->|Hd]%elem_of_cons x y Hx Hy.
    + rewrite (lk_new' L) in Hy. simplify_eq. cbn. by eapply Hbn.
    + eapply (StronglySorted_app_1_elem_of _ _ _ c d Hs); try done. apply elem_of_app. by right.
  - constructor; [done|]. rewrite Forall_forall. intros d Hd x y Hx Hy. rewrite (lk_new' L) in Hx. simplify_eq. cbn. by eapply Han.
Qed.

Lemma link_ok : res_ok m' (rank_with rank par new).
Proof.
  split.
  - rewrite (lk_other L); [apply (ro_null _ _ Hok)|..]; intros E; pose proof (ro_null _ _ Hok) as H0.
    + rewrite E, (lk_new L) in H0. done.
    + rewrite E, (lk_par L) in H0. done.
    + destruct (child_parent _ _ _ _ _ Hok (lk_par L) (lk_in_adopted _ E)) as (y & Hy & _). congruence.
  - intros a x' Hx' Hor. destruct (lk_within L) as [Hr Hw]. unfold within in Hw.
    destruct (lk_cases _ _ Hx') as [(-> & ->)|[(-> & ->)|[(x & Hx & Ha & -> & Hp)|(_ & _ & _ & Hx)]]]; cbn; [done|lia| |by eapply (ro_range _ _ Hok)].
    destruct (child_parent _ _ _ _ _ Hok (lk_par L) (lk_in_adopted _ Ha)) as (y & Hy & _ & _ & Hy'). by simplify_eq.
  - apply lk_child.
  - apply lk_parent.
  - intros a x' Hx'. destruct lk_nodup as (_ & Had & Hpar & _).
    destruct (lk_cases _ _ Hx') as [(-> & ->)|[(-> & ->)|[(x & Hx & _ & -> & _)|(_ & _ & _ & Hx)]]]; cbn; try done; by eapply (ro_nodup _ _ Hok).
  - intros a x' Hx'. destruct (lk_cases _ _ Hx') as [(-> & ->)|[(-> & ->)|[(x & Hx & _ & -> & _)|(_ & _ & _ & Hx)]]]; cbn; [|apply lk_par_sorted|by eapply lk_apart..].
    pose proof (lk_apart _ _ (lk_par L)) as Hs. rewrite (lk_split L) in Hs. apply StronglySorted_app in Hs as (_ & _ & Hs). by apply StronglySorted_app in Hs as (_ & Hs & _).
Qed.

(** What was below stays below. *)
Lemma lk_below a b : below m a b -> below m' a b.
Proof.
  induction 1 as [a|a x c b Hx Hc _ IH]; [apply below_refl|]. destruct (decide (a = par)) as [->|Ha].
  - assert (x = p) as -> by (rewrite (lk_par L) in Hx; congruence). rewrite (lk_split L), !elem_of_app in Hc. destruct (decide (c ∈ adopted)) as [Hca|Hca].
    + eapply below_step; [apply L|cbn; apply elem_of_app; right; by left|]. eapply below_step; [apply L|cbn; exact Hca|done].
    + apply (below_step _ _ (set_child p (before ++ new :: after)) c); [apply L|cbn; rewrite elem_of_app, elem_of_cons; tauto|done].
  - assert (a <> new) by (intros ->; rewrite (lk_new L) in Hx; simplify_eq; rewrite (proj2 (lk_free L)) in Hc; by apply elem_of_nil in Hc).
    destruct (decide (a ∈ adopted)) as [Haa|Haa]; [eapply below_step; [exact (lk_adopted' L _ _ Haa Hx)|exact Hc|done]|].
    eapply below_step; [rewrite (lk_other L) by done; exact Hx|exact Hc|done].
Qed.

Lemma lk_below_new : below m' par new.
Proof. eapply below_step; [apply L|cbn; apply elem_of_app; right; by left|apply below_refl]. Qed.
End Linked.

(** ** The operations *)

Definition kids_ok (m : st) (l : list Z) : Prop := StronglySorted (apart m) l /\ forall c, c ∈ l -> exists x, m !! c = Some x /\ start x <= end_ x.

Lemma kids_of m rank a x : res_ok m rank -> m !! a = Some x -> kids_ok m (child x).
Proof.
  intros Hok Hx. split; [by eapply (ro_sorted _ _ Hok)|]. intros c Hc. destruct (child_parent _ _ _ _ _ Hok Hx Hc) as (y & Hy & _ & _ & Hr). by exists y.
Qed.

Lemma kids_suffix m b l : kids_ok m (b ++ l) -> kids_ok m l.
Proof. intros [Hs Hk]. split; [by apply StronglySorted_app in Hs as (_ & _ & Hs)|]. intros c Hc. apply Hk, elem_of_app. by right. Qed.

Lemma kids_cons m c l : kids_ok m (c :: l) -> exists x, m !! c = Some x /\ start x <= end_ x /\ kids_ok m l /\ forall d y, d ∈ l -> m !! d = Some y -> end_ x < start y.
Proof.
  intros [Hs Hk]. destruct (Hk c) as (x & Hx & Hr); [by left|]. inversion Hs as [|? ? Hs' Hc]; subst. rewrite Forall_forall in Hc. exists x. split; [done|]. split; [done|].
  split; [split; [done|]; intros d Hd; apply Hk; by right|]. intros d y Hd Hy. by eapply (Hc d Hd).
Qed.

Lemma scan_spec m cs i lo hi : kids_ok m cs -> match scan m cs i lo hi with
  | Some (inl j) => exists k, j = (i + k)%nat /\ (forall c x, c ∈ take k cs -> m !! c = Some x -> end_ x < lo) /\ (forall c x, c ∈ drop k cs -> m !! c = Some x -> hi < start x)
  | Some (inr c) => exists b r x, cs = b ++ c :: r /\ m !! c = Some x /\ lo <= end_ x /\ start x <= hi /\ forall d y, d ∈ b -> m !! d = Some y -> end_ y < lo
  | None => False
  end.
Proof.
  revert i. induction cs as [|c cs IH]; intros i Hk; cbn [scan].
  { exists 0%nat. split; [lia|]. split; intros ? ? []%elem_of_nil. }
  destruct (kids_cons _ _ _ Hk) as (x & Hx & Hr & Hk' & Hgt). rewrite Hx. cbn [mbind option_bind].
  destruct (Z.ltb_spec hi (start x)) as [H1|H1].
  { exists 0%nat. split; [lia|]. cbn [take drop]. split; [intros ? ? []%elem_of_nil|]. intros d y [->|Hd]%elem_of_cons Hy; [congruence|]. specialize (Hgt _ _ Hd Hy). lia. }
  destruct (Z.ltb_spec (end_ x) lo) as [H2|H2].
  - specialize (IH (S i) Hk'). destruct (scan m cs (S i) lo hi) as [[j|d]|]; [..|done].
    + destruct IH as (k & -> & Ht & Hd). exists (S k). split; [lia|]. cbn [take drop]. split; [|done]. intros d y [->|Hd']%elem_of_cons Hy; [congruence|eauto].
    + destruct IH as (b & r & y & -> & Hy & H3 & H4 & Hb). exists (c :: b), r, y. split; [done|]. split; [done|]. split; [done|]. split; [done|].
      intros e z [->|He]%elem_of_cons Hz; [congruence|eauto].
  - exists [], cs, x. split; [done|]. split; [done|]. split; [done|]. split; [done|]. intros ? ? []%elem_of_nil.
Qed.

(** A resource outside of the tree. *)
Definition detached (m : st) (new : Z) (n : resource) : Prop := m !! new = Some n /\ parent n = 0 /\ child n = [].

(** [__request_resource]: in place, out of range, or in conflict with a child. *)
Lemma request_spec m rank root new r n :
  res_ok m rank -> m !! root = Some r -> detached m new n -> new <> root ->
  (exists m' before after, __request_resource m root new = Some (0, m') /\ linked m m' root new before [] after r n) \/
  (__request_resource m root new = Some (root, m) /\ ~ (start n <= end_ n /\ within n r)) \/
  (exists c b l x, __request_resource m root new = Some (c, m) /\ start n <= end_ n /\ within n r /\ child r = b ++ c :: l /\ m !! c = Some x /\ overlap x n /\
    forall d y, d ∈ b -> m !! d = Some y -> end_ y < start n).
Proof.
  intros Hok Hr (Hn & Hp & Hc) Hne. unfold __request_resource. rewrite Hn. cbn [mbind option_bind]. rewrite Hr. cbn [mbind option_bind]. unfold within, overlap.
  destruct (Z.ltb_spec (end_ n) (start n)); [right; left; split; [done|lia]|]. destruct (Z.ltb_spec (start n) (start r)); [right; left; split; [done|lia]|].
  destruct (Z.ltb_spec (end_ r) (end_ n)); [right; left; split; [done|lia]|].
  pose proof (scan_spec m (child r) 0 (start n) (end_ n) (kids_of _ _ _ _ Hok Hr)) as Hs.
  destruct (scan m (child r) 0 (start n) (end_ n)) as [[j|c]|]; cbn [mbind option_bind]; [..|done].
  - left. destruct Hs as (k & -> & Ht & Hd). cbn [Nat.add]. eexists _, (take k (child r)), (drop k (child r)). split; [done|].
    split; try done; cbn [app]; try (by rewrite take_drop).
    + intros c x []%elem_of_nil.
    + rewrite lookup_insert_eq. rewrite <- Hc. done.
    + rewrite lookup_insert_ne by done. by rewrite lookup_insert_eq.
    + intros c x []%elem_of_nil.
    + intros a Ha Hb _. by rewrite !lookup_insert_ne.
  - right. right. destruct Hs as (b & l & x & Ec & Hx & H3 & H4 & Hb). exists c, b, l, x. split_and!; try done; lia.
Qed.

Lemma split_at_spec c b l : c ∉ b -> split_at c (b ++ c :: l) = (b, c :: l).
Proof.
  induction b as [|x b IH]; cbn; [by rewrite Z.eqb_refl|]. intros [H1 H2]%not_elem_of_cons. rewrite (proj2 (Z.eqb_neq x c)) by congruence. by rewrite IH.
Qed.

Lemma covered_cons m c d l lo hi : covered m (c :: d :: l) lo hi =
  x ← m !! c;
  if (start x <? lo) || (hi <? end_ x) then Some (inr c) else
  y ← m !! d;
  if hi <? start y then Some (inl 1%nat) else
  r ← covered m (d :: l) lo hi; Some (match r with inl k => inl (S k) | inr c => inr c end).
Proof. reflexivity. Qed.

(** From a child that meets the range on: those inside and then those behind it,
    or one that sticks out. *)
Lemma covered_spec m c l x lo hi :
  kids_ok m (c :: l) -> m !! c = Some x -> lo <= end_ x -> start x <= hi -> lo <= hi -> match covered m (c :: l) lo hi with
  | Some (inl k) => (forall d y, d ∈ take k (c :: l) -> m !! d = Some y -> lo <= start y /\ end_ y <= hi) /\ (forall d y, d ∈ drop k (c :: l) -> m !! d = Some y -> hi < start y)
  | Some (inr d) => exists y, d ∈ c :: l /\ m !! d = Some y /\ start y <= hi /\ lo <= end_ y /\ (start y < lo \/ hi < end_ y) /\ (d = c \/ lo < start y)
  | None => False
  end.
Proof.
  revert c x. induction l as [|d l IH]; intros c x Hk Hx H1 H2 H3; [cbn [covered]|rewrite covered_cons]; rewrite Hx; cbn [mbind option_bind];
    (destruct (Z.ltb_spec (start x) lo); [exists x; split_and!; [by left|done..|lia|by left]|]); (destruct (Z.ltb_spec hi (end_ x)); [exists x; split_and!; [by left|done..|lia|by left]|]); cbn [orb].
  { cbn [take drop]. split; [|intros ? ? []%elem_of_nil]. intros d y ->%list_elem_of_singleton Hy. simplify_eq. lia. }
  destruct (kids_cons _ _ _ Hk) as (x' & Hx' & Hr & Hk' & Hgt). simplify_eq. destruct (kids_cons _ _ _ Hk') as (y & Hy & Hry & Hk'' & Hgt'). rewrite Hy. cbn [mbind option_bind].
  pose proof (Hgt d y ltac:(by left) Hy). destruct (Z.ltb_spec hi (start y)) as [Hlt|Hge].
  - cbn [take drop]. split; [intros e z ->%list_elem_of_singleton Hz; simplify_eq; lia|]. intros e z [->|He]%elem_of_cons Hz; [simplify_eq; lia|]. specialize (Hgt' _ _ He Hz). lia.
  - specialize (IH d y Hk' Hy). destruct (covered m (d :: l) lo hi) as [[k|e]|]; cbn [mbind option_bind]; [..|by apply IH; lia].
    + destruct IH as [Ht Hd]; [lia..|]. cbn [take drop]. split; [|done]. intros e z [->|He]%elem_of_cons Hz; [simplify_eq; lia|by eapply Ht].
    + destruct IH as (z & He & Hz & H5 & H6 & H7 & H8); [lia..|]. exists z. split; [by right|]. split; [done|]. split; [done|]. split; [done|]. split; [done|].
      right. destruct H8 as [->|]; [simplify_eq; lia|lia].
Qed.

Lemma adopt_spec m l new : NoDup l -> (forall c, c ∈ l -> is_Some (m !! c)) -> exists m', adopt m l new = Some m' /\
  (forall c x, c ∈ l -> m !! c = Some x -> m' !! c = Some (set_parent x new)) /\ forall c, c ∉ l -> m' !! c = m !! c.
Proof.
  intros Hnd. revert m. induction Hnd as [|c l Hc Hnd IH]; intros m Hk; [exists m; split; [done|]; split; [intros ? ? []%elem_of_nil|done]|].
  destruct (Hk c) as [x Hx]; [by left|]. cbn [adopt]. rewrite Hx. cbn [mbind option_bind].
  destruct (IH (<[c := set_parent x new]> m)) as (m' & E & Ha & Ho).
  { intros d Hd. rewrite lookup_insert_ne; [apply Hk; by right|]. by intros ->. }
  exists m'. split; [done|]. split.
  - intros d y [->|Hd]%elem_of_cons Hy; [rewrite Ho by done; rewrite lookup_insert_eq; congruence|]. apply Ha; [done|]. rewrite lookup_insert_ne; [done|]. by intros ->.
  - intros d [Hd1 Hd2]%not_elem_of_cons. rewrite Ho by done. by rewrite lookup_insert_ne.
Qed.

(** A resource that overlaps another one in part. *)
Definition clash (x y : resource) : Prop := overlap x y /\ ~ within x y /\ ~ within y x.

(** The search for the place of [new] below [par]. *)
Lemma descend_spec fuel m rank par new p n :
  res_ok m rank -> m !! par = Some p -> detached m new n -> new <> par -> (rank par < fuel)%nat ->
  (exists m' q r before after, descend fuel m par new = Ret (inl (0, m')) /\ linked m m' q new before [] after r n /\ below m par q) \/
  (descend fuel m par new = Ret (inl (par, m)) /\ ~ (start n <= end_ n /\ within n p)) \/
  (exists q r c b l x, descend fuel m par new = Ret (inr (q, c)) /\ below m par q /\ m !! q = Some r /\ start n <= end_ n /\ within n r /\ child r = b ++ c :: l /\
    m !! c = Some x /\ overlap x n /\ (forall d y, d ∈ b -> m !! d = Some y -> end_ y < start n) /\ (within n x -> within x n)).
Proof.
  revert par p. induction fuel as [|fuel IH]; intros par p Hok Hp Hd Hne Hfuel; [lia|]. cbn [descend].
  destruct (request_spec m rank par new p n Hok Hp Hd Hne) as [(m' & before & after & E & L)|[(E & Hout)|(c & b & l & x & E & Hr & Hw & Ec & Hx & Ho & Hb)]]; rewrite E; cbn [lift mbind run_bind].
  - left. exists m', par, p, before, after. split; [done|]. split; [done|apply below_refl].
  - right. left. assert (par <> 0) by (intros ->; rewrite (ro_null _ _ Hok) in Hp; done). rewrite (proj2 (Z.eqb_neq par 0)), Z.eqb_refl by done. done.
  - assert (Hc : c ∈ child p) by (rewrite Ec; apply elem_of_app; right; by left). destruct (ro_child _ _ Hok _ _ _ Hp Hc) as (x' & Hx' & Hpx & _ & Hrk). simplify_eq.
    assert (Hc0 : c <> 0) by (intros ->; rewrite (ro_null _ _ Hok) in Hx; done). assert (Hcp : c <> parent x) by (intros E'; rewrite <- E' in Hrk; lia).
    assert (Hp0 : parent x <> 0) by (intros E'; rewrite E' in Hp; rewrite (ro_null _ _ Hok) in Hp; done).
    destruct Hd as (Hn & Hn0 & Hnc). assert (Hcn : c <> new) by (intros ->; rewrite Hn in Hx; simplify_eq).
    rewrite (proj2 (Z.eqb_neq c 0)), (proj2 (Z.eqb_neq c (parent x))), (proj2 (Z.eqb_neq c new)) by done. rewrite Hx. cbn [lift mbind run_bind]. rewrite Hn. cbn [lift mbind run_bind].
    assert (Hstay : (within n x -> within x n) -> exists q r c0 b0 l0 x0, Ret (inr (parent x, c)) = @Ret (Z * st + Z * Z) (inr (q, c0)) /\ below m (parent x) q /\ m !! q = Some r /\
      start n <= end_ n /\ within n r /\ child r = b0 ++ c0 :: l0 /\ m !! c0 = Some x0 /\ overlap x0 n /\ (forall d y, d ∈ b0 -> m !! d = Some y -> end_ y < start n) /\ (within n x0 -> within x0 n)).
    { intros Hi. exists (parent x), p, c, b, l, x. split; [done|]. split; [apply below_refl|]. auto 10. }
    unfold within in *. destruct (Z.ltb_spec (start n) (start x)); [right; right; apply Hstay; lia|]. destruct (Z.ltb_spec (end_ x) (end_ n)); [right; right; apply Hstay; lia|]. cbn [orb].
    destruct ((start x =? start n) && (end_ x =? end_ n)) eqn:Eq; [zbool; right; right; apply Hstay; lia|].
    assert (Hstep : forall q, below m c q -> below m (parent x) q) by (intros q Hq; by eapply below_step).
    destruct (IH c x Hok Hx (conj Hn (conj Hn0 Hnc)) ltac:(congruence) ltac:(lia))
      as [(m' & q & r & before & after & E' & L & Hq)|[(E' & Hout)|(q & r & d & b' & l' & y & E' & Hq & Hrest)]]; [|unfold within in Hout; lia|].
    + left. exists m', q, r, before, after. auto.
    + right. right. exists q, r, d, b', l', y. auto.
Qed.

(** The children before and after the ones a new resource takes over. *)
Lemma insert_links m rank q new r n c b l x k m1 :
  res_ok m rank -> m !! q = Some r -> detached m new n -> new <> q -> start n <= end_ n -> within n r -> child r = b ++ c :: l -> m !! c = Some x ->
  (forall d y, d ∈ b -> m !! d = Some y -> end_ y < start n) -> covered m (c :: l) (start n) (end_ n) = Some (inl k) -> overlap x n ->
  adopt (<[new := Res (start n) (end_ n) (flags n) q (take k (c :: l))]> m) (take k (c :: l)) new = Some m1 ->
  exists r1, m1 !! q = Some r1 /\ linked m (<[q := set_child r1 (b ++ new :: drop k (c :: l))]> m1) q new b (take k (c :: l)) (drop k (c :: l)) r n.
Proof.
  intros Hok Hr (Hn & Hn0 & Hnc) Hne Hrange Hw Ec Hx Hb Ek Ho Ea. pose proof (kids_of _ _ _ _ Hok Hr) as Hk. rewrite Ec in Hk.
  apply kids_suffix in Hk as Hk'.
  pose proof (covered_spec m c l x (start n) (end_ n) Hk' Hx) as Hcov. rewrite Ek in Hcov. destruct Hcov as [Hin Hout]; [unfold overlap in Ho; lia..|].
  assert (Hsub : forall d, d ∈ take k (c :: l) -> d ∈ child r) by (intros d Hd; rewrite Ec; apply elem_of_app; right; rewrite <- (take_drop k (c :: l)); apply elem_of_app; by left).
  assert (Hd : forall d, d ∈ take k (c :: l) -> d <> new /\ d <> q).
  { intros d Hd%Hsub. destruct (child_parent _ _ _ _ _ Hok Hr Hd) as (y & Hy & Hp & Hp0 & _). destruct (ro_child _ _ Hok _ _ _ Hr Hd) as (_ & _ & _ & _ & Hrk). split; [congruence|]. intros ->. lia. }
  assert (Hnd : NoDup (take k (c :: l))).
  { pose proof (ro_nodup _ _ Hok _ _ Hr) as Hnd. rewrite Ec, <- (take_drop k (c :: l)) in Hnd. apply NoDup_app in Hnd as (_ & _ & Hnd). by apply NoDup_app in Hnd as (Hnd & _). }
  destruct (adopt_spec (<[new := Res (start n) (end_ n) (flags n) q (take k (c :: l))]> m) (take k (c :: l)) new Hnd) as (m1' & Ea' & Had & Hother).
  { intros d Hd'. rewrite lookup_insert_ne by (intros E; destruct (Hd _ Hd'); congruence). destruct (child_parent _ _ _ _ _ Hok Hr (Hsub _ Hd')) as (y & Hy & _). by eexists. }
  rewrite Ea in Ea'. injection Ea' as <-.
  assert (Hq : m1 !! q = Some r) by (rewrite Hother by (intros Hq; by destruct (Hd _ Hq)); by rewrite lookup_insert_ne by done).
  exists r. split; [done|]. split; try done.
  - rewrite Ec. by rewrite take_drop.
  - rewrite lookup_insert_ne by done. rewrite Hother by (intros Hq'; by destruct (Hd _ Hq')). by rewrite lookup_insert_eq.
  - by rewrite lookup_insert_eq.
  - intros d y Hd' Hy. destruct (Hd d Hd') as [H1 H2]. rewrite lookup_insert_ne by done. apply Had; [done|]. by rewrite lookup_insert_ne.
  - intros a H1 H2 H3. rewrite lookup_insert_ne by done. rewrite Hother by done. by rewrite lookup_insert_ne.
Qed.

(** [dr_insert] puts a resource into the tree or says what it clashes with.  On
    success the tree is consistent, the new resource is below the given parent
    and above the resources it covers, every resource keeps its range and what
    was below another one still is.  Otherwise the tree is unchanged, and the
    new range is empty or leaves the parent, or the resource returned overlaps
    it in part. *)
Theorem dr_insert_correct fuel m rank par new p n :
  res_ok m rank -> m !! par = Some p -> detached m new n -> new <> par -> (rank par < fuel)%nat ->
  exists c m', dr_insert fuel m par new = Ret (c, m') /\
    ((c = 0 /\ (exists rank', res_ok m' rank') /\ below m' par new /\ (forall a b, below m a b -> below m' a b) /\
      (forall a x, m !! a = Some x -> exists x', m' !! a = Some x' /\ start x = start x' /\ end_ x = end_ x' /\ flags x = flags x')) \/
     (c <> 0 /\ m' = m /\ exists x, m !! c = Some x /\ ((c = par /\ ~ (start n <= end_ n /\ within n x)) \/ clash x n))).
Proof.
  intros Hok Hp Hd Hne Hfuel. unfold dr_insert, __insert_resource.
  assert (Hdone : forall m' q before adopted after r, linked m m' q new before adopted after r n -> below m par q ->
    (exists rank', res_ok m' rank') /\ below m' par new /\ (forall a b, below m a b -> below m' a b) /\
    (forall a x, m !! a = Some x -> exists x', m' !! a = Some x' /\ start x = start x' /\ end_ x = end_ x' /\ flags x = flags x')).
  { intros m' q before adopted after r L Hq. split; [eexists; by eapply link_ok|]. split.
    - eapply below_trans; [by eapply lk_below|by eapply lk_below_new].
    - split; [intros a b; by eapply lk_below|]. intros a x Hx. by eapply lk_same'. }
  destruct (descend_spec fuel m rank par new p n Hok Hp Hd Hne Hfuel)
    as [(m' & q & r & before & after & E & L & Hq)|[(E & Hout)|(q & r & c & b & l & x & E & Hq & Hr & Hrange & Hw & Ec & Hx & Ho & Hb & Hi)]]; rewrite E; cbn [mbind run_bind].
  - exists 0, m'. split; [done|]. left. split; [done|]. by eapply Hdone.
  - exists par, m. split; [done|]. right. split; [intros ->; by rewrite (ro_null _ _ Hok) in Hp|]. split; [done|]. exists p. auto.
  - rewrite Hr. cbn [lift mbind run_bind]. rewrite (proj1 Hd). cbn [lift mbind run_bind]. rewrite Ec.
    pose proof (ro_nodup _ _ Hok _ _ Hr) as Hnd. rewrite Ec in Hnd. apply NoDup_app in Hnd as (_ & Hbc & _).
    rewrite split_at_spec by (intros Hc; by eapply Hbc; [|left]).
    pose proof (kids_of _ _ _ _ Hok Hr) as Hk. rewrite Ec in Hk.
    apply kids_suffix in Hk as Hk'.
    pose proof (covered_spec m c l x (start n) (end_ n) Hk' Hx ltac:(unfold overlap in Ho; lia) ltac:(unfold overlap in Ho; lia) Hrange) as Hcov.
    destruct (covered m (c :: l) (start n) (end_ n)) as [[k|d]|] eqn:Ek; cbn [lift mbind run_bind]; [..|done].
    + assert (Hnq : new <> q).
      { intros <-. destruct Hd as (Hn & _ & Hnc). rewrite Hn in Hr. simplify_eq. rewrite Hnc in Ec. by destruct b. }
      destruct (adopt_spec (<[new := Res (start n) (end_ n) (flags n) q (take k (c :: l))]> m) (take k (c :: l)) new) as (m1 & Ea & _).
      { pose proof (ro_nodup _ _ Hok _ _ Hr) as Hnd'. rewrite Ec, <- (take_drop k (c :: l)) in Hnd'. apply NoDup_app in Hnd' as (_ & _ & Hnd'). by apply NoDup_app in Hnd' as (Hnd' & _). }
      { intros d Hd'. destruct (decide (new = d)) as [<-|]; [rewrite lookup_insert_eq; by eexists|]. rewrite lookup_insert_ne by done.
        destruct (proj2 Hk' d) as (y & Hy & _); [rewrite <- (take_drop k (c :: l)); apply elem_of_app; by left|by eexists]. }
      rewrite Ea. cbn [lift mbind run_bind].
      destruct (insert_links m rank q new r n c b l x k m1 Hok Hr Hd Hnq Hrange Hw Ec Hx Hb Ek Ho Ea) as (r1 & Hr1 & L). rewrite Hr1. cbn [lift mbind run_bind].
      eexists 0, _. split; [done|]. left. split; [done|]. by eapply Hdone.
    + destruct Hcov as (y & Hdl & Hy & H1 & H2 & H3 & H4). exists d, m. split; [done|]. right. split; [intros ->; by rewrite (ro_null _ _ Hok) in Hy|]. split; [done|].
      exists y. split; [done|]. right. unfold clash, overlap, within in *. split; [lia|]. split; [lia|]. destruct H4 as [->|]; [simplify_eq; lia|lia].
Qed.

(** ** Regions *)

Lemma add_detached m rank new lo hi fl : res_ok m rank -> m !! new = None -> new <> 0 -> res_ok (<[new := Res lo hi fl 0 []]> m) rank.
Proof.
  intros Hok Hn H0.
  assert (Hl : forall a x, <[new := Res lo hi fl 0 []]> m !! a = Some x -> (a = new /\ x = Res lo hi fl 0 []) \/ (a <> new /\ m !! a = Some x)) by (intros a x [[<- <-]|[? ?]]%lookup_insert_Some; auto).
  assert (Hk : forall c y, m !! c = Some y -> <[new := Res lo hi fl 0 []]> m !! c = Some y) by (intros c y Hy; rewrite lookup_insert_ne; [done|congruence]).
  split.
  - rewrite lookup_insert_ne by done. apply (ro_null _ _ Hok).
  - intros a x [[-> ->]|[_ Hx]]%Hl; [cbn; intros [[]|[]]; done|by eapply (ro_range _ _ Hok)].
  - intros a x c [[-> ->]|[_ Hx]]%Hl Hc; [by apply elem_of_nil in Hc|]. destruct (ro_child _ _ Hok _ _ _ Hx Hc) as (y & Hy & H). eauto.
  - intros c y [[-> ->]|[_ Hy]]%Hl Hp; [done|]. destruct (ro_parent _ _ Hok _ _ Hy Hp) as (x & Hx & Hc). eauto.
  - intros a x [[-> ->]|[_ Hx]]%Hl; [apply NoDup_nil_2|by eapply (ro_nodup _ _ Hok)].
  - intros a x [[-> ->]|[_ Hx]]%Hl; [constructor|]. eapply sorted_ext; [|by eapply (ro_sorted _ _ Hok)].
    intros c y Hc [[-> _]|[_ Hy]]%Hl; [|by exists y]. destruct (ro_child _ _ Hok _ _ _ Hx Hc) as (z & Hz & _). congruence.
Qed.

Lemma unique_child m rank a x c d q r : res_ok m rank -> m !! a = Some x -> c ∈ child x -> d ∈ child x -> below m c q -> below m d q -> m !! q = Some r -> start r <= end_ r -> c = d.
Proof.
  intros Hok Hx Hc Hd Hcq Hdq Hr Hrange. destruct (decide (c = d)) as [|Hne]; [done|exfalso].
  destruct (ro_child _ _ Hok _ _ _ Hx Hc) as (y & Hy & _), (ro_child _ _ Hok _ _ _ Hx Hd) as (z & Hz & _).
  pose proof (below_within _ _ _ _ _ _ Hok Hcq Hy Hr) as W1. pose proof (below_within _ _ _ _ _ _ Hok Hdq Hz Hr) as W2. unfold within in *.
  destruct (sorted_apart _ _ _ _ (ro_sorted _ _ Hok _ _ Hx) Hc Hd Hne) as [Hap|Hap]; [specialize (Hap _ _ Hy Hz)|specialize (Hap _ _ Hz Hy)]; lia.
Qed.

Definition busy (x : resource) : bool := negb (Z.land (flags x) IORESOURCE_BUSY =? 0).

(** The loop ends; on success the new region is linked below resources that are
    not busy. *)
Lemma region_loop_spec fuel m rank par res p n :
  res_ok m rank -> m !! par = Some p -> detached m res n -> res <> par -> (rank par < fuel)%nat ->
  (exists m' q before after r, region_loop fuel m par res = Ret (res, m') /\ linked m m' q res before [] after r n /\ below m par q /\
    forall a x, below m par a -> below m a q -> m !! a = Some x -> a = par \/ busy x = false) \/
  region_loop fuel m par res = Ret (0, delete res m).
Proof.
  revert par p. induction fuel as [|fuel IH]; intros par p Hok Hp Hd Hne Hfuel; [lia|]. cbn [region_loop]. pose proof (ro_null _ _ Hok) as H0.
  destruct (request_spec m rank par res p n Hok Hp Hd Hne) as [(m' & before & after & E & L)|[(E & Hout)|(c & b & l & x & E & Hr & Hw & Ec & Hx & Ho & Hb)]]; rewrite E; cbn [lift mbind run_bind].
  - left. exists m', par, before, after, p. split; [done|]. split; [done|]. split; [apply below_refl|]. intros a x Ha Hap Hx. left.
    inversion Ha as [|? y c ? Hy Hc Hca]; subst; [done|exfalso]. destruct (ro_child _ _ Hok _ _ _ Hy Hc) as (z & Hz & _ & _ & Hrk).
    pose proof (below_rank _ _ _ _ Hok Hca). pose proof (below_rank _ _ _ _ Hok Hap). lia.
  - right. rewrite (proj2 (Z.eqb_neq par 0)) by congruence. rewrite Hp. cbn [lift mbind run_bind]. by rewrite Z.eqb_refl.
  - assert (Hc : c ∈ child p) by (rewrite Ec; apply elem_of_app; right; by left). destruct (ro_child _ _ Hok _ _ _ Hp Hc) as (x' & Hx' & _ & _ & Hrk). simplify_eq.
    rewrite (proj2 (Z.eqb_neq c 0)) by congruence. rewrite Hx. cbn [lift mbind run_bind]. rewrite (proj2 (Z.eqb_neq c par)) by (intros ->; lia). cbn [negb andb].
    destruct (Z.land (flags x) IORESOURCE_BUSY =? 0) eqn:Eb; [|by right].
    assert (Hcr : res <> c) by (intros ->; destruct Hd as (Hn & Hn0 & _); destruct (child_parent _ _ _ _ _ Hok Hp Hc) as (y & Hy & _ & Hy0 & _); congruence).
    destruct (IH c x Hok Hx Hd Hcr ltac:(lia)) as [(m' & q & before & after & r & E' & L & Hq & Hfree)|E']; [left|by right].
    exists m', q, before, after, r. split; [done|]. split; [done|]. split; [by eapply below_step|]. intros a y Ha Haq Hy.
    inversion Ha as [|? z d ? Hz Hd' Hda]; subst; [by left|right]. rewrite Hp in Hz. simplify_eq.
    assert (Hdq : below m d q) by (by eapply below_trans).
    destruct (lk_within L) as [Hn Hnr]. assert (c = d) as <- by (eapply (unique_child m rank par z c d q r); try done; [apply L|unfold within in Hnr; lia]).
    destruct (Hfree a y Hda Haq Hy) as [->|]; [|done]. rewrite Hx in Hy. simplify_eq. unfold busy. by rewrite Eb.
Qed.

Section Leaf.
Context (m m' : st) (rank : Z -> nat) (q new : Z) (before after : list Z) (r n : resource).
Context (Hok : res_ok m rank) (L : linked m m' q new before [] after r n).

(** A resource of the new tree, apart from the new one. *)
Lemma leaf_child a x' c : m' !! a = Some x' -> c ∈ child x' -> (c = new /\ a = q) \/ (c <> new /\ exists x, m !! a = Some x /\ c ∈ child x).
Proof.
  intros Hx' Hc. destruct (lk_cases _ _ _ _ _ _ _ _ _ _ Hok L _ _ Hx') as [(-> & ->)|[(-> & ->)|[(x & _ & []%elem_of_nil & _)|(_ & _ & _ & Hx)]]].
  - by apply elem_of_nil in Hc.
  - cbn in Hc. destruct (decide (c = new)) as [->|Hne]; [by left|right]. split; [done|]. exists r. split; [apply L|]. rewrite (lk_split L). cbn. rewrite elem_of_app in Hc |- *. rewrite elem_of_cons in Hc. tauto.
  - right. split; [|eauto]. intros ->. by eapply (lk_not_child _ _ _ _ _ _ _ _ _ _ Hok L).
Qed.

Lemma leaf_below_old a b : below m' a b -> b <> new -> below m a b.
Proof.
  induction 1 as [|a x' c b Hx' Hc Hcb IH]; intros Hb; [apply below_refl|]. destruct (leaf_child _ _ _ Hx' Hc) as [[-> ->]|(Hcn & x & Hx & Hcx)]; [|eapply below_step; eauto].
  inversion Hcb as [|? y d ? Hy Hd _]; subst; [done|]. rewrite (lk_new' L) in Hy. simplify_eq. by apply elem_of_nil in Hd.
Qed.

Lemma leaf_below_new a b : below m' a b -> b = new -> a <> new -> below m a q.
Proof.
  induction 1 as [|a x' c b Hx' Hc Hcb IH]; intros Eb Ha; [done|]. destruct (leaf_child _ _ _ Hx' Hc) as [[-> ->]|(Hcn & x & Hx & Hcx)]; [apply below_refl|].
  eapply below_step; [done|done|by apply IH].
Qed.
End Leaf.

(** C27: [__request_region], by which drivers register the ports and the memory they
    use, returns.  On success the region is in the tree as busy, and every
    other resource below the parent that it overlaps contains it and, apart
    from the parent, is not busy: two drivers never get the same address.
    Otherwise nothing has changed. *)
Theorem request_region_exclusive fuel m rank par lo size fl res p :
  res_ok m rank -> m !! par = Some p -> m !! res = None -> res <> 0 -> (rank par < fuel)%nat ->
  exists c m', __request_region fuel m par lo size fl (Some res) = Ret (c, m') /\
    ((c = 0 /\ m' = m) \/
     (c = res /\ (exists rank', res_ok m' rank') /\ below m' par res /\
      (forall a x, m !! a = Some x -> exists x', m' !! a = Some x' /\ start x = start x' /\ end_ x = end_ x' /\ flags x = flags x') /\
      exists y, m' !! res = Some y /\ start y = lo /\ end_ y = wrap_size (lo + size - 1) /\ flags y = Z.lor IORESOURCE_BUSY fl /\
        forall a x, below m' par a -> a <> res -> m' !! a = Some x -> overlap x y -> below m' a res /\ (a = par \/ busy x = false))).
Proof.
  intros Hok Hp Hn H0 Hfuel. unfold __request_region. set (n := Res lo (wrap_size (lo + size - 1)) (Z.lor IORESOURCE_BUSY fl) 0 []). set (m0 := <[res := n]> m).
  assert (Hok0 : res_ok m0 rank) by (by apply add_detached). assert (Hne : res <> par) by congruence.
  assert (Hp0 : m0 !! par = Some p) by (unfold m0; by rewrite lookup_insert_ne).
  assert (Hd : detached m0 res n) by (split; [apply lookup_insert_eq|done]).
  destruct (region_loop_spec fuel m0 rank par res p n Hok0 Hp0 Hd Hne Hfuel) as [(m' & q & before & after & r & E & L & Hq & Hfree)|E].
  2:{ exists 0, m. unfold m0 in E. rewrite delete_insert_id in E by done. auto. }
  pose proof (link_ok _ _ _ _ _ _ _ _ _ _ Hok0 L) as Hok'.
  assert (Hbn : below m' par res) by (eapply below_trans; [by eapply lk_below|by eapply lk_below_new]).
  exists res, m'. split; [done|]. right. split; [done|]. split; [by eexists|]. split; [done|]. split.
  { intros a x Hx. apply (lk_same' _ _ _ _ _ _ _ _ _ L). unfold m0. rewrite lookup_insert_ne by congruence. done. }
  eexists. split; [apply L|]. cbn. split; [done|]. split; [done|]. split; [done|]. intros a x Ha Han Hx Ho.
  destruct (laminar _ _ _ _ _ _ _ Hok' Ha Hbn Hx (lk_new' L) Ho) as [Hab|Hba].
  - split; [done|]. destruct (lk_same _ _ _ _ _ _ _ _ _ _ Hok0 L _ _ Hx) as (x0 & Hx0 & _ & _ & Ef).
    destruct (Hfree a x0) as [->|Hb]; [by eapply leaf_below_old|by eapply leaf_below_new|done|by left|right]. unfold busy in *. by rewrite <- Ef.
  - exfalso. inversion Hba as [|? y d ? Hy Hd' _]; subst; [done|]. rewrite (lk_new' L) in Hy. simplify_eq. by apply elem_of_nil in Hd'.
Qed.

(** ** Adjusting *)

Lemma succ_of_spec c b l : c ∉ b -> succ_of c (b ++ c :: l) = head l.
Proof.
  induction b as [|x b IH]; cbn; [rewrite Z.eqb_refl; by destruct l|]. intros [H1 H2]%not_elem_of_cons. rewrite (proj2 (Z.eqb_neq x c)) by congruence. by apply IH.
Qed.

Lemma pred_of_spec c b l : c ∉ b -> pred_of c (b ++ c :: l) = Some (last b).
Proof.
  induction b as [|x b IH]; cbn [app pred_of]; [by rewrite Z.eqb_refl|]. intros [H1 H2]%not_elem_of_cons. rewrite (proj2 (Z.eqb_neq x c)) by congruence.
  destruct b as [|y b]; cbn [app] in *; [by rewrite Z.eqb_refl|]. apply not_elem_of_cons in H2 as H3. rewrite (proj2 (Z.eqb_neq y c)) by (destruct H3; congruence). rewrite IH by done. done.
Qed.

(** The tests against parent and neighbours hold exactly if the range is inside the
    parent and apart from the other children. *)
Lemma fits_parent_spec m rank res x lo hi :
  res_ok m rank -> m !! res = Some x -> exists a, fits_parent m res lo hi x = Some a /\
    (a = true -> parent x <> 0 -> exists p b l, m !! parent x = Some p /\ child p = b ++ res :: l /\ start p <= lo /\ hi <= end_ p /\
      (forall d y, d ∈ b -> m !! d = Some y -> end_ y < lo) /\ (forall d y, d ∈ l -> m !! d = Some y -> hi < start y)).
Proof.
  intros Hok Hx. unfold fits_parent. destruct (Z.eqb_spec (parent x) 0) as [|Hp0]; [by exists true|].
  destruct (ro_parent _ _ Hok _ _ Hx Hp0) as (p & Hp & Hc). rewrite Hp. cbn [mbind option_bind].
  destruct (Z.ltb_spec lo (start p)); [by exists false|]. destruct (Z.ltb_spec (end_ p) hi); [by exists false|]. cbn [orb].
  apply list_elem_of_split in Hc as (b & l & Ec). pose proof (ro_nodup _ _ Hok _ _ Hp) as Hnd. rewrite Ec in *. apply NoDup_app in Hnd as (_ & Hb & _).
  assert (Hrb : res ∉ b) by (intros Hr; by eapply Hb; [|left]). rewrite succ_of_spec, pred_of_spec by done.
  pose proof (kids_of _ _ _ _ Hok Hp) as Hk. rewrite Ec in Hk. pose proof Hk as [Hs Hkn]. apply kids_suffix in Hk as Hkl. change (res :: l) with ([res] ++ l) in Hkl. apply kids_suffix in Hkl.
  assert (Hnext : exists t, match head l with None => Some false | Some d => y ← m !! d; Some (start y <=? hi) end = Some t /\
    (t = false -> forall d y, d ∈ l -> m !! d = Some y -> hi < start y)).
  { destruct l as [|d l]; cbn [head]; [exists false; split; [done|]; intros _ ? ? []%elem_of_nil|]. destruct (kids_cons _ _ _ Hkl) as (y & Hy & Hr & _ & Hgt).
    rewrite Hy. cbn. eexists. split; [done|]. intros Ht e z [->|He]%elem_of_cons Hz; zbool; [congruence|]. specialize (Hgt _ _ He Hz). lia. }
  assert (Hprev : exists t, match last b with None => Some true | Some d => y ← m !! d; Some (negb (lo <=? end_ y)) end = Some t /\
    (t = true -> forall d y, d ∈ b -> m !! d = Some y -> end_ y < lo)).
  { destruct (last b) as [d|] eqn:El; [|apply last_None in El as ->; exists true; split; [done|]; intros _ ? ? []%elem_of_nil]. apply last_Some in El as (b' & ->).
    destruct (Hkn d) as (y & Hy & Hr); [rewrite !elem_of_app; left; right; by left|]. rewrite Hy. cbn. eexists. split; [done|]. intros Ht e z He Hz. zbool.
    apply elem_of_app in He as [He|He%list_elem_of_singleton]; [|subst; by simplify_eq].
    rewrite <- app_assoc in Hs. apply StronglySorted_app in Hs as (Hs & _). specialize (Hs e d He ltac:(by left) _ _ Hz Hy). lia. }
  destruct Hnext as ([] & -> & Hn); cbn [mbind option_bind]; [by exists false|]. destruct Hprev as (t & -> & Hv). exists t. split; [done|]. intros -> _. exists p, b, l. split_and!; try done; [by apply Hv|by apply Hn].
Qed.

Lemma fits_children_spec m l lo hi : (forall c, c ∈ l -> is_Some (m !! c)) -> exists b, fits_children m l lo hi = Some b /\
  (b = true -> forall c y, c ∈ l -> m !! c = Some y -> lo <= start y /\ end_ y <= hi).
Proof.
  induction l as [|c l IH]; intros Hk; cbn; [exists true; split; [done|]; intros _ ? ? []%elem_of_nil|]. destruct (Hk c) as [y Hy]; [by left|]. rewrite Hy. cbn.
  destruct (Z.ltb_spec (start y) lo); [by exists false|]. destruct (Z.ltb_spec hi (end_ y)); [by exists false|]. cbn [orb].
  destruct IH as (b & E & Hb); [intros d Hd; apply Hk; by right|]. exists b. split; [done|]. intros Ht d z [->|Hd]%elem_of_cons Hz; [simplify_eq; lia|by eapply Hb].
Qed.

(** [dr_adjust_resource] to a range that is not empty keeps the tree consistent; it
    fails without a change when the range would leave the parent, meet a
    neighbour or not contain the children. *)
Theorem dr_adjust_correct m rank res x lo size :
  res_ok m rank -> m !! res = Some x -> 0 <= lo -> 0 < size -> lo + size <= 18446744073709551616 ->
  exists e m', dr_adjust_resource m res lo size = Some (e, m') /\
    ((e = - EBUSY /\ m' = m) \/ (e = 0 /\ res_ok m' rank /\ m' = <[res := Res lo (lo + size - 1) (flags x) (parent x) (child x)]> m)).
Proof.
  intros Hok Hx Hlo Hsize Hend. unfold dr_adjust_resource. rewrite Hx. cbn [mbind option_bind].
  replace (wrap_size (lo + size - 1)) with (lo + size - 1) by (unfold wrap_size; rewrite Z.mod_small; lia). set (hi := lo + size - 1).
  destruct (fits_parent_spec m rank res x lo hi Hok Hx) as (a & Ea & Ha). rewrite Ea. cbn [mbind option_bind]. destruct a; cbn [negb]; [|by eauto 6].
  destruct (fits_children_spec m (child x) lo hi) as (b & Eb & Hb); [intros c Hc; destruct (child_parent _ _ _ _ _ Hok Hx Hc) as (y & Hy & _); by eexists|].
  rewrite Eb. cbn [mbind option_bind]. destruct b; cbn [negb]; [|by eauto 6]. specialize (Ha eq_refl). specialize (Hb eq_refl).
  eexists _, _. split; [done|]. right. split; [done|]. split; [|done]. set (x' := Res lo hi (flags x) (parent x) (child x)).
  assert (Hc : forall c y', <[res := x']> m !! c = Some y' -> exists y, m !! c = Some y /\ parent y' = parent y /\ child y' = child y /\ (c <> res -> y' = y)).
  { intros c y' [[<- <-]|[Hne Hy]]%lookup_insert_Some; [exists x; done|exists y'; done]. }
  assert (Hl : forall c y, m !! c = Some y -> c <> res -> <[res := x']> m !! c = Some y) by (intros c y Hy Hne; by rewrite lookup_insert_ne).
  split.
  - rewrite lookup_insert_ne by (intros ->; rewrite (ro_null _ _ Hok) in Hx; done). apply (ro_null _ _ Hok).
  - intros c y' [[<- <-]|[Hne Hy]]%lookup_insert_Some Hor; [cbn; lia|by eapply (ro_range _ _ Hok)].
  - intros c y' d Hy' Hd. destruct (decide (c = res)) as [->|Hne].
    + rewrite lookup_insert_eq in Hy'. injection Hy' as <-. destruct (ro_child _ _ Hok _ _ _ Hx Hd) as (z & Hz & Hp & _ & Hr). exists z. split; [apply Hl; [done|intros ->; lia]|].
      split; [done|]. split; [by apply (Hb _ _ Hd Hz)|done].
    + rewrite lookup_insert_ne in Hy' by done. destruct (ro_child _ _ Hok _ _ _ Hy' Hd) as (z & Hz & Hp & Hw & Hr). destruct (decide (d = res)) as [->|Hdr]; [|exists z; auto].
      rewrite Hx in Hz. injection Hz as <-. exists x'. rewrite lookup_insert_eq. split; [done|]. split; [done|]. split; [|done].
      assert (Hp0 : parent x <> 0) by (rewrite Hp; intros ->; rewrite (ro_null _ _ Hok) in Hy'; done). destruct (Ha Hp0) as (p & b & l & Hpp & _ & H1 & H2 & _).
      rewrite Hp, Hy' in Hpp. injection Hpp as <-. done.
  - intros c y' (y & Hy & Ep & _)%Hc Hp0. rewrite Ep in *. destruct (ro_parent _ _ Hok _ _ Hy Hp0) as (z & Hz & Hin).
    destruct (decide (parent y = res)) as [E|]; [|exists z; auto]. rewrite E in *. rewrite Hx in Hz. injection Hz as <-. exists x'. by rewrite lookup_insert_eq.
  - intros c y' (y & Hy & _ & -> & _)%Hc. by eapply (ro_nodup _ _ Hok).
  - assert (Hext : forall l, res ∉ l -> StronglySorted (apart m) l -> StronglySorted (apart (<[res := x']> m)) l).
    { intros l Hl'. apply sorted_ext. intros d z Hd Hz. rewrite lookup_insert_ne in Hz by (intros ->; done). by exists z. }
    intros c y' (y & Hy & _ & -> & _)%Hc. pose proof (ro_sorted _ _ Hok _ _ Hy) as Hs. destruct (decide (res ∈ child y)) as [Hin|Hin]; [|by apply Hext].
    destruct (ro_child _ _ Hok _ _ _ Hy Hin) as (x0 & Hx0 & Hp & _). rewrite Hx in Hx0. injection Hx0 as <-.
    assert (Hp0 : parent x <> 0) by (rewrite Hp; intros ->; rewrite (ro_null _ _ Hok) in Hy; done). destruct (Ha Hp0) as (p & b & l & Hpp & Ec & _ & _ & H3 & H4).
    rewrite Hp, Hy in Hpp. injection Hpp as <-. pose proof (ro_nodup _ _ Hok _ _ Hy) as Hnd. rewrite Ec in *.
    apply NoDup_app in Hnd as (_ & Hnb & [Hnl _]%NoDup_cons). assert (Hrb : res ∉ b) by (intros Hr; by eapply Hnb; [|left]).
    apply StronglySorted_app in Hs as (Hbl & Hsb & Hsl). inversion Hsl as [|? ? Hsl' _]; subst. apply StronglySorted_app. split; [|split; [by apply Hext|]].
    + intros d e Hd He u v Hu Hv. rewrite lookup_insert_ne in Hu by (intros ->; done). destruct (decide (e = res)) as [->|Hne].
      * rewrite lookup_insert_eq in Hv. injection Hv as <-. by eapply H3.
      * rewrite lookup_insert_ne in Hv by done. by eapply (Hbl d e).
    + constructor; [by apply Hext|]. rewrite Forall_forall. intros e He u v Hu Hv. rewrite lookup_insert_eq in Hu. injection Hu as <-.
      rewrite lookup_insert_ne in Hv by (intros ->; done). by eapply H4.
Qed.

(** ** Examples *)

(** The roots when the system starts. *)
Lemma initial_ok io mem : io <> 0 -> mem <> 0 -> io <> mem -> res_ok (initial_resources io mem) (fun _ => 0%nat).
Proof.
  intros H1 H2 H3. assert (Hl : forall a x, initial_resources io mem !! a = Some x -> parent x = 0 /\ child x = []).
  { intros a x. unfold initial_resources. rewrite lookup_insert_Some. intros [[_ <-]|[_ [_ <-]%lookup_singleton_Some]]; done. }
  split.
  - unfold initial_resources. rewrite lookup_insert_ne, lookup_singleton_ne by done. done.
  - intros a x [Hp Hc]%Hl [|]; congruence.
  - intros a x c [_ ->]%Hl []%elem_of_nil.
  - intros c y [Hp _]%Hl. done.
  - intros a x [_ ->]%Hl. apply NoDup_nil_2.
  - intros a x [_ ->]%Hl. constructor.
Qed.

(** The keyboard asks for its ports. *)
Lemma request_region_witness : exists c m' : _, __request_region 1 (initial_resources 1 2) 1 0x60 16 0 (Some 9) = Ret (c, m') /\
  ((c = 0 /\ m' = initial_resources 1 2) \/ (c = 9 /\ below m' 1 9)).
Proof.
  destruct (request_region_exclusive 1 (initial_resources 1 2) (fun _ => 0%nat) 1 0x60 16 0 9 (Res 0 IO_SPACE_LIMIT IORESOURCE_IO 0 [])) as (c & m' & E & Hc).
  - apply initial_ok; discriminate.
  - reflexivity.
  - reflexivity.
  - discriminate.
  - lia.
  - exists c, m'. split; [exact E|]. destruct Hc as [H|(H1 & _ & H2 & _)]; [left; exact H|right; split; [exact H1|exact H2]].
Defined.

(** Ports 0x60 to 0x6f, and 0x40 to 0x7f outside of the tree. *)
Definition ex_ports : st := {[ 1 := Res 0 0xffff 0x100 0 [2]; 2 := Res 0x60 0x6f 0x80000000 1 []; 3 := Res 0x40 0x7f 0 0 [] ]}.
Definition ex_rank (a : Z) : nat := if a =? 1 then 1 else 0.

Lemma ex_ports_ok : res_ok ex_ports ex_rank.
Proof.
  assert (Hl : forall a x, ex_ports !! a = Some x -> (a = 1 /\ x = Res 0 0xffff 0x100 0 [2]) \/ (a = 2 /\ x = Res 0x60 0x6f 0x80000000 1 []) \/ (a = 3 /\ x = Res 0x40 0x7f 0 0 [])).
  { intros a x Hx. unfold ex_ports in Hx. apply lookup_insert_Some in Hx as [[<- <-]|[_ Hx]]; [auto|].
    apply lookup_insert_Some in Hx as [[<- <-]|[_ Hx]]; [auto|]. apply lookup_singleton_Some in Hx as [<- <-]. auto. }
  split.
  - reflexivity.
  - intros a x [[-> ->]|[[-> ->]|[-> ->]]]%Hl _; cbn; lia.
  - intros a x c [[-> ->]|[[-> ->]|[-> ->]]]%Hl Hc; [|by apply elem_of_nil in Hc..]. apply list_elem_of_singleton in Hc as ->. eexists. split; [reflexivity|].
    split; [done|]. split; [unfold within; cbn; lia|]. unfold ex_rank. cbn. lia.
  - intros c y [[-> ->]|[[-> ->]|[-> ->]]]%Hl Hp; try done. eexists. split; [reflexivity|]. by apply list_elem_of_singleton.
  - intros a x [[-> ->]|[[-> ->]|[-> ->]]]%Hl; [apply NoDup_singleton|apply NoDup_nil_2..].
  - intros a x [[-> ->]|[[-> ->]|[-> ->]]]%Hl; repeat constructor.
Qed.

Lemma dr_insert_witness : exists c m', dr_insert 2 ex_ports 1 3 = Ret (c, m') /\ ((c = 0 /\ below m' 1 3) \/ (c <> 0 /\ m' = ex_ports)).
Proof.
  destruct (dr_insert_correct 2 ex_ports ex_rank 1 3 (Res 0 0xffff 0x100 0 [2]) (Res 0x40 0x7f 0 0 [])) as (c & m' & E & Hc).
  - exact ex_ports_ok.
  - reflexivity.
  - split; [reflexivity|]. split; reflexivity.
  - discriminate.
  - vm_compute. lia.
  - exists c, m'. split; [exact E|]. destruct Hc as [(H1 & _ & H2 & _)|(H1 & H2 & _)]; [left|right]; split; assumption.
Defined.

(** The new resource covers the old one. *)
Example insert_covers : exists m' x y, dr_insert 2 ex_ports 1 3 = Ret (0, m') /\ m' !! 3 = Some x /\ child x = [2] /\ m' !! 2 = Some y /\ parent y = 3.
Proof. eexists _, _, _. split; [vm_compute; reflexivity|]. split; [vm_compute; reflexivity|]. split; [reflexivity|]. split; [vm_compute; reflexivity|]. reflexivity. Qed.

(** *** Where the code does not do what it means to *)

(** A size of 0 passes all tests of [dr_adjust_resource] and gives an empty range. *)
Theorem adjust_to_nothing : exists m' x, dr_adjust_resource ex_ports 2 0x60 0 = Some (0, m') /\ m' !! 2 = Some x /\ end_ x < start x.
Proof. eexists _, _. split; [vm_compute; reflexivity|]. split; [vm_compute; reflexivity|]. cbn. lia. Qed.

(** A type that is neither ports nor memory has no root. *)
Theorem register_unknown_type_faults fuel m rank io mem type lo size fl res :
  res_ok m rank -> type <> 0 -> type <> 1 -> res <> 0 -> dr_register (S fuel) m io mem type lo size fl (Some res) = Fault.
Proof.
  intros Hok H1 H2 Hr. unfold dr_register, dr_get_constance_resource, DR_RESOURCE_TYPE_IO, DR_RESOURCE_TYPE_MEM. rewrite !(proj2 (Z.eqb_neq _ _)) by done.
  unfold __request_region. cbn [region_loop]. unfold __request_resource. rewrite lookup_insert_eq. cbn [mbind option_bind]. rewrite lookup_insert_ne by done.
  by rewrite (ro_null _ _ Hok).
Qed.
