(* ===== verification/Irq.v ===== *)
(** * Interrupt lines

    [source/drivers/hal/irq]: the descriptors of the interrupt lines
    ([irqdesc.c]), their chips ([chip.c], [dummychip.c]), the flow of an
    interrupt and its handlers ([handle.c], [spurious.c], [resend.c]), requesting,
    freeing, enabling and disabling a line ([manage.c], [hal.c]) and the
    accessors of [settings.h] and [internals.h].

    A line is known by its number, a chip and an [irqaction] by their address.
    The functions of a chip work on the state [D] of the hardware, the handlers
    of drivers on the whole state, of which [W] is the part this layer does not
    know.  A pointer that is NULL or dangling is a [Fault]; a spin lock that is
    held is [NoFuel].  [trace] has the calls of handlers and of deferred
    procedures and the requests for the latter, in order; no code reads it. *)

From stdpp Require Import gmap strings.
From S2P Require Import Prelude.
Local Open Scope c_scope.

Definition NR_IRQS : Z := 128.
Definition EINVAL : Z := 22.
Definition ENOMEM : Z := 12.
Definition EBUSY : Z := 16.
Definition ENOSYS : Z := 38.

Definition IRQ_NONE : Z := 0.
Definition IRQ_HANDLED : Z := 1.
Definition IRQ_WAKE_THREAD : Z := 2.

(** [irq_desc.status_use_accessors] *)
Definition IRQ_TYPE_NONE : Z := 0.
Definition IRQ_TYPE_LEVEL_MASK : Z := 0xc.
Definition IRQ_TYPE_SENSE_MASK : Z := 0xf.
Definition IRQ_LEVEL : Z := 0x100.
Definition IRQ_PER_CPU : Z := 0x200.
Definition IRQ_NOPROBE : Z := 0x400.
Definition IRQ_NOREQUEST : Z := 0x800.
Definition IRQ_NOAUTOEN : Z := 0x1000.
Definition IRQ_NO_BALANCING : Z := 0x2000.
Definition IRQ_MOVE_PCNTXT : Z := 0x4000.
Definition IRQ_NESTED_THREAD : Z := 0x8000.
Definition IRQ_NOTHREAD : Z := 0x10000.
Definition IRQ_PER_CPU_DEVID : Z := 0x20000.
Definition IRQ_DEFAULT_INIT_FLAGS : Z := 0.
Definition IRQF_MODIFY_MASK : Z := 0x3ff0f.

(** [irqaction.flags] *)
Definition IRQF_TRIGGER_MASK : Z := 0xf.
Definition IRQF_SHARED : Z := 0x80.
Definition IRQF_PERCPU : Z := 0x400.
Definition IRQF_NOBALANCING : Z := 0x800.
Definition IRQF_ONESHOT : Z := 0x2000.
Definition IRQF_NO_SUSPEND : Z := 0x4000.
Definition IRQF_FORCE_RESUME : Z := 0x8000.
Definition IRQF_NO_THREAD : Z := 0x10000.

(** [irq_data.state_use_accessors] *)
Definition IRQD_TRIGGER_MASK : Z := 0xf.
Definition IRQD_NO_BALANCING : Z := 0x400.
Definition IRQD_PER_CPU : Z := 0x800.
Definition IRQD_LEVEL : Z := 0x2000.
Definition IRQD_IRQ_DISABLED : Z := 0x10000.
Definition IRQD_IRQ_MASKED : Z := 0x20000.
Definition IRQD_IRQ_INPROGRESS : Z := 0x40000.

(** [irq_desc.istate] *)
Definition IRQS_AUTODETECT : Z := 1.
Definition IRQS_SPURIOUS_DISABLED : Z := 2.
Definition IRQS_POLL_INPROGRESS : Z := 8.
Definition IRQS_ONESHOT : Z := 0x20.
Definition IRQS_REPLAY : Z := 0x40.
Definition IRQS_WAITING : Z := 0x80.
Definition IRQS_PENDING : Z := 0x200.
Definition IRQS_SUSPENDED : Z := 0x800.

Definition IRQCHIP_SET_TYPE_MASKED : Z := 1.
Definition IRQ_SET_MASK_OK : Z := 0.
Definition IRQ_SET_MASK_OK_NOCOPY : Z := 1.

(** [x & mask] as a truth value, [x | mask], [x &= ~mask]. *)
Definition has (x mask : Z) : bool := negb (Z.land x mask =? 0).
Definition with_bits (x mask : Z) : Z := Z.lor x mask.
Definition without (x mask : Z) : Z := Z.land x (w_not mask).

Record irq_data := Data {
  irq : Z;
  state : Z;                       (* state_use_accessors *)
  chip : Z;                        (* 0 is NULL *)
  handler_data : Z;
  chip_data : Z
}.

(** [irq_flow_handler_t]: the flows of this layer. *)
Inductive irq_flow := handle_bad_irq | handle_level | handle_percpu.

(** [irq_handler_t]: the handlers of this layer, and those of drivers. *)
Inductive irq_handler := no_action | irq_default_primary_handler | Driver (f : Z).

Record irqaction := Action {
  handler : irq_handler;
  dev_id : Z;
  next : Z;
  thread_fn : option irq_handler;
  act_irq : Z;
  flags : Z
}.

Record irq_desc := Desc {
  data : irq_data;
  handle_irq : irq_flow;
  action : Z;
  status : Z;                      (* status_use_accessors *)
  istate : Z;
  depth : Z;
  threads_oneshot : Z;
  lock : bool
}.

(** [struct irq_chip]: what this layer calls; [None] is NULL. *)
Record irq_chip (D : Type) := Chip {
  irq_startup_op : option (irq_data -> D -> Z * D);
  irq_shutdown_op : option (irq_data -> D -> D);
  irq_enable_op : option (irq_data -> D -> D);
  irq_disable_op : option (irq_data -> D -> D);
  irq_ack_op : option (irq_data -> D -> D);
  irq_mask_op : option (irq_data -> D -> D);
  irq_mask_ack_op : option (irq_data -> D -> D);
  irq_unmask_op : option (irq_data -> D -> D);
  irq_eoi_op : option (irq_data -> D -> D);
  irq_retrigger_op : option (irq_data -> D -> Z * D);
  irq_set_type_op : option (irq_data -> Z -> D -> Z * irq_data * D);
  irq_bus_lock_op : option (irq_data -> D -> D);
  irq_bus_sync_unlock_op : option (irq_data -> D -> D);
  chip_flags : Z
}.
Arguments Chip {D}.
Arguments irq_startup_op {D}. Arguments irq_shutdown_op {D}. Arguments irq_enable_op {D}.
Arguments irq_disable_op {D}. Arguments irq_ack_op {D}. Arguments irq_mask_op {D}.
Arguments irq_mask_ack_op {D}. Arguments irq_unmask_op {D}. Arguments irq_eoi_op {D}.
Arguments irq_retrigger_op {D}. Arguments irq_set_type_op {D}. Arguments irq_bus_lock_op {D}.
Arguments irq_bus_sync_unlock_op {D}. Arguments chip_flags {D}.

(** The addresses of the chips of [dummychip.c]. *)
Definition no_irq_chip : Z := 0x1000.
Definition dummy_irq_chip : Z := 0x1100.

Inductive event := Handled (act : Z) | Raised (nr : Z) | Deferred (nr : Z).

#[global] Instance event_eq_dec : EqDecision event.
Proof. solve_decision. Defined.

Record isys (D W : Type) := ISys {
  descs : gmap Z irq_desc;
  acts : gmap Z irqaction;
  chips : gmap Z (irq_chip D);
  dev : D;
  wld : W;
  irqs_on : bool;                  (* the interrupt flag of the CPU *)
  preempt_count : Z;
  dpc_irq_pending : Z;
  dpc_irq_vec : gmap Z Z;          (* no entry is NULL *)
  trace : list event
}.
Arguments ISys {D W}.
Arguments descs {D W}. Arguments acts {D W}. Arguments chips {D W}. Arguments dev {D W}. Arguments wld {D W}.
Arguments irqs_on {D W}. Arguments preempt_count {D W}. Arguments dpc_irq_pending {D W}. Arguments dpc_irq_vec {D W}. Arguments trace {D W}.

Module IrqOps.

(** ** [settings.h], [internals.h]: flags of a descriptor *)

Definition set_state (d : irq_desc) (x : Z) : irq_desc :=
  Desc (Data (irq (data d)) x (chip (data d)) (handler_data (data d)) (chip_data (data d))) (handle_irq d) (action d) (status d) (istate d) (depth d) (threads_oneshot d) (lock d).
Definition set_data (d : irq_desc) (x : irq_data) : irq_desc := Desc x (handle_irq d) (action d) (status d) (istate d) (depth d) (threads_oneshot d) (lock d).
Definition set_flow (d : irq_desc) (x : irq_flow) : irq_desc := Desc (data d) x (action d) (status d) (istate d) (depth d) (threads_oneshot d) (lock d).
Definition set_action (d : irq_desc) (x : Z) : irq_desc := Desc (data d) (handle_irq d) x (status d) (istate d) (depth d) (threads_oneshot d) (lock d).
Definition set_status (d : irq_desc) (x : Z) : irq_desc := Desc (data d) (handle_irq d) (action d) x (istate d) (depth d) (threads_oneshot d) (lock d).
Definition set_istate (d : irq_desc) (x : Z) : irq_desc := Desc (data d) (handle_irq d) (action d) (status d) x (depth d) (threads_oneshot d) (lock d).
Definition set_depth (d : irq_desc) (x : Z) : irq_desc := Desc (data d) (handle_irq d) (action d) (status d) (istate d) x (threads_oneshot d) (lock d).
Definition set_lock (d : irq_desc) (x : bool) : irq_desc := Desc (data d) (handle_irq d) (action d) (status d) (istate d) (depth d) (threads_oneshot d) x.

Definition irqd_set (d : irq_desc) (mask : Z) : irq_desc := set_state d (with_bits (state (data d)) mask).
Definition irqd_clear (d : irq_desc) (mask : Z) : irq_desc := set_state d (without (state (data d)) mask).
Definition irqd_get_trigger_type (d : irq_desc) : Z := Z.land (state (data d)) IRQD_TRIGGER_MASK.
Definition irqd_irq_disabled (d : irq_desc) : bool := has (state (data d)) IRQD_IRQ_DISABLED.
Definition irqd_irq_masked (d : irq_desc) : bool := has (state (data d)) IRQD_IRQ_MASKED.
Definition irqd_irq_inprogress (d : irq_desc) : bool := has (state (data d)) IRQD_IRQ_INPROGRESS.

Definition irq_settings_clr_and_set (d : irq_desc) (clr set : Z) : irq_desc :=
  set_status d (with_bits (without (status d) (Z.land clr IRQF_MODIFY_MASK)) (Z.land set IRQF_MODIFY_MASK)).
Definition irq_settings_set_per_cpu (d : irq_desc) : irq_desc := set_status d (with_bits (status d) IRQ_PER_CPU).
Definition irq_settings_set_no_balancing (d : irq_desc) : irq_desc := set_status d (with_bits (status d) IRQ_NO_BALANCING).
Definition irq_settings_set_trigger_mask (d : irq_desc) (mask : Z) : irq_desc :=
  set_status d (with_bits (without (status d) IRQ_TYPE_SENSE_MASK) (Z.land mask IRQ_TYPE_SENSE_MASK)).
Definition irq_settings_is_level (d : irq_desc) : bool := has (status d) IRQ_LEVEL.
Definition irq_settings_clr_level (d : irq_desc) : irq_desc := set_status d (without (status d) IRQ_LEVEL).
Definition irq_settings_set_level (d : irq_desc) : irq_desc := set_status d (with_bits (status d) IRQ_LEVEL).
Definition irq_settings_can_request (d : irq_desc) : bool := negb (has (status d) IRQ_NOREQUEST).
Definition irq_settings_set_noprobe (d : irq_desc) : irq_desc := set_status d (with_bits (status d) IRQ_NOPROBE).
Definition irq_settings_can_autoenable (d : irq_desc) : bool := negb (has (status d) IRQ_NOAUTOEN).

Section Irq.
Context {D W : Type}.
Notation st := (isys D W).

Definition set_descs (s : st) x : st := ISys x (acts s) (chips s) (dev s) (wld s) (irqs_on s) (preempt_count s) (dpc_irq_pending s) (dpc_irq_vec s) (trace s).
Definition set_acts (s : st) x : st := ISys (descs s) x (chips s) (dev s) (wld s) (irqs_on s) (preempt_count s) (dpc_irq_pending s) (dpc_irq_vec s) (trace s).
Definition set_dev (s : st) x : st := ISys (descs s) (acts s) (chips s) x (wld s) (irqs_on s) (preempt_count s) (dpc_irq_pending s) (dpc_irq_vec s) (trace s).
Definition set_irqs (s : st) x : st := ISys (descs s) (acts s) (chips s) (dev s) (wld s) x (preempt_count s) (dpc_irq_pending s) (dpc_irq_vec s) (trace s).
Definition set_count (s : st) x : st := ISys (descs s) (acts s) (chips s) (dev s) (wld s) (irqs_on s) x (dpc_irq_pending s) (dpc_irq_vec s) (trace s).
Definition set_pending (s : st) x : st := ISys (descs s) (acts s) (chips s) (dev s) (wld s) (irqs_on s) (preempt_count s) x (dpc_irq_vec s) (trace s).
Definition set_vec (s : st) x : st := ISys (descs s) (acts s) (chips s) (dev s) (wld s) (irqs_on s) (preempt_count s) (dpc_irq_pending s) x (trace s).
Definition log (s : st) (e : event) : st := ISys (descs s) (acts s) (chips s) (dev s) (wld s) (irqs_on s) (preempt_count s) (dpc_irq_pending s) (dpc_irq_vec s) (trace s ++ [e]).
Definition set_chips (s : st) x : st := ISys (descs s) (acts s) x (dev s) (wld s) (irqs_on s) (preempt_count s) (dpc_irq_pending s) (dpc_irq_vec s) (trace s).

(** The descriptor behind a pointer, and a change of it. *)
Definition desc_of (s : st) (i : Z) : run irq_desc := lift (descs s !! i).
Definition upd (s : st) (i : Z) (f : irq_desc -> irq_desc) : run st :=
  d ← desc_of s i; Ret (set_descs s (<[i := f d]> (descs s))).

(** ** [irqdesc.c] *)

Definition irq_to_desc (i : Z) : option Z := if i <? NR_IRQS then Some i else None.

Definition chip_of (s : st) (i : Z) : run (irq_chip D) :=
  d ← desc_of s i; lift (chips s !! chip (data d)).

(** A call of a chip's function: NULL is not callable. *)
Definition call_op (s : st) (i : Z) (f : option (irq_data -> D -> D)) : run st :=
  g ← lift f; d ← desc_of s i; Ret (set_dev s (g (data d) (dev s))).
(** One that is tested for NULL. *)
Definition try_op (s : st) (i : Z) (f : option (irq_data -> D -> D)) : run st :=
  match f with None => Ret s | Some _ => call_op s i f end.

Definition chip_bus_lock (s : st) (i : Z) : run st := c ← chip_of s i; try_op s i (irq_bus_lock_op c).
Definition chip_bus_sync_unlock (s : st) (i : Z) : run st := c ← chip_of s i; try_op s i (irq_bus_sync_unlock_op c).

Definition raw_spin_lock (s : st) (i : Z) : run st :=
  d ← desc_of s i; if lock d then NoFuel else upd s i (fun d => set_lock d true).
Definition raw_spin_unlock (s : st) (i : Z) : run st := upd s i (fun d => set_lock d false).
(** With the flags that were saved. *)
Definition raw_spin_lock_irqsave (s : st) (i : Z) : run (bool * st) :=
  let fl := irqs_on s in s ← raw_spin_lock (set_irqs s false) i; Ret (fl, s).
Definition raw_spin_unlock_irqrestore (s : st) (i : Z) (fl : bool) : run st :=
  s ← raw_spin_unlock s i; Ret (set_irqs s fl).

(** The line and the saved flags, or [None] for NULL; [check] is not used. *)
Definition __irq_get_desc_lock (s : st) (i : Z) (bus : bool) (check : Z) : run (option (Z * bool) * st) :=
  match irq_to_desc i with
  | None => Ret (None, s)
  | Some i =>
    s ← (if bus then chip_bus_lock s i else Ret s);
    '(fl, s) ← raw_spin_lock_irqsave s i;
    Ret (Some (i, fl), s)
  end.
Definition __irq_put_desc_unlock (s : st) (i : Z) (fl bus : bool) : run st :=
  s ← raw_spin_unlock_irqrestore s i fl;
  if bus then chip_bus_sync_unlock s i else Ret s.

(** Code between the two, or [none] without a descriptor. *)
Definition with_desc {A} (s : st) (i : Z) (bus : bool) (check : Z) (none : A) (f : Z -> st -> run (A * st)) : run (A * st) :=
  '(o, s) ← __irq_get_desc_lock s i bus check;
  match o with
  | None => Ret (none, s)
  | Some (i, fl) => '(r, s) ← f i s; s ← __irq_put_desc_unlock s i fl bus; Ret (r, s)
  end.

Definition desc_set_defaults (i : Z) (d : irq_desc) : irq_desc :=
  let d := set_data d (Data i (state (data d)) no_irq_chip 0 0) in
  let d := irq_settings_clr_and_set d ULONG_MAX IRQ_DEFAULT_INIT_FLAGS in
  let d := irqd_set d IRQD_IRQ_DISABLED in
  set_depth (set_flow d handle_bad_irq) 1.

Fixpoint init_descs (n : nat) (i : Z) (s : st) : run st :=
  match n with
  | O => Ret s
  | S n => s ← upd s i (fun d => desc_set_defaults i (set_lock d false)); init_descs n (i + 1) s
  end.
Definition early_irq_init (s : st) : run st := init_descs (Z.to_nat NR_IRQS) 0 s.

(** ** [chip.c] *)

Definition irq_set_chip (s : st) (i c : Z) : run (Z * st) :=
  with_desc s i false 0 (- EINVAL) (fun i s =>
    s ← upd s i (fun d => set_data d (Data (irq (data d)) (state (data d)) c (handler_data (data d)) (chip_data (data d)))); Ret (0, s)).
Definition irq_set_handler_data (s : st) (i x : Z) : run (Z * st) :=
  with_desc s i false 0 (- EINVAL) (fun i s =>
    s ← upd s i (fun d => set_data d (Data (irq (data d)) (state (data d)) (chip (data d)) x (chip_data (data d)))); Ret (0, s)).
Definition irq_set_chip_data (s : st) (i x : Z) : run (Z * st) :=
  with_desc s i false 0 (- EINVAL) (fun i s =>
    s ← upd s i (fun d => set_data d (Data (irq (data d)) (state (data d)) (chip (data d)) (handler_data (data d)) x)); Ret (0, s)).

Definition irq_state_clr_disabled (s : st) (i : Z) : run st := upd s i (fun d => irqd_clear d IRQD_IRQ_DISABLED).
Definition irq_state_set_disabled (s : st) (i : Z) : run st := upd s i (fun d => irqd_set d IRQD_IRQ_DISABLED).
Definition irq_state_clr_masked (s : st) (i : Z) : run st := upd s i (fun d => irqd_clear d IRQD_IRQ_MASKED).
Definition irq_state_set_masked (s : st) (i : Z) : run st := upd s i (fun d => irqd_set d IRQD_IRQ_MASKED).

(** [resend.c]; the result of [irq_retrigger] is not used. *)
Definition check_irq_resend (s : st) (i : Z) : run st :=
  d ← desc_of s i;
  if irq_settings_is_level d then Ret s else
  if has (istate d) IRQS_REPLAY then Ret s else
  if has (istate d) IRQS_PENDING then
    s ← upd s i (fun d => set_istate d (with_bits (without (istate d) IRQS_PENDING) IRQS_REPLAY));
    c ← chip_of s i;
    match irq_retrigger_op c with
    | None => Ret s
    | Some f => d ← desc_of s i; Ret (set_dev s (snd (f (data d) (dev s))))
    end
  else Ret s.

Definition irq_enable (s : st) (i : Z) : run st :=
  s ← irq_state_clr_disabled s i;
  c ← chip_of s i;
  s ← call_op s i (match irq_enable_op c with Some f => Some f | None => irq_unmask_op c end);
  irq_state_clr_masked s i.

Definition irq_disable (s : st) (i : Z) : run st :=
  s ← irq_state_set_disabled s i;
  c ← chip_of s i;
  match irq_disable_op c with
  | None => Ret s
  | Some f => s ← call_op s i (Some f); irq_state_set_masked s i
  end.

Definition irq_startup (s : st) (i : Z) (resend : bool) : run (Z * st) :=
  s ← irq_state_clr_disabled s i;
  s ← upd s i (fun d => set_depth d 0);
  c ← chip_of s i;
  '(ret, s) ← match irq_startup_op c with
    | Some f => d ← desc_of s i; let '(r, x) := f (data d) (dev s) in s ← irq_state_clr_masked (set_dev s x) i; Ret (to_int r, s)
    | None => s ← irq_enable s i; Ret (0, s)
    end;
  s ← (if resend then check_irq_resend s i else Ret s);
  Ret (ret, s).

Definition irq_shutdown (s : st) (i : Z) : run st :=
  s ← irq_state_set_disabled s i;
  s ← upd s i (fun d => set_depth d 1);
  c ← chip_of s i;
  s ← call_op s i (match irq_shutdown_op c, irq_disable_op c with
    | Some f, _ => Some f | None, Some f => Some f | None, None => irq_mask_op c end);
  irq_state_set_masked s i.

Definition mask_ack_irq (s : st) (i : Z) : run st :=
  c ← chip_of s i;
  s ← match irq_mask_ack_op c with
    | Some f => call_op s i (Some f)
    | None => s ← call_op s i (irq_mask_op c); c ← chip_of s i; try_op s i (irq_ack_op c)
    end;
  irq_state_set_masked s i.

Definition mask_irq (s : st) (i : Z) : run st :=
  c ← chip_of s i;
  match irq_mask_op c with None => Ret s | Some f => s ← call_op s i (Some f); irq_state_set_masked s i end.
Definition unmask_irq (s : st) (i : Z) : run st :=
  c ← chip_of s i;
  match irq_unmask_op c with None => Ret s | Some f => s ← call_op s i (Some f); irq_state_clr_masked s i end.

Definition cond_unmask_irq (s : st) (i : Z) : run st :=
  d ← desc_of s i;
  if negb (irqd_irq_disabled d) && irqd_irq_masked d && (threads_oneshot d =? 0) then unmask_irq s i else Ret s.

Definition __irq_set_handler (s : st) (i : Z) (handle : option irq_flow) : run st :=
  '(_, s) ← with_desc s i true 0 tt (fun i s =>
    match handle with None => Ret (tt, s) | Some h => s ← upd s i (fun d => set_flow d h); Ret (tt, s) end);
  Ret s.

Definition irq_set_chip_and_handler_name (s : st) (i c : Z) (handle : option irq_flow) : run st :=
  '(_, s) ← irq_set_chip s i c; __irq_set_handler s i handle.

(** ** [handle.c] *)

(** The handlers of drivers. *)
Context (driver : Z -> Z -> Z -> st -> run (Z * st)).

Definition call_handler (h : irq_handler) (i dev_id : Z) (s : st) : run (Z * st) :=
  match h with
  | no_action => Ret (IRQ_NONE, s)
  | irq_default_primary_handler => Ret (IRQ_WAKE_THREAD, s)
  | Driver f => driver f i dev_id s
  end.

(** The loop over the actions, from [a] on; the successor is read after the
    handler has returned. *)
Fixpoint event_loop (fuel : nat) (s : st) (i a retval : Z) : run (Z * st) :=
  match fuel with
  | O => NoFuel
  | S fuel =>
    x ← lift (acts s !! a);
    '(res, s) ← call_handler (handler x) i (dev_id x) (log s (Handled a));
    let s := set_irqs s false in
    x ← lift (acts s !! a);
    let retval := Z.lor retval res in
    if next x =? 0 then Ret (retval, s) else event_loop fuel s i (next x) retval
  end.

Definition handle_irq_event_percpu (fuel : nat) (s : st) (i a : Z) : run (Z * st) :=
  d ← desc_of s i; event_loop fuel s (irq (data d)) a IRQ_NONE.

Definition handle_irq_event (fuel : nat) (s : st) (i : Z) : run (Z * st) :=
  d ← desc_of s i;
  let a := action d in
  s ← upd s i (fun d => set_istate d (without (istate d) IRQS_PENDING));
  s ← upd s i (fun d => irqd_set d IRQD_IRQ_INPROGRESS);
  s ← raw_spin_unlock s i;
  '(ret, s) ← handle_irq_event_percpu fuel s i a;
  s ← raw_spin_lock s i;
  s ← upd s i (fun d => irqd_clear d IRQD_IRQ_INPROGRESS);
  Ret (ret, s).

(** [spurious.c]: nobody else clears the flag while this CPU waits. *)
Definition irq_wait_for_poll (s : st) (i : Z) : run (bool * st) :=
  s ← raw_spin_unlock s i;
  d ← desc_of s i;
  if irqd_irq_inprogress d then NoFuel else
  s ← raw_spin_lock s i;
  d ← desc_of s i;
  Ret (negb (irqd_irq_disabled d) && negb (action d =? 0), s).

Definition irq_check_poll (s : st) (i : Z) : run (bool * st) :=
  d ← desc_of s i;
  if negb (has (istate d) IRQS_POLL_INPROGRESS) then Ret (false, s) else irq_wait_for_poll s i.

(** After the test for an interrupt that is in progress. *)
Definition level_event (fuel : nat) (s : st) (i : Z) : run st :=
  s ← upd s i (fun d => set_istate d (without (istate d) (Z.lor IRQS_REPLAY IRQS_WAITING)));
  d ← desc_of s i;
  if (action d =? 0) || irqd_irq_disabled d then
    upd s i (fun d => set_istate d (with_bits (istate d) IRQS_PENDING))
  else
    '(_, s) ← handle_irq_event fuel s i;
    cond_unmask_irq s i.

Definition handle_level_irq (fuel : nat) (s : st) (i : Z) : run st :=
  s ← raw_spin_lock s i;
  s ← mask_ack_irq s i;
  d ← desc_of s i;
  '(go, s) ← (if irqd_irq_inprogress d then irq_check_poll s i else Ret (true, s));
  s ← (if (go : bool) then level_event fuel s i else Ret s);
  raw_spin_unlock s i.

Definition handle_percpu_irq (fuel : nat) (s : st) (i : Z) : run st :=
  c ← chip_of s i;
  s ← try_op s i (irq_ack_op c);
  d ← desc_of s i;
  '(_, s) ← handle_irq_event_percpu fuel s i (action d);
  try_op s i (irq_eoi_op c).

Definition generic_handle_irq_desc (fuel : nat) (s : st) (i : Z) : run st :=
  d ← desc_of s i;
  match handle_irq d with
  | handle_bad_irq => Ret s
  | handle_level => handle_level_irq fuel s i
  | handle_percpu => handle_percpu_irq fuel s i
  end.

Definition generic_handle_irq (fuel : nat) (s : st) (i : Z) : run (Z * st) :=
  match irq_to_desc i with
  | None => Ret (- EINVAL, s)
  | Some i => s ← generic_handle_irq_desc fuel s i; Ret (0, s)
  end.

(** ** [manage.c] *)

(** After [irq_set_type] succeeded. *)
Definition take_trigger (s : st) (i : Z) : run st :=
  d ← desc_of s i;
  let fl := irqd_get_trigger_type d in
  upd s i (fun d =>
    let d := irq_settings_clr_level (irqd_clear (irq_settings_set_trigger_mask d fl) IRQD_LEVEL) in
    if has fl IRQ_TYPE_LEVEL_MASK then irqd_set (irq_settings_set_level d) IRQD_LEVEL else d).

Definition __irq_set_trigger (s : st) (i fl : Z) : run (Z * st) :=
  d ← desc_of s i;
  match (if chip (data d) =? 0 then Some None else irq_set_type_op <$> chips s !! chip (data d)) with
  | None => Fault
  | Some None => Ret (0, s)
  | Some (Some f) =>
    let fl := Z.land fl IRQ_TYPE_SENSE_MASK in
    c ← chip_of s i;
    '(unmask, s) ← (if has (chip_flags c) IRQCHIP_SET_TYPE_MASKED then
        s ← (if irqd_irq_masked d then Ret s else mask_irq s i);
        d ← desc_of s i;
        Ret (negb (irqd_irq_disabled d), s)
      else Ret (false, s));
    d ← desc_of s i;
    let '(ret, x, dv) := f (data d) fl (dev s) in
    s ← upd (set_dev s dv) i (fun d => set_data d x);
    '(ret, s) ← (if ret =? IRQ_SET_MASK_OK then
        s ← upd s i (fun d => irqd_set (irqd_clear d IRQD_TRIGGER_MASK) fl); s ← take_trigger s i; Ret (0, s)
      else if ret =? IRQ_SET_MASK_OK_NOCOPY then s ← take_trigger s i; Ret (0, s)
      else Ret (ret, s));
    s ← (if (unmask : bool) then unmask_irq s i else Ret s);
    Ret (ret, s)
  end.

Definition irq_set_irq_type (s : st) (i type : Z) : run (Z * st) :=
  with_desc s i true 1 (- EINVAL) (fun i s =>
    let type := Z.land type IRQ_TYPE_SENSE_MASK in
    if negb (type =? IRQ_TYPE_NONE) then __irq_set_trigger s i type else Ret (0, s)).

Definition __disable_irq (s : st) (i : Z) (suspend : bool) : run st :=
  d ← desc_of s i;
  '(go, s) ← (if suspend then
      if action d =? 0 then Ret (false, s) else
      a ← lift (acts s !! action d);
      if has (flags a) IRQF_NO_SUSPEND then Ret (false, s) else
      s ← upd s i (fun d => set_istate d (with_bits (istate d) IRQS_SUSPENDED)); Ret (true, s)
    else Ret (true, s));
  if negb go then Ret s else
  d ← desc_of s i;
  s ← upd s i (fun d => set_depth d (depth d +w 1));
  if depth d =? 0 then irq_disable s i else Ret s.

Definition __enable_irq (s : st) (i : Z) (resume : bool) : run st :=
  d ← desc_of s i;
  '(go, s) ← (if resume then
      '(go, s) ← (if has (istate d) IRQS_SUSPENDED then Ret (true, s) else
        if action d =? 0 then Ret (false, s) else
        a ← lift (acts s !! action d);
        if negb (has (flags a) IRQF_FORCE_RESUME) then Ret (false, s) else
        s ← upd s i (fun d => set_depth d (depth d +w 1)); Ret (true, s));
      if negb go then Ret (false, s) else
      s ← upd s i (fun d => set_istate d (without (istate d) IRQS_SUSPENDED)); Ret (true, s)
    else Ret (true, s));
  if negb go then Ret s else
  d ← desc_of s i;
  if depth d =? 0 then Ret s else
  if depth d =? 1 then
    if has (istate d) IRQS_SUSPENDED then Ret s else
    s ← upd s i irq_settings_set_noprobe;
    s ← irq_enable s i;
    s ← check_irq_resend s i;
    upd s i (fun d => set_depth d (depth d -w 1))
  else upd s i (fun d => set_depth d (depth d -w 1)).

(** Whether a new action may share the line with [old]. *)
Definition may_share (old new : irqaction) : bool :=
  has (Z.land (flags old) (flags new)) IRQF_SHARED &&
  negb (has (Z.lxor (flags old) (flags new)) IRQF_TRIGGER_MASK) &&
  negb (has (Z.lxor (flags old) (flags new)) IRQF_ONESHOT) &&
  (Z.land (flags old) IRQF_PERCPU =? Z.land (flags new) IRQF_PERCPU).

(** The end of the list that starts at [a]. *)
Fixpoint last_action (fuel : nat) (s : st) (a : Z) : run Z :=
  match fuel with
  | O => NoFuel
  | S fuel => x ← lift (acts s !! a); if next x =? 0 then Ret a else last_action fuel s (next x)
  end.

Definition set_next (s : st) (a n : Z) : run st :=
  x ← lift (acts s !! a);
  Ret (set_acts s (<[a := Action (handler x) (dev_id x) n (thread_fn x) (act_irq x) (flags x)]> (acts s))).
Definition set_act_irq (s : st) (a i : Z) : run st :=
  x ← lift (acts s !! a);
  Ret (set_acts s (<[a := Action (handler x) (dev_id x) (next x) (thread_fn x) i (flags x)]> (acts s))).

(** The line of a first action is set up. *)
Definition setup_first (s : st) (i : Z) (new : irqaction) : run (Z * st) :=
  '(ret, s) ← (if has (flags new) IRQF_TRIGGER_MASK then __irq_set_trigger s i (Z.land (flags new) IRQF_TRIGGER_MASK) else Ret (0, s));
  if negb (ret =? 0) then Ret (ret, s) else
  s ← upd s i (fun d =>
    let d := set_istate d (without (istate d) (Z.lor (Z.lor IRQS_AUTODETECT IRQS_SPURIOUS_DISABLED) (Z.lor IRQS_ONESHOT IRQS_WAITING))) in
    let d := irqd_clear d IRQD_IRQ_INPROGRESS in
    let d := if has (flags new) IRQF_PERCPU then irq_settings_set_per_cpu (irqd_set d IRQD_PER_CPU) else d in
    if has (flags new) IRQF_ONESHOT then set_istate d (with_bits (istate d) IRQS_ONESHOT) else d);
  d ← desc_of s i;
  s ← (if irq_settings_can_autoenable d then '(_, s) ← irq_startup s i true; Ret s else upd s i (fun d => set_depth d 1));
  s ← (if has (flags new) IRQF_NOBALANCING then upd s i (fun d => irqd_set (irq_settings_set_no_balancing d) IRQD_NO_BALANCING) else Ret s);
  Ret (0, s).

(** With the lock of the line held; [a] is the new action. *)
Definition setup_locked (fuel : nat) (s : st) (i a : Z) : run (Z * st) :=
  new ← lift (acts s !! a);
  d ← desc_of s i;
  if action d =? 0 then
    '(ret, s) ← setup_first s i new;
    if negb (ret =? 0) then Ret (ret, s) else
    s ← set_act_irq s a i;
    s ← upd s i (fun d => set_action d a);
    Ret (0, s)
  else
    old ← lift (acts s !! action d);
    if negb (may_share old new) then Ret (- EBUSY, s) else
    l ← last_action fuel s (action d);
    s ← set_act_irq s a i;
    s ← set_next s l a;
    s ← (if has (istate d) IRQS_SPURIOUS_DISABLED then
        s ← upd s i (fun d => set_istate d (without (istate d) IRQS_SPURIOUS_DISABLED)); __enable_irq s i false
      else Ret s);
    Ret (0, s).

Definition __setup_irq (fuel : nat) (s : st) (o : option Z) (a : Z) : run (Z * st) :=
  match o with
  | None => Ret (- EINVAL, s)
  | Some i =>
    d ← desc_of s i;
    if chip (data d) =? no_irq_chip then Ret (- ENOSYS, s) else
    '(fl, s) ← raw_spin_lock_irqsave s i;
    '(ret, s) ← setup_locked fuel s i a;
    s ← raw_spin_unlock_irqrestore s i fl;
    Ret (ret, s)
  end.

Definition setup_irq (fuel : nat) (s : st) (i a : Z) : run (Z * st) :=
  match irq_to_desc i with
  | None => Fault
  | Some i =>
    s ← chip_bus_lock s i;
    '(ret, s) ← __setup_irq fuel s (Some i) a;
    s ← chip_bus_sync_unlock s i;
    Ret (ret, s)
  end.

(** [mem]: what [kzalloc] returns. *)
Definition request_threaded_irq (fuel : nat) (s : st) (i : Z) (h thread_fn : option irq_handler) (fl dv : Z) (mem : Z) : run (Z * st) :=
  if has fl IRQF_SHARED && (dv =? 0) then Ret (- EINVAL, s) else
  match irq_to_desc i with
  | None => Ret (- EINVAL, s)
  | Some i =>
    d ← desc_of s i;
    if negb (irq_settings_can_request d) then Ret (- EINVAL, s) else
    match (match h, thread_fn with Some h, _ => Some h | None, Some _ => Some irq_default_primary_handler | None, None => None end) with
    | None => Ret (- EINVAL, s)
    | Some h =>
      if mem =? 0 then Ret (- ENOMEM, s) else
      let s := set_acts s (<[mem := Action h dv 0 thread_fn 0 fl]> (acts s)) in
      s ← chip_bus_lock s i;
      '(ret, s) ← __setup_irq fuel s (Some i) mem;
      s ← chip_bus_sync_unlock s i;
      Ret (ret, if ret =? 0 then s else set_acts s (delete mem (acts s)))
    end
  end.

Definition hal_irq_request (fuel : nat) (s : st) (i : Z) (h : option irq_handler) (fl dv mem : Z) : run (Z * st) :=
  request_threaded_irq fuel s i h None fl dv mem.

Definition can_request_irq (s : st) (i fl : Z) : run (Z * st) :=
  with_desc s i false 0 0 (fun i s =>
    d ← desc_of s i;
    if irq_settings_can_request d && negb (action d =? 0) then
      a ← lift (acts s !! action d);
      Ret (if has (Z.land fl (flags a)) IRQF_SHARED then 1 else 0, s)
    else Ret (0, s)).

Definition hal_irq_can_request (s : st) (i fl : Z) : run (bool * st) :=
  '(r, s) ← can_request_irq s i fl; Ret (negb (r =? 0), s).

(** The search of [__free_irq], from [a] on: the action, and the one before it
    (0 if it is the head). *)
Fixpoint find_action (fuel : nat) (s : st) (before a dv : Z) : run (option (Z * Z)) :=
  match fuel with
  | O => NoFuel
  | S fuel =>
    if a =? 0 then Ret None else
    x ← lift (acts s !! a);
    if dev_id x =? dv then Ret (Some (before, a)) else find_action fuel s a (next x) dv
  end.

(** With the lock of the line held. *)
Definition free_locked (fuel : nat) (s : st) (i dv : Z) : run (Z * st) :=
  d ← desc_of s i;
  r ← find_action fuel s 0 (action d) dv;
  match r with
  | None => Ret (0, s)
  | Some (before, a) =>
    x ← lift (acts s !! a);
    s ← (if before =? 0 then upd s i (fun d => set_action d (next x)) else set_next s before (next x));
    d ← desc_of s i;
    s ← (if action d =? 0 then irq_shutdown s i else Ret s);
    Ret (a, s)
  end.

Definition __free_irq (fuel : nat) (s : st) (i dv : Z) : run (Z * st) :=
  match irq_to_desc i with
  | None => Ret (0, s)
  | Some i =>
    '(fl, s) ← raw_spin_lock_irqsave s i;
    '(a, s) ← free_locked fuel s i dv;
    s ← raw_spin_unlock_irqrestore s i fl;
    Ret (a, s)
  end.

Definition remove_irq (fuel : nat) (s : st) (i a : Z) : run st :=
  x ← lift (acts s !! a); '(_, s) ← __free_irq fuel s i (dev_id x); Ret s.

Definition free_irq (fuel : nat) (s : st) (i dv : Z) : run st :=
  match irq_to_desc i with
  | None => Ret s
  | Some i =>
    s ← chip_bus_lock s i;
    '(a, s) ← __free_irq fuel s i dv;
    chip_bus_sync_unlock (set_acts s (delete a (acts s))) i
  end.

Definition __disable_irq_nosync (s : st) (i : Z) : run (Z * st) :=
  with_desc s i true 1 (- EINVAL) (fun i s => s ← __disable_irq s i false; Ret (0, s)).
Definition disable_irq_nosync (s : st) (i : Z) : run st := '(_, s) ← __disable_irq_nosync s i; Ret s.

(** [synchronize_irq] does nothing. *)
Definition disable_irq (s : st) (i : Z) : run st := disable_irq_nosync s i.

Definition enable_irq (s : st) (i : Z) : run st :=
  '(_, s) ← with_desc s i true 1 tt (fun i s =>
    d ← desc_of s i;
    if chip (data d) =? 0 then Ret (tt, s) else s ← __enable_irq s i false; Ret (tt, s));
  Ret s.

End Irq.

(** ** [dummychip.c] *)
Definition noop {D} (_ : irq_data) (x : D) : D := x.
Definition noop_ret {D} (_ : irq_data) (x : D) : Z * D := (0, x).
Definition the_no_irq_chip {D} : irq_chip D :=
  Chip (Some noop_ret) (Some noop) (Some noop) (Some noop) (Some noop) None None None None None None None None 0.
Definition the_dummy_irq_chip {D} : irq_chip D :=
  Chip (Some noop_ret) (Some noop) (Some noop) (Some noop) (Some noop) (Some noop) None (Some noop) None None None None None 0.

(** ** The search of the actions of a line *)

(** [irq_desc] as it is loaded. *)
Definition boot_desc : irq_desc := Desc (Data 0 0 0 0 0) handle_bad_irq 0 0 0 1 0 false.
End IrqOps.
