(* ===== verification/IrqLine.v ===== *)
(** * Enabled, disabled and masked lines

    The lines of [Irq] over an interrupt controller that can mask them: the class
    [MaskChip] is what the lines need to know of the controller, [chip_law] what
    its functions do.  The invariant [irq_inv] says when a line is masked in the
    controller; every operation on lines and every interrupt keeps it, with
    handlers that use these operations themselves. *)

From stdpp Require Import gmap strings.
From S2P Require Import Prelude Irq.
Import IrqOps.
Local Open Scope c_scope.

(** ** Flags *)

Lemma has_with_same x m : (m =? 0) = false -> has (with_bits x m) m = true.
Proof.
  intros Hm%Z.eqb_neq. unfold has, with_bits. apply negb_true_iff, Z.eqb_neq. intros H0. apply Hm.
  apply Z.bits_inj'. intros i Hi. apply (f_equal (fun z => Z.testbit z i)) in H0. revert H0.
  rewrite Z.land_spec, Z.lor_spec, Z.testbit_0_l. by destruct (Z.testbit x i), (Z.testbit m i).
Qed.
Lemma has_with_other x m k : Z.land m k = 0 -> has (with_bits x m) k = has x k.
Proof. intros Hm. unfold has, with_bits. by rewrite Z.land_lor_distr_l, Hm, Z.lor_0_r. Qed.
Lemma has_without_same x m k : Z.land (w_not m) k = 0 -> has (without x m) k = false.
Proof. intros Hm. unfold has, without. by rewrite <- Z.land_assoc, Hm, Z.land_0_r. Qed.
Lemma has_without_other x m k : Z.land (w_not m) k = k -> has (without x m) k = has x k.
Proof. intros Hm. unfold has, without. by rewrite <- Z.land_assoc, Hm. Qed.
#[export] Hint Rewrite has_with_same has_with_other has_without_same has_without_other using reflexivity : irq_flags.

(** Reads the members of a descriptor after changes of its flags. *)
Ltac desc_simpl :=
  unfold irqd_irq_disabled, irqd_irq_masked, irqd_irq_inprogress, irqd_set, irqd_clear,
    irq_settings_set_noprobe, irq_settings_set_no_balancing, irq_settings_set_per_cpu, irq_settings_can_autoenable in *;
  cbn [set_state set_data set_flow set_action set_status set_istate set_depth set_lock
    data handle_irq action status istate depth threads_oneshot lock irq state chip handler_data chip_data] in *;
  autorewrite with irq_flags in *.

(** ** One line and the hardware, inside the state *)

Section Put.
Context {D W : Type}.
Notation st := (isys D W).

Definition line_put (s : st) (i : Z) (d : irq_desc) (x : D) : st :=
  ISys (<[i := d]> (descs s)) (acts s) (chips s) x (wld s) (irqs_on s) (preempt_count s) (dpc_irq_pending s) (dpc_irq_vec s) (trace s).

Lemma put_id s i d : descs s !! i = Some d -> s = line_put s i d (dev s).
Proof. intros Hd. unfold line_put. rewrite insert_id by done. by destruct s. Qed.
Lemma put_put s i d x d' x' : line_put (line_put s i d x) i d' x' = line_put s i d' x'.
Proof. unfold line_put. cbn. by rewrite insert_insert_eq. Qed.
Lemma put_desc s i d x : desc_of (line_put s i d x) i = Ret d.
Proof. unfold desc_of, line_put. cbn. by rewrite lookup_insert_eq. Qed.
Lemma put_upd s i d x f : upd (line_put s i d x) i f = Ret (line_put s i (f d) x).
Proof. unfold upd. rewrite put_desc. unfold line_put. cbn. by rewrite insert_insert_eq. Qed.
Lemma put_chip s i d x : chip_of (line_put s i d x) i = lift (chips s !! chip (data d)).
Proof. unfold chip_of. by rewrite put_desc. Qed.
Lemma put_call s i d x f : call_op (line_put s i d x) i (Some f) = Ret (line_put s i d (f (data d) x)).
Proof. unfold call_op. cbn [lift mbind run_bind]. rewrite put_desc. done. Qed.
Lemma put_irqs s i d x b : set_irqs (line_put s i d x) b = line_put (set_irqs s b) i d x.
Proof. done. Qed.
Lemma put_acts s i d x m : set_acts (line_put s i d x) m = line_put (set_acts s m) i d x.
Proof. done. Qed.
End Put.

Lemma bind_ret {A B} (a : A) (f : A -> run B) : (Ret a ≫= f) = f a.
Proof. done. Qed.
#[export] Hint Rewrite @bind_ret @put_desc @put_upd @put_chip @put_call : irq_run.

(** Runs the code on a line in the form [line_put s i d x]. *)
Ltac irq_run := repeat (progress (autorewrite with irq_run; cbn [lift])).

(** ** What the lines need of a controller *)

Class MaskChip (D : Type) := {
  hw_lines : Z;
  hw_chip : Z;                                  (* the address of its chip *)
  hw_ok : D -> Prop;
  hw_masked : D -> Z -> bool;
  hw_lines_range : 0 <= hw_lines <= NR_IRQS;
  hw_chip_new : hw_chip <> no_irq_chip;
  hw_chip_set : hw_chip <> 0
}.

Section Lines.
Context {D W : Type} {MC : MaskChip D}.
Notation st := (isys D W).

(** [f] sets the mask of the line to [b] and leaves the other lines alone. *)
Definition sets_mask (b : bool) (f : irq_data -> D -> D) : Prop := forall a x, hw_ok x -> 0 <= irq a < hw_lines ->
  hw_ok (f a x) /\ forall j, 0 <= j < hw_lines -> hw_masked (f a x) j = if j =? irq a then b else hw_masked x j.

Record chip_law (c : irq_chip D) : Prop := {
  cl_startup : irq_startup_op c = None;
  cl_shutdown : irq_shutdown_op c = None;
  cl_enable : irq_enable_op c = None;
  cl_retrigger : irq_retrigger_op c = None;
  cl_set_type : irq_set_type_op c = None;
  cl_bus_lock : irq_bus_lock_op c = None;
  cl_bus_unlock : irq_bus_sync_unlock_op c = None;
  cl_disable : exists f, irq_disable_op c = Some f /\ sets_mask true f;
  cl_mask_ack : exists f, irq_mask_ack_op c = Some f /\ sets_mask true f;
  cl_unmask : exists f, irq_unmask_op c = Some f /\ sets_mask false f
}.

(** ** The invariant *)

(** The actions from [a] on are [l]; all belong to the line [i]. *)
Fixpoint chain (m : gmap Z irqaction) (i a : Z) (l : list Z) : Prop :=
  match l with
  | [] => a = 0
  | b :: l => a = b /\ b <> 0 /\ exists x, m !! b = Some x /\ act_irq x = i /\ chain m i (next x) l
  end.

Record line_base (i : Z) (d : irq_desc) : Prop := {
  lb_irq : irq (data d) = i;
  lb_depth : is_word (depth d);
  lb_disabled : irqd_irq_disabled d = negb (depth d =? 0);
  lb_autoen : has (status d) IRQ_NOAUTOEN = false;
  lb_suspended : has (istate d) IRQS_SUSPENDED = false;
  lb_spurious : has (istate d) IRQS_SPURIOUS_DISABLED = false;
  lb_poll : has (istate d) IRQS_POLL_INPROGRESS = false;
  lb_oneshot : threads_oneshot d = 0
}.

Record line_mask (i : Z) (d : irq_desc) (x : D) : Prop := {
  lm_disabled : irqd_irq_disabled d = true -> hw_masked x i = true;
  lm_masked : irqd_irq_masked d = true -> hw_masked x i = true;
  lm_open : irqd_irq_disabled d = false -> irqd_irq_masked d = false -> hw_masked x i = false;
  lm_live : action d <> 0 -> irqd_irq_disabled d = false -> irqd_irq_inprogress d = false -> irqd_irq_masked d = false
}.

(** A line of the controller, and one without. *)
Inductive line_kind (s : st) (i : Z) (d : irq_desc) : Prop :=
  | line_hw l : i < hw_lines -> chip (data d) = hw_chip -> handle_irq d = handle_level -> line_mask i d (dev s) ->
      chain (acts s) i (action d) l -> NoDup l -> line_kind s i d
  | line_none : hw_lines <= i -> chip (data d) = no_irq_chip -> handle_irq d = handle_bad_irq -> action d = 0 -> line_kind s i d.

Record irq_inv (s : st) : Prop := {
  ii_lines : forall i, 0 <= i < NR_IRQS -> exists d, descs s !! i = Some d /\ lock d = false /\ line_base i d /\ line_kind s i d;
  ii_chip : exists c, chips s !! hw_chip = Some c /\ chip_law c;
  ii_none : chips s !! no_irq_chip = Some the_no_irq_chip;
  ii_dev : hw_ok (dev s)
}.

(** The invariant but for the line [i]. *)
Record inv_but (i : Z) (s : st) : Prop := {
  ib_lines : forall j, 0 <= j < NR_IRQS -> j <> i -> exists d, descs s !! j = Some d /\ lock d = false /\ line_base j d /\ line_kind s j d;
  ib_chip : exists c, chips s !! hw_chip = Some c /\ chip_law c;
  ib_none : chips s !! no_irq_chip = Some the_no_irq_chip;
  ib_dev : hw_ok (dev s)
}.

(** A change of the line [i] and of the hardware that keeps the masks of the
    other lines. *)
Lemma inv_put s i d x : inv_but i s -> hw_ok x -> (forall j, 0 <= j < hw_lines -> j <> i -> hw_masked x j = hw_masked (dev s) j) ->
  inv_but i (line_put s i d x).
Proof.
  intros [Hl Hc Hn Hd] Hx Hm. constructor; [|done|done|done]. intros j Hj Hne. cbn. rewrite lookup_insert_ne by done.
  destruct (Hl j Hj Hne) as (e & He & Hlk & Hb & Hk). exists e. split; [done|]. split; [done|]. split; [done|].
  destruct Hk as [l H1 H2 H3 [M1 M2 M3 M4] H5 H6|]; [|by apply line_none].
  apply (line_hw _ _ _ l); try done. cbn. constructor; rewrite ?Hm by lia; done.
Qed.

Lemma inv_done s i d x : inv_but i s -> hw_ok x -> (forall j, 0 <= j < hw_lines -> j <> i -> hw_masked x j = hw_masked (dev s) j) ->
  lock d = false -> line_base i d -> line_kind (line_put s i d x) i d -> irq_inv (line_put s i d x).
Proof.
  intros Hs Hx Hm Hlk Hb Hk. destruct (inv_put s i d x Hs Hx Hm) as [Hl Hc Hn Hd]. constructor; [|done|done|done].
  intros j Hj. destruct (decide (j = i)) as [->|Hne]; [|by apply Hl]. exists d. cbn. by rewrite lookup_insert_eq.
Qed.

Lemma inv_but_of s i : irq_inv s -> inv_but i s.
Proof. intros [Hl Hc Hn Hd]. constructor; [|done|done|done]. intros j Hj _. by apply Hl. Qed.

Lemma inv_same (s s' : st) : descs s' = descs s -> acts s' = acts s -> chips s' = chips s -> dev s' = dev s -> irq_inv s -> irq_inv s'.
Proof.
  intros E1 E2 E3 E4 [Hl Hc Hn Hd]. constructor; rewrite ?E3, ?E4; try done. intros i Hi. destruct (Hl i Hi) as (d & Hd' & Hlk & Hb & Hk).
  exists d. rewrite E1. split; [done|]. split; [done|]. split; [done|]. destruct Hk as [l ? ? ? ? ? ?|]; [apply (line_hw _ _ _ l)|apply line_none]; rewrite ?E2, ?E4; done.
Qed.

(** ** The code, run on one line *)

Lemma irq_enable_put (s : st) i d x c f :
  chips s !! chip (data d) = Some c -> match irq_enable_op c with Some g => Some g | None => irq_unmask_op c end = Some f ->
  irq_enable (line_put s i d x) i = Ret (line_put s i (irqd_clear (irqd_clear d IRQD_IRQ_DISABLED) IRQD_IRQ_MASKED) (f (data (irqd_clear d IRQD_IRQ_DISABLED)) x)).
Proof.
  intros Hc Hf. unfold irq_enable, irq_state_clr_disabled, irq_state_clr_masked. irq_run. change (chip (data (irqd_clear d IRQD_IRQ_DISABLED))) with (chip (data d)).
  rewrite Hc. cbn [lift]. irq_run. rewrite Hf. by irq_run.
Qed.

Lemma irq_disable_put (s : st) i d x c f :
  chips s !! chip (data d) = Some c -> irq_disable_op c = Some f ->
  irq_disable (line_put s i d x) i = Ret (line_put s i (irqd_set (irqd_set d IRQD_IRQ_DISABLED) IRQD_IRQ_MASKED) (f (data (irqd_set d IRQD_IRQ_DISABLED)) x)).
Proof.
  intros Hc Hf. unfold irq_disable, irq_state_set_disabled, irq_state_set_masked. irq_run. change (chip (data (irqd_set d IRQD_IRQ_DISABLED))) with (chip (data d)).
  rewrite Hc. cbn [lift]. irq_run. rewrite Hf. by irq_run.
Qed.

(** [check_irq_resend] without [irq_retrigger]. *)
Definition resent (d : irq_desc) : irq_desc :=
  if irq_settings_is_level d || has (istate d) IRQS_REPLAY || negb (has (istate d) IRQS_PENDING) then d
  else set_istate d (with_bits (without (istate d) IRQS_PENDING) IRQS_REPLAY).

Lemma check_irq_resend_put (s : st) i d x c :
  chips s !! chip (data d) = Some c -> irq_retrigger_op c = None -> check_irq_resend (line_put s i d x) i = Ret (line_put s i (resent d) x).
Proof.
  intros Hc Hr. unfold check_irq_resend, resent. irq_run. destruct (irq_settings_is_level d); [done|]. destruct (has (istate d) IRQS_REPLAY); [done|].
  destruct (has (istate d) IRQS_PENDING); [|done]. cbn [orb negb]. irq_run. cbn [set_istate data]. rewrite Hc. cbn [lift]. irq_run. by rewrite Hr.
Qed.

(** Properties that do not depend on a descriptor's flag words. *)
Lemma resent_same d : data (resent d) = data d /\ handle_irq (resent d) = handle_irq d /\ action (resent d) = action d /\ status (resent d) = status d /\
  depth (resent d) = depth d /\ threads_oneshot (resent d) = threads_oneshot d /\ lock (resent d) = lock d /\
  forall k, Z.land IRQS_REPLAY k = 0 -> Z.land (w_not IRQS_PENDING) k = k -> has (istate (resent d)) k = has (istate d) k.
Proof.
  unfold resent. destruct (_ || _); [done|]. split_and!; try done. intros k H1 H2. cbn. rewrite has_with_other, has_without_other; done.
Qed.

Lemma line_base_resent i d : line_base i d -> line_base i (resent d).
Proof.
  intros [B1 B2 B3 B4 B5 B6 B7 B8]. destruct (resent_same d) as (E1 & _ & _ & E4 & E5 & E6 & _ & E8).
  constructor; unfold irqd_irq_disabled in *; rewrite ?E1, ?E4, ?E5, ?E6, ?E8; done.
Qed.
Lemma line_mask_resent i d x : line_mask i d x -> line_mask i (resent d) x.
Proof.
  intros [M1 M2 M3 M4]. destruct (resent_same d) as (E1 & _ & E3 & _).
  constructor; unfold irqd_irq_disabled, irqd_irq_masked, irqd_irq_inprogress in *; rewrite ?E1, ?E3; done.
Qed.

(** ** A line that is held *)

(** The line [i] of the controller, its descriptor [d] and the hardware [x]. *)
Record at_hw (s : st) (i : Z) (d : irq_desc) (x : D) (l : list Z) : Prop := {
  ah_range : 0 <= i < hw_lines;
  ah_chip : chip (data d) = hw_chip;
  ah_flow : handle_irq d = handle_level;
  ah_base : line_base i d;
  ah_mask : line_mask i d x;
  ah_dev : hw_ok x;
  ah_rest : inv_but i s;
  ah_others : forall j, 0 <= j < hw_lines -> j <> i -> hw_masked x j = hw_masked (dev s) j;
  ah_chain : chain (acts s) i (action d) l;
  ah_nodup : NoDup l
}.

Lemma at_hw_of s i : irq_inv s -> 0 <= i < hw_lines -> exists d l, descs s !! i = Some d /\ lock d = false /\ at_hw s i d (dev s) l.
Proof.
  intros Hs Hi. pose proof hw_lines_range as Hr. destruct (ii_lines s Hs i) as (d & Hd & Hlk & Hb & Hk); [lia|].
  destruct Hk as [l H1 H2 H3 H4 H5 H6|]; [|lia]. exists d, l. split; [done|]. split; [done|]. constructor; try done; [apply Hs|by apply inv_but_of].
Qed.

Lemma at_hw_inv s i d x l : at_hw s i d x l -> lock d = false -> irq_inv (line_put s i d x).
Proof. intros [H1 H2 H3 H4 H5 H6 H7 H8 H9 H10] Hlk. apply inv_done; try done. apply (line_hw _ _ _ l); try done. lia. Qed.

(** The lock does not matter. *)
Lemma at_hw_lock s i d x l b : at_hw s i d x l -> at_hw s i (set_lock d b) x l.
Proof. intros [H1 H2 H3 [B1 B2 B3 B4 B5 B6 B7 B8] [M1 M2 M3 M4] H6 H7 H8 H9 H10]. by constructor. Qed.

Lemma inv_but_same i (s s' : st) : descs s' = descs s -> acts s' = acts s -> chips s' = chips s -> dev s' = dev s -> inv_but i s -> inv_but i s'.
Proof.
  intros E1 E2 E3 E4 [Hl Hc Hn Hd]. constructor; rewrite ?E3, ?E4; try done. intros j Hj Hne. destruct (Hl j Hj Hne) as (d & Hd' & Hlk & Hb & Hk).
  exists d. rewrite E1. split; [done|]. split; [done|]. split; [done|]. destruct Hk as [l ? ? ? ? ? ?|]; [apply (line_hw _ _ _ l)|apply line_none]; rewrite ?E2, ?E4; done.
Qed.

Lemma at_hw_irqs s i d x l b : at_hw s i d x l -> at_hw (set_irqs s b) i d x l.
Proof. intros [H1 H2 H3 H4 H5 H6 H7 H8 H9 H10]. constructor; try done. by apply (inv_but_same i s). Qed.

(** What the controller does to the mask. *)
Lemma at_hw_call s i d x l b f a : at_hw s i d x l -> sets_mask b f -> irq a = i ->
  hw_ok (f a x) /\ hw_masked (f a x) i = b /\ forall j, 0 <= j < hw_lines -> j <> i -> hw_masked (f a x) j = hw_masked (dev s) j.
Proof.
  intros H Hf Ha. destruct (Hf a x (ah_dev _ _ _ _ _ H)) as [Hok Hm]; [rewrite Ha; apply H|]. split; [done|]. split.
  - rewrite Hm by apply H. by rewrite Ha, Z.eqb_refl.
  - intros j Hj Hne. rewrite Hm, Ha, (proj2 (Z.eqb_neq j i) Hne) by done. by apply (ah_others _ _ _ _ _ H).
Qed.

Lemma at_hw_chip s i d x l : at_hw s i d x l -> exists c, chips s !! chip (data d) = Some c /\ chip_law c.
Proof. intros H. rewrite (ah_chip _ _ _ _ _ H). apply (ib_chip _ _ (ah_rest _ _ _ _ _ H)). Qed.

(** Enabling: the flags are cleared and the line is open. *)
Lemma irq_enable_hw s i d x l : at_hw s i d x l ->
  exists x', irq_enable (line_put s i d x) i = Ret (line_put s i (irqd_clear (irqd_clear d IRQD_IRQ_DISABLED) IRQD_IRQ_MASKED) x') /\
    forall d', data d' = data (irqd_clear (irqd_clear d IRQD_IRQ_DISABLED) IRQD_IRQ_MASKED) -> handle_irq d' = handle_level -> action d' = action d ->
      line_base i d' -> at_hw s i d' x' l.
Proof.
  intros H. destruct (at_hw_chip _ _ _ _ _ H) as (c & Hc & [L1 L2 L3 L4 L5 L6 L7 L8 L9 (f & Hf & Hm)]).
  rewrite (irq_enable_put s i d x c f Hc) by (by rewrite L3). eexists. split; [done|]. intros d' E1 E2 E3 Hb.
  destruct (at_hw_call s i d x l false f (data (irqd_clear d IRQD_IRQ_DISABLED)) H Hm) as (Hok & Hmi & Hmo); [apply (lb_irq _ _ (ah_base _ _ _ _ _ H))|].
  destruct H as [H1 H2 H3 H4 H5 H6 H7 H8 H9 H10]. constructor; try done; [by rewrite E1| |by rewrite E3].
  constructor; unfold irqd_irq_disabled, irqd_irq_masked, irqd_irq_inprogress; rewrite E1; desc_simpl; done.
Qed.

(** Disabling: they are set and the line is masked. *)
Lemma masked_hw s i d x l f a d' : at_hw s i d x l -> sets_mask true f -> irq a = i ->
  chip (data d') = hw_chip -> handle_irq d' = handle_level -> action d' = action d -> line_base i d' -> irqd_irq_masked d' = true ->
  (action d' <> 0 -> irqd_irq_disabled d' = false -> irqd_irq_inprogress d' = false -> False) -> at_hw s i d' (f a x) l.
Proof.
  intros H Hm Ha E1 E2 E3 Hb Hmk Hl. destruct (at_hw_call s i d x l true f a H Hm Ha) as (Hok & Hmi & Hmo).
  destruct H as [H1 H2 H3 H4 H5 H6 H7 H8 H9 H10]. constructor; try done; [|by rewrite E3].
  constructor; try done; [by rewrite Hmk|]. intros A B C. by destruct (Hl A B C).
Qed.

(** A line without a controller. *)
Record at_none (s : st) (i : Z) (d : irq_desc) (x : D) : Prop := {
  an_range : hw_lines <= i < NR_IRQS;
  an_chip : chip (data d) = no_irq_chip;
  an_flow : handle_irq d = handle_bad_irq;
  an_action : action d = 0;
  an_base : line_base i d;
  an_dev : x = dev s;
  an_rest : inv_but i s
}.

Definition held (s : st) (i : Z) (d : irq_desc) (x : D) : Prop := (exists l, at_hw s i d x l) \/ at_none s i d x.

Lemma held_of s i : irq_inv s -> 0 <= i < NR_IRQS -> exists d, descs s !! i = Some d /\ lock d = false /\ held s i d (dev s).
Proof.
  intros Hs Hi. destruct (Z.lt_ge_cases i hw_lines).
  - destruct (at_hw_of s i Hs) as (d & l & ? & ? & ?); [lia|]. exists d. split; [done|]. split; [done|]. left. by exists l.
  - destruct (ii_lines s Hs i Hi) as (d & Hd & Hlk & Hb & Hk). destruct Hk; [lia|]. exists d. split; [done|]. split; [done|]. right. constructor; try done; [lia|by apply inv_but_of].
Qed.

Lemma held_inv s i d x : held s i d x -> lock d = false -> irq_inv (line_put s i d x).
Proof.
  intros [[l H]|[H1 H2 H3 H4 H5 -> H7]] Hlk; [by eapply at_hw_inv|]. apply inv_done; try done; [apply H7|]. apply line_none; try done. lia.
Qed.

Lemma held_lock s i d x b : held s i d x -> held s i (set_lock d b) x.
Proof.
  intros [[l H]|[H1 H2 H3 H4 [B1 B2 B3 B4 B5 B6 B7 B8] H6 H7]]; [left; exists l; by apply at_hw_lock|right]. by constructor.
Qed.
Lemma held_irqs s i d x b : held s i d x -> held (set_irqs s b) i d x.
Proof.
  intros [[l H]|[H1 H2 H3 H4 H5 H6 H7]]; [left; exists l; by apply at_hw_irqs|right]. constructor; try done. by apply (inv_but_same i s).
Qed.
Lemma held_base s i d x : held s i d x -> line_base i d.
Proof. intros [[l H]|H]; apply H. Qed.

Lemma held_chip s i d x : held s i d x -> exists c, chips s !! chip (data d) = Some c /\
  irq_bus_lock_op c = None /\ irq_bus_sync_unlock_op c = None /\ irq_retrigger_op c = None.
Proof.
  intros [[l H]|H].
  - destruct (at_hw_chip _ _ _ _ _ H) as (c & Hc & []). by exists c.
  - exists the_no_irq_chip. rewrite (an_chip _ _ _ _ H). split; [apply (an_rest _ _ _ _ H)|done].
Qed.

(** [irq_get_desc_lock] and [irq_put_desc_unlock] around code that works on the
    line. *)
Lemma with_desc_put {A} (s : st) i d bus chk (none r : A) f d' x' :
  held s i d (dev s) -> descs s !! i = Some d -> lock d = false -> chip (data d') = chip (data d) -> 0 <= i < NR_IRQS ->
  f i (line_put (set_irqs s false) i (set_lock d true) (dev s)) = Ret (r, line_put (set_irqs s false) i d' x') ->
  with_desc s i bus chk none f = Ret (r, line_put s i (set_lock d' false) x').
Proof.
  intros Hh Hd Hlk Hch Hi Hf. destruct (held_chip _ _ _ _ Hh) as (c & Hc & Hb1 & Hb2 & _).
  unfold with_desc, __irq_get_desc_lock, irq_to_desc. rewrite (proj2 (Z.ltb_lt i NR_IRQS)) by lia.
  assert ((if bus then chip_bus_lock s i else Ret s) = Ret s) as ->.
  { destruct bus; [|done]. rewrite (put_id s i d Hd) at 1. unfold chip_bus_lock. irq_run. rewrite Hc. cbn [lift]. irq_run. rewrite Hb1. by rewrite <- put_id. }
  irq_run. unfold raw_spin_lock_irqsave. rewrite (put_id s i d Hd) at 1. rewrite put_irqs. unfold raw_spin_lock. irq_run. rewrite Hlk. irq_run. rewrite Hf. irq_run.
  unfold __irq_put_desc_unlock, raw_spin_unlock_irqrestore, raw_spin_unlock. irq_run. rewrite put_irqs.
  assert (set_irqs (set_irqs s false) (irqs_on s) = s) as -> by (by destruct s). destruct bus; [|done].
  unfold chip_bus_sync_unlock. irq_run. change (chip (data (set_lock d' false))) with (chip (data d')). rewrite Hch, Hc. cbn [lift]. irq_run. by rewrite Hb2.
Qed.

(** ** Enabling and disabling *)

Lemma noprobe_hw s i d x l : at_hw s i d x l -> at_hw s i (irq_settings_set_noprobe d) x l.
Proof.
  intros [H1 H2 H3 [B1 B2 B3 B4 B5 B6 B7 B8] [M1 M2 M3 M4] H6 H7 H8 H9 H10]. constructor; try done. constructor; try done. by desc_simpl.
Qed.

Lemma base_depth i d n : line_base i d -> is_word n -> irqd_irq_disabled d = negb (n =? 0) -> line_base i (set_depth d n).
Proof. intros [B1 B2 B3 B4 B5 B6 B7 B8] Hn Hd. by constructor. Qed.
Lemma depth_hw s i d x l n : at_hw s i d x l -> is_word n -> irqd_irq_disabled d = negb (n =? 0) -> at_hw s i (set_depth d n) x l.
Proof. intros [H1 H2 H3 H4 [M1 M2 M3 M4] H6 H7 H8 H9 H10] Hn Hd. constructor; try done. by apply base_depth. Qed.
Lemma depth_none s i d x n : at_none s i d x -> is_word n -> irqd_irq_disabled d = negb (n =? 0) -> at_none s i (set_depth d n) x.
Proof. intros [H1 H2 H3 H4 H5 H6 H7] Hn Hd. constructor; try done. by apply base_depth. Qed.
Lemma depth_held s i d x n : held s i d x -> is_word n -> irqd_irq_disabled d = negb (n =? 0) -> held s i (set_depth d n) x.
Proof. intros [[l H]|H] ? ?; [left; exists l; by apply depth_hw|right; by apply depth_none]. Qed.

(** The descriptor after the last [enable_irq]. *)
Definition enabled_desc (d : irq_desc) : irq_desc :=
  set_depth (resent (irqd_clear (irqd_clear (irq_settings_set_noprobe d) IRQD_IRQ_DISABLED) IRQD_IRQ_MASKED)) 0.

Lemma enabled_desc_base i d : line_base i d -> line_base i (enabled_desc d).
Proof.
  intros [B1 B2 B3 B4 B5 B6 B7 B8]. unfold enabled_desc. destruct (resent_same (irqd_clear (irqd_clear (irq_settings_set_noprobe d) IRQD_IRQ_DISABLED) IRQD_IRQ_MASKED)) as (E1 & _ & _ & E4 & E5 & E6 & _ & E8).
  constructor; unfold irqd_irq_disabled; cbn [set_depth data depth status istate threads_oneshot]; rewrite ?E1, ?E4, ?E5, ?E6, ?E8 by done; by desc_simpl.
Qed.

Lemma enabled_desc_same d : data (enabled_desc d) = data (irqd_clear (irqd_clear d IRQD_IRQ_DISABLED) IRQD_IRQ_MASKED) /\
  handle_irq (enabled_desc d) = handle_irq d /\ action (enabled_desc d) = action d.
Proof.
  unfold enabled_desc. cbn [set_depth data handle_irq action].
  destruct (resent_same (irqd_clear (irqd_clear (irq_settings_set_noprobe d) IRQD_IRQ_DISABLED) IRQD_IRQ_MASKED)) as (E1 & E2 & E3 & _). by rewrite E1, E2, E3.
Qed.

Lemma enable_last s i d x : held s i d x -> depth d = 1 ->
  exists x', (s1 ← irq_enable (line_put s i (irq_settings_set_noprobe d) x) i; s2 ← check_irq_resend s1 i; upd s2 i (fun d => set_depth d (depth d -w 1)))
    = Ret (line_put s i (enabled_desc d) x') /\ held s i (enabled_desc d) x' /\ (i < hw_lines -> hw_masked x' i = false).
Proof.
  intros Hh Hd. destruct (held_chip _ _ _ _ Hh) as (c & Hc & _ & _ & Hr).
  set (d1 := irq_settings_set_noprobe d). set (d2 := irqd_clear (irqd_clear d1 IRQD_IRQ_DISABLED) IRQD_IRQ_MASKED).
  assert (exists x', irq_enable (line_put s i d1 x) i = Ret (line_put s i d2 x') /\ held s i (enabled_desc d) x' /\ (i < hw_lines -> hw_masked x' i = false)) as (x' & -> & Hx' & Hm).
  { destruct (enabled_desc_same d) as (E1 & E2 & E3). pose proof (enabled_desc_base i d (held_base _ _ _ _ Hh)) as Hb. destruct Hh as [[l H]|H].
    - destruct (irq_enable_hw s i d1 x l (noprobe_hw _ _ _ _ _ H)) as (x' & E & Hx'). exists x'. split; [done|].
      assert (at_hw s i (enabled_desc d) x' l) as Ha by (apply Hx'; [by rewrite E1|by rewrite E2; apply H|by rewrite E3|done]). split; [left; by exists l|]. intros _.
      apply (lm_open _ _ _ (ah_mask _ _ _ _ _ Ha)); unfold irqd_irq_disabled, irqd_irq_masked; rewrite E1; by desc_simpl.
    - exists x. rewrite (irq_enable_put s i d1 x the_no_irq_chip noop); [|change (chip (data d1)) with (chip (data d)); rewrite (an_chip _ _ _ _ H); apply (an_rest _ _ _ _ H)|done].
      split; [done|]. split; [|pose proof (an_range _ _ _ _ H); lia]. right. destruct H as [H1 H2 H3 H4 H5 H6 H7]. constructor; try done; by rewrite ?E1, ?E2, ?E3. }
  irq_run. rewrite (check_irq_resend_put s i d2 x' c Hc Hr). irq_run. exists x'. split; [|done]. unfold enabled_desc. fold d1 d2.
  destruct (resent_same d2) as (_ & _ & _ & _ & E5 & _). rewrite E5. change (depth d2) with (depth d). by rewrite Hd.
Qed.

Lemma enable_held s i d x : held s i d x ->
  exists d' x', __enable_irq (line_put s i d x) i false = Ret (line_put s i d' x') /\ held s i d' x' /\ chip (data d') = chip (data d) /\ action d' = action d /\
    depth d' = Z.max 0 (depth d - 1) /\ (depth d = 1 -> i < hw_lines -> hw_masked x' i = false).
Proof.
  intros Hh. destruct (held_base _ _ _ _ Hh) as [B1 B2 B3 B4 B5 B6 B7 B8]. unfold __enable_irq. irq_run. cbn [negb]. irq_run.
  unfold is_word in B2. destruct (Z.eqb_spec (depth d) 0) as [E0|E0].
  { exists d, x. split; [done|]. split; [done|]. split; [done|]. split; [done|]. split; lia. }
  destruct (Z.eqb_spec (depth d) 1) as [E1|E1].
  - rewrite B5. irq_run. destruct (enable_last s i d x Hh E1) as (x' & -> & Hx' & Hm). exists (enabled_desc d), x'. split; [done|]. split; [done|].
    destruct (enabled_desc_same d) as (F1 & _ & F3). rewrite F1, F3. split; [done|]. split; [done|]. split; [cbn; lia|]. by intros _.
  - irq_run. exists (set_depth d (depth d -w 1)), x. rewrite wrap_small by (unfold is_word; lia). split; [done|]. split.
    + apply depth_held; [done|unfold is_word; lia|]. rewrite B3, (proj2 (Z.eqb_neq (depth d - 1) 0)) by lia. done.
    + cbn. split; [done|]. split; [done|]. split; lia.
Qed.

Lemma disable_held s i d x : held s i d x -> depth d + 1 < 4294967296 ->
  exists d' x', __disable_irq (line_put s i d x) i false = Ret (line_put s i d' x') /\ held s i d' x' /\ chip (data d') = chip (data d) /\ action d' = action d /\
    depth d' = depth d + 1 /\ irqd_irq_inprogress d' = irqd_irq_inprogress d /\ (i < hw_lines -> hw_masked x' i = true).
Proof.
  intros Hh Hov. destruct (held_base _ _ _ _ Hh) as [B1 B2 B3 B4 B5 B6 B7 B8]. unfold __disable_irq. irq_run. cbn [negb]. irq_run.
  unfold is_word in B2. rewrite wrap_small by (unfold is_word; lia). set (d1 := set_depth d (depth d + 1)). destruct (Z.eqb_spec (depth d) 0) as [E0|E0].
  - set (d2 := irqd_set (irqd_set d1 IRQD_IRQ_DISABLED) IRQD_IRQ_MASKED).
    assert (line_base i d2) as Hb.
    { constructor; try done; unfold d2, d1; desc_simpl; [unfold is_word; lia|]. by rewrite (proj2 (Z.eqb_neq (depth d + 1) 0)) by lia. }
    destruct Hh as [[l H]|H].
    + destruct (at_hw_chip _ _ _ _ _ H) as (c & Hc & [L1 L2 L3 L4 L5 L6 L7 (f & Hf & Hm) L9 L10]).
      rewrite (irq_disable_put s i d1 x c f Hc Hf). do 2 eexists. split; [done|]. fold d2.
      assert (at_hw s i d2 (f (data (irqd_set d1 IRQD_IRQ_DISABLED)) x) l) as Ha.
      { apply (masked_hw s i d x l); try done; [apply H|apply H|unfold d2; by desc_simpl|]. unfold d2. by desc_simpl. }
      split; [left; by exists l|]. split; [done|]. split; [done|]. split; [done|]. split; [unfold d2, d1; by desc_simpl|]. intros _. apply (lm_disabled _ _ _ (ah_mask _ _ _ _ _ Ha)). unfold d2. by desc_simpl.
    + rewrite (irq_disable_put s i d1 x the_no_irq_chip noop); [|change (chip (data d1)) with (chip (data d)); rewrite (an_chip _ _ _ _ H); apply (an_rest _ _ _ _ H)|done].
      do 2 eexists. split; [done|]. split; [right|]. { destruct H as [H1 H2 H3 H4 H5 H6 H7]. by constructor. }
      pose proof (an_range _ _ _ _ H). split; [done|]. split; [done|]. split; [done|]. split; [unfold d1; by desc_simpl|lia].
  - assert (irqd_irq_disabled d = true) as Hdis by (by rewrite B3).
    exists d1, x. split; [done|]. split; [|split; [done|split; [done|split; [done|split; [done|]]]]].
    + apply depth_held; [done|unfold is_word; lia|]. rewrite Hdis, (proj2 (Z.eqb_neq (depth d + 1) 0)) by lia. done.
    + intros Hi. destruct Hh as [[l H]|H]; [|pose proof (an_range _ _ _ _ H); lia]. by apply (lm_disabled _ _ _ (ah_mask _ _ _ _ _ H)).
Qed.

(** ** Lists of actions *)

Lemma chain_elem m i a l b : chain m i a l -> b ∈ l -> b <> 0 /\ exists x, m !! b = Some x /\ act_irq x = i.
Proof.
  revert a. induction l as [|c l IH]; intros a Hc Hb; [by apply elem_of_nil in Hb|]. destruct Hc as (-> & Hne & x & Hx & Hi & Hc).
  apply elem_of_cons in Hb as [->|Hb]; [|by eapply IH]. split; [done|]. by exists x.
Qed.

Lemma chain_frame m m' i a l : chain m i a l -> (forall b, b ∈ l -> m' !! b = m !! b) -> chain m' i a l.
Proof.
  revert a. induction l as [|c l IH]; intros a Hc Hf; [done|]. destruct Hc as (-> & Hne & x & Hx & Hi & Hc).
  split; [done|]. split; [done|]. exists x. rewrite Hf by (by left). split; [done|]. split; [done|]. apply IH; [done|]. intros b Hb. apply Hf. by right.
Qed.

Lemma last_action_chain fuel (s : st) i a l z : chain (acts s) i a (l ++ [z]) -> (length l < fuel)%nat -> last_action fuel s a = Ret z.
Proof.
  revert a fuel. induction l as [|c l IH]; intros a [|fuel] Hc Hf; cbn in Hf; try lia; destruct Hc as (-> & Hne & x & Hx & Hi & Hc); cbn [last_action]; rewrite Hx; cbn [lift mbind run_bind].
  - by rewrite Hc.
  - destruct (Z.eqb_spec (next x) 0) as [E0|E0]; [|apply IH; [done|lia]]. rewrite E0 in Hc. destruct l as [|y l]; destruct Hc as (<- & ? & _); done.
Qed.

Definition with_next (x : irqaction) (n : Z) : irqaction := Action (handler x) (dev_id x) n (thread_fn x) (act_irq x) (flags x).
Definition with_irq (x : irqaction) (i : Z) : irqaction := Action (handler x) (dev_id x) (next x) (thread_fn x) i (flags x).

(** The next pointer of [z] is changed so that [k] follows. *)
Lemma chain_link m i a l z x k0 k b : chain m i a (l ++ z :: k0) -> NoDup (l ++ [z]) -> m !! z = Some x -> chain (<[z := with_next x b]> m) i b k ->
  chain (<[z := with_next x b]> m) i a (l ++ z :: k).
Proof.
  revert a. induction l as [|c l IH]; intros a Hc Hn Hz Hk; cbn in Hc; destruct Hc as (-> & Hne & y & Hy & Hi & Hc).
  - split; [done|]. split; [done|]. exists (with_next x b). rewrite lookup_insert_eq. split; [done|]. split; [|done]. cbn. congruence.
  - cbn in Hn. apply NoDup_cons in Hn as [Hnin Hn]. split; [done|]. split; [done|]. exists y. rewrite lookup_insert_ne; [|intros ->; apply Hnin, elem_of_app; right; by left].
    split; [done|]. split; [done|]. by apply IH.
Qed.

Lemma chain_suffix m i a l b k x : chain m i a (l ++ b :: k) -> m !! b = Some x -> chain m i (next x) k.
Proof.
  revert a. induction l as [|c l IH]; intros a Hc Hb; cbn in Hc; destruct Hc as (-> & Hne & y & Hy & Hi & Hc); [congruence|by eapply IH].
Qed.

Lemma find_action_chain fuel (s : st) i a l dv before : chain (acts s) i a l -> (length l < fuel)%nat ->
  (find_action fuel s before a dv = Ret None /\ forall b x, b ∈ l -> acts s !! b = Some x -> dev_id x <> dv) \/
  exists l1 b l2 x, l = l1 ++ b :: l2 /\ acts s !! b = Some x /\ dev_id x = dv /\ (forall c y, c ∈ l1 -> acts s !! c = Some y -> dev_id y <> dv) /\
    find_action fuel s before a dv = Ret (Some (default before (last l1), b)).
Proof.
  revert a fuel before. induction l as [|c l IH]; intros a [|fuel] before Hc Hf; cbn in Hf; try lia; cbn [find_action].
  - rewrite Hc. left. split; [done|]. intros b x Hb. by apply elem_of_nil in Hb.
  - destruct Hc as (-> & Hne & x & Hx & Hi & Hc). rewrite (proj2 (Z.eqb_neq c 0) Hne), Hx. cbn [lift mbind run_bind]. destruct (Z.eqb_spec (dev_id x) dv) as [Hd|Hd].
    { right. exists [], c, l, x. split; [done|]. split; [done|]. split; [done|]. split; [|done]. intros e y He. by apply elem_of_nil in He. }
    destruct (IH (next x) fuel c Hc) as [[E Hno]|(l1 & b & l2 & y & -> & Hy & Hdy & Hno & E)]; [lia| |].
    + left. split; [done|]. intros b y [->|Hb]%elem_of_cons; [intros; congruence|by apply Hno].
    + right. exists (c :: l1), b, l2, y. split; [done|]. split; [done|]. split; [done|]. split.
      * intros e z [->|He]%elem_of_cons; [intros; congruence|by apply Hno].
      * rewrite E. by destruct l1 as [|? ? _] using rev_ind; [|rewrite last_snoc; rewrite app_comm_cons, last_snoc].
Qed.

(** A change of the actions that the other lines do not see. *)
Lemma inv_but_acts i (s : st) m : inv_but i s ->
  (forall j d l, 0 <= j < NR_IRQS -> j <> i -> descs s !! j = Some d -> chain (acts s) j (action d) l -> chain m j (action d) l) -> inv_but i (set_acts s m).
Proof.
  intros [Hl Hc Hn Hd] Hm. constructor; try done. intros j Hj Hne. destruct (Hl j Hj Hne) as (d & Hd' & Hlk & Hb & Hk).
  exists d. split; [done|]. split; [done|]. split; [done|]. destruct Hk as [l ? ? ? ? ? ?|]; [apply (line_hw _ _ _ l)|apply line_none]; try done. by apply Hm.
Qed.

Lemma at_hw_acts s i d x l m l' a : at_hw s i d x l -> inv_but i (set_acts s m) -> chain m i a l' -> NoDup l' ->
  (a <> 0 -> irqd_irq_disabled d = false -> irqd_irq_inprogress d = false -> irqd_irq_masked d = false) ->
  at_hw (set_acts s m) i (set_action d a) x l'.
Proof.
  intros [H1 H2 H3 [B1 B2 B3 B4 B5 B6 B7 B8] [M1 M2 M3 M4] H6 H7 H8 H9 H10] Hr Hc Hn Hlive. by constructor.
Qed.

(** ** The first action of a line *)

Definition setup_flags (new : irqaction) (d : irq_desc) : irq_desc :=
  let d := set_istate d (without (istate d) (Z.lor (Z.lor IRQS_AUTODETECT IRQS_SPURIOUS_DISABLED) (Z.lor IRQS_ONESHOT IRQS_WAITING))) in
  let d := irqd_clear d IRQD_IRQ_INPROGRESS in
  let d := if has (flags new) IRQF_PERCPU then irq_settings_set_per_cpu (irqd_set d IRQD_PER_CPU) else d in
  if has (flags new) IRQF_ONESHOT then set_istate d (with_bits (istate d) IRQS_ONESHOT) else d.
Definition started_desc (d : irq_desc) : irq_desc :=
  resent (irqd_clear (irqd_clear (set_depth (irqd_clear d IRQD_IRQ_DISABLED) 0) IRQD_IRQ_DISABLED) IRQD_IRQ_MASKED).
Definition balance_desc (new : irqaction) (d : irq_desc) : irq_desc :=
  if has (flags new) IRQF_NOBALANCING then irqd_set (irq_settings_set_no_balancing d) IRQD_NO_BALANCING else d.

Lemma setup_flags_hw s i d x new : at_hw s i d x [] -> at_hw s i (setup_flags new d) x [].
Proof.
  intros [H1 H2 H3 [B1 B2 B3 B4 B5 B6 B7 B8] [M1 M2 M3 M4] H6 H7 H8 H9 H10]. cbn in H9.
  unfold setup_flags. destruct (has (flags new) IRQF_PERCPU), (has (flags new) IRQF_ONESHOT); constructor; try done; constructor; cbn zeta; desc_simpl; done.
Qed.

Lemma started_desc_base i d : line_base i d -> line_base i (started_desc d).
Proof.
  intros [B1 B2 B3 B4 B5 B6 B7 B8]. unfold started_desc. apply line_base_resent. constructor; desc_simpl; done.
Qed.

Lemma started_hw s i d x : at_hw s i d x [] -> exists x', irq_startup (line_put s i d x) i true = Ret (0, line_put s i (started_desc d) x') /\
  at_hw s i (started_desc d) x' [] /\ hw_masked x' i = false.
Proof.
  intros H. unfold irq_startup, irq_state_clr_disabled. irq_run. set (d1 := set_depth (irqd_clear d IRQD_IRQ_DISABLED) 0).
  destruct (at_hw_chip _ _ _ _ _ H) as (c & Hc & L). change (chip (data d1)) with (chip (data d)). rewrite Hc. cbn [lift]. irq_run. rewrite (cl_startup _ L).
  destruct (cl_unmask _ L) as (f & Hf & Hm). rewrite (irq_enable_put s i d1 x c f); [|done|by rewrite (cl_enable _ L)]. irq_run.
  rewrite (check_irq_resend_put s i (irqd_clear (irqd_clear d1 IRQD_IRQ_DISABLED) IRQD_IRQ_MASKED) _ c Hc (cl_retrigger _ L)). irq_run. eexists. split; [done|].
  destruct (at_hw_call s i d x [] false f (data (irqd_clear d1 IRQD_IRQ_DISABLED)) H Hm) as (Hok & Hmi & Hmo); [apply (lb_irq _ _ (ah_base _ _ _ _ _ H))|].
  split; [|done]. destruct H as [H1 H2 H3 H4 H5 H6 H7 H8 H9 H10]. unfold started_desc. fold d1.
  destruct (resent_same (irqd_clear (irqd_clear d1 IRQD_IRQ_DISABLED) IRQD_IRQ_MASKED)) as (E1 & E2 & E3 & _).
  constructor; try done; rewrite ?E1, ?E2, ?E3; try done; [by apply (started_desc_base i d)|]. apply line_mask_resent. constructor; unfold d1; desc_simpl; done.
Qed.

Lemma balance_hw s i d x l new : at_hw s i d x l -> at_hw s i (balance_desc new d) x l.
Proof.
  unfold balance_desc. destruct (has (flags new) IRQF_NOBALANCING); [|done].
  intros [H1 H2 H3 [B1 B2 B3 B4 B5 B6 B7 B8] [M1 M2 M3 M4] H6 H7 H8 H9 H10]. constructor; try done; constructor; desc_simpl; done.
Qed.

Lemma setup_first_hw s i d x new : at_hw s i d x [] ->
  exists d' x', setup_first (line_put s i d x) i new = Ret (0, line_put s i d' x') /\ at_hw s i d' x' [] /\ hw_masked x' i = false /\ depth d' = 0 /\ irqd_irq_masked d' = false.
Proof.
  intros H. unfold setup_first. destruct (at_hw_chip _ _ _ _ _ H) as (c & Hc & L).
  assert ((if has (flags new) IRQF_TRIGGER_MASK then __irq_set_trigger (line_put s i d x) i (Z.land (flags new) IRQF_TRIGGER_MASK) else Ret (0, line_put s i d x)) = Ret (0, line_put s i d x)) as ->.
  { destruct (has (flags new) IRQF_TRIGGER_MASK); [|done]. unfold __irq_set_trigger. irq_run. destruct (chip (data d) =? 0); [done|].
    change (chips (line_put s i d x)) with (chips s). rewrite Hc. cbn [fmap option_fmap option_map]. by rewrite (cl_set_type _ L). }
  irq_run. cbn [negb Z.eqb]. irq_run. fold (setup_flags new d). pose proof (setup_flags_hw s i d x new H) as H1.
  unfold irq_settings_can_autoenable. rewrite (lb_autoen _ _ (ah_base _ _ _ _ _ H1)). cbn [negb].
  destruct (started_hw s i _ x H1) as (x' & -> & H2 & Hm). irq_run.
  exists (balance_desc new (started_desc (setup_flags new d))), x'. split; [|split; [by apply balance_hw|split; [done|]]].
  - unfold balance_desc. destruct (has (flags new) IRQF_NOBALANCING); by irq_run.
  - unfold balance_desc, started_desc. destruct (resent_same (irqd_clear (irqd_clear (set_depth (irqd_clear (setup_flags new d) IRQD_IRQ_DISABLED) 0) IRQD_IRQ_DISABLED) IRQD_IRQ_MASKED)) as (E1 & _ & _ & _ & E5 & _).
    destruct (has (flags new) IRQF_NOBALANCING); unfold irqd_irq_masked; desc_simpl; rewrite E1, ?E5; by desc_simpl.
Qed.

(** ** Requesting a line *)

(** [a] is in no list of actions. *)
Definition unlinked (s : st) (a : Z) : Prop := forall j d l, 0 <= j < NR_IRQS -> descs s !! j = Some d -> chain (acts s) j (action d) l -> a ∉ l.

(** Only links change, but for [a]. *)
Definition relinked (m m' : gmap Z irqaction) (a : Z) : Prop := forall b x, b <> a -> m !! b = Some x -> exists n, m' !! b = Some (with_next x n).

(** The outcome of a request for [a] on a line with the actions [l]. *)
Definition requested (s s' : st) (i a : Z) (d : irq_desc) (l : list Z) (new : irqaction) : Prop :=
  exists m d' x', s' = line_put (set_acts s m) i d' x' /\ at_hw (set_acts s m) i d' x' (l ++ [a]) /\ m !! a = Some (with_irq new i) /\ relinked (acts s) m a /\
    (if decide (l = []) then depth d' = 0 /\ hw_masked x' i = false else depth d' = depth d /\ x' = dev s).

Lemma others_keep s i a y : inv_but i s -> unlinked s a -> inv_but i (set_acts s (<[a := y]> (acts s))).
Proof.
  intros Hs Hu. apply inv_but_acts; [done|]. intros j e k Hr Hj He Hc. apply (chain_frame _ _ _ _ _ Hc). intros b Hb.
  rewrite lookup_insert_ne; [done|]. intros <-. by apply (Hu j e k Hr He Hc).
Qed.

Lemma setup_locked_first fuel s i a d new x : at_hw s i d x [] -> acts s !! a = Some new -> a <> 0 -> next new = 0 -> unlinked s a ->
  exists s', setup_locked fuel (line_put s i d x) i a = Ret (0, s') /\ requested s s' i a d [] new.
Proof.
  intros H Ha Hne Hnx Hu. unfold setup_locked. change (acts (line_put s i d x)) with (acts s). rewrite Ha. cbn [lift]. irq_run.
  pose proof (ah_chain _ _ _ _ _ H) as Hc. cbn in Hc. rewrite Hc. cbn [Z.eqb].
  destruct (setup_first_hw s i d x new H) as (d' & x' & -> & H' & Hm & Hdep & Hmk). irq_run. cbn [negb Z.eqb]. unfold set_act_irq.
  change (acts (line_put s i d' x')) with (acts s). rewrite Ha. cbn [lift]. irq_run. rewrite put_acts. irq_run. eexists. split; [done|].
  eexists _, (set_action d' a), x'. split; [done|]. split; [|split; [apply lookup_insert_eq|split; [|by cbn]]].
  apply (at_hw_acts s i d' x' [] _ [a] a H').
  - apply others_keep; [apply H|done].
  - split; [done|]. split; [done|]. exists (with_irq new i). rewrite lookup_insert_eq. by cbn.
  - apply NoDup_singleton.
  - done.
  - intros b y Hb Hy. exists (next y). rewrite lookup_insert_ne by done. by destruct y.
Qed.

Lemma setup_locked_shared fuel s i a d new old l z : at_hw s i d (dev s) (l ++ [z]) -> acts s !! a = Some new -> a <> 0 -> next new = 0 -> unlinked s a ->
  a ∉ l ++ [z] -> acts s !! action d = Some old -> (length l < fuel)%nat ->
  exists r s', setup_locked fuel (line_put s i d (dev s)) i a = Ret (r, s') /\
    ((may_share old new = true /\ r = 0 /\ requested s s' i a d (l ++ [z]) new) \/ (may_share old new = false /\ r = - EBUSY /\ s' = line_put s i d (dev s))).
Proof.
  intros H Ha Hne Hnx Hu Hnin Hold Hf.
  unfold setup_locked. change (acts (line_put s i d (dev s))) with (acts s). rewrite Ha. cbn [lift]. irq_run.
  pose proof (ah_chain _ _ _ _ _ H) as Hc. destruct (Z.eqb_spec (action d) 0) as [E0|_].
  { rewrite E0 in Hc. by destruct l; destruct Hc as (<- & ? & _). }
  change (acts (line_put s i d (dev s))) with (acts s). rewrite Hold. cbn [lift]. irq_run. destruct (may_share old new) eqn:Es; cbn [negb].
  2: { do 2 eexists. split; [done|]. by right. }
  rewrite (last_action_chain fuel (line_put s i d (dev s)) i (action d) l z Hc Hf). irq_run. unfold set_act_irq. change (acts (line_put s i d (dev s))) with (acts s). rewrite Ha. cbn [lift]. irq_run.
  rewrite put_acts. unfold set_next. set (m1 := <[a := _]> (acts s)). destruct (chain_elem _ _ _ _ z Hc) as (_ & w & Hw & _); [apply elem_of_app; right; by left|].
  assert (m1 !! z = Some w) as Hw1. { unfold m1. rewrite lookup_insert_ne; [done|]. intros ->. apply Hnin, elem_of_app. right. by left. }
  change (acts (line_put (set_acts s m1) i d (dev s))) with m1. rewrite Hw1. cbn [lift]. irq_run. rewrite put_acts. rewrite (lb_spurious _ _ (ah_base _ _ _ _ _ H)). irq_run.
  do 2 eexists. split; [done|]. left. split; [done|]. split; [done|]. eexists _, d, (dev s). split; [done|]. fold (with_next w a). set (m2 := <[z := with_next w a]> m1).
  assert (z <> a) as Hza by (intros ->; apply Hnin, elem_of_app; right; by left).
  split; [|split; [unfold m2, m1; by rewrite lookup_insert_ne, lookup_insert_eq by done|split; [|by case_decide; [destruct l|]]]].
  2: { intros b y Hb Hy. unfold m2. destruct (decide (b = z)) as [->|]; [exists a; rewrite lookup_insert_eq; congruence|].
       exists (next y). unfold m1. rewrite !lookup_insert_ne by done. by destruct y. }
  change (set_acts (set_acts s m1) m2) with (set_acts s m2). replace d with (set_action d (action d)) at 1 by (by destruct d).
  apply (at_hw_acts s i d (dev s) (l ++ [z]) m2 _ _ H).
  - apply inv_but_acts; [apply H|]. intros j e k Hr Hj He Hk. apply (chain_frame _ _ _ _ _ Hk). intros b Hb. unfold m2, m1.
    destruct (chain_elem _ _ _ _ b Hk Hb) as (_ & y & Hy & Hyi). destruct (chain_elem _ _ _ _ z Hc) as (_ & w' & Hw' & Hwi); [apply elem_of_app; right; by left|].
    rewrite !lookup_insert_ne; [done|intros <-; by apply (Hu j e k Hr He Hk)|intros <-; congruence].
  - rewrite <- app_assoc. apply (chain_link _ _ _ _ _ _ []); [apply (chain_frame _ _ _ _ _ Hc)|apply H|done|].
    + intros b Hb. unfold m1. rewrite lookup_insert_ne; [done|]. by intros <-.
    + split; [done|]. split; [done|]. exists (with_irq new i). unfold m1. rewrite lookup_insert_ne, lookup_insert_eq by done. by cbn.
  - apply NoDup_app. split; [apply H|]. split; [|apply NoDup_singleton]. intros b Hb ->%list_elem_of_singleton. done.
  - apply (lm_live _ _ _ (ah_mask _ _ _ _ _ H)).
Qed.

Lemma chain_det m i a l l' : chain m i a l -> chain m i a l' -> l = l'.
Proof.
  revert a l'. induction l as [|b l IH]; intros a [|b' l'] H H'; cbn in H, H'; [done|destruct H' as (? & ? & _); congruence|destruct H as (? & ? & _); congruence|].
  destruct H as (-> & _ & x & Hx & _ & H), H' as (-> & _ & x' & Hx' & _ & H'). f_equal. rewrite Hx in Hx'. injection Hx' as <-. by eapply IH.
Qed.

Lemma at_hw_line s i d l : irq_inv s -> 0 <= i < hw_lines -> descs s !! i = Some d -> chain (acts s) i (action d) l ->
  lock d = false /\ at_hw s i d (dev s) l.
Proof.
  intros Hs Hi Hd Hc. destruct (at_hw_of s i Hs Hi) as (d' & l' & Hd' & Hlk & H). rewrite Hd in Hd'. injection Hd' as <-. split; [done|].
  by rewrite (chain_det _ _ _ _ _ Hc (ah_chain _ _ _ _ _ H)).
Qed.

Lemma bus_lock_inv s i : irq_inv s -> 0 <= i < NR_IRQS -> chip_bus_lock s i = Ret s /\ chip_bus_sync_unlock s i = Ret s.
Proof.
  intros Hs Hi. destruct (held_of s i Hs Hi) as (d & Hd & _ & Hh). destruct (held_chip _ _ _ _ Hh) as (c & Hc & H1 & H2 & _).
  rewrite (put_id s i d Hd). unfold chip_bus_lock, chip_bus_sync_unlock. irq_run. rewrite Hc. cbn [lift]. irq_run. by rewrite H1, H2.
Qed.

Lemma relock (d : irq_desc) b : lock d = b -> set_lock (set_lock d true) b = d.
Proof. intros <-. by destruct d. Qed.

Lemma irqs_restored (s : st) : set_irqs (set_irqs s false) (irqs_on s) = s.
Proof. by destruct s. Qed.

Lemma desc_of_eq (s : st) i d : descs s !! i = Some d -> desc_of s i = Ret d.
Proof. unfold desc_of. by intros ->. Qed.

Lemma lock_irqsave (s : st) i d : descs s !! i = Some d -> lock d = false ->
  raw_spin_lock_irqsave s i = Ret (irqs_on s, line_put (set_irqs s false) i (set_lock d true) (dev s)).
Proof.
  intros Hd Hlk. unfold raw_spin_lock_irqsave. cbn zeta. set (s1 := set_irqs s false). rewrite (put_id s1 i d Hd) at 1. unfold raw_spin_lock. irq_run. rewrite Hlk. by irq_run.
Qed.

Lemma unlock_irqrestore (s : st) i d x b : raw_spin_unlock_irqrestore (line_put s i d x) i b = Ret (line_put (set_irqs s b) i (set_lock d false) x).
Proof. unfold raw_spin_unlock_irqrestore, raw_spin_unlock. by irq_run. Qed.

(** With the lock of the line around it. *)
Lemma setup_hw fuel s i a d l new : irq_inv s -> 0 <= i < hw_lines -> descs s !! i = Some d -> chain (acts s) i (action d) l -> (length l <= fuel)%nat ->
  acts s !! a = Some new -> a <> 0 -> next new = 0 -> unlinked s a ->
  exists r s', __setup_irq fuel s (Some i) a = Ret (r, s') /\
    (((forall old, acts s !! action d = Some old -> l <> [] -> may_share old new = true) /\ r = 0 /\ requested s s' i a d l new /\ irq_inv s') \/
     (r = - EBUSY /\ s' = s /\ l <> [] /\ exists old, acts s !! action d = Some old /\ may_share old new = false)).
Proof.
  intros Hs Hi Hd Hc Hf Ha Hne Hnx Hu. destruct (at_hw_line s i d l Hs Hi Hd Hc) as [Hlk H].
  unfold __setup_irq. rewrite (desc_of_eq s i d Hd). irq_run. rewrite (ah_chip _ _ _ _ _ H), (proj2 (Z.eqb_neq _ _) hw_chip_new).
  rewrite (lock_irqsave s i d Hd Hlk). irq_run.
  set (s1 := set_irqs s false). pose proof (at_hw_lock _ _ _ _ _ true (at_hw_irqs _ _ _ _ _ false H)) as H1. fold s1 in H1.
  assert (forall r s', (exists s2, setup_locked fuel (line_put s1 i (set_lock d true) (dev s)) i a = Ret (r, s2) /\
     raw_spin_unlock_irqrestore s2 i (irqs_on s) = Ret s') -> ('(ret, s0) ← setup_locked fuel (line_put s1 i (set_lock d true) (dev s)) i a; s0 ← raw_spin_unlock_irqrestore s0 i (irqs_on s); Ret (ret, s0)) = Ret (r, s')) as Hrun.
  { intros r s' (s2 & -> & E2). irq_run. by rewrite E2. }
  assert (forall s', requested s1 s' i a (set_lock d true) l new -> exists s2, raw_spin_unlock_irqrestore s' i (irqs_on s) = Ret s2 /\ requested s s2 i a d l new /\ irq_inv s2) as Hdone.
  { intros s' (m & d' & x' & -> & H2 & Hm & Hrl & Hres). rewrite unlock_irqrestore. eexists. split; [done|].
    change (set_irqs (set_acts s1 m) (irqs_on s)) with (set_acts (set_irqs s1 (irqs_on s)) m). unfold s1. rewrite irqs_restored.
    assert (at_hw (set_acts s m) i (set_lock d' false) x' (l ++ [a])) as H3.
    { apply at_hw_lock. apply (at_hw_irqs _ _ _ _ _ (irqs_on s)) in H2. change (set_irqs (set_acts s1 m) (irqs_on s)) with (set_acts (set_irqs s1 (irqs_on s)) m) in H2. unfold s1 in H2. by rewrite irqs_restored in H2. }
    split; [exists m, (set_lock d' false), x'; by split|]. by eapply at_hw_inv. }
  destruct l as [|z l _] using rev_ind.
  - destruct (setup_locked_first fuel s1 i a (set_lock d true) new (dev s) H1 Ha Hne Hnx Hu) as (s' & E1 & Hq). destruct (Hdone s' Hq) as (s2 & E2 & Hq2 & Hinv).
    exists 0, s2. split; [apply Hrun; by exists s'|]. left. split; [done|]. by split.
  - destruct (acts s !! action d) as [old|] eqn:Eo; [|by destruct (chain_elem _ _ _ _ (action d) Hc) as (_ & ? & ? & _); [destruct l; destruct Hc as (-> & _); by left|congruence]].
    rewrite length_app in Hf. cbn in Hf. destruct (setup_locked_shared fuel s1 i a (set_lock d true) new old l z H1 Ha Hne Hnx Hu) as (r & s' & E1 & Hq); [pose proof hw_lines_range; by apply (Hu i d); [lia|..]|done|lia|].
    destruct Hq as [(Hsh & -> & Hq)|(Hsh & -> & ->)].
    + destruct (Hdone s' Hq) as (s2 & E2 & Hq2 & Hinv). exists 0, s2. split; [apply Hrun; by exists s'|]. left. split; [intros ? [= <-]; done|]. by split.
    + exists (- EBUSY), s. split; [|right; split; [done|split; [done|split; [by destruct l|by exists old]]]]. apply Hrun. exists (line_put s1 i (set_lock d true) (dev s)). split; [done|].
      rewrite unlock_irqrestore. unfold s1. rewrite irqs_restored, relock, <- put_id by done. done.
Qed.

(** A new action in memory is in no list. *)
Lemma alloc_inv s mem y : irq_inv s -> acts s !! mem = None ->
  irq_inv (set_acts s (<[mem := y]> (acts s))) /\ unlinked (set_acts s (<[mem := y]> (acts s))) mem /\
  forall j a l, chain (acts s) j a l -> chain (<[mem := y]> (acts s)) j a l.
Proof.
  intros Hs Hm. assert (forall j a l, chain (acts s) j a l -> mem ∉ l) as Hnin.
  { intros j a l Hc Hin. destruct (chain_elem _ _ _ _ _ Hc Hin) as (_ & x & Hx & _). congruence. }
  assert (forall j a l, chain (acts s) j a l -> chain (<[mem := y]> (acts s)) j a l) as Hk.
  { intros j a l Hc. apply (chain_frame _ _ _ _ _ Hc). intros b Hb. rewrite lookup_insert_ne; [done|]. intros <-. by apply (Hnin j a l). }
  split; [|split; [|done]].
  - destruct Hs as [Hl Hc Hn Hd]. constructor; try done. intros j Hj. destruct (Hl j Hj) as (d & Hd' & Hlk & Hb & Hkd). exists d. split; [done|]. split; [done|]. split; [done|].
    destruct Hkd as [l ? ? ? ? ? ?|]; [apply (line_hw _ _ _ l)|apply line_none]; try done. by apply Hk.
  - intros j d l Hj Hd Hc Hin. cbn in Hd, Hc. destruct (ii_lines s Hs j Hj) as (d' & Hd' & _ & _ & Hkd). rewrite Hd in Hd'. injection Hd' as <-.
    destruct Hkd as [k _ _ _ _ Hck _|_ _ _ Ha]; [|rewrite Ha in Hc; rewrite (chain_det _ _ _ _ [] Hc eq_refl) in Hin; by apply elem_of_nil in Hin].
    rewrite (chain_det _ _ _ _ _ Hc (Hk _ _ _ Hck)) in Hin. by apply (Hnin j (action d) k).
Qed.

Lemma free_mem (s : st) mem y : acts s !! mem = None -> set_acts (set_acts s (<[mem := y]> (acts s))) (delete mem (<[mem := y]> (acts s))) = s.
Proof. intros Hm. rewrite delete_insert_id by done. by destruct s. Qed.

(** The handler that is called first. *)
Definition primary (h thread_fn : option irq_handler) : option irq_handler :=
  match h, thread_fn with Some h, _ => Some h | None, Some _ => Some irq_default_primary_handler | None, None => None end.

Lemma request_hw fuel s i d l h tf fl dv mem h0 :
  irq_inv s -> 0 <= i < hw_lines -> descs s !! i = Some d -> chain (acts s) i (action d) l -> (length l <= fuel)%nat -> acts s !! mem = None -> mem <> 0 ->
  has fl IRQF_SHARED && (dv =? 0) = false -> irq_settings_can_request d = true -> primary h tf = Some h0 ->
  let new := Action h0 dv 0 tf 0 fl in
  exists r s', request_threaded_irq fuel s i h tf fl dv mem = Ret (r, s') /\ irq_inv s' /\
    (((forall old, acts s !! action d = Some old -> l <> [] -> may_share old new = true) /\ r = 0 /\
       requested (set_acts s (<[mem := new]> (acts s))) s' i mem d l new) \/
     (r = - EBUSY /\ s' = s /\ l <> [] /\ exists old, acts s !! action d = Some old /\ may_share old new = false)).
Proof.
  intros Hs Hi Hd Hc Hf Hm Hne Hsh Hreq Hp new. pose proof hw_lines_range as Hr. unfold request_threaded_irq. rewrite Hsh. unfold irq_to_desc. rewrite (proj2 (Z.ltb_lt i NR_IRQS)) by lia.
  rewrite (desc_of_eq s i d Hd). irq_run. rewrite Hreq. cbn [negb]. fold (primary h tf). rewrite Hp, (proj2 (Z.eqb_neq mem 0) Hne). fold new.
  destruct (alloc_inv s mem new Hs Hm) as (Hs1 & Hu & Hk). set (s1 := set_acts s (<[mem := new]> (acts s))) in *.
  rewrite (proj1 (bus_lock_inv s1 i Hs1 ltac:(lia))). irq_run.
  destruct (setup_hw fuel s1 i mem d l new Hs1 Hi Hd (Hk _ _ _ Hc) Hf) as (r & s' & -> & Hres); [apply lookup_insert_eq|done|done|done|]. irq_run.
  assert (forall old, (l <> [] \/ action d <> mem) -> acts s1 !! action d = Some old -> acts s !! action d = Some old) as Hold.
  { intros old Hl. unfold s1. cbn. destruct (decide (action d = mem)) as [E|]; [|by rewrite lookup_insert_ne by done].
    destruct Hl as [Hl|]; [|done]. destruct l as [|b l]; [done|]. destruct Hc as (E2 & _ & x & Hx & _). congruence. }
  destruct Hres as [(Hms & -> & Hq & Hinv)|(-> & -> & Hln & old & Ho & Hms)].
  - rewrite (proj2 (bus_lock_inv s' i Hinv ltac:(lia))). irq_run. exists 0, s'. split; [done|]. split; [done|]. left. split; [|done].
    intros old Ho Hl. apply Hms; [|done]. unfold s1. cbn. rewrite lookup_insert_ne; [done|]. intros Em. congruence.
  - rewrite (proj2 (bus_lock_inv s1 i Hs1 ltac:(lia))). irq_run. cbn [Z.eqb Z.opp EBUSY]. exists (- EBUSY), s. unfold s1 at 1 2. rewrite free_mem by done. split; [done|]. split; [done|]. right. split; [done|]. split; [done|]. split; [done|].
    exists old. split; [|done]. apply Hold; [by left|done].
Qed.

(** ** Freeing a line *)

Lemma shutdown_hw s i d x : at_hw s i d x [] ->
  exists d' x', irq_shutdown (line_put s i d x) i = Ret (line_put s i d' x') /\ at_hw s i d' x' [] /\ hw_masked x' i = true /\ depth d' = 1 /\ action d' = action d.
Proof.
  intros H. unfold irq_shutdown, irq_state_set_disabled, irq_state_set_masked. irq_run. set (d1 := set_depth (irqd_set d IRQD_IRQ_DISABLED) 1).
  destruct (at_hw_chip _ _ _ _ _ H) as (c & Hc & L). change (chip (data d1)) with (chip (data d)). rewrite Hc. cbn [lift]. irq_run. rewrite (cl_shutdown _ L).
  destruct (cl_disable _ L) as (f & -> & Hm). irq_run. do 2 eexists. split; [done|].
  destruct (at_hw_call s i d x [] true f (data d1) H Hm) as (_ & Hmi & _); [apply (lb_irq _ _ (ah_base _ _ _ _ _ H))|].
  split; [|done]. pose proof (ah_base _ _ _ _ _ H) as [B1 B2 B3 B4 B5 B6 B7 B8].
  apply (masked_hw s i d x [] f (data d1)); try done; [apply H|apply H| | |]; unfold d1; [constructor; by desc_simpl|by desc_simpl|by desc_simpl].
Qed.

(** The outcome for a line from which [b] was taken out; [l'] is left. *)
Definition freed (s s' : st) (i b : Z) (d : irq_desc) (l' : list Z) : Prop :=
  exists m d' x', s' = line_put (set_acts s m) i d' x' /\ at_hw (set_acts s m) i d' x' l' /\ (forall c, c ∉ l' -> m !! c = acts s !! c) /\
    (if decide (l' = []) then depth d' = 1 /\ hw_masked x' i = true else depth d' = depth d /\ x' = dev s).

(** The list without [b]. *)
Lemma unlink_hw s i d l1 b l2 x : at_hw s i d (dev s) (l1 ++ b :: l2) -> acts s !! b = Some x ->
  exists m d', (if default 0 (last l1) =? 0 then Ret (line_put s i (set_action d (next x)) (dev s)) else set_next (line_put s i d (dev s)) (default 0 (last l1)) (next x))
      = Ret (line_put (set_acts s m) i d' (dev s)) /\ at_hw (set_acts s m) i d' (dev s) (l1 ++ l2) /\ depth d' = depth d /\ (forall c, c ∉ l1 ++ l2 -> m !! c = acts s !! c).
Proof.
  intros H Hb. pose proof (ah_chain _ _ _ _ _ H) as Hc. pose proof (ah_nodup _ _ _ _ _ H) as Hn.
  pose proof (chain_suffix _ _ _ _ _ _ _ Hc Hb) as Hsuf. pose proof (lm_live _ _ _ (ah_mask _ _ _ _ _ H)) as Hlive.
  assert (NoDup (l1 ++ l2)) as Hn'. { rewrite <- Permutation_middle in Hn. by apply NoDup_cons in Hn as [_ Hn]. }
  destruct l1 as [|z l0 _] using rev_ind.
  - cbn [last default from_option id Z.eqb app] in *. irq_run. exists (acts s), (set_action d (next x)). replace (set_acts s (acts s)) with s by (by destruct s). split; [done|].
    split; [|done]. replace s with (set_acts s (acts s)) at 1 by (by destruct s). apply (at_hw_acts s i d (dev s) _ (acts s) l2 (next x) H); [|done|done|].
    + replace (set_acts s (acts s)) with s by (by destruct s). apply H.
    + intros _. apply Hlive. cbn in Hc. destruct Hc as (-> & ? & _). done.
  - rewrite last_snoc. cbn [default from_option id]. rewrite <- app_assoc in Hc, Hn'. cbn [app] in Hc, Hn'.
    destruct (chain_elem _ _ _ _ z Hc) as (Hz & w & Hw & Hwi); [apply elem_of_app; right; by left|].
    rewrite (proj2 (Z.eqb_neq z 0) Hz). unfold set_next. change (acts (line_put s i d (dev s))) with (acts s). rewrite Hw. cbn [lift]. irq_run. rewrite put_acts. fold (with_next w (next x)).
    exists (<[z := with_next w (next x)]> (acts s)), d. split; [done|]. rewrite <- app_assoc. cbn [app]. replace d with (set_action d (action d)) at 1 by (by destruct d).
    assert (z ∉ l2) as Hzl. { apply NoDup_app in Hn' as (_ & _ & Hn'). by apply NoDup_cons in Hn' as [? _]. }
    split; [|split; [done|]].
    + apply (at_hw_acts s i d (dev s) _ _ _ _ H); [| |done|done].
      * apply inv_but_acts; [apply H|]. intros j e k Hr Hj He Hk. apply (chain_frame _ _ _ _ _ Hk). intros c Hck.
        destruct (chain_elem _ _ _ _ c Hk Hck) as (_ & y & Hy & Hyi). rewrite lookup_insert_ne; [done|]. intros <-. congruence.
      * apply (chain_link _ _ _ _ _ _ (b :: l2)); [done| |done|].
        -- rewrite <- app_assoc in Hn. cbn in Hn. apply NoDup_app in Hn as (? & Hd' & Hn2). apply NoDup_app. split; [done|]. split; [|apply NoDup_singleton].
           intros c Hcl ->%list_elem_of_singleton. apply (Hd' z Hcl). by left.
        -- apply (chain_frame _ _ _ _ _ Hsuf). intros c Hcl. rewrite lookup_insert_ne; [done|]. by intros <-.
    + intros c Hcl. rewrite lookup_insert_ne; [done|]. intros <-. apply Hcl, elem_of_app. right. by left.
Qed.

Lemma free_locked_hw fuel s i d l dv : at_hw s i d (dev s) l -> (length l < fuel)%nat ->
  (free_locked fuel (line_put s i d (dev s)) i dv = Ret (0, line_put s i d (dev s)) /\ forall b x, b ∈ l -> acts s !! b = Some x -> dev_id x <> dv) \/
  exists l1 b l2 x s', l = l1 ++ b :: l2 /\ acts s !! b = Some x /\ dev_id x = dv /\ (forall c y, c ∈ l1 -> acts s !! c = Some y -> dev_id y <> dv) /\
    free_locked fuel (line_put s i d (dev s)) i dv = Ret (b, s') /\ freed s s' i b d (l1 ++ l2).
Proof.
  intros H Hf. unfold free_locked. irq_run. pose proof (ah_chain _ _ _ _ _ H) as Hc.
  destruct (find_action_chain fuel (line_put s i d (dev s)) i (action d) l dv 0 Hc Hf) as [[-> Hno]|(l1 & b & l2 & x & -> & Hb & Hdv & Hno & ->)]; irq_run; [by left|right].
  change (acts (line_put s i d (dev s))) with (acts s) in *. rewrite Hb. cbn [lift]. irq_run.
  destruct (unlink_hw s i d l1 b l2 x H Hb) as (m & d' & -> & H' & Hdep & Hm). irq_run.
  exists l1, b, l2, x. pose proof (ah_chain _ _ _ _ _ H') as Hc'. cbn in Hc'. destruct (decide (l1 ++ l2 = [])) as [El|El].
  - rewrite El in Hc', H'. cbn in Hc'. rewrite Hc'. cbn [Z.eqb]. destruct (shutdown_hw _ i d' (dev s) H') as (d2 & x2 & -> & H2 & Hmk & Hd2 & _). irq_run.
    eexists. split; [done|]. split; [done|]. split; [done|]. split; [done|]. split; [done|]. exists m, d2, x2. split; [done|]. rewrite El. split; [done|]. split; [intros; apply Hm; by rewrite El|]. by case_decide.
  - assert (action d' <> 0) as Hne by (destruct (l1 ++ l2); [done|]; destruct Hc' as (-> & ? & _); done). rewrite (proj2 (Z.eqb_neq _ 0) Hne). irq_run.
    eexists. split; [done|]. split; [done|]. split; [done|]. split; [done|]. split; [done|]. exists m, d', (dev s). split; [done|]. split; [done|]. split; [done|]. by case_decide.
Qed.

Lemma delete_inv s a : irq_inv s -> unlinked s a -> irq_inv (set_acts s (delete a (acts s))).
Proof.
  intros [Hl Hc Hn Hd] Hu. constructor; try done. intros j Hj. destruct (Hl j Hj) as (d & Hd' & Hlk & Hb & Hk). exists d. split; [done|]. split; [done|]. split; [done|].
  destruct Hk as [l ? ? ? ? Hcl ?|]; [apply (line_hw _ _ _ l)|apply line_none]; try done. apply (chain_frame _ _ _ _ _ Hcl). intros b Hb'.
  cbn. rewrite lookup_delete_ne; [done|]. intros <-. by apply (Hu j d l Hj Hd' Hcl).
Qed.

Lemma unlinked_null s : unlinked s 0.
Proof. intros j d l _ _ Hc Hin. by destruct (chain_elem _ _ _ _ _ Hc Hin). Qed.

(** [__free_irq] of a line of the controller. *)
Lemma free_core fuel s i d l dv : irq_inv s -> 0 <= i < hw_lines -> descs s !! i = Some d -> chain (acts s) i (action d) l -> (length l < fuel)%nat ->
  (__free_irq fuel s i dv = Ret (0, s) /\ forall b x, b ∈ l -> acts s !! b = Some x -> dev_id x <> dv) \/
  exists l1 b l2 x s', l = l1 ++ b :: l2 /\ acts s !! b = Some x /\ dev_id x = dv /\ (forall c y, c ∈ l1 -> acts s !! c = Some y -> dev_id y <> dv) /\
    __free_irq fuel s i dv = Ret (b, s') /\ freed s s' i b d (l1 ++ l2) /\ irq_inv s'.
Proof.
  intros Hs Hi Hd Hc Hf. pose proof hw_lines_range as Hr. destruct (at_hw_line s i d l Hs Hi Hd Hc) as [Hlk H].
  unfold __free_irq, irq_to_desc. rewrite (proj2 (Z.ltb_lt i NR_IRQS)) by lia. rewrite (lock_irqsave s i d Hd Hlk). irq_run. set (s1 := set_irqs s false).
  pose proof (at_hw_lock _ _ _ _ _ true (at_hw_irqs _ _ _ _ _ false H)) as H1. fold s1 in H1.
  destruct (free_locked_hw fuel s1 i (set_lock d true) l dv H1 Hf) as [[E Hno]|(l1 & b & l2 & x & s' & -> & Hb & Hdv & Hno & E & m & d' & x' & -> & H2 & Hm & Hres)];
    change (dev s1) with (dev s) in *; rewrite E; irq_run; rewrite unlock_irqrestore; irq_run.
  - left. split; [|done]. unfold s1. by rewrite irqs_restored, relock, <- put_id by done.
  - right. exists l1, b, l2, x. eexists. split; [done|]. split; [done|]. split; [done|]. split; [done|]. split; [done|].
    change (set_irqs (set_acts s1 m) (irqs_on s)) with (set_acts (set_irqs s1 (irqs_on s)) m). unfold s1. rewrite irqs_restored.
    assert (at_hw (set_acts s m) i (set_lock d' false) x' (l1 ++ l2)) as H3.
    { apply at_hw_lock. apply (at_hw_irqs _ _ _ _ _ (irqs_on s)) in H2. change (set_irqs (set_acts s1 m) (irqs_on s)) with (set_acts (set_irqs s1 (irqs_on s)) m) in H2. unfold s1 in H2. by rewrite irqs_restored in H2. }
    split; [exists m, (set_lock d' false), x'; by split|]. by eapply at_hw_inv.
Qed.

Lemma free_hw fuel s i d l dv : irq_inv s -> 0 <= i < hw_lines -> descs s !! i = Some d -> chain (acts s) i (action d) l -> (length l < fuel)%nat ->
  exists s', free_irq fuel s i dv = Ret s' /\ irq_inv s' /\
    ((descs s' = descs s /\ dev s' = dev s /\ acts s' = delete 0 (acts s) /\ forall b x, b ∈ l -> acts s !! b = Some x -> dev_id x <> dv) \/
     exists l1 b l2 x d', l = l1 ++ b :: l2 /\ acts s !! b = Some x /\ dev_id x = dv /\ (forall c y, c ∈ l1 -> acts s !! c = Some y -> dev_id y <> dv) /\
       descs s' = <[i := d']> (descs s) /\ chain (acts s') i (action d') (l1 ++ l2) /\ acts s' !! b = None /\
       (if decide (l1 ++ l2 = []) then depth d' = 1 /\ hw_masked (dev s') i = true else depth d' = depth d /\ dev s' = dev s)).
Proof.
  intros Hs Hi Hd Hc Hf. pose proof hw_lines_range as Hr. unfold free_irq, irq_to_desc. rewrite (proj2 (Z.ltb_lt i NR_IRQS)) by lia.
  rewrite (proj1 (bus_lock_inv s i Hs ltac:(lia))). irq_run.
  destruct (free_core fuel s i d l dv Hs Hi Hd Hc Hf) as [[-> Hno]|(l1 & b & l2 & x & s' & -> & Hb & Hdv & Hno & -> & (m & d' & x' & -> & H & Hm & Hres) & Hinv)]; irq_run.
  - pose proof (delete_inv s 0 Hs (unlinked_null s)) as Hs'. rewrite (proj2 (bus_lock_inv _ i Hs' ltac:(lia))). eexists. split; [done|]. split; [done|]. by left.
  - set (s1 := line_put (set_acts s m) i d' x'). assert (b ∉ l1 ++ l2) as Hnb.
    { pose proof (ah_nodup _ _ _ _ _ (proj2 (at_hw_line s i d _ Hs Hi Hd Hc))) as Hn. rewrite <- Permutation_middle in Hn. by apply NoDup_cons in Hn as [? _]. }
    assert (unlinked s1 b) as Hu.
    { intros j e k Hj He Hk Hin. change (acts s1) with m in *. destruct (chain_elem _ _ _ _ _ Hk Hin) as (_ & y & Hy & Hyj). destruct (chain_elem _ _ _ _ b Hc) as (_ & x0 & Hx0 & Hxi); [apply elem_of_app; right; by left|].
      rewrite Hm in Hy by done. assert (j = i) as -> by congruence. unfold s1 in He. cbn in He. rewrite lookup_insert_eq in He. injection He as <-.
      rewrite (chain_det _ _ _ _ _ Hk (ah_chain _ _ _ _ _ H)) in Hin. done. }
    pose proof (delete_inv s1 b Hinv Hu) as Hs'. rewrite (proj2 (bus_lock_inv _ i Hs' ltac:(lia))). eexists. split; [done|]. split; [done|]. right.
    exists l1, b, l2, x, d'. split; [done|]. split; [done|]. split; [done|]. split; [done|]. split; [done|]. split; [|split; [apply lookup_delete_eq|done]].
    apply (chain_frame m _ _ _ _ (ah_chain _ _ _ _ _ H)). intros c Hcl. cbn. rewrite lookup_delete_ne; [done|]. by intros <-.
Qed.

(** ** Handling an interrupt *)

Context (driver : Z -> Z -> Z -> st -> run (Z * st)).

Definition in_progress (s : st) (i : Z) : Prop := 0 <= i < hw_lines /\ exists d, descs s !! i = Some d /\ irqd_irq_inprogress d = true.

(** What the handlers of drivers may do: anything that keeps the invariant, such as
    enabling and disabling lines, while the actions of their own line stay. *)
Definition drivers_ok : Prop := forall f i dv s, irq_inv s -> in_progress s i ->
  exists r s' t, driver f i dv s = Ret (r, s') /\ irq_inv s' /\ in_progress s' i /\ (forall a l, chain (acts s) i a l -> chain (acts s') i a l) /\ trace s' = trace s ++ t.


Context (Hdrv : drivers_ok).

Lemma handler_ok h i dv s : irq_inv s -> in_progress s i ->
  exists r s' t, call_handler driver h i dv s = Ret (r, s') /\ irq_inv s' /\ in_progress s' i /\ (forall a l, chain (acts s) i a l -> chain (acts s') i a l) /\ trace s' = trace s ++ t.
Proof.
  intros Hs Hp. destruct h as [| |f]; cbn [call_handler]; [| |by apply Hdrv].
  all: do 2 eexists; exists []; (split; [done|]); (split; [done|]); (split; [done|]); (split; [done|]); by rewrite app_nil_r.
Qed.

Lemma event_loop_hw fuel s i a b l ret : irq_inv s -> in_progress s i -> chain (acts s) i a (b :: l) -> (length l < fuel)%nat ->
  exists r s' t, event_loop driver fuel s i a ret = Ret (r, s') /\ irq_inv s' /\ in_progress s' i /\ trace s' = trace s ++ t /\ (Handled <$> (b :: l)) `sublist_of` t.
Proof.
  revert s a b l ret. induction fuel as [|fuel IH]; intros s a b l ret Hs Hp Hc Hf; [lia|]. cbn [event_loop]. pose proof Hc as (-> & Hne & x & Hx & _ & _). rewrite Hx. cbn [lift]. irq_run.
  destruct (handler_ok (handler x) i (dev_id x) (log s (Handled b))) as (r & s1 & t1 & -> & Hs1 & Hp1 & Hk1 & T1); [by apply (inv_same s)|done|]. irq_run.
  pose proof (Hk1 _ _ Hc) as (_ & _ & y & Hy & _ & Hcy). change (acts (set_irqs s1 false)) with (acts s1). rewrite Hy. cbn [lift]. irq_run. cbn in T1. rewrite <- app_assoc in T1. cbn in T1.
  destruct l as [|c l].
  - cbn in Hcy. rewrite Hcy. cbn [Z.eqb]. do 2 eexists. exists (Handled b :: t1). split; [done|]. split; [by apply (inv_same s1)|]. split; [done|]. split; [done|].
    cbn. apply sublist_skip, sublist_nil_l.
  - destruct (Z.eqb_spec (next y) 0) as [E0|_]; [destruct Hcy as (<- & ? & _); congruence|]. cbn in Hf.
    destruct (IH (set_irqs s1 false) (next y) c l (Z.lor ret r)) as (r2 & s2 & t2 & -> & Hs2 & Hp2 & T2 & Hsub); [by apply (inv_same s1)|done|done|lia|].
    exists r2, s2, (Handled b :: t1 ++ t2). split; [done|]. split; [done|]. split; [done|]. split; [rewrite T2; cbn; by rewrite T1, <- app_assoc|].
    rewrite fmap_cons. apply sublist_skip. by apply sublist_inserts_l.
Qed.

Lemma mask_ack_put (s : st) i d x c f : chips s !! chip (data d) = Some c -> irq_mask_ack_op c = Some f ->
  mask_ack_irq (line_put s i d x) i = Ret (line_put s i (irqd_set d IRQD_IRQ_MASKED) (f (data d) x)).
Proof. intros Hc Hf. unfold mask_ack_irq, irq_state_set_masked. irq_run. rewrite Hc. cbn [lift]. irq_run. rewrite Hf. by irq_run. Qed.

(** After the handlers. *)
Lemma end_event s i d x l : at_hw s i d x l ->
  exists d' x', cond_unmask_irq (line_put s i (irqd_clear d IRQD_IRQ_INPROGRESS) x) i = Ret (line_put s i d' x') /\ at_hw s i d' x' l /\
    depth d' = depth d /\ irqd_irq_inprogress d' = false /\ (irqd_irq_disabled d = false -> hw_masked x' i = false).
Proof.
  intros H. unfold cond_unmask_irq. irq_run. set (d1 := irqd_clear d IRQD_IRQ_INPROGRESS). pose proof (ah_base _ _ _ _ _ H) as [B1 B2 B3 B4 B5 B6 B7 B8].
  assert (line_base i d1) as Hb1 by (constructor; unfold d1; by desc_simpl). change (threads_oneshot d1) with (threads_oneshot d). rewrite B8. cbn [Z.eqb]. rewrite andb_true_r.
  destruct (irqd_irq_disabled d1) eqn:Ed; cbn [negb andb]; [|destruct (irqd_irq_masked d1) eqn:Em].
  - exists d1, x. split; [done|]. assert (irqd_irq_disabled d = true) as Hdis by (unfold d1 in Ed; by desc_simpl). rewrite Hdis. split; [|split; [done|split; [unfold d1; by desc_simpl|done]]].
    destruct H as [H1 H2 H3 H4 [M1 M2 M3 M4] H6 H7 H8 H9 H10]. constructor; try done. constructor; unfold d1 in *; desc_simpl; congruence || auto.
  - destruct (at_hw_chip _ _ _ _ _ H) as (c & Hc & L). destruct (cl_unmask _ L) as (f & Hf & Hm). unfold unmask_irq, irq_state_clr_masked. irq_run. change (chip (data d1)) with (chip (data d)). rewrite Hc. cbn [lift]. irq_run. rewrite Hf. irq_run.
    do 2 eexists. split; [done|]. destruct (at_hw_call s i d x l false f (data d1) H Hm) as (Hok & Hmi & Hmo); [done|].
    split; [|split; [done|split; [unfold d1; by desc_simpl|done]]]. destruct H as [H1 H2 H3 H4 H5 H6 H7 H8 H9 H10]. constructor; try done.
    + constructor; unfold d1; by desc_simpl.
    + constructor; unfold d1 in *; desc_simpl; congruence || auto.
  - exists d1, x. split; [done|]. destruct H as [H1 H2 H3 H4 [M1 M2 M3 M4] H6 H7 H8 H9 H10].
    split; [|split; [done|split; [unfold d1; by desc_simpl|]]]; [constructor; try done; constructor|]; unfold d1 in *; desc_simpl; congruence || auto.
Qed.

(** The line while its handlers run: masked and in progress. *)
Definition busy_desc (d : irq_desc) : irq_desc :=
  set_lock (irqd_set (set_istate (set_istate (irqd_set (set_lock d true) IRQD_IRQ_MASKED) (without (istate d) (Z.lor IRQS_REPLAY IRQS_WAITING)))
    (without (without (istate d) (Z.lor IRQS_REPLAY IRQS_WAITING)) IRQS_PENDING)) IRQD_IRQ_INPROGRESS) false.

Lemma busy_hw s i d l f a : at_hw s i d (dev s) l -> sets_mask true f -> irq a = i -> at_hw s i (busy_desc d) (f a (dev s)) l.
Proof.
  intros H Hm Ha. pose proof (ah_base _ _ _ _ _ H) as [B1 B2 B3 B4 B5 B6 B7 B8].
  apply (masked_hw s i d (dev s) l); try done; [apply H|apply H|constructor| |]; unfold busy_desc; by desc_simpl.
Qed.

(** The handlers and what follows them. *)
Lemma level_event_hw fuel s i d x l a : at_hw s i (busy_desc d) x l -> (length l <= fuel)%nat -> action d = a -> a <> 0 -> irqd_irq_disabled d = false ->
  exists s' t, level_event driver fuel (line_put s i (irqd_set (set_lock d true) IRQD_IRQ_MASKED) x) i = Ret s' /\ trace s' = trace s ++ t /\
    (Handled <$> l) `sublist_of` t /\ exists s1 d' x' l', s' = line_put s1 i d' x' /\ at_hw s1 i d' x' l' /\ irqd_irq_inprogress d' = false.
Proof.
  intros H Hf Ha Hne Hdis. unfold level_event. irq_run. cbn [set_istate action]. change (action (irqd_set (set_lock d true) IRQD_IRQ_MASKED)) with (action d).
  rewrite Ha, (proj2 (Z.eqb_neq a 0) Hne). assert (forall v, irqd_irq_disabled (set_istate (irqd_set (set_lock d true) IRQD_IRQ_MASKED) v) = false) as -> by (intros v; by desc_simpl). cbn [orb].
  unfold handle_irq_event. irq_run. unfold raw_spin_unlock. irq_run. unfold handle_irq_event_percpu.
  change (set_lock (irqd_set (set_istate (set_istate (irqd_set (set_lock d true) IRQD_IRQ_MASKED) (without (istate (irqd_set (set_lock d true) IRQD_IRQ_MASKED)) (Z.lor IRQS_REPLAY IRQS_WAITING)))
    (without (istate (set_istate (irqd_set (set_lock d true) IRQD_IRQ_MASKED) (without (istate (irqd_set (set_lock d true) IRQD_IRQ_MASKED)) (Z.lor IRQS_REPLAY IRQS_WAITING)))) IRQS_PENDING)) IRQD_IRQ_INPROGRESS) false) with (busy_desc d).
  irq_run. rewrite (lb_irq _ _ (ah_base _ _ _ _ _ H)). cbn [set_istate action]. change (action (irqd_set (set_lock d true) IRQD_IRQ_MASKED)) with (action d). rewrite Ha.
  destruct l as [|b l]; [pose proof (ah_chain _ _ _ _ _ H) as Hc; cbn in Hc; congruence|].
  destruct (event_loop_hw fuel (line_put s i (busy_desc d) x) i a b l IRQ_NONE) as (r & s1 & t & -> & Hs1 & (_ & d1 & Hd1 & Hp1) & T1 & Hsub).
  { by apply (at_hw_inv _ _ _ _ _ H). } { split; [apply H|]. exists (busy_desc d). cbn. rewrite lookup_insert_eq. split; [done|]. unfold busy_desc. by desc_simpl. }
  { rewrite <- Ha. apply (ah_chain _ _ _ _ _ H). } { cbn in Hf. lia. }
  irq_run. destruct (at_hw_of s1 i Hs1 (ah_range _ _ _ _ _ H)) as (d2 & l2 & Hd2 & Hlk2 & H2). rewrite (put_id s1 i d2 Hd2). unfold raw_spin_lock. irq_run. rewrite Hlk2. irq_run.
  destruct (end_event s1 i (set_lock d2 true) (dev s1) l2 (at_hw_lock _ _ _ _ _ true H2)) as (d3 & x3 & -> & H3 & _ & Hp3 & _).
  exists (line_put s1 i d3 x3), t. split; [done|]. split; [done|]. split; [done|]. by exists s1, d3, x3, l2.
Qed.

Lemma handle_level_hw fuel s i d l : irq_inv s -> 0 <= i < hw_lines -> descs s !! i = Some d -> chain (acts s) i (action d) l -> (length l <= fuel)%nat ->
  exists s' t, handle_level_irq driver fuel s i = Ret s' /\ irq_inv s' /\ trace s' = trace s ++ t /\
    (if irqd_irq_inprogress d || irqd_irq_disabled d || (action d =? 0) then t = [] /\ hw_masked (dev s') i = true
     else (Handled <$> l) `sublist_of` t /\ exists d', descs s' !! i = Some d' /\ irqd_irq_inprogress d' = false).
Proof.
  intros Hs Hi Hd Hc Hf. destruct (at_hw_line s i d l Hs Hi Hd Hc) as [Hlk H]. unfold handle_level_irq. assert (raw_spin_lock s i = Ret (line_put s i (set_lock d true) (dev s))) as ->.
  { rewrite (put_id s i d Hd) at 1. unfold raw_spin_lock. irq_run. rewrite Hlk. by irq_run. }
  irq_run. destruct (at_hw_chip _ _ _ _ _ H) as (c & Hch & L). destruct (cl_mask_ack _ L) as (f & Hfa & Hm).
  rewrite (mask_ack_put s i (set_lock d true) (dev s) c f Hch Hfa). irq_run. change (data (set_lock d true)) with (data d).
  set (d1 := irqd_set (set_lock d true) IRQD_IRQ_MASKED). set (x1 := f (data d) (dev s)). assert (irqd_irq_inprogress d1 = irqd_irq_inprogress d) as -> by (unfold d1; by desc_simpl).
  pose proof (ah_base _ _ _ _ _ H) as [B1 B2 B3 B4 B5 B6 B7 B8].
  assert (forall d2, data d2 = data d1 -> handle_irq d2 = handle_level -> action d2 = action d -> line_base i d2 -> irqd_irq_inprogress d || irqd_irq_disabled d || (action d =? 0) = true -> lock d2 = false ->
    irq_inv (line_put s i d2 x1) /\ hw_masked x1 i = true) as Hstay.
  { intros d2 E1 E2 E3 Hb2 Hno Hlk2. assert (at_hw s i d2 x1 l) as H2.
    { apply (masked_hw s i d (dev s) l f (data d)); try done; [rewrite E1; apply H|unfold irqd_irq_masked; rewrite E1; unfold d1; by desc_simpl|].
      unfold irqd_irq_disabled, irqd_irq_inprogress in *. rewrite E1, E3. unfold d1. desc_simpl. intros Hne E4 E5. rewrite E4, E5, (proj2 (Z.eqb_neq _ 0) Hne) in Hno. done. }
    split; [by apply (at_hw_inv _ _ _ _ _ H2)|]. apply (lm_masked _ _ _ (ah_mask _ _ _ _ _ H2)). unfold irqd_irq_masked. rewrite E1. unfold d1. by desc_simpl. }
  destruct (irqd_irq_inprogress d) eqn:Ep; cbn [orb].
  - unfold irq_check_poll. irq_run. change (istate d1) with (istate d). rewrite B7. cbn [negb]. irq_run. unfold raw_spin_unlock. irq_run.
    destruct (Hstay (set_lock d1 false)) as [Hinv Hmk]; [done|apply H|done|constructor; unfold d1; by desc_simpl|done|done|]. do 2 eexists. split; [done|]. split; [done|]. cbn. rewrite app_nil_r. by split.
  - irq_run. destruct (irqd_irq_disabled d || (action d =? 0)) eqn:Eno.
    + unfold level_event. irq_run. change (action (set_istate d1 _)) with (action d). assert (forall v, irqd_irq_disabled (set_istate d1 v) = irqd_irq_disabled d) as -> by (intros v; unfold d1; by desc_simpl).
      rewrite orb_comm, Eno. irq_run. unfold raw_spin_unlock. irq_run. match goal with |- context [line_put s i ?e x1] => destruct (Hstay e) as [Hinv Hmk] end; [done|apply H|done|constructor; unfold d1; by desc_simpl|done|done|].
      do 2 eexists. split; [done|]. split; [done|]. cbn. rewrite app_nil_r. by split.
    + apply orb_false_iff in Eno as [Edis Ea%Z.eqb_neq].
      destruct (level_event_hw fuel s i d x1 l (action d)) as (s' & t & E & T & Hsub & s1 & d' & x' & l' & -> & H' & Hp'); [by apply busy_hw|done|done|done|done|].
      fold d1 in E. rewrite E. irq_run. unfold raw_spin_unlock. irq_run. do 2 eexists. split; [done|]. split; [apply (at_hw_inv _ _ _ _ l'); [by apply at_hw_lock|done]|]. split; [done|]. split; [done|].
      exists (set_lock d' false). cbn. rewrite lookup_insert_eq. done.
Qed.

(** ** The operations on a state with the invariant *)

Lemma held_line s i d : irq_inv s -> 0 <= i < NR_IRQS -> descs s !! i = Some d -> lock d = false /\ held s i d (dev s).
Proof. intros Hs Hi Hd. destruct (held_of s i Hs Hi) as (d' & Hd' & Hlk & Hh). rewrite Hd in Hd'. by injection Hd' as <-. Qed.

Lemma enable_inv s i d : irq_inv s -> 0 <= i < NR_IRQS -> descs s !! i = Some d ->
  exists s' d', enable_irq s i = Ret s' /\ irq_inv s' /\ descs s' = <[i := d']> (descs s) /\ acts s' = acts s /\ depth d' = Z.max 0 (depth d - 1).
Proof.
  intros Hs Hi Hd. destruct (held_line s i d Hs Hi Hd) as [Hlk Hh].
  destruct (enable_held (set_irqs s false) i (set_lock d true) (dev s)) as (d' & x' & E & H' & Hch & Hact & Hdep & _); [by apply held_irqs, held_lock|].
  unfold enable_irq. rewrite (with_desc_put s i d true 1 tt tt _ d' x' Hh Hd Hlk Hch Hi).
  2: { irq_run. change (chip (data (set_lock d true))) with (chip (data d)). assert (chip (data d) <> 0) as Hne by (destruct Hh as [[l H]|H]; [rewrite (ah_chip _ _ _ _ _ H); apply hw_chip_set|by rewrite (an_chip _ _ _ _ H)]).
       rewrite (proj2 (Z.eqb_neq _ 0) Hne), E. by irq_run. }
  irq_run. exists (line_put s i (set_lock d' false) x'), (set_lock d' false). split; [done|]. split; [|done].
  apply held_inv; [|done]. apply held_lock. apply (held_irqs _ _ _ _ (irqs_on s)) in H'. by rewrite irqs_restored in H'.
Qed.

Lemma disable_inv s i d : irq_inv s -> 0 <= i < NR_IRQS -> descs s !! i = Some d -> depth d + 1 < 4294967296 ->
  exists s' d', disable_irq s i = Ret s' /\ irq_inv s' /\ descs s' = <[i := d']> (descs s) /\ acts s' = acts s /\ depth d' = depth d + 1 /\ irqd_irq_inprogress d' = irqd_irq_inprogress d /\
    trace s' = trace s.
Proof.
  intros Hs Hi Hd Hov. destruct (held_line s i d Hs Hi Hd) as [Hlk Hh].
  destruct (disable_held (set_irqs s false) i (set_lock d true) (dev s)) as (d' & x' & E & H' & Hch & Hact & Hdep & Hp & _); [by apply held_irqs, held_lock|done|].
  unfold disable_irq, disable_irq_nosync, __disable_irq_nosync. rewrite (with_desc_put s i d true 1 (- EINVAL) 0 _ d' x' Hh Hd Hlk Hch Hi).
  2: { rewrite E. by irq_run. }
  irq_run. exists (line_put s i (set_lock d' false) x'), (set_lock d' false). split; [done|]. split.
  - apply held_inv; [|done]. apply held_lock. apply (held_irqs _ _ _ _ (irqs_on s)) in H'. by rewrite irqs_restored in H'.
  - by split_and!.
Qed.

(** [request_threaded_irq] on any line. *)
Lemma request_inv fuel s i h tf fl dv mem : irq_inv s -> 0 <= i -> mem = 0 \/ acts s !! mem = None ->
  (forall d l, descs s !! i = Some d -> chain (acts s) i (action d) l -> (length l <= fuel)%nat) ->
  exists r s', request_threaded_irq fuel s i h tf fl dv mem = Ret (r, s') /\ irq_inv s'.
Proof.
  intros Hs Hi Hm Hf. assert (forall r, exists r' s', (Ret (r, s) : run (Z * st)) = Ret (r', s') /\ irq_inv s') as Hstop by (intros r; by exists r, s).
  destruct (Z.lt_ge_cases i NR_IRQS) as [Hn|Hn].
  2: { unfold request_threaded_irq, irq_to_desc. rewrite (proj2 (Z.ltb_ge _ _) Hn). destruct (has fl IRQF_SHARED && (dv =? 0)); apply Hstop. }
  destruct (held_of s i Hs (conj Hi Hn)) as (d & Hd & Hlk & Hh).
  destruct (has fl IRQF_SHARED && (dv =? 0)) eqn:Es; [unfold request_threaded_irq; rewrite Es; apply Hstop|]. destruct (irq_settings_can_request d) eqn:Er.
  2: { unfold request_threaded_irq, irq_to_desc. rewrite Es, (proj2 (Z.ltb_lt _ _) Hn), (desc_of_eq s i d Hd). irq_run. rewrite Er. apply Hstop. }
  destruct (primary h tf) as [h0|] eqn:Ep; [destruct (decide (mem = 0)) as [->|Hne]|].
  1,3: unfold request_threaded_irq; rewrite Es; unfold irq_to_desc; rewrite (proj2 (Z.ltb_lt _ _) Hn), (desc_of_eq s i d Hd); irq_run; rewrite Er; cbn [negb]; fold (primary h tf); rewrite Ep; apply Hstop.
  destruct Hm as [|Hm]; [done|]. destruct Hh as [[l H]|H].
  - destruct (request_hw fuel s i d l h tf fl dv mem h0) as (r & s' & E & Hinv & _); try done; [apply H|apply H|by apply (Hf d l Hd), H|by exists r, s'].
  - unfold request_threaded_irq. rewrite Es. unfold irq_to_desc. rewrite (proj2 (Z.ltb_lt _ _) Hn), (desc_of_eq s i d Hd). irq_run. rewrite Er. cbn [negb]. fold (primary h tf). rewrite Ep, (proj2 (Z.eqb_neq mem 0) Hne).
    set (new := Action h0 dv 0 tf 0 fl). destruct (alloc_inv s mem new Hs Hm) as (Hs1 & _). set (s1 := set_acts s (<[mem := new]> (acts s))) in *.
    rewrite (proj1 (bus_lock_inv s1 i Hs1 (conj Hi Hn))). irq_run. unfold __setup_irq. rewrite (desc_of_eq s1 i d Hd). irq_run. rewrite (an_chip _ _ _ _ H), Z.eqb_refl. irq_run.
    rewrite (proj2 (bus_lock_inv s1 i Hs1 (conj Hi Hn))). irq_run. cbn [Z.eqb Z.opp ENOSYS]. unfold s1. rewrite free_mem by done. apply Hstop.
Qed.

Lemma free_inv fuel s i dv : irq_inv s -> 0 <= i -> (forall d l, descs s !! i = Some d -> chain (acts s) i (action d) l -> (length l < fuel)%nat) ->
  exists s', free_irq fuel s i dv = Ret s' /\ irq_inv s'.
Proof.
  intros Hs Hi Hf. destruct (Z.lt_ge_cases i NR_IRQS) as [Hn|Hn].
  2: { unfold free_irq, irq_to_desc. rewrite (proj2 (Z.ltb_ge _ _) Hn). by exists s. }
  destruct (held_of s i Hs (conj Hi Hn)) as (d & Hd & Hlk & [[l H]|H]).
  - destruct (free_hw fuel s i d l dv Hs (ah_range _ _ _ _ _ H) Hd (ah_chain _ _ _ _ _ H)) as (s' & E & Hinv & _); [by apply (Hf d l Hd), H|by exists s'].
  - unfold free_irq, irq_to_desc. rewrite (proj2 (Z.ltb_lt _ _) Hn), (proj1 (bus_lock_inv s i Hs (conj Hi Hn))). irq_run.
    unfold __free_irq, irq_to_desc. rewrite (proj2 (Z.ltb_lt _ _) Hn), (lock_irqsave s i d Hd Hlk). irq_run. unfold free_locked. irq_run. change (action (set_lock d true)) with (action d).
    rewrite (an_action _ _ _ _ H). destruct fuel as [|fuel]; [specialize (Hf d [] Hd (an_action _ _ _ _ H)); cbn in Hf; lia|]. cbn [find_action Z.eqb]. irq_run. rewrite unlock_irqrestore, irqs_restored, relock, <- put_id by done. irq_run.
    pose proof (delete_inv s 0 Hs (unlinked_null s)) as Hs'. rewrite (proj2 (bus_lock_inv _ i Hs' (conj Hi Hn))). by eexists.
Qed.

(** ** Commands *)

Inductive irq_cmd :=
  | Enable (i : Z)
  | Disable (i : Z)
  | Request (i : Z) (h thread_fn : option irq_handler) (fl dv mem : Z)
  | Free (i dv : Z)
  | Interrupt (i : Z).

Definition exec (fuel : nat) (c : irq_cmd) (s : st) : run st :=
  match c with
  | Enable i => enable_irq s i
  | Disable i => disable_irq s i
  | Request i h tf fl dv mem => '(_, s) ← request_threaded_irq fuel s i h tf fl dv mem; Ret s
  | Free i dv => free_irq fuel s i dv
  | Interrupt i => '(_, s) ← generic_handle_irq driver fuel s i; Ret s
  end.

(** Line numbers are unsigned, the counter of nested disables does not overflow,
    [kzalloc] returns memory that is not in use, and the fuel is enough for the
    actions of the line. *)
Definition cmd_ok (fuel : nat) (s : st) (c : irq_cmd) : Prop :=
  match c with
  | Enable i => 0 <= i
  | Disable i => 0 <= i /\ forall d, descs s !! i = Some d -> depth d + 1 < 4294967296
  | Request i _ _ _ _ mem => 0 <= i /\ (mem = 0 \/ acts s !! mem = None) /\ forall d l, descs s !! i = Some d -> chain (acts s) i (action d) l -> (length l < fuel)%nat
  | Free i _ | Interrupt i => 0 <= i /\ forall d l, descs s !! i = Some d -> chain (acts s) i (action d) l -> (length l < fuel)%nat
  end.

Lemma exec_inv fuel c s : irq_inv s -> cmd_ok fuel s c -> exists s', exec fuel c s = Ret s' /\ irq_inv s'.
Proof.
  intros Hs Hc. destruct c as [i|i|i h tf fl dv mem|i dv|i]; cbn [exec cmd_ok] in *.
  - destruct (Z.lt_ge_cases i NR_IRQS) as [Hn|Hn].
    + destruct (held_of s i Hs (conj Hc Hn)) as (d & Hd & _). destruct (enable_inv s i d Hs (conj Hc Hn) Hd) as (s' & d' & E & Hinv & _). by exists s'.
    + unfold enable_irq, with_desc, __irq_get_desc_lock, irq_to_desc. rewrite (proj2 (Z.ltb_ge _ _) Hn). by exists s.
  - destruct Hc as [Hi Hov]. destruct (Z.lt_ge_cases i NR_IRQS) as [Hn|Hn].
    + destruct (held_of s i Hs (conj Hi Hn)) as (d & Hd & _). destruct (disable_inv s i d Hs (conj Hi Hn) Hd (Hov d Hd)) as (s' & d' & E & Hinv & _). by exists s'.
    + unfold disable_irq, disable_irq_nosync, __disable_irq_nosync, with_desc, __irq_get_desc_lock, irq_to_desc. rewrite (proj2 (Z.ltb_ge _ _) Hn). by exists s.
  - destruct Hc as (Hi & Hm & Hf). destruct (request_inv fuel s i h tf fl dv mem Hs Hi Hm) as (r & s' & -> & Hinv); [intros d l Hd Hl; specialize (Hf d l Hd Hl); lia|]. by exists s'.
  - destruct Hc as [Hi Hf]. by apply free_inv.
  - destruct Hc as [Hi Hf]. unfold generic_handle_irq, irq_to_desc. destruct (Z.ltb_spec i NR_IRQS) as [Hn|Hn]; [|by exists s].
    destruct (held_of s i Hs (conj Hi Hn)) as (d & Hd & Hlk & Hh). unfold generic_handle_irq_desc. rewrite (desc_of_eq s i d Hd). irq_run. destruct Hh as [[l H]|H].
    + rewrite (ah_flow _ _ _ _ _ H). destruct (handle_level_hw fuel s i d l Hs (ah_range _ _ _ _ _ H) Hd (ah_chain _ _ _ _ _ H)) as (s' & t & -> & Hinv & _);
        [specialize (Hf d l Hd (ah_chain _ _ _ _ _ H)); lia|]. by exists s'.
    + rewrite (an_flow _ _ _ _ H). by exists s.
Qed.

(** The states the commands lead to. *)
Inductive reaches (fuel : nat) (s : st) : st -> Prop :=
  | reach_start : reaches fuel s s
  | reach_step s1 c s2 : reaches fuel s s1 -> cmd_ok fuel s1 c -> exec fuel c s1 = Ret s2 -> reaches fuel s s2.

Lemma reaches_inv fuel s s' : irq_inv s -> reaches fuel s s' -> irq_inv s'.
Proof.
  intros Hs Hr. induction Hr as [|s1 c s2 _ IH Hc E]; [done|]. destruct (exec_inv fuel c s1 IH Hc) as (s3 & E' & Hinv). congruence.
Qed.

(** What the invariant says of a line of the controller. *)
Lemma line_masked_iff s i d : irq_inv s -> 0 <= i < hw_lines -> descs s !! i = Some d ->
  lock d = false /\ (depth d <> 0 -> hw_masked (dev s) i = true) /\
  (depth d = 0 -> action d <> 0 -> irqd_irq_inprogress d = false -> hw_masked (dev s) i = false).
Proof.
  intros Hs Hi Hd. destruct (at_hw_of s i Hs Hi) as (d' & l & Hd' & Hlk & H). rewrite Hd in Hd'. injection Hd' as <-. split; [done|].
  destruct (ah_mask _ _ _ _ _ H) as [M1 M2 M3 M4]. pose proof (lb_disabled _ _ (ah_base _ _ _ _ _ H)) as Hb. split.
  - intros Hdep. apply M1. by rewrite Hb, (proj2 (Z.eqb_neq _ 0) Hdep).
  - intros Hdep Ha Hp. rewrite Hdep in Hb. cbn in Hb. apply M3; [done|]. by apply M4.
Qed.

End Lines.
