(* ===== verification/Dpc.v ===== *)
(** * Deferred procedure calls

    [source/drivers/hal/irq/dpc.c] with the counters of [hardirq.h] and
    [preempt.h]: interrupt handlers raise numbered procedures, which run when
    the outermost interrupt is left, with interrupts enabled.  A procedure may
    raise others, and interrupts may come while it runs; both are part of what
    [deferred] does to the state. *)

From stdpp Require Import gmap strings.
From S2P Require Import Prelude Irq.
Import IrqOps.
Local Open Scope c_scope.

Definition NR_DPC_IRQS : Z := BITS_PER_LONG.
Definition TIMER_SOFTIRQ : Z := 1.
Definition MAX_SOFTIRQ_RESTART : nat := 10.
Definition SOFTIRQ_MASK : Z := 0xff00.
Definition HARDIRQ_MASK : Z := 0x3ff0000.
Definition NMI_MASK : Z := 0x4000000.
Definition SOFTIRQ_OFFSET : Z := 0x100.
Definition HARDIRQ_OFFSET : Z := 0x10000.
Definition IRQ_EXIT_OFFSET : Z := HARDIRQ_OFFSET - 1.

Module DpcOps.
Section Dpc.
Context {D W : Type}.
Notation st := (isys D W).

(** What the procedure at an address does. *)
Context (deferred : Z -> st -> run st).

Definition hal_preempt_count_add (s : st) (x : Z) : st := set_count s (preempt_count s +w x).
Definition hal_preempt_count_sub (s : st) (x : Z) : st := set_count s (preempt_count s -w x).
Definition in_interrupt (s : st) : bool :=
  has (preempt_count s) (Z.lor HARDIRQ_MASK (Z.lor SOFTIRQ_MASK NMI_MASK)).

Definition or_dpc_irq_pending (s : st) (bits : Z) : st := set_pending s (Z.lor (dpc_irq_pending s) bits).

(** The [do]-loop over the bits of [pending]; [h] is the index of the vector. *)
Fixpoint dpc_loop (fuel : nat) (s : st) (h pending : Z) : run st :=
  match fuel with
  | O => NoFuel
  | S fuel =>
    s ← (if Z.odd pending then
        let prev_count := preempt_count s in
        f ← lift (dpc_irq_vec s !! h);
        s ← deferred f (log s (Deferred h));
        Ret (set_count s prev_count)
      else Ret s);
    let pending := Z.shiftr pending 1 in
    if pending =? 0 then Ret s else dpc_loop fuel s (h + 1) pending
  end.

(** From [restart] on; [max_restart] is not 0. *)
Fixpoint restart (max_restart : nat) (s : st) (pending : Z) : run st :=
  match max_restart with
  | O => NoFuel
  | S n =>
    let s := set_irqs (set_pending s 0) true in
    s ← dpc_loop 32 s 0 pending;
    let s := set_irqs s false in
    let pending := dpc_irq_pending s in
    if negb (pending =? 0) && negb (Nat.eqb n 0) then restart n s pending else Ret s
  end.

(** [wakeup_dpc_thread] does nothing. *)
Definition __do_dpc_irq (s : st) : run st :=
  let pending := dpc_irq_pending s in
  let s := hal_preempt_count_add s SOFTIRQ_OFFSET in
  s ← restart MAX_SOFTIRQ_RESTART s pending;
  Ret (hal_preempt_count_sub s SOFTIRQ_OFFSET).

Definition do_dpc_irq (s : st) : run st :=
  if in_interrupt s then Ret s else
  let fl := irqs_on s in
  let s := set_irqs s false in
  s ← (if dpc_irq_pending s =? 0 then Ret s else __do_dpc_irq s);
  Ret (set_irqs s fl).

Definition irq_enter (s : st) : st := hal_preempt_count_add s HARDIRQ_OFFSET.

Definition irq_exit (s : st) : run st :=
  let s := hal_preempt_count_sub s IRQ_EXIT_OFFSET in
  s ← (if negb (in_interrupt s) && negb (dpc_irq_pending s =? 0) then do_dpc_irq s else Ret s);
  Ret (hal_preempt_count_sub s 1).

(** A shift by the width of the word or more is not defined. *)
Definition __raise_dpc_irq_irqoff (s : st) (nr : Z) : run st :=
  if nr <? BITS_PER_LONG then Ret (log (or_dpc_irq_pending s (Z.shiftl 1 nr)) (Raised nr)) else Fault.
Definition raise_dpc_irq_irqoff (s : st) (nr : Z) : run st := __raise_dpc_irq_irqoff s nr.
Definition raise_dpc_irq (s : st) (nr : Z) : run st :=
  let fl := irqs_on s in
  s ← raise_dpc_irq_irqoff (set_irqs s false) nr;
  Ret (set_irqs s fl).

Definition open_dpc_irq (s : st) (nr action : Z) : run st :=
  if (0 <=? nr) && (nr <? NR_DPC_IRQS) then Ret (set_vec s (<[nr := action]> (dpc_irq_vec s))) else Fault.

End Dpc.
End DpcOps.
Import DpcOps.

(** ** Procedures raised and not yet run *)

(** The last event about [n] is that it was raised. *)
Definition unserved (n : Z) (t : list event) : bool :=
  fold_left (fun b e => match e with Raised k => (k =? n) || b | Deferred k => negb (k =? n) && b | Handled _ => b end) t false.

Definition bits_of (p : Z) : list Z := filter (fun n => Z.testbit p n = true) (seqZ 0 32).

Section DpcProofs.
Context {D W : Type}.
Notation st := (isys D W).
Context (deferred : Z -> st -> run st).

(** The procedure for [n] is raised in [t]. *)
Definition raises (t : list event) (n : Z) : Prop := Raised n ∈ t.

(** [t] came after [s]. *)
Record dpc_after (s s' : st) (t : list event) : Prop := {
  da_trace : trace s' = trace s ++ t;
  da_vec : dpc_irq_vec s' = dpc_irq_vec s;
  da_word : is_word (dpc_irq_pending s');
  da_pending : forall n, 0 <= n < 32 -> Z.testbit (dpc_irq_pending s') n = true <-> Z.testbit (dpc_irq_pending s) n = true \/ raises t n;
  da_open : forall n, raises t n -> 0 <= n < 32 /\ is_Some (dpc_irq_vec s !! n)
}.

(** What a procedure may do: it returns, leaves the vector alone, and raises
    procedures that are there.  While it runs nobody takes from the pending ones:
    the counter shows that the CPU is in an interrupt. *)
Definition procedures_ok : Prop := forall f s, is_word (dpc_irq_pending s) -> in_interrupt s = true ->
  exists s' t, deferred f s = Ret s' /\ dpc_after s s' t.

(** Nothing that was raised is forgotten. *)
Definition no_loss (s : st) : Prop := forall n, 0 <= n < 32 -> unserved n (trace s) = true -> Z.testbit (dpc_irq_pending s) n = true.
Definition all_open (s : st) (p : Z) : Prop := forall n, 0 <= n < 32 -> Z.testbit p n = true -> is_Some (dpc_irq_vec s !! n).

Lemma dpc_after_trans s s1 s2 t1 t2 : dpc_after s s1 t1 -> dpc_after s1 s2 t2 -> dpc_after s s2 (t1 ++ t2).
Proof.
  intros [T1 V1 W1 P1 O1] [T2 V2 W2 P2 O2]. constructor; [by rewrite T2, T1, app_assoc|congruence|done| |].
  - intros n Hn. rewrite P2, P1 by done. unfold raises. rewrite elem_of_app. tauto.
  - intros n [Hr|Hr]%elem_of_app; [by apply O1|]. rewrite <- V1. by apply O2.
Qed.

Lemma dpc_after_log s n : is_word (dpc_irq_pending s) -> dpc_after s (log s (Deferred n)) [Deferred n].
Proof.
  intros Hw. constructor; [done|done|done| |].
  - intros m _. cbn. split; [by left|]. intros [?|Hr]; [done|]. by apply list_elem_of_singleton in Hr.
  - intros m Hr. by apply list_elem_of_singleton in Hr.
Qed.

Lemma dpc_after_count s s' t x y : dpc_after s s' t -> dpc_after (set_count s x) (set_count s' y) t.
Proof. intros [T1 V1 W1 P1 O1]. by constructor. Qed.
Lemma dpc_after_irqs s s' t x y : dpc_after s s' t -> dpc_after (set_irqs s x) (set_irqs s' y) t.
Proof. intros [T1 V1 W1 P1 O1]. by constructor. Qed.

Lemma unserved_app n a t : unserved n (a ++ t) = true -> Raised n ∈ t \/ (unserved n a = true /\ Deferred n ∉ t).
Proof.
  unfold unserved. rewrite fold_left_app. generalize (fold_left (fun b e => match e with Raised k => (k =? n) || b | Deferred k => negb (k =? n) && b | Handled _ => b end) a false).
  induction t as [|e t IH]; intros b Hb; [right; split; [done|apply not_elem_of_nil]|]. cbn in Hb.
  destruct (IH _ Hb) as [?|[He Hn]]; [by left; right|]. destruct e as [k|k|k].
  - right. split; [done|]. intros [?|?]%elem_of_cons; done.
  - destruct (Z.eqb_spec k n) as [->|]; [left; left|right]. split; [done|]. intros [?|?]%elem_of_cons; done.
  - right. destruct (Z.eqb_spec k n) as [->|]; cbn in He; [done|]. split; [done|]. intros [?|?]%elem_of_cons; congruence.
Qed.

Context (Hok : procedures_ok).

(** One turn of the loop calls the procedure. *)
Lemma dpc_call s h f : dpc_irq_vec s !! h = Some f -> is_word (dpc_irq_pending s) -> in_interrupt s = true ->
  exists s' t, deferred f (log s (Deferred h)) = Ret s' /\ dpc_after s (set_count s' (preempt_count s)) (Deferred h :: t).
Proof.
  intros Hf Hw Hin. destruct (Hok f (log s (Deferred h)) Hw Hin) as (s' & t & E1 & H1). exists s', t. split; [done|].
  pose proof (dpc_after_trans _ _ _ _ _ (dpc_after_log s h Hw) H1) as H2.
  apply (dpc_after_count _ _ _ (preempt_count s) (preempt_count s)) in H2. destruct s. exact H2.
Qed.

Lemma filter_agree (P Q : Z -> Prop) {HP : forall x, Decision (P x)} {HQ : forall x, Decision (Q x)} (l : list Z) :
  (forall k, k ∈ l -> P k <-> Q k) -> filter P l = filter Q l.
Proof.
  induction l as [|k l IH]; intros Hl; [done|]. rewrite !filter_cons, IH by (intros j Hj; apply Hl; by right).
  pose proof (Hl k (list_elem_of_here _ _)). repeat case_decide; tauto || done.
Qed.

Lemma filter_shift p h n : Z.odd p = Z.testbit p 0 /\
  filter (fun k => Z.testbit p (k - h) = true) (seqZ h (Z.of_nat (S n)))
  = (if Z.odd p then [h] else []) ++ filter (fun k => Z.testbit (Z.shiftr p 1) (k - (h + 1)) = true) (seqZ (h + 1) (Z.of_nat n)).
Proof.
  split; [symmetry; apply Z.bit0_odd|]. rewrite seqZ_cons, filter_cons by lia. replace (Z.pred (Z.of_nat (S n))) with (Z.of_nat n) by lia.
  change (Z.succ h) with (h + 1). rewrite Z.sub_diag, Z.bit0_odd.
  assert (filter (fun k => Z.testbit p (k - h) = true) (seqZ (h + 1) (Z.of_nat n))
    = filter (fun k => Z.testbit (Z.shiftr p 1) (k - (h + 1)) = true) (seqZ (h + 1) (Z.of_nat n))) as ->.
  { apply filter_agree. intros k Hk%elem_of_seqZ. rewrite Z.shiftr_spec by lia. by replace (k - (h + 1) + 1) with (k - h) by lia. }
  destruct (Z.odd p); by case_decide.
Qed.

Lemma filter_zero h n : filter (fun k => Z.testbit 0 (k - h) = true) (seqZ h n) = [].
Proof. generalize (seqZ h n). intros l. induction l as [|x l IH]; [done|]. rewrite filter_cons, Z.testbit_0_l. by case_decide. Qed.

Lemma dpc_loop_spec fuel s h p :
  0 <= p < 2 ^ Z.of_nat fuel -> (0 < fuel)%nat -> is_word (dpc_irq_pending s) -> in_interrupt s = true ->
  (forall n, 0 <= n -> Z.testbit p n = true -> is_Some (dpc_irq_vec s !! (h + n))) ->
  exists s' t, dpc_loop deferred fuel s h p = Ret s' /\ dpc_after s s' t /\ preempt_count s' = preempt_count s /\
    (Deferred <$> filter (fun k => Z.testbit p (k - h) = true) (seqZ h (Z.of_nat fuel))) `sublist_of` t.
Proof.
  revert s h p. induction fuel as [|fuel IH]; intros s h p Hp Hf Hw Hin Hopen; [lia|].
  cbn [dpc_loop]. destruct (filter_shift p h fuel) as [H0 ->]. set (q := Z.shiftr p 1).
  assert (exists s1 t1, (if Z.odd p then f ← lift (dpc_irq_vec s !! h); s1 ← deferred f (log s (Deferred h)); Ret (set_count s1 (preempt_count s)) else Ret s) = Ret s1
    /\ dpc_after s s1 t1 /\ preempt_count s1 = preempt_count s /\ (Deferred <$> (if Z.odd p then [h] else [])) `sublist_of` t1) as (s1 & t1 & -> & H1 & Hc & Hs1).
  { destruct (Z.odd p) eqn:Eo.
    - destruct (Hopen 0) as [f Hfn]; [lia|done|]. rewrite Z.add_0_r in Hfn. rewrite Hfn. cbn [lift mbind run_bind].
      destruct (dpc_call s h f Hfn Hw Hin) as (s' & t & -> & H1). cbn [mbind run_bind]. do 2 eexists. split; [done|]. split; [exact H1|]. split; [done|].
      cbn. apply sublist_skip, sublist_nil_l.
    - exists s, []. split; [done|]. split; [|by split]. constructor; [by rewrite app_nil_r|done|done| |].
      + intros n _. split; [by left|]. intros [?|?%elem_of_nil]; done.
      + intros n ?%elem_of_nil; done. }
  cbn [mbind run_bind]. rewrite fmap_app. destruct (Z.eqb_spec q 0) as [Eq|Eq].
  { exists s1, t1. split; [done|]. split; [done|]. split; [done|]. rewrite Eq, filter_zero. by rewrite app_nil_r. }
  assert (0 <= q < 2 ^ Z.of_nat fuel) as Hq.
  { unfold q. rewrite Z.shiftr_div_pow2 by lia. change (2 ^ 1) with 2. rewrite Nat2Z.inj_succ, Z.pow_succ_r in Hp by lia. zlia. }
  assert (0 < fuel)%nat by (destruct fuel; [change (2 ^ Z.of_nat 0) with 1 in Hq|]; lia).
  destruct (IH s1 (h + 1) q) as (s2 & t2 & -> & H2 & Hc2 & Hs2); [done|done|by destruct H1|unfold in_interrupt; by rewrite Hc| |].
  { intros n Hn Ht. rewrite (da_vec _ _ _ H1). replace (h + 1 + n) with (h + (n + 1)) by lia. apply Hopen; [lia|].
    unfold q in Ht. by rewrite Z.shiftr_spec in Ht by lia. }
  exists s2, (t1 ++ t2). split; [done|]. split; [by eapply dpc_after_trans|]. split; [congruence|]. by apply sublist_app.
Qed.

(** What is pending at the start of a round is run in it, and what is raised
    meanwhile is pending at its end. *)
Lemma round_spec s p :
  is_word p -> in_interrupt s = true -> all_open s p ->
  (forall k, 0 <= k < 32 -> unserved k (trace s) = true -> Z.testbit p k = true) ->
  exists s' t, dpc_loop deferred 32 (set_irqs (set_pending s 0) true) 0 p = Ret s' /\ trace s' = trace s ++ t /\ dpc_irq_vec s' = dpc_irq_vec s /\
    preempt_count s' = preempt_count s /\ no_loss s' /\ is_word (dpc_irq_pending s') /\ all_open s' (dpc_irq_pending s') /\
    (Deferred <$> bits_of p) `sublist_of` t /\ (forall k, 0 <= k < 32 -> Z.testbit (dpc_irq_pending s') k = true -> raises t k).
Proof.
  intros Hp Hin Hopen Hun. set (s0 := set_irqs (set_pending s 0) true).
  destruct (dpc_loop_spec 32 s0 0 p) as (s1 & t1 & E1 & [T1 V1 W1 P1 O1] & Hc & Hs); [done|lia|done|done| |].
  { intros k Hk Ht. apply Hopen; [|done]. split; [done|]. apply Z.lt_nge. intros Hge. by rewrite testbit_word_high in Ht. }
  rewrite (list_filter_iff _ (fun k => Z.testbit p k = true)) in Hs by (intros k; by rewrite Z.sub_0_r).
  change (Z.of_nat 32) with 32 in Hs. fold (bits_of p) in Hs. cbn [dpc_irq_pending set_irqs set_pending s0 trace dpc_irq_vec preempt_count] in *.
  assert (forall k, 0 <= k < 32 -> Z.testbit (dpc_irq_pending s1) k = true -> raises t1 k) as Hra.
  { intros k Hk Hb. apply P1 in Hb as [Hb|]; [by rewrite Z.testbit_0_l in Hb|done|done]. }
  exists s1, t1. split; [done|]. split; [done|]. split; [done|]. split; [done|]. split; [|split; [done|split; [|done]]].
  - intros k Hk Hu. rewrite T1 in Hu. apply P1; [done|]. apply unserved_app in Hu as [?|[Hu Hd]]; [by right|].
    destruct Hd. refine (elem_of_sublist _ _ _ _ Hs). apply list_elem_of_fmap. exists k. split; [done|]. apply list_elem_of_filter.
    split; [by apply Hun|apply elem_of_seqZ; lia].
  - intros k Hk Hb. rewrite V1. by apply O1, Hra.
Qed.

Lemma restart_S n s p : restart deferred (S n) s p =
  (s1 ← dpc_loop deferred 32 (set_irqs (set_pending s 0) true) 0 p;
   if negb (dpc_irq_pending s1 =? 0) && negb (Nat.eqb n 0) then restart deferred n (set_irqs s1 false) (dpc_irq_pending s1) else Ret (set_irqs s1 false)).
Proof. done. Qed.

Lemma restart_spec n s p :
  is_word p -> in_interrupt s = true -> all_open s p ->
  (forall k, 0 <= k < 32 -> unserved k (trace s) = true -> Z.testbit p k = true) ->
  exists s' t, restart deferred (S n) s p = Ret s' /\ trace s' = trace s ++ t /\ dpc_irq_vec s' = dpc_irq_vec s /\ preempt_count s' = preempt_count s /\
    no_loss s' /\ is_word (dpc_irq_pending s') /\ all_open s' (dpc_irq_pending s') /\ (Deferred <$> bits_of p) `sublist_of` t /\
    (forall k, 0 <= k < 32 -> Z.testbit (dpc_irq_pending s') k = true -> raises t k).
Proof.
  revert s p. induction n as [|n IH]; intros s p Hp Hin Hopen Hun; rewrite restart_S;
    destruct (round_spec s p Hp Hin Hopen Hun) as (s1 & t1 & -> & T1 & V1 & C1 & N1 & W1 & A1 & S1 & R1); cbn [mbind run_bind].
  - rewrite andb_false_r. by exists (set_irqs s1 false), t1.
  - cbn [Nat.eqb negb]. rewrite andb_true_r. destruct (Z.eqb_spec (dpc_irq_pending s1) 0) as [E0|E0]; cbn [negb]; [by exists (set_irqs s1 false), t1|].
    destruct (IH (set_irqs s1 false) (dpc_irq_pending s1)) as (s2 & t2 & -> & T2 & V2 & C2 & N2 & W2 & A2 & S2 & R2);
      [done|unfold in_interrupt; cbn; by rewrite C1|done|done|].
    cbn [set_irqs trace dpc_irq_vec preempt_count] in *. exists s2, (t1 ++ t2).
    split; [done|]. split; [by rewrite T2, T1, app_assoc|]. split; [congruence|]. split; [congruence|]. do 3 (split; [done|]). split.
    + by apply sublist_inserts_r.
    + intros k Hk Hb. apply elem_of_app. right. by apply R2.
Qed.

Lemma in_interrupt_thread (s : st) : 0 <= preempt_count s < 256 -> in_interrupt s = false.
Proof.
  intros Hc. unfold in_interrupt, has. change (Z.lor HARDIRQ_MASK (Z.lor SOFTIRQ_MASK NMI_MASK)) with (Z.shiftl 0x7ffff 8).
  replace (Z.land (preempt_count s) (Z.shiftl 0x7ffff 8)) with 0; [done|]. symmetry. apply Z.bits_inj'. intros i Hi.
  rewrite Z.land_spec, Z.testbit_0_l. destruct (Z.lt_ge_cases i 8); [rewrite Z.shiftl_spec_low by done; apply andb_false_r|].
  rewrite <- (Z.mod_small (preempt_count s) (2 ^ 8)), Z.mod_pow2_bits_high by lia. done.
Qed.

Lemma in_interrupt_soft (s : st) : 256 <= preempt_count s < 512 -> in_interrupt s = true.
Proof.
  intros Hc. unfold in_interrupt, has. apply negb_true_iff, Z.eqb_neq. intros H0. apply (f_equal (fun z => Z.testbit z 8)) in H0. revert H0.
  rewrite Z.land_spec, Z.testbit_0_l. change (Z.testbit (Z.lor HARDIRQ_MASK (Z.lor SOFTIRQ_MASK NMI_MASK)) 8) with true. rewrite andb_true_r.
  replace (preempt_count s) with (preempt_count s - 256 + 1 * 2 ^ 8) by lia. rewrite Z.testbit_eqb, Z.div_add by lia.
  by rewrite Z.div_small by lia.
Qed.

Lemma do_dpc_irq_spec (s : st) :
  0 <= preempt_count s < 256 -> is_word (dpc_irq_pending s) -> all_open s (dpc_irq_pending s) -> no_loss s -> dpc_irq_pending s <> 0 ->
  exists s' t, do_dpc_irq deferred s = Ret s' /\ trace s' = trace s ++ t /\ preempt_count s' = preempt_count s /\ irqs_on s' = irqs_on s /\
    no_loss s' /\ is_word (dpc_irq_pending s') /\ all_open s' (dpc_irq_pending s') /\ (Deferred <$> bits_of (dpc_irq_pending s)) `sublist_of` t /\
    (forall k, 0 <= k < 32 -> Z.testbit (dpc_irq_pending s') k = true -> raises t k).
Proof.
  intros Hc Hw Ho Hn Hp. unfold do_dpc_irq. rewrite in_interrupt_thread by done. cbn [dpc_irq_pending set_irqs]. rewrite (proj2 (Z.eqb_neq _ 0) Hp).
  unfold __do_dpc_irq. set (s1 := hal_preempt_count_add _ _). assert (preempt_count s1 = preempt_count s + 256) as Hc1.
  { unfold s1. cbn. apply wrap_small. unfold is_word, SOFTIRQ_OFFSET. lia. }
  destruct (restart_spec 9 s1 (dpc_irq_pending s)) as (s2 & t & E1 & T2 & V2 & C2 & N2 & W2 & A2 & S2 & R2);
    [done|apply in_interrupt_soft; lia|done|done|].
  change (dpc_irq_pending (set_irqs s false)) with (dpc_irq_pending s). unfold MAX_SOFTIRQ_RESTART. rewrite E1. cbn [mbind run_bind].
  do 2 eexists. split; [done|]. split; [done|]. split; [cbn; rewrite C2, Hc1; rewrite wrap_small; unfold is_word, SOFTIRQ_OFFSET; lia|].
  by split.
Qed.

(** C33: leaving the outermost interrupt runs every deferred procedure that is
    pending, in the order of their numbers, and restores the counter and the
    interrupt flag.  Procedures may raise others, also while interrupts come: what
    is raised is run or still pending, never forgotten, and what is pending at the
    end was raised meanwhile. *)
Theorem irq_exit_correct (s : st) (c : Z) :
  0 <= c < 255 -> preempt_count s = c + HARDIRQ_OFFSET -> is_word (dpc_irq_pending s) -> all_open s (dpc_irq_pending s) -> no_loss s ->
  exists s' t, irq_exit deferred s = Ret s' /\ trace s' = trace s ++ t /\ preempt_count s' = c /\ irqs_on s' = irqs_on s /\
    (Deferred <$> bits_of (dpc_irq_pending s)) `sublist_of` t /\ no_loss s' /\ all_open s' (dpc_irq_pending s') /\
    (forall k, 0 <= k < 32 -> Z.testbit (dpc_irq_pending s') k = true -> raises t k).
Proof.
  intros Hc Hcnt Hw Ho Hn. unfold irq_exit. set (s1 := hal_preempt_count_sub s IRQ_EXIT_OFFSET).
  assert (preempt_count s1 = c + 1) as Hc1.
  { unfold s1. cbn. rewrite Hcnt, wrap_small; unfold is_word, IRQ_EXIT_OFFSET, HARDIRQ_OFFSET; lia. }
  rewrite in_interrupt_thread by lia. change (dpc_irq_pending s1) with (dpc_irq_pending s). cbn [negb andb].
  destruct (Z.eqb_spec (dpc_irq_pending s) 0) as [E0|E0]; cbn [negb mbind run_bind].
  - exists (hal_preempt_count_sub s1 1), []. split; [done|]. split; [cbn; by rewrite app_nil_r|]. split; [cbn in *; rewrite Hc1, wrap_small; unfold is_word; lia|].
    split; [done|]. split; [by rewrite E0|]. split; [done|]. split; [done|]. intros k _. cbn. rewrite E0, Z.testbit_0_l. done.
  - destruct (do_dpc_irq_spec s1) as (s2 & t & -> & T2 & C2 & I2 & N2 & W2 & A2 & S2 & R2); [lia|done|done|done|done|]. cbn [mbind run_bind].
    do 2 eexists. split; [done|]. split; [done|]. split; [cbn; rewrite C2, Hc1, wrap_small; unfold is_word; lia|]. by split.
Qed.

End DpcProofs.

(** ** Examples: procedure 1 raises procedure 3 *)

Definition sample_deferred (f : Z) (s : isys unit unit) : run (isys unit unit) :=
  if f =? 100 then
    if bool_decide (is_Some (dpc_irq_vec s !! 3)) then raise_dpc_irq s 3 else Ret s
  else Ret s.

Definition sample_dpc : isys unit unit := ISys ∅ ∅ ∅ tt tt false 0x10002 2 {[1 := 100; 3 := 200]} [Raised 1].

Lemma or_bit_word x n : is_word x -> 0 <= n < 32 -> is_word (Z.lor x (Z.shiftl 1 n)).
Proof.
  intros [H0 H1] Hn. assert (0 <= Z.lor x (Z.shiftl 1 n)) as Hge by (apply Z.lor_nonneg; split; [done|apply Z.shiftl_nonneg; lia]).
  split; [done|]. change 4294967296 with (2 ^ 32). destruct (decide (Z.lor x (Z.shiftl 1 n) = 0)) as [->|]; [done|].
  apply Z.log2_lt_pow2; [lia|]. rewrite Z.log2_lor by (done || (apply Z.shiftl_nonneg; lia)).
  apply Z.max_lub_lt; [destruct (decide (x = 0)) as [->|]; [done|apply Z.log2_lt_pow2; lia]|].
  rewrite Z.log2_shiftl by lia. cbn. lia.
Qed.

Lemma raise_after {D W} (s : isys D W) n : is_word (dpc_irq_pending s) -> 0 <= n < 32 -> is_Some (dpc_irq_vec s !! n) ->
  exists s', raise_dpc_irq s n = Ret s' /\ dpc_after s s' [Raised n].
Proof.
  intros Hw Hn Hs. unfold raise_dpc_irq, raise_dpc_irq_irqoff, __raise_dpc_irq_irqoff. rewrite (proj2 (Z.ltb_lt n BITS_PER_LONG)) by (unfold BITS_PER_LONG; lia).
  eexists. split; [done|]. constructor; [done|done|cbn; by apply or_bit_word| |].
  - intros m Hm. cbn. rewrite Z.lor_spec, orb_true_iff, (Z.shiftl_spec 1) by (try lia). unfold raises. rewrite list_elem_of_singleton.
    destruct (Z.lt_ge_cases m n) as [Hlt|Hge]; [rewrite (Z.testbit_neg_r 1) by lia; split; [intros [?|?]; [by left|done]|intros [?|[= ->]]; [by left|lia]]|].
    destruct (decide (m = n)) as [->|]; [rewrite Z.sub_diag; tauto|].
    replace (Z.testbit 1 (m - n)) with false; [split; intros [?|?]; try (by left); congruence|].
    symmetry. apply Z.bits_above_log2; cbn; lia.
  - intros m Hm. apply list_elem_of_singleton in Hm as [= ->]. done.
Qed.

Lemma sample_deferred_ok : procedures_ok sample_deferred.
Proof.
  intros f s Hw _. assert (exists s' t, Ret s = Ret s' /\ dpc_after s s' t) as Hstay.
  { exists s, []. split; [done|]. constructor; [by rewrite app_nil_r|done|done| |].
    - intros n _. split; [by left|]. intros [?|?%elem_of_nil]; done.
    - intros n ?%elem_of_nil; done. }
  unfold sample_deferred. destruct (f =? 100); [|done]. case_bool_decide as H3; [|done].
  destruct (raise_after s 3 Hw) as (s' & E1 & H1); [lia|done|]. by exists s', [Raised 3].
Qed.

Lemma irq_exit_witness :
  exists s' t, irq_exit sample_deferred sample_dpc = Ret s' /\ trace s' = trace sample_dpc ++ t /\ preempt_count s' = 2 /\ irqs_on s' = irqs_on sample_dpc /\
    (Deferred <$> bits_of (dpc_irq_pending sample_dpc)) `sublist_of` t /\ no_loss s' /\ all_open s' (dpc_irq_pending s') /\
    (forall k, 0 <= k < 32 -> Z.testbit (dpc_irq_pending s') k = true -> raises t k).
Proof.
  apply (irq_exit_correct sample_deferred sample_deferred_ok sample_dpc 2); [lia|reflexivity|done| |].
  - intros n Hn Hb. assert (n = 1) as ->; [|by eexists]. destruct (decide (n = 1)); [done|]. exfalso.
    change (dpc_irq_pending sample_dpc) with (2 ^ 1) in Hb. rewrite Z.pow2_bits_eqb in Hb by lia. zbool. lia.
  - intros n Hn Hu. unfold unserved in Hu. cbn [trace sample_dpc fold_left] in Hu. destruct (Z.eqb_spec 1 n) as [<-|]; [reflexivity|discriminate].
Defined.

(** The raised procedure runs in the second round. *)
Example irq_exit_second_round : trace <$> (match irq_exit sample_deferred sample_dpc with Ret s => Some s | _ => None end)
  = Some [Raised 1; Deferred 1; Raised 3; Deferred 3].
Proof. reflexivity. Qed.
