(* ===== verification/Pic.v ===== *)
(** * The interrupt controller of the PC

    [source/drivers/hal/arch/x86]: the driver of the two 8259A ([i8259.c]), the
    set-up of the interrupt lines ([irqinit.c]) and the entry of an interrupt
    ([irq.c], [irq_32.c]).  The hardware is seen through the bytes written to its
    ports ([outs], the last first) and a function [inb] that says what a port
    answers after these writes; the mask registers hold what was written last to
    their ports.  The controller is the instance of [MaskChip], so that the lines
    of [IrqLine] and the masks of the hardware agree from the boot on. *)

From stdpp Require Import gmap strings.
From S2P Require Import Prelude Irq IrqLine Dpc.
Import IrqOps DpcOps.
Local Open Scope c_scope.

Definition PIC_MASTER_CMD : Z := 0x20.
Definition PIC_MASTER_IMR : Z := 0x21.
Definition PIC_SLAVE_CMD : Z := 0xa0.
Definition PIC_SLAVE_IMR : Z := 0xa1.
Definition PIC_CASCADE_IR : Z := 2.
Definition MASTER_ICW4_DEFAULT : Z := 1.
Definition SLAVE_ICW4_DEFAULT : Z := 1.
Definition PIC_ICW4_AEOI : Z := 2.
Definition NR_IRQS_LEGACY : Z := 16.
Definition NR_VECTORS : Z := 256.
Definition IRQ0_VECTOR : Z := 0x30.
Definition IRQ8_VECTOR : Z := IRQ0_VECTOR + 8.

(** The addresses of [i8259A_chip] and of [irq2]. *)
Definition i8259A_chip : Z := 0x1200.
Definition irq2 : Z := 0x1300.

Record pic := Pic {
  cached_irq_mask : Z;
  i8259A_auto_eoi : Z;
  spurious_irq_mask : Z;
  irq_err_count : Z;
  irq_trigger : Z * Z;
  io_apic_irqs : Z;
  outs : list (Z * Z)              (* port and byte *)
}.

Module PicOps.

Definition set_cached (p : pic) (x : Z) : pic := Pic x (i8259A_auto_eoi p) (spurious_irq_mask p) (irq_err_count p) (irq_trigger p) (io_apic_irqs p) (outs p).
Definition set_auto (p : pic) (x : Z) : pic := Pic (cached_irq_mask p) x (spurious_irq_mask p) (irq_err_count p) (irq_trigger p) (io_apic_irqs p) (outs p).
Definition set_spurious (p : pic) (x y : Z) : pic := Pic (cached_irq_mask p) (i8259A_auto_eoi p) x y (irq_trigger p) (io_apic_irqs p) (outs p).
Definition set_trigger (p : pic) (x : Z * Z) : pic := Pic (cached_irq_mask p) (i8259A_auto_eoi p) (spurious_irq_mask p) (irq_err_count p) x (io_apic_irqs p) (outs p).
Definition set_io_apic (p : pic) (x : Z) : pic := Pic (cached_irq_mask p) (i8259A_auto_eoi p) (spurious_irq_mask p) (irq_err_count p) (irq_trigger p) x (outs p).
Definition set_outs (p : pic) (x : list (Z * Z)) : pic := Pic (cached_irq_mask p) (i8259A_auto_eoi p) (spurious_irq_mask p) (irq_err_count p) (irq_trigger p) (io_apic_irqs p) x.

Definition cached_master_mask (p : pic) : Z := Z.land (cached_irq_mask p) 0xff.
Definition cached_slave_mask (p : pic) : Z := Z.land (Z.shiftr (cached_irq_mask p) 8) 0xff.

Definition outb (p : pic) (v port : Z) : pic := set_outs p ((port, Z.land v 0xff) :: outs p).

Definition write_mask (p : pic) (irq : Z) : pic :=
  if has irq 8 then outb p (cached_slave_mask p) PIC_SLAVE_IMR else outb p (cached_master_mask p) PIC_MASTER_IMR.

Definition mask_8259A_irq (p : pic) (irq : Z) : pic := write_mask (set_cached p (with_bits (cached_irq_mask p) (Z.shiftl 1 irq))) irq.
Definition disable_8259A_irq (a : irq_data) (p : pic) : pic := mask_8259A_irq p (irq a).
Definition unmask_8259A_irq (p : pic) (irq : Z) : pic := write_mask (set_cached p (without (cached_irq_mask p) (Z.shiftl 1 irq))) irq.
Definition enable_8259A_irq (a : irq_data) (p : pic) : pic := unmask_8259A_irq p (irq a).

Definition restore_ELCR (p : pic) (t : Z * Z) : pic := outb (outb p (fst t) 0x4d0) (snd t) 0x4d1.
Definition i8259A_shutdown (p : pic) : pic := outb (outb p 0xff PIC_MASTER_IMR) 0xff PIC_SLAVE_IMR.
Definition mask_8259A (p : pic) : pic := outb (outb p 0xff PIC_MASTER_IMR) 0xff PIC_SLAVE_IMR.
Definition unmask_8259A (p : pic) : pic := let p := outb p (cached_master_mask p) PIC_MASTER_IMR in outb p (cached_slave_mask p) PIC_SLAVE_IMR.

Section Pic.
Context {W : Type}.
Notation st := (isys pic W).

(** What a port answers after the writes. *)
Context (inb : list (Z * Z) -> Z -> Z).
Definition read (p : pic) (port : Z) : Z := Z.land (inb (outs p) port) 0xff.

Definition i8259A_irq_pending (p : pic) (irq : Z) : Z :=
  let mask := Z.shiftl 1 irq in
  if irq <? 8 then Z.land (read p PIC_MASTER_CMD) mask else Z.land (read p PIC_SLAVE_CMD) (Z.shiftr mask 8).

Definition i8259A_irq_real (p : pic) (irq : Z) : Z * pic :=
  let irqmask := Z.shiftl 1 irq in
  if irq <? 8 then
    let p := outb p 0x0B PIC_MASTER_CMD in
    (Z.land (read p PIC_MASTER_CMD) irqmask, outb p 0x0A PIC_MASTER_CMD)
  else
    let p := outb p 0x0B PIC_SLAVE_CMD in
    (Z.land (read p PIC_SLAVE_CMD) (Z.shiftr irqmask 8), outb p 0x0A PIC_SLAVE_CMD).

(** [handle_real_irq]: the mask is written before the end of interrupt. *)
Definition handle_real_irq (p : pic) (irq : Z) : pic :=
  let p := write_mask p irq in
  if has irq 8 then outb (outb p (0x60 + Z.land irq 7) PIC_SLAVE_CMD) (0x60 + PIC_CASCADE_IR) PIC_MASTER_CMD
  else outb p (0x60 + irq) PIC_MASTER_CMD.

Definition mask_and_ack_8259A (a : irq_data) (p : pic) : pic :=
  let irqmask := Z.shiftl 1 (irq a) in
  if negb (has (cached_irq_mask p) irqmask) then handle_real_irq (set_cached p (with_bits (cached_irq_mask p) irqmask)) (irq a)
  else
    let '(real, p) := i8259A_irq_real p (irq a) in
    if negb (real =? 0) then handle_real_irq p (irq a)
    else handle_real_irq (set_spurious p (with_bits (spurious_irq_mask p) irqmask) (to_int (irq_err_count p + 1))) (irq a).

(** [i8259A_chip]; [init_8259A] chooses [irq_mask_ack]. *)
Definition the_i8259A_chip (auto_eoi : Z) : irq_chip pic :=
  Chip None None None (Some disable_8259A_irq) None (Some disable_8259A_irq) (Some (if auto_eoi =? 0 then mask_and_ack_8259A else disable_8259A_irq))
    (Some enable_8259A_irq) None None None None None 0.

Definition save_ELCR (p : pic) : Z * Z := (Z.land (read p 0x4d0) 0xF8, Z.land (read p 0x4d1) 0xDE).

(** The writes of [init_8259A]; [outb_pic] is [outb] with a delay. *)
Definition init_sequence (auto_eoi : Z) (p : pic) : pic :=
  let p := outb (outb p 0xff PIC_MASTER_IMR) 0xff PIC_SLAVE_IMR in
  let p := outb (outb p 0x11 PIC_MASTER_CMD) IRQ0_VECTOR PIC_MASTER_IMR in
  let p := outb p (Z.shiftl 1 PIC_CASCADE_IR) PIC_MASTER_IMR in
  let p := outb p (if auto_eoi =? 0 then MASTER_ICW4_DEFAULT else Z.lor MASTER_ICW4_DEFAULT PIC_ICW4_AEOI) PIC_MASTER_IMR in
  let p := outb (outb p 0x11 PIC_SLAVE_CMD) IRQ8_VECTOR PIC_SLAVE_IMR in
  let p := outb (outb p PIC_CASCADE_IR PIC_SLAVE_IMR) SLAVE_ICW4_DEFAULT PIC_SLAVE_IMR in
  let p := outb p (cached_master_mask p) PIC_MASTER_IMR in
  outb p (cached_slave_mask p) PIC_SLAVE_IMR.

Definition init_8259A (s : st) (auto_eoi : Z) : st :=
  set_chips (set_dev s (init_sequence auto_eoi (set_auto (dev s) auto_eoi))) (<[i8259A_chip := the_i8259A_chip auto_eoi]> (chips s)).

Definition i8259A_resume (s : st) : st :=
  let s := init_8259A s (i8259A_auto_eoi (dev s)) in
  set_dev s (restore_ELCR (dev s) (irq_trigger (dev s))).
Definition i8259A_suspend (s : st) : Z * st := (0, set_dev s (set_trigger (dev s) (save_ELCR (dev s)))).

Definition make_8259A_irq (s : st) (i : Z) : run st :=
  s ← disable_irq_nosync s i;
  let s := set_dev s (set_io_apic (dev s) (without (io_apic_irqs (dev s)) (Z.shiftl 1 i))) in
  s ← irq_set_chip_and_handler_name s i i8259A_chip (Some handle_level);
  enable_irq s i.

(** ** [irqinit.c] *)

Fixpoint set_ISA_lines (n : nat) (i : Z) (s : st) : run st :=
  match n with
  | O => Ret s
  | S n => s ← irq_set_chip_and_handler_name s i i8259A_chip (Some handle_level); set_ISA_lines n (i + 1) s
  end.
(** With [legacy_pic] the default one. *)
Definition init_ISA_irqs (s : st) : run st := set_ISA_lines (Z.to_nat NR_IRQS_LEGACY) 0 (init_8259A s 0).

(** Without the gates of the processor. *)
Definition native_init_IRQ (fuel : nat) (s : st) : run st :=
  s ← init_ISA_irqs s;
  '(_, s) ← setup_irq fuel s 2 irq2;
  Ret s.

(** [vector_irq]: a missing entry is -1. *)
Fixpoint set_vectors (n : nat) (i : Z) (v : gmap Z Z) : gmap Z Z :=
  match n with O => v | S n => set_vectors n (i + 1) (<[IRQ0_VECTOR + i := i]> v) end.

Definition arch_init_irq (fuel : nat) (v : gmap Z Z) (s : st) : run (gmap Z Z * st) :=
  let v := set_vectors (Z.to_nat NR_IRQS_LEGACY) 0 v in
  s ← native_init_IRQ fuel s;
  Ret (v, s).

(** ** The entry of an interrupt: [irq.c], [irq_32.c]

    The write that acknowledges an interrupt at the APIC, the hook of the driver
    subsystem and the tick of the scheduler are parameters. *)
Context (driver : Z -> Z -> Z -> st -> run (Z * st)) (deferred : Z -> st -> run st).
Context (ack_APIC_irq : pic -> pic) (external_irq_handler : Z -> st -> run st) (kt_sched_tick : st -> run st).

Definition handle_irq (fuel : nat) (s : st) (i : Z) : run (bool * st) :=
  match irq_to_desc i with
  | None => Ret (false, s)
  | Some i => s ← generic_handle_irq_desc driver fuel s i; Ret (true, s)
  end.

Definition null_handler (_ : Z) (s : st) : run st := Ret s.

Definition do_IRQ (fuel : nat) (v : gmap Z Z) (s : st) (orig_ax : Z) : run (Z * st) :=
  let vector := w_not orig_ax in
  let s := irq_enter s in
  if NR_VECTORS <=? vector then Fault else
  let i := wrap (default (-1) (v !! vector)) in
  '(ok, s) ← handle_irq fuel s i;
  let s := if (ok : bool) then s else set_dev s (ack_APIC_irq (dev s)) in
  s ← irq_exit deferred s;
  s ← external_irq_handler i s;
  s ← (if i =? 0 then kt_sched_tick s else Ret s);
  Ret (1, s).

(** ** The boot *)

(** The state as it is loaded. *)
Definition loaded (w : W) : st :=
  ISys (list_to_map ((fun i => (i, boot_desc)) <$> seqZ 0 NR_IRQS)) {[irq2 := Action no_action 0 0 None 0 IRQF_NO_THREAD]}
    {[no_irq_chip := the_no_irq_chip; dummy_irq_chip := the_dummy_irq_chip; i8259A_chip := the_i8259A_chip 0]}
    (Pic 0xffff 0 0 0 (0, 0) 0 []) w false 0 0 ∅ [].

Definition boot (w : W) : run st := s ← early_irq_init (loaded w); native_init_IRQ 1 s.

End Pic.
End PicOps.
Import PicOps.

(** ** The mask registers *)

(** The byte written last to a port. *)
Fixpoint imr (port : Z) (l : list (Z * Z)) : Z :=
  match l with [] => 0xff | (q, v) :: l => if q =? port then v else imr port l end.

Definition pic_masked (p : pic) (i : Z) : bool :=
  if i <? 8 then Z.testbit (imr PIC_MASTER_IMR (outs p)) i else Z.testbit (imr PIC_SLAVE_IMR (outs p)) (i - 8).

(** The hardware has the mask the driver remembers. *)
Definition pic_ok (p : pic) : Prop :=
  imr PIC_MASTER_IMR (outs p) = cached_master_mask p /\ imr PIC_SLAVE_IMR (outs p) = cached_slave_mask p.

Lemma byte_bit x i : Z.testbit (Z.land x 0xff) i = (0 <=? i) && (i <? 8) && Z.testbit x i.
Proof.
  rewrite Z.land_spec. change 0xff with (Z.ones 8). destruct (Z.leb_spec 0 i); [|by rewrite Z.testbit_neg_r by done].
  rewrite Z.testbit_ones_nonneg by lia. apply andb_comm.
Qed.

Lemma pic_masked_ok p i : pic_ok p -> 0 <= i < 16 -> pic_masked p i = Z.testbit (cached_irq_mask p) i.
Proof.
  intros [E1 E2] Hi. unfold pic_masked. destruct (Z.ltb_spec i 8).
  - rewrite E1. unfold cached_master_mask. rewrite byte_bit, (proj2 (Z.leb_le 0 i)), (proj2 (Z.ltb_lt i 8)) by lia. done.
  - rewrite E2. unfold cached_slave_mask. rewrite byte_bit, (proj2 (Z.leb_le 0 (i - 8))), (proj2 (Z.ltb_lt (i - 8) 8)), Z.shiftr_spec by lia. cbn. f_equal. lia.
Qed.

Lemma has_8 i : 0 <= i < 16 -> has i 8 = (8 <=? i).
Proof.
  intros Hi. assert (forallb (fun i => Bool.eqb (has i 8) (8 <=? i)) (seqZ 0 16) = true) as Hall by reflexivity.
  rewrite forallb_forall in Hall. apply eqb_prop, Hall. apply list_elem_of_In, elem_of_seqZ. lia.
Qed.

(** Writing the half with line [i] when only its bit has changed. *)
Lemma write_mask_ok p c i : pic_ok p -> 0 <= i < 16 -> (forall j, 0 <= j < 16 -> j <> i -> Z.testbit c j = Z.testbit (cached_irq_mask p) j) ->
  pic_ok (write_mask (set_cached p c) i).
Proof.
  intros [E1 E2] Hi Hc. assert (forall x, Z.land (Z.land x 0xff) 0xff = Z.land x 0xff) as Hid by (intros x; by rewrite <- Z.land_assoc).
  unfold write_mask, outb, cached_master_mask, cached_slave_mask. cbn [set_cached cached_irq_mask]. rewrite !Hid, has_8 by done. destruct (Z.leb_spec 8 i); split; cbn [imr outs set_outs set_cached cached_irq_mask];
    change (PIC_SLAVE_IMR =? PIC_MASTER_IMR) with false; change (PIC_MASTER_IMR =? PIC_SLAVE_IMR) with false; cbn iota; rewrite ?Z.eqb_refl.
  1: rewrite E1. 2,3: reflexivity. 2: rewrite E2.
  all: unfold cached_master_mask, cached_slave_mask; cbn [set_cached set_outs cached_irq_mask]; apply Z.bits_inj'; intros j Hj; rewrite !byte_bit; destruct (Z.ltb_spec j 8); rewrite ?andb_false_r; try done; rewrite ?Z.shiftr_spec by lia.
  all: rewrite Hc by lia; done.
Qed.

Lemma pic_ok_same p q : outs q = outs p -> cached_irq_mask q = cached_irq_mask p -> pic_ok p -> pic_ok q.
Proof. unfold pic_ok, cached_master_mask, cached_slave_mask. by intros -> ->. Qed.

(** Writes to other ports. *)
Lemma pic_ok_outb p v port : port <> PIC_MASTER_IMR -> port <> PIC_SLAVE_IMR -> pic_ok p -> pic_ok (outb p v port).
Proof.
  intros H1 H2 [E1 E2]. split; cbn [outb outs set_outs imr]; by rewrite (proj2 (Z.eqb_neq port _)) by done.
Qed.

Lemma set_bit c i j : 0 <= i -> 0 <= j -> Z.testbit (with_bits c (Z.shiftl 1 i)) j = (j =? i) || Z.testbit c j.
Proof.
  intros Hi Hj. unfold with_bits. rewrite Z.lor_spec, orb_comm. f_equal. replace (Z.shiftl 1 i) with (2 ^ i) by (rewrite Z.shiftl_mul_pow2; lia).
  rewrite Z.pow2_bits_eqb by lia. apply Z.eqb_sym.
Qed.
Lemma clear_bit c i j : 0 <= i < 32 -> 0 <= j < 32 -> Z.testbit (without c (Z.shiftl 1 i)) j = negb (j =? i) && Z.testbit c j.
Proof.
  intros Hi Hj. unfold without. replace (Z.shiftl 1 i) with (2 ^ i) by (rewrite Z.shiftl_mul_pow2; lia).
  assert (is_word (2 ^ i)) as Hw by (split; [lia|]; change 4294967296 with (2 ^ 32); apply Z.pow_lt_mono_r; lia).
  rewrite Z.land_spec, testbit_w_not, Z.pow2_bits_eqb, andb_comm by (done || lia). by rewrite Z.eqb_sym.
Qed.

(** ** The 8259A masks its lines *)

#[global] Program Instance pic_mask : MaskChip pic := {
  hw_lines := NR_IRQS_LEGACY;
  hw_chip := i8259A_chip;
  hw_ok := pic_ok;
  hw_masked := pic_masked
}.
Solve Obligations with (unfold NR_IRQS_LEGACY, NR_IRQS, i8259A_chip, no_irq_chip; lia).

Lemma mask_bit_ok p c i b : pic_ok p -> 0 <= i < 16 -> (forall j, 0 <= j < 16 -> Z.testbit c j = if j =? i then b else Z.testbit (cached_irq_mask p) j) ->
  pic_ok (write_mask (set_cached p c) i) /\
  forall j, 0 <= j < 16 -> pic_masked (write_mask (set_cached p c) i) j = if j =? i then b else pic_masked p j.
Proof.
  intros Hp Hi Hc. assert (pic_ok (write_mask (set_cached p c) i)) as Hok.
  { apply write_mask_ok; [done|done|]. intros j Hj Hne. by rewrite Hc, (proj2 (Z.eqb_neq j i) Hne) by done. }
  split; [done|]. intros j Hj. rewrite !pic_masked_ok by done. rewrite <- Hc by done. unfold write_mask. by destruct (has i 8).
Qed.

Lemma disable_sets : sets_mask (D := pic) true disable_8259A_irq.
Proof.
  intros a p Hp Hi. change hw_lines with 16 in *. apply mask_bit_ok; [done|done|]. intros j Hj. rewrite set_bit by lia. by destruct (j =? irq a).
Qed.

Lemma enable_sets : sets_mask (D := pic) false enable_8259A_irq.
Proof.
  intros a p Hp Hi. change hw_lines with 16 in *. apply mask_bit_ok; [done|done|]. intros j Hj. rewrite clear_bit by lia. by destruct (j =? irq a).
Qed.

(** The commands after the mask do not touch it. *)
Lemma real_irq_ok p i : pic_ok (write_mask p i) ->
  pic_ok (handle_real_irq p i) /\ cached_irq_mask (handle_real_irq p i) = cached_irq_mask p.
Proof.
  intros Hp. unfold handle_real_irq. destruct (has i 8) eqn:E8.
  - split; [by apply pic_ok_outb, pic_ok_outb|]. unfold write_mask. by rewrite E8.
  - split; [by apply pic_ok_outb|]. unfold write_mask. by rewrite E8.
Qed.

Lemma mask_ack_sets inb : sets_mask (D := pic) true (mask_and_ack_8259A inb).
Proof.
  intros a p Hp Hi. change hw_lines with 16 in *. change (@hw_ok _ pic_mask) with pic_ok in *. change (@hw_masked _ pic_mask) with pic_masked.
  set (i := irq a) in *. set (c := with_bits (cached_irq_mask p) (Z.shiftl 1 i)).
  assert (forall j, 0 <= j < 16 -> Z.testbit c j = if j =? i then true else Z.testbit (cached_irq_mask p) j) as Hc by (intros j Hj; unfold c; rewrite set_bit by lia; by destruct (j =? i)).
  assert (forall q, pic_ok q -> cached_irq_mask q = cached_irq_mask p -> forall c', (forall j, 0 <= j < 16 -> Z.testbit c' j = Z.testbit c j) ->
    pic_ok (handle_real_irq (set_cached q c') i) /\ forall j, 0 <= j < 16 -> pic_masked (handle_real_irq (set_cached q c') i) j = if j =? i then true else pic_masked p j) as Hreal.
  { intros q Hq Eq c' Hc'. assert (forall j, 0 <= j < 16 -> Z.testbit c' j = if j =? i then true else Z.testbit (cached_irq_mask q) j) as Hcq by (intros j Hj; by rewrite Hc', Hc, Eq).
    destruct (mask_bit_ok q c' i true Hq Hi Hcq) as [Hok _]. destruct (real_irq_ok _ i Hok) as [Hok' Ec]. split; [done|]. intros j Hj. rewrite !pic_masked_ok by done. rewrite Ec. cbn. by rewrite Hcq, Eq. }
  unfold mask_and_ack_8259A. fold i. destruct (has (cached_irq_mask p) (Z.shiftl 1 i)) eqn:Eh; cbn [negb]; [|by apply Hreal].
  assert (forall j, 0 <= j < 16 -> Z.testbit (cached_irq_mask p) j = Z.testbit c j) as Hsame.
  { intros j Hj. rewrite Hc by done. destruct (Z.eqb_spec j i) as [->|]; [|done]. unfold has in Eh. apply negb_true_iff, Z.eqb_neq in Eh. destruct (Z.testbit (cached_irq_mask p) i) eqn:Et; [done|]. destruct Eh.
    apply Z.bits_inj'. intros k Hk. rewrite Z.land_spec, Z.testbit_0_l. replace (Z.shiftl 1 i) with (2 ^ i) by (rewrite Z.shiftl_mul_pow2; lia). rewrite Z.pow2_bits_eqb by lia.
    destruct (Z.eqb_spec i k) as [<-|]; [by rewrite Et|apply andb_false_r]. }
  assert (exists r q, i8259A_irq_real inb p i = (r, q) /\ pic_ok q /\ cached_irq_mask q = cached_irq_mask p) as (r & q & -> & Hq & Eq).
  { unfold i8259A_irq_real. destruct (i <? 8); do 2 eexists; (split; [done|]); (split; [by apply pic_ok_outb, pic_ok_outb|done]). }
  assert (forall q', set_cached q' (cached_irq_mask q') = q') as Hid by (by intros []).
  destruct (negb (r =? 0)); [rewrite <- (Hid q), Eq; by apply Hreal|].
  match goal with |- context [handle_real_irq ?q' i] => rewrite <- (Hid q'); change (cached_irq_mask q') with (cached_irq_mask q); rewrite Eq; apply Hreal end; [|done|done].
  by apply (pic_ok_same q).
Qed.

Lemma pic_law inb auto : chip_law (the_i8259A_chip inb auto).
Proof.
  constructor; try done.
  - exists disable_8259A_irq. split; [done|apply disable_sets].
  - eexists. split; [done|]. destruct (auto =? 0); [apply mask_ack_sets|apply disable_sets].
  - exists enable_8259A_irq. split; [done|apply enable_sets].
Qed.

(** ** From the boot on *)

Section Boot.
Context {W : Type} (inb : list (Z * Z) -> Z -> Z) (w : W).

(** The descriptor of a line after the boot: only the cascade is in use. *)
Definition booted_desc (i : Z) : irq_desc :=
  if i =? 2 then Desc (Data 2 0 i8259A_chip 0 0) handle_level irq2 0 0 0 0 false
  else if i <? NR_IRQS_LEGACY then Desc (Data i IRQD_IRQ_DISABLED i8259A_chip 0 0) handle_level 0 0 0 1 0 false
  else Desc (Data i IRQD_IRQ_DISABLED no_irq_chip 0 0) handle_bad_irq 0 0 0 1 0 false.

Definition booted : isys pic W := match boot inb w with Ret s => s | _ => loaded inb w end.

Lemma boot_ret : boot inb w = Ret booted.
Proof.
  assert (match boot inb w with Ret _ => true | _ => false end = true) as Hb by (vm_compute; reflexivity).
  unfold booted. by destruct (boot inb w).
Qed.

Lemma booted_descs i : 0 <= i < NR_IRQS -> descs booted !! i = Some (booted_desc i).
Proof.
  assert ((fun i => descs booted !! i) <$> seqZ 0 NR_IRQS = (fun i => Some (booted_desc i)) <$> seqZ 0 NR_IRQS) as Hall by (vm_compute; reflexivity).
  intros Hi. revert Hall. generalize (descs booted). intros m Hall. apply (f_equal (fun l => l !! Z.to_nat i)) in Hall. revert Hall. rewrite !list_lookup_fmap, lookup_seqZ_lt by lia. cbn [fmap option_fmap option_map].
  rewrite Z.add_0_l, Z2Nat.id by lia. intros Hall. by injection Hall.
Qed.

Lemma booted_acts : acts booted = {[irq2 := Action no_action 0 0 None 2 IRQF_NO_THREAD]}.
Proof. vm_compute. reflexivity. Qed.

Lemma booted_dev : cached_irq_mask (dev booted) = 0xfffb /\ pic_ok (dev booted).
Proof. unfold pic_ok. split_and!; vm_compute; reflexivity. Qed.

(** The functions of the chips do not matter for the table of chips. *)
Lemma booted_chips : chips booted !! i8259A_chip = Some (the_i8259A_chip inb 0) /\ chips booted !! no_irq_chip = Some the_no_irq_chip.
Proof.
  unfold booted, boot, native_init_IRQ, init_ISA_irqs, init_8259A, loaded, the_i8259A_chip, the_no_irq_chip, the_dummy_irq_chip.
  generalize (mask_and_ack_8259A inb) disable_8259A_irq enable_8259A_irq (@noop pic) (@noop_ret pic). intros fa fd fe fn fr.
  split; vm_compute; reflexivity.
Qed.

Lemma inv_of_tables (s : isys pic W) : (forall i, 0 <= i < NR_IRQS -> descs s !! i = Some (booted_desc i)) ->
  acts s = {[irq2 := Action no_action 0 0 None 2 IRQF_NO_THREAD]} -> cached_irq_mask (dev s) = 0xfffb /\ pic_ok (dev s) ->
  chips s !! i8259A_chip = Some (the_i8259A_chip inb 0) /\ chips s !! no_irq_chip = Some the_no_irq_chip -> irq_inv s.
Proof.
  intros Hd Ea [Em Hp] [Hc Hn]. constructor; [|exists (the_i8259A_chip inb 0); split; [done|apply pic_law]|done|done].
  intros i Hi. exists (booted_desc i). rewrite Hd by done. split; [done|]. unfold booted_desc.
  assert (0 <= i < 16 -> hw_masked (dev s) i = negb (i =? 2)) as Hm.
  { intros Hi'. change (hw_masked (dev s) i) with (pic_masked (dev s) i). rewrite pic_masked_ok, Em by done.
    assert (forallb (fun i => Bool.eqb (Z.testbit 0xfffb i) (negb (i =? 2))) (seqZ 0 16) = true) as Hall by reflexivity.
    rewrite forallb_forall in Hall. apply eqb_prop, Hall. apply list_elem_of_In, elem_of_seqZ. lia. }
  destruct (Z.eqb_spec i 2) as [->|Hne].
  - specialize (Hm ltac:(lia)). cbn [negb] in Hm. split; [done|]. split; [by constructor|].
    apply (line_hw _ _ _ [irq2]); [done|done|done|constructor; by intros| |apply NoDup_singleton].
    cbn [chain action]. split; [done|]. split; [done|]. rewrite Ea. eexists. by rewrite lookup_singleton_eq.
  - destruct (Z.ltb_spec i NR_IRQS_LEGACY) as [Hl|Hl]; (split; [done|]); (split; [by constructor|]).
    + specialize (Hm ltac:(unfold NR_IRQS_LEGACY in Hl; lia)). cbn [negb] in Hm. apply (line_hw _ _ _ []); [done|done|done|constructor; by intros|done|apply NoDup_nil_2].
    + by apply line_none.
Qed.

Lemma booted_inv : irq_inv booted.
Proof. apply inv_of_tables; [apply booted_descs|apply booted_acts|apply booted_dev|apply booted_chips]. Qed.
End Boot.

(** ** Properties *)

Section PicProofs.
Context {W : Type}.
Notation st := (isys pic W).

(** C31: from the boot on, whatever lines are requested, freed, enabled and disabled
    and whatever interrupts come, with handlers that may do the same: every
    operation returns, no lock stays held, a disabled line is masked in the 8259A,
    and a line that is enabled, has a handler and is not being handled is open. *)
Theorem irq_lines_correct (inb : list (Z * Z) -> Z -> Z) (driver : Z -> Z -> Z -> st -> run (Z * st)) (w : W) fuel s0 s :
  drivers_ok driver -> boot inb w = Ret s0 -> reaches driver fuel s0 s ->
  (forall c, cmd_ok fuel s c -> exists s', exec driver fuel c s = Ret s') /\
  forall i d, 0 <= i < NR_IRQS_LEGACY -> descs s !! i = Some d -> lock d = false /\
    (depth d <> 0 -> pic_masked (dev s) i = true) /\
    (depth d = 0 -> action d <> 0 -> irqd_irq_inprogress d = false -> pic_masked (dev s) i = false).
Proof.
  intros Hdrv Hb Hr. rewrite boot_ret in Hb. assert (s0 = booted inb w) as -> by congruence.
  pose proof (reaches_inv driver Hdrv fuel _ s (booted_inv inb w) Hr) as Hs. split.
  - intros c Hc. destruct (exec_inv driver Hdrv fuel c s Hs Hc) as (s' & E & _). by exists s'.
  - intros i d Hi Hd. by apply (line_masked_iff s i d Hs Hi Hd).
Qed.

(** *** Requests *)

(** Two handlers agree to share a line: both say so (bit 7), and they have the same
    trigger (bits 0 to 3), [IRQF_PERCPU] (10) and [IRQF_ONESHOT] (13). *)
Definition agree (a b : Z) : Prop :=
  Z.testbit a 7 = true /\ Z.testbit b 7 = true /\ forall n, n ∈ [0; 1; 2; 3; 10; 13] -> Z.testbit a n = Z.testbit b n.

Lemma has_pow2 x n : 0 <= n -> has x (2 ^ n) = Z.testbit x n.
Proof.
  intros Hn. unfold has. destruct (Z.eqb_spec (Z.land x (2 ^ n)) 0) as [E|E]; cbn [negb].
  - apply (f_equal (fun z => Z.testbit z n)) in E. rewrite Z.land_spec, Z.pow2_bits_true, andb_true_r, Z.bits_0 in E by done. by rewrite E.
  - symmetry. apply not_false_iff_true. intros F. apply E, Z.bits_inj_0. intros k. rewrite Z.land_spec, Z.pow2_bits_eqb by done.
    destruct (Z.eqb_spec n k) as [<-|]; [by rewrite F|apply andb_false_r].
Qed.

Lemma has_or x m k : has x (Z.lor m k) = has x m || has x k.
Proof.
  unfold has. rewrite Z.land_lor_distr_r. destruct (Z.eqb_spec (Z.land x m) 0) as [->|E]; [by rewrite Z.lor_0_l|]. cbn [negb orb].
  apply negb_true_iff, Z.eqb_neq. intros [? _]%Z.lor_eq_0_iff. done.
Qed.

Lemma has_xor_false a b n : 0 <= n -> has (Z.lxor a b) (2 ^ n) = false <-> Z.testbit a n = Z.testbit b n.
Proof. intros Hn. rewrite has_pow2, Z.lxor_spec by done. by destruct (Z.testbit a n), (Z.testbit b n). Qed.

Lemma land_pow2_eq a b n : 0 <= n -> Z.land a (2 ^ n) = Z.land b (2 ^ n) <-> Z.testbit a n = Z.testbit b n.
Proof.
  intros Hn. split; intros E.
  - apply (f_equal (fun z => Z.testbit z n)) in E. by rewrite !Z.land_spec, Z.pow2_bits_true, !andb_true_r in E by done.
  - apply Z.bits_inj'. intros k _. rewrite !Z.land_spec, Z.pow2_bits_eqb by done. destruct (Z.eqb_spec n k) as [<-|]; [by rewrite E|by rewrite !andb_false_r].
Qed.

Lemma may_share_agree old new : may_share old new = true <-> agree (flags old) (flags new).
Proof.
  unfold may_share, agree. change IRQF_SHARED with (2 ^ 7). change IRQF_ONESHOT with (2 ^ 13). change IRQF_PERCPU with (2 ^ 10).
  change IRQF_TRIGGER_MASK with (Z.lor (2 ^ 0) (Z.lor (2 ^ 1) (Z.lor (2 ^ 2) (2 ^ 3)))). rewrite !has_or, has_pow2, Z.land_spec by done.
  rewrite !andb_true_iff, !negb_true_iff, !orb_false_iff, !has_xor_false, Z.eqb_eq, land_pow2_eq by done. split.
  - intros [[[[H1 H2] (H3 & H4 & H5 & H6)] H7] H8]. split; [done|]. split; [done|]. intros n Hn. repeat (apply elem_of_cons in Hn as [->|Hn]; [done|]). by apply elem_of_nil in Hn.
  - intros (H1 & H2 & H). split_and!; try done; apply H; set_solver.
Qed.

(** Requests that [request_threaded_irq] denies at once: a shared handler needs a
    [dev_id], the line must exist and be open to requests, and there must be a
    handler. *)
Definition bad_request (s : st) (i : Z) (h tf : option irq_handler) (fl dv : Z) : Prop :=
  (Z.testbit fl 7 = true /\ dv = 0) \/ NR_IRQS <= i \/ (exists d, descs s !! i = Some d /\ irq_settings_can_request d = false) \/ (h = None /\ tf = None).

Lemma request_checked fuel (s : st) i h tf fl dv mem :
  irq_inv s -> 0 <= i ->
  (bad_request s i h tf fl dv /\ request_threaded_irq fuel s i h tf fl dv mem = Ret (- EINVAL, s)) \/
  (~ bad_request s i h tf fl dv /\ i < NR_IRQS /\ has fl IRQF_SHARED && (dv =? 0) = false /\ exists d h0, descs s !! i = Some d /\ irq_settings_can_request d = true /\ primary h tf = Some h0 /\
    (mem = 0 -> request_threaded_irq fuel s i h tf fl dv mem = Ret (- ENOMEM, s))).
Proof.
  intros Hs Hi. unfold request_threaded_irq, bad_request. change IRQF_SHARED with (2 ^ 7). rewrite has_pow2 by done. fold (primary h tf).
  destruct (Z.testbit fl 7 && (dv =? 0)) eqn:E1; [left; apply andb_true_iff in E1 as [E1 E2%Z.eqb_eq]; by auto|].
  unfold irq_to_desc. destruct (Z.ltb_spec i NR_IRQS) as [Hlt|Hlt]; [|left; by auto].
  destruct (ii_lines s Hs i) as (d & Hd & _); [done|]. rewrite (desc_of_eq s i d Hd). irq_run.
  destruct (irq_settings_can_request d) eqn:E2; cbn [negb]; [|left; split; [right; right; left; by exists d|done]].
  destruct (primary h tf) as [h0|] eqn:E3; [right|left; split; [right; right; right; by destruct h, tf|done]].
  split; [|split; [done|]; split; [done|]; exists d, h0; split; [done|]; split; [done|]; split; [done|]; by intros ->].
  intros [[H1 H2]|[H|[(e & He & Hr)|[H1 H2]]]]; [by rewrite H1, H2 in E1|lia|congruence|by subst].
Qed.

(** A line without a controller. *)
Lemma request_no_chip fuel (s : st) i h tf fl dv mem d h0 :
  irq_inv s -> NR_IRQS_LEGACY <= i < NR_IRQS -> descs s !! i = Some d -> acts s !! mem = None -> mem <> 0 ->
  has fl IRQF_SHARED && (dv =? 0) = false -> irq_settings_can_request d = true -> primary h tf = Some h0 ->
  request_threaded_irq fuel s i h tf fl dv mem = Ret (- ENOSYS, s).
Proof.
  intros Hs Hi Hd Hm Hne Hsh Hreq Hp. assert (0 <= i < NR_IRQS) as Hi' by (unfold NR_IRQS_LEGACY in *; lia).
  unfold request_threaded_irq. rewrite Hsh. unfold irq_to_desc. rewrite (proj2 (Z.ltb_lt i NR_IRQS)) by lia.
  rewrite (desc_of_eq s i d Hd). irq_run. rewrite Hreq. cbn [negb]. fold (primary h tf). rewrite Hp, (proj2 (Z.eqb_neq mem 0) Hne).
  destruct (alloc_inv s mem (Action h0 dv 0 tf 0 fl) Hs Hm) as (Hs1 & _). destruct (bus_lock_inv _ i Hs1 Hi') as [-> E2]. irq_run.
  destruct (ii_lines s Hs i Hi') as (e & He & _ & _ & Hk). rewrite Hd in He. injection He as <-. destruct Hk as [l Hlt|_ Ec _ _]; [cbn in Hlt; lia|].
  unfold __setup_irq, desc_of. cbn [descs set_acts]. rewrite Hd. cbn [lift]. irq_run. rewrite Ec. cbn. rewrite E2. irq_run. cbn. by rewrite free_mem.
Qed.

(** Freeing the handler that was appended last. *)
Lemma request_then_free fuel (s s1 : st) i d l tf fl dv mem h0 :
  0 <= i < NR_IRQS_LEGACY -> chain (acts s) i (action d) l -> (S (length l) < fuel)%nat -> acts s !! mem = None -> irq_inv s1 ->
  requested (set_acts s (<[mem := Action h0 dv 0 tf 0 fl]> (acts s))) s1 i mem d l (Action h0 dv 0 tf 0 fl) ->
  (forall b x, b ∈ l -> acts s !! b = Some x -> dev_id x <> dv) ->
  exists s2 d2, free_irq fuel s1 i dv = Ret s2 /\ irq_inv s2 /\ descs s2 !! i = Some d2 /\ chain (acts s2) i (action d2) l /\ acts s2 !! mem = None /\
    (if decide (l = []) then depth d2 = 1 /\ pic_masked (dev s2) i = true else depth d2 = depth d /\ dev s2 = dev s).
Proof.
  intros Hi Hc Hf Hm Hinv1 (m & d1 & x1 & -> & H1 & Hm1 & Hrl & Hst) Hdv.
  set (s1 := line_put _ i d1 x1) in *. assert (descs s1 !! i = Some d1) as Hd1 by (unfold s1; cbn; by rewrite lookup_insert_eq).
  pose proof (ah_chain _ _ _ _ _ H1) as Hc1. cbn in Hc1.
  destruct (free_hw fuel s1 i d1 (l ++ [mem]) dv Hinv1 Hi Hd1 Hc1) as (s2 & E2 & Hinv2 & Hres); [rewrite length_app; cbn; lia|].
  destruct Hres as [(_ & _ & _ & Hno)|(l1 & b & l2 & x & d2 & El & Hb & Hbd & Hno & Ed2 & Hc2 & Hb2 & Hst2)].
  { exfalso. apply (Hno mem (with_irq (Action h0 dv 0 tf 0 fl) i)); [apply elem_of_app; right; by left|done|done]. }
  assert (l1 = l /\ b = mem /\ l2 = []) as (-> & -> & ->).
  { destruct l2 as [|c l2 _] using rev_ind.
    - apply app_inj_tail in El as [-> ->]. done.
    - exfalso. rewrite app_comm_cons, app_assoc in El. apply app_inj_tail in El as [-> _].
      destruct (chain_elem _ _ _ _ b Hc) as (_ & y & Hy & _); [apply elem_of_app; right; by left|].
      assert (b <> mem) as Hbm by (intros ->; congruence). destruct (Hrl b y Hbm) as [n Hn]; [cbn; by rewrite lookup_insert_ne by done|].
      change (acts s1) with m in Hb. rewrite Hn in Hb. injection Hb as <-. apply (Hdv b y); [apply elem_of_app; right; by left|done|done]. }
  rewrite app_nil_r in *. exists s2, d2. split; [done|]. split; [done|]. split; [by rewrite Ed2, lookup_insert_eq|]. split; [done|]. split; [done|].
  case_decide as El'; [done|]. destruct Hst as [Hdep Hx]. destruct Hst2 as [Hdep2 Hx2]. split; [congruence|]. rewrite Hx2. exact Hx.
Qed.

(** C32: every outcome of a request for a line.  [-EINVAL] exactly for the requests of
    [bad_request]; of the others [-ENOMEM] without memory and [-ENOSYS] on a line
    without controller.  On a line of the 8259A the answer is [-EBUSY] if there are
    handlers and the first of them and the new one do not agree to share the line,
    and 0 otherwise.  No refusal leaves a trace.  With 0 the handler is appended to
    those of the line, with its device and its flags, and the line is open if it is
    the first; if no other handler of the line has the same [dev_id], freeing it takes
    out exactly this handler and its memory: the line has its former handlers, and is
    masked again if there are none. *)
Theorem request_free_roundtrip fuel (s : st) i h tf fl dv mem :
  irq_inv s -> 0 <= i -> (forall d l, descs s !! i = Some d -> chain (acts s) i (action d) l -> (S (length l) < fuel)%nat) -> acts s !! mem = None ->
  exists r s1, request_threaded_irq fuel s i h tf fl dv mem = Ret (r, s1) /\ (r <> 0 -> s1 = s) /\
    ((r = - EINVAL /\ bad_request s i h tf fl dv) \/ (~ bad_request s i h tf fl dv /\
    ((r = - ENOMEM /\ mem = 0) \/ (mem <> 0 /\
    ((r = - ENOSYS /\ NR_IRQS_LEGACY <= i) \/ (i < NR_IRQS_LEGACY /\ exists d l, descs s !! i = Some d /\ chain (acts s) i (action d) l /\
    let shared := forall b old, head l = Some b -> acts s !! b = Some old -> agree (flags old) fl in
    ((r = - EBUSY /\ ~ shared) \/
     (r = 0 /\ shared /\ irq_inv s1 /\ exists d1 h0, descs s1 !! i = Some d1 /\ chain (acts s1) i (action d1) (l ++ [mem]) /\ (l = [] -> pic_masked (dev s1) i = false) /\
       (h = Some h0 \/ (h = None /\ h0 = irq_default_primary_handler)) /\ acts s1 !! mem = Some (Action h0 dv 0 tf i fl) /\
       ((forall b x, b ∈ l -> acts s !! b = Some x -> dev_id x <> dv) ->
        exists s2 d2, free_irq fuel s1 i dv = Ret s2 /\ irq_inv s2 /\ descs s2 !! i = Some d2 /\ chain (acts s2) i (action d2) l /\ acts s2 !! mem = None /\
          (if decide (l = []) then depth d2 = 1 /\ pic_masked (dev s2) i = true else depth d2 = depth d /\ dev s2 = dev s)))))))))).
Proof.
  intros Hs Hi Hf Hm. destruct (request_checked fuel s i h tf fl dv mem Hs Hi) as [(Hb & E)|(Hb & Hlt & Hsh & d & h0 & Hd & Hreq & Hp & H0)].
  { exists (- EINVAL), s. split; [done|]. split; [done|]. by left. }
  destruct (decide (mem = 0)) as [->|Hne]; [exists (- ENOMEM), s; split; [by apply H0|]; split; [done|]; right; split; [done|]; by left|].
  destruct (decide (NR_IRQS_LEGACY <= i)) as [Hl|Hl].
  { exists (- ENOSYS), s. split; [eapply request_no_chip; done|]. split; [done|]. right. split; [done|]. right. split; [done|]. by left. }
  assert (0 <= i < NR_IRQS_LEGACY) as Hi' by lia. destruct (ii_lines s Hs i) as (e & He & _ & _ & Hk); [done|]. rewrite Hd in He. injection He as <-.
  destruct Hk as [l _ _ _ _ Hc _|Hge _ _ _]; [|cbn in Hge; lia]. specialize (Hf d l Hd Hc).
  destruct (request_hw fuel s i d l h tf fl dv mem h0) as (r & s1 & E1 & Hinv1 & Hres); try done; [lia|]. exists r, s1. split; [done|].
  destruct Hres as [(Hms & -> & Hq)|(-> & -> & Hln & old & Ho & Hms)].
  - split; [done|]. right. split; [done|]. right. split; [done|]. right. split; [lia|]. exists d, l. split; [done|]. split; [done|]. intros shared. right. split; [done|]. split.
    { intros b old Hb' Hold. apply (may_share_agree old (Action h0 dv 0 tf 0 fl)), Hms; [|by intros ->]. destruct l as [|c l]; [done|]. destruct Hc as (-> & _). by injection Hb' as ->. }
    split; [done|]. pose proof Hq as (m & d1 & x1 & Es1 & H1 & Hm1 & _ & Hst). exists d1, h0. rewrite Es1. cbn. split; [by rewrite lookup_insert_eq|]. split; [apply (ah_chain _ _ _ _ _ H1)|].
    split; [intros ->; by destruct Hst|]. split; [destruct h; [left; by injection Hp as ->|right; by destruct tf; [injection Hp as <-|]]|]. split; [exact Hm1|].
    intros Hdv. rewrite <- Es1. by eapply request_then_free.
  - split; [done|]. right. split; [done|]. right. split; [done|]. right. split; [lia|]. exists d, l. split; [done|]. split; [done|]. intros shared. left. split; [done|].
    intros Hshared. apply not_true_iff_false in Hms. apply Hms, may_share_agree. apply (Hshared (action d) old); [|done]. destruct l as [|c l]; [done|]. by destruct Hc as (-> & _).
Qed.

(** ** Errors *)

(** [can_request_irq] denies a line that has no handler, which a request gets. *)
Theorem can_request_free_line fuel (s : st) i d fl mem h :
  irq_inv s -> 0 <= i < NR_IRQS_LEGACY -> descs s !! i = Some d -> action d = 0 -> (1 < fuel)%nat -> acts s !! mem = None -> mem <> 0 ->
  irq_settings_can_request d = true -> has fl IRQF_SHARED = false ->
  (exists s', hal_irq_can_request s i fl = Ret (false, s')) /\ (exists s', hal_irq_request fuel s i (Some h) fl 0 mem = Ret (0, s')).
Proof.
  intros Hs Hi Hd Ha Hf Hm Hne Hreq Hsh. assert (0 <= i < NR_IRQS) as Hi' by (unfold NR_IRQS_LEGACY, NR_IRQS in *; lia). split.
  - destruct (held_line s i d Hs Hi' Hd) as [Hlk Hh]. unfold hal_irq_can_request, can_request_irq.
    rewrite (with_desc_put s i d false 0 0 0 _ (set_lock d true) (dev s) Hh Hd Hlk); [by eexists|done|done|].
    irq_run. change (action (set_lock d true)) with (action d). by rewrite Ha, andb_false_r.
  - unfold hal_irq_request. destruct (request_hw fuel s i d [] (Some h) None fl 0 mem h) as (r & s1 & E & _ & [(_ & -> & _)|(_ & _ & Hl & _)]); try done; [cbn; lia|by rewrite Hsh|by exists s1].
Qed.

(** [setup_irq] reads the chip of a line that does not exist before
    [__setup_irq] tests for it. *)
Theorem setup_irq_out_of_range fuel (s : st) i a : NR_IRQS <= i -> setup_irq fuel s i a = Fault /\ __setup_irq fuel s (irq_to_desc i) a = Ret (- EINVAL, s).
Proof. intros Hi. unfold setup_irq, irq_to_desc. by rewrite (proj2 (Z.ltb_ge _ _) Hi). Qed.

(** An interrupt on a per-CPU line without a handler reads through NULL. *)
Theorem percpu_no_action_faults driver fuel (s : st) i d c :
  descs s !! i = Some d -> chips s !! chip (data d) = Some c -> irq_ack_op c = None -> action d = 0 -> acts s !! 0 = None -> (0 < fuel)%nat ->
  handle_percpu_irq driver fuel s i = Fault.
Proof.
  intros Hd Hc Hk Ha H0 Hf. unfold handle_percpu_irq, chip_of. rewrite (desc_of_eq s i d Hd). irq_run. rewrite Hc. cbn [lift]. irq_run. rewrite Hk. cbn [try_op]. irq_run.
  rewrite (desc_of_eq s i d Hd). irq_run. unfold handle_irq_event_percpu. rewrite (desc_of_eq s i d Hd). irq_run. destruct fuel; [lia|]. cbn [event_loop]. by rewrite Ha, H0.
Qed.
End PicProofs.

(** ** Examples *)

(** A driver whose handlers disable their line. *)
Definition sample_driver (f i dv : Z) (s : isys pic unit) : run (Z * isys pic unit) :=
  match descs s !! i with
  | Some d => if depth d + 1 <? 4294967296 then s ← disable_irq s i; Ret (IRQ_HANDLED, s) else Ret (IRQ_NONE, s)
  | None => Ret (IRQ_NONE, s)
  end.

Lemma sample_driver_ok : drivers_ok sample_driver.
Proof.
  intros f i dv s Hs (Hi & d & Hd & Hp). unfold sample_driver. rewrite Hd.
  assert (exists r s' t, Ret (IRQ_NONE, s) = Ret (r, s') /\ irq_inv s' /\ in_progress s' i /\ (forall a l, chain (acts s) i a l -> chain (acts s') i a l) /\ trace s' = trace s ++ t) as Hstay.
  { exists IRQ_NONE, s, []. split; [done|]. split; [done|]. split; [split; [done|by exists d]|]. split; [done|]. by rewrite app_nil_r. }
  destruct (Z.ltb_spec (depth d + 1) 4294967296) as [Hov|]; [|done]. pose proof (hw_lines_range (D := pic)).
  destruct (disable_inv s i d Hs ltac:(lia) Hd Hov) as (s' & d' & -> & Hinv & Ed & Ea & _ & Hp' & Et). cbn [mbind run_bind].
  exists IRQ_HANDLED, s', []. split; [done|]. split; [done|]. split; [split; [done|]; exists d'; rewrite Ed, lookup_insert_eq; by split; [|rewrite Hp']|].
  split; [by rewrite Ea|]. by rewrite app_nil_r.
Qed.

Definition sample_inb (l : list (Z * Z)) (port : Z) : Z := 0.
Notation sample_boot := (booted sample_inb tt).
#[local] Opaque booted.

Lemma sample_line4 d l : descs sample_boot !! 4 = Some d -> chain (acts sample_boot) 4 (action d) l -> l = [] /\ d = booted_desc 4.
Proof. rewrite booted_descs by (unfold NR_IRQS; lia). intros [= <-] Hc. split; [|done]. exact (chain_det _ _ _ _ _ Hc (eq_refl : chain _ _ 0 [])). Qed.

Lemma sample_acts mem : mem <> irq2 -> acts sample_boot !! mem = None.
Proof. intros Hm. rewrite booted_acts. by rewrite lookup_singleton_ne by done. Qed.

(** Line 4 is requested. *)
Lemma irq_lines_witness : exists s, reaches sample_driver 8 sample_boot s /\ exec sample_driver 8 (Request 4 (Some (Driver 1)) None 0 0 0x2000) sample_boot = Ret s /\
  (forall c, cmd_ok 8 s c -> exists s', exec sample_driver 8 c s = Ret s') /\
  forall i d, 0 <= i < NR_IRQS_LEGACY -> descs s !! i = Some d -> lock d = false /\
    (depth d <> 0 -> pic_masked (dev s) i = true) /\
    (depth d = 0 -> action d <> 0 -> irqd_irq_inprogress d = false -> pic_masked (dev s) i = false).
Proof.
  assert (cmd_ok 8 sample_boot (Request 4 (Some (Driver 1)) None 0 0 0x2000)) as Hc.
  { split; [lia|]. split; [right; by apply sample_acts|]. intros d l Hd Hl. destruct (sample_line4 d l Hd Hl) as [-> _]. cbn. lia. }
  destruct (exec_inv sample_driver sample_driver_ok 8 _ sample_boot (booted_inv sample_inb tt) Hc) as (s & E & _).
  assert (reaches sample_driver 8 sample_boot s) as Hr by (exact (reach_step _ _ _ _ _ _ (reach_start _ _ _) Hc E)).
  exists s. split; [exact Hr|]. split; [exact E|]. exact (irq_lines_correct sample_inb sample_driver tt 8 sample_boot s sample_driver_ok (boot_ret sample_inb tt) Hr).
Defined.

(** Line 4 is free: the request is granted, and the line is masked again after. *)
Lemma request_free_witness :
  exists s1 s2 d1 d2, request_threaded_irq 8 sample_boot 4 (Some (Driver 1)) None 0 7 0x2000 = Ret (0, s1) /\ descs s1 !! 4 = Some d1 /\
    chain (acts s1) 4 (action d1) [0x2000] /\ pic_masked (dev s1) 4 = false /\ acts s1 !! 0x2000 = Some (Action (Driver 1) 7 0 None 4 0) /\
    free_irq 8 s1 4 7 = Ret s2 /\ descs s2 !! 4 = Some d2 /\ chain (acts s2) 4 (action d2) [] /\ acts s2 !! 0x2000 = None /\ pic_masked (dev s2) 4 = true.
Proof.
  assert (descs sample_boot !! 4 = Some (booted_desc 4)) as Hd by (apply booted_descs; unfold NR_IRQS; lia).
  destruct (request_free_roundtrip 8 sample_boot 4 (Some (Driver 1)) None 0 7 0x2000) as (r & s1 & E & _ & H).
  - apply booted_inv.
  - lia.
  - intros d l H1 H2. destruct (sample_line4 d l H1 H2) as [-> _]. cbn. lia.
  - by apply sample_acts.
  - destruct H as [(_ & [[F _]|[F|[(d & H1 & H2)|[F _]]]])|(_ & [(_ & F)|(_ & [(_ & F)|(_ & d & l & H1 & H2 & H)])])].
    + discriminate F.
    + unfold NR_IRQS in F. lia.
    + rewrite Hd in H1. injection H1 as <-. vm_compute in H2. discriminate H2.
    + discriminate F.
    + discriminate F.
    + unfold NR_IRQS_LEGACY in F. lia.
    + destruct (sample_line4 d l H1 H2) as [-> ->]. cbn zeta in H. destruct H as [(_ & Hno)|(-> & _ & _ & d1 & h0 & Hd1 & Hc1 & Hm1 & Hh & Ha1 & Hfree)].
      { exfalso. apply Hno. intros b old Hb. discriminate Hb. }
      destruct Hfree as (s2 & d2 & E2 & _ & Hd2 & Hc2 & Ha2 & Hst); [intros b x Hb; destruct (proj1 (elem_of_nil b) Hb)|].
      destruct Hh as [Hh|[Hh _]]; [injection Hh as <-|discriminate Hh].
      exists s1, s2, d1, d2. split; [exact E|]. split; [exact Hd1|]. split; [exact Hc1|]. split; [apply Hm1; reflexivity|]. split; [exact Ha1|]. split; [exact E2|].
      split; [exact Hd2|]. split; [exact Hc2|]. split; [exact Ha2|]. case_decide as Hc; [apply Hst|by destruct Hc].
Defined.

(** ** A run: the timer of line 0 raises its deferred procedure *)

Definition tick_driver (f i dv : Z) (s : isys pic unit) : run (Z * isys pic unit) :=
  s ← raise_dpc_irq s TIMER_SOFTIRQ; Ret (IRQ_HANDLED, s).
Definition tick_run : run (isys pic unit) :=
  s ← early_irq_init (loaded sample_inb tt);
  '(v, s) ← arch_init_irq sample_inb 4 ∅ s;
  s ← open_dpc_irq s TIMER_SOFTIRQ 77;
  '(_, s) ← hal_irq_request 4 s 0 (Some (Driver 1)) 0 0 0x2000;
  '(_, s) ← do_IRQ tick_driver (fun _ s => Ret s) (fun p => p) null_handler (fun s => Ret s) 4 v s (w_not IRQ0_VECTOR);
  Ret s.

(** The line is masked, acknowledged and, after its handler, opened; then the
    procedure runs. *)
Example tick_trace : match tick_run with Ret s => Some (trace s, take 3 (outs (dev s)), preempt_count s, dpc_irq_pending s) | _ => None end
  = Some ([Handled 0x2000; Raised 1; Deferred 1], [(PIC_MASTER_IMR, 0xfa); (PIC_MASTER_CMD, 0x60); (PIC_MASTER_IMR, 0xfb)], 0, 0).
Proof. vm_compute. reflexivity. Qed.

(** Line 4 with a shared handler: one that does not share is refused. *)
Definition share_run : run (Z * Z) :=
  s ← early_irq_init (loaded sample_inb tt);
  '(_, s) ← arch_init_irq sample_inb 4 ∅ s;
  '(_, s) ← hal_irq_request 4 s 4 (Some (Driver 1)) IRQF_SHARED 7 0x2000;
  '(r1, s) ← hal_irq_request 4 s 4 (Some (Driver 2)) 0 8 0x3000;
  '(r2, s) ← hal_irq_request 4 s 4 (Some (Driver 2)) IRQF_SHARED 8 0x3000;
  Ret (r1, r2).

Example share_sample : share_run = Ret (- EBUSY, 0).
Proof. vm_compute. reflexivity. Qed.
