(* ===== verification/Srv.v ===== *)
(** * Kernel services

    [source/kernel/srv.c]: the tables of services, the entry of a system call and
    the services of the kernel for memory, processes, executables, threads and the
    waiting for objects, on the state of [Process].  A request is the list of its
    members; what a service writes into it is part of its result.  The calls into
    the file system ([fss_open], [fss_get_size]) are arguments: the file, 0 for
    NULL, and its size.  User buffers are not checked by the code
    ([ke_validate_user_buffer] returns true). *)

From stdpp Require Import gmap strings.
From S2P Require Import Prelude Bits Bitmap BlkBuf I2p Object Handle Sched Sync Vm KoSection Stock Fault Msg Ktm CString Exe Process.
Import BkbOps I2pOps ObjectOps SchedOps VmOps KtmOps StringOps ExeOps ProcessOps.
Local Open Scope c_scope.

Definition KE_SRV_MAX : Z := 16.
Definition KE_SRV_GET_FID (id : Z) : Z := Z.land id 0xffffff.
Definition KE_SRV_GET_CLASZ (id : Z) : Z := Z.shiftr id 24.
Definition KERNEL_ENTRIES : Z := 100.              (* SYS_REQ_KERNEL_MAX - SYS_REQ_KERNEL_BASE *)

(** The services of [kernel_entry]. *)
Inductive service := Sprocess_create | Sthread_create | Sthread_sync_ops | Sprocess_startup | Skernel_printf | Sprocess_ld | Sthread_msg | Sthread_teb | Smemory_virtual_alloc | Smisc_draw_screen.

Module SrvOps.

(** ** Tables and dispatch *)

(** [kernel_entry] after [ke_srv_init]; the other entries are NULL. *)
Definition kernel_entry : gmap Z service :=
  {[0 := Sprocess_create; 1 := Sthread_create; 2 := Sthread_sync_ops; 3 := Sprocess_startup; 4 := Skernel_printf; 5 := Sprocess_ld;
    6 := Sthread_msg; 7 := Sthread_teb; 20 := Smemory_virtual_alloc; 90 := Smisc_draw_screen]}.

(** Entry [id]: [Fault] outside the table and for NULL. *)
Definition kernel_srv (id : Z) : run service :=
  if KERNEL_ENTRIES <=? id then Fault else lift (kernel_entry !! id).

(** [ke_interface_v2]: per class the [request_enqueue] of its service, by its
    address; no entry is NULL. *)
Notation interface := (gmap Z Z).

Definition ke_srv_register (v : interface) (base entry : Z) : run (bool * interface) :=
  let id := KE_SRV_GET_CLASZ base in
  if KE_SRV_MAX <=? id then Fault else
  match v !! id with
  | Some _ => Ret (false, v)
  | None => Ret (true, <[id := entry]> v)
  end.

(** The service function and the number it is called with, or [None] for the
    result -1. *)
Definition arch_system_call (v : interface) (req_id : Z) : run (option (Z * Z)) :=
  let clasz := KE_SRV_GET_CLASZ req_id in
  if KE_SRV_MAX <=? clasz then Fault else
  Ret (match v !! clasz with None => None | Some f => Some (f, KE_SRV_GET_FID req_id) end).

Section Srv.
Context {C : Type} `{ElfImage C}.
Context (first_time_entry kernel_thread_fate_entry : Z).
Notation st := (psys cl_object_type C).
Notation env := (penv obj_env).

(** [kt_current()] and [KP_CURRENT()]. *)
Definition kt_current (s : st) : Z := cur (cpu (mkern (world s))).
Definition KP_CURRENT (s : st) : run Z :=
  t ← lift (threads (mkern (world s)) !! kt_current s); Ret (Sched.process t).

(** [ke_handle_create] in the current process for an object of the type [m];
    [grow] is the memory the table may get. *)
Definition handle_create (s : st) (m : cl_object_type) (kobject grow : Z) : run (Z * cl_object_type * st) :=
  w ← KP_CURRENT s;
  p ← lift (procs s !! w);
  '(h, on, m) ← ke_handle_create (hands p) m kobject grow;
  Ret (h, m, set_procs s (<[w := Process (vm p) on]> (procs s))).

(** ** Files in memory *)

Definition create_file_map (ev : env) (s : st) (to fp size prot : Z) : run (Z * st) :=
  '(ks, s) ← on_space s to (fun k => ks_create (e_sect ev) k KS_TYPE_FILE 0 size prot);
  if ks =? 0 then Ret (0, s) else
  sec ← lift (mem (sects (xs s)) !! ks);
  let k := sects (xs s) in
  Ret (ks, set_xs s (set_sects (xs s) (set_mem k (<[ks := set_priv sec (Vm.prot sec) fp (priv1 sec)]> (mem k))))).

(** [fp] and [map_size]: the results of [fss_open] and [fss_get_size]. *)
Definition map_file (ev : env) (s : st) (to fp map_size prot : Z) : run (Z * option Z * st) :=
  if fp =? 0 then Ret (0, None, s) else
  '(map, s) ← create_file_map ev s to fp map_size prot;
  if map =? 0 then Ret (0, None, s) else Ret (map, Some map_size, s).

Definition unmap_file (ev : env) (s : st) (where_ address : Z) : run (bool * st) :=
  on_space s where_ (fun k =>
    ks ← lift (ks_get_by_vaddress (mem k) (proc k) address);
    if ks =? 0 then Ret (false, k) else k ← ks_close (e_sect ev) k ks; Ret (true, k)).

Definition ke_map_file (ev : env) (s : st) (fp map_size prot : Z) : run (Z * st) :=
  w ← KP_CURRENT s;
  '(map, s) ← create_file_map ev s w fp map_size prot;
  if map =? 0 then Ret (0, s) else
  sec ← lift (mem (sects (xs s)) !! map); Ret (start (node sec), s).

(** ** Processes *)

Definition ld_name : string := "/os/i386/dl.sys".

(** [p0]: the uninitialised local of the search for a name. *)
Definition process_create (fuel : nat) (ev : env) (s : st) (p0 grow : Z) (cmdline : list Z) : run (Z * st) :=
  '(ke_ld, x) ← kp_exe_search_by_name (xs s) p0 ld_name;
  let s := set_xs s x in
  if ke_ld =? 0 then Ret (KE_INVALID_HANDLE, s) else
  '(process, s) ← kp_run_user first_time_entry kernel_thread_fate_entry fuel ev s ke_ld cmdline;
  if process =? 0 then Ret (KE_INVALID_HANDLE, s) else
  w ← KP_CURRENT s;
  '(h, m, s) ← handle_create s (process_type (xs s)) w grow;
  let s := set_xs s (set_process_type (xs s) m) in
  if h =? KE_INVALID_HANDLE then Ret (KE_INVALID_HANDLE, s) else
  x ← kp_exe_put (xs s) ke_ld;
  Ret (h, set_xs s x).

(** The functions of [process_startup]: the bytes for the user's buffer, or the
    new working directory, which [fss_open] returned.  The end of a thread is an
    endless loop of sleeps; an unknown function does nothing. *)
Inductive startup := START | SET_PATH (dir : Z) | END | OTHER_STARTUP.
Definition process_startup (s : st) (f : startup) : run (option (list Z) * st) :=
  match f with
  | START => b ← startup_cmdline s (kt_current s); Ret (Some b, s)
  | SET_PATH dir =>
    d ← lift (descs s !! kt_current s);
    Ret (None, set_descs s (<[kt_current s := Desc (arch d) (teb d) dir]> (descs s)))
  | END => NoFuel
  | OTHER_STARTUP => Ret (None, s)
  end.

(** ** The dynamic linker *)

Inductive ld_request :=
  | OPEN_EXE (name : string) (context_length : Z)
  | MAP_EXE_FILE (fp size : Z)
  | UNMAP_EXE_FILE (address : Z)
  | ENJECT_EXE (name : string) (context_length : Z) (context : C) (fp size : Z)
  | OTHER_LD.

(** What is written into the request. *)
Record ld_reply := Reply { r_value : Z; r_map_base : Z; r_context : option C; r_length : option Z }.
Definition reply (v : Z) : ld_reply := Reply v 0 None None.

(** [file_process]: the process [kp_get_file_process] returns; [ee] and [en] the
    memory for an executable and its name. *)
Definition process_ld (fuel : nat) (ev : env) (ee en : obj_env) (s : st) (p0 grow file_process : Z) (r : ld_request) : run (ld_reply * st) :=
  w ← KP_CURRENT s;
  match r with
  | OPEN_EXE name len =>
    '((image, base), s) ← on_exe s w (fun x => '(i, b, x) ← kp_exe_open_by_name fuel (e_sect ev) x w p0 name; Ret ((i, b), x));
    if image =? 0 then Ret (reply KE_INVALID_HANDLE, s) else
    c ← kp_exe_copy_private (xs s) image len;
    match c with
    | None => Ret (Reply KE_INVALID_HANDLE base None None, s)
    | Some c =>
      '(h, m, s) ← handle_create s (exe_type (xs s)) image grow;
      Ret (Reply h base (Some c) None, set_xs s (set_exe_type (xs s) m))
    end
  | MAP_EXE_FILE fp size =>
    '(ks, sz, s) ← map_file ev s w fp size KM_PROT_READ;
    if ks =? 0 then Ret (reply 0, s) else
    sec ← lift (mem (sects (xs s)) !! ks);
    Ret (Reply (start (node sec)) 0 None sz, s)
  | UNMAP_EXE_FILE address =>
    if address =? 0 then Ret (reply 0, s) else
    '(ok, s) ← unmap_file ev s w address;
    Ret (reply (if (ok : bool) then 1 else 0), s)
  | ENJECT_EXE name len ctx fp size =>
    if to_int kp_exe_get_context_size <? to_int len then Ret (reply 0, s) else
    '(ks, _, s) ← map_file ev s file_process fp size KM_PROT_READ;
    if ks =? 0 then Ret (reply 0, s) else
    '(p, x) ← kp_exe_create_from_file ee en (xs s) name ks ctx 0;
    Ret (reply (if p =? 0 then 0 else 1), set_xs s x)
  | OTHER_LD => Ret (reply 0, s)
  end.

(** ** Threads *)

Definition thread_create (ev : env) (s : st) (entry wrapper para grow : Z) (run_ : bool) : run (Z * st) :=
  w ← KP_CURRENT s;
  '(t, s) ← kt_create first_time_entry kernel_thread_fate_entry ev s w (Ctx 0 0 0 wrapper entry 0 para (if run_ then KT_CREATE_RUN else 0)) [];
  if t =? 0 then Ret (KE_INVALID_HANDLE, s) else
  '(h, m, s) ← handle_create s (thread_type s) t grow;
  Ret (h, set_thread_type s m).

Definition thread_teb (s : st) : run Z := d ← lift (descs s !! kt_current s); Ret (teb d).

(** ** Memory *)

(** The handle, and the base and size written into the request. *)
Definition memory_virtual_alloc (ev : env) (s : st) (named : bool) (base sz prot grow : Z) : run (Z * option (Z * Z) * st) :=
  if named then Ret (KE_INVALID_HANDLE, None, s) else
  w ← KP_CURRENT s;
  '(ks, s) ← on_space s w (fun k => ks_create (e_sect ev) k KS_TYPE_PRIVATE base sz prot);
  if ks =? 0 then Ret (KE_INVALID_HANDLE, None, s) else
  '(h, m, s) ← handle_create s (pool (sects (xs s))) ks grow;
  let s := set_xs s (set_sects (xs s) (set_pool (sects (xs s)) m)) in
  if h =? KE_INVALID_HANDLE then Ret (KE_INVALID_HANDLE, None, s) else
  sec ← lift (mem (sects (xs s)) !! ks);
  Ret (h, Some (start (node sec), size (node sec)), s).

End Srv.

(** ** Waiting for objects

    [SYSREQ_THREAD_SYNC_WAIT_OBJS] of [thread_sync_ops]; [garbage] has what the
    array of objects contains before it is written, [wait] the result of
    [kt_wait_objects] ([Sync]). *)
Section Wait.
Context {T : Type} `{IndexTable T}.

Fixpoint translate_loop (on : Handle.ko_process T) (m : cl_object_type) (hs : list Z) : run (list Z * bool * Handle.ko_process T * cl_object_type) :=
  match hs with
  | [] => Ret ([], true, on, m)
  | h :: hs =>
    '(o, on, m) ← ke_handle_translate on m h;
    if o =? 0 then Ret ([0], false, on, m) else
    '(os, ok, on, m) ← translate_loop on m hs;
    Ret (o :: os, ok, on, m)
  end.

Fixpoint unwind_translate (m : cl_object_type) (os : list Z) : run cl_object_type :=
  match os with
  | [] => Ret m
  | o :: os => m ← (if o =? 0 then Ret m else lift (ke_handle_put m o)); unwind_translate m os
  end.

Definition KE_WAIT_ERROR : Z := -3.

(** [hs]: the handles of the request, [count] of them. *)
Definition wait_objs (on : Handle.ko_process T) (m : cl_object_type) (hs garbage : list Z) (wait : list Z -> Z)
  : run (Z * Handle.ko_process T * cl_object_type) :=
  if Y_SYNC_MAX_OBJS_COUNT <? Z.of_nat (length hs) then Ret (KE_WAIT_ERROR, on, m) else
  '(os, ok, on, m) ← translate_loop on m hs;
  let objs := os ++ drop (length os) garbage in
  let ret := if (ok : bool) then wait os else KE_WAIT_ERROR in
  m ← unwind_translate m (take (length hs) objs);
  Ret (ret, on, m).
End Wait.
End SrvOps.
Import SrvOps.

(** ** Memory for a process *)

Section SrvProofs.
Context {C : Type} {EI : ElfImage C}.
Notation st := (psys cl_object_type C).
Notation env := (penv obj_env).

(** The table of the current process. *)
Record caller (s : st) (w : Z) (p : Process.process) (tb : i2p) : Prop := {
  ca_thread : exists th, threads (mkern (world s)) !! kt_current s = Some th /\ Sched.process th = w;
  ca_proc : procs s !! w = Some p;
  ca_table : hands p = Handle.Proc (Some tb) false;
  ca_wf : i2p_wf tb;
  ca_room : total_index tb + 1024 < 2147483648
}.

Lemma KP_CURRENT_eq s w p tb : caller s w p tb -> KP_CURRENT s = Ret w.
Proof. intros [(th & Ht & <-) _ _ _ _]. unfold KP_CURRENT. by rewrite Ht. Qed.

(** A new handle of the caller, or none. *)
Lemma handle_create_spec s w p tb m kobject grow o : caller s w p tb -> objects m !! TO_CL_OBJECT kobject = Some o ->
  exists h tb' m', handle_create s m kobject grow = Ret (h, m', set_procs s (<[w := Process (vm p) (Handle.Proc (Some tb') false)]> (procs s))) /\ i2p_wf tb' /\
    ((h = KE_INVALID_HANDLE /\ tb' = tb /\ m' = m /\ grow = 0 /\ forall j, 0 <= j < total_index tb -> is_Some (I2p.entry tb j)) \/
     (h <> KE_INVALID_HANDLE /\ I2p.entry tb h = None /\ (forall j, I2p.entry tb' j = if j =? h then Some kobject else I2p.entry tb j) /\ cl_object_inc_ref m kobject = Some m')).
Proof.
  intros Hc Ho. unfold handle_create. rewrite (KP_CURRENT_eq s w p tb Hc). destruct Hc as [_ Hp Ht Hwf Hr]. cbn [mbind run_bind]. rewrite Hp. cbn [lift mbind run_bind]. rewrite Ht.
  unfold ke_handle_create. cbn [get_handle_table handle_lock mbind run_bind handle_table].
  destruct (@tbl_alloc_law i2p i2p_table tb kobject grow Hwf Hr) as (h & tb' & -> & Hwf' & Hh). cbn [lift mbind run_bind]. destruct Hh as [(-> & -> & Hgrow & Hfull)|(Hh & Hno & He)].
  - exists KE_INVALID_HANDLE, tb, m. split; [done|]. split; [done|]. by left.
  - rewrite (proj2 (Z.eqb_neq h _)) by lia. assert (exists m', cl_object_inc_ref m kobject = Some m') as [m' Hm'].
    { unfold cl_object_inc_ref, add_ref. rewrite Ho. by eexists. }
    rewrite Hm'. cbn [lift mbind run_bind]. exists h, tb', m'. split; [done|]. split; [done|]. right. split; [unfold KE_INVALID_HANDLE, COMMON_I2P_ALLOC_ERROR in *; lia|]. by split.
Qed.

Definition private_section (a z prot : Z) : ko_section := Section_ (Node a z) KS_TYPE_PRIVATE prot 0 0 0 0 [].

(** C34: [memory_virtual_alloc] of a user process, with memory for a section and a
    free range for a size that is positive and does not wrap around, gives the process
    a new private section, at the address it asks for or at a free one, apart from
    its other sections and inside the range of a user process, changes no other
    section and no other process, and returns a new handle for it with its base and
    size.  It returns [KE_INVALID_HANDLE], and the section stays, only if every index of
    the handle table is taken and there is no memory for more. *)
Theorem memory_virtual_alloc_correct n (ev : env) (s : st) w p tb base sz prot grow :
  caller s w p tb -> cpl (vm p) = KP_USER -> st_wf (e_sect ev) (set_proc (sects (xs s)) (vm p)) -> pool_stock (S n) (e_sect ev) (pool (sects (xs s))) ->
  0 < ALIGN sz PAGE_SIZE -> no_wrap (rd_node (mem (sects (xs s)))) (vm_list (vm p)) 0x400000 0x7FC00000 base (ALIGN sz PAGE_SIZE) ->
  (exists a, (base <> 0 -> a = base) /\ fits (rd_node (mem (sects (xs s)))) (vm_list (vm p)) 0x400000 0x7FC00000 a (ALIGN sz PAGE_SIZE)) ->
  exists h out s' ks a q tb', memory_virtual_alloc ev s false base sz prot grow = Ret (h, out, s') /\
    fits (rd_node (mem (sects (xs s)))) (vm_list (vm p)) 0x400000 0x7FC00000 a (ALIGN sz PAGE_SIZE) /\ (base <> 0 -> a = base) /\
    mem (sects (xs s)) !! ks = None /\ mem (sects (xs s')) = <[ks := private_section a (ALIGN sz PAGE_SIZE) prot]> (mem (sects (xs s))) /\
    procs s' = <[w := Process q (Handle.Proc (Some tb') false)]> (procs s) /\ vm_list q ≡ₚ ks :: vm_list (vm p) /\
    st_wf (e_sect ev) (set_proc (sects (xs s')) q) /\
    ((h <> KE_INVALID_HANDLE /\ out = Some (a, ALIGN sz PAGE_SIZE) /\ I2p.entry tb h = None /\ forall j, I2p.entry tb' j = if j =? h then Some ks else I2p.entry tb j) \/
     (h = KE_INVALID_HANDLE /\ out = None /\ tb' = tb /\ grow = 0 /\ forall j, 0 <= j < total_index tb -> is_Some (I2p.entry tb j))).
Proof.
  intros Hc Hcpl Hwf Hst Hdz Hnw Hfit. pose proof (ca_proc _ _ _ _ Hc) as Hp. unfold memory_virtual_alloc. rewrite (KP_CURRENT_eq s w p tb Hc). cbn [mbind run_bind].
  unfold on_space, on_exe. rewrite Hp. cbn [lift mbind run_bind sects set_sects].
  destruct (ks_create_stock n (e_sect ev) (set_proc (sects (xs s)) (vm p)) KS_TYPE_PRIVATE base sz prot 0x400000 0x7FC00000 base (ALIGN sz PAGE_SIZE))
    as (ks & k' & a & E1 & Hks & Hwf' & _ & Hcpl' & Hnone & Hl & Hf & Ha & Hm); try done; [cbn [set_proc proc]; by rewrite Hcpl|].
  destruct (ks_create_pool _ _ _ _ _ _ _ _ E1 Hks) as (pm & Ep & Epool). rewrite E1. cbn [mbind run_bind]. rewrite (proj2 (Z.eqb_neq ks 0) Hks).
  cbn [set_proc mem pool proc cpl vm_list] in *. set (s1 := set_procs _ _). change (pool (sects (xs s1))) with (pool k').
  assert (caller s1 w (Process (proc k') (hands p)) tb) as Hc1.
  { destruct Hc as [H1 H2 H3 H4 H5]. constructor; try done. unfold s1. cbn. apply lookup_insert_eq. }
  assert (exists o, objects (pool k') !! TO_CL_OBJECT ks = Some o) as [o Ho].
  { assert (is_Some (pool_ref (pool k') ks)) as [r Hr]; [apply (sw_live _ _ Hwf'); rewrite Hm, lookup_insert_eq; by eexists|]. cbn in Hr. unfold cl_object_get_ref_counter in Hr.
    destruct (objects (pool k') !! TO_CL_OBJECT ks) as [o|]; [by exists o|done]. }
  destruct (handle_create_spec s1 w _ tb (pool k') ks grow o Hc1 Ho) as (h & tb' & m' & -> & Hwt & Hh). cbn [mbind run_bind].
  assert (forall m2, (m2 = pool k' \/ cl_object_inc_ref (pool k') ks = Some m2) -> st_wf (e_sect ev) (set_proc (set_pool k' m2) (proc k'))) as Hwf2.
  { intros m2 [->|Hi]; [destruct Hwf'; by constructor|]. destruct Hwf' as [W1 W2 W3 W4]. destruct (pool_inc_law (e_sect ev) (pool k') ks (ref o) W1) as (m3 & E3 & Hok & Href); [cbn; unfold cl_object_get_ref_counter; by rewrite Ho|].
    cbn in E3. rewrite Hi in E3. injection E3 as <-. constructor; try done. cbn [set_proc set_pool mem pool]. intros q. rewrite W2, Href. destruct (Z.eqb_spec q ks) as [->|]; [|done].
    split; intros _; [by eexists|]. cbn. unfold cl_object_get_ref_counter. rewrite Ho. by eexists. }
  assert (mem k' !! ks = Some (private_section a (ALIGN sz PAGE_SIZE) prot)) as Hsec by (by rewrite Hm, lookup_insert_eq).
  destruct Hh as [(-> & -> & -> & -> & Hfull)|(Hh & Hno & He & Hi)].
  - rewrite Z.eqb_refl. do 3 eexists. exists ks, a, (proc k'), tb. split; [done|]. split; [done|]. split; [done|]. split; [done|]. split; [done|].
    split; [unfold s1; cbn; by rewrite insert_insert_eq|]. split; [done|]. split; [apply (Hwf2 (pool k')); by left|]. right. do 4 (split; [done|]). exact Hfull.
  - rewrite (proj2 (Z.eqb_neq h _) Hh). match goal with |- context [lift (?m !! ks)] => change (m !! ks) with (mem k' !! ks) end. rewrite Hsec. cbn [lift mbind run_bind].
    do 3 eexists. exists ks, a, (proc k'), tb'. split; [done|]. split; [done|]. split; [done|]. split; [done|]. split; [done|].
    split; [unfold s1; cbn; by rewrite insert_insert_eq|]. split; [done|]. split; [apply (Hwf2 m'); by right|]. left. by split_and!.
Qed.

(** ** Errors *)

(** [process_create] returns a handle of the caller, not of the new process. *)
Theorem process_create_own_handle fte ktf fuel (ev : env) (s s1 : st) p0 grow cmdline ke x kp w p tb o h s' :
  kp_exe_search_by_name (xs s) p0 ld_name = Ret (ke, x) -> kp_run_user fte ktf fuel ev (set_xs s x) ke cmdline = Ret (kp, s1) ->
  caller s1 w p tb -> objects (process_type (xs s1)) !! TO_CL_OBJECT w = Some o -> ke <> 0 -> kp <> 0 ->
  process_create fte ktf fuel ev s p0 grow cmdline = Ret (h, s') -> h <> KE_INVALID_HANDLE ->
  exists q tb', procs s' !! w = Some q /\ handle_table (hands q) = Some tb' /\ I2p.entry tb' h = Some w.
Proof.
  intros Es Er Hc Ho Hke Hkp E Hh. revert E. unfold process_create. rewrite Es. cbn [mbind run_bind]. rewrite (proj2 (Z.eqb_neq ke 0) Hke), Er. cbn [mbind run_bind].
  rewrite (proj2 (Z.eqb_neq kp 0) Hkp), (KP_CURRENT_eq s1 w p tb Hc). cbn [mbind run_bind].
  destruct (handle_create_spec s1 w p tb (process_type (xs s1)) w grow o Hc Ho) as (h' & tb' & m' & -> & _ & Hr). cbn [mbind run_bind].
  destruct (Z.eqb_spec h' KE_INVALID_HANDLE) as [->|Hh']; [intros [= <- _]; done|]. destruct Hr as [(-> & _)|(_ & _ & He & _)]; [done|].
  destruct (kp_exe_put _ ke) as [y| |]; cbn [mbind run_bind]; [|done|done]. intros [= <- <-].
  exists (Process (vm p) (Handle.Proc (Some tb') false)), tb'. cbn. rewrite lookup_insert_eq, He, Z.eqb_refl. done.
Qed.

(** A handle that is not valid makes [thread_sync_ops] give back references of
    objects it never got: the entries behind it are not initialised. *)
Theorem wait_objs_unwinds_garbage (tb : i2p) m h0 h1 g0 g1 wait : i2p_wf tb -> 0 <= h0 -> I2p.entry tb h0 = None -> g1 <> 0 ->
  objects m !! TO_CL_OBJECT g1 = None -> wait_objs (Handle.Proc (Some tb) false) m [h0; h1] [g0; g1] wait = Fault.
Proof.
  intros Hwf Hh He Hg Ho. unfold wait_objs. cbn [length translate_loop]. unfold ke_handle_translate. cbn [get_handle_table handle_lock mbind run_bind with_table handle_table lift].
  rewrite (@tbl_find_law i2p i2p_table tb h0 Hwf Hh). change (tbl_entry tb h0) with (I2p.entry tb h0). rewrite He. cbn [default from_option lift mbind run_bind Z.eqb length drop app take unwind_translate].
  change (Y_SYNC_MAX_OBJS_COUNT <? Z.of_nat 2) with false. cbn iota. rewrite (proj2 (Z.eqb_neq g1 0) Hg). unfold ke_handle_put, cl_object_dec_ref, add_ref. by rewrite Ho.
Qed.

(** A system call with a class or a number outside of the tables. *)
Theorem system_call_out_of_range v id : 0 <= id -> (KE_SRV_MAX * 2 ^ 24 <= id -> arch_system_call v id = Fault) /\ (KERNEL_ENTRIES <= id \/ kernel_entry !! id = None -> kernel_srv id = Fault).
Proof.
  intros Hid. split.
  - intros Hc. unfold arch_system_call, KE_SRV_GET_CLASZ. rewrite (proj2 (Z.leb_le _ _)); [done|]. rewrite Z.shiftr_div_pow2 by lia. apply Z.div_le_lower_bound; lia.
  - unfold kernel_srv. destruct (Z.leb_spec KERNEL_ENTRIES id); [done|]. intros [?|Hn]; [lia|]. by rewrite Hn.
Qed.
End SrvProofs.

(** ** Examples *)

#[local] Existing Instance image_elf.

Definition srv_proc : Process.process := Process (Vm.Proc KP_USER []) (Handle.Proc (Some sample_i2p) false).
Definition srv_sys : psys cl_object_type image :=
  PSys (xs ex_sys) {[77 := srv_proc]} (sample_type_ref 1) (World (Kernel (set_cur (init_a_cpu 0) 10) {[10 := Thread 77 0 0 0 0]}) ∅ ∅ ∅) ∅ ∅.

Lemma srv_caller : caller srv_sys 77 srv_proc sample_i2p.
Proof.
  constructor; [|reflexivity|done|apply sample_i2p_wf|by vm_compute]. by eexists.
Qed.

Lemma memory_virtual_alloc_witness : exists h s' ks a q tb', memory_virtual_alloc ex_penv srv_sys false 0 0x1234 3 0 = Ret (h, Some (a, 0x2000), s') /\
    fits (rd_node (mem (sects (xs srv_sys)))) [] 0x400000 0x7FC00000 a 0x2000 /\
    mem (sects (xs srv_sys)) !! ks = None /\ mem (sects (xs s')) = <[ks := private_section a 0x2000 3]> (mem (sects (xs srv_sys))) /\
    procs s' = <[77 := Process q (Handle.Proc (Some tb') false)]> (procs srv_sys) /\ vm_list q ≡ₚ [ks] /\
    h <> KE_INVALID_HANDLE /\ I2p.entry sample_i2p h = None /\ I2p.entry tb' h = Some ks.
Proof.
  destruct ex_file_ok as (Hwf & Hst & _).
  destruct (memory_virtual_alloc_correct 0 ex_penv srv_sys 77 srv_proc sample_i2p 0 0x1234 3 0) as (h & out & s' & ks & a & q & tb' & E & Hf & _ & Hn & Hm & Hp & Hl & _ & Hh).
  - exact srv_caller.
  - reflexivity.
  - by apply st_wf_proc.
  - refine (pool_stock_le _ _ _ _ _ Hst). cbn. lia.
  - reflexivity.
  - split; [done|]. intros p s z Hp. destruct (not_elem_of_nil p Hp).
  - exists 0x400000. split; [done|]. split; [lia|]. split; [by vm_compute|]. intros p s z Hp. destruct (not_elem_of_nil p Hp).
  - change (ALIGN 0x1234 PAGE_SIZE) with 0x2000 in *.
    destruct Hh as [(Hh & -> & Hno & He)|(_ & _ & _ & _ & Hfull)].
    + exists h, s', ks, a, q, tb'. split; [exact E|]. split; [exact Hf|]. split; [exact Hn|]. split; [exact Hm|]. split; [exact Hp|]. split; [exact Hl|].
      split; [exact Hh|]. split; [exact Hno|]. rewrite He, Z.eqb_refl. reflexivity.
    + exfalso. destruct (Hfull 100) as [e He]; [split; [lia|vm_compute; reflexivity]|]. vm_compute in He. discriminate He.
Defined.

(** The request in full: the first free range and a new handle. *)
Example virtual_alloc_run : match memory_virtual_alloc ex_penv srv_sys false 0 0x1234 3 0 with Ret (h, out, _) => Some (h =? KE_INVALID_HANDLE, out) | _ => None end
  = Some (false, Some (0x400000, 0x2000)).
Proof. vm_compute. reflexivity. Qed.
