(* ===== verification/FileReq.v ===== *)
(** * File requests by handle

    The requests of [source/subsystem/fs/main.c] that open, close, read, write and
    map a file by its handle, and their table; they join [Handle], [FsTree],
    [FsCache] and [Srv].  A handle counts its users in the [cl_object] in front of
    the object, but a file is a block of the heap ([fss_file_new]) whose [cl_object]
    is inside of it: the counter that [handle.c] changes is a word of the header of
    the heap's node, and so the operations of [handle.c] are here once more, with
    that word.  User buffers are not checked by the code ([check_user_buffer]
    returns true); [fss_close] is empty.  The files of [FsTree] are those of
    [FsCache]: [refresh] takes their tables and descriptions over. *)

From stdpp Require Import gmap.
From S2P Require Import Prelude BlkBuf I2p Object Handle Sched Vm KoSection MemAlloc Valloc CString Exe Process FsCache FsTree Srv.
Import I2pOps HeapOps VallocOps ObjectOps CacheOps TreeOps ProcessOps SrvOps.
Local Open Scope c_scope.

Definition OFFSET_REF : Z := 8.                    (* of [ref] in [struct cl_object] *)
Definition OFFSET_ATTRIBUTE : Z := 20.             (* of [attribute] in [node_t] *)
Definition _SYS_REQ_FILE_MAX : Z := 11.
Definition SYSREQ_FILE_OPS_MAP : Z := 1.
Definition SYSREQ_FILE_OPS_UNMAP : Z := 2.
Definition EINVAL : Z := 22.
Definition ENOSYS : Z := 38.

(** The services of [interfaces]. *)
Inductive file_service := Fnull | Fopen | Fclose | Fread | Fwrite | Freaddir | Fnotify | Fmap.

(** The handles of the caller, the tree with the heap and the block cache. *)
Record fsys (data A D : Type) := FSys {
  on : Handle.ko_process i2p;
  tr : tree linear_memory_block D;
  fc : fstate data A
}.
Arguments FSys {data A D} _ _ _.
Arguments on {data A D} _.
Arguments tr {data A D} _.
Arguments fc {data A D} _.

Module FileReqOps.

(** ** Handles of files *)

(** [d] is added to the word at [p], which is the attribute of a node. *)
Fixpoint add_attribute (ns : list node_t) (p d : Z) : option (list node_t) :=
  match ns with
  | [] => None
  | n :: ns =>
    if addr n + OFFSET_ATTRIBUTE =? p then Some (Nod (addr n) (p_magic n) (attribute n +w d) (nsize n) (n_magic n) :: ns)
    else ns ← add_attribute ns p d; Some (n :: ns)
  end.

Definition add_file_ref (b : linear_memory_block) (object d : Z) : option linear_memory_block :=
  ns ← add_attribute (nodes b) (TO_CL_OBJECT object + OFFSET_REF) d;
  Some (Block (base b) (bused b) (bsize b) ns (free_table b)).

Definition file_handle_create (on : Handle.ko_process i2p) (b : linear_memory_block) (kobject grow : Z) : run (Z * Handle.ko_process i2p * linear_memory_block) :=
  '(tb, on) ← get_handle_table on;
  match tb with
  | None => Ret (KE_INVALID_HANDLE, on, b)
  | Some t =>
    '(h, t) ← lift (tbl_alloc t kobject grow);
    let on := set_table on t in
    if h =? COMMON_I2P_ALLOC_ERROR then Ret (KE_INVALID_HANDLE, put_handle_table on, b)
    else b ← lift (add_file_ref b kobject 1); Ret (h, put_handle_table on, b)
  end.

Definition file_handle_translate (on : Handle.ko_process i2p) (b : linear_memory_block) (handle : Z) : run (Z * Handle.ko_process i2p * linear_memory_block) :=
  '(_, on) ← get_handle_table on;
  t ← with_table on;
  kobject ← lift (tbl_find t handle);
  b ← (if kobject =? 0 then Ret b else lift (add_file_ref b kobject 1));
  Ret (kobject, put_handle_table on, b).

Definition file_handle_put (b : linear_memory_block) (kobject : Z) : option linear_memory_block := add_file_ref b kobject (-1).

Section Requests.
Context {data A : Type} `{AlignedHeap A MLTT_PAGE_SIZE MLTT_PAGE_SIZE} {D N : Type} `{VD : VfsDriver D N} (raw : Z -> node_t).
Context (fRead : Z -> Z -> data -> Z * data * Z).
Notation st := (fsys data A D).
Notation open := (@fss_open _ (kernel_heap raw) D N VD).

(** The files of the tree as the cache sees them: a new file has no table. *)
Definition refresh (t : tree linear_memory_block D) (c : fstate data A) : fstate data A :=
  FState (cache c) (dbds c) (tables c) (bufs c) (FsCache.heap c)
    (map_imap (fun f x => match type x with FSS_FILE_TYPE_NORMAL => Some (default 0 (mltt c !! f)) | FSS_FILE_TYPE_DIR => None end) (files t))
    (FsTree.private <$> files t).

Definition set_handles (s : st) (p : Handle.ko_process i2p) (b : linear_memory_block) : st := FSys p (set_heap (tr s) b) (fc s).

(** ** Requests *)

(** The handle and [file_size]. *)
Definition req_open (fuel : nat) (s : st) (name : list Z) (grow : Z) : run (Z * option Z * st) :=
  '(filp, t) ← open fuel (tr s) 0 name;
  let s := FSys (on s) t (refresh t (fc s)) in
  if filp =? 0 then Ret (KE_INVALID_HANDLE, None, s) else
  '(h, p, b) ← file_handle_create (on s) (FsTree.heap (tr s)) filp grow;
  let s := set_handles s p b in
  if h =? KE_INVALID_HANDLE then Ret (KE_INVALID_HANDLE, None, s) else Ret (h, Some fss_get_size, s).

Definition req_close (s : st) (h : Z) : run st :=
  '(filp, p, b) ← file_handle_translate (on s) (FsTree.heap (tr s)) h;
  b ← (if filp =? 0 then Ret b else lift (file_handle_put b filp));
  '(_, p) ← ke_handle_delete p h;
  Ret (set_handles s p b).

(** [req_read] and [req_write]: the result, [current_size] and the buffer; the
    position has 64 bits. *)
Definition req_io (write : bool) (s : st) (h pos size : Z) (buf : data) : run (Z * Z * data * st) :=
  let block := wrap (pos / FSS_CACHE_DB_SIZE) in
  if negb (size =? FSS_CACHE_DB_SIZE) then Ret (-1, fss_get_size, buf, s) else
  '(file, p, b) ← file_handle_translate (on s) (FsTree.heap (tr s)) h;
  let s := set_handles s p b in
  if file =? 0 then Ret (-1, fss_get_size, buf, s) else
  '(ret, buf, c) ← lift (fss_block_io fRead (fc s) file block buf write);
  b ← lift (file_handle_put (FsTree.heap (tr s)) file);
  Ret (ret, fss_get_size, buf, FSys (on s) (set_heap (tr s) b) c).

Definition req_read : st -> Z -> Z -> Z -> data -> run (Z * Z * data * st) := req_io false.
Definition req_write : st -> Z -> Z -> Z -> data -> run (Z * Z * data * st) := req_io true.
End Requests.

(** [req_map]: the error, the base and size of a mapping. *)
Definition req_map {C} `{ElfImage C} (ev : penv obj_env) (s : psys cl_object_type C) (b : linear_memory_block) (h ops prot : Z)
  : run (Z * option (Z * Z) * psys cl_object_type C * linear_memory_block) :=
  w ← KP_CURRENT s;
  p ← lift (procs s !! w);
  '(file, on, b) ← file_handle_translate (hands p) b h;
  let s := set_procs s (<[w := Process (vm p) on]> (procs s)) in
  if file =? 0 then Ret (- EINVAL, None, s, b) else
  '(r, out, s) ← (
    if ops =? SYSREQ_FILE_OPS_MAP then
      '(base, s) ← ke_map_file ev s file fss_get_size prot;
      Ret (if base =? 0 then (- ENOMEM, None, s) else (0, Some (base, fss_get_size), s))
    else if ops =? SYSREQ_FILE_OPS_UNMAP then Ret (- ENOSYS, None, s)
    else Ret (- EINVAL, None, s));
  b ← lift (file_handle_put b file);
  Ret (r, out, s, b).

(** ** The table of [fss_main] *)

Definition interfaces : list file_service := [Fopen; Fread; Fwrite; Fclose; Fnull; Fnull; Fnull; Fnull; Freaddir; Fnotify; Fmap].
Definition file_srv (req_id : Z) : run file_service := lift (word_at interfaces req_id).
Definition ke_srv_null_sysxcal : Z := -1.

End FileReqOps.
Import FileReqOps.

(** ** The counter of a file *)

Definition bump (n : node_t) (d : Z) : node_t := Nod (addr n) (p_magic n) (attribute n +w d) (nsize n) (n_magic n).

(** The counter in front of a file is the attribute of the node it is in. *)
Lemma add_file_ref_eq b f d l1 n l2 : split_at (nodes b) (f - 32) = Some (l1, n, l2) ->
  add_file_ref b f d = Some (Block (base b) (bused b) (bsize b) (l1 ++ bump n d :: l2) (free_table b)) /\ split_at (l1 ++ bump n d :: l2) (f - 32) = Some (l1, bump n d, l2).
Proof.
  intros E. unfold add_file_ref. assert (add_attribute (nodes b) (TO_CL_OBJECT f + OFFSET_REF) d = Some (l1 ++ bump n d :: l2) /\ split_at (l1 ++ bump n d :: l2) (f - 32) = Some (l1, bump n d, l2)) as [-> ?]; [|done].
  unfold TO_CL_OBJECT, SIZEOF_OBJECT, OFFSET_REF. revert l1 E. induction (nodes b) as [|x ns IH]; [done|]. intros l1. cbn [split_at add_attribute]. unfold OFFSET_ATTRIBUTE.
  destruct (Z.eqb_spec (addr x) (f - 32)) as [Ex|Ex].
  - intros [= <- <- <-]. rewrite (proj2 (Z.eqb_eq _ _)) by lia. split; [done|]. cbn [app split_at bump addr]. by rewrite (proj2 (Z.eqb_eq _ _)).
  - destruct (split_at ns (f - 32)) as [[[k1 y] k2]|]; [|done]. cbn [mbind option_bind]. intros [= <- -> ->]. destruct (IH k1 eq_refl) as [Ea Es].
    rewrite (proj2 (Z.eqb_neq _ _)), Ea by lia. cbn [mbind option_bind app split_at]. split; [done|]. by rewrite (proj2 (Z.eqb_neq _ _)), Es by lia.
Qed.

Lemma bump_back n : is_word (attribute n) -> bump (bump n 1) (-1) = n.
Proof.
  intros Hn. destruct n as [a p at_ z q]. unfold bump. cbn in *. f_equal. unfold is_word, wrap in *. zlia.
Qed.

Definition counted (b : linear_memory_block) (f : Z) : Prop := exists l1 n l2, split_at (nodes b) (f - 32) = Some (l1, n, l2) /\ is_word (attribute n).

(** A reference that is taken and given back. *)
Lemma add_file_ref_back b f : counted b f -> exists b', add_file_ref b f 1 = Some b' /\ file_handle_put b' f = Some b.
Proof.
  intros (l1 & n & l2 & E & Hn). destruct (add_file_ref_eq b f 1 l1 n l2 E) as [E1 E2]. eexists. split; [done|]. unfold file_handle_put.
  destruct (add_file_ref_eq (Block (base b) (bused b) (bsize b) (l1 ++ bump n 1 :: l2) (free_table b)) f (-1) l1 (bump n 1) l2 E2) as [-> _]. cbn. rewrite bump_back by done.
  rewrite <- (split_at_app _ _ _ _ _ E). by destruct b.
Qed.

(** The block of a well-formed heap. *)
Lemma live_split b f z : heap_wf b -> live (nodes b) f z -> exists l1 n l2, split_at (nodes b) (f - 32) = Some (l1, n, l2) /\ nodes b = l1 ++ n :: l2 /\
  IS_FREE_NODE n = false /\ f = addr n + 32 /\ z = nsize n.
Proof.
  intros Hwf (n & Hn & Hf & -> & ->). destruct (split_at_elem _ _ _ n (hw_tiles _ Hwf) Hn) as (l1 & l2 & E & Es). exists l1, n, l2. replace (addr n + 32 - 32) with (addr n) by lia. done.
Qed.

Lemma bump_free n : IS_FREE_NODE n = false -> IS_FREE_NODE (bump n 1) = true.
Proof.
  unfold IS_FREE_NODE, FREE_NODE. cbn [attribute bump]. intros E%negb_false_iff%Z.eqb_eq. apply negb_true_iff, Z.eqb_neq. unfold wrap.
  change 1 with (Z.ones 1) in E |- * at 2. rewrite Z.land_ones in E |- * by lia. change (2 ^ 1) with 2 in *. zlia.
Qed.

(** ** Requests on an open file *)

Section Correct.
Context {data A : Type} `{AH : AlignedHeap A MLTT_PAGE_SIZE MLTT_PAGE_SIZE} {D : Type}.
Notation st := (fsys data A D).

(** The handle [h] of the caller stands for the file [f]. *)
Record opened (p : Handle.ko_process i2p) (b : linear_memory_block) (h f : Z) : Prop := {
  op_table : exists tb, p = Handle.Proc (Some tb) false /\ i2p_wf tb /\ I2p.entry tb h = Some f;
  op_node : counted b f;
  op_null : 0 <= h /\ f <> 0
}.

Lemma translate_opened p b h f : opened p b h f -> exists b', file_handle_translate p b h = Ret (f, p, b') /\ file_handle_put b' f = Some b.
Proof.
  intros [(tb & -> & Hwf & He) Hc [Hh Hf]]. destruct (add_file_ref_back b f Hc) as (b' & E & Hp). exists b'. split; [|done].
  unfold file_handle_translate. cbn [get_handle_table handle_lock mbind run_bind with_table handle_table lift]. rewrite (@tbl_find_law i2p i2p_table tb h Hwf Hh).
  change (tbl_entry tb h) with (I2p.entry tb h). rewrite He. cbn [default from_option id lift mbind run_bind]. rewrite (proj2 (Z.eqb_neq f 0) Hf), E. done.
Qed.

(** A handle that stands for nothing. *)
Lemma translate_closed tb b h : i2p_wf tb -> 0 <= h -> I2p.entry tb h = None ->
  file_handle_translate (Handle.Proc (Some tb) false) b h = Ret (0, Handle.Proc (Some tb) false, b).
Proof.
  intros Hwf Hh He. unfold file_handle_translate. cbn [get_handle_table handle_lock mbind run_bind with_table handle_table lift]. rewrite (@tbl_find_law i2p i2p_table tb h Hwf Hh).
  change (tbl_entry tb h) with (I2p.entry tb h). by rewrite He.
Qed.

Lemma set_heap_same (t : tree linear_memory_block D) : set_heap t (FsTree.heap t) = t.
Proof. by destruct t. Qed.

(** C35: reading and writing by handle is reading and writing the file, under the
    conditions of the cache: a descriptor and a buffer are free, there is memory for
    two tables, the position is below 2^42, so that the block number is below 2^24, and
    [fRead] of the driver succeeds on the block.  Then a request of one block on a
    handle of the caller returns; a read delivers what the block holds and changes
    no block, a write makes the block hold the caller's buffer; no other block of any
    file changes, and neither do the handles, the tree and the counters.  A request
    of another size or on a handle that stands for nothing returns -1 and changes
    nothing. *)
Theorem req_io_correct (fRead : Z -> Z -> data -> Z * data * Z) disk (s : st) (write : bool) h f pos buf fs fb :
  opened (on s) (FsTree.heap (tr s)) h f -> is_Some (mltt (fc s) !! f) -> cache_ok (fc s) fs fb -> sizes_ok (fc s) -> 0 <= pos < 2 ^ 42 ->
  has_room (FsCache.heap (fc s)) -> fs <> [] -> fb <> [] ->
  (exists pr, FsCache.private (fc s) !! f = Some pr /\ pr <> 0 /\ reads fRead disk pr (pos / FSS_CACHE_DB_SIZE)) ->
  let req := if write then req_write fRead else req_read fRead in let b := pos / FSS_CACHE_DB_SIZE in
  (exists n v c fs' fb', req s h pos FSS_CACHE_DB_SIZE buf = Ret (n, fss_get_size, (if write then buf else v), FSys (on s) (tr s) c) /\ 0 <= n /\
    view disk (fc s) f b = Some v /\ cache_ok c fs' fb' /\ sizes_ok c /\ view disk c f b = Some (if write then buf else v) /\
    (forall g k, 0 <= k < 2 ^ 24 -> (g, k) <> (f, b) -> view disk c g k = view disk (fc s) g k)) /\
  (forall z, z <> FSS_CACHE_DB_SIZE -> req s h pos z buf = Ret (-1, fss_get_size, buf, s)) /\
  (forall tb k, on s = Handle.Proc (Some tb) false -> i2p_wf tb -> 0 <= k -> I2p.entry tb k = None -> req s k pos FSS_CACHE_DB_SIZE buf = Ret (-1, fss_get_size, buf, s)).
Proof.
  intros Ho Hm Hok Hsz Hpos Hroom Hfs Hfb Hr. cbn zeta. replace (if write then req_write fRead else req_read fRead) with (req_io (D := D) fRead write) by (by destruct write).
  unfold req_io. rewrite Z.eqb_refl. cbn [negb]. split; [|split].
  - destruct (translate_opened _ _ _ _ Ho) as (b' & -> & Hput). cbn [mbind run_bind]. rewrite (proj2 (Z.eqb_neq f 0)) by apply (op_null _ _ _ _ Ho).
    assert (0 <= pos / FSS_CACHE_DB_SIZE < 2 ^ 24) as Hb by (change FSS_CACHE_DB_SIZE with 262144; zlia). rewrite wrap_small by (unfold is_word; lia).
    destruct (block_io_spec fRead disk (fc s) fs fb f (pos / FSS_CACHE_DB_SIZE) buf write Hok Hsz Hm Hb Hroom Hfs Hfb Hr) as (n & v & c & fs' & fb' & E & Hn & Hv & Hok' & Hsz' & Hv' & Hoth).
    cbn [set_handles fc tr]. rewrite E. cbn [lift mbind run_bind]. cbn [set_heap FsTree.heap tr on]. rewrite Hput. cbn [lift mbind run_bind].
    exists n, v, c, fs', fb'. split; [|done]. do 3 f_equal. by destruct (tr s).
  - intros z Hz. by rewrite (proj2 (Z.eqb_neq _ _) Hz).
  - intros tb k Et Hwf Hk He. rewrite Et, translate_closed by done. cbn. unfold set_handles. rewrite set_heap_same. destruct s as [p t c]. cbn in Et. by subst.
Qed.

(** Closing deletes the handle; the reference it had is not given back. *)
Lemma req_close_spec (s : st) h f : opened (on s) (FsTree.heap (tr s)) h f -> exists tb tb',
  on s = Handle.Proc (Some tb) false /\ req_close s h = Ret (FSys (Handle.Proc (Some tb') false) (tr s) (fc s)) /\ i2p_wf tb' /\
  forall j, I2p.entry tb' j = if j =? h then None else I2p.entry tb j.
Proof.
  intros Ho. destruct (translate_opened _ _ _ _ Ho) as (b' & E & Hput). destruct Ho as [(tb & Et & Hwf & He) _ [Hh Hf]]. unfold req_close. rewrite E. cbn [mbind run_bind].
  rewrite (proj2 (Z.eqb_neq f 0) Hf), Hput, Et. cbn [lift mbind run_bind]. unfold ke_handle_delete. cbn [get_handle_table handle_lock mbind run_bind with_table handle_table lift].
  destruct (@tbl_dealloc_law i2p i2p_table tb h Hwf Hh) as (r & tb' & -> & Hwf' & _ & He'). cbn [lift mbind run_bind]. exists tb, tb'. split; [done|]. split; [|by split].
  unfold set_handles. by rewrite set_heap_same.
Qed.

(** ** Opening *)

Context {N : Type} {VD : VfsDriver D N} (raw : Z -> node_t).

(** A new handle of a block of the heap, or none. *)
Lemma file_handle_create_spec tb b f z grow : i2p_wf tb -> total_index tb + 1024 < 2147483648 -> heap_wf b -> live (nodes b) f z -> exists h tb' b',
  file_handle_create (Handle.Proc (Some tb) false) b f grow = Ret (h, Handle.Proc (Some tb') false, b') /\ i2p_wf tb' /\
  ((h = KE_INVALID_HANDLE /\ tb' = tb /\ b' = b /\ grow = 0 /\ forall j, 0 <= j < total_index tb -> is_Some (I2p.entry tb j)) \/
   (h <> KE_INVALID_HANDLE /\ I2p.entry tb h = None /\ (forall j, I2p.entry tb' j = if j =? h then Some f else I2p.entry tb j) /\
    add_file_ref b f 1 = Some b' /\ opened (Handle.Proc (Some tb') false) b' h f)).
Proof.
  intros Hwf Hr Hh Hl. unfold file_handle_create. cbn [get_handle_table handle_lock mbind run_bind handle_table].
  destruct (@tbl_alloc_law i2p i2p_table tb f grow Hwf Hr) as (h & tb' & -> & Hwf' & Hc). cbn [lift mbind run_bind]. destruct Hc as [(-> & -> & Hgrow & Hfull)|(Hb & Hno & He)].
  - rewrite Z.eqb_refl. exists KE_INVALID_HANDLE, tb, b. split; [done|]. split; [done|]. by left.
  - rewrite (proj2 (Z.eqb_neq h _)) by lia. destruct (live_split b f z Hh Hl) as (l1 & n & l2 & Es & En & _ & Ef & _). destruct (add_file_ref_eq b f 1 l1 n l2 Es) as [E1 E2]. rewrite E1. cbn [lift mbind run_bind].
    exists h, tb'. eexists. split; [done|]. split; [done|]. right. split; [unfold KE_INVALID_HANDLE, COMMON_I2P_ALLOC_ERROR in *; lia|]. split; [done|]. split; [done|]. split; [done|]. split.
    + exists tb'. split; [done|]. split; [done|]. change (I2p.entry tb' h) with (tbl_entry tb' h). by rewrite He, Z.eqb_refl.
    + exists l1, (bump n 1), l2. split; [done|]. cbn. apply wrap_is_word.
    + split; [lia|]. pose proof (hw_tiles _ Hh) as Ht. rewrite En in Ht. apply tiles_mid in Ht as (Ht & _). apply tiles_le in Ht. pose proof (hw_base _ Hh). lia.
Qed.

(** The cache has the descriptions of the files, and tables of normal files only. *)
Record tied (t : tree linear_memory_block D) (c : fstate data A) : Prop := {
  ti_private : FsCache.private c = FsTree.private <$> files t;
  ti_table : forall f, top c f <> 0 -> exists x, files t !! f = Some x /\ type x = FSS_FILE_TYPE_NORMAL
}.

(** A normal file stays one while the tree grows. *)
Lemma grows_normal s s' g g' f x : tree_ok (KH := kernel_heap raw) s g -> tree_ok (KH := kernel_heap raw) s' g' -> g ⊆ g' -> files s !! f = Some x -> type x = FSS_FILE_TYPE_NORMAL ->
  exists x', files s' !! f = Some x' /\ type x' = FSS_FILE_TYPE_NORMAL.
Proof.
  intros Hk Hk' Hg Hx Ht. destruct (tk_node _ _ Hk _ _ Hx) as (n & Hn & Hd & _). destruct (tk_dom _ _ Hk' f n) as [x' Hx']; [by eapply lookup_weaken|].
  destruct (tk_node _ _ Hk' _ _ Hx') as (n' & Hn' & Hd' & _). assert (n' = n) as -> by (eapply lookup_weaken in Hn; [|exact Hg]; congruence).
  exists x'. split; [done|]. unfold dir_ok in *. destruct (content n); [by destruct Hd; congruence|by destruct Hd'].
Qed.

Lemma refresh_top (t : tree linear_memory_block D) (c : fstate data A) f : (top c f <> 0 -> exists x, files t !! f = Some x /\ type x = FSS_FILE_TYPE_NORMAL) -> top (refresh t c) f = top c f.
Proof.
  intros Hn. unfold top, refresh. cbn [mltt]. rewrite map_lookup_imap. destruct (files t !! f) as [x|] eqn:E; cbn [mbind option_bind].
  - destruct (type x) eqn:Et; [done|]. cbn. destruct (Z.eq_dec (default 0 (mltt c !! f)) 0); [done|]. destruct Hn as (y & Hy & Hty); [done|]. congruence.
  - cbn. destruct (Z.eq_dec (default 0 (mltt c !! f)) 0); [done|]. destruct Hn as (y & Hy & Hty); [done|]. congruence.
Qed.

(** What the cache holds does not change with the files it could hold. *)
Lemma refresh_ok (t : tree linear_memory_block D) (c : fstate data A) fs fb :
  (forall f, top c f <> 0 -> exists x, files t !! f = Some x /\ type x = FSS_FILE_TYPE_NORMAL) -> cache_ok c fs fb -> sizes_ok c ->
  cache_ok (refresh t c) fs fb /\ sizes_ok (refresh t c) /\ tied t (refresh t c) /\ forall f pos, find (refresh t c) f pos = find c f pos.
Proof.
  intros Hn Hok Hsz. assert (forall f, top (refresh t c) f = top c f) as Ht by (intros f; by apply refresh_top, Hn).
  assert (forall f pos, find (refresh t c) f pos = find c f pos) as Hf by (intros f pos; unfold find, sub; by rewrite Ht).
  split; [|split; [|split; [|done]]].
  - destruct Hok as [[H1 H2 H3 H4 H5] [P1 P2 P3 P4 P5 P6 P7 P8 P9 P10 P11] Hl]. assert (forall r, table_of (refresh t c) r = table_of c r) as Hr.
    { intros [f|f i]; cbn; unfold sub; by rewrite Ht. }
    constructor; [constructor; try done| |].
    + intros r. rewrite Hr. apply H3.
    + intros r r'. rewrite !Hr. apply H4.
    + intros f i. unfold sub. rewrite Ht. apply H5.
    + by constructor.
    + intros f pos. rewrite Hf. apply Hl.
  - intros f pos x. rewrite Hf. apply Hsz.
  - split; [done|]. intros f. rewrite Ht. apply Hn.
Qed.

Lemma fss_open_private fuel s cur path f t : @fss_open _ (kernel_heap raw) D N VD fuel s cur path = Ret (f, t) -> f <> 0 -> exists x, files t !! f = Some x /\ FsTree.private x <> 0.
Proof.
  unfold fss_open. destruct (fss_loop_file fuel None s cur path) as [[r s1]| |]; cbn [mbind run_bind]; [|done|done]. destruct (Z.eqb_spec r 0) as [->|Hr]; [by intros [= <- _]|].
  destruct (files s1 !! r) as [x|] eqn:Ex; cbn [lift mbind run_bind]; [|done]. destruct (Z.eqb_spec (FsTree.private x) 0) as [Hp|Hp]; cbn [negb]; [|intros [= <- <-]; by exists x].
  destruct (vols s1 !! volumn x); cbn [lift mbind run_bind]; [|done]. destruct (files s1 !! parent x); cbn [lift mbind run_bind]; [|done].
  destruct (fOpen _ _ _ _) as [pr d]. destruct (Z.eqb_spec pr 0) as [->|Hpr]; [by intros [= <- _]|]. intros [= <- <-] _. exists (set_private x pr). cbn. by rewrite lookup_insert_eq.
Qed.

End Correct.

(** ** Errors *)

(** The handle of a file marks its block as free: the heap is not well-formed any
    more, the file is not a block in use, and freeing the block behind it takes a
    node out of a chain it is not in.  Closing the file changes nothing of it
    ([req_close_spec]). *)
Theorem file_handle_frees_file p b f z grow h p' b' : heap_wf b -> live (nodes b) f z -> file_handle_create p b f grow = Ret (h, p', b') -> h <> KE_INVALID_HANDLE ->
  ~ heap_wf b' /\ ~ live (nodes b') f z /\ forall y, 0 < y -> live (nodes b) (f + z + 32) y -> memfree b' (f + z + 32) = None.
Proof.
  intros Hwf Hl E Hh. destruct (live_split b f z Hwf Hl) as (l1 & n & l2 & Es & En & Hnf & Ef & Ez). assert (add_file_ref b f 1 = Some b') as Ea.
  { revert E. unfold file_handle_create. destruct (get_handle_table p) as [[[t|] q]| |]; cbn [mbind run_bind]; [|intros [= <- _ _]; done|done|done].
    destruct (tbl_alloc t f grow) as [[r t']|]; cbn [lift mbind run_bind]; [|done]. destruct (Z.eqb_spec r COMMON_I2P_ALLOC_ERROR); [intros [= <- _ _]; done|].
    destruct (add_file_ref b f 1) as [b1|]; cbn [lift mbind run_bind]; [|done]. by intros [= _ _ <-]. }
  rewrite (proj1 (add_file_ref_eq b f 1 l1 n l2 Es)) in Ea. injection Ea as <-. pose proof (bump_free n Hnf) as Hfree. cbn [nodes].
  pose proof (hw_tiles _ Hwf) as Ht. rewrite En in Ht. pose proof (hw_word _ Hwf) as Hw. pose proof (hw_base _ Hwf) as Hb0. destruct (proj1 (tiles_mid _ _ _ _ _) Ht) as (Ht1 & Hz & Ht2).
  set (k := calc_hash_index (nsize n + 32)). assert (0 <= k < 10) as Hk.
  { apply hash_range. apply tiles_le in Ht1, Ht2. unfold is_word in *. lia. }
  destruct (chains_at _ _ k (hw_chains _ Hwf) Hk) as (l & Hl1 & Hnd & Hl2). assert (addr n ∉ l) as Hnl.
  { rewrite Hl2, En, free_at_mid. intros [[? _]|Hfa]; [congruence|]. destruct (free_at_apart _ _ _ _ _ _ _ Ht Hfa); lia. }
  split; [|split].
  - intros Hwf'. destruct (chains_at _ _ k (hw_chains _ Hwf') Hk) as (l' & Hl1' & _ & Hl2'). cbn [free_table nodes] in *. rewrite Hl1 in Hl1'. injection Hl1' as <-.
    apply Hnl, Hl2', free_at_mid. by left.
  - rewrite live_app, live_cons. intros [(x & Hx & _ & Ea & _)|[[? _]|(x & Hx & _ & Ea & _)]]; [|congruence|].
    + pose proof (tiles_elem _ _ _ _ Ht1 Hx). lia.
    + pose proof (tiles_elem _ _ _ _ Ht2 Hx). lia.
  - intros y Hy (m & Hm & Hmf & Ea & Ey). rewrite En in Hm. apply elem_of_app in Hm as [Hm|[->|Hm]%elem_of_cons]; [pose proof (tiles_elem _ _ _ _ Ht1 Hm); lia|lia|].
    destruct l2 as [|q l2]; [by apply not_elem_of_nil in Hm|]. destruct Ht2 as (Hq & Hqz & Ht2). assert (m = q) as ->.
    { apply elem_of_cons in Hm as [->|Hm]; [done|]. pose proof (tiles_elem _ _ _ _ Ht2 Hm). lia. }
    pose proof (tiles_le _ _ _ Ht1). pose proof (tiles_le _ _ _ Ht2).
    unfold memfree, _free, dealloc. cbn [base bsize nodes free_table]. unfold SIZEOF_BLOCK, SIZEOF_NODE. unfold is_word in Hw. rewrite (proj2 (Z.eqb_neq _ 0)) by lia.
    rewrite (wrap_small (base b + 64)), wrap_small by (unfold is_word; lia). rewrite (proj2 (Z.ltb_lt _ _)), (proj2 (Z.ltb_lt _ _)) by lia. cbn [andb].
    rewrite wrap_small by (unfold is_word; lia). replace (f + z + 32 - 32) with (addr q) by lia.
    pose proof (split_at_mid (base b + 64) (l1 ++ [bump n 1]) q l2 (base b + 64 + bsize b)) as Hs. rewrite <- app_assoc in Hs. cbn [app] in Hs. rewrite Hs.
    2: { apply tiles_mid. cbn. split; [done|]. split; [done|]. by split. }
    cbn [mbind option_bind]. destruct (hw_magic _ Hwf q) as [-> ->]; [rewrite En; apply elem_of_app; right; apply list_elem_of_further, list_elem_of_here|done|]. rewrite Hmf, !Z.eqb_refl. cbn [orb negb].
    unfold merge_pre. rewrite last_snoc, Hfree. unfold merge, HASH_DELETE, SIZEOF_NODE. cbn [bump nsize addr]. rewrite (wrap_small (nsize n + 32)) by (unfold is_word; lia). fold k. rewrite Hl1. cbn [mbind option_bind].
    by rewrite bool_decide_false.
Qed.

(** ** Examples *)

#[local] Instance ex_tables : AlignedHeap (aheap linear_memory_block) MLTT_PAGE_SIZE MLTT_PAGE_SIZE := FsCache.sample_tables.
#[local] Instance ex_driver : VfsDriver unit sample_node := FsTree.sample_driver.

Lemma fs_sample_top f : top fs_sample f = 0.
Proof.
  unfold top. assert (mltt fs_sample = {[5 := 0]}) as -> by (vm_compute; reflexivity). destruct (decide (f = 5)) as [->|]; [done|]. by rewrite lookup_singleton_ne.
Qed.

Lemma fs_sample_refresh (t : tree linear_memory_block unit) : let c := refresh t fs_sample in
  cache_ok c (dbd_list 32 0x2000000) (push_dbs 32 0x1000000) /\ sizes_ok c /\ tied t c /\ forall f pos, find c f pos = 0.
Proof.
  destruct fs_sample_ok as [Hok Hfind]. destruct (refresh_ok t fs_sample (dbd_list 32 0x2000000) (push_dbs 32 0x1000000)) as (H1 & H2 & H3 & H4).
  - intros f Hf. by rewrite fs_sample_top in Hf.
  - exact Hok.
  - intros f pos x. rewrite Hfind, (po_zero _ _ _ (co_pool _ _ _ Hok)). discriminate.
  - split; [exact H1|]. split; [exact H2|]. split; [exact H3|]. intros f pos. rewrite H4. apply Hfind.
Qed.

Definition req_sys : fsys Z (aheap linear_memory_block) unit := FSys (Handle.Proc (Some sample_i2p) false) mounted (refresh mounted fs_sample).


(** The file at the first block of the heap, open under a handle. *)
Definition io_tree : tree linear_memory_block unit :=
  Tree {[0x100060 := File 0 1 0 77 0 [] FSS_FILE_TYPE_NORMAL TFile]} ∅ [] []
    (Block 0x100000 1096 1048512 [Nod 0x100040 P_MAGIC 0 1096 N_MAGIC; Nod 0x1004a8 0 1 1047352 0] (<[9%nat := [0x1004a8]]> (replicate 10 []))) tt.
Definition io_handle : Z := match i2p_alloc sample_i2p 0x100060 0 with Some (h, _) => h | None => 0 end.
Definition io_table : i2p := match i2p_alloc sample_i2p 0x100060 0 with Some (_, t) => t | None => sample_i2p end.
Definition io_sys : fsys Z (aheap linear_memory_block) unit := FSys (Handle.Proc (Some io_table) false) io_tree (refresh io_tree fs_sample).

Lemma io_opened : opened (on io_sys) (FsTree.heap (tr io_sys)) io_handle 0x100060.
Proof.
  destruct (@tbl_alloc_law i2p i2p_table sample_i2p 0x100060 0 sample_i2p_wf) as (r & t & E & Hwf & Hc); [by vm_compute|]. cbn [tbl_alloc i2p_table] in E.
  assert (r <> COMMON_I2P_ALLOC_ERROR) as Hr. { intros ->. vm_compute in E. discriminate E. }
  destruct Hc as [(? & _)|(Hb & _ & He)]; [done|]. split.
  - exists io_table. split; [done|]. unfold io_table, io_handle. rewrite E. split; [exact Hwf|]. etransitivity; [apply (He r)|]. by rewrite Z.eqb_refl.
  - eexists _, _, _. split; [vm_compute; reflexivity|]. unfold is_word. cbn. lia.
  - unfold io_handle. rewrite E. split; [apply Hb|done].
Qed.

Lemma req_io_witness : exists n c, req_write sample_read io_sys io_handle 0x40000 FSS_CACHE_DB_SIZE 9 = Ret (n, fss_get_size, 9, FSys (on io_sys) io_tree c) /\
  view (fun pr b => pr + b) c 0x100060 1 = Some 9.
Proof.
  destruct (fs_sample_refresh io_tree) as (Hok & Hsz & _).
  destruct (req_io_correct sample_read (fun pr b => pr + b) io_sys true io_handle 0x100060 0x40000 9 (dbd_list 32 0x2000000) (push_dbs 32 0x1000000)) as [(n & v & c & fs' & fb' & E & _ & _ & _ & _ & Hv & _) _].
  - exact io_opened.
  - exists 0. reflexivity.
  - exact Hok.
  - exact Hsz.
  - lia.
  - eexists _, _, _, _. split; [vm_compute; reflexivity|]. split; [discriminate|]. split; [vm_compute; reflexivity|]. discriminate.
  - discriminate.
  - discriminate.
  - exists 77. split; [reflexivity|]. split; [lia|]. intros old. exists 0, 262144. split; [reflexivity|]. lia.
  - exists n, c. split; [exact E|exact Hv].
Defined.

(** [/bin/sh] is opened and its first block read; its description is 3. *)
Example open_and_read : match req_open sample_raw 3 req_sys sample_path 0 with
  | Ret (h, _, s) => match req_read sample_read s h 0 FSS_CACHE_DB_SIZE 9 with Ret (n, _, buf, _) => Some (n, buf) | _ => None end
  | _ => None
  end = Some (262144, 3).
Proof. vm_compute. reflexivity. Qed.

(** The name of an open file lies behind the file and cannot be freed any more; it
    could before. *)
Definition free_name (s : fsys Z (aheap linear_memory_block) unit) (h : Z) : option (option Z) :=
  tb ← handle_table (on s); f ← tbl_find tb h; x ← files (tr s) !! f; Some (fst <$> memfree (FsTree.heap (tr s)) (name x)).

Example open_and_free : match req_open sample_raw 3 req_sys sample_path 0 with
  | Ret (h, _, s) => option_map (option_map (fun _ => true)) (free_name s h) =
      Some None /\ match tb ← handle_table (on s); tbl_find tb h with
                   | Some f => match add_file_ref (FsTree.heap (tr s)) f (-1) with Some b => option_map (option_map (Z.ltb 0)) (free_name (set_handles s (on s) b) h) | None => None end
                   | None => None
                   end = Some (Some true)
  | _ => False
  end.
Proof. vm_compute. split; reflexivity. Qed.
