(* ===== verification/Lock.v ===== *)
(** * Spin locks and read-write locks

    [source/kernel/lock.c] on [asm/spinlock.h], [asm/rwlock.h] and [lib/rwlock.S] of
    x86, and the critical sections of [source/kernel/cs.c].  The threads that use a
    lock run at the same time: a state is the word of the lock with the place of every
    thread in the code, and one step is one access to the lock.  Tickets have 8 bits
    ([CONFIG_NR_CPUS] is below 256). *)

From stdpp Require Import list relations.
From S2P Require Import Prelude.
Local Open Scope c_scope.

Definition TICKET_SHIFT : Z := 8.
Definition RW_LOCK_BIAS : Z := 0x00100000.

(** Where a thread is: outside, in the loop of [__ticket_spin_lock] with its [inc],
    between the read and the exchange of [__ticket_spin_trylock], or in possession. *)
Inductive spin_pc := Out | Spin (head tail : Z) | Try (old : Z) | Own.

#[global] Instance spin_pc_eq_dec : EqDecision spin_pc.
Proof. solve_decision. Defined.

(** [head_tail] and the threads. *)
Record spin_sys := SSys { head_tail : Z; pcs : list spin_pc }.

(** One access: [xadd], the test and the read of the loop, the two accesses of the
    attempt, the addition of the release. *)
Inductive spin_act := Axadd | Aspin | Aread | Acmpxchg | Aunlock.

(** The same for a read-write lock.  [Rfail] and [Wfail] are about to give back what
    they took and wait, [Rback] and [Wback] are the ends of failed attempts. *)
Inductive rw_pc := ROut | Rfail | Rwait | Rtry | Rback | Reader | Wfail | Wwait | Wtry | Wback | Writer.
Record rw_sys := RSys { rw : Z; rpcs : list rw_pc }.
Inductive rw_act := Aread_lock | Awrite_lock | Aread_trylock | Awrite_trylock | Aread_unlock | Awrite_unlock | Astep.

(** A thread in [ke_critical_enter]: in the loop with [times], or with the lock and
    about to adjust [deal_count]. *)
Inductive cs_pc := Outside | Loop (times : Z) | Got (times : Z) | Inside.
Record cs_sys := CSys { lk : spin_sys; deal_count : Z; cpcs : list cs_pc }.

Module LockOps.

(** ** [__raw_tickets] in [head_tail] *)

Definition head (ht : Z) : Z := ht mod 256.
Definition tail (ht : Z) : Z := ht / 256.
Definition __ARCH_SPIN_LOCK_UNLOCKED : Z := 0.

(** [xadd] with [.tail = 1] on 16 bits. *)
Definition xadd_tail (ht : Z) : Z := (ht + Z.shiftl 1 TICKET_SHIFT) mod 65536.
(** [__add] on the byte of the head. *)
Definition add_head (ht : Z) : Z := (head ht + 1) mod 256 + 256 * tail ht.

Definition set_pc (s : spin_sys) (ht : Z) (t : nat) (p : spin_pc) : spin_sys := SSys ht (<[t := p]> (pcs s)).

(** The step of thread [t]; [None] if the action is not its next one. *)
Definition spin_step (s : spin_sys) (t : nat) (a : spin_act) : option spin_sys :=
  p ← pcs s !! t;
  let ht := head_tail s in
  match a, p with
  | Axadd, Out => Some (set_pc s (xadd_tail ht) t (Spin (head ht) (tail ht)))
  | Aspin, Spin h k => Some (set_pc s ht t (if h =? k then Own else Spin (head ht) k))
  | Aread, Out => Some (set_pc s ht t (if head ht =? tail ht then Try ht else Out))
  | Acmpxchg, Try old => Some (if ht =? old then set_pc s (xadd_tail old) t Own else set_pc s ht t Out)
  | Aunlock, Own => Some (set_pc s (add_head ht) t Out)
  | _, _ => None
  end.

Definition __ticket_spin_is_locked (ht : Z) : bool := negb (tail ht =? head ht).
Definition __ticket_spin_is_contended (ht : Z) : bool := 1 <? (tail ht - head ht) mod 256.

(** ** Read-write locks: additions on 32 bits *)

Definition rset (s : rw_sys) (v : Z) (t : nat) (p : rw_pc) : rw_sys := RSys v (<[t := p]> (rpcs s)).

Definition rw_step (s : rw_sys) (t : nat) (a : rw_act) : option rw_sys :=
  p ← rpcs s !! t;
  let v := rw s in
  let dec := to_int (v - 1) in let inc := to_int (v + 1) in
  let sub := to_int (v - RW_LOCK_BIAS) in let add := to_int (v + RW_LOCK_BIAS) in
  match a, p with
  | Aread_lock, ROut => Some (rset s dec t (if 0 <=? dec then Reader else Rfail))
  | Awrite_lock, ROut => Some (rset s sub t (if sub =? 0 then Writer else Wfail))
  | Aread_trylock, ROut => Some (rset s dec t (if 0 <=? dec then Reader else Rback))
  | Awrite_trylock, ROut => Some (rset s sub t (if sub =? 0 then Writer else Wback))
  | Aread_unlock, Reader => Some (rset s inc t ROut)
  | Awrite_unlock, Writer => Some (rset s add t ROut)
  (* [__read_lock_failed] *)
  | Astep, Rfail => Some (rset s inc t Rwait)
  | Astep, Rwait => Some (rset s v t (if to_int (v - 1) <? 0 then Rwait else Rtry))
  | Astep, Rtry => Some (rset s dec t (if dec <? 0 then Rfail else Reader))
  (* [__write_lock_failed] *)
  | Astep, Wfail => Some (rset s add t Wwait)
  | Astep, Wwait => Some (rset s v t (if v =? RW_LOCK_BIAS then Wtry else Wwait))
  | Astep, Wtry => Some (rset s sub t (if sub =? 0 then Writer else Wfail))
  (* the ends of failed attempts *)
  | Astep, Rback => Some (rset s inc t ROut)
  | Astep, Wback => Some (rset s add t ROut)
  | _, _ => None
  end.

(** ** Critical sections

    One step is one access.  [ke_wait_for_completion] may return at any time; what
    [ke_complete] does is in [Sync]. *)
Definition cs_step (s : cs_sys) (t : nat) : option cs_sys :=
  c ← cpcs s !! t;
  p ← pcs (lk s) !! t;
  let upd l d c := Some (CSys l d (<[t := c]> (cpcs s))) in
  match c, p with
  | Outside, Out => upd (lk s) (deal_count s) (Loop (deal_count s))
  | Loop times, Out =>
    l ← spin_step (lk s) t Aread;
    upd l (deal_count s) (if head (head_tail (lk s)) =? tail (head_tail (lk s)) then Loop times else Loop (if times =? 0 then 0 else times - 1))
  | Loop times, Try old =>
    l ← spin_step (lk s) t Acmpxchg;
    upd l (deal_count s) (if head_tail (lk s) =? old then Got times else Loop (if times =? 0 then 0 else times - 1))
  | Got times, Own => upd (lk s) (wrap (if times =? 0 then deal_count s + 1 else deal_count s - 1)) Inside
  | Inside, Own => l ← spin_step (lk s) t Aunlock; upd l (deal_count s) Outside
  | _, _ => None
  end.

End LockOps.
Import LockOps.

(** ** Tickets *)

Definition sstep (s s' : spin_sys) : Prop := exists t a, spin_step s t a = Some s'.

(** [q]: the threads that have drawn a ticket, in the order they drew it; the first
    one owns the lock or is about to. *)
Record spin_inv (s : spin_sys) (q : list nat) : Prop := {
  si_word : 0 <= head_tail s < 65536;
  si_few : Z.of_nat (length (pcs s)) < 256;
  si_nodup : NoDup q;
  si_tail : tail (head_tail s) = (head (head_tail s) + Z.of_nat (length q)) mod 256;
  si_queue : forall i t, q !! i = Some t -> (i = O /\ pcs s !! t = Some Own) \/
    exists h, pcs s !! t = Some (Spin h ((head (head_tail s) + Z.of_nat i) mod 256)) /\ (h = (head (head_tail s) + Z.of_nat i) mod 256 -> i = O);
  si_rest : forall t p, pcs s !! t = Some p -> t ∉ q -> p = Out \/ exists old, p = Try old /\ head old = tail old
}.

Lemma queue_short s q : spin_inv s q -> Z.of_nat (length q) < 256.
Proof.
  intros Hi. pose proof (si_few _ _ Hi). assert (length q <= length (seq 0 (length (pcs s))))%nat as Hl; [|rewrite length_seq in Hl; lia].
  apply submseteq_length, NoDup_submseteq; [apply Hi|]. intros t [i Ht]%list_elem_of_lookup. apply elem_of_seq. split; [lia|].
  destruct (si_queue _ _ Hi i t Ht) as [[_ E]|(h & E & _)]; apply lookup_lt_Some in E; lia.
Qed.

Lemma out_of_queue s q t : spin_inv s q -> (pcs s !! t = Some Out \/ exists old, pcs s !! t = Some (Try old)) -> t ∉ q.
Proof.
  intros Hi Ht [i Hq]%list_elem_of_lookup. destruct (si_queue _ _ Hi i t Hq) as [[_ E]|(h & E & _)]; rewrite E in Ht; by destruct Ht as [?|(old & ?)].
Qed.

Lemma in_queue s q t h k : spin_inv s q -> (pcs s !! t = Some Own \/ pcs s !! t = Some (Spin h k)) -> exists i, q !! i = Some t.
Proof.
  intros Hi Ht. destruct (decide (t ∈ q)) as [Hq|Hq]; [by apply list_elem_of_lookup in Hq|].
  destruct Ht as [Ht|Ht]; destruct (si_rest _ _ Hi t _ Ht Hq) as [?|(old & ? & _)]; done.
Qed.

Lemma xadd_tail_eq ht : 0 <= ht < 65536 -> head (xadd_tail ht) = head ht /\ tail (xadd_tail ht) = (tail ht + 1) mod 256 /\ 0 <= xadd_tail ht < 65536.
Proof. intros H. unfold xadd_tail, head, tail, TICKET_SHIFT. change (Z.shiftl 1 8) with 256. zlia. Qed.

Lemma add_head_eq ht : 0 <= ht < 65536 -> head (add_head ht) = (head ht + 1) mod 256 /\ tail (add_head ht) = tail ht /\ 0 <= add_head ht < 65536.
Proof. intros H. unfold add_head, head, tail. zlia. Qed.

(** A step of a thread that changes neither the word nor its ticket. *)
Lemma spin_inv_local s q t p : spin_inv s q -> is_Some (pcs s !! t) ->
  (forall i, q !! i = Some t -> (i = O /\ p = Own) \/ exists h, p = Spin h ((head (head_tail s) + Z.of_nat i) mod 256) /\ (h = (head (head_tail s) + Z.of_nat i) mod 256 -> i = O)) ->
  (t ∉ q -> p = Out \/ exists old, p = Try old /\ head old = tail old) -> spin_inv (set_pc s (head_tail s) t p) q.
Proof.
  intros [H1 H2 H3 H4 H5 H6] [p0 Ht] Hq Hr. split; cbn [set_pc head_tail pcs]; try done; [by rewrite length_insert| |].
  - intros i u Hu. destruct (decide (u = t)) as [->|Hne]; [rewrite list_lookup_insert_eq by (by eapply lookup_lt_Some)|rewrite list_lookup_insert_ne by done; by apply H5].
    destruct (Hq i Hu) as [[-> ->]|(h & -> & Hh)]; [by left|right]. by exists h.
  - intros u pu. destruct (decide (u = t)) as [->|Hne]; [rewrite list_lookup_insert_eq by (by eapply lookup_lt_Some); intros [= <-]; exact Hr|].
    rewrite list_lookup_insert_ne by done. apply H6.
Qed.

(** A thread draws the next ticket. *)
Lemma spin_inv_enqueue s q t p : spin_inv s q -> is_Some (pcs s !! t) -> t ∉ q ->
  ((q = [] /\ p = Own) \/ (p = Spin (head (head_tail s)) (tail (head_tail s)) /\ Z.of_nat (length q) < 256)) -> spin_inv (set_pc s (xadd_tail (head_tail s)) t p) (q ++ [t]).
Proof.
  intros Hi [p0 Ht] Hn Hp. pose proof Hi as [H1 H2 H3 H4 H5 H6]. destruct (xadd_tail_eq _ H1) as (Eh & Et & Ew). split; cbn [set_pc head_tail pcs]; rewrite ?Eh; try done.
  - by rewrite length_insert.
  - apply NoDup_app. split; [done|]. split; [|apply NoDup_singleton]. intros u Hu Hs. apply list_elem_of_singleton in Hs as ->. done.
  - rewrite Et, H4, length_app. cbn [length]. zlia.
  - intros i u Hu. apply lookup_app_Some in Hu as [Hu|[Hl Hu]].
    + assert (u <> t) as Hne by (intros ->; apply Hn, list_elem_of_lookup; by exists i). rewrite list_lookup_insert_ne by done. by apply H5.
    + apply list_lookup_singleton_Some in Hu as [Ei ->]. rewrite list_lookup_insert_eq by (by eapply lookup_lt_Some). assert (i = length q) as -> by lia.
      destruct Hp as [[-> ->]|[-> Hlen]]; [by left|right]. eexists. rewrite <- H4. split; [done|]. rewrite H4. unfold head in *. intros E. zlia.
  - intros u pu Hu Hnu. apply not_elem_of_app in Hnu as [Hnu Hne]. rewrite list_lookup_insert_ne in Hu by (intros ->; apply Hne, list_elem_of_singleton; done). by apply (H6 u).
Qed.

(** The owner leaves. *)
Lemma spin_inv_dequeue s q t : spin_inv s (t :: q) -> is_Some (pcs s !! t) -> spin_inv (set_pc s (add_head (head_tail s)) t Out) q.
Proof.
  intros [H1 H2 H3 H4 H5 H6] [p0 Ht]. destruct (add_head_eq _ H1) as (Eh & Et & Ew). apply NoDup_cons in H3 as [Hnq H3]. split; cbn [set_pc head_tail pcs]; rewrite ?Eh, ?Et; try done.
  - by rewrite length_insert.
  - rewrite H4. cbn [length]. zlia.
  - intros i u Hu. assert (u <> t) as Hne by (intros ->; apply Hnq, list_elem_of_lookup; by exists i). rewrite list_lookup_insert_ne by done.
    replace (((head (head_tail s) + 1) mod 256 + Z.of_nat i) mod 256) with ((head (head_tail s) + Z.of_nat (S i)) mod 256) by zlia.
    destruct (H5 (S i) u Hu) as [[? _]|(h & E & Hh)]; [done|]. right. exists h. split; [done|]. intros Eq. by apply Hh in Eq.
  - intros u pu. destruct (decide (u = t)) as [->|Hne]; [rewrite list_lookup_insert_eq by (by eapply lookup_lt_Some); intros [= <-]; by left|].
    rewrite list_lookup_insert_ne by done. intros Hu Hn. apply (H6 u pu Hu). apply not_elem_of_cons. done.
Qed.

(** How a step changes the queue. *)
Definition queue_step (q : list nat) (t : nat) (q' : list nat) : Prop := q' = q \/ q' = q ++ [t] \/ q = t :: q'.

Lemma spin_step_inv s q t a s' : spin_inv s q -> spin_step s t a = Some s' -> exists q', spin_inv s' q' /\ queue_step q t q'.
Proof.
  intros Hi. unfold spin_step. destruct (pcs s !! t) as [p|] eqn:Ep; [|done]. cbn [mbind option_bind]. assert (is_Some (pcs s !! t)) as Hs by (by exists p).
  destruct a, p as [|h k|old|]; try done; intros [= <-].
  - exists (q ++ [t]). assert (t ∉ q) as Hn by (apply (out_of_queue s q t Hi); by left). split; [|by right; left]. apply spin_inv_enqueue; try done. right. split; [done|]. by eapply queue_short.
  - exists q. split; [|by left]. destruct (in_queue s q t h k Hi) as [i Hq]; [by right|]. apply spin_inv_local; try done; [|intros []; apply list_elem_of_lookup; by exists i].
    intros j Hj. assert (j = i) as -> by (eapply NoDup_lookup; [apply Hi|done..]). destruct (si_queue _ _ Hi i t Hq) as [[_ E]|(h' & E & Hh)]; rewrite Ep in E; [done|]. injection E as <- ->.
    destruct (Z.eqb_spec h ((head (head_tail s) + Z.of_nat i) mod 256)) as [Eh|Eh]; [left; split; [by apply Hh|done]|]. right. eexists. split; [done|]. intros E.
    pose proof (queue_short _ _ Hi). apply lookup_lt_Some in Hq. unfold head in *. zlia.
  - exists q. split; [|by left]. assert (t ∉ q) as Hn by (apply (out_of_queue s q t Hi); by left). apply spin_inv_local; try done.
    + intros i Hq. destruct Hn. apply list_elem_of_lookup. by exists i.
    + intros _. destruct (Z.eqb_spec (head (head_tail s)) (tail (head_tail s))); [right; by eexists|by left].
  - assert (t ∉ q) as Hn by (apply (out_of_queue s q t Hi); right; by eexists). destruct (Z.eqb_spec (head_tail s) old) as [<-|Hne].
    + destruct (si_rest _ _ Hi t _ Ep Hn) as [?|(old & [= <-] & Ho)]; [done|]. assert (q = []) as ->.
      { pose proof (queue_short _ _ Hi). pose proof (si_tail _ _ Hi) as Ht. rewrite <- Ho in Ht. destruct q; [done|]. cbn [length] in *. unfold head in *. zlia. }
      exists [t]. split; [|by right; left]. apply (spin_inv_enqueue s [] t); try done. by left.
    + exists q. split; [|by left]. apply spin_inv_local; try done; [|by left]. intros i Hq. destruct Hn. apply list_elem_of_lookup. by exists i.
  - destruct (in_queue s q t 0 0 Hi) as [i Hq]; [by left|]. destruct (si_queue _ _ Hi i t Hq) as [[-> _]|(h & E & _)]; [|by rewrite Ep in E].
    destruct q as [|u q]; [done|]. injection Hq as ->. exists q. split; [by apply spin_inv_dequeue|by right; right].
Qed.

Lemma spin_inv_reach s q s' : spin_inv s q -> rtc sstep s s' -> exists q', spin_inv s' q'.
Proof. intros Hi Hr. revert q Hi. induction Hr as [|s1 s2 s3 (t & a & Ha) _ IH]; intros q Hi; [by exists q|]. destruct (spin_step_inv _ _ _ _ _ Hi Ha) as (q' & Hi' & _). by apply (IH q'). Qed.

Definition spin_start (n : nat) : spin_sys := SSys __ARCH_SPIN_LOCK_UNLOCKED (replicate n Out).

Lemma spin_start_inv n : Z.of_nat n < 256 -> spin_inv (spin_start n) [].
Proof.
  intros Hn. split; cbn; try done; [by rewrite length_replicate|constructor|]. intros t p Hp _. apply lookup_replicate in Hp as [-> _]. by left.
Qed.

(** The first of the queue gets the lock in its next two accesses. *)
Lemma spin_front s q t : spin_inv s (t :: q) -> pcs s !! t <> Some Own -> exists s1, spin_step s t Aspin = Some s1 /\
  (pcs s1 !! t = Some Own \/ exists s2, spin_step s1 t Aspin = Some s2 /\ pcs s2 !! t = Some Own).
Proof.
  intros Hi Hno. destruct (si_queue _ _ Hi 0%nat t eq_refl) as [[_ ?]|(h & E & _)]; [done|]. rewrite Z.add_0_r in E. assert (t < length (pcs s))%nat as Hl by (by eapply lookup_lt_Some).
  replace (head (head_tail s) mod 256) with (head (head_tail s)) in E by (unfold head; zlia).
  unfold spin_step at 1. rewrite E. cbn [mbind option_bind]. eexists. split; [done|]. destruct (h =? head (head_tail s)); cbn [set_pc pcs]; rewrite list_lookup_insert_eq by done; [by left|right].
  unfold spin_step. cbn [set_pc pcs head_tail]. rewrite list_lookup_insert_eq by done. cbn [mbind option_bind]. rewrite Z.eqb_refl. eexists. split; [done|].
  cbn [set_pc pcs]. apply list_lookup_insert_eq. by rewrite length_insert.
Qed.

(** C37: with fewer threads than tickets, whatever they do and in whatever order: at
    most one thread owns a spin lock; the threads get it in the order in which they
    drew their tickets, a step adds its thread at the end, takes the owner off the
    front or leaves the order as it is; the first one owns the lock or does so
    after two more accesses of its own, whatever the others did; and the lock counts
    as locked exactly when somebody has a ticket, as contended when two have. *)
Theorem spin_lock_correct n s : Z.of_nat n < 256 -> rtc sstep (spin_start n) s -> exists q, spin_inv s q /\
  (forall t, pcs s !! t = Some Own -> q !! 0%nat = Some t) /\
  (forall t t', pcs s !! t = Some Own -> pcs s !! t' = Some Own -> t = t') /\
  (forall t a s', spin_step s t a = Some s' -> exists q', spin_inv s' q' /\ queue_step q t q') /\
  (forall t, q !! 0%nat = Some t -> pcs s !! t = Some Own \/ exists s1, spin_step s t Aspin = Some s1 /\
     (pcs s1 !! t = Some Own \/ exists s2, spin_step s1 t Aspin = Some s2 /\ pcs s2 !! t = Some Own)) /\
  __ticket_spin_is_locked (head_tail s) = bool_decide (q <> []) /\ __ticket_spin_is_contended (head_tail s) = bool_decide (2 <= length q)%nat.
Proof.
  intros Hn Hr. destruct (spin_inv_reach _ _ _ (spin_start_inv n Hn) Hr) as [q Hi]. exists q. split; [done|].
  assert (forall t, pcs s !! t = Some Own -> q !! 0%nat = Some t) as Hown.
  { intros t Ht. destruct (in_queue s q t 0 0 Hi) as [i Hq]; [by left|]. destruct (si_queue _ _ Hi i t Hq) as [[-> _]|(h & E & _)]; [done|congruence]. }
  pose proof (queue_short _ _ Hi) as Hq. pose proof (si_tail _ _ Hi) as Ht. split; [done|]. split; [intros t t' H1%Hown H2%Hown; congruence|]. split; [intros t a s'; by apply spin_step_inv|]. split; [|split].
  - intros t H0. destruct q as [|u q]; [done|]. injection H0 as ->. destruct (decide (pcs s !! t = Some Own)) as [|Hno]; [by left|right]. by apply (spin_front s q t Hi).
  - unfold __ticket_spin_is_locked. rewrite Ht. destruct q as [|u q]; [rewrite bool_decide_false by (intros []; done); cbn; unfold head; rewrite (proj2 (Z.eqb_eq _ _)) by zlia; done|].
    rewrite bool_decide_true by done. cbn [length] in *. unfold head. rewrite (proj2 (Z.eqb_neq _ _)) by zlia. done.
  - unfold __ticket_spin_is_contended. rewrite Ht. replace (((head (head_tail s) + Z.of_nat (length q)) mod 256 - head (head_tail s)) mod 256) with (Z.of_nat (length q)) by (unfold head; zlia).
    case_bool_decide; [apply Z.ltb_lt|apply Z.ltb_ge]; lia.
Qed.

(** ** Readers and writers *)

Definition rstep (s s' : rw_sys) : Prop := exists t a, rw_step s t a = Some s'.

(** What a thread has subtracted: readers 1, writers the bias. *)
Definition reads_ (p : rw_pc) : Z := match p with Rfail | Rback | Reader => 1 | _ => 0 end.
Definition writes_ (p : rw_pc) : Z := match p with Wfail | Wback | Writer => 1 | _ => 0 end.
Fixpoint total (f : rw_pc -> Z) (l : list rw_pc) : Z := match l with [] => 0 | p :: l => f p + total f l end.

Lemma total_insert f l t p p' : l !! t = Some p -> total f (<[t := p']> l) = total f l - f p + f p'.
Proof.
  revert t. induction l as [|x l IH]; intros [|t]; cbn [lookup list_lookup total]; try done; [intros [= ->]; change (<[0%nat := p']> (p :: l)) with (p' :: l); cbn [total]; lia|].
  intros Ht. change (<[S t := p']> (x :: l)) with (x :: <[t := p']> l). cbn [total]. rewrite (IH t Ht). lia.
Qed.

Lemma totals_bound l : 0 <= total reads_ l /\ 0 <= total writes_ l /\ total reads_ l + total writes_ l <= Z.of_nat (length l).
Proof. induction l as [|[] l IH]; cbn; lia. Qed.

Lemma total_elem f l t p : (forall x, 0 <= f x) -> l !! t = Some p -> f p <= total f l.
Proof.
  intros Hf. assert (forall k, 0 <= total f k) as Hn by (induction k as [|x k IH]; cbn; [lia|pose proof (Hf x); lia]).
  revert t. induction l as [|x l IH]; intros [|t]; cbn; try done; [intros [= ->]; pose proof (Hn l); lia|]. intros Ht. pose proof (IH t Ht). pose proof (Hf x). lia.
Qed.

Lemma reads_nonneg p : 0 <= reads_ p. Proof. by destruct p. Qed.
Lemma writes_nonneg p : 0 <= writes_ p. Proof. by destruct p. Qed.

Definition holds (l : list rw_pc) (t : nat) : Prop := l !! t = Some Reader \/ l !! t = Some Writer.

Record rw_inv (s : rw_sys) : Prop := {
  ri_few : Z.of_nat (length (rpcs s)) <= 2048;
  ri_word : rw s = RW_LOCK_BIAS - total reads_ (rpcs s) - RW_LOCK_BIAS * total writes_ (rpcs s);
  ri_excl : forall t u, rpcs s !! t = Some Writer -> holds (rpcs s) u -> u = t
}.

(** A step that does not take the lock, and one that does. *)
Lemma rw_inv_set s t p p' v : rw_inv s -> rpcs s !! t = Some p -> v = rw s + (reads_ p - reads_ p') + RW_LOCK_BIAS * (writes_ p - writes_ p') ->
  (p' = Reader -> total writes_ (<[t := p']> (rpcs s)) = 0) -> (p' = Writer -> forall u, ~ holds (rpcs s) u) -> rw_inv (rset s v t p').
Proof.
  intros [H1 H2 H3] Hp Hv HR HW. split; cbn [rset rw rpcs]; [by rewrite length_insert|rewrite !(total_insert _ _ _ _ _ Hp); unfold RW_LOCK_BIAS in *; lia|].
  assert (t < length (rpcs s))%nat as Hl by (by eapply lookup_lt_Some). unfold holds in *. intros a b Ha Hb. destruct (decide (a = t)) as [->|Ha'].
  - rewrite list_lookup_insert_eq in Ha by done. injection Ha as ->. destruct (decide (b = t)) as [|Hb']; [done|]. rewrite list_lookup_insert_ne in Hb by done. by destruct (HW eq_refl b).
  - assert (total writes_ (<[t := p']> (rpcs s)) <> 0) as Hw. { pose proof (total_elem writes_ _ a Writer writes_nonneg Ha) as E. cbn in E. lia. }
    rewrite list_lookup_insert_ne in Ha by done. destruct (decide (b = t)) as [->|Hb'].
    + rewrite list_lookup_insert_eq in Hb by done. destruct Hb as [[= ->]|[= ->]]; [by destruct (Hw (HR eq_refl))|]. destruct (HW eq_refl a). by right.
    + rewrite list_lookup_insert_ne in Hb by done. by apply (H3 a b).
Qed.

(** The word stays in 32 bits. *)
Lemma rw_exact s t p p' : rw_inv s -> rpcs s !! t = Some p ->
  let v := rw s + (reads_ p - reads_ p') + RW_LOCK_BIAS * (writes_ p - writes_ p') in to_int v = v /\ v = RW_LOCK_BIAS - total reads_ (<[t := p']> (rpcs s)) - RW_LOCK_BIAS * total writes_ (<[t := p']> (rpcs s)).
Proof.
  intros [H1 H2 _] Hp. cbn zeta. pose proof (totals_bound (<[t := p']> (rpcs s))) as Hb. rewrite length_insert in Hb.
  assert (rw s + (reads_ p - reads_ p') + RW_LOCK_BIAS * (writes_ p - writes_ p') = RW_LOCK_BIAS - total reads_ (<[t := p']> (rpcs s)) - RW_LOCK_BIAS * total writes_ (<[t := p']> (rpcs s))) as E.
  { rewrite !(total_insert _ _ _ _ _ Hp). unfold RW_LOCK_BIAS in *. lia. }
  split; [|done]. rewrite E. unfold RW_LOCK_BIAS in *. unfold to_int, wrap. case_if; zlia.
Qed.

(** A change of the word by what the places of the thread differ in; a reader sees no
    negative result and a writer zero. *)
Lemma rw_move s t p p' x : rw_inv s -> rpcs s !! t = Some p -> x = rw s + (reads_ p - reads_ p') + RW_LOCK_BIAS * (writes_ p - writes_ p') ->
  (p' = Reader -> 0 <= to_int x) -> (p' = Writer -> to_int x = 0 /\ writes_ p = 0 /\ reads_ p = 0) -> rw_inv (rset s (to_int x) t p').
Proof.
  intros Hi Hp -> HR HW. destruct (rw_exact s t p p' Hi Hp) as [Ex Ev]. rewrite Ex in *. pose proof (totals_bound (<[t := p']> (rpcs s))) as (Hb1 & Hb2 & _).
  assert (<[t := p']> (rpcs s) !! t = Some p') as Ht by (apply list_lookup_insert_eq; by eapply lookup_lt_Some). apply (rw_inv_set s t p p'); try done.
  - intros ->. specialize (HR eq_refl). rewrite Ev in HR. pose proof (total_elem reads_ _ t Reader reads_nonneg Ht) as Hr. cbn in Hr. unfold RW_LOCK_BIAS in *. lia.
  - intros -> u Hu. destruct (HW eq_refl) as (H0 & Hwp & Hrp). rewrite Ev in H0. pose proof (total_elem writes_ _ t Writer writes_nonneg Ht) as Hw. cbn in Hw.
    assert (total reads_ (rpcs s) = 0 /\ total writes_ (rpcs s) = 0) as [Zr Zw].
    { pose proof (total_insert reads_ _ _ _ Writer Hp) as E1. pose proof (total_insert writes_ _ _ _ Writer Hp) as E2. cbn in E1, E2. unfold RW_LOCK_BIAS in *. lia. }
    destruct Hu as [Hu|Hu]; [pose proof (total_elem reads_ _ u _ reads_nonneg Hu) as E|pose proof (total_elem writes_ _ u _ writes_nonneg Hu) as E]; cbn in E; lia.
Qed.

Lemma rw_step_inv s t a s' : rw_inv s -> rw_step s t a = Some s' -> rw_inv s'.
Proof.
  intros Hi. unfold rw_step. destruct (rpcs s !! t) as [p|] eqn:Ep; [|done]. cbn [mbind option_bind].
  assert (rw s = to_int (rw s)) as Ew by (destruct (rw_exact s t p p Hi Ep) as [E _]; rewrite !Z.sub_diag, Z.mul_0_r, !Z.add_0_r in E; done).
  destruct a, p; try done; intros [= <-];
    repeat match goal with |- context [if ?b then _ else _] => let E := fresh "E" in destruct b eqn:E; rewrite ?Z.leb_le, ?Z.leb_gt, ?Z.ltb_lt, ?Z.ltb_ge, ?Z.eqb_eq, ?Z.eqb_neq in E end;
    first [by (eapply rw_move; [done|exact Ep|cbn; unfold RW_LOCK_BIAS; lia| |]) | rewrite Ew; by (eapply rw_move; [done|exact Ep|cbn; unfold RW_LOCK_BIAS; lia| |])].
Qed.

Definition rw_start (n : nat) : rw_sys := RSys RW_LOCK_BIAS (replicate n ROut).

Lemma rw_start_inv n : Z.of_nat n <= 2048 -> rw_inv (rw_start n).
Proof.
  intros Hn. assert (forall f, f ROut = 0 -> total f (replicate n ROut) = 0) as Ht by (intros f Hf; clear Hn; induction n as [|n IH]; cbn; lia).
  split; cbn; [by rewrite length_replicate|rewrite !Ht by done; done|]. intros t u E. apply lookup_replicate in E as [E _]. done.
Qed.

Lemma rw_inv_reach s s' : rw_inv s -> rtc rstep s s' -> rw_inv s'.
Proof. intros Hi Hr. induction Hr as [|s1 s2 s3 (t & a & Ha) _ IH]; [done|]. apply IH. by eapply rw_step_inv. Qed.

(** C38: with up to 2048 threads, whatever they do and in whatever order: a thread that
    owns a read-write lock for writing is the only one that owns it; the word is the
    bias less what the threads have subtracted; a thread that asks for reading while
    no writer has subtracted the bias gets the lock with its first access, and
    so does one that asks for writing while nobody has subtracted anything. *)
Theorem rw_lock_correct n s : Z.of_nat n <= 2048 -> rtc rstep (rw_start n) s ->
  (forall t u, rpcs s !! t = Some Writer -> holds (rpcs s) u -> u = t) /\
  rw s = RW_LOCK_BIAS - total reads_ (rpcs s) - RW_LOCK_BIAS * total writes_ (rpcs s) /\
  (forall t, rpcs s !! t = Some ROut -> total writes_ (rpcs s) = 0 -> exists s', rw_step s t Aread_lock = Some s' /\ rpcs s' !! t = Some Reader) /\
  (forall t, rpcs s !! t = Some ROut -> rw s = RW_LOCK_BIAS -> exists s', rw_step s t Awrite_lock = Some s' /\ rpcs s' !! t = Some Writer).
Proof.
  intros Hn Hr. pose proof (rw_inv_reach _ _ (rw_start_inv n Hn) Hr) as Hi. split; [apply Hi|]. split; [apply Hi|]. split; intros t Ht H0; (assert (t < length (rpcs s))%nat as Hl by (by eapply lookup_lt_Some)).
  - unfold rw_step. rewrite Ht. cbn [mbind option_bind]. eexists. split; [done|]. cbn [rset rpcs]. rewrite list_lookup_insert_eq by done. f_equal.
    destruct (rw_exact s t ROut Reader Hi Ht) as [E Ev]. pose proof (total_insert reads_ _ _ _ Reader Ht) as E1. pose proof (total_insert writes_ _ _ _ Reader Ht) as E2. cbn [reads_ writes_] in *.
    replace (rw s - 1) with (rw s + (0 - 1) + RW_LOCK_BIAS * (0 - 0)) by lia. rewrite E, Ev, E2, H0. rewrite (proj2 (Z.leb_le _ _)); [done|].
    pose proof (totals_bound (<[t := Reader]> (rpcs s))) as Hb. rewrite length_insert in Hb. pose proof (ri_few _ Hi). unfold RW_LOCK_BIAS in *. lia.
  - unfold rw_step. rewrite Ht, H0. cbn [mbind option_bind]. eexists. split; [done|]. cbn [rset rpcs]. by rewrite list_lookup_insert_eq.
Qed.

(** ** Critical sections *)

Definition cstep (s s' : cs_sys) : Prop := exists t, cs_step s t = Some s'.
Definition cs_start (n : nat) : cs_sys := CSys (spin_start n) 0 (replicate n Outside).

(** The lock of a critical section is used as a spin lock, and who is inside owns it. *)
Lemma cs_step_lock s t s' : cs_step s t = Some s' -> (forall u, cpcs s !! u = Some Inside -> pcs (lk s) !! u = Some Own) ->
  rtc sstep (lk s) (lk s') /\ forall u, cpcs s' !! u = Some Inside -> pcs (lk s') !! u = Some Own.
Proof.
  unfold cs_step. intros E Hin. destruct (cpcs s !! t) as [c|] eqn:Ec; [|done]. cbn [mbind option_bind] in E. destruct (pcs (lk s) !! t) as [p|] eqn:Ep; [|done]. cbn [mbind option_bind] in E.
  assert (forall l d c', (c' = Inside -> pcs l !! t = Some Own) -> (forall u, u <> t -> pcs l !! u = pcs (lk s) !! u) -> Some (CSys l d (<[t := c']> (cpcs s))) = Some s' -> rtc sstep (lk s) l ->
    rtc sstep (lk s) (lk s') /\ forall u, cpcs s' !! u = Some Inside -> pcs (lk s') !! u = Some Own) as Hset.
  { intros l d c' Hc Hl [= <-] Hr. split; [done|]. cbn. intros u. destruct (decide (u = t)) as [->|Hne].
    - rewrite list_lookup_insert_eq by (by eapply lookup_lt_Some). intros [= ->]. by apply Hc.
    - rewrite list_lookup_insert_ne, Hl by done. apply Hin. }
  assert (forall a l, spin_step (lk s) t a = Some l -> rtc sstep (lk s) l /\ forall u, u <> t -> pcs l !! u = pcs (lk s) !! u) as Hstep.
  { intros a l El. split; [apply rtc_once; by exists t, a|]. intros u Hne. unfold spin_step in El. rewrite Ep in El. cbn [mbind option_bind] in El.
    destruct a, p; try done; injection El as <-; repeat case_match; cbn; by rewrite list_lookup_insert_ne. }
  destruct c, p; try done.
  - by eapply Hset; [| |exact E|].
  - destruct (spin_step (lk s) t Aread) as [l|] eqn:El; [|done]. cbn [mbind option_bind] in E. destruct (Hstep _ _ El). eapply Hset; [|done|exact E|done]; by repeat case_match.
  - destruct (spin_step (lk s) t Acmpxchg) as [l|] eqn:El; [|done]. cbn [mbind option_bind] in E. destruct (Hstep _ _ El). eapply Hset; [|done|exact E|done]; by repeat case_match.
  - by eapply Hset; [| |exact E|].
  - destruct (spin_step (lk s) t Aunlock) as [l|] eqn:El; [|done]. cbn [mbind option_bind] in E. destruct (Hstep _ _ El). by eapply Hset; [| |exact E|].
Qed.

(** At most one thread is in a critical section. *)
Theorem critical_exclusive n s t u : Z.of_nat n < 256 -> rtc cstep (cs_start n) s -> cpcs s !! t = Some Inside -> cpcs s !! u = Some Inside -> t = u.
Proof.
  intros Hn Hr. assert (rtc sstep (spin_start n) (lk s) /\ forall u, cpcs s !! u = Some Inside -> pcs (lk s) !! u = Some Own) as [Hl Hin].
  { revert s Hr. refine (rtc_ind_r (fun s => rtc sstep (spin_start n) (lk s) /\ forall u, cpcs s !! u = Some Inside -> pcs (lk s) !! u = Some Own) (cs_start n) _ _).
    - split; [done|]. intros v E. apply lookup_replicate in E as [E _]. done.
    - intros s1 s2 _ [v E] [H1 H2]. destruct (cs_step_lock _ _ _ E H2) as [H3 H4]. split; [by etransitivity|done]. }
  destruct (spin_inv_reach _ _ _ (spin_start_inv n Hn) Hl) as [q Hi]. intros Ht%Hin Hu%Hin. destruct (in_queue _ q t 0 0 Hi) as [i Hi1]; [by left|]. destruct (in_queue _ q u 0 0 Hi) as [j Hj1]; [by left|].
  destruct (si_queue _ _ Hi i t Hi1) as [[-> _]|(h & E & _)]; [|congruence]. destruct (si_queue _ _ Hi j u Hj1) as [[-> _]|(h & E & _)]; [|congruence]. congruence.
Qed.

Definition run_cs (s : cs_sys) (l : list nat) : option cs_sys := foldl (fun o t => s ← o; cs_step s t) (Some s) l.

(** A thread that read the counter before another one lowered it lowers it again, from
    0 to the largest word: later threads spin that often before they sleep. *)
Theorem critical_count_wraps : deal_count <$> run_cs (cs_start 2) [0; 0; 0; 0; 0; 1; 0; 0; 0; 0; 0; 1; 1; 1]%nat = Some 4294967295.
Proof. vm_compute. reflexivity. Qed.

(** ** Examples and limits *)

Definition run_spin (s : spin_sys) (l : list (nat * spin_act)) : option spin_sys := foldl (fun o x => s ← o; spin_step s x.1 x.2) (Some s) l.

Lemma run_spin_reach s l s' : run_spin s l = Some s' -> rtc sstep s s'.
Proof.
  revert s s'. induction l as [|[t a] l IH] using rev_ind; intros s s'; [by intros [= <-]|]. unfold run_spin. rewrite foldl_app. cbn [foldl fst snd]. fold (run_spin s l).
  destruct (run_spin s l) as [s1|] eqn:E; [|done]. cbn [mbind option_bind]. intros Hs. eapply rtc_r; [by apply IH|]. by exists t, a.
Qed.

(** Three threads: 1 draws its ticket before 0, the attempt of 2 fails. *)
Definition three_threads : list (nat * spin_act) := [(1%nat, Axadd); (0%nat, Axadd); (2%nat, Aread); (0%nat, Aspin); (1%nat, Aspin)].

Lemma spin_lock_witness : exists s q, run_spin (spin_start 3) three_threads = Some s /\ spin_inv s q /\ pcs s !! 1%nat = Some Own /\ q !! 0%nat = Some 1%nat /\ __ticket_spin_is_contended (head_tail s) = bool_decide (2 <= length q)%nat.
Proof.
  destruct (run_spin (spin_start 3) three_threads) as [s|] eqn:E; [|vm_compute in E; discriminate E].
  destruct (spin_lock_correct 3 s) as (q & Hi & Ho & _ & _ & _ & _ & Hc); [lia|exact (run_spin_reach _ _ _ E)|].
  assert (pcs s !! 1%nat = Some Own) as Hp by (vm_compute in E; injection E as <-; reflexivity).
  exists s, q. split; [exact eq_refl|]. split; [exact Hi|]. split; [exact Hp|]. split; [exact (Ho _ Hp)|exact Hc].
Defined.

Lemma rw_lock_witness : exists s', rw_step (rw_start 2) 1 Awrite_lock = Some s' /\ rpcs s' !! 1%nat = Some Writer.
Proof.
  destruct (rw_lock_correct 2 (rw_start 2)) as (_ & _ & _ & Hw); [lia|apply rtc_refl|]. exact (Hw 1%nat eq_refl eq_refl).
Defined.

(** With as many threads as tickets and one more, two threads own the lock. *)
Example tickets_run_out : (s ← run_spin (spin_start 257) (((fun t => (t, Axadd)) <$> seq 0 257) ++ [(0%nat, Aspin); (256%nat, Aspin)]); Some (pcs s !! 0%nat, pcs s !! 256%nat)) = Some (Some Own, Some Own).
Proof. vm_compute. reflexivity. Qed.
