(* ===== verification/Div64.v ===== *)
(** * Division of 64-bit numbers and the scale of clocks

    [drivers/hal/include/arch/x86/asm/div64.h], [math64.h] and [libs/div64.c], and
    their users [time/clocksource.c] and [time/clockevents.c], which find the factors
    between clock ticks and nanoseconds.  A processor of 32 bits divides 64 by 32 bits
    with [divl], which is a trap when the quotient has more than 32 bits: [None]. *)

From stdpp Require Import base.
From S2P Require Import Prelude.
Local Open Scope c_scope.

Definition NSEC_PER_SEC : Z := 1000000000.
Definition KTIME_MAX : Z := 2 ^ 63 - 1.
Definition UINT_MAX : Z := 4294967295.
Definition CLOCK_EVT_FEAT_ONESHOT : Z := 2.

Record clock_event_device := Clock {
  features : Z;
  mult : Z;
  shift : Z;
  min_delta_ticks : Z;
  max_delta_ticks : Z;
  min_delta_ns : Z;
  max_delta_ns : Z
}.

Module DivOps.

Definition u64 (z : Z) : Z := z mod 2 ^ 64.
Definition s64 (z : Z) : Z := let u := u64 z in if u <? 2 ^ 63 then u else u - 2 ^ 64.

(** Quotient and remainder of [upper:low]. *)
Definition divl (upper low base : Z) : option (Z * Z) :=
  let n := upper * 2 ^ 32 + low in
  if (base =? 0) || (2 ^ 32 <=? n / base) then None else Some (n / base, n mod base).

(** A division of words in C. *)
Definition divw (a b : Z) : option Z := if b =? 0 then None else Some (a / b).

(** The remainder and the new value of [n]. *)
Definition do_div (n base : Z) : option (Z * Z) :=
  let low := n mod 2 ^ 32 in let high := n / 2 ^ 32 in
  '(upper, high) ← (if high =? 0 then Some (high, high) else q ← divw high base; Some (high mod base, q));
  '(low, md) ← divl upper low base;
  Some (md, low + 2 ^ 32 * high).

(** The quotient and [*remainder]. *)
Definition div_u64_rem (dividend divisor : Z) : option (Z * Z) :=
  let low := dividend mod 2 ^ 32 in let upper := dividend / 2 ^ 32 in
  '(upper, high) ← (if divisor <=? upper then q ← divw upper divisor; Some (upper mod divisor, q) else Some (upper, 0));
  '(low, md) ← divl upper low divisor;
  Some (low + 2 ^ 32 * high, md).

Definition div_u64 (dividend divisor : Z) : option Z := '(q, _) ← div_u64_rem dividend divisor; Some q.

(** The two loops of [__div64_32]; 64 rounds are enough. *)
Fixpoint double_loop (fuel : nat) (b d rem : Z) : run (Z * Z) :=
  match fuel with
  | O => NoFuel
  | S fuel => if (0 <? s64 b) && (b <? rem) then double_loop fuel (u64 (b + b)) (u64 (d + d)) rem else Ret (b, d)
  end.

Fixpoint halve_loop (fuel : nat) (b d rem res : Z) : run (Z * Z) :=
  match fuel with
  | O => NoFuel
  | S fuel =>
    let '(rem, res) := if b <=? rem then (u64 (rem - b), u64 (res + d)) else (rem, res) in
    let b := Z.shiftr b 1 in let d := Z.shiftr d 1 in
    if d =? 0 then Ret (rem, res) else halve_loop fuel b d rem res
  end.

(** The remainder and the new value of [*n]. *)
Definition __div64_32 (n base : Z) : run (Z * Z) :=
  let rem := n in let b := base in let high := Z.shiftr rem 32 in
  '(res, rem) ← (if base <=? high then
      high ← lift (divw high base);
      Ret (Z.shiftl high 32, u64 (rem - Z.shiftl (wrap (high * base)) 32))
    else Ret (0, rem));
  '(b, d) ← double_loop 65 b 1 rem;
  '(rem, res) ← halve_loop 65 b d rem res;
  Ret (wrap rem, res).

Definition abs_ (x : Z) : Z := if x <? 0 then - x else x.

(** Signed, with a 32-bit divisor: the quotient and the remainder. *)
Definition div_s64_rem (dividend divisor : Z) : option (Z * Z) :=
  if dividend <? 0 then
    '(q, r) ← div_u64_rem (u64 (- dividend)) (wrap (abs_ divisor));
    Some (s64 (if 0 <? divisor then u64 (- q) else q), to_int (- to_int r))
  else
    '(q, r) ← div_u64_rem dividend (wrap (abs_ divisor));
    Some (s64 (if divisor <? 0 then u64 (- q) else q), to_int r).

Definition fls (x : Z) : Z := if x =? 0 then 0 else Z.log2 x + 1.

Definition div64_u64 (dividend divisor : Z) : option Z :=
  let high := Z.shiftr divisor 32 in
  if high =? 0 then div_u64 dividend (wrap divisor) else
  let n := 1 + fls high in
  quot ← div_u64 (Z.shiftr dividend n) (wrap (Z.shiftr divisor n));
  let quot := if quot =? 0 then quot else quot - 1 in
  Some (if divisor <=? u64 (dividend - quot * divisor) then u64 (quot + 1) else quot).

Definition div64_s64 (dividend divisor : Z) : option Z :=
  quot ← div64_u64 (u64 (abs_ dividend)) (u64 (abs_ divisor));
  let t := Z.shiftr (Z.lxor dividend divisor) 63 in
  Some (s64 (Z.lxor (s64 quot) t - t)).

(** [__iter_div_u64_rem]: the quotient and the remainder. *)
Fixpoint iter_div (fuel : nat) (dividend divisor ret : Z) : run (Z * Z) :=
  match fuel with
  | O => NoFuel
  | S fuel => if divisor <=? dividend then iter_div fuel (dividend - divisor) divisor (wrap (ret + 1)) else Ret (ret, dividend)
  end.

(** ** [clocksource.c] and [clockevents.c] *)

Fixpoint sftacc_loop (fuel : nat) (tmp sftacc : Z) : Z :=
  match fuel with
  | O => sftacc
  | S fuel => if tmp =? 0 then sftacc else sftacc_loop fuel (Z.shiftr tmp 1) (sftacc - 1)
  end.

(** The [for] loop from [sft] on; [tmp] and [sft] at its end. *)
Fixpoint sft_loop (sft : nat) (from to sftacc tmp : Z) : option (Z * Z) :=
  match sft with
  | O => Some (tmp, 0)
  | S k =>
    '(_, tmp) ← do_div (u64 (u64 (Z.shiftl to (Z.of_nat sft)) + from / 2)) from;
    if Z.shiftr tmp sftacc =? 0 then Some (tmp, Z.of_nat sft) else sft_loop k from to sftacc tmp
  end.

(** [*mult] and [*shift]. *)
Definition clocks_calc_mult_shift (from to maxsec : Z) : option (Z * Z) :=
  let tmp := Z.shiftr (maxsec * from) 32 in
  let sftacc := sftacc_loop 33 tmp 32 in
  '(tmp, sft) ← sft_loop 32 from to sftacc 0;
  Some (wrap tmp, sft).

(** The result and the new [mult]. *)
Definition clockevent_delta2ns (latch : Z) (evt : clock_event_device) : option (Z * clock_event_device) :=
  let clc := u64 (Z.shiftl latch (shift evt)) in
  let m := if mult evt =? 0 then 1 else mult evt in
  '(_, clc) ← do_div clc m;
  let clc := if clc <? 1000 then 1000 else clc in
  let clc := if KTIME_MAX <? clc then KTIME_MAX else clc in
  Some (clc, Clock (features evt) m (shift evt) (min_delta_ticks evt) (max_delta_ticks evt) (min_delta_ns evt) (max_delta_ns evt)).

Definition clockevents_config (dev : clock_event_device) (freq : Z) : option clock_event_device :=
  if Z.land (features dev) CLOCK_EVT_FEAT_ONESHOT =? 0 then Some dev else
  '(_, sec) ← do_div (max_delta_ticks dev) freq;
  let sec := if sec =? 0 then 1 else if (600 <? sec) && (UINT_MAX <? max_delta_ticks dev) then 600 else sec in
  '(m, sh) ← clocks_calc_mult_shift NSEC_PER_SEC freq (wrap sec);
  let dev := Clock (features dev) m sh (min_delta_ticks dev) (max_delta_ticks dev) (min_delta_ns dev) (max_delta_ns dev) in
  '(lo, dev) ← clockevent_delta2ns (min_delta_ticks dev) dev;
  let dev := Clock (features dev) (mult dev) (shift dev) (min_delta_ticks dev) (max_delta_ticks dev) lo (max_delta_ns dev) in
  '(hi, dev) ← clockevent_delta2ns (max_delta_ticks dev) dev;
  Some (Clock (features dev) (mult dev) (shift dev) (min_delta_ticks dev) (max_delta_ticks dev) (min_delta_ns dev) hi).

End DivOps.
Import DivOps.

(** ** Unsigned division by 32 bits *)

Lemma divl_ok upper low base : 0 <= upper < base -> 0 <= low < 2 ^ 32 -> divl upper low base = Some ((upper * 2 ^ 32 + low) / base, (upper * 2 ^ 32 + low) mod base).
Proof.
  intros Hu Hl. unfold divl. rewrite (proj2 (Z.eqb_neq base 0)) by lia. cbn [orb]. rewrite (proj2 (Z.leb_gt _ _)); [done|]. apply Z.div_lt_upper_bound; lia.
Qed.

(** The upper half first. *)
Lemma div_split n base : 0 < base -> let high := n / 2 ^ 32 in let low := n mod 2 ^ 32 in
  n / base = (high mod base * 2 ^ 32 + low) / base + 2 ^ 32 * (high / base) /\ n mod base = (high mod base * 2 ^ 32 + low) mod base.
Proof.
  intros Hb. cbn zeta. set (h := n / 2 ^ 32). set (l := n mod 2 ^ 32).
  assert (n = (h mod base * 2 ^ 32 + l) + (2 ^ 32 * (h / base)) * base) as E.
  { pose proof (Z.div_mod n (2 ^ 32)) as E1. pose proof (Z.div_mod h base) as E2. fold h l in E1. lia. }
  rewrite E at 1 2. rewrite Z.div_add, Z.mod_add by lia. done.
Qed.

Lemma do_div_spec n base : 0 <= n < 2 ^ 64 -> 0 < base < 2 ^ 32 -> do_div n base = Some (n mod base, n / base).
Proof.
  intros Hn Hb. destruct (div_split n base) as [-> ->]; [lia|]. unfold do_div, divw. set (h := n / 2 ^ 32). set (l := n mod 2 ^ 32).
  assert (0 <= h) as Hh by (apply Z.div_pos; lia). assert (0 <= l < 2 ^ 32) as Hl by (apply Z.mod_pos_bound; lia). pose proof (Z.mod_pos_bound h base ltac:(lia)) as Hm.
  rewrite (proj2 (Z.eqb_neq base 0)) by lia. destruct (Z.eqb_spec h 0) as [->|Hne]; cbn [mbind option_bind]; (rewrite divl_ok by lia); cbn [mbind option_bind]; [|done].
  by rewrite Z.mod_0_l, Z.div_0_l by lia.
Qed.

Lemma div_u64_rem_spec n base : 0 <= n < 2 ^ 64 -> 0 < base < 2 ^ 32 -> div_u64_rem n base = Some (n / base, n mod base).
Proof.
  intros Hn Hb. destruct (div_split n base) as [-> ->]; [lia|]. unfold div_u64_rem, divw. set (h := n / 2 ^ 32). set (l := n mod 2 ^ 32).
  assert (0 <= h) as Hh by (apply Z.div_pos; lia). assert (0 <= l < 2 ^ 32) as Hl by (apply Z.mod_pos_bound; lia). pose proof (Z.mod_pos_bound h base ltac:(lia)) as Hm.
  rewrite (proj2 (Z.eqb_neq base 0)) by lia. destruct (Z.leb_spec base h); cbn [mbind option_bind]; (rewrite divl_ok by lia); cbn [mbind option_bind]; [done|].
  by rewrite (Z.mod_small h base), (Z.div_small h base) by lia.
Qed.

Lemma div_u64_spec n base : 0 <= n < 2 ^ 64 -> 0 < base < 2 ^ 32 -> div_u64 n base = Some (n / base).
Proof. intros Hn Hb. unfold div_u64. by rewrite div_u64_rem_spec. Qed.

(** *** Without a division of 64 by 32 bits *)

Lemma u64_small z : 0 <= z < 2 ^ 64 -> u64 z = z.
Proof. intros H. unfold u64. by apply Z.mod_small. Qed.

Lemma s64_pos b : 0 <= b < 2 ^ 64 -> (0 <? s64 b) = (0 <? b) && (b <? 2 ^ 63).
Proof. intros Hb. unfold s64. rewrite u64_small by done. destruct (Z.ltb_spec b (2 ^ 63)); [by rewrite andb_true_r|]. rewrite andb_false_r. apply Z.ltb_ge. lia. Qed.

(** The divisor is doubled until it exceeds half of the rest. *)
Lemma double_loop_spec fuel base k rem : 0 < base -> 0 <= k -> base * 2 ^ k < 2 ^ 64 -> 0 <= rem < 2 ^ 64 -> 64 < Z.of_nat fuel + k -> (0 < fuel)%nat ->
  exists j, double_loop fuel (base * 2 ^ k) (2 ^ k) rem = Ret (base * 2 ^ j, 2 ^ j) /\ k <= j < 64 /\ base * 2 ^ j < 2 ^ 64 /\ rem < 2 * (base * 2 ^ j).
Proof.
  intros Hb. revert k. induction fuel as [|fuel IH]; intros k Hk Hlt Hr Hf H0; [lia|]. cbn [double_loop].
  assert (0 < 2 ^ k) as Hp by (apply Z.pow_pos_nonneg; lia). assert (k < 64) as Hk64 by (apply (Z.pow_lt_mono_r_iff 2); nia). rewrite s64_pos by nia.
  destruct (Z.ltb_spec 0 (base * 2 ^ k)) as [_|]; [|nia]. cbn [andb]. destruct (Z.ltb_spec (base * 2 ^ k) (2 ^ 63)) as [H63|H63]; cbn [andb]; [|exists k; split; [done|]; lia].
  destruct (Z.ltb_spec (base * 2 ^ k) rem) as [Hrem|Hrem]; [|exists k; split; [done|]; lia].
  assert (2 ^ (k + 1) = 2 * 2 ^ k) as Ek by (rewrite Z.pow_add_r; lia). rewrite !u64_small by nia.
  replace (base * 2 ^ k + base * 2 ^ k) with (base * 2 ^ (k + 1)) by nia. replace (2 ^ k + 2 ^ k) with (2 ^ (k + 1)) by lia.
  assert (k <> 63) as Hk63 by (intros ->; nia).
  destruct (IH (k + 1)) as (j & E & Hj & Hjb & Hjr); try lia. exists j. split; [done|]. lia.
Qed.

Lemma halve_loop_spec fuel base k rem res : 0 < base -> 0 <= k < Z.of_nat fuel -> base * 2 ^ k < 2 ^ 64 -> 0 <= rem < 2 * (base * 2 ^ k) -> 0 <= res -> base * res + rem < 2 ^ 64 ->
  exists r q, halve_loop fuel (base * 2 ^ k) (2 ^ k) rem res = Ret (r, q) /\ base * q + r = base * res + rem /\ 0 <= r < base.
Proof.
  intros Hb. revert k rem res. induction fuel as [|fuel IH]; intros k rem res Hk Hlt Hrem Hres Hn; [lia|]. cbn [halve_loop].
  assert (0 < 2 ^ k) as Hp by (apply Z.pow_pos_nonneg; lia). set (x := if base * 2 ^ k <=? rem then _ else _).
  assert (exists rem' res', x = (rem', res') /\ 0 <= rem' < base * 2 ^ k /\ 0 <= res' /\ base * res' + rem' = base * res + rem) as (rem' & res' & -> & Hr' & Hs' & Eq).
  { unfold x. destruct (Z.leb_spec (base * 2 ^ k) rem); [|exists rem, res; split; [done|]; lia]. exists (rem - base * 2 ^ k), (res + 2 ^ k). rewrite !u64_small by nia. split; [done|]. nia. }
  destruct (Z.eq_dec k 0) as [->|Hk0].
  - change (2 ^ 0) with 1 in *. change (Z.shiftr 1 1) with 0. cbn [Z.eqb]. exists rem', res'. split; [done|]. lia.
  - assert (2 ^ k = 2 * 2 ^ (k - 1)) as Ek by (rewrite <- Z.pow_succ_r by lia; f_equal; lia). assert (0 < 2 ^ (k - 1)) as Hp' by (apply Z.pow_pos_nonneg; lia).
    rewrite !Z.shiftr_div_pow2 by lia. change (2 ^ 1) with 2. rewrite Ek. replace (base * (2 * 2 ^ (k - 1))) with (base * 2 ^ (k - 1) * 2) by lia. rewrite (Z.mul_comm 2 (2 ^ (k - 1))), !Z.div_mul by lia.
    rewrite (proj2 (Z.eqb_neq _ 0)) by lia. assert (base * 2 ^ k = 2 * (base * 2 ^ (k - 1))) as E2 by (rewrite Ek; lia).
    destruct (IH (k - 1) rem' res') as (r & q & E & Eq' & Hr); try lia. exists r, q. rewrite E. split; [done|]. lia.
Qed.

Lemma div64_32_spec n base : 0 <= n < 2 ^ 64 -> 0 < base < 2 ^ 32 -> __div64_32 n base = Ret (n mod base, n / base).
Proof.
  intros Hn Hb. unfold __div64_32. generalize (eq_refl : Z.of_nat 65 = 65). generalize 65%nat as fuel. intros fuel Hf. rewrite Z.shiftr_div_pow2 by lia. set (h := n / 2 ^ 32). assert (0 <= h < 2 ^ 32) as Hh by (unfold h; split; [apply Z.div_pos; lia|apply Z.div_lt_upper_bound; lia]).
  assert (exists res rem, (if base <=? h then high ← lift (divw h base); Ret (Z.shiftl high 32, u64 (n - Z.shiftl (wrap (high * base)) 32)) else Ret (0, n)) = Ret (res, rem) /\
    base * res + rem = n /\ 0 <= res /\ 0 <= rem) as (res & rem & -> & Eq & Hres & Hrem).
  { destruct (Z.leb_spec base h); [|exists 0, n; split; [done|]; lia]. unfold divw. rewrite (proj2 (Z.eqb_neq base 0)) by lia. cbn [lift mbind run_bind]. rewrite !Z.shiftl_mul_pow2 by lia.
    pose proof (Z.div_mod h base ltac:(lia)) as E1. pose proof (Z.mod_pos_bound h base ltac:(lia)) as E2. pose proof (Z.div_mod n (2 ^ 32) ltac:(lia)) as E3. pose proof (Z.mod_pos_bound n (2 ^ 32) ltac:(lia)) as E4. fold h in E3.
    assert (0 <= h / base) by (apply Z.div_pos; lia). rewrite (wrap_small (h / base * base)) by (unfold is_word; lia). rewrite u64_small by lia. eexists _, _. split; [done|]. lia. }
  cbn [mbind run_bind]. destruct (double_loop_spec fuel base 0 rem) as (j & E & Hj & Hjb & Hjr); try lia. change (2 ^ 0) with 1 in E. rewrite Z.mul_1_r in E. rewrite E. cbn [mbind run_bind].
  destruct (halve_loop_spec fuel base j rem res) as (r & q & -> & Eq' & Hr); try lia. cbn [mbind run_bind]. rewrite wrap_small by (unfold is_word; lia).
  rewrite (Z.div_unique_pos n base q r), (Z.mod_unique_pos n base q r) by lia. done.
Qed.

(** ** Division by 64 bits *)

(** The shifted divisor [m] is close enough to [d] while the quotient has 30 bits. *)
Lemma shifted_quotient n d p e : 0 <= n -> 0 < p -> 2 ^ 30 * p <= d -> e = d / p -> n < 2 ^ 30 * d -> n / d <= n / p / e <= n / d + 1.
Proof.
  intros Hn Hp Hd -> Hq. pose proof (Z.div_mod d p ltac:(lia)) as E. pose proof (Z.mod_pos_bound d p Hp) as Er. set (e := d / p) in *.
  assert (2 ^ 30 <= e) as He by (apply Z.div_le_lower_bound; lia). rewrite Z.div_div by lia. pose proof (Z.div_mod n d ltac:(lia)) as En. pose proof (Z.mod_pos_bound n d ltac:(lia)) as Em.
  set (q := n / d) in *. assert (0 <= q) as Hq0 by (apply Z.div_pos; lia). assert (q < 2 ^ 30) as Hq1 by (apply Z.div_lt_upper_bound; lia). split.
  - apply Z.div_le_lower_bound; nia.
  - enough (n / (p * e) < q + 2) by lia. apply Z.div_lt_upper_bound; [nia|]. assert ((q + 1) * (d mod p) <= 2 ^ 30 * p) by nia. assert (2 ^ 30 * p <= p * e) by nia. nia.
Qed.

Lemma div64_u64_spec n d : 0 <= n < 2 ^ 64 -> 0 < d < 2 ^ 64 -> d < 2 ^ 32 \/ n < 2 ^ 30 * d -> div64_u64 n d = Some (n / d).
Proof.
  intros Hn Hd Hc. unfold div64_u64. rewrite Z.shiftr_div_pow2 by lia. set (h := d / 2 ^ 32). assert (0 <= h < 2 ^ 32) as Hh by (unfold h; split; [apply Z.div_pos; lia|apply Z.div_lt_upper_bound; lia]).
  destruct (Z.eqb_spec h 0) as [E0|Hh0].
  { assert (d < 2 ^ 32) as Hd32 by (unfold h in E0; apply Z.div_small_iff in E0; lia). rewrite wrap_small by (unfold is_word; lia). apply div_u64_spec; lia. }
  unfold fls. rewrite (proj2 (Z.eqb_neq h 0) Hh0). set (k := Z.log2 h). pose proof (Z.log2_nonneg h) as Hk. fold k in Hk. destruct (Z.log2_spec h ltac:(lia)) as [Hl Hu]. fold k in Hl, Hu.
  assert (k < 32) as Hk32 by (unfold k; apply Z.log2_lt_pow2; lia). replace (1 + (k + 1)) with (k + 2) by lia. rewrite !Z.shiftr_div_pow2 by lia. set (p := 2 ^ (k + 2)).
  assert (p = 4 * 2 ^ k /\ 0 < 2 ^ k) as [Ep Hp] by (unfold p; rewrite Z.pow_add_r by lia; split; [lia|apply Z.pow_pos_nonneg; lia]). rewrite Z.pow_succ_r in Hu by lia.
  pose proof (Z.div_mod d (2 ^ 32) ltac:(lia)) as Ed. pose proof (Z.mod_pos_bound d (2 ^ 32) ltac:(lia)) as Er. fold h in Ed. assert (2 ^ 30 * p <= d < 2 ^ 31 * p) as Hdp by lia.
  set (e := d / p). assert (2 ^ 30 <= e < 2 ^ 31) as He by (unfold e; split; [apply Z.div_le_lower_bound; lia|apply Z.div_lt_upper_bound; lia]).
  assert (0 <= n / p < 2 ^ 64) as Hnp by (split; [apply Z.div_pos; lia|apply Z.div_lt_upper_bound; nia]). rewrite wrap_small by (unfold is_word; lia). rewrite div_u64_spec by lia. cbn [mbind option_bind].
  assert (n < 2 ^ 30 * d) as Hq by lia. pose proof (shifted_quotient n d p e ltac:(lia) ltac:(lia) ltac:(lia) eq_refl Hq) as Hb.
  pose proof (Z.div_mod n d ltac:(lia)) as En. pose proof (Z.mod_pos_bound n d ltac:(lia)) as Em. set (q := n / d) in *. assert (0 <= q) as Hq0 by (apply Z.div_pos; lia). assert (q < 2 ^ 30) by (apply Z.div_lt_upper_bound; lia).
  set (x := n / p / e) in *. f_equal. destruct (Z.eqb_spec x 0) as [Ex|Ex].
  - rewrite Ex, Z.mul_0_l, Z.sub_0_r, u64_small by lia. assert (q = 0) by lia. rewrite (proj2 (Z.leb_gt _ _)) by nia. lia.
  - assert (x = q \/ x = q + 1) as [->| ->] by lia.
    + rewrite u64_small by nia. rewrite (proj2 (Z.leb_le _ _)) by nia. rewrite u64_small by lia. lia.
    + rewrite u64_small by nia. rewrite (proj2 (Z.leb_gt _ _)) by nia. lia.
Qed.

(** C39: the four routines for the division of unsigned numbers of 64 bits are the
    division: [do_div] and [div_u64_rem] by two divisions of the processor, neither of
    which traps, [__div64_32] by shifts and subtractions, with loops that end, for
    every divisor of 32 bits; and [div64_u64] for the divisors of 64 bits that fit
    into 32 bits or leave a quotient below 2^30. *)
Theorem division_correct n base : 0 <= n < 2 ^ 64 -> 0 < base < 2 ^ 32 ->
  do_div n base = Some (n mod base, n / base) /\ div_u64_rem n base = Some (n / base, n mod base) /\ __div64_32 n base = Ret (n mod base, n / base) /\
  forall d, 0 < d < 2 ^ 64 -> d < 2 ^ 32 \/ n < 2 ^ 30 * d -> div64_u64 n d = Some (n / d).
Proof.
  intros Hn Hb. split; [by apply do_div_spec|]. split; [by apply div_u64_rem_spec|]. split; [by apply div64_32_spec|]. intros d Hd Hc. by apply div64_u64_spec.
Qed.

(** The shift of [div64_u64] is one too large: above 2^30 the quotient is wrong. *)
Theorem div64_u64_wrong : div64_u64 (2 ^ 64 - 1) 0x100000003 = Some ((2 ^ 64 - 1) / 0x100000003 + 2).
Proof. vm_compute. reflexivity. Qed.

(** ** Signed division *)

Lemma s64_range z : - 2 ^ 63 <= z < 2 ^ 63 -> s64 z = z.
Proof.
  intros Hz. unfold s64, u64. destruct (Z.ltb_spec z 0).
  - rewrite (Z.mod_eq z (2 ^ 64)) by lia. replace (z / 2 ^ 64) with (-1) by (apply (Z.div_unique_pos z (2 ^ 64) (-1) (z + 2 ^ 64)); lia). rewrite (proj2 (Z.ltb_ge _ _)) by lia. lia.
  - rewrite Z.mod_small by lia. by rewrite (proj2 (Z.ltb_lt _ _)) by lia.
Qed.

Lemma s64_u64 z : s64 (u64 z) = s64 z.
Proof. unfold s64, u64. by rewrite Z.mod_mod by lia. Qed.

(** The quotient towards 0 by the absolute values. *)
Lemma quot_abs a b : b <> 0 -> Z.quot a b = (if Bool.eqb (a <? 0) (b <? 0) then 1 else -1) * (abs_ a / abs_ b) /\ Z.rem a b = (if a <? 0 then -1 else 1) * (abs_ a mod abs_ b).
Proof.
  intros Hb. unfold abs_. destruct (Z.ltb_spec a 0), (Z.ltb_spec b 0); cbn [Bool.eqb].
  - rewrite <- (Z.quot_opp_opp a b), <- (Z.opp_involutive (Z.rem a b)), <- Z.rem_opp_l, <- (Z.rem_opp_r (- a)), Z.quot_div_nonneg, Z.rem_mod_nonneg by lia. lia.
  - rewrite <- (Z.opp_involutive (Z.quot a b)), <- Z.quot_opp_l, <- (Z.opp_involutive (Z.rem a b)), <- Z.rem_opp_l, Z.quot_div_nonneg, Z.rem_mod_nonneg by lia. lia.
  - rewrite <- (Z.opp_involutive (Z.quot a b)), <- Z.quot_opp_r, <- (Z.rem_opp_r a), Z.quot_div_nonneg, Z.rem_mod_nonneg by lia. lia.
  - rewrite Z.quot_div_nonneg, Z.rem_mod_nonneg by lia. lia.
Qed.

Lemma abs_range a k : 0 <= k -> - 2 ^ k <= a < 2 ^ k -> 0 <= abs_ a <= 2 ^ k.
Proof. intros Hk Ha. unfold abs_. case_if; lia. Qed.

Lemma quot_bound x y k : 0 <= x <= 2 ^ k -> 0 < y -> 0 <= x / y <= 2 ^ k /\ (2 <= y -> 0 < k -> x / y < 2 ^ k).
Proof.
  intros Hx Hy. split; [split; [apply Z.div_pos; lia|apply Z.div_le_upper_bound; nia]|]. intros Hy2 Hk. apply Z.div_lt_upper_bound; [lia|]. assert (0 < 2 ^ k) by (apply Z.pow_pos_nonneg; lia). nia.
Qed.

(** Signed division is truncated division, except for the one quotient that is not a
    number of 64 bits. *)
Theorem div_s64_rem_correct a b : - 2 ^ 63 <= a < 2 ^ 63 -> - 2 ^ 31 <= b < 2 ^ 31 -> b <> 0 -> ~ (a = - 2 ^ 63 /\ b = -1) ->
  div_s64_rem a b = Some (Z.quot a b, Z.rem a b).
Proof.
  intros Ha Hb Hb0 Hov. destruct (quot_abs a b Hb0) as [-> ->]. pose proof (abs_range a 63 ltac:(lia) Ha) as Ra. pose proof (abs_range b 31 ltac:(lia) Hb) as Rb.
  assert (0 < abs_ b) as Pb by (unfold abs_; case_if; lia). destruct (quot_bound (abs_ a) (abs_ b) 63 Ra Pb) as [Bq Bq2]. pose proof (Z.mod_pos_bound (abs_ a) (abs_ b) Pb) as Br.
  unfold div_s64_rem. rewrite (wrap_small (abs_ b)) by (unfold is_word; lia).
  assert (abs_ a / abs_ b < 2 ^ 63 \/ Bool.eqb (a <? 0) (b <? 0) = false) as Hfit.
  { destruct (Z.eq_dec (abs_ b) 1) as [E1|E1]; [|left; apply Bq2; lia]. rewrite E1, Z.div_1_r. destruct (Z.eq_dec (abs_ a) (2 ^ 63)) as [E2|E2]; [right|left; lia].
    unfold abs_ in E1, E2. destruct (Z.ltb_spec a 0), (Z.ltb_spec b 0); cbn; try done; lia. }
  set (q := abs_ a / abs_ b) in *. set (r := abs_ a mod abs_ b) in *. destruct (Z.ltb_spec a 0) as [Na|Na].
  - replace (- a) with (abs_ a) by (unfold abs_; rewrite (proj2 (Z.ltb_lt a 0) Na); lia). rewrite u64_small, div_u64_rem_spec by lia. fold q r. cbn [mbind option_bind].
    rewrite (to_int_small r) by lia. replace (to_int (- r)) with (-1 * r) by (unfold to_int, wrap; case_if; zlia). do 2 f_equal.
    destruct (Z.ltb_spec b 0), (Z.ltb_spec 0 b); cbn [Bool.eqb] in *; try lia; rewrite ?s64_u64, s64_range by (destruct Hfit; [lia|done] || lia); lia.
  - replace a with (abs_ a) at 1 by (unfold abs_; rewrite (proj2 (Z.ltb_ge a 0) Na); lia). rewrite div_u64_rem_spec by lia. fold q r. cbn [mbind option_bind].
    rewrite (to_int_small r) by lia. rewrite Z.mul_1_l. do 2 f_equal. destruct (Z.ltb_spec b 0); cbn [Bool.eqb] in *; rewrite ?s64_u64, s64_range by (destruct Hfit; [lia|done] || lia); lia.
Qed.

(** [__iter_div_u64_rem] ends after as many rounds as the quotient has ones. *)
Lemma iter_div_spec fuel n d r : 0 <= n -> 0 < d -> n / d < Z.of_nat fuel -> is_word r -> iter_div fuel n d r = Ret (wrap (r + n / d), n mod d).
Proof.
  intros Hn Hd. revert n r Hn. induction fuel as [|fuel IH]; intros n r Hn Hf Hr; [pose proof (Z.div_pos n d Hn Hd); lia|]. cbn [iter_div]. destruct (Z.leb_spec d n).
  - assert (n / d = (n - d) / d + 1) as E by (replace n with ((n - d) + 1 * d) at 1 by lia; rewrite Z.div_add by lia; done). rewrite IH; [|lia|lia|apply wrap_is_word].
    f_equal. f_equal; [rewrite E; unfold wrap; rewrite Zplus_mod_idemp_l; f_equal; lia|]. replace n with ((n - d) + 1 * d) at 2 by lia. by rewrite Z.mod_add by lia.
  - rewrite Z.div_small, Z.mod_small, Z.add_0_r, wrap_small by (done || lia). done.
Qed.

(** ** The scale of clocks *)

Definition bits (z : Z) : Z := if z =? 0 then 0 else Z.log2 z + 1.

Lemma bits_spec z : 0 <= z -> 0 <= bits z /\ z < 2 ^ bits z /\ forall k, 0 <= k -> z < 2 ^ k -> bits z <= k.
Proof.
  intros Hz. unfold bits. destruct (Z.eqb_spec z 0) as [->|Hne]; [split; [done|]; split; [lia|]; intros; lia|]. destruct (Z.log2_spec z ltac:(lia)) as [H1 H2]. pose proof (Z.log2_nonneg z).
  split; [lia|]. split; [by rewrite Z.add_1_r|]. intros k Hk Hlt. enough (Z.log2 z < k) by lia. apply Z.log2_lt_pow2; lia.
Qed.

Lemma sftacc_loop_spec fuel tmp acc : 0 <= tmp < 2 ^ Z.of_nat fuel -> sftacc_loop fuel tmp acc = acc - bits tmp.
Proof.
  revert tmp acc. induction fuel as [|fuel IH]; intros tmp acc Ht; cbn [sftacc_loop]; [change (2 ^ Z.of_nat 0) with 1 in Ht; replace tmp with 0 by lia; cbn; lia|].
  destruct (Z.eqb_spec tmp 0) as [->|Hne]; [cbn; lia|]. rewrite Nat2Z.inj_succ, Z.pow_succ_r in Ht by lia. rewrite IH by (rewrite Z.shiftr_div_pow2 by lia; change (2 ^ 1) with 2; zlia).
  unfold bits at 2. rewrite (proj2 (Z.eqb_neq tmp 0) Hne). unfold bits. rewrite Z.shiftr_div_pow2 by lia. change (2 ^ 1) with 2. destruct (Z.eqb_spec (tmp / 2) 0) as [E|E].
  - replace tmp with 1 by zlia. change (Z.log2 1) with 0. lia.
  - pose proof (Z.log2_shiftr tmp 1) as El. rewrite Z.shiftr_div_pow2 in El by lia. change (2 ^ 1) with 2 in El. pose proof (Z.log2_pos tmp ltac:(zlia)). lia.
Qed.

(** The factor for a shift, rounded. *)
Definition factor (from to sft : Z) : Z := (to * 2 ^ sft + from / 2) / from.

Lemma sft_loop_spec sft from to acc tmp : (sft <= 32)%nat -> 0 < from < 2 ^ 32 -> 0 < to < 2 ^ 32 -> 0 <= acc ->
  exists m s, sft_loop sft from to acc tmp = Some (m, s) /\ 0 <= s <= Z.of_nat sft /\ (0 < s -> m = factor from to s /\ m < 2 ^ acc) /\
    (forall k, s < k <= Z.of_nat sft -> 2 ^ acc <= factor from to k) /\ (s = 0 -> m = match sft with O => tmp | S _ => factor from to 1 end).
Proof.
  intros Hs Hf Ht Ha. revert tmp. induction sft as [|sft IH]; intros tmp; [exists tmp, 0; split; [done|]; split; [lia|]; split; [lia|]; split; [intros k Hk; lia|done]|]. cbn [sft_loop]. set (k := Z.of_nat (S sft)). assert (0 < k <= 32) as Hk by (unfold k; lia).
  assert (0 < 2 ^ k <= 2 ^ 32) as Hp by (split; [apply Z.pow_pos_nonneg; lia|apply Z.pow_le_mono_r; lia]). assert (0 < to * 2 ^ k <= (2 ^ 32 - 1) * 2 ^ 32) as Htk by nia. assert (0 <= from / 2 < 2 ^ 32) as Hf2 by zlia.
  rewrite Z.shiftl_mul_pow2, (u64_small (to * 2 ^ k)), u64_small by lia.
  rewrite do_div_spec by lia. cbn [mbind option_bind]. fold (factor from to k). assert (0 <= factor from to k) as Hfk by (unfold factor; apply Z.div_pos; lia).
  rewrite Z.shiftr_div_pow2 by done. assert (0 < 2 ^ acc) by (apply Z.pow_pos_nonneg; lia). destruct (Z.eqb_spec (factor from to k / 2 ^ acc) 0) as [E|E].
  - exists (factor from to k), k. split; [done|]. split; [lia|]. split; [|split; lia]. intros _. split; [done|]. apply Z.div_small_iff in E; lia.
  - destruct (IH ltac:(lia) (factor from to k)) as (m & s & -> & Hsr & Hm & Hl & H0). exists m, s. split; [done|]. split; [lia|]. split; [done|]. split; [|intros E0; rewrite (H0 E0); by destruct sft].
    intros j Hj. destruct (Z.eq_dec j k) as [->|]; [|apply Hl; lia]. destruct (Z.lt_ge_cases (factor from to k) (2 ^ acc)); [|done]. destruct E. by apply Z.div_small.
Qed.

(** The factor of the shift [k] is small enough for [maxsec] seconds: it fits in the
    bits of a word that the upper half of the number of ticks leaves. *)
Definition fits (from to maxsec k : Z) : Prop := factor from to k < 2 ^ (32 - bits (maxsec * from / 2 ^ 32)).

(** What fits is precise to half a step, and does not overflow. *)
Lemma fits_exact from to maxsec k : 0 < from < 2 ^ 32 -> 0 < to < 2 ^ 32 -> 0 <= maxsec < 2 ^ 32 -> 0 <= k -> fits from to maxsec k ->
  is_word (factor from to k) /\ 2 * Z.abs (from * factor from to k - to * 2 ^ k) <= from /\ maxsec * from * factor from to k < 2 ^ 64.
Proof.
  intros Hf Ht Hm Hk. unfold fits. set (h := maxsec * from / 2 ^ 32). assert (0 <= h < 2 ^ 32) as Hh by (unfold h; split; [apply Z.div_pos; nia|apply Z.div_lt_upper_bound; nia]).
  destruct (bits_spec h ltac:(lia)) as (Hb0 & Hb1 & Hb2). specialize (Hb2 32 ltac:(lia) ltac:(lia)). set (m := factor from to k). intros Hlt.
  assert (0 < 2 ^ k) by (apply Z.pow_pos_nonneg; lia). assert (0 <= m) as Hm0 by (unfold m, factor; apply Z.div_pos; zlia).
  assert (2 ^ (32 - bits h) * 2 ^ bits h = 2 ^ 32) as Ep by (rewrite <- Z.pow_add_r by lia; f_equal; lia). assert (0 < 2 ^ bits h) by (apply Z.pow_pos_nonneg; lia). assert (0 < 2 ^ (32 - bits h) <= 2 ^ 32) by nia.
  split; [unfold is_word; lia|]. split.
  - pose proof (Z.div_mod (to * 2 ^ k + from / 2) from ltac:(lia)) as E1. pose proof (Z.mod_pos_bound (to * 2 ^ k + from / 2) from ltac:(lia)). fold (factor from to k) in E1. fold m in E1. zlia.
  - assert (maxsec * from < (h + 1) * 2 ^ 32) as Hmf by (unfold h; pose proof (Z.div_mod (maxsec * from) (2 ^ 32) ltac:(lia)); pose proof (Z.mod_pos_bound (maxsec * from) (2 ^ 32) ltac:(lia)); lia).
    assert (m + 1 <= 2 ^ (32 - bits h)) by lia. assert (h + 1 <= 2 ^ bits h) by lia. assert ((h + 1) * (m + 1) <= 2 ^ 32) by nia. assert (0 <= maxsec * from) by nia. nia.
Qed.

(** C40: [clocks_calc_mult_shift] returns.  If the factor of some shift from 1 to 32 is
    small enough for [maxsec] seconds, it finds the largest such shift with its factor:
    the quotient of the frequencies times the power of two of the shift, rounded, so
    that the product of the ticks of [maxsec] seconds with it stays below 2^64.  If
    none is, the shift is 0 and the factor is the one computed last, that of the
    shift 1, cut to 32 bits. *)
Theorem clocks_calc_mult_shift_correct from to maxsec : 0 < from < 2 ^ 32 -> 0 < to < 2 ^ 32 -> 0 <= maxsec < 2 ^ 32 ->
  exists m s, clocks_calc_mult_shift from to maxsec = Some (m, s) /\
    ((exists k, 1 <= k <= 32 /\ fits from to maxsec k) ->
       1 <= s <= 32 /\ m = factor from to s /\ fits from to maxsec s /\ (forall k, s < k <= 32 -> ~ fits from to maxsec k) /\
       2 * Z.abs (from * m - to * 2 ^ s) <= from /\ maxsec * from * m < 2 ^ 64) /\
    ((forall k, 1 <= k <= 32 -> ~ fits from to maxsec k) -> s = 0 /\ m = wrap (factor from to 1)).
Proof.
  intros Hf Ht Hm. unfold clocks_calc_mult_shift. rewrite Z.shiftr_div_pow2 by lia. pose proof (fun k => fits_exact from to maxsec k Hf Ht Hm) as Hex. unfold fits in *. set (h := maxsec * from / 2 ^ 32) in *.
  assert (0 <= h < 2 ^ 32) as Hh by (unfold h; split; [apply Z.div_pos; nia|apply Z.div_lt_upper_bound; nia]).
  rewrite sftacc_loop_spec by (change (Z.of_nat 33) with 33; lia). destruct (bits_spec h ltac:(lia)) as (_ & _ & Hb). specialize (Hb 32 ltac:(lia) ltac:(lia)).
  destruct (sft_loop_spec 32 from to (32 - bits h) 0) as (m & s & -> & Hs & Hfound & Hbest & H0); try lia. cbn [mbind option_bind]. change (Z.of_nat 32) with 32 in *. eexists _, s. split; [done|]. split.
  - intros (k & Hk & Hfit). assert (0 < s) as Hs0 by (destruct (Z.lt_ge_cases s k) as [Hlt|]; [specialize (Hbest k); lia|lia]). destruct (Hfound Hs0) as [-> Hlt]. destruct (Hex s ltac:(lia) Hlt) as (Hw & H1 & H2).
    rewrite wrap_small by done. split; [lia|]. split; [done|]. split; [done|]. split; [intros j Hj; specialize (Hbest j Hj); lia|done].
  - intros Hno. assert (s = 0) as E by (destruct (Z.lt_ge_cases 0 s) as [Hs0|]; [destruct (Hfound Hs0) as [-> Hlt]; destruct (Hno s); [lia|done]|lia]). split; [done|]. by rewrite (H0 E).
Qed.

(** The sign by exclusive or. *)
Lemma sign_xor a b : - 2 ^ 63 <= a < 2 ^ 63 -> - 2 ^ 63 <= b < 2 ^ 63 -> Z.shiftr (Z.lxor a b) 63 = if Bool.eqb (a <? 0) (b <? 0) then 0 else -1.
Proof.
  intros Ha Hb. assert (forall x, - 2 ^ 63 <= x < 2 ^ 63 -> Z.shiftr x 63 = if x <? 0 then -1 else 0) as Hs.
  { intros x Hx. rewrite Z.shiftr_div_pow2 by lia. destruct (Z.ltb_spec x 0); [symmetry; apply (Z.div_unique_pos x (2 ^ 63) (-1) (x + 2 ^ 63)); lia|apply Z.div_small; lia]. }
  rewrite Z.shiftr_lxor, !Hs by lia. by destruct (a <? 0), (b <? 0).
Qed.

Theorem div64_s64_correct a b : - 2 ^ 63 <= a < 2 ^ 63 -> - 2 ^ 63 <= b < 2 ^ 63 -> b <> 0 -> ~ (a = - 2 ^ 63 /\ b = -1) -> abs_ b < 2 ^ 32 \/ abs_ a < 2 ^ 30 * abs_ b ->
  div64_s64 a b = Some (Z.quot a b).
Proof.
  intros Ha Hb Hb0 Hov Hc. destruct (quot_abs a b Hb0) as [-> _]. pose proof (abs_range a 63 ltac:(lia) Ha) as Ra. pose proof (abs_range b 63 ltac:(lia) Hb) as Rb.
  assert (0 < abs_ b) as Pb by (unfold abs_; case_if; lia). destruct (quot_bound (abs_ a) (abs_ b) 63 Ra Pb) as [Bq Bq2]. unfold div64_s64. rewrite !u64_small, div64_u64_spec by lia. cbn [mbind option_bind].
  rewrite sign_xor by done. set (q := abs_ a / abs_ b) in *. f_equal.
  assert (q < 2 ^ 63 \/ (q = 2 ^ 63 /\ Bool.eqb (a <? 0) (b <? 0) = false)) as Hfit.
  { destruct (Z.eq_dec (abs_ b) 1) as [E1|E1]; [|left; apply Bq2; lia]. unfold q. rewrite E1, Z.div_1_r. destruct (Z.eq_dec (abs_ a) (2 ^ 63)) as [E2|E2]; [right; split; [done|]|left; lia].
    unfold abs_ in E1, E2. destruct (Z.ltb_spec a 0), (Z.ltb_spec b 0); cbn; try done; lia. }
  destruct Hfit as [Hq|[-> ->]]; [|vm_compute; reflexivity]. rewrite (s64_range q) by lia. destruct (Bool.eqb _ _); [rewrite Z.lxor_0_r, s64_range; lia|]. rewrite Z.lxor_m1_r. unfold Z.lnot. rewrite s64_range; lia.
Qed.

(** Nanoseconds of a number of ticks, between a microsecond and the end of time. *)
Lemma clockevent_delta2ns_spec latch evt : is_word latch -> is_word (mult evt) -> 0 <= shift evt <= 32 -> exists ns,
  clockevent_delta2ns latch evt = Some (ns, Clock (features evt) (if mult evt =? 0 then 1 else mult evt) (shift evt) (min_delta_ticks evt) (max_delta_ticks evt) (min_delta_ns evt) (max_delta_ns evt)) /\
  1000 <= ns <= KTIME_MAX /\ ns = Z.min KTIME_MAX (Z.max 1000 (latch * 2 ^ shift evt / (if mult evt =? 0 then 1 else mult evt))).
Proof.
  intros Hl Hm Hs. unfold clockevent_delta2ns. set (m := if mult evt =? 0 then 1 else mult evt). assert (0 < m < 2 ^ 32) as Hm' by (unfold m, is_word in *; destruct (Z.eqb_spec (mult evt) 0); lia).
  assert (0 < 2 ^ shift evt <= 2 ^ 32) as Hp by (split; [apply Z.pow_pos_nonneg; lia|apply Z.pow_le_mono_r; lia]). unfold is_word in *. rewrite Z.shiftl_mul_pow2, u64_small by nia. rewrite do_div_spec by nia. cbn [mbind option_bind].
  set (c := latch * 2 ^ shift evt / m). eexists. split; [reflexivity|]. unfold KTIME_MAX. destruct (Z.ltb_spec c 1000); case_if; rewrite ?Z.ltb_lt, ?Z.ltb_ge in *; lia.
Qed.

(** Configuring a clock returns for every frequency that is not 0. *)
Theorem clockevents_config_correct dev freq : 0 < freq < 2 ^ 32 -> is_word (min_delta_ticks dev) -> is_word (max_delta_ticks dev) -> Z.land (features dev) CLOCK_EVT_FEAT_ONESHOT <> 0 ->
  exists dev', clockevents_config dev freq = Some dev' /\ 0 < mult dev' < 2 ^ 32 /\ 0 <= shift dev' <= 32 /\ 1000 <= min_delta_ns dev' <= KTIME_MAX /\ 1000 <= max_delta_ns dev' <= KTIME_MAX /\
    (min_delta_ticks dev <= max_delta_ticks dev -> min_delta_ns dev' <= max_delta_ns dev').
Proof.
  intros Hf Hlo Hhi Hfe. unfold clockevents_config. rewrite (proj2 (Z.eqb_neq _ 0) Hfe). unfold is_word in Hhi. rewrite do_div_spec by lia. cbn [mbind option_bind]. set (sec := if _ =? 0 then 1 else _).
  destruct (sft_loop_spec 32 NSEC_PER_SEC freq (32 - bits (wrap sec * NSEC_PER_SEC / 2 ^ 32)) 0) as (m & s & E & Hs & _); [lia|unfold NSEC_PER_SEC; lia|lia| |].
  { pose proof (wrap_is_word sec) as Hw. unfold is_word in Hw. destruct (bits_spec (wrap sec * NSEC_PER_SEC / 2 ^ 32)) as (_ & _ & Hb); [apply Z.div_pos; unfold NSEC_PER_SEC; lia|]. enough (bits (wrap sec * NSEC_PER_SEC / 2 ^ 32) <= 32) by lia.
    apply Hb; [lia|]. apply Z.div_lt_upper_bound; unfold NSEC_PER_SEC; lia. }
  unfold clocks_calc_mult_shift. rewrite Z.shiftr_div_pow2 by lia. rewrite sftacc_loop_spec.
  2: { pose proof (wrap_is_word sec) as Hw. unfold is_word in Hw. change (Z.of_nat 33) with 33. split; [apply Z.div_pos; unfold NSEC_PER_SEC; lia|apply Z.div_lt_upper_bound; unfold NSEC_PER_SEC; lia]. }
  rewrite E. cbn [mbind option_bind]. pose proof (wrap_is_word m) as Hm. set (dev1 := Clock _ (wrap m) s _ _ _ _). change (Z.of_nat 32) with 32 in Hs.
  change (min_delta_ticks dev1) with (min_delta_ticks dev). destruct (clockevent_delta2ns_spec (min_delta_ticks dev) dev1 Hlo Hm Hs) as (lo & -> & Rlo & Elo). cbn [mbind option_bind features mult shift min_delta_ticks max_delta_ticks max_delta_ns]. set (dev2 := Clock _ _ _ _ _ lo _).
  assert (mult dev2 <> 0 /\ is_word (mult dev2)) as [Hm2 Hw2] by (unfold dev2; cbn; unfold is_word in *; destruct (Z.eqb_spec (wrap m) 0); lia).
  destruct (clockevent_delta2ns_spec (max_delta_ticks dev) dev2 Hhi Hw2 Hs) as (hi & E2 & Rhi & Ehi). cbn [mbind option_bind] in *. change (max_delta_ticks dev1) with (max_delta_ticks dev). rewrite E2. cbn [mbind option_bind].
  eexists. split; [reflexivity|]. cbn [mult shift min_delta_ns max_delta_ns]. rewrite (proj2 (Z.eqb_neq _ 0) Hm2). change (min_delta_ns dev2) with lo. change (shift dev2) with s. unfold is_word in *. split; [lia|]. split; [exact Hs|]. split; [exact Rlo|]. split; [exact Rhi|].
  intros Hle. rewrite Elo, Ehi, (proj2 (Z.eqb_neq _ 0) Hm2). change (shift dev1) with s. change (shift dev2) with s. change (if mult dev1 =? 0 then 1 else mult dev1) with (mult dev2).
  apply Z.min_le_compat_l, Z.max_le_compat_l, Z.div_le_mono; [lia|]. apply Z.mul_le_mono_nonneg_r; [apply Z.pow_nonneg; lia|done].
Qed.

(** When no shift fits, the factor is that of the shift 1 and the shift is 0. *)
Theorem clocks_shift_mismatch : clocks_calc_mult_shift 1 (2 ^ 31) 1 = Some (0, 0) /\ clocks_calc_mult_shift 1000 (2 ^ 32 - 1) (2 ^ 32 - 1) = Some (factor 1000 (2 ^ 32 - 1) 1, 0).
Proof. split; vm_compute; reflexivity. Qed.

(** ** Examples *)

Lemma division_witness : do_div (2 ^ 64 - 1) 10 = Some (5, 1844674407370955161) /\ __div64_32 (2 ^ 64 - 1) 10 = Ret (5, 1844674407370955161) /\ div64_u64 (2 ^ 64 - 1) (2 ^ 40) = Some 16777215.
Proof.
  destruct (division_correct (2 ^ 64 - 1) 10) as (E1 & _ & E2 & E3); [lia|lia|]. split; [exact E1|]. split; [exact E2|]. apply (E3 (2 ^ 40)); lia.
Defined.

(** The factor for the timer of the PC, 1193182 Hz: the shift 32 fits. *)
Lemma clocks_witness : exists m, clocks_calc_mult_shift 1000000000 1193182 600 = Some (m, 32) /\ m = factor 1000000000 1193182 32 /\ 600 * 1000000000 * m < 2 ^ 64.
Proof.
  destruct (clocks_calc_mult_shift_correct 1000000000 1193182 600) as (m & s & E & H & _); [lia|lia|lia|].
  assert (fits 1000000000 1193182 600 32) as H32 by (vm_compute; reflexivity).
  destruct H as (Hs & Em & _ & Hbest & _ & Hlt); [exists 32; split; [lia|exact H32]|].
  assert (s = 32) as Es by (destruct (Z.lt_ge_cases s 32) as [L|]; [destruct (Hbest 32); [lia|exact H32]|lia]).
  rewrite Es in E, Em. exists m. split; [exact E|]. split; [exact Em|exact Hlt].
Defined.

Example pit_factor : clocks_calc_mult_shift 1000000000 1193182 600 = Some (5124678, 32).
Proof. vm_compute. reflexivity. Qed.
